(* ===== verification/_CoqProject ===== *)
-Q . S2P
Prelude.v
RtlBitmap.v
RtlBitmapSpec.v
LargeInt.v
NtTime.v
NtTimeSpec.v
Acm.v
G711.v
G711Spec.v
ImaAdpcm.v
ImaAdpcmSpec.v
Utf8.v
Utf8Spec.v
Rect.v
RectSpec.v
SList.v
SListSpec.v
FileIO.v
Lz.v
LzSpec.v
MemCache.v
MemCacheList.v
MemCacheSpec.v
MemCacheSim.v
CritSect.v
CritSectInv.v
CritSectSpec.v
Atom.v
AtomSpec.v
Region.v
RegionBand.v
RegionMerge.v
RegionSweep.v
RegionOps.v
RegionSpec.v
RegionData.v
RegionCrop.v
RegionCalls.v
Digest.v
DigestSpec.v
Base64.v
Base64Spec.v
Der.v
DerSpec.v
DerDecodeSpec.v
CodePage.v
CodePageSpec.v
CodePageRead.v
CodePageCalls.v
MsiString.v
MsiStringSpec.v
MsiStreamSpec.v
MsiStringSave.v
MsiStringCalls.v
Dpa.v
DpaSort.v
DpaSpec.v
DpaMerge.v
DpaCalls.v
Dsa.v
DsaSpec.v
