(* ===== verification/Prelude.v ===== *)
(** * A verification library for the run-time core of WineX

    WineX implements the Win32 interfaces on Unix hosts.  Its source under
    winex/ is a set of libraries (dlls/), a few support libraries (libs/) and
    tools; programs call the libraries, the libraries call each other and a
    server process that is not part of the repository.  This development
    translates the parts of winex/ that carry logic of their own into Rocq
    functions and step relations and proves what makes them correct.

    ** How code is modelled

    A C integer is a [Z]; where its width matters the wrap-around is written
    out ([wrapU], [wrapS], abbreviated [u32], [s16], ...).  Code that can go
    wrong returns an [outcome]: [Ret v], [Fault] for an access outside of an
    object, a division by zero or an overflow that C leaves undefined, and
    [Spin] when the fuel of a loop is used up.  Arrays are lists accessed with
    [rd] and [wr], which fault outside.  Objects that are linked by pointers
    live in finite maps from pointers or handles to records.  State is passed
    explicitly; code that several threads run at once is a function on program
    points, one memory access at a time, run by any schedule.  Calls that end
    in the server process, in the kernel of the host or in a code page are
    type classes ([Server], [AtomServer], [FileIO], [Semaphores], [IStorage])
    with their laws in a second class; the theorems hold for every instance and an instance on
    plain memory shows that the laws can hold.

    Fuel is always the size of the structure that the loop walks along (the
    bits of a bitmap, the objects of a list, the rectangles of two regions),
    and the theorems that state a result show that [Spin] is never one.

    ** The files

    - Prelude: integers, outcomes, memory, characters, tactics.
    - RtlBitmap, RtlBitmapSpec: dlls/ntdll/rtlbitmap.c.  Every function sets,
      clears, tests, finds and counts exactly the bits of a range, or returns
      the error value; the searches for runs are right from byte boundaries
      (and, as theorems show, wrong elsewhere).
    - LargeInt: dlls/ntdll/large_int.c.  Division against its definition.
    - NtTime, NtTimeSpec: dlls/ntdll/time.c.  Calendar fields are those of the
      Gregorian calendar and inverse to times; the counters do not run
      backwards.
    - Acm: the wave formats that the codec drivers share.
    - G711, G711Spec: dlls/msacm/msg711/msg711.c.  A-law and u-law coding,
      tables and streams: round trips, quantisation bounds, stream behaviour.
    - ImaAdpcm, ImaAdpcmSpec: dlls/msacm/imaadp32/imaadp32.c.  The decoder
      against a reference written from the IMA recommendation, the coder in step
      with it, and what the stream calls accept.
    - Utf8, Utf8Spec: libs/unicode/utf8.c.  Round trip with the standard
      encoding, behaviour on any input, never outside of the buffers.
    - Rect, RectSpec: dlls/user/rect.c.  Rectangle operations as set
      operations, arguments possibly being the same rectangle.
    - SList, SListSpec: dlls/ntdll/slist.c.  The lock-free list is
      linearizable when no entry is pushed twice, and not otherwise.
    - FileIO: the handle calls of dlls/ntdll/file_kernel.c over an interface.
    - Lz, LzSpec: dlls/lzexpand/lzexpand_main.c, a client of FileIO.  Reading
      and copying give the decompressed file; seeking and names.
    - MemCache, MemCacheList, MemCacheSpec, MemCacheSim:
      dlls/ntdll/mem_file.c with the calls above it.  The doubly linked list
      is a sequence; the calls with the cache simulate the calls without it;
      what happens when the cache makes room, when a read starts past the end
      and when memory runs out.
    - CritSect, CritSectInv, CritSectSpec: dlls/ntdll/critsection.c and
      critsection_kernel.c, over an interface of the system's semaphores.  Mutual
      exclusion, progress and the bound of the semaphore, for all interleavings,
      and the wake-up that is lost when the system refuses a semaphore.
    - Atom, AtomSpec: dlls/ntdll/atom.c.  The hash table of a segment refines
      a map from names to counted atoms; integer atoms round-trip.
    - Region: dlls/gdi/region.c, regions as bands of rectangles and the sweep
      that combines two of them; RegionBand, RegionMerge, RegionSweep and
      RegionOps prove it band by band against the interface [BandFuncs]:
      every operation is the operation on sets of points, in a canonical form
      that is unique.  RegionSpec, RegionData, RegionCrop and RegionCalls state
      what the calls promise: combining, comparing, data, moving, cropping,
      frames, what sequences of calls keep, and the calls that break it: a
      region combined with itself into itself, an empty region cropped.
    - Digest, DigestSpec: dlls/advapi32/crypt_md5.c and crypt_sha.c.  Feeding a
      message in pieces of any lengths gives the MD5 of RFC 1321 and the SHA-1
      of FIPS 180.
    - Base64, Base64Spec: dlls/crypt32/base64.c.  Encoding and decoding are
      inverse, decoding stays within what it counts, and the lengths for which
      a trailer is lost.
    - Der, DerSpec, DerDecodeSpec: dlls/crypt32/encode.c and decode.c, the DER
      codec.  An encoder meets an interface that says what it does with the
      bytes it stands for; the encoders that combine others are proved against
      it.  Round trips, the end of nested encodings of indefinite length, and
      the truncated encodings that are accepted.
    - CodePage, CodePageSpec, CodePageRead, CodePageCalls:
      libs/unicode/wctomb.c, mbtowc.c, the lookups of cptable.c, and the code
      pages of dlls/ntdll/codepage.c, which also calls Utf8.  The length that a
      call asks for against the bytes that it writes, in both directions and
      for all flags; the unrolled loops against those that check each
      character; round trips; compositions; the corners in which the two calls
      of a program disagree.
    - MsiString: dlls/msi/string.c and the streams of table.c, a client of
      CodePage over an interface of storages.  MsiStringSpec: the hash chains,
      and additions against the map from ids to counted strings.
      MsiStreamSpec: packed names, streams.  MsiStringSave, MsiStringCalls: a
      saved table is loaded as it was, ids keep their strings, and the strings
      and searches that go wrong.
    - Dpa, Dsa: the dynamic arrays of dlls/comctl32/comctl32undoc.c over an
      interface of heaps that may fail or move blocks.  DpaSort: the sort is a
      stable merge sort.  DpaSpec, DsaSpec: the calls against sequences.
      DpaMerge, DpaCalls: the merge as an outer join, binary search,
      enumeration, copies, and the calls that leave their block.

    A file with Spec in its name (or the last of a group) states the theorems,
    each with a lemma that applies it to concrete data.

    ** Not modelled

    The server process, the display driver and vendored code (libs/ptmalloc3,
    the mpglib of winemp3, libtomcrypt of rsaenh) are not in the repository or
    not its own.  Generated tables (libs/unicode/c_*.c, the locale data), COM
    plumbing, user interface (the controls of comctl32, riched20, shell32, user's windows and
    menus), host devices and sockets (winmm drivers, wininet, winhttp) and the
    process loader are not modelled: they are state of the host or of other
    processes, or glue.  Within the modelled files, trace output, last-error
    codes that no caller tests, 16-bit wrappers that only convert arguments and
    the options that are read from the registry are left out; the comment at
    the head of each file says what its model leaves out. *)
From stdpp Require Export base tactics numbers list option.
From Stdlib Require Export ZArith Lia.

Global Open Scope Z_scope.

(** ** Machine integers

    A C integer is a [Z]; a conversion to an unsigned type of [w] bits is the
    remainder modulo [2^w], a conversion to a signed one is the
    two's-complement reading of that remainder. *)
Definition wrapU (w x : Z) : Z := x mod 2 ^ w.
Definition wrapS (w x : Z) : Z :=
  let y := x mod 2 ^ w in if y <? 2 ^ (w - 1) then y else y - 2 ^ w.

Abbreviation u8 := (wrapU 8).
Abbreviation u16 := (wrapU 16).
Abbreviation u32 := (wrapU 32).
Abbreviation u64 := (wrapU 64).
Abbreviation s8 := (wrapS 8).
Abbreviation s16 := (wrapS 16).
Abbreviation s32 := (wrapS 32).
Abbreviation s64 := (wrapS 64).

Definition isU (w x : Z) : Prop := 0 <= x < 2 ^ w.
Definition isS (w x : Z) : Prop := - 2 ^ (w - 1) <= x < 2 ^ (w - 1).

(** ** Outcomes of C code

    [Ret v]: the code returned [v].  [Fault]: it accessed memory outside the
    object it was given, divided by zero or overflowed where C leaves the
    result undefined.  [Spin]: the fuel of a loop ran out; every theorem that
    states a result shows that this does not happen. *)
Inductive outcome (A : Type) : Type :=
  | Ret (a : A)
  | Fault
  | Spin.
Arguments Ret {A} a.
Arguments Fault {A}.
Arguments Spin {A}.

Definition obind {A B} (m : outcome A) (k : A -> outcome B) : outcome B :=
  match m with
  | Ret a => k a
  | Fault => Fault
  | Spin => Spin
  end.

Declare Scope c_scope.
Delimit Scope c_scope with C.
Notation "'let!' x := m 'in' k" := (obind m (fun x => k))
  (at level 10, x pattern, m at level 100, k at level 200) : c_scope.
Global Open Scope c_scope.

(** the sum of two ints, undefined when it overflows *)
Definition add_int (a b : Z) : outcome Z :=
  if (- 2 ^ 31 <=? a + b) && (a + b <? 2 ^ 31) then Ret (a + b) else Fault.
Definition sub_int (a b : Z) : outcome Z :=
  if (- 2 ^ 31 <=? a - b) && (a - b <? 2 ^ 31) then Ret (a - b) else Fault.

Definition mul_int (a b : Z) : outcome Z :=
  if (- 2 ^ 31 <=? a * b) && (a * b <? 2 ^ 31) then Ret (a * b) else Fault.
(** the same for 64-bit integers *)
Definition add_i64 (a b : Z) : outcome Z :=
  if (- 2 ^ 63 <=? a + b) && (a + b <? 2 ^ 63) then Ret (a + b) else Fault.

Definition is_ret {A} (m : outcome A) : bool :=
  match m with Ret _ => true | _ => false end.

(** ** Memory: a C object is a list of its elements *)
Section Memory.
Context {A : Type}.

Definition zlen (l : list A) : Z := Z.of_nat (length l).

(** [l[i]], undefined outside the object *)
Definition rd (l : list A) (i : Z) : outcome A :=
  if i <? 0 then Fault else
  match l !! Z.to_nat i with
  | Some v => Ret v
  | None => Fault
  end.

(** [l[i] = v] *)
Definition wr (l : list A) (i : Z) (v : A) : outcome (list A) :=
  if (0 <=? i) && (i <? zlen l) then Ret (<[Z.to_nat i := v]> l) else Fault.

(** the value at [i], [d] outside: for specifications only *)
Definition nthZ (d : A) (l : list A) (i : Z) : A :=
  if i <? 0 then d else default d (l !! Z.to_nat i).

(** [memset(l + i, v, n)] for elements *)
Fixpoint fill (l : list A) (i : Z) (v : A) (n : nat) : outcome (list A) :=
  match n with
  | O => Ret l
  | S n => let! l := wr l i v in fill l (i + 1) v n
  end.

(** memcpy of [n] elements from the start of an object *)
Definition read_bytes (l : list A) (n : Z) : outcome (list A) :=
  if (0 <=? n) && (n <=? zlen l) then Ret (take (Z.to_nat n) l) else Fault.
(** memcpy of [data] to the offset [off] of an object *)
Definition put_bytes (l : list A) (off : Z) (data : list A) : outcome (list A) :=
  if (0 <=? off) && (off + zlen data <=? zlen l)
  then Ret (take (Z.to_nat off) l ++ data ++ drop (Z.to_nat off + length data) l) else Fault.
End Memory.

Lemma zlen_nonneg {A} (l : list A) : 0 <= zlen l.
Proof. unfold zlen; lia. Qed.

Lemma zlen_app {A} (l k : list A) : zlen (l ++ k) = zlen l + zlen k.
Proof. unfold zlen. rewrite length_app. lia. Qed.
Lemma zlen_cons {A} (x : A) (l : list A) : zlen (x :: l) = zlen l + 1.
Proof. unfold zlen. simpl. lia. Qed.
Lemma take_zlen {A} (l : list A) : take (Z.to_nat (zlen l)) l = l.
Proof. unfold zlen. by rewrite Nat2Z.id, take_ge by lia. Qed.
Lemma zlen_nil {A} : zlen (@nil A) = 0.
Proof. done. Qed.
Lemma zsplit {A} (l : list A) i : 0 <= i <= zlen l -> exists pre post, l = pre ++ post /\ i = zlen pre.
Proof.
  intros Hi. exists (take (Z.to_nat i) l), (drop (Z.to_nat i) l). split; [by rewrite take_drop|].
  unfold zlen in *. rewrite length_take. lia.
Qed.

Section MemoryLemmas.
Context {A : Type} (d : A).
Implicit Types (l : list A) (i j : Z) (v : A).

Lemma rd0 (x : A) l : rd (x :: l) 0 = Ret x.
Proof using. done. Qed.
Lemma rd1 (x y : A) l : rd (x :: y :: l) 1 = Ret y.
Proof using. done. Qed.
Lemma rd_in l i : 0 <= i < zlen l -> rd l i = Ret (nthZ d l i).
Proof.
  unfold zlen; intros H. unfold rd, nthZ. destruct (Z.ltb_spec i 0); [lia|].
  destruct (lookup_lt_is_Some_2 l (Z.to_nat i)) as [x ->]; [lia|done].
Qed.

Lemma rd_out l i : ~ (0 <= i < zlen l) -> rd l i = Fault.
Proof.
  unfold zlen; intros H. unfold rd. destruct (Z.ltb_spec i 0); [done|].
  rewrite lookup_ge_None_2; [done|lia].
Qed.

Lemma rd_Ret_inv l i v : rd l i = Ret v -> 0 <= i < zlen l /\ nthZ d l i = v.
Proof.
  intros H. destruct (decide (0 <= i < zlen l)) as [Hi|Hi].
  - rewrite rd_in in H by done. by simplify_eq.
  - by rewrite rd_out in H.
Qed.

Lemma wr_in l i v : 0 <= i < zlen l -> wr l i v = Ret (<[Z.to_nat i := v]> l).
Proof.
  unfold zlen; intros H. unfold wr, zlen.
  destruct (Z.leb_spec 0 i), (Z.ltb_spec i (Z.of_nat (length l))); simpl; try done; lia.
Qed.

Lemma wr_out l i v : ~ (0 <= i < zlen l) -> wr l i v = Fault.
Proof.
  unfold zlen; intros H. unfold wr, zlen.
  destruct (Z.leb_spec 0 i), (Z.ltb_spec i (Z.of_nat (length l))); simpl; try done; lia.
Qed.

Lemma zlen_insert l n v : zlen (<[n := v]> l) = zlen l.
Proof. unfold zlen. by rewrite length_insert. Qed.

Lemma nthZ_insert l i j v :
  0 <= i < zlen l -> nthZ d (<[Z.to_nat i := v]> l) j = if j =? i then v else nthZ d l j.
Proof.
  unfold zlen; intros Hi. unfold nthZ. destruct (Z.ltb_spec j 0), (Z.eqb_spec j i); try lia; try done.
  - subst. rewrite list_lookup_insert_eq by lia. done.
  - rewrite list_lookup_insert_ne by lia. done.
Qed.

Lemma nthZ_out l i : ~ (0 <= i < zlen l) -> nthZ d l i = d.
Proof.
  unfold zlen; intros H. unfold nthZ. destruct (Z.ltb_spec i 0); [done|].
  rewrite lookup_ge_None_2; [done|lia].
Qed.

Lemma fill_ok l i v n :
  0 <= i -> i + Z.of_nat n <= zlen l ->
  exists l', fill l i v n = Ret l' /\ zlen l' = zlen l /\
    forall j, nthZ d l' j = if (i <=? j) && (j <? i + Z.of_nat n) then v else nthZ d l j.
Proof.
  revert l i. induction n as [|n IH]; intros l i Hi Hn.
  - exists l. split_and!; [done..|]. intros j.
    destruct (Z.leb_spec i j), (Z.ltb_spec j (i + Z.of_nat 0)); simpl; try done; lia.
  - cbn [fill]. rewrite wr_in by lia. cbn [obind].
    destruct (IH (<[Z.to_nat i:=v]> l) (i + 1)) as (l' & -> & Hl & Hv); [lia|rewrite zlen_insert; lia|].
    exists l'. split_and!; [done|by rewrite Hl, zlen_insert|].
    intros j. rewrite Hv, nthZ_insert by lia.
    destruct (Z.leb_spec (i + 1) j), (Z.ltb_spec j (i + 1 + Z.of_nat n)),
      (Z.leb_spec i j), (Z.ltb_spec j (i + Z.of_nat (S n))), (Z.eqb_spec j i);
      simpl; try done; lia.
Qed.
End MemoryLemmas.

Lemma wr_app {A} (pre : list A) x post v i :
  i = zlen pre -> wr (pre ++ x :: post) i v = Ret (pre ++ v :: post).
Proof.
  intros ->. rewrite wr_in by (unfold zlen; rewrite length_app; simpl; lia).
  unfold zlen. rewrite Nat2Z.id, insert_app_r_alt, Nat.sub_diag by lia. done.
Qed.

Lemma rd_app {A} (pre : list A) x post i : i = zlen pre -> rd (pre ++ x :: post) i = Ret x.
Proof.
  intros ->. unfold rd, zlen. destruct (Z.ltb_spec (Z.of_nat (length pre)) 0); [lia|].
  by rewrite Nat2Z.id, list_lookup_middle.
Qed.

Lemma nthZ_Forall {A} (P : A -> Prop) d l i : Forall P l -> 0 <= i < zlen l -> P (nthZ d l i).
Proof.
  intros H Hi. unfold nthZ. replace (i <? 0) with false by lia. destruct (l !! Z.to_nat i) as [x|] eqn:E; [by apply (Forall_lookup_1 P l _ _ H E)|].
  apply lookup_ge_None_1 in E. unfold zlen in Hi. lia.
Qed.
Lemma wr_next (dp dm : list Z) v : dm <> [] -> wr (dp ++ dm) (zlen dp) v = Ret ((dp ++ [v]) ++ drop 1 dm).
Proof. intros H. destruct dm as [|x dm]; [done|]. rewrite wr_app by done. by rewrite <- app_assoc. Qed.
Lemma zlen_snoc {A} (l : list A) x : zlen (l ++ [x]) = zlen l + 1.
Proof. by rewrite zlen_app. Qed.
(** writing an element after a prefix of the rest *)
Lemma wr_1 {A} (pre : list A) x0 x post v i :
  i = zlen pre + 1 -> wr (pre ++ x0 :: x :: post) i v = Ret (pre ++ x0 :: v :: post).
Proof.
  intros ->. rewrite (cons_middle x0), (app_assoc pre), wr_app; [by rewrite <- app_assoc|].
  by rewrite zlen_app.
Qed.
Lemma wr_2 {A} (pre : list A) x0 x1 x post v i :
  i = zlen pre + 2 -> wr (pre ++ x0 :: x1 :: x :: post) i v = Ret (pre ++ x0 :: x1 :: v :: post).
Proof.
  intros ->. rewrite (cons_middle x0), (app_assoc pre), wr_1; [by rewrite <- app_assoc|].
  rewrite zlen_app. unfold zlen. simpl. lia.
Qed.
Lemma wr_3 {A} (pre : list A) x0 x1 x2 x post v i :
  i = zlen pre + 3 ->
  wr (pre ++ x0 :: x1 :: x2 :: x :: post) i v = Ret (pre ++ x0 :: x1 :: x2 :: v :: post).
Proof.
  intros ->. rewrite (cons_middle x0), (app_assoc pre), wr_2; [by rewrite <- app_assoc|].
  rewrite zlen_app. unfold zlen. simpl. lia.
Qed.

(** ** Copies *)
Section Copies.
Context {A : Type}.
Implicit Types (l d k p : list A).
Lemma zlen_nat l : Z.to_nat (zlen l) = length l.
Proof. unfold zlen. lia. Qed.
Lemma read_bytes_app d k : read_bytes (d ++ k) (zlen d) = Ret d.
Proof.
  unfold read_bytes. rewrite zlen_app. pose proof (zlen_nonneg d). pose proof (zlen_nonneg k).
  replace ((0 <=? zlen d) && (zlen d <=? zlen d + zlen k)) with true by lia. by rewrite zlen_nat, take_app_length.
Qed.
Lemma read_bytes_eq d k n : zlen d = n -> read_bytes (d ++ k) n = Ret d.
Proof. intros <-. apply read_bytes_app. Qed.
Lemma put_bytes_ok l off d : 0 <= off -> off + zlen d <= zlen l ->
  exists l', put_bytes l off d = Ret l' /\ length l' = length l /\
    take (Z.to_nat off + length d) l' = take (Z.to_nat off) l ++ d.
Proof.
  intros H1 H2. unfold put_bytes. replace ((0 <=? off) && (off + zlen d <=? zlen l)) with true by lia.
  eexists. split; [reflexivity|]. unfold zlen in H2. split.
  - rewrite !length_app, length_take, length_drop. lia.
  - rewrite app_assoc. rewrite take_app_length'; [done|]. rewrite length_app, length_take. lia.
Qed.
Lemma put_bytes_full l off d p : 0 <= off -> off + zlen d = zlen l -> take (Z.to_nat off) l = p -> put_bytes l off d = Ret (p ++ d).
Proof.
  intros H1 H2 <-. unfold put_bytes. replace ((0 <=? off) && (off + zlen d <=? zlen l)) with true by lia.
  rewrite (drop_ge l); [by rewrite app_nil_r|]. unfold zlen in H2. lia.
Qed.
Lemma put_bytes_app pre x post d off : off = zlen pre -> length x = length d ->
  put_bytes (pre ++ x ++ post) off d = Ret (pre ++ d ++ post).
Proof.
  intros -> Hl. unfold put_bytes. rewrite !zlen_app. pose proof (zlen_nonneg pre). pose proof (zlen_nonneg post).
  replace ((0 <=? zlen pre) && (zlen pre + zlen d <=? zlen pre + (zlen x + zlen post))) with true by (unfold zlen in *; lia).
  rewrite zlen_nat, take_app_length, <- drop_drop, drop_app_length. by rewrite drop_app_length'.
Qed.
End Copies.

(** ** Strings in memory *)
(** strlen, or strlenW of 16-bit characters *)
Fixpoint strlen (s : list Z) : outcome Z :=
  match s with
  | [] => Fault
  | c :: s => if c =? 0 then Ret 0 else let! n := strlen s in Ret (n + 1)
  end.
(** no terminator inside *)
Definition cstring (t : list Z) : Prop := Forall (fun c => c <> 0) t.
Lemma strlen_app t k : cstring t -> strlen (t ++ 0 :: k) = Ret (zlen t).
Proof.
  induction 1 as [|c t Hc _ IH]; [done|]. cbn [strlen app]. replace (c =? 0) with false by lia. rewrite IH. cbn [obind]. by rewrite zlen_cons.
Qed.

(** ** Characters of the C locale *)
Definition isupper (c : Z) : bool := (65 <=? c) && (c <=? 90).
Definition islower (c : Z) : bool := (97 <=? c) && (c <=? 122).
Definition isalpha (c : Z) : bool := isupper c || islower c.
Definition tolower (c : Z) : Z := if isupper c then c + 32 else c.
Definition toupper (c : Z) : Z := if islower c then c - 32 else c.

(** two strings are equal but for the case of their letters (strcasecmp) *)
Definition same_nocase (a b : list Z) : bool := bool_decide (map tolower a = map tolower b).

(** ** Automation *)

(** case analysis on the integer comparisons of a goal *)
Ltac zcase1 :=
  match goal with
  | |- context [?a <? ?b] => destruct (Z.ltb_spec a b)
  | |- context [?a <=? ?b] => destruct (Z.leb_spec a b)
  | |- context [?a =? ?b] => destruct (Z.eqb_spec a b)
  end.
Ltac zcases := repeat zcase1; simpl; try done; try lia.

(** [lia] with division and remainder by constants *)
Ltac dlia := Z.to_euclidean_division_equations; lia.
Ltac zcasesd := repeat zcase1; simpl; try done; try lia; try dlia.

(** the comparisons that hold in the hypotheses, as propositions *)
Ltac zhyps :=
  repeat match goal with
  | H : (_ && _) = true |- _ => apply andb_true_iff in H; destruct H
  | H : (_ || _) = false |- _ => apply orb_false_iff in H; destruct H
  | H : negb _ = true |- _ => apply negb_true_iff in H
  | H : negb _ = false |- _ => apply negb_false_iff in H
  | H : (_ <? _) = true |- _ => apply Z.ltb_lt in H
  | H : (_ <? _) = false |- _ => apply Z.ltb_ge in H
  | H : (_ <=? _) = true |- _ => apply Z.leb_le in H
  | H : (_ <=? _) = false |- _ => apply Z.leb_gt in H
  | H : (_ =? _) = true |- _ => apply Z.eqb_eq in H
  | H : (_ =? _) = false |- _ => apply Z.eqb_neq in H
  end.

Create HintDb winex.

(** ** Machine integer lemmas *)
Lemma wrapU_small w x : isU w x -> wrapU w x = x.
Proof. unfold isU, wrapU. intros. by apply Z.mod_small. Qed.

Lemma wrapU_range w x : 0 <= w -> isU w (wrapU w x).
Proof. intros. unfold isU, wrapU. apply Z.mod_pos_bound. lia. Qed.

Lemma wrapS_small w x : 0 < w -> isS w x -> wrapS w x = x.
Proof.
  unfold isS, wrapS. intros Hw Hx.
  assert (2 ^ w = 2 * 2 ^ (w - 1)) as E.
  { rewrite <- Z.pow_succ_r by lia. f_equal. lia. }
  destruct (decide (0 <= x)).
  - rewrite Z.mod_small by lia. zcases.
  - rewrite <- (Z.mod_unique x (2 ^ w) (-1) (x + 2 ^ w)) by lia. zcases.
Qed.

Lemma wrapS_range w x : 0 < w -> isS w (wrapS w x).
Proof.
  intros Hw. unfold isS, wrapS. cbv zeta.
  assert (2 ^ w = 2 * 2 ^ (w - 1)) as E.
  { rewrite <- Z.pow_succ_r by lia. f_equal. lia. }
  pose proof (Z.mod_pos_bound x (2 ^ w)). zcases.
Qed.

Lemma wrapU_testbit w x j :
  0 <= w -> Z.testbit (wrapU w x) j = (j <? w) && Z.testbit x j.
Proof.
  intros. unfold wrapU. zcases.
  - apply Z.mod_pow2_bits_low. lia.
  - apply Z.mod_pow2_bits_high. lia.
Qed.

Lemma isU_bits w x :
  0 <= w -> 0 <= x -> (forall j, w <= j -> Z.testbit x j = false) -> isU w x.
Proof.
  intros Hw Hx Hj. replace x with (wrapU w x); [by apply wrapU_range|].
  apply Z.bits_inj'. intros j Hj0. rewrite wrapU_testbit by lia. zcases. symmetry; auto.
Qed.

Lemma testbit_isU_high w x j : 0 <= w -> isU w x -> w <= j -> Z.testbit x j = false.
Proof.
  intros Hw Hx Hj. rewrite <- (wrapU_small w x Hx), wrapU_testbit by lia. zcases.
Qed.

Lemma isU_land_l w a b : 0 <= w -> isU w a -> isU w (Z.land a b).
Proof.
  intros Hw Ha. apply isU_bits; [done| |].
  - apply Z.land_nonneg. unfold isU in Ha. lia.
  - intros j Hj. by rewrite Z.land_spec, (testbit_isU_high w a).
Qed.

Lemma isU_lor w a b : 0 <= w -> isU w a -> isU w b -> isU w (Z.lor a b).
Proof.
  intros Hw Ha Hb. apply isU_bits; [done| |].
  - apply Z.lor_nonneg. unfold isU in *. lia.
  - intros j Hj. by rewrite Z.lor_spec, (testbit_isU_high w a), (testbit_isU_high w b).
Qed.

Lemma land_pow2_mask x k : 0 <= k -> Z.land x (2 ^ k - 1) = x mod 2 ^ k.
Proof. intros. rewrite <- Z.land_ones, Z.ones_equiv by lia. f_equal; lia. Qed.

(** bits below a multiple of a power of two *)
Lemma lor_low a k b : 0 <= k -> 0 <= b < 2 ^ k -> Z.lor (a * 2 ^ k) b = a * 2 ^ k + b.
Proof.
  intros Hk Hb. assert (Z.land (a * 2 ^ k) b = 0) as H.
  { apply Z.bits_inj'. intros j Hj. rewrite Z.land_spec, Z.bits_0, Z.mul_pow2_bits by lia.
    destruct (Z.ltb_spec j k).
    - by rewrite Z.testbit_neg_r by lia.
    - rewrite (testbit_isU_high k b) by (done || lia). apply andb_false_r. }
  by rewrite Z.add_nocarry_lxor, Z.lxor_lor.
Qed.

(** ** Exhaustive checks over a finite range of integers *)
Definition all_below (n : Z) (P : Z -> bool) : bool :=
  forallb (fun k => P (Z.of_nat k)) (seq 0 (Z.to_nat n)).

Lemma all_below_spec n P : all_below n P = true -> forall x, 0 <= x < n -> P x = true.
Proof.
  unfold all_below. intros H x Hx. rewrite forallb_forall in H.
  specialize (H (Z.to_nat x)). rewrite Z2Nat.id in H by lia.
  apply H, in_seq. lia.
Qed.

(** the C memory object holds bytes *)
Definition bytes (l : list Z) : Prop := Forall (isU 8) l.

Lemma bytes_nthZ l i : bytes l -> isU 8 (nthZ 0 l i).
Proof.
  intros H. unfold nthZ. zcases. destruct (l !! Z.to_nat i) as [x|] eqn:E; simpl; [|done].
  by eapply Forall_lookup_1.
Qed.

Lemma bytes_insert l n v : bytes l -> isU 8 v -> bytes (<[n := v]> l).
Proof. intros. by apply Forall_insert. Qed.
#[export] Hint Resolve bytes_nthZ bytes_insert : winex.
