(* ===== verification/RtlBitmap.v ===== *)
(** * NT bitmaps (dlls/ntdll/rtlbitmap.c)

    The functions of the file, one definition each, on a bitmap that is a
    size in bits and a byte buffer; reads and writes outside the buffer are
    [Fault].  The specification is in RtlBitmapSpec. *)
From S2P Require Import Prelude.

Module Bitmap.

(** include/winternl.h, struct tagRTL_BITMAP *)
Record RTL_BITMAP := mkBitmap {
  SizeOfBitMap : Z;
  BitMapBuffer : list Z
}.

(** include/winternl.h, struct tagRTL_BITMAP_RUN *)
Record RTL_BITMAP_RUN := mkRun {
  StartOfRun : Z;
  SizeOfRun : Z
}.

Definition NTDLL_maskBits : list Z := [0; 1; 3; 7; 15; 31; 63; 127].
Definition NTDLL_nibbleBitCount : list Z :=
  [0; 1; 1; 2; 1; 2; 2; 3; 1; 2; 2; 3; 2; 3; 3; 4].
Definition NTDLL_leastSignificant : list Z :=
  [0; 0; 1; 0; 2; 0; 1; 0; 3; 0; 1; 0; 2; 0; 1; 0].
Definition NTDLL_mostSignificant : list Z :=
  [0; 0; 1; 1; 2; 2; 2; 2; 3; 3; 3; 3; 3; 3; 3; 3].

Definition RtlInitializeBitMap (lpBuff : list Z) (ulSize : Z) : RTL_BITMAP :=
  mkBitmap ulSize lpBuff.

(** the byte count of the two memsets: [((Size + 31) & 0xffffffe0) >> 3] *)
Definition AllBits_bytes (size : Z) : Z :=
  Z.shiftr (Z.land (u32 (size + 31)) 0xffffffe0) 3.

Definition RtlSetAllBits (lpBits : RTL_BITMAP) : outcome RTL_BITMAP :=
  let! buf := fill (BitMapBuffer lpBits) 0 0xff
                (Z.to_nat (AllBits_bytes (SizeOfBitMap lpBits))) in
  Ret (mkBitmap (SizeOfBitMap lpBits) buf).

Definition RtlClearAllBits (lpBits : RTL_BITMAP) : outcome RTL_BITMAP :=
  let! buf := fill (BitMapBuffer lpBits) 0 0
                (Z.to_nat (AllBits_bytes (SizeOfBitMap lpBits))) in
  Ret (mkBitmap (SizeOfBitMap lpBits) buf).

(** [*lpOut |= m] and [*lpOut &= m] on a BYTE *)
Definition or_byte (buf : list Z) (lpOut m : Z) : outcome (list Z) :=
  let! b := rd buf lpOut in wr buf lpOut (u8 (Z.lor b m)).
Definition and_byte (buf : list Z) (lpOut m : Z) : outcome (list Z) :=
  let! b := rd buf lpOut in wr buf lpOut (u8 (Z.land b m)).

(** the guard shared by the range operations:
    [!ulCount || ulStart + ulCount > lpBits->SizeOfBitMap] in ULONG arithmetic *)
Definition bad_range (bm : RTL_BITMAP) (ulStart ulCount : Z) : bool :=
  (ulCount =? 0) || (SizeOfBitMap bm <? u32 (ulStart + ulCount)).

(** RtlSetBits from the whole-byte block on *)
Definition RtlSetBits_rest (buf : list Z) (lpOut ulCount : Z) : outcome (list Z) :=
  let! buf := fill buf lpOut 0xff (Z.to_nat (Z.shiftr ulCount 3)) in
  let lpOut := lpOut + Z.shiftr ulCount 3 in
  let! m := rd NTDLL_maskBits (Z.land ulCount 7) in
  or_byte buf lpOut m.

Definition RtlSetBits (lpBits : option RTL_BITMAP) (ulStart ulCount : Z)
    : outcome (option RTL_BITMAP) :=
  match lpBits with
  | None => Ret None
  | Some bm =>
    if bad_range bm ulStart ulCount then Ret (Some bm) else
    let buf := BitMapBuffer bm in
    let lpOut := Z.shiftr ulStart 3 in
    let s := Z.land ulStart 7 in
    let! buf :=
      if negb (s =? 0) then
        if 7 <? ulCount then
          let! buf := or_byte buf lpOut (Z.shiftl 0xff s) in
          RtlSetBits_rest buf (lpOut + 1) (u32 (ulCount - (8 - s)))
        else
          let! m := rd NTDLL_maskBits ulCount in
          let initialWord := u16 (Z.shiftl m s) in
          let! buf := or_byte buf lpOut (Z.land initialWord 0xff) in
          or_byte buf (lpOut + 1) (Z.shiftr initialWord 8)
      else RtlSetBits_rest buf lpOut ulCount in
    Ret (Some (mkBitmap (SizeOfBitMap bm) buf))
  end.

(** RtlClearBits from the whole-byte block on *)
Definition RtlClearBits_rest (buf : list Z) (lpOut ulCount : Z) : outcome (list Z) :=
  let! buf := fill buf lpOut 0 (Z.to_nat (Z.shiftr ulCount 3)) in
  let lpOut := lpOut + Z.shiftr ulCount 3 in
  if negb (Z.land ulCount 7 =? 0) then
    let! m := rd NTDLL_maskBits (Z.land ulCount 7) in
    and_byte buf lpOut (Z.lnot m)
  else Ret buf.

Definition RtlClearBits (lpBits : option RTL_BITMAP) (ulStart ulCount : Z)
    : outcome (option RTL_BITMAP) :=
  match lpBits with
  | None => Ret None
  | Some bm =>
    if bad_range bm ulStart ulCount then Ret (Some bm) else
    let buf := BitMapBuffer bm in
    let lpOut := Z.shiftr ulStart 3 in
    let s := Z.land ulStart 7 in
    let! buf :=
      if negb (s =? 0) then
        if 7 <? ulCount then
          let! buf := and_byte buf lpOut (Z.lnot (Z.shiftl 0xff s)) in
          RtlClearBits_rest buf (lpOut + 1) (u32 (ulCount - (8 - s)))
        else
          let! m := rd NTDLL_maskBits ulCount in
          let initialWord := u16 (Z.lnot (Z.shiftl m s)) in
          let! buf := and_byte buf lpOut (Z.land initialWord 0xff) in
          and_byte buf (lpOut + 1) (Z.shiftr initialWord 8)
      else RtlClearBits_rest buf lpOut ulCount in
    Ret (Some (mkBitmap (SizeOfBitMap bm) buf))
  end.

(** the [while (ulCount--)] loop over whole bytes: [inl] is an early
    [return FALSE], [inr] the pointer after the block *)
Fixpoint whole_bytes (want : Z) (buf : list Z) (lpOut : Z) (n : nat) : outcome (unit + Z) :=
  match n with
  | O => Ret (inr lpOut)
  | S n =>
    let! b := rd buf lpOut in
    if negb (b =? want) then Ret (inl tt) else whole_bytes want buf (lpOut + 1) n
  end.

(** RtlAreBitsSet from the whole-byte block on *)
Definition RtlAreBitsSet_rest (buf : list Z) (lpOut ulCount : Z) : outcome bool :=
  let ulRemainder := Z.land ulCount 7 in
  let! r := whole_bytes 0xff buf lpOut (Z.to_nat (Z.shiftr ulCount 3)) in
  match r with
  | inl _ => Ret false
  | inr lpOut =>
    if negb (ulRemainder =? 0) then
      let! m := rd NTDLL_maskBits ulRemainder in
      let! b := rd buf lpOut in
      if negb (Z.land b m =? m) then Ret false else Ret true
    else Ret true
  end.

Definition RtlAreBitsSet (lpBits : option RTL_BITMAP) (ulStart ulCount : Z) : outcome bool :=
  match lpBits with
  | None => Ret false
  | Some bm =>
    if bad_range bm ulStart ulCount then Ret false else
    let buf := BitMapBuffer bm in
    let lpOut := Z.shiftr ulStart 3 in
    let s := Z.land ulStart 7 in
    if negb (s =? 0) then
      if 7 <? ulCount then
        let! b := rd buf lpOut in
        if negb (Z.land (Z.land b (Z.shiftl 0xff s)) 0xff =? Z.land (Z.shiftl 0xff s) 0xff)
        then Ret false
        else RtlAreBitsSet_rest buf (lpOut + 1) (u32 (ulCount - (8 - s)))
      else
        let! m := rd NTDLL_maskBits ulCount in
        let initialWord := u16 (Z.shiftl m s) in
        let! b := rd buf lpOut in
        if negb (Z.land b (Z.land initialWord 0xff) =? Z.land initialWord 0xff) then Ret false
        else if negb (Z.land initialWord 0xff00 =? 0) then
          let! b1 := rd buf (lpOut + 1) in
          if negb (Z.land b1 (Z.shiftr initialWord 8) =? Z.shiftr initialWord 8)
          then Ret false else Ret true
        else Ret true
    else RtlAreBitsSet_rest buf lpOut ulCount
  end.

(** RtlAreBitsClear from the whole-byte block on *)
Definition RtlAreBitsClear_rest (buf : list Z) (lpOut ulCount : Z) : outcome bool :=
  let ulRemainder := Z.land ulCount 7 in
  let! r := whole_bytes 0 buf lpOut (Z.to_nat (Z.shiftr ulCount 3)) in
  match r with
  | inl _ => Ret false
  | inr lpOut =>
    if negb (ulRemainder =? 0) then
      let! m := rd NTDLL_maskBits ulRemainder in
      let! b := rd buf lpOut in
      if negb (Z.land b m =? 0) then Ret false else Ret true
    else Ret true
  end.

Definition RtlAreBitsClear (lpBits : option RTL_BITMAP) (ulStart ulCount : Z) : outcome bool :=
  match lpBits with
  | None => Ret false
  | Some bm =>
    if bad_range bm ulStart ulCount then Ret false else
    let buf := BitMapBuffer bm in
    let lpOut := Z.shiftr ulStart 3 in
    let s := Z.land ulStart 7 in
    if negb (s =? 0) then
      if 7 <? ulCount then
        let! b := rd buf lpOut in
        if negb (Z.land b (Z.land (Z.shiftl 0xff s) 0xff) =? 0) then Ret false
        else RtlAreBitsClear_rest buf (lpOut + 1) (u32 (ulCount - (8 - s)))
      else
        let! m := rd NTDLL_maskBits ulCount in
        let initialWord := u16 (Z.shiftl m s) in
        let! b := rd buf lpOut in
        if negb (Z.land b (Z.land initialWord 0xff) =? 0) then Ret false
        else if negb (Z.land initialWord 0xff00 =? 0) then
          let! b1 := rd buf (lpOut + 1) in
          if negb (Z.land b1 (Z.shiftr initialWord 8) =? 0) then Ret false else Ret true
        else Ret true
    else RtlAreBitsClear_rest buf lpOut ulCount
  end.

(** [-1u] as a ULONG *)
Definition NOT_FOUND : Z := 0xffffffff.

(** the search loop of RtlFindSetBits and RtlFindClearBits, over the test
    [at_pos] that the two functions make at a position *)
Fixpoint find_loop (at_pos : Z -> outcome bool) (fuel : nat) (ulPos ulEnd ulHint : Z)
    : outcome Z :=
  match fuel with
  | O => Spin
  | S fuel =>
    if ulPos <? ulEnd then
      let! ok := at_pos ulPos in
      if ok then Ret ulPos
      else if (ulPos =? u32 (ulEnd - 1)) && negb (ulHint =? 0)
      then find_loop at_pos fuel 0 ulHint 0
      else find_loop at_pos fuel (u32 (ulPos + 1)) ulEnd ulHint
    else Ret NOT_FOUND
  end.

(** enough for every position once, the restart and the exit test *)
Definition find_fuel (bm : RTL_BITMAP) : nat := S (S (Z.to_nat (SizeOfBitMap bm))).

Definition RtlFindSetBits (lpBits : option RTL_BITMAP) (ulCount ulHint : Z) : outcome Z :=
  match lpBits with
  | None => Ret NOT_FOUND
  | Some bm =>
    if (ulCount =? 0) || (SizeOfBitMap bm <? ulCount) then Ret NOT_FOUND else
    let ulEnd := SizeOfBitMap bm in
    let ulHint := if SizeOfBitMap bm <? u32 (ulHint + ulCount) then 0 else ulHint in
    find_loop (fun ulPos => RtlAreBitsSet (Some bm) ulPos ulCount)
      (find_fuel bm) ulHint ulEnd ulHint
  end.

Definition RtlFindClearBits (lpBits : option RTL_BITMAP) (ulCount ulHint : Z) : outcome Z :=
  match lpBits with
  | None => Ret NOT_FOUND
  | Some bm =>
    if (ulCount =? 0) || (SizeOfBitMap bm <? ulCount) then Ret NOT_FOUND else
    let ulEnd := SizeOfBitMap bm in
    let ulHint := if SizeOfBitMap bm <? u32 (ulHint + ulCount) then 0 else ulHint in
    find_loop (fun ulPos => RtlAreBitsClear (Some bm) ulPos ulCount)
      (find_fuel bm) ulHint ulEnd ulHint
  end.

Definition RtlFindSetBitsAndClear (lpBits : option RTL_BITMAP) (ulCount ulHint : Z)
    : outcome (Z * option RTL_BITMAP) :=
  let! ulPos := RtlFindSetBits lpBits ulCount ulHint in
  if negb (ulPos =? NOT_FOUND) then
    let! lpBits := RtlClearBits lpBits ulPos ulCount in Ret (ulPos, lpBits)
  else Ret (ulPos, lpBits).

Definition RtlFindClearBitsAndSet (lpBits : option RTL_BITMAP) (ulCount ulHint : Z)
    : outcome (Z * option RTL_BITMAP) :=
  let! ulPos := RtlFindClearBits lpBits ulCount ulHint in
  if negb (ulPos =? NOT_FOUND) then
    let! lpBits := RtlSetBits lpBits ulPos ulCount in Ret (ulPos, lpBits)
  else Ret (ulPos, lpBits).

(** the counting loop of RtlNumberOfSetBits: the sum and the final pointer *)
Fixpoint count_loop (buf : list Z) (lpOut ulSet : Z) (n : nat) : outcome (Z * Z) :=
  match n with
  | O => Ret (ulSet, lpOut)
  | S n =>
    let! b := rd buf lpOut in
    let! hi := rd NTDLL_nibbleBitCount (Z.shiftr b 4) in
    let! lo := rd NTDLL_nibbleBitCount (Z.land b 0xf) in
    count_loop buf (lpOut + 1) (u32 (u32 (ulSet + hi) + lo)) n
  end.

Definition RtlNumberOfSetBits (lpBits : option RTL_BITMAP) : outcome Z :=
  match lpBits with
  | None => Ret 0
  | Some bm =>
    let buf := BitMapBuffer bm in
    let ulCount := Z.shiftr (SizeOfBitMap bm) 3 in
    let ulRemainder := Z.land (SizeOfBitMap bm) 7 in
    let! (ulSet, lpOut) := count_loop buf 0 0 (Z.to_nat ulCount) in
    let! b := rd buf lpOut in
    let! m := rd NTDLL_maskBits ulRemainder in
    let bMasked := Z.land b m in
    let! hi := rd NTDLL_nibbleBitCount (Z.shiftr bMasked 4) in
    let! lo := rd NTDLL_nibbleBitCount (Z.land bMasked 0xf) in
    Ret (u32 (u32 (ulSet + hi) + lo))
  end.

Definition RtlNumberOfClearBits (lpBits : option RTL_BITMAP) : outcome Z :=
  match lpBits with
  | None => Ret 0
  | Some bm =>
    let! n := RtlNumberOfSetBits lpBits in Ret (u32 (SizeOfBitMap bm - n))
  end.

(** byte [k] of a 64-bit value in memory (little-endian) *)
Definition byte_of (ulLong k : Z) : Z := Z.land (Z.shiftr ulLong (8 * k)) 0xff.

Fixpoint msb_loop (fuel : nat) (ulLong lpOut lCount : Z) : outcome Z :=
  match fuel with
  | O => Spin
  | S fuel =>
    if 0 <? lCount then
      let b := byte_of ulLong lpOut in
      if negb (b =? 0) then
        if negb (Z.land b 0x0f =? 0) then
          let! k := rd NTDLL_mostSignificant (Z.land b 0x0f) in Ret (s8 (lCount - 8 + k))
        else
          let! k := rd NTDLL_mostSignificant (Z.shiftr b 4) in Ret (s8 (lCount - 4 + k))
      else msb_loop fuel ulLong (lpOut - 1) (lCount - 8)
    else Ret (-1)
  end.

Definition RtlFindMostSignificantBit (ulLong : Z) : outcome Z :=
  if Z.land ulLong 0xffffffff00000000 =? 0
  then msb_loop 9 ulLong (7 - 4) (64 - 32)
  else msb_loop 9 ulLong 7 64.

Fixpoint lsb_loop (fuel : nat) (ulLong lpOut ulCount : Z) : outcome Z :=
  match fuel with
  | O => Spin
  | S fuel =>
    if ulCount <? 64 then
      let b := byte_of ulLong lpOut in
      if negb (b =? 0) then
        if negb (Z.land b 0x0f =? 0) then
          let! k := rd NTDLL_leastSignificant (Z.land b 0x0f) in Ret (s8 (ulCount + k))
        else
          let! k := rd NTDLL_leastSignificant (Z.shiftr b 4) in Ret (s8 (ulCount + 4 + k))
      else lsb_loop fuel ulLong (lpOut + 1) (ulCount + 8)
    else Ret (-1)
  end.

Definition RtlFindLeastSignificantBit (ulLong : Z) : outcome Z :=
  if Z.land ulLong 0xffffffff =? 0
  then lsb_loop 9 ulLong (0 + 4) 32
  else lsb_loop 9 ulLong 0 0.

Definition NTDLL_RunSortFn (lhs rhs : RTL_BITMAP_RUN) : Z :=
  if SizeOfRun rhs <? SizeOfRun lhs then -1 else 1.

(** the position of the first set bit of the nibbles of [bFirst], as the run
    finders compute [ulOffset] *)
Definition first_bit (bFirst : Z) : outcome Z :=
  if negb (Z.land bFirst 0x0f =? 0) then rd NTDLL_leastSignificant (Z.land bFirst 0x0f)
  else let! k := rd NTDLL_leastSignificant (Z.shiftr bFirst 4) in Ret (4 + k).

(** [for (;ulOffset < 8; ulOffset++) if (!(bFirst & (1 << ulOffset))) return ...]:
    [inl n] is the return with [*lpSize = n], [inr] the counters at the end *)
Fixpoint in_byte_run (n : nat) (bFirst ulOffset ulCount ulStart : Z) : (Z + Z * Z) :=
  match n with
  | O => inr (ulCount, ulStart)
  | S n =>
    if Z.land bFirst (Z.shiftl 1 ulOffset) =? 0 then inl ulCount
    else in_byte_run n bFirst (ulOffset + 1) (u32 (ulCount + 1)) (u32 (ulStart + 1))
  end.

(** the [for (;ulOffset < 7u; ulOffset++)] loop of the last byte: [stop] is
    the break condition *)
Fixpoint last_byte_run (n : nat) (stop : Z -> bool) (ulOffset ulCount : Z) : Z :=
  match n with
  | O => ulCount
  | S n => if stop ulOffset then ulCount else last_byte_run n stop (ulOffset + 1) (u32 (ulCount + 1))
  end.

(** the locals at the [break] of the first loop *)
Record run_state := mkRunState {
  rs_lpOut : Z; rs_ulStart : Z; rs_ulFoundAt : Z; rs_ulCount : Z
}.

(** A run finder returns the function's result and what it stored through
    [lpSize] ([None]: nothing). *)
Definition run_result : Type := Z * option Z.

(** the [while (1)] loop of NTDLL_FindSetRun: a return or its [break] *)
Fixpoint FindSetRun_first (fuel : nat) (bm : RTL_BITMAP) (ulStart lpOut : Z)
    : outcome (run_result + run_state) :=
  match fuel with
  | O => Spin
  | S fuel =>
    let bMask := Z.land (Z.shiftl 0xff (Z.land ulStart 7)) 0xff in
    let! b := rd (BitMapBuffer bm) lpOut in
    let bFirst := Z.land b bMask in
    if negb (bFirst =? 0) then
      if negb (bFirst =? bMask) then
        let! ulOffset := first_bit bFirst in
        let ulStart := u32 (ulStart + ulOffset) in
        let ulFoundAt := ulStart in
        match in_byte_run (Z.to_nat (8 - ulOffset)) bFirst ulOffset 0 ulStart with
        | inl ulCount => Ret (inl (ulFoundAt, Some ulCount))
        | inr (ulCount, ulStart) => Ret (inr (mkRunState (lpOut + 1) ulStart ulFoundAt ulCount))
        end
      else
        Ret (inr (mkRunState (lpOut + 1) (u32 (Z.land ulStart 0xfffffff8 + 8)) ulStart
                    (8 - Z.land ulStart 7)))
    else
      let ulStart := u32 (Z.land ulStart 0xfffffff8 + 8) in
      if SizeOfBitMap bm <=? ulStart then Ret (inl (NOT_FOUND, None))
      else FindSetRun_first fuel bm ulStart (lpOut + 1)
  end.

(** from [while ( *lpOut == 0xff)] to the end *)
Fixpoint FindSetRun_more (fuel : nat) (bm : RTL_BITMAP) (lpOut ulStart ulFoundAt ulCount : Z)
    : outcome run_result :=
  match fuel with
  | O => Spin
  | S fuel =>
    let! b := rd (BitMapBuffer bm) lpOut in
    if b =? 0xff then
      let ulCount := u32 (ulCount + 8) in
      let ulStart := u32 (ulStart + 8) in
      if SizeOfBitMap bm <=? ulStart then
        Ret (ulFoundAt, Some (u32 (ulCount - (ulStart - SizeOfBitMap bm))))
      else FindSetRun_more fuel bm (lpOut + 1) ulStart ulFoundAt ulCount
    else
      let ulCount :=
        if negb (Z.land b 1 =? 0)
        then last_byte_run 7 (fun o => Z.land b (Z.shiftl 1 o) =? 0) 0 ulCount
        else ulCount in
      Ret (ulFoundAt, Some ulCount)
  end.

(** one iteration per byte of the buffer *)
Definition run_fuel (bm : RTL_BITMAP) : nat := S (length (BitMapBuffer bm)).

Definition NTDLL_FindSetRun (lpBits : RTL_BITMAP) (ulStart : Z) : outcome run_result :=
  let! r := FindSetRun_first (run_fuel lpBits) lpBits ulStart (Z.shiftr ulStart 3) in
  match r with
  | inl res => Ret res
  | inr st => FindSetRun_more (run_fuel lpBits) lpBits (rs_lpOut st) (rs_ulStart st)
                (rs_ulFoundAt st) (rs_ulCount st)
  end.

Fixpoint FindClearRun_first (fuel : nat) (bm : RTL_BITMAP) (ulStart lpOut : Z)
    : outcome (run_result + run_state) :=
  match fuel with
  | O => Spin
  | S fuel =>
    let bMask := Z.land (Z.shiftl 0xff (Z.land ulStart 7)) 0xff in
    let! b := rd (BitMapBuffer bm) lpOut in
    let bFirst := Z.land (Z.lnot b) bMask in
    if negb (bFirst =? 0) then
      if negb (bFirst =? bMask) then
        let! ulOffset := first_bit bFirst in
        let ulStart := u32 (ulStart + ulOffset) in
        let ulFoundAt := ulStart in
        match in_byte_run (Z.to_nat (8 - ulOffset)) bFirst ulOffset 0 ulStart with
        | inl ulCount => Ret (inl (ulFoundAt, Some ulCount))
        | inr (ulCount, ulStart) => Ret (inr (mkRunState (lpOut + 1) ulStart ulFoundAt ulCount))
        end
      else
        Ret (inr (mkRunState (lpOut + 1) (u32 (Z.land ulStart 0xfffffff8 + 8)) ulStart
                    (8 - Z.land ulStart 7)))
    else
      let ulStart := u32 (Z.land ulStart 0xfffffff8 + 8) in
      if SizeOfBitMap bm <=? ulStart then Ret (inl (NOT_FOUND, None))
      else FindClearRun_first fuel bm ulStart (lpOut + 1)
  end.

Fixpoint FindClearRun_more (fuel : nat) (bm : RTL_BITMAP) (lpOut ulStart ulFoundAt ulCount : Z)
    : outcome run_result :=
  match fuel with
  | O => Spin
  | S fuel =>
    let! b := rd (BitMapBuffer bm) lpOut in
    if b =? 0 then
      let ulCount := u32 (ulCount + 8) in
      let ulStart := u32 (ulStart + 8) in
      if SizeOfBitMap bm <=? ulStart then
        Ret (ulFoundAt, Some (u32 (ulCount - (ulStart - SizeOfBitMap bm))))
      else FindClearRun_more fuel bm (lpOut + 1) ulStart ulFoundAt ulCount
    else
      let ulCount :=
        if Z.land b 1 =? 0
        then last_byte_run 7 (fun o => negb (Z.land b (Z.shiftl 1 o) =? 0)) 0 ulCount
        else ulCount in
      Ret (ulFoundAt, Some ulCount)
  end.

Definition NTDLL_FindClearRun (lpBits : RTL_BITMAP) (ulStart : Z) : outcome run_result :=
  let! r := FindClearRun_first (run_fuel lpBits) lpBits ulStart (Z.shiftr ulStart 3) in
  match r with
  | inl res => Ret res
  | inr st => FindClearRun_more (run_fuel lpBits) lpBits (rs_lpOut st) (rs_ulStart st)
                (rs_ulFoundAt st) (rs_ulCount st)
  end.

(** the result is the size of the run and the value stored through [lpPos];
    [has_pos] is [lpPos != NULL] *)
Definition RtlFindNextForwardRunSet (lpBits : option RTL_BITMAP) (ulStart : Z) (has_pos : bool)
    : outcome (Z * option Z) :=
  match lpBits with
  | Some bm =>
    if (ulStart <? SizeOfBitMap bm) && has_pos then
      let! (pos, size) := NTDLL_FindSetRun bm ulStart in Ret (default 0 size, Some pos)
    else Ret (0, None)
  | None => Ret (0, None)
  end.

Definition RtlFindNextForwardRunClear (lpBits : option RTL_BITMAP) (ulStart : Z) (has_pos : bool)
    : outcome (Z * option Z) :=
  match lpBits with
  | Some bm =>
    if (ulStart <? SizeOfBitMap bm) && has_pos then
      let! (pos, size) := NTDLL_FindClearRun bm ulStart in Ret (default 0 size, Some pos)
    else Ret (0, None)
  | None => Ret (0, None)
  end.

Definition RtlFindLastBackwardRunSet (lpBits : option RTL_BITMAP) (ulStart : Z) : Z := 0.
Definition RtlFindLastBackwardRunClear (lpBits : option RTL_BITMAP) (ulStart : Z) : Z := 0.

Section FindRuns.
(** the C library's [qsort] on the first elements of an array, with the
    comparison function it is given *)
Context (qsort : list RTL_BITMAP_RUN -> (RTL_BITMAP_RUN -> RTL_BITMAP_RUN -> Z)
                 -> list RTL_BITMAP_RUN).

Definition qsort_prefix (s : list RTL_BITMAP_RUN) (n : Z) : list RTL_BITMAP_RUN :=
  qsort (take (Z.to_nat n) s) NTDLL_RunSortFn ++ drop (Z.to_nat n) s.

Fixpoint FindRuns_loop (fuel : nat) (fn : RTL_BITMAP -> Z -> outcome run_result)
    (bm : RTL_BITMAP) (lpSeries : list RTL_BITMAP_RUN) (ulCount : Z) (bLongest : bool)
    (bNeedSort : bool) (ulPos ulRuns : Z) : outcome (Z * list RTL_BITMAP_RUN) :=
  match fuel with
  | O => Spin
  | S fuel =>
    if ulPos <? SizeOfBitMap bm then
      let! (ulNextPos, written) := fn bm ulPos in
      if ulNextPos =? NOT_FOUND then Ret (ulRuns, lpSeries) else
      let ulSize := default 0 written in
      if bLongest && (ulRuns =? ulCount) then
        let lpSeries := if bNeedSort then qsort_prefix lpSeries ulRuns else lpSeries in
        let! last := rd lpSeries (ulRuns - 1) in
        if SizeOfRun last <? ulSize then
          let! lpSeries := wr lpSeries (ulRuns - 1) (mkRun ulNextPos ulSize) in
          let! bNeedSort :=
            if 1 <? ulRuns then
              let! prev := rd lpSeries (ulRuns - 2) in
              Ret (if SizeOfRun prev <? ulSize then true else bNeedSort)
            else Ret bNeedSort in
          FindRuns_loop fuel fn bm lpSeries ulCount bLongest bNeedSort
            (u32 (ulNextPos + ulSize)) ulRuns
        else
          FindRuns_loop fuel fn bm lpSeries ulCount bLongest bNeedSort
            (u32 (ulNextPos + ulSize)) ulRuns
      else
        let! lpSeries := wr lpSeries ulRuns (mkRun ulNextPos ulSize) in
        let ulRuns := u32 (ulRuns + 1) in
        if negb bLongest && (ulRuns =? ulCount) then Ret (ulRuns, lpSeries)
        else FindRuns_loop fuel fn bm lpSeries ulCount bLongest bNeedSort
               (u32 (ulNextPos + ulSize)) ulRuns
    else Ret (ulRuns, lpSeries)
  end.

(** every iteration moves past at least one bit of the bitmap *)
Definition NTDLL_FindRuns (lpBits : RTL_BITMAP) (lpSeries : list RTL_BITMAP_RUN) (ulCount : Z)
    (bLongest : bool) (fn : RTL_BITMAP -> Z -> outcome run_result)
    : outcome (Z * list RTL_BITMAP_RUN) :=
  let bNeedSort := 1 <? ulCount in
  if ulCount =? 0 then Ret (NOT_FOUND, lpSeries) else
  FindRuns_loop (S (Z.to_nat (SizeOfBitMap lpBits))) fn lpBits lpSeries ulCount bLongest
    bNeedSort 0 0.

Definition RtlFindSetRuns (lpBits : RTL_BITMAP) (lpSeries : list RTL_BITMAP_RUN) (ulCount : Z)
    (bLongest : bool) : outcome (Z * list RTL_BITMAP_RUN) :=
  NTDLL_FindRuns lpBits lpSeries ulCount bLongest NTDLL_FindSetRun.

Definition RtlFindClearRuns (lpBits : RTL_BITMAP) (lpSeries : list RTL_BITMAP_RUN) (ulCount : Z)
    (bLongest : bool) : outcome (Z * list RTL_BITMAP_RUN) :=
  NTDLL_FindRuns lpBits lpSeries ulCount bLongest NTDLL_FindClearRun.

(** [br] is the uninitialised local; the result is the size and the value
    stored through [pulStart] when that is not NULL *)
Definition RtlFindLongestRunSet (br : RTL_BITMAP_RUN) (lpBits : RTL_BITMAP) (has_start : bool)
    : outcome (Z * option Z) :=
  let! (n, series) := RtlFindSetRuns lpBits [br] 1 true in
  if n =? 1 then
    let! r := rd series 0 in
    Ret (SizeOfRun r, if has_start then Some (StartOfRun r) else None)
  else Ret (0, None).

Definition RtlFindLongestRunClear (br : RTL_BITMAP_RUN) (lpBits : RTL_BITMAP) (has_start : bool)
    : outcome (Z * option Z) :=
  let! (n, series) := RtlFindClearRuns lpBits [br] 1 true in
  if n =? 1 then
    let! r := rd series 0 in
    Ret (SizeOfRun r, if has_start then Some (StartOfRun r) else None)
  else Ret (0, None).
End FindRuns.

End Bitmap.
