(* ===== verification/RtlBitmapSpec.v ===== *)
(** * Correctness of the NT bitmap operations

    The abstract bitmap is a predicate on bit positions; each operation of
    [Bitmap] is shown to act on that predicate as the function's comment
    promises, and the places where it does not are stated exactly. *)
From S2P Require Import Prelude RtlBitmap.

Module BitmapSpec.
Import Bitmap.

(** ** The abstract bitmap: a predicate on bit positions *)

(** bit [i] of a buffer, least significant bit of the first byte first *)
Definition bit (buf : list Z) (i : Z) : bool := Z.testbit (nthZ 0 buf (i / 8)) (i mod 8).

(** the buffer has [n] bytes and its bits are [f] *)
Definition holds (buf : list Z) (n : Z) (f : Z -> bool) : Prop :=
  bytes buf /\ zlen buf = n /\ forall i, 0 <= i -> bit buf i = f i.

(** the bit positions of a range *)
Definition inrange (a n i : Z) : bool := (a <=? i) && (i <? a + n).

(** A bitmap whose buffer has its bits, as the structure documents. *)
Definition bm_fits (bm : RTL_BITMAP) : Prop :=
  bytes (BitMapBuffer bm) /\ 0 <= SizeOfBitMap bm < 2 ^ 31 /\
  SizeOfBitMap bm <= 8 * zlen (BitMapBuffer bm).
(** A bitmap whose buffer has a spare byte after the last one in use. *)
Definition bm_ok (bm : RTL_BITMAP) : Prop :=
  bytes (BitMapBuffer bm) /\ 0 <= SizeOfBitMap bm < 2 ^ 31 /\
  (SizeOfBitMap bm + 7) / 8 < zlen (BitMapBuffer bm).

Lemma bm_ok_fits bm : bm_ok bm -> bm_fits bm.
Proof. intros (Hb & Hs & Hl). split; [done|]. split; [done|dlia]. Qed.

Lemma maskBits_ones c : 0 <= c < 8 -> rd NTDLL_maskBits c = Ret (Z.ones c).
Proof.
  intros Hc. assert (c = 0 \/ c = 1 \/ c = 2 \/ c = 3 \/ c = 4 \/ c = 5 \/ c = 6 \/ c = 7) by lia.
  by destruct_or!; subst.
Qed.

Lemma ones_testbit c j : 0 <= c -> 0 <= j -> Z.testbit (Z.ones c) j = (j <? c).
Proof. intros. zcases; [by apply Z.ones_spec_low|by apply Z.ones_spec_high]. Qed.

Lemma testbit_255 j : 0 <= j -> Z.testbit 255 j = (j <? 8).
Proof. apply (ones_testbit 8). lia. Qed.

Lemma land7 x : Z.land x 7 = x mod 8.
Proof. apply (land_pow2_mask x 3). lia. Qed.

Lemma shiftr3 x : Z.shiftr x 3 = x / 8.
Proof. apply (Z.shiftr_div_pow2 x 3). lia. Qed.

Lemma wr_holds buf k v n f :
  holds buf n f -> 0 <= k < n -> isU 8 v ->
  exists buf', wr buf k v = Ret buf' /\
    holds buf' n (fun i => if i / 8 =? k then Z.testbit v (i mod 8) else f i).
Proof.
  intros (Hb & Hl & Hf) Hk Hv. rewrite wr_in by lia. eexists; split; [done|].
  split_and!; [by apply bytes_insert|by rewrite zlen_insert|].
  intros i Hi. unfold bit. rewrite nthZ_insert by lia. zcases. by apply Hf.
Qed.

Lemma or_byte_holds buf k m n f :
  holds buf n f -> 0 <= k < n ->
  exists buf', or_byte buf k m = Ret buf' /\
    holds buf' n (fun i => f i || ((i / 8 =? k) && Z.testbit m (i mod 8))).
Proof.
  intros H Hk. unfold or_byte. pose proof H as (Hb & Hl & Hf).
  rewrite (rd_in 0) by lia. cbn [obind].
  destruct (wr_holds buf k (u8 (Z.lor (nthZ 0 buf k) m)) n f) as (buf' & -> & Hb' & Hl' & Hf');
    [done..|by apply wrapU_range|].
  eexists; split; [done|]. split_and!; [done..|]. intros i Hi. rewrite Hf' by done.
  destruct (Z.eqb_spec (i / 8) k) as [<-|]; simpl; [|by rewrite orb_false_r].
  rewrite wrapU_testbit, Z.lor_spec, <- Hf by lia. zcasesd.
Qed.

Lemma and_byte_holds buf k m n f :
  holds buf n f -> 0 <= k < n ->
  exists buf', and_byte buf k m = Ret buf' /\
    holds buf' n (fun i => f i && (negb (i / 8 =? k) || Z.testbit m (i mod 8))).
Proof.
  intros H Hk. unfold and_byte. pose proof H as (Hb & Hl & Hf).
  rewrite (rd_in 0) by lia. cbn [obind].
  destruct (wr_holds buf k (u8 (Z.land (nthZ 0 buf k) m)) n f) as (buf' & -> & Hb' & Hl' & Hf');
    [done..|by apply wrapU_range|].
  eexists; split; [done|]. split_and!; [done..|]. intros i Hi. rewrite Hf' by done.
  destruct (Z.eqb_spec (i / 8) k) as [<-|]; simpl; [|by rewrite andb_true_r].
  rewrite wrapU_testbit, Z.land_spec, <- Hf by lia. zcasesd.
Qed.

Lemma bytes_from_nthZ l : (forall j, isU 8 (nthZ 0 l j)) -> bytes l.
Proof.
  intros H. apply Forall_lookup_2. intros k x Hk. specialize (H (Z.of_nat k)).
  unfold nthZ in H. rewrite Nat2Z.id, Hk in H. destruct (Z.ltb_spec (Z.of_nat k) 0); [lia|done].
Qed.

Lemma fill_holds buf k v c n f :
  holds buf n f -> isU 8 v -> 0 <= k -> 0 <= c -> k + c <= n ->
  exists buf', fill buf k v (Z.to_nat c) = Ret buf' /\
    holds buf' n (fun i => if inrange k c (i / 8) then Z.testbit v (i mod 8) else f i).
Proof.
  intros (Hb & Hl & Hf) Hv Hk Hc Hn.
  destruct (fill_ok 0 buf k v (Z.to_nat c)) as (buf' & -> & Hl' & Hv'); [lia..|].
  rewrite Z2Nat.id in Hv' by lia. eexists; split; [done|]. split_and!; [|lia|].
  - apply bytes_from_nthZ. intros j. rewrite Hv'. case_match; [done|by apply bytes_nthZ].
  - intros i Hi. unfold bit, inrange. rewrite Hv'. case_match; [done|by apply Hf].
Qed.

(** two descriptions of the bits *)
Lemma holds_ext buf n f g : holds buf n f -> (forall i, 0 <= i -> f i = g i) -> holds buf n g.
Proof. intros (? & ? & Hf) Hg. split_and!; [done..|]. intros. rewrite Hf by done. auto. Qed.

Lemma holds_self buf : bytes buf -> holds buf (zlen buf) (bit buf).
Proof. by repeat split. Qed.

Lemma RtlSetBits_rest_holds buf k c n f :
  holds buf n f -> 0 <= k -> 0 <= c -> k + c / 8 < n ->
  exists buf', RtlSetBits_rest buf k c = Ret buf' /\
    holds buf' n (fun i => f i || inrange (8 * k) c i).
Proof.
  intros H Hk Hc Hn. unfold RtlSetBits_rest. rewrite shiftr3, land7.
  destruct (fill_holds buf k 255 (c / 8) n f) as (b1 & -> & H1); [done|done|lia|dlia|lia|].
  cbn [obind]. rewrite maskBits_ones by dlia. cbn [obind].
  destruct (or_byte_holds b1 (k + c / 8) (Z.ones (c mod 8)) n _ H1) as (b2 & -> & H2); [dlia|].
  eexists; split; [done|]. eapply holds_ext; [done|]. intros i Hi; simpl. unfold inrange.
  rewrite ones_testbit, testbit_255 by dlia. zcasesd; destruct (f i); simpl; try done; dlia.
Qed.

(** [bm'] is [bm] with its bits replaced by [f] *)
Definition becomes (bm bm' : RTL_BITMAP) (f : Z -> bool) : Prop :=
  SizeOfBitMap bm' = SizeOfBitMap bm /\ holds (BitMapBuffer bm') (zlen (BitMapBuffer bm)) f.

Lemma becomes_ok bm bm' f : bm_ok bm -> becomes bm bm' f -> bm_ok bm'.
Proof.
  intros (Hb & Hs & Hl) (Hsz & Hb' & Hl' & _). unfold bm_ok. rewrite Hsz, Hl'. auto.
Qed.

Lemma bad_range_false bm start count :
  0 <= start -> 0 < count -> start + count <= SizeOfBitMap bm -> SizeOfBitMap bm < 2 ^ 32 ->
  bad_range bm start count = false.
Proof. intros. unfold bad_range. rewrite wrapU_small by (unfold isU; lia). zcases. Qed.

Lemma bad_range_true bm start count :
  0 <= start < 2 ^ 31 -> 0 <= count < 2 ^ 31 -> count = 0 \/ SizeOfBitMap bm < start + count ->
  bad_range bm start count = true.
Proof. intros. unfold bad_range. rewrite wrapU_small by (unfold isU; lia). zcases. Qed.

(** the short unaligned run: the 16-bit mask and its two halves *)
Lemma initial_word c s :
  0 <= c < 8 -> 0 <= s < 8 -> u16 (Z.shiftl (Z.ones c) s) = Z.shiftl (Z.ones c) s.
Proof.
  intros Hc Hs. apply wrapU_small. rewrite Z.shiftl_mul_pow2, Z.ones_equiv by lia. unfold isU.
  assert (1 <= 2 ^ c <= 2 ^ 7) by (split; [|apply Z.pow_le_mono_r]; lia).
  assert (1 <= 2 ^ s <= 2 ^ 7) by (split; [|apply Z.pow_le_mono_r]; lia).
  change (2 ^ 7) with 128 in *. change (2 ^ 16) with 65536. nia.
Qed.

Lemma initial_word_bits c s j :
  0 <= c < 8 -> 0 <= s < 8 -> 0 <= j -> Z.testbit (Z.shiftl (Z.ones c) s) j = inrange s c j.
Proof.
  intros Hc Hs Hj. rewrite Z.shiftl_spec by lia. unfold inrange. destruct (decide (j < s)).
  - rewrite Z.testbit_neg_r by lia. zcases.
  - rewrite ones_testbit by lia. zcases.
Qed.

(** the head of a long unaligned run *)
Lemma head_mask_bits s j : 0 <= s -> 0 <= j < 8 -> Z.testbit (Z.shiftl 255 s) j = (s <=? j).
Proof.
  intros Hs Hj. rewrite Z.shiftl_spec by lia. destruct (decide (j < s)).
  - rewrite Z.testbit_neg_r by lia. zcases.
  - rewrite testbit_255 by lia. zcases.
Qed.

Ltac solve_range := intros i Hi; simpl; unfold inrange; zcasesd.

(** the last byte that RtlSetBits accesses for a range: a short range that starts
    inside a byte is set with two bytes, another ends with a byte that may have no
    bit of the range *)
Definition last_access (start count : Z) : Z :=
  if negb (start mod 8 =? 0) && (count <=? 7) then start / 8 + 1 else (start + count) / 8.

Lemma last_access_spare bm start count :
  bm_ok bm -> 0 <= start -> 0 < count -> start + count <= SizeOfBitMap bm -> last_access start count < zlen (BitMapBuffer bm).
Proof. intros (_ & _ & Hl) Hst Hc Hr. unfold last_access. zcasesd. Qed.

Lemma RtlSetBits_holds bm start count :
  bm_fits bm -> 0 <= start -> 0 < count -> start + count <= SizeOfBitMap bm -> last_access start count < zlen (BitMapBuffer bm) ->
  exists bm', RtlSetBits (Some bm) start count = Ret (Some bm') /\
    becomes bm bm' (fun i => bit (BitMapBuffer bm) i || inrange start count i).
Proof.
  intros (Hb & Hs & Hl) Hst Hc Hr Hlast. unfold RtlSetBits.
  rewrite bad_range_false, shiftr3, land7 by lia.
  pose proof (holds_self _ Hb) as H0.
  enough (exists buf', (if negb (start mod 8 =? 0) then _ else _) = Ret buf' /\
    holds buf' (zlen (BitMapBuffer bm))
      (fun i => bit (BitMapBuffer bm) i || inrange start count i)) as (buf' & -> & H').
  { exists (mkBitmap (SizeOfBitMap bm) buf'). done. }
  unfold last_access in Hlast. destruct (Z.eqb_spec (start mod 8) 0) as [E|E]; cbn [negb andb] in Hlast; simpl.
  - destruct (RtlSetBits_rest_holds _ (start / 8) count _ _ H0) as (b1 & -> & H1); [dlia..|].
    eexists; split; [done|]. eapply holds_ext; [done|]. intros i Hi; simpl. f_equal.
    unfold inrange. zcasesd.
  - destruct (Z.ltb_spec 7 count) as [Hlt|Hlt], (Z.leb_spec count 7) as [Hle|Hle]; try lia.
    + destruct (or_byte_holds _ (start / 8) (Z.shiftl 255 (start mod 8)) _ _ H0)
        as (b1 & -> & H1); [dlia|]. cbn [obind]. rewrite wrapU_small by (unfold isU; dlia).
      destruct (RtlSetBits_rest_holds _ (start / 8 + 1) (count - (8 - start mod 8)) _ _ H1)
        as (b2 & -> & H2); [dlia..|].
      eexists; split; [done|]. eapply holds_ext; [done|]. intros i Hi; simpl.
      rewrite head_mask_bits, <- orb_assoc by dlia. f_equal. unfold inrange. zcasesd.
    + rewrite maskBits_ones by lia. cbn [obind]. rewrite initial_word by dlia.
      destruct (or_byte_holds _ (start / 8)
        (Z.land (Z.shiftl (Z.ones count) (start mod 8)) 255) _ _ H0) as (b1 & -> & H1); [dlia|].
      cbn [obind].
      destruct (or_byte_holds _ (start / 8 + 1)
        (Z.shiftr (Z.shiftl (Z.ones count) (start mod 8)) 8) _ _ H1) as (b2 & -> & H2); [dlia|].
      eexists; split; [done|]. eapply holds_ext; [done|]. intros i Hi; simpl.
      rewrite Z.land_spec, Z.shiftr_spec, !initial_word_bits, testbit_255, <- orb_assoc by dlia.
      f_equal. unfold inrange. zcasesd.
Qed.

Lemma RtlSetBits_rest_out buf k c : 0 <= k -> 0 <= c -> k + c / 8 = zlen buf -> RtlSetBits_rest buf k c = Fault.
Proof.
  intros Hk Hc Hn. unfold RtlSetBits_rest. rewrite shiftr3, land7.
  destruct (fill_ok 0 buf k 255 (Z.to_nat (c / 8))) as (buf' & -> & Hl & _); [lia|rewrite Z2Nat.id by dlia; lia|]. cbn [obind].
  rewrite maskBits_ones by dlia. cbn [obind]. unfold or_byte. by rewrite rd_out by lia.
Qed.
Lemma RtlSetBits_faults bm start count :
  bm_fits bm -> 0 <= start -> 0 < count -> start + count <= SizeOfBitMap bm -> zlen (BitMapBuffer bm) <= last_access start count ->
  RtlSetBits (Some bm) start count = Fault.
Proof.
  intros (Hb & Hs & Hl) Hst Hc Hr Hlast. unfold RtlSetBits. rewrite bad_range_false, shiftr3, land7 by lia.
  pose proof (holds_self _ Hb) as H0. unfold last_access in Hlast. destruct (Z.eqb_spec (start mod 8) 0) as [E|E]; cbn [negb andb] in *.
  - by rewrite RtlSetBits_rest_out by dlia.
  - destruct (Z.ltb_spec 7 count), (Z.leb_spec count 7); try lia.
    + destruct (or_byte_holds _ (start / 8) (Z.shiftl 255 (start mod 8)) _ _ H0) as (b1 & -> & _ & Hz & _); [dlia|]. cbn [obind]. rewrite wrapU_small by (unfold isU; dlia).
      by rewrite RtlSetBits_rest_out by dlia.
    + rewrite maskBits_ones by lia. cbn [obind].
      destruct (or_byte_holds _ (start / 8) (Z.land (u16 (Z.shiftl (Z.ones count) (start mod 8))) 255) _ _ H0) as (b1 & -> & _ & Hz & _); [dlia|].
      cbn [obind]. unfold or_byte. by rewrite rd_out by lia.
Qed.

Lemma RtlClearBits_rest_holds buf k c n f :
  holds buf n f -> 0 <= k -> 0 <= c -> k + c / 8 < n ->
  exists buf', RtlClearBits_rest buf k c = Ret buf' /\
    holds buf' n (fun i => f i && negb (inrange (8 * k) c i)).
Proof.
  intros H Hk Hc Hn. unfold RtlClearBits_rest. rewrite shiftr3, land7.
  destruct (fill_holds buf k 0 (c / 8) n f) as (b1 & -> & H1); [done|done|lia|dlia|lia|].
  cbn [obind]. destruct (Z.eqb_spec (c mod 8) 0) as [E|E]; simpl.
  - eexists; split; [done|]. eapply holds_ext; [done|]. intros i Hi; simpl. unfold inrange.
    rewrite Z.testbit_0_l. zcasesd; destruct (f i); simpl; try done; dlia.
  - rewrite maskBits_ones by dlia. cbn [obind].
    destruct (and_byte_holds b1 (k + c / 8) (Z.lnot (Z.ones (c mod 8))) n _ H1)
      as (b2 & -> & H2); [dlia|].
    eexists; split; [done|]. eapply holds_ext; [done|]. intros i Hi; simpl. unfold inrange.
    rewrite Z.lnot_spec, ones_testbit, Z.testbit_0_l by dlia.
    zcasesd; destruct (f i); simpl; try done; dlia.
Qed.

(** the masks of the clearing side, on the bits of one byte *)
Lemma clear_word_low c s j :
  0 <= c < 8 -> 0 <= s < 8 -> 0 <= j < 8 ->
  Z.testbit (Z.land (u16 (Z.lnot (Z.shiftl (Z.ones c) s))) 255) j = negb (inrange s c j).
Proof.
  intros. rewrite Z.land_spec, wrapU_testbit, Z.lnot_spec, initial_word_bits, testbit_255 by lia.
  zcases. by rewrite andb_true_r.
Qed.

Lemma clear_word_high c s j :
  0 <= c < 8 -> 0 <= s < 8 -> 0 <= j < 8 ->
  Z.testbit (Z.shiftr (u16 (Z.lnot (Z.shiftl (Z.ones c) s))) 8) j = negb (inrange s c (j + 8)).
Proof.
  intros. rewrite Z.shiftr_spec, wrapU_testbit, Z.lnot_spec, initial_word_bits by lia. zcases.
Qed.

Lemma RtlClearBits_holds bm start count :
  bm_ok bm -> 0 <= start -> 0 < count -> start + count <= SizeOfBitMap bm ->
  exists bm', RtlClearBits (Some bm) start count = Ret (Some bm') /\
    becomes bm bm' (fun i => bit (BitMapBuffer bm) i && negb (inrange start count i)).
Proof.
  intros (Hb & Hs & Hl) Hst Hc Hr. unfold RtlClearBits.
  rewrite bad_range_false, shiftr3, land7 by lia.
  pose proof (holds_self _ Hb) as H0.
  enough (exists buf', (if negb (start mod 8 =? 0) then _ else _) = Ret buf' /\
    holds buf' (zlen (BitMapBuffer bm))
      (fun i => bit (BitMapBuffer bm) i && negb (inrange start count i))) as (buf' & -> & H').
  { exists (mkBitmap (SizeOfBitMap bm) buf'). done. }
  destruct (Z.eqb_spec (start mod 8) 0) as [E|E]; simpl.
  - destruct (RtlClearBits_rest_holds _ (start / 8) count _ _ H0) as (b1 & -> & H1); [dlia..|].
    eexists; split; [done|]. eapply holds_ext; [done|]. intros i Hi; simpl. f_equal.
    unfold inrange. zcasesd.
  - destruct (Z.ltb_spec 7 count).
    + destruct (and_byte_holds _ (start / 8) (Z.lnot (Z.shiftl 255 (start mod 8))) _ _ H0)
        as (b1 & -> & H1); [dlia|]. cbn [obind]. rewrite wrapU_small by (unfold isU; dlia).
      destruct (RtlClearBits_rest_holds _ (start / 8 + 1) (count - (8 - start mod 8)) _ _ H1)
        as (b2 & -> & H2); [dlia..|].
      eexists; split; [done|]. eapply holds_ext; [done|]. intros i Hi; simpl.
      rewrite Z.lnot_spec, head_mask_bits, <- andb_assoc by dlia. f_equal.
      unfold inrange. zcasesd.
    + rewrite maskBits_ones by lia. cbn [obind].
      destruct (and_byte_holds _ (start / 8)
        (Z.land (u16 (Z.lnot (Z.shiftl (Z.ones count) (start mod 8)))) 255) _ _ H0)
        as (b1 & -> & H1); [dlia|]. cbn [obind].
      destruct (and_byte_holds _ (start / 8 + 1)
        (Z.shiftr (u16 (Z.lnot (Z.shiftl (Z.ones count) (start mod 8)))) 8) _ _ H1)
        as (b2 & -> & H2); [dlia|].
      eexists; split; [done|]. eapply holds_ext; [done|]. intros i Hi; simpl.
      rewrite clear_word_low, clear_word_high, <- andb_assoc by dlia.
      f_equal. unfold inrange. zcasesd.
Qed.

(** ** Tests of a range *)

Definition range_is (v : bool) (buf : list Z) (a n : Z) : Prop :=
  forall i, a <= i < a + n -> bit buf i = v.

(** the result of a test function, as a proposition *)
Definition tests (m : outcome bool) (P : Prop) : Prop :=
  exists b, m = Ret b /\ (b = true <-> P).

Lemma land_eq_mask b m :
  Z.land b m = m <-> forall j, 0 <= j -> Z.testbit m j = true -> Z.testbit b j = true.
Proof.
  split.
  - intros E j Hj Hm. rewrite <- E, Z.land_spec in Hm. by apply andb_true_iff in Hm as [].
  - intros H. apply Z.bits_inj'. intros j Hj. rewrite Z.land_spec.
    destruct (Z.testbit m j) eqn:E; [rewrite H by done; done|by rewrite andb_false_r].
Qed.

Lemma land_eq_0 b m :
  Z.land b m = 0 <-> forall j, 0 <= j -> Z.testbit m j = true -> Z.testbit b j = false.
Proof.
  split.
  - intros E j Hj Hm. assert (Z.testbit (Z.land b m) j = false) as H by by rewrite E, Z.testbit_0_l.
    rewrite Z.land_spec, Hm, andb_true_r in H. done.
  - intros H. apply Z.bits_inj'. intros j Hj. rewrite Z.land_spec, Z.testbit_0_l.
    destruct (Z.testbit m j) eqn:E; [rewrite H by done; done|by rewrite andb_false_r].
Qed.

(** the byte all of whose bits are [v] *)
Definition full (v : bool) : Z := if v then 0xff else 0.

Lemma byte_full v b : isU 8 b -> b = full v <-> forall j, 0 <= j < 8 -> Z.testbit b j = v.
Proof.
  intros Hb. split.
  - intros -> j Hj. destruct v; [by rewrite testbit_255; zcases|by rewrite Z.testbit_0_l].
  - intros H. apply Z.bits_inj'. intros j Hj. destruct (decide (j < 8)).
    + rewrite H by lia. destruct v; simpl full; [by rewrite testbit_255; zcases|by rewrite Z.testbit_0_l].
    + rewrite (testbit_isU_high 8 b) by (done || lia).
      destruct v; simpl full; [by rewrite testbit_255; zcases|by rewrite Z.testbit_0_l].
Qed.

Lemma range_byte v buf k :
  bytes buf -> 0 <= k -> nthZ 0 buf k = full v <-> range_is v buf (8 * k) 8.
Proof.
  intros Hb Hk. rewrite byte_full by auto with winex. unfold range_is, bit. split.
  - intros H i Hi. replace (i / 8) with k by dlia. apply H. dlia.
  - intros H j Hj. specialize (H (8 * k + j) ltac:(lia)).
    replace ((8 * k + j) / 8) with k in H by dlia. by replace ((8 * k + j) mod 8) with j in H by dlia.
Qed.

Lemma range_app v buf a n m :
  0 <= n -> 0 <= m -> range_is v buf a (n + m) <-> range_is v buf a n /\ range_is v buf (a + n) m.
Proof.
  intros Hn Hm. unfold range_is. split.
  - intros H. split; intros i Hi; apply H; lia.
  - intros [H1 H2] i Hi. destruct (decide (i < a + n)); [apply H1|apply H2]; lia.
Qed.

Lemma range_nil v buf a : range_is v buf a 0.
Proof. intros i Hi. lia. Qed.

Lemma whole_bytes_range v buf k n :
  bytes buf -> 0 <= k -> k + Z.of_nat n <= zlen buf ->
  (whole_bytes (full v) buf k n = Ret (inr (k + Z.of_nat n)) /\ range_is v buf (8 * k) (8 * Z.of_nat n))
  \/ (whole_bytes (full v) buf k n = Ret (inl tt) /\ ~ range_is v buf (8 * k) (8 * Z.of_nat n)).
Proof.
  intros Hb. revert k. induction n as [|n IH]; intros k Hk Hn.
  - left. simpl. split; [by rewrite Z.add_0_r|apply range_nil].
  - cbn [whole_bytes]. rewrite (rd_in 0) by lia. cbn [obind].
    replace (8 * Z.of_nat (S n)) with (8 + 8 * Z.of_nat n) by lia. rewrite range_app by lia.
    pose proof (range_byte v buf k Hb Hk) as Hr.
    destruct (Z.eqb_spec (nthZ 0 buf k) (full v)) as [E|E]; simpl.
    + replace (8 * k + 8) with (8 * (k + 1)) by lia.
      replace (k + Z.of_nat (S n)) with (k + 1 + Z.of_nat n) by lia.
      destruct (IH (k + 1)) as [[-> H]|[-> H]]; [lia..| |]; [left|right]; tauto.
    + right. tauto.
Qed.

(** the masked comparison made by the two tests *)
Definition mask_is (v : bool) (b m : Z) : Prop := Z.land b m = if v then m else 0.

Lemma mask_is_bits v b m :
  mask_is v b m <-> forall j, 0 <= j -> Z.testbit m j = true -> Z.testbit b j = v.
Proof. destruct v; [apply land_eq_mask|apply land_eq_0]. Qed.

Lemma mask_range v buf k m s c :
  0 <= k -> 0 <= s -> 0 <= c -> s + c <= 8 ->
  (forall j, 0 <= j -> Z.testbit m j = inrange s c j) ->
  mask_is v (nthZ 0 buf k) m <-> range_is v buf (8 * k + s) c.
Proof.
  intros Hk Hs Hc Hsc Hm. rewrite mask_is_bits. unfold range_is, bit. split.
  - intros H i Hi. replace (i / 8) with k by dlia. apply H; [dlia|].
    rewrite Hm by dlia. unfold inrange. zcasesd.
  - intros H j Hj Hmj. rewrite Hm in Hmj by done. unfold inrange in Hmj. zhyps.
    specialize (H (8 * k + j) ltac:(lia)).
    replace ((8 * k + j) / 8) with k in H by dlia. by replace ((8 * k + j) mod 8) with j in H by dlia.
Qed.

Lemma tests_if (b : bool) (P : Prop) :
  (b = true <-> P) -> tests (if negb b then Ret false else Ret true) P.
Proof. intros H. exists b. by destruct b. Qed.

Lemma tests_ret_true (P : Prop) : P -> tests (Ret true) P.
Proof. intros. exists true. done. Qed.
Lemma tests_ret_false (P : Prop) : ~ P -> tests (Ret false) P.
Proof. intros. exists false. done. Qed.

Lemma tests_iff m (P Q : Prop) : tests m P -> (P <-> Q) -> tests m Q.
Proof. intros (b & Hm & Hb) HPQ. exists b. split; [done|]. tauto. Qed.

#[local] Instance tests_proper m : Proper (iff ==> iff) (tests m).
Proof. intros P Q HPQ. split; intros H; eapply tests_iff; eauto; tauto. Qed.

Lemma eqb_mask (v : bool) (b m : Z) : (Z.land b m =? (if v then m else 0)) = true <-> mask_is v b m.
Proof. apply Z.eqb_eq. Qed.

(** the two [_rest] functions are one, up to the bit value they look for *)
Definition AreBits_rest (v : bool) : list Z -> Z -> Z -> outcome bool :=
  if v then RtlAreBitsSet_rest else RtlAreBitsClear_rest.
Definition AreBits (v : bool) : option RTL_BITMAP -> Z -> Z -> outcome bool :=
  if v then RtlAreBitsSet else RtlAreBitsClear.

Lemma AreBits_rest_unfold v buf lpOut ulCount :
  AreBits_rest v buf lpOut ulCount =
  let! r := whole_bytes (full v) buf lpOut (Z.to_nat (Z.shiftr ulCount 3)) in
  match r with
  | inl _ => Ret false
  | inr lpOut =>
    if negb (Z.land ulCount 7 =? 0) then
      let! m := rd NTDLL_maskBits (Z.land ulCount 7) in
      let! b := rd buf lpOut in
      if negb (Z.land b m =? if v then m else 0) then Ret false else Ret true
    else Ret true
  end.
Proof. by destruct v. Qed.

Lemma AreBits_rest_tests v buf k c :
  bytes buf -> 0 <= k -> 0 <= c -> 8 * k + c <= 8 * zlen buf ->
  tests (AreBits_rest v buf k c) (range_is v buf (8 * k) c).
Proof.
  intros Hb Hk Hc Hn. rewrite AreBits_rest_unfold, shiftr3, land7.
  assert (range_is v buf (8 * k) c <->
    range_is v buf (8 * k) (8 * (c / 8)) /\ range_is v buf (8 * (k + c / 8)) (c mod 8)) as ->.
  { rewrite (Z.mul_add_distr_l 8 k), <- range_app by dlia.
    by replace (8 * (c / 8) + c mod 8) with c by dlia. }
  destruct (whole_bytes_range v buf k (Z.to_nat (c / 8))) as [[-> H]|[-> H]]; [done|lia|dlia|..];
    rewrite Z2Nat.id in H by dlia; cbn [obind]; [rewrite Z2Nat.id by dlia|apply tests_ret_false; tauto].
  destruct (Z.eqb_spec (c mod 8) 0) as [E|E]; cbn [negb].
  { apply tests_ret_true. split; [done|]. rewrite E. apply range_nil. }
  rewrite maskBits_ones by dlia. cbn [obind]. rewrite (rd_in 0) by dlia. cbn [obind].
  apply tests_if. rewrite eqb_mask, (mask_range v buf (k + c / 8) _ 0 (c mod 8)); [|dlia..|].
  - rewrite Z.add_0_r. tauto.
  - intros j Hj. rewrite ones_testbit by dlia. unfold inrange. zcases.
Qed.

Lemma AreBits_unfold v bm ulStart ulCount :
  AreBits v (Some bm) ulStart ulCount =
    if bad_range bm ulStart ulCount then Ret false else
    let buf := BitMapBuffer bm in
    let lpOut := Z.shiftr ulStart 3 in
    let s := Z.land ulStart 7 in
    if negb (s =? 0) then
      if 7 <? ulCount then
        let! b := rd buf lpOut in
        if negb (Z.land b (Z.land (Z.shiftl 0xff s) 0xff) =?
                 if v then Z.land (Z.shiftl 0xff s) 0xff else 0) then Ret false
        else AreBits_rest v buf (lpOut + 1) (u32 (ulCount - (8 - s)))
      else
        let! m := rd NTDLL_maskBits ulCount in
        let w := u16 (Z.shiftl m s) in
        let! b := rd buf lpOut in
        if negb (Z.land b (Z.land w 0xff) =? if v then Z.land w 0xff else 0) then Ret false
        else if negb (Z.land w 0xff00 =? 0) then
          let! b1 := rd buf (lpOut + 1) in
          if negb (Z.land b1 (Z.shiftr w 8) =? if v then Z.shiftr w 8 else 0) then Ret false
          else Ret true
        else Ret true
    else AreBits_rest v buf lpOut ulCount.
Proof.
  destruct v; [|done]. simpl. destruct (bad_range _ _ _); [done|].
  destruct (negb _); [|done]. destruct (7 <? ulCount); [|done].
  destruct (rd _ _); simpl; [|done..]. by rewrite Z.land_assoc.
Qed.

(** the word mask of the short run, split at the byte boundary *)
Lemma word_low_bits c s j :
  0 <= c < 8 -> 0 <= s < 8 -> 0 <= j ->
  Z.testbit (Z.land (Z.shiftl (Z.ones c) s) 0xff) j = inrange s (Z.min c (8 - s)) j.
Proof.
  intros. rewrite Z.land_spec, initial_word_bits, testbit_255 by lia. unfold inrange. zcases.
Qed.

Lemma word_high_bits c s j :
  0 <= c < 8 -> 0 <= s < 8 -> 0 <= j ->
  Z.testbit (Z.shiftr (Z.shiftl (Z.ones c) s) 8) j = inrange 0 (Z.max 0 (s + c - 8)) j.
Proof.
  intros. rewrite Z.shiftr_spec, initial_word_bits by lia. unfold inrange. zcases.
Qed.

Lemma word_crosses c s :
  0 <= c < 8 -> 0 <= s < 8 ->
  negb (Z.land (Z.shiftl (Z.ones c) s) 0xff00 =? 0) = (8 <? s + c).
Proof.
  intros Hc Hs.
  assert (c = 0 \/ c = 1 \/ c = 2 \/ c = 3 \/ c = 4 \/ c = 5 \/ c = 6 \/ c = 7) as Cc by lia.
  assert (s = 0 \/ s = 1 \/ s = 2 \/ s = 3 \/ s = 4 \/ s = 5 \/ s = 6 \/ s = 7) as Cs by lia.
  destruct_or! Cc; destruct_or! Cs; by subst.
Qed.

Lemma AreBits_tests v bm start count :
  bytes (BitMapBuffer bm) -> SizeOfBitMap bm <= 8 * zlen (BitMapBuffer bm) ->
  SizeOfBitMap bm < 2 ^ 32 ->
  0 <= start -> 0 < count -> start + count <= SizeOfBitMap bm ->
  tests (AreBits v (Some bm) start count) (range_is v (BitMapBuffer bm) start count).
Proof.
  intros Hb Hl Hs Hst Hc Hr. rewrite AreBits_unfold, bad_range_false by lia. cbv zeta.
  rewrite shiftr3, land7. set (buf := BitMapBuffer bm) in *.
  destruct (Z.eqb_spec (start mod 8) 0) as [E|E]; cbn [negb].
  { eapply tests_iff; [apply AreBits_rest_tests; [done|dlia..]|].
    by replace (8 * (start / 8)) with start by dlia. }
  destruct (Z.ltb_spec 7 count).
  - rewrite (rd_in 0) by dlia. cbn [obind]. rewrite wrapU_small by (unfold isU; dlia).
    assert (range_is v buf start count <-> range_is v buf (8 * (start / 8) + start mod 8) (8 - start mod 8)
      /\ range_is v buf (8 * (start / 8 + 1)) (count - (8 - start mod 8))) as ->.
    { replace (8 * (start / 8 + 1)) with (8 * (start / 8) + start mod 8 + (8 - start mod 8)) by dlia.
      rewrite <- range_app by dlia. by replace (8 * (start / 8) + start mod 8) with start by dlia;
      replace (8 - start mod 8 + (count - (8 - start mod 8))) with count by lia. }
    rewrite <- (mask_range v buf (start / 8) (Z.land (Z.shiftl 255 (start mod 8)) 255)).
    2-5: dlia. 2: { intros j Hj. rewrite Z.land_spec, testbit_255 by lia.
      destruct (decide (j < 8)); [rewrite head_mask_bits by dlia|]; unfold inrange; zcases. }
    rewrite <- eqb_mask. destruct (_ =? _); cbn [negb]; [|by apply tests_ret_false; intros []].
    eapply tests_iff; [apply AreBits_rest_tests; [done|dlia..]|]. tauto.
  - rewrite maskBits_ones by lia. cbn [obind]. rewrite initial_word by dlia.
    rewrite (rd_in 0) by dlia. cbn [obind].
    assert (start = 8 * (start / 8) + start mod 8 /\ 0 <= start mod 8 < 8 /\ 0 <= start / 8)
      as (Hstart & Hsr & Hkr) by dlia.
    remember (start mod 8) as s eqn:Es. remember (start / 8) as k eqn:Ek. clear Es Ek.
    assert (range_is v buf start count <-> range_is v buf (8 * k + s) (Z.min count (8 - s))
      /\ range_is v buf (8 * (k + 1) + 0) (Z.max 0 (s + count - 8))) as ->.
    { destruct (decide (s + count <= 8)).
      - rewrite Z.min_l, Z.max_l by lia. replace (8 * k + s) with start by lia.
        split; [|tauto]. intros; split; [done|apply range_nil].
      - rewrite Z.min_r, Z.max_r by lia.
        replace (8 * (k + 1) + 0) with (8 * k + s + (8 - s)) by lia.
        rewrite <- range_app by lia. replace (8 * k + s) with start by lia.
        by replace (8 - s + (s + count - 8)) with count by lia. }
    rewrite <- (mask_range v buf k (Z.land (Z.shiftl (Z.ones count) s) 255) s (Z.min count (8 - s)))
      by (lia || (intros; apply word_low_bits; lia)).
    rewrite <- (mask_range v buf (k + 1) (Z.shiftr (Z.shiftl (Z.ones count) s) 8) 0
                  (Z.max 0 (s + count - 8))) by (lia || (intros; apply word_high_bits; lia)).
    rewrite <- eqb_mask. destruct (_ =? _); cbn [negb]; [|by apply tests_ret_false; intros []].
    rewrite word_crosses by lia. destruct (Z.ltb_spec 8 (s + count)).
    + rewrite (rd_in 0) by lia. cbn [obind]. apply tests_if. rewrite eqb_mask. tauto.
    + apply tests_ret_true. split; [done|]. apply mask_is_bits. intros j Hj.
      rewrite word_high_bits by lia. unfold inrange. zcases.
Qed.

(** ** Searches *)

Section FindLoop.
Context (at_pos : Z -> outcome bool) (P : Z -> Prop) (size : Z).
Context (Hsize : size < 2 ^ 31).
Context (Hat : forall p, 0 <= p < size -> tests (at_pos p) (P p)).

(** [r] is the least position of [P] in [[a, b)], or there is none *)
Definition least_in (a b r : Z) : Prop :=
  (a <= r < b /\ P r /\ forall q, a <= q < r -> ~ P q)
  \/ (r = NOT_FOUND /\ forall q, a <= q < b -> ~ P q).

Lemma least_step a b r : ~ P a -> a < b -> least_in (a + 1) b r -> least_in a b r.
Proof.
  intros Ha Hab [(Hr & HP & Hq)|[-> Hq]]; [left|right]; split_and!; try done; try lia;
    intros q Hq'; (destruct (decide (q = a)) as [->|]; [done|apply Hq; lia]).
Qed.

Lemma find_loop_plain fuel pos end_ :
  0 <= pos <= end_ -> end_ <= size -> (Z.to_nat (end_ - pos) < fuel)%nat ->
  exists r, find_loop at_pos fuel pos end_ 0 = Ret r /\ least_in pos end_ r.
Proof.
  revert pos. induction fuel as [|fuel IH]; intros pos Hp He Hf; [lia|]. cbn [find_loop].
  destruct (Z.ltb_spec pos end_).
  - destruct (Hat pos) as (b & -> & Hb); [lia|]. cbn [obind]. destruct b.
    + eexists; split; [done|]. left. split_and!; [lia..|by apply Hb|lia].
    + rewrite andb_false_r, (wrapU_small 32 (pos + 1)) by (unfold isU; lia).
      destruct (IH (pos + 1)) as (r & -> & Hr); [lia..|]. exists r. split; [done|].
      apply least_step; [intros HP; by apply Hb in HP|lia|done].
  - eexists; split; [done|]. right. split; [done|lia].
Qed.

(** the whole search: from the hint to the end, then from the start *)
Lemma find_loop_hint fuel pos hint :
  0 < hint -> hint <= pos < size -> (S (Z.to_nat (size - pos) + Z.to_nat hint) < fuel)%nat ->
  exists r, find_loop at_pos fuel pos size hint = Ret r /\
    (least_in pos size r /\ r <> NOT_FOUND
     \/ (forall q, pos <= q < size -> ~ P q) /\ least_in 0 hint r).
Proof.
  revert pos. induction fuel as [|fuel IH]; intros pos Hh Hp Hf; [lia|]. cbn [find_loop].
  destruct (Z.ltb_spec pos size); [|lia].
  destruct (Hat pos) as (b & -> & Hb); [lia|]. cbn [obind]. destruct b.
  { eexists; split; [done|]. left. split; [|unfold NOT_FOUND; lia].
    left. split_and!; [lia..|by apply Hb|lia]. }
  rewrite (wrapU_small 32 (size - 1)), (wrapU_small 32 (pos + 1)) by (unfold isU; lia).
  assert (~ P pos) as HnP by (intros HP; by apply Hb in HP).
  destruct (Z.eqb_spec pos (size - 1)) as [E|E].
  - destruct (Z.eqb_spec hint 0); [lia|]. cbn [andb negb].
    destruct (find_loop_plain fuel 0 hint) as (r & -> & Hr); [lia..|].
    exists r. split; [done|]. right. split; [|done].
    intros q Hq. by replace q with pos by lia.
  - cbn [andb]. destruct (IH (pos + 1)) as (r & -> & Hr); [lia..|]. exists r. split; [done|].
    destruct Hr as [[Hr Hn]|[Hq Hr]]; [left|right]; split; try done.
    + apply least_step; [done|lia|done].
    + intros q Hq'. destruct (decide (q = pos)) as [->|]; [done|apply Hq; lia].
Qed.
End FindLoop.

#[local] Arguments find_loop : simpl never.

Definition FindBits (v : bool) : option RTL_BITMAP -> Z -> Z -> outcome Z :=
  if v then RtlFindSetBits else RtlFindClearBits.

Lemma FindBits_unfold v bm ulCount ulHint :
  FindBits v (Some bm) ulCount ulHint =
  if (ulCount =? 0) || (SizeOfBitMap bm <? ulCount) then Ret NOT_FOUND else
  let h := if SizeOfBitMap bm <? u32 (ulHint + ulCount) then 0 else ulHint in
  find_loop (fun p => AreBits v (Some bm) p ulCount) (find_fuel bm) h (SizeOfBitMap bm) h.
Proof. by destruct v. Qed.

(** a block of [n] bits of value [v] inside the bitmap *)
Definition block (v : bool) (bm : RTL_BITMAP) (p n : Z) : Prop :=
  0 <= p /\ p + n <= SizeOfBitMap bm /\ range_is v (BitMapBuffer bm) p n.

Lemma AreBits_at v bm n p :
  bm_fits bm -> 0 < n <= SizeOfBitMap bm -> 0 <= p < SizeOfBitMap bm ->
  tests (AreBits v (Some bm) p n) (block v bm p n).
Proof.
  intros (Hb & Hs & Hl) Hn Hp. destruct (decide (p + n <= SizeOfBitMap bm)).
  - eapply tests_iff; [apply AreBits_tests; [done|dlia|lia..]|].
    unfold block. split; [|tauto]. intros; split_and!; done || lia.
  - rewrite AreBits_unfold, bad_range_true by lia. apply tests_ret_false. unfold block. lia.
Qed.

(** the search from hint [h]: a block, the least at or after [h] when there
    is one there, and NOT_FOUND exactly when there is none at all *)
Definition found_block (v : bool) (bm : RTL_BITMAP) (n h r : Z) : Prop :=
  (block v bm r n /\ forall q, h <= q -> block v bm q n -> h <= r <= q)
  \/ (r = NOT_FOUND /\ forall q, ~ block v bm q n).

Lemma FindBits_found v bm n hint :
  bm_fits bm -> 0 < n <= SizeOfBitMap bm -> 0 <= hint -> hint + n <= SizeOfBitMap bm ->
  exists r, FindBits v (Some bm) n hint = Ret r /\ found_block v bm n hint r.
Proof.
  intros Hok Hn Hh Hhn. pose proof Hok as (Hb & Hs & Hl).
  rewrite FindBits_unfold, wrapU_small by (unfold isU; lia). zcases.
  set (P := fun p => block v bm p n).
  assert (forall p, 0 <= p < SizeOfBitMap bm -> tests (AreBits v (Some bm) p n) (P p)) as Hat.
  { intros. by apply AreBits_at. }
  assert (forall q, P q -> 0 <= q < SizeOfBitMap bm) as Hrange by (unfold P, block; lia).
  unfold found_block. fold P.
  destruct (decide (hint = 0)) as [->|].
  - destruct (find_loop_plain _ P (SizeOfBitMap bm) ltac:(lia) Hat (find_fuel bm) 0 (SizeOfBitMap bm))
      as (r & -> & Hr); [lia..|unfold find_fuel; lia|].
    exists r. split; [done|]. destruct Hr as [(Hr & HP & Hq)|[-> Hq]]; [left|right].
    + split; [done|]. intros q Hq0 HPq. destruct (decide (r <= q)); [lia|].
      exfalso. by eapply (Hq q); [lia|].
    + split; [done|]. intros q HPq. by eapply Hq; [apply Hrange|].
  - destruct (find_loop_hint _ P (SizeOfBitMap bm) ltac:(lia) Hat (find_fuel bm) hint hint)
      as (r & -> & Hr); [lia..|unfold find_fuel; lia|].
    exists r. split; [done|]. destruct Hr as [[Hr Hnf]|[Hno Hr]].
    + destruct Hr as [(Hr & HP & Hq)|[-> Hq]]; [left|done].
      split; [done|]. intros q Hq0 HPq. destruct (decide (r <= q)); [lia|].
      exfalso. by eapply (Hq q); [lia|].
    + assert (forall q, P q -> q < hint) as Hlt.
      { intros q HPq. destruct (decide (q < hint)); [done|]. exfalso.
        eapply (Hno q); [|done]. specialize (Hrange q HPq). lia. }
      destruct Hr as [(Hr & HP & Hq)|[-> Hq]]; [left|right].
      * split; [done|]. intros q Hq0 HPq. specialize (Hlt q HPq). lia.
      * split; [done|]. intros q HPq. eapply (Hq q); [|done].
        specialize (Hlt q HPq). specialize (Hrange q HPq). lia.
Qed.

(** no block of that many bits, and a hint that wraps around *)
Lemma FindBits_none v bm n hint : 0 <= hint < 2 ^ 32 -> 0 <= n < 2 ^ 32 -> SizeOfBitMap bm < 2 ^ 31 ->
  n = 0 \/ SizeOfBitMap bm < n \/ 2 ^ 32 <= hint + n -> FindBits v (Some bm) n hint = Ret NOT_FOUND.
Proof.
  intros Hh Hn Hs Hc. rewrite FindBits_unfold. destruct (Z.eqb_spec n 0); [done|]. cbn [orb]. destruct (Z.ltb_spec (SizeOfBitMap bm) n); [done|].
  assert (E : u32 (hint + n) = hint + n - 2 ^ 32) by (unfold wrapU; symmetry; apply (Zmod_unique _ _ 1); lia). rewrite E. destruct (Z.ltb_spec (SizeOfBitMap bm) (hint + n - 2 ^ 32)); [lia|].
  assert (Hb : (hint <? SizeOfBitMap bm) = false) by lia. unfold find_fuel, find_loop. by rewrite Hb.
Qed.

(** a hint too close to the end counts as hint 0 *)
Lemma FindBits_hint v bm n hint :
  SizeOfBitMap bm < hint + n -> hint + n < 2 ^ 32 -> 0 <= hint -> 0 < n <= SizeOfBitMap bm ->
  FindBits v (Some bm) n hint = FindBits v (Some bm) n 0.
Proof.
  intros. rewrite !FindBits_unfold, !wrapU_small by (unfold isU; lia).
  zcases.
Qed.

(** ** Counting *)

(** the number of positions below [n] where [f] holds *)
Fixpoint cnt (f : Z -> bool) (n : nat) : Z :=
  match n with
  | O => 0
  | S n => cnt f n + Z.b2z (f (Z.of_nat n))
  end.

Lemma cnt_ext f g n : (forall i, 0 <= i < Z.of_nat n -> f i = g i) -> cnt f n = cnt g n.
Proof.
  induction n as [|n IH]; intros H; [done|]. cbn [cnt]. rewrite IH, H by (intros; apply H || idtac; lia).
  done.
Qed.

Lemma cnt_bound f n : 0 <= cnt f n <= Z.of_nat n.
Proof. induction n; cbn [cnt]; [lia|]. destruct (f _); simpl Z.b2z; lia. Qed.

Lemma cnt_app f n m : cnt f (n + m) = cnt f n + cnt (fun i => f (Z.of_nat n + i)) m.
Proof.
  induction m as [|m IH]; [rewrite Nat.add_0_r; simpl; lia|].
  rewrite Nat.add_succ_r. cbn [cnt]. rewrite IH, Nat2Z.inj_add. lia.
Qed.

Lemma cnt_none f n : (forall i, 0 <= i < Z.of_nat n -> f i = false) -> cnt f n = 0.
Proof.
  intros H. rewrite (cnt_ext f (fun _ => false)) by done. clear. induction n; cbn [cnt]; simpl; lia.
Qed.

Lemma cnt_cut g (r n : nat) :
  (r <= n)%nat -> cnt (fun j => g j && (j <? Z.of_nat r)) n = cnt g r.
Proof.
  intros Hr. replace n with (r + (n - r))%nat by lia. rewrite cnt_app,
    (cnt_none (fun i => g (Z.of_nat r + i) && (Z.of_nat r + i <? Z.of_nat r))).
  - rewrite Z.add_0_r. apply cnt_ext. intros i Hi. zcases. by rewrite andb_true_r.
  - intros i Hi. zcases.
Qed.

(** the two table lookups count the bits of a byte *)
Lemma nibble_counts b : isU 8 b -> exists hi lo,
  rd NTDLL_nibbleBitCount (Z.shiftr b 4) = Ret hi /\
  rd NTDLL_nibbleBitCount (Z.land b 0xf) = Ret lo /\
  hi + lo = cnt (Z.testbit b) 8 /\ 0 <= hi /\ 0 <= lo.
Proof.
  intros Hb. unfold isU in Hb.
  pose proof (all_below_spec 256 (fun b =>
    match rd NTDLL_nibbleBitCount (Z.shiftr b 4), rd NTDLL_nibbleBitCount (Z.land b 0xf) with
    | Ret hi, Ret lo => (hi + lo =? cnt (Z.testbit b) 8) && (0 <=? hi) && (0 <=? lo)
    | _, _ => false
    end) ltac:(vm_compute; done) b Hb) as H; cbv beta in H.
  destruct (rd _ (Z.shiftr b 4)) as [hi| |]; [|done..].
  destruct (rd _ (Z.land b 15)) as [lo| |]; [|done..].
  exists hi, lo. zhyps. done.
Qed.

(** the bits of byte [k], as bits of the buffer *)
Lemma byte_cnt buf k n :
  0 <= k -> (n <= 8)%nat ->
  cnt (Z.testbit (nthZ 0 buf k)) n = cnt (fun i => bit buf (8 * k + i)) n.
Proof.
  intros Hk Hn. apply cnt_ext. intros i Hi. unfold bit.
  replace ((8 * k + i) / 8) with k by dlia. by replace ((8 * k + i) mod 8) with i by dlia.
Qed.

Lemma count_loop_cnt buf n k acc :
  bytes buf -> 0 <= k -> k + Z.of_nat n <= zlen buf -> 0 <= acc -> acc + 8 * Z.of_nat n < 2 ^ 32 ->
  count_loop buf k acc n =
    Ret (acc + cnt (fun i => bit buf (8 * k + i)) (8 * n), k + Z.of_nat n).
Proof.
  intros Hb. revert k acc. induction n as [|n IH]; intros k acc Hk Hn Ha Hacc.
  { simpl. by rewrite !Z.add_0_r. }
  cbn [count_loop]. rewrite (rd_in 0) by lia. cbn [obind].
  destruct (nibble_counts (nthZ 0 buf k)) as (hi & lo & -> & -> & Hs & Hhi & Hlo);
    [by apply bytes_nthZ|]. cbn [obind].
  rewrite (byte_cnt buf k 8) in Hs by lia.
  pose proof (cnt_bound (fun i => bit buf (8 * k + i)) 8) as Hc.
  rewrite (wrapU_small 32 (acc + hi)), wrapU_small by (unfold isU; lia).
  rewrite IH by lia. replace (8 * S n)%nat with (8 + 8 * n)%nat by lia.
  rewrite cnt_app, <- Hs. f_equal. f_equal; [|lia]. rewrite <- !Z.add_assoc. do 3 f_equal.
  apply cnt_ext. intros i Hi. f_equal. lia.
Qed.

Lemma RtlNumberOfSetBits_cnt bm :
  bm_ok bm ->
  RtlNumberOfSetBits (Some bm) = Ret (cnt (bit (BitMapBuffer bm)) (Z.to_nat (SizeOfBitMap bm))).
Proof.
  intros (Hb & Hs & Hl). unfold RtlNumberOfSetBits. rewrite shiftr3, land7.
  set (sz := SizeOfBitMap bm) in *. set (buf := BitMapBuffer bm) in *.
  rewrite count_loop_cnt by (done || dlia). cbn [obind].
  rewrite Z2Nat.id by dlia. rewrite (rd_in 0) by dlia. cbn [obind].
  rewrite maskBits_ones by dlia. cbn [obind].
  destruct (nibble_counts (Z.land (nthZ 0 buf (0 + sz / 8)) (Z.ones (sz mod 8))))
    as (hi & lo & -> & -> & Hsum & Hhi & Hlo); [apply isU_land_l; auto with winex; lia|].
  cbn [obind].
  assert (hi + lo = cnt (fun i => bit buf (8 * (sz / 8) + i)) (Z.to_nat (sz mod 8))) as E.
  { rewrite Hsum, <- (byte_cnt buf (sz / 8)) by dlia.
    rewrite <- (cnt_cut (Z.testbit (nthZ 0 buf (sz / 8))) (Z.to_nat (sz mod 8)) 8) by dlia.
    apply cnt_ext. intros i Hi. rewrite Z.land_spec, ones_testbit by dlia.
    rewrite Z2Nat.id by dlia. done. }
  pose proof (cnt_bound (fun i => bit buf (8 * 0 + i)) (8 * Z.to_nat (sz / 8))).
  pose proof (cnt_bound (fun i => bit buf (8 * (sz / 8) + i)) (Z.to_nat (sz mod 8))).
  rewrite (wrapU_small 32 (_ + hi)), wrapU_small by (unfold isU; dlia).
  replace (Z.to_nat sz) with (8 * Z.to_nat (sz / 8) + Z.to_nat (sz mod 8))%nat by dlia.
  rewrite cnt_app, <- Z.add_assoc, E. do 2 f_equal.
  apply cnt_ext. intros i Hi. f_equal. dlia.
Qed.

(** ** Least and most significant bits *)

Lemma byte_of_U x k : isU 8 (byte_of x k).
Proof. unfold byte_of. rewrite Z.land_comm. by apply isU_land_l. Qed.

Lemma byte_of_testbit x k j :
  0 <= k -> 0 <= j < 8 -> Z.testbit (byte_of x k) j = Z.testbit x (8 * k + j).
Proof.
  intros. unfold byte_of. rewrite Z.land_spec, Z.shiftr_spec, testbit_255 by lia.
  zcases. rewrite andb_true_r. f_equal. lia.
Qed.

(** [r] is the position of the least significant set bit of [x] *)
Definition is_lsb (x r : Z) : Prop :=
  0 <= r /\ Z.testbit x r = true /\ forall j, 0 <= j < r -> Z.testbit x j = false.

Lemma lsb_nibble b : isU 8 b -> b <> 0 -> exists k,
  (if negb (Z.land b 0x0f =? 0) then rd NTDLL_leastSignificant (Z.land b 0x0f)
   else let! k := rd NTDLL_leastSignificant (Z.shiftr b 4) in Ret (4 + k)) = Ret k /\
  0 <= k < 8 /\ is_lsb b k.
Proof.
  intros Hb Hb0. unfold isU in Hb.
  pose proof (all_below_spec 256 (fun b => (b =? 0) ||
    match (if negb (Z.land b 0x0f =? 0) then rd NTDLL_leastSignificant (Z.land b 0x0f)
           else let! k := rd NTDLL_leastSignificant (Z.shiftr b 4) in Ret (4 + k)) with
    | Ret k => (0 <=? k) && (k <? 8) && Z.testbit b k
               && (cnt (Z.testbit b) (Z.to_nat k) =? 0)
    | _ => false
    end) ltac:(vm_compute; done) b Hb) as H; cbv beta in H.
  destruct (Z.eqb_spec b 0); [done|]. cbn [orb] in H.
  destruct (if negb _ then _ else _) as [k| |]; [|done..]. exists k. zhyps.
  split; [done|]. split; [lia|]. split; [lia|]. split; [done|].
  intros j Hj. destruct (Z.testbit b j) eqn:E; [|done]. exfalso.
  enough (0 < cnt (Z.testbit b) (Z.to_nat k)) by lia.
  replace (Z.to_nat k) with (Z.to_nat j + S (Z.to_nat (k - j - 1)))%nat by lia.
  rewrite cnt_app. change (S ?n) with (1 + n)%nat. rewrite cnt_app. cbn [cnt].
  rewrite Z.add_0_r, Z2Nat.id, E by lia.
  pose proof (cnt_bound (Z.testbit b) (Z.to_nat j)).
  match goal with |- context [cnt ?f (Z.to_nat (k - j - 1))] => pose proof (cnt_bound f (Z.to_nat (k - j - 1))) end.
  simpl Z.b2z. lia.
Qed.

Lemma lsb_loop_ok x fuel c :
  isU 64 x -> 0 <= c <= 8 -> (Z.to_nat (8 - c) < fuel)%nat ->
  (forall j, 0 <= j < 8 * c -> Z.testbit x j = false) ->
  (x = 0 -> lsb_loop fuel x c (8 * c) = Ret (-1)) /\
  (x <> 0 -> exists r, lsb_loop fuel x c (8 * c) = Ret r /\ is_lsb x r).
Proof.
  intros Hx. revert c. induction fuel as [|fuel IH]; intros c Hc Hf Hlow; [lia|]. cbn [lsb_loop].
  destruct (Z.ltb_spec (8 * c) 64).
  - destruct (Z.eqb_spec (byte_of x c) 0) as [E|E]; cbn [negb].
    + replace (8 * c + 8) with (8 * (c + 1)) by lia. apply IH; [lia..|].
      intros j Hj. destruct (decide (j < 8 * c)); [apply Hlow; lia|].
      replace j with (8 * c + (j - 8 * c)) by lia.
      rewrite <- byte_of_testbit, E, Z.testbit_0_l by lia. done.
    + split; [intros ->; exfalso; apply E; unfold byte_of; by rewrite Z.shiftr_0_l, Z.land_0_l|].
      intros _. destruct (lsb_nibble _ (byte_of_U x c) E) as (k & Hk & Hk8 & Hlsb).
      exists (8 * c + k). split.
      * destruct (negb _); [rewrite Hk; cbn [obind]; rewrite wrapS_small; done || (unfold isS; lia)|].
        destruct (rd _ _) as [k'| |]; simplify_eq/=. f_equal. rewrite wrapS_small; [lia|done|unfold isS; lia].
      * destruct Hlsb as (_ & Ht & Hl). rewrite byte_of_testbit in Ht by lia.
        split_and!; [lia|done|]. intros j Hj. destruct (decide (j < 8 * c)); [apply Hlow; lia|].
        replace j with (8 * c + (j - 8 * c)) by lia. rewrite <- byte_of_testbit by lia. apply Hl. lia.
  - assert (x = 0) as ->.
    { apply Z.bits_inj'. intros j Hj. rewrite Z.testbit_0_l. destruct (decide (j < 64)).
      - apply Hlow. lia.
      - by apply (testbit_isU_high 64); [|done|lia]. }
    by split.
Qed.

(** what the code makes of the top non-zero byte: the high nibble counts only
    when the low nibble is zero *)
Definition msb_of_byte (b : Z) : Z :=
  if negb (Z.land b 0x0f =? 0) then Z.log2 (Z.land b 0x0f) else Z.log2 b.

Lemma msb_nibble b : isU 8 b -> b <> 0 -> exists k,
  (if negb (Z.land b 0x0f =? 0) then rd NTDLL_mostSignificant (Z.land b 0x0f)
   else let! k := rd NTDLL_mostSignificant (Z.shiftr b 4) in Ret (4 + k)) = Ret k /\
  0 <= k < 8 /\ k = msb_of_byte b.
Proof.
  intros Hb Hb0. unfold isU in Hb.
  pose proof (all_below_spec 256 (fun b => (b =? 0) ||
    match (if negb (Z.land b 0x0f =? 0) then rd NTDLL_mostSignificant (Z.land b 0x0f)
           else let! k := rd NTDLL_mostSignificant (Z.shiftr b 4) in Ret (4 + k)) with
    | Ret k => (0 <=? k) && (k <? 8) && (k =? msb_of_byte b)
    | _ => false
    end) ltac:(vm_compute; done) b Hb) as H; cbv beta in H.
  destruct (Z.eqb_spec b 0); [done|]. cbn [orb] in H.
  destruct (if negb _ then _ else _) as [k| |]; [|done..]. exists k. zhyps. done.
Qed.

Lemma byte_of_zero k : byte_of 0 k = 0.
Proof. unfold byte_of. by rewrite Z.shiftr_0_l, Z.land_0_l. Qed.

Lemma msb_loop_ok x fuel c :
  0 <= c <= 8 -> (Z.to_nat c < fuel)%nat ->
  (forall j, 8 * c <= j -> Z.testbit x j = false) ->
  (x = 0 -> msb_loop fuel x (c - 1) (8 * c) = Ret (-1)) /\
  (x <> 0 -> exists k, 0 <= k < c /\ byte_of x k <> 0 /\
     (forall j, 8 * (k + 1) <= j -> Z.testbit x j = false) /\
     msb_loop fuel x (c - 1) (8 * c) = Ret (8 * k + msb_of_byte (byte_of x k))).
Proof.
  revert c. induction fuel as [|fuel IH]; intros c Hc Hf Hhigh; [lia|]. cbn [msb_loop].
  destruct (Z.ltb_spec 0 (8 * c)).
  - destruct (Z.eqb_spec (byte_of x (c - 1)) 0) as [E|E]; cbn [negb].
    + replace (8 * c - 8) with (8 * (c - 1)) by lia.
      destruct (IH (c - 1)) as [IH0 IH1]; [lia..| |].
      { intros j Hj. destruct (decide (8 * c <= j)); [by apply Hhigh|].
        replace j with (8 * (c - 1) + (j - 8 * (c - 1))) by lia.
        rewrite <- byte_of_testbit, E, Z.testbit_0_l by lia. done. }
      split; [done|]. intros Hx. destruct (IH1 Hx) as (k & Hk & ?). exists k. split; [lia|done].
    + split; [intros ->; by rewrite byte_of_zero in E|]. intros _. exists (c - 1).
      destruct (msb_nibble _ (byte_of_U x (c - 1)) E) as (k & Hk & Hk8 & <-).
      split_and!; [lia|lia|done|intros j Hj; apply Hhigh; lia|].
      destruct (negb _).
      * rewrite Hk. cbn [obind]. rewrite wrapS_small; [f_equal; lia|done|unfold isS; lia].
      * destruct (rd _ _) as [k'| |]; simplify_eq/=. f_equal. rewrite wrapS_small; [lia|done|unfold isS; lia].
  - replace c with 0 in * by lia.
    assert (x = 0) as -> by (apply Z.bits_inj'; intros j Hj; rewrite Z.testbit_0_l; apply Hhigh; lia).
    by split.
Qed.

(** the top byte carries the logarithm *)
Lemma top_byte_log2 x k :
  0 < x -> 0 <= k -> byte_of x k <> 0 -> (forall j, 8 * (k + 1) <= j -> Z.testbit x j = false) ->
  k = Z.log2 x / 8 /\ Z.log2 x = 8 * k + Z.log2 (byte_of x k).
Proof.
  intros Hx Hk Hb Hhigh.
  assert (byte_of x k = Z.shiftr x (8 * k)) as E.
  { apply Z.bits_inj'. intros j Hj. destruct (decide (j < 8)).
    - rewrite byte_of_testbit, Z.shiftr_spec by lia. f_equal. lia.
    - rewrite (testbit_isU_high 8), Z.shiftr_spec by (apply byte_of_U || lia).
      symmetry. apply Hhigh. lia. }
  pose proof (byte_of_U x k) as Hu. unfold isU in Hu.
  assert (0 < Z.shiftr x (8 * k)) as Hpos by (rewrite <- E; lia).
  assert (0 <= Z.log2 (byte_of x k) < 8) as Hlog.
  { split; [apply Z.log2_nonneg|]. apply Z.log2_lt_pow2; lia. }
  assert (8 * k <= Z.log2 x) as Hle.
  { destruct (decide (8 * k <= Z.log2 x)); [done|]. exfalso.
    rewrite Z.shiftr_eq_0 in Hpos by lia. lia. }
  rewrite E in Hlog |- *. rewrite Z.log2_shiftr in Hlog |- * by lia. split; dlia.
Qed.

Lemma RtlFindMostSignificantBit_value x :
  isU 64 x -> x <> 0 ->
  RtlFindMostSignificantBit x =
    Ret (8 * (Z.log2 x / 8) + msb_of_byte (byte_of x (Z.log2 x / 8))).
Proof.
  intros Hx Hx0. unfold RtlFindMostSignificantBit.
  assert (exists c, 0 <= c <= 8 /\ (forall j, 8 * c <= j -> Z.testbit x j = false) /\
    (if Z.land x 0xffffffff00000000 =? 0 then msb_loop 9 x (7 - 4) (64 - 32) else msb_loop 9 x 7 64)
    = msb_loop 9 x (c - 1) (8 * c)) as (c & Hc & Hhigh & ->).
  { destruct (Z.eqb_spec (Z.land x 0xffffffff00000000) 0) as [E|E].
    - exists 4. split_and!; [lia..| |done]. intros j Hj. destruct (decide (j < 64)).
      + apply (proj1 (land_eq_0 x 0xffffffff00000000) E j); [lia|].
        change 0xffffffff00000000 with (Z.shiftl (Z.ones 32) 32).
        rewrite Z.shiftl_spec, ones_testbit by lia. zcases.
      + by apply (testbit_isU_high 64); [|done|lia].
    - exists 8. split_and!; [lia..| |done]. intros j Hj.
      by apply (testbit_isU_high 64); [|done|lia]. }
  destruct (msb_loop_ok x 9 c) as [_ H]; [lia..|done|].
  destruct (H Hx0) as (k & Hk & Hb & Hh & ->). unfold isU in Hx.
  destruct (top_byte_log2 x k) as [<- _]; done || lia.
Qed.

(** ** Runs *)

(** [[p, p + n)] is the first maximal run of [v] bits at or after [start] *)
Definition first_run (v : bool) (bm : RTL_BITMAP) (start p n : Z) : Prop :=
  start <= p /\ 0 < n /\ p + n <= SizeOfBitMap bm /\
  range_is (negb v) (BitMapBuffer bm) start (p - start) /\
  range_is v (BitMapBuffer bm) p n /\
  (p + n < SizeOfBitMap bm -> bit (BitMapBuffer bm) (p + n) = negb v).

(** the bits of the buffer after the bitmap have the value [v] *)
Definition padding (v : bool) (bm : RTL_BITMAP) : Prop :=
  forall i, SizeOfBitMap bm <= i < 8 * zlen (BitMapBuffer bm) -> bit (BitMapBuffer bm) i = v.

Lemma one_bit_testbit o j : 0 <= o -> 0 <= j -> Z.testbit (Z.shiftl 1 o) j = (j =? o).
Proof.
  intros Ho Hj. rewrite Z.shiftl_1_l. destruct (Z.eqb_spec j o) as [->|].
  - by apply Z.pow2_bits_true.
  - apply Z.pow2_bits_false. lia.
Qed.

Lemma bit_test b o : 0 <= o -> (Z.land b (Z.shiftl 1 o) =? 0) = negb (Z.testbit b o).
Proof.
  intros Ho. destruct (Z.eqb_spec (Z.land b (Z.shiftl 1 o)) 0) as [E|E].
  - rewrite land_eq_0 in E. rewrite E; [done|done|].
    rewrite one_bit_testbit by lia. apply Z.eqb_refl.
  - destruct (Z.testbit b o) eqn:Eb; [done|]. exfalso. apply E, land_eq_0. intros j Hj.
    rewrite one_bit_testbit by lia. intros ->%Z.eqb_eq. done.
Qed.

(** a run of ones of byte [b] from bit [o]: ends at bit [o + m] *)
Definition byte_run (b o m : Z) : Prop :=
  0 <= m /\ (forall j, o <= j < o + m -> Z.testbit b j = true).

Lemma byte_run_step b o m : Z.testbit b o = true -> byte_run b (o + 1) m -> byte_run b o (m + 1).
Proof.
  intros Hb [Hm H]. split; [lia|]. intros j Hj. destruct (decide (j = o)) as [->|]; [done|].
  apply H. lia.
Qed.

Lemma in_byte_run_ok b n o c st :
  0 <= o -> 0 <= c -> 0 <= st -> o + Z.of_nat n = 8 ->
  c + Z.of_nat n < 2 ^ 32 -> st + Z.of_nat n < 2 ^ 32 ->
  (exists m, in_byte_run n b o c st = inl (c + m) /\ byte_run b o m /\ o + m < 8 /\
             Z.testbit b (o + m) = false)
  \/ (in_byte_run n b o c st = inr (c + Z.of_nat n, st + Z.of_nat n) /\ byte_run b o (Z.of_nat n)).
Proof.
  revert o c st. induction n as [|n IH]; intros o c st Ho Hc Hst Hn Hb1 Hb2.
  { right. simpl. rewrite !Z.add_0_r. split; [done|]. split; [lia|]. intros; lia. }
  cbn [in_byte_run]. rewrite bit_test by done.
  destruct (Z.testbit b o) eqn:E; cbn [negb].
  - rewrite !wrapU_small by (unfold isU; lia).
    destruct (IH (o + 1) (c + 1) (st + 1)) as [(m & -> & Hr & Hm & Ht)|[-> Hr]]; [lia..| |].
    + left. exists (m + 1). rewrite <- Z.add_assoc, (Z.add_comm 1 m). split_and!;
        [done|by apply byte_run_step|lia|]. by replace (o + (m + 1)) with (o + 1 + m) by lia.
    + right. rewrite Nat2Z.inj_succ, <- !Z.add_1_l, !Z.add_assoc. split; [done|].
      rewrite Z.add_comm. by apply byte_run_step.
  - left. exists 0. rewrite !Z.add_0_r. split_and!; [done|split; [lia|intros; lia]|lia|done].
Qed.

Lemma last_byte_run_ok b n o c :
  0 <= o -> 0 <= c -> o + Z.of_nat n = 7 -> c + Z.of_nat n < 2 ^ 32 ->
  (exists j, o <= j < 8 /\ Z.testbit b j = false) ->
  exists m, last_byte_run n (fun o => Z.land b (Z.shiftl 1 o) =? 0) o c = c + m /\
    byte_run b o m /\ o + m < 8 /\ Z.testbit b (o + m) = false.
Proof.
  revert o c. induction n as [|n IH]; intros o c Ho Hc Hn Hb (j & Hj & Hbj).
  { exists 0. simpl. rewrite !Z.add_0_r. split_and!; [done|split; [lia|intros; lia]|lia|].
    by replace o with j by lia. }
  cbn [last_byte_run]. rewrite bit_test by done.
  destruct (Z.testbit b o) eqn:E; cbn [negb].
  - rewrite wrapU_small by (unfold isU; lia).
    destruct (IH (o + 1) (c + 1)) as (m & -> & Hr & Hm & Ht); [lia..| |].
    { exists j. split; [|done]. destruct (decide (j = o)) as [->|]; [congruence|lia]. }
    exists (m + 1). split_and!; [lia|by apply byte_run_step|lia|].
    by replace (o + (m + 1)) with (o + 1 + m) by lia.
  - exists 0. rewrite !Z.add_0_r. split_and!; [done|split; [lia|intros; lia]|lia|done].
Qed.

Lemma byte_has_zero b : isU 8 b -> b <> 255 -> exists j, 0 <= j < 8 /\ Z.testbit b j = false.
Proof.
  intros Hb Hne. destruct (decide (Forall (fun j => Z.testbit b j = true) (seqZ 0 8))) as [H|H].
  - exfalso. apply Hne, (byte_full true b Hb). intros j Hj. rewrite Forall_forall in H.
    apply H, list_elem_of_In, elem_of_seqZ. lia.
  - apply not_Forall_Exists in H; [|intros; apply _]. apply Exists_exists in H as (j & Hj%list_elem_of_In & Hf).
    apply elem_of_seqZ in Hj. exists j. split; [lia|]. by apply not_true_is_false.
Qed.

Lemma bit_in_byte buf k j : 0 <= k -> 0 <= j < 8 -> bit buf (8 * k + j) = Z.testbit (nthZ 0 buf k) j.
Proof.
  intros. unfold bit. replace ((8 * k + j) / 8) with k by dlia.
  by replace ((8 * k + j) mod 8) with j by dlia.
Qed.

Lemma byte_run_range buf k o m :
  0 <= k -> 0 <= o -> o + m <= 8 -> byte_run (nthZ 0 buf k) o m -> range_is true buf (8 * k + o) m.
Proof.
  intros Hk Ho Hm [_ H] i Hi. replace i with (8 * k + (i - 8 * k)) by lia.
  rewrite bit_in_byte by lia. apply H. lia.
Qed.

Lemma bit_out buf i : 8 * zlen buf <= i -> bit buf i = false.
Proof.
  intros H. unfold bit. rewrite nthZ_out by dlia. apply Z.testbit_0_l.
Qed.

Lemma range_full_byte buf k : bytes buf -> 0 <= k -> nthZ 0 buf k = 255 -> range_is true buf (8 * k) 8.
Proof. intros. by apply (range_byte true). Qed.

Lemma FindSetRun_more_ok bm fuel k found :
  bm_ok bm -> padding false bm -> 0 <= found < 8 * k -> 8 * k <= SizeOfBitMap bm ->
  (Z.to_nat (zlen (BitMapBuffer bm) - k) < fuel)%nat ->
  range_is true (BitMapBuffer bm) found (8 * k - found) ->
  exists n, FindSetRun_more fuel bm k (8 * k) found (8 * k - found) = Ret (found, Some n) /\
    0 < n /\ found + n <= SizeOfBitMap bm /\ range_is true (BitMapBuffer bm) found n /\
    (found + n < SizeOfBitMap bm -> bit (BitMapBuffer bm) (found + n) = false).
Proof.
  intros (Hb & Hs & Hl) Hpad. unfold padding in Hpad. set (buf := BitMapBuffer bm) in *. set (sz := SizeOfBitMap bm) in *.
  revert k. induction fuel as [|fuel IH]; intros k Hf Hk Hfuel Hr; [lia|]. cbn [FindSetRun_more].
  fold buf. fold sz. rewrite (rd_in 0) by dlia. cbn [obind].
  destruct (Z.eqb_spec (nthZ 0 buf k) 255) as [E|E].
  - apply range_full_byte in E; [|done|lia].
    assert (8 * k + 8 <= sz) as Hfit.
    { destruct (decide (8 * k + 8 <= sz)); [done|]. exfalso.
      specialize (E (8 * k + 7) ltac:(lia)). rewrite Hpad in E by dlia. done. }
    rewrite !(wrapU_small 32 (_ + 8)) by (unfold isU; lia).
    assert (range_is true buf found (8 * (k + 1) - found)) as Hr'.
    { replace (8 * (k + 1) - found) with (8 * k - found + 8) by lia. apply range_app; [lia..|].
      split; [done|]. by replace (found + (8 * k - found)) with (8 * k) by lia. }
    destruct (Z.leb_spec sz (8 * k + 8)).
    + exists (8 * (k + 1) - found). rewrite wrapU_small by (unfold isU; lia).
      split; [do 3 f_equal; lia|]. split_and!; [lia..|done|lia].
    + replace (8 * k + 8) with (8 * (k + 1)) by lia.
      replace (8 * k - found + 8) with (8 * (k + 1) - found) by lia.
      apply IH; [lia|lia|dlia|done].
  - destruct (byte_has_zero (nthZ 0 buf k)) as (j & Hj & Hz); [by apply bytes_nthZ|done|].
    assert (exists m, (if negb (Z.land (nthZ 0 buf k) 1 =? 0)
        then last_byte_run 7 (fun o => Z.land (nthZ 0 buf k) (Z.shiftl 1 o) =? 0) 0 (8 * k - found)
        else 8 * k - found) = 8 * k - found + m /\
        byte_run (nthZ 0 buf k) 0 m /\ 0 + m < 8 /\ Z.testbit (nthZ 0 buf k) (0 + m) = false)
      as (m & -> & Hrun & Hm & Ht).
    { pose proof (bit_test (nthZ 0 buf k) 0 ltac:(lia)) as Hb0.
      change (Z.shiftl 1 0) with 1 in Hb0. rewrite Hb0, negb_involutive.
      destruct (Z.testbit (nthZ 0 buf k) 0) eqn:E0.
      - apply last_byte_run_ok; [lia..|]. eauto.
      - exists 0. rewrite Z.add_0_r. split_and!; [done|split; [lia|intros; lia]|lia|done]. }
    rewrite Z.add_0_l in *. pose proof (proj1 Hrun) as Hm0.
    apply (byte_run_range buf k 0 m) in Hrun; [|lia..]. rewrite Z.add_0_r in Hrun.
    rewrite <- bit_in_byte in Ht by lia.
    exists (8 * k - found + m). split; [done|].
    replace (found + (8 * k - found + m)) with (8 * k + m) by lia.
    split_and!; [lia| |apply range_app; [lia..|]; split; [done|];
      by replace (found + (8 * k - found)) with (8 * k) by lia|done].
    destruct (decide (m = 0)); [lia|]. destruct (decide (8 * k + m <= sz)); [done|]. exfalso.
    specialize (Hrun (8 * k + m - 1) ltac:(lia)). rewrite Hpad in Hrun by dlia. done.
Qed.

Lemma round_down8 x : isU 32 x -> Z.land x 0xfffffff8 = 8 * (x / 8).
Proof.
  intros Hx. rewrite <- shiftr3, Z.mul_comm. change 8 with (2 ^ 3). rewrite <- Z.shiftl_mul_pow2 by lia.
  apply Z.bits_inj'. intros j Hj. rewrite Z.land_spec, Z.shiftl_spec by lia.
  change 0xfffffff8 with (Z.shiftl (Z.ones 29) 3). rewrite Z.shiftl_spec by lia.
  destruct (decide (j < 3)).
  - rewrite !(Z.testbit_neg_r _ (j - 3)) by lia. apply andb_false_r.
  - rewrite ones_testbit, Z.shiftr_spec by lia. replace (j - 3 + 3) with j by lia. zcases.
    + apply andb_true_r.
    + by rewrite (testbit_isU_high 32 x) by (done || lia).
Qed.

Lemma range_ext_l v buf a n m :
  range_is v buf a n -> range_is v buf (a + n) m -> 0 <= n -> 0 <= m -> range_is v buf a (n + m).
Proof. intros. by apply range_app. Qed.

Lemma first_bit_lsb b : isU 8 b -> b <> 0 ->
  exists k, first_bit b = Ret k /\ 0 <= k < 8 /\ is_lsb b k.
Proof. apply lsb_nibble. Qed.

(** what the first loop leaves, from an aligned position with only clear bits
    before it: no set bit, a run inside a byte, or a run open at its end *)
Lemma FindSetRun_first_ok bm start fuel k :
  bm_ok bm -> padding false bm -> 0 <= start <= 8 * k -> 8 * k < SizeOfBitMap bm ->
  (Z.to_nat (zlen (BitMapBuffer bm) - k) < fuel)%nat ->
  range_is false (BitMapBuffer bm) start (8 * k - start) ->
  (FindSetRun_first fuel bm (8 * k) k = Ret (inl (NOT_FOUND, None)) /\
     range_is false (BitMapBuffer bm) start (SizeOfBitMap bm - start))
  \/ (exists p n, FindSetRun_first fuel bm (8 * k) k = Ret (inl (p, Some n)) /\
        first_run true bm start p n)
  \/ (exists p k', FindSetRun_first fuel bm (8 * k) k =
          Ret (inr (mkRunState k' (8 * k') p (8 * k' - p))) /\
        start <= p < 8 * k' /\ 8 * k' <= SizeOfBitMap bm /\
        range_is false (BitMapBuffer bm) start (p - start) /\
        range_is true (BitMapBuffer bm) p (8 * k' - p)).
Proof.
  intros (Hb & Hs & Hl) Hpad. unfold padding, first_run in *. cbn [negb].
  set (buf := BitMapBuffer bm) in *. set (sz := SizeOfBitMap bm) in *.
  revert k. induction fuel as [|fuel IH]; intros k Hst Hk Hfuel Hr; [lia|].
  cbn [FindSetRun_first]. fold buf. fold sz.
  rewrite land7. replace ((8 * k) mod 8) with 0 by dlia. change (Z.land (Z.shiftl 255 0) 255) with 255.
  rewrite (rd_in 0) by dlia. cbn [obind].
  assert (Z.land (nthZ 0 buf k) 255 = nthZ 0 buf k) as ->.
  { change 255 with (2 ^ 8 - 1). rewrite land_pow2_mask by lia. apply Z.mod_small.
    apply (bytes_nthZ buf k Hb). }
  rewrite round_down8 by (unfold isU; dlia). replace (8 * (8 * k / 8)) with (8 * k) by dlia.
  rewrite (wrapU_small 32 (8 * k + 8)) by (unfold isU; lia).
  destruct (Z.eqb_spec (nthZ 0 buf k) 0) as [E|E]; cbn [negb].
  { apply (range_byte false) in E; [|done|lia].
    assert (range_is false buf start (8 * (k + 1) - start)) as Hr'.
    { replace (8 * (k + 1) - start) with (8 * k - start + 8) by lia. apply range_ext_l; [done| |lia..].
      by replace (start + (8 * k - start)) with (8 * k) by lia. }
    destruct (Z.leb_spec sz (8 * k + 8)).
    - left. split; [done|]. intros i Hi. apply Hr'. lia.
    - replace (8 * k + 8) with (8 * (k + 1)) by lia. apply IH; [lia|lia|dlia|done]. }
  destruct (Z.eqb_spec (nthZ 0 buf k) 255) as [E1|E1]; cbn [negb].
  { right; right. apply range_full_byte in E1; [|done|lia].
    exists (8 * k), (k + 1). split; [do 3 f_equal; lia|]. split_and!; [lia..| |done|].
    - destruct (decide (8 * (k + 1) <= sz)); [done|]. exfalso.
      specialize (E1 (8 * k + 7) ltac:(lia)). rewrite Hpad in E1 by dlia. done.
    - by replace (8 * (k + 1) - 8 * k) with 8 by lia. }
  destruct (first_bit_lsb (nthZ 0 buf k)) as (o & -> & Ho & _ & Hbo & Hlow);
    [by apply bytes_nthZ|done|]. cbn [obind].
  rewrite (wrapU_small 32 (8 * k + o)) by (unfold isU; lia).
  assert (range_is false buf start (8 * k + o - start)) as Hr0.
  { replace (8 * k + o - start) with (8 * k - start + o) by lia. apply range_ext_l; [done| |lia..].
    replace (start + (8 * k - start)) with (8 * k) by lia. intros i Hi.
    replace i with (8 * k + (i - 8 * k)) by lia. rewrite bit_in_byte by lia. apply Hlow. lia. }
  right. destruct (in_byte_run_ok (nthZ 0 buf k) (Z.to_nat (8 - o)) o 0 (8 * k + o))
    as [(m & -> & Hrun & Hm & Ht)|[-> Hrun]]; [lia..| |].
  - left. exists (8 * k + o), (0 + m). split; [done|]. rewrite Z.add_0_l.
    pose proof (proj1 Hrun) as Hm0.
    assert (0 < m) as Hmp.
    { destruct (decide (m = 0)) as [->|]; [|lia]. rewrite Z.add_0_r in Ht. congruence. }
    apply (byte_run_range buf k o m) in Hrun; [|lia..].
    rewrite <- bit_in_byte in Ht by lia.
    split_and!; [lia|lia| |done|done|intros; by rewrite <- Z.add_assoc].
    destruct (decide (8 * k + o + m <= sz)); [done|]. exfalso.
    specialize (Hrun (8 * k + o + m - 1) ltac:(lia)). rewrite Hpad in Hrun by dlia. done.
  - right. exists (8 * k + o), (k + 1). rewrite Z2Nat.id in * by lia.
    apply (byte_run_range buf k o (8 - o)) in Hrun; [|lia..].
    split; [do 3 f_equal; lia|]. split_and!; [lia..| |done|].
    + destruct (decide (8 * (k + 1) <= sz)); [done|]. exfalso.
      specialize (Hrun (8 * k + 7) ltac:(lia)). rewrite Hpad in Hrun by dlia. done.
    + by replace (8 * (k + 1) - (8 * k + o)) with (8 - o) by lia.
Qed.

Lemma FindSetRun_aligned bm k :
  bm_ok bm -> padding false bm -> 0 <= k -> 8 * k < SizeOfBitMap bm ->
  (exists p n, NTDLL_FindSetRun bm (8 * k) = Ret (p, Some n) /\ first_run true bm (8 * k) p n)
  \/ (NTDLL_FindSetRun bm (8 * k) = Ret (NOT_FOUND, None) /\
      range_is false (BitMapBuffer bm) (8 * k) (SizeOfBitMap bm - 8 * k)).
Proof.
  intros Hok Hpad Hk Hs. unfold NTDLL_FindSetRun. rewrite shiftr3.
  replace (8 * k / 8) with k by dlia.
  destruct (FindSetRun_first_ok bm (8 * k) (run_fuel bm) k)
    as [[-> H]|[(p & n & -> & H)|(p & k' & -> & Hp & Hk' & Hl & Hr)]];
    [done|done|lia|done|unfold run_fuel, zlen; lia|by rewrite Z.sub_diag; apply range_nil| | |].
  - by right.
  - left. by exists p, n.
  - left. cbn [obind rs_lpOut rs_ulStart rs_ulFoundAt rs_ulCount].
    destruct (FindSetRun_more_ok bm (run_fuel bm) k' p) as (n & -> & Hn & Hfit & Hrun & Hend);
      [done|done|lia|done|unfold run_fuel, zlen; lia|done|].
    exists p, n. split; [done|]. by split_and!; [lia..| | | |].
Qed.

(** ** Set and clear runs are dual *)

Definition flip (b : Z) : Z := 255 - b.
Definition complement (bm : RTL_BITMAP) : RTL_BITMAP :=
  mkBitmap (SizeOfBitMap bm) (map flip (BitMapBuffer bm)).

Lemma flip_U b : isU 8 b -> isU 8 (flip b).
Proof. unfold isU, flip. lia. Qed.

Lemma flip_testbit b j : isU 8 b -> 0 <= j < 8 -> Z.testbit (flip b) j = negb (Z.testbit b j).
Proof.
  intros Hb Hj. unfold isU in Hb.
  pose proof (all_below_spec 256 (fun b => all_below 8 (fun j =>
    Bool.eqb (Z.testbit (flip b) j) (negb (Z.testbit b j)))) ltac:(vm_compute; done) b Hb) as H.
  apply (all_below_spec 8 _ H) in Hj. by apply Bool.eqb_prop in Hj.
Qed.

Lemma rd_map {A B} (f : A -> B) l i : rd (map f l) i = (let! x := rd l i in Ret (f x)).
Proof.
  unfold rd. destruct (i <? 0); [done|]. change (map f l) with (f <$> l).
  rewrite list_lookup_fmap. by destruct (l !! Z.to_nat i).
Qed.

Lemma rd_byte buf i b : bytes buf -> rd buf i = Ret b -> isU 8 b.
Proof. intros Hb H. apply (rd_Ret_inv 0) in H as [_ <-]. by apply bytes_nthZ. Qed.

Lemma flip_land b m : isU 8 b -> isU 8 m -> Z.land (Z.lnot b) m = Z.land (flip b) m.
Proof.
  intros Hb Hm. apply Z.bits_inj'. intros j Hj. rewrite !Z.land_spec, Z.lnot_spec by lia.
  destruct (decide (j < 8)); [by rewrite flip_testbit by (done || lia)|].
  rewrite (testbit_isU_high 8 m) by (done || lia). by rewrite !andb_false_r.
Qed.

Lemma last_byte_run_ext n f g o c :
  (forall k, o <= k < o + Z.of_nat n -> f k = g k) -> last_byte_run n f o c = last_byte_run n g o c.
Proof.
  revert o c. induction n as [|n IH]; intros o c H; [done|]. cbn [last_byte_run].
  rewrite H by lia. destruct (g o); [done|]. apply IH. intros k Hk. apply H. lia.
Qed.

Lemma FindClearRun_first_dual fuel bm start k :
  bytes (BitMapBuffer bm) ->
  FindClearRun_first fuel bm start k = FindSetRun_first fuel (complement bm) start k.
Proof.
  intros Hb. revert start k. induction fuel as [|fuel IH]; intros start k; [done|].
  cbn [FindClearRun_first FindSetRun_first complement BitMapBuffer SizeOfBitMap]. rewrite rd_map.
  destruct (rd (BitMapBuffer bm) k) as [b| |] eqn:E; cbn [obind]; [|done..].
  apply rd_byte in E; [|done]. rewrite flip_land; [|done|].
  - by rewrite IH.
  - rewrite Z.land_comm. by apply isU_land_l.
Qed.

Lemma FindClearRun_more_dual fuel bm k start found c :
  bytes (BitMapBuffer bm) ->
  FindClearRun_more fuel bm k start found c = FindSetRun_more fuel (complement bm) k start found c.
Proof.
  intros Hb. revert start k c. induction fuel as [|fuel IH]; intros start k c; [done|].
  cbn [FindClearRun_more FindSetRun_more complement BitMapBuffer SizeOfBitMap]. rewrite rd_map.
  destruct (rd (BitMapBuffer bm) k) as [b| |] eqn:E; cbn [obind]; [|done..].
  apply rd_byte in E; [|done]. replace (flip b =? 255) with (b =? 0) by (unfold flip; zcases).
  rewrite IH. destruct (b =? 0); [done|].
  pose proof (bit_test b 0 ltac:(lia)) as H1. pose proof (bit_test (flip b) 0 ltac:(lia)) as H2.
  change (Z.shiftl 1 0) with 1 in H1, H2. rewrite H1, H2, flip_testbit by (done || lia).
  rewrite negb_involutive. destruct (Z.testbit b 0); [done|]. cbn [negb].
  do 3 f_equal. apply last_byte_run_ext. intros o Ho.
  rewrite !bit_test, flip_testbit by (done || lia). done.
Qed.

Lemma FindClearRun_dual bm start :
  bytes (BitMapBuffer bm) -> NTDLL_FindClearRun bm start = NTDLL_FindSetRun (complement bm) start.
Proof.
  intros Hb. unfold NTDLL_FindClearRun, NTDLL_FindSetRun.
  replace (run_fuel (complement bm)) with (run_fuel bm)
    by (unfold run_fuel; simpl; by rewrite length_map).
  rewrite FindClearRun_first_dual by done.
  destruct (FindSetRun_first _ _ _ _) as [[?|?]| |]; [done| |done..].
  by apply FindClearRun_more_dual.
Qed.

(** ** Properties *)

(** on a valid range of a bitmap with a spare byte, RtlSetBits returns,
    keeps the size and the buffer length, sets every bit of the range and
    changes no other bit. *)
Theorem RtlSetBits_spec bm start count :
  bm_ok bm -> 0 <= start -> 0 < count -> start + count <= SizeOfBitMap bm ->
  exists bm', RtlSetBits (Some bm) start count = Ret (Some bm') /\ bm_ok bm' /\
    SizeOfBitMap bm' = SizeOfBitMap bm /\
    forall i, 0 <= i ->
      bit (BitMapBuffer bm') i = bit (BitMapBuffer bm) i || inrange start count i.
Proof.
  intros Hok H1 H2 H3. destruct (RtlSetBits_holds bm start count) as (bm' & -> & Hb); [by apply bm_ok_fits|done..|by apply last_access_spare|].
  exists bm'. split; [done|]. split; [by eapply becomes_ok|].
  destruct Hb as (Hs & _ & _ & Hf). by split.
Qed.

(** RtlClearBits clears exactly the bits of a valid range. *)
Theorem RtlClearBits_spec bm start count :
  bm_ok bm -> 0 <= start -> 0 < count -> start + count <= SizeOfBitMap bm ->
  exists bm', RtlClearBits (Some bm) start count = Ret (Some bm') /\ bm_ok bm' /\
    SizeOfBitMap bm' = SizeOfBitMap bm /\
    forall i, 0 <= i ->
      bit (BitMapBuffer bm') i = bit (BitMapBuffer bm) i && negb (inrange start count i).
Proof.
  intros Hok H1 H2 H3. destruct (RtlClearBits_holds bm start count) as (bm' & -> & Hb); [done..|].
  exists bm'. split; [done|]. split; [by eapply becomes_ok|].
  destruct Hb as (Hs & _ & _ & Hf). by split.
Qed.

(** RtlAreBitsSet and RtlAreBitsClear return TRUE exactly when every bit
    of a valid range is set, respectively clear; they need no byte of the
    buffer past the bitmap. *)
Theorem RtlAreBits_spec bm start count :
  bytes (BitMapBuffer bm) -> SizeOfBitMap bm <= 8 * zlen (BitMapBuffer bm) ->
  SizeOfBitMap bm < 2 ^ 32 ->
  0 <= start -> 0 < count -> start + count <= SizeOfBitMap bm ->
  tests (RtlAreBitsSet (Some bm) start count) (range_is true (BitMapBuffer bm) start count) /\
  tests (RtlAreBitsClear (Some bm) start count) (range_is false (BitMapBuffer bm) start count).
Proof. split; [by apply (AreBits_tests true)|by apply (AreBits_tests false)]. Qed.

(** the hint the searches use: 0 when no block fits after it *)
Definition norm_hint (bm : RTL_BITMAP) (n hint : Z) : Z :=
  if SizeOfBitMap bm <? hint + n then 0 else hint.

Lemma FindBits_norm v bm n hint :
  bm_fits bm -> 0 < n <= SizeOfBitMap bm -> 0 <= hint -> hint + n < 2 ^ 32 ->
  exists r, FindBits v (Some bm) n hint = Ret r /\ found_block v bm n (norm_hint bm n hint) r.
Proof.
  intros Hok Hn Hh Hw. unfold norm_hint. destruct (Z.ltb_spec (SizeOfBitMap bm) (hint + n)).
  - rewrite FindBits_hint by lia. apply FindBits_found; done || lia.
  - apply FindBits_found; done || lia.
Qed.

(** RtlFindSetBits and RtlFindClearBits terminate; they return the least
    position of a block at or after the hint when there is one there,
    another block of the bitmap otherwise, and -1 exactly when the bitmap has
    no such block. *)
Theorem RtlFindBits_spec bm n hint :
  bm_fits bm -> 0 < n <= SizeOfBitMap bm -> 0 <= hint -> hint + n < 2 ^ 32 ->
  (exists r, RtlFindSetBits (Some bm) n hint = Ret r /\
     found_block true bm n (norm_hint bm n hint) r) /\
  (exists r, RtlFindClearBits (Some bm) n hint = Ret r /\
     found_block false bm n (norm_hint bm n hint) r).
Proof. intros. split; [by apply (FindBits_norm true)|by apply (FindBits_norm false)]. Qed.

Lemma block_not_nf v bm r n : bm_fits bm -> 0 < n -> block v bm r n -> r <> NOT_FOUND.
Proof. intros (_ & Hs & _) Hn (Hr & Hrn & _) ->. unfold NOT_FOUND in *. lia. Qed.

(** C39: RtlFindClearBitsAndSet is an allocator, on any bitmap of less than 2^31
    bits whose buffer has the documented size.  It reports -1 and changes nothing
    when 0 bits or more than the bitmap has are asked for, when the bitmap has no
    block of that many clear bits, and also when the hint and the number wrap
    around in 32 bits, whatever the bitmap holds.  Otherwise it finds a clear
    block, the first one at or after the hint when there is one there; if the last
    byte that RtlSetBits accesses for the block is in the buffer, which is so when
    the buffer has a spare byte, the block is returned and exactly its bits are
    set; if it is the byte after the buffer, the call accesses memory outside. *)
Theorem RtlFindClearBitsAndSet_spec bm n hint :
  bm_fits bm -> 0 <= n < 2 ^ 32 -> 0 <= hint < 2 ^ 32 ->
  let call := RtlFindClearBitsAndSet (Some bm) n hint in
  (n = 0 \/ SizeOfBitMap bm < n \/ 2 ^ 32 <= hint + n -> call = Ret (NOT_FOUND, Some bm)) /\
  (0 < n <= SizeOfBitMap bm -> hint + n < 2 ^ 32 ->
   (call = Ret (NOT_FOUND, Some bm) /\ forall q, ~ block false bm q n) \/
   (exists r, block false bm r n /\ (forall q, norm_hint bm n hint <= q -> block false bm q n -> norm_hint bm n hint <= r <= q) /\
      (bm_ok bm -> last_access r n < zlen (BitMapBuffer bm)) /\
      (last_access r n < zlen (BitMapBuffer bm) ->
         exists bm', call = Ret (r, Some bm') /\ SizeOfBitMap bm' = SizeOfBitMap bm /\
           holds (BitMapBuffer bm') (zlen (BitMapBuffer bm)) (fun i => bit (BitMapBuffer bm) i || inrange r n i)) /\
      (zlen (BitMapBuffer bm) <= last_access r n -> call = Fault))).
Proof.
  intros Hok Hn Hh call. unfold call, RtlFindClearBitsAndSet. change RtlFindClearBits with (FindBits false). split.
  - intros Hc. by rewrite FindBits_none by (done || apply Hok).
  - intros Hn1 Hw. destruct (FindBits_norm false bm n hint) as (r & -> & Hr); [done|done|lia|done|]. cbn [obind]. destruct Hr as [[Hblk Hleast]|[-> Hno]]; [right|left; done].
    pose proof (block_not_nf _ _ _ _ Hok (proj1 Hn1) Hblk) as Hnf. destruct (Z.eqb_spec r NOT_FOUND); [done|]. cbn [negb].
    pose proof Hblk as (Hr0 & Hrn & _). exists r. split; [done|]. split; [done|]. split; [intros Hsp; apply last_access_spare; done || lia|]. split; intros Hlast.
    + destruct (RtlSetBits_holds bm r n) as (bm' & -> & Hb); [done|lia..|]. exists bm'. by split.
    + by rewrite RtlSetBits_faults by (done || lia).
Qed.

(** RtlNumberOfSetBits counts the set bits of the bitmap, and
    RtlNumberOfClearBits the remaining ones. *)
Theorem RtlNumberOfBits_spec bm :
  bm_ok bm ->
  RtlNumberOfSetBits (Some bm) = Ret (cnt (bit (BitMapBuffer bm)) (Z.to_nat (SizeOfBitMap bm))) /\
  RtlNumberOfClearBits (Some bm) =
    Ret (cnt (fun i => negb (bit (BitMapBuffer bm) i)) (Z.to_nat (SizeOfBitMap bm))).
Proof.
  intros Hok. pose proof (RtlNumberOfSetBits_cnt bm Hok) as E. split; [done|].
  unfold RtlNumberOfClearBits. rewrite E. cbn [obind]. f_equal.
  destruct Hok as (_ & Hs & _).
  pose proof (cnt_bound (bit (BitMapBuffer bm)) (Z.to_nat (SizeOfBitMap bm))) as Hb.
  rewrite wrapU_small by (unfold isU; lia).
  replace (SizeOfBitMap bm) with (Z.of_nat (Z.to_nat (SizeOfBitMap bm))) at 1 by lia.
  clear. induction (Z.to_nat (SizeOfBitMap bm)) as [|m IH]; [done|]. cbn [cnt].
  destruct (bit _ _); simpl Z.b2z; lia.
Qed.

(** RtlFindLeastSignificantBit returns the position of the lowest set
    bit of a 64-bit value, and -1 for 0. *)
Theorem RtlFindLeastSignificantBit_spec x :
  isU 64 x ->
  (x = 0 -> RtlFindLeastSignificantBit x = Ret (-1)) /\
  (x <> 0 -> exists r, RtlFindLeastSignificantBit x = Ret r /\ is_lsb x r).
Proof.
  intros Hx. unfold RtlFindLeastSignificantBit.
  destruct (Z.eqb_spec (Z.land x 0xffffffff) 0) as [E|E].
  - apply (lsb_loop_ok x 9 4 Hx); [lia..|]. intros j Hj.
    apply (proj1 (land_eq_0 x 0xffffffff) E j); [lia|].
    change 0xffffffff with (Z.ones 32). rewrite ones_testbit by lia. zcases.
  - apply (lsb_loop_ok x 9 0 Hx); [lia..|]. intros; lia.
Qed.

(** the exact value of RtlFindMostSignificantBit: the position of the
    highest set bit, except when both nibbles of the top non-zero byte are
    non-zero; then it is the highest bit of the low nibble of that byte. *)
Theorem RtlFindMostSignificantBit_exact x :
  isU 64 x -> x <> 0 ->
  RtlFindMostSignificantBit x =
    let k := Z.log2 x / 8 in
    let b := byte_of x k in
    Ret (if negb (Z.land b 0x0f =? 0) && (0x10 <=? b) then 8 * k + Z.log2 (Z.land b 0x0f)
         else Z.log2 x).
Proof.
  intros Hx Hx0. rewrite RtlFindMostSignificantBit_value by done. cbv zeta. f_equal.
  unfold isU in Hx.
  destruct (msb_loop_ok x 9 8) as [_ H]; [lia..| |].
  { intros j Hj. by apply (testbit_isU_high 64); [|done|lia]. }
  destruct (H Hx0) as (k & Hk & Hb & Hh & _).
  destruct (top_byte_log2 x k) as [<- Hlog]; [lia..|done|done|]. unfold msb_of_byte.
  destruct (negb _) eqn:E; cbn [andb]; [|lia]. destruct (Z.leb_spec 16 (byte_of x k)); [done|].
  replace (Z.land (byte_of x k) 15) with (byte_of x k); [lia|].
  change 15 with (2 ^ 4 - 1). rewrite land_pow2_mask by lia. symmetry. apply Z.mod_small.
  pose proof (byte_of_U x k). unfold isU in *. lia.
Qed.

(** from a byte-aligned position, with clear padding after the bitmap,
    RtlFindNextForwardRunSet reports the first maximal run of set bits at or
    after that position, and size 0 when there is none. *)
Theorem RtlFindNextForwardRunSet_aligned bm k :
  bm_ok bm -> padding false bm -> 0 <= k -> 8 * k < SizeOfBitMap bm ->
  (exists p n, RtlFindNextForwardRunSet (Some bm) (8 * k) true = Ret (n, Some p) /\
     first_run true bm (8 * k) p n) \/
  (RtlFindNextForwardRunSet (Some bm) (8 * k) true = Ret (0, Some NOT_FOUND) /\
     range_is false (BitMapBuffer bm) (8 * k) (SizeOfBitMap bm - 8 * k)).
Proof.
  intros Hok Hp Hk Hs. unfold RtlFindNextForwardRunSet.
  destruct (Z.ltb_spec (8 * k) (SizeOfBitMap bm)); [|lia]. cbn [andb].
  destruct (FindSetRun_aligned bm k Hok Hp Hk Hs) as [(p & n & -> & H')|[-> H']]; [left|right; done].
  by exists p, n.
Qed.

(** NTDLL_FindClearRun is NTDLL_FindSetRun on the complemented buffer,
    so the two run finders differ only in the bit value they look for. *)
Theorem NTDLL_FindClearRun_dual bm start :
  bytes (BitMapBuffer bm) -> NTDLL_FindClearRun bm start = NTDLL_FindSetRun (complement bm) start.
Proof. apply FindClearRun_dual. Qed.

(** the run finders are wrong from an unaligned position: started at
    bit 1 of a bitmap whose only set bit is bit 2, RtlFindNextForwardRunSet
    reports a run at bit 3, which is clear; RtlFindSetRuns, which continues
    from the end of the previous run, misplaces the second run of
    a bitmap with bits 1, 4 and 5 set. *)
Theorem FindSetRun_unaligned_wrong qsort :
  RtlFindNextForwardRunSet (Some (mkBitmap 32 [4; 0; 0; 0; 0])) 1 true = Ret (1, Some 3) /\
  bit [4; 0; 0; 0; 0] 3 = false /\ bit [4; 0; 0; 0; 0] 2 = true /\
  RtlFindSetRuns qsort (mkBitmap 32 [0x32; 0; 0; 0; 0]) [mkRun 0 0; mkRun 0 0] 2 false
    = Ret (2, [mkRun 1 1; mkRun 6 2]) /\
  bit [0x32; 0; 0; 0; 0] 4 = true /\ bit [0x32; 0; 0; 0; 0] 6 = false.
Proof. vm_compute. done. Qed.

(** with a buffer of exactly the size of the bitmap, which the structure
    documents as sufficient, RtlSetBits of a range that ends at the end of the
    bitmap accesses the byte after the buffer; with a start and a count whose
    32-bit sum wraps around, the range check passes and the access is far
    outside. *)
Theorem RtlSetBits_outside bm start count :
  SizeOfBitMap bm = 8 * zlen (BitMapBuffer bm) -> 0 < SizeOfBitMap bm < 2 ^ 31 ->
  (start = 0 /\ count = SizeOfBitMap bm) \/ (start = 0xffffffff /\ count = 1) ->
  RtlSetBits (Some bm) start count = Fault.
Proof.
  intros Hsz Hs H. unfold RtlSetBits. destruct H as [[-> ->]|[-> ->]].
  - rewrite bad_range_false by lia. cbv zeta. change (Z.land 0 7 =? 0) with true.
    cbn [negb]. unfold RtlSetBits_rest.
    rewrite !shiftr3, land7, Hsz. change (0 / 8) with 0.
    replace (8 * zlen (BitMapBuffer bm) / 8) with (zlen (BitMapBuffer bm)) by dlia.
    replace ((8 * zlen (BitMapBuffer bm)) mod 8) with 0 by dlia.
    destruct (fill_ok 0 (BitMapBuffer bm) 0 255 (Z.to_nat (zlen (BitMapBuffer bm))))
      as (buf' & Hf & Hl & _); [lia..|].
    rewrite Hf. cbn [obind].
    rewrite maskBits_ones by lia. cbn [obind]. unfold or_byte. rewrite rd_out by lia. done.
  - assert (bad_range bm 0xffffffff 1 = false) as ->.
    { unfold bad_range. change (u32 (0xffffffff + 1)) with 0. zcases. }
    change (Z.land 0xffffffff 7) with 7. change (Z.shiftr 0xffffffff 3) with 0x1fffffff.
    cbn [Z.eqb negb Z.ltb Z.compare]. rewrite maskBits_ones by lia. cbn [obind].
    change (7 <? 1) with false. cbv iota. unfold or_byte at 1. rewrite rd_out by lia. done.
Qed.

(** *** Witnesses *)
Definition wbm : RTL_BITMAP := mkBitmap 20 [0xf0; 0x0f; 0x03; 0x00; 0x00].

Lemma wbm_ok : bm_ok wbm.
Proof.
  split; [|split; [split|]]; [|by vm_compute..].
  repeat constructor; vm_compute; done.
Qed.

Lemma RtlSetBits_spec_witness :
  exists bm', RtlSetBits (Some wbm) 3 12 = Ret (Some bm') /\ bm_ok bm' /\
    SizeOfBitMap bm' = 20 /\
    forall i, 0 <= i -> bit (BitMapBuffer bm') i = bit (BitMapBuffer wbm) i || inrange 3 12 i.
Proof. apply (RtlSetBits_spec wbm 3 12); [apply wbm_ok|lia|lia|vm_compute; done]. Defined.

Lemma RtlClearBits_spec_witness :
  exists bm', RtlClearBits (Some wbm) 5 6 = Ret (Some bm') /\ bm_ok bm' /\
    SizeOfBitMap bm' = 20 /\
    forall i, 0 <= i -> bit (BitMapBuffer bm') i = bit (BitMapBuffer wbm) i && negb (inrange 5 6 i).
Proof. apply (RtlClearBits_spec wbm 5 6); [apply wbm_ok|lia|lia|vm_compute; done]. Defined.

Lemma RtlAreBits_spec_witness :
  tests (RtlAreBitsSet (Some wbm) 4 8) (range_is true (BitMapBuffer wbm) 4 8) /\
  tests (RtlAreBitsClear (Some wbm) 4 8) (range_is false (BitMapBuffer wbm) 4 8).
Proof.
  apply (RtlAreBits_spec wbm 4 8); [apply wbm_ok|vm_compute; done|vm_compute; done|lia|lia|vm_compute; done].
Defined.

Lemma RtlFindBits_spec_witness :
  (exists r, RtlFindSetBits (Some wbm) 8 2 = Ret r /\ found_block true wbm 8 (norm_hint wbm 8 2) r) /\
  (exists r, RtlFindClearBits (Some wbm) 8 2 = Ret r /\ found_block false wbm 8 (norm_hint wbm 8 2) r).
Proof.
  apply (RtlFindBits_spec wbm 8 2); [apply bm_ok_fits, wbm_ok|split; [lia|vm_compute; done]|lia|lia].
Defined.

Lemma RtlFindClearBitsAndSet_spec_witness :
  (RtlFindClearBitsAndSet (Some wbm) 3 0xffffffff = Ret (NOT_FOUND, Some wbm)) /\
  (exists r bm', RtlFindClearBitsAndSet (Some wbm) 3 10 = Ret (r, Some bm') /\ block false wbm r 3 /\ SizeOfBitMap bm' = 20 /\
     holds (BitMapBuffer bm') 5 (fun i => bit (BitMapBuffer wbm) i || inrange r 3 i)).
Proof.
  pose proof (bm_ok_fits wbm wbm_ok) as Hf. split.
  - apply (proj1 (RtlFindClearBitsAndSet_spec wbm 3 0xffffffff Hf ltac:(lia) ltac:(lia))). right. right. lia.
  - destruct (proj2 (RtlFindClearBitsAndSet_spec wbm 3 10 Hf ltac:(lia) ltac:(lia))) as [[_ Hno]|(r & Hb & _ & Hsp & Hset & _)]; [cbn; lia|lia| |].
    + exfalso. apply (Hno 12). split; [lia|]. split; [cbn; lia|]. intros i Hi. assert (i = 12 \/ i = 13 \/ i = 14) as Hi' by lia. destruct_or! Hi'; subst; reflexivity.
    + destruct (Hset (Hsp wbm_ok)) as (bm' & E & Hs & Hh). exists r, bm'. split; [exact E|]. split; [exact Hb|]. split; [exact Hs|exact Hh].
Defined.

Lemma RtlNumberOfBits_spec_witness :
  RtlNumberOfSetBits (Some wbm) = Ret (cnt (bit (BitMapBuffer wbm)) 20) /\
  RtlNumberOfClearBits (Some wbm) = Ret (cnt (fun i => negb (bit (BitMapBuffer wbm) i)) 20).
Proof. apply (RtlNumberOfBits_spec wbm), wbm_ok. Defined.

Lemma RtlFindLeastSignificantBit_spec_witness :
  exists r, RtlFindLeastSignificantBit 0xa000000000 = Ret r /\ is_lsb 0xa000000000 r.
Proof. apply (RtlFindLeastSignificantBit_spec 0xa000000000); [vm_compute; done|lia]. Defined.

Lemma RtlFindMostSignificantBit_exact_witness :
  RtlFindMostSignificantBit 0xf1 = Ret 0 /\ Z.log2 0xf1 = 7.
Proof.
  split; [|done]. rewrite (RtlFindMostSignificantBit_exact 0xf1); [done|vm_compute; done|lia].
Defined.

Lemma RtlFindNextForwardRunSet_aligned_witness :
  (exists p n, RtlFindNextForwardRunSet (Some wbm) (8 * 0) true = Ret (n, Some p) /\
     first_run true wbm (8 * 0) p n) \/
  (RtlFindNextForwardRunSet (Some wbm) (8 * 0) true = Ret (0, Some NOT_FOUND) /\
     range_is false (BitMapBuffer wbm) (8 * 0) (SizeOfBitMap wbm - 8 * 0)).
Proof.
  apply (RtlFindNextForwardRunSet_aligned wbm 0); [apply wbm_ok| |lia|vm_compute; done].
  intros i Hi. cbn in Hi.
  assert (i = 20 \/ i = 21 \/ i = 22 \/ i = 23 \/ 24 <= i < 40) as Hc by (unfold zlen in Hi; cbn in Hi; lia).
  destruct_or! Hc; subst; try reflexivity. unfold bit, wbm; cbn [BitMapBuffer].
  assert (i / 8 = 3 \/ i / 8 = 4) as [-> | ->] by dlia; apply Z.testbit_0_l.
Defined.

Lemma NTDLL_FindClearRun_dual_witness :
  NTDLL_FindClearRun wbm 0 = NTDLL_FindSetRun (complement wbm) 0.
Proof. apply (NTDLL_FindClearRun_dual wbm 0). apply wbm_ok. Defined.

Lemma RtlSetBits_outside_witness :
  RtlSetBits (Some (mkBitmap 32 [0; 0; 0; 0])) 0 32 = Fault.
Proof.
  apply (RtlSetBits_outside (mkBitmap 32 [0; 0; 0; 0]) 0 32);
    [reflexivity|cbn; lia|left; done].
Defined.

End BitmapSpec.
