(* ===== verification/LargeInt.v ===== *)
(** * 64-bit integer helpers (dlls/ntdll/large_int.c)

    LONGLONG is a two's-complement 64-bit integer; the compilers the engine
    is built with wrap signed overflow.  Division by zero, the quotient that
    does not fit and shift counts outside the type are [Fault]. *)
From S2P Require Import Prelude.

Module LargeInt.

(** C division of LONGLONGs, truncating towards zero *)
Definition sdiv64 (a b : Z) : outcome Z :=
  if (b =? 0) || ((a =? - 2 ^ 63) && (b =? -1)) then Fault else Ret (Z.quot a b).
Definition srem64 (a b : Z) : outcome Z :=
  if (b =? 0) || ((a =? - 2 ^ 63) && (b =? -1)) then Fault else Ret (Z.rem a b).
Definition shift_ok (count : Z) : bool := (0 <=? count) && (count <? 64).

Definition RtlLargeIntegerAdd (a b : Z) : Z := s64 (a + b).
Definition RtlLargeIntegerSubtract (a b : Z) : Z := s64 (a - b).
Definition RtlLargeIntegerNegate (a : Z) : Z := s64 (- a).
Definition RtlLargeIntegerShiftLeft (a count : Z) : outcome Z :=
  if shift_ok count then Ret (s64 (Z.shiftl a count)) else Fault.
Definition RtlLargeIntegerShiftRight (a count : Z) : outcome Z :=
  if shift_ok count then Ret (s64 (Z.shiftr (u64 a) count)) else Fault.
Definition RtlLargeIntegerArithmeticShift (a count : Z) : outcome Z :=
  if shift_ok count then Ret (Z.shiftr a count) else Fault.

(** quotient, and the value stored through [rem] when [want_rem] *)
Definition RtlLargeIntegerDivide (a b : Z) (want_rem : bool) : outcome (Z * option Z) :=
  if b =? 0 then Fault else
  let ret := a / b in
  Ret (ret, if want_rem then Some (u64 (a - u64 (ret * b))) else None).

Definition RtlConvertLongToLargeInteger (a : Z) : Z := a.
Definition RtlConvertUlongToLargeInteger (a : Z) : Z := a.
Definition RtlEnlargedIntegerMultiply (a b : Z) : Z := s64 (a * b).
Definition RtlEnlargedUnsignedMultiply (a b : Z) : Z := u64 (a * b).

(** the i386 branch: the [div] instruction raises a divide error when the
    quotient does not fit in 32 bits *)
Definition RtlEnlargedUnsignedDivide (a b : Z) (want_rem : bool) : outcome (Z * option Z) :=
  let uHigh := Z.shiftr a 32 in
  let uLow := Z.land a 0xFFFFFFFF in
  let dividend := Z.lor (Z.shiftl uHigh 32) uLow in
  if (b =? 0) || (b <=? uHigh) then Fault else
  Ret (dividend / b, if want_rem then Some (dividend mod b) else None).

(** the branch for other machines *)
Definition RtlEnlargedUnsignedDivide_portable (a b : Z) (want_rem : bool) : outcome (Z * option Z) :=
  if b =? 0 then Fault else
  Ret (u32 (a / b), if want_rem then Some (u32 (a mod b)) else None).

Definition RtlExtendedLargeIntegerDivide (a b : Z) (want_rem : bool) : outcome (Z * option Z) :=
  let! ret := sdiv64 a b in
  Ret (ret, if want_rem then Some (s32 (s64 (a - s64 (b * ret)))) else None).

Definition RtlExtendedIntegerMultiply (a b : Z) : Z := s64 (a * b).
Definition _alldiv (a b : Z) : outcome Z := sdiv64 a b.
Definition _allmul (a b : Z) : Z := s64 (a * b).
Definition _allrem (a b : Z) : outcome Z := srem64 a b.
Definition _aulldiv (a b : Z) : outcome Z := if b =? 0 then Fault else Ret (a / b).
Definition _aullrem (a b : Z) : outcome Z := if b =? 0 then Fault else Ret (a mod b).

Lemma RtlLargeIntegerDivide_ret a b w :
  0 < b -> exists r, RtlLargeIntegerDivide a b w = Ret (a / b, r).
Proof. intros Hb. unfold RtlLargeIntegerDivide. destruct (Z.eqb_spec b 0); [lia|]. by eexists. Qed.

(** the two variants of RtlEnlargedUnsignedDivide agree exactly when the
    quotient fits in 32 bits (the high word is below the divisor), and then
    they return the Euclidean quotient and remainder; otherwise the i386
    variant raises a divide error. *)
Theorem RtlEnlargedUnsignedDivide_spec a b :
  isU 64 a -> isU 32 b ->
  (a / 2 ^ 32 < b ->
     RtlEnlargedUnsignedDivide a b true = Ret (a / b, Some (a mod b)) /\
     RtlEnlargedUnsignedDivide_portable a b true = Ret (a / b, Some (a mod b)) /\
     isU 32 (a / b)) /\
  (b <= a / 2 ^ 32 -> RtlEnlargedUnsignedDivide a b true = Fault).
Proof.
  unfold isU. intros Ha Hb. unfold RtlEnlargedUnsignedDivide, RtlEnlargedUnsignedDivide_portable.
  rewrite Z.shiftr_div_pow2 by lia.
  assert (Z.lor (Z.shiftl (a / 2 ^ 32) 32) (Z.land a 0xffffffff) = a) as ->.
  { rewrite <- Z.shiftr_div_pow2 by lia. apply Z.bits_inj'. intros j Hj.
    rewrite Z.lor_spec, Z.land_spec, Z.shiftl_spec by lia. change 0xffffffff with (Z.ones 32).
    destruct (decide (j < 32)).
    - rewrite Z.testbit_neg_r, Z.ones_spec_low by lia. simpl. apply andb_true_r.
    - rewrite Z.ones_spec_high, Z.shiftr_spec, andb_false_r, orb_false_r by lia. f_equal. lia. }
  split; intros Hh.
  - assert (0 < b) as Hb0 by dlia. assert (0 <= a / b < 2 ^ 32) as Hq.
    { split; [apply Z.div_pos; lia|]. apply Z.div_lt_upper_bound; [lia|]. dlia. }
    destruct (Z.eqb_spec b 0), (Z.leb_spec b (a / 2 ^ 32)); try lia. cbn [orb].
    pose proof (Z.mod_pos_bound a b Hb0).
    rewrite !wrapU_small by (unfold isU; lia). done.
  - destruct (Z.leb_spec b (a / 2 ^ 32)); [|lia]. by rewrite orb_true_r.
Qed.

(** RtlExtendedLargeIntegerDivide by a non-zero 32-bit divisor returns
    the truncated quotient and the remainder with the sign of the dividend,
    which fits the 32-bit result, except for the one overflowing quotient,
    which raises a divide error. *)
Theorem RtlExtendedLargeIntegerDivide_spec a b :
  isS 64 a -> isS 32 b -> b <> 0 ->
  if (a =? - 2 ^ 63) && (b =? -1) then RtlExtendedLargeIntegerDivide a b true = Fault else
  exists q r, RtlExtendedLargeIntegerDivide a b true = Ret (q, Some r) /\
    a = b * q + r /\ Z.abs r < Z.abs b /\ 0 <= r * a.
Proof.
  intros Ha Hb Hb0. unfold RtlExtendedLargeIntegerDivide, sdiv64.
  destruct (Z.eqb_spec b 0); [done|]. cbn [orb].
  destruct (_ && _) eqn:E; [done|]. cbn [obind].
  pose proof (Z.quot_rem' a b) as Hqr. pose proof (Z.rem_bound_abs a b Hb0) as Hr.
  pose proof (Z.rem_sign_mul a b Hb0) as Hsg.
  assert (Z.abs (b * Z.quot a b) <= Z.abs a) as Hm.
  { rewrite Z.abs_mul. pose proof (Z.mul_quot_le (Z.abs a) (Z.abs b)) as Hle.
    rewrite <- Z.quot_abs by done. lia. }
  exists (Z.quot a b), (Z.rem a b). unfold isS in Ha, Hb.
  assert (s64 (b * Z.quot a b) = b * Z.quot a b) as ->.
  { apply wrapS_small; [lia|]. unfold isS. change (2 ^ (64 - 1)) with (2 ^ 63) in *.
    destruct (decide (b * Z.quot a b = 2 ^ 63)) as [E1|]; [|lia]. exfalso.
    assert (a = - 2 ^ 63) as -> by lia. destruct (decide (b = -1)) as [->|]; [done|].
    pose proof (Z.quot_rem' (- 2 ^ 63) b). lia. }
  replace (a - b * Z.quot a b) with (Z.rem a b) by lia.
  rewrite (wrapS_small 64), wrapS_small by (lia || (unfold isS; lia)). split_and!; [done|lia..|done].
Qed.

Lemma RtlEnlargedUnsignedDivide_spec_witness :
  RtlEnlargedUnsignedDivide 0x123456789a 0x13 true = Ret (0x123456789a / 0x13, Some (0x123456789a mod 0x13)) /\
  RtlEnlargedUnsignedDivide 0x123456789a 0x12 true = Fault.
Proof.
  split; [apply (RtlEnlargedUnsignedDivide_spec 0x123456789a 0x13); vm_compute; done|].
  apply (RtlEnlargedUnsignedDivide_spec 0x123456789a 0x12); vm_compute; done.
Defined.

Lemma RtlExtendedLargeIntegerDivide_spec_witness :
  exists q r, RtlExtendedLargeIntegerDivide (-1000) 7 true = Ret (q, Some r) /\
    -1000 = 7 * q + r /\ Z.abs r < Z.abs 7 /\ 0 <= r * -1000.
Proof. apply (RtlExtendedLargeIntegerDivide_spec (-1000) 7); vm_compute; done. Defined.

End LargeInt.
