(* ===== verification/NtTime.v ===== *)
(** * NT time (dlls/ntdll/time.c)

    Conversions between 100ns ticks since 1601, calendar fields and seconds
    since 1970/1980, and the tick and performance counters with their
    adjustable epoch. *)
From S2P Require Import Prelude LargeInt.

Module NtTime.
Import LargeInt.

Definition TICKSPERSEC : Z := 10000000.
Definition TICKSPERMSEC : Z := 10000.
Definition SECSPERDAY : Z := 86400.
Definition SECSPERHOUR : Z := 3600.
Definition SECSPERMIN : Z := 60.
Definition MINSPERHOUR : Z := 60.
Definition HOURSPERDAY : Z := 24.
Definition EPOCHWEEKDAY : Z := 1.
Definition DAYSPERWEEK : Z := 7.
Definition EPOCHYEAR : Z := 1601.
Definition MONSPERYEAR : Z := 12.
Definition SECS_1601_TO_1970 : Z := (369 * 365 + 89) * 86400.
Definition SECS_1601_to_1980 : Z := (379 * 365 + 91) * 86400.
Definition QP_FREQ : Z := 1193182.
Definition QP_SCALE : Z := 2502284.
Definition QP_DIVSHIFT : Z := 21.

Definition YearLengths : list Z := [365; 366].
Definition MonthLengths : list (list Z) :=
  [[31; 28; 31; 30; 31; 30; 31; 31; 30; 31; 30; 31];
   [31; 29; 31; 30; 31; 30; 31; 31; 30; 31; 30; 31]].

(** include/winternl.h, struct _TIME_FIELDS: every field is a CSHORT *)
Record TIME_FIELDS := mkFields {
  Year : Z; Month : Z; Day : Z; Hour : Z; Minute : Z; Second : Z;
  Milliseconds : Z; Weekday : Z
}.

Definition IsLeapYear (Y : Z) : Z :=
  if (Z.rem Y 4 =? 0) && (negb (Z.rem Y 100 =? 0) || (Z.rem Y 400 =? 0)) then 1 else 0.

(** the field less the modulus and the carry field plus one *)
Definition NormalizeTimeFields (FieldToNormalize CarryField Modulus : Z) : Z * Z :=
  (s16 (FieldToNormalize - Modulus), s16 (CarryField + 1)).

(** [while (SecondsInDay < 0)] and [while (SecondsInDay >= SECSPERDAY)] *)
Fixpoint adjust_up (fuel : nat) (secs days : Z) : outcome (Z * Z) :=
  match fuel with
  | O => Spin
  | S fuel => if secs <? 0 then adjust_up fuel (secs + SECSPERDAY) (days - 1) else Ret (secs, days)
  end.
Fixpoint adjust_down (fuel : nat) (secs days : Z) : outcome (Z * Z) :=
  match fuel with
  | O => Spin
  | S fuel =>
    if SECSPERDAY <=? secs then adjust_down fuel (secs - SECSPERDAY) (days + 1) else Ret (secs, days)
  end.

(** the [while (1)] loop over years: the year, its leap flag and the days left *)
Fixpoint year_loop (fuel : nat) (CurYear Days : Z) : outcome (Z * Z * Z) :=
  match fuel with
  | O => Spin
  | S fuel =>
    let LeapYear := IsLeapYear CurYear in
    let! len := rd YearLengths LeapYear in
    if Days <? len then Ret (CurYear, LeapYear, Days)
    else year_loop fuel (CurYear + 1) (Days - len)
  end.

(** [for (CurMonth = 0; Days >= Months[CurMonth]; CurMonth++)] *)
Fixpoint month_loop (fuel : nat) (Months : list Z) (CurMonth Days : Z) : outcome (Z * Z) :=
  match fuel with
  | O => Spin
  | S fuel =>
    let! len := rd Months CurMonth in
    if len <=? Days then month_loop fuel Months (CurMonth + 1) (Days - len)
    else Ret (CurMonth, Days)
  end.

(** a year has at least 365 days, and a thirteenth month read faults *)
Definition year_fuel (Days : Z) : nat := S (Z.to_nat (Days / 365)).

Definition RtlTimeToTimeFields (liTime : Z) : outcome TIME_FIELDS :=
  let Millis := s16 (Z.quot (Z.rem liTime TICKSPERSEC) TICKSPERMSEC) in
  let Time := Z.quot liTime TICKSPERSEC in
  let LeapSecondCorrections := 0 in
  let GMTOffset := 0 in
  let Days := s32 (Z.quot Time SECSPERDAY) in
  let SecondsInDay := s32 (Z.rem Time SECSPERDAY) + (GMTOffset - LeapSecondCorrections) in
  let! (SecondsInDay, Days) := adjust_up 2 SecondsInDay Days in
  let! (SecondsInDay, Days) := adjust_down 2 SecondsInDay Days in
  let Hr := s16 (Z.quot SecondsInDay SECSPERHOUR) in
  let SecondsInDay := Z.rem SecondsInDay SECSPERHOUR in
  let Mi := s16 (Z.quot SecondsInDay SECSPERMIN) in
  let Se := s16 (Z.rem SecondsInDay SECSPERMIN) in
  let Wd := s16 (Z.rem (EPOCHWEEKDAY + Days) DAYSPERWEEK) in
  let! (CurYear, LeapYear, Days) := year_loop (year_fuel Days) EPOCHYEAR Days in
  let! Months := rd MonthLengths LeapYear in
  let! (CurMonth, Days) := month_loop 13 Months 0 Days in
  Ret (mkFields (s16 CurYear) (s16 (CurMonth + 1)) (s16 (Days + 1)) Hr Mi Se Millis Wd).

(** the normalisation loops of RtlTimeFieldsToTime; every one subtracts from
    a CSHORT while that is above a bound, so 65536 rounds are enough *)
Fixpoint norm_loop (fuel : nat) (bound modulus f carry : Z) : outcome (Z * Z) :=
  match fuel with
  | O => Spin
  | S fuel =>
    if bound <=? f then
      let (f, carry) := NormalizeTimeFields f carry modulus in norm_loop fuel bound modulus f carry
    else Ret (f, carry)
  end.

Fixpoint day_loop (fuel : nat) (year day month : Z) : outcome (Z * Z) :=
  match fuel with
  | O => Spin
  | S fuel =>
    let! months := rd MonthLengths (IsLeapYear year) in
    let! len := rd months (month - 1) in
    if len <? day then
      let (day, month) := NormalizeTimeFields day month SECSPERMIN in day_loop fuel year day month
    else Ret (day, month)
  end.

Definition norm_fuel : nat := 700.

(** [for (CurYear = EPOCHYEAR; CurYear < TimeFields.Year; CurYear++)] *)
Fixpoint sum_years (n : nat) (CurYear rcTime : Z) : outcome (Z * Z) :=
  match n with
  | O => Ret (CurYear, rcTime)
  | S n => let! len := rd YearLengths (IsLeapYear CurYear) in sum_years n (CurYear + 1) (s64 (rcTime + len))
  end.

(** [for (CurMonth = 1; CurMonth < TimeFields.Month; CurMonth++)] *)
Fixpoint sum_months (n : nat) (months : list Z) (CurMonth rcTime : Z) : outcome Z :=
  match n with
  | O => Ret rcTime
  | S n => let! len := rd months (CurMonth - 1) in sum_months n months (CurMonth + 1) (s64 (rcTime + len))
  end.

Definition RtlTimeFieldsToTime (tf : TIME_FIELDS) : outcome Z :=
  let! (Se, Mi) := norm_loop norm_fuel SECSPERMIN SECSPERMIN (Second tf) (Minute tf) in
  let! (Mi, Hr) := norm_loop norm_fuel MINSPERHOUR MINSPERHOUR Mi (Hour tf) in
  let! (Hr, Dy) := norm_loop (2 * norm_fuel) HOURSPERDAY HOURSPERDAY Hr (Day tf) in
  let! (Dy, Mo) := day_loop norm_fuel (Year tf) Dy (Month tf) in
  let! (Mo, Yr) := norm_loop (4 * norm_fuel) (MONSPERYEAR + 1) MONSPERYEAR Mo (Year tf) in
  let! (CurYear, rcTime) := sum_years (Z.to_nat (Yr - EPOCHYEAR)) EPOCHYEAR 0 in
  let! months := rd MonthLengths (IsLeapYear CurYear) in
  let! rcTime := sum_months (Z.to_nat (Mo - 1)) months 1 rcTime in
  let rcTime := s64 (rcTime + (Dy - 1)) in
  let rcTime := s64 (rcTime * SECSPERDAY) in
  let rcTime := s64 (rcTime + (Hr * SECSPERHOUR + Mi * SECSPERMIN + Se)) in
  let rcTime := s64 (rcTime * TICKSPERSEC) in
  Ret (s64 (rcTime + Milliseconds tf * TICKSPERMSEC)).

(** [memcpy(LocalTime, SystemTime, sizeof(PLARGE_INTEGER))]: on a 32-bit
    target the size of the pointer, so only the low half is copied *)
Definition RtlSystemTimeToLocalTime (SystemTime LocalTime : Z) : Z :=
  s64 (Z.lor (Z.land SystemTime 0xffffffff) (Z.land LocalTime (Z.shiftl 0xffffffff 32))).

(** FALSE is [None] *)
Definition RtlTimeToSecondsSince1970 (time : Z) : outcome (option Z) :=
  let! (q, _) := RtlLargeIntegerDivide (u64 time) 10000000 false in
  let tmp := u64 (q - SECS_1601_TO_1970) in
  if 0xffffffff <? tmp then Ret None else Ret (Some (u32 tmp)).

Definition RtlTimeToSecondsSince1980 (time : Z) : outcome (option Z) :=
  let! (q, _) := RtlLargeIntegerDivide (u64 time) 10000000 false in
  let tmp := u64 (q - SECS_1601_to_1980) in
  if 0xffffffff <? tmp then Ret None else Ret (Some (u32 tmp)).

Definition RtlSecondsSince1970ToTime (time : Z) : Z :=
  let secs := s64 (u64 (time + SECS_1601_TO_1970)) in RtlExtendedIntegerMultiply secs 10000000.

Definition RtlSecondsSince1980ToTime (time : Z) : Z :=
  let secs := s64 (u64 (time + SECS_1601_to_1980)) in RtlExtendedIntegerMultiply secs 10000000.

(** a stub in the source: it writes nothing *)
Definition RtlTimeToElapsedTimeFields (liTime : Z) (TimeFields : TIME_FIELDS) : TIME_FIELDS :=
  TimeFields.

(** ** Clocks *)

(** struct timeval: seconds and microseconds *)
Record timeval := mkTv { tv_sec : Z; tv_usec : Z }.

(** the time of day is what gettimeofday returned *)
Definition NtQuerySystemTime (now : timeval) : Z :=
  let secs := s64 (u64 (tv_sec now + SECS_1601_TO_1970)) in
  s64 (RtlExtendedIntegerMultiply secs 10000000 + tv_usec now * 10).

Definition tv_lt (a b : timeval) : bool :=
  (tv_sec a <? tv_sec b) || ((tv_sec a =? tv_sec b) && (tv_usec a <? tv_usec b)).

(** [if (server_starttime.tv_usec < 0)]: the borrow *)
Definition borrow (t : timeval) : timeval :=
  if tv_usec t <? 0 then mkTv (s32 (tv_sec t - 1)) (s32 (1000000 + tv_usec t)) else t.

(** the new [server_starttime] and [prevActualTime] *)
Definition NT_getCurrentTimeAndAdjustEpoch (t server_starttime prevActualTime : timeval)
    : timeval * timeval :=
  let start :=
    if tv_lt t server_starttime then
      borrow (mkTv (s32 (tv_sec t - (tv_sec prevActualTime - tv_sec server_starttime)))
                   (s32 (tv_usec t - (tv_usec prevActualTime - tv_usec server_starttime))))
    else if tv_lt t prevActualTime then
      borrow (mkTv (s32 (tv_sec server_starttime - (tv_sec prevActualTime - tv_sec t)))
                   (s32 (tv_usec server_starttime - (tv_usec prevActualTime - tv_usec t))))
    else server_starttime in
  (start, mkTv (tv_sec t) (tv_usec t)).

Inductive NTSTATUS := STATUS_SUCCESS | STATUS_ACCESS_VIOLATION.

(** The function's static [prevActualTime] is an argument and a result; the
    values stored through [Count] and [Freq] are the last components. *)
Definition NtQueryPerformanceCounter (CurTime server_starttime prevActualTime : timeval)
    (has_count has_freq : bool)
    : NTSTATUS * timeval * timeval * option Z * option Z :=
  if negb has_count then (STATUS_ACCESS_VIOLATION, server_starttime, prevActualTime, None, None) else
  let Freq := if has_freq then Some QP_FREQ else None in
  let (server_starttime, prevActualTime) :=
    NT_getCurrentTimeAndAdjustEpoch CurTime server_starttime prevActualTime in
  let Diff := u32 (tv_sec CurTime - tv_sec server_starttime) in
  let Count :=
    if Diff <? QP_FREQ
    then s64 (Z.shiftr (u64 (u64 (Diff * QP_SCALE) * 1000000)) QP_DIVSHIFT)
    else s64 (u64 (Z.shiftr (u64 (Diff * QP_SCALE)) QP_DIVSHIFT * 1000000)) in
  let Count :=
    if tv_usec CurTime <? tv_usec server_starttime
    then s64 (Count - Z.shiftr (u64 (u64 (tv_usec server_starttime - tv_usec CurTime) * QP_SCALE)) QP_DIVSHIFT)
    else s64 (Count + Z.shiftr (u64 (u64 (tv_usec CurTime - tv_usec server_starttime) * QP_SCALE)) QP_DIVSHIFT) in
  (STATUS_SUCCESS, server_starttime, prevActualTime, Some Count, Freq).

(** the tick count with the new epoch and previous time *)
Definition NtGetTickCount (t server_starttime prevActualTime : timeval) : Z * timeval * timeval :=
  let (server_starttime, prevActualTime) :=
    NT_getCurrentTimeAndAdjustEpoch t server_starttime prevActualTime in
  (u32 ((tv_sec t - tv_sec server_starttime) * 1000
        + Z.quot (tv_usec t - tv_usec server_starttime) 1000),
   server_starttime, prevActualTime).

(** the same with [1000ull]: both differences become unsigned 64-bit values
    before the multiplication and the division *)
Definition NtGetTickCount64 (t server_starttime prevActualTime : timeval) : Z * timeval * timeval :=
  let (server_starttime, prevActualTime) :=
    NT_getCurrentTimeAndAdjustEpoch t server_starttime prevActualTime in
  (u64 (u64 (tv_sec t - tv_sec server_starttime) * 1000
        + u64 (tv_usec t - tv_usec server_starttime) / 1000),
   server_starttime, prevActualTime).

End NtTime.
