(* ===== verification/NtTimeSpec.v ===== *)
(** * Correctness of the NT time conversions and clocks *)
From S2P Require Import Prelude LargeInt NtTime.

Module NtTimeSpec.
Import LargeInt NtTime.

(** ** The calendar *)

(** days of a year; of the [n] years from [y] on *)
Definition ylen (y : Z) : Z := 365 + IsLeapYear y.
Fixpoint ysum (y : Z) (n : nat) : Z :=
  match n with
  | O => 0
  | S n => ylen y + ysum (y + 1) n
  end.

(** the months of a common ([0]) or leap ([1]) year and the days before month [m] *)
Definition months (leap : Z) : list Z := nthZ [] MonthLengths leap.
Definition mlen (leap m : Z) : Z := nthZ 0 (months leap) m.
Definition msum (leap m : Z) : Z := foldr Z.add 0 (take (Z.to_nat m) (months leap)).

Lemma IsLeapYear_01 y : 0 <= IsLeapYear y <= 1.
Proof. unfold IsLeapYear. case_match; lia. Qed.

Lemma ylen_range y : 365 <= ylen y <= 366.
Proof. unfold ylen. pose proof (IsLeapYear_01 y). lia. Qed.

Lemma rd_YearLengths y : rd YearLengths (IsLeapYear y) = Ret (ylen y).
Proof.
  unfold ylen. pose proof (IsLeapYear_01 y) as H.
  assert (IsLeapYear y = 0 \/ IsLeapYear y = 1) as [-> | ->] by lia; done.
Qed.

Lemma rd_MonthLengths l : 0 <= l <= 1 -> rd MonthLengths l = Ret (months l).
Proof. intros H. assert (l = 0 \/ l = 1) as [-> | ->] by lia; done. Qed.

Lemma ysum_bound y n : 365 * Z.of_nat n <= ysum y n <= 366 * Z.of_nat n.
Proof.
  revert y. induction n as [|n IH]; intros y; cbn [ysum]; [lia|].
  specialize (IH (y + 1)). pose proof (ylen_range y). lia.
Qed.

(** every day number falls in one year *)
Lemma year_split D : 0 <= D -> forall y, exists n d,
  D = ysum y n + d /\ 0 <= d < ylen (y + Z.of_nat n).
Proof.
  intros HD. remember (Z.to_nat D) as k eqn:Ek. revert D HD Ek.
  induction k as [k IH] using (well_founded_induction lt_wf). intros D HD -> y. pose proof (ylen_range y) as Hy.
  destruct (decide (D < ylen y)) as [Hlt|Hge].
  - exists O, D. cbn [ysum]. rewrite Z.add_0_r. lia.
  - destruct (IH (Z.to_nat (D - ylen y)) ltac:(lia) (D - ylen y) ltac:(lia) eq_refl (y + 1))
      as (n & d & HE & Hd).
    exists (S n), d. cbn [ysum]. replace (y + Z.of_nat (S n)) with (y + 1 + Z.of_nat n) by lia.
    split; [lia|done].
Qed.

Lemma year_loop_run n fuel y d :
  0 <= d < ylen (y + Z.of_nat n) -> (n < fuel)%nat ->
  year_loop fuel y (ysum y n + d) =
    Ret (y + Z.of_nat n, IsLeapYear (y + Z.of_nat n), d).
Proof.
  revert fuel y. induction n as [|n IH]; intros fuel y Hd Hf; (destruct fuel as [|fuel]; [lia|]);
    cbn [year_loop ysum]; rewrite rd_YearLengths; cbn [obind].
  - rewrite Z.add_0_r in *. rewrite Z.add_0_l. zcases.
  - pose proof (ysum_bound (y + 1) n).
    destruct (Z.ltb_spec (ylen y + ysum (y + 1) n + d) (ylen y)); [lia|].
    replace (ylen y + ysum (y + 1) n + d - ylen y) with (ysum (y + 1) n + d) by lia.
    replace (y + Z.of_nat (S n)) with (y + 1 + Z.of_nat n) in * by lia.
    apply IH; [done|lia].
Qed.

Lemma sum_years_run n y acc :
  0 <= acc -> acc + 366 * Z.of_nat n < 2 ^ 62 ->
  sum_years n y acc = Ret (y + Z.of_nat n, acc + ysum y n).
Proof.
  revert y acc. induction n as [|n IH]; intros y acc Ha Hb; cbn [sum_years ysum].
  - by rewrite !Z.add_0_r.
  - rewrite rd_YearLengths. cbn [obind]. pose proof (ylen_range y).
    rewrite wrapS_small, IH by (lia || (unfold isS; lia)). do 2 f_equal; lia.
Qed.

(** every day of a year falls in one month, which the loop finds *)
Lemma month_facts l m d : 0 <= l <= 1 -> 0 <= m < 12 -> 0 <= d < mlen l m ->
  month_loop 13 (months l) 0 (msum l m + d) = Ret (m, d) /\
  0 <= msum l m /\ msum l m + d < 365 + l /\ 28 <= mlen l m <= 31 /\
  rd (months l) m = Ret (mlen l m).
Proof.
  intros Hl Hm Hd.
  assert (mlen l m <= 31) as H31.
  { pose proof (all_below_spec 2 (fun l => all_below 12 (fun m => mlen l m <=? 31))
      ltac:(vm_compute; done) l ltac:(lia)) as H. cbv beta in H.
    apply (all_below_spec 12 _ H) in Hm. by apply Z.leb_le in Hm. }
  pose proof (all_below_spec 2 (fun l => all_below 12 (fun m => all_below 31 (fun d =>
    (mlen l m <=? d) ||
    match month_loop 13 (months l) 0 (msum l m + d), rd (months l) m with
    | Ret (m', d'), Ret len => (m' =? m) && (d' =? d) && (0 <=? msum l m) && (msum l m + d <? 365 + l)
                      && (28 <=? mlen l m) && (len =? mlen l m)
    | _, _ => false
    end))) ltac:(vm_compute; done) l ltac:(lia)) as H. cbv beta in H.
  pose proof (all_below_spec 12 _ H m Hm) as H'. cbv beta in H'.
  pose proof (all_below_spec 31 _ H' d ltac:(lia)) as H''. cbv beta in H''.
  destruct (Z.leb_spec (mlen l m) d); [lia|]. cbn [orb] in H''.
  destruct (month_loop _ _ _ _) as [[m' d']| |]; [|done..].
  destruct (rd (months l) m) as [len| |]; [|done..]. zhyps. subst. done.
Qed.

Lemma month_split l D : 0 <= l <= 1 -> 0 <= D < 365 + l ->
  exists m d, 0 <= m < 12 /\ D = msum l m + d /\ 0 <= d < mlen l m.
Proof.
  intros Hl HD.
  pose proof (all_below_spec 2 (fun l => all_below 366 (fun D => (365 + l <=? D) ||
    match month_loop 13 (months l) 0 D with
    | Ret (m, d) => (0 <=? m) && (m <? 12) && (D =? msum l m + d) && (0 <=? d) && (d <? mlen l m)
    | _ => false
    end)) ltac:(vm_compute; done) l ltac:(lia)) as H. cbv beta in H.
  pose proof (all_below_spec 366 _ H D ltac:(lia)) as H'. cbv beta in H'.
  destruct (Z.leb_spec (365 + l) D); [lia|]. cbn [orb] in H'.
  destruct (month_loop _ _ _ _) as [[m d]| |]; [|done..]. exists m, d. zhyps. done.
Qed.

Lemma sum_months_gen n ms c acc :
  Forall (fun x => 0 <= x <= 31) ms -> 1 <= c -> (Z.to_nat (c - 1) + n <= length ms)%nat ->
  0 <= acc -> acc + 31 * Z.of_nat n < 2 ^ 62 ->
  sum_months n ms c acc = Ret (acc + foldr Z.add 0 (take n (drop (Z.to_nat (c - 1)) ms))).
Proof.
  intros Hms. revert c acc. induction n as [|n IH]; intros c acc Hc Hn Ha Hb; cbn [sum_months].
  - cbn [take foldr]. by rewrite Z.add_0_r.
  - unfold rd. destruct (Z.ltb_spec (c - 1) 0); [lia|].
    destruct (lookup_lt_is_Some_2 ms (Z.to_nat (c - 1))) as [x Hx]; [lia|]. rewrite Hx. cbn [obind].
    pose proof (Forall_lookup_1 _ _ _ _ Hms Hx) as Hxr. cbv beta in Hxr.
    rewrite wrapS_small, IH by (lia || (unfold isS; lia)).
    rewrite (drop_S ms x (Z.to_nat (c - 1))) by done. cbn [take foldr].
    replace (Z.to_nat (c + 1 - 1)) with (S (Z.to_nat (c - 1))) by lia. f_equal. lia.
Qed.

Lemma sum_months_run l m acc :
  0 <= l <= 1 -> 0 <= m < 12 -> 0 <= acc < 2 ^ 61 ->
  sum_months (Z.to_nat m) (months l) 1 acc = Ret (acc + msum l m).
Proof.
  intros Hl Hm Ha.
  assert (length (months l) = 12%nat /\ Forall (fun x => 0 <= x <= 31) (months l)) as [Hlen Hf].
  { assert (l = 0 \/ l = 1) as [-> | ->] by lia; (split; [done|]); repeat constructor; lia. }
  rewrite sum_months_gen by (done || lia). done.
Qed.

(** ** A time by its parts: year index, month, day, second of the day,
    millisecond and the 100ns units below it *)
Record parts := mkParts {
  p_n : nat; p_m : Z; p_d : Z; p_s : Z; p_ms : Z; p_r : Z
}.

Definition p_year (p : parts) : Z := EPOCHYEAR + Z.of_nat (p_n p).
Definition p_leap (p : parts) : Z := IsLeapYear (p_year p).
Definition p_days (p : parts) : Z := ysum EPOCHYEAR (p_n p) + (msum (p_leap p) (p_m p) + p_d p).
Definition p_time (p : parts) : Z :=
  ((p_days p * 86400 + p_s p) * 1000 + p_ms p) * 10000 + p_r p.
Definition p_fields (p : parts) : TIME_FIELDS :=
  mkFields (p_year p) (p_m p + 1) (p_d p + 1) (p_s p / 3600) (p_s p mod 3600 / 60)
    (p_s p mod 60) (p_ms p) ((1 + p_days p) mod 7).

Definition parts_ok (p : parts) : Prop :=
  0 <= p_m p < 12 /\ 0 <= p_d p < mlen (p_leap p) (p_m p) /\ 0 <= p_s p < 86400 /\
  0 <= p_ms p < 1000 /\ 0 <= p_r p < 10000 /\ p_time p < 2 ^ 63.

Lemma parts_days p : parts_ok p -> 0 <= p_days p < 2 ^ 31 /\ Z.of_nat (p_n p) <= p_days p / 365.
Proof.
  intros (Hm & Hd & Hs & Hms & Hr & Ht). unfold p_time in Ht.
  destruct (month_facts (p_leap p) (p_m p) (p_d p)) as (_ & H0 & _); [apply IsLeapYear_01|done..|].
  pose proof (ysum_bound EPOCHYEAR (p_n p)) as Hy. unfold p_days in *.
  split; [lia|]. apply Z.div_le_lower_bound; lia.
Qed.

Lemma parts_year p : parts_ok p -> EPOCHYEAR <= p_year p < 30850.
Proof.
  intros Hp. pose proof (parts_days p Hp) as [Hd Hn].
  assert (p_days p < 10675200) by (destruct Hp as (_ & _ & Hs & Hms & Hr & Ht); unfold p_time in Ht; lia).
  unfold p_year, EPOCHYEAR. dlia.
Qed.

(** every non-negative time has parts *)
Lemma time_parts t : 0 <= t < 2 ^ 63 -> exists p, parts_ok p /\ p_time p = t.
Proof.
  intros Ht. set (D := t / 10000 / 1000 / 86400).
  destruct (year_split D ltac:(unfold D; dlia) EPOCHYEAR) as (n & dy & HD & Hdy).
  destruct (month_split (IsLeapYear (EPOCHYEAR + Z.of_nat n)) dy) as (m & d & Hm & -> & Hd);
    [apply IsLeapYear_01|done|].
  exists (mkParts n m d (t / 10000 / 1000 mod 86400) (t / 10000 mod 1000) (t mod 10000)).
  assert (p_time (mkParts n m d (t / 10000 / 1000 mod 86400) (t / 10000 mod 1000) (t mod 10000)) = t) as E.
  { unfold p_time, p_days, p_leap, p_year; cbn [p_n p_m p_d p_s p_ms p_r]. rewrite <- HD. unfold D. dlia. }
  split; [|done]. unfold parts_ok. rewrite E.
  cbn [p_m p_d p_s p_ms p_r]. unfold p_leap, p_year; cbn [p_n].
  split_and!; try done; try lia; dlia.
Qed.

Lemma ToFields_run p : parts_ok p -> RtlTimeToTimeFields (p_time p) = Ret (p_fields p).
Proof.
  intros Hp. pose proof (parts_days p Hp) as [HD Hn]. pose proof (parts_year p Hp) as Hy.
  destruct Hp as (Hm & Hd & Hs & Hms & Hr & Ht). unfold RtlTimeToTimeFields.
  unfold TICKSPERSEC, TICKSPERMSEC, SECSPERDAY, SECSPERHOUR, SECSPERMIN, EPOCHWEEKDAY, DAYSPERWEEK.
  assert (Z.quot (p_time p) 10000000 = p_days p * 86400 + p_s p) as Eq.
  { rewrite Z.quot_div_nonneg by (unfold p_time; lia). unfold p_time. dlia. }
  assert (Z.quot (Z.rem (p_time p) 10000000) 10000 = p_ms p) as ->.
  { rewrite Z.rem_mod_nonneg, Z.quot_div_nonneg by (unfold p_time; dlia). unfold p_time. dlia. }
  rewrite Eq. rewrite Z.quot_div_nonneg, Z.rem_mod_nonneg by lia.
  replace ((p_days p * 86400 + p_s p) / 86400) with (p_days p) by dlia.
  replace ((p_days p * 86400 + p_s p) mod 86400) with (p_s p) by dlia.
  rewrite (wrapS_small 32 (p_days p)), (wrapS_small 32 (p_s p)) by (lia || (unfold isS; lia)).
  change (0 - 0) with 0. rewrite Z.add_0_r. cbn [adjust_up].
  destruct (Z.ltb_spec (p_s p) 0); [lia|]. cbn [obind adjust_down]. unfold SECSPERDAY.
  destruct (Z.leb_spec 86400 (p_s p)); [lia|]. cbn [obind].
  unfold p_days at 2 3. rewrite year_loop_run; cbn [obind].
  2: { fold (p_year p). fold (p_leap p). unfold ylen. fold (p_leap p).
       destruct (month_facts (p_leap p) (p_m p) (p_d p)) as (_ & Hms0 & Hms1 & _);
         [apply IsLeapYear_01|done..|lia]. }
  2: { fold (p_days p). unfold year_fuel. lia. }
  fold (p_year p). fold (p_leap p). rewrite rd_MonthLengths by apply IsLeapYear_01. cbn [obind].
  destruct (month_facts (p_leap p) (p_m p) (p_d p)) as (-> & _ & _ & Hml & _);
    [apply IsLeapYear_01|done..|]. cbn [obind].
  rewrite !Z.quot_div_nonneg, !Z.rem_mod_nonneg by dlia. unfold p_fields, EPOCHYEAR in *.
  rewrite !wrapS_small by (lia || (unfold isS; dlia)). do 2 f_equal; try dlia.
  change (Z.rem (1 + p_days p) 7 = (1 + p_days p) mod 7). apply Z.rem_mod_nonneg; lia.
Qed.

Lemma norm_loop_done fuel bound modulus f carry :
  f < bound -> (0 < fuel)%nat -> norm_loop fuel bound modulus f carry = Ret (f, carry).
Proof. intros Hf. destruct fuel; [lia|]. intros _. cbn [norm_loop]. zcases. Qed.

Lemma day_loop_done fuel y d m :
  1 <= m <= 12 -> d <= mlen (IsLeapYear y) (m - 1) -> (0 < fuel)%nat ->
  day_loop fuel y d m = Ret (d, m).
Proof.
  intros Hm Hd. destruct fuel; [lia|]. intros _. cbn [day_loop].
  pose proof (IsLeapYear_01 y) as Hl. rewrite rd_MonthLengths by done. cbn [obind].
  assert (0 < mlen (IsLeapYear y) (m - 1)) as Hpos.
  { pose proof (all_below_spec 2 (fun l => all_below 12 (fun m => 0 <? mlen l m))
      ltac:(vm_compute; done) (IsLeapYear y) ltac:(lia)) as H. cbv beta in H.
    pose proof (all_below_spec 12 _ H (m - 1) ltac:(lia)) as H'. by apply Z.ltb_lt in H'. }
  destruct (month_facts (IsLeapYear y) (m - 1) 0) as (_ & _ & _ & _ & ->); [done|lia..|].
  cbn [obind]. zcases.
Qed.

(** the days, then the ticks of the fields of [p] *)
Lemma FieldsTo_run p w :
  parts_ok p ->
  RtlTimeFieldsToTime (mkFields (p_year p) (p_m p + 1) (p_d p + 1) (p_s p / 3600)
     (p_s p mod 3600 / 60) (p_s p mod 60) (p_ms p) w) = Ret (p_time p - p_r p).
Proof.
  intros Hp. pose proof (parts_days p Hp) as [HD Hn]. pose proof (parts_year p Hp) as Hy.
  destruct Hp as (Hm & Hd & Hs & Hms & Hr & Ht). unfold RtlTimeFieldsToTime.
  cbn [Year Month Day Hour Minute Second Milliseconds].
  unfold SECSPERMIN, MINSPERHOUR, HOURSPERDAY, MONSPERYEAR, SECSPERDAY, SECSPERHOUR, TICKSPERSEC, TICKSPERMSEC.
  rewrite norm_loop_done by (unfold norm_fuel; dlia). cbn [obind].
  rewrite norm_loop_done by (unfold norm_fuel; dlia). cbn [obind].
  rewrite norm_loop_done by (unfold norm_fuel; dlia). cbn [obind].
  rewrite day_loop_done; [|lia| |unfold norm_fuel; lia].
  2: { fold (p_leap p). replace (p_m p + 1 - 1) with (p_m p) by lia. lia. }
  cbn [obind]. rewrite norm_loop_done by (unfold norm_fuel; dlia). cbn [obind].
  replace (Z.to_nat (p_year p - EPOCHYEAR)) with (p_n p) by (unfold p_year; lia).
  pose proof (ysum_bound EPOCHYEAR (p_n p)) as Hys.
  rewrite sum_years_run by (unfold p_year, EPOCHYEAR in *; lia). cbn [obind]. fold (p_year p). fold (p_leap p).
  rewrite rd_MonthLengths by apply IsLeapYear_01. cbn [obind].
  replace (p_m p + 1 - 1) with (p_m p) by lia.
  rewrite sum_months_run by (apply IsLeapYear_01 || (unfold p_year, EPOCHYEAR in *; lia)). cbn [obind].
  replace (0 + ysum EPOCHYEAR (p_n p) + msum (p_leap p) (p_m p) + (p_d p + 1 - 1)) with (p_days p)
    by (unfold p_days; lia).
  rewrite (wrapS_small 64 (p_days p)) by (lia || (unfold isS; lia)).
  assert (p_s p / 3600 * 3600 + p_s p mod 3600 / 60 * 60 + p_s p mod 60 = p_s p) as -> by dlia.
  unfold p_time in *. rewrite (wrapS_small 64 (p_days p * 86400)) by (lia || (unfold isS; lia)).
  rewrite (wrapS_small 64 (_ + p_s p)) by (lia || (unfold isS; lia)).
  rewrite (wrapS_small 64 (_ * 10000000)) by (lia || (unfold isS; lia)).
  rewrite wrapS_small by (lia || (unfold isS; lia)). f_equal. lia.
Qed.

(** ** Calendar properties *)

(** fields that name an instant of the years 1601 to 30827 *)
Definition valid_fields (tf : TIME_FIELDS) : Prop :=
  EPOCHYEAR <= Year tf <= 30827 /\ 1 <= Month tf <= 12 /\
  1 <= Day tf <= mlen (IsLeapYear (Year tf)) (Month tf - 1) /\
  0 <= Hour tf < 24 /\ 0 <= Minute tf < 60 /\ 0 <= Second tf < 60 /\ 0 <= Milliseconds tf < 1000.

Definition with_weekday (tf : TIME_FIELDS) (w : Z) : TIME_FIELDS :=
  mkFields (Year tf) (Month tf) (Day tf) (Hour tf) (Minute tf) (Second tf) (Milliseconds tf) w.

Lemma ysum_mono n m y : (n <= m)%nat -> ysum y n <= ysum y m.
Proof.
  revert m y. induction n as [|n IH]; intros m y H; (destruct m as [|m]; [try done; lia|]); cbn [ysum].
  - pose proof (ysum_bound (y + 1) m). pose proof (ylen_range y). lia.
  - specialize (IH m (y + 1) ltac:(lia)). lia.
Qed.

Lemma ysum_S y n : ysum y (S n) = ysum y n + ylen (y + Z.of_nat n).
Proof.
  revert y. induction n as [|n IH]; intros y; [cbn [ysum]; change (Z.of_nat 0) with 0; rewrite !Z.add_0_r; lia|].
  cbn [ysum] in *. rewrite (IH (y + 1)). replace (y + 1 + Z.of_nat n) with (y + Z.of_nat (S n)) by lia. lia.
Qed.

(** the parts named by valid fields *)
Definition parts_of (tf : TIME_FIELDS) : parts :=
  mkParts (Z.to_nat (Year tf - EPOCHYEAR)) (Month tf - 1) (Day tf - 1)
    (Hour tf * 3600 + Minute tf * 60 + Second tf) (Milliseconds tf) 0.

Lemma parts_of_year tf : valid_fields tf -> p_year (parts_of tf) = Year tf.
Proof. intros (Hy & _). unfold p_year, parts_of; cbn [p_n]. lia. Qed.

Lemma parts_of_ok tf : valid_fields tf -> parts_ok (parts_of tf).
Proof.
  intros Hv. pose proof (parts_of_year tf Hv) as Ey.
  destruct Hv as (Hy & Hm & Hd & Hh & Hmi & Hs & Hms).
  assert (p_leap (parts_of tf) = IsLeapYear (Year tf)) as El by (unfold p_leap; by rewrite Ey).
  unfold parts_ok, p_time, p_days. rewrite !El. cbn [p_m p_d p_s p_ms p_r parts_of p_n].
  split_and!; try lia.
  destruct (month_facts (IsLeapYear (Year tf)) (Month tf - 1) (Day tf - 1)) as (_ & _ & H1 & _);
    [apply IsLeapYear_01|lia..|].
  assert (ysum EPOCHYEAR (Z.to_nat (Year tf - EPOCHYEAR)) + (365 + IsLeapYear (Year tf)) <= 10675199)
    as Hbig.
  { replace (365 + IsLeapYear (Year tf))
      with (ylen (EPOCHYEAR + Z.of_nat (Z.to_nat (Year tf - EPOCHYEAR)))).
    - rewrite <- ysum_S. etransitivity; [apply (ysum_mono _ (Z.to_nat 29227)); unfold EPOCHYEAR in *; lia|].
      apply Z.leb_le. vm_compute. done.
    - unfold ylen. do 3 f_equal. lia. }
  lia.
Qed.

(** ** The Gregorian calendar

    Day numbers by the closed formula of calendrical calculations, which says
    nothing of loops or tables: day 1 is Monday, the first of January of the
    year 1. *)
Definition gregorian_leap (y : Z) : bool :=
  (y mod 4 =? 0) && negb ((y mod 400 =? 100) || (y mod 400 =? 200) || (y mod 400 =? 300)).
Definition fixed_day (y m d : Z) : Z :=
  365 * (y - 1) + (y - 1) / 4 - (y - 1) / 100 + (y - 1) / 400 + (367 * m - 362) / 12 +
  (if m <=? 2 then 0 else if gregorian_leap y then -1 else -2) + d.
Definition month_days (y m : Z) : Z :=
  if m =? 2 then (if gregorian_leap y then 29 else 28)
  else if (m =? 4) || (m =? 6) || (m =? 9) || (m =? 11) then 30 else 31.

Lemma IsLeapYear_gregorian y : 0 <= y -> IsLeapYear y = if gregorian_leap y then 1 else 0.
Proof.
  intros Hy. unfold IsLeapYear, gregorian_leap. rewrite !Z.rem_mod_nonneg by lia.
  destruct (Z.eqb_spec (y mod 4) 0), (Z.eqb_spec (y mod 100) 0), (Z.eqb_spec (y mod 400) 0), (Z.eqb_spec (y mod 400) 100),
    (Z.eqb_spec (y mod 400) 200), (Z.eqb_spec (y mod 400) 300); cbn; try done; exfalso; dlia.
Qed.
(** the days before January of a year *)
Definition year_start (y : Z) : Z := 365 * (y - 1) + (y - 1) / 4 - (y - 1) / 100 + (y - 1) / 400.
Lemma year_start_S y : 0 <= y -> year_start (y + 1) = year_start y + ylen y.
Proof.
  intros Hy. unfold year_start, ylen. rewrite IsLeapYear_gregorian by done. unfold gregorian_leap. replace (y + 1 - 1) with y by lia.
  destruct (Z.eqb_spec (y mod 4) 0), (Z.eqb_spec (y mod 400) 100),
    (Z.eqb_spec (y mod 400) 200), (Z.eqb_spec (y mod 400) 300); cbn [andb orb negb]; dlia.
Qed.
Lemma ysum_year_start n y : 0 <= y -> year_start (y + Z.of_nat n) = year_start y + ysum y n.
Proof.
  revert y. induction n as [|n IH]; intros y Hy; [cbn [ysum]; rewrite !Z.add_0_r; lia|]. cbn [ysum].
  replace (y + Z.of_nat (S n)) with (y + 1 + Z.of_nat n) by lia. rewrite IH, year_start_S by lia. lia.
Qed.
Lemma months_gregorian y m : 0 <= y -> 0 <= m < 12 ->
  mlen (IsLeapYear y) m = month_days y (m + 1) /\
  msum (IsLeapYear y) m = (367 * (m + 1) - 362) / 12 + (if m + 1 <=? 2 then 0 else if gregorian_leap y then -1 else -2).
Proof.
  intros Hy Hm. rewrite IsLeapYear_gregorian by done. unfold month_days.
  assert (m = 0 \/ m = 1 \/ m = 2 \/ m = 3 \/ m = 4 \/ m = 5 \/ m = 6 \/ m = 7 \/ m = 8 \/ m = 9 \/ m = 10 \/ m = 11) as Hc by lia.
  destruct (gregorian_leap y); repeat destruct Hc as [->|Hc]; try (subst m); by split.
Qed.
Lemma parts_fixed p : parts_ok p -> p_days p = fixed_day (p_year p) (p_m p + 1) (p_d p + 1) - fixed_day EPOCHYEAR 1 1.
Proof.
  intros Hp. pose proof (parts_year p Hp) as Hy. destruct Hp as (Hm & _). unfold p_days, fixed_day, p_leap, EPOCHYEAR in *.
  destruct (months_gregorian (p_year p) (p_m p)) as [_ ->]; [lia|done|].
  pose proof (ysum_year_start (p_n p) 1601) as Hs. unfold year_start in Hs. unfold p_year, EPOCHYEAR in *.
  change ((1601 - 1) / 4) with 400. change ((1601 - 1) / 100) with 16. change ((1601 - 1) / 400) with 4. change ((367 * 1 - 362) / 12) with 0. change (1 <=? 2) with true.
  change ((1601 - 1) / 4) with 400 in Hs. change ((1601 - 1) / 100) with 16 in Hs. change ((1601 - 1) / 400) with 4 in Hs. cbv iota. lia.
Qed.

(** C32: RtlTimeToTimeFields gives the fields of the Gregorian calendar for any
    time from 1601 on: the ticks are those of the day that the date has in the
    calendar, of its hour, minute, second and millisecond, and a rest below a
    millisecond; the weekday is the one of that day; and RtlTimeFieldsToTime
    takes the fields back to the time without the rest. *)
Theorem RtlTimeToTimeFields_roundtrip t :
  0 <= t < 2 ^ 63 ->
  exists y m d h mi s ms r,
    RtlTimeToTimeFields t = Ret (mkFields y m d h mi s ms (fixed_day y m d mod 7)) /\
    1 <= m <= 12 /\ 1 <= d <= month_days y m /\ 0 <= h < 24 /\ 0 <= mi < 60 /\ 0 <= s < 60 /\ 0 <= ms < 1000 /\ 0 <= r < 10000 /\
    t = ((fixed_day y m d - fixed_day 1601 1 1) * 86400 + h * 3600 + mi * 60 + s) * 10000000 + ms * 10000 + r /\
    RtlTimeFieldsToTime (mkFields y m d h mi s ms (fixed_day y m d mod 7)) = Ret (t - r).
Proof.
  intros Ht. destruct (time_parts t Ht) as (p & Hp & <-). pose proof (parts_fixed p Hp) as Hf. pose proof (parts_year p Hp) as Hy.
  pose proof (ToFields_run p Hp) as E1. pose proof (FieldsTo_run p (fixed_day (p_year p) (p_m p + 1) (p_d p + 1) mod 7) Hp) as E2.
  unfold p_fields in E1. assert (Hw : (1 + p_days p) mod 7 = fixed_day (p_year p) (p_m p + 1) (p_d p + 1) mod 7).
  { rewrite Hf. change (fixed_day EPOCHYEAR 1 1) with 584389. dlia. }
  rewrite Hw in E1. destruct Hp as (Hm & Hd & Hs & Hms & Hr & _). destruct (months_gregorian (p_year p) (p_m p)) as [Hml _]; [unfold EPOCHYEAR in *; lia|done|].
  unfold p_leap in Hd. rewrite Hml in Hd.
  exists (p_year p), (p_m p + 1), (p_d p + 1), (p_s p / 3600), (p_s p mod 3600 / 60), (p_s p mod 60), (p_ms p), (p_r p).
  split; [exact E1|]. split_and!; try lia; try dlia; [|exact E2]. unfold p_time. change 1601 with EPOCHYEAR. rewrite <- Hf. dlia.
Qed.

(** valid calendar fields become a time whose fields are the same again,
    up to the day of the week, which is computed. *)
Theorem RtlTimeFieldsToTime_roundtrip tf :
  valid_fields tf ->
  exists t w, RtlTimeFieldsToTime tf = Ret t /\ 0 <= t < 2 ^ 63 /\
    RtlTimeToTimeFields t = Ret (with_weekday tf w).
Proof.
  intros Hv. pose proof (parts_of_ok tf Hv) as Hp. pose proof (parts_of_year tf Hv) as Ey.
  exists (p_time (parts_of tf)), (Weekday (p_fields (parts_of tf))).
  assert (forall w, with_weekday tf w = mkFields (p_year (parts_of tf)) (p_m (parts_of tf) + 1)
    (p_d (parts_of tf) + 1) (p_s (parts_of tf) / 3600) (p_s (parts_of tf) mod 3600 / 60)
    (p_s (parts_of tf) mod 60) (p_ms (parts_of tf)) w) as E.
  { intros w. rewrite Ey. destruct Hv as (Hy & Hm & Hd & Hh & Hmi & Hs & Hms).
    unfold with_weekday, parts_of. cbn [p_m p_d p_s p_ms]. f_equal; dlia. }
  split_and!.
  - transitivity (RtlTimeFieldsToTime (with_weekday tf 0)); [done|]. rewrite E, FieldsTo_run by done.
    f_equal. cbn [parts_of p_r]. lia.
  - pose proof (parts_days _ Hp) as [HD _]. destruct Hp as (_ & _ & Hs & Hms & Hr & _).
    unfold p_time. lia.
  - by destruct Hp as (_ & _ & _ & _ & _ & ?).
  - rewrite ToFields_run by done. by rewrite E.
Qed.

(** normalisation of a day past the end of its month subtracts 60 days
    instead of the month's length: January 32nd becomes January 3rd. *)
Theorem RtlTimeFieldsToTime_day_overflow :
  RtlTimeFieldsToTime (mkFields 1601 1 32 0 0 0 0 0)
    = RtlTimeFieldsToTime (mkFields 1601 1 3 0 0 0 0 0) /\
  RtlTimeFieldsToTime (mkFields 1601 1 32 0 0 0 0 0)
    <> RtlTimeFieldsToTime (mkFields 1601 2 1 0 0 0 0 0).
Proof. split; [vm_compute; done|vm_compute; discriminate]. Qed.

(** seconds since 1970 and 1980 survive the conversion to ticks and
    back, and a time from 1601 on is converted exactly when it lies in the
    2^32 seconds after the epoch. *)
Theorem RtlSecondsSince_roundtrip s t :
  isU 32 s -> 0 <= t < 2 ^ 63 ->
  RtlTimeToSecondsSince1970 (RtlSecondsSince1970ToTime s) = Ret (Some s) /\
  RtlTimeToSecondsSince1980 (RtlSecondsSince1980ToTime s) = Ret (Some s) /\
  RtlTimeToSecondsSince1970 t = Ret (
    let d := t / TICKSPERSEC - SECS_1601_TO_1970 in
    if (0 <=? d) && (d <? 2 ^ 32) then Some d else None) /\
  RtlTimeToSecondsSince1980 t = Ret (
    let d := t / TICKSPERSEC - SECS_1601_to_1980 in
    if (0 <=? d) && (d <? 2 ^ 32) then Some d else None).
Proof.
  intros Hs Ht.
  assert (forall C t, 0 <= t < 2 ^ 63 -> 0 <= C < 2 ^ 40 ->
    (let! (q, _) := RtlLargeIntegerDivide (u64 t) 10000000 false in
     if 0xffffffff <? u64 (q - C) then Ret None else Ret (Some (u32 (u64 (q - C)))))
    = Ret (let d := t / TICKSPERSEC - C in
           if (0 <=? d) && (d <? 2 ^ 32) then Some d else None)) as Hto.
  { intros C u Hu HC. rewrite wrapU_small by (unfold isU; lia).
    destruct (RtlLargeIntegerDivide_ret u 10000000 false) as [r ->]; [lia|]. cbn [obind].
    unfold TICKSPERSEC. destruct (decide (0 <= u / 10000000 - C)) as [Hd|Hd].
    - rewrite (wrapU_small 64) by (unfold isU; dlia). zcases. by rewrite wrapU_small by (unfold isU; lia).
    - assert (u64 (u / 10000000 - C) = u / 10000000 - C + 2 ^ 64) as ->.
      { unfold wrapU. symmetry. apply (Z.mod_unique _ _ (-1)); dlia. }
      zcasesd. }
  assert (forall C, 0 <= C < 2 ^ 34 ->
    RtlExtendedIntegerMultiply (s64 (u64 (s + C))) 10000000 = (s + C) * 10000000) as Hfrom.
  { unfold isU in Hs. intros C HC. rewrite wrapU_small by (unfold isU; lia).
    unfold RtlExtendedIntegerMultiply. rewrite (wrapS_small 64 (s + C)), wrapS_small by (lia || (unfold isS; lia)). done. }
  unfold isU in Hs. unfold RtlTimeToSecondsSince1970, RtlTimeToSecondsSince1980,
    RtlSecondsSince1970ToTime, RtlSecondsSince1980ToTime. cbv zeta.
  rewrite !Hfrom by (unfold SECS_1601_TO_1970, SECS_1601_to_1980; lia).
  split_and!; (rewrite Hto by (unfold SECS_1601_TO_1970, SECS_1601_to_1980; lia)); try done;
    unfold TICKSPERSEC; cbv zeta; rewrite Z.div_mul by lia; zcases; repeat f_equal; lia.
Qed.

(** ** Clock properties *)

(** a time of day as gettimeofday returns it *)
Definition tv_ok (t : timeval) : Prop := 0 <= tv_sec t < 2 ^ 31 /\ 0 <= tv_usec t < 1000000.
Definition usecs (t : timeval) : Z := tv_sec t * 1000000 + tv_usec t.
Definition elapsed (t start : timeval) : Z := usecs t - usecs start.

Lemma tv_lt_spec a b : tv_ok a -> tv_ok b -> tv_lt a b = (usecs a <? usecs b).
Proof. intros [_ Ha] [_ Hb]. unfold tv_lt, usecs. zcases. Qed.

Lemma borrow_usecs t : isS 32 (tv_sec t - 1) -> -1000000 <= tv_usec t -> usecs (borrow t) = usecs t.
Proof.
  intros Hs Hu. unfold borrow. destruct (Z.ltb_spec (tv_usec t) 0); [|done].
  unfold usecs; cbn [tv_sec tv_usec]. rewrite !wrapS_small by (lia || done || (unfold isS; lia)). lia.
Qed.

(** when the system clock is set back, the epoch moves with it: the time
    elapsed since the epoch stays what it was at the previous reading, to the
    microsecond. *)
Theorem AdjustEpoch_keeps_elapsed t start prev start' prev' :
  tv_ok t -> tv_ok start -> tv_ok prev -> usecs start <= usecs prev -> usecs t < usecs prev ->
  NT_getCurrentTimeAndAdjustEpoch t start prev = (start', prev') ->
  elapsed t start' = elapsed prev start /\ prev' = t.
Proof.
  intros Ht Hs Hp Hsp Htp. unfold NT_getCurrentTimeAndAdjustEpoch.
  rewrite !tv_lt_spec by done. destruct (Z.ltb_spec (usecs t) (usecs prev)); [|lia].
  intros E. injection E as <- <-. split; [|by destruct t].
  destruct Ht as [Ht1 Ht2], Hs as [Hs1 Hs2], Hp as [Hp1 Hp2]. unfold elapsed, usecs in *.
  assert (forall a b, a = tv_sec t - (tv_sec prev - tv_sec start) ->
    b = tv_usec t - (tv_usec prev - tv_usec start) ->
    usecs t - usecs (borrow (mkTv (s32 a) (s32 b))) = usecs prev - usecs start) as H'.
  { intros a b -> ->. rewrite borrow_usecs; unfold usecs; cbn [tv_sec tv_usec];
      rewrite !wrapS_small by (lia || (unfold isS; lia)); [lia|unfold isS; lia|lia]. }
  destruct (_ <? _); apply H'; lia.
Qed.

(** while the clock is not set back, NtGetTickCount keeps the epoch,
    never decreases from one call to the next, and is within a millisecond
    of the elapsed time. *)
Theorem NtGetTickCount_monotone t1 t2 start prev r1 s1 p1 r2 s2 p2 :
  tv_ok t1 -> tv_ok t2 -> tv_ok start -> tv_ok prev ->
  usecs start <= usecs t1 -> usecs prev <= usecs t1 -> usecs t1 <= usecs t2 ->
  elapsed t2 start < 4294967 * 1000000 ->
  NtGetTickCount t1 start prev = (r1, s1, p1) -> NtGetTickCount t2 s1 p1 = (r2, s2, p2) ->
  s1 = start /\ s2 = start /\ r1 <= r2 /\
  Z.abs (1000 * r1 - elapsed t1 start) < 1000 /\ Z.abs (1000 * r2 - elapsed t2 start) < 1000.
Proof.
  intros Ht1 Ht2 Hs Hp H1 H2 H3 Hb E1 E2.
  assert (forall t p, tv_ok t -> tv_ok p -> usecs start <= usecs t -> usecs p <= usecs t ->
    NT_getCurrentTimeAndAdjustEpoch t start p = (start, t)) as Hadj.
  { intros t p Ht Hp' Ha Hb'. unfold NT_getCurrentTimeAndAdjustEpoch. rewrite !tv_lt_spec by done.
    destruct t as [a b]. zcases. }
  unfold NtGetTickCount in E1, E2. rewrite Hadj in E1 by done. simplify_eq.
  rewrite Hadj in E2 by (done || lia). simplify_eq.
  unfold elapsed, usecs in *. destruct Ht1 as [? ?], Ht2 as [? ?], Hs as [? ?].
  rewrite !wrapU_small by (unfold isU; dlia). split_and!; [done|done|dlia..].
Qed.

(** NtGetTickCount64 is right only while the microseconds of the current
    time are not below those of the epoch; otherwise the negative difference
    is divided as an unsigned 64-bit number and the count is more than 2^53
    milliseconds ahead of the elapsed time. *)
Theorem NtGetTickCount64_value t start prev r s p :
  tv_ok t -> tv_ok start -> tv_ok prev -> usecs start <= usecs t -> usecs prev <= usecs t ->
  NtGetTickCount64 t start prev = (r, s, p) ->
  (tv_usec start <= tv_usec t -> r = elapsed t start / 1000) /\
  (tv_usec t < tv_usec start -> elapsed t start / 1000 + 2 ^ 53 < r).
Proof.
  intros Ht Hs Hp H1 H2. unfold NtGetTickCount64, NT_getCurrentTimeAndAdjustEpoch.
  rewrite !tv_lt_spec by done.
  destruct (Z.ltb_spec (usecs t) (usecs start)); [lia|].
  destruct (Z.ltb_spec (usecs t) (usecs prev)); [lia|]. intros E. simplify_eq.
  unfold elapsed, usecs in *. destruct Ht as [? ?], Hs as [? ?]. split; intros Hu.
  - rewrite (wrapU_small 64 (tv_sec t - _)), (wrapU_small 64 (tv_usec t - _)) by (unfold isU; lia).
    rewrite wrapU_small by (unfold isU; dlia). dlia.
  - rewrite (wrapU_small 64 (tv_sec t - _)) by (unfold isU; lia).
    assert (u64 (tv_usec t - tv_usec s) = tv_usec t - tv_usec s + 2 ^ 64) as ->.
    { unfold wrapU. symmetry. apply (Z.mod_unique _ _ (-1)); lia. }
    rewrite wrapU_small by (unfold isU; dlia). dlia.
Qed.

(** the tick and the performance counter share the epoch but each keeps
    its own previous reading, so one step back of the clock is compensated
    once by each of them: after the clock goes back by 3000 s, the tick count
    first stays at 4000 s and jumps to 7000 s once the performance counter
    has been read. *)
Theorem epoch_adjusted_twice :
  let start := mkTv 1000 0 in
  let before := mkTv 5000 0 in
  let after := mkTv 2000 0 in
  let '(r0, start, ptick) := NtGetTickCount before start (mkTv 0 0) in
  let '(_, start, pperf, _, _) := NtQueryPerformanceCounter before start (mkTv 0 0) true false in
  let '(r1, start, ptick) := NtGetTickCount after start ptick in
  let '(_, start, pperf, _, _) := NtQueryPerformanceCounter after start pperf true false in
  let '(r2, start, ptick) := NtGetTickCount after start ptick in
  r0 = 4000000 /\ r1 = 4000000 /\ r2 = 7000000.
Proof. vm_compute. done. Qed.

(** *** Witnesses *)
Lemma RtlTimeToTimeFields_roundtrip_witness :
  exists y m d h mi s ms r,
    RtlTimeToTimeFields 131174172123456789 = Ret (mkFields y m d h mi s ms (fixed_day y m d mod 7)) /\
    1 <= m <= 12 /\ 1 <= d <= month_days y m /\ 0 <= h < 24 /\ 0 <= mi < 60 /\ 0 <= s < 60 /\ 0 <= ms < 1000 /\ 0 <= r < 10000 /\
    131174172123456789 = ((fixed_day y m d - fixed_day 1601 1 1) * 86400 + h * 3600 + mi * 60 + s) * 10000000 + ms * 10000 + r /\
    RtlTimeFieldsToTime (mkFields y m d h mi s ms (fixed_day y m d mod 7)) = Ret (131174172123456789 - r).
Proof. apply (RtlTimeToTimeFields_roundtrip 131174172123456789). lia. Defined.

Lemma RtlTimeFieldsToTime_roundtrip_witness :
  exists t w, RtlTimeFieldsToTime (mkFields 2000 2 29 23 59 59 999 0) = Ret t /\ 0 <= t < 2 ^ 63 /\
    RtlTimeToTimeFields t = Ret (with_weekday (mkFields 2000 2 29 23 59 59 999 0) w).
Proof.
  apply (RtlTimeFieldsToTime_roundtrip (mkFields 2000 2 29 23 59 59 999 0)).
  split_and!; cbn; try lia; vm_compute; done.
Defined.

Lemma RtlSecondsSince_roundtrip_witness :
  RtlTimeToSecondsSince1970 (RtlSecondsSince1970ToTime 1234567890) = Ret (Some 1234567890) /\
  RtlTimeToSecondsSince1980 (RtlSecondsSince1980ToTime 1234567890) = Ret (Some 1234567890) /\
  RtlTimeToSecondsSince1970 99 = Ret (
    let d := 99 / TICKSPERSEC - SECS_1601_TO_1970 in
    if (0 <=? d) && (d <? 2 ^ 32) then Some d else None) /\
  RtlTimeToSecondsSince1980 99 = Ret (
    let d := 99 / TICKSPERSEC - SECS_1601_to_1980 in
    if (0 <=? d) && (d <? 2 ^ 32) then Some d else None).
Proof. apply (RtlSecondsSince_roundtrip 1234567890 99); [vm_compute; done|lia]. Defined.

Lemma AdjustEpoch_keeps_elapsed_witness :
  elapsed (mkTv 2000 700000) (fst (NT_getCurrentTimeAndAdjustEpoch (mkTv 2000 700000) (mkTv 1000 5) (mkTv 5000 3)))
    = elapsed (mkTv 5000 3) (mkTv 1000 5) /\
  snd (NT_getCurrentTimeAndAdjustEpoch (mkTv 2000 700000) (mkTv 1000 5) (mkTv 5000 3)) = mkTv 2000 700000.
Proof.
  apply (AdjustEpoch_keeps_elapsed (mkTv 2000 700000) (mkTv 1000 5) (mkTv 5000 3));
    try (split; cbn; lia); try (unfold usecs; cbn; lia).
Defined.

Lemma NtGetTickCount_monotone_witness :
  mkTv 1000 5 = mkTv 1000 5 /\ mkTv 1000 5 = mkTv 1000 5 /\ 4000 <= 4001 /\
  Z.abs (1000 * 4000 - elapsed (mkTv 1004 5) (mkTv 1000 5)) < 1000 /\
  Z.abs (1000 * 4001 - elapsed (mkTv 1004 1005) (mkTv 1000 5)) < 1000.
Proof.
  apply (NtGetTickCount_monotone (mkTv 1004 5) (mkTv 1004 1005) (mkTv 1000 5) (mkTv 1000 6)
    4000 (mkTv 1000 5) (mkTv 1004 5) 4001 (mkTv 1000 5) (mkTv 1004 1005));
    try (split; cbn; lia); try (unfold elapsed, usecs; cbn; lia); vm_compute; reflexivity.
Defined.

Lemma NtGetTickCount64_value_witness :
  (tv_usec (mkTv 1000 5) <= tv_usec (mkTv 1004 2) ->
     18446744073713551 = elapsed (mkTv 1004 2) (mkTv 1000 5) / 1000) /\
  (tv_usec (mkTv 1004 2) < tv_usec (mkTv 1000 5) ->
     elapsed (mkTv 1004 2) (mkTv 1000 5) / 1000 + 2 ^ 53 < 18446744073713551).
Proof.
  apply (NtGetTickCount64_value (mkTv 1004 2) (mkTv 1000 5) (mkTv 1003 0) 18446744073713551
    (mkTv 1000 5) (mkTv 1004 2)); try (split; cbn; lia); try (unfold usecs; cbn; lia).
Defined.

End NtTimeSpec.
