(* ===== verification/Acm.v ===== *)
(** * Audio compression drivers: shared data (include/mmreg.h, include/msacm.h,
    dlls/msacm)

    The wave formats, the stream and query structures the codec drivers are
    called with, 16-bit samples in byte buffers, and the search for a format
    in a driver's table. *)
From S2P Require Import Prelude.

Module Acm.

Definition WAVE_FORMAT_UNKNOWN : Z := 0.
Definition WAVE_FORMAT_PCM : Z := 1.
Definition WAVE_FORMAT_ADPCM : Z := 2.
Definition WAVE_FORMAT_ALAW : Z := 6.
Definition WAVE_FORMAT_MULAW : Z := 7.
Definition WAVE_FORMAT_IMA_ADPCM : Z := 17.
Definition MMSYSERR_NOERROR : Z := 0.
Definition MMSYSERR_NOMEM : Z := 7.
Definition MMSYSERR_NOTSUPPORTED : Z := 8.
Definition MMSYSERR_INVALPARAM : Z := 11.
Definition ACMERR_NOTPOSSIBLE : Z := 512.
Definition ACMDRIVERDETAILS_SUPPORTF_CODEC : Z := 1.
Definition ACM_FORMATTAGDETAILSF_INDEX : Z := 0.
Definition ACM_FORMATTAGDETAILSF_FORMATTAG : Z := 1.
Definition ACM_FORMATTAGDETAILSF_LARGESTSIZE : Z := 2.
Definition ACM_FORMATDETAILSF_INDEX : Z := 0.
Definition ACM_FORMATDETAILSF_FORMAT : Z := 1.
Definition ACM_FORMATSUGGESTF_WFORMATTAG : Z := 0x10000.
Definition ACM_FORMATSUGGESTF_NCHANNELS : Z := 0x20000.
Definition ACM_FORMATSUGGESTF_NSAMPLESPERSEC : Z := 0x40000.
Definition ACM_FORMATSUGGESTF_WBITSPERSAMPLE : Z := 0x80000.
Definition ACM_STREAMSIZEF_SOURCE : Z := 0.
Definition ACM_STREAMSIZEF_DESTINATION : Z := 1.
Definition ACM_STREAMCONVERTF_START : Z := 0x10.
(** sizes of the packed structures *)
Definition sizeof_PCMWAVEFORMAT : Z := 16.
Definition sizeof_WAVEFORMATEX : Z := 18.
Definition sizeof_IMAADPCMWAVEFORMAT : Z := 20.

(** A wave format.  [wSamplesPerBlock] is the field the ADPCM formats append
    to the structure. *)
Record WAVEFORMATEX := mkWfx {
  wFormatTag : Z; nChannels : Z; nSamplesPerSec : Z; nAvgBytesPerSec : Z;
  nBlockAlign : Z; wBitsPerSample : Z; cbSize : Z; wSamplesPerBlock : Z
}.

Definition set_wFormatTag v w :=
  mkWfx (u16 v) (nChannels w) (nSamplesPerSec w) (nAvgBytesPerSec w) (nBlockAlign w)
    (wBitsPerSample w) (cbSize w) (wSamplesPerBlock w).
Definition set_nChannels v w :=
  mkWfx (wFormatTag w) (u16 v) (nSamplesPerSec w) (nAvgBytesPerSec w) (nBlockAlign w)
    (wBitsPerSample w) (cbSize w) (wSamplesPerBlock w).
Definition set_nSamplesPerSec v w :=
  mkWfx (wFormatTag w) (nChannels w) (u32 v) (nAvgBytesPerSec w) (nBlockAlign w)
    (wBitsPerSample w) (cbSize w) (wSamplesPerBlock w).
Definition set_nAvgBytesPerSec v w :=
  mkWfx (wFormatTag w) (nChannels w) (nSamplesPerSec w) (u32 v) (nBlockAlign w)
    (wBitsPerSample w) (cbSize w) (wSamplesPerBlock w).
Definition set_nBlockAlign v w :=
  mkWfx (wFormatTag w) (nChannels w) (nSamplesPerSec w) (nAvgBytesPerSec w) (u16 v)
    (wBitsPerSample w) (cbSize w) (wSamplesPerBlock w).
Definition set_wBitsPerSample v w :=
  mkWfx (wFormatTag w) (nChannels w) (nSamplesPerSec w) (nAvgBytesPerSec w) (nBlockAlign w)
    (u16 v) (cbSize w) (wSamplesPerBlock w).
Definition set_cbSize v w :=
  mkWfx (wFormatTag w) (nChannels w) (nSamplesPerSec w) (nAvgBytesPerSec w) (nBlockAlign w)
    (wBitsPerSample w) (u16 v) (wSamplesPerBlock w).
Definition set_wSamplesPerBlock v w :=
  mkWfx (wFormatTag w) (nChannels w) (nSamplesPerSec w) (nAvgBytesPerSec w) (nBlockAlign w)
    (wBitsPerSample w) (cbSize w) (u16 v).

(** an entry of a driver's table: channels, bits, rate *)
Record Format := mkFormat { f_nChannels : Z; f_nBits : Z; f_rate : Z }.

(** the loop of GetFormatIndex over the table of a format tag *)
Fixpoint find_format (wfx : WAVEFORMATEX) (fmts : list Format) (i : Z) : Z :=
  match fmts with
  | [] => 0xFFFFFFFF
  | f :: fmts =>
    if (nChannels wfx =? f_nChannels f) && (nSamplesPerSec wfx =? f_rate f)
       && (wBitsPerSample wfx =? f_nBits f)
    then i else find_format wfx fmts (i + 1)
  end.

(** ACMFORMATTAGDETAILSW, the members the drivers use *)
Record ACMFORMATTAGDETAILSW := mkAftd {
  dwFormatTagIndex : Z; aftd_dwFormatTag : Z; cbFormatSize : Z; aftd_fdwSupport : Z;
  cStandardFormats : Z; szFormatTag : list Z
}.
Definition set_dwFormatTagIndex i d :=
  mkAftd i (aftd_dwFormatTag d) (cbFormatSize d) (aftd_fdwSupport d) (cStandardFormats d) (szFormatTag d).

(** ACMFORMATDETAILSW with the wave format it points to *)
Record ACMFORMATDETAILSW := mkAfd {
  dwFormatIndex : Z; afd_dwFormatTag : Z; afd_fdwSupport : Z; pwfx : WAVEFORMATEX;
  cbwfx : Z; szFormat : list Z
}.
Definition set_pwfx w d :=
  mkAfd (dwFormatIndex d) (afd_dwFormatTag d) (afd_fdwSupport d) w (cbwfx d) (szFormat d).

(** ACMDRVFORMATSUGGEST: the source format is only read *)
Record ACMDRVFORMATSUGGEST := mkAdfs {
  fdwSuggest : Z; adfs_pwfxSrc : WAVEFORMATEX; cbwfxSrc : Z;
  adfs_pwfxDst : WAVEFORMATEX; cbwfxDst : Z
}.
Definition set_adfs_pwfxDst w d :=
  mkAdfs (fdwSuggest d) (adfs_pwfxSrc d) (cbwfxSrc d) w (cbwfxDst d).

(** ACMDRVSTREAMSIZE *)
Record ACMDRVSTREAMSIZE := mkAdss { fdwSize : Z; cbSrcLength : Z; cbDstLength : Z }.

(** [(fdw & flag)] as a condition *)
Definition flag_set (fdw flag : Z) : bool := negb (Z.land fdw flag =? 0).

(** ** 16-bit samples in a byte buffer *)
Definition R16 (src : list Z) (i : Z) : outcome Z :=
  let! a := rd src i in
  let! b := rd src (i + 1) in
  Ret (s16 (Z.lor a (Z.shiftl b 8))).

Definition LOBYTE (w : Z) : Z := u8 (u16 w).
Definition HIBYTE (w : Z) : Z := u8 (Z.shiftr (u16 w) 8).

Definition W16 (dst : list Z) (i s : Z) : outcome (list Z) :=
  let! dst := wr dst i (LOBYTE s) in
  wr dst (i + 1) (HIBYTE s).

(** the bytes of a sample, low byte first *)
Definition sample_bytes (s : Z) : list Z := [LOBYTE s; HIBYTE s].

(** ** Lemmas on samples *)

Lemma length_samples ss : length (flat_map sample_bytes ss) = (2 * length ss)%nat.
Proof. induction ss as [|x ss IH]; [done|]. simpl. rewrite IH. lia. Qed.


Lemma W16_app pre x y post s i :
  i = zlen pre ->
  W16 (pre ++ x :: y :: post) i s = Ret (pre ++ LOBYTE s :: HIBYTE s :: post).
Proof.
  intros ->. unfold W16. rewrite wr_app by done. cbn [obind].
  rewrite (cons_middle (LOBYTE s)), (app_assoc pre), wr_app; [by rewrite <- app_assoc|].
  unfold zlen. rewrite length_app. simpl. lia.
Qed.

Lemma R16_app (pre : list Z) a b post i :
  i = zlen pre -> R16 (pre ++ a :: b :: post) i = Ret (s16 (Z.lor a (Z.shiftl b 8))).
Proof.
  intros ->. unfold R16. rewrite rd_app by done. cbn [obind].
  rewrite (cons_middle a), (app_assoc pre), rd_app; [done|].
  unfold zlen. rewrite length_app. simpl. lia.
Qed.

Lemma LOBYTE_isU s : isU 8 (LOBYTE s).
Proof. by apply wrapU_range. Qed.
Lemma HIBYTE_isU s : isU 8 (HIBYTE s).
Proof. by apply wrapU_range. Qed.
#[export] Hint Resolve LOBYTE_isU HIBYTE_isU : winex.

(** the two bytes of a sample, combined again *)
Lemma LOHI_sample s : isS 16 s -> s16 (Z.lor (LOBYTE s) (Z.shiftl (HIBYTE s) 8)) = s.
Proof.
  intros Hs. assert (Z.lor (LOBYTE s) (Z.shiftl (HIBYTE s) 8) = u16 s) as ->.
  { apply Z.bits_inj'. intros j Hj. unfold LOBYTE, HIBYTE.
    rewrite Z.lor_spec, Z.shiftl_spec, !wrapU_testbit by lia.
    destruct (Z.ltb_spec (j - 8) 0).
    - rewrite (Z.testbit_neg_r _ (j - 8)) by lia. zcases; by rewrite ?andb_false_r, ?orb_false_r.
    - rewrite Z.shiftr_spec by lia. replace (j - 8 + 8) with j by lia.
      rewrite wrapU_testbit by lia. zcases. }
  unfold wrapS, wrapU. rewrite Zmod_mod. apply (wrapS_small 16 s); [lia|done].
Qed.

Lemma W16_R16 dst i s :
  isS 16 s -> 0 <= i -> i + 1 < zlen dst ->
  exists dst', W16 dst i s = Ret dst' /\ zlen dst' = zlen dst /\ R16 dst' i = Ret s.
Proof.
  intros Hs Hi Hl. unfold W16. rewrite wr_in by lia. cbn [obind].
  rewrite wr_in by (rewrite zlen_insert; lia). eexists. split; [done|].
  rewrite !zlen_insert. split; [done|]. unfold R16.
  rewrite !(rd_in 0) by (rewrite !zlen_insert; lia). cbn [obind].
  rewrite !nthZ_insert by (rewrite ?zlen_insert; lia). zcases. f_equal. by apply LOHI_sample.
Qed.

End Acm.
