(* ===== verification/G711.v ===== *)
(** * The G.711 audio codec driver (dlls/msacm/msg711/msg711.c)

    A-law and u-law coding of 16-bit samples, the decoding tables, the direct
    conversions between the two laws, the six stream converters and the driver
    calls that describe, suggest and open formats and size and convert
    streams. *)
From S2P Require Import Prelude Acm.

Module G711.
Import Acm.

Definition PCM_Formats : list Format :=
  [mkFormat 1 16 8000; mkFormat 2 16 8000; mkFormat 1 16 11025; mkFormat 2 16 11025;
   mkFormat 1 16 22050; mkFormat 2 16 22050; mkFormat 1 16 44100; mkFormat 2 16 44100].
Definition ALaw_Formats : list Format :=
  [mkFormat 1 8 8000; mkFormat 2 8 8000; mkFormat 1 8 11025; mkFormat 2 8 11025;
   mkFormat 1 8 22050; mkFormat 2 8 22050; mkFormat 1 8 44100; mkFormat 2 8 44100].
Definition ULaw_Formats : list Format :=
  [mkFormat 1 8 8000; mkFormat 2 8 8000; mkFormat 1 8 11025; mkFormat 2 8 11025;
   mkFormat 1 8 22050; mkFormat 2 8 22050; mkFormat 1 8 44100; mkFormat 2 8 44100].

Definition G711_GetFormatIndex (wfx : WAVEFORMATEX) : Z :=
  if wFormatTag wfx =? WAVE_FORMAT_PCM then find_format wfx PCM_Formats 0
  else if wFormatTag wfx =? WAVE_FORMAT_ALAW then find_format wfx ALaw_Formats 0
  else if wFormatTag wfx =? WAVE_FORMAT_MULAW then find_format wfx ULaw_Formats 0
  else 0xFFFFFFFF.

(** ** Coding of one sample *)
Definition SIGN_BIT : Z := 0x80.
Definition QUANT_MASK : Z := 0xf.
Definition SEG_SHIFT : Z := 4.
Definition SEG_MASK : Z := 0x70.
Definition BIAS : Z := 0x84.
Definition CLIP : Z := 8159.

Definition seg_aend : list Z := [0x1F; 0x3F; 0x7F; 0xFF; 0x1FF; 0x3FF; 0x7FF; 0xFFF].
Definition seg_uend : list Z := [0x3F; 0x7F; 0xFF; 0x1FF; 0x3FF; 0x7FF; 0xFFF; 0x1FFF].

Definition _u2a : list Z :=
  [1; 1; 2; 2; 3; 3; 4; 4;
   5; 5; 6; 6; 7; 7; 8; 8;
   9; 10; 11; 12; 13; 14; 15; 16;
   17; 18; 19; 20; 21; 22; 23; 24;
   25; 27; 29; 31; 33; 34; 35; 36;
   37; 38; 39; 40; 41; 42; 43; 44;
   46; 48; 49; 50; 51; 52; 53; 54;
   55; 56; 57; 58; 59; 60; 61; 62;
   64; 65; 66; 67; 68; 69; 70; 71;
   72; 73; 74; 75; 76; 77; 78; 79;
   80; 82; 83; 84; 85; 86; 87; 88;
   89; 90; 91; 92; 93; 94; 95; 96;
   97; 98; 99; 100; 101; 102; 103; 104;
   105; 106; 107; 108; 109; 110; 111; 112;
   113; 114; 115; 116; 117; 118; 119; 120;
   121; 122; 123; 124; 125; 126; 127; 128].
Definition _a2u : list Z :=
  [1; 3; 5; 7; 9; 11; 13; 15;
   16; 17; 18; 19; 20; 21; 22; 23;
   24; 25; 26; 27; 28; 29; 30; 31;
   32; 32; 33; 33; 34; 34; 35; 35;
   36; 37; 38; 39; 40; 41; 42; 43;
   44; 45; 46; 47; 48; 48; 49; 49;
   50; 51; 52; 53; 54; 55; 56; 57;
   58; 59; 60; 61; 62; 63; 64; 64;
   65; 66; 67; 68; 69; 70; 71; 72;
   73; 74; 75; 76; 77; 78; 79; 80;
   80; 81; 82; 83; 84; 85; 86; 87;
   88; 89; 90; 91; 92; 93; 94; 95;
   96; 97; 98; 99; 100; 101; 102; 103;
   104; 105; 106; 107; 108; 109; 110; 111;
   112; 113; 114; 115; 116; 117; 118; 119;
   120; 121; 122; 123; 124; 125; 126; 127].

(** the loop of [search] from entry [i] on: the index of the first bound that
    is not below the value *)
Fixpoint search_from (val : Z) (table : list Z) (i : Z) : Z :=
  match table with
  | [] => i
  | t :: table => if val <=? t then i else search_from val table (i + 1)
  end.
Definition search (val : Z) (table : list Z) (size : Z) : Z :=
  search_from val (take (Z.to_nat size) table) 0.

Definition linear2alaw (pcm_val : Z) : Z :=
  let pcm_val := Z.shiftr pcm_val 3 in
  let '(mask, pcm_val) :=
    if 0 <=? pcm_val then (0xD5, pcm_val) else (0x55, - pcm_val - 1) in
  let seg := search pcm_val seg_aend 8 in
  if 8 <=? seg then u8 (Z.lxor 0x7F mask)
  else
    let aval := u8 (Z.shiftl seg SEG_SHIFT) in
    let aval :=
      if seg <? 2 then Z.lor aval (Z.land (Z.shiftr pcm_val 1) QUANT_MASK)
      else Z.lor aval (Z.land (Z.shiftr pcm_val seg) QUANT_MASK) in
    u8 (Z.lxor (u8 aval) mask).

(** the routine kept under NO_FASTDECODE, from which the table was made *)
Definition alaw2linear_routine (a_val : Z) : Z :=
  let a_val := u8 (Z.lxor a_val 0x55) in
  let t := Z.shiftl (Z.land a_val QUANT_MASK) 4 in
  let seg := Z.shiftr (Z.land a_val SEG_MASK) SEG_SHIFT in
  let t :=
    if seg =? 0 then t + 8
    else if seg =? 1 then t + 0x108
    else Z.shiftl (t + 0x108) (seg - 1) in
  if negb (Z.land a_val SIGN_BIT =? 0) then t else - t.

Definition _a2l : list Z :=
  [0xEA80; 0xEB80; 0xE880; 0xE980; 0xEE80; 0xEF80; 0xEC80; 0xED80;
   0xE280; 0xE380; 0xE080; 0xE180; 0xE680; 0xE780; 0xE480; 0xE580;
   0xF540; 0xF5C0; 0xF440; 0xF4C0; 0xF740; 0xF7C0; 0xF640; 0xF6C0;
   0xF140; 0xF1C0; 0xF040; 0xF0C0; 0xF340; 0xF3C0; 0xF240; 0xF2C0;
   0xAA00; 0xAE00; 0xA200; 0xA600; 0xBA00; 0xBE00; 0xB200; 0xB600;
   0x8A00; 0x8E00; 0x8200; 0x8600; 0x9A00; 0x9E00; 0x9200; 0x9600;
   0xD500; 0xD700; 0xD100; 0xD300; 0xDD00; 0xDF00; 0xD900; 0xDB00;
   0xC500; 0xC700; 0xC100; 0xC300; 0xCD00; 0xCF00; 0xC900; 0xCB00;
   0xFEA8; 0xFEB8; 0xFE88; 0xFE98; 0xFEE8; 0xFEF8; 0xFEC8; 0xFED8;
   0xFE28; 0xFE38; 0xFE08; 0xFE18; 0xFE68; 0xFE78; 0xFE48; 0xFE58;
   0xFFA8; 0xFFB8; 0xFF88; 0xFF98; 0xFFE8; 0xFFF8; 0xFFC8; 0xFFD8;
   0xFF28; 0xFF38; 0xFF08; 0xFF18; 0xFF68; 0xFF78; 0xFF48; 0xFF58;
   0xFAA0; 0xFAE0; 0xFA20; 0xFA60; 0xFBA0; 0xFBE0; 0xFB20; 0xFB60;
   0xF8A0; 0xF8E0; 0xF820; 0xF860; 0xF9A0; 0xF9E0; 0xF920; 0xF960;
   0xFD50; 0xFD70; 0xFD10; 0xFD30; 0xFDD0; 0xFDF0; 0xFD90; 0xFDB0;
   0xFC50; 0xFC70; 0xFC10; 0xFC30; 0xFCD0; 0xFCF0; 0xFC90; 0xFCB0;
   0x1580; 0x1480; 0x1780; 0x1680; 0x1180; 0x1080; 0x1380; 0x1280;
   0x1D80; 0x1C80; 0x1F80; 0x1E80; 0x1980; 0x1880; 0x1B80; 0x1A80;
   0x0AC0; 0x0A40; 0x0BC0; 0x0B40; 0x08C0; 0x0840; 0x09C0; 0x0940;
   0x0EC0; 0x0E40; 0x0FC0; 0x0F40; 0x0CC0; 0x0C40; 0x0DC0; 0x0D40;
   0x5600; 0x5200; 0x5E00; 0x5A00; 0x4600; 0x4200; 0x4E00; 0x4A00;
   0x7600; 0x7200; 0x7E00; 0x7A00; 0x6600; 0x6200; 0x6E00; 0x6A00;
   0x2B00; 0x2900; 0x2F00; 0x2D00; 0x2300; 0x2100; 0x2700; 0x2500;
   0x3B00; 0x3900; 0x3F00; 0x3D00; 0x3300; 0x3100; 0x3700; 0x3500;
   0x0158; 0x0148; 0x0178; 0x0168; 0x0118; 0x0108; 0x0138; 0x0128;
   0x01D8; 0x01C8; 0x01F8; 0x01E8; 0x0198; 0x0188; 0x01B8; 0x01A8;
   0x0058; 0x0048; 0x0078; 0x0068; 0x0018; 0x0008; 0x0038; 0x0028;
   0x00D8; 0x00C8; 0x00F8; 0x00E8; 0x0098; 0x0088; 0x00B8; 0x00A8;
   0x0560; 0x0520; 0x05E0; 0x05A0; 0x0460; 0x0420; 0x04E0; 0x04A0;
   0x0760; 0x0720; 0x07E0; 0x07A0; 0x0660; 0x0620; 0x06E0; 0x06A0;
   0x02B0; 0x0290; 0x02F0; 0x02D0; 0x0230; 0x0210; 0x0270; 0x0250;
   0x03B0; 0x0390; 0x03F0; 0x03D0; 0x0330; 0x0310; 0x0370; 0x0350].
Definition alaw2linear (a_val : Z) : outcome Z :=
  let! v := rd _a2l a_val in Ret (s16 v).

Definition linear2ulaw (pcm_val : Z) : Z :=
  let pcm_val := s16 (Z.shiftr pcm_val 2) in
  let '(pcm_val, mask) :=
    if pcm_val <? 0 then (s16 (- pcm_val), 0x7F) else (pcm_val, 0xFF) in
  let pcm_val := if CLIP <? pcm_val then CLIP else pcm_val in
  let pcm_val := s16 (pcm_val + Z.shiftr BIAS 2) in
  let seg := search pcm_val seg_uend 8 in
  if 8 <=? seg then u8 (Z.lxor 0x7F mask)
  else
    let uval := u8 (Z.lor (u8 (Z.shiftl seg 4)) (Z.land (Z.shiftr pcm_val (seg + 1)) 0xF)) in
    u8 (Z.lxor uval mask).

Definition ulaw2linear_routine (u_val : Z) : Z :=
  let u_val := u8 (Z.lnot u_val) in
  let t := s16 (Z.shiftl (Z.land u_val QUANT_MASK) 3 + BIAS) in
  let t := s16 (Z.shiftl t (Z.shiftr (Z.land u_val SEG_MASK) SEG_SHIFT)) in
  s16 (if negb (Z.land u_val SIGN_BIT =? 0) then BIAS - t else t - BIAS).

Definition _u2l : list Z :=
  [0x8284; 0x8684; 0x8A84; 0x8E84; 0x9284; 0x9684; 0x9A84; 0x9E84;
   0xA284; 0xA684; 0xAA84; 0xAE84; 0xB284; 0xB684; 0xBA84; 0xBE84;
   0xC184; 0xC384; 0xC584; 0xC784; 0xC984; 0xCB84; 0xCD84; 0xCF84;
   0xD184; 0xD384; 0xD584; 0xD784; 0xD984; 0xDB84; 0xDD84; 0xDF84;
   0xE104; 0xE204; 0xE304; 0xE404; 0xE504; 0xE604; 0xE704; 0xE804;
   0xE904; 0xEA04; 0xEB04; 0xEC04; 0xED04; 0xEE04; 0xEF04; 0xF004;
   0xF0C4; 0xF144; 0xF1C4; 0xF244; 0xF2C4; 0xF344; 0xF3C4; 0xF444;
   0xF4C4; 0xF544; 0xF5C4; 0xF644; 0xF6C4; 0xF744; 0xF7C4; 0xF844;
   0xF8A4; 0xF8E4; 0xF924; 0xF964; 0xF9A4; 0xF9E4; 0xFA24; 0xFA64;
   0xFAA4; 0xFAE4; 0xFB24; 0xFB64; 0xFBA4; 0xFBE4; 0xFC24; 0xFC64;
   0xFC94; 0xFCB4; 0xFCD4; 0xFCF4; 0xFD14; 0xFD34; 0xFD54; 0xFD74;
   0xFD94; 0xFDB4; 0xFDD4; 0xFDF4; 0xFE14; 0xFE34; 0xFE54; 0xFE74;
   0xFE8C; 0xFE9C; 0xFEAC; 0xFEBC; 0xFECC; 0xFEDC; 0xFEEC; 0xFEFC;
   0xFF0C; 0xFF1C; 0xFF2C; 0xFF3C; 0xFF4C; 0xFF5C; 0xFF6C; 0xFF7C;
   0xFF88; 0xFF90; 0xFF98; 0xFFA0; 0xFFA8; 0xFFB0; 0xFFB8; 0xFFC0;
   0xFFC8; 0xFFD0; 0xFFD8; 0xFFE0; 0xFFE8; 0xFFF0; 0xFFF8; 0x0000;
   0x7D7C; 0x797C; 0x757C; 0x717C; 0x6D7C; 0x697C; 0x657C; 0x617C;
   0x5D7C; 0x597C; 0x557C; 0x517C; 0x4D7C; 0x497C; 0x457C; 0x417C;
   0x3E7C; 0x3C7C; 0x3A7C; 0x387C; 0x367C; 0x347C; 0x327C; 0x307C;
   0x2E7C; 0x2C7C; 0x2A7C; 0x287C; 0x267C; 0x247C; 0x227C; 0x207C;
   0x1EFC; 0x1DFC; 0x1CFC; 0x1BFC; 0x1AFC; 0x19FC; 0x18FC; 0x17FC;
   0x16FC; 0x15FC; 0x14FC; 0x13FC; 0x12FC; 0x11FC; 0x10FC; 0x0FFC;
   0x0F3C; 0x0EBC; 0x0E3C; 0x0DBC; 0x0D3C; 0x0CBC; 0x0C3C; 0x0BBC;
   0x0B3C; 0x0ABC; 0x0A3C; 0x09BC; 0x093C; 0x08BC; 0x083C; 0x07BC;
   0x075C; 0x071C; 0x06DC; 0x069C; 0x065C; 0x061C; 0x05DC; 0x059C;
   0x055C; 0x051C; 0x04DC; 0x049C; 0x045C; 0x041C; 0x03DC; 0x039C;
   0x036C; 0x034C; 0x032C; 0x030C; 0x02EC; 0x02CC; 0x02AC; 0x028C;
   0x026C; 0x024C; 0x022C; 0x020C; 0x01EC; 0x01CC; 0x01AC; 0x018C;
   0x0174; 0x0164; 0x0154; 0x0144; 0x0134; 0x0124; 0x0114; 0x0104;
   0x00F4; 0x00E4; 0x00D4; 0x00C4; 0x00B4; 0x00A4; 0x0094; 0x0084;
   0x0078; 0x0070; 0x0068; 0x0060; 0x0058; 0x0050; 0x0048; 0x0040;
   0x0038; 0x0030; 0x0028; 0x0020; 0x0018; 0x0010; 0x0008; 0x0000].
Definition ulaw2linear (u_val : Z) : outcome Z :=
  let! v := rd _u2l u_val in Ret (s16 v).

Definition alaw2ulaw (aval : Z) : outcome Z :=
  let aval := Z.land aval 0xff in
  if negb (Z.land aval 0x80 =? 0)
  then let! v := rd _a2u (Z.lxor aval 0xD5) in Ret (u8 (Z.lxor 0xFF v))
  else let! v := rd _a2u (Z.lxor aval 0x55) in Ret (u8 (Z.lxor 0x7F v)).

Definition ulaw2alaw (uval : Z) : outcome Z :=
  let uval := Z.land uval 0xff in
  if negb (Z.land uval 0x80 =? 0)
  then let! v := rd _u2a (Z.lxor 0xFF uval) in Ret (u8 (Z.lxor 0xD5 (v - 1)))
  else let! v := rd _u2a (Z.lxor 0x7F uval) in Ret (u8 (Z.lxor 0x55 (v - 1))).

(** ** Stream conversion

    The source and the destination are distinct buffers; a converter returns
    the new destination with the sizes it stores back in [*srcsize] and
    [*dstsize]. *)
Section Loops.
Variable src : list Z.

(** decoding: one byte in, one sample out *)
Fixpoint loop_decode (f : Z -> outcome Z) (n : nat) (si di : Z) (dst : list Z) : outcome (list Z) :=
  match n with
  | O => Ret dst
  | S n =>
    let! c := rd src si in
    let! w := f c in
    let! dst := W16 dst di (s16 w) in
    loop_decode f n (si + 1) (di + 2) dst
  end.

(** encoding: one sample in, one byte out *)
Fixpoint loop_encode (f : Z -> Z) (n : nat) (si di : Z) (dst : list Z) : outcome (list Z) :=
  match n with
  | O => Ret dst
  | S n =>
    let! s := R16 src si in
    let! dst := wr dst di (f s) in
    loop_encode f n (si + 2) (di + 1) dst
  end.

(** one byte in, one byte out *)
Fixpoint loop_recode (f : Z -> outcome Z) (n : nat) (si di : Z) (dst : list Z) : outcome (list Z) :=
  match n with
  | O => Ret dst
  | S n =>
    let! c := rd src si in
    let! w := f c in
    let! dst := wr dst di w in
    loop_recode f n (si + 1) (di + 1) dst
  end.
End Loops.

Definition cvtXXalaw16K (src : list Z) (srcsize : Z) (dst : list Z) (dstsize : Z) :
    outcome (list Z * Z * Z) :=
  let len := Z.min srcsize (dstsize / 2) in
  let! dst := loop_decode src alaw2linear (Z.to_nat len) 0 0 dst in
  Ret (dst, len, u32 (len * 2)).

Definition cvtXX16alawK (src : list Z) (srcsize : Z) (dst : list Z) (dstsize : Z) :
    outcome (list Z * Z * Z) :=
  let len := Z.min (srcsize / 2) dstsize in
  let! dst := loop_encode src linear2alaw (Z.to_nat len) 0 0 dst in
  Ret (dst, u32 (len * 2), len).

Definition cvtXXulaw16K (src : list Z) (srcsize : Z) (dst : list Z) (dstsize : Z) :
    outcome (list Z * Z * Z) :=
  let len := Z.min srcsize (dstsize / 2) in
  let! dst := loop_decode src ulaw2linear (Z.to_nat len) 0 0 dst in
  Ret (dst, len, u32 (len * 2)).

Definition cvtXX16ulawK (src : list Z) (srcsize : Z) (dst : list Z) (dstsize : Z) :
    outcome (list Z * Z * Z) :=
  let len := Z.min (srcsize / 2) dstsize in
  let! dst := loop_encode src linear2ulaw (Z.to_nat len) 0 0 dst in
  Ret (dst, u32 (len * 2), len).

Definition cvtXXalawulawK (src : list Z) (srcsize : Z) (dst : list Z) (dstsize : Z) :
    outcome (list Z * Z * Z) :=
  let len := Z.min srcsize dstsize in
  let! dst := loop_recode src alaw2ulaw (Z.to_nat len) 0 0 dst in
  Ret (dst, len, len).

Definition cvtXXulawalawK (src : list Z) (srcsize : Z) (dst : list Z) (dstsize : Z) :
    outcome (list Z * Z * Z) :=
  let len := Z.min srcsize dstsize in
  let! dst := loop_recode src ulaw2alaw (Z.to_nat len) 0 0 dst in
  Ret (dst, len, len).

(** ** The driver *)

(** the values of the [convert] pointer of AcmG711Data *)
Inductive converter :=
  | K_alaw16 | K_16alaw | K_ulaw16 | K_16ulaw | K_alawulaw | K_ulawalaw.
#[global] Instance converter_eq_dec : EqDecision converter.
Proof. solve_decision. Defined.

Definition convert (k : converter) :=
  match k with
  | K_alaw16 => cvtXXalaw16K
  | K_16alaw => cvtXX16alawK
  | K_ulaw16 => cvtXXulaw16K
  | K_16ulaw => cvtXX16ulawK
  | K_alawulaw => cvtXXalawulawK
  | K_ulawalaw => cvtXXulawalawK
  end.

(** ACMDRVSTREAMINSTANCE; [dwDriver] is null or points to the driver data *)
Record instance := mkInst { pwfxSrc : WAVEFORMATEX; pwfxDst : WAVEFORMATEX; dwDriver : option converter }.

Definition szPcm : list Z := [80; 67; 77; 0].
Definition szALaw : list Z := [65; 45; 76; 97; 119; 0].
Definition szULaw : list Z := [85; 45; 76; 97; 119; 0].

(** the second switch: the description of the tag at the index *)
Definition G711_describe_tag (d : ACMFORMATTAGDETAILSW) : ACMFORMATTAGDETAILSW :=
  let i := dwFormatTagIndex d in
  let sup := ACMDRIVERDETAILS_SUPPORTF_CODEC in
  if i =? 0 then mkAftd i WAVE_FORMAT_PCM sizeof_PCMWAVEFORMAT sup (zlen PCM_Formats) szPcm
  else if i =? 1 then mkAftd i WAVE_FORMAT_ALAW sizeof_WAVEFORMATEX sup (zlen ALaw_Formats) szALaw
  else if i =? 2 then mkAftd i WAVE_FORMAT_MULAW sizeof_WAVEFORMATEX sup (zlen ULaw_Formats) szULaw
  else mkAftd i (aftd_dwFormatTag d) (cbFormatSize d) sup (cStandardFormats d) (szFormatTag d).

Definition G711_FormatTagDetails (d : ACMFORMATTAGDETAILSW) (dwQuery : Z) :
    ACMFORMATTAGDETAILSW * Z :=
  let by_tag :=
    if aftd_dwFormatTag d =? WAVE_FORMAT_PCM then Some (set_dwFormatTagIndex 0 d)
    else if aftd_dwFormatTag d =? WAVE_FORMAT_ALAW then Some (set_dwFormatTagIndex 1 d)
    else if aftd_dwFormatTag d =? WAVE_FORMAT_MULAW then Some (set_dwFormatTagIndex 2 d)
    else None in
  let answer r :=
    match r with
    | Some d => (G711_describe_tag d, MMSYSERR_NOERROR)
    | None => (d, ACMERR_NOTPOSSIBLE)
    end in
  if dwQuery =? ACM_FORMATTAGDETAILSF_INDEX then
    answer (if 3 <=? dwFormatTagIndex d then None else Some d)
  else if dwQuery =? ACM_FORMATTAGDETAILSF_LARGESTSIZE then
    answer (if aftd_dwFormatTag d =? WAVE_FORMAT_UNKNOWN
            then Some (set_dwFormatTagIndex 1 d) else by_tag)
  else if dwQuery =? ACM_FORMATTAGDETAILSF_FORMATTAG then answer by_tag
  else (d, MMSYSERR_NOTSUPPORTED).

(** the fields of the wave format copied from entry [i] of a table *)
Definition from_table (fmts : list Format) (i : Z) (w : WAVEFORMATEX) : outcome WAVEFORMATEX :=
  let! f := rd fmts i in
  Ret (set_wBitsPerSample (f_nBits f)
        (set_nSamplesPerSec (f_rate f) (set_nChannels (f_nChannels f) w))).

(** the cases WAVE_FORMAT_ALAW and WAVE_FORMAT_MULAW, on their table *)
Definition law_details (fmts : list Format) (i : Z) (w : WAVEFORMATEX) : outcome WAVEFORMATEX :=
  let! w := from_table fmts i w in
  let! f := rd fmts i in
  let w := set_nBlockAlign (f_nChannels f) w in
  let w := set_nAvgBytesPerSec (nSamplesPerSec w * nChannels w) w in
  Ret (set_cbSize 0 w).

Definition G711_FormatDetails (afd : ACMFORMATDETAILSW) (dwQuery : Z) :
    outcome (ACMFORMATDETAILSW * Z) :=
  let done afd :=
    Ret (mkAfd (dwFormatIndex afd) (afd_dwFormatTag afd) ACMDRIVERDETAILS_SUPPORTF_CODEC
           (pwfx afd) (cbwfx afd) (0 :: tail (szFormat afd)), MMSYSERR_NOERROR) in
  if dwQuery =? ACM_FORMATDETAILSF_FORMAT then
    if G711_GetFormatIndex (pwfx afd) =? 0xFFFFFFFF then Ret (afd, ACMERR_NOTPOSSIBLE)
    else done afd
  else if dwQuery =? ACM_FORMATDETAILSF_INDEX then
    let afd := set_pwfx (set_wFormatTag (afd_dwFormatTag afd) (pwfx afd)) afd in
    let i := dwFormatIndex afd in
    if afd_dwFormatTag afd =? WAVE_FORMAT_PCM then
      if zlen PCM_Formats <=? i then Ret (afd, ACMERR_NOTPOSSIBLE) else
      let! w := from_table PCM_Formats i (pwfx afd) in
      let w := set_nBlockAlign (nChannels w * 2) w in
      done (set_pwfx (set_nAvgBytesPerSec (nSamplesPerSec w * nBlockAlign w) w) afd)
    else if afd_dwFormatTag afd =? WAVE_FORMAT_ALAW then
      if zlen ALaw_Formats <=? i then Ret (afd, ACMERR_NOTPOSSIBLE) else
      let! w := law_details ALaw_Formats i (pwfx afd) in done (set_pwfx w afd)
    else if afd_dwFormatTag afd =? WAVE_FORMAT_MULAW then
      if zlen ULaw_Formats <=? i then Ret (afd, ACMERR_NOTPOSSIBLE) else
      let! w := law_details ULaw_Formats i (pwfx afd) in done (set_pwfx w afd)
    else Ret (afd, MMSYSERR_INVALPARAM)
  else Ret (afd, MMSYSERR_NOTSUPPORTED).

(** the destination format filled in where the caller made no suggestion *)
Definition G711_suggested (adfs : ACMDRVFORMATSUGGEST) : WAVEFORMATEX :=
  let s := adfs_pwfxSrc adfs in
  let keep f := flag_set (fdwSuggest adfs) f in
  let d := adfs_pwfxDst adfs in
  let d := if keep ACM_FORMATSUGGESTF_NCHANNELS then d else set_nChannels (nChannels s) d in
  let d := if keep ACM_FORMATSUGGESTF_NSAMPLESPERSEC then d
           else set_nSamplesPerSec (nSamplesPerSec s) d in
  let d := if keep ACM_FORMATSUGGESTF_WBITSPERSAMPLE then d
           else if wFormatTag s =? WAVE_FORMAT_PCM then set_wBitsPerSample 8 d
           else set_wBitsPerSample 16 d in
  if keep ACM_FORMATSUGGESTF_WFORMATTAG then d
  else if wFormatTag s =? WAVE_FORMAT_PCM then set_wFormatTag WAVE_FORMAT_ALAW d
  else if wFormatTag s =? WAVE_FORMAT_ALAW then set_wFormatTag WAVE_FORMAT_PCM d
  else if wFormatTag s =? WAVE_FORMAT_MULAW then set_wFormatTag WAVE_FORMAT_PCM d
  else d.

Definition G711_FormatSuggest (adfs : ACMDRVFORMATSUGGEST) : ACMDRVFORMATSUGGEST * Z :=
  let s := adfs_pwfxSrc adfs in
  if (cbwfxSrc adfs <? sizeof_PCMWAVEFORMAT) || (cbwfxDst adfs <? sizeof_PCMWAVEFORMAT)
     || (G711_GetFormatIndex s =? 0xFFFFFFFF)
  then (adfs, ACMERR_NOTPOSSIBLE) else
  let d := G711_suggested adfs in
  if G711_GetFormatIndex d =? 0xFFFFFFFF
  then (set_adfs_pwfxDst d adfs, ACMERR_NOTPOSSIBLE) else
  let d :=
    if wFormatTag d =? WAVE_FORMAT_PCM then
      let d := set_nBlockAlign (nChannels d) d in
      set_nAvgBytesPerSec (nSamplesPerSec d * nBlockAlign d) d
    else if (wFormatTag d =? WAVE_FORMAT_ALAW) || (wFormatTag d =? WAVE_FORMAT_MULAW) then
      let d := set_nBlockAlign (nChannels d * 2) d in
      set_nAvgBytesPerSec (nSamplesPerSec d * nChannels s * 2) d
    else d in
  (set_adfs_pwfxDst d adfs, MMSYSERR_NOERROR).

(** StreamOpen: [alloc] is whether HeapAlloc succeeds.  The chain of [else if]
    is the source's, its fifth test included. *)
Definition G711_StreamOpen (adsi : instance) (alloc : bool) : instance * Z :=
  let s := pwfxSrc adsi in
  let d := pwfxDst adsi in
  let is_tags a b := (wFormatTag s =? a) && (wFormatTag d =? b) in
  let differ := negb (nSamplesPerSec s =? nSamplesPerSec d) || negb (nChannels s =? nChannels d) in
  let theEnd := (mkInst s d None, MMSYSERR_NOTSUPPORTED) in
  let ok k := (mkInst s d (Some k), MMSYSERR_NOERROR) in
  if (G711_GetFormatIndex s =? 0xFFFFFFFF) || (G711_GetFormatIndex d =? 0xFFFFFFFF)
  then (adsi, ACMERR_NOTPOSSIBLE)
  else if negb alloc then (adsi, MMSYSERR_NOMEM)
  else if is_tags WAVE_FORMAT_PCM WAVE_FORMAT_PCM then theEnd
  else if is_tags WAVE_FORMAT_ALAW WAVE_FORMAT_PCM then
    if differ || negb (wBitsPerSample d =? 16) then theEnd else ok K_alaw16
  else if is_tags WAVE_FORMAT_PCM WAVE_FORMAT_ALAW then
    if differ || negb (wBitsPerSample s =? 16) then theEnd else ok K_16alaw
  else if is_tags WAVE_FORMAT_MULAW WAVE_FORMAT_PCM then
    if differ || negb (wBitsPerSample d =? 16) then theEnd else ok K_ulaw16
  else if is_tags WAVE_FORMAT_PCM WAVE_FORMAT_ALAW then
    if differ || negb (wBitsPerSample s =? 16) then theEnd else ok K_16ulaw
  else if is_tags WAVE_FORMAT_MULAW WAVE_FORMAT_ALAW then
    if differ then theEnd else ok K_ulawalaw
  else if is_tags WAVE_FORMAT_ALAW WAVE_FORMAT_MULAW then
    if differ then theEnd else ok K_alawulaw
  else theEnd.

Definition is_law (w : WAVEFORMATEX) : bool :=
  (wFormatTag w =? WAVE_FORMAT_ALAW) || (wFormatTag w =? WAVE_FORMAT_MULAW).

Definition G711_StreamSize (adsi : instance) (adss : ACMDRVSTREAMSIZE) : ACMDRVSTREAMSIZE * Z :=
  let s := pwfxSrc adsi in
  let d := pwfxDst adsi in
  let pcm w := wFormatTag w =? WAVE_FORMAT_PCM in
  if fdwSize adss =? ACM_STREAMSIZEF_DESTINATION then
    let res n := (mkAdss (fdwSize adss) (u32 n) (cbDstLength adss), MMSYSERR_NOERROR) in
    if pcm s && is_law d then res (cbDstLength adss / 2)
    else if is_law s && pcm d then res (cbDstLength adss * 2)
    else if is_law s && is_law d then res (cbDstLength adss)
    else (adss, MMSYSERR_NOTSUPPORTED)
  else if fdwSize adss =? ACM_STREAMSIZEF_SOURCE then
    let res n := (mkAdss (fdwSize adss) (cbSrcLength adss) (u32 n), MMSYSERR_NOERROR) in
    if pcm s && is_law d then res (cbSrcLength adss * 2)
    else if is_law s && pcm d then res (cbSrcLength adss / 2)
    else if is_law s && is_law d then res (cbSrcLength adss)
    else (adss, MMSYSERR_NOTSUPPORTED)
  else (adss, MMSYSERR_NOTSUPPORTED).

(** StreamConvert: the bytes consumed and produced are the lengths used; a
    null driver pointer is followed *)
Definition G711_StreamConvert (adsi : instance) (src : list Z) (cbSrc : Z) (dst : list Z) (cbDst : Z) :
    outcome (list Z * Z * Z) :=
  match dwDriver adsi with
  | Some k => convert k src cbSrc dst cbDst
  | None => Fault
  end.

End G711.
