(* ===== verification/G711Spec.v ===== *)
(** * Properties of the G.711 codec driver *)
From S2P Require Import Prelude Acm G711.

Module G711Spec.
Import Acm G711.

#[local] Opaque alaw2linear ulaw2linear linear2alaw linear2ulaw alaw2ulaw ulaw2alaw.

(** ** One sample *)
Definition ret_Z (m : outcome Z) (z : Z) : bool :=
  match m with Ret x => x =? z | _ => false end.

Lemma ret_Z_true m z : ret_Z m z = true -> m = Ret z.
Proof. destruct m as [x| |]; simpl; try done. intros H%Z.eqb_eq. by subst. Qed.

Definition dec (m : outcome Z) : Z := match m with Ret x => x | _ => 0 end.

(** the decoding tables are exactly the routines they were generated from,
    for every code; so a decoder never reads outside its table. *)
Theorem decode_tables_exact c :
  isU 8 c ->
  alaw2linear c = Ret (alaw2linear_routine c) /\ ulaw2linear c = Ret (ulaw2linear_routine c).
Proof.
  intros Hc.
  assert (all_below 256 (fun c => ret_Z (alaw2linear c) (alaw2linear_routine c) &&
    ret_Z (ulaw2linear c) (ulaw2linear_routine c)) = true) as H by (vm_compute; reflexivity).
  pose proof (all_below_spec _ _ H c Hc) as E. cbv beta in E. clear H. zhyps. split; by apply ret_Z_true.
Qed.

(** encoding what a code decodes to gives the code back, for every A-law
    code and for every u-law code but negative zero (0x7F), which comes back as
    positive zero (0xFF). *)
Theorem law_code_roundtrip c :
  isU 8 c ->
  (exists s, alaw2linear c = Ret s /\ isS 16 s /\ linear2alaw s = c) /\
  (exists s, ulaw2linear c = Ret s /\ isS 16 s /\
     linear2ulaw s = if c =? 0x7F then 0xFF else c).
Proof.
  intros Hc.
  assert (all_below 256 (fun c =>
    match alaw2linear c, ulaw2linear c with
    | Ret a, Ret u =>
      ((- 32768 <=? a) && (a <? 32768) && (linear2alaw a =? c)) &&
      ((- 32768 <=? u) && (u <? 32768) && (linear2ulaw u =? if c =? 0x7F then 0xFF else c))
    | _, _ => false
    end) = true) as H by (vm_compute; reflexivity).
  pose proof (all_below_spec _ _ H c Hc) as E. cbv beta in E. clear H.
  destruct (alaw2linear c) as [a| |]; try done. destruct (ulaw2linear c) as [u| |]; try done.
  zhyps. split; eexists; (split; [done|split; [unfold isS; cbn; lia|done]]).
Qed.

(** an exhaustive check over the integers from [x] on, for large ranges *)
Fixpoint all_from (n : nat) (x : Z) (P : Z -> bool) : bool :=
  match n with O => true | S n => P x && all_from n (x + 1) P end.

Lemma all_from_spec n x P :
  all_from n x P = true -> forall y, x <= y < x + Z.of_nat n -> P y = true.
Proof.
  revert x. induction n as [|n IH]; intros x H y Hy; [lia|].
  cbn [all_from] in H. zhyps. destruct (decide (y = x)) as [->|]; [done|].
  apply (IH (x + 1)); [done|lia].
Qed.

(** the encoders look at the sample without its low 3 (A-law) or 2 (u-law) bits *)
Lemma linear2alaw_high s : linear2alaw s = linear2alaw (8 * (s / 8)).
Proof.
  Transparent linear2alaw. unfold linear2alaw. rewrite !Z.shiftr_div_pow2 by lia. change (2 ^ 3) with 8.
  by rewrite (Z.mul_comm 8 (s / 8)), Z.div_mul.
Qed.
Lemma linear2ulaw_high s : linear2ulaw s = linear2ulaw (4 * (s / 4)).
Proof.
  Transparent linear2ulaw. unfold linear2ulaw. rewrite !(Z.shiftr_div_pow2 _ 2) by lia. change (2 ^ 2) with 4.
  by rewrite (Z.mul_comm 4 (s / 4)), Z.div_mul.
Qed.

(** a block of samples with the same high bits decodes within the bound when
    its two ends do *)
Definition near (v s : Z) : bool := Z.abs (v - s) <=? 8 + Z.abs s / 32.

Lemma near_between v a b s :
  near v a = true -> near v b = true -> a <= s <= b -> 0 <= a \/ b < 0 -> near v s = true.
Proof.
  unfold near. intros Ha Hb Hs Hsign. zhyps. apply Z.leb_le.
  Z.to_euclidean_division_equations. lia.
Qed.

Definition alaw_near (k : Z) : bool :=
  let v := dec (alaw2linear (linear2alaw (8 * k))) in near v (8 * k) && near v (8 * k + 7).
Definition ulaw_near (k : Z) : bool :=
  let v := dec (ulaw2linear (linear2ulaw (4 * k))) in near v (4 * k) && near v (4 * k + 3).

Lemma alaw_near_all : all_from (Z.to_nat 8192) (-4096) alaw_near = true.
Proof. vm_compute. reflexivity. Qed.
Lemma ulaw_near_all : all_from (Z.to_nat 16384) (-8192) ulaw_near = true.
Proof. vm_compute. reflexivity. Qed.

Lemma law_total c :
  isU 8 c -> exists a u, alaw2linear c = Ret a /\ ulaw2linear c = Ret u /\ isS 16 a /\ isS 16 u.
Proof.
  intros Hc. Transparent alaw2linear ulaw2linear. unfold alaw2linear, ulaw2linear.
  rewrite !(rd_in 0) by done. do 2 eexists. split_and!; [done..| |]; by apply wrapS_range.
Qed.
Opaque alaw2linear ulaw2linear.

Lemma linear2alaw_isU s : isU 8 (linear2alaw s).
Proof. unfold linear2alaw. repeat case_match; by apply wrapU_range. Qed.
Lemma linear2ulaw_isU s : isU 8 (linear2ulaw s).
Proof. unfold linear2ulaw. repeat case_match; by apply wrapU_range. Qed.
#[export] Hint Resolve linear2alaw_isU linear2ulaw_isU : winex.
#[local] Opaque linear2alaw linear2ulaw.

(** for every 16-bit sample, encoding and decoding gives a sample within
    8 + |s|/32 of it, in either law. *)
Theorem law_quantisation s :
  isS 16 s ->
  (exists v, alaw2linear (linear2alaw s) = Ret v /\ Z.abs (v - s) <= 8 + Z.abs s / 32) /\
  (exists v, ulaw2linear (linear2ulaw s) = Ret v /\ Z.abs (v - s) <= 8 + Z.abs s / 32).
Proof.
  intros Hs. unfold isS in Hs. cbn in Hs.
  destruct (law_total (linear2alaw s)) as (a & _ & Ea & _); [auto with winex|].
  destruct (law_total (linear2ulaw s)) as (_ & u & _ & Eu & _); [auto with winex|].
  split; [exists a|exists u]; (split; [done|]); apply Z.leb_le.
  - pose proof (all_from_spec _ _ _ alaw_near_all (s / 8) ltac:(rewrite Z2Nat.id; dlia)) as H.
    unfold alaw_near in H. rewrite <- linear2alaw_high, Ea in H. cbn [dec] in H. zhyps.
    apply (near_between _ (8 * (s / 8)) (8 * (s / 8) + 7)); [done..|dlia|dlia].
  - pose proof (all_from_spec _ _ _ ulaw_near_all (s / 4) ltac:(rewrite Z2Nat.id; dlia)) as H.
    unfold ulaw_near in H. rewrite <- linear2ulaw_high, Eu in H. cbn [dec] in H. zhyps.
    apply (near_between _ (4 * (s / 4)) (4 * (s / 4) + 3)); [done..|dlia|dlia].
Qed.

(** ** Streams *)
Lemma loop_decode_spec f g cs sp sr dp dm dr :
  (forall c, isU 8 c -> f c = Ret (g c) /\ isS 16 (g c)) -> bytes cs ->
  length dm = (2 * length cs)%nat ->
  loop_decode (sp ++ cs ++ sr) f (length cs) (zlen sp) (zlen dp) (dp ++ dm ++ dr)
    = Ret (dp ++ flat_map (fun c => sample_bytes (g c)) cs ++ dr).
Proof.
  intros Hf. revert sp dp dm. induction cs as [|c cs IH]; intros sp dp dm Hc Hm.
  { destruct dm; [done|simpl in Hm; lia]. }
  destruct dm as [|x [|y dm]]; simpl in Hm; try lia. inversion Hc; subst.
  cbn [loop_decode length app]. rewrite rd_app by done. cbn [obind].
  destruct (Hf c) as [-> Hg]; [done|]. cbn [obind]. rewrite (wrapS_small 16 (g c)) by (lia || done).
  rewrite W16_app by done. cbn [obind flat_map sample_bytes app].
  specialize (IH (sp ++ [c]) (dp ++ [LOBYTE (g c); HIBYTE (g c)]) dm).
  rewrite !zlen_app, <- !app_assoc in IH. apply IH; [done|lia].
Qed.

Lemma loop_encode_spec f cs ss sp sr dp dm dr :
  Forall (isS 16) ss -> cs = flat_map sample_bytes ss ->
  length dm = length ss ->
  loop_encode (sp ++ cs ++ sr) f (length ss) (zlen sp) (zlen dp) (dp ++ dm ++ dr)
    = Ret (dp ++ map f ss ++ dr).
Proof.
  intros Hs ->. revert sp dp dm. induction Hs as [|s ss Hs Hss IH]; intros sp dp dm Hm.
  { destruct dm; [done|simpl in Hm; lia]. }
  destruct dm as [|x dm]; simpl in Hm; try lia.
  cbn [loop_encode length flat_map sample_bytes app]. rewrite R16_app by done. cbn [obind].
  rewrite LOHI_sample, wr_app by done. cbn [obind map app].
  specialize (IH (sp ++ [LOBYTE s; HIBYTE s]) (dp ++ [f s]) dm).
  rewrite !zlen_app, <- !app_assoc in IH. apply IH. lia.
Qed.

Lemma loop_decode_all f g src dst len :
  (forall c, isU 8 c -> f c = Ret (g c) /\ isS 16 (g c)) -> bytes src ->
  0 <= len <= zlen src -> 2 * len <= zlen dst ->
  loop_decode src f (Z.to_nat len) 0 0 dst
    = Ret (flat_map (fun c => sample_bytes (g c)) (take (Z.to_nat len) src)
           ++ drop (2 * Z.to_nat len) dst).
Proof.
  intros Hf Hb Hl Hd. unfold zlen in *.
  pose proof (loop_decode_spec f g (take (Z.to_nat len) src) [] (drop (Z.to_nat len) src)
    [] (take (2 * Z.to_nat len) dst) (drop (2 * Z.to_nat len) dst) Hf) as H.
  rewrite !app_nil_l, !take_drop, !length_take, !Nat.min_l in H by lia.
  apply H; [by apply Forall_take|lia].
Qed.

Lemma loop_encode_all f ss src dst :
  Forall (isS 16) ss -> src = flat_map sample_bytes ss -> zlen ss <= zlen dst ->
  loop_encode src f (length ss) 0 0 dst = Ret (map f ss ++ drop (length ss) dst).
Proof.
  intros Hs -> Hd. unfold zlen in *.
  pose proof (loop_encode_spec f _ ss [] [] [] (take (length ss) dst) (drop (length ss) dst)
    Hs eq_refl) as H.
  rewrite !app_nil_l, app_nil_r, take_drop in H. apply H. rewrite length_take. lia.
Qed.

Lemma law_decoders c :
  isU 8 c ->
  (alaw2linear c = Ret (dec (alaw2linear c)) /\ isS 16 (dec (alaw2linear c))) /\
  (ulaw2linear c = Ret (dec (ulaw2linear c)) /\ isS 16 (dec (ulaw2linear c))).
Proof. intros Hc. by destruct (law_total c Hc) as (a & u & -> & -> & Ha & Hu). Qed.

(** the two decoding converters, on buffers of any sizes, stay inside both
    buffers, consume as many bytes as there is room for samples, write the
    decoded samples in order and leave the rest of the destination alone. *)
Theorem G711_decode_stream src srcsize dst dstsize :
  bytes src -> 0 <= srcsize <= zlen src -> 0 <= dstsize <= zlen dst -> zlen dst < 2 ^ 32 ->
  let len := Z.min srcsize (dstsize / 2) in
  let out f := flat_map (fun c => sample_bytes (dec (f c))) (take (Z.to_nat len) src)
                 ++ drop (2 * Z.to_nat len) dst in
  cvtXXalaw16K src srcsize dst dstsize = Ret (out alaw2linear, len, 2 * len) /\
  cvtXXulaw16K src srcsize dst dstsize = Ret (out ulaw2linear, len, 2 * len).
Proof.
  intros Hb Hs Hd Hw len out. assert (0 <= len <= zlen src /\ 2 * len <= zlen dst) as [Hl Hm].
  { unfold len. dlia. }
  unfold cvtXXalaw16K, cvtXXulaw16K. fold len.
  rewrite (loop_decode_all alaw2linear (fun c => dec (alaw2linear c)) src dst len)
    by (done || (intros; by apply law_decoders)).
  rewrite (loop_decode_all ulaw2linear (fun c => dec (ulaw2linear c)) src dst len)
    by (done || (intros; by apply law_decoders)).
  cbn [obind]. rewrite wrapU_small by (unfold isU; lia).
  by replace (len * 2) with (2 * len) by lia.
Qed.

Lemma flat_map_samples (g : Z -> Z) cs :
  flat_map (fun c => sample_bytes (g c)) cs = flat_map sample_bytes (map g cs).
Proof. induction cs as [|c cs IH]; [done|]. simpl. by rewrite IH. Qed.

(** a whole buffer decoded and encoded again, for a coder that inverts the
    decoder up to [fix_] *)
Lemma recode_stream f (e fix_ : Z -> Z) src pcm out :
  (forall c, isU 8 c -> f c = Ret (dec (f c)) /\ isS 16 (dec (f c)) /\ e (dec (f c)) = fix_ c) ->
  bytes src -> zlen pcm = 2 * zlen src -> zlen out = zlen src ->
  exists pcm', loop_decode src f (length src) 0 0 pcm = Ret pcm' /\
    loop_encode pcm' e (length src) 0 0 out = Ret (map fix_ src).
Proof.
  intros Hf Hb Hp Ho. eexists. split.
  - pose proof (loop_decode_all f (fun c => dec (f c)) src pcm (zlen src)) as H.
    unfold zlen in *. rewrite Nat2Z.id, take_ge, drop_ge, app_nil_r in H by lia.
    apply H; [intros c Hc; by destruct (Hf c Hc) as (? & ? & _)|done|lia|lia].
  - rewrite (flat_map_samples (fun c => dec (f c))).
    replace (length src) with (length (map (fun c => dec (f c)) src)) by apply length_map.
    rewrite loop_encode_all; [|apply Forall_map; eapply Forall_impl; [|exact Hb];
      intros c Hc; by destruct (Hf c Hc) as (? & ? & _)|done|].
    + rewrite drop_ge, app_nil_r by (unfold zlen in *; rewrite length_map; lia). f_equal.
      rewrite map_map. apply map_ext_in. intros c Hc.
      destruct (Hf c) as (_ & _ & ?); [|done].
      by eapply List.Forall_forall.
    + unfold zlen in *. rewrite length_map. lia.
Qed.

Lemma code_roundtrip c :
  isU 8 c ->
  linear2alaw (dec (alaw2linear c)) = c /\
  linear2ulaw (dec (ulaw2linear c)) = if c =? 0x7F then 0xFF else c.
Proof.
  assert (all_below 256 (fun c => (linear2alaw (dec (alaw2linear c)) =? c) &&
    (linear2ulaw (dec (ulaw2linear c)) =? if c =? 0x7F then 0xFF else c)) = true) as H
    by (vm_compute; reflexivity).
  intros Hc. pose proof (all_below_spec _ _ H c Hc) as E. cbv beta in E. clear H. by zhyps.
Qed.

(** an A-law stream decoded to 16-bit samples and encoded again by the
    stream converters is the same stream, byte for byte; a u-law stream comes
    back with negative zeros as positive zeros and is otherwise the same. *)
Theorem law_stream_roundtrip src pcm out n :
  bytes src -> zlen src = n -> zlen pcm = 2 * n -> zlen out = n -> 2 * n < 2 ^ 32 ->
  (exists pcm', cvtXXalaw16K src n pcm (2 * n) = Ret (pcm', n, 2 * n) /\
     cvtXX16alawK pcm' (2 * n) out n = Ret (src, 2 * n, n)) /\
  (exists pcm', cvtXXulaw16K src n pcm (2 * n) = Ret (pcm', n, 2 * n) /\
     cvtXX16ulawK pcm' (2 * n) out n
       = Ret (map (fun c => if c =? 0x7F then 0xFF else c) src, 2 * n, n)).
Proof.
  intros Hb Hs Hp Ho Hn. unfold cvtXXalaw16K, cvtXX16alawK, cvtXXulaw16K, cvtXX16ulawK.
  replace (2 * n / 2) with n by dlia. rewrite Z.min_id, <- Hs.
  rewrite wrapU_small by (unfold isU; pose proof (zlen_nonneg src); lia).
  replace (zlen src * 2) with (2 * zlen src) by lia.
  replace (Z.to_nat (zlen src)) with (length src) by (unfold zlen; lia). split.
  - destruct (recode_stream alaw2linear linear2alaw (fun c => c) src pcm out) as (pcm' & -> & H);
      [|done|lia|lia|].
    { intros c Hc. destruct (law_decoders c Hc) as [[? ?] _], (code_roundtrip c Hc). done. }
    exists pcm'. split; [done|]. cbn [obind]. rewrite H, map_id. done.
  - destruct (recode_stream ulaw2linear linear2ulaw (fun c => if c =? 0x7F then 0xFF else c) src pcm out)
      as (pcm' & -> & H); [|done|lia|lia|].
    { intros c Hc. destruct (law_decoders c Hc) as [_ [? ?]], (code_roundtrip c Hc). done. }
    exists pcm'. split; [done|]. cbn [obind]. rewrite H. done.
Qed.

(** ** The driver *)

(** the source and destination tags a converter is for *)
Definition tags_of (k : converter) : Z * Z :=
  match k with
  | K_alaw16 => (WAVE_FORMAT_ALAW, WAVE_FORMAT_PCM)
  | K_16alaw => (WAVE_FORMAT_PCM, WAVE_FORMAT_ALAW)
  | K_ulaw16 => (WAVE_FORMAT_MULAW, WAVE_FORMAT_PCM)
  | K_16ulaw => (WAVE_FORMAT_PCM, WAVE_FORMAT_MULAW)
  | K_alawulaw => (WAVE_FORMAT_ALAW, WAVE_FORMAT_MULAW)
  | K_ulawalaw => (WAVE_FORMAT_MULAW, WAVE_FORMAT_ALAW)
  end.

Definition known (w : WAVEFORMATEX) : Prop := G711_GetFormatIndex w <> 0xFFFFFFFF.

(** the table entries of a tag all have the same sample size *)
Lemma find_format_bits b w fmts i :
  Forall (fun f => f_nBits f = b) fmts -> find_format w fmts i <> 0xFFFFFFFF ->
  wBitsPerSample w = b.
Proof.
  intros H. revert i. induction H as [|f fmts Hf _ IH]; intros i; cbn [find_format]; [done|].
  destruct (_ && _) eqn:E; [|apply IH]. intros _. zhyps. congruence.
Qed.

Lemma known_PCM_bits w : known w -> wFormatTag w = WAVE_FORMAT_PCM -> wBitsPerSample w = 16.
Proof.
  unfold known, G711_GetFormatIndex. intros H E. rewrite E in H.
  cbn [Z.eqb WAVE_FORMAT_PCM Pos.eqb] in H.
  eapply (find_format_bits 16); [|exact H]. by repeat constructor.
Qed.

(** with memory, a stream between two known formats opens with converter
    [k] exactly when the formats have the tags of [k], the same rate and the
    same channels, and [k] is not the u-law encoder: a conversion from PCM to
    u-law is refused, because the test of its branch repeats the A-law tag. *)
Theorem G711_StreamOpen_spec s d h k :
  known s -> known d ->
  (G711_StreamOpen (mkInst s d h) true = (mkInst s d (Some k), MMSYSERR_NOERROR) <->
   tags_of k = (wFormatTag s, wFormatTag d) /\ nSamplesPerSec s = nSamplesPerSec d /\
   nChannels s = nChannels d /\ k <> K_16ulaw).
Proof.
  intros Hs Hd. pose proof (known_PCM_bits s Hs) as Bs. pose proof (known_PCM_bits d Hd) as Bd.
  unfold known in Hs, Hd. unfold G711_StreamOpen. cbn [pwfxSrc pwfxDst negb].
  apply Z.eqb_neq in Hs as ->. apply Z.eqb_neq in Hd as ->. cbn [orb].
  unfold WAVE_FORMAT_PCM, WAVE_FORMAT_ALAW, WAVE_FORMAT_MULAW in *.
  destruct (Z.eqb_spec (nSamplesPerSec s) (nSamplesPerSec d)) as [Er|Er],
    (Z.eqb_spec (nChannels s) (nChannels d)) as [Ec|Ec]; cbn [negb orb];
  destruct (Z.eqb_spec (wFormatTag s) 1) as [E1|E1], (Z.eqb_spec (wFormatTag d) 1) as [E2|E2],
    (Z.eqb_spec (wFormatTag s) 6) as [E3|E3], (Z.eqb_spec (wFormatTag d) 6) as [E4|E4],
    (Z.eqb_spec (wFormatTag s) 7) as [E5|E5], (Z.eqb_spec (wFormatTag d) 7) as [E6|E6];
    try congruence; rewrite ?Bs, ?Bd by done; cbn [andb negb orb Z.eqb Pos.eqb];
    destruct k; cbn [tags_of]; unfold WAVE_FORMAT_PCM, WAVE_FORMAT_ALAW, WAVE_FORMAT_MULAW;
    split; intros H; (repeat match goal with H : _ /\ _ |- _ => destruct H end); simplify_eq; try done;
    split_and!; congruence.
Qed.

(** with the destination size that the driver itself computes for an A-law
    or u-law source of [n] bytes, decoding converts only the first n/4 bytes:
    the factors two of the size query are exchanged. *)
Theorem G711_StreamSize_short s d h src dst n adss' :
  is_law s = true -> wFormatTag d = WAVE_FORMAT_PCM ->
  h = Some (if wFormatTag s =? WAVE_FORMAT_ALAW then K_alaw16 else K_ulaw16) ->
  bytes src -> zlen src = n -> n < 2 ^ 32 ->
  G711_StreamSize (mkInst s d h) (mkAdss ACM_STREAMSIZEF_SOURCE n 0) = (adss', MMSYSERR_NOERROR) ->
  zlen dst = cbDstLength adss' ->
  cbDstLength adss' = n / 2 /\
  exists dst', G711_StreamConvert (mkInst s d h) src n dst (cbDstLength adss') = Ret (dst', n / 4, 2 * (n / 4)).
Proof.
  intros Hs Hd -> Hb Hn Hw E Hdst. pose proof (zlen_nonneg src) as H0.
  unfold G711_StreamSize in E. cbn [pwfxSrc pwfxDst fdwSize cbSrcLength ACM_STREAMSIZEF_SOURCE
    ACM_STREAMSIZEF_DESTINATION Z.eqb] in E.
  assert (is_law d = false) as Hl by (unfold is_law; rewrite Hd; done).
  rewrite Hl, Hs, Hd, andb_false_r in E. cbn [andb Z.eqb Pos.eqb WAVE_FORMAT_PCM] in E.
  injection E as <-. cbn [cbDstLength] in *. rewrite wrapU_small in * by (unfold isU; dlia).
  split; [done|]. unfold G711_StreamConvert. cbn [dwDriver].
  assert (forall f, (forall c, isU 8 c -> f c = Ret (dec (f c)) /\ isS 16 (dec (f c))) ->
    exists dst', loop_decode src f (Z.to_nat (n / 4)) 0 0 dst = Ret dst') as Hloop.
  { intros f Hf. eexists. apply (loop_decode_all f (fun c => dec (f c))); [done|done|dlia|dlia]. }
  destruct (Hloop alaw2linear) as [da Ea]; [intros; by apply law_decoders|].
  destruct (Hloop ulaw2linear) as [du Eu]; [intros; by apply law_decoders|].
  assert (Z.min n (n / 2 / 2) = n / 4) as Em by dlia.
  destruct (_ =? _); [exists da|exists du]; cbn [convert];
    unfold cvtXXalaw16K, cvtXXulaw16K; rewrite Em, ?Ea, ?Eu; cbn [obind];
    (rewrite wrapU_small by (unfold isU; dlia)); do 2 f_equal; lia.
Qed.

(** describing the standard format at a valid index of any of the three
    tags succeeds and gives a wave format that the driver finds at the same
    index, with block size and byte rate those of its channels and sample size. *)
Theorem G711_FormatDetails_roundtrip afd i tag :
  tag = WAVE_FORMAT_PCM \/ tag = WAVE_FORMAT_ALAW \/ tag = WAVE_FORMAT_MULAW -> 0 <= i < 8 ->
  afd_dwFormatTag afd = tag -> dwFormatIndex afd = i ->
  exists afd', G711_FormatDetails afd ACM_FORMATDETAILSF_INDEX = Ret (afd', MMSYSERR_NOERROR) /\
    let w := pwfx afd' in
    wFormatTag w = tag /\ G711_GetFormatIndex w = i /\
    nBlockAlign w = nChannels w * wBitsPerSample w / 8 /\
    nAvgBytesPerSec w = nSamplesPerSec w * nBlockAlign w /\
    G711_FormatDetails afd' ACM_FORMATDETAILSF_FORMAT = Ret (afd', MMSYSERR_NOERROR).
Proof.
  destruct afd as [fi ft sup [t c r a b bits cb spb] cbw sz]. cbn [afd_dwFormatTag dwFormatIndex].
  intros Ht Hi -> ->.
  assert (i = 0 \/ i = 1 \/ i = 2 \/ i = 3 \/ i = 4 \/ i = 5 \/ i = 6 \/ i = 7) as Hi' by lia.
  destruct Ht as [->|[->| ->]]; destruct Hi' as [->|[->|[->|[->|[->|[->|[->| ->]]]]]]];
    (eexists; split; [vm_compute; reflexivity|vm_compute; done]).
Qed.

(** *** Witnesses *)
Lemma decode_tables_exact_witness :
  alaw2linear 0x2A = Ret (alaw2linear_routine 0x2A) /\ ulaw2linear 0x2A = Ret (ulaw2linear_routine 0x2A).
Proof. apply (decode_tables_exact 0x2A). unfold isU; lia. Defined.

Lemma law_code_roundtrip_witness :
  (exists s, alaw2linear 0x7F = Ret s /\ isS 16 s /\ linear2alaw s = 0x7F) /\
  (exists s, ulaw2linear 0x7F = Ret s /\ isS 16 s /\ linear2ulaw s = if 0x7F =? 0x7F then 0xFF else 0x7F).
Proof. apply (law_code_roundtrip 0x7F). unfold isU; lia. Defined.

Lemma law_quantisation_witness :
  (exists v, alaw2linear (linear2alaw (-12345)) = Ret v /\ Z.abs (v - -12345) <= 8 + Z.abs (-12345) / 32) /\
  (exists v, ulaw2linear (linear2ulaw (-12345)) = Ret v /\ Z.abs (v - -12345) <= 8 + Z.abs (-12345) / 32).
Proof. apply (law_quantisation (-12345)). unfold isS; lia. Defined.

Lemma G711_decode_stream_witness :
  let out f := flat_map (fun c => sample_bytes (dec (f c))) (take 2 [1; 200; 3]) ++ drop 4 [9; 9; 9; 9; 9] in
  cvtXXalaw16K [1; 200; 3] 3 [9; 9; 9; 9; 9] 5 = Ret (out alaw2linear, 2, 4) /\
  cvtXXulaw16K [1; 200; 3] 3 [9; 9; 9; 9; 9] 5 = Ret (out ulaw2linear, 2, 4).
Proof.
  apply (G711_decode_stream [1; 200; 3] 3 [9; 9; 9; 9; 9] 5); [|unfold zlen; cbn; lia..].
  repeat constructor; unfold isU; lia.
Defined.

Lemma law_stream_roundtrip_witness :
  (exists pcm', cvtXXalaw16K [1; 127] 2 [0; 0; 0; 0] (2 * 2) = Ret (pcm', 2, 2 * 2) /\
     cvtXX16alawK pcm' (2 * 2) [7; 7] 2 = Ret ([1; 127], 2 * 2, 2)) /\
  (exists pcm', cvtXXulaw16K [1; 127] 2 [0; 0; 0; 0] (2 * 2) = Ret (pcm', 2, 2 * 2) /\
     cvtXX16ulawK pcm' (2 * 2) [7; 7] 2
       = Ret (map (fun c => if c =? 0x7F then 0xFF else c) [1; 127], 2 * 2, 2)).
Proof.
  apply (law_stream_roundtrip [1; 127] [0; 0; 0; 0] [7; 7] 2); [|done|done|done|lia].
  repeat constructor; unfold isU; lia.
Defined.

Definition wfx_ex (tag bits : Z) : WAVEFORMATEX := mkWfx tag 1 8000 8000 1 bits 0 0.

Lemma G711_StreamOpen_spec_witness :
  G711_StreamOpen (mkInst (wfx_ex 1 16) (wfx_ex 7 8) None) true
    = (mkInst (wfx_ex 1 16) (wfx_ex 7 8) (Some K_16ulaw), MMSYSERR_NOERROR) <->
  tags_of K_16ulaw = (1, 7) /\ 8000 = 8000 /\ 1 = 1 /\ K_16ulaw <> K_16ulaw.
Proof. apply (G711_StreamOpen_spec (wfx_ex 1 16) (wfx_ex 7 8) None K_16ulaw); vm_compute; done. Defined.

Lemma G711_StreamSize_short_witness :
  2 = 4 / 2 /\
  exists dst', G711_StreamConvert (mkInst (wfx_ex 6 8) (wfx_ex 1 16) (Some K_alaw16)) [1; 2; 3; 4] 4 [0; 0] 2
    = Ret (dst', 4 / 4, 2 * (4 / 4)).
Proof.
  apply (G711_StreamSize_short (wfx_ex 6 8) (wfx_ex 1 16) (Some K_alaw16) [1; 2; 3; 4] [0; 0] 4
    (mkAdss ACM_STREAMSIZEF_SOURCE 4 2)); try (vm_compute; done).
  repeat constructor; unfold isU; lia.
Defined.

Lemma G711_FormatDetails_roundtrip_witness :
  exists afd', G711_FormatDetails (mkAfd 3 WAVE_FORMAT_PCM 0 (wfx_ex 0 0) 18 [1]) ACM_FORMATDETAILSF_INDEX
      = Ret (afd', MMSYSERR_NOERROR) /\
    let w := pwfx afd' in
    wFormatTag w = WAVE_FORMAT_PCM /\ G711_GetFormatIndex w = 3 /\
    nBlockAlign w = nChannels w * wBitsPerSample w / 8 /\
    nAvgBytesPerSec w = nSamplesPerSec w * nBlockAlign w /\
    G711_FormatDetails afd' ACM_FORMATDETAILSF_FORMAT = Ret (afd', MMSYSERR_NOERROR).
Proof.
  apply (G711_FormatDetails_roundtrip (mkAfd 3 WAVE_FORMAT_PCM 0 (wfx_ex 0 0) 18 [1]) 3 WAVE_FORMAT_PCM);
    [by left|lia|done|done].
Defined.

End G711Spec.
