(* ===== verification/ImaAdpcm.v ===== *)
(** * The IMA ADPCM codec driver (dlls/msacm/imaadp32/imaadp32.c)

    The nibble coder and decoder with their adaptive step, the four stream
    converters (mono and stereo, both ways) and the driver calls. *)
From S2P Require Import Prelude Acm.

Module ImaAdpcm.
Import Acm.

Definition PCM_Formats : list Format :=
  [mkFormat 1 8 8000; mkFormat 2 8 8000; mkFormat 1 16 8000; mkFormat 2 16 8000;
   mkFormat 1 8 11025; mkFormat 2 8 11025; mkFormat 1 16 11025; mkFormat 2 16 11025;
   mkFormat 1 8 22050; mkFormat 2 8 22050; mkFormat 1 16 22050; mkFormat 2 16 22050;
   mkFormat 1 8 44100; mkFormat 2 8 44100; mkFormat 1 16 44100; mkFormat 2 16 44100].
Definition ADPCM_Formats : list Format :=
  [mkFormat 1 4 8000; mkFormat 2 4 8000; mkFormat 1 4 11025; mkFormat 2 4 11025;
   mkFormat 1 4 22050; mkFormat 2 4 22050; mkFormat 1 4 44100; mkFormat 2 4 44100].

Definition ADPCM_GetFormatIndex (wfx : WAVEFORMATEX) : Z :=
  if wFormatTag wfx =? WAVE_FORMAT_PCM then find_format wfx PCM_Formats 0
  else if wFormatTag wfx =? WAVE_FORMAT_IMA_ADPCM then find_format wfx ADPCM_Formats 0
  else 0xFFFFFFFF.

Definition IMA_StepTable : list Z :=
  [7; 8; 9; 10; 11; 12; 13; 14;
   16; 17; 19; 21; 23; 25; 28; 31;
   34; 37; 41; 45; 50; 55; 60; 66;
   73; 80; 88; 97; 107; 118; 130; 143;
   157; 173; 190; 209; 230; 253; 279; 307;
   337; 371; 408; 449; 494; 544; 598; 658;
   724; 796; 876; 963; 1060; 1166; 1282; 1411;
   1552; 1707; 1878; 2066; 2272; 2499; 2749; 3024;
   3327; 3660; 4026; 4428; 4871; 5358; 5894; 6484;
   7132; 7845; 8630; 9493; 10442; 11487; 12635; 13899;
   15289; 16818; 18500; 20350; 22385; 24623; 27086; 29794;
   32767].

Definition IMA_IndexTable : list Z :=
  [-1; -1; -1; -1; 2; 4; 6; 8; -1; -1; -1; -1; 2; 4; 6; 8].

Definition clamp_step_index (stepIndex : Z) : Z :=
  let stepIndex := if stepIndex <? 0 then 0 else stepIndex in
  if 88 <? stepIndex then 88 else stepIndex.

Definition clamp_sample (sample : Z) : Z :=
  let sample := if sample <? -32768 then -32768 else sample in
  if 32767 <? sample then 32767 else sample.

Definition bit (code m : Z) : bool := negb (Z.land code m =? 0).

(** the new step index and sample; the sums stay far inside an int *)
Definition process_nibble (code stepIndex sample : Z) : outcome (Z * Z) :=
  let code := Z.land code 0x0F in
  let! step := rd IMA_StepTable stepIndex in
  let diff := Z.shiftr step 3 in
  let diff := if bit code 1 then diff + Z.shiftr step 2 else diff in
  let diff := if bit code 2 then diff + Z.shiftr step 1 else diff in
  let diff := if bit code 4 then diff + step else diff in
  let sample := clamp_sample (if bit code 8 then sample - diff else sample + diff) in
  let! d := rd IMA_IndexTable code in
  Ret (clamp_step_index (stepIndex + d), sample).

(** the code, the new step index and the new sample *)
Definition generate_nibble (in_ stepIndex sample : Z) : outcome (Z * Z * Z) :=
  let diff := in_ - sample in
  let '(diff, code) := if diff <? 0 then (- diff, 8) else (diff, 0) in
  let! step := rd IMA_StepTable stepIndex in
  let effdiff := Z.shiftr step 3 in
  let '(code, diff, effdiff) :=
    if step <=? diff then (Z.lor code 4, diff - step, effdiff + step) else (code, diff, effdiff) in
  let step := Z.shiftr step 1 in
  let '(code, diff, effdiff) :=
    if step <=? diff then (Z.lor code 2, diff - step, effdiff + step) else (code, diff, effdiff) in
  let step := Z.shiftr step 1 in
  let '(code, effdiff) :=
    if step <=? diff then (Z.lor code 1, effdiff + step) else (code, effdiff) in
  let sample := clamp_sample (if bit code 8 then sample - effdiff else sample + effdiff) in
  let! d := rd IMA_IndexTable code in
  Ret (code, clamp_step_index (stepIndex + d), sample).

(** ** The converters

    The source and destination are distinct buffers; pointers into them are
    indices.  The division by a block size of zero faults. *)

Definition div_u (a b : Z) : outcome Z := if b =? 0 then Fault else Ret (a / b).

(** [for (nsamp = nsamp_blk; nsamp > 0; nsamp -= 2)] of the mono decoder *)
Fixpoint mono_decode_loop (fuel : nat) (nsamp : Z) (src : list Z) (si : Z) (dst : list Z)
    (di stepIndex sample : Z) : outcome (list Z * Z) :=
  if nsamp <=? 0 then Ret (dst, di) else
  match fuel with
  | O => Spin
  | S fuel =>
    let! b := rd src si in
    let! (stepIndex, sample) := process_nibble b stepIndex sample in
    let! dst := W16 dst di sample in
    let! (stepIndex, sample) := process_nibble (Z.shiftr b 4) stepIndex sample in
    let! dst := W16 dst (di + 2) sample in
    mono_decode_loop fuel (nsamp - 2) src (si + 1) dst (di + 4) stepIndex sample
  end.

(** [for (; nblock > 0; nblock--)]: [si] is the start of the block *)
Fixpoint mono_decode_blocks (nblock : nat) (align nsamp_blk : Z) (src : list Z) (si : Z)
    (dst : list Z) (di : Z) : outcome (list Z) :=
  match nblock with
  | O => Ret dst
  | S nblock =>
    let! sample := R16 src si in
    let! stepIndex := rd src (si + 2) in
    let! dst := W16 dst di sample in
    let! (dst, di) := mono_decode_loop (Z.to_nat nsamp_blk) nsamp_blk src (si + 4) dst (di + 2)
                        (clamp_step_index stepIndex) sample in
    mono_decode_blocks nblock align nsamp_blk src (si + align) dst di
  end.

Definition cvtMMima16K (pwfxSrc : WAVEFORMATEX) (src : list Z) (nsrc : Z) (dst : list Z) (ndst : Z) :
    outcome (list Z * Z * Z) :=
  let nsamp_blk := wSamplesPerBlock pwfxSrc in
  let align := nBlockAlign pwfxSrc in
  let! a := div_u nsrc align in
  let! b := div_u ndst (nsamp_blk * 2) in
  let nblock := Z.min a b in
  let! dst := mono_decode_blocks (Z.to_nat nblock) align (nsamp_blk - 1) src 0 dst 0 in
  Ret (dst, u32 (nblock * align), u32 (nblock * nsamp_blk * 2)).

(** one of the two [for (i = 0; i < 4; i++)] loops of the stereo decoder *)
Fixpoint stereo_decode_4 (idxs : list Z) (off : Z) (src : list Z) (si : Z) (dst : list Z)
    (di stepIndex sample : Z) : outcome (list Z * Z * Z * Z) :=
  match idxs with
  | [] => Ret (dst, si, stepIndex, sample)
  | i :: idxs =>
    let! b := rd src si in
    let! (stepIndex, sample) := process_nibble b stepIndex sample in
    let! dst := W16 dst (di + (2 * i + 0) * 4 + off) sample in
    let! (stepIndex, sample) := process_nibble (Z.shiftr b 4) stepIndex sample in
    let! dst := W16 dst (di + (2 * i + 1) * 4 + off) sample in
    stereo_decode_4 idxs off src (si + 1) dst di stepIndex sample
  end.

Fixpoint stereo_decode_loop (fuel : nat) (nsamp : Z) (src : list Z) (si : Z) (dst : list Z)
    (di stepIndexL sampleL stepIndexR sampleR : Z) : outcome (list Z * Z) :=
  if nsamp <=? 0 then Ret (dst, di) else
  match fuel with
  | O => Spin
  | S fuel =>
    let! (dst, si, stepIndexL, sampleL) :=
      stereo_decode_4 [0; 1; 2; 3] 0 src si dst di stepIndexL sampleL in
    let! (dst, si, stepIndexR, sampleR) :=
      stereo_decode_4 [0; 1; 2; 3] 2 src si dst di stepIndexR sampleR in
    stereo_decode_loop fuel (nsamp - 8) src si dst (di + 32) stepIndexL sampleL stepIndexR sampleR
  end.

Fixpoint stereo_decode_blocks (nblock : nat) (align nsamp_blk : Z) (src : list Z) (si : Z)
    (dst : list Z) (di : Z) : outcome (list Z) :=
  match nblock with
  | O => Ret dst
  | S nblock =>
    let! sampleL := R16 src si in
    let! stepIndexL := rd src (si + 2) in
    let! dst := W16 dst di sampleL in
    let! sampleR := R16 src (si + 4) in
    let! stepIndexR := rd src (si + 6) in
    let! dst := W16 dst (di + 2) sampleR in
    let! (dst, di) :=
      stereo_decode_loop (Z.to_nat nsamp_blk) nsamp_blk src (si + 8) dst (di + 4)
        (clamp_step_index stepIndexL) sampleL (clamp_step_index stepIndexR) sampleR in
    stereo_decode_blocks nblock align nsamp_blk src (si + align) dst di
  end.

Definition cvtSSima16K (pwfxSrc : WAVEFORMATEX) (src : list Z) (nsrc : Z) (dst : list Z) (ndst : Z) :
    outcome (list Z * Z * Z) :=
  let nsamp_blk := wSamplesPerBlock pwfxSrc in
  let align := nBlockAlign pwfxSrc in
  let! a := div_u nsrc align in
  let! b := div_u ndst (nsamp_blk * 2 * 2) in
  let nblock := Z.min a b in
  let! dst := stereo_decode_blocks (Z.to_nat nblock) align (nsamp_blk - 1) src 0 dst 0 in
  Ret (dst, u32 (nblock * align), u32 (nblock * (nsamp_blk * 2 * 2))).

(** [(code1 << 4) | code2], stored in a byte *)
Definition pack (code1 code2 : Z) : Z := u8 (Z.lor (Z.shiftl code1 4) code2).

Fixpoint mono_encode_loop (fuel : nat) (nsamp : Z) (src : list Z) (si : Z) (dst : list Z)
    (di stepIndex sample : Z) : outcome (list Z * Z * Z) :=
  if nsamp <=? 0 then Ret (dst, si, stepIndex) else
  match fuel with
  | O => Spin
  | S fuel =>
    let! s1 := R16 src si in
    let! (code1, stepIndex, sample) := generate_nibble s1 stepIndex sample in
    let! s2 := R16 src (si + 2) in
    let! (code2, stepIndex, sample) := generate_nibble s2 stepIndex sample in
    let! dst := wr dst di (pack code1 code2) in
    mono_encode_loop fuel (nsamp - 2) src (si + 4) dst (di + 1) stepIndex sample
  end.

Fixpoint mono_encode_blocks (nblock : nat) (align nsamp_blk : Z) (src : list Z) (si : Z)
    (dst : list Z) (di stepIndex : Z) : outcome (list Z * Z) :=
  match nblock with
  | O => Ret (dst, stepIndex)
  | S nblock =>
    let! sample := R16 src si in
    let! dst := W16 dst di sample in
    let! dst := wr dst (di + 2) (u8 stepIndex) in
    let! (dst, si, stepIndex) :=
      mono_encode_loop (Z.to_nat nsamp_blk) nsamp_blk src (si + 2) dst (di + 4) stepIndex sample in
    mono_encode_blocks nblock align nsamp_blk src si dst (di + align) stepIndex
  end.

(** the destination, the sizes and the step index kept in the driver data *)
Definition cvtMM16imaK (pwfxDst : WAVEFORMATEX) (stepIndexL : Z) (src : list Z) (nsrc : Z)
    (dst : list Z) (ndst : Z) : outcome (list Z * Z * Z * Z) :=
  let nsamp_blk := wSamplesPerBlock pwfxDst in
  let align := nBlockAlign pwfxDst in
  let! a := div_u nsrc (nsamp_blk * 2) in
  let! b := div_u ndst align in
  let nblock := Z.min a b in
  let! (dst, stepIndex) :=
    mono_encode_blocks (Z.to_nat nblock) align (nsamp_blk - 1) src 0 dst 0 stepIndexL in
  Ret (dst, u32 (nblock * (nsamp_blk * 2)), u32 (nblock * align), u8 stepIndex).

(** one of the two [for (i = 0; i < 4; i++)] loops of the stereo encoder *)
Fixpoint stereo_encode_4 (idxs : list Z) (off : Z) (src : list Z) (si : Z) (dst : list Z)
    (di stepIndex sample : Z) : outcome (list Z * Z * Z * Z) :=
  match idxs with
  | [] => Ret (dst, di, stepIndex, sample)
  | i :: idxs =>
    let! s1 := R16 src (si + (2 * i + 0) * 2 + off) in
    let! (code1, stepIndex, sample) := generate_nibble s1 stepIndex sample in
    let! s2 := R16 src (si + (2 * i + 1) * 2 + off) in
    let! (code2, stepIndex, sample) := generate_nibble s2 stepIndex sample in
    let! dst := wr dst di (pack code1 code2) in
    stereo_encode_4 idxs off src si dst (di + 1) stepIndex sample
  end.

Fixpoint stereo_encode_loop (fuel : nat) (nsamp : Z) (src : list Z) (si : Z) (dst : list Z)
    (di stepIndexL sampleL stepIndexR sampleR : Z) : outcome (list Z * Z * Z * Z) :=
  if nsamp <=? 0 then Ret (dst, si, stepIndexL, stepIndexR) else
  match fuel with
  | O => Spin
  | S fuel =>
    let! (dst, di, stepIndexL, sampleL) :=
      stereo_encode_4 [0; 1; 2; 3] 0 src si dst di stepIndexL sampleL in
    let! (dst, di, stepIndexR, sampleR) :=
      stereo_encode_4 [0; 1; 2; 3] 1 src si dst di stepIndexR sampleR in
    stereo_encode_loop fuel (nsamp - 8) src (si + 32) dst di stepIndexL sampleL stepIndexR sampleR
  end.

Fixpoint stereo_encode_blocks (nblock : nat) (align nsamp_blk : Z) (src : list Z) (si : Z)
    (dst : list Z) (di stepIndexL stepIndexR : Z) : outcome (list Z * Z * Z) :=
  match nblock with
  | O => Ret (dst, stepIndexL, stepIndexR)
  | S nblock =>
    let! sampleL := R16 src si in
    let! dst := W16 dst di sampleL in
    let! dst := wr dst (di + 2) (u8 stepIndexL) in
    let! sampleR := R16 src (si + 2) in
    let! dst := W16 dst (di + 4) sampleR in
    let! dst := wr dst (di + 6) (u8 stepIndexR) in
    let! (dst, si, stepIndexL, stepIndexR) :=
      stereo_encode_loop (Z.to_nat nsamp_blk) nsamp_blk src (si + 4) dst (di + 8)
        stepIndexL sampleL stepIndexR sampleR in
    stereo_encode_blocks nblock align nsamp_blk src si dst (di + align) stepIndexL stepIndexR
  end.

Definition cvtSS16imaK (pwfxDst : WAVEFORMATEX) (stepIndexL stepIndexR : Z) (src : list Z) (nsrc : Z)
    (dst : list Z) (ndst : Z) : outcome (list Z * Z * Z * Z * Z) :=
  let nsamp_blk := wSamplesPerBlock pwfxDst in
  let align := nBlockAlign pwfxDst in
  let! a := div_u nsrc (nsamp_blk * 2 * 2) in
  let! b := div_u ndst align in
  let nblock := Z.min a b in
  let! (dst, stepIndexL, stepIndexR) :=
    stereo_encode_blocks (Z.to_nat nblock) align (nsamp_blk - 1) src 0 dst 0 stepIndexL stepIndexR in
  Ret (dst, u32 (nblock * (nsamp_blk * 2 * 2)), u32 (nblock * align), u8 stepIndexL, u8 stepIndexR).

(** ** The driver *)

Inductive converter := K_SSima16 | K_MMima16 | K_SS16ima | K_MM16ima.
#[global] Instance ima_converter_eq_dec : EqDecision converter.
Proof. solve_decision. Defined.

(** AcmAdpcmData *)
Record AcmAdpcmData := mkAad { aad_convert : converter; stepIndexL : Z; stepIndexR : Z }.
(** ACMDRVSTREAMINSTANCE *)
Record instance := mkInst { pwfxSrc : WAVEFORMATEX; pwfxDst : WAVEFORMATEX; dwDriver : option AcmAdpcmData }.

Definition szPcm : list Z := [80; 67; 77; 0].
Definition szImaAdPcm : list Z := [73; 77; 65; 32; 65; 100; 80; 67; 77; 0].

Definition ADPCM_describe_tag (d : ACMFORMATTAGDETAILSW) : ACMFORMATTAGDETAILSW :=
  let i := dwFormatTagIndex d in
  let sup := ACMDRIVERDETAILS_SUPPORTF_CODEC in
  if i =? 0 then mkAftd i WAVE_FORMAT_PCM sizeof_PCMWAVEFORMAT sup (zlen PCM_Formats) szPcm
  else if i =? 1 then
    mkAftd i WAVE_FORMAT_IMA_ADPCM sizeof_IMAADPCMWAVEFORMAT sup (zlen ADPCM_Formats) szImaAdPcm
  else mkAftd i (aftd_dwFormatTag d) (cbFormatSize d) sup (cStandardFormats d) (szFormatTag d).

Definition ADPCM_FormatTagDetails (d : ACMFORMATTAGDETAILSW) (dwQuery : Z) :
    ACMFORMATTAGDETAILSW * Z :=
  let by_tag :=
    if aftd_dwFormatTag d =? WAVE_FORMAT_PCM then Some (set_dwFormatTagIndex 0 d)
    else if aftd_dwFormatTag d =? WAVE_FORMAT_IMA_ADPCM then Some (set_dwFormatTagIndex 1 d)
    else None in
  let answer r :=
    match r with
    | Some d => (ADPCM_describe_tag d, MMSYSERR_NOERROR)
    | None => (d, ACMERR_NOTPOSSIBLE)
    end in
  if dwQuery =? ACM_FORMATTAGDETAILSF_INDEX then
    answer (if 2 <=? dwFormatTagIndex d then None else Some d)
  else if dwQuery =? ACM_FORMATTAGDETAILSF_LARGESTSIZE then
    answer (if aftd_dwFormatTag d =? WAVE_FORMAT_UNKNOWN
            then Some (set_dwFormatTagIndex 1 d) else by_tag)
  else if dwQuery =? ACM_FORMATTAGDETAILSF_FORMATTAG then answer by_tag
  else (d, MMSYSERR_NOTSUPPORTED).

(** samples in a block of 1024 bytes: [(1024 - 4 * n) * (2 / n) + 1] *)
Definition samples_1024 (n : Z) : outcome Z :=
  let! q := div_u 2 n in Ret ((1024 - 4 * n) * q + 1).

Definition from_table (fmts : list Format) (i : Z) (w : WAVEFORMATEX) : outcome WAVEFORMATEX :=
  let! f := rd fmts i in
  Ret (set_wBitsPerSample (f_nBits f)
        (set_nSamplesPerSec (f_rate f) (set_nChannels (f_nChannels f) w))).

Definition ADPCM_FormatDetails (afd : ACMFORMATDETAILSW) (dwQuery : Z) :
    outcome (ACMFORMATDETAILSW * Z) :=
  let done afd :=
    Ret (mkAfd (dwFormatIndex afd) (afd_dwFormatTag afd) ACMDRIVERDETAILS_SUPPORTF_CODEC
           (pwfx afd) (cbwfx afd) (0 :: tail (szFormat afd)), MMSYSERR_NOERROR) in
  if dwQuery =? ACM_FORMATDETAILSF_FORMAT then
    if ADPCM_GetFormatIndex (pwfx afd) =? 0xFFFFFFFF then Ret (afd, ACMERR_NOTPOSSIBLE)
    else done afd
  else if dwQuery =? ACM_FORMATDETAILSF_INDEX then
    let afd := set_pwfx (set_wFormatTag (afd_dwFormatTag afd) (pwfx afd)) afd in
    let i := dwFormatIndex afd in
    if afd_dwFormatTag afd =? WAVE_FORMAT_PCM then
      if zlen PCM_Formats <=? i then Ret (afd, ACMERR_NOTPOSSIBLE) else
      let! w := from_table PCM_Formats i (pwfx afd) in
      let w := set_nBlockAlign (nChannels w * wBitsPerSample w / 8) w in
      done (set_pwfx (set_nAvgBytesPerSec (nSamplesPerSec w * nBlockAlign w) w) afd)
    else if afd_dwFormatTag afd =? WAVE_FORMAT_IMA_ADPCM then
      if zlen ADPCM_Formats <=? i then Ret (afd, ACMERR_NOTPOSSIBLE) else
      let! w := from_table ADPCM_Formats i (pwfx afd) in
      let w := set_nBlockAlign 1024 w in
      let w := set_nAvgBytesPerSec (u32 (nSamplesPerSec w * 4) / 8) w in
      let w := if sizeof_WAVEFORMATEX <=? cbwfx afd then set_cbSize 2 w else w in
      let! w := if sizeof_IMAADPCMWAVEFORMAT <=? cbwfx afd
                then let! n := samples_1024 (nChannels w) in Ret (set_wSamplesPerBlock n w)
                else Ret w in
      done (set_pwfx w afd)
    else Ret (afd, MMSYSERR_INVALPARAM)
  else Ret (afd, MMSYSERR_NOTSUPPORTED).

Definition ADPCM_suggested (adfs : ACMDRVFORMATSUGGEST) : WAVEFORMATEX :=
  let s := adfs_pwfxSrc adfs in
  let keep f := flag_set (fdwSuggest adfs) f in
  let d := adfs_pwfxDst adfs in
  let d := if keep ACM_FORMATSUGGESTF_NCHANNELS then d else set_nChannels (nChannels s) d in
  let d := if keep ACM_FORMATSUGGESTF_NSAMPLESPERSEC then d
           else set_nSamplesPerSec (nSamplesPerSec s) d in
  let d := if keep ACM_FORMATSUGGESTF_WBITSPERSAMPLE then d
           else if wFormatTag s =? WAVE_FORMAT_PCM then set_wBitsPerSample 4 d
           else set_wBitsPerSample 16 d in
  if keep ACM_FORMATSUGGESTF_WFORMATTAG then d
  else if wFormatTag s =? WAVE_FORMAT_PCM then set_wFormatTag WAVE_FORMAT_IMA_ADPCM d
  else set_wFormatTag WAVE_FORMAT_PCM d.

Definition ADPCM_FormatSuggest (adfs : ACMDRVFORMATSUGGEST) : outcome (ACMDRVFORMATSUGGEST * Z) :=
  let s := adfs_pwfxSrc adfs in
  if (cbwfxSrc adfs <? sizeof_PCMWAVEFORMAT) || (cbwfxDst adfs <? sizeof_PCMWAVEFORMAT)
     || (ADPCM_GetFormatIndex s =? 0xFFFFFFFF)
  then Ret (adfs, ACMERR_NOTPOSSIBLE) else
  let d := ADPCM_suggested adfs in
  if ADPCM_GetFormatIndex d =? 0xFFFFFFFF
  then Ret (set_adfs_pwfxDst d adfs, ACMERR_NOTPOSSIBLE) else
  let! d :=
    if wFormatTag d =? WAVE_FORMAT_PCM then
      let d := set_nBlockAlign (nChannels d * wBitsPerSample d / 8) d in
      Ret (set_nAvgBytesPerSec (nSamplesPerSec d * nBlockAlign d) d)
    else if wFormatTag d =? WAVE_FORMAT_IMA_ADPCM then
      let d := set_nBlockAlign 1024 d in
      let d := set_nAvgBytesPerSec (u32 (nSamplesPerSec d * 4) / 8 * nChannels s) d in
      let! n := samples_1024 (nChannels s) in Ret (set_wSamplesPerBlock n d)
    else Ret d in
  Ret (set_adfs_pwfxDst d adfs, MMSYSERR_NOERROR).

Definition ADPCM_Reset (aad : AcmAdpcmData) : AcmAdpcmData := mkAad (aad_convert aad) 0 0.

(** the two tests on the number of samples in a block, as an unsigned int:
    a packet pattern of 4 samples, and the comparison with the block size *)
Definition bad_block (nspb : Z) (w : WAVEFORMATEX) : bool :=
  negb (Z.land (u32 (nspb - 1)) 3 =? 0) ||
  (u32 ((u32 (nspb - 1) / 2 + 4) * nChannels w) <? nBlockAlign w).

Definition ADPCM_StreamOpen (adsi : instance) (alloc : bool) : instance * Z :=
  let s := pwfxSrc adsi in
  let d := pwfxDst adsi in
  let is_tags a b := (wFormatTag s =? a) && (wFormatTag d =? b) in
  let differ := negb (nSamplesPerSec s =? nSamplesPerSec d) || negb (nChannels s =? nChannels d) in
  let theEnd := (mkInst s d None, MMSYSERR_NOTSUPPORTED) in
  let ok k := (mkInst s d (Some (ADPCM_Reset (mkAad k 0 0))), MMSYSERR_NOERROR) in
  if (ADPCM_GetFormatIndex s =? 0xFFFFFFFF) || (ADPCM_GetFormatIndex d =? 0xFFFFFFFF)
  then (adsi, ACMERR_NOTPOSSIBLE)
  else if negb alloc then (adsi, MMSYSERR_NOMEM)
  else if is_tags WAVE_FORMAT_PCM WAVE_FORMAT_PCM then theEnd
  else if is_tags WAVE_FORMAT_IMA_ADPCM WAVE_FORMAT_PCM then
    if differ || negb (wBitsPerSample d =? 16) then theEnd
    else if bad_block (wSamplesPerBlock s) s then theEnd
    else ok (if nChannels d =? 2 then K_SSima16 else K_MMima16)
  else if is_tags WAVE_FORMAT_PCM WAVE_FORMAT_IMA_ADPCM then
    if differ || negb (wBitsPerSample s =? 16) then theEnd
    else if bad_block (wSamplesPerBlock d) d then theEnd
    else ok (if nChannels s =? 2 then K_SS16ima else K_MM16ima)
  else theEnd.

Definition ADPCM_StreamSize (adsi : instance) (adss : ACMDRVSTREAMSIZE) : ACMDRVSTREAMSIZE * Z :=
  let s := wFormatTag (pwfxSrc adsi) in
  let d := wFormatTag (pwfxDst adsi) in
  let enc := (s =? WAVE_FORMAT_PCM) && (d =? WAVE_FORMAT_IMA_ADPCM) in
  let decd := (s =? WAVE_FORMAT_IMA_ADPCM) && (d =? WAVE_FORMAT_PCM) in
  if fdwSize adss =? ACM_STREAMSIZEF_DESTINATION then
    let res n := (mkAdss (fdwSize adss) (u32 n) (cbDstLength adss), MMSYSERR_NOERROR) in
    if enc then res (cbDstLength adss * 4)
    else if decd then res (256 + cbDstLength adss / 4)
    else (adss, MMSYSERR_NOTSUPPORTED)
  else if fdwSize adss =? ACM_STREAMSIZEF_SOURCE then
    let res n := (mkAdss (fdwSize adss) (cbSrcLength adss) (u32 n), MMSYSERR_NOERROR) in
    if enc then res (256 + cbSrcLength adss / 4)
    else if decd then res (cbSrcLength adss * 4)
    else (adss, MMSYSERR_NOTSUPPORTED)
  else (adss, MMSYSERR_NOTSUPPORTED).

(** the call through the [convert] pointer *)
Definition ADPCM_convert (adsi : instance) (aad : AcmAdpcmData) (src : list Z) (nsrc : Z)
    (dst : list Z) (ndst : Z) : outcome (instance * list Z * Z * Z) :=
  let s := pwfxSrc adsi in
  let d := pwfxDst adsi in
  match aad_convert aad with
  | K_SSima16 =>
    let! (dst, ns, nd) := cvtSSima16K s src nsrc dst ndst in
    Ret (mkInst s d (Some aad), dst, ns, nd)
  | K_MMima16 =>
    let! (dst, ns, nd) := cvtMMima16K s src nsrc dst ndst in
    Ret (mkInst s d (Some aad), dst, ns, nd)
  | K_SS16ima =>
    let! (dst, ns, nd, l, r) := cvtSS16imaK d (stepIndexL aad) (stepIndexR aad) src nsrc dst ndst in
    Ret (mkInst s d (Some (mkAad K_SS16ima l r)), dst, ns, nd)
  | K_MM16ima =>
    let! (dst, ns, nd, l) := cvtMM16imaK d (stepIndexL aad) src nsrc dst ndst in
    Ret (mkInst s d (Some (mkAad K_MM16ima l (stepIndexR aad))), dst, ns, nd)
  end.

Definition ADPCM_StreamConvert (adsi : instance) (fdwConvert : Z) (src : list Z) (cbSrc : Z)
    (dst : list Z) (cbDst : Z) : outcome (instance * list Z * Z * Z) :=
  match dwDriver adsi with
  | Some aad =>
    let aad := if flag_set fdwConvert ACM_STREAMCONVERTF_START then ADPCM_Reset aad else aad in
    ADPCM_convert adsi aad src cbSrc dst cbDst
  | None => Fault
  end.

End ImaAdpcm.
