(* ===== verification/ImaAdpcmSpec.v ===== *)
(** * Properties of the IMA ADPCM codec driver *)
From S2P Require Import Prelude Acm ImaAdpcm.

Module ImaAdpcmSpec.
Import Acm ImaAdpcm.

(** ** The nibble coder *)

(** a valid predictor state *)
Definition ima_ok (stepIndex sample : Z) : Prop := 0 <= stepIndex <= 88 /\ isS 16 sample.

Lemma clamp_ok i s : ima_ok (clamp_step_index i) (clamp_sample s).
Proof.
  unfold ima_ok, isS, clamp_step_index, clamp_sample. cbv zeta. cbn.
  destruct (Z.ltb_spec s (-32768)), (Z.ltb_spec i 0); repeat zcase1; lia.
Qed.

Lemma land_15 c : Z.land c 15 = c mod 16.
Proof. exact (land_pow2_mask c 4 ltac:(lia)). Qed.

(** the step of a valid index is a 15-bit number of at least 7 *)
Lemma step_range i : 0 <= i <= 88 -> 7 <= nthZ 0 IMA_StepTable i <= 32767.
Proof.
  intros Hi.
  assert (all_below 89 (fun i => (7 <=? nthZ 0 IMA_StepTable i) && (nthZ 0 IMA_StepTable i <=? 32767))
    = true) as H by (vm_compute; reflexivity).
  pose proof (all_below_spec _ _ H i ltac:(lia)) as E. cbv beta in E. clear H. zhyps. lia.
Qed.

Lemma rd_step i : 0 <= i <= 88 -> rd IMA_StepTable i = Ret (nthZ 0 IMA_StepTable i).
Proof. intros. apply rd_in. unfold zlen. simpl. lia. Qed.

Lemma shiftr_step_2 x : Z.shiftr (Z.shiftr x 1) 1 = Z.shiftr x 2.
Proof. by rewrite Z.shiftr_shiftr by lia. Qed.

Lemma clamp_closer x s s' :
  isS 16 x -> s' = clamp_sample s -> Z.abs (x - s') <= Z.abs (x - s).
Proof.
  intros Hx ->. unfold isS in Hx. cbn in Hx. unfold clamp_sample. cbv zeta.
  destruct (Z.ltb_spec s (-32768)); zcase1; lia.
Qed.

(** evaluates the bit operations and index steps of a code that is known *)
Ltac ima_eval t := let v := eval vm_compute in t in change t with v.
Ltac ima_consts :=
  repeat match goal with
  | |- context [Z.lor ?a ?b] => ima_eval (Z.lor a b)
  | |- context [Z.land ?a ?b] => ima_eval (Z.land a b)
  | |- context [bit ?a ?b] => ima_eval (bit a b)
  | |- context [rd IMA_IndexTable ?a] => ima_eval (rd IMA_IndexTable a)
  end; cbv beta iota zeta.

(** from a valid state, coding any sample yields a 4-bit code with which the
    decoder makes the same step: coder and decoder stay in the same valid
    state.  When the sample is within 7/4 of the current step size of the
    prediction, the new prediction is within an eighth of the step (plus 3). *)
Theorem generate_process_in_step x i s :
  isS 16 x -> ima_ok i s ->
  exists code i' s',
    generate_nibble x i s = Ret (code, i', s') /\ 0 <= code < 16 /\
    process_nibble code i s = Ret (i', s') /\ ima_ok i' s' /\
    let step := nthZ 0 IMA_StepTable i in
    (Z.abs (x - s) <= 7 * step / 4 -> Z.abs (x - s') <= step / 8 + 3).
Proof.
  intros Hx [Hi Hs]. unfold generate_nibble, process_nibble. rewrite rd_step by done. cbn [obind].
  pose proof (step_range i Hi) as Hstep. set (step := nthZ 0 IMA_StepTable i) in *. clearbody step.
  rewrite shiftr_step_2.
  rewrite !Z.shiftr_div_pow2 by lia. change (2 ^ 3) with 8. change (2 ^ 2) with 4. change (2 ^ 1) with 2.
  destruct (Z.ltb_spec (x - s) 0) as [H0|H0]; cbv beta iota zeta;
  match goal with |- context [step <=? ?d] => destruct (Z.leb_spec step d) end;
  cbv beta iota zeta;
  match goal with |- context [step / 2 <=? ?d] => destruct (Z.leb_spec (step / 2) d) end;
  cbv beta iota zeta;
  match goal with |- context [step / 4 <=? ?d] => destruct (Z.leb_spec (step / 4) d) end;
  ima_consts; cbn [obind];
  (do 3 eexists; split; [reflexivity|]; ima_consts; cbn [obind];
   split; [lia|split; [do 3 f_equal; lia|split; [apply clamp_ok|]]];
   intros Hd; etransitivity; [apply clamp_closer; [done|reflexivity]|]; dlia).
Qed.

(** ** Reference decoder of a mono block *)

(** The reference is arithmetic on numbers and shares nothing with the code:
    the 89 step sizes of the IMA recommendation, ten in a row, the value of
    the four bits of a code, and saturation by minimum and maximum. *)
Definition ima_step_sizes : list Z :=
  [7; 8; 9; 10; 11; 12; 13; 14; 16; 17;
   19; 21; 23; 25; 28; 31; 34; 37; 41; 45;
   50; 55; 60; 66; 73; 80; 88; 97; 107; 118;
   130; 143; 157; 173; 190; 209; 230; 253; 279; 307;
   337; 371; 408; 449; 494; 544; 598; 658; 724; 796;
   876; 963; 1060; 1166; 1282; 1411; 1552; 1707; 1878; 2066;
   2272; 2499; 2749; 3024; 3327; 3660; 4026; 4428; 4871; 5358;
   5894; 6484; 7132; 7845; 8630; 9493; 10442; 11487; 12635; 13899;
   15289; 16818; 18500; 20350; 22385; 24623; 27086; 29794; 32767].

Definition saturate (lo hi x : Z) : Z := Z.max lo (Z.min hi x).

(** bit [k] of a code, as a number *)
Definition bit_of (c k : Z) : Z := c / 2 ^ k mod 2.

(** the difference a code stands for: a sign and a magnitude in eighths,
    quarters, halves and wholes of the step size, each rounded down *)
Definition ima_difference (c step : Z) : Z :=
  (1 - 2 * bit_of c 3) *
  (step / 8 + bit_of c 0 * (step / 4) + bit_of c 1 * (step / 2) + bit_of c 2 * step).

(** small magnitudes lower the step index by one, large ones raise it by 2 to 8 *)
Definition ima_index_change (c : Z) : Z :=
  let k := c mod 8 in if k <? 4 then -1 else 2 * (k - 3).

Definition ima_index (i : Z) : Z := saturate 0 88 i.

(** the reference step: the new step index and the new sample *)
Definition ima_step (c i s : Z) : Z * Z :=
  (ima_index (i + ima_index_change c),
   saturate (-32768) 32767 (s + ima_difference c (nthZ 0 ima_step_sizes i))).

Lemma clamp_step_index_saturates i : clamp_step_index i = ima_index i.
Proof. unfold clamp_step_index, ima_index, saturate. cbv zeta. destruct (Z.ltb_spec i 0); zcase1; lia. Qed.

Lemma clamp_sample_saturates s : clamp_sample s = saturate (-32768) 32767 s.
Proof. unfold clamp_sample, saturate. cbv zeta. destruct (Z.ltb_spec s (-32768)); zcase1; lia. Qed.

Lemma bit_of_mod c k : 0 <= k < 4 -> bit_of c k = bit_of (c mod 16) k.
Proof.
  intros Hk. assert (k = 0 \/ k = 1 \/ k = 2 \/ k = 3) as Hc by lia. unfold bit_of.
  destruct Hc as [-> | [-> | [-> | ->]]]; cbn; dlia.
Qed.

Lemma ima_index_change_mod c : ima_index_change c = ima_index_change (c mod 16).
Proof. unfold ima_index_change. cbv zeta. by replace (c mod 16 mod 8) with (c mod 8) by dlia. Qed.

(** the tests of the code on the bits of a nibble, and its two tables *)
Lemma nibble_bits c : 0 <= c < 16 ->
  bit c 1 = (bit_of c 0 =? 1) /\ bit c 2 = (bit_of c 1 =? 1) /\ bit c 4 = (bit_of c 2 =? 1) /\
  bit c 8 = (bit_of c 3 =? 1) /\ rd IMA_IndexTable c = Ret (ima_index_change c).
Proof.
  intros Hc.
  assert (all_below 16 (fun c =>
    eqb (bit c 1) (bit_of c 0 =? 1) && eqb (bit c 2) (bit_of c 1 =? 1) &&
    eqb (bit c 4) (bit_of c 2 =? 1) && eqb (bit c 8) (bit_of c 3 =? 1) &&
    (nthZ 0 IMA_IndexTable c =? ima_index_change c)) = true) as H by (vm_compute; reflexivity).
  pose proof (all_below_spec _ _ H c ltac:(lia)) as E. cbv beta in E. clear H.
  rewrite !andb_true_iff, !eqb_true_iff, Z.eqb_eq in E. destruct E as [[[[E1 E2] E3] E4] E5].
  rewrite (rd_in 0) by (change (zlen IMA_IndexTable) with 16; lia). by rewrite E5.
Qed.

Lemma step_table_standard : IMA_StepTable = ima_step_sizes.
Proof. reflexivity. Qed.

Lemma bit_of_01 c k : bit_of c k = 0 \/ bit_of c k = 1.
Proof. unfold bit_of. dlia. Qed.

Lemma process_nibble_step c i s :
  ima_ok i s -> process_nibble c i s = Ret (ima_step c i s) /\
    ima_ok (fst (ima_step c i s)) (snd (ima_step c i s)).
Proof.
  intros [Hi Hs]. split.
  - unfold process_nibble, ima_step. rewrite rd_step, land_15 by done. cbn [obind].
    rewrite step_table_standard. set (step := nthZ 0 ima_step_sizes i). clearbody step.
    rewrite ima_index_change_mod. unfold ima_difference.
    rewrite (bit_of_mod c 0), (bit_of_mod c 1), (bit_of_mod c 2), (bit_of_mod c 3) by lia.
    destruct (nibble_bits (c mod 16) ltac:(dlia)) as (-> & -> & -> & -> & ->). cbn [obind].
    rewrite clamp_step_index_saturates, clamp_sample_saturates, !Z.shiftr_div_pow2 by lia.
    change (2 ^ 3) with 8. change (2 ^ 2) with 4. change (2 ^ 1) with 2. do 3 f_equal.
    destruct (bit_of_01 (c mod 16) 0) as [-> | ->], (bit_of_01 (c mod 16) 1) as [-> | ->],
      (bit_of_01 (c mod 16) 2) as [-> | ->], (bit_of_01 (c mod 16) 3) as [-> | ->]; cbn [Z.eqb Pos.eqb]; lia.
  - unfold ima_step. cbn [fst snd]. rewrite <- clamp_sample_saturates, <- clamp_step_index_saturates.
    apply clamp_ok.
Qed.

(** the samples of a sequence of nibbles *)
Fixpoint ima_scan (cs : list Z) (i s : Z) : list Z :=
  match cs with
  | [] => []
  | c :: cs => let p := ima_step c i s in snd p :: ima_scan cs (fst p) (snd p)
  end.

(** a block: the first sample and the step index in its header, then [m]
    bytes of two nibbles, the low one first *)
Definition nibbles_of (bs : list Z) : list Z := flat_map (fun x => [x; x / 16]) bs.
Definition mono_block (m : nat) (b : list Z) : list Z :=
  let s0 := s16 (Z.lor (nthZ 0 b 0) (Z.shiftl (nthZ 0 b 1) 8)) in
  s0 :: ima_scan (nibbles_of (take m (drop 4 b))) (ima_index (nthZ 0 b 2)) s0.

Lemma mono_decode_loop_spec bs fuel sp sr dp dm dr i s :
  ima_ok i s -> length dm = (4 * length bs)%nat -> (length bs <= fuel)%nat ->
  mono_decode_loop fuel (2 * zlen bs) (sp ++ bs ++ sr) (zlen sp) (dp ++ dm ++ dr) (zlen dp) i s
    = Ret (dp ++ flat_map sample_bytes (ima_scan (nibbles_of bs) i s) ++ dr,
           zlen dp + 4 * zlen bs).
Proof.
  revert fuel sp dp dm i s. induction bs as [|b bs IH]; intros fuel sp dp dm i s Hok Hm Hf.
  { destruct dm; [|simpl in Hm; lia]. destruct fuel; cbn [mono_decode_loop];
      change (2 * zlen (@nil Z)) with 0; simpl; by rewrite Z.add_0_r. }
  destruct dm as [|x1 [|x2 [|x3 [|x4 dm]]]]; simpl in Hm; try lia.
  destruct fuel as [|fuel]; [simpl in Hf; lia|]. rewrite zlen_cons.
  cbn [mono_decode_loop app]. destruct (Z.leb_spec (2 * (zlen bs + 1)) 0).
  { pose proof (zlen_nonneg bs). lia. }
  rewrite rd_app by done. cbn [obind].
  destruct (process_nibble_step b i s Hok) as [-> Hok1]. destruct (ima_step b i s) as [i1 s1] eqn:E1.
  cbn [obind fst snd] in *. rewrite W16_app by done. cbn [obind].
  replace (Z.shiftr b 4) with (b / 16) by (by rewrite Z.shiftr_div_pow2).
  destruct (process_nibble_step (b / 16) i1 s1 Hok1) as [-> Hok2].
  destruct (ima_step (b / 16) i1 s1) as [i2 s2] eqn:E2. cbn [obind fst snd] in *.
  change (LOBYTE s1 :: HIBYTE s1 :: x3 :: x4 :: dm ++ dr)
    with ([LOBYTE s1; HIBYTE s1] ++ x3 :: x4 :: dm ++ dr).
  rewrite app_assoc, W16_app by (rewrite zlen_app; done). cbn [obind].
  specialize (IH fuel (sp ++ [b]) (dp ++ [LOBYTE s1; HIBYTE s1; LOBYTE s2; HIBYTE s2]) dm i2 s2 Hok2
    ltac:(lia) ltac:(simpl in Hf; lia)).
  rewrite !zlen_app, <- !app_assoc in IH.
  replace (2 * (zlen bs + 1) - 2) with (2 * zlen bs) by lia. rewrite <- !app_assoc.
  cbn [nibbles_of flat_map ima_scan app]. rewrite E1. cbn [fst snd]. rewrite E2. cbn [fst snd flat_map].
  etransitivity; [exact IH|]. f_equal. f_equal. unfold zlen. simpl. lia.
Qed.

(** a list that is long enough starts with four bytes and [m] more *)
Lemma split_block (b : list Z) m :
  (4 + m <= length b)%nat ->
  exists b0 b1 b2 b3, b = b0 :: b1 :: b2 :: b3 :: (take m (drop 4 b) ++ drop (4 + m) b).
Proof.
  intros H. destruct b as [|b0 [|b1 [|b2 [|b3 b]]]]; simpl in H; try lia.
  exists b0, b1, b2, b3. simpl. by rewrite take_drop.
Qed.

Lemma mono_decode_block_spec m sp b dp dm dr align k :
  (4 + m <= length b)%nat -> length dm = (2 + 4 * m)%nat ->
  mono_decode_blocks (S k) align (2 * Z.of_nat m) (sp ++ b) (zlen sp) (dp ++ dm ++ dr) (zlen dp) =
  mono_decode_blocks k align (2 * Z.of_nat m) (sp ++ b) (zlen sp + align)
    (dp ++ flat_map sample_bytes (mono_block m b) ++ dr) (zlen dp + 2 + 4 * Z.of_nat m).
Proof.
  intros Hb Hm. destruct (split_block b m Hb) as (b0 & b1 & b2 & b3 & Eb).
  set (bs := take m (drop 4 b)) in *. set (rest := drop (4 + m) b) in *.
  assert (length bs = m) as Hbs by (unfold bs; rewrite length_take, length_drop; lia).
  destruct dm as [|x1 [|x2 dm]]; simpl in Hm; try lia.
  assert (mono_block m b = s16 (Z.lor b0 (Z.shiftl b1 8)) ::
    ima_scan (nibbles_of bs) (ima_index b2) (s16 (Z.lor b0 (Z.shiftl b1 8))))
    as -> by (unfold mono_block; fold bs; rewrite Eb; reflexivity).
  clearbody bs rest. subst b. cbn [mono_decode_blocks app].
  rewrite R16_app by done. cbn [obind].
  change (b0 :: b1 :: b2 :: b3 :: bs ++ rest) with ([b0; b1] ++ b2 :: b3 :: bs ++ rest).
  rewrite (app_assoc sp), (rd_app (sp ++ [b0; b1])) by (rewrite zlen_app; done). cbn [obind].
  rewrite W16_app by done. cbn [obind].
  set (s0 := s16 (Z.lor b0 (Z.shiftl b1 8))).
  pose proof (mono_decode_loop_spec bs (Z.to_nat (2 * Z.of_nat m)) (sp ++ [b0; b1; b2; b3]) rest
    (dp ++ [LOBYTE s0; HIBYTE s0]) dm dr (ima_index b2) s0) as H.
  rewrite !zlen_app, <- !app_assoc in H. unfold zlen in H at 1. rewrite Hbs in H.
  rewrite <- !app_assoc. etransitivity; [|reflexivity].
  unshelve epose proof (H _ _ _) as H'; [|lia|lia|].
  { rewrite <- clamp_step_index_saturates. destruct (clamp_ok b2 0) as [? _]. split; [done|]. by apply wrapS_range. }
  clear H. cbn [app] in H' |- *. change (zlen [b0; b1; b2; b3]) with 4 in H'.
  change (zlen [LOBYTE s0; HIBYTE s0]) with 2 in H'. rewrite clamp_step_index_saturates, H'. cbn [obind].
  f_equal. unfold zlen. lia.
Qed.

(** [k] blocks, [align] bytes apart *)
Fixpoint mono_blocks (k m align : nat) (b : list Z) : list Z :=
  match k with
  | O => []
  | S k => mono_block m b ++ mono_blocks k m align (drop align b)
  end.

Lemma length_ima_scan cs i s : length (ima_scan cs i s) = length cs.
Proof. revert i s. induction cs as [|c cs IH]; intros i s; [done|]. simpl. by rewrite IH. Qed.

Lemma length_mono_block m b :
  (4 + m <= length b)%nat -> length (mono_block m b) = (1 + 2 * m)%nat.
Proof.
  intros H. unfold mono_block. cbn [length]. rewrite length_ima_scan.
  assert (forall l : list Z, length (nibbles_of l) = (2 * length l)%nat) as E.
  { induction l as [|x l IH]; [done|]. simpl in *. rewrite IH. lia. }
  rewrite E, length_take, length_drop. lia.
Qed.

Lemma mono_decode_blocks_spec k m align b sp dp dm dr :
  (4 + m <= align)%nat -> (k * align <= length b)%nat -> length dm = (k * (2 + 4 * m))%nat ->
  mono_decode_blocks k (Z.of_nat align) (2 * Z.of_nat m) (sp ++ b) (zlen sp) (dp ++ dm ++ dr) (zlen dp)
    = Ret (dp ++ flat_map sample_bytes (mono_blocks k m align b) ++ dr).
Proof.
  intros Ha. revert b sp dp dm. induction k as [|k IH]; intros b sp dp dm Hb Hm.
  { destruct dm; [done|simpl in Hm; lia]. }
  rewrite <- (take_drop (2 + 4 * m) dm), <- app_assoc.
  rewrite mono_decode_block_spec; [|lia|rewrite length_take; lia].
  set (out := flat_map sample_bytes (mono_block m b)).
  assert (length out = 2 + 4 * m)%nat as Hout.
  { unfold out. rewrite length_samples, length_mono_block by lia. lia. }
  specialize (IH (drop align b) (sp ++ take align b) (dp ++ out) (drop (2 + 4 * m) dm)).
  rewrite <- !app_assoc, take_drop, !zlen_app in IH.
  replace (zlen (take align b)) with (Z.of_nat align) in IH
    by (unfold zlen; rewrite length_take; lia).
  replace (zlen dp + zlen out) with (zlen dp + 2 + 4 * Z.of_nat m) in IH by (unfold zlen; lia).
  rewrite IH; [|rewrite length_drop; lia..]. cbn [mono_blocks]. rewrite flat_map_app. fold out.
  by rewrite <- app_assoc.
Qed.

(** C38: on a format whose blocks hold an odd number 2m+1 of samples (opening a
    stream refuses any other) and are at least 4+m bytes long (which opening a
    stream does not check), the mono decoder decodes as many whole blocks as
    both buffers have room for, without leaving them: the destination receives
    the reference decoding of each block in order, its rest is unchanged and
    the sizes reported are the bytes of the whole blocks.  The reference is
    written from the IMA recommendation, as arithmetic on the values of the
    codes with its own step sizes, index changes and saturation. *)
Theorem cvtMMima16K_spec w m src nsrc dst ndst :
  wSamplesPerBlock w = 2 * Z.of_nat m + 1 -> 4 + Z.of_nat m <= nBlockAlign w ->
  0 <= nsrc <= zlen src -> 0 <= ndst <= zlen dst -> zlen src < 2 ^ 32 -> zlen dst < 2 ^ 32 ->
  let n := Z.min (nsrc / nBlockAlign w) (ndst / (wSamplesPerBlock w * 2)) in
  cvtMMima16K w src nsrc dst ndst =
  Ret (flat_map sample_bytes (mono_blocks (Z.to_nat n) m (Z.to_nat (nBlockAlign w)) src)
         ++ drop (Z.to_nat (n * (2 + 4 * Z.of_nat m))) dst,
       n * nBlockAlign w, n * wSamplesPerBlock w * 2).
Proof.
  intros Hspb Hal Hs Hd Hws Hwd n. unfold cvtMMima16K, div_u.
  destruct (Z.eqb_spec (nBlockAlign w) 0); [lia|].
  destruct (Z.eqb_spec (wSamplesPerBlock w * 2) 0); [lia|]. cbn [obind]. fold n.
  set (al := nBlockAlign w) in *.
  assert (0 <= n /\ n * al <= zlen src /\ n * (wSamplesPerBlock w * 2) <= zlen dst) as (Hn0 & Hn1 & Hn2).
  { unfold n. pose proof (Z.div_pos nsrc al) as P1. pose proof (Z.div_pos ndst (wSamplesPerBlock w * 2)) as P2.
    pose proof (Z.mul_div_le nsrc al) as P3. pose proof (Z.mul_div_le ndst (wSamplesPerBlock w * 2)) as P4.
    split_and!; [lia|nia|nia]. }
  clearbody n. unfold zlen in *.
  pose proof (mono_decode_blocks_spec (Z.to_nat n) m (Z.to_nat al) src [] []
    (take (Z.to_nat (n * (2 + 4 * Z.of_nat m))) dst) (drop (Z.to_nat (n * (2 + 4 * Z.of_nat m))) dst)) as H.
  rewrite !app_nil_l, take_drop, Z2Nat.id in H by lia. change (zlen (@nil Z)) with 0 in H.
  replace (wSamplesPerBlock w - 1) with (2 * Z.of_nat m) by lia.
  rewrite H; [|lia|nia|rewrite length_take; nia]. cbn [obind].
  rewrite !wrapU_small by (unfold isU; nia). done.
Qed.

(** ** Deviations *)

Lemma pack_nibbles c1 c2 :
  0 <= c1 < 16 -> 0 <= c2 < 16 ->
  Z.land (pack c1 c2) 15 = Z.land c2 15 /\ Z.land (Z.shiftr (pack c1 c2) 4) 15 = Z.land c1 15.
Proof.
  intros H1 H2.
  assert (all_below 16 (fun c1 => all_below 16 (fun c2 =>
    (Z.land (pack c1 c2) 15 =? Z.land c2 15) &&
    (Z.land (Z.shiftr (pack c1 c2) 4) 15 =? Z.land c1 15))) = true) as H by (vm_compute; reflexivity).
  pose proof (all_below_spec _ _ (all_below_spec _ _ H c1 H1) c2 H2) as E. cbv beta in E. clear H.
  by zhyps.
Qed.

(** a mono format of [spb] samples in blocks of [al] bytes, and a stereo one *)
Definition mono_fmt (spb al : Z) : WAVEFORMATEX := mkWfx WAVE_FORMAT_IMA_ADPCM 1 8000 4000 al 4 2 spb.
Definition stereo_fmt (spb al : Z) : WAVEFORMATEX := mkWfx WAVE_FORMAT_IMA_ADPCM 2 8000 8000 al 4 2 spb.
Definition pcm_fmt (ch : Z) : WAVEFORMATEX := mkWfx WAVE_FORMAT_PCM ch 8000 (16000 * ch) (2 * ch) 16 0 0.

(** the encoders put the code of the earlier sample in the high nibble, the
    decoders read the low nibble first: of every coded byte the decoder applies
    the two codes in the opposite order.  So the samples 0, 8, -30, 5, -20, which
    the encoder tracks as 0, 8, -11, 7, -21, are decoded as 0, -11, 11, -19, 10. *)
Theorem ima_nibbles_swapped :
  (forall c1 c2 i s, 0 <= c1 < 16 -> 0 <= c2 < 16 ->
     process_nibble (pack c1 c2) i s = process_nibble c2 i s /\
     process_nibble (Z.shiftr (pack c1 c2) 4) i s = process_nibble c1 i s) /\
  exists coded,
    cvtMM16imaK (mono_fmt 5 6) 0 (flat_map sample_bytes [0; 8; -30; 5; -20]) 10 [0; 0; 0; 0; 0; 0] 6
      = Ret (coded, 10, 6, 15) /\
    cvtMMima16K (mono_fmt 5 6) coded 6 (replicate 10 0) 10
      = Ret (flat_map sample_bytes [0; -11; 11; -19; 10], 6, 10).
Proof.
  split.
  - intros c1 c2 i s H1 H2. destruct (pack_nibbles c1 c2 H1 H2) as [E1 E2].
    unfold process_nibble. by rewrite E1, E2.
  - exists [0; 0; 0; 0; 95; 61]. split; vm_compute; reflexivity.
Qed.

(** the checks made when a stream is opened do not protect the converters.
    A stereo format of 5 samples per block is accepted, although the stereo
    loops work on 8 samples at a time: decoding one block into a buffer of its
    size writes past it.  A mono format whose 9 samples need 8 bytes is
    accepted with blocks of 4 bytes, the comparison with the block size being
    the wrong way round: decoding a block reads past the source. *)
Theorem ima_open_overrun :
  let st := mkInst (stereo_fmt 5 12) (pcm_fmt 2) None in
  let mo := mkInst (mono_fmt 9 4) (pcm_fmt 1) None in
  snd (ADPCM_StreamOpen st true) = MMSYSERR_NOERROR /\
  ADPCM_StreamConvert (fst (ADPCM_StreamOpen st true)) 0 (replicate 12 0) 12 (replicate 20 0) 20 = Fault /\
  snd (ADPCM_StreamOpen mo true) = MMSYSERR_NOERROR /\
  ADPCM_StreamConvert (fst (ADPCM_StreamOpen mo true)) 0 (replicate 4 0) 4 (replicate 18 0) 18 = Fault.
Proof. vm_compute. done. Qed.

(** *** Witnesses *)
Lemma generate_process_in_step_witness :
  exists code i' s',
    generate_nibble (-300) 40 (-100) = Ret (code, i', s') /\ 0 <= code < 16 /\
    process_nibble code 40 (-100) = Ret (i', s') /\ ima_ok i' s' /\
    let step := nthZ 0 IMA_StepTable 40 in
    (Z.abs (-300 - -100) <= 7 * step / 4 -> Z.abs (-300 - s') <= step / 8 + 3).
Proof. apply (generate_process_in_step (-300) 40 (-100)); unfold ima_ok, isS; lia. Defined.

Lemma cvtMMima16K_spec_witness :
  cvtMMima16K (mono_fmt 3 6) [1; 0; 4; 0; 0x5F; 9; 2; 0; 3] 9 (replicate 8 7) 8 =
  Ret (flat_map sample_bytes (mono_blocks 1 1 6 [1; 0; 4; 0; 0x5F; 9; 2; 0; 3]) ++ [7; 7], 6, 6).
Proof.
  apply (cvtMMima16K_spec (mono_fmt 3 6) 1 [1; 0; 4; 0; 0x5F; 9; 2; 0; 3] 9 (replicate 8 7) 8);
    unfold zlen; cbn; lia.
Defined.

End ImaAdpcmSpec.
