(* ===== verification/Utf8.v ===== *)
(** * UTF-8 conversion (libs/unicode/utf8.c)

    WCHAR strings to UTF-8 and back, with the length queries.  A string is a
    list of 16-bit units or of bytes with an index; the return value -1 is a
    destination overflow, -2 an invalid input. *)
From S2P Require Import Prelude.

Module Utf8.

Definition WC_ERR_INVALID_CHARS : Z := 0x80.
Definition MB_ERR_INVALID_CHARS : Z := 0x08.
Definition has_flag (flags f : Z) : bool := negb (Z.land flags f =? 0).

Definition utf8_length : list Z :=
  [0;0;0;0;0;0;0;0;0;0;0;0;0;0;0;0;
   0;0;0;0;0;0;0;0;0;0;0;0;0;0;0;0;
   0;0;0;0;0;0;0;0;0;0;0;0;0;0;0;0;
   0;0;0;0;0;0;0;0;0;0;0;0;0;0;0;0;
   0;0;1;1;1;1;1;1;1;1;1;1;1;1;1;1;
   1;1;1;1;1;1;1;1;1;1;1;1;1;1;1;1;
   2;2;2;2;2;2;2;2;2;2;2;2;2;2;2;2;
   3;3;3;3;3;0;0;0;0;0;0;0;0;0;0;0].

Definition utf8_mask : list Z := [0x7f; 0x1f; 0x0f; 0x07].
Definition utf8_minval : list Z := [0x0; 0x80; 0x800; 0x10000].

Definition get_surrogate_value (src : list Z) (si : Z) (srclen : nat) : outcome Z :=
  let! c0 := rd src si in
  if (0xd800 <=? c0) && (c0 <=? 0xdfff) then
    if (0xdbff <? c0) || (srclen <=? 1)%nat then Ret 0 else
    let! c1 := rd src (si + 1) in
    if (c1 <? 0xdc00) || (0xdfff <? c1) then Ret 0
    else Ret (0x10000 + Z.shiftl (Z.land c0 0x3ff) 10 + Z.land c1 0x3ff)
  else Ret c0.

Fixpoint length_wcs_loop (flags : Z) (src : list Z) (si : Z) (srclen : nat) (len : Z) : outcome Z :=
  match srclen with
  | O => Ret len
  | S n =>
    let! ch := rd src si in
    if ch <? 0x80 then length_wcs_loop flags src (si + 1) n (len + 1)
    else if ch <? 0x800 then length_wcs_loop flags src (si + 1) n (len + 2)
    else
      let! val := get_surrogate_value src si srclen in
      if val =? 0 then
        if has_flag flags WC_ERR_INVALID_CHARS then Ret (-2)
        else length_wcs_loop flags src (si + 1) n len
      else if val <? 0x10000 then length_wcs_loop flags src (si + 1) n (len + 3)
      else length_wcs_loop flags src (si + 1) n (len + 4)
  end.

Definition get_length_wcs_utf8 (flags : Z) (src : list Z) (srclen : Z) : outcome Z :=
  length_wcs_loop flags src 0 (Z.to_nat srclen) 0.

(** the low six bits as a continuation byte *)
Definition cont_byte (v : Z) : Z := Z.lor 0x80 (Z.land v 0x3f).

(** the loop of [wine_utf8_wcstombs]: [len] is the room left, [di] the next
    byte; the result is the return value and the destination *)
Fixpoint wcstombs_loop (flags : Z) (src : list Z) (si : Z) (srclen : nat)
    (dst : list Z) (di len dstlen : Z) : outcome (Z * list Z) :=
  match srclen with
  | O => Ret (dstlen - len, dst)
  | S n =>
    let! ch := rd src si in
    if ch <? 0x80 then
      if len =? 0 then Ret (-1, dst) else
      let! dst := wr dst di (u8 ch) in
      wcstombs_loop flags src (si + 1) n dst (di + 1) (len - 1) dstlen
    else if ch <? 0x800 then
      if len - 2 <? 0 then Ret (-1, dst) else
      let! dst := wr dst (di + 1) (u8 (cont_byte ch)) in
      let! dst := wr dst di (u8 (Z.lor 0xc0 (Z.shiftr ch 6))) in
      wcstombs_loop flags src (si + 1) n dst (di + 2) (len - 2) dstlen
    else
      let! val := get_surrogate_value src si srclen in
      if val =? 0 then
        if has_flag flags WC_ERR_INVALID_CHARS then Ret (-2, dst)
        else wcstombs_loop flags src (si + 1) n dst di len dstlen
      else if val <? 0x10000 then
        if len - 3 <? 0 then Ret (-1, dst) else
        let! dst := wr dst (di + 2) (u8 (cont_byte val)) in
        let val := Z.shiftr val 6 in
        let! dst := wr dst (di + 1) (u8 (cont_byte val)) in
        let val := Z.shiftr val 6 in
        let! dst := wr dst di (u8 (Z.lor 0xe0 val)) in
        wcstombs_loop flags src (si + 1) n dst (di + 3) (len - 3) dstlen
      else
        if len - 4 <? 0 then Ret (-1, dst) else
        let! dst := wr dst (di + 3) (u8 (cont_byte val)) in
        let val := Z.shiftr val 6 in
        let! dst := wr dst (di + 2) (u8 (cont_byte val)) in
        let val := Z.shiftr val 6 in
        let! dst := wr dst (di + 1) (u8 (cont_byte val)) in
        let val := Z.shiftr val 6 in
        let! dst := wr dst di (u8 (Z.lor 0xf0 val)) in
        wcstombs_loop flags src (si + 1) n dst (di + 4) (len - 4) dstlen
  end.

Definition wine_utf8_wcstombs (flags : Z) (src : list Z) (srclen : Z) (dst : list Z) (dstlen : Z) :
    outcome (Z * list Z) :=
  if dstlen =? 0 then let! n := get_length_wcs_utf8 flags src srclen in Ret (n, dst)
  else wcstombs_loop flags src 0 (Z.to_nat srclen) dst 0 dstlen dstlen.

(** ** Decoding *)

(** [if ((ch = *src ^ 0x80) >= 0x40) goto bad; res = (res << 6) | ch] *)
Definition cont (src : list Z) (si res : Z) : outcome (option Z) :=
  let! b := rd src si in
  let ch := u8 (Z.lxor b 0x80) in
  if 0x40 <=? ch then Ret None else Ret (Some (Z.lor (u32 (Z.shiftl res 6)) ch)).

(** the cases 1, 2 and 3 of the switch, each falling through to the one
    before: the source index reached and the value, [None] at [bad] *)
Definition case1 (len : Z) (src : list Z) (si res : Z) : outcome (Z * option Z) :=
  let! r := cont src si res in
  match r with
  | None => Ret (si, None)
  | Some res =>
    let! minval := rd utf8_minval len in
    if res <? minval then Ret (si + 1, None)
    else if 0x10ffff <? res then Ret (si + 1, None)
    else Ret (si + 1, Some res)
  end.
Definition case2 (len : Z) (src : list Z) (si res : Z) : outcome (Z * option Z) :=
  let! r := cont src si res in
  match r with
  | None => Ret (si, None)
  | Some res => case1 len src (si + 1) res
  end.
Definition case3 (len : Z) (src : list Z) (si res : Z) : outcome (Z * option Z) :=
  let! r := cont src si res in
  match r with
  | None => Ret (si, None)
  | Some res => case2 len src (si + 1) res
  end.

(** the sequence started by the byte [ch], which is at [si - 1] *)
Definition sequence (src : list Z) (si srcend ch : Z) : outcome (Z * option Z) :=
  let! len := rd utf8_length (ch - 0x80) in
  if srcend <? si + len then Ret (si, None) else
  let! mask := rd utf8_mask len in
  let res := Z.land ch mask in
  if len =? 3 then case3 len src si res
  else if len =? 2 then case2 len src si res
  else if len =? 1 then case1 len src si res
  else Ret (si, None).

Fixpoint length_mbs_loop (fuel : nat) (flags : Z) (src : list Z) (si srcend ret : Z) : outcome Z :=
  if srcend <=? si then Ret ret else
  match fuel with
  | O => Spin
  | S fuel =>
    let! ch := rd src si in
    if ch <? 0x80 then length_mbs_loop fuel flags src (si + 1) srcend (ret + 1) else
    let! (si, r) := sequence src (si + 1) srcend ch in
    match r with
    | Some res => length_mbs_loop fuel flags src si srcend (if 0xffff <? res then ret + 2 else ret + 1)
    | None =>
      if has_flag flags MB_ERR_INVALID_CHARS then Ret (-2)
      else length_mbs_loop fuel flags src si srcend ret
    end
  end.

Definition get_length_mbs_utf8 (flags : Z) (src : list Z) (srclen : Z) : outcome Z :=
  length_mbs_loop (Z.to_nat srclen) flags src 0 srclen 0.

(** after the loop *)
Definition mbstowcs_end (si srcend : Z) (dst : list Z) (di dstend dstlen srclen : Z) : Z * list Z :=
  if si <? srcend then (-1, dst) else
  let result := dstlen - (dstend - di) in
  if (result =? 0) && (0 <? srclen) then (-2, dst) else (result, dst).

Fixpoint mbstowcs_loop (fuel : nat) (flags : Z) (src : list Z) (si srcend : Z) (dst : list Z)
    (di dstend dstlen srclen : Z) : outcome (Z * list Z) :=
  if negb ((di <? dstend) && (si <? srcend))
  then Ret (mbstowcs_end si srcend dst di dstend dstlen srclen) else
  match fuel with
  | O => Spin
  | S fuel =>
    let! ch := rd src si in
    if ch <? 0x80 then
      let! dst := wr dst di ch in
      mbstowcs_loop fuel flags src (si + 1) srcend dst (di + 1) dstend dstlen srclen
    else
    let! (si, r) := sequence src (si + 1) srcend ch in
    match r with
    | Some res =>
      if res <=? 0xffff then
        let! dst := wr dst di (u16 res) in
        mbstowcs_loop fuel flags src si srcend dst (di + 1) dstend dstlen srclen
      else if di =? dstend - 1 then Ret (-1, dst)
      else
        let res := res - 0x10000 in
        let! dst := wr dst di (u16 (Z.lor 0xd800 (Z.shiftr res 10))) in
        let! dst := wr dst (di + 1) (u16 (Z.lor 0xdc00 (Z.land res 0x3ff))) in
        mbstowcs_loop fuel flags src si srcend dst (di + 2) dstend dstlen srclen
    | None =>
      if has_flag flags MB_ERR_INVALID_CHARS then Ret (-2, dst)
      else mbstowcs_loop fuel flags src si srcend dst di dstend dstlen srclen
    end
  end.

Definition wine_utf8_mbstowcs (flags : Z) (src : list Z) (srclen : Z) (dst : list Z) (dstlen : Z) :
    outcome (Z * list Z) :=
  if dstlen =? 0 then let! n := get_length_mbs_utf8 flags src srclen in Ret (n, dst)
  else mbstowcs_loop (Z.to_nat srclen) flags src 0 srclen dst 0 dstlen dstlen srclen.

End Utf8.
