(* ===== verification/Utf8Spec.v ===== *)
(** * Properties of the UTF-8 conversions

    The reference encodings of a code point, the agreement of the length
    queries with the conversions, the round trip through UTF-8, the rejection
    of everything but shortest forms, and the bounds of the decoder on any
    input. *)
From S2P Require Import Prelude Utf8.

Module Utf8Spec.
Import Utf8.

(** ** Reference encodings *)
Definition utf8 (c : Z) : list Z :=
  if c <? 0x80 then [c]
  else if c <? 0x800 then [0xc0 + c / 64; 0x80 + c mod 64]
  else if c <? 0x10000 then [0xe0 + c / 4096; 0x80 + c / 64 mod 64; 0x80 + c mod 64]
  else [0xf0 + c / 262144; 0x80 + c / 4096 mod 64; 0x80 + c / 64 mod 64; 0x80 + c mod 64].

Definition utf16 (c : Z) : list Z :=
  if c <? 0x10000 then [c] else [0xd800 + (c - 0x10000) / 1024; 0xdc00 + (c - 0x10000) mod 1024].

(** a Unicode scalar value: a code point that is not a surrogate *)
Definition scalar (c : Z) : Prop := 0 <= c < 0xd800 \/ 0xe000 <= c < 0x110000.

(** ** Bit operations as arithmetic *)
Lemma land_3f v : Z.land v 0x3f = v mod 64.
Proof. exact (land_pow2_mask v 6 ltac:(lia)). Qed.
Lemma land_3ff v : Z.land v 0x3ff = v mod 1024.
Proof. exact (land_pow2_mask v 10 ltac:(lia)). Qed.

Lemma cont_byte_arith v : u8 (cont_byte v) = 0x80 + v mod 64.
Proof.
  unfold cont_byte. rewrite land_3f. change 0x80 with (2 * 2 ^ 6).
  rewrite lor_low by (lia || dlia). apply wrapU_small. unfold isU. dlia.
Qed.

Lemma lead_byte a k v : 0 <= k <= 5 -> 0 <= v < 2 ^ k -> 0 <= a * 2 ^ k < 256 - 2 ^ k ->
  u8 (Z.lor (a * 2 ^ k) v) = a * 2 ^ k + v.
Proof. intros Hk Hv Ha. rewrite lor_low by lia. apply wrapU_small. unfold isU. lia. Qed.

Lemma lead_c0 v : 0 <= v < 32 -> u8 (Z.lor 0xc0 v) = 0xc0 + v.
Proof. intros. apply (lead_byte 6 5); simpl; lia. Qed.
Lemma lead_e0 v : 0 <= v < 16 -> u8 (Z.lor 0xe0 v) = 0xe0 + v.
Proof. intros. apply (lead_byte 14 4); simpl; lia. Qed.
Lemma lead_f0 v : 0 <= v < 8 -> u8 (Z.lor 0xf0 v) = 0xf0 + v.
Proof. intros. apply (lead_byte 30 3); simpl; lia. Qed.

Lemma shiftr6 v : Z.shiftr v 6 = v / 64.
Proof. by rewrite Z.shiftr_div_pow2. Qed.

Lemma surrogate_arith h l :
  0xd800 <= h <= 0xdbff -> 0xdc00 <= l <= 0xdfff ->
  0x10000 + Z.shiftl (Z.land h 0x3ff) 10 + Z.land l 0x3ff = 0x10000 + (h - 0xd800) * 1024 + (l - 0xdc00).
Proof.
  intros Hh Hl. rewrite !land_3ff, Z.shiftl_mul_pow2 by lia. dlia.
Qed.

(** ** Encoding

    The code point of the unit at the head of a string, with the next unit
    when it is a high surrogate; [None] for an unpaired surrogate. *)
Definition unit_val (l : list Z) : option Z :=
  match l with
  | [] => None
  | c :: r =>
    if (0xd800 <=? c) && (c <=? 0xdfff) then
      match r with
      | d :: _ =>
        if (c <=? 0xdbff) && (0xdc00 <=? d) && (d <=? 0xdfff)
        then Some (0x10000 + (c - 0xd800) * 1024 + (d - 0xdc00)) else None
      | [] => None
      end
    else Some c
  end.

(** the whole output: every unit is looked at on its own, so that the low
    surrogate of a pair is an unpaired surrogate when its turn comes;
    [strict] is the flag WC_ERR_INVALID_CHARS *)
Fixpoint wcs_ref (strict : bool) (l : list Z) : option (list Z) :=
  match l with
  | [] => Some []
  | _ :: r =>
    match unit_val l with
    | Some v => match wcs_ref strict r with Some out => Some (utf8 v ++ out) | None => None end
    | None => if strict then None else wcs_ref strict r
    end
  end.

(** the code point of a unit is the unit, or has four bytes *)
Lemma unit_val_range c r v :
  isU 16 c -> unit_val (c :: r) = Some v -> v = c \/ 0x10000 <= v < 0x110000 /\ 0xd800 <= c.
Proof.
  intros Hc. unfold unit_val. destruct (Z.leb_spec 0xd800 c), (Z.leb_spec c 0xdfff); cbn [andb];
    try (intros [= <-]; by left).
  destruct r as [|d r]; [done|].
  destruct (Z.leb_spec c 0xdbff), (Z.leb_spec 0xdc00 d), (Z.leb_spec d 0xdfff); cbn [andb]; try done.
  intros [= <-]. right. lia.
Qed.

Lemma get_surrogate_value_spec sp c r :
  get_surrogate_value (sp ++ c :: r) (zlen sp) (S (length r)) =
  Ret (match unit_val (c :: r) with Some v => v | None => 0 end).
Proof.
  unfold get_surrogate_value, unit_val. rewrite rd_app by done. cbn [obind].
  destruct (Z.leb_spec 0xd800 c), (Z.leb_spec c 0xdfff); cbn [andb]; try done.
  destruct r as [|d r]; [by rewrite orb_true_r|].
  destruct (Z.ltb_spec 0xdbff c), (Z.leb_spec c 0xdbff); cbn [orb]; try lia; try done.
  cbn [length Nat.leb andb].
  rewrite (cons_middle c), (app_assoc sp), rd_app by (by rewrite zlen_app). cbn [obind].
  destruct (Z.ltb_spec d 0xdc00), (Z.ltb_spec 0xdfff d), (Z.leb_spec 0xdc00 d), (Z.leb_spec d 0xdfff);
    cbn [orb andb]; try lia; try done.
  by rewrite surrogate_arith by lia.
Qed.

(** what follows a unit is reached with the unit added to the prefix *)
Lemma length_wcs_loop_next flags sp c r n k :
  length_wcs_loop flags (sp ++ c :: r) (zlen sp + 1) k n =
  length_wcs_loop flags ((sp ++ [c]) ++ r) (zlen (sp ++ [c])) k n.
Proof. by rewrite <- app_assoc, zlen_app. Qed.

(** the length query computes the length of the reference output *)
Lemma length_wcs_loop_spec flags l : forall sp len,
  Forall (isU 16) l ->
  length_wcs_loop flags (sp ++ l) (zlen sp) (length l) len =
  Ret (match wcs_ref (has_flag flags WC_ERR_INVALID_CHARS) l with
       | Some bs => len + zlen bs
       | None => -2
       end).
Proof.
  induction l as [|c r IH]; intros sp len H; [simpl; by rewrite Z.add_0_r|].
  inversion_clear H as [|? ? Hc Hr]. cbn [length_wcs_loop length]. rewrite rd_app by done. cbn [obind].
  rewrite get_surrogate_value_spec. cbn [obind]. rewrite !length_wcs_loop_next, !IH by done.
  cbn [wcs_ref]. set (ref := wcs_ref _ r).
  destruct (unit_val (c :: r)) as [v|] eqn:E.
  - apply unit_val_range in E as Hv; [|done]. unfold utf8.
    assert (c < 0x800 -> v = c) as Hs by lia. unfold isU in Hc.
    destruct (Z.ltb_spec c 0x80); [rewrite Hs by lia; zcases; destruct ref; rewrite ?zlen_cons; simpl; f_equal; lia|].
    destruct (Z.ltb_spec c 0x800); [rewrite Hs by lia; zcases; destruct ref; rewrite ?zlen_cons; simpl; f_equal; lia|].
    destruct (Z.eqb_spec v 0); [lia|].
    zcases; destruct ref; rewrite ?zlen_cons; simpl; f_equal; lia.
  - revert E. unfold unit_val. destruct (Z.ltb_spec c 0x80), (Z.ltb_spec c 0x800); try lia.
    + destruct (Z.leb_spec 0xd800 c); [lia|done].
    + destruct (Z.leb_spec 0xd800 c); [lia|done].
    + intros _. simpl. by destruct (has_flag _ _).
Qed.

Lemma utf8_zlen v : zlen (utf8 v) =
  if v <? 0x80 then 1 else if v <? 0x800 then 2 else if v <? 0x10000 then 3 else 4.
Proof. unfold utf8. by repeat case_match. Qed.

(** a list whose shape contradicts its length *)
Ltac bad_len := exfalso; unfold zlen in *; simpl in *; lia.

(** one unit that has a code point, with room for its bytes *)
Lemma wcstombs_step flags sp c r v dp dm dr len dstlen :
  isU 16 c -> unit_val (c :: r) = Some v -> zlen dm = zlen (utf8 v) -> zlen (utf8 v) <= len ->
  wcstombs_loop flags (sp ++ c :: r) (zlen sp) (S (length r)) (dp ++ dm ++ dr) (zlen dp) len dstlen =
  wcstombs_loop flags ((sp ++ [c]) ++ r) (zlen (sp ++ [c])) (length r)
    ((dp ++ utf8 v) ++ dr) (zlen (dp ++ utf8 v)) (len - zlen (utf8 v)) dstlen.
Proof.
  intros Hc Hv Hdm Hlen. apply unit_val_range in Hv as Hr; [|done]. unfold isU in Hc.
  cbn [wcstombs_loop]. rewrite rd_app by done. cbn [obind].
  rewrite get_surrogate_value_spec, Hv. cbn [obind]. rewrite zlen_app, (zlen_app dp), <- !app_assoc.
  rewrite utf8_zlen in *. unfold utf8. rewrite !cont_byte_arith, !shiftr6.
  destruct (Z.ltb_spec v 0x80).
  { assert (v = c) as -> by lia. destruct (Z.ltb_spec c 0x80); [|lia].
    destruct (Z.eqb_spec len 0); [lia|]. destruct dm as [|x0 [|? ?]]; try bad_len.
    cbn [app]. rewrite wr_app by done. cbn [obind app]. by rewrite wrapU_small by (unfold isU; lia). }
  destruct (Z.ltb_spec v 0x800).
  { assert (v = c) as -> by lia. destruct (Z.ltb_spec c 0x80); [lia|].
    destruct (Z.ltb_spec c 0x800); [|lia]. destruct (Z.ltb_spec (len - 2) 0); [lia|].
    destruct dm as [|x0 [|x1 [|? ?]]]; try bad_len.
    cbn [app]. rewrite wr_1 by done. cbn [obind]. rewrite wr_app by done. cbn [obind app].
    by rewrite lead_c0 by dlia. }
  destruct (Z.ltb_spec c 0x80); [lia|]. destruct (Z.ltb_spec c 0x800); [lia|].
  destruct (Z.eqb_spec v 0); [lia|]. destruct (Z.ltb_spec v 0x10000).
  - destruct (Z.ltb_spec (len - 3) 0); [lia|].
    destruct dm as [|x0 [|x1 [|x2 [|? ?]]]]; try bad_len.
    cbn [app]. rewrite wr_2 by done. cbn [obind]. rewrite wr_1 by done. cbn [obind].
    rewrite wr_app by done. cbn [obind app].
    rewrite lead_e0 by dlia.
    by replace (v / 4096) with (v / 64 / 64) by dlia.
  - destruct (Z.ltb_spec (len - 4) 0); [lia|].
    destruct dm as [|x0 [|x1 [|x2 [|x3 [|? ?]]]]]; try bad_len.
    cbn [app]. rewrite wr_3 by done. cbn [obind]. rewrite wr_2 by done. cbn [obind].
    rewrite wr_1 by done. cbn [obind]. rewrite wr_app by done. cbn [obind app].
    rewrite lead_f0 by dlia.
    replace (v / 4096) with (v / 64 / 64) by dlia.
    by replace (v / 262144) with (v / 64 / 64 / 64) by dlia.
Qed.

(** one unit without room for its bytes, and one without a code point *)
Lemma wcstombs_step_full flags sp c r v dst di len dstlen :
  isU 16 c -> unit_val (c :: r) = Some v -> 0 <= len < zlen (utf8 v) ->
  wcstombs_loop flags (sp ++ c :: r) (zlen sp) (S (length r)) dst di len dstlen = Ret (-1, dst).
Proof.
  intros Hc Hv Hlen. apply unit_val_range in Hv as Hr; [|done]. unfold isU in Hc.
  cbn [wcstombs_loop]. rewrite rd_app by done. cbn [obind].
  rewrite get_surrogate_value_spec, Hv. cbn [obind]. rewrite utf8_zlen in *.
  destruct (Z.ltb_spec c 0x80); [destruct (Z.eqb_spec len 0); [done|];
    destruct (Z.ltb_spec v 0x80); lia|].
  destruct (Z.ltb_spec c 0x800); [destruct (Z.ltb_spec (len - 2) 0); [done|];
    destruct (Z.ltb_spec v 0x80), (Z.ltb_spec v 0x800); lia|].
  destruct (Z.eqb_spec v 0); [lia|].
  destruct (Z.ltb_spec v 0x10000), (Z.ltb_spec (len - 3) 0), (Z.ltb_spec (len - 4) 0),
    (Z.ltb_spec v 0x80), (Z.ltb_spec v 0x800); try done; lia.
Qed.

Lemma wcstombs_step_bad flags sp c r dst di len dstlen :
  unit_val (c :: r) = None ->
  wcstombs_loop flags (sp ++ c :: r) (zlen sp) (S (length r)) dst di len dstlen =
  if has_flag flags WC_ERR_INVALID_CHARS then Ret (-2, dst)
  else wcstombs_loop flags ((sp ++ [c]) ++ r) (zlen (sp ++ [c])) (length r) dst di len dstlen.
Proof.
  intros Hv. cbn [wcstombs_loop]. rewrite rd_app by done. cbn [obind].
  rewrite get_surrogate_value_spec, Hv. cbn [obind]. rewrite <- app_assoc, zlen_app.
  assert (0xd800 <= c) as Hc.
  { revert Hv. unfold unit_val. destruct (Z.leb_spec 0xd800 c); [done|done]. }
  destruct (Z.ltb_spec c 0x80); [lia|]. destruct (Z.ltb_spec c 0x800); [lia|]. done.
Qed.

Lemma wcstombs_loop_ok flags dstlen l : forall bs sp dp dm dr len,
  Forall (isU 16) l -> wcs_ref (has_flag flags WC_ERR_INVALID_CHARS) l = Some bs ->
  zlen dm = zlen bs -> zlen bs <= len ->
  wcstombs_loop flags (sp ++ l) (zlen sp) (length l) (dp ++ dm ++ dr) (zlen dp) len dstlen
    = Ret (dstlen - (len - zlen bs), dp ++ bs ++ dr).
Proof.
  induction l as [|c r IH]; intros bs sp dp dm dr len Hl Hbs Hdm Hlen.
  { injection Hbs as <-. destruct dm; [|bad_len]. cbn [app wcstombs_loop length].
    rewrite zlen_nil, Z.sub_0_r. done. }
  inversion_clear Hl as [|? ? Hc Hr]. cbn [wcs_ref] in Hbs. cbn [length].
  destruct (unit_val (c :: r)) as [v|] eqn:Hv.
  - destruct (wcs_ref _ r) as [out|] eqn:Ho; [|done]. injection Hbs as <-.
    rewrite zlen_app in *. unfold zlen in Hdm. pose proof (zlen_nonneg out).
    rewrite <- (take_drop (length (utf8 v)) dm), <- app_assoc.
    rewrite (wcstombs_step flags sp c r v); [|done|done|unfold zlen in *; rewrite length_take; lia|lia].
    rewrite (IH out); [|done|done|unfold zlen in *; rewrite length_drop; lia|lia].
    rewrite <- !app_assoc. do 2 f_equal. lia.
  - rewrite wcstombs_step_bad by done. destruct (has_flag _ _); [done|]. by apply IH.
Qed.

Lemma wcstombs_loop_overflow flags dstlen l : forall bs sp dp dm len,
  Forall (isU 16) l -> wcs_ref (has_flag flags WC_ERR_INVALID_CHARS) l = Some bs ->
  0 <= len <= zlen dm -> len < zlen bs ->
  exists dst', zlen dst' = zlen (dp ++ dm) /\
    wcstombs_loop flags (sp ++ l) (zlen sp) (length l) (dp ++ dm) (zlen dp) len dstlen = Ret (-1, dst').
Proof.
  induction l as [|c r IH]; intros bs sp dp dm len Hl Hbs Hdm Hlen.
  { injection Hbs as <-. rewrite zlen_nil in Hlen. lia. }
  inversion_clear Hl as [|? ? Hc Hr]. cbn [wcs_ref] in Hbs. cbn [length].
  destruct (unit_val (c :: r)) as [v|] eqn:Hv.
  - destruct (wcs_ref _ r) as [out|] eqn:Ho; [|done]. injection Hbs as <-.
    destruct (decide (len < zlen (utf8 v))) as [Hfull|Hroom].
    { exists (dp ++ dm). split; [done|]. rewrite (wcstombs_step_full flags sp c r v); [done|done|done|lia]. }
    rewrite zlen_app in Hlen. unfold zlen in Hdm.
    destruct (IH out (sp ++ [c]) (dp ++ utf8 v) (drop (length (utf8 v)) dm) (len - zlen (utf8 v)))
      as (dst' & Hz & Hd); [done|done|unfold zlen in *; rewrite length_drop; lia|lia|].
    exists dst'. split.
    { rewrite Hz. unfold zlen in *. rewrite !length_app, length_drop. lia. }
    rewrite <- (take_drop (length (utf8 v)) dm).
    rewrite (wcstombs_step flags sp c r v); [done|done|done|unfold zlen in *; rewrite length_take; lia|lia].
  - rewrite wcstombs_step_bad by done. destruct (has_flag _ _); [done|]. by apply (IH bs).
Qed.

(** a string that the flag refuses, with room for the units it has *)
Lemma wcstombs_loop_refused flags dstlen l : forall all sp dp dm len,
  Forall (isU 16) l -> has_flag flags WC_ERR_INVALID_CHARS = true -> wcs_ref true l = None ->
  wcs_ref false l = Some all -> zlen all <= len <= zlen dm ->
  exists dst', zlen dst' = zlen (dp ++ dm) /\
    wcstombs_loop flags (sp ++ l) (zlen sp) (length l) (dp ++ dm) (zlen dp) len dstlen = Ret (-2, dst').
Proof.
  induction l as [|c r IH]; intros all sp dp dm len Hl Hf Hn Hall Hlen; [done|].
  inversion_clear Hl as [|? ? Hc Hr]. cbn [wcs_ref] in Hn, Hall. cbn [length].
  destruct (unit_val (c :: r)) as [v|] eqn:Hv; [|exists (dp ++ dm); by rewrite wcstombs_step_bad, Hf].
  destruct (wcs_ref true r) eqn:Ht; [done|]. destruct (wcs_ref false r) as [out|] eqn:Ho; [|done]. injection Hall as <-.
  rewrite zlen_app in Hlen. pose proof (zlen_nonneg out). unfold zlen in Hlen.
  destruct (IH out (sp ++ [c]) (dp ++ utf8 v) (drop (length (utf8 v)) dm) (len - zlen (utf8 v)))
    as (dst' & Hz & Hd); [done|done|done|done|unfold zlen in *; rewrite length_drop; lia|].
  exists dst'. split; [rewrite Hz; unfold zlen in *; rewrite !length_app, length_drop; lia|].
  rewrite <- (take_drop (length (utf8 v)) dm).
  rewrite (wcstombs_step flags sp c r v); [done|done|done|unfold zlen in *; rewrite length_take; lia|unfold zlen in *; lia].
Qed.

(** the two calls of the conversion to UTF-8 agree.  The query (destination
    length 0) returns the length of the reference output, or -2 when the flag
    asks for an error and there is an invalid character; the conversion of a
    valid string returns that same length with the reference output at the
    start of a destination that is long enough, and -1 when it is not; nothing
    outside the destination is touched. *)
Theorem wcstombs_two_calls flags src dst dstlen :
  Forall (isU 16) src -> 0 < dstlen <= zlen dst ->
  let ref := wcs_ref (has_flag flags WC_ERR_INVALID_CHARS) src in
  wine_utf8_wcstombs flags src (zlen src) dst 0
    = Ret (match ref with Some bs => zlen bs | None => -2 end, dst) /\
  forall bs, ref = Some bs ->
    (zlen bs <= dstlen ->
       wine_utf8_wcstombs flags src (zlen src) dst dstlen = Ret (zlen bs, bs ++ drop (length bs) dst)) /\
    (dstlen < zlen bs ->
       exists dst', zlen dst' = zlen dst /\
         wine_utf8_wcstombs flags src (zlen src) dst dstlen = Ret (-1, dst')).
Proof.
  intros Hs Hd ref. unfold wine_utf8_wcstombs, get_length_wcs_utf8.
  destruct (Z.eqb_spec dstlen 0); [lia|]. cbn [Z.eqb].
  replace (Z.to_nat (zlen src)) with (length src) by (unfold zlen; lia). split.
  - pose proof (length_wcs_loop_spec flags src [] 0 Hs) as H. cbn [app] in H.
    change (zlen (@nil Z)) with 0 in H. rewrite H. fold ref. by destruct ref.
  - intros bs Hbs. split; intros Hlen.
    + pose proof (wcstombs_loop_ok flags dstlen src bs [] [] (take (length bs) dst) (drop (length bs) dst)
        dstlen Hs Hbs) as H.
      cbn [app] in H. rewrite take_drop in H. change (zlen (@nil Z)) with 0 in H. rewrite H.
      * do 2 f_equal. lia.
      * unfold zlen in *. rewrite length_take. lia.
      * done.
    + pose proof (wcstombs_loop_overflow flags dstlen src bs [] [] dst dstlen Hs Hbs) as H.
      apply H; lia.
Qed.

(** ** Decoding *)

Lemma xor_cont r : 0 <= r < 64 -> u8 (Z.lxor (0x80 + r) 0x80) = r.
Proof.
  intros Hr.
  assert (all_below 64 (fun r => u8 (Z.lxor (0x80 + r) 0x80) =? r) = true) as H by (vm_compute; reflexivity).
  apply (all_below_spec _ _ H r) in Hr. by zhyps.
Qed.

(** a byte that is not a continuation byte is refused *)
Lemma cont_spec sp b sr i res :
  i = zlen sp -> isU 8 b -> 0 <= res < 2 ^ 26 ->
  cont (sp ++ b :: sr) i res =
  Ret (if (0x80 <=? b) && (b <? 0xc0) then Some (res * 64 + (b - 0x80)) else None).
Proof.
  intros -> Hb Hres. unfold cont. rewrite rd_app by done. cbn [obind].
  assert (all_below 256 (fun b => (0x40 <=? u8 (Z.lxor b 0x80)) ||
    ((0x80 <=? b) && (b <? 0xc0) && (u8 (Z.lxor b 0x80) =? b - 0x80))) = true) as H1 by (vm_compute; reflexivity).
  assert (all_below 256 (fun b => (u8 (Z.lxor b 0x80) <? 0x40) ||
    negb ((0x80 <=? b) && (b <? 0xc0))) = true) as H2 by (vm_compute; reflexivity).
  apply (all_below_spec _ _ H1 b) in Hb as E1. apply (all_below_spec _ _ H2 b) in Hb as E2.
  cbv beta in E1, E2. clear H1 H2.
  destruct (Z.leb_spec 0x40 (u8 (Z.lxor b 0x80))) as [Hx|Hx]; cbn [orb] in *.
  - destruct (Z.ltb_spec (u8 (Z.lxor b 0x80)) 0x40); [lia|]. cbn [orb] in E2. zhyps. by rewrite E2.
  - apply andb_true_iff in E1 as [E1 Ex]. apply Z.eqb_eq in Ex. rewrite Ex in *. zhyps. destruct (Z.leb_spec 0x80 b), (Z.ltb_spec b 0xc0); try lia. cbn [andb].
    rewrite Z.shiftl_mul_pow2 by lia. rewrite wrapU_small by (unfold isU; lia).
    rewrite lor_low by lia. done.
Qed.

(** number of continuation bytes after a lead byte *)
Lemma utf8_length_spec ch :
  0x80 <= ch < 0x100 ->
  rd utf8_length (ch - 0x80) =
  Ret (if ch <? 0xc2 then 0 else if ch <? 0xe0 then 1 else if ch <? 0xf0 then 2
       else if ch <? 0xf5 then 3 else 0).
Proof.
  intros Hch. rewrite (rd_in 0) by (change (zlen utf8_length) with 128; lia). f_equal.
  assert (all_below 128 (fun i => nthZ 0 utf8_length i =?
    (if i <? 0x42 then 0 else if i <? 0x60 then 1 else if i <? 0x70 then 2
       else if i <? 0x75 then 3 else 0)) = true) as H by (vm_compute; reflexivity).
  assert (0 <= ch - 0x80 < 128) as Hi by lia. apply (all_below_spec _ _ H _) in Hi. cbv beta in Hi.
  clear H. zhyps. rewrite Hi. repeat zcase1; try done; lia.
Qed.

(** what the bytes after a lead byte make of it: the source index after a
    well-formed sequence and its code point *)
Lemma case1_spec len sp b sr i res :
  i = zlen sp -> isU 8 b -> 0 <= res < 2 ^ 26 -> 0 <= len <= 3 ->
  case1 len (sp ++ b :: sr) i res =
  Ret (if (0x80 <=? b) && (b <? 0xc0) then
         (i + 1, let v := res * 64 + (b - 0x80) in
                 if (v <? nthZ 0 utf8_minval len) || (0x10ffff <? v) then None else Some v)
       else (i, None)).
Proof.
  intros Hi Hb Hres Hl. unfold case1. rewrite cont_spec by done. cbn [obind].
  destruct (_ && _); [|done].
  rewrite (rd_in 0) by (change (zlen utf8_minval) with 4; lia). cbn [obind].
  destruct (_ <? nthZ 0 utf8_minval len); [done|]. cbn [orb]. by destruct (_ <? _).
Qed.

Lemma app_snoc {A} (l : list A) x k : l ++ x :: k = (l ++ [x]) ++ k.
Proof. by rewrite <- app_assoc. Qed.

Lemma case2_spec len sp b c sr i res :
  i = zlen sp -> isU 8 b -> isU 8 c -> 0 <= res < 2 ^ 19 -> 0 <= len <= 3 ->
  case2 len (sp ++ b :: c :: sr) i res =
  if (0x80 <=? b) && (b <? 0xc0)
  then case1 len ((sp ++ [b]) ++ c :: sr) (i + 1) (res * 64 + (b - 0x80)) else Ret (i, None).
Proof.
  intros Hi Hb Hc Hres Hl. unfold case2. rewrite cont_spec by (done || lia). cbn [obind].
  destruct (_ && _); [|done]. by rewrite <- app_snoc.
Qed.

Lemma case3_spec len sp b c d sr i res :
  i = zlen sp -> isU 8 b -> isU 8 c -> isU 8 d -> 0 <= res < 2 ^ 12 -> 0 <= len <= 3 ->
  case3 len (sp ++ b :: c :: d :: sr) i res =
  if (0x80 <=? b) && (b <? 0xc0)
  then case2 len ((sp ++ [b]) ++ c :: d :: sr) (i + 1) (res * 64 + (b - 0x80)) else Ret (i, None).
Proof.
  intros Hi Hb Hc Hd Hres Hl. unfold case3. rewrite cont_spec by (done || lia). cbn [obind].
  destruct (_ && _); [|done]. by rewrite <- app_snoc.
Qed.

Lemma land_1f v : Z.land v 0x1f = v mod 32.
Proof. exact (land_pow2_mask v 5 ltac:(lia)). Qed.
Lemma land_0f v : Z.land v 0x0f = v mod 16.
Proof. exact (land_pow2_mask v 4 ltac:(lia)). Qed.
Lemma land_07 v : Z.land v 0x07 = v mod 8.
Proof. exact (land_pow2_mask v 3 ltac:(lia)). Qed.

(** the length that goes with a lead byte in a known range *)
Ltac lead_len n :=
  match goal with |- context [?i <? ?s + ?l] =>
    replace l with n by (repeat (zcase1; try lia)) end.

(** the four ways a sequence can start *)
Lemma sequence_1 src si srcend ch :
  0xc2 <= ch < 0xe0 -> si + 1 <= srcend -> sequence src si srcend ch = case1 1 src si (ch mod 32).
Proof.
  intros Hch Hs. unfold sequence. rewrite utf8_length_spec by lia. cbn [obind].
  lead_len 1. destruct (Z.ltb_spec srcend (si + 1)); [lia|]. change (rd utf8_mask 1) with (Ret (A:=Z) 0x1f). cbn [obind].
  by rewrite land_1f.
Qed.
Lemma sequence_2 src si srcend ch :
  0xe0 <= ch < 0xf0 -> si + 2 <= srcend -> sequence src si srcend ch = case2 2 src si (ch mod 16).
Proof.
  intros Hch Hs. unfold sequence. rewrite utf8_length_spec by lia. cbn [obind].
  lead_len 2. destruct (Z.ltb_spec srcend (si + 2)); [lia|]. change (rd utf8_mask 2) with (Ret (A:=Z) 0x0f). cbn [obind].
  by rewrite land_0f.
Qed.
Lemma sequence_3 src si srcend ch :
  0xf0 <= ch < 0xf5 -> si + 3 <= srcend -> sequence src si srcend ch = case3 3 src si (ch mod 8).
Proof.
  intros Hch Hs. unfold sequence. rewrite utf8_length_spec by lia. cbn [obind].
  lead_len 3. destruct (Z.ltb_spec srcend (si + 3)); [lia|]. change (rd utf8_mask 3) with (Ret (A:=Z) 0x07). cbn [obind].
  by rewrite land_07.
Qed.
Lemma sequence_bad src si srcend ch :
  0x80 <= ch < 0x100 -> si <= srcend ->
  ch < 0xc2 \/ 0xf5 <= ch \/ (0xc2 <= ch < 0xe0 /\ srcend < si + 1) \/
  (0xe0 <= ch < 0xf0 /\ srcend < si + 2) \/ (0xf0 <= ch < 0xf5 /\ srcend < si + 3) ->
  sequence src si srcend ch = Ret (si, None).
Proof.
  intros Hch Hs H. unfold sequence. rewrite utf8_length_spec by lia. cbn [obind].
  destruct (Z.ltb_spec ch 0xc2), (Z.ltb_spec ch 0xe0), (Z.ltb_spec ch 0xf0), (Z.ltb_spec ch 0xf5);
    try lia; zcase1; try done; lia.
Qed.

Lemma minval_1 : nthZ 0 utf8_minval 1 = 0x80. Proof. done. Qed.
Lemma minval_2 : nthZ 0 utf8_minval 2 = 0x800. Proof. done. Qed.
Lemma minval_3 : nthZ 0 utf8_minval 3 = 0x10000. Proof. done. Qed.

(** settles the range tests of a well-formed sequence *)
Ltac in_range := cbv zeta; repeat (zcase1; try (exfalso; dlia)); cbn [andb orb].

(** the bytes of a code point are read back *)
Lemma sequence_ok c sp b0 bs sr srcend :
  0x80 <= c < 0x110000 -> utf8 c = b0 :: bs -> zlen sp + zlen (utf8 c) <= srcend ->
  sequence (sp ++ b0 :: bs ++ sr) (zlen sp + 1) srcend b0 = Ret (zlen sp + zlen (utf8 c), Some c).
Proof.
  intros Hc E. rewrite utf8_zlen. unfold utf8 in E. revert E.
  destruct (Z.ltb_spec c 0x80); [lia|].
  destruct (Z.ltb_spec c 0x800); [|destruct (Z.ltb_spec c 0x10000)];
    intros E Hend; injection E as <- <-; cbn [app]; rewrite app_snoc.
  - rewrite sequence_1 by dlia.
    rewrite case1_spec by (rewrite ?zlen_app; unfold isU; first [done|dlia]). rewrite minval_1. in_range.
    apply f_equal, f_equal2; [lia|f_equal; dlia].
  - rewrite sequence_2 by dlia.
    rewrite case2_spec by (rewrite ?zlen_app; unfold isU; first [done|dlia]). in_range.
    rewrite case1_spec by (rewrite ?zlen_app; unfold isU; first [done|dlia]). rewrite minval_2. in_range.
    apply f_equal, f_equal2; [lia|f_equal; dlia].
  - rewrite sequence_3 by dlia.
    rewrite case3_spec by (rewrite ?zlen_app; unfold isU; first [done|dlia]). in_range.
    rewrite case2_spec by (rewrite ?zlen_app; unfold isU; first [done|dlia]). in_range.
    rewrite case1_spec by (rewrite ?zlen_app; unfold isU; first [done|dlia]). rewrite minval_3. in_range.
    apply f_equal, f_equal2; [lia|f_equal; dlia].
Qed.

(** ** The round trip *)

Lemma surrogate_units c :
  0x10000 <= c < 0x110000 ->
  u16 (Z.lor 0xd800 (Z.shiftr (c - 0x10000) 10)) = 0xd800 + (c - 0x10000) / 1024 /\
  u16 (Z.lor 0xdc00 (Z.land (c - 0x10000) 0x3ff)) = 0xdc00 + (c - 0x10000) mod 1024.
Proof.
  intros Hc. rewrite land_3ff, Z.shiftr_div_pow2 by lia.
  pose proof (lor_low 54 10 ((c - 0x10000) / 2 ^ 10)) as E1.
  pose proof (lor_low 55 10 ((c - 0x10000) mod 1024)) as E2.
  change (54 * 2 ^ 10) with 0xd800 in E1. change (55 * 2 ^ 10) with 0xdc00 in E2.
  rewrite E1, E2 by dlia. split; apply wrapU_small; unfold isU; dlia.
Qed.

(** the decoder on the bytes of a code point *)
Lemma mbstowcs_step fuel flags c sp sr dp dm dr srcend dstend dstlen srclen :
  0 <= c < 0x110000 -> zlen dm = zlen (utf16 c) ->
  zlen sp + zlen (utf8 c) <= srcend -> zlen dp + zlen (utf16 c) <= dstend ->
  mbstowcs_loop (S fuel) flags (sp ++ utf8 c ++ sr) (zlen sp) srcend (dp ++ dm ++ dr) (zlen dp)
    dstend dstlen srclen =
  mbstowcs_loop fuel flags ((sp ++ utf8 c) ++ sr) (zlen (sp ++ utf8 c)) srcend
    ((dp ++ utf16 c) ++ dr) (zlen (dp ++ utf16 c)) dstend dstlen srclen.
Proof.
  intros Hc Hdm Hs Hd. rewrite !zlen_app, <- !app_assoc.
  assert (0 < zlen (utf8 c)) as H8 by (rewrite utf8_zlen; repeat case_match; lia).
  assert (0 < zlen (utf16 c)) as H16 by (unfold utf16; case_match; done).
  cbn [mbstowcs_loop]. destruct (Z.ltb_spec (zlen dp) dstend); [|lia].
  destruct (Z.ltb_spec (zlen sp) srcend); [|lia]. cbn [andb negb].
  destruct (utf8 c) as [|b0 bs] eqn:E8; [done|]. cbn [app]. rewrite rd_app by done. cbn [obind].
  destruct (Z.ltb_spec c 0x80) as [Hlo|Hlo].
  { unfold utf8 in E8. destruct (Z.ltb_spec c 0x80); [|lia]. injection E8 as <- <-.
    destruct (Z.ltb_spec c 0x80); [|lia]. unfold utf16 in *. destruct (Z.ltb_spec c 0x10000); [|lia].
    destruct dm as [|x [|? ?]]; try bad_len. cbn [app]. by rewrite wr_app. }
  destruct (Z.ltb_spec b0 0x80) as [Hb|Hb].
  { unfold utf8 in E8. revert E8. repeat case_match; intros [= <- <-]; zhyps; dlia. }
  rewrite <- E8 in Hs. rewrite (sequence_ok c sp b0 bs sr srcend) by (done || lia). cbn [obind].
  rewrite <- E8. unfold utf16 in *. destruct (Z.leb_spec c 0xffff), (Z.ltb_spec c 0x10000); try lia.
  - destruct dm as [|x [|? ?]]; try bad_len. cbn [app]. rewrite wr_app by done. cbn [obind].
    by rewrite wrapU_small by (unfold isU; lia).
  - destruct (Z.eqb_spec (zlen dp) (dstend - 1)).
    { rewrite !zlen_cons, zlen_nil in Hd. lia. }
    destruct (surrogate_units c ltac:(lia)) as [-> ->].
    destruct dm as [|x [|y [|? ?]]]; try bad_len. cbn [app]. rewrite wr_app by done. cbn [obind].
    rewrite wr_1 by done. done.
Qed.

Lemma mbstowcs_loop_ok flags cps : forall fuel sp sr dp dm dr dstend dstlen srclen,
  Forall (fun c => 0 <= c < 0x110000) cps -> zlen dm = zlen (flat_map utf16 cps) ->
  (length cps <= fuel)%nat -> zlen dp + zlen dm <= dstend ->
  let srcend := zlen sp + zlen (flat_map utf8 cps) in
  mbstowcs_loop fuel flags (sp ++ flat_map utf8 cps ++ sr) (zlen sp) srcend
    (dp ++ dm ++ dr) (zlen dp) dstend dstlen srclen =
  Ret (mbstowcs_end srcend srcend (dp ++ flat_map utf16 cps ++ dr)
         (zlen dp + zlen dm) dstend dstlen srclen).
Proof.
  induction cps as [|c cps IH]; intros fuel sp sr dp dm dr dstend dstlen srclen Hcp Hdm Hf Hd srcend.
  - destruct dm; [|bad_len]. unfold srcend. cbn [flat_map app]. rewrite zlen_nil, !Z.add_0_r.
    destruct fuel; cbn [mbstowcs_loop]; (destruct (Z.ltb_spec (zlen sp) (zlen sp)); [lia|]);
      by rewrite andb_false_r.
  - inversion_clear Hcp as [|? ? Hc Hcps]. cbn [flat_map] in *. rewrite zlen_app in *.
    destruct fuel as [|fuel]; [simpl in Hf; lia|].
    pose proof (zlen_nonneg (flat_map utf8 cps)). pose proof (zlen_nonneg (flat_map utf16 cps)).
    rewrite <- (take_drop (length (utf16 c)) dm). rewrite <- !app_assoc.
    assert (zlen (take (length (utf16 c)) dm) = zlen (utf16 c)) as Ht.
    { unfold zlen in *. rewrite length_take. lia. }
    assert (srcend = zlen sp + zlen (utf8 c) + zlen (flat_map utf8 cps)) as Hse
      by (unfold srcend; rewrite zlen_app; lia). clearbody srcend.
    rewrite mbstowcs_step by (done || lia).
    assert (zlen (drop (length (utf16 c)) dm) = zlen (flat_map utf16 cps)) as Hdr.
    { unfold zlen in *. rewrite length_drop. lia. }
    specialize (IH fuel (sp ++ utf8 c) sr (dp ++ utf16 c) (drop (length (utf16 c)) dm) dr
      dstend dstlen srclen Hcps Hdr ltac:(simpl in Hf; lia) ltac:(rewrite !zlen_app; lia)).
    cbv zeta in IH. replace srcend with (zlen (sp ++ utf8 c) + zlen (flat_map utf8 cps))
      by (rewrite zlen_app; lia).
    rewrite IH. rewrite <- !app_assoc. f_equal. unfold mbstowcs_end.
    replace (zlen (dp ++ utf16 c) + zlen (drop (length (utf16 c)) dm)) with
      (zlen dp + zlen (take (length (utf16 c)) dm ++ drop (length (utf16 c)) dm)); [done|].
    rewrite !zlen_app. lia.
Qed.

(** the encoder on well-formed UTF-16 *)
Lemma wcs_ref_utf16 strict cps :
  Forall scalar cps ->
  wcs_ref strict (flat_map utf16 cps) =
  if strict && existsb (fun c => 0x10000 <=? c) cps then None else Some (flat_map utf8 cps).
Proof.
  induction 1 as [|c cps Hc Hcps IH]; [by destruct strict|].
  cbn [flat_map existsb]. unfold utf16 at 1. unfold scalar in Hc.
  destruct (Z.ltb_spec c 0x10000), (Z.leb_spec 0x10000 c); try lia; cbn [app orb].
  - cbn [wcs_ref]. assert (unit_val (c :: flat_map utf16 cps) = Some c) as ->.
    { unfold unit_val. destruct (Z.leb_spec 0xd800 c), (Z.leb_spec c 0xdfff); try done; lia. }
    rewrite IH. by destruct (strict && _).
  - set (h := 0xd800 + _). set (l := 0xdc00 + _). cbn [wcs_ref].
    assert (0xd800 <= h <= 0xdbff /\ 0xdc00 <= l <= 0xdfff) as [Hh Hl] by (unfold h, l; dlia).
    assert (unit_val (h :: l :: flat_map utf16 cps) = Some c) as ->.
    { unfold unit_val. repeat (zcase1; try lia). cbn [andb]. f_equal. unfold h, l. dlia. }
    assert (unit_val (l :: flat_map utf16 cps) = None) as ->.
    { unfold unit_val. repeat (zcase1; try lia). cbn [andb]. by destruct (flat_map utf16 cps). }
    rewrite IH. destruct strict; [done|]. by cbn [andb].
Qed.

Lemma utf16_units cps : Forall scalar cps -> Forall (isU 16) (flat_map utf16 cps).
Proof.
  induction 1 as [|c cps Hc Hcps IH]; [done|]. cbn [flat_map]. apply Forall_app. split; [|done].
  unfold utf16, scalar, isU in *. case_match; zhyps; repeat constructor; dlia.
Qed.

(** C30: text goes through UTF-8 unharmed: a string of Unicode scalar values,
    encoded in UTF-16 and converted to UTF-8, is the UTF-8 encoding of the same
    values, and the conversion back (with any flags) returns the original units,
    when the buffers have room.  The one exception is the flag
    WC_ERR_INVALID_CHARS with a value beyond the basic plane: the conversion to
    UTF-8 then returns -2, as if the text were not valid. *)
Theorem utf8_roundtrip flags flags' cps mb wc :
  Forall scalar cps ->
  let ws := flat_map utf16 cps in
  let bs := flat_map utf8 cps in
  let refused := has_flag flags WC_ERR_INVALID_CHARS && existsb (fun c => 0x10000 <=? c) cps in
  0 < zlen mb -> 0 < zlen wc -> zlen bs <= zlen mb -> zlen ws <= zlen wc ->
  (refused = false -> wine_utf8_wcstombs flags ws (zlen ws) mb (zlen mb) = Ret (zlen bs, bs ++ drop (length bs) mb)) /\
  (refused = true -> exists mb', zlen mb' = zlen mb /\ wine_utf8_wcstombs flags ws (zlen ws) mb (zlen mb) = Ret (-2, mb')) /\
  wine_utf8_mbstowcs flags' (bs ++ drop (length bs) mb) (zlen bs) wc (zlen wc)
    = Ret (zlen ws, ws ++ drop (length ws) wc).
Proof.
  intros Hcp ws bs refused Hmb Hwc Hbs Hws. split; [|split].
  - intros Hf. unfold wine_utf8_wcstombs. destruct (Z.eqb_spec (zlen mb) 0); [lia|].
    replace (Z.to_nat (zlen ws)) with (length ws) by (unfold zlen; lia).
    pose proof (wcstombs_loop_ok flags (zlen mb) ws bs [] [] (take (length bs) mb) (drop (length bs) mb)
      (zlen mb) (utf16_units cps Hcp)) as H. cbn [app] in H. rewrite take_drop in H.
    change (zlen (@nil Z)) with 0 in H. rewrite H.
    + do 2 f_equal. lia.
    + unfold ws. rewrite wcs_ref_utf16 by done. fold refused. by rewrite Hf.
    + unfold zlen in *. rewrite length_take. lia.
    + done.
  - intros Hf. apply andb_true_iff in Hf as [Hf Hp]. unfold wine_utf8_wcstombs. destruct (Z.eqb_spec (zlen mb) 0); [lia|].
    replace (Z.to_nat (zlen ws)) with (length ws) by (unfold zlen; lia). apply (wcstombs_loop_refused flags (zlen mb) ws bs [] []); [by apply utf16_units|done| | |lia].
    + unfold ws. rewrite wcs_ref_utf16 by done. by rewrite Hp.
    + unfold ws. by rewrite wcs_ref_utf16 by done.
  - unfold wine_utf8_mbstowcs. destruct (Z.eqb_spec (zlen wc) 0); [lia|].
    pose proof (mbstowcs_loop_ok flags' cps (Z.to_nat (zlen bs)) [] (drop (length bs) mb) []
      (take (length ws) wc) (drop (length ws) wc) (zlen wc) (zlen wc) (zlen bs)) as H.
    assert (zlen (take (length ws) wc) = zlen ws) as Ht by (unfold zlen in *; rewrite length_take; lia).
    cbn [app] in H. rewrite take_drop in H. change (zlen (@nil Z)) with 0 in H. rewrite Ht in H.
    rewrite !Z.add_0_l in H. fold ws bs in H. rewrite H.
    + unfold mbstowcs_end. destruct (Z.ltb_spec (zlen bs) (zlen bs)); [lia|].
      replace (zlen wc - (zlen wc - zlen ws)) with (zlen ws) by lia.
      destruct (Z.eqb_spec (zlen ws) 0) as [Hz|Hz]; [|done].
      destruct cps as [|c cps]; [done|]. exfalso. unfold ws in Hz. cbn [flat_map] in Hz.
      rewrite zlen_app in Hz. pose proof (zlen_nonneg (flat_map utf16 cps)).
      assert (0 < zlen (utf16 c)) by (unfold utf16; case_match; done). lia.
    + eapply Forall_impl; [|exact Hcp]. unfold scalar. simpl. lia.
    + done.
    + unfold bs, zlen. rewrite Nat2Z.id. clear. induction cps as [|c cps IH]; [done|].
      cbn [flat_map length]. rewrite length_app. unfold utf8 at 1. repeat case_match; simpl; lia.
    + lia.
Qed.

(** with WC_ERR_INVALID_CHARS every well-formed string that has a character
    beyond the basic plane is refused as invalid (-2): after the high surrogate
    of a pair was converted the loop advances by one unit only and finds the
    low surrogate alone.  Strings of the basic plane are measured correctly. *)
Theorem strict_refuses_pairs flags cps dst :
  Forall scalar cps -> has_flag flags WC_ERR_INVALID_CHARS = true ->
  let ws := flat_map utf16 cps in
  wine_utf8_wcstombs flags ws (zlen ws) dst 0 =
  Ret (if existsb (fun c => 0x10000 <=? c) cps then -2 else zlen (flat_map utf8 cps), dst).
Proof.
  intros Hcp Hf ws. unfold wine_utf8_wcstombs, get_length_wcs_utf8. cbn [Z.eqb].
  replace (Z.to_nat (zlen ws)) with (length ws) by (unfold zlen; lia).
  pose proof (length_wcs_loop_spec flags ws [] 0 (utf16_units cps Hcp)) as H. cbn [app] in H.
  change (zlen (@nil Z)) with 0 in H. rewrite H. cbn [obind]. unfold ws.
  rewrite Hf, wcs_ref_utf16 by done. cbn [andb]. by destruct (existsb _ cps).
Qed.

(** ** Any input *)

(** the bytes from [si] on are split off when there are enough of them *)
Lemma split_at (src : list Z) si k :
  0 <= si -> si + Z.of_nat k <= zlen src -> bytes src ->
  exists sp bs sr, src = sp ++ bs ++ sr /\ zlen sp = si /\ length bs = k /\ bytes bs /\
    drop (Z.to_nat si) src = bs ++ sr.
Proof.
  intros Hs Hk Hb. unfold zlen in *.
  exists (take (Z.to_nat si) src), (take k (drop (Z.to_nat si) src)), (drop k (drop (Z.to_nat si) src)).
  rewrite !take_drop, !length_take, length_drop. split_and!; try done; try lia.
  by apply Forall_take, Forall_drop.
Qed.

Definition seq_result (src : list Z) (si srcend ch : Z) (m : outcome (Z * option Z)) : Prop :=
  exists si' r, m = Ret (si', r) /\ si <= si' <= srcend /\
    match r with
    | None => True
    | Some v => 0x80 <= v < 0x110000 /\ utf8 v = ch :: take (Z.to_nat (si' - si)) (drop (Z.to_nat si) src)
    end.

Lemma seq_none src si srcend ch si' : si <= si' <= srcend -> seq_result src si srcend ch (Ret (si', None)).
Proof. intros H. by exists si', None. Qed.

(** decides the tests left in a sequence; a refused one stays in the source *)
Ltac seq_cases := cbv zeta; repeat zcase1; cbn [andb orb]; try (apply seq_none; lia).

(** an accepted sequence [bs] after the lead byte *)
Lemma seq_some src si srcend ch si' v bs sr :
  drop (Z.to_nat si) src = bs ++ sr -> si' = si + zlen bs -> si' <= srcend ->
  0x80 <= v < 0x110000 -> utf8 v = ch :: bs -> seq_result src si srcend ch (Ret (si', Some v)).
Proof.
  intros Hd -> Hs Hv E. exists (si + zlen bs), (Some v). pose proof (zlen_nonneg bs).
  split_and!; try done; try lia. rewrite Hd, E. do 2 f_equal.
  replace (Z.to_nat (si + zlen bs - si)) with (length bs) by (unfold zlen; lia).
  by rewrite take_app_length.
Qed.

Lemma sequence_any src si srcend ch :
  bytes src -> 0 <= si <= srcend -> srcend <= zlen src -> 0x80 <= ch < 0x100 ->
  seq_result src si srcend ch (sequence src si srcend ch).
Proof.
  intros Hb Hs He Hch.
  destruct (decide (0xc2 <= ch < 0xe0 /\ si + 1 <= srcend)) as [[H1 H1']|H1].
  { rewrite sequence_1 by lia.
    destruct (split_at src si 1) as (sp & bs & sr & E & Hsp & Hl & Hbs & Hd); [lia|lia|done|].
    destruct bs as [|b [|? ?]]; try done. inversion_clear Hbs as [|? ? Hb1 _]. unfold isU in *.
    rewrite E at 2. cbn [app]. rewrite case1_spec by (unfold isU; first [done|dlia]). rewrite minval_1.
    seq_cases. eapply (seq_some src si srcend ch _ _ [b] sr); [done|by rewrite zlen_cons|lia|dlia|].
    unfold utf8. repeat (zcase1; try (exfalso; dlia)). f_equal; [dlia|]. f_equal. dlia. }
  destruct (decide (0xe0 <= ch < 0xf0 /\ si + 2 <= srcend)) as [[H2 H2']|H2].
  { rewrite sequence_2 by lia.
    destruct (split_at src si 2) as (sp & bs & sr & E & Hsp & Hl & Hbs & Hd); [lia|lia|done|].
    destruct bs as [|b [|c [|? ?]]]; try done.
    inversion_clear Hbs as [|? ? Hb1 Hbs']. inversion_clear Hbs' as [|? ? Hb2 _]. unfold isU in *.
    rewrite E at 2. cbn [app]. rewrite case2_spec by (unfold isU; first [done|dlia]). seq_cases.
    rewrite case1_spec by (rewrite ?zlen_app, ?zlen_cons, ?zlen_nil; unfold isU; first [done|lia|dlia]).
    rewrite minval_2.
    seq_cases. eapply (seq_some src si srcend ch _ _ [b; c] sr); [done|rewrite !zlen_cons, zlen_nil; lia|lia|dlia|].
    unfold utf8. repeat (zcase1; try (exfalso; dlia)).
    f_equal; [dlia|]. f_equal; [dlia|]. f_equal. dlia. }
  destruct (decide (0xf0 <= ch < 0xf5 /\ si + 3 <= srcend)) as [[H3 H3']|H3].
  { rewrite sequence_3 by lia.
    destruct (split_at src si 3) as (sp & bs & sr & E & Hsp & Hl & Hbs & Hd); [lia|lia|done|].
    destruct bs as [|b [|c [|d [|? ?]]]]; try done.
    inversion_clear Hbs as [|? ? Hb1 Hbs']. inversion_clear Hbs' as [|? ? Hb2 Hbs''].
    inversion_clear Hbs'' as [|? ? Hb3 _]. unfold isU in *.
    rewrite E at 2. cbn [app]. rewrite case3_spec by (unfold isU; first [done|dlia]). seq_cases.
    rewrite case2_spec by (rewrite ?zlen_app, ?zlen_cons, ?zlen_nil; unfold isU; first [done|lia|dlia]). seq_cases.
    rewrite case1_spec by (rewrite ?zlen_app, ?zlen_cons, ?zlen_nil; unfold isU; first [done|lia|dlia]). rewrite minval_3.
    seq_cases. eapply (seq_some src si srcend ch _ _ [b; c; d] sr); [done|rewrite !zlen_cons, zlen_nil; lia|lia|dlia|].
    unfold utf8. repeat (zcase1; try (exfalso; dlia)).
    f_equal; [dlia|]. f_equal; [dlia|]. f_equal; [dlia|]. f_equal. dlia. }
  rewrite sequence_bad by lia. apply seq_none. lia.
Qed.

(** [sequence_any] with the source cut at the lead byte *)
Lemma sequence_cut sp ch rest :
  bytes (sp ++ ch :: rest) -> 0x80 <= ch < 0x100 ->
  let src := sp ++ ch :: rest in
  exists k r, sequence src (zlen sp + 1) (zlen src) ch = Ret (zlen sp + 1 + Z.of_nat k, r) /\
    (k <= length rest)%nat /\
    match r with
    | None => True
    | Some v => 0x80 <= v < 0x110000 /\ utf8 v = ch :: take k rest
    end.
Proof.
  intros Hb Hch src. assert (zlen src = zlen sp + 1 + zlen rest) as Hl.
  { unfold src. rewrite zlen_app, zlen_cons. lia. }
  pose proof (zlen_nonneg sp). pose proof (zlen_nonneg rest).
  destruct (sequence_any src (zlen sp + 1) (zlen src) ch) as (si' & r & -> & Hsi & Hr); try done; try lia.
  exists (Z.to_nat (si' - (zlen sp + 1))), r. split; [do 2 f_equal; lia|].
  split; [unfold zlen in *; lia|]. destruct r as [v|]; [|done]. destruct Hr as [Hv E]. split; [done|].
  rewrite E. f_equal. unfold src. rewrite app_snoc.
  replace (Z.to_nat (zlen sp + 1)) with (length (sp ++ [ch])) by (unfold zlen; rewrite length_app; simpl; lia).
  by rewrite drop_app_length.
Qed.

(** what a run of the decoder yields from a source rest [rest], with [dm] the
    rest of the destination: with MB_ERR_INVALID_CHARS a success has read
    well-formed UTF-8 *)
Definition mbs_result (flags : Z) (rest dp dm : list Z) (dstlen : Z) (m : outcome (Z * list Z)) : Prop :=
  exists r dst', m = Ret (r, dst') /\ zlen dst' = zlen (dp ++ dm) /\ -2 <= r <= dstlen /\
    (has_flag flags MB_ERR_INVALID_CHARS = true -> 0 <= r ->
     exists cps, Forall (fun c => 0 <= c < 0x110000) cps /\ rest = flat_map utf8 cps /\
       dst' = dp ++ flat_map utf16 cps ++ drop (length (flat_map utf16 cps)) dm /\
       r = zlen (dp ++ flat_map utf16 cps)).

(** one more code point in front *)
Lemma mbs_result_cons flags rest dp dm dstlen m v k :
  0 <= v < 0x110000 -> zlen dm = zlen (utf16 v) ->
  mbs_result flags rest (dp ++ utf16 v) k dstlen m ->
  mbs_result flags (utf8 v ++ rest) dp (dm ++ k) dstlen m.
Proof.
  intros Hv Hdm (r & dst' & -> & Hz & Hr & Hok). exists r, dst'. split_and!; try done; try lia.
  - rewrite Hz, !zlen_app. lia.
  - intros Hf Hr0. destruct (Hok Hf Hr0) as (cps & Hc & -> & -> & ->).
    exists (v :: cps). split_and!; [by constructor|done| |].
    + cbn [flat_map]. rewrite <- !app_assoc. do 3 f_equal. unfold zlen in Hdm.
      rewrite length_app, <- drop_drop. f_equal.
      replace (length (utf16 v)) with (length dm) by lia. by rewrite drop_app_length.
    + cbn [flat_map]. by rewrite app_assoc.
Qed.

Lemma mbstowcs_end_result flags sp rest dp dm dstlen srclen :
  zlen dp <= dstlen -> rest = [] \/ zlen dp = dstlen ->
  mbs_result flags rest dp dm dstlen
    (Ret (mbstowcs_end (zlen sp) (zlen (sp ++ rest)) (dp ++ dm) (zlen dp) dstlen dstlen srclen)).
Proof.
  intros Hd Hend. unfold mbstowcs_end. rewrite zlen_app. pose proof (zlen_nonneg dp).
  destruct (Z.ltb_spec (zlen sp) (zlen sp + zlen rest)) as [Hs|Hs].
  { exists (-1), (dp ++ dm). split_and!; try done; lia. }
  assert (rest = []) as -> by (destruct rest; [done|bad_len]).
  replace (dstlen - (dstlen - zlen dp)) with (zlen dp) by lia.
  destruct (_ && _); [exists (-2), (dp ++ dm); split_and!; try done; lia|].
  exists (zlen dp), (dp ++ dm). split_and!; try done; try lia. intros _ _. exists [].
  cbn [flat_map app length]. by rewrite app_nil_r, drop_0.
Qed.

(** an accepted code point is written and the run goes on behind it *)
Lemma mbs_result_write flags rest v dp dm dstlen (k : list Z -> Z -> outcome (Z * list Z)) :
  0 <= v < 0x110000 -> zlen dp < dstlen <= zlen (dp ++ dm) ->
  (forall dm', zlen (dp ++ utf16 v) <= dstlen <= zlen ((dp ++ utf16 v) ++ dm') ->
     mbs_result flags rest (dp ++ utf16 v) dm' dstlen (k ((dp ++ utf16 v) ++ dm') (zlen (dp ++ utf16 v)))) ->
  mbs_result flags (utf8 v ++ rest) dp dm dstlen
    (if v <=? 0xffff then let! dst := wr (dp ++ dm) (zlen dp) (u16 v) in k dst (zlen dp + 1)
     else if zlen dp =? dstlen - 1 then Ret (-1, dp ++ dm)
     else
       let! dst := wr (dp ++ dm) (zlen dp) (u16 (Z.lor 0xd800 (Z.shiftr (v - 0x10000) 10))) in
       let! dst := wr dst (zlen dp + 1) (u16 (Z.lor 0xdc00 (Z.land (v - 0x10000) 0x3ff))) in
       k dst (zlen dp + 2)).
Proof.
  intros Hv Hd Hk. destruct (Z.leb_spec v 0xffff) as [Hl|Hl].
  - assert (utf16 v = [v]) as E16 by (unfold utf16; by destruct (Z.ltb_spec v 0x10000); [|lia]).
    destruct dm as [|x dm]; [rewrite app_nil_r in Hd; lia|]. rewrite wr_app by done. cbn [obind].
    rewrite wrapU_small by (unfold isU; lia). change (x :: dm) with ([x] ++ dm).
    apply mbs_result_cons; [lia|by rewrite E16|]. rewrite E16 in *. specialize (Hk dm).
    rewrite <- app_assoc, (zlen_app dp [v]) in Hk. apply Hk.
    rewrite ?zlen_app, ?zlen_cons, ?zlen_nil in *. lia.
  - destruct (Z.eqb_spec (zlen dp) (dstlen - 1)).
    { exists (-1), (dp ++ dm). split_and!; try done; pose proof (zlen_nonneg dp); lia. }
    destruct (surrogate_units v ltac:(lia)) as [-> ->].
    assert (utf16 v = [0xd800 + (v - 0x10000) / 1024; 0xdc00 + (v - 0x10000) mod 1024]) as E16.
    { unfold utf16. by destruct (Z.ltb_spec v 0x10000); [lia|]. }
    destruct dm as [|x [|y dm]]; rewrite ?zlen_app, ?zlen_cons, ?zlen_nil in Hd; try lia.
    rewrite wr_app by done. cbn [obind]. rewrite wr_1 by done. cbn [obind].
    change (x :: y :: dm) with ([x; y] ++ dm). apply mbs_result_cons; [lia|by rewrite E16|].
    specialize (Hk dm). rewrite E16, <- app_assoc, zlen_app in *. apply Hk.
    rewrite ?zlen_app, ?zlen_cons, ?zlen_nil. lia.
Qed.

(** the run at its end, whichever of the two buffers ended *)
Lemma mbstowcs_loop_end flags sp rest dp dm dstlen srclen fuel :
  zlen dp <= dstlen -> rest = [] \/ zlen dp = dstlen ->
  mbs_result flags rest dp dm dstlen
    (mbstowcs_loop fuel flags (sp ++ rest) (zlen sp) (zlen (sp ++ rest)) (dp ++ dm) (zlen dp)
       dstlen dstlen srclen).
Proof.
  intros Hd Hend. pose proof (mbstowcs_end_result flags sp rest dp dm dstlen srclen Hd Hend) as He.
  assert ((zlen dp <? dstlen) && (zlen sp <? zlen (sp ++ rest)) = false) as E.
  { rewrite zlen_app. destruct Hend as [-> | ->]; rewrite ?zlen_nil, ?Z.add_0_r, Z.ltb_irrefl;
      [apply andb_false_r|done]. }
  destruct fuel; cbn [mbstowcs_loop]; rewrite E; exact He.
Qed.

Lemma mbstowcs_loop_any flags dstlen srclen fuel : forall sp rest dp dm,
  bytes (sp ++ rest) -> (length rest <= fuel)%nat -> zlen dp <= dstlen <= zlen (dp ++ dm) ->
  mbs_result flags rest dp dm dstlen
    (mbstowcs_loop fuel flags (sp ++ rest) (zlen sp) (zlen (sp ++ rest)) (dp ++ dm) (zlen dp)
       dstlen dstlen srclen).
Proof.
  induction fuel as [|fuel IH]; intros sp rest dp dm Hb Hf Hd.
  { destruct rest; [|simpl in Hf; lia]. apply mbstowcs_loop_end; [lia|by left]. }
  destruct rest as [|ch rest]; [apply mbstowcs_loop_end; [lia|by left]|].
  destruct (decide (zlen dp = dstlen)) as [Hfull|Hroom]; [apply mbstowcs_loop_end; [lia|by right]|].
  cbn [mbstowcs_loop]. destruct (Z.ltb_spec (zlen dp) dstlen) as [Hlt|Hge]; [|lia].
  destruct (Z.ltb_spec (zlen sp) (zlen (sp ++ ch :: rest))) as [_|Hbad];
    [|rewrite zlen_app, zlen_cons in Hbad; pose proof (zlen_nonneg rest); lia].
  cbn [negb andb]. rewrite rd_app by done. cbn [obind].
  assert (isU 8 ch) as Hch by (apply Forall_app in Hb as [_ Hb]; by inversion Hb). unfold isU in Hch.
  assert (forall k, (k <= length rest)%nat -> forall dp' dm', zlen dp' <= dstlen <= zlen (dp' ++ dm') ->
    mbs_result flags (drop k rest) dp' dm' dstlen
      (mbstowcs_loop fuel flags (sp ++ ch :: rest) (zlen sp + 1 + Z.of_nat k) (zlen (sp ++ ch :: rest))
         (dp' ++ dm') (zlen dp') dstlen dstlen srclen)) as IH'.
  { intros k Hk dp' dm' Hd'. specialize (IH (sp ++ ch :: take k rest) (drop k rest) dp' dm').
    rewrite <- app_assoc in IH. cbn [app] in IH. rewrite take_drop in IH.
    replace (zlen (sp ++ ch :: take k rest)) with (zlen sp + 1 + Z.of_nat k) in IH
      by (rewrite zlen_app, zlen_cons; unfold zlen; rewrite length_take; lia).
    apply IH; [done|rewrite length_drop; simpl in Hf; lia|done]. }
  clear IH. destruct (Z.ltb_spec ch 0x80) as [Ha|Ha].
  { pose proof (mbs_result_write flags rest ch dp dm dstlen (fun dst di =>
      mbstowcs_loop fuel flags (sp ++ ch :: rest) (zlen sp + 1) (zlen (sp ++ ch :: rest)) dst di
        dstlen dstlen srclen) ltac:(lia) ltac:(lia)) as Hw.
    destruct (Z.leb_spec ch 0xffff); [|lia]. rewrite wrapU_small in Hw by (unfold isU; lia).
    replace (utf8 ch) with [ch] in Hw by (unfold utf8; by destruct (Z.ltb_spec ch 0x80); [|lia]).
    apply Hw. intros dm' Hd'. specialize (IH' O ltac:(lia) (dp ++ utf16 ch) dm' Hd').
    by rewrite drop_0, Z.add_0_r in IH'. }
  destruct (sequence_cut sp ch rest Hb ltac:(lia)) as (k & r & -> & Hk & Hr). cbn [obind].
  destruct r as [v|].
  - destruct Hr as [Hv E].
    replace (ch :: rest) with (utf8 v ++ drop k rest) at 1 by (rewrite E; cbn [app]; by rewrite take_drop).
    apply (mbs_result_write flags (drop k rest) v dp dm dstlen (fun dst di =>
      mbstowcs_loop fuel flags (sp ++ ch :: rest) (zlen sp + 1 + Z.of_nat k) (zlen (sp ++ ch :: rest)) dst di
        dstlen dstlen srclen)); [lia|lia|]. intros dm' Hd'. by apply IH'.
  - destruct (has_flag flags MB_ERR_INVALID_CHARS) eqn:Hflag.
    { exists (-2), (dp ++ dm). split_and!; try done; pose proof (zlen_nonneg dp); lia. }
    destruct (IH' k Hk dp dm Hd) as (r & dst' & E & Hz & Hr' & _). exists r, dst'.
    split_and!; try done; try lia. congruence.
Qed.

(** C37: on any bytes and any destination the decoder returns, without reading
    past the source or writing past the destination: -2, -1 or a length that
    fits.  With MB_ERR_INVALID_CHARS a success means that the source is
    exactly the UTF-8 encoding, shortest forms only, of some code points, and
    the destination starts with their UTF-16 encoding. *)
Theorem mbstowcs_any_input flags src dst dstlen :
  bytes src -> 0 < dstlen <= zlen dst ->
  exists r dst', wine_utf8_mbstowcs flags src (zlen src) dst dstlen = Ret (r, dst') /\
    zlen dst' = zlen dst /\ -2 <= r <= dstlen /\
    (has_flag flags MB_ERR_INVALID_CHARS = true -> 0 <= r ->
     exists cps, Forall (fun c => 0 <= c < 0x110000) cps /\ src = flat_map utf8 cps /\
       dst' = flat_map utf16 cps ++ drop (length (flat_map utf16 cps)) dst /\
       r = zlen (flat_map utf16 cps)).
Proof.
  intros Hb Hd. unfold wine_utf8_mbstowcs. destruct (Z.eqb_spec dstlen 0); [lia|].
  apply (mbstowcs_loop_any flags dstlen (zlen src) (Z.to_nat (zlen src)) [] src [] dst Hb);
    [unfold zlen; lia|exact (conj (Z.lt_le_incl _ _ (proj1 Hd)) (proj2 Hd))].
Qed.

(** *** Witnesses *)
Lemma wcstombs_two_calls_witness :
  wine_utf8_wcstombs 0 [0x41; 0xe9; 0xd800] (zlen [0x41; 0xe9; 0xd800]) [7; 7; 7; 7] 0
    = Ret (match wcs_ref false [0x41; 0xe9; 0xd800] with Some bs => zlen bs | None => -2 end, [7; 7; 7; 7]) /\
  forall bs, wcs_ref false [0x41; 0xe9; 0xd800] = Some bs ->
    (zlen bs <= 3 -> wine_utf8_wcstombs 0 [0x41; 0xe9; 0xd800] 3 [7; 7; 7; 7] 3
       = Ret (zlen bs, bs ++ drop (length bs) [7; 7; 7; 7])) /\
    (3 < zlen bs -> exists dst', zlen dst' = 4 /\
       wine_utf8_wcstombs 0 [0x41; 0xe9; 0xd800] 3 [7; 7; 7; 7] 3 = Ret (-1, dst')).
Proof.
  apply (wcstombs_two_calls 0 [0x41; 0xe9; 0xd800] [7; 7; 7; 7] 3); [|unfold zlen; simpl; lia].
  repeat constructor; unfold isU; lia.
Defined.

Lemma utf8_roundtrip_witness :
  let ws := flat_map utf16 [0x20ac; 0x1f600] in
  let bs := flat_map utf8 [0x20ac; 0x1f600] in
  let mb := [0; 0; 0; 0; 0; 0; 0] in
  let wc := [0; 0; 0; 0] in
  wine_utf8_wcstombs 0 ws (zlen ws) mb (zlen mb) = Ret (zlen bs, bs ++ drop (length bs) mb) /\
  (exists mb', zlen mb' = zlen mb /\ wine_utf8_wcstombs 0x80 ws (zlen ws) mb (zlen mb) = Ret (-2, mb')) /\
  wine_utf8_mbstowcs 8 (bs ++ drop (length bs) mb) (zlen bs) wc (zlen wc)
    = Ret (zlen ws, ws ++ drop (length ws) wc).
Proof.
  destruct (utf8_roundtrip 0 8 [0x20ac; 0x1f600] [0; 0; 0; 0; 0; 0; 0] [0; 0; 0; 0]) as (H1 & _ & H3);
    [repeat constructor; unfold scalar; lia|vm_compute; done..|].
  destruct (utf8_roundtrip 0x80 8 [0x20ac; 0x1f600] [0; 0; 0; 0; 0; 0; 0] [0; 0; 0; 0]) as (_ & H2 & _);
    [repeat constructor; unfold scalar; lia|vm_compute; done..|].
  split; [by apply H1|]. split; [by apply H2|exact H3].
Defined.

Lemma strict_refuses_pairs_witness :
  wine_utf8_wcstombs 0x80 [0xd83d; 0xde00] 2 [] 0 = Ret (-2, []).
Proof.
  apply (strict_refuses_pairs 0x80 [0x1f600] []); [|reflexivity].
  repeat constructor; unfold scalar; lia.
Defined.

Lemma mbstowcs_any_input_witness :
  exists r dst', wine_utf8_mbstowcs 8 [0xc3; 0xa9] (zlen [0xc3; 0xa9]) [5; 5] 2 = Ret (r, dst') /\
    zlen dst' = zlen [5; 5] /\ -2 <= r <= 2 /\
    (has_flag 8 MB_ERR_INVALID_CHARS = true -> 0 <= r ->
     exists cps, Forall (fun c => 0 <= c < 0x110000) cps /\ [0xc3; 0xa9] = flat_map utf8 cps /\
       dst' = flat_map utf16 cps ++ drop (length (flat_map utf16 cps)) [5; 5] /\
       r = zlen (flat_map utf16 cps)).
Proof.
  apply (mbstowcs_any_input 8 [0xc3; 0xa9] [5; 5] 2); [|unfold zlen; simpl; lia].
  repeat constructor; unfold isU; lia.
Defined.

End Utf8Spec.
