(* ===== verification/Rect.v ===== *)
(** * Rectangles (dlls/user/rect.c)

    The rectangle functions of USER, in their 32-bit forms with null checks and
    their 16-bit forms without.  Rectangles live in a store indexed by
    addresses, so that a destination may be one of the sources. *)
From stdpp Require Import gmap.
From S2P Require Import Prelude.

Module Rect.

Record RECT := mkRect { left : Z; top : Z; right : Z; bottom : Z }.
#[global] Instance RECT_eq_dec : EqDecision RECT.
Proof. solve_decision. Defined.

(** the store, and a pointer: [None] is NULL *)
Abbreviation mem := (gmap nat RECT).
Definition ptr := option nat.

(** following a pointer that is null or dangling faults *)
Definition load (m : mem) (p : ptr) : outcome RECT :=
  match p with
  | None => Fault
  | Some a => match m !! a with Some r => Ret r | None => Fault end
  end.
Definition store (m : mem) (p : ptr) (r : RECT) : outcome mem :=
  match p with
  | None => Fault
  | Some a => match m !! a with Some _ => Ret (<[a := r]> m) | None => Fault end
  end.

(** assignments to one member *)
Definition set_left (m : mem) (p : ptr) (v : Z) : outcome mem :=
  let! r := load m p in store m p (mkRect v (top r) (right r) (bottom r)).
Definition set_top (m : mem) (p : ptr) (v : Z) : outcome mem :=
  let! r := load m p in store m p (mkRect (left r) v (right r) (bottom r)).
Definition set_right (m : mem) (p : ptr) (v : Z) : outcome mem :=
  let! r := load m p in store m p (mkRect (left r) (top r) v (bottom r)).
Definition set_bottom (m : mem) (p : ptr) (v : Z) : outcome mem :=
  let! r := load m p in store m p (mkRect (left r) (top r) (right r) v).

Definition is_null (p : ptr) : bool := match p with None => true | _ => false end.

(** ** 16-bit forms *)

Definition SetRect16 (m : mem) (rect : ptr) (l t r b : Z) : outcome mem :=
  let! m := set_left m rect l in
  let! m := set_right m rect r in
  let! m := set_top m rect t in
  set_bottom m rect b.

Definition SetRectEmpty16 (m : mem) (rect : ptr) : outcome mem :=
  let! m := set_bottom m rect 0 in
  let! m := set_top m rect 0 in
  let! m := set_right m rect 0 in
  set_left m rect 0.

Definition CopyRect16 (m : mem) (dest src : ptr) : outcome (mem * bool) :=
  let! r := load m src in
  let! m := store m dest r in
  Ret (m, true).

Definition IsRectEmpty16 (m : mem) (rect : ptr) : outcome bool :=
  let! r := load m rect in
  Ret ((right r <=? left r) || (bottom r <=? top r)).

Definition PtInRect16 (m : mem) (rect : ptr) (x y : Z) : outcome bool :=
  let! r := load m rect in
  Ret ((left r <=? x) && (x <? right r) && (top r <=? y) && (y <? bottom r)).

Definition OffsetRect16 (m : mem) (rect : ptr) (x y : Z) : outcome mem :=
  let! r := load m rect in
  let! m := set_left m rect (s16 (left r + x)) in
  let! m := set_right m rect (s16 (right r + x)) in
  let! m := set_top m rect (s16 (top r + y)) in
  set_bottom m rect (s16 (bottom r + y)).

Definition InflateRect16 (m : mem) (rect : ptr) (x y : Z) : outcome mem :=
  let! r := load m rect in
  let! m := set_left m rect (s16 (left r - x)) in
  let! m := set_top m rect (s16 (top r - y)) in
  let! m := set_right m rect (s16 (right r + x)) in
  set_bottom m rect (s16 (bottom r + y)).

(** the test of both intersections, on the loaded rectangles *)
Definition disjoint (r1 r2 : RECT) : bool :=
  (right r2 <=? left r1) || (right r1 <=? left r2) ||
  (bottom r2 <=? top r1) || (bottom r1 <=? top r2).

(** the member assignments of both intersections: each reads the sources
    again, after the members assigned before it *)
Definition store_intersection (m : mem) (dest src1 src2 : ptr) : outcome mem :=
  let! r1 := load m src1 in let! r2 := load m src2 in
  let! m := set_left m dest (Z.max (left r1) (left r2)) in
  let! r1 := load m src1 in let! r2 := load m src2 in
  let! m := set_right m dest (Z.min (right r1) (right r2)) in
  let! r1 := load m src1 in let! r2 := load m src2 in
  let! m := set_top m dest (Z.max (top r1) (top r2)) in
  let! r1 := load m src1 in let! r2 := load m src2 in
  set_bottom m dest (Z.min (bottom r1) (bottom r2)).

Definition IntersectRect16 (m : mem) (dest src1 src2 : ptr) : outcome (mem * bool) :=
  let! e1 := IsRectEmpty16 m src1 in
  let! e2 := if e1 then Ret true else IsRectEmpty16 m src2 in
  let! e := if e1 || e2 then Ret true else
            let! r1 := load m src1 in let! r2 := load m src2 in Ret (disjoint r1 r2) in
  if e then let! m := SetRectEmpty16 m dest in Ret (m, false)
  else let! m := store_intersection m dest src1 src2 in Ret (m, true).

(** the member assignments of both unions *)
Definition store_union (m : mem) (dest src1 src2 : ptr) : outcome mem :=
  let! r1 := load m src1 in let! r2 := load m src2 in
  let! m := set_left m dest (Z.min (left r1) (left r2)) in
  let! r1 := load m src1 in let! r2 := load m src2 in
  let! m := set_right m dest (Z.max (right r1) (right r2)) in
  let! r1 := load m src1 in let! r2 := load m src2 in
  let! m := set_top m dest (Z.min (top r1) (top r2)) in
  let! r1 := load m src1 in let! r2 := load m src2 in
  set_bottom m dest (Z.max (bottom r1) (bottom r2)).

Definition UnionRect16 (m : mem) (dest src1 src2 : ptr) : outcome (mem * bool) :=
  let! e1 := IsRectEmpty16 m src1 in
  let! e2 := IsRectEmpty16 m src2 in
  if e1 then
    if e2 then let! m := SetRectEmpty16 m dest in Ret (m, false)
    else let! r := load m src2 in let! m := store m dest r in Ret (m, true)
  else if e2 then let! r := load m src1 in let! m := store m dest r in Ret (m, true)
  else let! m := store_union m dest src1 src2 in Ret (m, true).

Definition EqualRect16 (m : mem) (rect1 rect2 : ptr) : outcome bool :=
  let! a := load m rect1 in
  let! b := load m rect2 in
  Ret ((left a =? left b) && (right a =? right b) && (top a =? top b) && (bottom a =? bottom b)).

(** the four cases in which one side of the destination moves *)
Definition cut_side (d tmp : RECT) : RECT :=
  if (top tmp =? top d) && (bottom tmp =? bottom d) then
    if left tmp =? left d then mkRect (right tmp) (top d) (right d) (bottom d)
    else if right tmp =? right d then mkRect (left d) (top d) (left tmp) (bottom d)
    else d
  else if (left tmp =? left d) && (right tmp =? right d) then
    if top tmp =? top d then mkRect (left d) (bottom tmp) (right d) (bottom d)
    else if bottom tmp =? bottom d then mkRect (left d) (top d) (right d) (top tmp)
    else d
  else d.

(** [tmp] is a local variable: an address that is none of the others *)
Definition SubtractRect16 (m : mem) (tmp dest src1 src2 : ptr) : outcome (mem * bool) :=
  let! e := IsRectEmpty16 m src1 in
  if e then let! m := SetRectEmpty16 m dest in Ret (m, false) else
  let! r1 := load m src1 in
  let! m := store m dest r1 in
  let! (m, i) := IntersectRect16 m tmp src1 src2 in
  if i then
    let! eq := EqualRect16 m tmp dest in
    if eq then let! m := SetRectEmpty16 m dest in Ret (m, false) else
    let! t := load m tmp in
    let! d := load m dest in
    let! m := store m dest (cut_side d t) in
    Ret (m, true)
  else Ret (m, true).

(** ** 32-bit forms *)

Definition SetRect (m : mem) (rect : ptr) (l t r b : Z) : outcome (mem * bool) :=
  if is_null rect then Ret (m, false) else
  let! m := SetRect16 m rect l t r b in Ret (m, true).

Definition SetRectEmpty (m : mem) (rect : ptr) : outcome (mem * bool) :=
  if is_null rect then Ret (m, false) else
  let! m := SetRectEmpty16 m rect in Ret (m, true).

Definition CopyRect (m : mem) (dest src : ptr) : outcome (mem * bool) :=
  if is_null dest || is_null src then Ret (m, false) else
  let! r := load m src in
  let! m := store m dest r in
  Ret (m, true).

Definition IsRectEmpty (m : mem) (rect : ptr) : outcome bool :=
  if is_null rect then Ret true else
  let! r := load m rect in
  Ret ((right r <=? left r) || (bottom r <=? top r)).

Definition PtInRect (m : mem) (rect : ptr) (x y : Z) : outcome bool :=
  if is_null rect then Ret false else
  let! r := load m rect in
  Ret ((left r <=? x) && (x <? right r) && (top r <=? y) && (y <? bottom r)).

Definition OffsetRect (m : mem) (rect : ptr) (x y : Z) : outcome (mem * bool) :=
  if is_null rect then Ret (m, false) else
  let! r := load m rect in
  let! l := add_int (left r) x in
  let! m := set_left m rect l in
  let! rr := add_int (right r) x in
  let! m := set_right m rect rr in
  let! t := add_int (top r) y in
  let! m := set_top m rect t in
  let! b := add_int (bottom r) y in
  let! m := set_bottom m rect b in
  Ret (m, true).

Definition InflateRect (m : mem) (rect : ptr) (x y : Z) : outcome (mem * bool) :=
  if is_null rect then Ret (m, false) else
  let! r := load m rect in
  let! l := sub_int (left r) x in
  let! m := set_left m rect l in
  let! t := sub_int (top r) y in
  let! m := set_top m rect t in
  let! rr := add_int (right r) x in
  let! m := set_right m rect rr in
  let! b := add_int (bottom r) y in
  let! m := set_bottom m rect b in
  Ret (m, true).

Definition IntersectRect (m : mem) (dest src1 src2 : ptr) : outcome (mem * bool) :=
  if is_null dest || is_null src1 || is_null src2 then Ret (m, false) else
  let! e1 := IsRectEmpty m src1 in
  let! e2 := if e1 then Ret true else IsRectEmpty m src2 in
  let! e := if e1 || e2 then Ret true else
            let! r1 := load m src1 in let! r2 := load m src2 in Ret (disjoint r1 r2) in
  if e then let! (m, _) := SetRectEmpty m dest in Ret (m, false)
  else let! m := store_intersection m dest src1 src2 in Ret (m, true).

Definition UnionRect (m : mem) (dest src1 src2 : ptr) : outcome (mem * bool) :=
  if is_null dest then Ret (m, false) else
  let! e1 := IsRectEmpty m src1 in
  let! e2 := IsRectEmpty m src2 in
  if e1 then
    if e2 then let! (m, _) := SetRectEmpty m dest in Ret (m, false)
    else let! r := load m src2 in let! m := store m dest r in Ret (m, true)
  else if e2 then let! r := load m src1 in let! m := store m dest r in Ret (m, true)
  else let! m := store_union m dest src1 src2 in Ret (m, true).

Definition EqualRect (m : mem) (rect1 rect2 : ptr) : outcome bool :=
  if is_null rect1 || is_null rect2 then Ret false else
  let! a := load m rect1 in
  let! b := load m rect2 in
  Ret ((left a =? left b) && (right a =? right b) && (top a =? top b) && (bottom a =? bottom b)).

Definition SubtractRect (m : mem) (tmp dest src1 src2 : ptr) : outcome (mem * bool) :=
  if is_null dest then Ret (m, false) else
  let! e := IsRectEmpty m src1 in
  if e then let! (m, _) := SetRectEmpty m dest in Ret (m, false) else
  let! r1 := load m src1 in
  let! m := store m dest r1 in
  let! (m, i) := IntersectRect m tmp src1 src2 in
  if i then
    let! eq := EqualRect m tmp dest in
    if eq then let! (m, _) := SetRectEmpty m dest in Ret (m, false) else
    let! t := load m tmp in
    let! d := load m dest in
    let! m := store m dest (cut_side d t) in
    Ret (m, true)
  else Ret (m, true).

End Rect.
