(* ===== verification/RectSpec.v ===== *)
(** * Properties of the rectangle functions, by the points of rectangles *)
From stdpp Require Import gmap.
From S2P Require Import Prelude Rect.

Module RectSpec.
Import Rect.

(** the points of a rectangle; the right and bottom edges are outside *)
Definition inR (r : RECT) (x y : Z) : Prop := left r <= x < right r /\ top r <= y < bottom r.
Definition nonempty (r : RECT) : Prop := exists x y, inR r x y.

Definition empty_b (r : RECT) : bool := (right r <=? left r) || (bottom r <=? top r).
Lemma empty_b_spec r : empty_b r = true <-> ~ nonempty r.
Proof.
  unfold empty_b, nonempty, inR. rewrite orb_true_iff, !Z.leb_le. split.
  - intros H (x & y & ?). lia.
  - intros H. destruct (decide (right r <= left r)); [by left|]. right.
    destruct (decide (bottom r <= top r)); [done|]. exfalso. apply H. exists (left r), (top r). lia.
Qed.

Definition r_empty : RECT := mkRect 0 0 0 0.
Lemma r_empty_points x y : ~ inR r_empty x y.
Proof. unfold inR, r_empty. simpl. lia. Qed.

(** ** Store lemmas *)

(** the loads and stores of a store that is known at the addresses used *)
Ltac mem_step :=
  repeat first
    [ progress cbn [obind left top right bottom]
    | match goal with H : ?m !! ?a = Some _ |- _ => rewrite H end
    | rewrite lookup_insert_eq
    | rewrite lookup_insert_ne by congruence ].

Section Store.
Variables (m : mem) (d : nat) (r0 : RECT).
Hypothesis Hd : m !! d = Some r0.

Lemma load_at : load m (Some d) = Ret r0.
Proof. simpl. by rewrite Hd. Qed.

Lemma store_at r : store m (Some d) r = Ret (<[d := r]> m).
Proof. simpl. by rewrite Hd. Qed.

Lemma SetRectEmpty16_at : SetRectEmpty16 m (Some d) = Ret (<[d := r_empty]> m).
Proof.
  unfold SetRectEmpty16, set_bottom, set_top, set_right, set_left, load, store.
  mem_step. by rewrite !insert_insert_eq.
Qed.
End Store.

Definition inter (r1 r2 : RECT) : RECT :=
  mkRect (Z.max (left r1) (left r2)) (Z.max (top r1) (top r2))
         (Z.min (right r1) (right r2)) (Z.min (bottom r1) (bottom r2)).
Definition hull (r1 r2 : RECT) : RECT :=
  mkRect (Z.min (left r1) (left r2)) (Z.min (top r1) (top r2))
         (Z.max (right r1) (right r2)) (Z.max (bottom r1) (bottom r2)).

(** the members are read and written in an order that tolerates a destination
    that is one of the sources *)
Lemma store_intersection_spec m d a b rd_ r1 r2 :
  m !! d = Some rd_ -> m !! a = Some r1 -> m !! b = Some r2 ->
  store_intersection m (Some d) (Some a) (Some b) = Ret (<[d := inter r1 r2]> m).
Proof.
  intros Hd Ha Hb. unfold store_intersection, set_left, set_right, set_top, set_bottom, load, store.
  destruct (decide (a = d)) as [Hda|Hda], (decide (b = d)) as [Hdb|Hdb];
    try subst a; try subst b; simplify_eq; mem_step; rewrite !insert_insert_eq;
    do 2 f_equal; unfold inter; f_equal; lia.
Qed.

Lemma store_union_spec m d a b rd_ r1 r2 :
  m !! d = Some rd_ -> m !! a = Some r1 -> m !! b = Some r2 ->
  store_union m (Some d) (Some a) (Some b) = Ret (<[d := hull r1 r2]> m).
Proof.
  intros Hd Ha Hb. unfold store_union, set_left, set_right, set_top, set_bottom, load, store.
  destruct (decide (a = d)) as [Hda|Hda], (decide (b = d)) as [Hdb|Hdb];
    try subst a; try subst b; simplify_eq; mem_step; rewrite !insert_insert_eq;
    do 2 f_equal; unfold hull; f_equal; lia.
Qed.

(** ** Intersection *)

Definition inter_result (r1 r2 : RECT) : RECT * bool :=
  if empty_b r1 || empty_b r2 || disjoint r1 r2 then (r_empty, false) else (inter r1 r2, true).

Lemma IntersectRect_at m d a b rd_ r1 r2 :
  m !! d = Some rd_ -> m !! a = Some r1 -> m !! b = Some r2 ->
  IntersectRect m (Some d) (Some a) (Some b)
    = Ret (<[d := fst (inter_result r1 r2)]> m, snd (inter_result r1 r2)) /\
  IntersectRect16 m (Some d) (Some a) (Some b)
    = Ret (<[d := fst (inter_result r1 r2)]> m, snd (inter_result r1 r2)).
Proof.
  intros Hd Ha Hb.
  unfold IntersectRect, IntersectRect16, IsRectEmpty, IsRectEmpty16, SetRectEmpty, inter_result.
  cbn [is_null orb]. rewrite !(load_at _ _ _ Ha), !(load_at _ _ _ Hb). cbn [obind].
  rewrite (SetRectEmpty16_at _ _ _ Hd), (store_intersection_spec m d a b _ _ _ Hd Ha Hb).
  change ((right r1 <=? left r1) || (bottom r1 <=? top r1)) with (empty_b r1).
  change ((right r2 <=? left r2) || (bottom r2 <=? top r2)) with (empty_b r2).
  by destruct (empty_b r1), (empty_b r2), (disjoint r1 r2); cbn [obind orb fst snd].
Qed.

Lemma inter_result_points r1 r2 :
  (forall x y, inR (fst (inter_result r1 r2)) x y <-> inR r1 x y /\ inR r2 x y) /\
  (snd (inter_result r1 r2) = true <-> exists x y, inR r1 x y /\ inR r2 x y).
Proof.
  unfold inter_result, empty_b, disjoint, inter, r_empty, inR.
  destruct (_ || _ || (_ || _ || _ || _)) eqn:E; cbn [fst snd left top right bottom].
  - rewrite !orb_true_iff, !Z.leb_le in E. split; [intros x y; lia|].
    split; [done|]. intros (x & y & H1 & H2). lia.
  - rewrite !orb_false_iff, !Z.leb_gt in E. split; [intros x y; lia|].
    split; [|done]. intros _. exists (Z.max (left r1) (left r2)), (Z.max (top r1) (top r2)). lia.
Qed.

(** IntersectRect, whatever the aliasing of its arguments, stores a
    rectangle of exactly the common points in the destination, changes nothing
    else and returns TRUE exactly when there is a common point; the 16-bit
    form does the same. *)
Theorem IntersectRect_spec m d a b rd_ r1 r2 :
  m !! d = Some rd_ -> m !! a = Some r1 -> m !! b = Some r2 ->
  exists r ok,
    IntersectRect m (Some d) (Some a) (Some b) = Ret (<[d := r]> m, ok) /\
    IntersectRect16 m (Some d) (Some a) (Some b) = Ret (<[d := r]> m, ok) /\
    (forall x y, inR r x y <-> inR r1 x y /\ inR r2 x y) /\
    (ok = true <-> exists x y, inR r1 x y /\ inR r2 x y).
Proof.
  intros Hd Ha Hb. destruct (IntersectRect_at m d a b _ _ _ Hd Ha Hb) as [E E16].
  destruct (inter_result_points r1 r2) as [Hp Hok]. do 2 eexists. by split_and!.
Qed.

(** ** Union *)

(** UnionRect, whatever the aliasing, stores the smallest rectangle that
    has the points of both sources: it contains them, and every rectangle that
    contains them contains it; it returns TRUE exactly when a source is not
    empty. *)
Theorem UnionRect_spec m d a b rd_ r1 r2 :
  m !! d = Some rd_ -> m !! a = Some r1 -> m !! b = Some r2 ->
  exists r ok,
    UnionRect m (Some d) (Some a) (Some b) = Ret (<[d := r]> m, ok) /\
    UnionRect16 m (Some d) (Some a) (Some b) = Ret (<[d := r]> m, ok) /\
    (forall x y, inR r1 x y \/ inR r2 x y -> inR r x y) /\
    (forall q, (forall x y, inR r1 x y \/ inR r2 x y -> inR q x y) -> forall x y, inR r x y -> inR q x y) /\
    (ok = true <-> nonempty r1 \/ nonempty r2).
Proof.
  intros Hd Ha Hb. unfold UnionRect, UnionRect16, IsRectEmpty, IsRectEmpty16, SetRectEmpty.
  cbn [is_null]. rewrite !(load_at _ _ _ Ha), !(load_at _ _ _ Hb). cbn [obind].
  rewrite (SetRectEmpty16_at _ _ _ Hd), (store_union_spec m d a b _ _ _ Hd Ha Hb).
  rewrite !(store_at _ _ _ Hd).
  change ((right r1 <=? left r1) || (bottom r1 <=? top r1)) with (empty_b r1).
  change ((right r2 <=? left r2) || (bottom r2 <=? top r2)) with (empty_b r2).
  assert (forall r, empty_b r = true -> forall x y, ~ inR r x y) as Hno.
  { intros r H%empty_b_spec x y Hxy. apply H. by exists x, y. }
  assert (forall r, empty_b r = false -> inR r (left r) (top r) /\ inR r (right r - 1) (bottom r - 1)) as Hyes.
  { unfold empty_b, inR. intros r H. rewrite orb_false_iff, !Z.leb_gt in H. lia. }
  destruct (empty_b r1) eqn:E1, (empty_b r2) eqn:E2; cbn [obind]; do 2 eexists; (split; [done|split; [done|]]).
  - split_and!.
    + intros x y [H1|H1]; exfalso; [by apply (Hno r1 E1 x y)|by apply (Hno r2 E2 x y)].
    + intros q _ x y H1. by apply r_empty_points in H1.
    + split; [done|]. intros [H1|H1]; by apply empty_b_spec in H1.
  - pose proof (Hno r1 E1) as N. split_and!; [intros x y [H1|H1]; [by apply N in H1|done]|auto|].
    split; [|done]. intros _. right. destruct (Hyes r2 E2). by do 2 eexists.
  - pose proof (Hno r2 E2) as N. split_and!; [intros x y [H1|H1]; [done|by apply N in H1]|auto|].
    split; [|done]. intros _. left. destruct (Hyes r1 E1). by do 2 eexists.
  - destruct (Hyes r1 E1) as [A1 A2], (Hyes r2 E2) as [B1 B2]. split_and!.
    + unfold inR, hull. simpl. lia.
    + intros q Hq x y Hxy. pose proof (Hq _ _ (or_introl A1)). pose proof (Hq _ _ (or_introl A2)).
      pose proof (Hq _ _ (or_intror B1)). pose proof (Hq _ _ (or_intror B2)).
      unfold inR, hull in *. simpl in *. lia.
    + split; [|done]. intros _. left. by do 2 eexists.
Qed.

(** ** Difference *)

Definition eq_b (a b : RECT) : bool :=
  (left a =? left b) && (right a =? right b) && (top a =? top b) && (bottom a =? bottom b).

(** the rectangle and the value a subtraction ends with *)
Definition sub_result (r1 r2 : RECT) : RECT * bool :=
  if empty_b r1 then (r_empty, false) else
  let (t, i) := inter_result r1 r2 in
  if i then if eq_b t r1 then (r_empty, false) else (cut_side r1 t, true) else (r1, true).

(** both forms, when the destination is not the subtracted rectangle *)
Lemma SubtractRect_at m t d a b rt rd_ r1 r2 :
  m !! t = Some rt -> m !! d = Some rd_ -> m !! a = Some r1 -> m !! b = Some r2 ->
  t <> d -> t <> a -> t <> b -> b <> d ->
  exists m', SubtractRect m (Some t) (Some d) (Some a) (Some b) = Ret (m', snd (sub_result r1 r2)) /\
    SubtractRect16 m (Some t) (Some d) (Some a) (Some b) = Ret (m', snd (sub_result r1 r2)) /\
    m' !! d = Some (fst (sub_result r1 r2)) /\ forall p, p <> d -> p <> t -> m' !! p = m !! p.
Proof.
  intros Ht Hd Ha Hb Htd Hta Htb Hbd.
  unfold SubtractRect, SubtractRect16, IsRectEmpty, IsRectEmpty16, SetRectEmpty, EqualRect, EqualRect16.
  cbn [is_null orb]. rewrite !(load_at _ _ _ Ha). cbn [obind].
  rewrite (SetRectEmpty16_at _ _ _ Hd), !(store_at _ _ _ Hd). cbn [obind].
  change ((right r1 <=? left r1) || (bottom r1 <=? top r1)) with (empty_b r1).
  unfold sub_result. destruct (empty_b r1).
  { eexists. split_and!; [done|done|by rewrite lookup_insert_eq|].
    intros p Hp _. by rewrite lookup_insert_ne. }
  set (m1 := <[d := r1]> m).
  assert (m1 !! t = Some rt /\ m1 !! a = Some r1 /\ m1 !! b = Some r2) as (Ht1 & Ha1 & Hb1).
  { unfold m1. rewrite (lookup_insert_ne m d t), (lookup_insert_ne m d b) by congruence.
    split_and!; [done| |done].
    destruct (decide (a = d)) as [->|]; [by rewrite lookup_insert_eq|by rewrite lookup_insert_ne]. }
  destruct (IntersectRect_at m1 t a b _ _ _ Ht1 Ha1 Hb1) as [-> ->]. cbn [obind].
  destruct (inter_result r1 r2) as [rt' i]. cbn [fst snd].
  set (m2 := <[t := rt']> m1).
  assert (m2 !! t = Some rt' /\ m2 !! d = Some r1) as [Ht2 Hd2].
  { unfold m2, m1. by rewrite lookup_insert_eq, lookup_insert_ne, lookup_insert_eq by congruence. }
  assert (forall p r, p <> d -> p <> t -> <[d := r]> m2 !! p = m !! p) as Hframe.
  { intros p r Hp Hp'. unfold m2, m1. by rewrite !lookup_insert_ne by congruence. }
  assert (forall p, p <> d -> p <> t -> m2 !! p = m !! p) as Hframe'.
  { intros p Hp Hp'. unfold m2, m1. by rewrite !lookup_insert_ne by congruence. }
  destruct i.
  - rewrite (load_at _ _ _ Ht2), (load_at _ _ _ Hd2). cbn [obind].
    rewrite (SetRectEmpty16_at _ _ _ Hd2), (store_at _ _ _ Hd2).
    change ((left rt' =? left r1) && (right rt' =? right r1) && (top rt' =? top r1) && (bottom rt' =? bottom r1))
      with (eq_b rt' r1).
    destruct (eq_b rt' r1); cbn [obind]; eexists; split_and!; try done; try (by rewrite lookup_insert_eq); auto.
  - eexists. split_and!; try done.
Qed.

Lemma eq_b_spec a b : eq_b a b = true <-> a = b.
Proof.
  unfold eq_b. destruct a, b. simpl. rewrite !andb_true_iff, !Z.eqb_eq.
  split; [intros [[[-> ->] ->] ->]; done|intros [= -> -> -> ->]; done].
Qed.

(** what a cut does, by the sides of the common part that are sides of [r] *)
Lemma cut_side_cases r t :
  let c := cut_side r t in
  let v := top t = top r /\ bottom t = bottom r in
  let h := left t = left r /\ right t = right r in
  (v /\ left t = left r /\ c = mkRect (right t) (top r) (right r) (bottom r)) \/
  (v /\ left t <> left r /\ right t = right r /\ c = mkRect (left r) (top r) (left t) (bottom r)) \/
  (v /\ left t <> left r /\ right t <> right r /\ c = r) \/
  (~ v /\ h /\ top t = top r /\ c = mkRect (left r) (bottom t) (right r) (bottom r)) \/
  (~ v /\ h /\ top t <> top r /\ bottom t = bottom r /\ c = mkRect (left r) (top r) (right r) (top t)) \/
  (~ v /\ h /\ top t <> top r /\ bottom t <> bottom r /\ c = r) \/
  (~ v /\ ~ h /\ c = r).
Proof.
  cbv zeta. unfold cut_side.
  destruct (Z.eqb_spec (top t) (top r)), (Z.eqb_spec (bottom t) (bottom r)); cbn [andb];
  destruct (Z.eqb_spec (left t) (left r)), (Z.eqb_spec (right t) (right r)); cbn [andb]; tauto.
Qed.

(** in each case the sides are known *)
Ltac cut_cases Hc :=
  destruct Hc as [Hc|[Hc|[Hc|[Hc|[Hc|[Hc|Hc]]]]]];
  repeat match goal with H : _ /\ _ |- _ => destruct H end;
  match goal with E : mkRect _ _ _ _ = _ |- _ => try (injection E as -> -> -> ->);
    try (rewrite <- E in *; simpl in *) end; lia.

(** a side is cut where the common part [t] takes a whole side of [r]; the
    four corners of [r] that stay tell that no other side could move *)
Lemma cut_side_points r t :
  nonempty t -> (forall x y, inR t x y -> inR r x y) -> t <> r ->
  let c := cut_side r t in
  (forall x y, inR c x y -> inR r x y) /\
  (forall x y, inR r x y -> ~ inR t x y -> inR c x y) /\
  (forall q, (forall x y, inR r x y -> ~ inR t x y -> inR q x y) -> forall x y, inR c x y -> inR q x y) /\
  (exists x y, inR r x y /\ ~ inR t x y).
Proof.
  intros (x0 & y0 & H0) Hsub Hne.
  assert (left r <= left t /\ right t <= right r /\ top r <= top t /\ bottom t <= bottom r) as Hin.
  { pose proof (Hsub (left t) (top t)). pose proof (Hsub (right t - 1) (bottom t - 1)).
    unfold inR in *. lia. }
  assert (left t < right t /\ top t < bottom t) as Ht by (unfold inR in H0; lia).
  assert (~ (left t = left r /\ right t = right r /\ top t = top r /\ bottom t = bottom r)) as Hd.
  { intros (? & ? & ? & ?). apply Hne. destruct r, t; simpl in *; congruence. }
  clear Hsub Hne H0. pose proof (cut_side_cases r t) as Hc. cbv zeta in *.
  destruct (cut_side r t) as [cl ct cr cb]. split_and!.
  - intros x y. unfold inR. simpl. cut_cases Hc.
  - intros x y. unfold inR. simpl. cut_cases Hc.
  - intros q Hq x y. unfold inR in *.
    assert (left t <> left r \/ top t <> top r -> left q <= left r /\ top q <= top r) as K1
      by (intros; pose proof (Hq (left r) (top r)); lia).
    assert (right t <> right r \/ top t <> top r -> right r <= right q /\ top q <= top r) as K2
      by (intros; pose proof (Hq (right r - 1) (top r)); lia).
    assert (left t <> left r \/ bottom t <> bottom r -> left q <= left r /\ bottom r <= bottom q) as K3
      by (intros; pose proof (Hq (left r) (bottom r - 1)); lia).
    assert (right t <> right r \/ bottom t <> bottom r -> right r <= right q /\ bottom r <= bottom q) as K4
      by (intros; pose proof (Hq (right r - 1) (bottom r - 1)); lia).
    pose proof (Hq x y) as K5. clear Hq. simpl. cut_cases Hc.
  - unfold inR. destruct (decide (left r < left t)); [exists (left r), (top r); lia|].
    destruct (decide (top r < top t)); [exists (left r), (top r); lia|].
    exists (right r - 1), (bottom r - 1). lia.
Qed.

(** the result is the bounding rectangle of the difference *)
Definition is_hull_of_difference (r r1 r2 : RECT) : Prop :=
  (forall x y, inR r x y -> inR r1 x y) /\
  (forall x y, inR r1 x y -> ~ inR r2 x y -> inR r x y) /\
  (forall q, (forall x y, inR r1 x y -> ~ inR r2 x y -> inR q x y) -> forall x y, inR r x y -> inR q x y).

Lemma sub_result_points r1 r2 :
  is_hull_of_difference (fst (sub_result r1 r2)) r1 r2 /\
  (snd (sub_result r1 r2) = true <-> exists x y, inR r1 x y /\ ~ inR r2 x y).
Proof.
  destruct (inter_result_points r1 r2) as [Hp Hok]. unfold sub_result, is_hull_of_difference.
  destruct (empty_b r1) eqn:E1.
  { apply empty_b_spec in E1. assert (forall x y, ~ inR r1 x y) as N.
    { intros x y H. apply E1. by exists x, y. }
    cbn [fst snd]. split_and!; try (intros; exfalso; by eapply r_empty_points); try (intros; exfalso; by eapply N).
    split; [done|]. intros (x & y & H & _). by apply N in H. }
  destruct (inter_result r1 r2) as [t i]. cbn [fst snd] in *. destruct i.
  - destruct (eq_b t r1) eqn:Ee.
    + apply eq_b_spec in Ee as ->. cbn [fst snd].
      assert (forall x y, inR r1 x y -> ~ inR r2 x y -> False) as N.
      { intros x y H1 H2. by destruct (proj1 (Hp x y) H1). }
      split_and!; try (intros; exfalso; by eapply r_empty_points); try (intros; exfalso; by eapply N).
      split; [done|]. intros (x & y & H & H'). exfalso. by eapply N.
    + assert (nonempty t) as Hn.
      { destruct (proj1 Hok eq_refl) as (x & y & H). exists x, y. by apply Hp. }
      assert (t <> r1) as Hne.
      { intros ->. assert (eq_b r1 r1 = true) by (by apply eq_b_spec). congruence. }
      destruct (cut_side_points r1 t Hn) as (C1 & C2 & C3 & x & y & C4 & C5);
        [intros x y Hxy; by apply Hp in Hxy as [? _]|done|].
      cbv zeta in *. cbn [fst snd]. split_and!; [done| | |split; [intros _; exists x, y|done]].
      * intros u v H1 H2. apply C2; [done|]. intros H3. by apply Hp in H3 as [_ ?].
      * intros q Hq. apply C3. intros u v H1 H2. apply Hq; [done|]. intros H3. by apply H2, Hp.
      * split; [done|]. intros H. by apply C5, Hp.
  - cbn [fst snd]. assert (forall x y, inR r1 x y -> ~ inR r2 x y) as N.
    { intros x y H1 H2. assert (false = true) by (apply Hok; by exists x, y). done. }
    split_and!; auto. split; [intros _|done]. apply not_true_iff_false in E1.
    assert (nonempty r1) as (x & y & H).
    { unfold nonempty, inR, empty_b in *. exists (left r1), (top r1).
      apply not_true_iff_false in E1. rewrite orb_false_iff, !Z.leb_gt in E1. lia. }
    exists x, y. eauto.
Qed.

(** C34: SubtractRect, when the destination is not the subtracted rectangle (it
    may be the first one), stores the bounding rectangle of the points of the
    first rectangle that are not in the second: it lies in the first
    rectangle, contains those points, and every rectangle that contains them
    contains it; it returns TRUE exactly when there are such points and
    changes nothing else.  The 16-bit form does the same. *)
Theorem SubtractRect_spec m t d a b rt rd_ r1 r2 :
  m !! t = Some rt -> m !! d = Some rd_ -> m !! a = Some r1 -> m !! b = Some r2 ->
  t <> d -> t <> a -> t <> b -> b <> d ->
  exists m' r ok,
    SubtractRect m (Some t) (Some d) (Some a) (Some b) = Ret (m', ok) /\
    SubtractRect16 m (Some t) (Some d) (Some a) (Some b) = Ret (m', ok) /\
    m' !! d = Some r /\ (forall p, p <> d -> p <> t -> m' !! p = m !! p) /\
    is_hull_of_difference r r1 r2 /\
    (ok = true <-> exists x y, inR r1 x y /\ ~ inR r2 x y).
Proof.
  intros Ht Hd Ha Hb Htd Hta Htb Hbd.
  destruct (SubtractRect_at m t d a b _ _ _ _ Ht Hd Ha Hb Htd Hta Htb Hbd) as (m' & E & E16 & Hr & Hf).
  destruct (sub_result_points r1 r2) as [Hh Hok]. do 3 eexists. by split_and!.
Qed.

(** when the destination is the subtracted rectangle, the copy of the first
    rectangle overwrites it before it is read: the result is empty and FALSE
    for every first rectangle that is not empty, whatever was subtracted. *)
Theorem SubtractRect_alias m t d a rt r1 r2 :
  m !! t = Some rt -> m !! d = Some r2 -> m !! a = Some r1 -> t <> d -> t <> a -> a <> d ->
  exists m', SubtractRect m (Some t) (Some d) (Some a) (Some d) = Ret (m', false) /\
    m' !! d = Some r_empty.
Proof.
  intros Ht Hd Ha Htd Hta Had. unfold SubtractRect, IsRectEmpty, SetRectEmpty, EqualRect.
  cbn [is_null orb]. rewrite !(load_at _ _ _ Ha). cbn [obind].
  rewrite (SetRectEmpty16_at _ _ _ Hd), !(store_at _ _ _ Hd). cbn [obind].
  change ((right r1 <=? left r1) || (bottom r1 <=? top r1)) with (empty_b r1).
  destruct (empty_b r1) eqn:E1; [eexists; split; [done|by rewrite lookup_insert_eq]|].
  set (m1 := <[d := r1]> m).
  assert (m1 !! t = Some rt /\ m1 !! a = Some r1 /\ m1 !! d = Some r1) as (Ht1 & Ha1 & Hd1).
  { unfold m1. by rewrite lookup_insert_eq, !lookup_insert_ne by congruence. }
  destruct (IntersectRect_at m1 t a d _ _ _ Ht1 Ha1 Hd1) as [-> _]. cbn [obind].
  assert (inter_result r1 r1 = (r1, true)) as ->.
  { unfold inter_result, disjoint, inter. rewrite E1. unfold empty_b in E1.
    rewrite orb_false_iff, !Z.leb_gt in E1. rewrite !Z.max_id, !Z.min_id. repeat (zcase1; try lia).
    by destruct r1. }
  cbn [fst snd]. set (m2 := <[t := r1]> m1).
  assert (m2 !! t = Some r1 /\ m2 !! d = Some r1) as [Ht2 Hd2].
  { unfold m2, m1. by rewrite lookup_insert_eq, lookup_insert_ne, lookup_insert_eq by congruence. }
  rewrite (load_at _ _ _ Ht2), (load_at _ _ _ Hd2). cbn [obind]. rewrite !Z.eqb_refl. cbn [andb].
  rewrite (SetRectEmpty16_at _ _ _ Hd2). cbn [obind]. eexists. split; [done|]. by rewrite lookup_insert_eq.
Qed.

(** ** Movement *)

(** the point set of a moved rectangle, while no coordinate overflows *)
Lemma OffsetRect_at m d r x y :
  m !! d = Some r -> isS 32 (left r + x) -> isS 32 (right r + x) -> isS 32 (top r + y) ->
  isS 32 (bottom r + y) ->
  OffsetRect m (Some d) x y = Ret (<[d := mkRect (left r + x) (top r + y) (right r + x) (bottom r + y)]> m, true).
Proof.
  intros Hd H1 H2 H3 H4. unfold isS in *. cbn in H1, H2, H3, H4.
  unfold OffsetRect, set_left, set_right, set_top, set_bottom, add_int. cbn [is_null].
  rewrite (load_at _ _ _ Hd). cbn [obind]. repeat (zcase1; try lia). cbn [obind andb].
  unfold load, store. mem_step. by rewrite !insert_insert_eq.
Qed.

(** moving a rectangle moves its points and moving it back restores it, as
    long as no coordinate leaves the range of an int; where one does, the
    result is undefined (the model faults). *)
Theorem OffsetRect_spec m d r x y :
  m !! d = Some r -> isS 32 (left r + x) -> isS 32 (right r + x) -> isS 32 (top r + y) ->
  isS 32 (bottom r + y) -> isS 32 (left r) -> isS 32 (right r) -> isS 32 (top r) -> isS 32 (bottom r) ->
  exists m' r', OffsetRect m (Some d) x y = Ret (m', true) /\ m' = <[d := r']> m /\
    (forall u v, inR r' u v <-> inR r (u - x) (v - y)) /\
    OffsetRect m' (Some d) (- x) (- y) = Ret (m, true).
Proof.
  intros Hd H1 H2 H3 H4 H5 H6 H7 H8. rewrite (OffsetRect_at m d r) by done.
  do 2 eexists. split_and!; [done|done|unfold inR; simpl; lia|].
  rewrite (OffsetRect_at _ d (mkRect (left r + x) (top r + y) (right r + x) (bottom r + y)));
    cbn [left top right bottom]; rewrite ?Z.add_opp_r, ?Z.add_simpl_r; try done.
  - rewrite insert_insert_eq. rewrite insert_id; [done|]. rewrite Hd. by destruct r.
  - by rewrite lookup_insert_eq.
Qed.

(** *** Witnesses: two overlapping rectangles at 1 and 2, a local at 0 *)
Definition ex_mem : mem :=
  <[0%nat := r_empty]> (<[1%nat := mkRect 0 0 10 10]> (<[2%nat := mkRect 5 0 20 10]> ∅)).

Lemma IntersectRect_spec_witness :
  exists r ok,
    IntersectRect ex_mem (Some 1%nat) (Some 1%nat) (Some 2%nat) = Ret (<[1%nat := r]> ex_mem, ok) /\
    IntersectRect16 ex_mem (Some 1%nat) (Some 1%nat) (Some 2%nat) = Ret (<[1%nat := r]> ex_mem, ok) /\
    (forall x y, inR r x y <-> inR (mkRect 0 0 10 10) x y /\ inR (mkRect 5 0 20 10) x y) /\
    (ok = true <-> exists x y, inR (mkRect 0 0 10 10) x y /\ inR (mkRect 5 0 20 10) x y).
Proof. apply (IntersectRect_spec ex_mem 1 1 2 (mkRect 0 0 10 10)); reflexivity. Defined.

Lemma UnionRect_spec_witness :
  exists r ok,
    UnionRect ex_mem (Some 0%nat) (Some 1%nat) (Some 2%nat) = Ret (<[0%nat := r]> ex_mem, ok) /\
    UnionRect16 ex_mem (Some 0%nat) (Some 1%nat) (Some 2%nat) = Ret (<[0%nat := r]> ex_mem, ok) /\
    (forall x y, inR (mkRect 0 0 10 10) x y \/ inR (mkRect 5 0 20 10) x y -> inR r x y) /\
    (forall q, (forall x y, inR (mkRect 0 0 10 10) x y \/ inR (mkRect 5 0 20 10) x y -> inR q x y) ->
       forall x y, inR r x y -> inR q x y) /\
    (ok = true <-> nonempty (mkRect 0 0 10 10) \/ nonempty (mkRect 5 0 20 10)).
Proof. apply (UnionRect_spec ex_mem 0 1 2 r_empty); reflexivity. Defined.

Lemma SubtractRect_spec_witness :
  exists m' r ok,
    SubtractRect ex_mem (Some 0%nat) (Some 1%nat) (Some 1%nat) (Some 2%nat) = Ret (m', ok) /\
    SubtractRect16 ex_mem (Some 0%nat) (Some 1%nat) (Some 1%nat) (Some 2%nat) = Ret (m', ok) /\
    m' !! 1%nat = Some r /\ (forall p, p <> 1%nat -> p <> 0%nat -> m' !! p = ex_mem !! p) /\
    is_hull_of_difference r (mkRect 0 0 10 10) (mkRect 5 0 20 10) /\
    (ok = true <-> exists x y, inR (mkRect 0 0 10 10) x y /\ ~ inR (mkRect 5 0 20 10) x y).
Proof. by apply (SubtractRect_spec ex_mem 0 1 1 2 r_empty (mkRect 0 0 10 10)). Defined.

Lemma SubtractRect_alias_witness :
  exists m', SubtractRect ex_mem (Some 0%nat) (Some 2%nat) (Some 1%nat) (Some 2%nat) = Ret (m', false) /\
    m' !! 2%nat = Some r_empty.
Proof. by apply (SubtractRect_alias ex_mem 0 2 1 r_empty (mkRect 0 0 10 10) (mkRect 5 0 20 10)). Defined.

Lemma OffsetRect_spec_witness :
  exists m' r', OffsetRect ex_mem (Some 2%nat) (-7) 3 = Ret (m', true) /\ m' = <[2%nat := r']> ex_mem /\
    (forall u v, inR r' u v <-> inR (mkRect 5 0 20 10) (u - -7) (v - 3)) /\
    OffsetRect m' (Some 2%nat) (- -7) (- 3) = Ret (ex_mem, true).
Proof. by apply (OffsetRect_spec ex_mem 2 (mkRect 5 0 20 10) (-7) 3). Defined.

End RectSpec.
