(* ===== verification/SList.v ===== *)
(** * Interlocked singly linked lists (dlls/ntdll/slist.c)

    The lists are shared by threads, so every call is a sequence of atomic
    steps on the shared memory: a read, a write, a compare-exchange of the head
    pointer or an exchange-add on the counter word.  The state of a call
    between two steps is its program point; [step] is the next step of a call
    and [run] interleaves the calls of many threads by a schedule. *)
From S2P Require Import Prelude.

Module SList.

(** An entry is an address, 0 is NULL; [next] is the Next member of every
    entry.  [counter] is the 32-bit word that holds Depth (low half) and
    Sequence (high half). *)
Record shared := mkShared { head : nat; next : nat -> nat; counter : Z }.

Definition RtlInitializeSListHead (s : shared) : shared := mkShared 0 (next s) 0.
Definition RtlQueryDepthSList (s : shared) : Z := counter s mod 2 ^ 16.
Definition Sequence (s : shared) : Z := counter s / 2 ^ 16.

(** ListEntry->Next = v *)
Definition set_next (s : shared) (e v : nat) : shared :=
  mkShared (head s) (fun a => if decide (a = e) then v else next s a) (counter s).

(** InterlockedCompareExchangePointer on the head: the old value *)
Definition InterlockedCompareExchangePointer (s : shared) (xchg compare : nat) : shared * nat :=
  (mkShared (if decide (head s = compare) then xchg else head s) (next s) (counter s), head s).

(** InterlockedExchangeAdd on the counter word *)
Definition InterlockedExchangeAdd (s : shared) (v : Z) : shared :=
  mkShared (head s) (next s) (u32 (counter s + v)).

(** Program points.  Of a push of [e]: the read of the head, the write of
    e->Next, the read of e->Next for the comparison, the compare-exchange, the
    exchange-add.  Of a pop: the read of the
    head, the read of item->Next, the compare-exchange, the exchange-add.  Of a
    flush: the read, the compare-exchange, the count of the entries (a step
    per entry), the exchange-add.  The last of each group has returned. *)
Inductive pc :=
  | Push1 (e : nat)
  | Push2 (e oldHead : nat)
  | Push3 (e oldHead : nat)
  | Push4 (e oldHead compare : nat)
  | Push5 (e oldHead : nat)
  | PushDone (e oldHead : nat)
  | Pop1
  | Pop2 (item : nat)
  | Pop3 (item nxt : nat)
  | Pop4 (item : nat)
  | PopDone (item : nat)
  | Flush1
  | Flush2 (hd : nat)
  | Flush3 (hd item : nat) (depth : Z)
  | Flush4 (hd : nat) (depth : Z)
  | FlushDone (hd : nat).
#[global] Instance pc_eq_dec : EqDecision pc.
Proof. solve_decision. Defined.

Definition step (s : shared) (p : pc) : shared * pc :=
  match p with
  (* RtlInterlockedPushEntrySList *)
  | Push1 e => (s, Push2 e (head s))
  | Push2 e oldHead => (set_next s e oldHead, Push3 e oldHead)
  | Push3 e oldHead => (s, Push4 e oldHead (next s e))
  | Push4 e oldHead compare =>
    let '(s', ret) := InterlockedCompareExchangePointer s e compare in
    (s', if decide (ret = oldHead) then Push5 e oldHead else Push1 e)
  | Push5 e oldHead => (InterlockedExchangeAdd s (2 ^ 16 + 1), PushDone e oldHead)
  | PushDone e oldHead => (s, PushDone e oldHead)
  (* RtlInterlockedPopEntrySList *)
  | Pop1 => (s, if decide (head s = 0)%nat then PopDone 0 else Pop2 (head s))
  | Pop2 item => (s, Pop3 item (next s item))
  | Pop3 item nxt =>
    let '(s', ret) := InterlockedCompareExchangePointer s nxt item in
    (s', if decide (ret = item) then Pop4 item else Pop1)
  | Pop4 item => (InterlockedExchangeAdd s (-1), PopDone item)
  | PopDone item => (s, PopDone item)
  (* RtlInterlockedFlushSList *)
  | Flush1 => (s, if decide (head s = 0)%nat then FlushDone 0 else Flush2 (head s))
  | Flush2 hd =>
    let '(s', ret) := InterlockedCompareExchangePointer s 0 hd in
    (s', if decide (ret = hd) then Flush3 hd hd 0 else Flush1)
  | Flush3 hd item depth =>
    (s, if decide (item = 0)%nat then Flush4 hd depth
        else Flush3 hd (next s item) (u16 (depth + 1)))
  | Flush4 hd depth => (InterlockedExchangeAdd s (- depth), FlushDone hd)
  | FlushDone hd => (s, FlushDone hd)
  end.

(** the first program points of the calls *)
Definition RtlInterlockedPushEntrySList (ListEntry : nat) : pc := Push1 ListEntry.
Definition RtlInterlockedPopEntrySList : pc := Pop1.
Definition RtlInterlockedFlushSList : pc := Flush1.

(** ** Threads *)

(** thread [i] takes a step; a number that is no thread does nothing *)
Definition sys_step (st : shared * list pc) (i : nat) : shared * list pc :=
  match snd st !! i with
  | Some p => let '(s', p') := step (fst st) p in (s', <[i := p']> (snd st))
  | None => st
  end.

Definition run (sched : list nat) (st : shared * list pc) : shared * list pc :=
  fold_left sys_step sched st.

Definition returned (p : pc) : bool :=
  match p with PushDone _ _ | PopDone _ | FlushDone _ => true | _ => false end.

(** a single call, run alone for [n] steps *)
Fixpoint steps (n : nat) (st : shared * pc) : shared * pc :=
  match n with
  | O => st
  | S n => steps n (step (fst st) (snd st))
  end.

End SList.
