(* ===== verification/SListSpec.v ===== *)
(** * Properties of the interlocked lists

    Every interleaving of calls in which no entry is pushed again refines an
    abstract stack, with the compare-exchange of a call as its linearization
    point, and leaves the right depth; a single call run alone is a stack
    operation; an entry that is pushed again while a pop holds it breaks the
    list. *)
From stdpp Require Import sets.
From S2P Require Import Prelude SList.

Module SListSpec.
Import SList.

(** ** The abstract stack *)

(** what a call does to the stack when it commits, with what it saw *)
Inductive label :=
  | LPush (e oldHead : nat)
  | LPop (item : nat)
  | LPopEmpty
  | LFlush (hd : nat)
  | LFlushEmpty.

Definition top (L : list nat) : nat := match L with [] => O | x :: _ => x end.

Definition stack_apply (L : list nat) (l : label) : option (list nat) :=
  match l with
  | LPush e oldHead => if decide (oldHead = top L) then Some (e :: L) else None
  | LPop item => match L with x :: L' => if decide (item = x) then Some L' else None | [] => None end
  | LPopEmpty | LFlushEmpty => match L with [] => Some [] | _ => None end
  | LFlush hd => match L with x :: _ => if decide (hd = x) then Some [] else None | [] => None end
  end.

Fixpoint stack_run (L : list nat) (ls : list label) : option (list nat) :=
  match ls with
  | [] => Some L
  | l :: ls => match stack_apply L l with Some L' => stack_run L' ls | None => None end
  end.

(** the commit of a step, seen from the program points before and after it *)
Definition event (p p' : pc) : list label :=
  match p, p' with
  | Push4 _ _ _, Push5 e oldHead => [LPush e oldHead]
  | Pop3 _ _, Pop4 item => [LPop item]
  | Pop1, PopDone _ => [LPopEmpty]
  | Flush2 _, Flush3 hd _ _ => [LFlush hd]
  | Flush1, FlushDone _ => [LFlushEmpty]
  | _, _ => []
  end.

(** the commits of a schedule, in order *)
Fixpoint commits (sched : list nat) (st : shared * list pc) : list label :=
  match sched with
  | [] => []
  | i :: sched =>
    match snd st !! i with
    | Some p => event p (snd (step (fst st) p))
    | None => []
    end ++ commits sched (sys_step st i)
  end.

(** ** The representation of a stack by the linked entries *)
Fixpoint chain (nx : nat -> nat) (h : nat) (L : list nat) : Prop :=
  match L with
  | [] => h = O
  | x :: L' => h = x /\ x <> O /\ chain nx (nx x) L'
  end.

Lemma chain_top nx h L : chain nx h L -> h = top L.
Proof. destruct L; simpl; [done|by intros [? _]]. Qed.

Lemma chain_ext nx nx' h L :
  (forall a, a ∈ L -> nx' a = nx a) -> chain nx h L -> chain nx' h L.
Proof.
  revert h. induction L as [|x L IH]; intros h Hx; simpl; [done|].
  intros (-> & Hx0 & Hc). split_and!; [done|done|]. rewrite Hx by set_solver.
  apply IH; [|done]. intros a Ha. apply Hx. set_solver.
Qed.

(** ** The invariant

    [K] is the set of entries that are or were in the list; the Next member of
    those never changes.  A push that has not committed has an entry of its
    own, outside [K]. *)
Definition pending (p : pc) : option nat :=
  match p with
  | Push1 e | Push2 e _ | Push3 e _ | Push4 e _ _ => Some e
  | _ => None
  end.

Definition local_ok (nx : nat -> nat) (K : list nat) (p : pc) : Prop :=
  match p with
  | Push3 e oldHead => nx e = oldHead
  | Push4 e oldHead compare => nx e = oldHead /\ compare = oldHead
  | Pop2 item => item <> O /\ item ∈ K
  | Pop3 item nxt => item <> O /\ item ∈ K /\ nx item = nxt
  | Flush2 hd => hd <> O
  | _ => True
  end.

(** what the counter will still be changed by, by a call that has committed *)
Definition owes (nx : nat -> nat) (K : list nat) (p : pc) (a : Z) : Prop :=
  match p with
  | Push5 _ _ => a = 1
  | Pop4 _ => a = -1
  | Flush3 _ item depth => exists R, chain nx item R /\ (forall x, x ∈ R -> x ∈ K) /\ a = - (depth + zlen R)
  | Flush4 _ depth => a = - depth
  | _ => a = 0
  end.

Definition sumZ (l : list Z) : Z := foldr Z.add 0 l.

Record Inv (s : shared) (ps : list pc) (L K : list nat) (as_ : list Z) : Prop := {
  inv_chain : chain (next s) (head s) L;
  inv_known : forall x, x ∈ L -> x ∈ K;
  inv_pend : forall i p e, ps !! i = Some p -> pending p = Some e -> e <> O /\ e ∉ K;
  inv_own : forall i j p q e, ps !! i = Some p -> ps !! j = Some q ->
              pending p = Some e -> pending q = Some e -> i = j;
  inv_local : forall i p, ps !! i = Some p -> local_ok (next s) K p;
  inv_owes : Forall2 (owes (next s) K) ps as_;
  inv_count : exists k, counter s + sumZ as_ = zlen L + 2 ^ 16 * k
}.

Lemma local_ok_frame nx nx' K K' p :
  (forall a, a ∈ K -> nx' a = nx a) -> (forall e, pending p = Some e -> nx' e = nx e) ->
  (forall a, a ∈ K -> a ∈ K') -> local_ok nx K p -> local_ok nx' K' p.
Proof.
  intros Hk Hp HK. destruct p; simpl in *; try done.
  - by rewrite Hp.
  - by rewrite Hp.
  - intros [? ?]. auto.
  - intros (? & ? & ?). rewrite Hk by done. auto.
Qed.

Lemma owes_frame nx nx' K K' p a :
  (forall x, x ∈ K -> nx' x = nx x) -> (forall x, x ∈ K -> x ∈ K') -> owes nx K p a -> owes nx' K' p a.
Proof.
  intros Hk HK. destruct p; simpl; try done.
  intros (R & Hc & HR & ->). exists R. split_and!; [|auto|done].
  eapply chain_ext; [|done]. auto.
Qed.

Lemma sumZ_insert l i a a' : l !! i = Some a -> sumZ (<[i := a']> l) = sumZ l - a + a'.
Proof.
  revert i. induction l as [|x l IH]; intros [|i] H; simplify_eq/=; [lia|].
  rewrite (IH i H). lia.
Qed.

(** a step of thread [i] keeps the invariant when it keeps the Next members of
    known entries and of the pushes of the others, and accounts for the
    counter *)
Lemma Inv_update s ps L K as_ i p a s' p' L' K' a' :
  Inv s ps L K as_ -> ps !! i = Some p -> as_ !! i = Some a ->
  chain (next s') (head s') L' -> (forall x, x ∈ L' -> x ∈ K') -> (forall x, x ∈ K -> x ∈ K') ->
  (forall x, x ∈ K -> next s' x = next s x) ->
  (forall j q e, j <> i -> ps !! j = Some q -> pending q = Some e -> next s' e = next s e /\ e ∉ K') ->
  (forall e, pending p' = Some e -> pending p = Some e /\ e ∉ K') ->
  local_ok (next s') K' p' -> owes (next s') K' p' a' ->
  (exists k, counter s' - counter s + (a' - a) = zlen L' - zlen L + 2 ^ 16 * k) ->
  Inv s' (<[i := p']> ps) L' K' (<[i := a']> as_).
Proof.
  intros I Hp Ha Hc HL HK Hnx Hoth Hpend Hloc Howe Hcnt.
  assert (i < length ps)%nat as Hi by (by apply lookup_lt_Some in Hp).
  assert (forall j q, <[i := p']> ps !! j = Some q -> j = i /\ q = p' \/ j <> i /\ ps !! j = Some q) as Hj.
  { intros j q. destruct (decide (j = i)) as [->|Hne].
    - rewrite list_lookup_insert_eq by done. intros [= <-]. by left.
    - rewrite list_lookup_insert_ne by done. by right. }
  split.
  - done.
  - done.
  - intros j q e Hq He. destruct (Hj j q Hq) as [[-> ->]|[Hne Hq']].
    + destruct (Hpend e He) as [Hpe ?]. split; [|done]. by eapply (inv_pend _ _ _ _ _ I i p e).
    + destruct (Hoth j q e Hne Hq' He) as [_ ?]. split; [|done]. by eapply (inv_pend _ _ _ _ _ I j q e).
  - intros j j' q q' e Hq Hq' He He'.
    destruct (Hj j q Hq) as [[-> ->]|[Hne H1]], (Hj j' q' Hq') as [[-> ->]|[Hne' H1']]; try done.
    + destruct (Hpend e He) as [Hpe _]. by eapply (inv_own _ _ _ _ _ I i j' p q' e).
    + destruct (Hpend e He') as [Hpe _]. by eapply (inv_own _ _ _ _ _ I j i q p e).
    + by eapply (inv_own _ _ _ _ _ I j j' q q' e).
  - intros j q Hq. destruct (Hj j q Hq) as [[-> ->]|[Hne H1]]; [done|].
    eapply local_ok_frame; [done| |done|by eapply (inv_local _ _ _ _ _ I j)].
    intros e He. by destruct (Hoth j q e Hne H1 He).
  - apply Forall2_insert; [|done]. eapply Forall2_impl; [|exact (inv_owes _ _ _ _ _ I)].
    intros q b. by apply owes_frame.
  - destruct (inv_count _ _ _ _ _ I) as [k Hk], Hcnt as [k' Hk'].
    rewrite (sumZ_insert _ _ a) by done. exists (k + k'). lia.
Qed.

(** a step that leaves the shared memory alone *)
Lemma Inv_local s ps L K as_ i p a p' a' :
  Inv s ps L K as_ -> ps !! i = Some p -> as_ !! i = Some a ->
  (forall e, pending p' = Some e -> pending p = Some e) ->
  local_ok (next s) K p' -> owes (next s) K p' a' -> (exists k, a' = a + 2 ^ 16 * k) ->
  Inv s (<[i := p']> ps) L K (<[i := a']> as_).
Proof.
  intros I Hp Ha Hpend Hloc Howe [k Hk].
  eapply (Inv_update s ps L K as_ i p a s p' L K a'); try done.
  - by apply (inv_chain _ _ _ _ _ I).
  - by apply (inv_known _ _ _ _ _ I).
  - intros j q e Hne Hq He. split; [done|]. by eapply (inv_pend _ _ _ _ _ I j q e).
  - intros e He. specialize (Hpend e He). split; [done|]. by eapply (inv_pend _ _ _ _ _ I i p e).
  - exists k. lia.
Qed.

(** a step that changes the counter only *)
Lemma Inv_counter s ps L K as_ i p a p' v :
  Inv s ps L K as_ -> ps !! i = Some p -> as_ !! i = Some a ->
  pending p' = None -> local_ok (next s) K p' -> owes (next s) K p' 0 -> (exists k, a = v + 2 ^ 16 * k) ->
  Inv (InterlockedExchangeAdd s v) (<[i := p']> ps) L K (<[i := 0]> as_).
Proof.
  intros I Hp Ha Hpend Hloc Howe [k Hk].
  eapply (Inv_update s ps L K as_ i p a _ p' L K 0); try done.
  - by apply (inv_chain _ _ _ _ _ I).
  - by apply (inv_known _ _ _ _ _ I).
  - intros j q e Hne Hq He. split; [done|]. by eapply (inv_pend _ _ _ _ _ I j q e).
  - congruence.
  - simpl. unfold wrapU. exists (- (2 ^ 16 * ((counter s + v) / 2 ^ 32)) - k).
    pose proof (Z.div_mod (counter s + v) (2 ^ 32)). lia.
Qed.

(** the call of thread [i] owes something in the list of debts *)
Lemma Inv_owed s ps L K as_ i p :
  Inv s ps L K as_ -> ps !! i = Some p -> exists a, as_ !! i = Some a /\ owes (next s) K p a.
Proof. intros I Hp. by eapply Forall2_lookup_l; [exact (inv_owes _ _ _ _ _ I)|]. Qed.

(** ** Simulation: a step keeps the invariant and commits what the stack does *)
Definition simulates (ps : list pc) (L : list nat) (i : nat) (p : pc) (s' : shared) (p' : pc) : Prop :=
  exists L' K' as_', stack_run L (event p p') = Some L' /\ Inv s' (<[i := p']> ps) L' K' as_'.

Section Step.
Variables (s : shared) (ps : list pc) (L K : list nat) (as_ : list Z) (i : nat).
Hypothesis I : Inv s ps L K as_.

Let sim p := simulates ps L i p (fst (step s p)) (snd (step s p)).

(** what a silent step of the thread needs *)
Lemma sim_local p p' :
  ps !! i = Some p -> step s p = (s, p') -> event p p' = [] ->
  (forall e, pending p' = Some e -> pending p = Some e) -> local_ok (next s) K p' ->
  (forall a, owes (next s) K p a -> exists a' k, owes (next s) K p' a' /\ a' = a + 2 ^ 16 * k) -> sim p.
Proof.
  intros Hp Hs He Hpend Hloc Howe. unfold sim. rewrite Hs. cbn [fst snd].
  destruct (Inv_owed _ _ _ _ _ _ _ I Hp) as (a & Ha & Hao). destruct (Howe a Hao) as (a' & k & Ho & Hk).
  exists L, K, (<[i := a']> as_). rewrite He. split; [done|].
  eapply Inv_local; try done. by exists k.
Qed.

Lemma sim_push_write e oldHead : ps !! i = Some (Push2 e oldHead) -> sim (Push2 e oldHead).
Proof.
  intros Hp. destruct (Inv_owed _ _ _ _ _ _ _ I Hp) as (a & Ha & ->).
  destruct (inv_pend _ _ _ _ _ I i _ e Hp eq_refl) as [He HeK].
  exists L, K, (<[i := 0]> as_). split; [done|]. simpl.
  assert (forall x, x <> e -> next (set_next s e oldHead) x = next s x) as Hnx.
  { intros x Hx. simpl. by rewrite decide_False. }
  eapply (Inv_update s ps L K as_ i _ 0); try done.
  - eapply chain_ext; [|exact (inv_chain _ _ _ _ _ I)]. intros x Hx. apply Hnx. intros ->.
    by apply HeK, (inv_known _ _ _ _ _ I).
  - by apply (inv_known _ _ _ _ _ I).
  - intros x Hx. apply Hnx. by intros ->.
  - intros j q e' Hne Hq He'. destruct (inv_pend _ _ _ _ _ I j q e' Hq He') as [_ ?]. split; [|done].
    apply Hnx. intros ->. apply Hne. by eapply (inv_own _ _ _ _ _ I j i q _ e).
  - intros e' [= <-]. done.
  - simpl. by rewrite decide_True.
  - exists 0. simpl. lia.
Qed.

Lemma sim_push_cas e oldHead cmp : ps !! i = Some (Push4 e oldHead cmp) -> sim (Push4 e oldHead cmp).
Proof.
  intros Hp. destruct (Inv_owed _ _ _ _ _ _ _ I Hp) as (a & Ha & ->).
  destruct (inv_pend _ _ _ _ _ I i _ e Hp eq_refl) as [He HeK].
  destruct (inv_local _ _ _ _ _ I i _ Hp) as [Hnx ->].
  unfold sim, simulates. cbn [step InterlockedCompareExchangePointer fst snd].
  destruct (decide (head s = oldHead)) as [Hh|Hh].
  - exists (e :: L), (e :: K), (<[i := 1]> as_). split.
    { cbn [event stack_run stack_apply]. rewrite decide_True; [done|].
      rewrite <- Hh. exact (chain_top _ _ _ (inv_chain _ _ _ _ _ I)). }
    eapply (Inv_update s ps L K as_ i _ 0); try done.
    + simpl. split_and!; [done|done|]. rewrite Hnx, <- Hh. exact (inv_chain _ _ _ _ _ I).
    + intros x. rewrite !elem_of_cons. intros [->|Hx]; [by left|right].
      by apply (inv_known _ _ _ _ _ I).
    + intros x. rewrite elem_of_cons. by right.
    + intros j q e' Hne Hq He'. destruct (inv_pend _ _ _ _ _ I j q e' Hq He') as [_ ?]. split; [done|].
      rewrite elem_of_cons. intros [->|?]; [|done]. apply Hne. by eapply (inv_own _ _ _ _ _ I j i q _ e).
    + exists 0. rewrite zlen_cons. simpl. lia.
  - exists L, K, (<[i := 0]> as_). split; [done|].
    pose proof (Inv_local s ps L K as_ i (Push4 e oldHead oldHead) 0 (Push1 e) 0 I Hp Ha) as HI.
    destruct s; simpl in *. apply HI; try done. by exists 0.
Qed.

Lemma sim_pop_cas item nxt : ps !! i = Some (Pop3 item nxt) -> sim (Pop3 item nxt).
Proof.
  intros Hp. destruct (Inv_owed _ _ _ _ _ _ _ I Hp) as (a & Ha & ->).
  destruct (inv_local _ _ _ _ _ I i _ Hp) as (Hi0 & HiK & Hnx).
  unfold sim, simulates. cbn [step InterlockedCompareExchangePointer fst snd].
  destruct (decide (head s = item)) as [Hh|Hh].
  - pose proof (inv_chain _ _ _ _ _ I) as Hc. destruct L as [|x L']; [simpl in Hc; congruence|].
    destruct Hc as (Hx & Hx0 & Hc). assert (item = x) as -> by congruence.
    exists L', K, (<[i := -1]> as_). split.
    { cbn [event stack_run stack_apply]. by rewrite decide_True. }
    eapply (Inv_update s ps (x :: L') K as_ i _ 0); try done.
    + simpl. by rewrite <- Hnx.
    + intros y Hy. apply (inv_known _ _ _ _ _ I). by right.
    + intros j q e' Hne Hq He'. by destruct (inv_pend _ _ _ _ _ I j q e' Hq He').
    + exists 0. rewrite zlen_cons. simpl. lia.
  - exists L, K, (<[i := 0]> as_). split; [done|].
    pose proof (Inv_local s ps L K as_ i (Pop3 item nxt) 0 Pop1 0 I Hp Ha) as HI.
    destruct s; simpl in *. apply HI; try done. by exists 0.
Qed.

Lemma sim_flush_cas hd : ps !! i = Some (Flush2 hd) -> sim (Flush2 hd).
Proof.
  intros Hp. destruct (Inv_owed _ _ _ _ _ _ _ I Hp) as (a & Ha & ->).
  pose proof (inv_local _ _ _ _ _ I i _ Hp) as Hh0. simpl in Hh0.
  unfold sim, simulates. cbn [step InterlockedCompareExchangePointer fst snd].
  destruct (decide (head s = hd)) as [Hh|Hh].
  - pose proof (inv_chain _ _ _ _ _ I) as Hc. destruct L as [|x L'] eqn:EL; [simpl in Hc; congruence|].
    assert (hd = x) as -> by (destruct Hc; congruence).
    exists [], K, (<[i := - zlen (x :: L')]> as_). split.
    { cbn [event stack_run stack_apply]. by rewrite decide_True. }
    eapply (Inv_update s ps (x :: L') K as_ i _ 0); try done.
    + intros y Hy. by apply elem_of_nil in Hy.
    + intros j q e' Hne Hq He'. by destruct (inv_pend _ _ _ _ _ I j q e' Hq He').
    + simpl. exists (x :: L'). split_and!; [by rewrite Hh in Hc|by apply (inv_known _ _ _ _ _ I)|lia].
    + exists 0. unfold zlen. simpl. lia.
  - exists L, K, (<[i := 0]> as_). split; [done|].
    pose proof (Inv_local s ps L K as_ i (Flush2 hd) 0 Flush1 0 I Hp Ha) as HI.
    destruct s; simpl in *. apply HI; try done. by exists 0.
Qed.

(** every step of every thread *)
Lemma sim_step p : ps !! i = Some p -> sim p.
Proof.
  intros Hp. destruct p as [e|e o|e o|e o c|e o|e o| |x|x n|x|x| |h|h x d|h d|h].
  - eapply sim_local; try done. intros a ->. by exists 0, 0.
  - by apply sim_push_write.
  - eapply sim_local; try done.
    + simpl. split; [|exact (inv_local _ _ _ _ _ I i _ Hp)].
      exact (inv_local _ _ _ _ _ I i _ Hp).
    + intros a ->. by exists 0, 0.
  - by apply sim_push_cas.
  - destruct (Inv_owed _ _ _ _ _ _ _ I Hp) as (a & Ha & ->). exists L, K, (<[i := 0]> as_).
    split; [done|]. eapply Inv_counter; try done. by exists (-1).
  - eapply sim_local; try done. intros a ->. by exists 0, 0.
  - unfold sim. cbn [step]. destruct (decide (head s = 0)%nat) as [Hh|Hh].
    + destruct (Inv_owed _ _ _ _ _ _ _ I Hp) as (a & Ha & ->). exists L, K, (<[i := 0]> as_).
      split; [|eapply Inv_local; try done; by exists 0].
      pose proof (inv_chain _ _ _ _ _ I) as Hc. destruct L; [done|]. destruct Hc as (? & ? & _). congruence.
    + destruct (Inv_owed _ _ _ _ _ _ _ I Hp) as (a & Ha & ->). exists L, K, (<[i := 0]> as_).
      split; [done|]. eapply Inv_local; try done; [|by exists 0]. split; [done|].
      apply (inv_known _ _ _ _ _ I). pose proof (inv_chain _ _ _ _ _ I) as Hc.
      destruct L; [done|]. destruct Hc as (-> & _). by left.
  - destruct (inv_local _ _ _ _ _ I i _ Hp) as [Hx HxK]. eapply sim_local; try done.
    intros a ->. by exists 0, 0.
  - by apply sim_pop_cas.
  - destruct (Inv_owed _ _ _ _ _ _ _ I Hp) as (a & Ha & ->). exists L, K, (<[i := 0]> as_).
    split; [done|]. eapply Inv_counter; try done. by exists 0.
  - eapply sim_local; try done. intros a ->. by exists 0, 0.
  - unfold sim. cbn [step]. destruct (decide (head s = 0)%nat) as [Hh|Hh].
    + destruct (Inv_owed _ _ _ _ _ _ _ I Hp) as (a & Ha & ->). exists L, K, (<[i := 0]> as_).
      split; [|eapply Inv_local; try done; by exists 0].
      pose proof (inv_chain _ _ _ _ _ I) as Hc. destruct L; [done|]. destruct Hc as (? & ? & _). congruence.
    + destruct (Inv_owed _ _ _ _ _ _ _ I Hp) as (a & Ha & ->). exists L, K, (<[i := 0]> as_).
      split; [done|]. eapply Inv_local; try done. by exists 0.
  - by apply sim_flush_cas.
  - destruct (Inv_owed _ _ _ _ _ _ _ I Hp) as (a & Ha & R & Hc & HR & ->).
    unfold sim. cbn [step fst snd]. destruct R as [|y R]; simpl in Hc.
    + subst x. exists L, K, (<[i := - d]> as_). rewrite decide_True by done. split; [done|].
      eapply Inv_local; try done. exists 0. rewrite zlen_nil. lia.
    + destruct Hc as (-> & Hy & Hc). rewrite decide_False by done.
      exists L, K, (<[i := - (u16 (d + 1) + zlen R)]> as_). split; [done|].
      eapply Inv_local; try done.
      * exists R. split_and!; [done| |done]. intros z Hz. apply HR. by right.
      * exists ((d + 1) / 2 ^ 16). rewrite zlen_cons. unfold wrapU.
        pose proof (Z.div_mod (d + 1) (2 ^ 16)). lia.
  - destruct (Inv_owed _ _ _ _ _ _ _ I Hp) as (a & Ha & ->). exists L, K, (<[i := 0]> as_).
    split; [done|]. eapply Inv_counter; try done. exists 0. unfold zlen. simpl. lia.
  - eapply sim_local; try done. intros a ->. by exists 0, 0.
Qed.
End Step.

Lemma stack_run_app L l l' :
  stack_run L (l ++ l') = match stack_run L l with Some L' => stack_run L' l' | None => None end.
Proof. revert L. induction l as [|x l IH]; intros L; simpl; [done|]. by destruct (stack_apply L x). Qed.

Lemma run_refines sched : forall s ps L K as_,
  Inv s ps L K as_ ->
  exists L' K' as_', stack_run L (commits sched (s, ps)) = Some L' /\
    Inv (fst (run sched (s, ps))) (snd (run sched (s, ps))) L' K' as_'.
Proof.
  induction sched as [|i sched IH]; intros s ps L K as_ I; [by exists L, K, as_|].
  cbn [commits run fold_left]. unfold sys_step. cbn [fst snd].
  destruct (ps !! i) as [p|] eqn:Hp; [|by apply (IH _ _ _ K as_)].
  destruct (sim_step s ps L K as_ i I p Hp) as (L1 & K1 & as1 & E & I1).
  destruct (step s p) as [s' p'] eqn:Es. cbn [fst snd] in *.
  destruct (IH _ _ _ _ _ I1) as (L' & K' & as' & E' & I'). exists L', K', as'.
  split; [|done]. rewrite stack_run_app, E. done.
Qed.

(** ** Calls and their start *)

(** calls that have not started *)
Definition fresh_call (p : pc) : bool :=
  match p with Push1 _ | Pop1 | Flush1 => true | _ => false end.
Definition pushed (ps : list pc) : list nat := omap pending ps.

Lemma Inv_init s calls L :
  chain (next s) (head s) L -> forallb fresh_call calls = true -> NoDup (L ++ pushed calls) ->
  O ∉ pushed calls -> RtlQueryDepthSList s = zlen L mod 2 ^ 16 ->
  Inv s calls L L (replicate (length calls) 0).
Proof.
  intros Hc Hf Hnd H0 Hdepth. apply list.NoDup_app in Hnd as (_ & Hdis & Hnd).
  assert (forall i p, calls !! i = Some p -> fresh_call p = true) as Hfr.
  { intros i p Hp. rewrite forallb_forall in Hf. apply Hf, list_elem_of_In. by eapply list_elem_of_lookup_2. }
  assert (forall i p e, calls !! i = Some p -> pending p = Some e -> e ∈ pushed calls) as Hin.
  { intros i p e Hp He. apply list_elem_of_omap. exists p. split; [by eapply list_elem_of_lookup_2|done]. }
  split.
  - done.
  - done.
  - intros i p e Hp He. specialize (Hin i p e Hp He). split; [by intros ->|].
    intros HL. by apply (Hdis e).
  - clear Hdis H0 Hfr Hin Hf. unfold pushed in Hnd. induction calls as [|q calls IH]; intros i j p p' e Hi; [done|].
    simpl in Hnd. intros Hj He He'.
    assert (forall k r, calls !! k = Some r -> pending r = Some e -> e ∈ omap pending calls) as Hmem.
    { intros k r Hk Hr. apply list_elem_of_omap. exists r. split; [by eapply list_elem_of_lookup_2|done]. }
    destruct i as [|i], j as [|j]; simplify_eq/=; [done| | |].
    + rewrite He in Hnd. apply list.NoDup_cons in Hnd as [Hn _]. exfalso. by eapply Hn, Hmem.
    + rewrite He' in Hnd. apply list.NoDup_cons in Hnd as [Hn _]. exfalso. by eapply Hn, Hmem.
    + f_equal. eapply IH; try done. destruct (pending q); [by apply list.NoDup_cons in Hnd as [_ ?]|done].
  - intros i p Hp. specialize (Hfr i p Hp). by destruct p.
  - apply Forall2_same_length_lookup. split; [by rewrite length_replicate|].
    intros i p a Hp Ha. apply lookup_replicate in Ha as [-> _]. specialize (Hfr i p Hp). by destruct p.
  - assert (sumZ (replicate (length calls) 0) = 0) as ->.
    { clear. induction calls as [|p calls IH]; [done|]. simpl. by rewrite IH. }
    unfold RtlQueryDepthSList in Hdepth.
    exists (counter s / 2 ^ 16 - zlen L / 2 ^ 16).
    pose proof (Z.div_mod (counter s) (2 ^ 16)). pose proof (Z.div_mod (zlen L) (2 ^ 16)). lia.
Qed.

(** C29: linearizability.  Any number of threads each make one call (push, pop or
    flush) on a well-formed list, and no entry that is pushed is in the list or
    pushed twice.  Under every schedule the commits of the calls, in the order
    of their compare-exchanges, are a legal history of a stack that starts with
    the initial entries, with the values the calls return, and the list always
    represents the resulting stack; once all calls have returned, the depth is
    the length of the stack (modulo 2^16). *)
Theorem slist_linearizable sched s calls L :
  chain (next s) (head s) L -> forallb fresh_call calls = true -> NoDup (L ++ pushed calls) ->
  O ∉ pushed calls -> RtlQueryDepthSList s = zlen L mod 2 ^ 16 ->
  let '(s', ps') := run sched (s, calls) in
  exists L', stack_run L (commits sched (s, calls)) = Some L' /\ chain (next s') (head s') L' /\
    (forallb returned ps' = true -> RtlQueryDepthSList s' = zlen L' mod 2 ^ 16).
Proof.
  intros Hc Hf Hnd H0 Hd.
  destruct (run_refines sched s calls L L _ (Inv_init s calls L Hc Hf Hnd H0 Hd)) as (L' & K' & as' & E & I).
  destruct (run sched (s, calls)) as [s' ps']. cbn [fst snd] in *. exists L'. split_and!; [done| |].
  - exact (inv_chain _ _ _ _ _ I).
  - intros Hret. destruct (inv_count _ _ _ _ _ I) as [k Hk].
    assert (sumZ as' = 0) as Hsum.
    { pose proof (inv_owes _ _ _ _ _ I) as Ho. clear - Hret Ho.
      induction Ho as [|p a ps as_ Hpa Ho IH]; [done|]. simpl in *.
      apply andb_true_iff in Hret as [Hp Hret]. rewrite IH by done.
      destruct p; simpl in Hp, Hpa; try done; lia. }
    unfold RtlQueryDepthSList. rewrite Hsum, Z.add_0_r in Hk. rewrite Hk.
    rewrite Z.mul_comm. apply Z_mod_plus_full.
Qed.

(** ** A call run alone *)

Lemma steps_flush_count n : forall s hd x R d,
  chain (next s) x R -> length R = n ->
  steps (S n) (s, Flush3 hd x d) = (s, Flush4 hd (u16 (d + zlen R))) \/ R = [].
Proof.
  induction n as [|n IH]; intros s hd x R d Hc Hn; [right; by destruct R|]. left.
  destruct R as [|y R]; [done|]. destruct Hc as (-> & Hy & Hc). cbn [length] in Hn.
  change (steps (S (S n)) (s, Flush3 hd y d)) with (steps (S n) (step s (Flush3 hd y d))).
  cbn [step]. rewrite decide_False by done.
  destruct (IH s hd (next s y) R (u16 (d + 1)) Hc ltac:(lia)) as [E|E].
  - rewrite E. do 2 f_equal. rewrite zlen_cons. unfold wrapU. rewrite Zplus_mod_idemp_l. f_equal. lia.
  - subst R. simpl in Hc, Hn. assert (n = O) as -> by lia. rewrite Hc. cbn [steps fst snd step].
    rewrite decide_True by done. done.
Qed.

Lemma steps_add n m st : steps (n + m) st = steps m (steps n st).
Proof. revert st. induction n as [|n IH]; intros st; [done|]. cbn [Nat.add steps]. apply IH. Qed.

Lemma flush_alone s x L :
  chain (next s) (head s) (x :: L) ->
  steps (2 + S (length (x :: L)) + 1) (s, RtlInterlockedFlushSList) =
  (InterlockedExchangeAdd (mkShared 0 (next s) (counter s)) (- u16 (zlen (x :: L))), FlushDone x).
Proof.
  intros Hc. pose proof Hc as (Hh & Hx & _). rewrite !steps_add.
  assert (steps 2 (s, RtlInterlockedFlushSList) = (mkShared 0 (next s) (counter s), Flush3 x x 0)) as ->.
  { unfold RtlInterlockedFlushSList. cbn [steps step fst snd]. rewrite Hh, decide_False by done.
    cbn [step InterlockedCompareExchangePointer fst snd]. by rewrite Hh, !decide_True. }
  destruct (steps_flush_count (length (x :: L)) (mkShared 0 (next s) (counter s)) x x (x :: L) 0) as [-> |];
    [by rewrite Hh in Hc|done|done|done].
Qed.

(** a call that no other call interleaves is a stack operation: a push puts
    its entry on top and returns the previous top, a pop removes and returns
    the top (NULL on an empty list), a flush empties the list and returns its
    entries still linked; Depth and Sequence change in one word by +1 and +1,
    by -1, and by the number of entries flushed. *)
Theorem slist_sequential s L e :
  chain (next s) (head s) L -> e <> O -> e ∉ L ->
  (exists s', steps 5 (s, RtlInterlockedPushEntrySList e) = (s', PushDone e (top L)) /\
     chain (next s') (head s') (e :: L) /\ counter s' = u32 (counter s + 0x10001)) /\
  (match L with
   | [] => steps 1 (s, RtlInterlockedPopEntrySList) = (s, PopDone 0) /\
           steps 1 (s, RtlInterlockedFlushSList) = (s, FlushDone 0)
   | x :: L' =>
     (exists s', steps 4 (s, RtlInterlockedPopEntrySList) = (s', PopDone x) /\
        chain (next s') (head s') L' /\ counter s' = u32 (counter s - 1)) /\
     (exists s', steps (length L + 4) (s, RtlInterlockedFlushSList) = (s', FlushDone x) /\
        head s' = O /\ chain (next s') x L /\ counter s' = u32 (counter s - u16 (zlen L)))
   end).
Proof.
  intros Hc He HeL. split.
  - eexists. cbn [steps step fst snd RtlInterlockedPushEntrySList InterlockedCompareExchangePointer set_next next head counter].
    rewrite !(decide_True _ _ (eq_refl e)). rewrite !(decide_True _ _ (eq_refl (head s))).
    rewrite (chain_top _ _ _ Hc). split; [reflexivity|]. simpl. split_and!; try done.
    rewrite decide_True by done. rewrite <- (chain_top _ _ _ Hc).
    eapply chain_ext; [|done]. intros a Ha. rewrite decide_False; [done|]. by intros ->.
  - destruct L as [|x L']; [simpl in Hc; unfold RtlInterlockedPopEntrySList, RtlInterlockedFlushSList;
      cbn [steps step fst snd]; by rewrite Hc|].
    pose proof Hc as (Hh & Hx & Hc'). split.
    + eexists. unfold RtlInterlockedPopEntrySList. cbn [steps step fst snd]. rewrite Hh.
      rewrite decide_False by done. cbn [steps step fst snd InterlockedCompareExchangePointer].
      rewrite Hh, !(decide_True _ _ (eq_refl x)). split; [reflexivity|]. done.
    + replace (length (x :: L') + 4)%nat with (2 + S (length (x :: L')) + 1)%nat by lia.
      rewrite (flush_alone s x L' Hc). eexists. split_and!; [done|done|by rewrite Hh in Hc|done].
Qed.

(** an entry that is pushed again while a pop holds it breaks the list (the
    ABA problem; Sequence is not part of the comparison).  On the list 1, 2, 3 a
    first thread pops and is stopped before its compare-exchange; others pop 1
    and 2 and push 1 again; the compare-exchange of the first thread then
    succeeds.  The stack holds 3 alone, but the list holds 2 and 3: the entry 2
    is in the list and in the hands of the thread that popped it. *)
Theorem slist_aba :
  let nx a := match a with 1 => 2 | 2 => 3 | _ => 0 end%nat in
  let st := (mkShared 1 nx 0x30003, [Pop1; Pop1; Pop1; Push1 1]) in
  let sched := [0; 0; 1; 1; 1; 1; 2; 2; 2; 2; 3; 3; 3; 3; 3; 0; 0]%nat in
  let '(s', ps') := run sched st in
  chain nx 1 [1; 2; 3]%nat /\
  ps' = [PopDone 1; PopDone 1; PopDone 2; PushDone 1 3] /\
  stack_run [1; 2; 3]%nat (commits sched st) = Some [3]%nat /\
  chain (next s') (head s') [2; 3]%nat /\ RtlQueryDepthSList s' = 1.
Proof. vm_compute. split_and!; done. Qed.

(** *** Witnesses *)
Lemma slist_linearizable_witness :
  let s := mkShared 7 (fun _ => 0%nat) 1 in
  let calls := [Push1 3; Pop1; Flush1; Push1 4] in
  let sched := [0; 1; 0; 0; 3; 1; 0; 1; 2; 3; 2; 0]%nat in
  let '(s', ps') := run sched (s, calls) in
  exists L', stack_run [7%nat] (commits sched (s, calls)) = Some L' /\ chain (next s') (head s') L' /\
    (forallb returned ps' = true -> RtlQueryDepthSList s' = zlen L' mod 2 ^ 16).
Proof.
  apply (slist_linearizable [0; 1; 0; 0; 3; 1; 0; 1; 2; 3; 2; 0]%nat (mkShared 7 (fun _ => 0%nat) 1)
    [Push1 3; Pop1; Flush1; Push1 4] [7%nat]); [done|done| | |done].
  - apply (bool_decide_unpack _). vm_compute. done.
  - apply (bool_decide_unpack _). vm_compute. done.
Defined.

Lemma slist_sequential_witness :
  let s := mkShared 7 (fun _ => 0%nat) 1 in
  (exists s', steps 5 (s, RtlInterlockedPushEntrySList 9) = (s', PushDone 9 (top [7%nat])) /\
     chain (next s') (head s') [9; 7]%nat /\ counter s' = u32 (counter s + 0x10001)) /\
  ((exists s', steps 4 (s, RtlInterlockedPopEntrySList) = (s', PopDone 7) /\
      chain (next s') (head s') [] /\ counter s' = u32 (counter s - 1)) /\
   (exists s', steps 5 (s, RtlInterlockedFlushSList) = (s', FlushDone 7) /\
      head s' = O /\ chain (next s') 7%nat [7%nat] /\ counter s' = u32 (counter s - u16 (zlen [7%nat])))).
Proof.
  apply (slist_sequential (mkShared 7 (fun _ => 0%nat) 1) [7%nat] 9); [done|done|].
  apply (bool_decide_unpack _). vm_compute. done.
Defined.

End SListSpec.
