(* ===== verification/FileIO.v ===== *)
(** * The file calls of KERNEL32 (dlls/ntdll/file_kernel.c)

    The calls _lread, _llseek, _lwrite and _lclose, on top of a file system of
    type [F] with the Win32 calls: a class of operations, and as a second
    class the laws a client may rely on, stated on the contents and the
    position of an open file.  The Win32 calls end in requests to the server
    process, which is not part of the repository.  Files in memory are an
    instance of both classes. *)
From stdpp Require Import gmap.
From S2P Require Import Prelude.

(** [OpenFile] takes a name (NULL is [None]) and a mode and returns -1 for an
    error; [ReadFile] returns the bytes read, [SetFilePointerEx] the new
    position, [WriteFile] the number of bytes written, [None] for FALSE *)
Class FileIO (F : Type) := {
  OpenFile : F -> option (list Z) -> Z -> F * Z;
  ReadFile : F -> Z -> Z -> F * option (list Z);
  SetFilePointerEx : F -> Z -> Z -> Z -> F * option Z;
  WriteFile : F -> Z -> list Z -> F * option Z;
  SetEndOfFile : F -> Z -> F * bool;
  CloseHandle : F -> Z -> F * bool
}.

Definition SEEK_SET : Z := 0.
Definition HFILE_ERROR : Z := -1.
Definition INVALID_SET_FILE_POINTER : Z := 0xFFFFFFFF.

(** ** The calls *)
Section Calls.
Context {F : Type} `{FileIO F}.

(** the UINT returned and the bytes read *)
Definition _lread (f : F) (handle count : Z) : F * Z * list Z :=
  match ReadFile f handle count with
  | (f, None) => (f, u32 (-1), [])
  | (f, Some bs) => (f, u32 (zlen bs), bs)
  end.

(** with a null highword: the distance is sign-extended to 64 bits *)
Definition SetFilePointer (f : F) (hFile distance method : Z) : F * Z :=
  match SetFilePointerEx f hFile distance method with
  | (f, None) => (f, INVALID_SET_FILE_POINTER)
  | (f, Some newpos) => (f, u32 newpos)
  end.

Definition _llseek (f : F) (hFile lOffset nOrigin : Z) : F * Z :=
  let '(f, r) := SetFilePointer f hFile lOffset nOrigin in (f, s32 r).

Definition _hwrite (f : F) (handle : Z) (buffer : list Z) : F * Z :=
  if zlen buffer =? 0 then
    let '(f, ok) := SetEndOfFile f handle in
    if negb ok then (f, HFILE_ERROR) else (f, 0)
  else
    match WriteFile f handle buffer with
    | (f, None) => (f, HFILE_ERROR)
    | (f, Some result) => (f, s32 result)
    end.

Definition _lwrite (f : F) (hFile : Z) (buffer : list Z) : F * Z :=
  let '(f, r) := _hwrite f hFile buffer in (f, u32 r).

Definition _lclose (f : F) (hFile : Z) : F * Z :=
  let '(f, ok) := CloseHandle f hFile in (f, if ok then 0 else HFILE_ERROR).

End Calls.

(** ** The laws of a file system

    [file f fd] is the contents and the position of the open file [fd],
    [disk f name] the contents of the file of that name *)
Class FileLaws (F : Type) `{FileIO F} := {
  file : F -> Z -> option (list Z * nat);
  disk : F -> list Z -> option (list Z);
  OpenFile_ok : forall f name c,
    disk f name = Some c ->
    exists f' fd, OpenFile f (Some name) 0 = (f', fd) /\ 0 < fd /\ file f fd = None /\
      file f' fd = Some (c, 0%nat) /\ forall fd', fd' <> fd -> file f' fd' = file f fd';
  OpenFile_missing : forall f name,
    disk f name = None -> OpenFile f (Some name) 0 = (f, HFILE_ERROR);
  ReadFile_ok : forall f fd c p n,
    file f fd = Some (c, p) -> 0 <= n ->
    exists f', ReadFile f fd n = (f', Some (take (Z.to_nat n) (drop p c))) /\
      file f' fd = Some (c, p + length (take (Z.to_nat n) (drop p c)))%nat /\
      forall fd', fd' <> fd -> file f' fd' = file f fd';
  SetFilePointerEx_ok : forall f fd c p (off : nat),
    file f fd = Some (c, p) ->
    exists f', SetFilePointerEx f fd (Z.of_nat off) SEEK_SET = (f', Some (Z.of_nat off)) /\
      file f' fd = Some (c, off) /\ forall fd', fd' <> fd -> file f' fd' = file f fd';
  SetFilePointerEx_bad : forall f fd off whence,
    file f fd = None -> SetFilePointerEx f fd off whence = (f, None);
  WriteFile_ok : forall f fd c bs,
    file f fd = Some (c, length c) -> bs <> [] ->
    exists f', WriteFile f fd bs = (f', Some (zlen bs)) /\
      file f' fd = Some (c ++ bs, length (c ++ bs)) /\ forall fd', fd' <> fd -> file f' fd' = file f fd';
  CloseHandle_ok : forall f fd,
    file (fst (CloseHandle f fd)) fd = None /\
    forall fd', fd' <> fd -> file (fst (CloseHandle f fd)) fd' = file f fd'
}.

Section CallLaws.
Context {F : Type} `{HL : FileLaws F}.
Implicit Types f : F.

Lemma lread_ok f fd c p n :
  file f fd = Some (c, p) -> 0 <= n < 2 ^ 32 ->
  let bs := take (Z.to_nat n) (drop p c) in
  exists f', _lread f fd n = (f', zlen bs, bs) /\ file f' fd = Some (c, p + length bs)%nat /\
    forall fd', fd' <> fd -> file f' fd' = file f fd'.
Proof.
  intros Hf Hn bs. destruct (ReadFile_ok f fd c p n Hf ltac:(lia)) as (f' & HR & Hf' & Ho).
  exists f'. unfold _lread. rewrite HR. fold bs. rewrite wrapU_small; [done|].
  subst bs. unfold isU, zlen. rewrite length_take. lia.
Qed.

Lemma llseek_ok f fd c p (off : nat) :
  file f fd = Some (c, p) -> Z.of_nat off < 2 ^ 31 ->
  exists f', _llseek f fd (Z.of_nat off) SEEK_SET = (f', Z.of_nat off) /\ file f' fd = Some (c, off) /\
    forall fd', fd' <> fd -> file f' fd' = file f fd'.
Proof.
  intros Hf Ho. destruct (SetFilePointerEx_ok f fd c p off Hf) as (f' & HS & Hf').
  exists f'. unfold _llseek, SetFilePointer. rewrite HS.
  rewrite wrapU_small, wrapS_small by (unfold isU, isS; lia). done.
Qed.

Lemma llseek_bad f fd off whence : file f fd = None -> _llseek f fd off whence = (f, -1).
Proof. intros Hf. unfold _llseek, SetFilePointer. by rewrite SetFilePointerEx_bad. Qed.

Lemma lwrite_ok f fd c bs :
  file f fd = Some (c, length c) -> bs <> [] -> zlen bs < 2 ^ 31 ->
  exists f', _lwrite f fd bs = (f', zlen bs) /\ file f' fd = Some (c ++ bs, length (c ++ bs)) /\
    forall fd', fd' <> fd -> file f' fd' = file f fd'.
Proof.
  intros Hf Hne Hs. destruct (WriteFile_ok f fd c bs Hf Hne) as (f' & HW & Hf').
  exists f'. unfold _lwrite, _hwrite. pose proof (zlen_nonneg bs).
  destruct (Z.eqb_spec (zlen bs) 0) as [E|E]; [by destruct bs|]. rewrite HW.
  rewrite wrapS_small, wrapU_small by (unfold isU, isS; lia). done.
Qed.

Lemma lclose_ok f fd :
  file (fst (_lclose f fd)) fd = None /\
  forall fd', fd' <> fd -> file (fst (_lclose f fd)) fd' = file f fd'.
Proof.
  unfold _lclose. pose proof (CloseHandle_ok f fd) as HC. by destruct (CloseHandle f fd) as [f' ok].
Qed.
End CallLaws.

(** ** Files in memory *)
Module RamFile.

(** the disk, the open files and the next handle *)
Record fs := mkFs { stored : gmap (list Z) (list Z); opened : gmap Z (list Z * nat); fresh_fd : positive }.
Definition upd (f : fs) (fd : Z) (c : list Z) (p : nat) : fs :=
  mkFs (stored f) (<[fd := (c, p)]> (opened f)) (fresh_fd f).

(** a handle above every open one *)
Definition m_next (f : fs) : Z :=
  map_fold (fun fd _ m => Z.max m (fd + 1)) (Zpos (fresh_fd f)) (opened f).

Definition m_open (f : fs) (name : option (list Z)) (mode : Z) : fs * Z :=
  match name ≫= (fun n => stored f !! n) with
  | Some c => (upd f (m_next f) c 0, m_next f)
  | None => (f, HFILE_ERROR)
  end.

Definition m_read (f : fs) (fd n : Z) : fs * option (list Z) :=
  match opened f !! fd with
  | None => (f, None)
  | Some (c, p) =>
    let bs := take (Z.to_nat n) (drop p c) in
    (upd f fd c (p + length bs), Some bs)
  end.

Definition m_seek (f : fs) (fd off whence : Z) : fs * option Z :=
  match opened f !! fd with
  | None => (f, None)
  | Some (c, p) =>
    let base := if whence =? 0 then 0 else if whence =? 1 then Z.of_nat p else zlen c in
    if base + off <? 0 then (f, None)
    else (upd f fd c (Z.to_nat (base + off)), Some (base + off))
  end.

Definition m_write (f : fs) (fd : Z) (bs : list Z) : fs * option Z :=
  match opened f !! fd with
  | None => (f, None)
  | Some (c, p) =>
    (upd f fd (take p (c ++ replicate (p - length c) 0) ++ bs ++ drop (p + length bs) c)
       (p + length bs), Some (zlen bs))
  end.

Definition m_truncate (f : fs) (fd : Z) : fs * bool :=
  match opened f !! fd with
  | None => (f, false)
  | Some (c, p) => (upd f fd (take p (c ++ replicate (p - length c) 0)) p, true)
  end.

Definition m_close (f : fs) (fd : Z) : fs * bool :=
  (mkFs (stored f) (delete fd (opened f)) (fresh_fd f), bool_decide (is_Some (opened f !! fd))).

Lemma m_next_above f : 0 < m_next f /\ forall fd v, opened f !! fd = Some v -> fd < m_next f.
Proof.
  unfold m_next. apply (map_fold_weak_ind (fun r m => 0 < r /\ forall fd v, m !! fd = Some v -> fd < r)).
  - split; [lia|]. intros fd v Hv. by rewrite lookup_empty in Hv.
  - intros fd v m r Hm [H0 IH]. split; [lia|]. intros fd' v'. destruct (decide (fd = fd')) as [->|Hne].
    + lia.
    + rewrite lookup_insert_ne by done. intros Hv. specialize (IH _ _ Hv). lia.
Qed.

Lemma opened_upd f fd c p : opened (upd f fd c p) !! fd = Some (c, p).
Proof. apply lookup_insert_eq. Qed.
Lemma opened_upd_ne f fd c p fd' : fd' <> fd -> opened (upd f fd c p) !! fd' = opened f !! fd'.
Proof. intros. by apply lookup_insert_ne. Qed.

#[global] Instance mem_io : FileIO fs :=
  {| OpenFile := m_open; ReadFile := m_read; SetFilePointerEx := m_seek; WriteFile := m_write;
     SetEndOfFile := m_truncate; CloseHandle := m_close |}.

#[global, program] Instance mem_laws : FileLaws fs :=
  {| file f fd := opened f !! fd; disk f name := stored f !! name |}.
Next Obligation.
  intros f name c Hc. exists (upd f (m_next f) c 0), (m_next f). destruct (m_next_above f) as [H0 Hn].
  split_and!; [simpl; unfold m_open; simpl; by rewrite Hc|done| |apply opened_upd|].
  - destruct (opened f !! m_next f) as [v|] eqn:E; [|done]. specialize (Hn _ _ E). lia.
  - intros. by apply opened_upd_ne.
Qed.
Next Obligation. intros f name Hc. simpl. unfold m_open. simpl. by rewrite Hc. Qed.
Next Obligation.
  intros f fd c p n Hf Hn. simpl. unfold m_read. rewrite Hf. eexists. split; [done|].
  split; [apply opened_upd|]. intros. by apply opened_upd_ne.
Qed.
Next Obligation.
  intros f fd c p off Hf. simpl. unfold m_seek. rewrite Hf. cbn [Z.eqb SEEK_SET].
  destruct (Z.ltb_spec (0 + Z.of_nat off) 0); [lia|]. eexists. split; [done|].
  split; [rewrite opened_upd; do 2 f_equal; lia|]. intros. by apply opened_upd_ne.
Qed.
Next Obligation. intros f fd off wh Hf. simpl. unfold m_seek. by rewrite Hf. Qed.
Next Obligation.
  intros f fd c bs Hf Hne. simpl. unfold m_write. rewrite Hf. eexists. split; [done|]. split.
  - rewrite opened_upd, Nat.sub_diag, app_nil_r, firstn_all, drop_ge, app_nil_r by lia. by rewrite length_app.
  - intros. by apply opened_upd_ne.
Qed.
Next Obligation.
  intros f fd. simpl. split; [apply lookup_delete_eq|]. intros fd' Hne. by apply lookup_delete_ne.
Qed.

End RamFile.
