(* ===== verification/Lz.v ===== *)
(** * LZ file expansion (dlls/lzexpand/lzexpand_main.c)

    The decompressor behind the LZ file handles: its buffered reader, the byte
    decoder, the table of open handles and the calls on them.  The files
    themselves are those of the [FileIO] interface. *)
From S2P Require Import Prelude FileIO.

Module Lz.

Definition GETLEN : Z := 2048.
Definition LZMagic : list Z := [83; 90; 68; 68; 0x88; 0xf0; 0x27; 0x33].
Definition LZERROR_BADINHANDLE : Z := -1.
Definition LZERROR_READ : Z := -3.
Definition LZERROR_WRITE : Z := -4.
Definition LZERROR_GLOBALLOC : Z := -5.
Definition LZERROR_BADVALUE : Z := -7.
Definition LZERROR_UNKNOWNALG : Z := -8.

Record lzfileheader := mkHeader
  { magic : list Z; compressiontype : Z; h_lastchar : Z; h_reallength : Z }.

Record lzstate := mkLz
  { realfd : Z; lastchar : Z; reallength : Z; realcurrent : Z; realwanted : Z;
    table : list Z; curtabent : Z; stringlen : Z; stringpos : Z; bytetype : Z;
    get : list Z; getcur : Z; getlen : Z }.

(** assignments to members *)
Definition set_get (l : lzstate) (g : list Z) (cur len : Z) : lzstate :=
  mkLz (realfd l) (lastchar l) (reallength l) (realcurrent l) (realwanted l) (table l)
    (curtabent l) (stringlen l) (stringpos l) (bytetype l) g cur len.
Definition set_string (l : lzstate) (len pos : Z) : lzstate :=
  mkLz (realfd l) (lastchar l) (reallength l) (realcurrent l) (realwanted l) (table l)
    (curtabent l) len pos (bytetype l) (get l) (getcur l) (getlen l).
Definition set_bytetype (l : lzstate) (bt : Z) : lzstate :=
  mkLz (realfd l) (lastchar l) (reallength l) (realcurrent l) (realwanted l) (table l)
    (curtabent l) (stringlen l) (stringpos l) bt (get l) (getcur l) (getlen l).
Definition set_table (l : lzstate) (t : list Z) (ent current : Z) : lzstate :=
  mkLz (realfd l) (lastchar l) (reallength l) current (realwanted l) t
    ent (stringlen l) (stringpos l) (bytetype l) (get l) (getcur l) (getlen l).
Definition set_wanted (l : lzstate) (w : Z) : lzstate :=
  mkLz (realfd l) (lastchar l) (reallength l) (realcurrent l) w (table l)
    (curtabent l) (stringlen l) (stringpos l) (bytetype l) (get l) (getcur l) (getlen l).

(** bytes read into the start of a buffer *)
Definition read_into (bs buf : list Z) : outcome (list Z) :=
  if zlen bs <=? zlen buf then Ret (bs ++ drop (length bs) buf) else Fault.

Section Ops.
Context {F : Type} `{FileIO F}.

(** ** Reading compressed bytes *)

(** the value returned and the byte *b, which is kept on failure *)
Definition _lzget (f : F) (lzs : lzstate) (b : Z) : outcome (F * lzstate * Z * Z) :=
  if getcur lzs <? getlen lzs then
    let! v := rd (get lzs) (getcur lzs) in
    Ret (f, set_get lzs (get lzs) (u32 (getcur lzs + 1)) (getlen lzs), 1, v)
  else
    let '(f, ret, bs) := _lread f (realfd lzs) GETLEN in
    let ret := s32 ret in
    let! g := read_into bs (get lzs) in
    if ret =? HFILE_ERROR then Ret (f, set_get lzs g (getcur lzs) (getlen lzs), HFILE_ERROR, b)
    else if ret =? 0 then Ret (f, set_get lzs g (getcur lzs) (getlen lzs), 0, b)
    else let! v := rd g 0 in Ret (f, set_get lzs g 1 (u32 ret), 1, v).

(** [head] and [buf] are the contents of the stack before the call *)
Definition read_header (f : F) (fd : Z) (head : lzfileheader) (buf : list Z) :
    F * Z * lzfileheader :=
  let '(f, r) := _llseek f fd 0 SEEK_SET in
  if r =? -1 then (f, LZERROR_BADINHANDLE, head) else
    let '(f, n, bs) := _lread f fd 14 in
    (* _lread returns a UINT: an error is not less than 14 *)
    if n <? 14 then (f, 0, head) else
    let buf := bs ++ drop (length bs) buf in
    let head := mkHeader (take 8 buf) (nthZ 0 buf 8) (s8 (nthZ 0 buf 9))
      (nthZ 0 buf 10 + nthZ 0 buf 11 * 2 ^ 8 + nthZ 0 buf 12 * 2 ^ 16 + nthZ 0 buf 13 * 2 ^ 24) in
    if negb (bool_decide (magic head = LZMagic)) then (f, 0, head)
    else if negb (compressiontype head =? 65) then (f, LZERROR_UNKNOWNALG, head)
    else (f, 1, head).

(** ** The decoder

    A computation on the file system and the state of a handle that may leave
    the function that it is expanded in ([None]). *)
Definition dec (A : Type) : Type := F -> lzstate -> outcome (F * lzstate * option A).

#[global] Instance dec_ret : MRet dec := fun A a f lzs => Ret (f, lzs, Some a).
#[global] Instance dec_bind : MBind dec := fun A B k m f lzs =>
  let! (f, lzs, r) := m f lzs in
  match r with Some a => k a f lzs | None => Ret (f, lzs, None) end.

Definition this : dec lzstate := fun f lzs => Ret (f, lzs, Some lzs).
Definition put (lzs' : lzstate) : dec unit := fun f _ => Ret (f, lzs', Some ()).
Definition lift {A} (m : outcome A) : dec A := fun f lzs => let! a := m in Ret (f, lzs, Some a).

Definition spin {A} : dec A := fun _ _ => Spin.

(** if (1!=GET(lzs,b)) return toread-howmuch *)
Definition GET : dec Z := fun f lzs =>
  let! (f, lzs, ret, b) := _lzget f lzs 0 in
  Ret (f, lzs, if ret =? 1 then Some b else None).

(** b = table[stringpos]; stringpos = (stringpos+1)&0xFFF, with the new stringlen *)
Definition take_string (len : Z) : dec Z :=
  lzs ← this;
  b ← lift (rd (table lzs) (stringpos lzs));
  put (set_string lzs len (Z.land (u32 (stringpos lzs + 1)) 0xFFF)) ;;
  mret b.

(** the mask byte of the next eight items *)
Definition fetch_flags : dec unit :=
  lzs ← this;
  if Z.land (bytetype lzs) 0x100 =? 0 then
    b ← GET;
    lzs ← this;
    put (set_bytetype lzs (Z.lor b 0xFF00))
  else mret ().

(** a string: CAB is its offset in the table and D+3 its length *)
Definition fetch_string : dec Z :=
  b1 ← GET;
  b2 ← GET;
  lzs ← this;
  put (set_string lzs (Z.land b2 0xf + 2) (Z.lor b1 (Z.shiftl (Z.land b2 0xf0) 4))) ;;
  take_string (Z.land b2 0xf + 2).

Definition fetch_item : dec Z :=
  fetch_flags ;;
  lzs ← this;
  b ← (if negb (Z.land (bytetype lzs) 1 =? 0) then GET else fetch_string);
  lzs ← this;
  put (set_bytetype lzs (Z.shiftr (bytetype lzs) 1)) ;;
  mret b.

Definition DECOMPRESS_ONE_BYTE : dec Z :=
  lzs ← this;
  b ← (if negb (stringlen lzs =? 0) then take_string (stringlen lzs - 1) else fetch_item);
  lzs ← this;
  t ← lift (wr (table lzs) (curtabent lzs) b);
  put (set_table lzs t (Z.land (u32 (curtabent lzs + 1)) 0xFFF) (u32 (realcurrent lzs + 1))) ;;
  mret b.

(** ** Handles *)
Definition MAX_LZSTATES : nat := 16.
Record world := mkWorld { io : F; lzstates : list (option lzstate) }.

Definition IS_LZ_HANDLE (h : Z) : bool := (0x400 <=? h) && (h <? 0x400 + Z.of_nat MAX_LZSTATES).
Definition GET_LZ_STATE (w : world) (h : Z) : option lzstate :=
  if IS_LZ_HANDLE h then mjoin (lzstates w !! Z.to_nat (h - 0x400)) else None.
Definition set_state (w : world) (f : F) (h : Z) (s : option lzstate) : world :=
  mkWorld f (<[Z.to_nat (h - 0x400) := s]> (lzstates w)).

(** the first free slot *)
Fixpoint free_slot (l : list (option lzstate)) : nat :=
  match l with
  | Some _ :: l => S (free_slot l)
  | _ => O
  end.

(** [heap1] and [heap2] say whether the two allocations succeed; the new
    read-ahead buffer is empty, so what it contains does not matter *)
Definition LZInit (w : world) (head : lzfileheader) (buf : list Z) (heap1 heap2 : bool) (hfSrc : Z) :
    world * Z :=
  let '(f, r, head) := read_header (io w) hfSrc head buf in
  let ret := u32 r in
  if ret <=? 0 then
    let '(f, _) := _llseek f hfSrc 0 SEEK_SET in
    (mkWorld f (lzstates w), if negb (ret =? 0) then s32 ret else hfSrc)
  else
    let i := free_slot (lzstates w) in
    if decide (i = MAX_LZSTATES) then (mkWorld f (lzstates w), LZERROR_GLOBALLOC)
    else if negb heap1 then (mkWorld f (<[i := None]> (lzstates w)), LZERROR_GLOBALLOC)
    else if negb heap2 then (mkWorld f (<[i := None]> (lzstates w)), LZERROR_GLOBALLOC)
    else
      let lzs := mkLz hfSrc (h_lastchar head) (h_reallength head) 0 0
        (replicate 4096 32) 0xff0 0 0 0 (replicate (Z.to_nat GETLEN) 0) 0 0 in
      (mkWorld f (<[i := Some lzs]> (lzstates w)), 0x400 + Z.of_nat i).

(** the decompressor brought back to the beginning *)
Definition rewind (f : F) (lzs : lzstate) : F * lzstate :=
  let '(f, _) := _llseek f (realfd lzs) 14 SEEK_SET in
  (f, set_table (set_string (set_bytetype (set_get lzs (get lzs) (getlen lzs) (getlen lzs)) 0)
        0 (stringpos lzs)) (replicate 4096 32) 0xFF0 0).

(** while (realcurrent<realwanted) *)
Fixpoint skip_loop (fuel : nat) : dec unit :=
  mbind (M := dec) (fun lzs : lzstate =>
  if realcurrent lzs <? realwanted lzs then
    match fuel with
    | O => spin
    | S fuel => DECOMPRESS_ONE_BYTE ;; skip_loop fuel
    end
  else mret ()) this.

(** while (howmuch): the state, howmuch and the buffer when the loop is left *)
Fixpoint read_loop (fuel : nat) (f : F) (lzs : lzstate) (howmuch : Z) (buf : list Z) (bi : Z) :
    outcome (F * lzstate * Z * list Z) :=
  if howmuch =? 0 then Ret (f, lzs, howmuch, buf) else
  match fuel with
  | O => Spin
  | S fuel =>
    let! (f, lzs, r) := DECOMPRESS_ONE_BYTE f lzs in
    match r with
    | None => Ret (f, lzs, howmuch, buf)
    | Some b =>
      let lzs := set_wanted lzs (u32 (realwanted lzs + 1)) in
      let! buf := wr buf bi b in
      let! howmuch := sub_int howmuch 1 in
      read_loop fuel f lzs howmuch buf (bi + 1)
    end
  end.

Definition LZRead_lz (f : F) (lzs : lzstate) (buf : list Z) (toread : Z) :
    outcome (F * lzstate * list Z * Z) :=
  let howmuch := s32 toread in
  let! (f, lzs, r) :=
    (if negb (realcurrent lzs =? realwanted lzs) then
       let '(f, lzs) := if realwanted lzs <? realcurrent lzs then rewind f lzs else (f, lzs) in
       skip_loop (Z.to_nat (realwanted lzs - realcurrent lzs)) f lzs
     else Ret (f, lzs, Some ())) in
  match r with
  | None => Ret (f, lzs, buf, s32 (toread - howmuch))
  | Some _ =>
    let! (f, lzs, howmuch, buf) := read_loop (Z.to_nat toread) f lzs howmuch buf 0 in
    Ret (f, lzs, buf, s32 (toread - howmuch))
  end.

(** _lread into a buffer *)
Definition lread_buf (w : world) (fd : Z) (buf : list Z) (toread : Z) : outcome (world * list Z * Z) :=
  let '(f, ret, bs) := _lread (io w) fd toread in
  let! buf := read_into bs buf in
  Ret (mkWorld f (lzstates w), buf, s32 ret).

Definition LZRead (w : world) (fd : Z) (buf : list Z) (toread : Z) : outcome (world * list Z * Z) :=
  match GET_LZ_STATE w fd with
  | None => lread_buf w fd buf toread
  | Some lzs =>
    let! (f, lzs, buf, ret) := LZRead_lz (io w) lzs buf toread in
    Ret (set_state w f fd (Some lzs), buf, ret)
  end.

Definition LZSeek (w : world) (fd off type : Z) : outcome (world * Z) :=
  match GET_LZ_STATE w fd with
  | None => let '(f, r) := _llseek (io w) fd off type in Ret (mkWorld f (lzstates w), r)
  | Some lzs =>
    let! newwanted :=
      (if type =? 1 then add_int (s32 (realwanted lzs)) off
       else if type =? 2 then Ret (s32 (reallength lzs - off))
       else Ret off) in
    (* the comparison of a LONG with a DWORD is unsigned *)
    if reallength lzs <? u32 newwanted then Ret (w, LZERROR_BADVALUE)
    else if newwanted <? 0 then Ret (w, LZERROR_BADVALUE)
    else Ret (set_state w (io w) fd (Some (set_wanted lzs newwanted)), newwanted)
  end.

Definition LZClose (w : world) (fd : Z) : world :=
  match GET_LZ_STATE w fd with
  | None => mkWorld (fst (_lclose (io w) fd)) (lzstates w)
  | Some lzs => set_state w (fst (CloseHandle (io w) (realfd lzs))) fd None
  end.

(** ** Copying *)
Definition BUFLEN : Z := 1000.

(** the loop of LZCopy: inl is the return of an error, inr the end of the source *)
Fixpoint copy_loop (fuel : nat) (w : world) (src dest : Z) (buf : list Z) (len : Z) :
    outcome (world * (Z + Z)) :=
  match fuel with
  | O => Spin
  | S fuel =>
    let! (w, buf, ret) :=
      (if IS_LZ_HANDLE src then LZRead w src buf BUFLEN else lread_buf w src buf BUFLEN) in
    if ret <=? 0 then
      if ret =? 0 then Ret (w, inr len)
      else if ret =? -1 then Ret (w, inl LZERROR_READ)
      else Ret (w, inl ret)
    else
      let! len := add_int len ret in
      let '(f, wret) := _lwrite (io w) dest (take (Z.to_nat ret) buf) in
      let w := mkWorld f (lzstates w) in
      if negb (s32 wret =? ret) then Ret (w, inl LZERROR_WRITE)
      else copy_loop fuel w src dest buf len
  end.

(** [buf] is the content of the stack buffer before the call *)
Definition LZCopy (fuel : nat) (w : world) (head : lzfileheader) (hbuf buf : list Z)
    (heap1 heap2 : bool) (src dest : Z) : outcome (world * Z) :=
  let oldsrc := src in
  let '(w, src) := if negb (IS_LZ_HANDLE src) then LZInit w head hbuf heap1 heap2 src else (w, src) in
  if negb (IS_LZ_HANDLE oldsrc) && (src <=? 0) then Ret (w, 0) else
  let usedlzinit := negb (IS_LZ_HANDLE oldsrc) && negb (src =? oldsrc) in
  let! (w, r) := copy_loop fuel w src dest buf 0 in
  match r with
  | inl err => Ret (w, err)
  | inr len => Ret (if usedlzinit then LZClose w src else w, len)
  end.

Definition CopyLZFile := LZCopy.

(** LZStart and LZDone keep no state *)
Definition LZStart (w : world) : world * Z := (w, 1).
Definition LZDone (w : world) : world := w.

(** ** File names: a string is the list of its characters before the NUL *)
Definition is_sep (c : Z) : bool := (c =? 47) || (c =? 92) || (c =? 58).

(** the string split after its last character that satisfies [p] *)
Fixpoint split_last (p : Z -> bool) (s : list Z) : list Z * list Z :=
  match s with
  | [] => ([], [])
  | c :: s' =>
    let '(a, b) := split_last p s' in
    match a with
    | [] => if p c then ([c], b) else ([], c :: b)
    | _ => (c :: a, b)
    end
  end.

(** strchr(s, '.'): what is before the first dot and what is after it *)
Fixpoint split_dot (s : list Z) : option (list Z * list Z) :=
  match s with
  | [] => None
  | c :: s => if c =? 46 then Some ([], s)
              else match split_dot s with Some (a, b) => Some (c :: a, b) | None => None end
  end.

(** the last character replaced by [v]; a NUL ends the string there *)
Definition set_last (s : list Z) (v : Z) : list Z :=
  take (length s - 1) s ++ (if v =? 0 then [] else [v]).
Definition last_char (s : list Z) : Z := last s 0.

(** the loop over t: is the last letter of the name a lower case one? *)
Fixpoint lowercased (rev_name : list Z) : bool :=
  match rev_name with
  | [] => true
  | c :: r => if negb (isalpha c) then lowercased r else islower c
  end.

(** what the name in out becomes, with the last character of the header *)
Definition expanded_name (name : list Z) (lastc : Z) : list Z :=
  let '(dir, s) := split_last is_sep name in
  match s with
  | [] => name
  | _ =>
    let lastc := if isalpha lastc then
        (if lowercased (rev name) then tolower lastc else toupper lastc) else lastc in
    match split_dot s with
    | None => name
    | Some (base, ext) =>
      match ext with
      | [] => dir ++ base
      | _ => if last_char ext =? 95 then dir ++ base ++ 46 :: set_last ext lastc else name
      end
    end
  end.

(** the value returned and the contents of out, [None] when it is not written *)
Definition GetExpandedNameA (f : F) (head : lzfileheader) (buf : list Z) (name : list Z) :
    F * Z * option (list Z) :=
  let '(f, fd) := OpenFile f (Some name) 0 in
  if fd =? HFILE_ERROR then (f, s16 LZERROR_BADINHANDLE, None) else
  let '(f, ret, head) := read_header f fd head buf in
  (fst (_lclose f fd), 1, Some (if ret <=? 0 then name else expanded_name name (h_lastchar head))).

Definition LZEXPAND_MangleName (fn : list Z) : list Z :=
  let '(dir, s) := split_last (fun c => c =? 92) fn in
  match split_dot s with
  | Some (base, ext) =>
    dir ++ base ++ 46 :: (if (length ext <? 3)%nat then ext ++ [95] else set_last ext 95)
  | None => fn ++ [46; 95]
  end.

(** [heap] says whether the allocation of the mangled name succeeds *)
Definition LZOpenFileA (w : world) (head : lzfileheader) (buf : list Z) (heap heap1 heap2 : bool)
    (fn : list Z) (mode : Z) : world * Z :=
  let '(f, fd) := OpenFile (io w) (Some fn) mode in
  let '(f, fd) := if fd =? HFILE_ERROR
    then OpenFile f (if heap then Some (LZEXPAND_MangleName fn) else None) mode else (f, fd) in
  let w := mkWorld f (lzstates w) in
  if negb (Z.land mode (Z.lnot 0x70) =? 0) then (w, fd)
  else if fd =? HFILE_ERROR then (w, HFILE_ERROR)
  else
    let '(w, cfd) := LZInit w head buf heap1 heap2 fd in
    (w, if cfd <=? 0 then fd else cfd).

End Ops.

(* the file system of a world is found from the world *)
Arguments world F : clear implicits.
Arguments mkWorld {F} io lzstates.
Arguments io {F} w.
Arguments lzstates {F} w.
End Lz.
