(* ===== verification/LzSpec.v ===== *)
(** * LZ file expansion: correctness

    The reference is LZ77 on a history of bytes: a compressed file is a
    sequence of literals and of copies from a distance back in the output.
    The invariant of a handle ties the rotating table to that history and the
    read-ahead buffer to the rest of the file; a handle then reads and seeks
    like a plain file whose contents are the reference expansion. *)
From S2P Require Import Prelude FileIO Lz.
From stdpp Require Import gmap.
Import Lz RamFile.
Local Open Scope Z_scope.

Module LzSpec.

(** ** Reference *)
Inductive item :=
  | Lit (b : Z)
  | Str (pos : Z) (len : nat).

(** items are in groups of eight after a mask byte, least significant bit
    first; [k] items of the group are left, with their bits in [flags] *)
Fixpoint parse (k : nat) (flags : Z) (l : list Z) {struct l} : list item :=
  match l with
  | [] => []
  | b1 :: l =>
    match k with
    | O => parse 8 b1 l
    | S k =>
      if Z.odd flags then Lit b1 :: parse k (flags / 2) l
      else match l with
           | [] => []
           | b2 :: l => Str (b1 + 256 * (b2 / 16)) (Z.to_nat (b2 mod 16) + 3) :: parse k (flags / 2) l
           end
    end
  end.

(** [rh] is the output so far, the last byte first; before it are spaces *)
Definition back (rh : list Z) (d : nat) : Z := default 32 (rh !! d).

(** how far before the next byte is the slot [pos] of the 4096-byte window
    that starts at slot 0xff0 *)
Definition dist (rh : list Z) (pos : Z) : nat := Z.to_nat ((0xff0 + zlen rh - 1 - pos) mod 4096).

Fixpoint copy_out (len : nat) (d : nat) (rh : list Z) : list Z :=
  match len with
  | O => []
  | S len => back rh d :: copy_out len d (back rh d :: rh)
  end.

Fixpoint expand_items (its : list item) (rh : list Z) : list Z :=
  match its with
  | [] => []
  | Lit b :: its => b :: expand_items its (b :: rh)
  | Str pos len :: its =>
    let o := copy_out len (dist rh pos) rh in o ++ expand_items its (rev o ++ rh)
  end.

(** the expansion of the bytes after the header *)
Definition expand (c : list Z) : list Z := expand_items (parse 0 0 c) [].

(** ** The window *)
Definition table_ok (t : list Z) (rh : list Z) : Prop :=
  zlen t = 4096 /\ forall p, 0 <= p < 4096 -> nthZ 0 t p = back rh (dist rh p).

Lemma table_ok_nil : table_ok (replicate 4096 32) [].
Proof.
  split; [unfold zlen; by rewrite length_replicate|]. intros p Hp. unfold back. rewrite lookup_nil.
  unfold nthZ. cbn [default].
  destruct (Z.ltb_spec p 0); [lia|].
  rewrite lookup_replicate_2; [done|lia].
Qed.

Lemma table_ok_push t rh b cur :
  table_ok t rh -> cur = (0xff0 + zlen rh) mod 4096 ->
  table_ok (<[Z.to_nat cur := b]> t) (b :: rh).
Proof.
  intros [Hl Ht] ->. split; [by rewrite zlen_insert|]. intros p Hp.
  rewrite nthZ_insert by (rewrite Hl; dlia). unfold back, dist. rewrite zlen_cons.
  destruct (Z.eqb_spec p ((0xff0 + zlen rh) mod 4096)) as [E|E].
  - replace ((_ - _) mod 4096) with 0 by dlia. done.
  - rewrite Ht by done. unfold back, dist.
    replace (Z.to_nat ((0xff0 + (zlen rh + 1) - 1 - p) mod 4096))
      with (S (Z.to_nat ((0xff0 + zlen rh - 1 - p) mod 4096))) by dlia. done.
Qed.

Lemma dist_next rh b pos : dist (b :: rh) ((pos + 1) mod 4096) = dist rh pos.
Proof. unfold dist. rewrite zlen_cons. f_equal. dlia. Qed.

(** ** Mask bytes *)
Definition mask_ok (bt : Z) (k : nat) (flags : Z) : Prop :=
  (k <= 8)%nat /\ 0 <= flags < 2 ^ Z.of_nat k /\ (bt = flags + 255 * 2 ^ Z.of_nat k \/ k = O /\ bt = 0).

Lemma mask_empty bt k flags : mask_ok bt k flags -> (Z.land bt 0x100 =? 0) = (k =? 0)%nat.
Proof.
  intros (Hk & Hf & Hbt).
  destruct Hbt as [-> | [-> ->]]; [|done].
  assert (all_below 256 (fun x => forallb (fun j => negb (x <? 2 ^ Z.of_nat j) ||
    bool_decide ((Z.land (x + 255 * 2 ^ Z.of_nat j) 0x100 =? 0) = (j =? 0)%nat)) (seq 0 9)) = true) as HA
    by (vm_compute; reflexivity).
  pose proof (all_below_spec _ _ HA flags) as HB. clear HA. cbv beta in HB.
  assert (2 ^ Z.of_nat k <= 256) by (apply (Z.pow_le_mono_r 2 (Z.of_nat k) 8); lia).
  specialize (HB ltac:(lia)). rewrite forallb_forall in HB.
  specialize (HB k ltac:(apply in_seq; lia)). apply orb_true_iff in HB as [HB|HB].
  - zhyps. lia.
  - by apply bool_decide_eq_true_1 in HB.
Qed.

Lemma mask_fetch b : isU 8 b -> mask_ok (Z.lor b 0xFF00) 8 b.
Proof.
  intros Hb. split; [lia|]. split; [exact Hb|]. left. rewrite Z.lor_comm.
  change 0xFF00 with (255 * 2 ^ 8). rewrite lor_low by (lia || exact Hb). simpl. lia.
Qed.

Lemma mask_bit bt k flags :
  mask_ok bt (S k) flags -> negb (Z.land bt 1 =? 0) = Z.odd flags /\ mask_ok (Z.shiftr bt 1) k (flags / 2).
Proof.
  intros (Hk & Hf & [-> | [? _]]); [|done].
  rewrite Nat2Z.inj_succ, Z.pow_succ_r in * by lia. split.
  - change 1 with (2 ^ 1 - 1) at 1. rewrite land_pow2_mask, Zodd_mod by lia. change (2 ^ 1) with 2.
    replace ((flags + _) mod 2) with (flags mod 2) by dlia.
    pose proof (Z.mod_pos_bound flags 2). zcases.
  - unfold mask_ok. rewrite Z.shiftr_div_pow2 by lia. change (2 ^ 1) with 2.
    split; [lia|]. split; [dlia|]. left. dlia.
Qed.

Section Handle.
Context {F : Type} `{HL : FileLaws F}.
Implicit Types (f : F) (lzs : lzstate) (c l rh : list Z).

(** ** The read-ahead buffer

    [l] is what is left to read of the file [c]: the rest of the buffer and
    the rest of the file *)
Definition src f lzs c l : Prop :=
  exists p, file f (realfd lzs) = Some (c, p) /\
    zlen (get lzs) = GETLEN /\ 0 <= getcur lzs <= getlen lzs /\ getlen lzs <= GETLEN /\
    l = drop (Z.to_nat (getcur lzs)) (take (Z.to_nat (getlen lzs)) (get lzs)) ++ drop p c.

(** every file but [fd] is as it was *)
Definition others fd f f' : Prop := forall fd', fd' <> fd -> file f' fd' = file f fd'.
Lemma others_refl fd f : others fd f f.
Proof. done. Qed.
Lemma others_trans fd f1 f2 f3 : others fd f1 f2 -> others fd f2 f3 -> others fd f1 f3.
Proof. intros H1 H2 fd' Hne. by rewrite H2, H1. Qed.

Lemma read_into_ok bs buf : zlen bs <= zlen buf -> read_into bs buf = Ret (bs ++ drop (length bs) buf).
Proof. intros. unfold read_into. by destruct (Z.leb_spec (zlen bs) (zlen buf)); [|lia]. Qed.

Lemma take_length_drop {A} n (l : list A) : take n l ++ drop (length (take n l)) l = l.
Proof.
  rewrite length_take. destruct (decide (n <= length l)%nat).
  - rewrite Nat.min_l by lia. apply take_drop.
  - rewrite Nat.min_r, take_ge, drop_ge by lia. apply app_nil_r.
Qed.

Lemma zlen_read_into bs (buf : list Z) : zlen bs <= zlen buf -> zlen (bs ++ drop (length bs) buf) = zlen buf.
Proof. unfold zlen. rewrite length_app, length_drop. lia. Qed.

Lemma GET_some f lzs c b l :
  src f lzs c (b :: l) ->
  exists f' g gc gl, GET f lzs = Ret (f', set_get lzs g gc gl, Some b) /\
    src f' (set_get lzs g gc gl) c l /\ others (realfd lzs) f f'.
Proof.
  intros (p & Hf & Hg & Hc & Hn & Hl). unfold GET, _lzget. destruct (Z.ltb_spec (getcur lzs) (getlen lzs)) as [Hlt|Hge].
  - rewrite (drop_S _ (nthZ 0 (get lzs) (getcur lzs))) in Hl.
    + simplify_eq/=. rewrite (rd_in 0) by lia. cbn [obind Z.eqb Pos.eqb].
      rewrite wrapU_small by (unfold isU, GETLEN in *; lia).
      do 4 eexists. split; [done|]. split; [|apply others_refl]. exists p. simpl. split_and!; try done; try lia.
      by replace (Z.to_nat (getcur lzs + 1)) with (S (Z.to_nat (getcur lzs))) by lia.
    + rewrite lookup_take_lt by lia. unfold nthZ. destruct (Z.ltb_spec (getcur lzs) 0); [lia|].
      destruct (lookup_lt_is_Some_2 (get lzs) (Z.to_nat (getcur lzs))) as [x ->]; [unfold zlen in Hg; lia|done].
  - rewrite drop_ge in Hl by (rewrite length_take; lia). simpl in Hl.
    destruct (lread_ok f (realfd lzs) c p GETLEN Hf ltac:(done)) as (f' & -> & Hf' & Ho).
    rewrite <- Hl in *. set (bs := take (Z.to_nat GETLEN) (b :: l)) in *.
    assert (0 < zlen bs <= GETLEN) as Hbs.
    { unfold bs, zlen. rewrite length_take. simpl length. unfold GETLEN. lia. }
    rewrite (wrapS_small 32 (zlen bs)) by (unfold isS, GETLEN in *; lia).
    rewrite read_into_ok by lia. cbn [obind].
    destruct (Z.eqb_spec (zlen bs) HFILE_ERROR) as [E|_]; [unfold HFILE_ERROR in E; lia|].
    destruct (Z.eqb_spec (zlen bs) 0); [lia|].
    rewrite (wrapU_small 32 (zlen bs)) by (unfold isU, GETLEN in *; lia).
    replace (rd _ 0) with (Ret b) by done. cbn [obind Z.eqb Pos.eqb].
    do 4 eexists. split; [done|]. split; [|done]. exists (p + length bs)%nat.
    cbn [get set_get getcur getlen realfd]. split_and!; try done; try lia.
    + rewrite zlen_read_into; lia.
    + rewrite take_app_length' by (unfold zlen; lia). rewrite <- drop_drop, <- Hl.
      pose proof (take_length_drop (Z.to_nat GETLEN) (b :: l)) as HE. fold bs in HE.
      clearbody bs. destruct bs as [|x bs']; [unfold zlen in Hbs; simpl in Hbs; lia|].
      change (Z.to_nat 1) with 1%nat. simpl in HE |- *. injection HE as -> HE. by rewrite drop_0, HE.
Qed.

Lemma GET_none f lzs c :
  src f lzs c [] ->
  exists f' g, GET f lzs = Ret (f', set_get lzs g (getcur lzs) (getlen lzs), None) /\
    src f' (set_get lzs g (getcur lzs) (getlen lzs)) c [] /\ others (realfd lzs) f f'.
Proof.
  intros (p & Hf & Hg & Hc & Hn & Hl). symmetry in Hl. apply app_eq_nil in Hl as [Hb Hp].
  apply (f_equal length) in Hb. rewrite length_drop, length_take in Hb. unfold zlen in Hg. simpl in Hb.
  unfold GET, _lzget. destruct (Z.ltb_spec (getcur lzs) (getlen lzs)) as [Hlt|Hge]; [lia|].
  destruct (lread_ok f (realfd lzs) c p GETLEN Hf ltac:(done)) as (f' & -> & Hf' & Ho).
  rewrite Hp, take_nil in *. rewrite read_into_ok by (unfold zlen; simpl; lia). cbn [obind app drop length].
  cbn [Z.eqb zlen length Z.of_nat].
  do 2 eexists. split; [done|]. split; [|done]. exists p. simpl in *. rewrite Nat.add_0_r in Hf'.
  unfold zlen. split_and!; try done; try lia. rewrite Hp, app_nil_r, drop_ge; [done|].
  rewrite length_take. lia.
Qed.

(** ** The monad *)
Lemma bind_some {A B} (m : dec A) (k : A -> dec B) f lzs f' lzs' a :
  m f lzs = Ret (f', lzs', Some a) -> mbind k m f lzs = k a f' lzs'.
Proof. intros Hm. unfold mbind, dec_bind. by rewrite Hm. Qed.
Lemma bind_none {A B} (m : dec A) (k : A -> dec B) f lzs f' lzs' :
  m f lzs = Ret (f', lzs', None) -> mbind k m f lzs = Ret (f', lzs', None).
Proof. intros Hm. unfold mbind, dec_bind. by rewrite Hm. Qed.
Lemma bind_this {B} (k : lzstate -> dec B) f lzs : mbind k this f lzs = k lzs f lzs.
Proof. done. Qed.
Lemma bind_put {B} (k : unit -> dec B) x f lzs : mbind k (put x) f lzs = k () f x.
Proof. done. Qed.

Lemma take_string_ok f lzs rh len :
  table_ok (table lzs) rh -> 0 <= stringpos lzs < 4096 ->
  take_string len f lzs = Ret (f, set_string lzs len ((stringpos lzs + 1) mod 4096),
    Some (back rh (dist rh (stringpos lzs)))).
Proof.
  intros [Hl Ht] Hp. unfold take_string. rewrite bind_this. unfold lift, mbind, dec_bind.
  rewrite (rd_in 0), Ht by lia. simpl. unfold put, mret, dec_ret.
  rewrite wrapU_small by (unfold isU; lia). by rewrite (land_pow2_mask _ 12).
Qed.

(** ** The invariant of a handle

    [rh] was decompressed from the file [c]; the current string, the rest of
    the group and the rest of the input expand to what is left of the whole
    expansion *)
Definition pending lzs rh : list Z := copy_out (Z.to_nat (stringlen lzs)) (dist rh (stringpos lzs)) rh.
Definition left_over lzs rh its : list Z := pending lzs rh ++ expand_items its (rev (pending lzs rh) ++ rh).

(** the items that are left to read *)
Definition unread c f lzs its : Prop :=
  exists l k flags, src f lzs c l /\ bytes l /\ mask_ok (bytetype lzs) k flags /\ its = parse k flags l.

Definition inv c f lzs rh : Prop :=
  exists its, unread c f lzs its /\
    table_ok (table lzs) rh /\ curtabent lzs = (0xff0 + zlen rh) mod 4096 /\
    realcurrent lzs = zlen rh /\ 0 <= stringlen lzs < 256 /\ 0 <= stringpos lzs < 4096 /\
    expand (drop 14 c) = rev rh ++ left_over lzs rh its.

(** what the calls keep of a handle *)
Definition same_file lzs lzs' : Prop :=
  realfd lzs' = realfd lzs /\ lastchar lzs' = lastchar lzs /\ reallength lzs' = reallength lzs.
#[local] Instance same_file_preorder : PreOrder same_file.
Proof.
  split; [done|]. intros a b d (? & ? & ?) (? & ? & ?). split_and!; congruence.
Qed.

(** the step that makes the history longer by [b] *)
Definition emit lzs b : lzstate :=
  set_table lzs (<[Z.to_nat (curtabent lzs) := b]> (table lzs))
    ((curtabent lzs + 1) mod 4096) (realcurrent lzs + 1).

Lemma DECOMPRESS_some f lzs f' lzs' b rh :
  (if negb (stringlen lzs =? 0) then take_string (stringlen lzs - 1) else fetch_item) f lzs
    = Ret (f', lzs', Some b) ->
  zlen (table lzs') = 4096 -> 0 <= curtabent lzs' < 4096 -> realcurrent lzs' = zlen rh -> zlen rh + 1 < 2 ^ 32 ->
  DECOMPRESS_ONE_BYTE f lzs = Ret (f', emit lzs' b, Some b).
Proof.
  intros Hm Ht Hc Hr Hrh. unfold DECOMPRESS_ONE_BYTE. rewrite bind_this.
  rewrite (bind_some _ _ _ _ _ _ _ Hm), bind_this. unfold mbind, dec_bind, lift, put, mret, dec_ret.
  rewrite wr_in by lia. cbn [obind]. pose proof (zlen_nonneg rh).
  rewrite !wrapU_small by (unfold isU; lia). by rewrite (land_pow2_mask _ 12).
Qed.

Lemma DECOMPRESS_none f lzs f' lzs' :
  (if negb (stringlen lzs =? 0) then take_string (stringlen lzs - 1) else fetch_item) f lzs
    = Ret (f', lzs', None) ->
  DECOMPRESS_ONE_BYTE f lzs = Ret (f', lzs', None).
Proof. intros Hm. unfold DECOMPRESS_ONE_BYTE. rewrite bind_this. by apply bind_none. Qed.

(** ** Reading an item *)

(** [lzs'] differs in what reading changes *)
Definition upto lzs lzs' : Prop :=
  exists g gc gl bt, lzs' = set_bytetype (set_get lzs g gc gl) bt.
#[local] Instance upto_preorder : PreOrder upto.
Proof.
  split.
  - intros lzs. exists (get lzs), (getcur lzs), (getlen lzs), (bytetype lzs). by destruct lzs.
  - intros x y z (? & ? & ? & ? & ->) (? & ? & ? & ? & ->). by do 4 eexists.
Qed.
Lemma upto_get lzs g gc gl : upto lzs (set_get lzs g gc gl).
Proof. exists g, gc, gl, (bytetype lzs). done. Qed.
Lemma upto_bytetype lzs bt : upto lzs (set_bytetype lzs bt).
Proof. exists (get lzs), (getcur lzs), (getlen lzs), bt. done. Qed.
Lemma upto_realfd lzs lzs' : upto lzs lzs' -> realfd lzs' = realfd lzs.
Proof. by intros (? & ? & ? & ? & ->). Qed.

Lemma unread_end c f lzs k flags :
  src f lzs c [] -> mask_ok (bytetype lzs) k flags -> unread c f lzs [].
Proof. intros. exists [], k, flags. by split_and!; [|constructor|..]. Qed.

Lemma fetch_flags_ok c f lzs its :
  unread c f lzs its ->
  (exists f' lzs' l k flags, fetch_flags f lzs = Ret (f', lzs', Some ()) /\ upto lzs lzs' /\
     others (realfd lzs) f f' /\ src f' lzs' c l /\ bytes l /\ mask_ok (bytetype lzs') (S k) flags /\
     its = parse (S k) flags l) \/
  (its = [] /\ exists f' lzs', fetch_flags f lzs = Ret (f', lzs', None) /\ upto lzs lzs' /\
     others (realfd lzs) f f' /\ unread c f' lzs' []).
Proof.
  intros (l & k & flags & Hs & Hb & Hm & ->). unfold fetch_flags. rewrite bind_this, (mask_empty _ _ _ Hm).
  destruct k as [|k].
  - destruct l as [|b l].
    + right. split; [done|]. destruct (GET_none _ _ _ Hs) as (f' & g & HG & Hs' & Ho).
      cbn [Nat.eqb]. rewrite (bind_none _ _ _ _ _ _ HG). do 2 eexists. split; [done|].
      split; [apply upto_get|]. split; [done|]. by eapply unread_end.
    + left. destruct (GET_some _ _ _ _ _ Hs) as (f' & g & gc & gl & HG & Hs' & Ho).
      apply Forall_cons in Hb as [Hb Hl].
      cbn [Nat.eqb]. rewrite (bind_some _ _ _ _ _ _ _ HG), bind_this.
      exists f', (set_bytetype (set_get lzs g gc gl) (Z.lor b 0xFF00)), l, 7%nat, b.
      split_and!; try done; [|by apply mask_fetch]. etrans; [apply upto_get|apply upto_bytetype].
  - left. cbn [Nat.eqb]. exists f, lzs, l, k, flags. by split_and!.
Qed.

Lemma string_code b1 b2 :
  isU 8 b1 -> isU 8 b2 ->
  Z.lor b1 (Z.shiftl (Z.land b2 0xf0) 4) = b1 + 256 * (b2 / 16) /\
  Z.land b2 0xf + 2 = Z.of_nat (Z.to_nat (b2 mod 16) + 3) - 1.
Proof.
  intros H1 H2. split.
  - assert (Z.shiftl (Z.land b2 0xf0) 4 = (b2 / 16) * 2 ^ 8) as ->.
    { assert (all_below 256 (fun x => Z.shiftl (Z.land x 0xf0) 4 =? (x / 16) * 2 ^ 8) = true) as HA
        by (vm_compute; reflexivity).
      pose proof (all_below_spec _ _ HA b2 H2) as HB. by apply Z.eqb_eq. }
    rewrite Z.lor_comm, lor_low; [lia|done|exact H1].
  - rewrite (land_pow2_mask _ 4) by done. change (2 ^ 4) with 16. dlia.
Qed.

(** the state and the byte after an item was read *)
Definition item_read c f lzs rh its f' lzs' (r : option Z) : Prop :=
  others (realfd lzs) f f' /\
  match its with
  | [] => r = None /\ upto lzs lzs' /\ unread c f' lzs' []
  | Lit b :: its => r = Some b /\ upto lzs lzs' /\ unread c f' lzs' its
  | Str pos len :: its => r = Some (back rh (dist rh pos)) /\ 0 <= pos < 4096 /\ (3 <= len <= 18)%nat /\
      unread c f' lzs' its /\
      exists lzs1, upto lzs lzs1 /\ lzs' = set_string lzs1 (Z.of_nat len - 1) ((pos + 1) mod 4096)
  end.

Lemma fetch_string_ok c f lzs rh l k flags :
  src f lzs c l -> bytes l -> mask_ok (bytetype lzs) k flags -> table_ok (table lzs) rh ->
  match l with
  | b1 :: b2 :: l => exists f' lzs1,
      let pos := b1 + 256 * (b2 / 16) in
      let lzs' := set_string lzs1 (Z.of_nat (Z.to_nat (b2 mod 16) + 3) - 1) ((pos + 1) mod 4096) in
      fetch_string f lzs = Ret (f', lzs', Some (back rh (dist rh pos))) /\ 0 <= pos < 4096 /\
      upto lzs lzs1 /\ bytetype lzs1 = bytetype lzs /\ others (realfd lzs) f f' /\ src f' lzs' c l
  | _ => exists f' lzs', fetch_string f lzs = Ret (f', lzs', None) /\ upto lzs lzs' /\
      others (realfd lzs) f f' /\ unread c f' lzs' []
  end.
Proof.
  intros Hs Hb Hm Ht. unfold fetch_string. destruct l as [|b1 l].
  { destruct (GET_none _ _ _ Hs) as (f' & g & HG & Hs' & Ho). rewrite (bind_none _ _ _ _ _ _ HG).
    do 2 eexists. split; [done|]. split; [apply upto_get|]. split; [done|]. by eapply unread_end. }
  destruct (GET_some _ _ _ _ _ Hs) as (f1 & g & gc & gl & HG & Hs' & Ho).
  rewrite (bind_some _ _ _ _ _ _ _ HG). destruct l as [|b2 l].
  { destruct (GET_none _ _ _ Hs') as (f' & g' & HG' & Hs'' & Ho'). rewrite (bind_none _ _ _ _ _ _ HG').
    do 2 eexists. split; [done|]. split; [etrans; apply upto_get|].
    split; [by eapply others_trans|]. by eapply unread_end. }
  destruct (GET_some _ _ _ _ _ Hs') as (f2 & g2 & gc2 & gl2 & HG2 & Hs2 & Ho2).
  rewrite (bind_some _ _ _ _ _ _ _ HG2), bind_this, bind_put.
  apply Forall_cons in Hb as [Hb1 Hb]. apply Forall_cons in Hb as [Hb2 _].
  destruct (string_code b1 b2 Hb1 Hb2) as [-> ->].
  assert (0 <= b1 + 256 * (b2 / 16) < 4096) as Hpos by (unfold isU in *; dlia).
  exists f2, (set_get (set_get lzs g gc gl) g2 gc2 gl2). cbv zeta.
  rewrite (take_string_ok _ _ rh) by done. split_and!; try done; try lia.
  - etrans; apply upto_get.
  - by eapply others_trans.
Qed.

Lemma fetch_item_ok c f lzs rh its :
  unread c f lzs its -> table_ok (table lzs) rh ->
  exists f' lzs' r, fetch_item f lzs = Ret (f', lzs', r) /\ item_read c f lzs rh its f' lzs' r.
Proof.
  intros Hu Ht. unfold fetch_item.
  destruct (fetch_flags_ok _ _ _ _ Hu) as [(f1 & lzs1 & l & k & flags & HF & Hup & Ho & Hs & Hb & Hm & ->)|
    (-> & f1 & lzs1 & HF & Hup & Ho & Hu1)]; last first.
  { rewrite (bind_none _ _ _ _ _ _ HF). do 3 eexists. split; [done|]. by split_and!. }
  rewrite (bind_some _ _ _ _ _ _ _ HF), bind_this. destruct (mask_bit _ _ _ Hm) as [-> Hm'].
  assert (realfd lzs1 = realfd lzs) as Hfd by by apply upto_realfd.
  assert (table_ok (table lzs1) rh) as Ht1 by by destruct Hup as (? & ? & ? & ? & ->).
  destruct (Z.odd flags) eqn:Hodd.
  - destruct l as [|b l].
    + destruct (GET_none _ _ _ Hs) as (f2 & g & HG & Hs2 & Ho2). rewrite (bind_none _ _ _ _ _ _ HG).
      do 3 eexists. split; [done|]. split; [rewrite Hfd in Ho2; by eapply others_trans|]. simpl.
      split_and!; [done|etrans; [done|apply upto_get]|by eapply unread_end].
    + destruct (GET_some _ _ _ _ _ Hs) as (f2 & g & gc & gl & HG & Hs2 & Ho2).
      apply Forall_cons in Hb as [Hb Hl].
      rewrite (bind_some _ _ _ _ _ _ _ HG), bind_this, bind_put. do 3 eexists. split; [done|].
      split; [rewrite Hfd in Ho2; by eapply others_trans|]. simpl. rewrite Hodd.
      split_and!; [done|etrans; [done|etrans; [apply upto_get|apply upto_bytetype]]|].
      exists l, k, (flags / 2). by split_and!.
  - pose proof (fetch_string_ok c f1 lzs1 rh l (S k) flags Hs Hb Hm Ht1) as HS.
    destruct l as [|b1 [|b2 l]].
    + destruct HS as (f2 & lzs2 & HS & Hup2 & Ho2 & Hu2). rewrite (bind_none _ _ _ _ _ _ HS).
      do 3 eexists. split; [done|]. split; [rewrite Hfd in Ho2; by eapply others_trans|]. simpl.
      split_and!; [done|by etrans|done].
    + destruct HS as (f2 & lzs2 & HS & Hup2 & Ho2 & Hu2). rewrite (bind_none _ _ _ _ _ _ HS).
      do 3 eexists. split; [done|]. split; [rewrite Hfd in Ho2; by eapply others_trans|]. simpl. rewrite Hodd.
      split_and!; [done|by etrans|done].
    + destruct HS as (f2 & lzs2 & HS & Hpos & Hup2 & Hbt & Ho2 & Hs2).
      apply Forall_cons in Hb as [Hb1 Hb]. apply Forall_cons in Hb as [Hb2 Hb].
      rewrite (bind_some _ _ _ _ _ _ _ HS), bind_this, bind_put. do 3 eexists. split; [done|].
      split; [rewrite Hfd in Ho2; by eapply others_trans|]. cbn [parse]. rewrite Hodd.
      split_and!; [done|lia|lia|unfold isU in Hb2; dlia|unfold isU in Hb2; dlia| |].
      * exists l, k, (flags / 2). split_and!; try done. simpl. by rewrite Hbt.
      * exists (set_bytetype lzs2 (Z.shiftr (bytetype lzs2) 1)).
        split; [etrans; [done|etrans; [done|apply upto_bytetype]]|done].
Qed.

(** ** One byte *)
Lemma left_over_push lzs rh pos len its b :
  stringlen lzs = Z.of_nat len -> stringpos lzs = (pos + 1) mod 4096 -> b = back rh (dist rh pos) ->
  let o := copy_out (S len) (dist rh pos) rh in
  o ++ expand_items its (rev o ++ rh) = b :: left_over lzs (b :: rh) its.
Proof.
  intros Hl Hp ->. cbv zeta. unfold left_over, pending. rewrite Hl, Hp, dist_next, Nat2Z.id.
  cbn [copy_out rev app]. by rewrite <- app_assoc.
Qed.

Lemma inv_emit c f lzs rh its b :
  unread c f lzs its -> table_ok (table lzs) rh -> curtabent lzs = (0xff0 + zlen rh) mod 4096 ->
  realcurrent lzs = zlen rh -> 0 <= stringlen lzs < 256 -> 0 <= stringpos lzs < 4096 ->
  expand (drop 14 c) = rev rh ++ b :: left_over lzs (b :: rh) its ->
  inv c f (emit lzs b) (b :: rh).
Proof.
  intros Hu Ht Hc Hr Hl Hp HE. exists its. unfold emit. simpl. rewrite <- app_assoc, zlen_cons.
  split_and!; try done; try lia.
  - apply table_ok_push; [done..]. 
  - rewrite Hc. dlia.
Qed.

Lemma expand_room c rh b r :
  expand (drop 14 c) = rev rh ++ b :: r -> zlen (expand (drop 14 c)) < 2 ^ 32 -> zlen rh + 1 < 2 ^ 32.
Proof. intros ->. unfold zlen. rewrite length_app, length_rev. simpl. lia. Qed.

(** what a step keeps of the handle and of the other files *)
Definition kept f lzs f' lzs' : Prop :=
  same_file lzs lzs' /\ realwanted lzs' = realwanted lzs /\ others (realfd lzs) f f'.
Lemma kept_trans f1 z1 f2 z2 f3 z3 : kept f1 z1 f2 z2 -> kept f2 z2 f3 z3 -> kept f1 z1 f3 z3.
Proof.
  intros ((Hfd & ? & ?) & ? & Ho1) ((? & ? & ?) & ? & Ho2). rewrite Hfd in Ho2.
  split_and!; try congruence. split_and!; congruence. by eapply others_trans.
Qed.
Lemma upto_kept f lzs f' lzs' : upto lzs lzs' -> others (realfd lzs) f f' -> kept f lzs f' lzs'.
Proof. by intros (? & ? & ? & ? & ->). Qed.

Definition step_result c f lzs rh f' lzs' (r : option Z) : Prop :=
  kept f lzs f' lzs' /\
  match r with
  | Some b => inv c f' lzs' (b :: rh)
  | None => inv c f' lzs' rh /\ expand (drop 14 c) = rev rh
  end.

Lemma step_in_string c f lzs rh :
  inv c f lzs rh -> zlen (expand (drop 14 c)) < 2 ^ 32 -> stringlen lzs <> 0 ->
  exists f' lzs' r, DECOMPRESS_ONE_BYTE f lzs = Ret (f', lzs', r) /\ step_result c f lzs rh f' lzs' r.
Proof.
  intros (its & Hu & Ht & Hc & Hr & Hl & Hp & HE) Hsz Hne.
  set (lzs1 := set_string lzs (stringlen lzs - 1) ((stringpos lzs + 1) mod 4096)).
  assert (expand (drop 14 c) = rev rh ++ back rh (dist rh (stringpos lzs)) ::
    left_over lzs1 (back rh (dist rh (stringpos lzs)) :: rh) its) as HE'.
  { rewrite HE. f_equal. unfold left_over at 1, pending.
    replace (Z.to_nat (stringlen lzs)) with (S (Z.to_nat (stringlen lzs - 1))) by lia.
    apply left_over_push; simpl; [lia|done..]. }
  rewrite (DECOMPRESS_some f lzs f lzs1 (back rh (dist rh (stringpos lzs))) rh).
  - do 3 eexists. split; [done|]. split; [done|]. eapply inv_emit; try done; simpl; try lia. dlia.
  - destruct (Z.eqb_spec (stringlen lzs) 0); [done|]. cbn [negb]. by apply take_string_ok.
  - apply Ht.
  - simpl. rewrite Hc. dlia.
  - done.
  - by eapply expand_room.
Qed.

Lemma step_at_item c f lzs rh :
  inv c f lzs rh -> zlen (expand (drop 14 c)) < 2 ^ 32 -> stringlen lzs = 0 ->
  exists f' lzs' r, DECOMPRESS_ONE_BYTE f lzs = Ret (f', lzs', r) /\ step_result c f lzs rh f' lzs' r.
Proof.
  intros (its & Hu & Ht & Hc & Hr & Hl & Hp & HE) Hsz Hz.
  destruct (fetch_item_ok c f lzs rh its Hu Ht) as (f' & lzs' & r & HF & Ho & HI).
  assert (left_over lzs rh its = expand_items its rh) as HLO.
  { unfold left_over, pending. by rewrite Hz. }
  rewrite HLO in HE. destruct its as [|[b|pos len] its]; destruct HI as [-> HI].
  - destruct HI as [Hup Hu']. rewrite (DECOMPRESS_none f lzs f' lzs') by by rewrite Hz.
    do 3 eexists. split; [done|]. split; [by apply upto_kept|]. split; [|by rewrite app_nil_r in HE].
    destruct Hup as (? & ? & ? & ? & ->). exists []. simpl. split_and!; try done; try lia.
    rewrite HE. unfold left_over, pending. simpl. by rewrite Hz.
  - destruct HI as [Hup Hu']. pose proof (upto_kept f lzs f' lzs' Hup Ho) as Hk.
    assert (zlen rh + 1 < 2 ^ 32) by by eapply expand_room.
    destruct Hup as (? & ? & ? & ? & ->).
    rewrite (DECOMPRESS_some _ _ _ _ _ rh ltac:(rewrite Hz; exact HF)); try done; try apply Ht;
      [|simpl; rewrite Hc; dlia].
    do 3 eexists. split; [done|]. split; [done|]. eapply inv_emit; try done.
    rewrite HE. unfold left_over, pending. simpl. by rewrite Hz.
  - destruct HI as (Hpos & Hlen & Hu' & lzs1 & Hup & ->). pose proof (upto_kept f lzs f' lzs1 Hup Ho) as Hk.
    destruct len as [|len]; [lia|].
    assert (expand (drop 14 c) = rev rh ++ back rh (dist rh pos) ::
      left_over (set_string lzs1 (Z.of_nat (S len) - 1) ((pos + 1) mod 4096)) (back rh (dist rh pos) :: rh) its) as HE'.
    { rewrite HE. f_equal. apply left_over_push; simpl; [lia|done..]. }
    assert (zlen rh + 1 < 2 ^ 32) by by eapply expand_room.
    destruct Hup as (? & ? & ? & ? & ->).
    rewrite (DECOMPRESS_some _ _ _ _ _ rh ltac:(rewrite Hz; exact HF)); try done; try apply Ht;
      [|simpl; rewrite Hc; dlia].
    do 3 eexists. split; [done|]. split; [done|]. eapply inv_emit; try done; simpl; try lia. dlia.
Qed.

(** [n] bytes of the expansion of [c] were decompressed *)
Definition at_pos c (n : nat) f lzs : Prop := exists rh, inv c f lzs rh /\ length rh = n.

Lemma step_ok c n f lzs :
  at_pos c n f lzs -> zlen (expand (drop 14 c)) < 2 ^ 32 ->
  exists f' lzs', DECOMPRESS_ONE_BYTE f lzs = Ret (f', lzs', expand (drop 14 c) !! n) /\
    kept f lzs f' lzs' /\
    at_pos c (match expand (drop 14 c) !! n with Some _ => S n | None => n end) f' lzs'.
Proof.
  intros (rh & Hi & Hn) Hsz.
  destruct (decide (stringlen lzs = 0)) as [Hz|Hz];
    [destruct (step_at_item c f lzs rh Hi Hsz Hz) as (f' & lzs' & r & HD & Hk & HR)
    |destruct (step_in_string c f lzs rh Hi Hsz Hz) as (f' & lzs' & r & HD & Hk & HR)];
  exists f', lzs'; rewrite HD; (destruct r as [b|];
    [assert (expand (drop 14 c) !! n = Some b) as ->;
       [destruct HR as (its & _ & _ & _ & _ & _ & _ & ->); simpl; rewrite <- app_assoc, <- Hn, <- length_rev;
        by apply list_lookup_middle
       |split_and!; [done..|]; exists (b :: rh); split; [done|simpl; lia]]
    |destruct HR as [HR HE]; assert (expand (drop 14 c) !! n = None) as ->;
       [rewrite HE; apply lookup_ge_None_2; rewrite length_rev; lia
       |split_and!; [done..|]; by exists rh]]).
Qed.

(** ** The loops of LZRead *)
Lemma at_pos_current c n f lzs :
  at_pos c n f lzs -> realcurrent lzs = Z.of_nat n /\ (n <= length (expand (drop 14 c)))%nat.
Proof.
  intros (rh & (its & _ & _ & _ & -> & _ & _ & ->) & <-). split; [done|].
  rewrite length_app, length_rev. lia.
Qed.

Lemma skip_loop_ok c n w fuel f lzs :
  at_pos c n f lzs -> zlen (expand (drop 14 c)) < 2 ^ 32 ->
  realwanted lzs = Z.of_nat w -> (n <= w)%nat -> (w - n <= fuel)%nat ->
  exists f' lzs', kept f lzs f' lzs' /\
    skip_loop fuel f lzs = Ret (f', lzs', if decide (w <= length (expand (drop 14 c)))%nat then Some () else None) /\
    at_pos c (min w (length (expand (drop 14 c)))) f' lzs'.
Proof.
  revert n f lzs. induction fuel as [|fuel IH]; intros n f lzs Hat Hsz Hw Hn Hf;
    destruct (at_pos_current _ _ _ _ Hat) as [Hc Hle]; cbn [skip_loop]; rewrite bind_this, Hc, Hw;
    destruct (Z.ltb_spec (Z.of_nat n) (Z.of_nat w)) as [Hlt|Hge]; try lia;
    try (exists f, lzs; assert (n = w) as -> by lia; destruct (decide (w <= _)%nat) as [?|?]; [|lia];
         rewrite Nat.min_l by lia; by split_and!).
  destruct (step_ok c n f lzs Hat Hsz) as (f1 & lzs1 & HD & Hk & Hat1).
  destruct (expand (drop 14 c) !! n) as [b|] eqn:Hb.
  - rewrite (bind_some _ _ _ _ _ _ _ HD).
    destruct (IH (S n) f1 lzs1 Hat1 Hsz) as (f2 & lzs2 & Hk2 & HS & Hat2); [by destruct Hk as (_ & -> & _)|lia..|].
    exists f2, lzs2. split_and!; [by eapply kept_trans|done..].
  - rewrite (bind_none _ _ _ _ _ _ HD). apply lookup_ge_None_1 in Hb. exists f1, lzs1.
    destruct (decide (w <= _)%nat); [lia|]. rewrite Nat.min_r by lia.
    split_and!; [done..|]. by replace (length (expand (drop 14 c))) with n by lia.
Qed.

(** what a read of [h] bytes at [n] gives *)
Definition slice c (n h : nat) : list Z := take h (drop n (expand (drop 14 c))).

Lemma slice_S c n h b : expand (drop 14 c) !! n = Some b -> slice c n (S h) = b :: slice c (S n) h.
Proof. intros Hb. unfold slice. by rewrite (drop_S _ b). Qed.
Lemma slice_end c n h : expand (drop 14 c) !! n = None -> slice c n h = [].
Proof. intros Hb. apply lookup_ge_None_1 in Hb. unfold slice. by rewrite drop_ge, take_nil. Qed.

Lemma read_loop_ok c h n fuel f lzs pre post :
  at_pos c n f lzs -> zlen (expand (drop 14 c)) < 2 ^ 32 ->
  realwanted lzs = Z.of_nat n -> (h <= length post)%nat -> Z.of_nat h < 2 ^ 31 -> (h <= fuel)%nat ->
  let out := slice c n h in
  exists f' lzs',
    read_loop fuel f lzs (Z.of_nat h) (pre ++ post) (zlen pre)
      = Ret (f', lzs', Z.of_nat (h - length out), pre ++ out ++ drop (length out) post) /\
    same_file lzs lzs' /\ others (realfd lzs) f f' /\ at_pos c (n + length out) f' lzs' /\
    realwanted lzs' = Z.of_nat (n + length out).
Proof.
  revert n fuel f lzs pre post. induction h as [|h IH]; intros n fuel f lzs pre post Hat Hsz Hw Hp Hh Hf; cbv zeta.
  { exists f, lzs. simpl. rewrite !Nat.add_0_r, drop_0. destruct fuel; by split_and!. }
  destruct fuel as [|fuel]; [lia|]. cbn [read_loop]. destruct (Z.eqb_spec (Z.of_nat (S h)) 0); [lia|].
  destruct (step_ok c n f lzs Hat Hsz) as (f1 & lzs1 & -> & (Hsf & Hrw & Ho) & Hat1).
  destruct (at_pos_current _ _ _ _ Hat1) as [_ Hle]. cbn [obind].
  destruct (expand (drop 14 c) !! n) as [b|] eqn:Hb.
  - rewrite (slice_S _ _ _ _ Hb). destruct post as [|x post]; [simpl in Hp; lia|].
    rewrite wr_app by done. cbn [obind]. unfold sub_int.
    destruct (Z.leb_spec (- 2 ^ 31) (Z.of_nat (S h) - 1)), (Z.ltb_spec (Z.of_nat (S h) - 1) (2 ^ 31)); try lia.
    cbn [andb obind]. rewrite Hrw, Hw, wrapU_small by (unfold isU, zlen in *; lia).
    set (lzs2 := set_wanted lzs1 (Z.of_nat n + 1)).
    destruct (IH (S n) fuel f1 lzs2 (pre ++ [b]) post) as (f3 & lzs3 & HR & Hsf3 & Ho3 & Hat3 & Hw3);
      [exact Hat1|done|simpl; lia|simpl in Hp; lia|lia|lia|].
    exists f3, lzs3. rewrite zlen_app, <- !(app_assoc pre) in HR. cbn [app] in HR.
    change (zlen [b]) with 1 in HR.
    replace (Z.of_nat (S h) - 1) with (Z.of_nat h) by lia. rewrite HR.
    cbn [length drop Nat.sub]. rewrite Nat.add_succ_r.
    split_and!; first [done | by etrans | by rewrite Hw3; f_equal; lia | idtac].
    destruct Hsf as [Hfd _]. eapply others_trans; [done|]. by rewrite <- Hfd.
  - rewrite (slice_end _ _ _ Hb). cbn [length app drop]. rewrite Nat.add_0_r, Nat.sub_0_r. exists f1, lzs1.
    split_and!; try done. by rewrite Hrw.
Qed.

(** ** Reads at any position *)
Definition handle c f lzs : Prop :=
  bytes c /\ zlen (expand (drop 14 c)) < 2 ^ 32 /\ exists n, at_pos c n f lzs.

Lemma inv_start c f lzs :
  bytes c -> src f lzs c (drop 14 c) -> bytetype lzs = 0 -> table lzs = replicate 4096 32 ->
  curtabent lzs = 0xff0 -> realcurrent lzs = 0 -> stringlen lzs = 0 -> 0 <= stringpos lzs < 4096 ->
  at_pos c 0 f lzs.
Proof.
  intros Hb Hs Hbt Ht Hc Hr Hl Hp. exists []. split; [|done]. exists (parse 0 0 (drop 14 c)).
  rewrite Ht, Hc, Hr, Hl. split_and!; try done; try lia.
  - exists (drop 14 c), 0%nat, 0. split_and!; try done; [by apply Forall_drop|].
    split; [lia|]. rewrite Hbt. split; [done|by right].
  - apply table_ok_nil.
  - unfold left_over, pending. rewrite Hl. done.
Qed.

Lemma rewind_ok c n f lzs :
  bytes c -> at_pos c n f lzs ->
  exists f' lzs', rewind f lzs = (f', lzs') /\ kept f lzs f' lzs' /\ at_pos c 0 f' lzs'.
Proof.
  intros Hb (rh & (its & (l & k & flags & (p & Hf & Hg & Hc & Hn & Hl) & _) & _ & _ & _ & _ & Hp & _) & _).
  unfold rewind. destruct (llseek_ok f (realfd lzs) c p 14 Hf) as (f' & HS & Hf' & Ho); [lia|].
  change (Z.of_nat 14) with 14 in HS. rewrite HS.
  do 2 eexists. split; [done|]. split; [done|].
  apply inv_start; simpl; try done. exists 14%nat. cbn [get set_get set_table set_string set_bytetype getcur getlen realfd].
  split_and!; try done; try lia. rewrite (drop_ge (take _ _)); [done|]. rewrite length_take. lia.
Qed.

Lemma LZRead_lz_ok c w f lzs buf toread :
  handle c f lzs -> realwanted lzs = Z.of_nat w -> 0 <= toread < 2 ^ 31 -> toread <= zlen buf ->
  let out := slice c w (Z.to_nat toread) in
  exists f' lzs', LZRead_lz f lzs buf toread = Ret (f', lzs', out ++ drop (length out) buf, zlen out) /\
    handle c f' lzs' /\ same_file lzs lzs' /\ others (realfd lzs) f f' /\
    realwanted lzs' = realwanted lzs + zlen out.
Proof.
  intros (Hb & Hsz & n & Hat) Hw Ht Hbuf. cbv zeta. unfold LZRead_lz.
  rewrite wrapS_small by (unfold isS; lia).
  destruct (at_pos_current _ _ _ _ Hat) as [Hc Hle].
  assert (exists f1 lzs1, kept f lzs f1 lzs1 /\
    at_pos c (min w (length (expand (drop 14 c)))) f1 lzs1 /\
    (if negb (realcurrent lzs =? realwanted lzs) then
       let '(f, lzs) := if realwanted lzs <? realcurrent lzs then rewind f lzs else (f, lzs) in
       skip_loop (Z.to_nat (realwanted lzs - realcurrent lzs)) f lzs
     else Ret (f, lzs, Some ())) =
      Ret (f1, lzs1, if decide (w <= length (expand (drop 14 c)))%nat then Some () else None))
    as (f1 & lzs1 & Hk1 & Hat1 & ->).
  { rewrite Hc, Hw. destruct (Z.eqb_spec (Z.of_nat n) (Z.of_nat w)) as [E|E]; cbn [negb].
    - exists f, lzs. assert (n = w) as -> by lia. rewrite Nat.min_l by lia.
      destruct (decide _); [done|lia].
    - destruct (Z.ltb_spec (Z.of_nat w) (Z.of_nat n)).
      + destruct (rewind_ok c n f lzs Hb Hat) as (f2 & lzs2 & -> & Hk2 & Hat2).
        destruct (at_pos_current _ _ _ _ Hat2) as [Hc2 _]. destruct (id Hk2) as (_ & Hrw2 & _).
        destruct (skip_loop_ok c 0 w (Z.to_nat (realwanted lzs2 - realcurrent lzs2)) f2 lzs2)
          as (f3 & lzs3 & Hk3 & HS & Hat3); [done..|by rewrite Hrw2|lia|rewrite Hc2, Hrw2; lia|].
        exists f3, lzs3. split_and!; [by eapply kept_trans|done..].
      + rewrite Hc, Hw.
        destruct (skip_loop_ok c n w (Z.to_nat (Z.of_nat w - Z.of_nat n)) f lzs)
          as (f3 & lzs3 & Hk3 & HS & Hat3); [done..|lia|lia|]. by exists f3, lzs3. }
  cbn [obind]. destruct Hk1 as (Hsf & Hrw & Ho). destruct (decide _) as [Hw2|Hw2].
  - rewrite Nat.min_l in Hat1 by lia.
    destruct (read_loop_ok c (Z.to_nat toread) w (Z.to_nat toread) f1 lzs1 [] buf)
      as (f2 & lzs2 & HR & Hsf2 & Ho2 & Hat2 & Hw3); [done|done|by rewrite Hrw|unfold zlen in *; lia|lia|lia|].
    rewrite Z2Nat.id in HR by lia. change (zlen []) with 0 in HR. cbn [app] in HR. rewrite HR. cbn [obind].
    assert (length (slice c w (Z.to_nat toread)) <= Z.to_nat toread)%nat.
    { unfold slice. rewrite length_take. lia. }
    exists f2, lzs2. split_and!; try done.
    + do 2 f_equal. unfold zlen. rewrite wrapS_small by (unfold isS; lia). lia.
    + split_and!; [done..|]. by eexists.
    + by etrans.
    + destruct Hsf as [Hfd _]. rewrite Hfd in Ho2. by eapply others_trans.
    + rewrite Hw3, Hw. unfold zlen. lia.
  - exists f1, lzs1. unfold slice. rewrite drop_ge, take_nil by lia. cbn [length app drop].
    rewrite Z.sub_diag, Z.add_0_r. split_and!; try done. split_and!; [done..|]. by eexists.
Qed.

(** ** Handles as files

    The handle [h] is open on the compressed file [fd] with contents [c]: it
    stands for a file with the expansion of [c], with the length of the header
    and the position [pos] *)
Definition represents (w : world F) (h fd : Z) c (len pos : Z) : Prop :=
  length (lzstates w) = MAX_LZSTATES /\ 0 <= pos /\
  exists lzs, GET_LZ_STATE w h = Some lzs /\ handle c (io w) lzs /\
    realfd lzs = fd /\ reallength lzs = len /\ realwanted lzs = pos.

(** the table of handles without the handle [h] *)
Definition without (h : Z) (w : world F) : list (option lzstate) :=
  <[Z.to_nat (h - 0x400) := None]> (lzstates w).

(** the other handles and the other files are as they were *)
Definition undisturbed (w w' : world F) (h fd : Z) : Prop :=
  others fd (io w) (io w') /\ without h w' = without h w /\
  forall h' fd' c len pos, h' <> h -> fd' <> fd -> represents w h' fd' c len pos -> represents w' h' fd' c len pos.

Lemma handle_frame c f f' lzs : file f' (realfd lzs) = file f (realfd lzs) -> handle c f lzs -> handle c f' lzs.
Proof.
  intros Hf (? & ? & n & rh & (its & (l & k & flags & (p & Hp & Hs) & Hu) & Hi) & Hn).
  split_and!; [done..|]. exists n, rh. split; [|done]. exists its. split; [|done].
  exists l, k, flags. split; [|done]. exists p. by rewrite Hf.
Qed.

Lemma IS_LZ_HANDLE_spec h : IS_LZ_HANDLE h = true <-> 0x400 <= h < 0x410.
Proof. unfold IS_LZ_HANDLE, MAX_LZSTATES. rewrite andb_true_iff, Z.leb_le, Z.ltb_lt. lia. Qed.

Lemma GET_set_state_eq w f h s :
  length (lzstates w) = MAX_LZSTATES -> IS_LZ_HANDLE h = true -> GET_LZ_STATE (set_state w f h s) h = s.
Proof.
  intros Hl Hh. unfold GET_LZ_STATE. rewrite Hh. apply IS_LZ_HANDLE_spec in Hh. simpl.
  rewrite list_lookup_insert_eq; [by destruct s|]. rewrite Hl. unfold MAX_LZSTATES. lia.
Qed.
Lemma GET_set_state_ne (w : world F) f h h' s :
  h' <> h -> IS_LZ_HANDLE h = true -> GET_LZ_STATE (set_state w f h s) h' = GET_LZ_STATE w h'.
Proof.
  intros Hne Hh. unfold GET_LZ_STATE. destruct (IS_LZ_HANDLE h') eqn:Hh'; [|done].
  apply IS_LZ_HANDLE_spec in Hh. apply IS_LZ_HANDLE_spec in Hh'. simpl.
  rewrite list_lookup_insert_ne; [done|lia].
Qed.
Lemma GET_LZ_STATE_handle (w : world F) h lzs : GET_LZ_STATE w h = Some lzs -> IS_LZ_HANDLE h = true.
Proof. unfold GET_LZ_STATE. by destruct (IS_LZ_HANDLE h). Qed.

Lemma represents_handle w h fd c len pos : represents w h fd c len pos -> IS_LZ_HANDLE h = true.
Proof. intros (_ & _ & lzs & HG & _). by eapply GET_LZ_STATE_handle. Qed.
Lemma represents_frame w f h fd c len pos :
  file f fd = file (io w) fd -> represents w h fd c len pos -> represents (mkWorld f (lzstates w)) h fd c len pos.
Proof.
  intros Hf (Hl & Hp & lzs & HG & Hh & Hfd & Hlen & Hw). split_and!; [done..|]. exists lzs.
  split_and!; try done. eapply handle_frame; [|done]. by rewrite Hfd.
Qed.

Lemma undisturbed_set w f h fd s :
  IS_LZ_HANDLE h = true -> others fd (io w) f -> undisturbed w (set_state w f h s) h fd.
Proof.
  intros Hh Ho. split; [done|]. split; [apply list_insert_insert_eq|]. intros h' fd' c len pos Hne Hfd (Hl & Hp & lzs & HG & Hhd & Hf & Hx & Hy).
  split_and!; [simpl; by rewrite length_insert|done|]. exists lzs. rewrite GET_set_state_ne by done.
  split_and!; [done| |done..]. eapply handle_frame; [|done]. simpl. rewrite Hf. by apply Ho.
Qed.

Lemma LZRead_ok w h fd c len pos buf toread :
  represents w h fd c len pos -> 0 <= toread < 2 ^ 31 -> toread <= zlen buf ->
  let out := take (Z.to_nat toread) (drop (Z.to_nat pos) (expand (drop 14 c))) in
  exists w', LZRead w h buf toread = Ret (w', out ++ drop (length out) buf, zlen out) /\
    represents w' h fd c len (pos + zlen out) /\ undisturbed w w' h fd.
Proof.
  intros (Hl & Hp & lzs & HG & Hh & Hfd & Hlen & Hw) Ht Hb. cbv zeta. unfold LZRead. rewrite HG.
  pose proof (GET_LZ_STATE_handle _ _ _ HG) as Hih.
  destruct (LZRead_lz_ok c (Z.to_nat pos) (io w) lzs buf toread Hh) as (f' & lzs' & -> & Hh' & Hsf & Ho & Hw');
    [lia|done..|]. cbn [obind]. fold (slice c (Z.to_nat pos) (Z.to_nat toread)) in *.
  destruct Hsf as (Hfd' & _ & Hlen'). eexists. split; [done|]. split.
  - split_and!; [simpl; by rewrite length_insert|pose proof (zlen_nonneg (slice c (Z.to_nat pos) (Z.to_nat toread))); lia|].
    exists lzs'. rewrite GET_set_state_eq by done. split_and!; try done; congruence.
  - apply undisturbed_set; [done|]. by rewrite <- Hfd.
Qed.

(** where a seek goes *)
Definition seek_target (len pos off type : Z) : Z :=
  if type =? 1 then pos + off else if type =? 2 then len - off else off.

Lemma u32_wrapS x : u32 (s32 x) = u32 x.
Proof.
  unfold wrapU, wrapS. cbv zeta. destruct (Z.ltb_spec (x mod 2 ^ 32) (2 ^ (32 - 1))).
  - by rewrite Z.mod_mod.
  - rewrite <- (Z.mod_add _ 1), Z.mul_1_l by done. rewrite Z.sub_add. by rewrite Z.mod_mod.
Qed.

(** the two comparisons accept exactly the positions up to the length *)
Lemma seek_checks {A} len t nw (bad good : A) :
  u32 nw = u32 t -> isS 32 nw -> - 2 ^ 31 <= t < 2 ^ 32 -> 0 <= len < 2 ^ 31 ->
  (if len <? u32 nw then bad else if nw <? 0 then bad else good) =
  (if (0 <=? t) && (t <=? len) then good else bad) /\ ((0 <=? t) && (t <=? len) = true -> nw = t).
Proof.
  intros Hnw Hs Ht Hl. unfold isS in Hs. change (2 ^ (32 - 1)) with (2 ^ 31) in Hs. unfold wrapU in *.
  destruct (Z.ltb_spec len (nw mod 2 ^ 32)), (Z.ltb_spec nw 0), (Z.leb_spec 0 t), (Z.leb_spec t len);
    simpl; split; try done; try (intros _); try (exfalso; dlia); dlia.
Qed.

Lemma seek_commit w h fd c len pos lzs t :
  represents w h fd c len pos -> GET_LZ_STATE w h = Some lzs -> 0 <= t ->
  represents (set_state w (io w) h (Some (set_wanted lzs t))) h fd c len t /\
  undisturbed w (set_state w (io w) h (Some (set_wanted lzs t))) h fd.
Proof.
  intros (Hl & Hp & lzs' & HG & Hh & Hfd & Hlen & Hw) HG' Ht. simplify_eq.
  pose proof (GET_LZ_STATE_handle _ _ _ HG) as Hih. split; [|by apply undisturbed_set].
  split_and!; [simpl; by rewrite length_insert|done|]. eexists. rewrite GET_set_state_eq by done. by split_and!.
Qed.

Lemma LZSeek_ok w h fd c len pos off type :
  represents w h fd c len pos -> pos < 2 ^ 31 -> 0 <= len < 2 ^ 31 -> isS 32 off ->
  let t := seek_target len pos off type in
  if (0 <=? t) && (t <=? len) then
    exists w', LZSeek w h off type = Ret (w', t) /\ represents w' h fd c len t /\ undisturbed w w' h fd
  else LZSeek w h off type = if (type =? 1) && (2 ^ 31 <=? t) then Fault else Ret (w, LZERROR_BADVALUE).
Proof.
  intros Hrep Hpos Hln Hoff t. destruct (id Hrep) as (Hl & Hp & lzs & HG & Hh & Hfd & Hlen & Hw).
  unfold LZSeek. rewrite HG, Hlen, Hw. pose proof (seek_commit w h fd c len pos lzs t Hrep HG) as HC.
  assert (forall nw, u32 nw = u32 t -> isS 32 nw -> - 2 ^ 31 <= t < 2 ^ 32 -> (type =? 1) && (2 ^ 31 <=? t) = false ->
    if (0 <=? t) && (t <=? len) then
      exists w', (if len <? u32 nw then Ret (w, LZERROR_BADVALUE) else if nw <? 0 then Ret (w, LZERROR_BADVALUE)
        else Ret (set_state w (io w) h (Some (set_wanted lzs nw)), nw)) = Ret (w', t) /\
        represents w' h fd c len t /\ undisturbed w w' h fd
    else (if len <? u32 nw then Ret (w, LZERROR_BADVALUE) else if nw <? 0 then Ret (w, LZERROR_BADVALUE)
        else Ret (set_state w (io w) h (Some (set_wanted lzs nw)), nw))
      = if (type =? 1) && (2 ^ 31 <=? t) then Fault else Ret (w, LZERROR_BADVALUE)) as HN.
  { intros nw Hnw Hs Ht Ht1. rewrite Ht1.
    destruct (seek_checks len t nw (Ret (w, LZERROR_BADVALUE))
      (Ret (set_state w (io w) h (Some (set_wanted lzs nw)), nw)) Hnw Hs Ht Hln) as [-> Hv].
    destruct ((0 <=? t) && (t <=? len)) eqn:E; [|done]. rewrite (Hv eq_refl). zhyps.
    eexists. split; [done|]. by apply HC. }
  unfold isS in Hoff, HN. change (2 ^ (32 - 1)) with (2 ^ 31) in *. subst t. unfold seek_target in *.
  destruct (Z.eqb_spec type 1) as [->|H1].
  - unfold add_int. rewrite wrapS_small by (unfold isS; lia).
    destruct (Z.leb_spec (- 2 ^ 31) (pos + off)); [|lia].
    destruct (Z.ltb_spec (pos + off) (2 ^ 31)); cbn [andb obind].
    + apply HN; [done|lia|lia|]. simpl. apply Z.leb_gt. lia.
    + destruct (Z.leb_spec (pos + off) len); [lia|]. rewrite andb_false_r. simpl.
      destruct (Z.leb_spec (2 ^ 31) (pos + off)); [done|lia].
  - destruct (Z.eqb_spec type 2) as [->|H2]; cbn [obind andb].
    + apply HN; [apply u32_wrapS|apply (wrapS_range 32); lia|lia|done].
    + apply HN; [done|lia|lia|done].
Qed.

(** ** Opening and closing handles *)

(** what the header of a file says: 0 no LZ file, -8 unknown algorithm, 1 good *)
Definition header_result c : Z :=
  if zlen c <? 14 then 0
  else if negb (bool_decide (take 8 c = LZMagic)) then 0
  else if negb (nthZ 0 c 8 =? 65) then LZERROR_UNKNOWNALG else 1.
Definition header_length c : Z :=
  nthZ 0 c 10 + nthZ 0 c 11 * 2 ^ 8 + nthZ 0 c 12 * 2 ^ 16 + nthZ 0 c 13 * 2 ^ 24.

Lemma header_plain c : header_result c <> 1 -> header_result c <> LZERROR_UNKNOWNALG -> header_result c = 0.
Proof. unfold header_result. by repeat destruct (negb _); destruct (zlen c <? 14). Qed.

Lemma nthZ_prefix n c x i : i < Z.of_nat n -> (n <= length c)%nat -> nthZ 0 (take n c ++ x) i = nthZ 0 c i.
Proof.
  intros. unfold nthZ. destruct (Z.ltb_spec i 0); [done|].
  by rewrite lookup_app_l, lookup_take_lt by (rewrite ?length_take; lia).
Qed.

Lemma read_header_ok f fd c p head buf :
  file f fd = Some (c, p) ->
  exists f' hd, read_header f fd head buf = (f', header_result c, hd) /\ others fd f f' /\
    file f' fd = Some (c, min 14 (length c)) /\
    (header_result c <> 0 -> h_lastchar hd = s8 (nthZ 0 c 9) /\ h_reallength hd = header_length c).
Proof.
  intros Hf. unfold read_header.
  destruct (llseek_ok f fd c p 0 Hf ltac:(done)) as (f1 & HS & Hf1 & Ho1).
  change (Z.of_nat 0) with 0 in HS. rewrite HS. cbn [Z.eqb].
  destruct (lread_ok f1 fd c 0 14 Hf1 ltac:(done)) as (f2 & HL2 & Hf2 & Ho2). rewrite HL2.
  rewrite drop_0 in *. change (Z.to_nat 14) with 14%nat in *. rewrite length_take in Hf2.
  assert ((zlen (take 14 c) <? 14) = (zlen c <? 14)) as ->.
  { unfold zlen. rewrite length_take. zcases. }
  unfold header_result. destruct (Z.ltb_spec (zlen c) 14) as [Hlt|Hge].
  { do 2 eexists. split; [done|]. split; [by eapply others_trans|]. by split. }
  assert (14 <= length c)%nat by (unfold zlen in Hge; lia).
  rewrite !nthZ_prefix, take_app_le, take_take by (rewrite ?length_take; lia). cbn [Nat.min].
  cbn [magic compressiontype].
  destruct (negb (bool_decide _)); [|destruct (negb (_ =? 65))];
    (do 2 eexists; split; [done|]; split; [by eapply others_trans|]; by split).
Qed.

Lemma free_slot_None (t : list (option lzstate)) : (free_slot t < length t)%nat -> t !! free_slot t = Some None.
Proof. induction t as [|[?|] t IH]; simpl; intros; [lia| |done]. apply IH. lia. Qed.

(** the state of a handle that was just opened *)
Definition fresh_state (hd : lzfileheader) (fd : Z) : lzstate :=
  mkLz fd (h_lastchar hd) (h_reallength hd) 0 0 (replicate 4096 32) 0xff0 0 0 0
    (replicate (Z.to_nat GETLEN) 0) 0 0.

Lemma LZInit_opens w head buf fd f r hd :
  read_header (io w) fd head buf = (f, r, hd) -> u32 r <> 0 ->
  (free_slot (lzstates w) < MAX_LZSTATES)%nat ->
  LZInit w head buf true true fd =
    (mkWorld f (<[free_slot (lzstates w) := Some (fresh_state hd fd)]> (lzstates w)),
     0x400 + Z.of_nat (free_slot (lzstates w))).
Proof.
  intros Hr Hne Hs. unfold LZInit. rewrite Hr. pose proof (wrapU_range 32 r ltac:(lia)) as Hu. unfold isU in Hu.
  destruct (Z.leb_spec (u32 r) 0); [lia|]. destruct (decide _); [lia|]. done.
Qed.

Lemma fresh_handle f fd hd c :
  bytes c -> zlen (expand (drop 14 c)) < 2 ^ 32 -> file f fd = Some (c, 14%nat) ->
  handle c f (fresh_state hd fd).
Proof.
  intros Hb Hsz Hf. split_and!; [done..|]. exists 0%nat. apply inv_start; simpl; try done.
  exists 14%nat. cbn [fresh_state get getcur getlen realfd].
  split_and!; try done.
Qed.

Definition slot_handle (w : world F) : Z := 0x400 + Z.of_nat (free_slot (lzstates w)).

Lemma LZInit_compressed w head buf fd c p :
  file (io w) fd = Some (c, p) -> header_result c = 1 -> bytes c -> zlen (expand (drop 14 c)) < 2 ^ 32 ->
  length (lzstates w) = MAX_LZSTATES -> (free_slot (lzstates w) < MAX_LZSTATES)%nat ->
  exists w', LZInit w head buf true true fd = (w', slot_handle w) /\
    represents w' (slot_handle w) fd c (header_length c) 0 /\ undisturbed w w' (slot_handle w) fd /\
    without (slot_handle w) w' = lzstates w.
Proof.
  intros Hf Hh Hb Hsz Hl Hs. destruct (read_header_ok _ _ _ _ head buf Hf) as (f' & hd & HR & Ho & Hf' & Hd).
  destruct (Hd ltac:(rewrite Hh; done)) as [_ Hlen].
  assert (IS_LZ_HANDLE (slot_handle w) = true) as Hih.
  { apply IS_LZ_HANDLE_spec. unfold slot_handle, MAX_LZSTATES in *. lia. }
  rewrite (LZInit_opens w head buf fd f' _ hd HR) by (try rewrite Hh; done).
  assert (mkWorld f' (<[free_slot (lzstates w):=Some (fresh_state hd fd)]> (lzstates w)) =
    set_state w f' (slot_handle w) (Some (fresh_state hd fd))) as HE.
  { unfold set_state, slot_handle. do 2 f_equal. lia. }
  exists (set_state w f' (slot_handle w) (Some (fresh_state hd fd))). cbn [lzstates]. rewrite HE.
  split_and!; [done| |by apply undisturbed_set|].
  - split_and!; [simpl; by rewrite length_insert|done|]. exists (fresh_state hd fd).
    rewrite GET_set_state_eq by done. split_and!; try done. apply fresh_handle; [done..|].
    simpl. rewrite Hf'. assert (14 <= length c)%nat.
    { unfold header_result, zlen in Hh. destruct (Z.ltb_spec (Z.of_nat (length c)) 14); [done|lia]. }
    by rewrite Nat.min_l by lia.
  - unfold without. rewrite <- HE. unfold slot_handle. cbn [lzstates].
    replace (Z.to_nat _) with (free_slot (lzstates w)) by lia.
    rewrite list_insert_insert_eq, list_insert_id; [done|]. apply free_slot_None. by rewrite Hl.
Qed.

Lemma LZInit_plain w head buf h1 h2 fd c p :
  file (io w) fd = Some (c, p) -> header_result c = 0 ->
  exists f', LZInit w head buf h1 h2 fd = (mkWorld f' (lzstates w), fd) /\
    file f' fd = Some (c, 0%nat) /\ others fd (io w) f'.
Proof.
  intros Hf Hh. destruct (read_header_ok _ _ _ _ head buf Hf) as (f' & hd & HR & Ho & Hf' & _).
  unfold LZInit. rewrite HR, Hh. change (u32 0) with 0. cbn [Z.leb Z.compare Z.eqb negb].
  destruct (llseek_ok f' fd c _ 0 Hf' ltac:(done)) as (f1 & HS & Hf1 & Ho1).
  change (Z.of_nat 0) with 0 in HS. rewrite HS. exists f1. split_and!; try done. by eapply others_trans.
Qed.

(** ** Copying

    A source [R pos w] that has [E] to read from [pos] on, whatever is written
    to the destination *)
Lemma copy_loop_ok (E : list Z) src dest (R : nat -> world F -> Prop) :
  (forall pos w buf, R pos w -> zlen buf = BUFLEN ->
    let out := take (Z.to_nat BUFLEN) (drop pos E) in
    exists w', (if IS_LZ_HANDLE src then LZRead w src buf BUFLEN else lread_buf w src buf BUFLEN)
        = Ret (w', out ++ drop (length out) buf, zlen out) /\
      R (pos + length out)%nat w' /\ file (io w') dest = file (io w) dest) ->
  (forall pos w f', R pos w -> others dest (io w) f' -> R pos (mkWorld f' (lzstates w))) ->
  zlen E < 2 ^ 31 ->
  forall fuel pos w buf d,
  R pos w -> zlen buf = BUFLEN -> file (io w) dest = Some (d, length d) ->
  (pos <= length E)%nat -> zlen (drop pos E) <= (Z.of_nat fuel - 1) * BUFLEN ->
  exists w', copy_loop fuel w src dest buf (Z.of_nat pos) = Ret (w', inr (zlen E)) /\
    R (length E) w' /\ file (io w') dest = Some (d ++ drop pos E, length (d ++ drop pos E)).
Proof.
  intros Hread Hwrite Hsz. induction fuel as [|fuel IH]; intros pos w buf d HR Hb Hd Hp Hf.
  { pose proof (zlen_nonneg (drop pos E)). unfold BUFLEN in *. lia. }
  cbn [copy_loop]. destruct (Hread pos w buf HR Hb) as (w1 & -> & HR1 & Hd1). cbn [obind].
  set (out := take (Z.to_nat BUFLEN) (drop pos E)) in *.
  assert (zlen out = Z.min BUFLEN (zlen (drop pos E))) as Hout.
  { unfold out, zlen. rewrite length_take. unfold BUFLEN. lia. }
  assert (zlen (drop pos E) = zlen E - Z.of_nat pos) as Hrest by (unfold zlen; rewrite length_drop; lia).
  pose proof (zlen_nonneg out). destruct (Z.leb_spec (zlen out) 0) as [Hz|Hz].
  - destruct (Z.eqb_spec (zlen out) 0); [|lia]. assert (zlen (drop pos E) = 0) as He by (unfold BUFLEN in *; lia).
    assert (pos = length E) as -> by (unfold zlen in *; lia).
    exists w1. split; [done|]. rewrite Hd1, Hd. unfold zlen in *.
    replace (length out) with 0%nat in HR1 by lia. rewrite Nat.add_0_r in HR1. split; [done|].
    by rewrite drop_ge, app_nil_r by lia.
  - unfold add_int. destruct (Z.leb_spec (- 2 ^ 31) (Z.of_nat pos + zlen out)); [|lia].
    destruct (Z.ltb_spec (Z.of_nat pos + zlen out) (2 ^ 31)); [|lia]. cbn [andb obind].
    replace (Z.to_nat (zlen out)) with (length out) by (unfold zlen; lia). rewrite take_app_length.
    destruct (lwrite_ok (io w1) dest d out) as (f2 & -> & Hd2 & Ho2);
      [by rewrite Hd1|intros E0; rewrite E0 in Hz; by apply Z.lt_irrefl in Hz|unfold BUFLEN in *; lia|].
    rewrite wrapS_small by (unfold isS, BUFLEN in *; lia). rewrite Z.eqb_refl. cbn [negb].
    destruct (IH (pos + length out)%nat (mkWorld f2 (lzstates w1)) (out ++ drop (length out) buf) (d ++ out))
      as (w3 & HC & HR3 & Hd3).
    + by apply Hwrite.
    + unfold zlen in *. rewrite length_app, length_drop. unfold BUFLEN in *. lia.
    + done.
    + unfold zlen in *. lia.
    + rewrite <- drop_drop. unfold zlen in *. rewrite length_drop. unfold BUFLEN in *. lia.
    + exists w3. replace (Z.of_nat pos + zlen out) with (Z.of_nat (pos + length out)) by (unfold zlen; lia).
      split; [done|]. split; [done|]. rewrite Hd3, <- app_assoc, <- drop_drop.
      assert (out ++ drop (length out) (drop pos E) = drop pos E) as -> by apply take_length_drop. done.
Qed.

(** every file but the source and the destination *)
Definition others2 (src dest : Z) f f' : Prop :=
  forall fd, fd <> src -> fd <> dest -> file f' fd = file f fd.
Lemma others2_l src dest f1 f2 f3 : others2 src dest f1 f2 -> others src f2 f3 -> others2 src dest f1 f3.
Proof. intros H1 H2 fd Hs Hd. by rewrite H2, H1. Qed.
Lemma others2_r src dest f1 f2 f3 : others2 src dest f1 f2 -> others dest f2 f3 -> others2 src dest f1 f3.
Proof. intros H1 H2 fd Hs Hd. by rewrite H2, H1. Qed.

Lemma copy_from_handle w0 h fd c len dest fuel w buf d :
  fd <> dest -> zlen (expand (drop 14 c)) < 2 ^ 31 ->
  represents w h fd c len 0 -> without h w = w0 -> zlen buf = BUFLEN ->
  file (io w) dest = Some (d, length d) ->
  zlen (expand (drop 14 c)) <= (Z.of_nat fuel - 1) * BUFLEN ->
  exists w', copy_loop fuel w h dest buf 0 = Ret (w', inr (zlen (expand (drop 14 c)))) /\
    represents w' h fd c len (zlen (expand (drop 14 c))) /\ without h w' = w0 /\
    others2 fd dest (io w) (io w') /\
    file (io w') dest = Some (d ++ expand (drop 14 c), length (d ++ expand (drop 14 c))).
Proof.
  intros Hne Hsz Hrep Hw0 Hb Hd Hf.
  destruct (copy_loop_ok (expand (drop 14 c)) h dest
    (fun pos w' => represents w' h fd c len (Z.of_nat pos) /\ without h w' = w0 /\ others2 fd dest (io w) (io w')))
    with (fuel := fuel) (pos := 0%nat) (w := w) (buf := buf) (d := d) as (w' & HC & (HR & HW & HO) & HD); try done.
  - intros pos w1 buf1 (HR1 & HW1 & HO1) Hb1. cbv zeta. rewrite (represents_handle _ _ _ _ _ _ HR1).
    destruct (LZRead_ok w1 h fd c len (Z.of_nat pos) buf1 BUFLEN HR1) as (w2 & HL2 & HR2 & HU2 & HW2 & _);
      [done|by rewrite Hb1|]. rewrite Nat2Z.id in HL2, HR2. exists w2. split; [done|].
    split; [split_and!; [by rewrite Nat2Z.inj_add|congruence|by eapply others2_l]|]. by apply HU2.
  - intros pos w1 f1 (HR1 & HW1 & HO1) Ho1. split_and!; [|done|by eapply others2_r].
    eapply represents_frame; [|done]. by apply Ho1.
  - lia.
  - exists w'. by split_and!.
Qed.

Lemma lread_buf_ok w src buf c p n :
  file (io w) src = Some (c, p) -> 0 <= n < 2 ^ 31 -> n <= zlen buf ->
  let out := take (Z.to_nat n) (drop p c) in
  exists f', lread_buf w src buf n = Ret (mkWorld f' (lzstates w), out ++ drop (length out) buf, zlen out) /\
    file f' src = Some (c, p + length out)%nat /\ others src (io w) f'.
Proof.
  intros Hf Hn Hb. cbv zeta. unfold lread_buf. destruct (lread_ok (io w) src c p n Hf) as (f' & -> & Hf' & Ho); [lia|].
  assert (zlen (take (Z.to_nat n) (drop p c)) <= n) by (unfold zlen; rewrite length_take; lia).
  pose proof (zlen_nonneg (take (Z.to_nat n) (drop p c))).
  rewrite read_into_ok by lia. cbn [obind]. rewrite wrapS_small by (unfold isS; lia).
  exists f'. by split_and!.
Qed.

Lemma copy_from_file src dest c fuel w buf d :
  src <> dest -> IS_LZ_HANDLE src = false -> zlen c < 2 ^ 31 ->
  file (io w) src = Some (c, 0%nat) -> zlen buf = BUFLEN -> file (io w) dest = Some (d, length d) ->
  zlen c <= (Z.of_nat fuel - 1) * BUFLEN ->
  exists w', copy_loop fuel w src dest buf 0 = Ret (w', inr (zlen c)) /\
    lzstates w' = lzstates w /\ file (io w') src = Some (c, length c) /\ others2 src dest (io w) (io w') /\
    file (io w') dest = Some (d ++ c, length (d ++ c)).
Proof.
  intros Hne Hh Hsz Hs Hb Hd Hf.
  destruct (copy_loop_ok c src dest
    (fun pos w' => file (io w') src = Some (c, pos) /\ lzstates w' = lzstates w /\ others2 src dest (io w) (io w')))
    with (fuel := fuel) (pos := 0%nat) (w := w) (buf := buf) (d := d) as (w' & HC & (HR & HW & HO) & HD); try done.
  - intros pos w1 buf1 (HR1 & HW1 & HO1) Hb1. cbv zeta. rewrite Hh.
    destruct (lread_buf_ok w1 src buf1 c pos BUFLEN HR1) as (f2 & HL2 & HR2 & HO2); [done|by rewrite Hb1|].
    eexists. split; [done|]. split; [split_and!; [done..|by eapply others2_l]|]. by apply HO2.
  - intros pos w1 f1 (HR1 & HW1 & HO1) Ho1. split_and!; [|done|by eapply others2_r]. simpl. by rewrite Ho1.
  - lia.
  - exists w'. by split_and!.
Qed.

(** what a copy of the file [c] writes *)
Definition copied c : list Z := if header_result c =? 1 then expand (drop 14 c) else c.

Lemma LZCopy_ok fuel w head hbuf buf src dest c p d :
  file (io w) src = Some (c, p) -> bytes c -> header_result c <> LZERROR_UNKNOWNALG ->
  0 < src -> IS_LZ_HANDLE src = false -> src <> dest -> file (io w) dest = Some (d, length d) ->
  length (lzstates w) = MAX_LZSTATES -> (free_slot (lzstates w) < MAX_LZSTATES)%nat -> zlen buf = BUFLEN ->
  zlen (copied c) < 2 ^ 31 -> zlen (copied c) <= (Z.of_nat fuel - 1) * BUFLEN ->
  exists w', LZCopy fuel w head hbuf buf true true src dest = Ret (w', zlen (copied c)) /\
    file (io w') dest = Some (d ++ copied c, length (d ++ copied c)) /\
    file (io w') src = (if header_result c =? 1 then None else Some (c, length c)) /\
    others2 src dest (io w) (io w') /\ lzstates w' = lzstates w.
Proof.
  intros Hs Hb Hh H0 Hih Hne Hd Hl Hfree Hbuf Hsz Hfuel. unfold LZCopy. rewrite Hih. cbn [negb andb].
  unfold copied in *. destruct (Z.eqb_spec (header_result c) 1) as [H1|H1].
  - destruct (LZInit_compressed w head hbuf src c p) as (w1 & -> & HR & (HO & _) & HW); [done..|lia|done|done|].
    destruct (Z.leb_spec (slot_handle w) 0); [unfold slot_handle in *; lia|].
    destruct (copy_from_handle (lzstates w) (slot_handle w) src c (header_length c) dest fuel w1 buf d)
      as (w2 & -> & HR2 & HW2 & HO2 & HD2); [done..| |done|]; [by rewrite HO|].
    cbn [obind]. pose proof (represents_handle _ _ _ _ _ _ HR2) as Hsl.
    destruct (Z.eqb_spec (slot_handle w) src) as [E|E]; [by rewrite E, Hih in Hsl|]. cbn [negb].
    destruct HR2 as (Hl2 & _ & lzs & HG & _ & Hfd & _). eexists. split; [done|].
    unfold LZClose. rewrite HG, Hfd. destruct (CloseHandle_ok (io w2) src) as [HC1 HC2].
    cbn [io lzstates set_state]. split_and!; [by rewrite HC2|done| |done].
    intros fd Hfs Hfd'. rewrite HC2 by done. rewrite HO2 by done. by apply HO.
  - assert (header_result c = 0) as Hz by by apply header_plain.
    destruct (LZInit_plain w head hbuf true true src c p Hs Hz) as (f1 & -> & Hf1 & HO1).
    destruct (Z.leb_spec src 0); [lia|]. rewrite Z.eqb_refl. cbn [negb].
    destruct (copy_from_file src dest c fuel (mkWorld f1 (lzstates w)) buf d)
      as (w2 & -> & HW2 & HS2 & HO2 & HD2); [done..| |done|]; [simpl; by rewrite HO1|].
    cbn [obind]. exists w2. split_and!; try done. intros fd Hfs Hfd'. rewrite HO2 by done. by apply HO1.
Qed.

(** ** File names *)
Definition free_of (p : Z -> bool) (l : list Z) : Prop := Forall (fun x => p x = false) l.
(** [l] is empty or its last character satisfies [p] *)
Definition ends_in (p : Z -> bool) (l : list Z) : Prop := l = [] \/ exists l' x, l = l' ++ [x] /\ p x = true.
Definition is_dot (c : Z) : bool := c =? 46.

Lemma split_last_free p l : free_of p l -> split_last p l = ([], l).
Proof. induction 1 as [|x l Hx _ IH]; [done|]. simpl. by rewrite IH, Hx. Qed.

Lemma split_last_app p a b : ends_in p a -> free_of p b -> split_last p (a ++ b) = (a, b).
Proof.
  intros [-> | (a' & x & -> & Hx)] Hb; [by apply split_last_free|].
  induction a' as [|y a' IH]; simpl.
  - by rewrite split_last_free, Hx by done.
  - rewrite IH. by destruct a'.
Qed.

Lemma split_dot_app base ext : free_of is_dot base -> split_dot (base ++ 46 :: ext) = Some (base, ext).
Proof. induction 1 as [|x l Hx _ IH]; [done|]. simpl. unfold is_dot in Hx. by rewrite Hx, IH. Qed.

Lemma set_last_app e x v : set_last (e ++ [x]) v = e ++ (if v =? 0 then [] else [v]).
Proof. unfold set_last. rewrite length_app. simpl. by rewrite Nat.add_sub, take_app_length. Qed.

Lemma recase lc lastc :
  isalpha lc = true -> tolower lastc = tolower lc ->
  isalpha lastc = true /\ (if islower lc then tolower lastc else toupper lastc) = lc.
Proof. unfold isalpha, tolower, toupper, isupper, islower. intros Hl. zcases. Qed.

(** the header character [lastc] stands for the last character of the
    extension [ext]: none for an extension that has room for the underscore,
    otherwise that character, in the case of the other letters of the name *)
Definition stands_for (name ext : list Z) (lastc : Z) : Prop :=
  if (length ext <? 3)%nat then lastc = 0
  else exists e lc, ext = e ++ [lc] /\ lc <> 0 /\
    if isalpha lc then tolower lastc = tolower lc /\ lowercased (rev (name ++ e)) = islower lc
    else lastc = lc.

Lemma expanded_mangled dir base ext x lastc :
  ends_in is_sep dir -> free_of is_sep (base ++ 46 :: ext) -> free_of is_dot base -> is_sep x = false ->
  x = 95 ->
  expanded_name (dir ++ base ++ 46 :: ext ++ [x]) lastc =
  dir ++ base ++ 46 :: ext ++
    (let lastc' := if isalpha lastc
       then if lowercased (rev (dir ++ base ++ 46 :: ext)) then tolower lastc else toupper lastc
       else lastc in if lastc' =? 0 then [] else [lastc']).
Proof.
  intros Hd Hs Hb Hx ->. unfold expanded_name.
  rewrite split_last_app; [|done|]; last first.
  { unfold free_of in *. rewrite (app_comm_cons), app_assoc. apply Forall_app. split; [done|]. by repeat constructor. }
  destruct (base ++ 46 :: ext ++ [95]) as [|y s] eqn:E; [by destruct base|]. rewrite <- E.
  rewrite split_dot_app by done. destruct (ext ++ [95]) as [|z t] eqn:E2; [by destruct ext|]. rewrite <- E2.
  unfold last_char. rewrite last_last. change (95 =? 95) with true. cbv iota.
  rewrite set_last_app. rewrite !(app_comm_cons ext), !(app_assoc base), !(app_assoc dir), rev_app_distr.
  done.
Qed.

Lemma name_ok dir1 dir2 base ext lastc :
  ends_in (fun x => x =? 92) dir1 -> ends_in is_sep (dir1 ++ dir2) ->
  free_of (fun x => (x =? 92) || is_dot x) dir2 -> free_of (fun x => is_sep x || is_dot x) base ->
  free_of is_sep ext -> stands_for (dir1 ++ dir2 ++ base ++ [46]) ext lastc ->
  expanded_name (LZEXPAND_MangleName (dir1 ++ dir2 ++ base ++ 46 :: ext)) lastc
    = dir1 ++ dir2 ++ base ++ 46 :: ext.
Proof.
  intros Hd1 Hd2 Hf2 Hb He Hst. unfold LZEXPAND_MangleName.
  assert (free_of (fun x => x =? 92) (dir2 ++ base ++ 46 :: ext)) as Hf.
  { unfold free_of in *. rewrite !Forall_app, Forall_cons. split_and!; try done;
      (eapply Forall_impl; [eassumption|]); intros x Hx; cbv beta in *; unfold is_sep in *;
      repeat match goal with H : (_ || _) = false |- _ => apply orb_false_iff in H as [? ?] end; done. }
  rewrite split_last_app by done. rewrite (app_assoc dir2 base).
  assert (free_of is_dot (dir2 ++ base)) as Hdot.
  { unfold free_of in *. apply Forall_app. split; (eapply Forall_impl; [eassumption|]);
      intros x Hx; cbv beta in *; by apply orb_false_iff in Hx as [? ?]. }
  assert (free_of is_dot base) as Hdb by by apply Forall_app in Hdot as [_ ?].
  assert (free_of is_sep base) as Hsb.
  { unfold free_of in *. eapply Forall_impl; [exact Hb|]. intros x Hx; cbv beta in *; by apply orb_false_iff in Hx as [? ?]. }
  rewrite split_dot_app by done. unfold stands_for in Hst.
  rewrite <- !app_assoc. rewrite !(app_assoc dir1 dir2) in *. destruct (length ext <? 3)%nat.
  - rewrite expanded_mangled; [|done|by apply Forall_app; split; [|constructor]|done..].
    subst lastc. simpl. by rewrite app_nil_r.
  - destruct Hst as (e & lc & -> & Hlc & Hst). rewrite set_last_app. change (95 =? 0) with false. cbv iota.
    unfold free_of in He. apply Forall_app in He as [He _].
    rewrite expanded_mangled; [|done|by apply Forall_app; split; [|constructor]|done..].
    rewrite <- !app_assoc in Hst. cbn [app] in Hst. rewrite (app_assoc dir1 dir2) in Hst.
    destruct (isalpha lc) eqn:Ha.
    + destruct Hst as [Hl ->]. destruct (recase lc lastc Ha Hl) as [-> ->]. cbv zeta.
      by destruct (Z.eqb_spec lc 0).
    + subst lastc. rewrite Ha. cbv zeta. by destruct (Z.eqb_spec lc 0).
Qed.

Lemma LZInit_error w head buf fd :
  (free_slot (lzstates w) < MAX_LZSTATES)%nat ->
  (file (io w) fd = None \/ exists c p, file (io w) fd = Some (c, p) /\ header_result c = LZERROR_UNKNOWNALG) ->
  snd (LZInit w head buf true true fd) = slot_handle w.
Proof.
  intros Hs [Hf|(c & p & Hf & Hh)].
  - assert (read_header (io w) fd head buf = (io w, LZERROR_BADINHANDLE, head)) as HR.
    { unfold read_header. by rewrite llseek_bad by done. }
    by rewrite (LZInit_opens w head buf fd _ _ _ HR).
  - destruct (read_header_ok _ _ _ _ head buf Hf) as (f' & hd & HR & _). rewrite Hh in HR.
    by rewrite (LZInit_opens w head buf fd _ _ _ HR).
Qed.

(** ** Opening by name *)

(** the file itself, or the one with the mangled name *)
Definition found (w : world F) (fn : list Z) : option (list Z) :=
  match disk (io w) fn with Some c => Some c | None => disk (io w) (LZEXPAND_MangleName fn) end.

Lemma LZOpenFileA_open w head buf fn :
  match found w fn with
  | Some c => exists f fd, 0 < fd /\ file (io w) fd = None /\ others fd (io w) f /\ file f fd = Some (c, 0%nat) /\
      LZOpenFileA w head buf true true true fn 0 =
        let '(w', cfd) := LZInit (mkWorld f (lzstates w)) head buf true true fd in
        (w', if cfd <=? 0 then fd else cfd)
  | None => LZOpenFileA w head buf true true true fn 0 = (w, HFILE_ERROR)
  end.
Proof.
  unfold found, LZOpenFileA. change (Z.land 0 (Z.lnot 0x70) =? 0) with true. cbn [negb].
  destruct (disk (io w) fn) as [c|] eqn:Hd1.
  - destruct (OpenFile_ok _ _ _ Hd1) as (f & fd & -> & H0 & Hn & Hf & Ho). exists f, fd.
    unfold HFILE_ERROR. destruct (Z.eqb_spec fd (-1)); [lia|]. destruct (Z.eqb_spec fd (-1)); [lia|]. done.
  - rewrite (OpenFile_missing _ _ Hd1). rewrite Z.eqb_refl.
    destruct (disk (io w) (LZEXPAND_MangleName fn)) as [c|] eqn:Hd2.
    + destruct (OpenFile_ok _ _ _ Hd2) as (f & fd & -> & H0 & Hn & Hf & Ho). exists f, fd.
      unfold HFILE_ERROR. destruct (Z.eqb_spec fd (-1)); [lia|]. done.
    + rewrite (OpenFile_missing _ _ Hd2), Z.eqb_refl. by destruct w.
Qed.

(** ** The theorems *)

(** C35: an LZ handle reads like a file with the expanded contents: from any
    position, LZRead puts the bytes of the expansion at that position in the
    buffer, as many as asked for and as there are, returns their number,
    advances the position by it and leaves the rest of the buffer, the other
    handles and the other files alone. *)
Theorem LZRead_spec w h fd c len pos buf toread :
  represents w h fd c len pos -> 0 <= toread < 2 ^ 31 -> toread <= zlen buf ->
  let out := take (Z.to_nat toread) (drop (Z.to_nat pos) (expand (drop 14 c))) in
  exists w', LZRead w h buf toread = Ret (w', out ++ drop (length out) buf, zlen out) /\
    represents w' h fd c len (pos + zlen out) /\ undisturbed w w' h fd.
Proof. apply LZRead_ok. Qed.

(** LZSeek moves the position of a handle to exactly the positions between
    0 and the length in the header, from the beginning, from the current
    position, and backwards from the end; it refuses all others with
    LZERROR_BADVALUE and no change (a sum that overflows an int is undefined). *)
Theorem LZSeek_spec w h fd c len pos off type :
  represents w h fd c len pos -> pos < 2 ^ 31 -> 0 <= len < 2 ^ 31 -> isS 32 off ->
  let t := seek_target len pos off type in
  if (0 <=? t) && (t <=? len) then
    exists w', LZSeek w h off type = Ret (w', t) /\ represents w' h fd c len t /\ undisturbed w w' h fd
  else LZSeek w h off type = if (type =? 1) && (2 ^ 31 <=? t) then Fault else Ret (w, LZERROR_BADVALUE).
Proof. apply LZSeek_ok. Qed.

(** LZCopy of a file, compressed or not, ends and appends the expansion,
    respectively the file itself, to the destination and returns the number
    of bytes written; the handle it opened is closed again (and the
    compressed source with it); nothing else changes.  The number of rounds
    is one per 1000 bytes. *)
Theorem LZCopy_spec fuel w head hbuf buf src dest c p d :
  file (io w) src = Some (c, p) -> bytes c -> header_result c <> LZERROR_UNKNOWNALG ->
  0 < src -> IS_LZ_HANDLE src = false -> src <> dest -> file (io w) dest = Some (d, length d) ->
  length (lzstates w) = MAX_LZSTATES -> (free_slot (lzstates w) < MAX_LZSTATES)%nat -> zlen buf = BUFLEN ->
  zlen (copied c) < 2 ^ 31 -> zlen (copied c) <= (Z.of_nat fuel - 1) * BUFLEN ->
  exists w', LZCopy fuel w head hbuf buf true true src dest = Ret (w', zlen (copied c)) /\
    file (io w') dest = Some (d ++ copied c, length (d ++ copied c)) /\
    file (io w') src = (if header_result c =? 1 then None else Some (c, length c)) /\
    others2 src dest (io w) (io w') /\ lzstates w' = lzstates w.
Proof. apply LZCopy_ok. Qed.

(** LZOpenFile opens the file of the name, or else the one of the mangled
    name: a compressed file becomes a handle at position 0 of the expansion,
    another one a plain file at its beginning; without either it fails. *)
Theorem LZOpenFileA_spec w head buf fn :
  length (lzstates w) = MAX_LZSTATES -> (free_slot (lzstates w) < MAX_LZSTATES)%nat ->
  (forall c, found w fn = Some c ->
     bytes c /\ zlen (expand (drop 14 c)) < 2 ^ 32 /\ header_result c <> LZERROR_UNKNOWNALG) ->
  match found w fn with
  | None => LZOpenFileA w head buf true true true fn 0 = (w, HFILE_ERROR)
  | Some c => exists w' fd, file (io w) fd = None /\ others fd (io w) (io w') /\
      if header_result c =? 1 then
        LZOpenFileA w head buf true true true fn 0 = (w', slot_handle w) /\
        represents w' (slot_handle w) fd c (header_length c) 0
      else
        LZOpenFileA w head buf true true true fn 0 = (w', fd) /\
        file (io w') fd = Some (c, 0%nat) /\ lzstates w' = lzstates w
  end.
Proof.
  intros Hl Hs Hc. pose proof (LZOpenFileA_open w head buf fn) as HO. destruct (found w fn) as [c|]; [|done].
  destruct (Hc c eq_refl) as (Hb & Hsz & Hh). destruct HO as (f & fd & H0 & Hn & Ho & Hf & ->).
  destruct (Z.eqb_spec (header_result c) 1) as [H1|H1].
  - destruct (LZInit_compressed (mkWorld f (lzstates w)) head buf fd c 0) as (w' & -> & HR & (HU & _) & _); [done..|].
    change (slot_handle (mkWorld f (lzstates w))) with (slot_handle w) in *.
    exists w', fd. split_and!; [done|by eapply others_trans| |done].
    by destruct (Z.leb_spec (slot_handle w) 0); [unfold slot_handle in *; lia|].
  - destruct (LZInit_plain (mkWorld f (lzstates w)) head buf true true fd c 0) as (f' & -> & Hf' & HU);
      [done|by apply header_plain|].
    exists (mkWorld f' (lzstates w)), fd. split_and!; [done|by eapply others_trans| |done..].
    by destruct (Z.leb_spec fd 0); [lia|].
Qed.

(** the two name manglings are inverse: for a file stored under the name
    LZOpenFile looks for, with the last character of the extension in its
    header, GetExpandedName returns the original name.  The directory may not
    have a dot after its last backslash: mangling takes only the backslash as
    a separator, expanding takes slash and colon too. *)
Theorem GetExpandedName_roundtrip f head buf dir1 dir2 base ext c :
  let fn := dir1 ++ dir2 ++ base ++ 46 :: ext in
  ends_in (fun x => x =? 92) dir1 -> ends_in is_sep (dir1 ++ dir2) ->
  free_of (fun x => (x =? 92) || is_dot x) dir2 -> free_of (fun x => is_sep x || is_dot x) base ->
  free_of is_sep ext -> stands_for (dir1 ++ dir2 ++ base ++ [46]) ext (s8 (nthZ 0 c 9)) ->
  disk f (LZEXPAND_MangleName fn) = Some c -> header_result c = 1 ->
  exists f', GetExpandedNameA f head buf (LZEXPAND_MangleName fn) = (f', 1, Some fn) /\
    forall fd, file f' fd = file f fd.
Proof.
  intros fn Hd1 Hd2 Hf2 Hb He Hst Hd Hh. unfold GetExpandedNameA.
  destruct (OpenFile_ok _ _ _ Hd) as (f1 & fd & -> & H0 & Hn & Hf & Ho).
  destruct (Z.eqb_spec fd HFILE_ERROR) as [E|_]; [unfold HFILE_ERROR in E; lia|].
  destruct (read_header_ok f1 fd c 0 head buf Hf) as (f2 & hd & -> & Ho2 & _ & Hhd).
  destruct (Hhd ltac:(by rewrite Hh)) as [-> _]. rewrite Hh. cbn [Z.leb Z.compare]. unfold fn. rewrite name_ok by done. eexists. split; [done|].
  intros fd'. destruct (lclose_ok f2 fd) as [HC1 HC2].
  destruct (decide (fd' = fd)) as [->|Hne]; [by rewrite HC1, Hn|].
  by rewrite HC2, Ho2, Ho.
Qed.

(** errors of LZInit are lost: for a handle that is not open, and for a file
    compressed by an unknown algorithm, the negative result of the header
    check is kept in an unsigned variable and passes for success, so LZInit
    returns an LZ handle instead of an error code. *)
Theorem LZInit_error_lost w head buf fd :
  (free_slot (lzstates w) < MAX_LZSTATES)%nat ->
  (file (io w) fd = None \/ exists c p, file (io w) fd = Some (c, p) /\ header_result c = LZERROR_UNKNOWNALG) ->
  snd (LZInit w head buf true true fd) = slot_handle w /\ 0x400 <= slot_handle w.
Proof. intros. split; [by apply LZInit_error|unfold slot_handle; lia]. Qed.

End Handle.

(** ** Witnesses: files in memory *)

(** "ABABABC" as two literals, a string of four at distance two and a literal;
    the name of the original ends in 'd' *)
Definition demo_header : list Z := LZMagic ++ [65; 100; 7; 0; 0; 0].
Definition demo_file : list Z := demo_header ++ [0x0b; 65; 66; 0xf0; 0xf1; 67].
Definition unknown_file : list Z := LZMagic ++ [66; 100; 7; 0; 0; 0].
(** the names A.BCD and A.BC_ *)
Definition demo_name : list Z := [97; 46; 98; 99; 100].
Definition demo_mangled : list Z := [97; 46; 98; 99; 95].
Definition demo_fs : fs :=
  mkFs {[demo_mangled := demo_file]} {[5 := (demo_file, 3%nat); 6 := ([1; 2], 2%nat); 7 := (unknown_file, 0%nat)]} 1.
Definition demo_world : world fs := mkWorld demo_fs (replicate 16 None).
Definition no_header : lzfileheader := mkHeader [] 0 0 0.
Definition demo_open : world fs := fst (LZInit demo_world no_header [] true true 5).

Lemma demo_bytes : bytes demo_file.
Proof. by repeat constructor. Qed.

Lemma demo_represents : represents demo_open 0x400 5 demo_file 7 0.
Proof.
  destruct (LZInit_compressed demo_world no_header [] 5 demo_file 3) as (w' & HE & HR & _);
    [done|done|apply demo_bytes|done|done|vm_compute; lia|].
  unfold demo_open. rewrite HE. exact HR.
Qed.

Lemma LZRead_spec_witness :
  exists w', LZRead demo_open 0x400 (replicate 9 0) 5 = Ret (w', [65; 66; 65; 66; 65; 0; 0; 0; 0], 5) /\
    represents w' 0x400 5 demo_file 7 5.
Proof.
  destruct (LZRead_spec demo_open 0x400 5 demo_file 7 0 (replicate 9 0) 5 demo_represents)
    as (w' & HE & HR & _); [done|done|].
  exists w'. split; [exact HE|exact HR].
Defined.

Lemma LZSeek_spec_witness :
  exists w', LZSeek demo_open 0x400 3 2 = Ret (w', 4) /\ represents w' 0x400 5 demo_file 7 4.
Proof.
  pose proof (LZSeek_spec demo_open 0x400 5 demo_file 7 0 3 2 demo_represents) as HS.
  destruct HS as (w' & HE & HR & _); [done|done|done|]. exists w'. split; [exact HE|exact HR].
Defined.

Lemma LZCopy_spec_witness :
  exists w', LZCopy 2 demo_world no_header [] (replicate 1000 0) true true 5 6 = Ret (w', 7) /\
    file (io w') 6 = Some ([1; 2; 65; 66; 65; 66; 65; 66; 67], 9%nat) /\ file (io w') 5 = None.
Proof.
  destruct (LZCopy_spec 2 demo_world no_header [] (replicate 1000 0) 5 6 demo_file 3 [1; 2])
    as (w' & HE & HD & HS & _);
    [done|apply demo_bytes|done|done|done|done|done|done|vm_compute; lia|done|done|done|].
  exists w'. split_and!; [exact HE|exact HD|exact HS].
Defined.

Lemma LZOpenFileA_spec_witness :
  exists w' fd, LZOpenFileA demo_world no_header [] true true true demo_name 0 = (w', 0x400) /\
    represents w' 0x400 fd demo_file 7 0.
Proof.
  pose proof (LZOpenFileA_spec demo_world no_header [] demo_name) as HS.
  destruct HS as (w' & fd & _ & _ & HE & HR); [done|vm_compute; lia| |exists w', fd; split; [exact HE|exact HR]].
  intros c Hc. assert (c = demo_file) as -> by (vm_compute in Hc; by injection Hc).
  split_and!; [apply demo_bytes|done|done].
Defined.

Lemma GetExpandedName_roundtrip_witness :
  exists f', GetExpandedNameA demo_fs no_header [] demo_mangled = (f', 1, Some demo_name).
Proof.
  destruct (GetExpandedName_roundtrip demo_fs no_header [] [] [] [97] [98; 99; 100] demo_file)
    as (f' & HE & _); [by left|by left|by constructor|by repeat constructor|by repeat constructor| |done|done|].
  - exists [98; 99], 100. done.
  - exists f'. exact HE.
Defined.

Lemma LZInit_error_lost_witness :
  snd (LZInit demo_world no_header [] true true 9) = 0x400 /\
  snd (LZInit demo_world no_header [] true true 7) = 0x400.
Proof.
  split.
  - apply (LZInit_error_lost demo_world no_header [] 9); [vm_compute; lia|by left].
  - apply (LZInit_error_lost demo_world no_header [] 7); [vm_compute; lia|right; by exists unknown_file, 0%nat].
Defined.

End LzSpec.
