(* ===== verification/MemCache.v ===== *)
(** * The memory file cache (dlls/ntdll/mem_file.c)

    Files that are open for reading are kept in memory.  The cache is a doubly
    linked list of file objects, the last used first; objects of the same file
    share a counted buffer.  Reads and seeks on a cached handle work on the
    buffer; when an object leaves the cache, the position of the real file is
    set to the one of the object.  The list is modelled with its pointers, and
    the lock by its depth.  The real files are those of the server process,
    which is an interface. *)
From stdpp Require Import gmap.
From S2P Require Import Prelude.

(** The requests to the server and the file calls that make them: a read of at
    most so many bytes, a seek, the size, and the end of a handle. *)
Class Server (F : Type) := {
  srv_read : F -> Z -> Z -> F * option (list Z);
  srv_seek : F -> Z -> Z -> Z -> F * option Z;
  srv_size : F -> Z -> option Z;
  srv_close : F -> Z -> F * bool
}.

Module MemCache.

Definition FILE_BEGIN : Z := 0.
Definition FILE_CURRENT : Z := 1.
Definition FILE_END : Z := 2.

(** ** State *)

(** pointers to file objects and to buffers are numbers, [None] is NULL *)
Record MemFileData_t := mkData
  { Next : option nat; Prev : option nat; Handle : Z; CurPos : Z; Buffer : nat }.
Record FileBuffer_t := mkBuffer
  { refCount : Z; filename : list Z; fileSize : Z; buffer : list Z }.

(** the depth of the critical section, g_memFile and the heap objects *)
Record MemFileState := mkState
  { cs : Z; initialized : bool; head : option nat; tail : option nat; count : Z;
    totalCacheSize : Z; cacheLimit : Z; maxSize : Z; disabled : bool;
    deniedList : list (list Z);
    nodes : gmap nat MemFileData_t; bufs : gmap nat FileBuffer_t }.

Definition set_cs (g : MemFileState) (d : Z) : MemFileState :=
  mkState d (initialized g) (head g) (tail g) (count g) (totalCacheSize g) (cacheLimit g)
    (maxSize g) (disabled g) (deniedList g) (nodes g) (bufs g).
Definition set_list (g : MemFileState) (h t : option nat) (n : Z) : MemFileState :=
  mkState (cs g) (initialized g) h t n (totalCacheSize g) (cacheLimit g)
    (maxSize g) (disabled g) (deniedList g) (nodes g) (bufs g).
Definition set_nodes (g : MemFileState) (ns : gmap nat MemFileData_t) : MemFileState :=
  mkState (cs g) (initialized g) (head g) (tail g) (count g) (totalCacheSize g) (cacheLimit g)
    (maxSize g) (disabled g) (deniedList g) ns (bufs g).
Definition set_bufs (g : MemFileState) (total : Z) (bs : gmap nat FileBuffer_t) : MemFileState :=
  mkState (cs g) (initialized g) (head g) (tail g) (count g) total (cacheLimit g)
    (maxSize g) (disabled g) (deniedList g) (nodes g) bs.

Definition EnterCriticalSection (g : MemFileState) : MemFileState := set_cs g (cs g + 1).
Definition LeaveCriticalSection (g : MemFileState) : MemFileState := set_cs g (cs g - 1).

(** an access through a pointer that is dangling faults *)
Definition node (g : MemFileState) (p : nat) : outcome MemFileData_t :=
  match nodes g !! p with Some n => Ret n | None => Fault end.
Definition buf (g : MemFileState) (b : nat) : outcome FileBuffer_t :=
  match bufs g !! b with Some x => Ret x | None => Fault end.

Definition put_next (g : MemFileState) (p : nat) (q : option nat) : outcome MemFileState :=
  let! n := node g p in
  Ret (set_nodes g (<[p := mkData q (Prev n) (Handle n) (CurPos n) (Buffer n)]> (nodes g))).
Definition put_prev (g : MemFileState) (p : nat) (q : option nat) : outcome MemFileState :=
  let! n := node g p in
  Ret (set_nodes g (<[p := mkData (Next n) q (Handle n) (CurPos n) (Buffer n)]> (nodes g))).
Definition put_pos (g : MemFileState) (p : nat) (v : Z) : outcome MemFileState :=
  let! n := node g p in
  Ret (set_nodes g (<[p := mkData (Next n) (Prev n) (Handle n) v (Buffer n)]> (nodes g))).

(** the assignment of a link of the object behind a pointer, if there is one *)
Definition if_ptr (q : option nat) (f : nat -> outcome MemFileState) (g : MemFileState) :
    outcome MemFileState :=
  match q with Some p => f p | None => Ret g end.

(** ** The list *)
Definition AddMemFile (g : MemFileState) (pData : nat) : outcome MemFileState :=
  let! g := put_prev g pData None in
  let! g := put_next g pData (head g) in
  let! g := if_ptr (head g) (fun h => put_prev g h (Some pData)) g in
  Ret (set_list g (Some pData)
        (match tail g with None => Some pData | t => t end) (count g + 1)).

Definition RemoveMemFile (g : MemFileState) (pData : option nat) : outcome MemFileState :=
  match pData with
  | None => Ret g
  | Some p =>
    let! n := node g p in
    let! g := match Prev n with
              | Some q => put_next g q (Next n)
              | None => Ret (set_list g (Next n) (tail g) (count g))
              end in
    let! n := node g p in
    let! g := match Next n with
              | Some q => put_prev g q (Prev n)
              | None => Ret (set_list g (head g) (Prev n) (count g))
              end in
    Ret (set_list g (head g) (tail g) (count g - 1))
  end.

(** the walk along the list; the fuel is the number of objects, and one more *)
Fixpoint walk (fuel : nat) (g : MemFileState) (match_ : MemFileData_t -> outcome bool)
    (pData : option nat) : outcome (option nat) :=
  match pData with
  | None => Ret None
  | Some p =>
    match fuel with
    | O => Spin
    | S fuel =>
      let! n := node g p in
      let! ok := match_ n in
      if ok then Ret (Some p) else walk fuel g match_ (Next n)
    end
  end.
Definition walk_fuel (g : MemFileState) : nat := S (size (nodes g)).

Definition search_list (g : MemFileState) (match_ : MemFileData_t -> outcome bool) (RemoveFromList : bool) :
    outcome (MemFileState * option nat) :=
  let! r := walk (walk_fuel g) g match_ (head g) in
  let! g := match r with
            | Some p => if RemoveFromList then RemoveMemFile g (Some p) else Ret g
            | None => Ret g
            end in
  Ret (g, r).

Definition GetMemFile (g : MemFileState) (hFile : Z) (RemoveFromList : bool) :
    outcome (MemFileState * option nat) :=
  search_list g (fun n => Ret (Handle n =? hFile)) RemoveFromList.

Definition GetMemFileByName (g : MemFileState) (name : list Z) (RemoveFromList : bool) :
    outcome (MemFileState * option nat) :=
  search_list g (fun n => let! b := buf g (Buffer n) in Ret (same_nocase name (filename b))) RemoveFromList.

Definition ClipTail (g : MemFileState) : outcome (MemFileState * nat) :=
  match tail g with
  | None => Fault
  | Some p =>
    let! n := node g p in
    let! g := match Prev n with
              | Some q => put_next g q None
              | None => Ret (set_list g None (tail g) (count g))
              end in
    Ret (set_list g (head g) (Prev n) (count g - 1), p)
  end.

Definition MoveToFront (g : MemFileState) (file : nat) : outcome MemFileState :=
  match head g with
  | None => AddMemFile g file
  | Some h =>
    if bool_decide (head g = tail g) || (file =? h)%nat then Ret g else
    let! n := node g file in
    let! g := if_ptr (Prev n) (fun q => put_next g q (Next n)) g in
    let! n := node g file in
    let! g := match Next n with
              | Some q => put_prev g q (Prev n)
              | None => Ret (set_list g (head g) (Prev n) (count g))
              end in
    let! g := put_prev g file None in
    let! g := put_next g file (head g) in
    let! g := if_ptr (head g) (fun h => put_prev g h (Some file)) g in
    Ret (set_list g (Some file) (tail g) (count g))
  end.

(** ** Buffers *)

(** the sum of the sizes changes under the lock; the depth is back after it *)
Definition MEMFILE_allocBuffer (g : MemFileState) (heap : bool) (name : list Z) (size : Z) :
    MemFileState * option nat :=
  if negb heap then (g, None) else
  let b := fresh (dom (bufs g)) in
  let g := EnterCriticalSection g in
  let g := set_bufs g (totalCacheSize g + size)
    (<[b := mkBuffer 1 name size (replicate (Z.to_nat (u32 size)) 0)]> (bufs g)) in
  (LeaveCriticalSection g, Some b).

Definition MEMFILE_releaseBuffer (g : MemFileState) (b : option nat) : outcome (MemFileState * bool) :=
  match b with
  | None => Ret (g, false)
  | Some b =>
    let! x := buf g b in
    let x := mkBuffer (refCount x - 1) (filename x) (fileSize x) (buffer x) in
    if refCount x <=? 0 then
      Ret (set_bufs g (totalCacheSize g - fileSize x) (delete b (bufs g)), true)
    else Ret (set_bufs g (totalCacheSize g) (<[b := x]> (bufs g)), false)
  end.

(** the buffer and whether it was created *)
Definition MEMFILE_createBuffer (g : MemFileState) (heap : bool) (name : list Z) (size : Z) :
    outcome (MemFileState * option nat * bool) :=
  let! (g, file) := GetMemFileByName g name false in
  match file with
  | None => let '(g, b) := MEMFILE_allocBuffer g heap name size in Ret (g, b, true)
  | Some p =>
    let! n := node g p in
    let! x := buf g (Buffer n) in
    let x := mkBuffer (refCount x + 1) (filename x) (fileSize x) (buffer x) in
    Ret (set_bufs g (totalCacheSize g) (<[Buffer n := x]> (bufs g)), Some (Buffer n), false)
  end.

(** the object itself is freed *)
Definition MEMFILE_DeleteMemFileByData (g : MemFileState) (pData : option nat) : outcome MemFileState :=
  match pData with
  | None => Ret g
  | Some p =>
    let! n := node g p in
    let! (g, _) := MEMFILE_releaseBuffer g (Some (Buffer n)) in
    Ret (set_nodes g (delete p (nodes g)))
  end.

(** ** Names that are not cached *)

(** strrchr(filename, '.') + 1 *)
Fixpoint extension (name : list Z) : option (list Z) :=
  match name with
  | [] => None
  | c :: s => match extension s with
              | Some e => Some e
              | None => if c =? 46 then Some s else None
              end
  end.

Definition MEMFILE_isExtensionDenied (g : MemFileState) (name : list Z) : bool :=
  if zlen (deniedList g) =? 0 then false
  else match extension name with
       | None => false
       | Some ext => existsb (same_nocase ext) (deniedList g)
       end.

(** strncasecmp(filename, "/dev/", 5) *)
Definition MEMFILE_isFileIgnored (name : list Z) : bool :=
  same_nocase (take 5 name) [47; 100; 101; 118; 47].

(** ** Positions and reads *)
Section Calls.
Context {F : Type} `{Server F}.

Record world := mkWorld { srv : F; g_memFile : MemFileState }.
Definition with_g (w : world) (g : MemFileState) : world := mkWorld (srv w) g.

(** the new position when it was stored in *pNewPos *)
Definition MEMFILE_doSeek (g : MemFileState) (p : nat) (distance method : Z) :
    outcome (MemFileState * option Z) :=
  let! n := node g p in
  let! b := buf g (Buffer n) in
  let! NewPos :=
    (if method =? FILE_BEGIN then Ret distance
     else if method =? FILE_CURRENT then add_i64 (CurPos n) distance
     else add_i64 (fileSize b) distance) in
  if NewPos <? 0 then Ret (g, None)
  else let! g := put_pos g p NewPos in Ret (g, Some NewPos).

(** TRUE, with the position stored, when the handle is cached *)
Definition MEMFILE_SetFilePointerEx (g : MemFileState) (hFile distance method : Z) :
    outcome (MemFileState * option (option Z)) :=
  if bool_decide (head g = None) || disabled g then Ret (g, None) else
  let g := EnterCriticalSection g in
  let! (g, pData) := GetMemFile g hFile false in
  match pData with
  | None => Ret (LeaveCriticalSection g, None)
  | Some p =>
    let! (g, r) := MEMFILE_doSeek g p distance method in
    Ret (LeaveCriticalSection g, Some r)
  end.

(** FALSE stands for the error code that a failed request sets *)
Definition MEMFILE_DoPointerSync (w : world) (p : nat) : outcome (world * bool) :=
  let! n := node (g_memFile w) p in
  match srv_seek (srv w) (Handle n) (CurPos n) FILE_BEGIN with
  | (f, None) => Ret (mkWorld f (g_memFile w), false)
  | (f, Some pos) => let! g := put_pos (g_memFile w) p pos in Ret (mkWorld f g, true)
  end.

(** memcpy(Buffer, b + pos, n): the bytes of the source, which must exist *)
Definition copy_out (b : list Z) (pos n : Z) : outcome (list Z) :=
  if (0 <=? pos) && (pos + n <=? zlen b) then Ret (take (Z.to_nat n) (drop (Z.to_nat pos) b)) else Fault.

(** the bytes read *)
Definition MEMFILE_doRead (g : MemFileState) (p : nat) (BytesToRead : Z) :
    outcome (MemFileState * list Z) :=
  let! n := node g p in
  let! b := buf g (Buffer n) in
  let max := u32 (fileSize b - CurPos n) in
  let BytesToRead := if max <? BytesToRead then max else BytesToRead in
  let! out := copy_out (buffer b) (CurPos n) BytesToRead in
  let! pos := add_i64 (CurPos n) BytesToRead in
  let! g := put_pos g p pos in
  let! g := MoveToFront g p in
  Ret (g, out).

Definition MEMFILE_ReadFile (g : MemFileState) (hFile BytesToRead : Z) :
    outcome (MemFileState * option (list Z)) :=
  if bool_decide (head g = None) || disabled g then Ret (g, None) else
  let g := EnterCriticalSection g in
  let! (g, pData) := GetMemFile g hFile false in
  match pData with
  | None => Ret (LeaveCriticalSection g, None)
  | Some p =>
    let! (g, out) := MEMFILE_doRead g p BytesToRead in
    Ret (LeaveCriticalSection g, Some out)
  end.

Definition MEMFILE_ReadFileFromOffset (g : MemFileState) (hFile BytesToRead offset : Z) :
    outcome (MemFileState * option (list Z)) :=
  if bool_decide (head g = None) || disabled g then Ret (g, None) else
  let g := EnterCriticalSection g in
  let! (g, pData) := GetMemFile g hFile false in
  match pData with
  | None => Ret (LeaveCriticalSection g, None)
  | Some p =>
    let! (g, _) := MEMFILE_doSeek g p offset FILE_BEGIN in
    let! (g, out) := MEMFILE_doRead g p BytesToRead in
    Ret (LeaveCriticalSection g, Some out)
  end.

(** ** Leaving the cache *)

(** MEMFILE_Initialize has run before the list has objects *)
Definition MEMFILE_DeleteMemFile (g : MemFileState) (hFile : Z) : outcome MemFileState :=
  if bool_decide (head g = None) || disabled g then Ret g else
  let g := EnterCriticalSection g in
  let! (g, pData) := GetMemFile g hFile true in
  let! g := MEMFILE_DeleteMemFileByData g pData in
  Ret (LeaveCriticalSection g).

(** the do loop: an object per round *)
Fixpoint clear_loop (fuel : nat) (w : world) (name : list Z) (p : nat) (result : bool) :
    outcome (world * bool) :=
  match fuel with
  | O => Spin
  | S fuel =>
    let! (w, ok) := MEMFILE_DoPointerSync w p in
    let result := result && ok in
    let! g := MEMFILE_DeleteMemFileByData (g_memFile w) (Some p) in
    let! (g, pData) := GetMemFileByName g name true in
    match pData with
    | None => Ret (with_g w g, result)
    | Some p => clear_loop fuel (with_g w g) name p result
    end
  end.

(** TRUE when an object was found and no request failed; the first search is
    made outside the lock *)
Definition MEMFILE_ClearCache (w : world) (name : list Z) : outcome (world * bool) :=
  let! (g, pData) := GetMemFileByName (g_memFile w) name true in
  match pData with
  | None => Ret (with_g w g, false)
  | Some p =>
    let w := with_g w (EnterCriticalSection g) in
    let! (w, result) := clear_loop (walk_fuel g) w name p true in
    Ret (with_g w (LeaveCriticalSection (g_memFile w)), result)
  end.

Definition __wine_clearFileCache := MEMFILE_ClearCache.

(** ** The calls above the cache (file_kernel.c, handle.c) *)
Definition ReadFile (w : world) (hFile bytesToRead : Z) : outcome (world * option (list Z)) :=
  if bytesToRead =? 0 then Ret (w, Some []) else
  let! (g, r) := MEMFILE_ReadFile (g_memFile w) hFile bytesToRead in
  match r with
  | Some out => Ret (with_g w g, Some out)
  | None => let '(f, r) := srv_read (srv w) hFile bytesToRead in Ret (mkWorld f g, r)
  end.

(** the new position, when the call returns TRUE and stored it *)
Definition SetFilePointerEx (w : world) (hFile distance method : Z) : outcome (world * option (option Z)) :=
  if (method <? FILE_BEGIN) || (FILE_END <? method) then Ret (w, None) else
  let! (g, r) := MEMFILE_SetFilePointerEx (g_memFile w) hFile distance method in
  match r with
  | Some newpos => Ret (with_g w g, Some newpos)
  | None => let '(f, r) := srv_seek (srv w) hFile distance method in
            Ret (mkWorld f g, match r with Some pos => Some (Some pos) | None => None end)
  end.

(** ** Entering the cache *)

(** the do loop that makes room: the file after the last one that is
    destroyed is taken off the list before the size is tested *)
Fixpoint evict_loop (fuel : nat) (w : world) (p : nat) : outcome world :=
  match fuel with
  | O => Spin
  | S fuel =>
    let! (w, _) := MEMFILE_DoPointerSync w p in
    let! g := MEMFILE_DeleteMemFileByData (g_memFile w) (Some p) in
    let! (g, p) := ClipTail g in
    if cacheLimit g <? totalCacheSize g then evict_loop fuel (with_g w g) p else Ret (with_g w g)
  end.

Definition make_room (w : world) : outcome world :=
  let g := g_memFile w in
  if negb (bool_decide (tail g = None)) && negb (bool_decide (head g = tail g)) &&
     (cacheLimit g <? totalCacheSize g) then
    let! (g, p) := ClipTail g in evict_loop (walk_fuel g) (with_g w g) p
  else Ret w.

(** the contents read into a new buffer, which is released when that fails *)
Definition fill_buffer (w : world) (hFile : Z) (b : nat) : outcome (world * bool) :=
  let! x := buf (g_memFile w) b in
  let! (w, r) := ReadFile w hFile (u32 (fileSize x)) in
  match r with
  | Some bs =>
    if zlen bs =? u32 (fileSize x) then
      let! x := buf (g_memFile w) b in
      Ret (with_g w (set_bufs (g_memFile w) (totalCacheSize (g_memFile w))
        (<[b := mkBuffer (refCount x) (filename x) (fileSize x) bs]> (bufs (g_memFile w)))), true)
    else let! (g, _) := MEMFILE_releaseBuffer (g_memFile w) (Some b) in Ret (with_g w g, false)
  | None => let! (g, _) := MEMFILE_releaseBuffer (g_memFile w) (Some b) in Ret (with_g w g, false)
  end.

(** [heap1] and [heap2] say whether the two allocations succeed *)
Definition MEMFILE_CreateMemFile (w : world) (heap1 heap2 : bool) (name : list Z) (hFile : Z) :
    outcome (world * bool) :=
  let g := g_memFile w in
  if disabled g then Ret (w, false)
  else if MEMFILE_isFileIgnored name then Ret (w, false)
  else if MEMFILE_isExtensionDenied g name then Ret (w, false)
  else match srv_size (srv w) hFile with
  | None => Ret (w, false)
  | Some size =>
    if size =? 0 then Ret (w, false)
    else if negb heap1 then Ret (w, false)
    else if maxSize g <? size then Ret (w, false)
    else
      let g := EnterCriticalSection g in
      let! (g, b, created) := MEMFILE_createBuffer g heap2 name size in
      match b with
      | None => Ret (with_g w g, false)
      | Some b =>
        let! (w, ok) := (if created then fill_buffer (with_g w g) hFile b else Ret (with_g w g, true)) in
        if negb ok then Ret (w, false) else
        let! (w, _) := SetFilePointerEx w hFile 0 FILE_BEGIN in
        let g := g_memFile w in
        let p := fresh (dom (nodes g)) in
        let g := set_nodes g (<[p := mkData None None hFile 0 b]> (nodes g)) in
        let! g := AddMemFile g p in
        let! w := make_room (with_g w g) in
        Ret (with_g w (LeaveCriticalSection (g_memFile w)), true)
      end
  end.

Definition CloseHandle (w : world) (handle : Z) : outcome (world * bool) :=
  let! g := MEMFILE_DeleteMemFile (g_memFile w) handle in
  let '(f, ok) := srv_close (srv w) handle in
  Ret (mkWorld f g, ok).

End Calls.

Arguments world F : clear implicits.
Arguments mkWorld {F} srv g_memFile.
Arguments srv {F} w.
Arguments g_memFile {F} w.

End MemCache.
