(* ===== verification/MemCacheList.v ===== *)
(** * The memory file cache: its list of file objects

    The doubly linked list represents a sequence of entries; every operation
    on the pointers is the expected one on the sequence. *)
From stdpp Require Import gmap.
From S2P Require Import Prelude MemCache.
Import MemCache.

Module MemCacheList.

(** what a file object says of its file *)
Record ent := mkEnt { e_handle : Z; e_pos : Z; e_buf : nat }.
Definition mk (nx pv : option nat) (e : ent) : MemFileData_t :=
  mkData nx pv (e_handle e) (e_pos e) (e_buf e).
Definition ent_of (n : MemFileData_t) : ent := mkEnt (Handle n) (CurPos n) (Buffer n).

Lemma mk_ent_of n : mk (Next n) (Prev n) (ent_of n) = n.
Proof. by destruct n. Qed.

(** ** Segments

    the objects [es], after the object [pp] and before [qn] *)
Definition first_or (es : list (nat * ent)) (qn : option nat) : option nat :=
  match es with [] => qn | (x, _) :: _ => Some x end.
Fixpoint last_or (pp : option nat) (es : list (nat * ent)) : option nat :=
  match es with [] => pp | (x, _) :: es => last_or (Some x) es end.
Fixpoint dseg (ns : gmap nat MemFileData_t) (pp : option nat) (es : list (nat * ent)) (qn : option nat) : Prop :=
  match es with
  | [] => True
  | (x, e) :: es => ns !! x = Some (mk (first_or es qn) pp e) /\ dseg ns (Some x) es qn
  end.

Lemma first_or_app es1 es2 qn : first_or (es1 ++ es2) qn = first_or es1 (first_or es2 qn).
Proof. by destruct es1 as [|[x e] es1]. Qed.
Lemma last_or_app pp es1 es2 : last_or pp (es1 ++ es2) = last_or (last_or pp es1) es2.
Proof. revert pp. induction es1 as [|[x e] es1 IH]; intros pp; [done|]. apply IH. Qed.
Lemma last_or_snoc pp es x e : last_or pp (es ++ [(x, e)]) = Some x.
Proof. by rewrite last_or_app. Qed.

Lemma dseg_app ns pp es1 es2 qn :
  dseg ns pp (es1 ++ es2) qn <-> dseg ns pp es1 (first_or es2 qn) /\ dseg ns (last_or pp es1) es2 qn.
Proof.
  revert pp. induction es1 as [|[x e] es1 IH]; intros pp; simpl; [tauto|].
  rewrite IH, first_or_app. tauto.
Qed.

Lemma dseg_frame ns ns' pp es qn :
  (forall x, x ∈ es.*1 -> ns' !! x = ns !! x) -> dseg ns pp es qn -> dseg ns' pp es qn.
Proof.
  revert pp. induction es as [|[x e] es IH]; intros pp Hf; [done|]. intros [Hx Hs]. split.
  - rewrite Hf; [done|by left].
  - apply IH; [|done]. intros y Hy. apply Hf. by right.
Qed.

Lemma dseg_insert ns pp es qn x n : x ∉ es.*1 -> dseg ns pp es qn -> dseg (<[x := n]> ns) pp es qn.
Proof.
  intros Hx. apply dseg_frame. intros y Hy. apply lookup_insert_ne. by intros ->.
Qed.

Lemma dseg_lookup ns pp es qn x e : dseg ns pp es qn -> (x, e) ∈ es -> exists nx pv, ns !! x = Some (mk nx pv e).
Proof.
  revert pp. induction es as [|[y e'] es IH]; intros pp; [by intros _ H%elem_of_nil|].
  intros [Hy Hs] Hin. apply elem_of_cons in Hin as [[= -> ->]|Hin]; [by eauto|]. by eapply IH.
Qed.

(** the list of the state is the sequence [es] *)
Definition repr (g : MemFileState) (es : list (nat * ent)) : Prop :=
  NoDup es.*1 /\ dseg (nodes g) None es None /\ head g = first_or es None /\
  tail g = last_or None es /\ count g = zlen es.

(** the rest of the state *)
Definition rest_eq (g g' : MemFileState) : Prop :=
  cs g' = cs g /\ initialized g' = initialized g /\ totalCacheSize g' = totalCacheSize g /\
  cacheLimit g' = cacheLimit g /\ maxSize g' = maxSize g /\ disabled g' = disabled g /\
  deniedList g' = deniedList g /\ bufs g' = bufs g.
#[global] Instance rest_eq_preorder : PreOrder rest_eq.
Proof.
  split; [by intros g|]. intros a b c (?&?&?&?&?&?&?&?) (?&?&?&?&?&?&?&?). repeat split; congruence.
Qed.

Lemma repr_fuel g es : repr g es -> (length es <= size (nodes g))%nat.
Proof.
  intros (Hnd & Hs & _). rewrite <- (length_fmap fst es), <- (size_list_to_set (C := gset nat)) by done.
  rewrite <- size_dom. apply subseteq_size. intros x Hx. apply elem_of_list_to_set in Hx.
  apply list_elem_of_fmap in Hx as ([y e] & -> & Hin). apply elem_of_dom. simpl.
  destruct (dseg_lookup _ _ _ _ _ _ Hs Hin) as (nx & pv & ->). by eauto.
Qed.

(** ** Assignments of links *)
Lemma put_next_ok g x n q : nodes g !! x = Some n ->
  put_next g x q = Ret (set_nodes g (<[x := mk q (Prev n) (ent_of n)]> (nodes g))).
Proof. intros Hx. unfold put_next, node. by rewrite Hx. Qed.
Lemma put_prev_ok g x n q : nodes g !! x = Some n ->
  put_prev g x q = Ret (set_nodes g (<[x := mk (Next n) q (ent_of n)]> (nodes g))).
Proof. intros Hx. unfold put_prev, node. by rewrite Hx. Qed.
Lemma put_pos_ok g x nx pv e v : nodes g !! x = Some (mk nx pv e) ->
  put_pos g x v = Ret (set_nodes g (<[x := mk nx pv (mkEnt (e_handle e) v (e_buf e))]> (nodes g))).
Proof. intros Hx. unfold put_pos, node. by rewrite Hx. Qed.
Lemma node_ok g x n : nodes g !! x = Some n -> node g x = Ret n.
Proof. intros Hx. unfold node. by rewrite Hx. Qed.

(** the object before a segment boundary gets a new Next *)
Lemma seg_put_next g pp es x e qn q :
  NoDup (es ++ [(x, e)]).*1 -> dseg (nodes g) pp (es ++ [(x, e)]) qn ->
  exists g', put_next g x q = Ret g' /\ dseg (nodes g') pp (es ++ [(x, e)]) q /\
    (forall y, y <> x -> nodes g' !! y = nodes g !! y) /\ g' = set_nodes g (nodes g').
Proof.
  intros Hnd Hs. apply dseg_app in Hs as [Hs [Hx _]].
  rewrite (put_next_ok _ _ _ _ Hx). eexists. split; [done|]. cbn [nodes set_nodes].
  split; [|split; [intros y Hy; by apply lookup_insert_ne|done]].
  rewrite fmap_app in Hnd. apply list.NoDup_app in Hnd as (_ & Hd & _).
  apply dseg_app. split.
  - apply dseg_insert; [|done]. intros Hin. by eapply Hd; [|left].
  - split; [|done]. by rewrite lookup_insert_eq.
Qed.

(** the object after a segment boundary gets a new Prev *)
Lemma seg_put_prev g pp x e es qn p :
  NoDup ((x, e) :: es).*1 -> dseg (nodes g) pp ((x, e) :: es) qn ->
  exists g', put_prev g x p = Ret g' /\ dseg (nodes g') p ((x, e) :: es) qn /\
    (forall y, y <> x -> nodes g' !! y = nodes g !! y) /\ g' = set_nodes g (nodes g').
Proof.
  intros Hnd [Hx Hs]. rewrite (put_prev_ok _ _ _ _ Hx). eexists. split; [done|]. cbn [nodes set_nodes].
  split; [|split; [intros y Hy; by apply lookup_insert_ne|done]].
  apply list.NoDup_cons in Hnd as [Hni _]. split; [by rewrite lookup_insert_eq|]. by apply dseg_insert.
Qed.

Lemma nodup_split (es1 : list (nat * ent)) x e es2 :
  NoDup (es1 ++ (x, e) :: es2).*1 ->
  NoDup es1.*1 /\ NoDup es2.*1 /\ (x ∉ es1.*1) /\ (x ∉ es2.*1) /\ (forall y, y ∈ es1.*1 -> y ∉ es2.*1) /\
  NoDup (es1 ++ es2).*1.
Proof.
  rewrite !fmap_app, fmap_cons. simpl. intros (H1 & H2 & H3)%list.NoDup_app.
  apply list.NoDup_cons in H3 as [H3 H4]. split_and!; try done.
  - intros Hin. by eapply H2; [|left].
  - intros y Hy Hy2. by eapply H2; [|right].
  - apply list.NoDup_app. split_and!; [done| |done]. intros y Hy Hy2. by eapply H2; [|right].
Qed.

(** ** Unlinking: the neighbours of [x] are linked to each other *)
Lemma link_before g es1 x e es2 q1 p2 q :
  NoDup (es1 ++ (x, e) :: es2).*1 -> dseg (nodes g) None es1 q1 -> dseg (nodes g) p2 es2 None ->
  exists g', match last_or None es1 with
             | Some y => put_next g y q
             | None => Ret (set_list g q (tail g) (count g))
             end = Ret g' /\
    dseg (nodes g') None es1 q /\ dseg (nodes g') p2 es2 None /\ nodes g' !! x = nodes g !! x /\
    rest_eq g g' /\ head g' = (match es1 with [] => q | _ => head g end) /\
    tail g' = tail g /\ count g' = count g.
Proof.
  intros Hnd H1 H2. destruct (nodup_split _ _ _ _ Hnd) as (N1 & N2 & Hx1 & Hx2 & Hd & _).
  destruct es1 as [|[y ey] es1 _] using rev_ind.
  - eexists. split; [done|]. by split_and!.
  - rewrite last_or_snoc. destruct (seg_put_next g None es1 y ey q1 q N1 H1) as (g' & -> & Hs & Hf & Hg).
    assert (y ∈ (es1 ++ [(y, ey)]).*1) as Hy by (rewrite fmap_app; apply elem_of_app; right; by left).
    exists g'. split; [done|]. split; [done|]. split.
    { eapply dseg_frame; [|done]. intros z Hz. apply Hf. intros ->. by eapply Hd. }
    split; [apply Hf; by intros ->|]. rewrite Hg. by destruct es1.
Qed.

Lemma link_after g es1 x e es2 q1 p2 p :
  NoDup (es1 ++ (x, e) :: es2).*1 -> dseg (nodes g) None es1 q1 -> dseg (nodes g) p2 es2 None ->
  exists g', match first_or es2 None with
             | Some y => put_prev g y p
             | None => Ret (set_list g (head g) p (count g))
             end = Ret g' /\
    dseg (nodes g') None es1 q1 /\ dseg (nodes g') p es2 None /\ nodes g' !! x = nodes g !! x /\
    rest_eq g g' /\ head g' = head g /\ tail g' = (match es2 with [] => p | _ => tail g end) /\ count g' = count g.
Proof.
  intros Hnd H1 H2. destruct (nodup_split _ _ _ _ Hnd) as (N1 & N2 & Hx1 & Hx2 & Hd & _).
  destruct es2 as [|[y ey] es2].
  - eexists. split; [done|]. by split_and!.
  - destruct (seg_put_prev g p2 y ey es2 None p N2 H2) as (g' & HP & Hs & Hf & Hg). cbn [first_or]. rewrite HP.
    assert (y ∈ ((y, ey) :: es2).*1) as Hy by by left.
    exists g'. split; [done|]. split.
    { eapply dseg_frame; [|done]. intros z Hz. apply Hf. intros ->. by eapply Hd. }
    split; [done|]. split; [apply Hf; by intros ->|]. by rewrite Hg.
Qed.

Lemma dseg_middle ns es1 x e es2 :
  dseg ns None (es1 ++ (x, e) :: es2) None ->
  dseg ns None es1 (Some x) /\ ns !! x = Some (mk (first_or es2 None) (last_or None es1) e) /\
  dseg ns (Some x) es2 None.
Proof. intros Hs. apply dseg_app in Hs as [H1 [H2 H3]]. done. Qed.

Lemma dseg_join ns es1 es2 :
  dseg ns None es1 (first_or es2 None) -> dseg ns (last_or None es1) es2 None -> dseg ns None (es1 ++ es2) None.
Proof. intros. by apply dseg_app. Qed.

Lemma last_or_middle x pp es : es <> [] -> last_or pp es = last_or (Some x) es.
Proof. by destruct es as [|[y e] es]. Qed.

(** taking an object off the list *)
Lemma RemoveMemFile_ok g es1 x e es2 :
  repr g (es1 ++ (x, e) :: es2) ->
  exists g', RemoveMemFile g (Some x) = Ret g' /\ repr g' (es1 ++ es2) /\ rest_eq g g' /\
    exists nx pv, nodes g' !! x = Some (mk nx pv e).
Proof.
  intros (Hnd & Hs & Hh & Ht & Hc). destruct (dseg_middle _ _ _ _ _ Hs) as (H1 & Hx & H2).
  cbn [RemoveMemFile]. rewrite (node_ok _ _ _ Hx). cbn [obind Prev Next mk].
  destruct (link_before g es1 x e es2 _ _ (first_or es2 None) Hnd H1 H2)
    as (g1 & -> & S1 & S2 & X1 & R1 & Hh1 & Ht1 & Hc1).
  cbn [obind]. rewrite (node_ok g1 x _ ltac:(by rewrite X1)). cbn [obind Prev Next mk].
  destruct (link_after g1 es1 x e es2 _ _ (last_or None es1) Hnd S1 S2)
    as (g2 & -> & S3 & S4 & X2 & R2 & Hh2 & Ht2 & Hc2).
  cbn [obind]. eexists. split; [done|]. split; [|split].
  - split_and!; cbn [nodes head tail count set_list].
    + by apply nodup_split in Hnd as (_ & _ & _ & _ & _ & ?).
    + by apply dseg_join.
    + rewrite Hh2, Hh1, first_or_app, Hh. by destruct es1 as [|[y ey] es1].
    + rewrite Ht2, Ht1, Ht, !last_or_app. by destruct es2 as [|[y ey] es2].
    + rewrite Hc2, Hc1, Hc, !zlen_app, zlen_cons. lia.
  - etrans; [exact R1|exact R2].
  - cbn [nodes set_list]. rewrite X2, X1. eauto.
Qed.

(** taking the last object off *)
Lemma ClipTail_ok g es x e :
  repr g (es ++ [(x, e)]) ->
  exists g', ClipTail g = Ret (g', x) /\ repr g' es /\ rest_eq g g' /\ nodes g' !! x = nodes g !! x.
Proof.
  intros (Hnd & Hs & Hh & Ht & Hc). destruct (dseg_middle _ _ _ _ _ Hs) as (H1 & Hx & H2).
  unfold ClipTail. rewrite Ht, last_or_snoc. rewrite (node_ok _ _ _ Hx). cbn [obind Prev Next mk].
  destruct (link_before g es x e [] _ (Some x) None Hnd H1 H2)
    as (g1 & HL & S1 & S2 & X1 & R1 & Hh1 & Ht1 & Hc1).
  rewrite Ht, last_or_snoc in HL. rewrite HL. cbn [obind].
  eexists. split; [done|]. split; [|split; [exact R1|done]].
  split_and!; cbn [nodes head tail count set_list]; try done.
  - by apply nodup_split in Hnd as (? & _).
  - rewrite Hh1, Hh, first_or_app. by destruct es as [|[y ey] es].
  - rewrite Hc1, Hc, zlen_app. change (zlen [(x, e)]) with 1. lia.
Qed.

(** an empty list has no tail to clip: a null pointer is followed *)
Lemma ClipTail_empty g : repr g [] -> ClipTail g = Fault.
Proof. intros (_ & _ & _ & Ht & _). unfold ClipTail. by rewrite Ht. Qed.

(** ** Linking at the front

    the three assignments that put [x] before the objects [es] *)
Lemma push_front g x n es p :
  nodes g !! x = Some n -> x ∉ es.*1 -> NoDup es.*1 -> dseg (nodes g) p es None -> head g = first_or es None ->
  exists g', (forall B (k : MemFileState -> outcome B),
      (let! g := put_prev g x None in
       let! g := put_next g x (head g) in
       let! g := if_ptr (head g) (fun h => put_prev g h (Some x)) g in k g) = k g') /\
    dseg (nodes g') None ((x, ent_of n) :: es) None /\ rest_eq g g' /\
    head g' = head g /\ tail g' = tail g /\ count g' = count g.
Proof.
  intros Hx Hni Hnd Hs Hh. rewrite (put_prev_ok _ _ _ _ Hx). cbn [obind].
  rewrite (put_next_ok _ x (mk (Next n) None (ent_of n))) by (cbn; apply lookup_insert_eq). cbn [obind].
  cbn [Prev mk nodes set_nodes head]. rewrite insert_insert_eq.
  rewrite Hh.
  destruct es as [|[h eh] es].
  - eexists. split; [done|]. split; [|by split_and!].
    split; [|done]. cbn [nodes set_nodes]. by rewrite lookup_insert_eq.
  - cbn [first_or if_ptr].
    match goal with |- context [put_prev ?g1 h _] =>
      destruct (seg_put_prev g1 p h eh es None (Some x) Hnd
        ltac:(cbn [nodes set_nodes]; by apply dseg_insert)) as (g' & HP & Hs2 & Hf & Hg) end.
    exists g'. split; [intros B k; by rewrite HP|]. split.
    { split; [|done]. rewrite Hf; [|by intros ->; apply Hni; left]. cbn [nodes set_nodes].
      by rewrite lookup_insert_eq. }
    by rewrite Hg.
Qed.

Lemma AddMemFile_ok g x n es :
  repr g es -> nodes g !! x = Some n -> x ∉ es.*1 ->
  exists g', AddMemFile g x = Ret g' /\ repr g' ((x, ent_of n) :: es) /\ rest_eq g g'.
Proof.
  intros (Hnd & Hs & Hh & Ht & Hc) Hx Hni.
  destruct (push_front g x n es None Hx Hni Hnd Hs Hh) as (g' & HP & Hs' & HR & Hh' & Ht' & Hc').
  unfold AddMemFile. rewrite HP. eexists. split; [done|]. split; [|exact HR].
  split_and!; cbn [nodes head tail count set_list]; try done.
  - by apply list.NoDup_cons.
  - rewrite Ht', Ht. cbn [last_or]. by destruct es as [|[y ey] es _] using rev_ind; [|rewrite !last_or_snoc].
  - rewrite Hc', Hc, zlen_cons. lia.
Qed.

Lemma last_or_in pp es : es <> [] -> exists y, last_or pp es = Some y /\ y ∈ es.*1.
Proof.
  destruct es as [|[y ey] es _] using rev_ind; [done|]. intros _. exists y. rewrite last_or_snoc.
  split; [done|]. rewrite fmap_app. apply elem_of_app. right. by left.
Qed.

Lemma first_not_last h eh es : NoDup ((h, eh) :: es).*1 -> es <> [] -> Some h <> last_or None ((h, eh) :: es).
Proof.
  intros Hnd Hne. cbn [last_or]. destruct (last_or_in (Some h) es Hne) as (y & -> & Hy). intros [= <-].
  by apply list.NoDup_cons in Hnd as [? _].
Qed.

Lemma MoveToFront_ok g es1 x e es2 :
  repr g (es1 ++ (x, e) :: es2) ->
  exists g', MoveToFront g x = Ret g' /\ repr g' ((x, e) :: es1 ++ es2) /\ rest_eq g g'.
Proof.
  intros (Hnd & Hs & Hh & Ht & Hc). destruct (nodup_split _ _ _ _ Hnd) as (N1 & N2 & Hx1 & Hx2 & Hd & N3).
  destruct es1 as [|[h eh] es1].
  { exists g. unfold MoveToFront. rewrite Hh. cbn [app first_or]. rewrite Nat.eqb_refl, orb_true_r.
    by split_and!. }
  assert (x ∉ (((h, eh) :: es1) ++ es2).*1) as Hni by (rewrite fmap_app; by intros [?|?]%elem_of_app).
  destruct (dseg_middle _ _ _ _ _ Hs) as (H1 & Hx & H2).
  unfold MoveToFront. rewrite Hh. cbn [app first_or].
  assert (bool_decide (Some h = tail g) || (x =? h)%nat = false) as ->.
  { apply orb_false_iff. split; [|apply Nat.eqb_neq; intros ->; apply Hx1; by left].
    apply bool_decide_eq_false_2. rewrite Ht. apply first_not_last with (eh := eh); [done|]. by destruct es1. }
  rewrite (node_ok _ _ _ Hx). cbn [obind Prev Next mk].
  destruct (link_before g ((h, eh) :: es1) x e es2 _ _ (first_or es2 None) Hnd H1 H2)
    as (g1 & HL & S1 & S2 & X1 & R1 & Hh1 & Ht1 & Hc1).
  destruct (last_or_in None ((h, eh) :: es1)) as (y & Hy & _); [done|].
  rewrite Hy in *. cbn [if_ptr]. rewrite HL. cbn [obind].
  rewrite (node_ok g1 x _ ltac:(by rewrite X1)). cbn [obind Prev Next mk].
  destruct (link_after g1 ((h, eh) :: es1) x e es2 _ _ (Some y) Hnd S1 S2)
    as (g2 & -> & S3 & S4 & X2 & R2 & Hh2 & Ht2 & Hc2). cbn [obind].
  destruct (push_front g2 x (mk (first_or es2 None) (Some y) e) (((h, eh) :: es1) ++ es2) None)
    as (g3 & HP & S5 & R3 & Hh3 & Ht3 & Hc3).
  - by rewrite X2, X1.
  - exact Hni.
  - done.
  - apply dseg_join; [done|]. by rewrite Hy.
  - by rewrite Hh2, Hh1, Hh.
  - rewrite HP. eexists. split; [done|]. split; [|by etrans; [exact R1|etrans; [exact R2|exact R3]]].
    change (ent_of (mk _ _ e)) with (mkEnt (e_handle e) (e_pos e) (e_buf e)) in S5.
    split_and!; cbn [nodes head tail count set_list]; try done.
    + apply list.NoDup_cons. split; [exact Hni|done].
    + rewrite Ht3, Ht2, Ht1, Ht. cbn [last_or]. rewrite !last_or_app. cbn [last_or].
      destruct es2 as [|[z ez] es2]; [|done]. cbn [last_or] in *. by rewrite <- Hy.
    + rewrite Hc3, Hc2, Hc1, Hc. unfold zlen. cbn [length app]. rewrite !length_app. cbn [length]. lia.
Qed.

(** ** Searching *)

(** the first entry that satisfies [p], with what is before and after it *)
Lemma walk_ok g es pp (match_ : MemFileData_t -> outcome bool) (p : ent -> bool) fuel :
  dseg (nodes g) pp es None -> (length es <= fuel)%nat ->
  (forall x nx pv e, (x, e) ∈ es -> match_ (mk nx pv e) = Ret (p e)) ->
  match walk fuel g match_ (first_or es None) with
  | Ret (Some x) => exists es1 e es2, es = es1 ++ (x, e) :: es2 /\ p e = true /\ Forall (fun y => p (snd y) = false) es1
  | Ret None => Forall (fun y => p (snd y) = false) es
  | _ => False
  end.
Proof.
  revert pp fuel. induction es as [|[x e] es IH]; intros pp fuel Hs Hf Hm; [by destruct fuel; simpl|].
  destruct fuel as [|fuel]; [simpl in Hf; lia|]. destruct Hs as [Hx Hs].
  cbn [walk first_or]. rewrite (node_ok _ _ _ Hx). cbn [obind].
  rewrite (Hm x _ _ e) by by left. cbn [obind]. destruct (p e) eqn:Hp.
  - by exists [], e, es.
  - specialize (IH (Some x) fuel Hs). cbn [Next mk]. simpl in Hf.
    assert (forall y nx pv e', (y, e') ∈ es -> match_ (mk nx pv e') = Ret (p e')) as Hm'.
    { intros y nx pv e' Hin. apply (Hm y). by right. }
    specialize (IH ltac:(lia) Hm'). destruct (walk _ _ _ _) as [[y|]| |]; try done.
    + destruct IH as (es1 & e' & es2 & -> & Hp' & Hall). exists ((x, e) :: es1), e', es2. by split_and!; [..|constructor].
    + by constructor.
Qed.

End MemCacheList.
