(* ===== verification/MemCacheSpec.v ===== *)
(** * The memory file cache: correctness

    The cache keeps a count of the users of every buffer and the sum of their
    sizes.  Seen through the file calls it is transparent: a handle reads,
    seeks and closes like the real file, whether it is cached or not, and
    taking files out of the cache does not show, as long as nothing has to
    make room. *)
From stdpp Require Import gmap.
From S2P Require Import Prelude MemCache MemCacheList.
Import MemCache MemCacheList.

(** The files of the server: [rfile f h] is the contents and the position *)
Class ServerLaws (F : Type) `{Server F} := {
  rfile : F -> Z -> option (list Z * nat);
  srv_read_ok : forall f h c p n,
    rfile f h = Some (c, p) -> 0 <= n ->
    exists f', srv_read f h n = (f', Some (take (Z.to_nat n) (drop p c))) /\
      rfile f' h = Some (c, p + length (take (Z.to_nat n) (drop p c)))%nat /\
      forall h', h' <> h -> rfile f' h' = rfile f h';
  srv_seek_ok : forall f h c p off method,
    rfile f h = Some (c, p) -> 0 <= method <= 2 ->
    let t := (if method =? 0 then off else if method =? 1 then Z.of_nat p + off else zlen c + off) in
    if t <? 0 then srv_seek f h off method = (f, None)
    else exists f', srv_seek f h off method = (f', Some t) /\ rfile f' h = Some (c, Z.to_nat t) /\
      forall h', h' <> h -> rfile f' h' = rfile f h';
  srv_size_ok : forall f h c p, rfile f h = Some (c, p) -> srv_size f h = Some (zlen c);
  srv_close_ok : forall f h,
    rfile (fst (srv_close f h)) h = None /\
    forall h', h' <> h -> rfile (fst (srv_close f h)) h' = rfile f h'
}.

Module MemCacheSpec.

(** ** Users and sizes *)
Definition uses (b : nat) (y : nat * ent) : bool := (e_buf (snd y) =? b)%nat.
Fixpoint users (es : list (nat * ent)) (b : nat) : Z :=
  match es with [] => 0 | y :: es => (if uses b y then 1 else 0) + users es b end.
Definition total (bs : gmap nat FileBuffer_t) : Z := map_fold (fun _ x acc => fileSize x + acc) 0 bs.

Lemma users_app es1 es2 b : users (es1 ++ es2) b = users es1 b + users es2 b.
Proof. induction es1 as [|y es1 IH]; simpl; [done|]. rewrite IH. lia. Qed.
Lemma users_nonneg es b : 0 <= users es b.
Proof. induction es as [|y es IH]; simpl; [done|]. destruct (uses b y); lia. Qed.
Lemma users_in es x e : (x, e) ∈ es -> 1 <= users es (e_buf e).
Proof.
  induction es as [|y es IH]; [by intros ?%elem_of_nil|]. intros [<-|Hin]%elem_of_cons; simpl.
  - unfold uses. simpl. rewrite Nat.eqb_refl. pose proof (users_nonneg es (e_buf e)). lia.
  - specialize (IH Hin). destruct (uses _ _); lia.
Qed.

Lemma total_insert bs b x : bs !! b = None -> total (<[b := x]> bs) = fileSize x + total bs.
Proof. intros Hb. unfold total. rewrite map_fold_insert_L; [done| |done]. intros. lia. Qed.
Lemma total_delete bs b x : bs !! b = Some x -> total bs = fileSize x + total (delete b bs).
Proof.
  intros Hb. rewrite <- (insert_delete_id bs b x Hb) at 1. apply total_insert, lookup_delete_eq.
Qed.
Lemma total_update bs b x x' :
  bs !! b = Some x -> fileSize x' = fileSize x -> total (<[b := x']> bs) = total bs.
Proof.
  intros Hb Hs. rewrite (total_delete bs b x Hb), <- Hs, <- insert_delete_eq.
  apply total_insert, lookup_delete_eq.
Qed.

(** ** The invariant of the cache *)
Definition buf_ok (es : list (nat * ent)) (b : nat) (x : FileBuffer_t) : Prop :=
  refCount x = users es b /\ 1 <= refCount x /\ zlen (buffer x) = fileSize x /\ fileSize x < 2 ^ 32.

Definition wf (g : MemFileState) (es : list (nat * ent)) : Prop :=
  repr g es /\ NoDup (e_handle <$> es.*2) /\
  (forall b x, bufs g !! b = Some x -> buf_ok es b x) /\
  (forall x e, (x, e) ∈ es -> is_Some (bufs g !! e_buf e) /\ 0 <= e_pos e < 2 ^ 62) /\
  totalCacheSize g = total (bufs g).

(** the entry of a handle *)
Fixpoint cached (es : list (nat * ent)) (h : Z) : option ent :=
  match es with
  | [] => None
  | (_, e) :: es => if e_handle e =? h then Some e else cached es h
  end.

Lemma cached_none es h : Forall (fun y => (e_handle (snd y) =? h) = false) es -> cached es h = None.
Proof. induction 1 as [|[x e] es Hx _ IH]; [done|]. simpl in *. by rewrite Hx. Qed.
Lemma cached_split es1 x e es2 h :
  Forall (fun y => (e_handle (snd y) =? h) = false) es1 -> e_handle e = h ->
  cached (es1 ++ (x, e) :: es2) h = Some e.
Proof.
  intros Hf <-. induction Hf as [|[y e'] es Hy _ IH]; simpl in *; [by rewrite Z.eqb_refl|]. by rewrite Hy.
Qed.
Lemma cached_skip es1 x e es2 h :
  e_handle e <> h -> cached (es1 ++ (x, e) :: es2) h = cached (es1 ++ es2) h.
Proof.
  intros Hne. induction es1 as [|[y e'] es IH]; simpl; [by destruct (Z.eqb_spec (e_handle e) h)|].
  by rewrite IH.
Qed.
Lemma cached_Some es h e : cached es h = Some e -> e_handle e = h /\ exists x, (x, e) ∈ es.
Proof.
  induction es as [|[y e'] es IH]; [done|]. simpl. destruct (Z.eqb_spec (e_handle e') h) as [E|E].
  - intros [= ->]. split; [done|]. exists y. by left.
  - intros (? & x & ?)%IH. split; [done|]. exists x. by right.
Qed.

(** ** Searches *)
Lemma search_ok g es match_ (p : ent -> bool) rem :
  repr g es ->
  (forall x nx pv e, (x, e) ∈ es -> match_ (mk nx pv e) = Ret (p e)) ->
  (Forall (fun y => p (snd y) = false) es /\ search_list g match_ rem = Ret (g, None)) \/
  (exists es1 x e es2 g', es = es1 ++ (x, e) :: es2 /\ p e = true /\
     Forall (fun y => p (snd y) = false) es1 /\ search_list g match_ rem = Ret (g', Some x) /\ rest_eq g g' /\
     (exists nx pv, nodes g' !! x = Some (mk nx pv e)) /\
     if rem then repr g' (es1 ++ es2) else g' = g).
Proof.
  intros Hr Hm. destruct (id Hr) as (Hnd & Hs & Hh & _). unfold search_list.
  pose proof (walk_ok g es None match_ p (walk_fuel g) Hs) as HW. rewrite <- Hh in HW.
  specialize (HW ltac:(unfold walk_fuel; pose proof (repr_fuel g es Hr); lia) Hm).
  destruct (walk _ _ _ _) as [[x|]| |]; try done; cbn [obind]; [|by left].
  destruct HW as (es1 & e & es2 & -> & Hp & Hf). right. exists es1, x, e, es2. destruct rem.
  - destruct (RemoveMemFile_ok g es1 x e es2 Hr) as (g' & -> & Hr' & HR & Hx). exists g'. by split_and!.
  - exists g. destruct (dseg_middle _ _ _ _ _ Hs) as (_ & Hx & _). split_and!; try done. by eauto.
Qed.

Lemma GetMemFile_ok g es h rem :
  repr g es ->
  (cached es h = None /\ GetMemFile g h rem = Ret (g, None)) \/
  (exists es1 x e es2 g', es = es1 ++ (x, e) :: es2 /\ e_handle e = h /\ cached es h = Some e /\
     GetMemFile g h rem = Ret (g', Some x) /\ rest_eq g g' /\
     (exists nx pv, nodes g' !! x = Some (mk nx pv e)) /\
     if rem then repr g' (es1 ++ es2) else g' = g).
Proof.
  intros Hr. destruct (search_ok g es (fun n => Ret (Handle n =? h)) (fun e => e_handle e =? h) rem Hr)
    as [(Hf & HS)|(es1 & x & e & es2 & g' & -> & Hp & Hf & HS & HR & HX & HD)]; [done|left|right].
  - split; [by apply cached_none|done].
  - apply Z.eqb_eq in Hp. exists es1, x, e, es2, g'. split; [done|]. split; [done|]. split; [by apply cached_split|]. done.
Qed.

(** ** Changes of an entry *)
Lemma repr_put_pos g es1 x e es2 v :
  repr g (es1 ++ (x, e) :: es2) ->
  exists g', put_pos g x v = Ret g' /\ repr g' (es1 ++ (x, mkEnt (e_handle e) v (e_buf e)) :: es2) /\ rest_eq g g'.
Proof.
  intros (Hnd & Hs & Hh & Ht & Hc). destruct (nodup_split _ _ _ _ Hnd) as (_ & _ & Hx1 & Hx2 & _).
  destruct (dseg_middle _ _ _ _ _ Hs) as (H1 & Hx & H2).
  rewrite (put_pos_ok _ _ _ _ _ _ Hx). eexists. split; [done|]. split; [|done].
  split_and!; cbn [nodes set_nodes head tail count].
  - rewrite fmap_app, fmap_cons in *. done.
  - apply dseg_app. split; [by apply dseg_insert|]. split; [by rewrite lookup_insert_eq|by apply dseg_insert].
  - rewrite Hh, !first_or_app. done.
  - rewrite Ht, !last_or_app. done.
  - rewrite Hc, !zlen_app, !zlen_cons. done.
Qed.

Lemma users_same es1 x e x' e' es2 b :
  e_buf e' = e_buf e -> users (es1 ++ (x', e') :: es2) b = users (es1 ++ (x, e) :: es2) b.
Proof. intros He. rewrite !users_app. simpl. unfold uses. simpl. by rewrite He. Qed.
Lemma users_front es1 y es2 b : users (y :: es1 ++ es2) b = users (es1 ++ y :: es2) b.
Proof. simpl. rewrite !users_app. simpl. lia. Qed.

(** an entry with another position *)
Lemma wf_put_pos g es1 x e es2 v g' :
  wf g (es1 ++ (x, e) :: es2) -> 0 <= v < 2 ^ 62 -> rest_eq g g' ->
  repr g' (es1 ++ (x, mkEnt (e_handle e) v (e_buf e)) :: es2) ->
  wf g' (es1 ++ (x, mkEnt (e_handle e) v (e_buf e)) :: es2).
Proof.
  intros (Hr & Hnd & Hb & He & Ht) Hv (_ & _ & HT & _ & _ & _ & _ & HB) Hr'. split_and!; [done|..].
  - by rewrite !fmap_app, !fmap_cons in *.
  - intros b y Hy. rewrite HB in Hy. unfold buf_ok. rewrite (users_same es1 x e) by done. by apply Hb.
  - intros y e' Hin. rewrite HB. apply elem_of_app in Hin as [Hin|Hin];
      [apply (He y); apply elem_of_app; by left|].
    apply elem_of_cons in Hin as [[= -> ->]|Hin]; [|apply (He y); apply elem_of_app; right; by right].
    cbn [e_buf e_pos]. split; [|done]. apply (He x). apply elem_of_app. right. by left.
  - by rewrite HT, HB.
Qed.

(** an entry moved to the front *)
Lemma wf_front g es1 y es2 g' :
  wf g (es1 ++ y :: es2) -> rest_eq g g' -> repr g' (y :: es1 ++ es2) -> wf g' (y :: es1 ++ es2).
Proof.
  intros (Hr & Hnd & Hb & He & Ht) (_ & _ & HT & _ & _ & _ & _ & HB) Hr'. split_and!; [done|..].
  - eapply NoDup_Permutation_proper; [|exact Hnd]. do 2 apply fmap_Permutation. by rewrite Permutation_middle.
  - intros b z Hz. rewrite HB in Hz. unfold buf_ok. rewrite users_front. by apply Hb.
  - intros z e Hin. rewrite HB. apply (He z). by rewrite <- Permutation_middle.
  - by rewrite HT, HB.
Qed.

(** ** The lock *)
Lemma leave_enter g : LeaveCriticalSection (EnterCriticalSection g) = g.
Proof. unfold LeaveCriticalSection, EnterCriticalSection, set_cs. simpl. destruct g. f_equal. simpl. lia. Qed.

(** the lock, the options and the buffers are as they were *)
Definition kept (g g' : MemFileState) : Prop :=
  cs g' = cs g /\ disabled g' = disabled g /\ bufs g' = bufs g /\ cacheLimit g' = cacheLimit g /\
  maxSize g' = maxSize g /\ deniedList g' = deniedList g.
Lemma kept_locked g g' : rest_eq (EnterCriticalSection g) g' -> kept g (LeaveCriticalSection g').
Proof.
  intros (Hc & _ & _ & Hl & Hm & Hd & Hn & Hb). unfold kept. simpl in *. rewrite Hc. split_and!; try done. lia.
Qed.

Lemma wf_cs g es d : wf (set_cs g d) es <-> wf g es.
Proof. done. Qed.
Lemma wf_empty g es : wf g es -> head g = None -> es = [].
Proof. intros ((_ & _ & Hh & _) & _) Hn. rewrite Hn in Hh. by destruct es as [|[x e] es]. Qed.

(** ** Seeks and reads on a cached handle *)
Definition target (size pos distance method : Z) : Z :=
  if method =? 0 then distance else if method =? 1 then pos + distance else size + distance.

Lemma add_i64_ok a b : - 2 ^ 63 <= a + b < 2 ^ 63 -> add_i64 a b = Ret (a + b).
Proof. intros. unfold add_i64. zcases. Qed.

Lemma doSeek_ok g es1 x e es2 b d m :
  wf g (es1 ++ (x, e) :: es2) -> bufs g !! e_buf e = Some b -> - 2 ^ 62 < d < 2 ^ 62 ->
  let t := target (fileSize b) (e_pos e) d m in
  if t <? 0 then MEMFILE_doSeek g x d m = Ret (g, None)
  else exists g', MEMFILE_doSeek g x d m = Ret (g', Some t) /\ rest_eq g g' /\
    repr g' (es1 ++ (x, mkEnt (e_handle e) t (e_buf e)) :: es2).
Proof.
  intros (Hr & _ & Hb & He & _) Hbuf Hd t. destruct (id Hr) as (_ & Hs & _).
  destruct (dseg_middle _ _ _ _ _ Hs) as (_ & Hx & _).
  destruct (Hb _ _ Hbuf) as (_ & _ & Hlen & Hsz). pose proof (zlen_nonneg (buffer b)).
  destruct (He x e) as [_ Hp]; [apply elem_of_app; right; by left|].
  unfold MEMFILE_doSeek. rewrite (node_ok _ _ _ Hx). cbn [obind Buffer mk CurPos]. unfold buf. rewrite Hbuf. cbn [obind].
  assert ((if m =? FILE_BEGIN then Ret d else if m =? FILE_CURRENT then add_i64 (e_pos e) d
    else add_i64 (fileSize b) d) = Ret t) as ->.
  { unfold t, target, FILE_BEGIN, FILE_CURRENT. destruct (m =? 0); [done|].
    destruct (m =? 1); rewrite add_i64_ok by lia; done. }
  cbn [obind]. destruct (t <? 0); [done|].
  destruct (repr_put_pos g es1 x e es2 t Hr) as (g' & -> & Hr' & HR). cbn [obind]. eauto.
Qed.

Lemma copy_out_ok b (p n : Z) :
  0 <= p -> p + n <= zlen b -> copy_out b p n = Ret (take (Z.to_nat n) (drop (Z.to_nat p) b)).
Proof. intros. unfold copy_out. zcases. Qed.

Lemma doRead_ok g es1 x e es2 b n :
  wf g (es1 ++ (x, e) :: es2) -> bufs g !! e_buf e = Some b -> e_pos e <= zlen (buffer b) -> 0 <= n ->
  let out := take (Z.to_nat n) (drop (Z.to_nat (e_pos e)) (buffer b)) in
  exists g', MEMFILE_doRead g x n = Ret (g', out) /\ rest_eq g g' /\
    wf g' ((x, mkEnt (e_handle e) (e_pos e + zlen out) (e_buf e)) :: es1 ++ es2).
Proof.
  intros Hwf Hbuf Hpos Hn out. destruct (id Hwf) as (Hr & _ & Hb & He & _). destruct (id Hr) as (_ & Hs & _).
  destruct (dseg_middle _ _ _ _ _ Hs) as (_ & Hx & _).
  destruct (Hb _ _ Hbuf) as (_ & _ & Hlen & Hsz).
  destruct (He x e) as [_ Hp]; [apply elem_of_app; right; by left|].
  unfold MEMFILE_doRead. rewrite (node_ok _ _ _ Hx). cbn [obind Buffer mk CurPos]. unfold buf. rewrite Hbuf. cbn [obind].
  rewrite wrapU_small by (unfold isU; lia).
  set (k := if fileSize b - e_pos e <? n then fileSize b - e_pos e else n).
  assert (0 <= k /\ e_pos e + k <= zlen (buffer b)) as [Hk0 Hk] by (unfold k; zcases).
  assert (take (Z.to_nat k) (drop (Z.to_nat (e_pos e)) (buffer b)) = out) as Hout.
  { unfold k, out. destruct (Z.ltb_spec (fileSize b - e_pos e) n); [|done].
    rewrite !take_ge; [done|rewrite length_drop; unfold zlen in *; lia..]. }
  assert (zlen out = k) as Hzk.
  { rewrite <- Hout. unfold zlen in *. rewrite length_take, length_drop. lia. }
  rewrite copy_out_ok by lia. cbn [obind]. rewrite add_i64_ok by lia. cbn [obind]. rewrite Hout.
  destruct (repr_put_pos g es1 x e es2 (e_pos e + k) Hr) as (g1 & -> & Hr1 & HR1). cbn [obind].
  destruct (MoveToFront_ok g1 es1 x _ es2 Hr1) as (g2 & -> & Hr2 & HR2). cbn [obind]. rewrite Hzk.
  exists g2. split; [done|]. split; [by etrans|]. eapply wf_front; [|exact HR2|exact Hr2].
  eapply wf_put_pos; [exact Hwf|lia|exact HR1|exact Hr1].
Qed.

Lemma MEMFILE_ReadFile_ok g es h n :
  wf g es -> disabled g = false -> 0 <= n ->
  match cached es h with
  | None => MEMFILE_ReadFile g h n = Ret (g, None)
  | Some e => forall b, bufs g !! e_buf e = Some b -> e_pos e <= zlen (buffer b) ->
    let out := take (Z.to_nat n) (drop (Z.to_nat (e_pos e)) (buffer b)) in
    exists g' es1 x es2, es = es1 ++ (x, e) :: es2 /\ e_handle e = h /\
      MEMFILE_ReadFile g h n = Ret (g', Some out) /\ kept g g' /\
      wf g' ((x, mkEnt h (e_pos e + zlen out) (e_buf e)) :: es1 ++ es2)
  end.
Proof.
  intros Hwf Hdis Hn. unfold MEMFILE_ReadFile. rewrite Hdis, orb_false_r.
  destruct (bool_decide_reflect (head g = None)) as [Hh|Hh].
  { by rewrite (wf_empty g es Hwf Hh). }
  destruct (GetMemFile_ok (EnterCriticalSection g) es h false ltac:(apply Hwf))
    as [(Hc & ->)|(es1 & x & e & es2 & g' & -> & He & Hc & HG & _ & _ & ->)]; rewrite Hc.
  { cbn [obind]. by rewrite leave_enter. }
  intros b Hb Hp. rewrite HG. cbn [obind].
  destruct (doRead_ok (EnterCriticalSection g) es1 x e es2 b n ltac:(exact Hwf) Hb Hp Hn)
    as (g2 & -> & HR & Hwf2). cbn [obind].
  exists (LeaveCriticalSection g2), es1, x, es2. split_and!; try done; [by apply kept_locked|].
  rewrite He in Hwf2. exact Hwf2.
Qed.

Lemma MEMFILE_SetFilePointerEx_ok g es h d m :
  wf g es -> disabled g = false -> - 2 ^ 62 < d < 2 ^ 62 ->
  match cached es h with
  | None => MEMFILE_SetFilePointerEx g h d m = Ret (g, None)
  | Some e => forall b, bufs g !! e_buf e = Some b ->
    let t := target (fileSize b) (e_pos e) d m in
    if t <? 0 then MEMFILE_SetFilePointerEx g h d m = Ret (g, Some None)
    else t < 2 ^ 62 -> exists g' es1 x es2, es = es1 ++ (x, e) :: es2 /\ e_handle e = h /\
      MEMFILE_SetFilePointerEx g h d m = Ret (g', Some (Some t)) /\ kept g g' /\
      wf g' (es1 ++ (x, mkEnt h t (e_buf e)) :: es2)
  end.
Proof.
  intros Hwf Hdis Hd. unfold MEMFILE_SetFilePointerEx. rewrite Hdis, orb_false_r.
  destruct (bool_decide_reflect (head g = None)) as [Hh|Hh].
  { by rewrite (wf_empty g es Hwf Hh). }
  destruct (GetMemFile_ok (EnterCriticalSection g) es h false ltac:(apply Hwf))
    as [(Hc & ->)|(es1 & x & e & es2 & g' & -> & He & Hc & HG & _ & _ & ->)]; rewrite Hc.
  { cbn [obind]. by rewrite leave_enter. }
  intros b Hb. set (t := target (fileSize b) (e_pos e) d m). rewrite HG. cbn [obind].
  pose proof (doSeek_ok (EnterCriticalSection g) es1 x e es2 b d m ltac:(exact Hwf) Hb Hd) as HS. cbv zeta in HS.
  fold t in HS. destruct (Z.ltb_spec t 0) as [Ht|Ht].
  - rewrite HS. cbn [obind]. by rewrite leave_enter.
  - intros Ht2. destruct HS as (g2 & -> & HR & Hr2). cbn [obind].
    exists (LeaveCriticalSection g2), es1, x, es2. split_and!; try done; [by apply kept_locked|].
    rewrite <- He. eapply (wf_put_pos (EnterCriticalSection g) es1 x e es2 t g2); [exact Hwf|lia|exact HR|exact Hr2].
Qed.

(** ** Objects that leave the list *)

(** the contents of the buffers of [es] are as they were *)
Definition same_bufs (es : list (nat * ent)) (g g' : MemFileState) : Prop :=
  forall x e, (x, e) ∈ es ->
    (fun b => (filename b, fileSize b, buffer b)) <$> bufs g' !! e_buf e =
    (fun b => (filename b, fileSize b, buffer b)) <$> bufs g !! e_buf e.

(** [x] was just taken off the list of [g0] *)
Definition unlinked (g0 g : MemFileState) es1 x e es2 : Prop :=
  wf g0 (es1 ++ (x, e) :: es2) /\ rest_eq g0 g /\ repr g (es1 ++ es2) /\
  exists nx pv, nodes g !! x = Some (mk nx pv e).

Lemma uses_e b x e : uses b (x, e) = (e_buf e =? b)%nat.
Proof. done. Qed.

(** the options and the lock *)
Definition options_eq (g g' : MemFileState) : Prop :=
  cs g' = cs g /\ disabled g' = disabled g /\ cacheLimit g' = cacheLimit g /\ maxSize g' = maxSize g /\
  deniedList g' = deniedList g.
#[global] Instance options_eq_preorder : PreOrder options_eq.
Proof. split; [by intros g|]. intros a b c (?&?&?&?&?) (?&?&?&?&?). repeat split; congruence. Qed.
Lemma rest_options g g' : rest_eq g g' -> options_eq g g'.
Proof. by intros (? & _ & _ & ? & ? & ? & ? & _). Qed.

Lemma releaseBuffer_ok g0 g es1 x e es2 :
  unlinked g0 g es1 x e es2 ->
  exists g' r, MEMFILE_releaseBuffer g (Some (e_buf e)) = Ret (g', r) /\
    nodes g' = nodes g /\ repr g' (es1 ++ es2) /\ options_eq g0 g' /\
    (forall b y, bufs g' !! b = Some y -> buf_ok (es1 ++ es2) b y) /\
    same_bufs (es1 ++ es2) g0 g' /\ totalCacheSize g' = total (bufs g').
Proof.
  intros ((Hr0 & _ & Hb & He & Ht) & HR & Hr & _). destruct (id HR) as (_ & _ & HT & _ & _ & _ & _ & HB).
  destruct (He x e) as [[b Hbuf] _]; [apply elem_of_app; right; by left|].
  destruct (Hb _ _ Hbuf) as (Hrc & Hrc1 & Hlen & Hsz).
  assert (forall c, users (es1 ++ (x, e) :: es2) c = (if (e_buf e =? c)%nat then 1 else 0) + users (es1 ++ es2) c) as HU.
  { intros c. rewrite !users_app. simpl. rewrite uses_e. lia. }
  assert (forall c y, c <> e_buf e -> bufs g0 !! c = Some y -> buf_ok (es1 ++ es2) c y) as Hother.
  { intros c y Hne Hy. destruct (Hb _ _ Hy) as (E1 & E2 & E3 & E4). rewrite HU in E1.
    destruct (Nat.eqb_spec (e_buf e) c); [done|]. by split_and!. }
  unfold MEMFILE_releaseBuffer, buf. rewrite HB, Hbuf. cbn [obind refCount].
  rewrite HU, Nat.eqb_refl in Hrc. pose proof (users_nonneg (es1 ++ es2) (e_buf e)).
  destruct (Z.leb_spec (refCount b - 1) 0) as [Hz|Hz]; do 2 eexists; (split; [done|]);
    cbn [nodes set_bufs bufs totalCacheSize fileSize]; (split; [done|]); (split; [exact Hr|]);
    (split; [exact (rest_options _ _ HR)|]).
  - split_and!.
    + intros c y Hy. destruct (decide (c = e_buf e)) as [->|Hne]; [by rewrite lookup_delete_eq in Hy|].
      rewrite lookup_delete_ne in Hy by done. by apply Hother.
    + intros y e' Hin. cbn [bufs set_bufs]. rewrite lookup_delete_ne; [done|]. intros Heq.
      apply users_in in Hin. rewrite <- Heq in Hin. lia.
    + rewrite HT, Ht, (total_delete _ _ _ Hbuf). lia.
  - split_and!.
    + intros c y Hy. destruct (decide (c = e_buf e)) as [->|Hne].
      * rewrite lookup_insert_eq in Hy. injection Hy as <-. split_and!; simpl; try done; lia.
      * rewrite lookup_insert_ne in Hy by done. by apply Hother.
    + intros y e' Hin. cbn [bufs set_bufs]. destruct (decide (e_buf e' = e_buf e)) as [Heq|Hne].
      * rewrite Heq, lookup_insert_eq, Hbuf. done.
      * by rewrite lookup_insert_ne.
    + rewrite HT, Ht. symmetry. by eapply total_update.
Qed.

Lemma DeleteByData_ok g0 g es1 x e es2 :
  unlinked g0 g es1 x e es2 ->
  exists g', MEMFILE_DeleteMemFileByData g (Some x) = Ret g' /\ wf g' (es1 ++ es2) /\
    options_eq g0 g' /\ same_bufs (es1 ++ es2) g0 g'.
Proof.
  intros Hu. destruct (id Hu) as ((Hr0 & Hnd & Hb & He & _) & HR & Hr & nx & pv & Hx).
  destruct (releaseBuffer_ok _ _ _ _ _ _ Hu) as (g1 & r & HRel & Hn & Hr1 & Ho & Hb1 & Hs & Ht).
  cbn [MEMFILE_DeleteMemFileByData]. rewrite (node_ok _ _ _ Hx). cbn [obind Buffer mk]. rewrite HRel. cbn [obind].
  eexists. split; [done|]. destruct Hr0 as (Hnd0 & _). apply nodup_split in Hnd0 as (_ & _ & Hx1 & Hx2 & _).
  assert (x ∉ (es1 ++ es2).*1) as Hni by (rewrite fmap_app; by intros [?|?]%elem_of_app).
  split; [|split; [done|exact Hs]]. split_and!; cbn [bufs set_nodes totalCacheSize]; try done.
  - destruct Hr1 as (N1 & S1 & Hh1 & Ht1 & Hc1). split_and!; cbn [nodes set_nodes head tail count]; try done.
    eapply dseg_frame; [|exact S1]. intros y Hy. apply lookup_delete_ne. by intros ->.
  - rewrite !fmap_app, !fmap_cons in Hnd. rewrite !fmap_app. apply list.NoDup_app in Hnd as (N1 & N2 & N3).
    apply list.NoDup_cons in N3 as [_ N3]. apply list.NoDup_app. split_and!; [done| |done].
    intros h H1 H2. eapply N2; [done|by right].
  - intros y e' Hin. assert ((y, e') ∈ es1 ++ (x, e) :: es2) as Hin0.
    { apply elem_of_app in Hin as [?|?]; apply elem_of_app; [by left|right; by right]. }
    destruct (He y e' Hin0) as [[b Hbuf] Hp]. split; [|done]. specialize (Hs y e' Hin).
    rewrite Hbuf in Hs. destruct (bufs g1 !! e_buf e'); [by eauto|done].
Qed.

(** ** The files as the calls see them *)
Section Transparency.
Context {F : Type} `{HL : ServerLaws F}.
Implicit Types (w : world F) (es : list (nat * ent)).

(** a cached file is its buffer and the position of its entry *)
Definition view w es (h : Z) : option (list Z * nat) :=
  match cached es h with
  | Some e => (fun b => (buffer b, Z.to_nat (e_pos e))) <$> bufs (g_memFile w) !! e_buf e
  | None => rfile (srv w) h
  end.

(** the buffer of an entry has the contents of the real file *)
Definition coherent w (es : list (nat * ent)) : Prop :=
  forall x e, (x, e) ∈ es -> exists b p,
    bufs (g_memFile w) !! e_buf e = Some b /\ rfile (srv w) (e_handle e) = Some (buffer b, p).

Definition inv w es : Prop := wf (g_memFile w) es /\ disabled (g_memFile w) = false /\ coherent w es.

(** all views but the one of [h] *)
Definition views_but (h : Z) w es w' es' : Prop := forall h', h' <> h -> view w' es' h' = view w es h'.

Lemma surjective_with w : with_g w (g_memFile w) = w.
Proof. by destruct w. Qed.

Lemma view_uncached w es h : cached es h = None -> view w es h = rfile (srv w) h.
Proof. intros Hc. unfold view. by rewrite Hc. Qed.

Lemma view_cached w es h e b :
  cached es h = Some e -> bufs (g_memFile w) !! e_buf e = Some b ->
  view w es h = Some (buffer b, Z.to_nat (e_pos e)).
Proof. intros Hc Hb. unfold view. by rewrite Hc, Hb. Qed.

(** changes of entries that show only at the handle [h] *)
Lemma view_same_srv w es g' es' h :
  bufs g' = bufs (g_memFile w) ->
  (forall h', h' <> h -> cached es' h' = cached es h') -> views_but h w es (with_g w g') es'.
Proof. intros Hb Hc h' Hne. unfold view. rewrite (Hc h' Hne). simpl. by rewrite Hb. Qed.

Lemma uncached_ne es h x e : cached es h = None -> (x, e) ∈ es -> e_handle e <> h.
Proof.
  induction es as [|[y e'] es IH]; [by intros _ ?%elem_of_nil|]. simpl. intros Hc Hin.
  destruct (Z.eqb_spec (e_handle e') h); [done|]. apply elem_of_cons in Hin as [[= -> ->]|Hin]; [done|by apply IH].
Qed.

(** a request to the server about a handle that is not cached *)
Lemma inv_srv w es f' h :
  inv w es -> cached es h = None -> (forall h', h' <> h -> rfile f' h' = rfile (srv w) h') ->
  inv (mkWorld f' (g_memFile w)) es /\ views_but h w es (mkWorld f' (g_memFile w)) es.
Proof.
  intros (Hwf & Hd & Hco) Hc Hf. split.
  - split_and!; [done..|]. intros x e Hin. destruct (Hco x e Hin) as (b & p & Hb & Hr). exists b, p.
    split; [done|]. simpl. rewrite Hf; [done|]. by eapply uncached_ne.
  - intros h' Hne. unfold view. simpl. by rewrite Hf.
Qed.

(** the cached entries after a change of the position of one *)
Lemma coherent_pos w es1 x e es2 g' v es' :
  coherent w (es1 ++ (x, e) :: es2) -> bufs g' = bufs (g_memFile w) ->
  (forall y, y ∈ es' -> y ∈ es1 ++ (x, mkEnt (e_handle e) v (e_buf e)) :: es2) ->
  coherent (with_g w g') es'.
Proof.
  intros Hco Hb Hin y e' Hy. simpl. rewrite Hb. specialize (Hin _ Hy).
  apply elem_of_app in Hin as [Hin|Hin]; [apply (Hco y); apply elem_of_app; by left|].
  apply elem_of_cons in Hin as [[= -> ->]|Hin]; [|apply (Hco y); apply elem_of_app; right; by right].
  apply (Hco x e). apply elem_of_app. right. by left.
Qed.

Lemma view_entry w es h c p e :
  inv w es -> view w es h = Some (c, p) -> cached es h = Some e ->
  exists b, bufs (g_memFile w) !! e_buf e = Some b /\ buffer b = c /\ e_pos e = Z.of_nat p /\ fileSize b = zlen c.
Proof.
  intros (Hwf & _ & _) Hv Hc. unfold view in Hv. rewrite Hc in Hv.
  destruct (bufs (g_memFile w) !! e_buf e) as [b|] eqn:Hb; [|done]. simpl in Hv. injection Hv as Hbc Hp.
  destruct Hwf as (_ & _ & Hbo & He & _). destruct (cached_Some _ _ _ Hc) as [_ [x Hin]].
  destruct (He x e Hin) as [_ Hpos]. destruct (Hbo _ _ Hb) as (_ & _ & Hlen & _).
  exists b. split_and!; [done|done|lia|]. by rewrite <- Hbc.
Qed.

Lemma ReadFile_ok w es h c p n :
  inv w es -> view w es h = Some (c, p) -> (p <= length c)%nat -> 0 <= n ->
  let out := take (Z.to_nat n) (drop p c) in
  exists w' es', ReadFile w h n = Ret (w', Some out) /\ inv w' es' /\
    view w' es' h = Some (c, p + length out)%nat /\ views_but h w es w' es' /\
    options_eq (g_memFile w) (g_memFile w') /\ (forall h', h' <> h -> rfile (srv w') h' = rfile (srv w) h').
Proof.
  intros Hi Hv Hp Hn out. destruct (id Hi) as (Hwf & Hd & Hco). unfold ReadFile.
  destruct (Z.eqb_spec n 0) as [->|Hn0].
  { exists w, es. unfold out. simpl. rewrite Nat.add_0_r. by split_and!. }
  pose proof (MEMFILE_ReadFile_ok _ es h n Hwf Hd Hn) as HM. destruct (cached es h) as [e|] eqn:Hc.
  - destruct (view_entry w es h c p e Hi Hv Hc) as (b & Hb & Hbc & Hpe & _).
    destruct (HM b Hb) as (g' & es1 & x & es2 & -> & He & -> & Hk & Hwf'); [unfold zlen; rewrite Hbc; lia|].
    cbn [obind]. rewrite Hbc, Hpe, Nat2Z.id in *. fold out in Hwf'. fold out.
    destruct Hk as (Hkc & Hkd & Hkb & Hkl & Hkm & Hkn).
    eexists _, _. split; [done|]. split; [split_and!; [exact Hwf'|simpl; congruence|]|split; [|split; [|split]]].
    + eapply coherent_pos; [exact Hco|done|]. intros y Hy. rewrite He. by rewrite <- Permutation_middle.
    + unfold view. simpl. rewrite Z.eqb_refl. simpl. rewrite Hkb, Hb. simpl. rewrite Hbc. do 2 f_equal. unfold zlen. lia.
    + apply view_same_srv; [done|]. intros h' Hne. simpl. destruct (Z.eqb_spec h h'); [congruence|].
      rewrite cached_skip by congruence. done.
    + by split_and!.
    + done.
  - rewrite HM. cbn [obind]. rewrite view_uncached in Hv by done.
    destruct (srv_read_ok (srv w) h c p n Hv Hn) as (f' & -> & Hf' & Ho). fold out in Hf'. fold out.
    destruct (inv_srv w es f' h Hi Hc Ho) as [Hi' Hvb].
    exists (mkWorld f' (g_memFile w)), es. split_and!; try done. by rewrite view_uncached.
Qed.

Lemma cached_replace es1 x e e' es2 h :
  e_handle e = e_handle e' -> e_handle e <> h -> cached (es1 ++ (x, e') :: es2) h = cached (es1 ++ (x, e) :: es2) h.
Proof. intros He Hne. rewrite !cached_skip by congruence. done. Qed.

Lemma SetFilePointerEx_ok w es h c p d m :
  inv w es -> view w es h = Some (c, p) -> 0 <= m <= 2 -> - 2 ^ 62 < d < 2 ^ 62 ->
  let t := target (zlen c) (Z.of_nat p) d m in
  if t <? 0 then
    exists r, SetFilePointerEx w h d m = Ret (w, r) /\ r = (match cached es h with Some _ => Some None | None => None end)
  else t < 2 ^ 62 -> exists w' es', SetFilePointerEx w h d m = Ret (w', Some (Some t)) /\ inv w' es' /\
    view w' es' h = Some (c, Z.to_nat t) /\ views_but h w es w' es' /\
    options_eq (g_memFile w) (g_memFile w') /\ (forall h', h' <> h -> rfile (srv w') h' = rfile (srv w) h').
Proof.
  intros Hi Hv Hm Hdist. cbv zeta. destruct (id Hi) as (Hwf & Hd & Hco). unfold SetFilePointerEx, FILE_BEGIN, FILE_END.
  assert ((m <? 0) || (2 <? m) = false) as -> by zcases.
  pose proof (MEMFILE_SetFilePointerEx_ok _ es h d m Hwf Hd Hdist) as HM. destruct (cached es h) as [e|] eqn:Hc.
  - destruct (view_entry w es h c p e Hi Hv Hc) as (b & Hb & Hbc & Hpe & Hfs).
    specialize (HM b Hb). cbv zeta in HM. rewrite Hfs, Hpe in HM.
    destruct (Z.ltb_spec (target (zlen c) (Z.of_nat p) d m) 0) as [Ht|Ht].
    { rewrite HM. cbn [obind]. eexists. split; [|done]. by destruct w. }
    intros Ht2. destruct (HM Ht2) as (g' & es1 & x & es2 & -> & He & -> & Hk & Hwf'). cbn [obind].
    destruct Hk as (Hkc & Hkd & Hkb & Hkl & Hkm & Hkn).
    eexists _, _. split; [done|]. split; [split_and!; [exact Hwf'|simpl; congruence|]|split; [|split; [|split]]].
    + eapply (coherent_pos w es1 x e es2 g' (target (zlen c) (Z.of_nat p) d m)); [exact Hco|done|].
      intros y Hy. by rewrite He.
    + assert (exists z, cached (es1 ++ (x, mkEnt h z (e_buf e)) :: es2) h = Some (mkEnt h z (e_buf e)) /\
        z = target (zlen c) (Z.of_nat p) d m) as (z & Hz & ->).
      { eexists. split; [|done]. apply cached_split; [|done]. clear -Hc Hwf He.
        destruct Hwf as (_ & Hnd & _). rewrite !fmap_app in Hnd. apply list.NoDup_app in Hnd as (_ & Hnd & _).
        apply list.Forall_forall. intros [y e'] Hin. apply Z.eqb_neq. simpl. intros E.
        eapply Hnd; [|simpl; left; reflexivity]. rewrite He, <- E.
        apply list_elem_of_fmap. exists e'. split; [done|]. apply list_elem_of_fmap. by exists (y, e'). }
      unfold view. rewrite Hz. simpl. rewrite Hkb, Hb. simpl. by rewrite Hbc.
    + apply view_same_srv; [done|]. intros h' Hne. apply cached_replace; simpl; congruence.
    + by split_and!.
    + done.
  - rewrite HM. cbn [obind]. rewrite view_uncached in Hv by done.
    pose proof (srv_seek_ok (srv w) h c p d m Hv Hm) as HS. cbv zeta in HS.
    change (if m =? 0 then d else if m =? 1 then Z.of_nat p + d else zlen c + d)
      with (target (zlen c) (Z.of_nat p) d m) in HS.
    destruct (Z.ltb_spec (target (zlen c) (Z.of_nat p) d m) 0) as [Ht|Ht].
    { rewrite HS. eexists. split; [|done]. by destruct w. }
    intros _. destruct HS as (f' & -> & Hf' & Ho). destruct (inv_srv w es f' h Hi Hc Ho) as [Hi' Hvb].
    exists (mkWorld f' (g_memFile w)), es. split_and!; try done. by rewrite view_uncached.
Qed.

(** ** Leaving the cache *)

(** an object off the list, its file still seen through the old state [g0] *)
Definition leaving w g0 es1 x e es2 : Prop :=
  unlinked g0 (g_memFile w) es1 x e es2 /\ disabled g0 = false /\ coherent (mkWorld (srv w) g0) (es1 ++ (x, e) :: es2).

Lemma handles_distinct g es1 x e es2 y e' :
  wf g (es1 ++ (x, e) :: es2) -> (y, e') ∈ es1 ++ es2 -> e_handle e' <> e_handle e.
Proof.
  intros (_ & Hnd & _) Hin E. rewrite !fmap_app in Hnd. apply list.NoDup_app in Hnd as (_ & N1 & N2).
  simpl in N2. apply list.NoDup_cons in N2 as [N2 _].
  assert (forall l, (y, e') ∈ l -> e_handle e' ∈ e_handle <$> l.*2) as Hl.
  { intros l Hl. apply list_elem_of_fmap. exists e'. split; [done|]. apply list_elem_of_fmap. by exists (y, e'). }
  apply elem_of_app in Hin as [Hin|Hin].
  - eapply N1; [by apply Hl|]. rewrite E. simpl. left.
  - apply N2. rewrite <- E. by apply Hl.
Qed.

Lemma cached_rest g es1 x e es2 : wf g (es1 ++ (x, e) :: es2) -> cached (es1 ++ es2) (e_handle e) = None.
Proof.
  intros Hwf. apply cached_none, list.Forall_forall. intros [y e'] Hin. apply Z.eqb_neq. simpl.
  by eapply handles_distinct.
Qed.

(** the object is synchronised and freed: no view changes *)
Lemma sync_delete w g0 es1 x e es2 :
  leaving w g0 es1 x e es2 ->
  exists w' g', MEMFILE_DoPointerSync w x = Ret (w', true) /\
    MEMFILE_DeleteMemFileByData (g_memFile w') (Some x) = Ret g' /\
    inv (with_g w' g') (es1 ++ es2) /\ options_eq g0 g' /\ same_bufs (es1 ++ es2) g0 g' /\
    forall h, view (with_g w' g') (es1 ++ es2) h = view (mkWorld (srv w) g0) (es1 ++ (x, e) :: es2) h.
Proof.
  intros (Hu & Hd & Hco). destruct (id Hu) as (Hwf & HR & Hr & nx & pv & Hx).
  destruct (Hco x e) as (b & p0 & Hb & Hf); [apply elem_of_app; right; by left|]. simpl in Hb, Hf.
  destruct (id Hwf) as (_ & _ & _ & He & _). destruct (He x e) as [_ Hpos]; [apply elem_of_app; right; by left|].
  unfold MEMFILE_DoPointerSync. rewrite (node_ok _ _ _ Hx). cbn [obind Handle CurPos mk].
  pose proof (srv_seek_ok (srv w) (e_handle e) (buffer b) p0 (e_pos e) FILE_BEGIN Hf ltac:(done)) as HS.
  cbn [Z.eqb FILE_BEGIN] in HS. cbv zeta in HS. destruct (Z.ltb_spec (e_pos e) 0); [lia|].
  destruct HS as (f' & -> & Hf' & Ho).
  rewrite (put_pos_ok _ _ _ _ _ (e_pos e) Hx). cbn [obind].
  set (g1 := set_nodes _ _). assert (unlinked g0 g1 es1 x e es2) as Hu1.
  { destruct Hwf as ((Hnd0 & _) & _). apply nodup_split in Hnd0 as (_ & _ & Hx1 & Hx2 & _).
    split_and!; [apply Hu|exact HR| |].
    - destruct Hr as (N1 & S1 & Hh1 & Ht1 & Hc1). split_and!; try done. unfold g1. cbn [nodes set_nodes].
      apply dseg_insert; [|done]. rewrite fmap_app. by intros [?|?]%elem_of_app.
    - unfold g1. cbn [nodes set_nodes]. rewrite lookup_insert_eq. eauto. }
  destruct (DeleteByData_ok g0 g1 es1 x e es2 Hu1) as (g' & HD & Hwf' & Hopt & Hsb).
  exists (mkWorld f' g1), g'. split; [done|]. split; [exact HD|].
  assert (forall y e', (y, e') ∈ es1 ++ es2 -> (y, e') ∈ es1 ++ (x, e) :: es2) as Hsub.
  { intros y e' [?|?]%elem_of_app; apply elem_of_app; [by left|right; by right]. }
  split; [|split; [done|split; [done|]]].
  - split_and!; [done|destruct Hopt as (_ & Ho2 & _); simpl; congruence|]. intros y e' Hin. simpl.
    destruct (Hco y e' (Hsub _ _ Hin)) as (b' & p' & Hb' & Hp'). simpl in Hb', Hp'.
    specialize (Hsb y e' Hin). rewrite Hb' in Hsb. destruct (bufs g' !! e_buf e') as [b''|] eqn:Hb''; [|done].
    simpl in Hsb. injection Hsb as _ _ Hbb. exists b'', p'. split; [done|]. rewrite Ho, Hbb; [done|].
    by eapply handles_distinct.
  - intros h. destruct (decide (e_handle e = h)) as [<-|Hne].
    + rewrite view_uncached by by eapply cached_rest. simpl. rewrite Hf'.
      unfold view. rewrite (cached_split es1 x e es2 (e_handle e)); [|
        apply list.Forall_forall; intros [y e'] Hin; apply Z.eqb_neq; simpl;
          eapply handles_distinct; [exact Hwf|apply elem_of_app; by left]|done].
      simpl. by rewrite Hb.
    + unfold view. rewrite cached_skip by done. simpl.
      destruct (cached (es1 ++ es2) h) as [e'|] eqn:Hc; [|by rewrite Ho].
      destruct (cached_Some _ _ _ Hc) as [_ [y Hin]]. specialize (Hsb y e' Hin).
      destruct (bufs g' !! e_buf e'), (bufs g0 !! e_buf e'); simpl in *; congruence.
Qed.

Lemma unlinked_intro g es1 x e es2 g' :
  wf g (es1 ++ (x, e) :: es2) -> rest_eq g g' -> (exists nx pv, nodes g' !! x = Some (mk nx pv e)) ->
  repr g' (es1 ++ es2) -> unlinked g g' es1 x e es2.
Proof. intros. by split_and!. Qed.

Lemma MEMFILE_DeleteMemFile_ok g es h :
  wf g es -> disabled g = false ->
  exists g' es', MEMFILE_DeleteMemFile g h = Ret g' /\ wf g' es' /\ options_eq g g' /\ same_bufs es' g g' /\
    (forall y, y ∈ es' -> y ∈ es) /\ cached es' h = None /\
    (forall h', h' <> h -> cached es' h' = cached es h').
Proof.
  intros Hwf Hdis. unfold MEMFILE_DeleteMemFile. rewrite Hdis, orb_false_r.
  destruct (bool_decide_reflect (head g = None)) as [Hh|Hh].
  { assert (es = []) as -> by by eapply wf_empty. exists g, []. split_and!; try done. }
  destruct (GetMemFile_ok (EnterCriticalSection g) es h true ltac:(apply Hwf))
    as [(Hc & ->)|(es1 & x & e & es2 & g' & -> & He & Hc & -> & HR & Hx & Hr')]; cbn [obind].
  { cbn [MEMFILE_DeleteMemFileByData obind]. rewrite leave_enter. exists g, es. by split_and!. }
  destruct (DeleteByData_ok (EnterCriticalSection g) g' es1 x e es2) as (g2 & -> & Hwf2 & Ho & Hs);
    [by apply unlinked_intro|]. cbn [obind].
  exists (LeaveCriticalSection g2), (es1 ++ es2). split; [done|]. split; [exact Hwf2|].
  split; [|split; [exact Hs|split; [|split]]].
  - destruct Ho as (Hcs & Ho2). split; [simpl in *; lia|exact Ho2].
  - intros y [?|?]%elem_of_app; apply elem_of_app; [by left|right; by right].
  - rewrite <- He. by eapply cached_rest.
  - intros h' Hne. rewrite cached_skip; [done|congruence].
Qed.

Lemma CloseHandle_ok w es h :
  inv w es ->
  exists w' es' ok, CloseHandle w h = Ret (w', ok) /\ inv w' es' /\ view w' es' h = None /\
    views_but h w es w' es' /\ options_eq (g_memFile w) (g_memFile w').
Proof.
  intros (Hwf & Hd & Hco). unfold CloseHandle.
  destruct (MEMFILE_DeleteMemFile_ok _ es h Hwf Hd) as (g' & es' & -> & Hwf' & Ho & Hs & Hsub & Hc & Hcs). cbn [obind].
  destruct (srv_close_ok (srv w) h) as [HC1 HC2]. destruct (srv_close (srv w) h) as [f' ok]. simpl in HC1, HC2.
  exists (mkWorld f' g'), es', ok. split; [done|]. split; [split_and!|split; [|split]].
  - done.
  - destruct Ho as (_ & Ho & _). simpl. congruence.
  - intros x e Hin. destruct (Hco x e (Hsub _ Hin)) as (b & p & Hb & Hp). specialize (Hs x e Hin).
    rewrite Hb in Hs. simpl. destruct (bufs g' !! e_buf e) as [b'|]; [|done]. simpl in Hs. injection Hs as _ _ Hbb.
    exists b', p. split; [done|]. rewrite HC2, Hbb; [done|]. by eapply uncached_ne.
  - by rewrite view_uncached.
  - intros h' Hne. unfold view. rewrite (Hcs h' Hne). simpl. destruct (cached es h') as [e|] eqn:He; [|by rewrite HC2].
    rewrite <- Hcs in He by done. destruct (cached_Some _ _ _ He) as [_ [x Hin]]. specialize (Hs x e Hin).
    destruct (bufs g' !! e_buf e), (bufs (g_memFile w) !! e_buf e); simpl in *; congruence.
  - done.
Qed.

(** ** Clearing the cache of a file *)
Definition named (g : MemFileState) (name : list Z) (e : ent) : bool :=
  match bufs g !! e_buf e with Some b => same_nocase name (filename b) | None => false end.
(** the entries of other files *)
Definition unnamed (g : MemFileState) (name : list Z) (es : list (nat * ent)) : list (nat * ent) :=
  List.filter (fun y => negb (named g name (snd y))) es.

Lemma named_same es g g' name x e : same_bufs es g g' -> (x, e) ∈ es -> named g' name e = named g name e.
Proof.
  intros Hs Hin. specialize (Hs x e Hin). unfold named.
  destruct (bufs g' !! e_buf e), (bufs g !! e_buf e); simpl in *; congruence.
Qed.
Lemma unnamed_same es g g' name : same_bufs es g g' -> unnamed g' name es = unnamed g name es.
Proof.
  intros Hs. apply filter_ext_in. intros [x e] Hin. simpl. f_equal. eapply named_same; [done|].
  by apply list_elem_of_In.
Qed.
Lemma unnamed_middle g name es1 x e es2 :
  named g name e = true -> unnamed g name (es1 ++ (x, e) :: es2) = unnamed g name (es1 ++ es2).
Proof. intros Hn. unfold unnamed. rewrite !List.filter_app. simpl. by rewrite Hn. Qed.
Lemma unnamed_all g name es : Forall (fun y => named g name (snd y) = false) es -> unnamed g name es = es.
Proof. induction 1 as [|y es Hy _ IH]; [done|]. unfold unnamed in *. simpl. rewrite Hy. simpl. by rewrite IH. Qed.

Lemma GetMemFileByName_ok g es name rem :
  wf g es ->
  (Forall (fun y => named g name (snd y) = false) es /\ GetMemFileByName g name rem = Ret (g, None)) \/
  (exists es1 x e es2 g', es = es1 ++ (x, e) :: es2 /\ named g name e = true /\
     Forall (fun y => named g name (snd y) = false) es1 /\
     GetMemFileByName g name rem = Ret (g', Some x) /\ rest_eq g g' /\
     (exists nx pv, nodes g' !! x = Some (mk nx pv e)) /\
     if rem then repr g' (es1 ++ es2) else g' = g).
Proof.
  intros (Hr & _ & _ & He & _). apply (search_ok g es _ (named g name) rem Hr).
  intros x nx pv e Hin. destruct (He x e Hin) as [[b Hb] _]. unfold buf, named. simpl. by rewrite Hb.
Qed.

Lemma clear_loop_ok fuel name : forall w g0 es1 x e es2 res,
  leaving w g0 es1 x e es2 -> (length (es1 ++ es2) < fuel)%nat ->
  exists w', clear_loop fuel w name x res = Ret (w', res) /\
    inv w' (unnamed g0 name (es1 ++ es2)) /\ options_eq g0 (g_memFile w') /\
    forall h, view w' (unnamed g0 name (es1 ++ es2)) h = view (mkWorld (srv w) g0) (es1 ++ (x, e) :: es2) h.
Proof.
  induction fuel as [|fuel IH]; intros w g0 es1 x e es2 res Hlv Hf; [lia|]. cbn [clear_loop].
  destruct (sync_delete _ _ _ _ _ _ Hlv) as (w1 & g1 & -> & HD & Hi & Ho & Hs & Hv). cbn [obind].
  rewrite HD, andb_true_r. cbn [obind]. rewrite <- (unnamed_same _ _ _ _ Hs). destruct (id Hi) as (Hwf1 & Hd1 & Hco1).
  destruct (GetMemFileByName_ok g1 (es1 ++ es2) name true Hwf1)
    as [(Hn & ->)|(es3 & y & e' & es4 & g2 & Hes & Hn & _ & -> & HR & Hx & Hr')]; cbn [obind].
  - rewrite unnamed_all by done. exists (with_g w1 g1). by split_and!.
  - rewrite Hes in *. rewrite unnamed_middle by done.
    destruct (IH (with_g w1 g2) g1 es3 y e' es4 res) as (w' & HC & Hi' & Ho' & Hv').
    + split; [by apply unlinked_intro|]. by split.
    + rewrite length_app in *. simpl in Hf. lia.
    + exists w'. split; [done|]. split; [done|]. split; [by etrans|]. intros h. rewrite Hv'. apply Hv.
Qed.

Lemma ClearCache_ok w es name :
  inv w es ->
  exists w' r, MEMFILE_ClearCache w name = Ret (w', r) /\ inv w' (unnamed (g_memFile w) name es) /\
    options_eq (g_memFile w) (g_memFile w') /\ r = existsb (fun y => named (g_memFile w) name (snd y)) es /\
    forall h, view w' (unnamed (g_memFile w) name es) h = view w es h.
Proof.
  intros (Hwf & Hd & Hco). unfold MEMFILE_ClearCache.
  destruct (GetMemFileByName_ok (g_memFile w) es name true Hwf)
    as [(Hn & ->)|(es1 & x & e & es2 & g' & -> & Hn & Hf & -> & HR & Hx & Hr')]; cbn [obind].
  - rewrite unnamed_all by done. eexists _, _. split; [done|]. rewrite (surjective_with w). split_and!; try done.
    symmetry. apply not_true_is_false. intros (y & Hin & Hy)%existsb_exists.
    rewrite Forall_forall in Hn. by rewrite Hn in Hy.
  - destruct (clear_loop_ok (walk_fuel g') name (with_g w (EnterCriticalSection g'))
      (EnterCriticalSection (g_memFile w)) es1 x e es2 true) as (w' & -> & Hi' & Ho' & Hv').
    + split; [|by split]. split_and!; try done. destruct HR as (? & ?). split; [simpl; congruence|done].
    + unfold walk_fuel. pose proof (repr_fuel _ _ Hr'). lia.
    + cbn [obind]. rewrite unnamed_middle by done. eexists _, _. split; [done|]. split; [exact Hi'|].
      split; [|split; [|exact Hv']].
      * destruct Ho' as (Hcs & Ho2). split; [simpl in *; lia|exact Ho2].
      * symmetry. apply existsb_exists. exists (x, e). split; [|done]. apply in_app_iff. right. by left.
Qed.

(** ** Entering the cache *)
Lemma MEMFILE_ReadFile_miss g es h n :
  repr g es -> cached es h = None -> MEMFILE_ReadFile g h n = Ret (g, None).
Proof.
  intros Hr Hc. unfold MEMFILE_ReadFile. destruct (_ || _); [done|].
  destruct (GetMemFile_ok (EnterCriticalSection g) es h false ltac:(exact Hr))
    as [(_ & ->)|(es1 & x & e & es2 & g' & -> & _ & Hc' & _)]; [|congruence].
  cbn [obind]. by rewrite leave_enter.
Qed.
Lemma MEMFILE_SetFilePointerEx_miss g es h d m :
  repr g es -> cached es h = None -> MEMFILE_SetFilePointerEx g h d m = Ret (g, None).
Proof.
  intros Hr Hc. unfold MEMFILE_SetFilePointerEx. destruct (_ || _); [done|].
  destruct (GetMemFile_ok (EnterCriticalSection g) es h false ltac:(exact Hr))
    as [(_ & ->)|(es1 & x & e & es2 & g' & -> & _ & Hc' & _)]; [|congruence].
  cbn [obind]. by rewrite leave_enter.
Qed.

(** one more user of the buffer [b], which has the contents [c], than entries *)
Definition acquired (g0 g : MemFileState) es (b : nat) (c : list Z) : Prop :=
  repr g es /\ options_eq g0 g /\
  (forall id x, bufs g !! id = Some x ->
     refCount x = users es id + (if (b =? id)%nat then 1 else 0) /\ 1 <= refCount x /\
     zlen (buffer x) = fileSize x /\ fileSize x < 2 ^ 32) /\
  (exists x, bufs g !! b = Some x /\ buffer x = c) /\
  same_bufs es g0 g /\ totalCacheSize g = total (bufs g).

(** the buffer of a file that is cached already has the contents [c] *)
Definition shared_ok (g : MemFileState) es (name c : list Z) : Prop :=
  forall x e b, (x, e) ∈ es -> bufs g !! e_buf e = Some b -> same_nocase name (filename b) = true -> buffer b = c.

(** the size of the cache with the file in it *)
Definition grown (g : MemFileState) es (name c : list Z) : Z :=
  totalCacheSize g + (if existsb (fun y => named g name (snd y)) es then 0 else zlen c).

Lemma users_fresh g es b : wf g es -> bufs g !! b = None -> users es b = 0.
Proof.
  intros (_ & _ & _ & He & _) Hb.
  assert (forall l, (forall x e, (x, e) ∈ l -> is_Some (bufs g !! e_buf e)) -> users l b = 0) as HA.
  { induction l as [|[x e] l IH]; intros Hl; [done|]. simpl. rewrite IH by (intros y e' Hin; apply (Hl y); by right).
    rewrite uses_e. destruct (Nat.eqb_spec (e_buf e) b) as [<-|]; [|done].
    destruct (Hl x e) as [z Hz]; [by left|congruence]. }
  apply HA. intros x e Hin. by apply (He x e).
Qed.

Lemma shared_buffer g es name c size heap :
  wf g es -> existsb (fun y => named g name (snd y)) es = true -> shared_ok g es name c ->
  exists g' b, MEMFILE_createBuffer g heap name size = Ret (g', Some b, false) /\ acquired g g' es b c /\
    totalCacheSize g' = totalCacheSize g.
Proof.
  intros Hwf Hex Hsh. unfold MEMFILE_createBuffer.
  destruct (GetMemFileByName_ok g es name false Hwf) as [(Hn & _)|(es1 & x & e & es2 & g' & Hes & Hn & _ & -> & _ & Hx & ->)].
  { apply existsb_exists in Hex as (y & Hin & Hy). rewrite Forall_forall in Hn. by rewrite Hn in Hy. }
  cbn [obind]. destruct Hx as (nx & pv & Hx). rewrite (node_ok _ _ _ Hx). cbn [obind Buffer mk].
  assert ((x, e) ∈ es) as Hin by (rewrite Hes; apply elem_of_app; right; by left).
  destruct Hwf as (Hr & _ & Hb & He & Ht). destruct (He x e Hin) as [[y Hy] _]. unfold named in Hn. rewrite Hy in Hn.
  unfold buf. rewrite Hy. cbn [obind]. destruct (Hb _ _ Hy) as (R1 & R2 & R3 & R4). pose proof (Hsh x e y Hin Hy Hn) as Hc.
  eexists _, (e_buf e). split; [done|]. split; [|done]. split_and!; cbn [bufs set_bufs totalCacheSize]; try done.
  - intros id z Hz. destruct (Nat.eqb_spec (e_buf e) id) as [<-|Hne].
    + rewrite lookup_insert_eq in Hz. injection Hz as <-. simpl. split_and!; try done; lia.
    + rewrite lookup_insert_ne in Hz by done. destruct (Hb _ _ Hz) as (? & ? & ? & ?). split_and!; try done. lia.
  - rewrite lookup_insert_eq. by eexists.
  - intros z e' Hin'. cbn [bufs set_bufs]. destruct (decide (e_buf e' = e_buf e)) as [Heq|Hne].
    + by rewrite Heq, lookup_insert_eq, Hy.
    + by rewrite lookup_insert_ne.
  - rewrite Ht. symmetry. by eapply total_update.
Qed.

Lemma fresh_buffer w es name h c :
  wf (g_memFile w) es -> existsb (fun y => named (g_memFile w) name (snd y)) es = false ->
  cached es h = None -> rfile (srv w) h = Some (c, 0%nat) -> 0 < zlen c < 2 ^ 32 ->
  exists g' b w2, MEMFILE_createBuffer (g_memFile w) true name (zlen c) = Ret (g', Some b, true) /\
    fill_buffer (with_g w g') h b = Ret (w2, true) /\ acquired (g_memFile w) (g_memFile w2) es b c /\
    totalCacheSize (g_memFile w2) = totalCacheSize (g_memFile w) + zlen c /\
    rfile (srv w2) h = Some (c, length c) /\ (forall h', h' <> h -> rfile (srv w2) h' = rfile (srv w) h').
Proof.
  intros Hwf Hex Hc Hf Hsz. set (g := g_memFile w) in *. unfold MEMFILE_createBuffer.
  destruct (GetMemFileByName_ok g es name false Hwf) as [(_ & ->)|(es1 & x & e & es2 & g' & -> & Hn & _)]; last first.
  { exfalso. rewrite existsb_app in Hex. simpl in Hex. rewrite Hn, orb_true_r in Hex. done. }
  cbn [obind]. unfold MEMFILE_allocBuffer. cbn [negb]. set (b := fresh (dom (bufs g))).
  assert (bufs g !! b = None) as Hfb by (apply not_elem_of_dom, is_fresh).
  destruct (id Hwf) as (Hr & _ & Hb & He & Ht). pose proof (users_fresh g es b Hwf Hfb) as Hu.
  match goal with |- context [Ret (?G, Some b, true)] => set (g1 := G) end.
  assert (repr g1 es) as Hr1 by exact Hr.
  assert (bufs g1 = <[b := mkBuffer 1 name (zlen c) (replicate (Z.to_nat (u32 (zlen c))) 0)]> (bufs g)) as Hb1 by done.
  destruct (srv_read_ok (srv w) h c 0 (zlen c) Hf ltac:(lia)) as (f2 & HR & Hf2 & Ho2).
  assert (take (Z.to_nat (zlen c)) (drop 0 c) = c) as Htk by (rewrite drop_0, take_ge; [done|unfold zlen; lia]).
  rewrite Htk in HR, Hf2. simpl in Hf2.
  exists g1, b. eexists. split; [done|]. unfold fill_buffer, buf. cbn [g_memFile with_g]. rewrite Hb1, lookup_insert_eq.
  cbn [obind fileSize]. rewrite wrapU_small by (unfold isU; lia). unfold ReadFile. cbn [g_memFile with_g srv].
  destruct (Z.eqb_spec (zlen c) 0); [lia|]. rewrite (MEMFILE_ReadFile_miss g1 es h (zlen c) Hr1 Hc). cbn [obind].
  rewrite HR. cbn [obind g_memFile]. rewrite Z.eqb_refl, Hb1, lookup_insert_eq. cbn [obind refCount filename fileSize].
  rewrite insert_insert_eq. split; [done|]. cbn [g_memFile with_g srv]. split; [|split_and!; [|done|done]].
  - split_and!; cbn [bufs set_bufs totalCacheSize]; try done.
    + split; [|done]. simpl. lia.
    + intros id y Hy. destruct (Nat.eqb_spec b id) as [<-|Hne].
      * rewrite lookup_insert_eq in Hy. injection Hy as <-. simpl. split_and!; try done; lia.
      * rewrite lookup_insert_ne in Hy by done. destruct (Hb _ _ Hy) as (? & ? & ? & ?). split_and!; try done. lia.
    + rewrite lookup_insert_eq. by eexists.
    + intros x e Hin. cbn [bufs set_bufs]. rewrite lookup_insert_ne; [done|]. intros Heq.
      destruct (He x e Hin) as [[y Hy] _]. rewrite <- Heq in Hy. congruence.
    + rewrite total_insert by done. simpl. rewrite Ht. lia.
  - simpl. lia.
Qed.

(** the object with its buffer is put at the front *)
Lemma enter_entry g0 g es b c h :
  wf g0 es -> acquired g0 g es b c -> cached es h = None ->
  let p := fresh (dom (nodes g)) in
  exists g', AddMemFile (set_nodes g (<[p := mkData None None h 0 b]> (nodes g))) p = Ret g' /\
    wf g' ((p, mkEnt h 0 b) :: es) /\ rest_eq g g'.
Proof.
  intros (_ & Hnd & _ & He & _) (Hr & _ & Hb & (x & Hx & _) & Hs & Ht) Hc p.
  assert (nodes g !! p = None) as Hp by (apply not_elem_of_dom, is_fresh).
  assert (p ∉ es.*1) as Hni.
  { intros Hin. apply list_elem_of_fmap in Hin as ([y e] & -> & Hin). destruct Hr as (_ & Hseg & _).
    destruct (dseg_lookup _ _ _ _ _ _ Hseg Hin) as (nx & pv & Hn). simpl in Hp. congruence. }
  set (g1 := set_nodes g _).
  assert (repr g1 es) as Hr1.
  { destruct Hr as (N & S & R). split; [done|]. split; [|exact R]. by apply dseg_insert. }
  destruct (AddMemFile_ok g1 p (mkData None None h 0 b) es Hr1 ltac:(apply lookup_insert_eq) Hni)
    as (g' & -> & Hr' & HR).
  exists g'. split; [done|]. split; [|done]. destruct HR as (_ & _ & HT & _ & _ & _ & _ & HB). simpl in HT, HB.
  split_and!; [exact Hr'| | | |by rewrite HT, HB].
  - simpl. apply list.NoDup_cons. split; [|done]. intros (e & E & ([y e'] & -> & Hin)%list_elem_of_fmap)%list_elem_of_fmap.
    simpl in E. by eapply (uncached_ne es h y e').
  - intros id y Hy. rewrite HB in Hy. destruct (Hb _ _ Hy) as (R1 & R2 & R3 & R4). split_and!; try done.
    simpl. rewrite uses_e. simpl. lia.
  - intros y e [[= -> ->]|Hin]%elem_of_cons; simpl.
    + rewrite HB. split; [by eauto|lia].
    + rewrite HB. destruct (He y e Hin) as [[z Hz] ?]. split; [|done]. specialize (Hs y e Hin).
      rewrite Hz in Hs. destruct (bufs g !! e_buf e); [by eauto|done].
Qed.

Lemma make_room_fits w y es :
  repr (g_memFile w) (y :: es) -> es = [] \/ totalCacheSize (g_memFile w) <= cacheLimit (g_memFile w) ->
  make_room w = Ret w.
Proof.
  intros (_ & _ & Hh & Ht & _) [->|Hle]; unfold make_room.
  - rewrite Hh, Ht. destruct y as [x e]. simpl. by rewrite bool_decide_true.
  - assert ((cacheLimit (g_memFile w) <? totalCacheSize (g_memFile w)) = false) as -> by zcases. by rewrite andb_false_r.
Qed.
(** the conditions under which a file is put in the cache without making room *)
Definition cacheable w es (name : list Z) (h : Z) (c : list Z) : Prop :=
  MEMFILE_isFileIgnored name = false /\ MEMFILE_isExtensionDenied (g_memFile w) name = false /\
  cached es h = None /\ rfile (srv w) h = Some (c, 0%nat) /\ 0 < zlen c <= maxSize (g_memFile w) /\
  zlen c < 2 ^ 32 /\ shared_ok (g_memFile w) es name c /\
  (es = [] \/ grown (g_memFile w) es name c <= cacheLimit (g_memFile w)).

(** the buffer is there: the rest of the call *)
Lemma buffer_ready w es name h c :
  wf (g_memFile w) es -> cached es h = None -> rfile (srv w) h = Some (c, 0%nat) -> 0 < zlen c < 2 ^ 32 ->
  shared_ok (g_memFile w) es name c ->
  exists g1 b created w2, MEMFILE_createBuffer (g_memFile w) true name (zlen c) = Ret (g1, Some b, created) /\
    (if created then fill_buffer (with_g w g1) h b else Ret (with_g w g1, true)) = Ret (w2, true) /\
    acquired (g_memFile w) (g_memFile w2) es b c /\
    totalCacheSize (g_memFile w2) = grown (g_memFile w) es name c /\
    (exists p, rfile (srv w2) h = Some (c, p)) /\ (forall h', h' <> h -> rfile (srv w2) h' = rfile (srv w) h').
Proof.
  intros Hwf Hc Hf Hsz Hsh. unfold grown.
  destruct (existsb (fun y => named (g_memFile w) name (snd y)) es) eqn:Hex.
  - destruct (shared_buffer _ es name c (zlen c) true Hwf Hex Hsh) as (g' & b & -> & HA & HT).
    exists g', b, false, (with_g w g'). split_and!; try done; [simpl; lia|by eexists].
  - destruct (fresh_buffer w es name h c Hwf Hex Hc Hf Hsz) as (g' & b & w2 & -> & HF & HA & HT & Hr & Ho).
    exists g', b, true, w2. split_and!; try done. by eexists.
Qed.

Lemma CreateMemFile_ok w es name h c :
  inv w es -> cacheable w es name h c ->
  exists w' p b, MEMFILE_CreateMemFile w true true name h = Ret (w', true) /\
    inv w' ((p, mkEnt h 0 b) :: es) /\ (forall h', view w' ((p, mkEnt h 0 b) :: es) h' = view w es h') /\
    options_eq (g_memFile w) (g_memFile w') /\ totalCacheSize (g_memFile w') = grown (g_memFile w) es name c.
Proof.
  intros (Hwf & Hd & Hco) (Hi & Hde & Hc & Hf & Hsz & Hsz2 & Hsh & Hroom).
  unfold MEMFILE_CreateMemFile. rewrite Hd, Hi, Hde, (srv_size_ok _ _ _ _ Hf).
  destruct (Z.eqb_spec (zlen c) 0); [lia|]. cbn [negb].
  assert ((maxSize (g_memFile w) <? zlen c) = false) as -> by zcases.
  set (w0 := with_g w (EnterCriticalSection (g_memFile w))).
  destruct (buffer_ready w0 es name h c ltac:(exact Hwf) Hc Hf ltac:(lia) Hsh)
    as (g1 & b & created & w2 & HB & HF & HA & HT & (p0 & Hf2) & Ho2).
  change (g_memFile w0) with (EnterCriticalSection (g_memFile w)) in *. rewrite HB. cbn [obind].
  change (with_g w0 g1) with (with_g w g1) in HF. rewrite HF. cbn [obind negb].
  unfold SetFilePointerEx. change ((FILE_BEGIN <? FILE_BEGIN) || (FILE_END <? FILE_BEGIN)) with false.
  rewrite (MEMFILE_SetFilePointerEx_miss (g_memFile w2) es h 0 FILE_BEGIN (proj1 HA) Hc). cbn [obind].
  pose proof (srv_seek_ok (srv w2) h c p0 0 FILE_BEGIN Hf2 ltac:(done)) as HS.
  cbn [Z.eqb FILE_BEGIN Z.ltb Z.compare] in HS. cbv zeta in HS. simpl in HS. destruct HS as (f3 & -> & Hf3 & Ho3).
  cbn [obind g_memFile].
  destruct (enter_entry (EnterCriticalSection (g_memFile w)) (g_memFile w2) es b c h Hwf HA Hc)
    as (g4 & -> & Hwf4 & HR). cbn [obind]. set (p := fresh _) in *.
  destruct HA as (Hr & (Ocs & Odis & Olim & Omax & Oden) & _ & (x & Hx & Hxc) & Hs & _).
  destruct (id HR) as (Rcs & _ & RT & Rlim & Rmax & Rdis & Rden & RB).
  rewrite (make_room_fits _ (p, mkEnt h 0 b) es); cbn [g_memFile with_g srv]; [|exact (proj1 Hwf4)|].
  2:{ destruct Hroom as [->|Hle]; [by left|right]. rewrite RT, HT, Rlim, Olim. exact Hle. }
  cbn [obind g_memFile with_g srv].
  eexists _, p, b. split; [done|]. split; [|split; [|split]].
  - split_and!; [exact Hwf4|simpl in *; congruence|]. intros y e [[= -> ->]|Hin]%elem_of_cons; simpl.
    + exists x, 0%nat. rewrite RB, Hf3, Hxc. done.
    + destruct (Hco y e Hin) as (b' & p' & Hb' & Hp'). specialize (Hs y e Hin). simpl in Hs. rewrite Hb' in Hs.
      rewrite RB. destruct (bufs (g_memFile w2) !! e_buf e) as [b2|]; [|done]. simpl in Hs. injection Hs as _ _ Hbb.
      assert (e_handle e <> h) by (by eapply uncached_ne). exists b2, p'. split; [done|].
      rewrite Ho3, Ho2, Hbb by done. done.
  - intros h'. unfold view. simpl. destruct (Z.eqb_spec h h') as [<-|Hne].
    + simpl. rewrite RB, Hx, Hc, Hf. simpl. by rewrite Hxc.
    + destruct (cached es h') as [e|] eqn:He; [|by rewrite Ho3, Ho2].
      destruct (cached_Some _ _ _ He) as [_ [y Hin]]. specialize (Hs y e Hin). simpl in Hs. rewrite RB.
      destruct (bufs (g_memFile w2) !! e_buf e), (bufs (g_memFile w) !! e_buf e); simpl in *; congruence.
  - split_and!; simpl in *; try congruence. lia.
  - simpl. rewrite RT, HT. done.
Qed.
End Transparency.

End MemCacheSpec.
