(* ===== verification/MemCacheSim.v ===== *)
(** * The memory file cache: refinement of plain files

    The calls with the cache in between behave like calls on files that are
    not cached.  The theorems are stated for any server that keeps its
    promises; the examples run on files in memory. *)
From stdpp Require Import gmap.
From S2P Require Import Prelude MemCache MemCacheList MemCacheSpec.
Import MemCache MemCacheList MemCacheSpec.

Module MemCacheSim.

(** ** Plain files *)
Definition files : Type := Z -> option (list Z * nat).

Inductive call :=
| CRead (h n : Z)
| CSeek (h distance method : Z)
| CClose (h : Z)
| CCache (name : list Z) (h : Z)
| CClear (name : list Z).

Inductive answer := AData (l : list Z) | APos (p : Z) | ADone.

(** what a call does to files that are not cached *)
Inductive files_step : files -> call -> answer -> files -> Prop :=
| step_read (f f' : files) h n c p :
    f h = Some (c, p) ->
    f' h = Some (c, p + length (take (Z.to_nat n) (drop p c)))%nat -> (forall h', h' <> h -> f' h' = f h') ->
    files_step f (CRead h n) (AData (take (Z.to_nat n) (drop p c))) f'
| step_seek (f f' : files) h d m c p :
    f h = Some (c, p) ->
    f' h = Some (c, Z.to_nat (target (zlen c) (Z.of_nat p) d m)) -> (forall h', h' <> h -> f' h' = f h') ->
    files_step f (CSeek h d m) (APos (target (zlen c) (Z.of_nat p) d m)) f'
| step_close (f f' : files) h :
    f' h = None -> (forall h', h' <> h -> f' h' = f h') -> files_step f (CClose h) ADone f'
| step_cache (f f' : files) name h : (forall h', f' h' = f h') -> files_step f (CCache name h) ADone f'
| step_clear (f f' : files) name : (forall h', f' h' = f h') -> files_step f (CClear name) ADone f'.

Section Simulation.
Context {F : Type} `{HL : ServerLaws F}.

(** ** The same calls with the cache *)
Definition exec (w : world F) (k : call) : outcome (world F * option answer) :=
  match k with
  | CRead h n => let! (w, r) := ReadFile w h n in Ret (w, AData <$> r)
  | CSeek h d m =>
    let! (w, r) := SetFilePointerEx w h d m in
    Ret (w, match r with Some (Some p) => Some (APos p) | _ => None end)
  | CClose h => let! (w, _) := CloseHandle w h in Ret (w, Some ADone)
  | CCache name h => let! (w, _) := MEMFILE_CreateMemFile w true true name h in Ret (w, Some ADone)
  | CClear name => let! (w, _) := MEMFILE_ClearCache w name in Ret (w, Some ADone)
  end.

(** the calls that the cache supports: reads that start inside of the file,
    seeks to a position, and files that fit in the cache *)
Definition admissible (w : world F) (es : list (nat * ent)) (k : call) : Prop :=
  match k with
  | CRead h n => exists c p, view w es h = Some (c, p) /\ (p <= length c)%nat /\ 0 <= n
  | CSeek h d m => exists c p, view w es h = Some (c, p) /\ 0 <= m <= 2 /\ - 2 ^ 62 < d < 2 ^ 62 /\
      0 <= target (zlen c) (Z.of_nat p) d m < 2 ^ 62
  | CClose h => True
  | CCache name h => exists c, cacheable w es name h c
  | CClear name => True
  end.

Lemma exec_simulates w es k :
  inv w es -> admissible w es k ->
  exists w' es' a, exec w k = Ret (w', Some a) /\ inv w' es' /\ files_step (view w es) k a (view w' es') /\
    options_eq (g_memFile w) (g_memFile w').
Proof.
  intros Hi. destruct k as [h n|h d m|h|name h|name]; simpl.
  - intros (c & p & Hv & Hp & Hn).
    destruct (ReadFile_ok w es h c p n Hi Hv Hp Hn) as (w' & es' & -> & Hi' & Hv' & Ho & Hopt & _).
    exists w', es'. eexists. split; [done|]. split; [done|]. split; [|done]. by eapply step_read.
  - intros (c & p & Hv & Hm & Hd & Ht).
    pose proof (SetFilePointerEx_ok w es h c p d m Hi Hv Hm Hd) as HS. cbv zeta in HS.
    destruct (Z.ltb_spec (target (zlen c) (Z.of_nat p) d m) 0); [lia|].
    destruct (HS ltac:(lia)) as (w' & es' & -> & Hi' & Hv' & Ho & Hopt & _).
    exists w', es'. eexists. split; [done|]. split; [done|]. split; [|done]. by eapply step_seek.
  - intros _. destruct (CloseHandle_ok w es h Hi) as (w' & es' & ok & -> & Hi' & Hv' & Ho & Hopt).
    exists w', es'. eexists. split; [done|]. split; [done|]. split; [|done]. by apply step_close.
  - intros (c & Hc). destruct (CreateMemFile_ok w es name h c Hi Hc) as (w' & p & b & -> & Hi' & Hv' & Hopt & _).
    eexists w', _, _. split; [done|]. split; [exact Hi'|]. split; [|done]. by apply step_cache.
  - intros _. destruct (ClearCache_ok w es name Hi) as (w' & r & -> & Hi' & Hopt & _ & Hv').
    eexists w', _, _. split; [done|]. split; [exact Hi'|]. split; [|done]. by apply step_clear.
Qed.

(** ** Sequences of calls *)
Fixpoint exec_all (w : world F) (ks : list call) : outcome (world F * list (option answer)) :=
  match ks with
  | [] => Ret (w, [])
  | k :: ks => let! (w, a) := exec w k in let! (w, l) := exec_all w ks in Ret (w, a :: l)
  end.
Inductive files_steps : files -> list call -> list answer -> files -> Prop :=
| steps_nil f f' : (forall h, f' h = f h) -> files_steps f [] [] f'
| steps_cons f k a f1 ks l f2 :
    files_step f k a f1 -> files_steps f1 ks l f2 -> files_steps f (k :: ks) (a :: l) f2.

(** the objects of the list, read off the links *)
Fixpoint objects_from (fuel : nat) (ns : gmap nat MemFileData_t) (p : option nat) : list (nat * ent) :=
  match fuel, p with
  | S fuel, Some x =>
    match ns !! x with Some n => (x, ent_of n) :: objects_from fuel ns (Next n) | None => [] end
  | _, _ => []
  end.
Definition objects (g : MemFileState) : list (nat * ent) := objects_from (walk_fuel g) (nodes g) (head g).

Lemma objects_from_ok ns es : forall fuel pp,
  dseg ns pp es None -> (length es <= fuel)%nat -> objects_from fuel ns (first_or es None) = es.
Proof.
  induction es as [|[x e] es IH]; intros [|fuel] pp Hs Hf; simpl in *; try done; [lia|].
  destruct Hs as [-> Hs]. cbn [Next mk]. rewrite (IH fuel (Some x) Hs) by lia. by destruct e.
Qed.
Lemma objects_ok g es : repr g es -> objects g = es.
Proof.
  intros Hr. destruct (id Hr) as (_ & Hs & Hh & _). unfold objects. rewrite Hh.
  apply (objects_from_ok _ _ _ None Hs). unfold walk_fuel. pose proof (repr_fuel g es Hr). lia.
Qed.

(** every call of the sequence is supported when its turn comes *)
Fixpoint supported (w : world F) (ks : list call) : Prop :=
  match ks with
  | [] => True
  | k :: ks =>
    admissible w (objects (g_memFile w)) k /\
    match exec w k with Ret (w', _) => supported w' ks | _ => False end
  end.

Lemma exec_all_simulates ks : forall w es,
  inv w es -> supported w ks ->
  exists w' es' l, exec_all w ks = Ret (w', Some <$> l) /\ inv w' es' /\
    files_steps (view w es) ks l (view w' es') /\ options_eq (g_memFile w) (g_memFile w').
Proof.
  induction ks as [|k ks IH]; intros w es Hi; simpl.
  { intros _. exists w, es, []. split; [done|]. split; [done|]. split; [|done]. by constructor. }
  intros [Ha Hs]. rewrite (objects_ok _ _ (proj1 (proj1 Hi))) in Ha.
  destruct (exec_simulates w es k Hi Ha) as (w1 & es1 & a & HE & Hi1 & Hst & Ho1).
  rewrite HE in *. cbn [obind]. destruct (IH w1 es1 Hi1 Hs) as (w2 & es2 & l & -> & Hi2 & Hst2 & Ho2). cbn [obind].
  exists w2, es2, (a :: l). split; [done|]. split; [done|]. split; [by econstructor|by etrans].
Qed.

End Simulation.

(** ** Files in memory *)
Definition ram : Type := gmap Z (list Z * nat).

#[global] Instance ram_server : Server ram := {
  srv_read f h n :=
    match f !! h with
    | Some (c, p) => let out := take (Z.to_nat n) (drop p c) in
                     (<[h := (c, p + length out)%nat]> f, Some out)
    | None => (f, None)
    end;
  srv_seek f h off method :=
    match f !! h with
    | Some (c, p) => let t := target (zlen c) (Z.of_nat p) off method in
                     if t <? 0 then (f, None) else (<[h := (c, Z.to_nat t)]> f, Some t)
    | None => (f, None)
    end;
  srv_size f h := match f !! h with Some (c, _) => Some (zlen c) | None => None end;
  srv_close f h := (delete h f, bool_decide (is_Some (f !! h)))
}.

#[global] Instance ram_laws : ServerLaws ram.
Proof.
  refine {| rfile := fun (f : ram) h => f !! h |}.
  - intros f h c p n Hf Hn. cbn [srv_read ram_server]. rewrite Hf. eexists. split; [done|].
    split; [apply lookup_insert_eq|]. intros h' Hne. by apply lookup_insert_ne.
  - intros f h c p off m Hf Hm. cbn [srv_seek ram_server]. rewrite Hf. cbv zeta. unfold target.
    match goal with |- context [?t <? 0] => destruct (t <? 0) end; [done|]. eexists. split; [done|].
    split; [apply lookup_insert_eq|]. intros h' Hne. by apply lookup_insert_ne.
  - intros f h c p Hf. cbn [srv_size ram_server]. by rewrite Hf.
  - intros f h. split; [apply lookup_delete_eq|]. intros h' Hne. by apply lookup_delete_ne.
Defined.

(** three files, and a cache that holds two of them *)
Definition three_files : ram :=
  {[ 1 := ([10; 11; 12; 13], 0%nat); 2 := ([20; 21; 22; 23], 0%nat); 3 := ([30; 31; 32; 33], 0%nat) ]}.
Definition no_cache (limit max : Z) : MemFileState := mkState 0 true None None 0 0 limit max false [] ∅ ∅.
Definition start : world ram := mkWorld three_files (no_cache 10 10).
Definition after (ks : list call) : world ram :=
  match exec_all start ks with Ret (w, _) => w | _ => start end.

Lemma start_inv : inv start [].
Proof.
  split_and!; [|done|by intros x e ?%elem_of_nil]. split_and!; try done.
  - split_and!; try done. constructor.
  - constructor.
  - by intros x e ?%elem_of_nil.
Qed.

Lemma inv_after ks :
  supported start ks -> inv (after ks) (objects (g_memFile (after ks))).
Proof.
  intros Hs. destruct (exec_all_simulates ks start [] start_inv Hs) as (w & es & l & HE & Hi & _).
  unfold after. rewrite HE. by rewrite (objects_ok _ _ (proj1 (proj1 Hi))).
Qed.

(** the conditions of a call on known files *)
Definition cacheable_b (w : world ram) (name : list Z) (h : Z) : bool :=
  let es := objects (g_memFile w) in
  match srv w !! h with
  | Some (c, 0%nat) =>
    negb (MEMFILE_isFileIgnored name) && negb (MEMFILE_isExtensionDenied (g_memFile w) name) &&
    bool_decide (cached es h = None) && (0 <? zlen c) && (zlen c <=? maxSize (g_memFile w)) && (zlen c <? 2 ^ 32) &&
    forallb (fun y => match bufs (g_memFile w) !! e_buf (snd y) with
                      | Some b => negb (same_nocase name (filename b)) || bool_decide (buffer b = c)
                      | None => true
                      end) es &&
    (grown (g_memFile w) es name c <=? cacheLimit (g_memFile w))
  | _ => false
  end.
#[global] Instance ent_eq_dec : EqDecision ent.
Proof. solve_decision. Defined.

Lemma cacheable_b_ok w name h :
  cacheable_b w name h = true -> exists c, cacheable w (objects (g_memFile w)) name h c.
Proof.
  unfold cacheable_b. destruct (srv w !! h) as [[c [|p]]|] eqn:Hf; try done.
  rewrite !andb_true_iff. intros (((((((H1 & H2) & H3) & H4) & H5) & H6) & H7) & H8).
  apply negb_true_iff in H1, H2. apply bool_decide_eq_true in H3. exists c. split_and!; try done; try lia.
  intros x e b Hin Hb Hn. rewrite forallb_forall in H7. specialize (H7 (x, e) ltac:(by apply list_elem_of_In)).
  simpl in H7. rewrite Hb, Hn in H7. by apply bool_decide_eq_true in H7.
Qed.

Definition admissible_b (w : world ram) (k : call) : bool :=
  let es := objects (g_memFile w) in
  match k with
  | CRead h n => match view w es h with Some (c, p) => (p <=? length c)%nat && (0 <=? n) | None => false end
  | CSeek h d m =>
    match view w es h with
    | Some (c, p) =>
      let t := target (zlen c) (Z.of_nat p) d m in
      (0 <=? m) && (m <=? 2) && (- 2 ^ 62 <? d) && (d <? 2 ^ 62) && (0 <=? t) && (t <? 2 ^ 62)
    | None => false
    end
  | CCache name h => cacheable_b w name h
  | CClose _ | CClear _ => true
  end.
Fixpoint supported_b (w : world ram) (ks : list call) : bool :=
  match ks with
  | [] => true
  | k :: ks => admissible_b w k && match exec w k with Ret (w', _) => supported_b w' ks | _ => false end
  end.
Lemma supported_b_ok ks : forall w, supported_b w ks = true -> supported w ks.
Proof.
  induction ks as [|k ks IH]; intros w; [done|]. cbn [supported_b supported]. intros [Hk Hks]%andb_true_iff. split.
  - clear Hks. destruct k as [h n|h d m|h|name h|name]; cbn [admissible admissible_b] in *; try done.
    + destruct (view w _ h) as [[c p]|]; [|done]. apply andb_true_iff in Hk as [Hp Hn]. exists c, p.
      apply Nat.leb_le in Hp. split_and!; [done|lia|lia].
    + destruct (view w _ h) as [[c p]|]; [|done]. exists c, p. rewrite !andb_true_iff in Hk.
      destruct Hk as (((((? & ?) & ?) & ?) & ?) & ?). split_and!; try done; lia.
    + by apply cacheable_b_ok.
  - destruct (exec w k) as [[w' a]| |]; [by apply IH|done..].
Qed.

(** ** Theorems *)


Definition script : list call :=
  [CCache [97] 1; CRead 1 3; CCache [98] 2; CRead 2 2; CSeek 1 (-2) 1; CClear [66]; CRead 2 9; CClose 1].
Lemma script_supported : supported start script.
Proof. apply supported_b_ok. by vm_compute. Qed.


Definition two_open : list call := [CCache [97] 1; CRead 1 3; CCache [98] 2].
Definition two : world ram := after two_open.
Lemma inv_two : inv two (objects (g_memFile two)).
Proof. apply inv_after, supported_b_ok. by vm_compute. Qed.
Lemma two_cacheable : cacheable start [] [97] 1 [10; 11; 12; 13].
Proof. split_and!; try done; by left. Qed.

(** C4: clearing the cache of a file ends, whatever the list holds.  It takes
    out every object of the file and no other, answers whether there was one,
    hands the positions over to the real files so that no file shows a
    difference, and gives the lock back. *)
Theorem clear_terminates {F : Type} `{HL : ServerLaws F} (w : world F) es name :
  inv w es ->
  exists w' r, MEMFILE_ClearCache w name = Ret (w', r) /\
    objects (g_memFile w') = unnamed (g_memFile w) name es /\
    r = existsb (fun y => named (g_memFile w) name (snd y)) es /\
    wf (g_memFile w') (objects (g_memFile w')) /\ options_eq (g_memFile w) (g_memFile w') /\
    forall h, view w' (objects (g_memFile w')) h = view w es h.
Proof.
  intros Hi. destruct (ClearCache_ok w es name Hi) as (w' & r & HC & Hi' & Ho & Hr & HV).
  exists w', r. rewrite (objects_ok _ _ (proj1 (proj1 Hi'))). split_and!; try done; [apply Hi'|apply Ho..].
Qed.
Lemma clear_terminates_witness :
  inv two (objects (g_memFile two)) /\
  exists w' r, MEMFILE_ClearCache two [65] = Ret (w', r) /\
    objects (g_memFile w') = unnamed (g_memFile two) [65] (objects (g_memFile two)) /\
    r = existsb (fun y => named (g_memFile two) [65] (snd y)) (objects (g_memFile two)) /\
    wf (g_memFile w') (objects (g_memFile w')) /\ options_eq (g_memFile two) (g_memFile w') /\
    forall h, view w' (objects (g_memFile w')) h = view two (objects (g_memFile two)) h.
Proof. split; [exact inv_two|]. exact (clear_terminates two _ [65] inv_two). Defined.

(** a read of a cached file returns the bytes at its position, as many as
    there are, moves the position past them and moves the object to the front
    of the list, whose other objects keep their order: the last object is the
    one that was not read for the longest time. *)
Theorem read_most_recent g es h n :
  wf g es -> disabled g = false -> 0 <= n ->
  match cached es h with
  | None => MEMFILE_ReadFile g h n = Ret (g, None)
  | Some e => forall b, bufs g !! e_buf e = Some b -> e_pos e <= zlen (buffer b) ->
    let out := take (Z.to_nat n) (drop (Z.to_nat (e_pos e)) (buffer b)) in
    exists g' es1 x es2, es = es1 ++ (x, e) :: es2 /\
      MEMFILE_ReadFile g h n = Ret (g', Some out) /\ cs g' = cs g /\ bufs g' = bufs g /\
      wf g' ((x, mkEnt h (e_pos e + zlen out) (e_buf e)) :: es1 ++ es2)
  end.
Proof.
  intros Hwf Hd Hn. pose proof (MEMFILE_ReadFile_ok g es h n Hwf Hd Hn) as HM.
  destruct (cached es h) as [e|]; [|done]. intros b Hb Hp.
  destruct (HM b Hb Hp) as (g' & es1 & x & es2 & He & _ & HR & (Hc & _ & Hbu & _) & Hwf').
  exists g', es1, x, es2. by split_and!.
Qed.
Lemma read_most_recent_witness :
  wf (g_memFile two) (objects (g_memFile two)) /\
  exists g', MEMFILE_ReadFile (g_memFile two) 1 5 = Ret (g', Some [13]) /\ cs g' = 0.
Proof.
  split; [exact (proj1 inv_two)|].
  pose proof (read_most_recent (g_memFile two) (objects (g_memFile two)) 1 5 (proj1 inv_two) eq_refl
    ltac:(lia)) as H.
  vm_compute cached in H.
  destruct (H (mkBuffer 1 [97] 4 [10; 11; 12; 13]) ltac:(vm_compute; reflexivity) ltac:(vm_compute; discriminate))
    as (g' & es1 & x & es2 & _ & HR & Hc & _).
  exists g'. split; [exact HR|exact Hc].
Defined.

(** C8: the list with its links is a sequence, the empty list included: an
    object is added at the front, taken out of any place, moved to the front or
    clipped off the end, and the head, the tail, the links in both directions and
    the count follow.  Nothing else of the state changes.  Only clipping an empty
    list faults: it follows the null tail. *)
Theorem list_refines_sequence g es :
  repr g es ->
  (forall y n, nodes g !! y = Some n -> y ∉ es.*1 ->
     exists g', AddMemFile g y = Ret g' /\ repr g' ((y, ent_of n) :: es) /\ rest_eq g g') /\
  (forall es1 x e es2, es = es1 ++ (x, e) :: es2 ->
     (exists g', RemoveMemFile g (Some x) = Ret g' /\ repr g' (es1 ++ es2) /\ rest_eq g g') /\
     (exists g', MoveToFront g x = Ret g' /\ repr g' ((x, e) :: es1 ++ es2) /\ rest_eq g g')) /\
  (forall es1 x e, es = es1 ++ [(x, e)] -> exists g', ClipTail g = Ret (g', x) /\ repr g' es1 /\ rest_eq g g') /\
  (es = [] -> ClipTail g = Fault) /\ RemoveMemFile g None = Ret g.
Proof.
  intros Hr. split_and!.
  - intros y n Hy Hni. by apply AddMemFile_ok.
  - intros es1 x e es2 ->. split; [|by apply MoveToFront_ok].
    destruct (RemoveMemFile_ok g es1 x e es2 Hr) as (g' & ? & ? & ? & _). by exists g'.
  - intros es1 x e ->. destruct (ClipTail_ok g es1 x e Hr) as (g' & ? & ? & ? & _). by exists g'.
  - intros ->. by apply ClipTail_empty.
  - done.
Qed.

(** an empty list and an object that is not on it *)
Definition lone : MemFileState := set_nodes (g_memFile start) {[ 7%nat := mkData None None 1 0 0%nat ]}.
Lemma list_refines_sequence_witness :
  exists g', AddMemFile lone 7 = Ret g' /\ repr g' [(7%nat, mkEnt 1 0 0)] /\ rest_eq lone g'.
Proof.
  apply (proj1 (list_refines_sequence lone [] ltac:(vm_compute; split_and!; constructor)) 7%nat (mkData None None 1 0 0%nat)).
  - reflexivity.
  - apply not_elem_of_nil.
Defined.

(** ** What the cache does not keep *)

(** making room drops one file more than it frees.  With a cache for two
    files of four bytes, two bytes of the second file are read and the third
    file is opened: the first file is freed, and the second one is taken off the
    list, never to be freed, without telling the real file its position: the
    next read returns the same two bytes again. *)
Theorem eviction_loses_position :
  match exec_all start [CCache [97] 1; CCache [98] 2; CRead 2 2; CCache [99] 3; CRead 2 2] with
  | Ret (w, l) =>
    l = [Some ADone; Some ADone; Some (AData [20; 21]); Some ADone; Some (AData [20; 21])] /\
    e_handle <$> (objects (g_memFile w)).*2 = [3] /\
    size (nodes (g_memFile w)) = 2%nat /\ totalCacheSize (g_memFile w) = 8
  | _ => False
  end.
Proof. vm_compute. by split_and!. Qed.

(** a read of a cached file that starts after its end faults, since the
    number of bytes left is computed modulo 2^32; a file that is not cached
    returns no bytes. *)
Theorem read_past_end_faults g es h n e b :
  wf g es -> disabled g = false -> cached es h = Some e -> bufs g !! e_buf e = Some b ->
  fileSize b < e_pos e < fileSize b + 2 ^ 32 -> 0 < n ->
  MEMFILE_ReadFile g h n = Fault.
Proof.
  intros Hwf Hd Hc Hb He Hn. destruct (id Hwf) as (Hr & _ & Hbo & _). destruct (Hbo _ _ Hb) as (_ & _ & Hlen & Hsz).
  unfold MEMFILE_ReadFile. rewrite Hd, orb_false_r.
  destruct (bool_decide_reflect (head g = None)) as [Hh|Hh].
  { by rewrite (wf_empty g es Hwf Hh) in Hc. }
  destruct (GetMemFile_ok (EnterCriticalSection g) es h false ltac:(exact Hr))
    as [(Hc' & _)|(es1 & x & e' & es2 & g' & -> & _ & Hc' & -> & _ & (nx & pv & Hx) & ->)]; [congruence|].
  assert (e' = e) as -> by congruence. cbn [obind]. unfold MEMFILE_doRead. rewrite (node_ok _ _ _ Hx).
  cbn [obind Buffer mk CurPos]. unfold buf. cbn [bufs EnterCriticalSection set_cs]. rewrite Hb. cbn [obind].
  assert (u32 (fileSize b - e_pos e) = 2 ^ 32 + (fileSize b - e_pos e)) as ->.
  { unfold u32, wrapU. pose proof (zlen_nonneg (buffer b)). symmetry. apply Z.mod_unique with (-1); lia. }
  unfold copy_out. pose proof (zlen_nonneg (buffer b)).
  assert ((e_pos e + (if 2 ^ 32 + (fileSize b - e_pos e) <? n then 2 ^ 32 + (fileSize b - e_pos e) else n) <=?
    zlen (buffer b)) = false) as -> by zcases.
  by rewrite andb_false_r.
Qed.
Lemma past_supported : supported start [CCache [97] 1; CSeek 1 6 0].
Proof. apply supported_b_ok. by vm_compute. Qed.
Lemma read_past_end_faults_witness :
  MEMFILE_ReadFile (g_memFile (after [CCache [97] 1; CSeek 1 6 0])) 1 2 = Fault.
Proof.
  apply (read_past_end_faults _ (objects (g_memFile (after [CCache [97] 1; CSeek 1 6 0]))) 1 2
    (mkEnt 1 6 0%nat) (mkBuffer 1 [97] 4 [10; 11; 12; 13])).
  - exact (proj1 (inv_after _ past_supported)).
  - reflexivity.
  - vm_compute. reflexivity.
  - vm_compute. reflexivity.
  - vm_compute. split; reflexivity.
  - reflexivity.
Defined.

(** when the buffer of a new file cannot be allocated, the call fails and
    changes nothing but the lock, which it keeps. *)
Theorem create_failure_keeps_lock {F : Type} `{HL : ServerLaws F} (w : world F) es name h size :
  wf (g_memFile w) es -> disabled (g_memFile w) = false ->
  MEMFILE_isFileIgnored name = false -> MEMFILE_isExtensionDenied (g_memFile w) name = false ->
  srv_size (srv w) h = Some size -> 0 < size <= maxSize (g_memFile w) ->
  existsb (fun y => named (g_memFile w) name (snd y)) es = false ->
  MEMFILE_CreateMemFile w true false name h =
    Ret (with_g w (set_cs (g_memFile w) (cs (g_memFile w) + 1)), false).
Proof.
  intros Hwf Hd Hi Hde Hs Hsz Hex. unfold MEMFILE_CreateMemFile. rewrite Hd, Hi, Hde, Hs.
  destruct (Z.eqb_spec size 0); [lia|]. cbn [negb].
  assert ((maxSize (g_memFile w) <? size) = false) as -> by zcases. unfold MEMFILE_createBuffer.
  destruct (GetMemFileByName_ok (EnterCriticalSection (g_memFile w)) es name false Hwf)
    as [(_ & ->)|(es1 & x & e & es2 & g' & -> & Hn & _)]; [done|].
  exfalso. rewrite existsb_app in Hex. simpl in Hex. change (named (EnterCriticalSection (g_memFile w)) name e)
    with (named (g_memFile w) name e) in Hn. rewrite Hn, orb_true_r in Hex. done.
Qed.
Lemma create_failure_keeps_lock_witness :
  MEMFILE_CreateMemFile start true false [97] 1 = Ret (with_g start (set_cs (g_memFile start) 1), false).
Proof.
  apply (create_failure_keeps_lock start [] [97] 1 4); try reflexivity.
  - exact (proj1 start_inv).
  - vm_compute. split; [reflexivity|discriminate].
Defined.

End MemCacheSim.
