(* ===== verification/CritSect.v ===== *)
(** * Critical sections (dlls/ntdll/critsection.c, critsection_kernel.c)

    A recursive lock: the count of threads that hold it or want it, less one,
    the owner and how often it entered, and a semaphore, created on demand,
    through which a leaving owner hands the lock to a waiting thread.  The
    system's semaphores are an interface, [Semaphores].  Threads
    take turns at the level of single accesses to memory, in any order.  The
    debug information and the messages of timeouts are not modelled: an
    exception about a timeout is continued, so the wait starts again. *)
From stdpp Require Import gmap.
From S2P Require Import Prelude.

Module CritSect.

Record RTL_CRITICAL_SECTION := mkCrit
  { LockCount : Z; RecursionCount : Z; OwningThread : Z; LockSemaphore : Z; SpinCount : Z }.

Definition set_LockCount (c : RTL_CRITICAL_SECTION) (v : Z) : RTL_CRITICAL_SECTION :=
  mkCrit v (RecursionCount c) (OwningThread c) (LockSemaphore c) (SpinCount c).
Definition set_RecursionCount (c : RTL_CRITICAL_SECTION) (v : Z) : RTL_CRITICAL_SECTION :=
  mkCrit (LockCount c) v (OwningThread c) (LockSemaphore c) (SpinCount c).
Definition set_OwningThread (c : RTL_CRITICAL_SECTION) (v : Z) : RTL_CRITICAL_SECTION :=
  mkCrit (LockCount c) (RecursionCount c) v (LockSemaphore c) (SpinCount c).
Definition set_LockSemaphore (c : RTL_CRITICAL_SECTION) (v : Z) : RTL_CRITICAL_SECTION :=
  mkCrit (LockCount c) (RecursionCount c) (OwningThread c) v (SpinCount c).
Definition set_SpinCount (c : RTL_CRITICAL_SECTION) (v : Z) : RTL_CRITICAL_SECTION :=
  mkCrit (LockCount c) (RecursionCount c) (OwningThread c) (LockSemaphore c) v.

(** ** The semaphores of the system

    The kernel objects are an interface: a semaphore that is made has the count
    0 and the limit 1.  A wait takes one from the count, blocks when it is 0 and
    fails for a handle that is not valid; a release fails for such a handle and
    at the limit. *)
Inductive wait_result (S : Type) : Type :=
| Acquired (ss : S)
| Blocked
| WaitFailed.
Arguments Acquired {S} ss.
Arguments Blocked {S}.
Arguments WaitFailed {S}.

Class Semaphores := {
  sems : Type;
  no_sems : sems;
  NtCreateSemaphore : sems -> sems * Z;
  NtReleaseSemaphore : sems -> Z -> option sems;
  NtWaitForSemaphore : sems -> Z -> wait_result sems;
  NtClose : sems -> Z -> sems;
}.
(** what the system promises, by the counts of the valid handles *)
Class SemaphoreLaws `{Semaphores} := {
  sem_counts : sems -> gmap Z Z;
  counts_none : sem_counts no_sems = ∅;
  create_law ss ss' h : NtCreateSemaphore ss = (ss', h) ->
    h <> 0 /\ sem_counts ss !! h = None /\ sem_counts ss' = <[h := 0]> (sem_counts ss);
  release_law ss h c : sem_counts ss !! h = Some c -> c < 1 ->
    exists ss', NtReleaseSemaphore ss h = Some ss' /\ sem_counts ss' = <[h := c + 1]> (sem_counts ss);
  release_limit ss h c : sem_counts ss !! h = Some c -> 1 <= c -> NtReleaseSemaphore ss h = None;
  release_invalid ss h : sem_counts ss !! h = None -> NtReleaseSemaphore ss h = None;
  wait_law ss h c : sem_counts ss !! h = Some c -> 0 < c ->
    exists ss', NtWaitForSemaphore ss h = Acquired ss' /\ sem_counts ss' = <[h := c - 1]> (sem_counts ss);
  wait_blocks ss h c : sem_counts ss !! h = Some c -> c <= 0 -> NtWaitForSemaphore ss h = Blocked;
  wait_invalid ss h : sem_counts ss !! h = None -> NtWaitForSemaphore ss h = WaitFailed;
  close_law ss h : sem_counts (NtClose ss h) = delete h (sem_counts ss);
}.

(** ** Initialisation *)
Definition multiprocessor : bool := false.

Definition RtlSetCriticalSectionSpinCount (c : RTL_CRITICAL_SECTION) (spincount : Z) :
    RTL_CRITICAL_SECTION * Z :=
  let oldspincount := SpinCount c in
  (set_SpinCount c (if multiprocessor then spincount else 0), oldspincount).

Definition RtlInitializeCriticalSectionAndSpinCount (c : RTL_CRITICAL_SECTION) (spincount : Z) :
    RTL_CRITICAL_SECTION :=
  let c := set_LockCount c (-1) in
  let c := set_RecursionCount c 0 in
  let c := set_OwningThread c 0 in
  let c := set_LockSemaphore c 0 in
  fst (RtlSetCriticalSectionSpinCount c spincount).
Definition RtlInitializeCriticalSection (c : RTL_CRITICAL_SECTION) : RTL_CRITICAL_SECTION :=
  RtlInitializeCriticalSectionAndSpinCount c 0.

Definition RtlDeleteCriticalSection `{Semaphores} (c : RTL_CRITICAL_SECTION) (ss : sems) : RTL_CRITICAL_SECTION * sems :=
  let c := set_LockCount c (-1) in
  let c := set_RecursionCount c 0 in
  let c := set_OwningThread c 0 in
  let ss := if LockSemaphore c =? 0 then ss else NtClose ss (LockSemaphore c) in
  (set_LockSemaphore c 0, ss).

Definition InitializeCriticalSection := RtlInitializeCriticalSection.
Definition ReinitializeCriticalSection (c : RTL_CRITICAL_SECTION) : RTL_CRITICAL_SECTION :=
  if LockSemaphore c =? 0 then RtlInitializeCriticalSection c else c.
Definition UninitializeCriticalSection `{Semaphores} := RtlDeleteCriticalSection.

(** ** Program points

    [Idle]: outside of the calls.  The others are named after the functions;
    each is the point before one access.  [caller] is who called
    RtlTryEnterCriticalSection, [user] who called get_semaphore. *)
Inductive caller := ByApp | BySpin (n : nat).
Inductive user := Waiting | Releasing.
Inductive pc :=
| Idle
(* RtlEnterCriticalSection: the increment, the two writes *)
| Enter0 | Enter1 | Enter2
(* EnterContestedCriticalSection: the owner; the count, read and written *)
| Contested0 | Contested1 | Contested2 (r : Z) | Spin (n : nat)
(* RtlTryEnterCriticalSection: the exchange; the two writes; the owner; the
   increment; the count, read and written *)
| Try0 (k : caller) | Try1 (k : caller) | Try2 (k : caller)
| Try3 (k : caller) | Try4 (k : caller) | Try5 (k : caller) | Try6 (k : caller) (r : Z)
(* get_semaphore: the read, the creation, the exchange, the close *)
| Sem0 (u : user) | Sem1 (u : user) | Sem2 (u : user) (sem : Z) | Sem3 (u : user) (sem ret : Z)
(* RtlpWaitForCriticalSection; the two writes after it *)
| Wait (sem : Z) | Got1 | Got2
(* RtlLeaveCriticalSection: the count, read and written; the decrement; the
   owner; the decrement; RtlpUnWaitCriticalSection *)
| Leave0 | Leave1 (r : Z) | Leave2 | Leave3 | Leave4 | Unwait (sem : Z) | Raised.
#[global] Instance caller_eq_dec : EqDecision caller.
Proof. solve_decision. Defined.
#[global] Instance user_eq_dec : EqDecision user.
Proof. solve_decision. Defined.
#[global] Instance pc_eq_dec : EqDecision pc.
Proof. solve_decision. Defined.

(** a thread, with the number of its calls to enter that returned and were
    not left *)
Record thread := mkThread { at_ : pc; depth : Z }.
Record shared `{Semaphores} := mkShared { crit : RTL_CRITICAL_SECTION; sem_table : sems }.
Arguments mkShared {_} _ _.

(** what a thread does next: at [Idle] the call it makes; elsewhere whether the
    system refuses a semaphore or lets a wait time out *)
Inductive choice := CallEnter | CallTry | CallLeave | Go | Refuse.

Section Steps.
(** the i386 code sets the count before the owner, the C code the other way *)
Context `{Semaphores} (i386 : bool).

Definition goto (s : shared) (t : thread) (p : pc) : option (shared * thread) := Some (s, mkThread p (depth t)).
Definition with_crit (s : shared) (c : RTL_CRITICAL_SECTION) : shared := mkShared c (sem_table s).
(** a call returns; the section is entered or left *)
Definition ret (s : shared) (t : thread) (change : Z) : option (shared * thread) :=
  Some (s, mkThread Idle (depth t + change)).

Definition interlocked_add (c : RTL_CRITICAL_SECTION) (v : Z) : RTL_CRITICAL_SECTION * Z :=
  let r := s32 (LockCount c + v) in (set_LockCount c r, r).
Definition interlocked_cmpxchg (dest xchg compare : Z) : Z * Z :=
  (if dest =? compare then xchg else dest, dest).

(** the return of RtlTryEnterCriticalSection *)
Definition try_ret (s : shared) (t : thread) (k : caller) (ok : bool) : option (shared * thread) :=
  match k with
  | ByApp => ret s t (if ok then 1 else 0)
  | BySpin n => if ok then ret s t 1 else goto s t (Spin n)
  end.
(** the return of get_semaphore *)
Definition sem_ret (s : shared) (t : thread) (u : user) (sem : Z) : option (shared * thread) :=
  goto s t (match u with Waiting => Wait sem | Releasing => Unwait sem end).

(** The steps of each function.  At a point of another function there is none. *)
Definition RtlEnterCriticalSection (s : shared) (dwThreadId : Z) (t : thread) : option (shared * thread) :=
  let cr := crit s in
  match at_ t with
  | Enter0 =>
    let '(cr, r) := interlocked_add cr 1 in
    goto (with_crit s cr) t (if r =? 0 then Enter1 else Contested0)
  | Enter1 =>
    goto (with_crit s (if i386 then set_RecursionCount cr 1 else set_OwningThread cr dwThreadId)) t Enter2
  | Enter2 =>
    ret (with_crit s (if i386 then set_OwningThread cr dwThreadId else set_RecursionCount cr 1)) t 1
  | _ => None
  end.

Definition EnterContestedCriticalSection (s : shared) (dwThreadId : Z) (t : thread) : option (shared * thread) :=
  let cr := crit s in
  match at_ t with
  | Contested0 =>
    goto s t (if OwningThread cr =? dwThreadId then Contested1 else Spin (Z.to_nat (SpinCount cr)))
  | Contested1 => goto s t (Contested2 (RecursionCount cr))
  | Contested2 r => ret (with_crit s (set_RecursionCount cr (s32 (r + 1)))) t 1
  | Spin n => goto s t (match n with S n => Try0 (BySpin n) | O => Sem0 Waiting end)
  | Got1 => goto (with_crit s (set_OwningThread cr dwThreadId)) t Got2
  | Got2 => ret (with_crit s (set_RecursionCount cr 1)) t 1
  | _ => None
  end.

Definition RtlTryEnterCriticalSection (s : shared) (dwThreadId : Z) (t : thread) : option (shared * thread) :=
  let cr := crit s in
  match at_ t with
  | Try0 k =>
    let '(v, old) := interlocked_cmpxchg (LockCount cr) 0 (-1) in
    goto (with_crit s (set_LockCount cr v)) t (if old =? -1 then Try1 k else Try3 k)
  | Try1 k => goto (with_crit s (set_OwningThread cr dwThreadId)) t (Try2 k)
  | Try2 k => try_ret (with_crit s (set_RecursionCount cr 1)) t k true
  | Try3 k => if OwningThread cr =? dwThreadId then goto s t (Try4 k) else try_ret s t k false
  | Try4 k => let '(cr, _) := interlocked_add cr 1 in goto (with_crit s cr) t (Try5 k)
  | Try5 k => goto s t (Try6 k (RecursionCount cr))
  | Try6 k r => try_ret (with_crit s (set_RecursionCount cr (s32 (r + 1)))) t k true
  | _ => None
  end.

Definition get_semaphore (c : choice) (s : shared) (t : thread) : option (shared * thread) :=
  let cr := crit s in
  match at_ t with
  | Sem0 u => if LockSemaphore cr =? 0 then goto s t (Sem1 u) else sem_ret s t u (LockSemaphore cr)
  | Sem1 u =>
    match c with
    | Refuse => sem_ret s t u 0
    | _ => let '(ss, sem) := NtCreateSemaphore (sem_table s) in goto (mkShared cr ss) t (Sem2 u sem)
    end
  | Sem2 u sem =>
    let '(v, old) := interlocked_cmpxchg (LockSemaphore cr) sem 0 in
    let s := with_crit s (set_LockSemaphore cr v) in
    if old =? 0 then sem_ret s t u sem else goto s t (Sem3 u sem old)
  | Sem3 u sem old => sem_ret (mkShared cr (NtClose (sem_table s) sem)) t u old
  | _ => None
  end.

(** the wait after get_semaphore; when it fails, the loop starts again *)
Definition RtlpWaitForCriticalSection (c : choice) (s : shared) (t : thread) : option (shared * thread) :=
  match at_ t with
  | Wait sem =>
    match NtWaitForSemaphore (sem_table s) sem with
    | Acquired ss => goto (mkShared (crit s) ss) t Got1
    | Blocked => match c with Refuse => goto s t (Sem0 Waiting) | _ => None end
    | WaitFailed => goto s t (Sem0 Waiting)
    end
  | _ => None
  end.

(** the release after get_semaphore *)
Definition RtlpUnWaitCriticalSection (s : shared) (t : thread) : option (shared * thread) :=
  match at_ t with
  | Unwait sem =>
    match NtReleaseSemaphore (sem_table s) sem with
    | Some ss => ret (mkShared (crit s) ss) t 0
    | None => goto s t Raised
    end
  | _ => None
  end.

Definition RtlLeaveCriticalSection (s : shared) (t : thread) : option (shared * thread) :=
  let cr := crit s in
  match at_ t with
  | Leave0 => goto s t (Leave1 (RecursionCount cr))
  | Leave1 r =>
    let v := s32 (r - 1) in
    goto (with_crit s (set_RecursionCount cr v)) t (if v =? 0 then Leave3 else Leave2)
  | Leave2 => let '(cr, _) := interlocked_add cr (-1) in ret (with_crit s cr) t (-1)
  | Leave3 => goto (with_crit s (set_OwningThread cr 0)) t Leave4
  | Leave4 =>
    let '(cr, r) := interlocked_add cr (-1) in
    let s := with_crit s cr in
    if 0 <=? r then Some (s, mkThread (Sem0 Releasing) (depth t - 1)) else ret s t (-1)
  | _ => None
  end.

(** a call begins; only a thread that is inside leaves *)
Definition begin_call (c : choice) (s : shared) (t : thread) : option (shared * thread) :=
  match c with
  | CallEnter => goto s t Enter0
  | CallTry => goto s t (Try0 ByApp)
  | CallLeave => if 0 <? depth t then goto s t Leave0 else None
  | _ => None
  end.

Definition step (c : choice) (s : shared) (dwThreadId : Z) (t : thread) : option (shared * thread) :=
  match at_ t with
  | Idle => begin_call c s t
  | Enter0 | Enter1 | Enter2 => RtlEnterCriticalSection s dwThreadId t
  | Contested0 | Contested1 | Contested2 _ | Spin _ | Got1 | Got2 => EnterContestedCriticalSection s dwThreadId t
  | Try0 _ | Try1 _ | Try2 _ | Try3 _ | Try4 _ | Try5 _ | Try6 _ _ => RtlTryEnterCriticalSection s dwThreadId t
  | Sem0 _ | Sem1 _ | Sem2 _ _ | Sem3 _ _ _ => get_semaphore c s t
  | Wait _ => RtlpWaitForCriticalSection c s t
  | Unwait _ => RtlpUnWaitCriticalSection s t
  | Leave0 | Leave1 _ | Leave2 | Leave3 | Leave4 => RtlLeaveCriticalSection s t
  | Raised => None
  end.

(** ** Threads: thread [i] has the id [i + 1] *)
Definition tid (i : nat) : Z := Z.of_nat i + 1.

Definition sys_step (c : choice) (i : nat) (st : shared * list thread) : option (shared * list thread) :=
  match snd st !! i with
  | Some t => match step c (fst st) (tid i) t with
              | Some (s, t) => Some (s, <[i := t]> (snd st))
              | None => None
              end
  | None => None
  end.

Fixpoint run (sched : list (nat * choice)) (st : shared * list thread) : option (shared * list thread) :=
  match sched with
  | [] => Some st
  | (i, c) :: sched => match sys_step c i st with Some st => run sched st | None => None end
  end.

Definition idle_threads (n : nat) : list thread := replicate n (mkThread Idle 0).

(** a new section, with a spin count of its own as a static initialiser can
    give it *)
Definition new_section (spin : Z) : shared :=
  mkShared (set_SpinCount (RtlInitializeCriticalSection (mkCrit 0 0 0 0 0)) spin) no_sems.

(** any schedule of [n] threads, none of which nests more than [D] deep *)
Inductive reachable (n : nat) (D spin : Z) : shared * list thread -> Prop :=
| reach_start : reachable n D spin (new_section spin, idle_threads n)
| reach_step st c i st' :
    reachable n D spin st -> sys_step c i st = Some st' ->
    (forall t, snd st !! i = Some t -> at_ t = Idle -> c <> CallLeave -> depth t < D) ->
    reachable n D spin st'.
End Steps.

End CritSect.
