(* ===== verification/CritSectInv.v ===== *)
(** * Critical sections: the invariant

    Whatever the interleaving of the threads, at most one of them is inside;
    the lock is handed over through the semaphore without being lost or
    doubled. *)
From stdpp Require Import gmap.
From S2P Require Import Prelude CritSect.
Import CritSect.

Module CritSectInv.

(** the counts of the semaphores *)
Abbreviation table s := (sem_counts (sem_table s)).

(** ** Sums over the threads *)
Definition sum (f : thread -> Z) (ts : list thread) : Z := foldr (fun t a => f t + a) 0 ts.

Definition others (i : nat) (ts : list thread) : list thread := take i ts ++ drop (S i) ts.

Lemma sum_app f l k : sum f (l ++ k) = sum f l + sum f k.
Proof. unfold sum. induction l as [|t l IH]; simpl; [done|]. rewrite IH. lia. Qed.
Lemma sum_pick f ts i t : ts !! i = Some t -> sum f ts = f t + sum f (others i ts).
Proof.
  intros Hi. rewrite <- (take_drop_middle ts i t Hi) at 1. unfold others. rewrite !sum_app. simpl. lia.
Qed.
Lemma others_insert i t ts : others i (<[i := t]> ts) = others i ts.
Proof. unfold others. by rewrite take_insert_ge, drop_insert_lt by lia. Qed.
Lemma sum_insert f ts i t t' :
  ts !! i = Some t -> sum f (<[i := t']> ts) = f t' + sum f (others i ts).
Proof.
  intros Hi. rewrite (sum_pick f _ i t'), others_insert; [done|].
  apply list_lookup_insert_eq. by eapply lookup_lt_Some.
Qed.

Lemma others_in i j ts u : j <> i -> ts !! j = Some u -> u ∈ others i ts.
Proof.
  intros Hne Hj. apply elem_of_app. destruct (decide (j < i)%nat) as [Hlt|Hge].
  - left. apply list_elem_of_lookup. exists j. by rewrite lookup_take_lt.
  - right. apply list_elem_of_lookup. exists (j - S i)%nat. rewrite lookup_drop. rewrite <- Hj. f_equal. lia.
Qed.
Lemma others_sub i ts u : u ∈ others i ts -> u ∈ ts.
Proof.
  intros [Hu|Hu]%elem_of_app.
  - by eapply (subseteq_take i).
  - by eapply (subseteq_drop (S i)).
Qed.

Lemma sum_nonneg f l : (forall u, u ∈ l -> 0 <= f u) -> 0 <= sum f l.
Proof.
  induction l as [|u l IH]; intros Hf; simpl; [done|]. pose proof (Hf u ltac:(left)).
  assert (0 <= sum f l); [|lia]. apply IH. intros v Hv. apply Hf. by right.
Qed.
Lemma sum_in f l u : (forall v, v ∈ l -> 0 <= f v) -> u ∈ l -> f u <= sum f l.
Proof.
  intros Hf [i Hi]%list_elem_of_lookup. rewrite (sum_pick f l i u Hi).
  assert (0 <= sum f (others i l)); [|lia]. apply sum_nonneg. intros v Hv. apply Hf. by eapply others_sub.
Qed.
Lemma sum_bound f l b : (forall u, u ∈ l -> f u <= b) -> sum f l <= zlen l * b.
Proof.
  induction l as [|u l IH]; intros Hf; simpl; [done|]. pose proof (Hf u ltac:(left)). rewrite zlen_cons.
  assert (sum f l <= zlen l * b); [|lia]. apply IH. intros v Hv. apply Hf. by right.
Qed.

(** ** The lock as a token

    The thread that has the right to be inside: it entered, is about to, or is
    about to give the right away. *)
Definition token (t : thread) : Z :=
  if 0 <? depth t then 1 else
  match at_ t with
  | Enter1 | Enter2 | Try1 _ | Try2 _ | Got1 | Got2 => 1
  | Sem0 Releasing | Sem1 Releasing | Sem2 Releasing _ | Sem3 Releasing _ _ | Unwait _ | Raised => 1
  | _ => 0
  end.

(** the share of a thread in the count of the lock *)
Definition counted (t : thread) : Z :=
  depth t +
  match at_ t with
  | Enter1 | Enter2 | Contested0 | Contested1 | Contested2 _ | Spin _ => 1
  | Sem0 Waiting | Sem1 Waiting | Sem2 Waiting _ | Sem3 Waiting _ _ | Wait _ | Got1 | Got2 => 1
  | Try0 (BySpin _) | Try3 (BySpin _) | Try1 _ | Try2 _ | Try5 _ | Try6 _ _ => 1
  | _ => 0
  end.

Section Invariant.
Context {SO : Semaphores} {SL : SemaphoreLaws} (i386 : bool) (D : Z).

(** where a thread can be, by how deep it is inside *)
Definition phase (t : thread) : Prop :=
  match at_ t with
  | Idle => 0 <= depth t <= D
  | Enter0 | Contested0 | Try0 ByApp | Try3 ByApp => 0 <= depth t < D
  | Contested1 | Contested2 _ | Try4 ByApp | Try5 ByApp | Try6 ByApp _ => 0 < depth t < D
  | Try1 (BySpin _) | Try2 (BySpin _) | Try4 (BySpin _) | Try5 (BySpin _) | Try6 (BySpin _) _ => False
  | Leave0 | Leave1 _ => 0 < depth t <= D
  | Leave2 => 1 < depth t <= D
  | Leave3 | Leave4 => depth t = 1
  | _ => depth t = 0
  end.

(** what the owner reads back *)
Definition recursion_ok (c : RTL_CRITICAL_SECTION) (t : thread) : Prop :=
  match at_ t with
  | Enter2 => i386 = true -> RecursionCount c = 1
  | Contested2 r | Try6 _ r | Leave1 r => RecursionCount c = depth t /\ r = depth t
  | Leave2 => RecursionCount c = depth t - 1
  | Leave3 | Leave4 => True
  | _ => 0 < depth t -> RecursionCount c = depth t
  end.
Definition shows (t : thread) : bool :=
  match at_ t with
  | Leave4 => false
  | Enter2 => negb i386
  | Got2 | Try2 _ => true
  | _ => 0 <? depth t
  end.
Definition local_ok (c : RTL_CRITICAL_SECTION) (id : Z) (t : thread) : Prop :=
  phase t /\ recursion_ok c t /\ (OwningThread c =? id) = shows t.

(** the semaphore of the section *)
Definition semval (s : shared) : Z := default 0 (table s !! LockSemaphore (crit s)).
(** a semaphore that a thread made and has not installed *)
Definition pending (t : thread) : option Z :=
  match at_ t with Sem2 _ h | Sem3 _ h _ => Some h | _ => None end.
(** the semaphore that a thread works with *)
Definition working (t : thread) : option Z :=
  match at_ t with Wait h | Unwait h | Sem3 _ _ h => Some h | _ => None end.

Definition sems_ok (s : shared) (ts : list thread) : Prop :=
  table s !! 0 = None /\
  (forall h c, table s !! h = Some c -> h <> LockSemaphore (crit s) -> c = 0) /\
  (LockSemaphore (crit s) <> 0 -> is_Some (table s !! LockSemaphore (crit s))) /\
  0 <= semval s /\
  (forall i t h, ts !! i = Some t -> pending t = Some h ->
     is_Some (table s !! h) /\ h <> LockSemaphore (crit s)) /\
  (forall i j t u h, i <> j -> ts !! i = Some t -> ts !! j = Some u ->
     pending t = Some h -> pending u <> Some h) /\
  (forall i t h, ts !! i = Some t -> working t = Some h -> h = 0 \/ h = LockSemaphore (crit s)).

Definition inv (st : shared * list thread) : Prop :=
  let '(s, ts) := st in
  LockCount (crit s) = sum counted ts - 1 /\
  sum token ts + semval s = (if LockCount (crit s) =? -1 then 0 else 1) /\
  (forall i t, ts !! i = Some t -> local_ok (crit s) (tid i) t) /\
  sems_ok s ts.

Lemma token_nonneg t : 0 <= token t <= 1.
Proof. unfold token. destruct (0 <? depth t); [lia|]. destruct (at_ t) as [| | | | | | | | | | | | | | |[]|[]|[] ?|[] ? ?| | | | | | | | | |]; lia. Qed.
(** ** One step *)

(** what a step of a thread relies on: [K] is counted for the other threads,
    [R] are their tokens *)
Definition before (s : shared) (id : Z) (t : thread) (K R : Z) : Prop :=
  local_ok (crit s) id t /\ LockCount (crit s) = counted t + K - 1 /\ 0 <= K /\ counted t + K < 2 ^ 31 - 1 /\
  token t + R + semval s = (if LockCount (crit s) =? -1 then 0 else 1) /\ 0 <= R /\
  table s !! 0 = None /\
  (forall h c, table s !! h = Some c -> h <> LockSemaphore (crit s) -> c = 0) /\
  (LockSemaphore (crit s) <> 0 -> is_Some (table s !! LockSemaphore (crit s))) /\
  0 <= semval s /\
  (forall h, pending t = Some h -> is_Some (table s !! h) /\ h <> LockSemaphore (crit s)) /\
  (forall h, working t = Some h -> h = 0 \/ h = LockSemaphore (crit s)).

Lemma s32_small x : - 2 ^ 31 <= x < 2 ^ 31 -> s32 x = x.
Proof. intros. apply wrapS_small; [done|]. unfold isS. lia. Qed.

(** the laws of the semaphores, by the answers *)
Lemma create_ne s ss h :
  (LockSemaphore (crit s) <> 0 -> is_Some (table s !! LockSemaphore (crit s))) ->
  NtCreateSemaphore (sem_table s) = (ss, h) -> h <> LockSemaphore (crit s).
Proof. intros Hs (H0 & Hn & _)%create_law ->. destruct (Hs H0) as [x Hx]. congruence. Qed.
Lemma release_Some ss h ss' : NtReleaseSemaphore ss h = Some ss' ->
  exists c, sem_counts ss !! h = Some c /\ c < 1 /\ sem_counts ss' = <[h := c + 1]> (sem_counts ss).
Proof.
  intros E. destruct (sem_counts ss !! h) as [c|] eqn:Hc; [|by rewrite release_invalid in E].
  destruct (decide (c < 1)) as [Hl|Hl]; [|rewrite (release_limit _ _ c) in E by (done || lia); done].
  destruct (release_law ss h c Hc Hl) as (s1 & E1 & Hs1). exists c. split_and!; congruence.
Qed.
Lemma wait_Acquired ss h ss' : NtWaitForSemaphore ss h = Acquired ss' ->
  exists c, sem_counts ss !! h = Some c /\ 0 < c /\ sem_counts ss' = <[h := c - 1]> (sem_counts ss).
Proof.
  intros E. destruct (sem_counts ss !! h) as [c|] eqn:Hc; [|by rewrite wait_invalid in E].
  destruct (decide (0 < c)) as [Hl|Hl]; [|rewrite (wait_blocks _ _ c) in E by (done || lia); done].
  destruct (wait_law ss h c Hc Hl) as (s1 & E1 & Hs1). exists c. split_and!; congruence.
Qed.

(** the cases of a step *)
Ltac step_cases H :=
  unfold step, begin_call, RtlEnterCriticalSection, EnterContestedCriticalSection, RtlTryEnterCriticalSection,
    get_semaphore, RtlpWaitForCriticalSection, RtlpUnWaitCriticalSection, RtlLeaveCriticalSection,
    interlocked_add, interlocked_cmpxchg, try_ret, sem_ret, goto, ret, with_crit in H;
  repeat (case_match; simplify_eq/=).
(** what the answers of the system say of the counts *)
Ltac sem_facts :=
  repeat match goal with
  | E : NtCreateSemaphore (sem_table ?s) = (_, ?h), S3 : LockSemaphore (crit ?s) <> 0 -> _ |- _ =>
      lazymatch goal with _ : h <> LockSemaphore (crit s) |- _ => fail | _ => pose proof (create_ne s _ h S3 E) end
  | E : NtReleaseSemaphore _ _ = Some _ |- _ => apply release_Some in E as (? & ? & ? & E)
  | E : NtWaitForSemaphore _ _ = Acquired _ |- _ => apply wait_Acquired in E as (? & ? & ? & E)
  end;
  repeat match goal with
  | E : NtCreateSemaphore _ = (_, _) |- _ => apply create_law in E as (? & ? & E)
  end;
  repeat match goal with
  | E : sem_counts ?ss = _ |- context [sem_counts ?ss] => rewrite E
  end;
  rewrite ?close_law.

Lemma step_counts c s id t s' t' K R :
  before s id t K R -> step i386 c s id t = Some (s', t') -> 1 <= D < 2 ^ 31 ->
  (at_ t = Idle -> c <> CallLeave -> depth t < D) ->
  LockCount (crit s') = counted t' + K - 1 /\ phase t'.
Proof.
  intros ((Hph & Hrec & Hown) & HK & HK0 & HKb & HT & HR & _) H HD Hc.
  destruct t as [p d]. unfold counted, token, phase, recursion_ok, shows in *. simpl in *.
  destruct p; step_cases H; simpl in *; rewrite ?s32_small in * by lia; zhyps; try (split; lia); try lia; try done.
  all: assert (d < D) by (by apply Hc); lia.
Qed.

Lemma step_owner c s id t s' t' K R :
  before s id t K R -> step i386 c s id t = Some (s', t') -> 1 <= D < 2 ^ 31 -> id <> 0 ->
  recursion_ok (crit s') t' /\ (OwningThread (crit s') =? id) = shows t'.
Proof.
  intros ((Hph & Hrec & Hown) & HK & HK0 & HKb & HT & HR & _) H HD Hid.
  destruct t as [p d]. unfold counted, token, phase, recursion_ok, shows in *. simpl in *.
  destruct p; step_cases H; simpl in *; rewrite ?s32_small in * by lia; zhyps.
  all: try (split; [lia|zcases]).
Qed.

(** only the thread with the token writes the owner and the count *)
Lemma step_frame c s id t s' t' K R :
  before s id t K R -> step i386 c s id t = Some (s', t') ->
  (OwningThread (crit s') = OwningThread (crit s) /\ RecursionCount (crit s') = RecursionCount (crit s)) \/
  (token t = 1 /\ (OwningThread (crit s') = OwningThread (crit s) \/ OwningThread (crit s') = id \/
     OwningThread (crit s') = 0)).
Proof.
  intros ((Hph & _) & _) H.
  destruct t as [p d]. unfold token, phase in *. simpl in *.
  destruct p; step_cases H; simpl in *; zhyps; try lia; try (left; split; reflexivity); right; split; auto; zcases.
Qed.

Lemma semval_same s s' :
  LockSemaphore (crit s') = LockSemaphore (crit s) ->
  table s' !! LockSemaphore (crit s) = table s !! LockSemaphore (crit s) -> semval s' = semval s.
Proof. unfold semval. by intros -> ->. Qed.

Lemma step_token c s id t s' t' K R :
  before s id t K R -> step i386 c s id t = Some (s', t') ->
  token t' + R + semval s' = (if LockCount (crit s') =? -1 then 0 else 1).
Proof.
  intros ((Hph & Hrec & Hown) & HK & HK0 & HKb & HT & HR & S1 & S2 & S3 & S4 & S5 & S6) H.
  destruct t as [p d]. unfold counted, token, phase, recursion_ok, shows, pending, working in *. simpl in *.
  destruct p; step_cases H; simpl in *; rewrite ?s32_small in * by lia; zhyps.
  all: unfold semval in *; simpl in *; sem_facts; try (zcases; fail).
  all: try (rewrite lookup_insert_ne by done; zcases; fail).
  all: try (destruct (S5 _ eq_refl) as [[x Hx] Hne]; rewrite lookup_delete_ne by done; lia).
  all: try (destruct (S5 _ eq_refl) as [[x Hx] Hne]; rewrite Hx; rewrite (S2 _ _ Hx Hne);
    match goal with E : _ = 0 |- _ => rewrite E, S1 in HT end; simpl in *; lia).
  all: destruct (S6 _ eq_refl) as [->| ->]; [congruence|].
  all: match goal with E : table _ !! _ = Some _ |- _ => rewrite E in * end; rewrite lookup_insert_eq; simpl in *; lia.
Qed.
(** what a step does to the semaphores *)
Inductive sem_effect (s : shared) (t : thread) (s' : shared) (t' : thread) : Prop :=
| eff_none :
    table s' = table s -> LockSemaphore (crit s') = LockSemaphore (crit s) ->
    (pending t' = None \/ pending t' = pending t) ->
    (forall h, working t' = Some h -> h = 0 \/ h = LockSemaphore (crit s)) -> sem_effect s t s' t'
| eff_create h :
    table s !! h = None -> h <> 0 -> h <> LockSemaphore (crit s) -> table s' = <[h := 0]> (table s) ->
    LockSemaphore (crit s') = LockSemaphore (crit s) -> pending t' = Some h -> working t' = None ->
    sem_effect s t s' t'
| eff_install h :
    LockSemaphore (crit s) = 0 -> pending t = Some h -> table s' = table s -> LockSemaphore (crit s') = h ->
    pending t' = None -> working t' = Some h -> sem_effect s t s' t'
| eff_close h :
    pending t = Some h -> table s' = delete h (table s) -> LockSemaphore (crit s') = LockSemaphore (crit s) ->
    pending t' = None -> (forall k, working t' = Some k -> k = 0 \/ k = LockSemaphore (crit s)) -> sem_effect s t s' t'
| eff_value v :
    LockSemaphore (crit s) <> 0 -> 0 <= v -> table s' = <[LockSemaphore (crit s) := v]> (table s) ->
    LockSemaphore (crit s') = LockSemaphore (crit s) -> pending t' = None -> working t' = None -> sem_effect s t s' t'.

Lemma step_sem_effect c s id t s' t' K R :
  before s id t K R -> step i386 c s id t = Some (s', t') -> sem_effect s t s' t'.
Proof.
  intros (_ & _ & _ & _ & _ & _ & S1 & S2 & S3 & S4 & S5 & S6) H.
  destruct t as [p d]. unfold semval in S4.
  destruct p; step_cases H; zhyps.
  all: try (apply eff_none; simpl; auto; intros ? [=]; subst; auto; fail).
  all: try (eapply eff_install; simpl; eauto; fail).
  all: try (eapply eff_close; simpl in *; eauto using close_law; fail).
  all: sem_facts; try (eapply eff_create; simpl; eauto; fail).
  all: destruct (S6 _ eq_refl) as [->| ->]; [congruence|].
  all: match goal with E : table _ !! _ = Some _ |- _ => rewrite E in S4; simpl in S4 end.
  all: eapply eff_value; [intros E0; rewrite E0 in *; congruence| |simpl; eassumption|reflexivity..]; lia.
Qed.
Lemma lookup_new (ts : list thread) i j t' u :
  <[i := t']> ts !! j = Some u -> (j = i /\ u = t') \/ (j <> i /\ ts !! j = Some u).
Proof. intros [(-> & -> & _)|[? ?]]%list_lookup_insert_Some; auto. Qed.

(** the made semaphores stay apart when a thread has none or keeps its own *)
Lemma pending_apart (ts : list thread) (i : nat) t t' :
  ts !! i = Some t -> (forall h, pending t' = Some h -> pending t = Some h) ->
  (forall i j t u h, i <> j -> ts !! i = Some t -> ts !! j = Some u -> pending t = Some h -> pending u <> Some h) ->
  forall j k v u h, j <> k -> <[i := t']> ts !! j = Some v -> <[i := t']> ts !! k = Some u ->
    pending v = Some h -> pending u <> Some h.
Proof.
  intros Hi Hs HA j k v u h Hne Hj Hk Hv Hu.
  destruct (lookup_new _ _ _ _ _ Hj) as [[-> ->]|[? Hj']], (lookup_new _ _ _ _ _ Hk) as [[-> ->]|[? Hk']]; [done|..].
  - apply (HA i k t u h); auto.
  - apply (HA j i v t h); auto.
  - apply (HA j k v u h); auto.
Qed.

Lemma sems_preserved s ts i t s' t' :
  sems_ok s ts -> ts !! i = Some t -> sem_effect s t s' t' -> sems_ok s' (<[i := t']> ts).
Proof.
  intros (S1 & S2 & S3 & S4 & S5 & S6 & S7) Hi He. destruct He as
    [E1 E2 Ep Ew|h Hn H0 Hl E1 E2 Ep Ew|h H0 Hp E1 E2 Ep Ew|h Hp E1 E2 Ep Ew|v H0 Hv E1 E2 Ep Ew];
    unfold sems_ok, semval in *; rewrite E1, E2.
  - split_and!; try done.
    + intros j u h [[-> ->]|[_ Hj]]%lookup_new Hu; [|by eapply S5]. destruct Ep as [Ep|Ep]; [congruence|].
      apply (S5 i t); congruence.
    + apply (pending_apart ts i t t'); try done. intros h Hh. destruct Ep; congruence.
    + intros j u h [[-> ->]|[_ Hj]]%lookup_new Hu; [by apply Ew|by eapply S7].
  - split_and!.
    + by rewrite lookup_insert_ne.
    + intros k c Hk Hne. destruct (decide (h = k)) as [->|Hhk]; [rewrite lookup_insert_eq in Hk; congruence|].
      rewrite lookup_insert_ne in Hk by done. by eapply S2.
    + intros Hne. rewrite lookup_insert_ne by done. by apply S3.
    + by rewrite lookup_insert_ne.
    + intros j u k [[-> ->]|[_ Hj]]%lookup_new Hu.
      * assert (k = h) as -> by congruence. split; [rewrite lookup_insert_eq; by eexists|done].
      * destruct (S5 j u k Hj Hu) as [[x Hx] Hne]. split; [|done]. rewrite lookup_insert_ne by congruence. by eexists.
    + intros j k v u p Hne [[-> ->]|[Hji Hj]]%lookup_new [[-> ->]|[Hki Hk]]%lookup_new Hv Hu; [done|..].
      * destruct (S5 k u p Hk Hu) as [[x Hx] _]. congruence.
      * destruct (S5 j v p Hj Hv) as [[x Hx] _]. congruence.
      * by eapply (S6 j k).
    + intros j u k [[-> ->]|[_ Hj]]%lookup_new Hu; [congruence|by eapply S7].
  - destruct (S5 i t h Hi Hp) as [[x Hx] Hne]. split_and!; try done.
    + intros k c Hk Hkh. apply (S2 k c Hk). rewrite H0. intros ->. congruence.
    + rewrite Hx. simpl. rewrite (S2 h x Hx Hne). lia.
    + intros j u k [[-> ->]|[Hji Hj]]%lookup_new Hu; [congruence|]. destruct (S5 j u k Hj Hu) as [HS _].
      split; [done|]. intros ->. by eapply (S6 i j t u h).
    + apply (pending_apart ts i t t'); try done. congruence.
    + intros j u k [[-> ->]|[_ Hj]]%lookup_new Hu; [right; congruence|]. left. rewrite H0 in S7.
      destruct (S7 j u k Hj Hu); done.
  - destruct (S5 i t h Hi Hp) as [[x Hx] Hne]. split_and!.
    + rewrite lookup_delete_ne by congruence. done.
    + intros k c Hk Hkl. apply lookup_delete_Some in Hk as [_ Hk]. by eapply S2.
    + intros Hl. rewrite lookup_delete_ne by done. by apply S3.
    + by rewrite lookup_delete_ne.
    + intros j u k [[-> ->]|[Hji Hj]]%lookup_new Hu; [congruence|]. destruct (S5 j u k Hj Hu) as [HS Hkl].
      split; [|done]. rewrite lookup_delete_ne; [done|]. intros ->. by eapply (S6 i j t u k).
    + apply (pending_apart ts i t t'); try done. congruence.
    + intros j u k [[-> ->]|[_ Hj]]%lookup_new Hu; [by apply Ew|by eapply S7].
  - split_and!.
    + by rewrite lookup_insert_ne.
    + intros k c Hk Hne. rewrite lookup_insert_ne in Hk by done. by eapply S2.
    + intros _. rewrite lookup_insert_eq. by eexists.
    + by rewrite lookup_insert_eq.
    + intros j u k [[-> ->]|[_ Hj]]%lookup_new Hu; [congruence|]. destruct (S5 j u k Hj Hu) as [[x Hx] Hne].
      split; [|done]. rewrite lookup_insert_ne by done. by eexists.
    + apply (pending_apart ts i t t'); try done. congruence.
    + intros j u k [[-> ->]|[_ Hj]]%lookup_new Hu; [congruence|by eapply S7].
Qed.

(** a thread without the token sees no more of the owner than that it is not
    the owner *)
Lemma local_ok_other c c' id t :
  local_ok c id t ->
  (OwningThread c' = OwningThread c /\ RecursionCount c' = RecursionCount c) \/
  (token t = 0 /\ (OwningThread c' = OwningThread c \/ OwningThread c' <> id)) ->
  local_ok c' id t.
Proof.
  intros (Hph & Hrec & Hown) [[Ho Hr]|[Ht Ho]].
  - unfold local_ok, recursion_ok in *. by rewrite Ho, Hr.
  - assert (shows t = false /\ recursion_ok c' t) as [Hs Hr'].
    { clear Hrec Hown Ho. destruct t as [p d]. unfold token, phase, shows, recursion_ok in *. simpl in *.
      destruct p; simpl in *; repeat case_match; zhyps; try done; split; try done; zcases. }
    split_and!; try done. rewrite Hs in *. apply Z.eqb_neq. apply Z.eqb_neq in Hown. destruct Ho; congruence.
Qed.
Lemma counted_bounds t : 1 <= D -> phase t -> 0 <= counted t <= D.
Proof.
  intros HD. destruct t as [p d]. unfold phase, counted. simpl.
  destruct p; repeat case_match; simpl; lia.
Qed.
Lemma tid_inj i j : tid i = tid j -> i = j.
Proof. unfold tid. lia. Qed.

Definition small (ts : list thread) : Prop := 1 <= D /\ zlen ts * D < 2 ^ 31 - 1.

Lemma inv_before s ts i t :
  inv (s, ts) -> small ts -> ts !! i = Some t ->
  before s (tid i) t (sum counted (others i ts)) (sum token (others i ts)).
Proof.
  intros (HL & HT & Hl & S1 & S2 & S3 & S4 & S5 & S6 & S7) [HD Hsm] Hi.
  assert (forall u, u ∈ ts -> 0 <= counted u <= D) as HC.
  { intros u [j Hj]%list_elem_of_lookup. apply counted_bounds; [done|]. by apply (Hl j u Hj). }
  pose proof (sum_bound counted ts D ltac:(intros u Hu; apply HC; done)).
  rewrite (sum_pick _ _ _ _ Hi) in HL, H. rewrite (sum_pick _ _ _ _ Hi) in HT.
  assert (0 <= sum counted (others i ts)) by (apply sum_nonneg; intros u Hu; apply HC; by eapply others_sub).
  assert (0 <= sum token (others i ts)) by (apply sum_nonneg; intros u _; apply token_nonneg).
  split_and!; try done; try lia; eauto.
Qed.

Lemma inv_step c i s ts s' ts' :
  inv (s, ts) -> small ts -> sys_step i386 c i (s, ts) = Some (s', ts') ->
  (forall t, ts !! i = Some t -> at_ t = Idle -> c <> CallLeave -> depth t < D) ->
  inv (s', ts') /\ zlen ts' = zlen ts.
Proof.
  intros Hinv Hsm HS Hc. unfold sys_step in HS. simpl in HS. destruct (ts !! i) as [t|] eqn:Hi; [|done].
  destruct (step i386 c s (tid i) t) as [[s1 t']|] eqn:Hst; [|done]. injection HS as -> <-.
  pose proof (inv_before _ _ _ _ Hinv Hsm Hi) as HB. split; [|apply zlen_insert].
  assert (1 <= D < 2 ^ 31) as HD.
  { destruct Hsm as [HD Hsm]. pose proof (lookup_lt_Some _ _ _ Hi). unfold zlen in Hsm. nia. }
  destruct (step_counts _ _ _ _ _ _ _ _ HB Hst HD (Hc t eq_refl)) as [HC Hph].
  destruct (step_owner _ _ _ _ _ _ _ _ HB Hst HD ltac:(unfold tid; lia)) as [Hr Ho].
  pose proof (step_token _ _ _ _ _ _ _ _ HB Hst) as HT. pose proof (step_frame _ _ _ _ _ _ _ _ HB Hst) as HF.
  pose proof (step_sem_effect _ _ _ _ _ _ _ _ HB Hst) as HE.
  destruct Hinv as (HL & HTok & Hl & Hsem). split_and!.
  - rewrite (sum_insert _ _ _ _ _ Hi). lia.
  - rewrite (sum_insert _ _ _ _ _ Hi). lia.
  - intros j u [[-> ->]|[Hne Hj]]%lookup_new; [by split_and!|].
    eapply local_ok_other; [by apply Hl|]. destruct HF as [HF|[Ht HF]]; [by left|right]. split.
    + pose proof (sum_in token (others i ts) u ltac:(intros; apply token_nonneg) (others_in _ _ _ _ Hne Hj)).
      pose proof (token_nonneg u). rewrite (sum_pick _ _ _ _ Hi) in HTok. destruct Hsem as (_ & _ & _ & S4 & _).
      destruct (_ =? -1); lia.
    + destruct HF as [->|[->| ->]]; [by left|right..]; [|unfold tid; lia]. intros E%tid_inj. congruence.
  - by eapply sems_preserved.
Qed.

Lemma new_section_inv n spin : 1 <= D -> inv (new_section spin, idle_threads n).
Proof.
  intros HD. assert (forall i t, idle_threads n !! i = Some t -> t = mkThread Idle 0) as HA.
  { intros i t. unfold idle_threads. by intros [-> _]%lookup_replicate. }
  assert (forall f, f (mkThread Idle 0) = 0 -> sum f (idle_threads n) = 0) as HS.
  { intros f Hf. unfold idle_threads. clear HA. induction n as [|n IH]; simpl; [done|]. lia. }
  split_and!; cbn -[sum].
  - by rewrite HS.
  - unfold semval. cbn -[sum]. by rewrite HS, counts_none.
  - intros i t ->%HA. split_and!; [unfold phase; simpl; lia|done|]. apply Z.eqb_neq. change (0 <> tid i). unfold tid. lia.
  - unfold sems_ok, semval. cbn. rewrite counts_none. split_and!; try done; intros; repeat match goal with H : idle_threads n !! _ = Some _ |- _ => apply HA in H as -> end; done.
Qed.
End Invariant.

Definition waiting (t : thread) : bool := match at_ t with Wait _ => true | _ => false end.
Lemma waiting_at t : waiting t = true <-> exists h, at_ t = Wait h.
Proof. unfold waiting. split; [destruct (at_ t); by eauto|by intros [h ->]]. Qed.

(** ** Reachable states *)
Section Reachable.
Context {SO : Semaphores} {SL : SemaphoreLaws} (i386 : bool) (D : Z).

Lemma reachable_inv n spin st :
  1 <= D /\ Z.of_nat n * D < 2 ^ 31 - 1 -> reachable i386 n D spin st -> inv i386 D st /\ small D (snd st).
Proof.
  intros Hsmall. induction 1 as [|[s ts] c i [s' ts'] _ [Hi Hs] Hst Hg].
  - split; [apply new_section_inv; lia|]. split; [lia|]. unfold zlen, idle_threads. simpl. rewrite length_replicate. lia.
  - destruct (inv_step i386 D c i s ts s' ts' Hi Hs Hst Hg) as [Hi' Hz]. split; [done|].
    unfold small in *. simpl in *. by rewrite Hz.
Qed.

Lemma tokens_exclusive s ts i j t u :
  inv i386 D (s, ts) -> ts !! i = Some t -> ts !! j = Some u -> token t = 1 -> token u = 1 -> i = j.
Proof.
  intros (_ & HT & _ & _ & _ & _ & S4 & _) Hi Hj Ht Hu. destruct (decide (j = i)) as [|Hne]; [done|].
  pose proof (sum_in token (others i ts) u ltac:(intros; apply token_nonneg) (others_in _ _ _ _ Hne Hj)).
  rewrite (sum_pick _ _ _ _ Hi) in HT. destruct (_ =? -1); lia.
Qed.

Lemma token_inside t : 0 < depth t -> token t = 1.
Proof. unfold token. intros. by zcases. Qed.

(** a thread that is not waiting for the semaphore can always go on *)
Lemma step_total s id t :
  at_ t <> Idle -> at_ t <> Raised -> (forall h, at_ t <> Wait h) -> is_Some (step i386 Go s id t).
Proof.
  intros H1 H2 H3. destruct t as [p d]. unfold step, RtlEnterCriticalSection,
    EnterContestedCriticalSection, RtlTryEnterCriticalSection, get_semaphore, RtlpWaitForCriticalSection,
    RtlpUnWaitCriticalSection, RtlLeaveCriticalSection, goto, ret, sem_ret, try_ret, interlocked_add,
    interlocked_cmpxchg. simpl in *.
  destruct p; simpl; try done; repeat case_match; try done; try (by eexists). exfalso. by eapply H3.
Qed.

Lemma idle_or_waiting_token t :
  phase D t -> (at_ t = Idle -> depth t = 0) -> (at_ t = Idle \/ exists h, at_ t = Wait h) ->
  token t = 0 /\ counted t = (if decide (at_ t = Idle) then 0 else 1).
Proof.
  intros Hph Hd Hat. destruct t as [p d]. unfold phase, token, counted in *. simpl in *.
  destruct Hat as [->|[h ->]]; simpl in *; [rewrite Hd by done|rewrite Hph]; simpl; by split.
Qed.
(** when every thread is outside or waits, the lock is in the semaphore *)
Lemma all_waiting s ts :
  inv i386 D (s, ts) ->
  (forall u, u ∈ ts -> (at_ u = Idle -> depth u = 0) /\ (at_ u = Idle \/ exists h, at_ u = Wait h)) ->
  (exists u, u ∈ ts /\ at_ u <> Idle) ->
  semval s = 1 /\ forall i u h, ts !! i = Some u -> at_ u = Wait h -> h = 0 \/ h = LockSemaphore (crit s).
Proof.
  intros (HL & HT & Hl & _ & _ & _ & S4 & _ & _ & S7) Hall (u & Hu & Hne). split.
  - assert (forall v, v ∈ ts -> token v = 0 /\ counted v = (if decide (at_ v = Idle) then 0 else 1)) as HA.
    { intros v Hv. destruct (Hall v Hv) as [H1 H2]. apply list_elem_of_lookup in Hv as [j Hj].
      by apply idle_or_waiting_token; [apply (Hl j v Hj)|..]. }
    assert (sum token ts <= zlen ts * 0) by (apply sum_bound; intros v Hv; destruct (HA v Hv); lia).
    assert (0 <= sum token ts) by (apply sum_nonneg; intros v Hv; destruct (HA v Hv); lia).
    assert (counted u <= sum counted ts).
    { apply sum_in; [|done]. intros v Hv. destruct (HA v Hv) as [_ ->]. by destruct (decide _). }
    destruct (HA u Hu) as [_ Hc]. destruct (decide (at_ u = Idle)); [done|].
    destruct (Z.eqb_spec (LockCount (crit s)) (-1)); lia.
  - intros i v h Hi Hv. apply (S7 i v h Hi). unfold working. by rewrite Hv.
Qed.
End Reachable.

End CritSectInv.
