(* ===== verification/CritSectSpec.v ===== *)
(** * Critical sections: correctness

    Mutual exclusion, the exact contents of the section, progress, the semaphore
    that is never released twice, for every interleaving of any number of
    threads, and the wake-up that is lost when there is no semaphore. *)
From stdpp Require Import gmap.
From S2P Require Import Prelude CritSect CritSectInv.
Import CritSect CritSectInv.

Module CritSectSpec.

(** ** Schedules as witnesses *)
#[global] Instance choice_eq_dec : EqDecision choice.
Proof. solve_decision. Defined.

Section Schedules.
Context {SO : Semaphores}.
Fixpoint run_within (i386 : bool) (D : Z) (sched : list (nat * choice)) (st : shared * list thread) :
    option (shared * list thread) :=
  match sched with
  | [] => Some st
  | (i, c) :: sched =>
    if match snd st !! i with
       | Some t => negb (bool_decide (at_ t = Idle)) || (depth t <? D) || bool_decide (c = CallLeave)
       | None => true
       end
    then match sys_step i386 c i st with Some st => run_within i386 D sched st | None => None end
    else None
  end.

Lemma run_within_reachable i386 n D spin sched : forall st st',
  reachable i386 n D spin st -> run_within i386 D sched st = Some st' -> reachable i386 n D spin st'.
Proof.
  induction sched as [|[i c] sched IH]; intros st st' Hr; simpl; [by intros [= <-]|].
  destruct (match snd st !! i with Some _ => _ | None => _ end) eqn:Hg; [|done].
  destruct (sys_step i386 c i st) as [st1|] eqn:Hs; [|done]. apply IH. eapply reach_step; [done|done|].
  intros t Ht Hat Hc. rewrite Ht in Hg. rewrite bool_decide_true in Hg by done.
  rewrite (bool_decide_false (c = CallLeave)) in Hg by done. simpl in Hg. rewrite orb_false_r in Hg. by zhyps.
Qed.

End Schedules.

(** ** Theorems *)
Section Theorems.
Context {SO : Semaphores} {SL : SemaphoreLaws}.

(** C1: mutual exclusion.  In every state that [n] threads can reach by entering,
    trying to enter and leaving in any interleaving, none nesting more than [D]
    deep and [n * D] below 2^31 - 1, with any spin count and with timeouts and
    failures of the semaphore, at most one thread is inside.  The section names
    it as the owner, except between the two last writes of its last leave, and
    while it makes no call the section has the number of times that it
    entered. *)
Theorem critical_section_mutex i386 n D spin s ts i j t u :
  1 <= D /\ Z.of_nat n * D < 2 ^ 31 - 1 -> reachable i386 n D spin (s, ts) ->
  ts !! i = Some t -> ts !! j = Some u -> 0 < depth t -> 0 < depth u ->
  i = j /\ (at_ t <> Leave4 -> OwningThread (crit s) = tid i) /\ (at_ t = Idle -> RecursionCount (crit s) = depth t).
Proof.
  intros Hsm Hr Hi Hj Ht Hu. destruct (reachable_inv i386 D n spin _ Hsm Hr) as [Hinv _]. split.
  - by eapply tokens_exclusive; eauto using token_inside.
  - destruct Hinv as (_ & _ & Hl & _). destruct (Hl i t Hi) as (Hph & Hrec & Hown). split.
    + intros Hat. apply Z.eqb_eq. rewrite Hown. unfold phase, shows in *. clear Hrec Hown Hl.
      destruct (at_ t); try done; repeat case_match; zhyps; try lia; zcases.
    + intros Hat. unfold recursion_ok in Hrec. rewrite Hat in Hrec. by apply Hrec.
Qed.

(** the semaphore is never released twice: a thread that hands the lock over
    through a semaphore always succeeds, and leaves the semaphore with the
    count 1 for the next thread. *)
Theorem release_within_limit i386 n D spin s ts i t h :
  1 <= D /\ Z.of_nat n * D < 2 ^ 31 - 1 -> reachable i386 n D spin (s, ts) ->
  ts !! i = Some t -> at_ t = Unwait h -> h <> 0 ->
  exists ss, step i386 Go s (tid i) t = Some (mkShared (crit s) ss, mkThread Idle 0) /\ sem_counts ss = <[h := 1]> (table s).
Proof.
  intros Hsm Hr Hi Hat Hh. destruct (reachable_inv i386 D n spin _ Hsm Hr) as [Hinv _].
  destruct Hinv as (_ & HT & Hl & S1 & S2 & S3 & S4 & S5 & S6 & S7).
  destruct (S7 i t h Hi) as [->| ->]; [unfold working; by rewrite Hat|done|].
  assert (token t = 1) as Ht by (unfold token; rewrite Hat; by destruct (0 <? depth t)).
  rewrite (sum_pick _ _ _ _ Hi) in HT.
  assert (0 <= sum token (others i ts)) by (apply sum_nonneg; intros; apply token_nonneg).
  assert (semval s = 0) as Hsv by (destruct (_ =? -1); lia).
  destruct (S3 Hh) as [x Hx]. unfold semval in Hsv. rewrite Hx in Hsv. simpl in Hsv. subst x.
  destruct (Hl i t Hi) as (Hph & _). unfold phase in Hph. rewrite Hat in Hph.
  destruct (release_law _ _ _ Hx ltac:(lia)) as (ss & Hss & Hc). exists ss. split; [|exact Hc].
  unfold step, RtlpUnWaitCriticalSection. rewrite Hat, Hss. unfold ret. by rewrite Hph.
Qed.

(** a thread that waits gets the lock, or looks for the semaphore again, when
    the lock is in the semaphore *)
Lemma wait_goes_on s ts i t h i386 D :
  inv i386 D (s, ts) -> semval s = 1 -> ts !! i = Some t -> at_ t = Wait h -> is_Some (step i386 Go s (tid i) t).
Proof.
  intros (_ & _ & _ & S1 & _ & _ & _ & _ & _ & S7) Hsem Hi Hh.
  unfold step, RtlpWaitForCriticalSection. rewrite Hh.
  destruct (S7 i t h Hi ltac:(unfold working; by rewrite Hh)) as [->| ->].
  - rewrite wait_invalid by done. by eexists.
  - unfold semval in Hsem. destruct (table s !! LockSemaphore (crit s)) as [x|] eqn:Ex; simpl in Hsem; [|lia].
    destruct (wait_law _ _ _ Ex ltac:(lia)) as (ss & -> & _). by eexists.
Qed.

(** C31: progress.  When no thread is inside and some thread is in a call, some
    thread in a call can go on, so that no wake-up is lost, unless a leaving
    thread has raised an exception instead of releasing; and a release through
    a semaphore never raises one, so that this needs a system that refused to
    make the semaphore. *)
Theorem critical_section_progress i386 n D spin s ts :
  1 <= D /\ Z.of_nat n * D < 2 ^ 31 - 1 -> reachable i386 n D spin (s, ts) ->
  ((forall t, t ∈ ts -> at_ t = Idle -> depth t = 0) -> (exists t, t ∈ ts /\ at_ t <> Idle) ->
   (exists t, t ∈ ts /\ at_ t = Raised) \/
   exists i t s' ts', ts !! i = Some t /\ at_ t <> Idle /\ sys_step i386 Go i (s, ts) = Some (s', ts')) /\
  (forall i t h, ts !! i = Some t -> at_ t = Unwait h -> h <> 0 -> exists s', step i386 Go s (tid i) t = Some (s', mkThread Idle 0)).
Proof.
  intros Hsm Hr. split.
  2: { intros i t h Hi Hat Hh. destruct (release_within_limit i386 n D spin s ts i t h Hsm Hr Hi Hat Hh) as (ss & E & _). by eexists. }
  intros Hok (t & Ht & Hat). destruct (reachable_inv i386 D n spin _ Hsm Hr) as [Hinv _].
  destruct (decide (Exists (fun u => at_ u = Raised) ts)) as [(u & Hu & HR)%list.Exists_exists|Hnr]; [left; eauto|right].
  assert (forall u, u ∈ ts -> at_ u <> Raised) as Hnr2 by (intros u Hu HR; apply Hnr, list.Exists_exists; eauto). clear Hnr.
  assert (forall i u, ts !! i = Some u -> at_ u <> Idle -> is_Some (step i386 Go s (tid i) u) ->
    exists i t s' ts', ts !! i = Some t /\ at_ t <> Idle /\ sys_step i386 Go i (s, ts) = Some (s', ts')) as HG.
  { intros i u Hi Hu [[s' u'] Hst]. exists i, u, s', (<[i := u']> ts). split; [done|]. split; [done|].
    unfold sys_step. simpl. by rewrite Hi, Hst. }
  destruct (decide (Forall (fun u => at_ u = Idle \/ waiting u = true) ts)) as [Hall|Hsome].
  - rewrite list.Forall_forall in Hall. apply list_elem_of_lookup in Ht as [i Hi].
    destruct (all_waiting i386 D s ts Hinv) as [Hsem _].
    + intros u Hu. split; [by apply Hok|]. destruct (Hall u Hu) as [?|Hw]; [by left|right; by apply waiting_at].
    + exists t. split; [by eapply list_elem_of_lookup_2|done].
    + apply (HG i t Hi Hat). destruct (Hall t) as [?|[h Hh]%waiting_at]; [by eapply list_elem_of_lookup_2|done|].
      by eapply wait_goes_on.
  - apply not_Forall_Exists in Hsome; [|apply _]. apply list.Exists_exists in Hsome as (u & Hu & Hnot). unfold compose in Hnot.
    apply list_elem_of_lookup in Hu as [i Hi]. apply (HG i u Hi); [tauto|].
    apply step_total; [tauto|by apply Hnr2; eapply list_elem_of_lookup_2|]. intros h Hh. apply Hnot. right. by apply waiting_at; eauto.
Qed.

(** the spin loop of EnterContestedCriticalSection never acquires the lock: the
    thread has counted itself already, so the count is not -1 *)
Lemma spin_never_acquires i386 n D spin s ts i t k :
  1 <= D /\ Z.of_nat n * D < 2 ^ 31 - 1 -> reachable i386 n D spin (s, ts) ->
  ts !! i = Some t -> at_ t = Try0 (BySpin k) ->
  LockCount (crit s) <> -1 /\ OwningThread (crit s) <> tid i.
Proof.
  intros Hsm Hr Hi Hat. destruct (reachable_inv i386 D n spin _ Hsm Hr) as [Hinv Hs].
  destruct (inv_before i386 D _ _ _ _ Hinv Hs Hi) as ((Hph & _ & Hown) & HK & HK0 & _).
  unfold phase, shows, counted in *. rewrite Hat in *. rewrite Hph in *. split; [lia|]. by apply Z.eqb_neq.
Qed.

End Theorems.

(** ** Semaphores of a process, as a map of counts *)
#[export] Instance map_sems : Semaphores := {
  sems := gmap Z Z;
  no_sems := ∅;
  NtCreateSemaphore ss := let h := fresh ({[0]} ∪ dom ss : gset Z) in (<[h := 0]> ss, h);
  NtReleaseSemaphore ss h := match ss !! h with Some c => if c <? 1 then Some (<[h := c + 1]> ss) else None | None => None end;
  NtWaitForSemaphore ss h := match ss !! h with Some c => if 0 <? c then Acquired (<[h := c - 1]> ss) else Blocked | None => WaitFailed end;
  NtClose ss h := delete h ss;
}.
#[export] Instance map_sems_laws : SemaphoreLaws.
Proof.
  apply (Build_SemaphoreLaws map_sems (fun ss => ss)); simpl.
  - done.
  - intros ss ss' h [= <- <-]. pose proof (is_fresh ({[0]} ∪ dom ss : gset Z)) as Hf. split_and!; [|apply not_elem_of_dom; set_solver|done].
    intros E. rewrite E in Hf. set_solver.
  - intros ss h c -> Hc. replace (c <? 1) with true by lia. by eexists.
  - intros ss h c -> Hc. by replace (c <? 1) with false by lia.
  - by intros ss h ->.
  - intros ss h c -> Hc. replace (0 <? c) with true by lia. by eexists.
  - intros ss h c -> Hc. by replace (0 <? c) with false by lia.
  - by intros ss h ->.
  - done.
Defined.

Definition enter1 (i : nat) : list (nat * choice) := [(i, CallEnter); (i, Go); (i, Go); (i, Go)].
(** thread 0 is inside; thread 1 comes and waits; thread 0 leaves up to the
    release *)
Definition handover : list (nat * choice) :=
  enter1 0 ++ [(1%nat, CallEnter); (1%nat, Go); (1%nat, Go); (1%nat, Go); (1%nat, Go); (1%nat, Go); (1%nat, Go)] ++
  [(0%nat, CallLeave); (0%nat, Go); (0%nat, Go); (0%nat, Go); (0%nat, Go); (0%nat, Go)].
Definition at_state (sched : list (nat * choice)) : shared * list thread :=
  match run_within true 5 sched (new_section 0, idle_threads 2) with
  | Some st => st
  | None => (new_section 0, idle_threads 2)
  end.
Definition runs (sched : list (nat * choice)) : bool :=
  match run_within true 5 sched (new_section 0, idle_threads 2) with Some _ => true | None => false end.
Lemma at_state_reachable sched : runs sched = true -> reachable true 2 5 0 (at_state sched).
Proof.
  unfold runs, at_state. intros Hs. destruct (run_within _ _ _ _) as [st|] eqn:E; [|done].
  by eapply run_within_reachable; [apply reach_start|].
Qed.
(** the program points and depths of the threads, the owner and the count *)
Definition threads_at (sched : list (nat * choice)) : list (pc * Z) := map (fun t => (at_ t, depth t)) (snd (at_state sched)).
Lemma threads_at_lookup sched i p d : threads_at sched !! i = Some (p, d) -> snd (at_state sched) !! i = Some (mkThread p d).
Proof.
  unfold threads_at. rewrite list_lookup_fmap. destruct (snd (at_state sched) !! i) as [[p' d']|]; [|done]. simpl. by intros [= -> ->].
Qed.
Lemma threads_at_in sched t : t ∈ snd (at_state sched) -> (at_ t, depth t) ∈ threads_at sched.
Proof. intros Ht. unfold threads_at. apply list_elem_of_fmap. by exists t. Qed.

Lemma critical_section_mutex_witness :
  exists s ts t, reachable true 2 5 0 (s, ts) /\ ts !! 0%nat = Some t /\ depth t = 1 /\
    OwningThread (crit s) = tid 0 /\ RecursionCount (crit s) = 1.
Proof.
  assert (Hr : reachable true 2 5 0 (at_state (enter1 0))) by (apply at_state_reachable; vm_compute; reflexivity).
  assert (Ht : snd (at_state (enter1 0)) !! 0%nat = Some (mkThread Idle 1)) by (apply threads_at_lookup; vm_compute; reflexivity).
  destruct (at_state (enter1 0)) as [s ts]. exists s, ts, (mkThread Idle 1).
  destruct (critical_section_mutex true 2 5 0 s ts 0 0 (mkThread Idle 1) (mkThread Idle 1) ltac:(lia) Hr Ht Ht ltac:(simpl; lia) ltac:(simpl; lia)) as (_ & H1 & H2).
  split; [exact Hr|]. split; [exact Ht|]. split; [reflexivity|]. split; [apply H1; discriminate|exact (H2 eq_refl)].
Defined.

(** thread 0 left and released; thread 1 still waits *)
Definition released : list (nat * choice) := handover ++ [(0%nat, Go)].
Lemma released_threads : threads_at released = [(Idle, 0); (Wait 1, 0)].
Proof. vm_compute. reflexivity. Qed.
Lemma critical_section_progress_witness :
  exists s ts, reachable true 2 5 0 (s, ts) /\ ts !! 1%nat = Some (mkThread (Wait 1) 0) /\
    ((exists t, t ∈ ts /\ at_ t = Raised) \/
     exists i t s' ts', ts !! i = Some t /\ at_ t <> Idle /\ sys_step true Go i (s, ts) = Some (s', ts')).
Proof.
  assert (Hr : reachable true 2 5 0 (at_state released)) by (apply at_state_reachable; vm_compute; reflexivity).
  assert (Ht : snd (at_state released) !! 1%nat = Some (mkThread (Wait 1) 0)) by (apply threads_at_lookup; by rewrite released_threads).
  pose proof (threads_at_in released) as Hin. rewrite released_threads in Hin.
  destruct (at_state released) as [s ts]. exists s, ts. split; [exact Hr|]. split; [exact Ht|].
  apply (critical_section_progress true 2 5 0 s ts ltac:(lia) Hr).
  - intros t [E|[E|[]%elem_of_nil]%elem_of_cons]%Hin%elem_of_cons Hat; congruence.
  - exists (mkThread (Wait 1) 0). split; [by eapply list_elem_of_lookup_2|done].
Defined.

(** a thread that the system refuses the semaphore leaves without releasing, and
    the thread that waits is never woken: the wake-up that is lost *)
Definition refused : list (nat * choice) :=
  enter1 0 ++ [(1%nat, CallEnter); (1%nat, Go); (1%nat, Go); (1%nat, Go); (1%nat, Go)] ++
  [(0%nat, CallLeave); (0%nat, Go); (0%nat, Go); (0%nat, Go); (0%nat, Go); (0%nat, Go); (0%nat, Refuse); (0%nat, Go)] ++
  [(1%nat, Go); (1%nat, Go)].
Definition stuck (i : nat) : bool := match sys_step true Go i (at_state refused) with Some _ => false | None => true end.
Theorem refused_release_loses_wakeup : reachable true 2 5 0 (at_state refused) /\
  threads_at refused = [(Raised, 0); (Wait 1, 0)] /\ stuck 0 = true /\ stuck 1 = true.
Proof. split; [apply at_state_reachable; vm_compute; reflexivity|]. split; [|split]; vm_compute; reflexivity. Qed.

End CritSectSpec.
