(* ===== verification/Atom.v ===== *)
(** * Atom tables (dlls/ntdll/atom.c)

    Integer atoms are numbers below 0xc000, written "#" and the number.  String
    atoms of the 16-bit calls live in the data segment of the caller: a hash
    table of chains of entries, each with a count of its users; an atom is the
    handle of its entry, shifted.  The 32-bit calls keep string atoms in the
    server process, which is an interface here, like the code page. *)
From stdpp Require Import gmap.
From S2P Require Import Prelude.

(** the requests for atoms to the server; [local] selects the table *)
Class AtomServer (F : Type) := {
  srv_add_atom : F -> bool -> list Z -> F * option Z;
  srv_delete_atom : F -> bool -> Z -> F * bool;
  srv_find_atom : F -> bool -> list Z -> option Z;
  srv_get_atom_name : F -> bool -> Z -> option (list Z);
  (* the characters of the code page, to wide characters and back *)
  to_wide : list Z -> list Z;
  to_bytes : list Z -> list Z
}.

Module Atom.

Definition DEFAULT_ATOMTABLE_SIZE : Z := 37.
Definition MAX_ATOM_LEN : Z := 255.
Definition MAXINTATOM : Z := 0xc000.

(** (HANDLE16)(atom) << 2, in 16 bits, and back *)
Definition ATOMTOHANDLE (atom : Z) : Z := u16 (Z.shiftl atom 2).
Definition HANDLETOATOM (handle : Z) : Z := Z.lor 0xc000 (Z.shiftr handle 2).

(** ** State *)
Record ATOMENTRY := mkEntry { next : Z; refCount : Z; length_ : Z; str : list Z }.
(** the size is the number of entries *)
Record ATOMTABLE := mkTable { entries : list Z }.

(** a data segment: its table, when there is one, and the entries by handle *)
Record segment := mkSeg { atomtable : option ATOMTABLE; ents : gmap Z ATOMENTRY }.

(** ** Integer atoms *)

(** an atom name is a small number or a string *)
Inductive atomstr := AInt (n : Z) | AStr (s : list Z).

(** the digits, and the rest of the string *)
Fixpoint digits_loop (atom : Z) (s : list Z) : Z * list Z :=
  match s with
  | c :: s' => if (48 <=? c) && (c <=? 57) then digits_loop (u32 (atom * 10 + c - 48)) s' else (atom, s)
  | [] => (atom, [])
  end.

(** [None]: not an integer atom; otherwise the id *)
Definition ATOM_IsIntAtomA (a : atomstr) : option Z :=
  let check (atom : Z) := Some (if (atom =? 0) || (MAXINTATOM <=? atom) then 0 else u16 atom) in
  match a with
  | AInt n => check n
  | AStr [] => None
  | AStr (c :: s) =>
    if negb (c =? 35) then None
    else let '(atom, rest) := digits_loop 0 s in
         match rest with [] => check atom | _ => None end
  end.
(** the same code on wide characters *)
Definition ATOM_IsIntAtomW := ATOM_IsIntAtomA.

(** sprintf( text, "#%d", atom ), for an atom that is not negative *)
Fixpoint dec_digits (fuel : nat) (n : Z) : list Z :=
  match fuel with
  | O => []
  | S fuel => if n <? 10 then [48 + n] else dec_digits fuel (n / 10) ++ [48 + n mod 10]
  end.
Definition int_name (atom : Z) : list Z := 35 :: dec_digits 6 atom.

(** ** The hash table *)

(** a char is signed *)
Definition schar (c : Z) : Z := if c <? 128 then c else c - 256.
Definition ctoupper (c : Z) : Z := if (97 <=? c) && (c <=? 122) then c - 32 else c.

Fixpoint hash_loop (hash i : Z) (s : list Z) : Z :=
  match s with
  | [] => hash
  | c :: s => hash_loop (u16 (Z.lxor hash (ctoupper (schar c) + i))) (i + 1) s
  end.
(** the first [len] characters *)
Definition ATOM_Hash (n : Z) (s : list Z) (len : Z) : Z := Z.rem (hash_loop 0 0 (take (Z.to_nat len) s)) n.

(** access through a handle; a handle of no entry faults *)
Definition entry (sg : segment) (h : Z) : outcome ATOMENTRY :=
  match ents sg !! h with Some e => Ret e | None => Fault end.
Definition put_entry (sg : segment) (h : Z) (e : ATOMENTRY) : segment :=
  mkSeg (atomtable sg) (<[h := e]> (ents sg)).
Definition put_table (sg : segment) (t : ATOMTABLE) : segment := mkSeg (Some t) (ents sg).

(** the chain from [h]: the handle of the entry with the string, or 0; an
    entry per round *)
Fixpoint find_chain (fuel : nat) (sg : segment) (s : list Z) (len h : Z) : outcome Z :=
  if h =? 0 then Ret 0 else
  match fuel with
  | O => Spin
  | S fuel =>
    let! e := entry sg h in
    if (length_ e =? len) && same_nocase (take (Z.to_nat len) (str e)) (take (Z.to_nat len) s) then Ret h
    else find_chain fuel sg s len (next e)
  end.
Definition chain_fuel (sg : segment) : nat := S (base.size (ents sg)).

(** prevEntry points into the table or at the link of an entry *)
Inductive slot := Bucket (hash : Z) | NextOf (h : Z).
Definition rd_slot (sg : segment) (t : ATOMTABLE) (p : slot) : outcome Z :=
  match p with
  | Bucket i => rd (entries t) i
  | NextOf h => let! e := entry sg h in Ret (next e)
  end.
Definition wr_slot (sg : segment) (t : ATOMTABLE) (p : slot) (v : Z) : outcome segment :=
  match p with
  | Bucket i => let! es := wr (entries t) i v in Ret (put_table sg (mkTable es))
  | NextOf h => let! e := entry sg h in Ret (put_entry sg h (mkEntry v (refCount e) (length_ e) (str e)))
  end.
Fixpoint find_prev (fuel : nat) (sg : segment) (t : ATOMTABLE) (h : Z) (p : slot) : outcome slot :=
  let! v := rd_slot sg t p in
  if (v =? 0) || (v =? h) then Ret p else
  match fuel with
  | O => Spin
  | S fuel => find_prev fuel sg t h (NextOf v)
  end.

(** ** The 32-bit calls *)
Section Calls.
Context {F : Type} `{AtomServer F}.

(** MultiByteToWideChar and WideCharToMultiByte: the number of characters, 0
    when they do not fit, and the characters; with no room to write they only
    count *)
Definition MultiByteToWideChar (s : list Z) (dstlen : Z) : Z * list Z :=
  let w := to_wide s in
  if dstlen =? 0 then (zlen w, []) else if dstlen <? zlen w then (0, []) else (zlen w, w).
Definition WideCharToMultiByte (w : list Z) (dstlen : Z) : Z * list Z :=
  let s := to_bytes w in
  if dstlen =? 0 then (zlen s, []) else if dstlen <? zlen s then (0, []) else (zlen s, s).

Definition ATOM_AddAtomA (f : F) (a : atomstr) (local : bool) : F * Z :=
  match ATOM_IsIntAtomA a, a with
  | Some atom, _ => (f, atom)
  | None, AInt _ => (f, 0)
  | None, AStr s =>
    let '(len, buffer) := MultiByteToWideChar s MAX_ATOM_LEN in
    if len =? 0 then (f, 0)
    else let '(f, r) := srv_add_atom f local buffer in (f, default 0 r)
  end.
Definition GlobalAddAtomA (f : F) (a : atomstr) : F * Z := ATOM_AddAtomA f a false.
Definition AddAtomA (f : F) (a : atomstr) : F * Z := ATOM_AddAtomA f a true.

Definition ATOM_AddAtomW (f : F) (a : atomstr) (local : bool) : F * Z :=
  match ATOM_IsIntAtomW a, a with
  | Some atom, _ => (f, atom)
  | None, AInt _ => (f, 0)
  | None, AStr s =>
    if MAX_ATOM_LEN <? zlen s then (f, 0)
    else let '(f, r) := srv_add_atom f local s in (f, default 0 r)
  end.
Definition GlobalAddAtomW (f : F) (a : atomstr) : F * Z := ATOM_AddAtomW f a false.
Definition AddAtomW (f : F) (a : atomstr) : F * Z := ATOM_AddAtomW f a true.

Definition ATOM_DeleteAtom (f : F) (atom : Z) (local : bool) : F * Z :=
  if atom <? MAXINTATOM then (f, 0)
  else let '(f, ok) := srv_delete_atom f local atom in (f, if ok then 0 else atom).
Definition GlobalDeleteAtom (f : F) (atom : Z) : F * Z := ATOM_DeleteAtom f atom false.
Definition DeleteAtom (f : F) (atom : Z) : F * Z := ATOM_DeleteAtom f atom true.

Definition ATOM_FindAtomA (f : F) (a : atomstr) (local : bool) : Z :=
  match ATOM_IsIntAtomA a, a with
  | Some atom, _ => atom
  | None, AInt _ => 0
  | None, AStr s =>
    let '(len, buffer) := MultiByteToWideChar s MAX_ATOM_LEN in
    if len =? 0 then 0 else default 0 (srv_find_atom f local buffer)
  end.
Definition GlobalFindAtomA (f : F) (a : atomstr) : Z := ATOM_FindAtomA f a false.
Definition FindAtomA (f : F) (a : atomstr) : Z := ATOM_FindAtomA f a true.

Definition ATOM_FindAtomW (f : F) (a : atomstr) (local : bool) : Z :=
  match ATOM_IsIntAtomW a, a with
  | Some atom, _ => atom
  | None, AInt _ => 0
  | None, AStr s => if MAX_ATOM_LEN <? zlen s then 0 else default 0 (srv_find_atom f local s)
  end.
Definition GlobalFindAtomW (f : F) (a : atomstr) : Z := ATOM_FindAtomW f a false.
Definition FindAtomW (f : F) (a : atomstr) : Z := ATOM_FindAtomW f a true.

(** the buffer has [count] characters: the result and, when it is not 0, the
    string in the buffer; a terminator after the buffer faults *)
Definition ATOM_GetAtomNameA (f : F) (atom count : Z) (local : bool) : outcome (Z * list Z) :=
  if count <=? 0 then Ret (0, []) else
  if atom <? MAXINTATOM then
    if atom =? 0 then Ret (0, []) else
    let len := zlen (int_name atom) in
    Ret (if count <=? len then (0, []) else (len, int_name atom))
  else
    let! (len, buffer) :=
      match srv_get_atom_name f local atom with
      | None => Ret (0, [])
      | Some full_name =>
        let '(len, text) := WideCharToMultiByte full_name (count - 1) in
        if len =? 0 then Ret (count, []) else if len <? count then Ret (len, text) else Fault
      end in
    Ret (if negb (len =? 0) && (count <=? len) then (0, []) else (len, buffer)).
Definition GlobalGetAtomNameA (f : F) (atom count : Z) := ATOM_GetAtomNameA f atom count false.
Definition GetAtomNameA (f : F) (atom count : Z) := ATOM_GetAtomNameA f atom count true.

(** for an integer atom the name is converted with its terminator, which is
    counted *)
Definition ATOM_GetAtomNameW (f : F) (atom count : Z) (local : bool) : Z * list Z :=
  if count <=? 0 then (0, []) else
  if atom <? MAXINTATOM then
    if atom =? 0 then (0, []) else
    let name := to_wide (int_name atom) in
    let len := if count <? zlen name + 1 then 0 else zlen name + 1 in
    if count <=? len then (0, []) else (len, if len =? 0 then [] else name)
  else
    match srv_get_atom_name f local atom with
    | None => (0, [])
    | Some full_name =>
      let len := zlen full_name in
      if len =? 0 then (0, []) else
      let count := if len <? count then len + 1 else count in
      if count <=? len then (0, []) else (len, take (Z.to_nat (count - 1)) full_name)
    end.
Definition GlobalGetAtomNameW (f : F) (atom count : Z) := ATOM_GetAtomNameW f atom count false.
Definition GetAtomNameW (f : F) (atom count : Z) := ATOM_GetAtomNameW f atom count true.

(** ** The 16-bit calls

    [h1] and [h2] are the results of LocalAlloc16 for the table and the entry *)

(** ATOM_UserDS, the server and the segment of the caller *)
Record state := mkState { ATOM_UserDS : Z; srv : F; seg : segment }.
Definition with_seg (st : state) (sg : segment) : state := mkState (ATOM_UserDS st) (srv st) sg.
Definition with_srv (st : state) (f : F) : state := mkState (ATOM_UserDS st) f (seg st).

Definition ATOM_Init (st : state) (globalTableSel : Z) : state := mkState globalTableSel (srv st) (seg st).

Section Segment.
Context (CURRENT_DS : Z).

Definition InitAtomTable16 (st : state) (n h1 : Z) : state * Z :=
  if ATOM_UserDS st =? 0 then (mkState CURRENT_DS (srv st) (seg st), h1)
  else
    let n := if n =? 0 then DEFAULT_ATOMTABLE_SIZE else n in
    if h1 =? 0 then (st, 0)
    else (with_seg st (put_table (seg st) (mkTable (replicate (Z.to_nat n) 0))), h1).

Definition size (t : ATOMTABLE) : Z := zlen (entries t).

(** the table of the segment, created when asked to; when InitAtomTable16 made
    the segment USER's there is none, and the caller does not use it *)
Definition ATOM_GetTable (st : state) (create : bool) (h1 : Z) : state * option ATOMTABLE :=
  match atomtable (seg st) with
  | Some t => if size t =? 0 then (st, None) else (st, Some t)
  | None =>
    if negb create then (st, None)
    else let '(st, r) := InitAtomTable16 st 0 h1 in
         if r =? 0 then (st, None) else (st, Some (default (mkTable []) (atomtable (seg st))))
  end.

Definition GetAtomHandle16 (atom : Z) : Z := if atom <? MAXINTATOM then 0 else ATOMTOHANDLE atom.

Definition AddAtom16 (st : state) (a : atomstr) (h1 h2 : Z) : outcome (state * Z) :=
  match ATOM_IsIntAtomA a, a with
  | Some iatom, _ => Ret (st, iatom)
  | None, AInt _ => Fault
  | None, AStr s =>
    let buffer := take (Z.to_nat MAX_ATOM_LEN) s in
    let len := zlen buffer in
    match ATOM_GetTable st true h1 with
    | (st, None) => Ret (st, 0)
    | (st, Some table) =>
      if CURRENT_DS =? ATOM_UserDS st then
        let '(f, atom) := GlobalAddAtomA (srv st) a in Ret (with_srv st f, atom)
      else
      let sg := seg st in
      let hash := ATOM_Hash (size table) buffer len in
      let! h0 := rd (entries table) hash in
      let! h := find_chain (chain_fuel sg) sg buffer len h0 in
      if negb (h =? 0) then
        let! e := entry sg h in
        Ret (with_seg st (put_entry sg h (mkEntry (next e) (u16 (refCount e + 1)) (length_ e) (str e))),
             HANDLETOATOM h)
      else if h2 =? 0 then Ret (st, 0)
      else
        let sg := put_entry sg h2 (mkEntry h0 1 (u8 len) buffer) in
        let! es := wr (entries table) hash h2 in
        Ret (with_seg st (put_table sg (mkTable es)), HANDLETOATOM h2)
    end
  end.

Definition DeleteAtom16 (st : state) (atom : Z) : outcome (state * Z) :=
  if atom <? MAXINTATOM then Ret (st, 0) else
  if CURRENT_DS =? ATOM_UserDS st then
    let '(f, r) := GlobalDeleteAtom (srv st) atom in Ret (with_srv st f, r)
  else
  match ATOM_GetTable st false 0 with
  | (st, None) => Ret (st, 0)
  | (st, Some table) =>
    let sg := seg st in
    let h := ATOMTOHANDLE atom in
    let! e := entry sg h in
    let hash := ATOM_Hash (size table) (str e) (length_ e) in
    let! p := find_prev (chain_fuel sg) sg table h (Bucket hash) in
    let! v := rd_slot sg table p in
    if v =? 0 then Ret (st, atom) else
    let e := mkEntry (next e) (u16 (refCount e - 1)) (length_ e) (str e) in
    let sg := put_entry sg h e in
    if refCount e =? 0 then
      let! sg := wr_slot sg table p (next e) in
      Ret (with_seg st (mkSeg (atomtable sg) (delete h (ents sg))), 0)
    else Ret (with_seg st sg, 0)
  end.

Definition FindAtom16 (st : state) (a : atomstr) : outcome Z :=
  if CURRENT_DS =? ATOM_UserDS st then Ret (GlobalFindAtomA (srv st) a) else
  match ATOM_IsIntAtomA a, a with
  | Some iatom, _ => Ret iatom
  | None, AInt _ => Fault
  | None, AStr s =>
    let len := if 255 <? zlen s then 255 else zlen s in
    match snd (ATOM_GetTable st false 0) with
    | None => Ret 0
    | Some table =>
      let sg := seg st in
      let! h0 := rd (entries table) (ATOM_Hash (size table) s len) in
      let! h := find_chain (chain_fuel sg) sg s len h0 in
      Ret (if h =? 0 then 0 else HANDLETOATOM h)
    end
  end.

(** the result and the string in the buffer, when the call stores one; the
    length is compared with [count] as an unsigned number *)
Definition GetAtomName16 (st : state) (atom count : Z) : outcome (Z * list Z) :=
  if CURRENT_DS =? ATOM_UserDS st then GlobalGetAtomNameA (srv st) atom count else
  if count =? 0 then Ret (0, []) else
  let copy (text : list Z) (len : Z) :=
    let len := if u32 count <=? len then count - 1 else len in
    if (0 <=? len) && (len <=? zlen text) then Ret (len, take (Z.to_nat len) text) else Fault in
  if atom <? MAXINTATOM then copy (int_name atom) (zlen (int_name atom))
  else match snd (ATOM_GetTable st false 0) with
       | None => Ret (0, [])
       | Some _ => let! e := entry (seg st) (ATOMTOHANDLE atom) in copy (str e) (length_ e)
       end.
End Segment.
End Calls.
Arguments state F : clear implicits.

End Atom.
