(* ===== verification/AtomSpec.v ===== *)
(** * Atom tables: correctness

    The table of a segment is a map from names, up to the case of their
    letters, to a handle and a count.  Integer atoms survive printing and
    parsing. *)
From stdpp Require Import gmap.
From S2P Require Import Prelude Atom.
Import Atom.

Module AtomSpec.

(** ** Names *)
Definition canon (s : list Z) : list Z := map tolower s.

Lemma canon_length s s' : canon s = canon s' -> zlen s = zlen s'.
Proof. intros E%(f_equal length). unfold canon in E. rewrite !length_map in E. unfold zlen. lia. Qed.
Lemma same_nocase_canon a b : same_nocase a b = bool_decide (canon a = canon b).
Proof. done. Qed.

(** ** The hash does not see the case of letters *)
Lemma ctoupper_tolower a b : tolower a = tolower b -> ctoupper (schar a) = ctoupper (schar b).
Proof.
  unfold tolower, isupper, ctoupper, schar. zcases.
Qed.
Lemma hash_canon a b : forall h i, canon a = canon b -> hash_loop h i a = hash_loop h i b.
Proof.
  revert b. induction a as [|x a IH]; intros [|y b] h i E; try done. injection E as Exy E. simpl.
  rewrite (ctoupper_tolower x y Exy). by apply IH.
Qed.
Lemma hash_range s : forall h i, 0 <= h < 2 ^ 16 -> 0 <= hash_loop h i s < 2 ^ 16.
Proof.
  induction s as [|c s IH]; intros h i Hh; [done|]. simpl. apply IH. apply wrapU_range. lia.
Qed.
Lemma Hash_range n s len : 0 < n -> 0 <= ATOM_Hash n s len < n.
Proof.
  intros Hn. unfold ATOM_Hash. pose proof (hash_range (take (Z.to_nat len) s) 0 0 ltac:(lia)).
  rewrite Z.rem_mod_nonneg by lia. apply Z.mod_pos_bound. lia.
Qed.
Lemma Hash_canon n a b : canon a = canon b -> ATOM_Hash n a (zlen a) = ATOM_Hash n b (zlen b).
Proof. intros E. unfold ATOM_Hash. rewrite !take_zlen. by rewrite (hash_canon a b). Qed.

(** ** Handles and atoms *)
Definition valid_handle (h : Z) : Prop := 0 < h < 2 ^ 16 /\ Z.rem h 4 = 0.
Lemma handle_roundtrip h :
  valid_handle h -> ATOMTOHANDLE (HANDLETOATOM h) = h /\ MAXINTATOM <= HANDLETOATOM h < 2 ^ 16.
Proof.
  intros [Hh Hr]. assert (h = 4 * (h / 4)) as Hq by (rewrite Z.rem_mod_nonneg in Hr by lia; dlia).
  assert (HANDLETOATOM h = 3 * 2 ^ 14 + h / 4) as ->.
  { unfold HANDLETOATOM. rewrite Z.shiftr_div_pow2 by lia. change (2 ^ 2) with 4.
    change 0xc000 with (3 * 2 ^ 14). apply lor_low; [lia|]. lia. }
  unfold ATOMTOHANDLE, MAXINTATOM. rewrite Z.shiftl_mul_pow2 by lia. split; [|lia].
  unfold wrapU. symmetry. apply Z.mod_unique with 3; lia.
Qed.

(** ** Chains *)
Fixpoint chain (m : gmap Z ATOMENTRY) (h : Z) (l : list Z) : Prop :=
  match l with
  | [] => h = 0
  | x :: l => h = x /\ x <> 0 /\ exists e, m !! x = Some e /\ chain m (next e) l
  end.

(** the entries of a chain keep their links *)
Lemma chain_frame m m' l : forall h,
  (forall x e, x ∈ l -> m !! x = Some e -> exists e', m' !! x = Some e' /\ next e' = next e) ->
  chain m h l -> chain m' h l.
Proof.
  induction l as [|x l IH]; intros h Hf; [done|]. intros (-> & Hx & e & He & Hc). split; [done|]. split; [done|].
  destruct (Hf x e) as (e' & He' & Hn); [left|done|]. exists e'. split; [done|]. rewrite Hn.
  apply IH; [|done]. intros y ey Hy. apply Hf. by right.
Qed.
Lemma chain_split m l1 x l2 : forall h,
  chain m h (l1 ++ x :: l2) -> exists e, m !! x = Some e /\ chain m (next e) l2.
Proof.
  induction l1 as [|y l1 IH]; intros h; simpl.
  - intros (-> & _ & e & He & Hc). by exists e.
  - intros (_ & _ & e & _ & Hc). by eapply IH.
Qed.

Definition matches (m : gmap Z ATOMENTRY) (k : list Z) (x : Z) : bool :=
  match m !! x with Some e => bool_decide (canon (str e) = k) | None => false end.

Lemma find_chain_ok sg s len l : forall fuel h,
  chain (ents sg) h l -> (length l <= fuel)%nat -> zlen (take (Z.to_nat len) s) = len ->
  (forall x e, x ∈ l -> ents sg !! x = Some e -> length_ e = zlen (str e)) ->
  find_chain fuel sg s len h = Ret (default 0 (List.find (matches (ents sg) (canon (take (Z.to_nat len) s))) l)).
Proof.
  induction l as [|x l IH]; intros fuel h Hc Hf Hs Hl.
  { simpl in Hc. subst h. by destruct fuel. }
  destruct Hc as (-> & Hx & e & He & Hc). destruct fuel as [|fuel]; simpl in Hf; [lia|].
  cbn [find_chain]. destruct (Z.eqb_spec x 0); [done|]. unfold entry. rewrite He. cbn [obind].
  pose proof (Hl x e ltac:(left) He) as Hle. cbn [List.find]. unfold matches at 1. rewrite He.
  rewrite same_nocase_canon. set (s' := take (Z.to_nat len) s) in *.
  assert ((length_ e =? len) && bool_decide (canon (take (Z.to_nat len) (str e)) = canon s') =
    bool_decide (canon (str e) = canon s')) as ->.
  { rewrite Hle. destruct (Z.eqb_spec (zlen (str e)) len) as [E|E]; simpl.
    - assert (take (Z.to_nat len) (str e) = str e) as -> by (rewrite <- E; apply take_zlen). done.
    - symmetry. apply bool_decide_eq_false. intros Hk%canon_length. congruence. }
  case_bool_decide; [done|]. apply IH; [done|lia|done|]. intros y ey Hy. apply Hl. by right.
Qed.

(** where the link to [x] is *)
Fixpoint slot_before (p : slot) (l1 : list Z) : slot :=
  match l1 with [] => p | y :: l1 => slot_before (NextOf y) l1 end.

Lemma find_prev_ok sg t x l2 l1 : forall fuel p h,
  rd_slot sg t p = Ret h -> chain (ents sg) h (l1 ++ x :: l2) -> x ∉ l1 -> (length l1 <= fuel)%nat ->
  find_prev fuel sg t x p = Ret (slot_before p l1) /\ rd_slot sg t (slot_before p l1) = Ret x.
Proof.
  induction l1 as [|y l1 IH]; intros fuel p h Hp Hc Hni Hf; simpl in Hc.
  - destruct Hc as (-> & Hx & _). simpl. split; [|done].
    destruct fuel; cbn [find_prev]; rewrite Hp; cbn [obind]; by rewrite Z.eqb_refl, orb_true_r.
  - destruct Hc as (-> & Hy & e & He & Hc). apply not_elem_of_cons in Hni as [Hxy Hni].
    destruct fuel as [|fuel]; simpl in Hf; [lia|]. cbn [find_prev]. rewrite Hp. cbn [obind].
    destruct (Z.eqb_spec y 0); [done|]. destruct (Z.eqb_spec y x); [done|]. simpl.
    apply (IH fuel (NextOf y) (next e)); [|done|done|lia]. simpl. unfold entry. by rewrite He.
Qed.

(** the entry [x] is unlinked *)
Lemma chain_unlink m l1 y x l2 h ey e :
  chain m h ((l1 ++ [y]) ++ x :: l2) -> NoDup ((l1 ++ [y]) ++ x :: l2) -> m !! y = Some ey -> m !! x = Some e ->
  chain (delete x (<[y := mkEntry (next e) (refCount ey) (length_ ey) (str ey)]> m)) h ((l1 ++ [y]) ++ l2).
Proof.
  revert h. induction l1 as [|z l1 IH]; intros h Hc Hnd Hy Hx; simpl in *.
  - destruct Hc as (-> & Hy0 & ey' & Hey & (E & Hx0 & e' & He & Hc)). rewrite Hx in He. injection He as <-.
    apply list.NoDup_cons in Hnd as [Hyn Hnd]. apply list.NoDup_cons in Hnd as [Hxn Hnd].
    apply not_elem_of_cons in Hyn as [Hyx Hyn]. split; [done|]. split; [done|].
    eexists. rewrite lookup_delete_ne, lookup_insert_eq by done. split; [done|]. simpl.
    eapply chain_frame; [|exact Hc]. intros z ez Hz Hmz. exists ez. split; [|done].
    rewrite lookup_delete_ne by (intros ->; done). by rewrite lookup_insert_ne by (intros ->; done).
  - destruct Hc as (-> & Hz0 & ez & Hez & Hc). apply list.NoDup_cons in Hnd as [Hzn Hnd].
    rewrite !not_elem_of_app, !not_elem_of_cons in Hzn. destruct Hzn as ((Hz1 & Hzy & _) & Hzx & Hz2).
    split; [done|]. split; [done|]. exists ez. rewrite lookup_delete_ne, lookup_insert_ne by done. split; [done|].
    by apply IH.
Qed.

(** ** The table as a map

    [M] gives the handle and the count of every name. *)
Definition entry_ok (n : Z) (M : gmap (list Z) (Z * Z)) (m : gmap Z ATOMENTRY) (i : nat) (x : Z) : Prop :=
  exists e, m !! x = Some e /\ length_ e = zlen (str e) /\ zlen (str e) <= 255 /\
    M !! canon (str e) = Some (x, refCount e) /\ 1 <= refCount e < 2 ^ 16 /\
    ATOM_Hash n (str e) (zlen (str e)) = Z.of_nat i /\ valid_handle x.
Definition bucket_ok (n : Z) (M : gmap (list Z) (Z * Z)) (m : gmap Z ATOMENTRY) (i : nat) (h : Z) (l : list Z) : Prop :=
  chain m h l /\ NoDup l /\ forall x, x ∈ l -> entry_ok n M m i x.
Definition repr (sg : segment) (t : ATOMTABLE) (cs : list (list Z)) (M : gmap (list Z) (Z * Z)) : Prop :=
  atomtable sg = Some t /\ 0 < size t /\
  (forall i h, entries t !! i = Some h -> exists l, cs !! i = Some l /\ bucket_ok (size t) M (ents sg) i h l) /\
  (forall k x c, M !! k = Some (x, c) -> exists i l e, (i < length (entries t))%nat /\ cs !! i = Some l /\ x ∈ l /\
     ents sg !! x = Some e /\ canon (str e) = k).

Lemma chain_length m h l : chain m h l -> NoDup l -> (length l <= base.size m)%nat.
Proof.
  intros Hc Hnd. rewrite <- (size_list_to_set (C := gset Z)) by done. rewrite <- size_dom. apply subseteq_size.
  intros x Hx%elem_of_list_to_set. apply elem_of_dom. revert h Hc. clear Hnd.
  induction l as [|y l IH]; intros h Hc; [by apply elem_of_nil in Hx|]. destruct Hc as (-> & _ & e & He & Hc).
  apply elem_of_cons in Hx as [->|Hx]; [by eauto|by eapply IH].
Qed.

(** the name [s] in the table *)
Lemma bucket_of sg t cs M s :
  repr sg t cs M -> zlen s <= 255 ->
  exists i h l, ATOM_Hash (size t) s (zlen s) = Z.of_nat i /\ entries t !! i = Some h /\ cs !! i = Some l /\
    bucket_ok (size t) M (ents sg) i h l /\
    find_chain (chain_fuel sg) sg s (zlen s) h = Ret (match M !! canon s with Some (x, _) => x | None => 0 end) /\
    forall x c, M !! canon s = Some (x, c) -> x ∈ l.
Proof.
  intros (Ht & Hn & Hb & HM) Hs. pose proof (Hash_range (size t) s (zlen s) Hn) as Hr.
  set (i := Z.to_nat (ATOM_Hash (size t) s (zlen s))).
  assert (i < length (entries t))%nat as Hi by (assert (size t = Z.of_nat (length (entries t))) by done; unfold i; lia).
  destruct (lookup_lt_is_Some_2 (entries t) i Hi) as [h Hh].
  destruct (Hb i h Hh) as (l & Hl & Hbk). exists i, h, l. split; [unfold i; lia|]. split; [done|]. split; [done|].
  split; [done|]. destruct (id Hbk) as (Hc & Hnd & He).
  assert (forall x c, M !! canon s = Some (x, c) -> x ∈ l) as HMl.
  { intros x c Hx. destruct (HM _ _ _ Hx) as (j & l' & e & Hj & Hl' & Hin & Hex & Hk).
    destruct (lookup_lt_is_Some_2 (entries t) j Hj) as [h' Hh']. destruct (Hb j h' Hh') as (l2 & Hl2 & _ & _ & He2).
    assert (l2 = l') as -> by congruence. destruct (He2 x Hin) as (e' & He' & _ & _ & _ & _ & Hj' & _).
    assert (e' = e) as -> by congruence. rewrite (Hash_canon _ _ _ Hk) in Hj'.
    assert (j = i) as -> by (unfold i; lia). congruence. }
  split; [|done].
  rewrite (find_chain_ok sg s (zlen s) l).
  - rewrite take_zlen. f_equal. destruct (M !! canon s) as [[x c]|] eqn:HMs.
    + specialize (HMl x c eq_refl). destruct (find (matches (ents sg) (canon s)) l) as [y|] eqn:Hf.
      * apply find_some in Hf as [Hy Hm]. apply list_elem_of_In in Hy. destruct (He y Hy) as (e & Hey & _ & _ & HMy & _).
        unfold matches in Hm. rewrite Hey in Hm. apply bool_decide_eq_true in Hm. simpl. congruence.
      * exfalso. pose proof (find_none _ _ Hf x ltac:(by apply list_elem_of_In)) as Hm.
        destruct (HM _ _ _ HMs) as (_ & _ & e & _ & _ & _ & Hex & Hk).
        unfold matches in Hm. rewrite Hex, bool_decide_true in Hm by done. done.
    + destruct (find (matches (ents sg) (canon s)) l) as [y|] eqn:Hf; [|done].
      apply find_some in Hf as [Hy Hm]. apply list_elem_of_In in Hy. destruct (He y Hy) as (e & Hey & _ & _ & HMy & _).
      unfold matches in Hm. rewrite Hey in Hm. apply bool_decide_eq_true in Hm. congruence.
  - done.
  - unfold chain_fuel. pose proof (chain_length _ _ _ Hc Hnd). lia.
  - by rewrite take_zlen.
  - intros x e Hx Hex. destruct (He x Hx) as (e' & He' & Hlen & _). congruence.
Qed.

(** a conjunction of known facts, not looking into them *)
Ltac splits := repeat (split; [done|]).

Lemma repr_entry sg t cs M k x c :
  repr sg t cs M -> M !! k = Some (x, c) ->
  exists e, ents sg !! x = Some e /\ canon (str e) = k /\ refCount e = c /\ length_ e = zlen (str e) /\
    zlen (str e) <= 255 /\ valid_handle x /\ 1 <= c < 2 ^ 16.
Proof.
  intros (Ht & Hn & Hb & HM) Hk. destruct (HM _ _ _ Hk) as (i & l & e & Hi & Hl & Hin & He & Hc).
  destruct (lookup_lt_is_Some_2 (entries t) i Hi) as [h Hh]. destruct (Hb i h Hh) as (l' & Hl' & _ & _ & Hok).
  assert (l' = l) as -> by congruence. destruct (Hok x Hin) as (e' & He' & H1 & H2 & H3 & H4 & _ & H6).
  assert (e' = e) as -> by congruence. rewrite Hc, Hk in H3. injection H3 as ->. exists e. by splits.
Qed.

(** the count of a name changes *)
Lemma repr_count sg t cs M k x c c' e :
  repr sg t cs M -> M !! k = Some (x, c) -> ents sg !! x = Some e -> 1 <= c' < 2 ^ 16 ->
  repr (put_entry sg x (mkEntry (next e) c' (length_ e) (str e))) t cs (<[k := (x, c')]> M).
Proof.
  intros Hr Hk He Hc'. destruct (repr_entry _ _ _ _ _ _ _ Hr Hk) as (e0 & He0 & Hcan & _).
  assert (e0 = e) as -> by congruence. destruct Hr as (Ht & Hn & Hb & HM). split_and!; try done.
  - intros i h Hh. destruct (Hb i h Hh) as (l & Hl & Hc & Hnd & Hok). exists l. split; [done|]. split_and!; [|done|].
    + eapply chain_frame; [|exact Hc]. intros y ey _ Hey. simpl. destruct (decide (y = x)) as [->|Hne].
      * rewrite lookup_insert_eq. eexists. split; [done|]. simpl. congruence.
      * rewrite lookup_insert_ne by done. by exists ey.
    + intros y Hy. destruct (Hok y Hy) as (ey & Hey & H1 & H2 & H3 & H4 & H5). unfold entry_ok. simpl.
      destruct (decide (y = x)) as [->|Hne].
      * assert (ey = e) as -> by congruence. rewrite lookup_insert_eq. eexists. split; [done|]. simpl.
        rewrite Hcan, lookup_insert_eq. by splits.
      * rewrite lookup_insert_ne by done. exists ey. split; [done|]. rewrite lookup_insert_ne; [by splits|].
        intros E. rewrite <- E in H3. congruence.
  - intros k' y d Hk'. destruct (decide (k' = k)) as [->|Hne].
    + rewrite lookup_insert_eq in Hk'. injection Hk' as <- <-.
      destruct (HM _ _ _ Hk) as (i & l & e' & Hi & Hl & Hin & He' & Hc). exists i, l, (mkEntry (next e) c' (length_ e) (str e)).
      split_and!; try done. simpl. by rewrite lookup_insert_eq.
    + rewrite lookup_insert_ne in Hk' by done. destruct (HM _ _ _ Hk') as (i & l & e' & Hi & Hl & Hin & He' & Hc).
      exists i, l, e'. split_and!; try done. simpl. rewrite lookup_insert_ne; [done|]. intros ->. congruence.
Qed.

(** a new name *)
Lemma repr_new sg t cs M s x i h l :
  repr sg t cs M -> M !! canon s = None -> zlen s <= 255 -> valid_handle x -> ents sg !! x = None ->
  ATOM_Hash (size t) s (zlen s) = Z.of_nat i -> entries t !! i = Some h -> cs !! i = Some l ->
  repr (put_table (put_entry sg x (mkEntry h 1 (zlen s) s)) (mkTable (<[i := x]> (entries t))))
    (mkTable (<[i := x]> (entries t))) (<[i := x :: l]> cs) (<[canon s := (x, 1)]> M).
Proof.
  intros (Ht & Hn & Hb & HM) Hk Hs Hv Hx Hi Hh Hl.
  assert (size (mkTable (<[i := x]> (entries t))) = size t) as Hsz by (unfold size; simpl; apply zlen_insert).
  assert (forall j, (j < length (entries t))%nat -> forall y l', cs !! j = Some l' -> y ∈ l' -> y <> x) as Hnew.
  { intros j Hj y l' Hl' Hy ->. destruct (lookup_lt_is_Some_2 (entries t) j Hj) as [h' Hh'].
    destruct (Hb j h' Hh') as (l2 & Hl2 & _ & _ & Hok). assert (l2 = l') as -> by congruence.
    destruct (Hok x Hy) as (e & He & _). congruence. }
  assert (forall j h' l', entries t !! j = Some h' -> cs !! j = Some l' -> bucket_ok (size t) M (ents sg) j h' l' ->
    bucket_ok (size t) (<[canon s := (x, 1)]> M) (<[x := mkEntry h 1 (zlen s) s]> (ents sg)) j h' l') as Hkeep.
  { intros j h' l' Hj Hlj (Hc & Hnd & Hok). assert (forall y, y ∈ l' -> y <> x) as Hne.
    { intros y Hy. eapply (Hnew j); [by eapply lookup_lt_Some|done|done]. }
    split_and!; [|done|].
    - eapply chain_frame; [|exact Hc]. intros y ey Hy Hey. exists ey. split; [|done].
      rewrite lookup_insert_ne; [done|]. intros E. by apply (Hne y Hy).
    - intros y Hy. destruct (Hok y Hy) as (ey & Hey & H1 & H2 & H3 & H4 & H5). exists ey.
      rewrite lookup_insert_ne by (intros E; by apply (Hne y Hy)). rewrite lookup_insert_ne; [by splits|].
      intros E. rewrite <- E in H3. congruence. }
  split_and!; [done|by rewrite Hsz|..]; cbn [entries ents put_table put_entry].
  - intros j h' Hj. rewrite Hsz. apply list_lookup_insert_Some in Hj as [(<- & <- & Hlt)|[Hne Hj]].
    + exists (x :: l). split; [rewrite list_lookup_insert_eq; [done|by eapply lookup_lt_Some]|].
      destruct (Hb i h Hh) as (l2 & Hl2 & Hbk). assert (l2 = l) as -> by congruence.
      destruct (Hkeep i h l Hh Hl Hbk) as (Hc & Hnd & Hok). split_and!.
      * split; [done|]. split; [destruct Hv; lia|]. eexists. rewrite lookup_insert_eq. by split.
      * apply list.NoDup_cons. split; [|done]. intros Hin. by eapply (Hnew i).
      * intros y [->|Hy]%elem_of_cons; [|by apply Hok]. eexists. rewrite lookup_insert_eq. split; [done|]. simpl.
        rewrite lookup_insert_eq. by splits.
    + destruct (Hb j h' Hj) as (l' & Hl' & Hbk). exists l'. rewrite list_lookup_insert_ne by done.
      split; [done|]. by apply Hkeep.
  - intros k y c Hy. rewrite length_insert. destruct (decide (k = canon s)) as [->|Hne].
    + rewrite lookup_insert_eq in Hy. injection Hy as <- <-. exists i, (x :: l), (mkEntry h 1 (zlen s) s).
      split_and!; [by eapply lookup_lt_Some|rewrite list_lookup_insert_eq; [done|by eapply lookup_lt_Some]|left|
        by rewrite lookup_insert_eq|done].
    + rewrite lookup_insert_ne in Hy by done. destruct (HM _ _ _ Hy) as (j & l' & e & Hj & Hl' & Hin & He & Hc).
      assert (y <> x) by (by eapply (Hnew j)). destruct (decide (j = i)) as [->|Hji].
      * assert (l' = l) as -> by congruence. exists i, (x :: l), e.
        split_and!; [done|rewrite list_lookup_insert_eq; [done|by eapply lookup_lt_Some]|by right|by rewrite lookup_insert_ne|done].
      * exists j, l', e. rewrite list_lookup_insert_ne by done. split_and!; try done. by rewrite lookup_insert_ne.
Qed.

(** a name and its entry are gone *)
Lemma repr_drop sg t cs M k x c i h h' l1 l2 m' t' :
  repr sg t cs M -> M !! k = Some (x, c) -> entries t !! i = Some h -> cs !! i = Some (l1 ++ x :: l2) ->
  entries t' = <[i := h']> (entries t) -> chain m' h' (l1 ++ l2) ->
  (forall z e, z <> x -> ents sg !! z = Some e -> exists e', m' !! z = Some e' /\ refCount e' = refCount e /\
     length_ e' = length_ e /\ str e' = str e /\ (z ∉ l1 ++ l2 -> next e' = next e)) ->
  repr (mkSeg (Some t') m') t' (<[i := l1 ++ l2]> cs) (delete k M).
Proof.
  intros Hr Hk Hh Hl Ht' Hc' Hm'. destruct (repr_entry _ _ _ _ _ _ _ Hr Hk) as (e & He & Hcan & _).
  destruct Hr as (Ht & Hn & Hb & HM).
  assert (size t' = size t) as Hsz by (unfold size; rewrite Ht'; apply zlen_insert).
  destruct (Hb i h Hh) as (l & El & Hc & Hnd & Hok). assert (l = l1 ++ x :: l2) as -> by congruence. clear El.
  assert (forall j z, z <> x -> entry_ok (size t) M (ents sg) j z -> entry_ok (size t) (delete k M) m' j z) as Hkeep.
  { intros j z Hz (ez & Hez & H1 & H2 & H3 & H4 & H5 & H6). destruct (Hm' z ez Hz Hez) as (e' & He' & E1 & E2 & E3 & _).
    exists e'. rewrite E1, E2, E3. split; [done|]. rewrite lookup_delete_ne; [by splits|].
    intros E. rewrite <- E in H3. congruence. }
  assert (forall z, z ∈ l1 ++ l2 -> z <> x /\ z ∈ l1 ++ x :: l2) as Hsub.
  { intros z Hz. apply list.NoDup_app in Hnd as (_ & N1 & N2). apply list.NoDup_cons in N2 as [N2 _].
    apply elem_of_app in Hz as [Hz|Hz].
    - split; [intros ->; apply (N1 x Hz); left|apply elem_of_app; by left].
    - split; [by intros ->|apply elem_of_app; right; by right]. }
  split_and!; [done|by rewrite Hsz|..]; cbn [ents].
  - intros j hj Hj. rewrite Ht' in Hj. rewrite Hsz. apply list_lookup_insert_Some in Hj as [(<- & <- & Hlt)|[Hne Hj]].
    + exists (l1 ++ l2). split; [rewrite list_lookup_insert_eq; [done|by eapply lookup_lt_Some]|]. split_and!.
      * done.
      * apply list.NoDup_app in Hnd as (N0 & N1 & N2). apply list.NoDup_cons in N2 as [_ N2].
        apply list.NoDup_app. split_and!; [done| |done]. intros z Hz1 Hz2. apply (N1 z Hz1). by right.
      * intros z Hz. destruct (Hsub z Hz) as [Hzx Hz']. by apply Hkeep, Hok.
    + destruct (Hb j hj Hj) as (lj & Hlj & Hcj & Hndj & Hokj). exists lj. rewrite list_lookup_insert_ne by done.
      split; [done|]. assert (forall z, z ∈ lj -> z <> x /\ z ∉ l1 ++ l2) as Hdis.
      { intros z Hz. destruct (Hokj z Hz) as (ez & Hez & _ & _ & _ & _ & Hhz & _).
        assert (z ∉ l1 ++ x :: l2) as Hni.
        { intros Hz2. destruct (Hok z Hz2) as (ez2 & Hez2 & _ & _ & _ & _ & Hhz2 & _).
          assert (ez2 = ez) as -> by congruence. apply Hne. lia. }
        split; [intros ->; apply Hni, elem_of_app; right; by left|]. intros Hz2. apply Hni. by apply Hsub. }
      split_and!; [|done|].
      * eapply chain_frame; [|exact Hcj]. intros z ez Hz Hez. destruct (Hdis z Hz) as [Hzx Hzn].
        destruct (Hm' z ez Hzx Hez) as (e' & He' & _ & _ & _ & Hnx). exists e'. split; [done|by apply Hnx].
      * intros z Hz. apply Hkeep; [by apply Hdis|by apply Hokj].
  - intros k' y d [Hkk Hy]%lookup_delete_Some. destruct (HM _ _ _ Hy) as (j & lj & ey & Hj & Hlj & Hin & Hey & Hcy).
    rewrite Ht', length_insert. assert (y <> x) as Hyx by (intros ->; congruence).
    destruct (Hm' y ey Hyx Hey) as (e' & He' & _ & _ & Hse & _). destruct (decide (j = i)) as [->|Hji].
    + assert (lj = l1 ++ x :: l2) as -> by congruence. exists i, (l1 ++ l2), e'.
      split; [done|]. split; [rewrite list_lookup_insert_eq; [done|by eapply lookup_lt_Some]|].
      split; [|by rewrite Hse]. apply elem_of_app in Hin as [Hin|Hin]; [apply elem_of_app; by left|].
      apply elem_of_cons in Hin as [->|Hin]; [done|]. apply elem_of_app. by right.
    + exists j, lj, e'. rewrite list_lookup_insert_ne by done. rewrite Hse. by splits.
Qed.

(** the link to [x] is set to the next entry, and [x] is freed *)
Lemma repr_free sg t cs M k x c i h l1 l2 e e0 :
  repr sg t cs M -> M !! k = Some (x, c) -> entries t !! i = Some h -> cs !! i = Some (l1 ++ x :: l2) ->
  ents sg !! x = Some e -> next e0 = next e ->
  exists sg' t' cs', wr_slot (put_entry sg x e0) t (slot_before (Bucket (Z.of_nat i)) l1) (next e) = Ret sg' /\
    repr (mkSeg (atomtable sg') (delete x (ents sg'))) t' cs' (delete k M).
Proof.
  intros Hr Hk Hh Hl He He0. destruct (id Hr) as (Ht & _ & Hb & _).
  destruct (Hb i h Hh) as (l & El & Hc & Hnd & Hok). assert (l = l1 ++ x :: l2) as -> by congruence. clear El.
  assert ((i < length (entries t))%nat) as Hi by (by eapply lookup_lt_Some).
  destruct l1 as [|y l1 _] using rev_ind.
  - simpl. rewrite wr_in by (unfold zlen; lia). cbn [obind]. rewrite Nat2Z.id.
    eexists _, _, _. split; [reflexivity|]. cbn [atomtable put_table ents put_entry]. rewrite delete_insert_eq.
    simpl in Hc. destruct Hc as (-> & _ & e' & He' & Hc). assert (e' = e) as -> by congruence.
    eapply (repr_drop sg t cs M k x c i x (next e) [] l2); try done.
    + simpl in *. apply list.NoDup_cons in Hnd as [Hxn _]. eapply chain_frame; [|exact Hc].
      intros z ez Hz Hez. exists ez. split; [|done]. rewrite lookup_delete_ne; [done|]. by intros ->.
    + intros z ez Hz Hez. exists ez. rewrite lookup_delete_ne by done. by splits.
  - assert (slot_before (Bucket (Z.of_nat i)) (l1 ++ [y]) = NextOf y) as ->.
    { generalize (Bucket (Z.of_nat i)). clear. induction l1 as [|z l1 IH]; intros p; [done|]. apply IH. }
    assert (y <> x) as Hyx.
    { intros ->. rewrite <- app_assoc in Hnd. apply list.NoDup_app in Hnd as (_ & _ & Hnd). simpl in Hnd.
      apply list.NoDup_cons in Hnd as [Hnd _]. apply Hnd. left. }
    destruct (Hok y) as (ey & Hey & _); [rewrite !elem_of_app; left; right; left|].
    cbn [wr_slot]. unfold entry. cbn [ents put_entry]. rewrite lookup_insert_ne, Hey by done. cbn [obind].
    eexists _, t, _. split; [reflexivity|]. cbn [atomtable put_entry ents].
    rewrite insert_insert_ne, delete_insert_eq by done. rewrite Ht.
    eapply (repr_drop sg t cs M k x c i h h (l1 ++ [y]) l2); try done.
    + by rewrite list_insert_id.
    + by apply chain_unlink.
    + intros z ez Hz Hez. rewrite lookup_delete_ne by done. destruct (decide (z = y)) as [->|Hzy].
      * rewrite lookup_insert_eq. eexists. split; [done|]. simpl. assert (ez = ey) as -> by congruence.
        splits. intros Hni. exfalso. apply Hni. rewrite !elem_of_app. left. right. left.
      * rewrite lookup_insert_ne by done. exists ez. by splits.
Qed.

(** only the first [len] characters count *)
Lemma Hash_take n s len : 0 <= len <= zlen s ->
  ATOM_Hash n s len = ATOM_Hash n (take (Z.to_nat len) s) (zlen (take (Z.to_nat len) s)).
Proof. intros. unfold ATOM_Hash. by rewrite take_zlen. Qed.
Lemma zlen_take (s : list Z) len : 0 <= len <= zlen s -> zlen (take (Z.to_nat len) s) = len.
Proof. intros. unfold zlen in *. rewrite length_take. lia. Qed.
Lemma find_chain_take sg s len : 0 <= len <= zlen s -> forall fuel h,
  find_chain fuel sg s len h = find_chain fuel sg (take (Z.to_nat len) s) (zlen (take (Z.to_nat len) s)) h.
Proof.
  intros Hlen. induction fuel as [|fuel IH]; intros h; cbn [find_chain]; [done|].
  destruct (h =? 0); [done|]. destruct (entry sg h); cbn [obind]; try done.
  rewrite zlen_take by done. rewrite (take_take s). rewrite Nat.min_id. destruct (_ && _); [done|].
  rewrite IH, zlen_take by done. done.
Qed.

(** ** The calls *)
Section Calls.
Context {F : Type} `{AtomServer F} (CURRENT_DS : Z).
Implicit Types (st : state F).

Definition atoms st (M : gmap (list Z) (Z * Z)) : Prop :=
  ATOM_UserDS st <> CURRENT_DS /\ exists t cs, repr (seg st) t cs M.
(** the name as the table sees it *)
Definition key (s : list Z) : list Z := canon (take 255 s).

Lemma GetTable_repr st t cs M create h : repr (seg st) t cs M -> ATOM_GetTable CURRENT_DS st create h = (st, Some t).
Proof. intros (Ht & Hn & _). unfold ATOM_GetTable. rewrite Ht. by destruct (Z.eqb_spec (size t) 0); [lia|]. Qed.

Lemma rd_lookup {A} (l : list A) i x : l !! i = Some x -> rd l (Z.of_nat i) = Ret x.
Proof. intros Hi. unfold rd. destruct (Z.ltb_spec (Z.of_nat i) 0); [lia|]. by rewrite Nat2Z.id, Hi. Qed.

Lemma key_short (s : list Z) : zlen (take 255 s) <= 255.
Proof. unfold zlen. rewrite length_take. lia. Qed.

Lemma AddAtom16_known st M s x c h1 h2 :
  atoms st M -> ATOM_IsIntAtomA (AStr s) = None -> M !! key s = Some (x, c) -> c + 1 < 2 ^ 16 ->
  exists st', AddAtom16 CURRENT_DS st (AStr s) h1 h2 = Ret (st', HANDLETOATOM x) /\
    atoms st' (<[key s := (x, c + 1)]> M).
Proof.
  intros [Hds (t & cs & Hr)] Hint Hk Hc. unfold AddAtom16. rewrite Hint, (GetTable_repr _ _ _ _ _ _ Hr).
  destruct (Z.eqb_spec CURRENT_DS (ATOM_UserDS st)); [congruence|]. change (Z.to_nat MAX_ATOM_LEN) with 255%nat.
  destruct (bucket_of _ _ _ _ (take 255 s) Hr (key_short s)) as (i & h & l & Hi & Hh & Hl & _ & HF & _).
  rewrite Hi, (rd_lookup _ _ _ Hh). cbn [obind]. rewrite HF. fold (key s). rewrite Hk. cbn [obind].
  destruct (repr_entry _ _ _ _ _ _ _ Hr Hk) as (e & He & _ & Hrc & _ & _ & [Hv _] & Hc1).
  destruct (Z.eqb_spec x 0); [lia|]. cbn [negb]. unfold entry. rewrite He. cbn [obind]. eexists. split; [done|].
  split; [done|]. exists t, cs. cbn [seg with_seg]. rewrite wrapU_small by (unfold isU; lia). rewrite Hrc.
  by apply (repr_count _ _ _ _ _ _ c); try done; lia.
Qed.

Lemma AddAtom16_new st M s h1 h2 :
  atoms st M -> ATOM_IsIntAtomA (AStr s) = None -> M !! key s = None ->
  valid_handle h2 -> ents (seg st) !! h2 = None ->
  exists st', AddAtom16 CURRENT_DS st (AStr s) h1 h2 = Ret (st', HANDLETOATOM h2) /\
    atoms st' (<[key s := (h2, 1)]> M).
Proof.
  intros [Hds (t & cs & Hr)] Hint Hk Hv Hfr. unfold AddAtom16. rewrite Hint, (GetTable_repr _ _ _ _ _ _ Hr).
  destruct (Z.eqb_spec CURRENT_DS (ATOM_UserDS st)); [congruence|]. change (Z.to_nat MAX_ATOM_LEN) with 255%nat.
  destruct (bucket_of _ _ _ _ (take 255 s) Hr (key_short s)) as (i & h & l & Hi & Hh & Hl & _ & HF & _).
  rewrite Hi, (rd_lookup _ _ _ Hh). cbn [obind]. rewrite HF. fold (key s). rewrite Hk. cbn [obind Z.eqb negb].
  destruct (Z.eqb_spec h2 0); [destruct Hv; lia|].
  rewrite wr_in by (apply lookup_lt_Some in Hh; unfold zlen; lia). cbn [obind]. rewrite Nat2Z.id.
  eexists. split; [done|]. split; [done|]. exists (mkTable (<[i := h2]> (entries t))), (<[i := h2 :: l]> cs).
  cbn [seg with_seg]. pose proof (key_short s). pose proof (zlen_nonneg (take 255 s)).
  rewrite wrapU_small by (unfold isU; lia). by apply repr_new.
Qed.

Lemma AddAtom16_no_memory st M s h1 :
  atoms st M -> ATOM_IsIntAtomA (AStr s) = None -> M !! key s = None ->
  AddAtom16 CURRENT_DS st (AStr s) h1 0 = Ret (st, 0).
Proof.
  intros [Hds (t & cs & Hr)] Hint Hk. unfold AddAtom16. rewrite Hint, (GetTable_repr _ _ _ _ _ _ Hr).
  destruct (Z.eqb_spec CURRENT_DS (ATOM_UserDS st)); [congruence|]. change (Z.to_nat MAX_ATOM_LEN) with 255%nat.
  destruct (bucket_of _ _ _ _ (take 255 s) Hr (key_short s)) as (i & h & l & Hi & Hh & Hl & _ & HF & _).
  rewrite Hi, (rd_lookup _ _ _ Hh). cbn [obind]. rewrite HF. fold (key s). rewrite Hk. done.
Qed.

Lemma FindAtom16_ok st M s :
  atoms st M -> ATOM_IsIntAtomA (AStr s) = None ->
  FindAtom16 CURRENT_DS st (AStr s) = Ret (match M !! key s with Some (x, _) => HANDLETOATOM x | None => 0 end).
Proof.
  intros [Hds (t & cs & Hr)] Hint. unfold FindAtom16. rewrite Hint, (GetTable_repr _ _ _ _ _ _ Hr). cbn [snd].
  destruct (Z.eqb_spec CURRENT_DS (ATOM_UserDS st)); [congruence|].
  set (len := if 255 <? zlen s then 255 else zlen s). pose proof (zlen_nonneg s).
  assert (0 <= len <= zlen s) as Hlen by (unfold len; zcases).
  assert (take (Z.to_nat len) s = take 255 s) as Htk.
  { unfold len. destruct (Z.ltb_spec 255 (zlen s)); [done|]. rewrite !take_ge; [done|unfold zlen in *; lia..]. }
  rewrite Hash_take by done. rewrite Htk.
  destruct (bucket_of _ _ _ _ (take 255 s) Hr (key_short s)) as (i & h & l & Hi & Hh & Hl & _ & HF & _).
  rewrite Hi, (rd_lookup _ _ _ Hh). cbn [obind]. rewrite find_chain_take by done. rewrite Htk, HF. fold (key s). cbn [obind].
  destruct (M !! key s) as [[x c]|] eqn:Hk; [|done].
  destruct (repr_entry _ _ _ _ _ _ _ Hr Hk) as (_ & _ & _ & _ & _ & _ & [Hv _] & _).
  by destruct (Z.eqb_spec x 0); [lia|].
Qed.

Lemma DeleteAtom16_ok st M k x c :
  atoms st M -> M !! k = Some (x, c) ->
  exists st', DeleteAtom16 CURRENT_DS st (HANDLETOATOM x) = Ret (st', 0) /\
    atoms st' (if c =? 1 then delete k M else <[k := (x, c - 1)]> M).
Proof.
  intros [Hds (t & cs & Hr)] Hk. destruct (repr_entry _ _ _ _ _ _ _ Hr Hk) as (e & He & Hcan & Hrc & Hle & Hl255 & Hv & Hc).
  destruct (handle_roundtrip x Hv) as [Hat Hma]. unfold DeleteAtom16.
  destruct (Z.ltb_spec (HANDLETOATOM x) MAXINTATOM); [lia|].
  destruct (Z.eqb_spec CURRENT_DS (ATOM_UserDS st)); [congruence|].
  rewrite (GetTable_repr _ _ _ _ _ _ Hr), Hat. unfold entry. rewrite He. cbn [obind]. rewrite Hle.
  destruct (bucket_of _ _ _ _ (str e) Hr Hl255) as (i & h & l & Hi & Hh & Hl & (Hch & Hnd & _) & _ & HMl).
  rewrite Hi. rewrite Hcan in HMl. pose proof (HMl x c Hk) as Hin. apply list_elem_of_split in Hin as (l1 & l2 & ->).
  pose proof (chain_length _ _ _ Hch Hnd) as Hlen. rewrite length_app in Hlen.
  assert (x ∉ l1) as Hni.
  { apply list.NoDup_app in Hnd as (_ & N1 & _). intros Hx1. apply (N1 x Hx1). left. }
  destruct (find_prev_ok (seg st) t x l2 l1 (chain_fuel (seg st)) (Bucket (Z.of_nat i)) h) as [HP HR];
    [by apply rd_lookup|done|done|unfold chain_fuel; lia|].
  rewrite HP. cbn [obind]. rewrite HR. cbn [obind]. destruct (Z.eqb_spec x 0); [destruct Hv; lia|].
  cbn [refCount next]. rewrite wrapU_small by (unfold isU; lia).
  destruct (Z.eqb_spec (refCount e - 1) 0) as [E|E].
  - destruct (repr_free _ _ _ _ _ _ _ _ _ _ _ _ (mkEntry (next e) (refCount e - 1) (zlen (str e)) (str e)) Hr Hk Hh Hl He eq_refl)
      as (sg' & t' & cs' & HW & Hr'). rewrite HW. cbn [obind]. eexists. split; [done|]. split; [done|].
    exists t', cs'. destruct (Z.eqb_spec c 1); [|lia]. exact Hr'.
  - eexists. split; [done|]. split; [done|]. exists t, cs. destruct (Z.eqb_spec c 1); [lia|]. cbn [seg with_seg].
    rewrite <- Hle, Hrc. by apply (repr_count _ _ _ _ _ _ c); try done; lia.
Qed.

Lemma GetAtomName16_ok st M k x c count :
  atoms st M -> M !! k = Some (x, c) -> 0 < count < 2 ^ 15 ->
  exists name, canon name = k /\
    GetAtomName16 CURRENT_DS st (HANDLETOATOM x) count =
      Ret (zlen (take (Z.to_nat (count - 1)) name), take (Z.to_nat (count - 1)) name).
Proof.
  intros [Hds (t & cs & Hr)] Hk Hcnt. destruct (repr_entry _ _ _ _ _ _ _ Hr Hk) as (e & He & Hcan & Hrc & Hle & Hl255 & Hv & Hc).
  destruct (handle_roundtrip x Hv) as [Hat Hma]. unfold GetAtomName16.
  destruct (Z.eqb_spec CURRENT_DS (ATOM_UserDS st)); [congruence|]. destruct (Z.eqb_spec count 0); [lia|].
  destruct (Z.ltb_spec (HANDLETOATOM x) MAXINTATOM); [lia|].
  rewrite (GetTable_repr _ _ _ _ _ _ Hr), Hat. cbn [snd]. unfold entry. rewrite He. cbn [obind]. rewrite Hle.
  rewrite wrapU_small by (unfold isU; lia). exists (str e). split; [done|]. pose proof (zlen_nonneg (str e)).
  destruct (Z.leb_spec count (zlen (str e))) as [Hle2|Hgt].
  - assert ((0 <=? count - 1) && (count - 1 <=? zlen (str e)) = true) as -> by zcases.
    by rewrite zlen_take by lia.
  - assert ((0 <=? zlen (str e)) && (zlen (str e) <=? zlen (str e)) = true) as -> by zcases.
    rewrite take_zlen, take_ge by (unfold zlen in *; lia). done.
Qed.
Lemma chain_nil m h l : chain m h l -> h = 0 -> l = [].
Proof. destruct l; [done|]. intros (-> & ? & _) ->. done. Qed.

Lemma InitAtomTable16_ok st n h1 :
  ATOM_UserDS st <> 0 -> ATOM_UserDS st <> CURRENT_DS -> 0 <= n < 2 ^ 16 -> h1 <> 0 ->
  exists st', InitAtomTable16 CURRENT_DS st n h1 = (st', h1) /\ atoms st' ∅ /\ ents (seg st') = ents (seg st).
Proof.
  intros Hu Hds Hn Hh. unfold InitAtomTable16. destruct (Z.eqb_spec (ATOM_UserDS st) 0); [done|].
  destruct (Z.eqb_spec h1 0); [done|]. eexists. split; [done|]. split; [|done]. split; [done|].
  set (n' := if n =? 0 then DEFAULT_ATOMTABLE_SIZE else n).
  assert (0 < n') by (unfold n', DEFAULT_ATOMTABLE_SIZE; zcases).
  exists (mkTable (replicate (Z.to_nat n') 0)), (replicate (Z.to_nat n') []). split_and!; [done|..].
  - unfold size, zlen. simpl. rewrite length_replicate. lia.
  - intros i h [-> Hi]%lookup_replicate. exists []. rewrite lookup_replicate_2 by done. split; [done|].
    split_and!; [done|constructor|by intros x ?%elem_of_nil].
  - intros k x c. by rewrite lookup_empty.
Qed.


(** the count of a name wraps around: after 65535 more calls, one more sets it
    to 0, and the entry outlives all of its users *)
Lemma AddAtom16_wraps st M s x h1 h2 :
  atoms st M -> ATOM_IsIntAtomA (AStr s) = None -> M !! key s = Some (x, 2 ^ 16 - 1) ->
  exists st' e, AddAtom16 CURRENT_DS st (AStr s) h1 h2 = Ret (st', HANDLETOATOM x) /\
    ents (seg st') !! x = Some e /\ refCount e = 0.
Proof.
  intros [Hds (t & cs & Hr)] Hint Hk. unfold AddAtom16. rewrite Hint, (GetTable_repr _ _ _ _ _ _ Hr).
  destruct (Z.eqb_spec CURRENT_DS (ATOM_UserDS st)); [congruence|]. change (Z.to_nat MAX_ATOM_LEN) with 255%nat.
  destruct (bucket_of _ _ _ _ (take 255 s) Hr (key_short s)) as (i & h & l & Hi & Hh & Hl & _ & HF & _).
  rewrite Hi, (rd_lookup _ _ _ Hh). cbn [obind]. rewrite HF. fold (key s). rewrite Hk. cbn [obind].
  destruct (repr_entry _ _ _ _ _ _ _ Hr Hk) as (e & He & _ & Hrc & _ & _ & [Hv _] & Hc1).
  destruct (Z.eqb_spec x 0); [lia|]. cbn [negb]. unfold entry. rewrite He. cbn [obind]. eexists _, _. split; [done|].
  cbn [seg with_seg put_entry ents]. rewrite lookup_insert_eq. split; [done|]. cbn [refCount]. by rewrite Hrc.
Qed.

(** ** The 32-bit calls *)

(** GetAtomNameA with room for the terminator only writes it after the buffer *)
Lemma GetAtomNameA_overrun f atom name :
  MAXINTATOM <= atom -> srv_get_atom_name f true atom = Some name -> 0 < zlen (to_bytes name) ->
  GetAtomNameA f atom 1 = Fault.
Proof.
  intros Ha Hn Hz. unfold GetAtomNameA, ATOM_GetAtomNameA. cbn [Z.leb Z.compare].
  destruct (Z.ltb_spec atom MAXINTATOM); [lia|]. rewrite Hn. unfold WideCharToMultiByte.
  change (1 - 1) with 0. cbn [Z.eqb]. destruct (Z.eqb_spec (zlen (to_bytes name)) 0); [lia|].
  by destruct (Z.ltb_spec (zlen (to_bytes name)) 1); [lia|].
Qed.

(** GetAtomNameW counts the terminator of an integer atom *)
Lemma GetAtomNameW_counts_terminator f atom count :
  0 < atom < MAXINTATOM -> zlen (to_wide (int_name atom)) + 1 < count ->
  GetAtomNameW f atom count = (zlen (to_wide (int_name atom)) + 1, to_wide (int_name atom)).
Proof.
  intros Ha Hc. unfold GetAtomNameW, ATOM_GetAtomNameW. pose proof (zlen_nonneg (to_wide (int_name atom))).
  destruct (Z.leb_spec count 0); [lia|]. destruct (Z.ltb_spec atom MAXINTATOM); [|lia].
  destruct (Z.eqb_spec atom 0); [lia|]. destruct (Z.ltb_spec count (zlen (to_wide (int_name atom)) + 1)); [lia|].
  destruct (Z.leb_spec count (zlen (to_wide (int_name atom)) + 1)); [lia|].
  by destruct (Z.eqb_spec (zlen (to_wide (int_name atom)) + 1) 0); [lia|].
Qed.
End Calls.

(** ** A server without atoms, and a segment with one *)
#[global] Instance no_server : AtomServer unit := {
  srv_add_atom f _ _ := (f, None); srv_delete_atom f _ _ := (f, false); srv_find_atom _ _ _ := None;
  srv_get_atom_name _ _ _ := None; to_wide s := s; to_bytes s := s
}.
Definition empty_seg : state unit := mkState 1 tt (mkSeg None ∅).
Definition one_table : state unit := fst (InitAtomTable16 2 empty_seg 5 64).
Lemma one_table_atoms : atoms 2 one_table ∅.
Proof.
  destruct (InitAtomTable16_ok 2 empty_seg 5 64 ltac:(done) ltac:(done) ltac:(lia) ltac:(done)) as (st & E & Ha & _).
  unfold one_table. by rewrite E.
Qed.

(** ** Integer atoms *)
Lemma digits_dec fuel : forall n r,
  0 <= n < 2 ^ 32 -> n < 10 ^ Z.of_nat fuel -> digits_loop 0 (dec_digits fuel n ++ r) = digits_loop n r.
Proof.
  induction fuel as [|fuel IH]; intros n r Hn Hb; [change (10 ^ Z.of_nat 0) with 1 in Hb; by replace n with 0 by lia|].
  cbn [dec_digits]. rewrite Nat2Z.inj_succ, Z.pow_succ_r in Hb by lia.
  destruct (Z.ltb_spec n 10) as [H10|H10].
  - cbn [app digits_loop]. assert ((48 <=? 48 + n) && (48 + n <=? 57) = true) as -> by zcases.
    rewrite wrapU_small by (unfold isU; lia). f_equal. lia.
  - rewrite <- app_assoc, IH by dlia. cbn [app digits_loop].
    assert ((48 <=? 48 + n mod 10) && (48 + n mod 10 <=? 57) = true) as -> by zcasesd.
    rewrite wrapU_small by (unfold isU; dlia). f_equal. dlia.
Qed.

(** an integer atom survives being written as "#" and its digits and read
    back, by the calls on strings of bytes and of wide characters, and by the
    call on a small number. *)
Theorem int_atom_roundtrip a :
  0 < a < MAXINTATOM ->
  ATOM_IsIntAtomA (AStr (int_name a)) = Some a /\ ATOM_IsIntAtomW (AStr (int_name a)) = Some a /\
  ATOM_IsIntAtomA (AInt a) = Some a.
Proof.
  unfold MAXINTATOM. intros Ha.
  assert (forall m, Some (if (a =? 0) || (MAXINTATOM <=? a) then m else u16 a) = Some a) as HC.
  { intros m. unfold MAXINTATOM. destruct (Z.eqb_spec a 0), (Z.leb_spec 0xc000 a); try lia. simpl.
    by rewrite wrapU_small by (unfold isU; lia). }
  assert (ATOM_IsIntAtomA (AStr (int_name a)) = Some a) as HS; [|by split_and!; [..|apply HC]].
  unfold ATOM_IsIntAtomA, int_name. cbn [Z.eqb Pos.eqb negb].
  rewrite <- (app_nil_r (dec_digits 6 a)), digits_dec by lia. apply HC.
Qed.
Lemma int_atom_roundtrip_witness :
  0 < 4711 < MAXINTATOM /\ ATOM_IsIntAtomA (AStr [35; 52; 55; 49; 49]) = Some 4711.
Proof.
  assert (0 < 4711 < MAXINTATOM) as Ha by (vm_compute; split; reflexivity).
  split; [exact Ha|]. exact (proj1 (int_atom_roundtrip 4711 Ha)).
Defined.

(** a number that does not fit in 32 bits is read modulo 2^32: this name, which
    is 2^32 + 1, is the integer atom 1 *)
Example int_atom_overflow :
  ATOM_IsIntAtomA (AStr [35; 52; 50; 57; 52; 57; 54; 55; 50; 57; 55]) = Some 1.
Proof. reflexivity. Qed.

End AtomSpec.
