(* ===== verification/Region.v ===== *)
(** * Regions (dlls/gdi/region.c)

    A region is a list of rectangles in bands: the rectangles of a band have
    the same top and bottom and go from left to right with gaps between them,
    and bands go from top to bottom.  Two regions are combined in one sweep
    from top to bottom that handles a band at a time, and bands that have
    become equal are merged.  Regions live in a store, since the destination of
    an operation may be one of its sources; memory is available, and a write
    after the allocated rectangles faults. *)
From stdpp Require Import gmap.
From S2P Require Import Prelude Rect.
Import Rect.

Module Region.

(** region types and combine modes *)
Definition ERROR : Z := 0.
Definition NULLREGION : Z := 1.
Definition SIMPLEREGION : Z := 2.
Definition COMPLEXREGION : Z := 3.
Definition RGN_AND : Z := 1.
Definition RGN_OR : Z := 2.
Definition RGN_XOR : Z := 3.
Definition RGN_DIFF : Z := 4.
Definition RGN_COPY : Z := 5.
Definition RGN_DEFAULT_RECTS : Z := 2.

(** the rectangles in use; [size] of them are allocated *)
Record WINEREGION := mkRgn { size : Z; rtype : Z; rects : list RECT; extents : RECT }.
Definition numRects (r : WINEREGION) : Z := zlen (rects r).
Definition set_size (r : WINEREGION) (n : Z) := mkRgn n (rtype r) (rects r) (extents r).
Definition set_type (r : WINEREGION) (t : Z) := mkRgn (size r) t (rects r) (extents r).
Definition set_rects (r : WINEREGION) (l : list RECT) := mkRgn (size r) (rtype r) l (extents r).
Definition set_extents (r : WINEREGION) (e : RECT) := mkRgn (size r) (rtype r) (rects r) e.
Definition no_rect : RECT := mkRect 0 0 0 0.

Definition EXTENTCHECK (r1 r2 : RECT) : bool :=
  (left r2 <? right r1) && (left r1 <? right r2) && (top r2 <? bottom r1) && (top r1 <? bottom r2).
Definition INRECT (r : RECT) (x y : Z) : bool :=
  (x <? right r) && (left r <=? x) && (y <? bottom r) && (top r <=? y).
Definition EMPTY_REGION (r : WINEREGION) : WINEREGION := mkRgn (size r) NULLREGION [] no_rect.

(** ** Adding rectangles *)
Definition xmemcheck (reg : WINEREGION) : WINEREGION :=
  if size reg - 1 <=? numRects reg then set_size reg (size reg * 2) else reg.
Definition add_rect (reg : WINEREGION) (r : RECT) : outcome WINEREGION :=
  let reg := xmemcheck reg in
  if numRects reg <? size reg then Ret (set_rects reg (rects reg ++ [r])) else Fault.

(** ** One band: the parts of two lists of rectangles between two lines *)

(** a rectangle per round *)
Fixpoint IntersectO_loop (fuel : nat) (reg : WINEREGION) (r1 r2 : list RECT) (t b : Z) : outcome WINEREGION :=
  match r1, r2 with
  | a1 :: r1', a2 :: r2' =>
    match fuel with
    | O => Spin
    | S fuel =>
      let l := Z.max (left a1) (left a2) in
      let r := Z.min (right a1) (right a2) in
      let! reg := (if l <? r then add_rect reg (mkRect l t r b) else Ret reg) in
      if right a1 <? right a2 then IntersectO_loop fuel reg r1' r2 t b
      else if right a2 <? right a1 then IntersectO_loop fuel reg r1 r2' t b
      else IntersectO_loop fuel reg r1' r2' t b
    end
  | _, _ => Ret reg
  end.
Definition REGION_IntersectO (reg : WINEREGION) (r1 r2 : list RECT) (t b : Z) : outcome WINEREGION :=
  IntersectO_loop (length r1 + length r2) reg r1 r2 t b.

Fixpoint REGION_UnionNonO (reg : WINEREGION) (r : list RECT) (t b : Z) : outcome WINEREGION :=
  match r with
  | [] => Ret reg
  | a :: r => let! reg := add_rect reg (mkRect (left a) t (right a) b) in REGION_UnionNonO reg r t b
  end.

Definition MERGERECT (reg : WINEREGION) (r : RECT) (t b : Z) : outcome WINEREGION :=
  match list.last (rects reg) with
  | Some p =>
    if (top p =? t) && (bottom p =? b) && (left r <=? right p) then
      Ret (if right p <? right r
           then set_rects reg (removelast (rects reg) ++ [mkRect (left p) (top p) (right r) (bottom p)])
           else reg)
    else add_rect reg (mkRect (left r) t (right r) b)
  | None => add_rect reg (mkRect (left r) t (right r) b)
  end.
Fixpoint merge_all (reg : WINEREGION) (r : list RECT) (t b : Z) : outcome WINEREGION :=
  match r with
  | [] => Ret reg
  | a :: r => let! reg := MERGERECT reg a t b in merge_all reg r t b
  end.
Fixpoint UnionO_loop (fuel : nat) (reg : WINEREGION) (r1 r2 : list RECT) (t b : Z) : outcome WINEREGION :=
  match r1, r2 with
  | [], _ => merge_all reg r2 t b
  | _, [] => merge_all reg r1 t b
  | a1 :: r1', a2 :: r2' =>
    match fuel with
    | O => Spin
    | S fuel =>
      if left a1 <? left a2 then let! reg := MERGERECT reg a1 t b in UnionO_loop fuel reg r1' r2 t b
      else let! reg := MERGERECT reg a2 t b in UnionO_loop fuel reg r1 r2' t b
    end
  end.
Definition REGION_UnionO (reg : WINEREGION) (r1 r2 : list RECT) (t b : Z) : outcome WINEREGION :=
  UnionO_loop (length r1 + length r2) reg r1 r2 t b.

Fixpoint REGION_SubtractNonO1 (reg : WINEREGION) (r : list RECT) (t b : Z) : outcome WINEREGION :=
  match r with
  | [] => Ret reg
  | a :: r => let! reg := add_rect reg (mkRect (left a) t (right a) b) in REGION_SubtractNonO1 reg r t b
  end.

(** the left edge of the next minuend; after the last one it is not used *)
Definition next_left (r1 : list RECT) (l : Z) : Z := match r1 with a :: _ => left a | [] => l end.

(** the remaining minuends *)
Fixpoint subtract_rest (reg : WINEREGION) (r1 : list RECT) (l t b : Z) : outcome WINEREGION :=
  match r1 with
  | [] => Ret reg
  | a1 :: r1 =>
    let! reg := add_rect reg (mkRect l t (right a1) b) in
    subtract_rest reg r1 (next_left r1 l) t b
  end.
Fixpoint SubtractO_loop (fuel : nat) (reg : WINEREGION) (r1 r2 : list RECT) (l t b : Z) : outcome WINEREGION :=
  match r1, r2 with
  | a1 :: r1', a2 :: r2' =>
    match fuel with
    | O => Spin
    | S fuel =>
      if right a2 <=? l then SubtractO_loop fuel reg r1 r2' l t b
      else if left a2 <=? l then
        if right a1 <=? right a2 then SubtractO_loop fuel reg r1' r2 (next_left r1' (right a2)) t b
        else SubtractO_loop fuel reg r1 r2' (right a2) t b
      else if left a2 <? right a1 then
        let! reg := add_rect reg (mkRect l t (left a2) b) in
        if right a1 <=? right a2 then SubtractO_loop fuel reg r1' r2 (next_left r1' (right a2)) t b
        else SubtractO_loop fuel reg r1 r2' (right a2) t b
      else
        let! reg := (if l <? right a1 then add_rect reg (mkRect l t (right a1) b) else Ret reg) in
        SubtractO_loop fuel reg r1' r2 (next_left r1' l) t b
    end
  | _, _ => subtract_rest reg r1 l t b
  end.
Definition REGION_SubtractO (reg : WINEREGION) (r1 r2 : list RECT) (t b : Z) : outcome WINEREGION :=
  match r1 with
  | [] => Fault
  | a1 :: _ => SubtractO_loop (length r1 + length r2) reg r1 r2 (left a1) t b
  end.

(** ** Merging bands *)

(** the rectangles with the top [t] at the head, and the others *)
Fixpoint band (t : Z) (l : list RECT) : list RECT * list RECT :=
  match l with
  | a :: l' => if top a =? t then let '(b, r) := band t l' in (a :: b, r) else ([], l)
  | [] => ([], [])
  end.
(** the band of the first rectangle *)
Definition first_band (l : list RECT) : list RECT * list RECT :=
  match l with a :: _ => band (top a) l | [] => ([], []) end.

Definition same_sides (p c : RECT) : bool := (left p =? left c) && (right p =? right c).
Fixpoint line_up (prev cur : list RECT) : bool :=
  match prev, cur with
  | p :: prev, c :: cur => same_sides p c && line_up prev cur
  | _, _ => true
  end.
Fixpoint merge_bands (prev cur : list RECT) : list RECT :=
  match prev, cur with
  | p :: prev, c :: cur => mkRect (left p) (top p) (right p) (bottom c) :: merge_bands prev cur
  | _, _ => []
  end.

(** the index of the first rectangle of the last band *)
Definition last_band_start (l : list RECT) : Z := zlen l - zlen (fst (first_band (rev l))).

Definition REGION_Coalesce (reg : WINEREGION) (prevStart curStart : Z) : outcome (WINEREGION * Z) :=
  let l := rects reg in
  let prev := take (Z.to_nat (curStart - prevStart)) (drop (Z.to_nat prevStart) l) in
  let prevNumRects := curStart - prevStart in
  match drop (Z.to_nat curStart) l with
  | [] => Fault
  | c0 :: _ =>
    let '(cur, rest) := first_band (drop (Z.to_nat curStart) l) in
    let curNumRects := zlen cur in
    let curStart' := match rest with [] => curStart | _ => last_band_start l end in
    if (curNumRects =? prevNumRects) && negb (curNumRects =? 0) then
      match prev with
      | [] => Fault
      | p0 :: _ =>
        if (bottom p0 =? top c0) && line_up prev cur then
          Ret (set_rects reg (take (Z.to_nat prevStart) l ++ merge_bands prev cur ++ rest),
               match rest with [] => prevStart | _ => curStart' end)
        else Ret (reg, curStart')
      end
    else Ret (reg, curStart')
  end.

(** ** The store of regions *)
Abbreviation regions := (gmap Z WINEREGION).
Definition get (st : regions) (p : Z) : outcome WINEREGION :=
  match st !! p with Some r => Ret r | None => Fault end.

(** ** The sweep *)
Section RegionOp.
Context (overlapFunc : WINEREGION -> list RECT -> list RECT -> Z -> Z -> outcome WINEREGION)
  (nonOverlap1Func nonOverlap2Func : option (WINEREGION -> list RECT -> Z -> Z -> outcome WINEREGION)).

(** rectangles that were added since [curBand] are merged with the band before *)
Definition coalesce_new (reg : WINEREGION) (prevBand curBand : Z) : outcome (WINEREGION * Z) :=
  if numRects reg =? curBand then Ret (reg, prevBand) else REGION_Coalesce reg prevBand curBand.

Definition non_overlap (f : option (WINEREGION -> list RECT -> Z -> Z -> outcome WINEREGION))
    (reg : WINEREGION) (r : list RECT) (t b : Z) : outcome WINEREGION :=
  match f with
  | Some f => if negb (t =? b) then f reg r t b else Ret reg
  | None => Ret reg
  end.

(** one round: a band of one region, or the part that both bands share *)
Fixpoint op_loop (fuel : nat) (reg : WINEREGION) (prevBand : Z) (r1 r2 : list RECT) (ybot : Z) :
    outcome (WINEREGION * Z * list RECT * list RECT * Z) :=
  match fuel with
  | O => Spin
  | S fuel =>
    match r1, r2 with
    | a1 :: _, a2 :: _ =>
      let curBand := numRects reg in
      let '(band1, rest1) := first_band r1 in
      let '(band2, rest2) := first_band r2 in
      let! (reg, ytop) :=
        (if top a1 <? top a2 then
           let! reg := non_overlap nonOverlap1Func reg band1 (Z.max (top a1) ybot) (Z.min (bottom a1) (top a2)) in
           Ret (reg, top a2)
         else if top a2 <? top a1 then
           let! reg := non_overlap nonOverlap2Func reg band2 (Z.max (top a2) ybot) (Z.min (bottom a2) (top a1)) in
           Ret (reg, top a1)
         else Ret (reg, top a1)) in
      let! (reg, prevBand) := coalesce_new reg prevBand curBand in
      let ybot := Z.min (bottom a1) (bottom a2) in
      let curBand := numRects reg in
      let! reg := (if ytop <? ybot then overlapFunc reg band1 band2 ytop ybot else Ret reg) in
      let! (reg, prevBand) := coalesce_new reg prevBand curBand in
      let r1 := if bottom a1 =? ybot then rest1 else r1 in
      let r2 := if bottom a2 =? ybot then rest2 else r2 in
      match r1, r2 with
      | _ :: _, _ :: _ => op_loop fuel reg prevBand r1 r2 ybot
      | _, _ => Ret (reg, prevBand, r1, r2, ybot)
      end
    | _, _ => Fault
    end
  end.

(** the bands of the region that is left *)
Fixpoint rest_loop (fuel : nat) (f : WINEREGION -> list RECT -> Z -> Z -> outcome WINEREGION)
    (reg : WINEREGION) (r : list RECT) (ybot : Z) : outcome WINEREGION :=
  match r with
  | [] => Ret reg
  | a :: _ =>
    match fuel with
    | O => Spin
    | S fuel =>
      let '(b, rest) := first_band r in
      let! reg := f reg b (Z.max (top a) ybot) (bottom a) in
      rest_loop fuel f reg rest ybot
    end
  end.
Definition op_rest (reg : WINEREGION) (r1 r2 : list RECT) (ybot : Z) : outcome WINEREGION :=
  match r1, nonOverlap1Func, r2, nonOverlap2Func with
  | _ :: _, Some f, _, _ => rest_loop (length r1) f reg r1 ybot
  | _ :: _, None, _, _ => Ret reg
  | [], _, _ :: _, Some f => rest_loop (length r2) f reg r2 ybot
  | [], _, _, _ => Ret reg
  end.

(** the rectangles of the new region, from an allocated and empty one *)
Definition sweep (reg : WINEREGION) (r1 r2 : list RECT) (ybot : Z) : outcome WINEREGION :=
  let! (reg, prevBand, r1, r2, ybot) := op_loop (length r1 + length r2) reg 0 r1 r2 ybot in
  let curBand := numRects reg in
  let! reg := op_rest reg r1 r2 ybot in
  let! (reg, _) := coalesce_new reg prevBand curBand in
  Ret (if (numRects reg <? Z.shiftr (size reg) 1) && (2 <? numRects reg) then set_size reg (numRects reg) else reg).

(** newReg->size is computed after newReg->numRects was set to 0 *)
Definition REGION_RegionOp (st : regions) (newReg reg1 reg2 : Z) : outcome regions :=
  let! g1 := get st reg1 in
  let! g2 := get st reg2 in
  let! n := get st newReg in
  let st := <[newReg := set_rects n []]> st in
  let! e1 := get st reg1 in
  let! e2 := get st reg2 in
  let n := set_size (set_rects n []) (Z.max (numRects e1) (numRects e2) * 2) in
  let ybot := if top (extents e1) <? top (extents e2) then top (extents e1) else top (extents e2) in
  let! n := sweep n (rects g1) (rects g2) ybot in
  Ret (<[newReg := n]> st).
End RegionOp.

Definition region_type (r : WINEREGION) : Z :=
  if numRects r =? 0 then NULLREGION else if 1 <? numRects r then COMPLEXREGION else SIMPLEREGION.

(** the extents of the rectangles: top of the first, bottom of the last, and
    the least left and the greatest right *)
Definition REGION_SetExtents (r : WINEREGION) : WINEREGION :=
  match rects r, list.last (rects r) with
  | a :: _, Some z =>
    set_extents r (mkRect (fold_left (fun m c => if left c <? m then left c else m) (rects r) (left a)) (top a)
      (fold_left (fun m c => if m <? right c then right c else m) (rects r) (right z)) (bottom z))
  | _, _ => set_extents r no_rect
  end.

Definition REGION_CopyRegion (st : regions) (dst src : Z) : outcome regions :=
  if dst =? src then Ret st else
  let! d := get st dst in
  let! s := get st src in
  Ret (<[dst := mkRgn (if size d <? numRects s then numRects s else size d) (rtype s) (rects s) (extents s)]> st).

Definition REGION_IntersectRegion (st : regions) (newReg reg1 reg2 : Z) : outcome regions :=
  let! g1 := get st reg1 in
  let! g2 := get st reg2 in
  let! st :=
    (if (numRects g1 =? 0) || (numRects g2 =? 0) || negb (EXTENTCHECK (extents g1) (extents g2)) then
       let! n := get st newReg in Ret (<[newReg := set_rects n []]> st)
     else REGION_RegionOp REGION_IntersectO None None st newReg reg1 reg2) in
  let! n := get st newReg in
  let n := REGION_SetExtents n in
  Ret (<[newReg := set_type n (region_type n)]> st).

Definition subsumes (r1 : WINEREGION) (r2 : WINEREGION) : bool :=
  (numRects r1 =? 1) && (left (extents r1) <=? left (extents r2)) && (top (extents r1) <=? top (extents r2)) &&
  (right (extents r2) <=? right (extents r1)) && (bottom (extents r2) <=? bottom (extents r1)).

Definition REGION_UnionRegion (st : regions) (newReg reg1 reg2 : Z) : outcome regions :=
  let! g1 := get st reg1 in
  let! g2 := get st reg2 in
  if (reg1 =? reg2) || (numRects g1 =? 0) then
    if newReg =? reg2 then Ret st else REGION_CopyRegion st newReg reg2
  else if numRects g2 =? 0 then
    if newReg =? reg1 then Ret st else REGION_CopyRegion st newReg reg1
  else if subsumes g1 g2 then
    if newReg =? reg1 then Ret st else REGION_CopyRegion st newReg reg1
  else if subsumes g2 g1 then
    if newReg =? reg2 then Ret st else REGION_CopyRegion st newReg reg2
  else
    let! st := REGION_RegionOp REGION_UnionO (Some REGION_UnionNonO) (Some REGION_UnionNonO) st newReg reg1 reg2 in
    let! e1 := get st reg1 in
    let! e2 := get st reg2 in
    let! n := get st newReg in
    let n := set_extents n (mkRect (Z.min (left (extents e1)) (left (extents e2)))
      (Z.min (top (extents e1)) (top (extents e2))) (Z.max (right (extents e1)) (right (extents e2)))
      (Z.max (bottom (extents e1)) (bottom (extents e2)))) in
    Ret (<[newReg := set_type n (region_type n)]> st).

Definition REGION_SubtractRegion (st : regions) (regD regM regS : Z) : outcome regions :=
  let! m := get st regM in
  let! s := get st regS in
  if (numRects m =? 0) || (numRects s =? 0) || negb (EXTENTCHECK (extents m) (extents s)) then
    REGION_CopyRegion st regD regM
  else
    let! st := REGION_RegionOp REGION_SubtractO (Some REGION_SubtractNonO1) None st regD regM regS in
    let! d := get st regD in
    let d := REGION_SetExtents d in
    Ret (<[regD := set_type d (region_type d)]> st).

(** a key that no region has: the address of a region that is allocated *)
Definition new_key (st : regions) : Z := 1 + foldr Z.max 0 (map fst (map_to_list st)).
Definition REGION_AllocWineRegion (n : Z) : WINEREGION := EMPTY_REGION (mkRgn n NULLREGION [] no_rect).

Definition REGION_XorRegion (st : regions) (dr sra srb : Z) : outcome regions :=
  let! a := get st sra in
  let! b := get st srb in
  let tra := new_key st in
  let st := <[tra := REGION_AllocWineRegion (numRects a + 1)]> st in
  let trb := new_key st in
  let st := <[trb := REGION_AllocWineRegion (numRects b + 1)]> st in
  let! st := REGION_SubtractRegion st tra sra srb in
  let! st := REGION_SubtractRegion st trb srb sra in
  let! st := REGION_UnionRegion st dr tra trb in
  Ret (delete trb (delete tra st)).

(** the rectangle is a region of its own for the time of the call *)
Definition REGION_UnionRectWithRegion (rect : RECT) (st : regions) (rgn : Z) : outcome regions :=
  let region := new_key st in
  let st := <[region := mkRgn 1 SIMPLEREGION [rect] rect]> st in
  let! st := REGION_UnionRegion st rgn rgn region in
  Ret (delete region st).

(** ** The calls

    A handle is the key of its region in the store; a call on a handle that
    has no region fails.  The handle of a new region comes from the table of
    GDI objects and is an argument: [None] when the table is full. *)
Definition CombineRgn (st : regions) (hDest hSrc1 hSrc2 mode : Z) : outcome (regions * Z) :=
  match st !! hDest with
  | None => Ret (st, ERROR)
  | Some _ =>
    match st !! hSrc1 with
    | None => Ret (st, ERROR)
    | Some _ =>
      if mode =? RGN_COPY then
        let! st := REGION_CopyRegion st hDest hSrc1 in
        let! d := get st hDest in
        Ret (st, rtype d)
      else
        match st !! hSrc2 with
        | None => Ret (st, ERROR)
        | Some _ =>
          let! st :=
            (if mode =? RGN_AND then REGION_IntersectRegion st hDest hSrc1 hSrc2
             else if mode =? RGN_OR then REGION_UnionRegion st hDest hSrc1 hSrc2
             else if mode =? RGN_XOR then REGION_XorRegion st hDest hSrc1 hSrc2
             else if mode =? RGN_DIFF then REGION_SubtractRegion st hDest hSrc1 hSrc2
             else Ret st) in
          let! d := get st hDest in
          Ret (st, rtype d)
        end
    end
  end.

Definition offset_rect (r : RECT) (x y : Z) : outcome RECT :=
  let! l := add_int (left r) x in
  let! rt := add_int (right r) x in
  let! t := add_int (top r) y in
  let! b := add_int (bottom r) y in
  Ret (mkRect l t rt b).
Fixpoint offset_rects (l : list RECT) (x y : Z) : outcome (list RECT) :=
  match l with
  | [] => Ret []
  | r :: l => let! r := offset_rect r x y in let! l := offset_rects l x y in Ret (r :: l)
  end.
Definition OffsetRgn (st : regions) (hrgn x y : Z) : outcome (regions * Z) :=
  match st !! hrgn with
  | None => Ret (st, ERROR)
  | Some r =>
    let! r' :=
      (if (negb (x =? 0) || negb (y =? 0)) && negb (numRects r =? 0) then
         let! l := offset_rects (rects r) x y in
         let! e := offset_rect (extents r) x y in
         Ret (set_extents (set_rects r l) e)
       else Ret r) in
    Ret (<[hrgn := r']> st, rtype r')
  end.

Definition GetRgnBox (st : regions) (hrgn : Z) : option RECT * Z :=
  match st !! hrgn with Some r => (Some (extents r), rtype r) | None => (None, ERROR) end.

(** the first rectangle is written without a look at the allocated ones *)
Definition SetRectRgn (st : regions) (hrgn l t r b : Z) : outcome (regions * bool) :=
  match st !! hrgn with
  | None => Ret (st, false)
  | Some reg =>
    let '(l, r) := if r <? l then (r, l) else (l, r) in
    let '(t, b) := if b <? t then (b, t) else (t, b) in
    if negb (l =? r) && negb (t =? b) then
      if size reg <? 1 then Fault else
      Ret (<[hrgn := mkRgn (size reg) SIMPLEREGION [mkRect l t r b] (mkRect l t r b)]> st, true)
    else Ret (<[hrgn := EMPTY_REGION reg]> st, true)
  end.
Definition SetRectRgn16 (st : regions) (hrgn l t r b : Z) : outcome (regions * bool) :=
  if l <? r then SetRectRgn st hrgn l t r b else SetRectRgn st hrgn 0 0 0 0.

Definition REGION_CreateRegion (newh : option Z) (st : regions) (n : Z) : regions * Z :=
  match newh with None => (st, 0) | Some h => (<[h := REGION_AllocWineRegion n]> st, h) end.
Definition CreateRectRgn (newh : option Z) (st : regions) (l t r b : Z) : outcome (regions * Z) :=
  let '(st, h) := REGION_CreateRegion newh st RGN_DEFAULT_RECTS in
  if h =? 0 then Ret (st, 0) else
  let! (st, _) := SetRectRgn st h l t r b in
  Ret (st, h).
Definition CreateRectRgn16 (newh : option Z) (st : regions) (l t r b : Z) : outcome (regions * Z) :=
  let '(st, h) := REGION_CreateRegion newh st RGN_DEFAULT_RECTS in
  if h =? 0 then Ret (st, 0) else
  let! (st, _) := SetRectRgn16 st h l t r b in
  Ret (st, h).
Definition REGION_DeleteObject (st : regions) (hrgn : Z) : regions := delete hrgn st.

(** ** Region data *)
Definition RDH_RECTANGLES : Z := 1.
Definition sizeof_RECT : Z := 16.
Definition sizeof_RGNDATAHEADER : Z := 32.
Record RGNDATA := mkData { dwSize : Z; iType : Z; nCount : Z; nRgnSize : Z; rcBound : RECT; Buffer : list RECT }.

(** what is written to the buffer, if any, and the result *)
Definition GetRegionData (st : regions) (hrgn count : Z) (rgndata : bool) : option RGNDATA * Z :=
  match st !! hrgn with
  | None => (None, 0)
  | Some r =>
    let size := wrapU 32 (numRects r * sizeof_RECT) in
    if (count <? wrapU 32 (size + sizeof_RGNDATAHEADER)) || negb rgndata then
      (None, if rgndata then 0 else wrapU 32 (size + sizeof_RGNDATAHEADER))
    else
      (Some (mkData sizeof_RGNDATAHEADER RDH_RECTANGLES (numRects r) size (extents r)
               (take (Z.to_nat (size / sizeof_RECT)) (rects r))),
       wrapU 32 (size + sizeof_RGNDATAHEADER))
  end.

Fixpoint union_rects (l : list RECT) (st : regions) (h : Z) : outcome regions :=
  match l with
  | [] => Ret st
  | r :: l => let! st := REGION_UnionRectWithRegion r st h in union_rects l st h
  end.
Definition ExtCreateRegion (newh : option Z) (st : regions) (d : RGNDATA) : outcome (regions * Z) :=
  if negb (iType d =? RDH_RECTANGLES) then Ret (st, 0) else
  let '(st, h) := REGION_CreateRegion newh st (nCount d) in
  if h =? 0 then Ret (st, 0) else
  if zlen (Buffer d) <? nCount d then Fault else
  let! st := union_rects (take (Z.to_nat (nCount d)) (Buffer d)) st h in
  Ret (st, h).

(** ** Tests *)
Definition PtInRegion (st : regions) (hrgn x y : Z) : bool :=
  match st !! hrgn with
  | Some r => (0 <? numRects r) && INRECT (extents r) x y && existsb (fun a => INRECT a x y) (rects r)
  | None => false
  end.
Fixpoint rect_in (rect : RECT) (l : list RECT) : bool :=
  match l with
  | [] => false
  | c :: l =>
    if bottom c <=? top rect then rect_in rect l
    else if bottom rect <=? top c then false
    else if right c <=? left rect then rect_in rect l
    else if right rect <=? left c then rect_in rect l
    else true
  end.
Definition RectInRegion (st : regions) (hrgn : Z) (rect : RECT) : bool :=
  match st !! hrgn with
  | Some r => (0 <? numRects r) && EXTENTCHECK (extents r) rect && rect_in rect (rects r)
  | None => false
  end.
Definition same_rect (a b : RECT) : bool :=
  (left a =? left b) && (right a =? right b) && (top a =? top b) && (bottom a =? bottom b).
Fixpoint same_rects (l k : list RECT) : bool :=
  match l, k with
  | a :: l, b :: k => same_rect a b && same_rects l k
  | _, _ => true
  end.
Definition EqualRgn (st : regions) (hrgn1 hrgn2 : Z) : bool :=
  match st !! hrgn1, st !! hrgn2 with
  | Some r1, Some r2 =>
    (numRects r1 =? numRects r2) &&
    ((numRects r1 =? 0) || (same_rect (extents r1) (extents r2) && same_rects (rects r1) (rects r2)))
  | _, _ => false
  end.

(** ** Frames *)
Definition REGION_UnionRectWithRgn (st : regions) (hrgn : Z) (rect : RECT) : outcome (regions * bool) :=
  match st !! hrgn with
  | None => Ret (st, false)
  | Some _ => let! st := REGION_UnionRectWithRegion rect st hrgn in Ret (st, true)
  end.
Definition inflate (r : RECT) (x y : Z) : outcome RECT :=
  let! l := sub_int (left r) x in
  let! t := sub_int (top r) y in
  let! rt := add_int (right r) x in
  let! b := add_int (bottom r) y in
  Ret (mkRect l t rt b).
Fixpoint union_inflated (l : list RECT) (x y : Z) (st : regions) (h : Z) : outcome regions :=
  match l with
  | [] => Ret st
  | r :: l =>
    let! r := inflate r x y in
    let! st := REGION_UnionRectWithRegion r st h in
    union_inflated l x y st h
  end.
(** the destination is emptied before the rectangles of the source are read *)
Definition REGION_FrameRgn (st : regions) (hDest hSrc x y : Z) : outcome (regions * bool) :=
  match st !! hSrc with
  | None => Ret (st, false)
  | Some s =>
    if numRects s =? 0 then Ret (st, false) else
    let! d := get st hDest in
    let st := <[hDest := EMPTY_REGION d]> st in
    let! s := get st hSrc in
    let! st := union_inflated (rects s) x y st hDest in
    let! st := REGION_SubtractRegion st hDest hDest hSrc in
    Ret (st, true)
  end.

(** ** Cropping

    In place the rectangle that is written is never after the one that is
    read, so the source list is read as it was. *)

(** clipa: the rectangles of the bands above the clipping rectangle are skipped *)
Fixpoint skip_above (t : Z) (l : list RECT) : outcome (list RECT) :=
  match l with
  | [] => Fault
  | a :: l' => if bottom a <=? t then skip_above t l' else Ret l
  end.
(** clipb: up to the first rectangle below it *)
Fixpoint take_above (b : Z) (l : list RECT) : list RECT :=
  match l with
  | a :: l => if b <=? top a then [] else a :: take_above b l
  | [] => []
  end.
Fixpoint crop_loop (rect : RECT) (x y : Z) (l : list RECT) : outcome (list RECT) :=
  match l with
  | [] => Ret []
  | a :: l =>
    if (left a <? right rect) && (left rect <? right a) then
      let! t := add_int (top a) y in
      let! b := add_int (bottom a) y in
      let! lf := add_int (if left rect <? left a then left a else left rect) x in
      let! rt := add_int (if right a <? right rect then right a else right rect) x in
      let! l := crop_loop rect x y l in
      Ret (mkRect lf t rt b :: l)
    else crop_loop rect x y l
  end.
Fixpoint fix_top (t : Z) (l : list RECT) : list RECT :=
  match l with
  | a :: l' => if top a <? t then mkRect (left a) t (right a) (bottom a) :: fix_top t l' else l
  | [] => []
  end.
(** the list from the last rectangle to the first *)
Fixpoint fix_bottom (b : Z) (l : list RECT) : list RECT :=
  match l with
  | a :: l' => if b <? bottom a then mkRect (left a) (top a) (right a) b :: fix_bottom b l' else l
  | [] => []
  end.

Definition crop_empty (null_rects : bool) (d : WINEREGION) : WINEREGION :=
  EMPTY_REGION (if null_rects then set_size d RGN_DEFAULT_RECTS else d).

(** [null_rects]: the destination has no array of rectangles yet *)
Definition REGION_CropAndOffsetRegion (x y : Z) (rect : option RECT) (st : regions) (src dst : Z)
    (null_rects : bool) : outcome regions :=
  let! s := get st src in
  let! d := get st dst in
  match rect with
  | None =>
    if (dst =? src) && (x =? 0) && (y =? 0) then Ret st else
    if negb (x =? 0) || negb (y =? 0) then
      let! l := offset_rects (rects s) x y in
      let! e := offset_rect (extents s) x y in
      Ret (<[dst := set_extents (set_rects s l) e]> st)
    else Ret (<[dst := s]> st)
  | Some rect =>
    if (right rect <=? left rect) || (bottom rect <=? top rect) || negb (EXTENTCHECK rect (extents s)) then
      Ret (<[dst := crop_empty null_rects d]> st)
    else
      let! l0 := add_int (right (extents s)) x in
      let! r0 := add_int (left (extents s)) x in
      let! l := skip_above (top rect) (rects s) in
      let l := take_above (bottom rect) l in
      let d := if negb (dst =? src) && (size d <? zlen l) then set_size d (zlen l) else d in
      let! l := crop_loop rect x y l in
      match l with
      | [] => Ret (<[dst := crop_empty (null_rects && (size d =? 0)) d]> st)
      | _ =>
        let! t := add_int (top rect) y in
        let! b := add_int (bottom rect) y in
        let out := rev (fix_bottom b (rev (fix_top t l))) in
        let lm := fold_left (fun m c => if left c <? m then left c else m) l l0 in
        let rm := fold_left (fun m c => if m <? right c then right c else m) l r0 in
        match out, list.last out with
        | a :: _, Some z =>
          Ret (<[dst := mkRgn (size d) (if 1 <=? zlen out - 1 then COMPLEXREGION else SIMPLEREGION) out
                   (mkRect lm (top a) rm (bottom z))]> st)
        | _, _ => Fault
        end
      end
  end.

(** a region for the result is made when [hDst] is 0 *)
Definition REGION_CropRgn (newh : option Z) (st : regions) (hDst hSrc : Z) (lpRect : option RECT)
    (lpPt : option (Z * Z)) : outcome (regions * Z) :=
  match st !! hSrc with
  | None => Ret (st, 0)
  | Some _ =>
    let '(x, y) := match lpPt with Some p => p | None => (0, 0) end in
    if negb (hDst =? 0) then
      match st !! hDst with
      | None => Ret (st, 0)
      | Some _ =>
        let! st := REGION_CropAndOffsetRegion x y lpRect st hSrc hDst false in
        Ret (st, hDst)
      end
    else
      let rgnDst := new_key st in
      let! st' := REGION_CropAndOffsetRegion x y lpRect (<[rgnDst := mkRgn 0 NULLREGION [] no_rect]> st)
                    hSrc rgnDst true in
      let! d := get st' rgnDst in
      match newh with
      | Some h => Ret (<[h := d]> (delete rgnDst st'), h)
      | None => Ret (delete rgnDst st', 0)
      end
  end.

End Region.
