(* ===== verification/RegionBand.v ===== *)
(** * Bands of rectangles

    The points that a list of rectangles covers, the order of rectangles in a
    region, and what the band functions of dlls/gdi/region.c add to a region:
    the intersection, the union or the difference of two rows. *)
From stdpp Require Import gmap.
From S2P Require Import Prelude Rect Region.
Import Rect Region.

Module RegionBand.

Ltac splits := repeat match goal with |- _ /\ _ => split end.

(** ** Points and rows *)
Definition covers (l : list RECT) (x y : Z) : bool := existsb (fun r => INRECT r x y) l.
(** the columns of a row of rectangles *)
Definition in_row (l : list RECT) (x : Z) : bool := existsb (fun r => (left r <=? x) && (x <? right r)) l.

Definition full (r : RECT) : Prop := left r < right r /\ top r < bottom r.
(** [b] may come after [a]: in the same band with a gap between them, or in a
    band below *)
Definition follows (a b : RECT) : Prop :=
  (top a = top b /\ bottom a = bottom b /\ right a < left b) \/ bottom a <= top b.
Fixpoint banded (l : list RECT) : Prop :=
  match l with
  | [] => True
  | a :: l => full a /\ Forall (follows a) l /\ banded l
  end.
Definition level (t b : Z) (l : list RECT) : Prop := Forall (fun r => top r = t /\ bottom r = b) l.
(** from left to right with gaps *)
Fixpoint spaced (l : list RECT) : Prop :=
  match l with
  | [] => True
  | a :: l => left a < right a /\ Forall (fun b => right a < left b) l /\ spaced l
  end.
Definition below (y : Z) (l : list RECT) : Prop := Forall (fun r => y <= top r) l.
Definition above (y : Z) (l : list RECT) : Prop := Forall (fun r => bottom r <= y) l.

(** ** Coverage *)
Lemma covers_app l k x y : covers (l ++ k) x y = covers l x y || covers k x y.
Proof. apply existsb_app. Qed.
Lemma in_row_app l k x : in_row (l ++ k) x = in_row l x || in_row k x.
Proof. apply existsb_app. Qed.

Lemma covers_level t b l x y :
  level t b l -> covers l x y = (t <=? y) && (y <? b) && in_row l x.
Proof.
  induction 1 as [|a l [Ht Hb] _ IH]; simpl; [by rewrite andb_false_r|].
  rewrite IH. unfold INRECT. rewrite Ht, Hb.
  destruct (x <? right a), (left a <=? x), (t <=? y), (y <? b), (in_row l x); done.
Qed.
Lemma covers_above l x y : above y l -> covers l x y = false.
Proof.
  induction 1 as [|a l H _ IH]; [done|]. simpl. rewrite IH. unfold INRECT.
  replace (y <? bottom a) with false by lia. by rewrite andb_false_r.
Qed.
Lemma covers_below l x y z : below z l -> y < z -> covers l x y = false.
Proof.
  intros H Hy. induction H as [|a l H _ IH]; [done|]. simpl. rewrite IH. unfold INRECT.
  replace (top a <=? y) with false by lia. by rewrite andb_false_r.
Qed.
Lemma covers_true l x y : covers l x y = true <-> exists r, r ∈ l /\ INRECT r x y = true.
Proof.
  unfold covers. rewrite existsb_exists. by setoid_rewrite list_elem_of_In.
Qed.
Lemma in_row_true l x : in_row l x = true <-> exists r, r ∈ l /\ left r <= x < right r.
Proof.
  unfold in_row. rewrite existsb_exists. setoid_rewrite list_elem_of_In.
  split; intros (r & H1 & H2); exists r; split; try done; lia.
Qed.
Lemma INRECT_iff r x y : INRECT r x y = true <-> left r <= x < right r /\ top r <= y < bottom r.
Proof. unfold INRECT. lia. Qed.

Lemma above_mono l y z : above y l -> y <= z -> above z l.
Proof. intros H Hz. eapply list.Forall_impl; [exact H|]. simpl. lia. Qed.
Lemma below_mono l y z : below z l -> y <= z -> below y l.
Proof. intros H Hz. eapply list.Forall_impl; [exact H|]. simpl. lia. Qed.
Lemma above_app y l k : above y (l ++ k) <-> above y l /\ above y k.
Proof. apply Forall_app. Qed.
Lemma below_app y l k : below y (l ++ k) <-> below y l /\ below y k.
Proof. apply Forall_app. Qed.
Lemma level_above t b l : level t b l -> above b l.
Proof. intros H. eapply list.Forall_impl; [exact H|]. simpl. lia. Qed.
Lemma level_below t b l : level t b l -> below t l.
Proof. intros H. eapply list.Forall_impl; [exact H|]. simpl. lia. Qed.
Lemma covers_above_le l x y z : above z l -> z <= y -> covers l x y = false.
Proof. intros H Hy. apply covers_above. by eapply above_mono. Qed.

(** ** The order *)
Lemma banded_app l k :
  banded (l ++ k) <-> banded l /\ banded k /\ (forall a b, a ∈ l -> b ∈ k -> follows a b).
Proof.
  induction l as [|a l IH]; simpl; [split; [intros H; splits; set_solver|tauto]|].
  rewrite IH, Forall_app. setoid_rewrite elem_of_cons. split.
  - intros (Hf & [H1 H2] & Hl & Hk & Hx). splits; try done.
    intros c b [->|Hc] Hb; [|eauto]. by eapply (proj1 (list.Forall_forall _ _)).
  - intros ((Hf & H1 & Hl) & Hk & Hx). splits; eauto.
    apply list.Forall_forall. eauto.
Qed.
Lemma spaced_app l k :
  spaced (l ++ k) <-> spaced l /\ spaced k /\ (forall a b, a ∈ l -> b ∈ k -> right a < left b).
Proof.
  induction l as [|a l IH]; simpl; [split; [intros H; splits; set_solver|tauto]|].
  rewrite IH, Forall_app. setoid_rewrite elem_of_cons. split.
  - intros (Hf & [H1 H2] & Hl & Hk & Hx). splits; try done.
    intros c b [->|Hc] Hb; [|eauto]. by apply (proj1 (list.Forall_forall _ _) H2).
  - intros ((Hf & H1 & Hl) & Hk & Hx). splits; eauto.
    apply list.Forall_forall. eauto.
Qed.

Lemma level_banded t b l : t < b -> level t b l -> spaced l -> banded l.
Proof.
  intros Htb. induction l as [|a l IH]; [done|]. intros H (Hs & Hg & Hl).
  apply list.Forall_cons in H as [[Ht Hb] H]. simpl.
  splits; [unfold full; lia| |auto].
  apply list.Forall_forall. intros c Hc. left.
  pose proof (proj1 (list.Forall_forall _ _) H c Hc). pose proof (proj1 (list.Forall_forall _ _) Hg c Hc).
  simpl in *. lia.
Qed.
Lemma banded_spaced t b l : t < b -> level t b l -> banded l -> spaced l.
Proof.
  intros Htb. induction l as [|a l IH]; [done|]. intros H (Hs & Hg & Hl).
  apply list.Forall_cons in H as [[Ht Hb] H]. simpl. splits; [apply Hs| |auto].
  apply list.Forall_forall. intros c Hc.
  pose proof (proj1 (list.Forall_forall _ _) H c Hc).
  destruct (proj1 (list.Forall_forall _ _) Hg c Hc); simpl in *; lia.
Qed.
(** a band may be added at the end *)
Lemma banded_snoc l k t b :
  t < b -> banded l -> above t l -> level t b k -> spaced k -> banded (l ++ k).
Proof.
  intros Htb Hl Ha Hk Hs. apply banded_app. splits; [done|by eapply level_banded|].
  intros a c H1 H2. right. pose proof (proj1 (list.Forall_forall _ _) Ha a H1).
  pose proof (proj1 (list.Forall_forall _ _) Hk c H2). simpl in *. lia.
Qed.

(** ** The first band *)
Lemma band_spec t l b r :
  band t l = (b, r) ->
  l = b ++ r /\ Forall (fun a => top a = t) b /\ (forall a r', r = a :: r' -> top a <> t).
Proof.
  revert b r. induction l as [|a l IH]; simpl; intros b r H; [by simplify_eq|].
  destruct (Z.eqb_spec (top a) t).
  - destruct (band t l) as [b' r'] eqn:E. simplify_eq.
    destruct (IH _ _ eq_refl) as (-> & H1 & H2). split; [done|]. split; [by constructor|done].
  - simplify_eq. split; [done|]. split; [constructor|]. intros ? ? [= <- <-]. done.
Qed.

(** the band of the first rectangle of a region, and the bands below it *)
Lemma first_band_spec a l b r :
  banded (a :: l) -> first_band (a :: l) = (b, r) ->
  a :: l = b ++ r /\ b <> [] /\ level (top a) (bottom a) b /\ spaced b /\ banded r /\ below (bottom a) r.
Proof.
  intros Hb H. unfold first_band in H. destruct (band_spec _ _ _ _ H) as (E & H1 & H2).
  assert (Hne : b <> []).
  { intros ->. simpl in E. by apply (H2 a l). }
  assert (Hlv : level (top a) (bottom a) b).
  { destruct b as [|a' b]; [done|]. simpl in E. injection E as <- ->.
    apply list.Forall_cons in H1 as [_ H1]. constructor; [done|].
    destruct Hb as (Hf & Hfo & _). apply Forall_app in Hfo as [Hfo _].
    apply list.Forall_forall. intros c Hc.
    pose proof (proj1 (list.Forall_forall _ _) H1 c Hc) as Ht.
    destruct (proj1 (list.Forall_forall _ _) Hfo c Hc) as [?|?]; unfold full in Hf; simpl in *; lia. }
  rewrite E in Hb. apply banded_app in Hb as (B1 & B2 & B3).
  assert (Hlt : top a < bottom a).
  { destruct b as [|a' b]; [done|]. simpl in E. injection E as <- _. apply B1. }
  splits; try done; [by eapply banded_spaced|].
  destruct r as [|c r]; [constructor|].
  assert (Hc : bottom a <= top c).
  { destruct b as [|a' b]; [done|]. simpl in E. injection E as <- _.
    specialize (H2 _ _ eq_refl). destruct (B3 a c) as [?|?]; [by left|by left|lia|lia]. }
  constructor; [done|]. destruct B2 as (Hf & Hfo & _).
  apply list.Forall_forall. intros d Hd.
  destruct (proj1 (list.Forall_forall _ _) Hfo d Hd) as [?|?]; unfold full in Hf; lia.
Qed.

(** the rows of a list of rectangles, from the rows of its first band *)
Lemma covers_first_band a l b r x y :
  banded (a :: l) -> first_band (a :: l) = (b, r) ->
  covers (a :: l) x y = (top a <=? y) && (y <? bottom a) && in_row b x || covers r x y.
Proof.
  intros Hb H. destruct (first_band_spec _ _ _ _ Hb H) as (-> & _ & Hl & _).
  by rewrite covers_app, (covers_level _ _ _ _ _ Hl).
Qed.

(** ** Adding to a region *)

(** the next rectangle fits after the doubling of the array *)
Definition room (reg : WINEREGION) : Prop := 1 <= size reg /\ numRects reg <= size reg - 1.
Definition grown (reg : WINEREGION) (l : list RECT) (reg' : WINEREGION) : Prop :=
  rects reg' = rects reg ++ l /\ room reg' /\ rtype reg' = rtype reg /\ extents reg' = extents reg.

Lemma grown_nil reg : room reg -> grown reg [] reg.
Proof. intros H. unfold grown. splits; by rewrite ?app_nil_r. Qed.
Lemma grown_app reg l reg1 k reg2 : grown reg l reg1 -> grown reg1 k reg2 -> grown reg (l ++ k) reg2.
Proof.
  intros (H1 & H2 & H3 & H4) (G1 & G2 & G3 & G4).
  unfold grown. splits; [by rewrite G1, H1, app_assoc|done|congruence|congruence].
Qed.
Lemma grown_room reg l reg' : grown reg l reg' -> room reg'.
Proof. by intros (_ & H & _). Qed.

Lemma add_rect_ok reg r : room reg -> exists reg', add_rect reg r = Ret reg' /\ grown reg [r] reg'.
Proof.
  intros [H1 H2]. unfold add_rect, xmemcheck.
  destruct (Z.leb_spec (size reg - 1) (numRects reg)).
  - unfold numRects at 1. simpl. fold (numRects reg).
    replace (numRects reg <? size reg * 2) with true by lia. eexists. split; [done|].
    unfold grown, room, numRects in *. simpl. rewrite zlen_app, zlen_cons, zlen_nil. splits; try done; lia.
  - replace (numRects reg <? size reg) with true by lia. eexists. split; [done|].
    unfold grown, room, numRects in *. simpl. rewrite zlen_app, zlen_cons, zlen_nil. splits; try done; lia.
Qed.

(** [m] adds a band [t], [b] of the columns [row] to [reg] *)
Definition adds_band (reg : WINEREGION) (m : outcome WINEREGION) (t b : Z) (row : Z -> bool) : Prop :=
  exists reg' l, m = Ret reg' /\ grown reg l reg' /\ level t b l /\ spaced l /\ forall x, in_row l x = row x.

Lemma adds_nil reg t b row : room reg -> (forall x, row x = false) -> adds_band reg (Ret reg) t b row.
Proof. intros H E. exists reg, []. splits; try done; [by apply grown_nil|constructor]. Qed.
Lemma adds_ext reg m t b row row' : (forall x, row x = row' x) -> adds_band reg m t b row -> adds_band reg m t b row'.
Proof. intros E (reg' & l & H1 & H2 & H3 & H4 & H5). exists reg', l. splits; try done. intros x. by rewrite H5. Qed.

(** one rectangle and then a band to the right of it *)
Lemma adds_cons reg t b l r row (k : WINEREGION -> outcome WINEREGION) :
  room reg -> l < r -> (forall x, row x = true -> r < x) ->
  (forall reg', room reg' -> adds_band reg' (k reg') t b row) ->
  adds_band reg (let! reg := add_rect reg (mkRect l t r b) in k reg) t b
    (fun x => (l <=? x) && (x <? r) || row x).
Proof.
  intros Hr Hlr Hrow Hk. destruct (add_rect_ok reg (mkRect l t r b) Hr) as (reg1 & -> & G1). simpl.
  destruct (Hk reg1 (grown_room _ _ _ G1)) as (reg2 & out & E & G2 & Hl & Hs & Hx).
  exists reg2, ([mkRect l t r b] ++ out). splits; try done.
  - by eapply grown_app.
  - constructor; [done|exact Hl].
  - simpl. splits; try done. apply list.Forall_forall. intros c Hc.
    apply Hrow. rewrite <- Hx. apply in_row_true. exists c. split; [done|].
    apply list_elem_of_split in Hc as (l1 & l2 & ->).
    apply spaced_app in Hs as (_ & [Hc _] & _). lia.
  - intros x. rewrite in_row_app, Hx. simpl. by rewrite orb_false_r.
Qed.

(** ** Rows to the right *)
Lemma spaced_cons_row a l x : spaced (a :: l) -> in_row l x = true -> right a < x.
Proof.
  intros (_ & H & _) Hx. apply in_row_true in Hx as (r & Hr & Hx).
  pose proof (proj1 (list.Forall_forall _ _) H r Hr). simpl in *. lia.
Qed.
Lemma spaced_tail a l : spaced (a :: l) -> spaced l.
Proof. by intros (_ & _ & H). Qed.
Lemma spaced_head a l : spaced (a :: l) -> left a < right a.
Proof. by intros (H & _). Qed.

(** ** The intersection of two rows *)
Lemma IntersectO_ok fuel : forall reg r1 r2 t b,
  room reg -> spaced r1 -> spaced r2 -> (length r1 + length r2 <= fuel)%nat ->
  adds_band reg (IntersectO_loop fuel reg r1 r2 t b) t b (fun x => in_row r1 x && in_row r2 x).
Proof.
  induction fuel as [|fuel IH]; intros reg r1 r2 t b Hr S1 S2 Hf.
  { destruct r1; [|simpl in Hf; lia]. by apply adds_nil. }
  destruct r1 as [|a1 r1]; [by apply adds_nil|].
  destruct r2 as [|a2 r2]; [apply adds_nil; [done|]; intros x; simpl; by rewrite andb_false_r|].
  pose proof (spaced_tail _ _ S1) as T1. pose proof (spaced_tail _ _ S2) as T2.
  pose proof (spaced_head _ _ S1) as D1. pose proof (spaced_head _ _ S2) as D2.
  assert (Hk : forall reg', room reg' -> adds_band reg'
    (if right a1 <? right a2 then IntersectO_loop fuel reg' r1 (a2 :: r2) t b
     else if right a2 <? right a1 then IntersectO_loop fuel reg' (a1 :: r1) r2 t b
     else IntersectO_loop fuel reg' r1 r2 t b) t b
    (fun x => in_row (a1 :: r1) x && in_row (a2 :: r2) x && (Z.min (right a1) (right a2) <=? x))).
  { intros reg' Hr'. simpl in Hf. repeat case_match; (eapply adds_ext; [|apply IH; simpl; auto; lia]);
      intros x; pose proof (spaced_cons_row _ _ x S1); pose proof (spaced_cons_row _ _ x S2);
      simpl; destruct (in_row r1 x), (in_row r2 x); lia. }
  simpl. destruct (Z.ltb_spec (Z.max (left a1) (left a2)) (Z.min (right a1) (right a2))).
  - eapply adds_ext; [|eapply (adds_cons reg t b _ _ _ _ Hr H); [|exact Hk]]; cbv beta.
    + intros x. pose proof (spaced_cons_row _ _ x S1). pose proof (spaced_cons_row _ _ x S2).
      simpl. destruct (in_row r1 x), (in_row r2 x); lia.
    + intros x. pose proof (spaced_cons_row _ _ x S1). pose proof (spaced_cons_row _ _ x S2).
      simpl. destruct (in_row r1 x), (in_row r2 x); lia.
  - simpl. eapply adds_ext; [|apply (Hk reg Hr)]. cbv beta.
    intros x. pose proof (spaced_cons_row _ _ x S1). pose proof (spaced_cons_row _ _ x S2).
    simpl. destruct (in_row r1 x), (in_row r2 x); lia.
Qed.

(** ** Copies of a row *)
Definition at_level (t b : Z) (a : RECT) : RECT := mkRect (left a) t (right a) b.
Lemma UnionNonO_ok r : forall reg t b, room reg ->
  exists reg', REGION_UnionNonO reg r t b = Ret reg' /\ grown reg (map (at_level t b) r) reg'.
Proof.
  induction r as [|a r IH]; intros reg t b Hr; simpl; [exists reg; split; [done|by apply grown_nil]|].
  destruct (add_rect_ok reg (mkRect (left a) t (right a) b) Hr) as (reg1 & -> & G1). simpl.
  destruct (IH reg1 t b (grown_room _ _ _ G1)) as (reg2 & -> & G2).
  exists reg2. split; [done|]. exact (grown_app _ _ _ _ _ G1 G2).
Qed.
Lemma SubtractNonO1_UnionNonO r : forall reg t b, REGION_SubtractNonO1 reg r t b = REGION_UnionNonO reg r t b.
Proof. induction r as [|a r IH]; intros; simpl; [done|]. by destruct add_rect; simpl. Qed.

Lemma at_level_level t b l : level t b (map (at_level t b) l).
Proof. apply Forall_map. by apply list.Forall_true. Qed.
Lemma at_level_spaced t b l : spaced l -> spaced (map (at_level t b) l).
Proof.
  induction l as [|a l IH]; [done|]. intros (H1 & H2 & H3). simpl. splits; auto.
  by apply Forall_map.
Qed.
Lemma at_level_row t b l x : in_row (map (at_level t b) l) x = in_row l x.
Proof. induction l as [|a l IH]; [done|]. simpl. by rewrite IH. Qed.

(** ** The union of two rows *)

(** the band [cur] is being built on [reg] *)
Definition building (reg : WINEREGION) (cur : list RECT) (reg' : WINEREGION) (t b : Z) : Prop :=
  grown reg cur reg' /\ level t b cur /\ spaced cur.

Lemma last_app_nonempty {A} (l k : list A) : k <> [] -> list.last (l ++ k) = list.last k.
Proof.
  intros Hk. destruct (exists_last Hk) as (k' & x & ->). by rewrite app_assoc, !last_snoc.
Qed.
Lemma building_add reg cur reg1 t b a :
  building reg cur reg1 t b -> left a < right a -> (forall c, c ∈ cur -> right c < left a) ->
  exists reg2, add_rect reg1 (mkRect (left a) t (right a) b) = Ret reg2 /\
    building reg (cur ++ [at_level t b a]) reg2 t b.
Proof.
  intros (G & L & S) Ha Hc. destruct (add_rect_ok reg1 (at_level t b a) (grown_room _ _ _ G)) as (reg2 & E & G2).
  exists reg2. split; [exact E|]. unfold building. splits; [by eapply grown_app| |].
  - apply Forall_app. split; [done|]. by repeat constructor.
  - apply spaced_app. splits; [done|done|]. intros c d H1 H2.
    apply list_elem_of_singleton in H2 as ->. by apply Hc.
Qed.

(** a rectangle that starts at or after the last one of the band *)
Lemma MERGERECT_ok reg cur reg1 t b a :
  t < b -> above t (rects reg) -> building reg cur reg1 t b -> left a < right a ->
  (forall c, c ∈ cur -> left c <= left a) ->
  exists reg2 cur2, MERGERECT reg1 a t b = Ret reg2 /\ building reg cur2 reg2 t b /\
    (forall x, in_row cur2 x = in_row cur x || (left a <=? x) && (x <? right a)) /\
    (forall c, c ∈ cur2 -> left c <= left a).
Proof.
  intros Htb Hab Hbd Ha Hc. pose proof Hbd as ((E & Hr & Ht & He) & L & S). unfold MERGERECT. rewrite E.
  destruct (decide (cur = [])) as [->|Hne].
  - rewrite app_nil_r. destruct (building_add _ _ _ _ _ a Hbd Ha) as (reg2 & E2 & B2); [set_solver|].
    exists reg2, ([] ++ [at_level t b a]). splits; [|done| |].
    + destruct (list.last (rects reg)) as [p|] eqn:Hl; [|done].
      apply last_Some_elem_of in Hl. pose proof (proj1 (list.Forall_forall _ _) Hab p Hl) as Hp. simpl in Hp.
      replace (bottom p =? b) with false by lia. by rewrite andb_false_r.
    + intros x. simpl. by rewrite orb_false_r.
    + intros c Hc'. apply list_elem_of_singleton in Hc' as ->. simpl. lia.
  - destruct (exists_last Hne) as (cur0 & p & ->). rewrite last_app_nonempty, last_snoc by done.
    assert (Hp : top p = t /\ bottom p = b).
    { apply (proj1 (list.Forall_forall _ _) L). set_solver. }
    destruct Hp as [Hpt Hpb]. rewrite Hpt, Hpb, !Z.eqb_refl. simpl.
    pose proof S as (S0 & [Sp _] & S1)%spaced_app.
    assert (Hlp : left p <= left a) by (apply Hc; set_solver).
    destruct (Z.leb_spec (left a) (right p)).
    + destruct (Z.ltb_spec (right p) (right a)); cycle 1.
      { exists reg1, (cur0 ++ [p]). splits; [done|done| |done].
        intros x. rewrite in_row_app. simpl. destruct (in_row cur0 x); lia. }
      eexists _, (cur0 ++ [mkRect (left p) t (right a) b]). splits; [done| | |].
      * unfold building, grown, room, numRects. simpl. rewrite app_assoc, removelast_last. splits.
        -- by rewrite app_assoc.
        -- apply Hr.
        -- destruct Hr as [_ Hr]. unfold numRects in Hr. rewrite E in Hr.
           rewrite !zlen_app, ?zlen_cons in *. lia.
        -- done.
        -- done.
        -- apply Forall_app in L as [L _]. apply Forall_app. split; [done|by repeat constructor].
        -- apply spaced_app. splits; [done|simpl; splits; try done; lia|].
           intros c d H1 H2. apply list_elem_of_singleton in H2 as ->. simpl. apply S1; set_solver.
      * intros x. rewrite !in_row_app. simpl. destruct (in_row cur0 x); lia.
      * intros c Hc'. apply elem_of_app in Hc' as [Hc'|Hc']; [apply Hc; set_solver|].
        apply list_elem_of_singleton in Hc' as ->. simpl. lia.
    + destruct (building_add _ _ _ _ _ a Hbd Ha) as (reg2 & E2 & B2).
      { intros c Hc'. apply elem_of_app in Hc' as [Hc'|Hc'].
        - assert (right c < left p) by (apply S1; set_solver). lia.
        - apply list_elem_of_singleton in Hc' as ->. lia. }
      exists reg2, ((cur0 ++ [p]) ++ [at_level t b a]). splits; [done|done| |].
      * intros x. rewrite !in_row_app. simpl. by rewrite !orb_false_r.
      * intros c Hc'. apply elem_of_app in Hc' as [Hc'|Hc']; [by apply Hc|].
        apply list_elem_of_singleton in Hc' as ->. simpl. lia.
Qed.

Definition starts (cur r : list RECT) : Prop := forall c a, c ∈ cur -> a ∈ r -> left c <= left a.
Lemma starts_tail cur a r : spaced (a :: r) -> (forall c, c ∈ cur -> left c <= left a) -> starts cur r.
Proof.
  intros (H1 & H2 & _) H c d Hc Hd. pose proof (proj1 (list.Forall_forall _ _) H2 d Hd) as Hd'. simpl in Hd'.
  specialize (H c Hc). lia.
Qed.

Section UnionO.
Context (reg : WINEREGION) (t b : Z).

Lemma merge_all_ok (Htb : t < b) (Hab : above t (rects reg)) r : forall cur reg1,
  building reg cur reg1 t b -> spaced r -> starts cur r ->
  exists reg2 cur2, merge_all reg1 r t b = Ret reg2 /\ building reg cur2 reg2 t b /\
    (forall x, in_row cur2 x = in_row cur x || in_row r x).
Proof.
  induction r as [|a r IH]; intros cur reg1 B S H.
  { exists reg1, cur. splits; [done|done|]. intros x. simpl. by rewrite orb_false_r. }
  destruct (MERGERECT_ok reg cur reg1 t b a Htb Hab B (spaced_head _ _ S)) as (reg2 & cur2 & E & B2 & Hx & Hc).
  { intros c Hc. apply H; [done|by left]. }
  simpl. rewrite E. simpl.
  destruct (IH cur2 reg2 B2 (spaced_tail _ _ S) (starts_tail _ _ _ S Hc)) as (reg3 & cur3 & E3 & B3 & Hx3).
  exists reg3, cur3. splits; [done|done|]. intros x. rewrite Hx3, Hx. by rewrite orb_assoc.
Qed.

Lemma UnionO_loop_ok (Htb : t < b) (Hab : above t (rects reg)) fuel : forall cur reg1 r1 r2,
  building reg cur reg1 t b -> spaced r1 -> spaced r2 -> starts cur r1 -> starts cur r2 ->
  (length r1 + length r2 <= fuel)%nat ->
  exists reg2 cur2, UnionO_loop fuel reg1 r1 r2 t b = Ret reg2 /\ building reg cur2 reg2 t b /\
    (forall x, in_row cur2 x = in_row cur x || (in_row r1 x || in_row r2 x)).
Proof.
  assert (Hle : forall a1 r1 cur, (forall c, c ∈ cur -> left c <= left a1) -> spaced (a1 :: r1) -> starts cur (a1 :: r1)).
  { intros a1 r1 cur H S c d Hc Hd. apply elem_of_cons in Hd as [->|Hd]; [by apply H|].
    by apply (starts_tail _ _ _ S H). }
  induction fuel as [|fuel IH]; intros cur reg1 r1 r2 B S1 S2 H1 H2 Hf.
  { destruct r1; [|simpl in Hf; lia]. destruct r2; [|simpl in Hf; lia].
    exists reg1, cur. splits; [done|done|]. intros x. simpl. by rewrite orb_false_r. }
  destruct r1 as [|a1 r1]; [by apply merge_all_ok|].
  destruct r2 as [|a2 r2].
  { simpl in_row. setoid_rewrite orb_false_r. by apply (merge_all_ok Htb Hab (a1 :: r1)). }
  simpl. simpl in Hf. destruct (Z.ltb_spec (left a1) (left a2)).
  - destruct (MERGERECT_ok reg cur reg1 t b a1 Htb Hab B (spaced_head _ _ S1)) as (reg2 & cur2 & E & B2 & Hx & Hc).
    { intros c Hc. apply H1; [done|by left]. }
    rewrite E. simpl. destruct (IH cur2 reg2 r1 (a2 :: r2) B2 (spaced_tail _ _ S1) S2) as (reg3 & cur3 & E3 & B3 & Hx3).
    { by eapply starts_tail. }
    { apply Hle; [|done]. intros c Hc'. specialize (Hc c Hc'). lia. }
    { simpl. lia. }
    exists reg3, cur3. splits; [done|done|]. intros x. rewrite Hx3, Hx. simpl.
    destruct (in_row cur x), (in_row r1 x), (in_row r2 x); lia.
  - destruct (MERGERECT_ok reg cur reg1 t b a2 Htb Hab B (spaced_head _ _ S2)) as (reg2 & cur2 & E & B2 & Hx & Hc).
    { intros c Hc. apply H2; [done|by left]. }
    rewrite E. simpl. destruct (IH cur2 reg2 (a1 :: r1) r2 B2 S1 (spaced_tail _ _ S2)) as (reg3 & cur3 & E3 & B3 & Hx3).
    { apply Hle; [|done]. intros c Hc'. specialize (Hc c Hc'). lia. }
    { by eapply starts_tail. }
    { simpl. lia. }
    exists reg3, cur3. splits; [done|done|]. intros x. rewrite Hx3, Hx. simpl.
    destruct (in_row cur x), (in_row r1 x), (in_row r2 x); lia.
Qed.
End UnionO.

Lemma UnionO_ok reg r1 r2 t b :
  room reg -> t < b -> above t (rects reg) -> spaced r1 -> spaced r2 ->
  adds_band reg (REGION_UnionO reg r1 r2 t b) t b (fun x => in_row r1 x || in_row r2 x).
Proof.
  intros Hr Htb Hab S1 S2.
  destruct (UnionO_loop_ok reg t b Htb Hab (length r1 + length r2) [] reg r1 r2) as (reg2 & cur & E & (G & L & S) & Hx);
    try done; [|by intros ? ? ?%elem_of_nil|by intros ? ? ?%elem_of_nil|].
  { unfold building. splits; [by apply grown_nil|constructor|done]. }
  exists reg2, cur. by splits.
Qed.

(** ** The difference of two rows *)

(** the minuends that are left: the first one from [l] on *)
Definition cut (l : Z) (r : list RECT) : list RECT :=
  match r with a :: r => mkRect l (top a) (right a) (bottom a) :: r | [] => [] end.
Lemma cut_next r z : spaced r -> spaced (cut (next_left r z) r) /\ forall x, in_row (cut (next_left r z) r) x = in_row r x.
Proof. by destruct r. Qed.

Lemma subtract_rest_ok r : forall reg l t b,
  room reg -> spaced (cut l r) -> adds_band reg (subtract_rest reg r l t b) t b (in_row (cut l r)).
Proof.
  induction r as [|a r IH]; intros reg l t b Hr S; [by apply adds_nil|]. simpl.
  destruct (cut_next r l (spaced_tail _ _ S)) as [S' Hx].
  eapply adds_ext; [|eapply (adds_cons reg t b _ _ _ _ Hr (spaced_head _ _ S)); [|intros; apply IH; auto]].
  - intros x. simpl. by rewrite Hx.
  - intros x. rewrite Hx. apply (spaced_cons_row _ _ x S).
Qed.

Lemma SubtractO_ok fuel : forall reg r1 r2 l t b,
  room reg -> spaced (cut l r1) -> spaced r2 -> (length r1 + length r2 <= fuel)%nat ->
  adds_band reg (SubtractO_loop fuel reg r1 r2 l t b) t b (fun x => in_row (cut l r1) x && negb (in_row r2 x)).
Proof.
  induction fuel as [|fuel IH]; intros reg r1 r2 l t b Hr S1 S2 Hf.
  { destruct r1; [|simpl in Hf; lia]. by apply adds_nil. }
  destruct r1 as [|a1 r1]; [by apply adds_nil|].
  destruct r2 as [|a2 r2].
  { eapply adds_ext; [|by apply (subtract_rest_ok (a1 :: r1))]. intros x. simpl. by rewrite andb_true_r. }
  assert (Hr1 : forall x, in_row r1 x = true -> right a1 < x) by (intros x; apply (spaced_cons_row _ _ x S1)).
  assert (Hr2 : forall x, in_row r2 x = true -> right a2 < x) by (intros x; apply (spaced_cons_row _ _ x S2)).
  pose proof (spaced_head _ _ S1) as D1. pose proof (spaced_head _ _ S2) as D2. simpl in D1, Hf.
  pose proof (spaced_tail _ _ S1) as T1. pose proof (spaced_tail _ _ S2) as T2.
  assert (Hadv : forall reg z, room reg -> adds_band reg (SubtractO_loop fuel reg r1 (a2 :: r2) (next_left r1 z) t b) t b
    (fun x => in_row r1 x && negb (in_row (a2 :: r2) x))).
  { intros reg' z Hr'. destruct (cut_next r1 z T1) as [S' Hx]. eapply adds_ext; [|apply IH; simpl; auto; lia].
    intros x. simpl. by rewrite Hx. }
  assert (Hcov : forall reg, room reg -> l < right a2 -> left a2 < right a1 -> adds_band reg
    (if right a1 <=? right a2 then SubtractO_loop fuel reg r1 (a2 :: r2) (next_left r1 (right a2)) t b
     else SubtractO_loop fuel reg (a1 :: r1) r2 (right a2) t b) t b
    (fun x => in_row (cut l (a1 :: r1)) x && negb (in_row (a2 :: r2) x) && (left a2 <=? x))).
  { intros reg' Hr' Hl2 Hla. destruct (Z.leb_spec (right a1) (right a2)).
    - eapply adds_ext; [|by apply Hadv]. intros x. specialize (Hr1 x). specialize (Hr2 x). simpl.
      destruct (in_row r1 x), (in_row r2 x); lia.
    - eapply adds_ext; [|apply IH; simpl; auto; [|lia]].
      + intros x. specialize (Hr1 x). specialize (Hr2 x). simpl. destruct (in_row r1 x), (in_row r2 x); lia.
      + simpl in S1. destruct S1 as (_ & S1 & _). by splits. }
  simpl. destruct (Z.leb_spec (right a2) l).
  { eapply adds_ext; [|apply (IH reg (a1 :: r1) r2); simpl; auto; lia].
    intros x. specialize (Hr1 x). specialize (Hr2 x). simpl. destruct (in_row r1 x), (in_row r2 x); lia. }
  destruct (Z.leb_spec (left a2) l).
  { eapply adds_ext; [|apply Hcov; [done|done|lia]].
    intros x. specialize (Hr1 x). specialize (Hr2 x). simpl. destruct (in_row r1 x), (in_row r2 x); lia. }
  destruct (Z.ltb_spec (left a2) (right a1)).
  - eapply adds_ext; [|eapply (adds_cons reg t b l (left a2) _ _ Hr); [lia| |intros; by apply Hcov]]; cbv beta.
    + intros x. specialize (Hr1 x). specialize (Hr2 x). simpl. destruct (in_row r1 x), (in_row r2 x); lia.
    + intros x. specialize (Hr1 x). specialize (Hr2 x). simpl. destruct (in_row r1 x), (in_row r2 x); lia.
  - replace (l <? right a1) with true by lia.
    eapply adds_ext; [|eapply (adds_cons reg t b l (right a1) _ _ Hr); [lia| |intros; by apply Hadv]]; cbv beta.
    + intros x. specialize (Hr1 x). specialize (Hr2 x). simpl. destruct (in_row r1 x), (in_row r2 x); lia.
    + intros x. specialize (Hr1 x). specialize (Hr2 x). simpl. destruct (in_row r1 x), (in_row r2 x); lia.
Qed.

End RegionBand.
