(* ===== verification/RegionMerge.v ===== *)
(** * Merging bands

    The canonical form of a region: no band could be merged with the one below
    it.  Two lists of rectangles in this form that cover the same points are
    equal, and merging the last band of one with what was added to it keeps
    the form. *)
From stdpp Require Import gmap.
From S2P Require Import Prelude Rect Region RegionBand.
Import Rect Region RegionBand.

Module RegionMerge.

Definition side (r : RECT) : Z * Z := (left r, right r).
(** at the bottom of every rectangle the row changes *)
Definition crisp (l : list RECT) : Prop :=
  forall a, a ∈ l -> ~ forall x, covers l x (bottom a - 1) = covers l x (bottom a).

(** ** Elements *)
Lemma banded_full l a : banded l -> a ∈ l -> full a.
Proof.
  intros H Ha. apply list_elem_of_split in Ha as (l1 & l2 & ->).
  by apply banded_app in H as (_ & [H _] & _).
Qed.
Lemma spaced_full l a : spaced l -> a ∈ l -> left a < right a.
Proof.
  intros H Ha. apply list_elem_of_split in Ha as (l1 & l2 & ->).
  by apply spaced_app in H as (_ & [H _] & _).
Qed.
Lemma above_elem y l a : above y l -> a ∈ l -> bottom a <= y.
Proof. intros H Ha. exact (proj1 (list.Forall_forall _ _) H a Ha). Qed.
Lemma below_elem y l a : below y l -> a ∈ l -> y <= top a.
Proof. intros H Ha. exact (proj1 (list.Forall_forall _ _) H a Ha). Qed.
Lemma level_elem t b l a : level t b l -> a ∈ l -> top a = t /\ bottom a = b.
Proof. intros H Ha. exact (proj1 (list.Forall_forall _ _) H a Ha). Qed.
Lemma in_row_left l a : spaced l -> a ∈ l -> in_row l (left a) = true.
Proof. intros H Ha. apply in_row_true. exists a. pose proof (spaced_full _ _ H Ha). split; [done|lia]. Qed.
Lemma covers_corner l a : banded l -> a ∈ l -> covers l (left a) (bottom a - 1) = true.
Proof.
  intros H Ha. apply covers_true. exists a. destruct (banded_full _ _ H Ha). split; [done|]. apply INRECT_iff. lia.
Qed.

(** ** A row determines its rectangles *)
Lemma in_row_ge a l x : spaced (a :: l) -> in_row (a :: l) x = true -> left a <= x.
Proof.
  intros S H. pose proof (spaced_head _ _ S). pose proof (spaced_cons_row _ _ x S). simpl in H.
  destruct (in_row l x); lia.
Qed.
Lemma in_row_tail a l x : spaced (a :: l) -> in_row l x = in_row (a :: l) x && (right a <=? x).
Proof. intros S. pose proof (spaced_cons_row _ _ x S). simpl. destruct (in_row l x); lia. Qed.

Lemma row_unique l : forall k, spaced l -> spaced k -> (forall x, in_row l x = in_row k x) -> map side l = map side k.
Proof.
  induction l as [|a l IH]; intros [|c k] Sl Sk H; [done| | |].
  - specialize (H (left c)). rewrite (in_row_left (c :: k) c) in H by (done || by left). done.
  - specialize (H (left a)). rewrite (in_row_left (a :: l) a) in H by (done || by left). done.
  - assert (E1 : left a = left c).
    { apply Z.le_antisymm; (eapply in_row_ge; [done|]).
      - rewrite H. by apply in_row_left; [|left].
      - rewrite <- H. by apply in_row_left; [|left]. }
    assert (E2 : right a = right c).
    { pose proof (H (right a)) as Ha. pose proof (H (right c)) as Hc. simpl in Ha, Hc.
      pose proof (spaced_cons_row _ _ (right a) Sl). pose proof (spaced_cons_row _ _ (right c) Sk).
      pose proof (spaced_head _ _ Sl). pose proof (spaced_head _ _ Sk).
      destruct (in_row l (right a)), (in_row k (right c)), (in_row k (right a)), (in_row l (right c)); lia. }
    simpl. f_equal; [by unfold side; rewrite E1, E2|].
    apply IH; [by eapply spaced_tail|by eapply spaced_tail|]. intros x.
    by rewrite (in_row_tail _ _ _ Sl), (in_row_tail _ _ _ Sk), H, E2.
Qed.
Lemma level_side t b l k : level t b l -> level t b k -> map side l = map side k -> l = k.
Proof.
  intros Hl. revert k. induction Hl as [|a l [Ht Hb] _ IH]; intros [|c k] Hk E; try done.
  apply list.Forall_cons in Hk as [[Ht' Hb'] Hk]. injection E as E1 E2 E3. f_equal; [|by apply IH].
  destruct a, c; simpl in *; congruence.
Qed.
Lemma side_row l k x : map side l = map side k -> in_row l x = in_row k x.
Proof.
  revert k. induction l as [|a l IH]; intros [|c k] E; try done. injection E as E1 E2 E3. simpl.
  by rewrite (IH _ E3), E1, E2.
Qed.

(** ** A list of bands in two parts *)
Lemma covers_split acc n y x z :
  above y acc -> below y n -> covers (acc ++ n) x z = if z <? y then covers acc x z else covers n x z.
Proof.
  intros Ha Hn. rewrite covers_app. destruct (Z.ltb_spec z y).
  - by rewrite (covers_below n _ _ y), orb_false_r.
  - by rewrite (covers_above_le acc _ _ y).
Qed.
Lemma covers_new acc n y x z : above y acc -> below y n -> y <= z -> covers (acc ++ n) x z = covers n x z.
Proof. intros Ha Hn Hz. rewrite (covers_split _ _ y) by done. by rewrite (proj2 (Z.ltb_ge _ _)). Qed.
Lemma covers_old acc n y x z : above y acc -> below y n -> z < y -> covers (acc ++ n) x z = covers acc x z.
Proof. intros Ha Hn Hz. rewrite (covers_split _ _ y) by done. by rewrite (proj2 (Z.ltb_lt _ _)). Qed.
Lemma banded_join pre k rest t b :
  t < b -> banded pre -> above t pre -> level t b k -> spaced k -> banded rest -> below b rest ->
  banded (pre ++ k ++ rest).
Proof.
  intros Htb H1 H2 H3 H4 H5 H6. rewrite app_assoc. apply banded_app. splits; [by eapply banded_snoc|done|].
  intros a c Ha Hc. right. pose proof (below_elem _ _ _ H6 Hc).
  apply elem_of_app in Ha as [Ha|Ha]; [pose proof (above_elem _ _ _ H2 Ha)|pose proof (level_elem _ _ _ _ H3 Ha)]; lia.
Qed.
Lemma crisp_tail y l k : banded k -> above y l -> below y k -> crisp (l ++ k) -> crisp k.
Proof.
  intros Hk Ha Hb Hc a Hin E. apply (Hc a); [set_solver|]. intros x.
  pose proof (below_elem _ _ _ Hb Hin). destruct (banded_full _ _ Hk Hin).
  rewrite !(covers_new _ _ y) by (done || lia). done.
Qed.
Lemma crisp_level t b l : t < b -> level t b l -> spaced l -> crisp l.
Proof.
  intros Htb Hl Hs a Ha E. specialize (E (left a)). rewrite !(covers_level t b) in E by done.
  destruct (level_elem _ _ _ _ Hl Ha) as [_ Eb]. rewrite Eb, in_row_left in E by done. lia.
Qed.

(** ** The canonical form is unique *)
Lemma covers_tail a l b r x y : banded (a :: l) -> first_band (a :: l) = (b, r) ->
  covers r x y = covers (a :: l) x y && (bottom a <=? y).
Proof.
  intros B E. destruct (first_band_spec _ _ _ _ B E) as (-> & _ & Hl & _ & _ & Hb).
  rewrite (covers_split _ _ (bottom a)); [|by eapply level_above|done].
  destruct (Z.ltb_spec y (bottom a)).
  - rewrite (covers_below r _ _ (bottom a)) by done. by rewrite (proj2 (Z.leb_gt _ _)), andb_false_r.
  - by rewrite (proj2 (Z.leb_le _ _)), andb_true_r.
Qed.
Lemma first_row a l b r x : banded (a :: l) -> first_band (a :: l) = (b, r) ->
  forall y, top a <= y < bottom a -> covers (a :: l) x y = in_row b x.
Proof.
  intros B E y Hy. rewrite (covers_first_band _ _ _ _ _ _ B E).
  destruct (first_band_spec _ _ _ _ B E) as (_ & _ & _ & _ & _ & Hb).
  rewrite (covers_below r _ _ (bottom a)) by (done || lia). rewrite orb_false_r.
  by rewrite !(proj2 (Z.leb_le _ _)), (proj2 (Z.ltb_lt _ _)) by lia.
Qed.
Lemma covers_top a l x y : banded (a :: l) -> covers (a :: l) x y = true -> top a <= y.
Proof.
  intros (Hf & Hfo & Hb) H. destruct (Z.leb_spec (top a) y); [done|]. exfalso.
  rewrite (covers_below (a :: l) x y (top a)) in H; [done| |done].
  constructor; [lia|]. eapply list.Forall_impl; [exact Hfo|]. intros c. unfold follows, full in *. lia.
Qed.
(** the first band ends where the row changes *)
Lemma bottom_le a l b r c k d s :
  banded (a :: l) -> crisp (a :: l) -> first_band (a :: l) = (b, r) ->
  banded (c :: k) -> first_band (c :: k) = (d, s) -> top a = top c ->
  (forall x y, covers (a :: l) x y = covers (c :: k) x y) -> bottom c <= bottom a.
Proof.
  intros Ba Ca Ea Bc Ec Et H. destruct (Z.leb_spec (bottom c) (bottom a)); [done|]. exfalso.
  pose proof (banded_full _ a Ba ltac:(by left)) as [_ Ha].
  apply (Ca a); [by left|]. intros x. rewrite !H.
  rewrite !(first_row _ _ _ _ _ Bc Ec) by lia. done.
Qed.
Lemma covers_none l : banded l -> (forall x y, covers l x y = false) -> l = [].
Proof.
  intros B H. destruct l as [|c k]; [done|]. specialize (H (left c) (bottom c - 1)).
  by rewrite (covers_corner (c :: k)) in H by (done || by left).
Qed.
Lemma banded_unique_len n : forall l k, (length l <= n)%nat -> banded l -> crisp l -> banded k -> crisp k ->
  (forall x y, covers l x y = covers k x y) -> l = k.
Proof.
  induction n as [|n IH]; intros l k Hn Bl Cl Bk Ck H.
  { destruct l; [|simpl in Hn; lia]. symmetry. apply covers_none; [done|]. intros x y. by rewrite <- H. }
  destruct l as [|a l], k as [|c k]; [done| | |].
  { symmetry. apply covers_none; [done|]. intros x y. by rewrite <- H. }
  { apply covers_none; [done|]. intros x y. by rewrite H. }
  destruct (first_band (a :: l)) as [b r] eqn:Ea, (first_band (c :: k)) as [d s] eqn:Ec.
  pose proof (banded_full _ a Bl ltac:(by left)) as [Ha1 Ha2].
  pose proof (banded_full _ c Bk ltac:(by left)) as [Hc1 Hc2].
  assert (Et : top a = top c).
  { apply Z.le_antisymm; (eapply covers_top; [done|]).
    - rewrite H. apply covers_true. exists c. split; [by left|]. apply (INRECT_iff c (left c)). lia.
    - rewrite <- H. apply covers_true. exists a. split; [by left|]. apply (INRECT_iff a (left a)). lia. }
  assert (Eb : bottom a = bottom c).
  { apply Z.le_antisymm; [by eapply (bottom_le c k d s a l b r)|by eapply (bottom_le a l b r c k d s)]. }
  destruct (first_band_spec _ _ _ _ Bl Ea) as (El & Hne & Ll & Sl & Br & Hbr).
  destruct (first_band_spec _ _ _ _ Bk Ec) as (Ek & _ & Lk & Sk & Bs & Hbs).
  assert (b = d) as <-.
  { apply (level_side (top a) (bottom a)); [done|by rewrite Et, Eb|]. apply row_unique; [done|done|].
    intros x. rewrite <- (first_row _ _ _ _ x Bl Ea (top a)) by lia.
    rewrite <- (first_row _ _ _ _ x Bk Ec (top a)) by lia. apply H. }
  rewrite El, Ek. f_equal. apply IH; [|exact Br| |exact Bs| |].
  - apply (f_equal length) in El. rewrite length_app in El. destruct b; [done|]. simpl in *. lia.
  - apply (crisp_tail (bottom a) b); [done|by eapply level_above|done|by rewrite <- El].
  - apply (crisp_tail (bottom c) b); [done|by eapply level_above|done|by rewrite <- Ek].
  - intros x y. by rewrite (covers_tail _ _ _ _ _ _ Bl Ea), (covers_tail _ _ _ _ _ _ Bk Ec), H, Eb.
Qed.
Lemma banded_unique l k : banded l -> crisp l -> banded k -> crisp k ->
  (forall x y, covers l x y = covers k x y) -> l = k.
Proof. by apply (banded_unique_len (length l)). Qed.

(** ** Merging the last band with the first new one *)

(** [lst] is the last band of [pre ++ lst] *)
Definition last_band (pre lst : list RECT) : Prop :=
  (pre = [] /\ lst = []) \/ exists t b, lst <> [] /\ level t b lst /\ above t pre.

Lemma line_up_sides p : forall c, length p = length c -> line_up p c = true <-> map side p = map side c.
Proof.
  induction p as [|a p IH]; intros [|b c] H; try done. simpl in *. injection H as H.
  rewrite andb_true_iff, IH by done. unfold same_sides, side. split.
  - intros [H1 ->]. f_equal. f_equal; lia.
  - intros [= -> -> ->]. split; [lia|done].
Qed.
Lemma merge_bands_level t b u v p : forall c, level t b p -> level u v c -> length p = length c ->
  merge_bands p c = map (at_level t v) p.
Proof.
  induction p as [|a p IH]; intros [|d c] Hp Hc H; try done. simpl in *. injection H as H.
  apply list.Forall_cons in Hp as [[Ht Hb] Hp]. apply list.Forall_cons in Hc as [[Hu Hv] Hc].
  rewrite (IH c) by done. unfold at_level at 2. by rewrite Ht, Hv.
Qed.
Lemma first_band_app t b c rest : c <> [] -> t < b -> level t b c -> below b rest -> first_band (c ++ rest) = (c, rest).
Proof.
  intros Hne Htb Hl Hb. destruct c as [|a c]; [done|].
  pose proof (level_elem _ _ _ a Hl ltac:(by left)) as [Ha _].
  transitivity (band t ((a :: c) ++ rest)); [by rewrite <- Ha|]. clear Ha Hne.
  revert Hl. generalize (a :: c). clear a c. intros c Hl. induction Hl as [|a c [Ha _] _ IH]; simpl.
  - destruct rest as [|d rest]; [done|]. simpl. pose proof (below_elem _ _ d Hb ltac:(by left)).
    by rewrite (proj2 (Z.eqb_neq _ _)) by lia.
  - by rewrite Ha, Z.eqb_refl, IH.
Qed.

Definition mergeable (lst c : list RECT) : Prop :=
  lst <> [] /\ map side lst = map side c /\ (forall a b, a ∈ lst -> b ∈ c -> bottom a = top b).

Lemma drop_zlen_app {A} (l k : list A) : drop (Z.to_nat (zlen l)) (l ++ k) = k.
Proof. unfold zlen. by rewrite Nat2Z.id, drop_app_length. Qed.
Lemma take_zlen_app {A} (l k : list A) : take (Z.to_nat (zlen l)) (l ++ k) = l.
Proof. unfold zlen. by rewrite Nat2Z.id, take_app_length. Qed.

Lemma REGION_Coalesce_eq reg pre lst c rest t b u v :
  rects reg = pre ++ lst ++ c ++ rest -> (lst = [] \/ level t b lst) ->
  c <> [] -> u < v -> level u v c -> below v rest ->
  exists reg' p', REGION_Coalesce reg (zlen pre) (zlen (pre ++ lst)) = Ret (reg', p') /\
  size reg' = size reg /\ rtype reg' = rtype reg /\ extents reg' = extents reg /\
  ((~ mergeable lst c /\ reg' = reg /\ (rest = [] -> p' = zlen (pre ++ lst))) \/
   (mergeable lst c /\ rects reg' = pre ++ map (at_level t v) lst ++ rest /\ (rest = [] -> p' = zlen pre))).
Proof.
  intros E Hl Hne Huv Hc Hb. unfold REGION_Coalesce. rewrite E.
  replace (zlen (pre ++ lst) - zlen pre) with (zlen lst) by (rewrite zlen_app; lia).
  rewrite drop_zlen_app, take_zlen_app. rewrite (app_assoc pre lst), drop_zlen_app.
  destruct (c ++ rest) as [|c0 cr] eqn:Ecr; [by destruct c|]. rewrite <- Ecr.
  rewrite (first_band_app u v c rest) by done.
  assert (Hc0 : c0 ∈ c). { destruct c; [done|]. simpl in Ecr. injection Ecr as -> _. by left. }
  destruct (level_elem _ _ _ _ Hc Hc0) as [Tc _].
  assert (Hlen : mergeable lst c -> length lst = length c).
  { intros (_ & Hs & _). apply (f_equal length) in Hs. by rewrite !length_map in Hs. }
  destruct (Z.eqb_spec (zlen c) (zlen lst)) as [Hz|Hz]; cycle 1.
  { eexists _, _. simpl. splits; [done|done|done|done|]. left. splits; [|done|by intros ->].
    intros Hm. apply Hz. unfold zlen. by rewrite (Hlen Hm). }
  assert (Hlen' : length lst = length c) by (unfold zlen in Hz; lia).
  replace (zlen c =? 0) with false by (destruct c; [done|]; rewrite zlen_cons; pose proof (zlen_nonneg c); lia).
  simpl. destruct lst as [|p0 lst]; [by destruct c|].
  destruct Hl as [|Hl]; [done|]. destruct (level_elem _ _ _ p0 Hl ltac:(by left)) as [_ Bp].
  destruct ((bottom p0 =? top c0) && line_up (p0 :: lst) c) eqn:Hm.
  - apply andb_true_iff in Hm as [H1 H2%line_up_sides]; [|done].
    eexists _, _. splits; [reflexivity|done|done|done|]. right. splits; [| |by intros ->].
    + unfold mergeable. splits; [done|done|]. intros a d Ha Hd.
      pose proof (level_elem _ _ _ _ Hl Ha). pose proof (level_elem _ _ _ _ Hc Hd). lia.
    + rewrite <- app_assoc, take_zlen_app. unfold set_rects; cbn [rects]. by rewrite (merge_bands_level t b u v _ c) by done.
  - eexists _, _. splits; [reflexivity|done|done|done|]. left. splits; [|done|by intros ->].
    intros (_ & Hs & Hbt). apply line_up_sides in Hs; [|done]. rewrite Hs, (Hbt p0 c0), Z.eqb_refl in Hm; try done.
    by left.
Qed.

End RegionMerge.
