(* ===== verification/RegionSweep.v ===== *)
(** * The sweep over two regions (REGION_RegionOp of dlls/gdi/region.c)

    For an operation on points, given by functions for the bands, the sweep
    makes a list of rectangles in canonical form that covers a point iff the
    operation says so for the points of the two sources. *)
From stdpp Require Import gmap.
From S2P Require Import Prelude Rect Region RegionBand RegionMerge.
Import Rect Region RegionBand RegionMerge.

Module RegionSweep.

Lemma nonempty_elem {A} (l : list A) : l <> [] -> exists a, a ∈ l.
Proof. destruct l as [|a l]; [done|]. exists a. by left. Qed.

(** ** A band is added and merged *)
Section Join.
Context (pre lst c rest : list RECT) (t b u v y : Z).
Context (Hlst : lst <> []) (Llst : level t b lst) (Hpre : above t pre).
Context (Bacc : banded (pre ++ lst)) (Cacc : crisp (pre ++ lst)) (Aacc : above y (pre ++ lst)).
Context (Hc : c <> []) (Huv : u < v) (Lc : level u v c) (Hrest : below v rest).
Context (Bn : banded (c ++ rest)) (Cn : crisp (c ++ rest)) (An : below y (c ++ rest)).

Local Lemma lst_spaced : t < b /\ spaced lst /\ b <= y /\ y <= u.
Proof.
  destruct (nonempty_elem _ Hlst) as [a Ha]. destruct (nonempty_elem _ Hc) as [d Hd].
  assert (Ha' : a ∈ pre ++ lst) by set_solver.
  destruct (level_elem _ _ _ a Llst Ha) as [Ht Hb]. destruct (level_elem _ _ _ d Lc Hd) as [<- _].
  destruct (banded_full _ _ Bacc Ha') as [_ Htb]. rewrite Ht, Hb in Htb.
  pose proof (above_elem _ _ _ Aacc Ha'). splits; [done| |lia|].
  - apply (banded_spaced t b); [done|done|]. by apply banded_app in Bacc as (_ & H' & _).
  - apply (below_elem _ _ d An). apply elem_of_app. by left.
Qed.
Local Lemma new_spaced : spaced c.
Proof. apply (banded_spaced u v); [done|done|]. by apply banded_app in Bn as (H & _ & _). Qed.

(** the row above [y] is the last band's, the row at [y] the new one's *)
Lemma row_above_y x : b = y -> covers ((pre ++ lst) ++ (c ++ rest)) x (y - 1) = in_row lst x.
Proof.
  intros E. destruct lst_spaced as (H1 & H2 & H3 & H4).
  rewrite (covers_old (pre ++ lst) (c ++ rest) y) by (done || lia).
  rewrite covers_app, (covers_above_le pre x (y - 1) t Hpre), (covers_level t b) by (done || lia).
  destruct (in_row lst x); lia.
Qed.
Lemma row_at_y x : covers ((pre ++ lst) ++ (c ++ rest)) x y = (u =? y) && in_row c x.
Proof.
  destruct lst_spaced as (H1 & H2 & H3 & H4).
  rewrite (covers_new (pre ++ lst) (c ++ rest) y) by (done || lia).
  rewrite covers_app, (covers_below rest x _ v), (covers_level u v) by (done || lia).
  destruct (in_row c x); lia.
Qed.

Lemma crisp_new a : a ∈ c ++ rest ->
  ~ forall x, covers ((pre ++ lst) ++ (c ++ rest)) x (bottom a - 1) = covers ((pre ++ lst) ++ (c ++ rest)) x (bottom a).
Proof.
  intros Ha E. apply (Cn a Ha). intros x. specialize (E x).
  pose proof (below_elem _ _ _ An Ha). destruct (banded_full _ _ Bn Ha).
  by rewrite !(covers_new (pre ++ lst) (c ++ rest) y) in E by (done || lia).
Qed.
Lemma crisp_old a : a ∈ pre ++ lst -> bottom a < y ->
  ~ forall x, covers ((pre ++ lst) ++ (c ++ rest)) x (bottom a - 1) = covers ((pre ++ lst) ++ (c ++ rest)) x (bottom a).
Proof.
  intros Ha Hy E. apply (Cacc a Ha). intros x. specialize (E x).
  by rewrite !(covers_old (pre ++ lst) (c ++ rest) y) in E by (done || lia).
Qed.

Lemma unmerged_crisp : ~ mergeable lst c -> crisp ((pre ++ lst) ++ (c ++ rest)).
Proof.
  intros Hm a [Ha|Ha]%elem_of_app; [|by apply crisp_new].
  destruct (decide (bottom a = y)) as [Hy|Hy]; cycle 1.
  { apply crisp_old; [done|]. pose proof (above_elem _ _ _ Aacc Ha). lia. }
  rewrite Hy. destruct lst_spaced as (H1 & H2 & H3 & H4).
  assert (Hb : b = y).
  { apply elem_of_app in Ha as [Ha|Ha]; [pose proof (above_elem _ _ _ Hpre Ha)|pose proof (level_elem _ _ _ _ Llst Ha)]; lia. }
  intros E. setoid_rewrite (fun x => row_above_y x Hb) in E. setoid_rewrite row_at_y in E.
  destruct (Z.eqb_spec u y).
  - apply Hm. unfold mergeable. splits; [done|by apply row_unique; [|apply new_spaced|]|].
    intros a' d Ha' Hd. pose proof (level_elem _ _ _ _ Llst Ha'). pose proof (level_elem _ _ _ _ Lc Hd). lia.
  - destruct (nonempty_elem _ Hlst) as [p Hp]. specialize (E (left p)). simpl andb in E.
    by rewrite (in_row_left lst p) in E by done.
Qed.
Lemma unmerged_banded : banded ((pre ++ lst) ++ (c ++ rest)).
Proof.
  apply banded_app. splits; [done|done|]. intros a d Ha Hd. right.
  pose proof (above_elem _ _ _ Aacc Ha). pose proof (below_elem _ _ _ An Hd). lia.
Qed.

Lemma merged_covers x z : mergeable lst c ->
  covers (pre ++ map (at_level t v) lst ++ rest) x z = covers ((pre ++ lst) ++ (c ++ rest)) x z.
Proof.
  intros (_ & Hs & Hb). destruct lst_spaced as (H1 & H2 & H3 & H4). rewrite !covers_app.
  rewrite (covers_level t v (map _ _)), (covers_level t b lst), (covers_level u v c) by (done || apply at_level_level).
  rewrite at_level_row, (side_row _ _ x Hs).
  assert (b = u) as ->.
  { destruct (nonempty_elem _ Hlst) as [p Hp]. destruct (nonempty_elem _ Hc) as [d Hd].
    pose proof (level_elem _ _ _ p Llst Hp). pose proof (level_elem _ _ _ d Lc Hd).
    specialize (Hb p d Hp Hd). lia. }
  destruct (covers pre x z), (covers rest x z), (in_row c x); lia.
Qed.
Lemma merged_banded : banded (pre ++ map (at_level t v) lst ++ rest).
Proof.
  destruct lst_spaced as (H1 & H2 & H3 & H4).
  apply (banded_join _ _ _ t v); [lia|by apply banded_app in Bacc as (H & _)|done|apply at_level_level
    |by apply at_level_spaced|by apply banded_app in Bn as (_ & H & _)|done].
Qed.
Lemma merged_crisp : mergeable lst c -> crisp (pre ++ map (at_level t v) lst ++ rest).
Proof.
  intros Hm a Ha. setoid_rewrite (fun x z => merged_covers x z Hm). destruct lst_spaced as (H1 & H2 & H3 & H4).
  apply elem_of_app in Ha as [Ha|[Ha|Ha]%elem_of_app].
  - apply crisp_old; [set_solver|]. pose proof (above_elem _ _ _ Hpre Ha). lia.
  - destruct (level_elem _ _ _ _ (at_level_level _ _ _) Ha) as [_ ->].
    destruct (nonempty_elem _ Hc) as [d Hd]. destruct (level_elem _ _ _ d Lc Hd) as [_ <-].
    apply crisp_new. apply elem_of_app. by left.
  - apply crisp_new. apply elem_of_app. by right.
Qed.
End Join.

(** ** The region that is built

    It is in canonical form and above [y], and [prev] is the index of its last
    band. *)
Record sweep_inv (reg : WINEREGION) (prev y : Z) : Prop := {
  si_room : room reg;
  si_banded : banded (rects reg);
  si_crisp : crisp (rects reg);
  si_above : above y (rects reg);
  si_last : exists pre lst, rects reg = pre ++ lst /\ prev = zlen pre /\ last_band pre lst }.

Lemma sweep_inv_mono reg prev y z : sweep_inv reg prev y -> y <= z -> sweep_inv reg prev z.
Proof. intros [H1 H2 H3 H4 H5] Hz. split; try done. by eapply above_mono. Qed.

Definition same_header (reg reg' : WINEREGION) : Prop := rtype reg' = rtype reg /\ extents reg' = extents reg.

Lemma room_shrink reg reg' : room reg -> size reg' = size reg -> numRects reg' <= numRects reg -> room reg'.
Proof. unfold room. intros [H1 H2] -> H. split; lia. Qed.

Lemma at_level_len t v l : zlen (map (at_level t v) l) = zlen l.
Proof. unfold zlen. by rewrite length_map. Qed.

(** rectangles were added below [y]: the first of their bands is merged *)
Lemma Coalesce_ok reg prev y reg1 c rest u v :
  sweep_inv reg prev y -> grown reg (c ++ rest) reg1 ->
  c <> [] -> u < v -> level u v c -> below v rest -> banded (c ++ rest) -> crisp (c ++ rest) -> below y (c ++ rest) ->
  exists reg2 prev2, REGION_Coalesce reg1 prev (numRects reg) = Ret (reg2, prev2) /\ room reg2 /\
    same_header reg reg2 /\ banded (rects reg2) /\ crisp (rects reg2) /\
    (forall x z, covers (rects reg2) x z = covers (rects reg) x z || covers (c ++ rest) x z) /\
    (rest = [] -> above v (rects reg2) /\
      exists pre lst, rects reg2 = pre ++ lst /\ prev2 = zlen pre /\ last_band pre lst).
Proof.
  intros [Hr Hb Hc Ha (pre & lst & E & -> & Hl)] (G & Gr & Gt & Ge) Hne Huv Lc Lr Bn Cn An.
  rewrite E in G. unfold numRects. rewrite E in *. clear E Hr.
  assert (Hyu : y <= u).
  { destruct (nonempty_elem _ Hne) as [d Hd]. destruct (level_elem _ _ _ d Lc Hd) as [<- _].
    apply (below_elem _ _ d An). apply elem_of_app. by left. }
  destruct Hl as [[-> ->]|(t & b & Hlst & Llst & Hpre)].
  - destruct (REGION_Coalesce_eq reg1 [] [] c rest 0 0 u v) as (reg2 & p2 & E2 & _ & _ & _ & [(_ & -> & Hp)|((? & _) & _)]);
      try done; [by left|].
    exists reg1, p2. simpl in *. rewrite G. unfold same_header. splits; try done.
    intros ->. rewrite app_nil_r in *. split; [by eapply level_above|].
    exists [], c. splits; [done|by rewrite Hp|]. right. exists u, v. splits; try done. constructor.
  - rewrite <- app_assoc in G.
    destruct (REGION_Coalesce_eq reg1 pre lst c rest t b u v) as (reg2 & p2 & E2 & Es & Et & Ee & Hcase); try done; [by right|].
    rewrite app_assoc in G.
    exists reg2, p2. destruct Hcase as [(Hm & -> & Hp)|(Hm & Er & Hp)].
    + rewrite G. unfold same_header. splits; try done.
      * by eapply unmerged_banded.
      * by eapply (unmerged_crisp pre lst c rest t b u v y).
      * intros x z. by rewrite covers_app.
      * intros ->. rewrite app_nil_r in *. split.
        { apply above_app. split; [eapply above_mono; [exact Ha|lia]|by eapply level_above]. }
        exists (pre ++ lst), c. splits; [done|by apply Hp|]. right. exists u, v. splits; try done.
        eapply above_mono; [exact Ha|lia].
    + unfold same_header. rewrite Et, Ee. splits; try done.
      * apply (room_shrink reg1); [done|done|]. unfold numRects. rewrite Er, G, !zlen_app, at_level_len.
        pose proof (zlen_nonneg c). lia.
      * rewrite Er. by eapply (merged_banded pre lst c rest t b u v y).
      * rewrite Er. by eapply (merged_crisp pre lst c rest t b u v y).
      * intros x z. rewrite Er, (merged_covers pre lst c rest t b u v y) by done. by rewrite covers_app.
      * intros ->. rewrite Er, !app_nil_r in *. split.
        { apply above_app. split; [|eapply level_above; apply at_level_level].
          apply above_app in Ha as [Ha _]. eapply above_mono; [exact Ha|lia]. }
        exists pre, (map (at_level t v) lst). splits; [done|by apply Hp|]. right. exists t, v.
        splits; [by destruct lst|apply at_level_level|done].
Qed.

(** a band is added, or nothing *)
Lemma add_band_ok reg prev y reg1 c u v :
  sweep_inv reg prev y -> grown reg c reg1 -> y <= u -> u < v -> level u v c -> spaced c ->
  exists reg2 prev2, coalesce_new reg1 prev (numRects reg) = Ret (reg2, prev2) /\
    sweep_inv reg2 prev2 v /\ same_header reg reg2 /\
    (forall x z, covers (rects reg2) x z = covers (rects reg) x z || (u <=? z) && (z <? v) && in_row c x).
Proof.
  intros Hi Hg Hyu Huv Lc Sc. unfold coalesce_new. destruct Hg as (G & Gr & Gt & Ge) eqn:Eg. clear Eg.
  replace (numRects reg1) with (numRects reg + zlen c) by (unfold numRects; rewrite G, zlen_app; done).
  destruct c as [|c0 c'] eqn:Ec.
  { rewrite zlen_nil, Z.add_0_r, Z.eqb_refl. exists reg1, prev. splits; [done| |done|].
    - destruct Hi as [H1 H2 H3 H4 H5]. rewrite app_nil_r in G. split; rewrite ?G; try done. eapply above_mono; [exact H4|lia].
    - intros x z. rewrite G, app_nil_r. simpl. by rewrite andb_false_r, orb_false_r. }
  rewrite <- Ec in *. replace (numRects reg + zlen c =? numRects reg) with false
    by (rewrite Ec, zlen_cons; pose proof (zlen_nonneg c'); lia).
  destruct (Coalesce_ok reg prev y reg1 c [] u v) as (reg2 & p2 & E & R2 & H2 & B2 & C2 & X2 & L2);
    rewrite ?app_nil_r; try done.
  - by rewrite Ec.
  - constructor.
  - by eapply level_banded.
  - by eapply crisp_level.
  - eapply below_mono; [by eapply level_below|done].
  - rewrite app_nil_r in X2. destruct (L2 eq_refl) as [A2 P2].
    exists reg2, p2. splits; [done|by split|done|]. intros x z. rewrite X2. by rewrite (covers_level u v c).
Qed.

(** ** The sweep *)

(** what the sweep expects of the functions for bands *)
Definition copies_rows (f : WINEREGION -> list RECT -> Z -> Z -> outcome WINEREGION) : Prop :=
  forall reg r t b, room reg -> exists reg', f reg r t b = Ret reg' /\ grown reg (map (at_level t b) r) reg'.
Class BandFuncs (op : bool -> bool -> bool)
    (f : WINEREGION -> list RECT -> list RECT -> Z -> Z -> outcome WINEREGION)
    (f1 f2 : option (WINEREGION -> list RECT -> Z -> Z -> outcome WINEREGION)) : Prop := {
  bf_none : op false false = false;
  bf_overlap : forall reg r1 r2 t b, room reg -> t < b -> above t (rects reg) -> spaced r1 -> spaced r2 -> r1 <> [] ->
    adds_band reg (f reg r1 r2 t b) t b (fun x => op (in_row r1 x) (in_row r2 x));
  bf_first : match f1 with Some f1 => copies_rows f1 /\ (forall v, op v false = v) | None => forall v, op v false = false end;
  bf_second : match f2 with Some f2 => copies_rows f2 /\ (forall v, op false v = v) | None => forall v, op false v = false end }.

(** the part of a source that was not swept: in canonical form, and its rectangles end after [y] *)
Definition pending (y : Z) (r : list RECT) : Prop :=
  banded r /\ crisp r /\ Forall (fun a => y < bottom a) r.

Lemma pending_tail y a l b r : pending y (a :: l) -> first_band (a :: l) = (b, r) -> y <= bottom a -> pending (bottom a) r.
Proof.
  intros (B & C & _) E Hy. destruct (first_band_spec _ _ _ _ B E) as (El & _ & Lb & _ & Br & Hb).
  unfold pending. splits; [done| |].
  - apply (crisp_tail (bottom a) b); [done|by eapply level_above|done|by rewrite <- El].
  - apply list.Forall_forall. intros c Hc. pose proof (below_elem _ _ _ Hb Hc).
    destruct (banded_full _ _ Br Hc). simpl. lia.
Qed.

Section Sweep.
Context (op : bool -> bool -> bool)
  (f : WINEREGION -> list RECT -> list RECT -> Z -> Z -> outcome WINEREGION)
  (f1 f2 : option (WINEREGION -> list RECT -> Z -> Z -> outcome WINEREGION)).
Context {BF : BandFuncs op f f1 f2}.

(** what the result will cover when the sweep has reached the line [y] *)
Definition goal (reg : WINEREGION) (r1 r2 : list RECT) (y : Z) (x z : Z) : bool :=
  if z <? y then covers (rects reg) x z else op (covers r1 x z) (covers r2 x z).

(** a band of one source between two lines *)
Lemma non_overlap_ok fo (pr : bool -> bool) reg prev y r t b :
  match fo with Some f => copies_rows f /\ (forall v, pr v = v) | None => forall v, pr v = false end ->
  sweep_inv reg prev y -> y <= t -> t <= b -> spaced r ->
  exists reg1 reg2 prev2, non_overlap fo reg r t b = Ret reg1 /\
    coalesce_new reg1 prev (numRects reg) = Ret (reg2, prev2) /\ sweep_inv reg2 prev2 b /\ same_header reg reg2 /\
    (forall x z, covers (rects reg2) x z = covers (rects reg) x z || (t <=? z) && (z <? b) && pr (in_row r x)).
Proof.
  intros Hf Hi Hyt Htb Hs.
  assert (Hsame : forall g : Z -> bool, (forall x z, (t <=? z) && (z <? b) && g x = false) ->
    coalesce_new reg prev (numRects reg) = Ret (reg, prev) /\ sweep_inv reg prev b /\ same_header reg reg /\
    (forall x z, covers (rects reg) x z = covers (rects reg) x z || (t <=? z) && (z <? b) && g x)).
  { intros g Hg. unfold coalesce_new, same_header. rewrite Z.eqb_refl. splits; try done; [eapply sweep_inv_mono; [done|lia]|].
    intros x z. by rewrite Hg, orb_false_r. }
  destruct fo as [fo|]; simpl; cycle 1.
  { exists reg, reg, prev. split; [done|]. apply (Hsame (fun x => pr (in_row r x))). intros x z. rewrite Hf. by rewrite andb_false_r. }
  destruct (Z.eqb_spec t b) as [->|Hne]; simpl.
  { exists reg, reg, prev. split; [done|]. apply (Hsame (fun x => pr (in_row r x))). intros x z. lia. }
  destruct Hf as [Hf Hpr]. destruct (Hf reg r t b (si_room _ _ _ Hi)) as (reg1 & E & G).
  destruct (add_band_ok reg prev y reg1 _ t b Hi G Hyt ltac:(lia) (at_level_level _ _ _) (at_level_spaced _ _ _ Hs))
    as (reg2 & p2 & E2 & I2 & H2 & X2).
  exists reg1, reg2, p2. splits; try done. intros x z. rewrite X2, at_level_row, Hpr. done.
Qed.
(** the rows of a source down to the bottom of its first band *)
Lemma covers_head a l b r x z : banded (a :: l) -> first_band (a :: l) = (b, r) -> z < bottom a ->
  covers (a :: l) x z = (top a <=? z) && in_row b x.
Proof.
  intros B E Hz. rewrite (covers_first_band _ _ _ _ _ _ B E).
  destruct (first_band_spec _ _ _ _ B E) as (_ & _ & _ & _ & _ & Hb).
  rewrite (covers_below r _ _ (bottom a)) by (done || lia). destruct (in_row b x); lia.
Qed.

#[local] Arguments covers : simpl never.

(** the sweep goes on to the line [y'] when the new rows are those of the operation *)
Lemma goal_advance reg reg2 y y' r1 r2 (row : Z -> Z -> bool) :
  y <= y' -> above y (rects reg) ->
  (forall x z, covers (rects reg2) x z = covers (rects reg) x z || row x z) ->
  (forall x z, ~ (y <= z < y') -> row x z = false) ->
  (forall x z, y <= z < y' -> row x z = op (covers r1 x z) (covers r2 x z)) ->
  forall x z, goal reg2 r1 r2 y' x z = goal reg r1 r2 y x z.
Proof.
  intros Hy Ha X N R x z. unfold goal. rewrite X.
  destruct (Z.ltb_spec z y'), (Z.ltb_spec z y); try lia; try done.
  - by rewrite N, orb_false_r by lia.
  - by rewrite R, (covers_above_le _ _ _ y) by (done || lia).
Qed.

Section Round.
Context (reg : WINEREGION) (prev ybot : Z) (a1 a2 : RECT) (l1 l2 b1 b2 s1 s2 : list RECT).
Context (Hi : sweep_inv reg prev ybot).
Context (P1 : pending ybot (a1 :: l1)) (P2 : pending ybot (a2 :: l2)).
Context (Hy : below ybot (a1 :: l1) \/ below ybot (a2 :: l2)).
Context (E1 : first_band (a1 :: l1) = (b1, s1)) (E2 : first_band (a2 :: l2) = (b2, s2)).

Local Lemma round_bounds : top a1 < bottom a1 /\ top a2 < bottom a2 /\ ybot < bottom a1 /\ ybot < bottom a2 /\
  (ybot <= top a1 \/ ybot <= top a2) /\ spaced b1 /\ spaced b2 /\ b1 <> [].
Proof.
  destruct P1 as (B1 & _ & F1), P2 as (B2 & _ & F2).
  apply list.Forall_cons in F1 as [? _]. apply list.Forall_cons in F2 as [? _].
  pose proof (first_band_spec _ _ _ _ B1 E1) as (_ & ? & _ & ? & _).
  pose proof (first_band_spec _ _ _ _ B2 E2) as (_ & _ & _ & ? & _).
  destruct B1 as ([_ ?] & _), B2 as ([_ ?] & _). splits; try done.
  destruct Hy as [H'|H']; apply list.Forall_cons in H' as [? _]; auto.
Qed.
Local Lemma head_rows x z : z < Z.min (bottom a1) (bottom a2) ->
  covers (a1 :: l1) x z = (top a1 <=? z) && in_row b1 x /\ covers (a2 :: l2) x z = (top a2 <=? z) && in_row b2 x.
Proof.
  intros Hz. destruct P1 as (B1 & _), P2 as (B2 & _).
  rewrite (covers_head a1 l1 b1 s1), (covers_head a2 l2 b2 s2) by (done || lia). done.
Qed.

(** the part before both sources have begun *)
Definition ytop : Z := Z.max (top a1) (top a2).
Definition ymid : Z := Z.min ytop (Z.min (bottom a1) (bottom a2)).
Lemma first_part_ok :
  exists reg1 reg2 prev2,
    (if top a1 <? top a2 then
       let! reg := non_overlap f1 reg b1 (Z.max (top a1) ybot) (Z.min (bottom a1) (top a2)) in Ret (reg, top a2)
     else if top a2 <? top a1 then
       let! reg := non_overlap f2 reg b2 (Z.max (top a2) ybot) (Z.min (bottom a2) (top a1)) in Ret (reg, top a1)
     else Ret (reg, top a1)) = Ret (reg1, ytop) /\
    coalesce_new reg1 prev (numRects reg) = Ret (reg2, prev2) /\ sweep_inv reg2 prev2 ymid /\ same_header reg reg2 /\
    (forall x z, goal reg2 (a1 :: l1) (a2 :: l2) ymid x z = goal reg (a1 :: l1) (a2 :: l2) ybot x z).
Proof.
  destruct round_bounds as (T1 & T2 & T3 & T4 & T5 & S1 & S2 & _). unfold ymid, ytop.
  pose proof (si_above _ _ _ Hi) as Ha.
  destruct (Z.ltb_spec (top a1) (top a2)); [|destruct (Z.ltb_spec (top a2) (top a1))].
  - destruct (non_overlap_ok f1 (fun v => op v false) reg prev ybot b1 (Z.max (top a1) ybot) (Z.min (bottom a1) (top a2))
      bf_first Hi ltac:(lia) ltac:(lia) S1) as (reg1 & reg2 & p2 & -> & E & I & Hd & X). simpl.
    replace (Z.min _ (Z.min _ _)) with (Z.min (bottom a1) (top a2)) by lia.
    exists reg1, reg2, p2. splits; [do 2 f_equal; lia|done|done|done|].
    eapply goal_advance; [|exact Ha|exact X|cbv beta; lia|]; [lia|]. intros x z Hz.
    destruct (head_rows x z ltac:(lia)) as [-> ->]. replace (top a2 <=? z) with false by lia. simpl.
    destruct (Z.leb_spec (top a1) z); simpl; rewrite ?bf_none; destruct (op (in_row b1 x) false); lia.
  - destruct (non_overlap_ok f2 (fun v => op false v) reg prev ybot b2 (Z.max (top a2) ybot) (Z.min (bottom a2) (top a1))
      bf_second Hi ltac:(lia) ltac:(lia) S2) as (reg1 & reg2 & p2 & -> & E & I & Hd & X). simpl.
    replace (Z.min _ (Z.min _ _)) with (Z.min (bottom a2) (top a1)) by lia.
    exists reg1, reg2, p2. splits; [do 2 f_equal; lia|done|done|done|].
    eapply goal_advance; [|exact Ha|exact X|cbv beta; lia|]; [lia|]. intros x z Hz.
    destruct (head_rows x z ltac:(lia)) as [-> ->]. replace (top a1 <=? z) with false by lia. simpl.
    destruct (Z.leb_spec (top a2) z); simpl; rewrite ?bf_none; destruct (op false (in_row b2 x)); lia.
  - exists reg, reg, prev. unfold coalesce_new, same_header. rewrite Z.eqb_refl. splits; try done.
    + do 2 f_equal. lia.
    + eapply sweep_inv_mono; [done|lia].
    + apply (goal_advance _ _ _ _ _ _ (fun _ _ => false)); [lia|done|by intros; rewrite orb_false_r|done|].
      intros x z Hz. destruct (head_rows x z ltac:(lia)) as [-> ->].
      replace (top a1 <=? z) with false by lia. replace (top a2 <=? z) with false by lia. by rewrite bf_none.
Qed.

(** the part that both bands share *)
Lemma second_part_ok reg1 prev1 :
  sweep_inv reg1 prev1 ymid ->
  exists reg2 reg3 prev3,
    (if ytop <? Z.min (bottom a1) (bottom a2) then f reg1 b1 b2 ytop (Z.min (bottom a1) (bottom a2)) else Ret reg1) = Ret reg2 /\
    coalesce_new reg2 prev1 (numRects reg1) = Ret (reg3, prev3) /\
    sweep_inv reg3 prev3 (Z.min (bottom a1) (bottom a2)) /\ same_header reg1 reg3 /\
    (forall x z, goal reg3 (a1 :: l1) (a2 :: l2) (Z.min (bottom a1) (bottom a2)) x z =
                 goal reg1 (a1 :: l1) (a2 :: l2) ymid x z).
Proof.
  intros I1. destruct round_bounds as (T1 & T2 & T3 & T4 & T5 & S1 & S2 & Hne).
  pose proof (si_above _ _ _ I1) as Ha. unfold ymid in *.
  remember (Z.min (bottom a1) (bottom a2)) as ybot' eqn:Em.
  destruct (Z.ltb_spec ytop ybot'); cycle 1.
  - rewrite (Z.min_r ytop) in * by lia. exists reg1, reg1, prev1.
    unfold coalesce_new, same_header. rewrite Z.eqb_refl. by splits.
  - rewrite (Z.min_l ytop) in * by lia.
    destruct (bf_overlap reg1 b1 b2 ytop ybot' (si_room _ _ _ I1) H Ha S1 S2 Hne)
      as (reg2 & out & -> & G & Lo & So & Xo).
    destruct (add_band_ok reg1 prev1 ytop reg2 out ytop _ I1 G ltac:(lia) H Lo So) as (reg3 & p3 & E & I3 & H3 & X3).
    exists reg2, reg3, p3. splits; try done. eapply goal_advance; [|exact Ha|exact X3|cbv beta; lia|]; [lia|].
    intros x z Hz. cbv beta. rewrite Xo. destruct (head_rows x z ltac:(lia)) as [-> ->]. unfold ytop in *.
    by rewrite !(proj2 (Z.leb_le _ _)), (proj2 (Z.ltb_lt _ _)) by lia.
Qed.

End Round.

(** a band that ends at [y'] is left behind *)
Lemma drop_band_ok a l b s y y' : pending y (a :: l) -> first_band (a :: l) = (b, s) -> y <= bottom a -> y' <= bottom a ->
  let r := if bottom a =? y' then s else a :: l in
  pending y' r /\ (forall x z, y' <= z -> covers r x z = covers (a :: l) x z) /\
  (length r <= length (a :: l))%nat /\ (bottom a = y' -> below y' r /\ (length r < length (a :: l))%nat).
Proof.
  intros P E Hy Hy' r. subst r. pose proof P as (B & C & F).
  destruct (first_band_spec _ _ _ _ B E) as (El & Hne & Lb & _ & Bs & Hb).
  destruct (Z.eqb_spec (bottom a) y') as [<-|Hlt].
  - splits.
    + by eapply pending_tail.
    + intros x z Hz. rewrite (covers_tail _ _ _ _ _ _ B E). by rewrite (proj2 (Z.leb_le _ _)), andb_true_r.
    + rewrite El, length_app. lia.
    + intros _. split; [done|]. rewrite El, length_app. destruct b; [done|]. simpl. lia.
  - splits; try done. unfold pending. splits; [done|done|]. constructor; [lia|].
    apply list.Forall_forall. intros c Hc. destruct B as ([_ ?] & Hfo & Hl).
    destruct (banded_full _ _ Hl Hc) as [_ ?]. pose proof (proj1 (list.Forall_forall _ _) Hfo c Hc).
    unfold follows in *. lia.
Qed.

Lemma same_header_trans a b c : same_header a b -> same_header b c -> same_header a c.
Proof. unfold same_header. intros [-> ->] [-> ->]. done. Qed.

(** the rounds: they end with one source used up *)
Lemma op_loop_ok fuel : forall reg prev r1 r2 ybot,
  sweep_inv reg prev ybot -> pending ybot r1 -> pending ybot r2 -> below ybot r1 \/ below ybot r2 ->
  r1 <> [] -> r2 <> [] -> (length r1 + length r2 <= fuel)%nat ->
  exists reg' prev' r1' r2' ybot',
    op_loop f f1 f2 fuel reg prev r1 r2 ybot = Ret (reg', prev', r1', r2', ybot') /\
    sweep_inv reg' prev' ybot' /\ pending ybot' r1' /\ pending ybot' r2' /\ (r1' = [] \/ r2' = []) /\
    same_header reg reg' /\ (forall x z, goal reg' r1' r2' ybot' x z = goal reg r1 r2 ybot x z).
Proof.
  induction fuel as [|fuel IH]; intros reg prev r1 r2 ybot Hi P1 P2 Hy N1 N2 Hf.
  { destruct r1; [done|]. simpl in Hf. lia. }
  destruct r1 as [|a1 l1], r2 as [|a2 l2]; try done. clear N1 N2. cbn [op_loop].
  destruct (first_band (a1 :: l1)) as [b1 s1] eqn:E1, (first_band (a2 :: l2)) as [b2 s2] eqn:E2.
  destruct (first_part_ok reg prev ybot a1 a2 l1 l2 b1 b2 s1 s2 Hi P1 P2 Hy E1 E2)
    as (rg1 & rg2 & p2 & F1 & F2 & I2 & D2 & X2).
  rewrite F1. cbn [obind]. rewrite F2. cbn [obind].
  destruct (second_part_ok ybot a1 a2 l1 l2 b1 b2 s1 s2 P1 P2 Hy E1 E2 rg2 p2 I2)
    as (rg3 & rg4 & p4 & F3 & F4 & I4 & D4 & X4).
  rewrite F3. cbn [obind]. rewrite F4. cbn [obind].
  destruct (round_bounds ybot a1 a2 l1 l2 b1 b2 s1 s2 P1 P2 Hy E1 E2) as (_ & _ & T3 & T4 & _).
  remember (Z.min (bottom a1) (bottom a2)) as y' eqn:Ey.
  destruct (drop_band_ok a1 l1 b1 s1 ybot y' P1 E1 ltac:(lia) ltac:(lia)) as (Q1 & C1 & K1 & B1).
  destruct (drop_band_ok a2 l2 b2 s2 ybot y' P2 E2 ltac:(lia) ltac:(lia)) as (Q2 & C2 & K2 & B2).
  remember (if bottom a1 =? y' then s1 else a1 :: l1) as r1 eqn:Er1.
  remember (if bottom a2 =? y' then s2 else a2 :: l2) as r2 eqn:Er2.
  assert (X : forall x z, goal rg4 r1 r2 y' x z = goal reg (a1 :: l1) (a2 :: l2) ybot x z).
  { intros x z. rewrite <- X2, <- X4. unfold goal. destruct (Z.ltb_spec z y'); [done|]. by rewrite C1, C2. }
  assert (Hd : bottom a1 = y' \/ bottom a2 = y') by lia.
  pose proof (same_header_trans _ _ _ D2 D4) as D. clear Er1 Er2.
  destruct r1 as [|c1 k1]; [eexists _, _, _, _, _; splits; [reflexivity|done..|by left|done|done]|].
  destruct r2 as [|c2 k2]; [eexists _, _, _, _, _; splits; [reflexivity|done..|by right|done|done]|].
  destruct (IH rg4 p4 (c1 :: k1) (c2 :: k2) y' I4 Q1 Q2) as (reg' & p' & r1' & r2' & yb & -> & I' & Q1' & Q2' & HE & HD & HX);
    [tauto|done|done|destruct Hd as [Hd|Hd]; [destruct (B1 Hd)|destruct (B2 Hd)]; simpl in *; lia|].
  eexists _, _, _, _, _. splits; [reflexivity|done..|by eapply same_header_trans|].
  intros x z. by rewrite HX.
Qed.
(** the bands that are left, from the line [y] on *)
Definition clip (y : Z) (a : RECT) : RECT := mkRect (left a) (Z.max (top a) y) (right a) (bottom a).

Lemma clip_level y t b l : level t b l -> map (at_level (Z.max t y) b) l = map (clip y) l.
Proof.
  intros H. induction H as [|a l [Ht Hb] _ IH]; [done|]. simpl. rewrite IH. unfold at_level at 1, clip at 2. by rewrite Ht, Hb.
Qed.
Lemma rest_loop_ok g (Hg : copies_rows g) y fuel : forall reg r,
  room reg -> banded r -> (length r <= fuel)%nat ->
  exists reg', rest_loop fuel g reg r y = Ret reg' /\ grown reg (map (clip y) r) reg'.
Proof.
  induction fuel as [|fuel IH]; intros reg r Hr B Hf.
  { destruct r; [|simpl in Hf; lia]. exists reg. split; [done|by apply grown_nil]. }
  destruct r as [|a l]; [exists reg; split; [done|by apply grown_nil]|].
  cbn [rest_loop]. destruct (first_band (a :: l)) as [b s] eqn:E.
  destruct (first_band_spec _ _ _ _ B E) as (El & Hne & Lb & _ & Bs & _).
  destruct (Hg reg b (Z.max (top a) y) (bottom a) Hr) as (reg1 & -> & G1). cbn [obind].
  destruct (IH reg1 s) as (reg2 & -> & G2); [by eapply grown_room|done| |].
  { apply (f_equal length) in El. rewrite length_app in El. destruct b; [done|]. simpl in *. lia. }
  exists reg2. split; [done|]. rewrite El, map_app, <- (clip_level y _ _ _ Lb). by eapply grown_app.
Qed.
Lemma clip_covers y l x z : covers (map (clip y) l) x z = (y <=? z) && covers l x z.
Proof.
  induction l as [|a l IH]; [by rewrite andb_false_r|]. unfold covers in *. simpl. rewrite IH. unfold INRECT. simpl.
  destruct (existsb _ l); lia.
Qed.
Lemma clip_pending y r : pending y r -> banded (map (clip y) r) /\ crisp (map (clip y) r) /\ below y (map (clip y) r).
Proof.
  intros (B & C & F). splits.
  - clear C. induction r as [|a r IH]; [done|]. apply list.Forall_cons in F as [Ha F]. destruct B as ([? ?] & Hfo & B).
    simpl. splits; [unfold full; simpl; lia| |by apply IH]. apply Forall_map. eapply list.Forall_impl; [exact Hfo|].
    intros c. unfold follows. simpl. lia.
  - intros c Hc E. apply list_elem_of_fmap in Hc as (a & -> & Ha). apply (C a Ha). intros x. specialize (E x).
    rewrite !clip_covers in E. pose proof (proj1 (list.Forall_forall _ _) F a Ha) as Hb. simpl in Hb, E.
    by rewrite !(proj2 (Z.leb_le _ _)) in E by lia.
  - apply Forall_map, list.Forall_true. intros a. simpl. lia.
Qed.

(** the end of the sweep, when the last source goes to the result *)
Lemma finish_ok g (Hg : copies_rows g) reg prev y r :
  sweep_inv reg prev y -> pending y r -> r <> [] ->
  exists reg1 reg2 prev2, rest_loop (length r) g reg r y = Ret reg1 /\
    coalesce_new reg1 prev (numRects reg) = Ret (reg2, prev2) /\ room reg2 /\ same_header reg reg2 /\
    banded (rects reg2) /\ crisp (rects reg2) /\
    (forall x z, covers (rects reg2) x z = if z <? y then covers (rects reg) x z else covers r x z).
Proof.
  intros Hi P Hne. destruct (rest_loop_ok g Hg y (length r) reg r (si_room _ _ _ Hi) (proj1 P) (le_n _)) as (reg1 & E & G).
  destruct (clip_pending _ _ P) as (B & C & Hb).
  destruct (map (clip y) r) as [|a l] eqn:En; [by destruct r|].
  destruct (first_band (a :: l)) as [c s] eqn:Ef. destruct (first_band_spec _ _ _ _ B Ef) as (El & Hc & Lc & _ & _ & Hs).
  pose proof (proj1 B) as [_ Hlt]. rewrite El in *.
  destruct (Coalesce_ok reg prev y reg1 c s _ _ Hi G Hc Hlt Lc Hs B C Hb) as (reg2 & p2 & E2 & R2 & D2 & B2 & C2 & X2 & _).
  exists reg1, reg2, p2. splits; try done.
  - unfold coalesce_new. replace (numRects reg1 =? numRects reg) with false; [done|].
    destruct G as [G _]. unfold numRects. rewrite G, zlen_app. destruct c; [done|]. simpl app. rewrite zlen_cons.
    pose proof (zlen_nonneg (c ++ s)). lia.
  - intros x z. rewrite X2, <- En, clip_covers. destruct (Z.ltb_spec z y).
    + by rewrite (proj2 (Z.leb_gt _ _)), orb_false_r.
    + rewrite (proj2 (Z.leb_le _ _)) by done. rewrite (covers_above_le _ _ _ y); [done|apply (si_above _ _ _ Hi)|done].
Qed.

Lemma op_rest_ok reg prev y r1 r2 :
  sweep_inv reg prev y -> pending y r1 -> pending y r2 -> r1 = [] \/ r2 = [] ->
  exists reg1 reg2 prev2, op_rest f1 f2 reg r1 r2 y = Ret reg1 /\
    coalesce_new reg1 prev (numRects reg) = Ret (reg2, prev2) /\ room reg2 /\ same_header reg reg2 /\
    banded (rects reg2) /\ crisp (rects reg2) /\
    (forall x z, covers (rects reg2) x z = goal reg r1 r2 y x z).
Proof.
  intros Hi P1 P2 He. pose proof Hi as [Hr Hb Hc Ha _].
  assert (Hsame : (forall x z, y <= z -> op (covers r1 x z) (covers r2 x z) = false) ->
    exists reg2 prev2, coalesce_new reg prev (numRects reg) = Ret (reg2, prev2) /\ room reg2 /\ same_header reg reg2 /\
    banded (rects reg2) /\ crisp (rects reg2) /\ (forall x z, covers (rects reg2) x z = goal reg r1 r2 y x z)).
  { intros Hop. exists reg, prev. unfold coalesce_new, same_header. rewrite Z.eqb_refl. splits; try done.
    intros x z. unfold goal. destruct (Z.ltb_spec z y); [done|]. by rewrite Hop, (covers_above_le _ _ _ y). }
  pose proof bf_first as H1. pose proof bf_second as H2. unfold op_rest.
  destruct r1 as [|a1 l1].
  - destruct r2 as [|a2 l2]; [exists reg|].
    { destruct (Hsame (fun _ _ _ => bf_none)) as (? & ? & ?). by destruct f1; eexists _, _. }
    destruct f2 as [g|].
    + destruct H2 as [H2 H2']. destruct (finish_ok g H2 reg prev y (a2 :: l2) Hi P2) as (reg1 & reg2 & p2 & E & F & R & D & B & C & X); [done|].
      exists reg1, reg2, p2. splits; try done. intros x z. rewrite X. unfold goal. by rewrite H2'.
    + exists reg. destruct (Hsame (fun x z _ => H2 _)) as (? & ? & ?). by destruct f1; eexists _, _.
  - destruct He as [He| ->]; [done|]. destruct f1 as [g|].
    + destruct H1 as [H1 H1']. destruct (finish_ok g H1 reg prev y (a1 :: l1) Hi P1) as (reg1 & reg2 & p2 & E & F & R & D & B & C & X); [done|].
      exists reg1, reg2, p2. splits; try done. intros x z. rewrite X. unfold goal. by rewrite H1'.
    + exists reg. destruct (Hsame (fun x z _ => H1 _)) as (? & ? & ?). by eexists _, _.
Qed.

(** the sweep as a whole *)
Lemma sweep_ok reg r1 r2 y :
  room reg -> rects reg = [] -> r1 <> [] -> r2 <> [] -> banded r1 -> crisp r1 -> banded r2 -> crisp r2 ->
  below y r1 -> below y r2 ->
  exists reg', sweep f f1 f2 reg r1 r2 y = Ret reg' /\ 1 <= size reg' /\ numRects reg' <= size reg' /\
    same_header reg reg' /\ banded (rects reg') /\ crisp (rects reg') /\
    (forall x z, covers (rects reg') x z = op (covers r1 x z) (covers r2 x z)).
Proof.
  intros Hr E N1 N2 B1 C1 B2 C2 Y1 Y2.
  assert (Hi : sweep_inv reg 0 y).
  { split; rewrite ?E; try done; [by intros a ?%elem_of_nil|constructor|]. exists [], []. splits; try done. by left. }
  assert (Hp : forall r, banded r -> crisp r -> below y r -> pending y r).
  { intros r B C Y. unfold pending. splits; try done. apply list.Forall_forall. intros a Ha.
    pose proof (below_elem _ _ _ Y Ha). destruct (banded_full _ _ B Ha). simpl. lia. }
  unfold sweep. destruct (op_loop_ok (length r1 + length r2) reg 0 r1 r2 y) as
    (rg1 & p1 & k1 & k2 & y1 & -> & I1 & P1 & P2 & He & D1 & X1); auto. cbn [obind].
  destruct (op_rest_ok rg1 p1 y1 k1 k2 I1 P1 P2 He) as (rg2 & rg3 & p3 & -> & F & [R3 R4] & D3 & B3 & C3 & X3).
  cbn [obind]. rewrite F. cbn [obind]. pose proof (same_header_trans _ _ _ D1 D3) as D.
  assert (X : forall x z, covers (rects rg3) x z = op (covers r1 x z) (covers r2 x z)).
  { intros x z. rewrite X3, X1. unfold goal. destruct (Z.ltb_spec z y); [|done]. rewrite E.
    rewrite (covers_below r1 _ _ y), (covers_below r2 _ _ y) by done. by rewrite bf_none. }
  eexists. split; [reflexivity|]. pose proof (zlen_nonneg (rects rg3)).
  destruct (_ && (2 <? numRects rg3)) eqn:Es; unfold same_header in *; destruct D; simpl; unfold numRects in *; simpl; splits; try done; lia.
Qed.
End Sweep.

End RegionSweep.
