(* ===== verification/RegionOps.v ===== *)
(** * Regions as sets of points: intersection, union, difference

    The well-formed regions of dlls/gdi/region.c, and the effect of
    REGION_IntersectRegion, REGION_UnionRegion, REGION_SubtractRegion and
    REGION_XorRegion on the store, the destination being one of the sources or
    not. *)
From stdpp Require Import gmap.
From S2P Require Import Prelude Rect Region RegionBand RegionMerge RegionSweep.
Import Rect Region RegionBand RegionMerge RegionSweep.

Module RegionOps.

#[local] Arguments covers : simpl never.

(** ** Well-formed regions *)

(** [e] is the least rectangle around the points of [l] *)
Definition tight (e : RECT) (l : list RECT) : Prop :=
  (l = [] /\ e = no_rect) \/
  (l <> [] /\ (forall x y, covers l x y = true -> INRECT e x y = true) /\
   (exists y, covers l (left e) y = true) /\ (exists y, covers l (right e - 1) y = true) /\
   (exists x, covers l x (top e) = true) /\ (exists x, covers l x (bottom e - 1) = true)).

Record wf (r : WINEREGION) : Prop := {
  wf_banded : banded (rects r);
  wf_crisp : crisp (rects r);
  wf_tight : tight (extents r) (rects r);
  wf_type : rtype r = region_type r;
  wf_size : 1 <= size r;
  wf_room : numRects r <= size r }.

Lemma numRects_0 r : numRects r = 0 <-> rects r = [].
Proof.
  unfold numRects, zlen. destruct (rects r); simpl; [done|]. split; [lia|done].
Qed.
Lemma tight_ne e l : l <> [] -> tight e l -> 
  (forall x y, covers l x y = true -> INRECT e x y = true) /\
   (exists y, covers l (left e) y = true) /\ (exists y, covers l (right e - 1) y = true) /\
   (exists x, covers l x (top e) = true) /\ (exists x, covers l x (bottom e - 1) = true).
Proof. by intros H [[? _]|[_ ?]]. Qed.

Lemma tight_unique e e' l l' : l <> [] -> l' <> [] -> (forall x y, covers l x y = covers l' x y) ->
  tight e l -> tight e' l' -> e = e'.
Proof.
  intros N N' H T T'. apply tight_ne in T as (I & (y1 & A1) & (y2 & A2) & (x3 & A3) & (x4 & A4)); [|done].
  apply tight_ne in T' as (I' & (y1' & A1') & (y2' & A2') & (x3' & A3') & (x4' & A4')); [|done].
  rewrite H in A1, A2, A3, A4. rewrite <- H in A1', A2', A3', A4'.
  apply I', INRECT_iff in A1, A2, A3, A4. apply I, INRECT_iff in A1', A2', A3', A4'.
  destruct e, e'; simpl in *. f_equal; lia.
Qed.

Lemma fold_min_spec (l : list RECT) m : let v := fold_left (fun m c => if left c <? m then left c else m) l m in
  v <= m /\ (forall c, c ∈ l -> v <= left c) /\ (v = m \/ exists c, c ∈ l /\ v = left c).
Proof.
  revert m. induction l as [|a l IH]; intros m; simpl; [splits; [lia|by intros c ?%elem_of_nil|by left]|].
  destruct (IH (if left a <? m then left a else m)) as (H1 & H2 & H3). splits.
  - destruct (Z.ltb_spec (left a) m); lia.
  - intros c [->|Hc]%elem_of_cons; [destruct (Z.ltb_spec (left a) m); lia|by apply H2].
  - destruct H3 as [H3|(c & Hc & H3)]; [|right; exists c; split; [by right|done]].
    rewrite H3. destruct (Z.ltb_spec (left a) m); [right; exists a; split; [by left|done]|by left].
Qed.
Lemma fold_max_spec (l : list RECT) m : let v := fold_left (fun m c => if m <? right c then right c else m) l m in
  m <= v /\ (forall c, c ∈ l -> right c <= v) /\ (v = m \/ exists c, c ∈ l /\ v = right c).
Proof.
  revert m. induction l as [|a l IH]; intros m; simpl; [splits; [lia|by intros c ?%elem_of_nil|by left]|].
  destruct (IH (if m <? right a then right a else m)) as (H1 & H2 & H3). splits.
  - destruct (Z.ltb_spec m (right a)); lia.
  - intros c [->|Hc]%elem_of_cons; [destruct (Z.ltb_spec m (right a)); lia|by apply H2].
  - destruct H3 as [H3|(c & Hc & H3)]; [|right; exists c; split; [by right|done]].
    rewrite H3. destruct (Z.ltb_spec m (right a)); [right; exists a; split; [by left|done]|by left].
Qed.

(** the first rectangle is the highest and the last one the lowest *)
Lemma banded_first a l c : banded (a :: l) -> c ∈ a :: l -> top a <= top c.
Proof.
  intros (Hf & Hfo & _) [->|Hc]%elem_of_cons; [lia|].
  pose proof (proj1 (list.Forall_forall _ _) Hfo c Hc). unfold follows, full in *. lia.
Qed.
Lemma banded_last l z c : banded (l ++ [z]) -> c ∈ l ++ [z] -> bottom c <= bottom z.
Proof.
  intros (Hl & [Hz _] & Hx)%banded_app [Hc| ->%list_elem_of_singleton]%elem_of_app; [|lia].
  specialize (Hx c z Hc ltac:(by left)). unfold follows, full in *. lia.
Qed.
Lemma covers_at l a x y : a ∈ l -> left a <= x < right a -> top a <= y < bottom a -> covers l x y = true.
Proof. intros H H1 H2. apply covers_true. exists a. split; [done|]. by apply INRECT_iff. Qed.

Lemma REGION_SetExtents_ok r : banded (rects r) -> tight (extents (REGION_SetExtents r)) (rects r).
Proof.
  intros B. unfold REGION_SetExtents. destruct (rects r) as [|a l] eqn:E; [by left|].
  destruct (exists_last (l := a :: l) ltac:(done)) as (k & z & Ez). rewrite Ez at 1. rewrite last_snoc. unfold set_extents. cbn [extents].
  assert (Ha : a ∈ a :: l) by by left.
  assert (Hz : z ∈ a :: l) by (rewrite Ez; apply elem_of_app; right; by left).
  destruct (banded_full _ _ B Ha) as [Ha1 Ha2]. destruct (banded_full _ _ B Hz) as [Hz1 Hz2].
  destruct (fold_min_spec (a :: l) (left a)) as (M1 & M2 & M3).
  destruct (fold_max_spec (a :: l) (right z)) as (X1 & X2 & X3).
  cbv zeta in *. set (lm := fold_left _ _ (left a)) in *. set (rm := fold_left _ _ (right z)) in *. clearbody lm rm.
  right. cbn [left right top bottom]. splits; [done| | | | |].
  - intros x y (c & Hc & Hin%INRECT_iff)%covers_true. apply INRECT_iff. cbn [left right top bottom].
    specialize (M2 c Hc). specialize (X2 c Hc). pose proof (banded_first _ _ _ B Hc).
    assert (bottom c <= bottom z) by (eapply (banded_last k); rewrite <- Ez; done). lia.
  - destruct M3 as [->|(c & Hc & ->)]; [exists (top a); apply (covers_at _ a); [done|lia|lia]|].
    destruct (banded_full _ _ B Hc). exists (top c). apply (covers_at _ c); [done|lia|lia].
  - destruct X3 as [->|(c & Hc & ->)]; [exists (top z); apply (covers_at _ z); [done|lia|lia]|].
    destruct (banded_full _ _ B Hc). exists (top c). apply (covers_at _ c); [done|lia|lia].
  - exists (left a). apply (covers_at _ a); [done|lia|lia].
  - exists (left z). apply (covers_at _ z); [done|lia|lia].
Qed.

(** ** The three operations on bands *)
#[export] Instance intersect_funcs : BandFuncs andb REGION_IntersectO None None.
Proof.
  split; [done| |by intros []|done]. intros reg r1 r2 t b Hr _ _ S1 S2 _. by apply IntersectO_ok.
Qed.
#[export] Instance union_funcs : BandFuncs orb REGION_UnionO (Some REGION_UnionNonO) (Some REGION_UnionNonO).
Proof.
  split; [done| | |].
  - intros reg r1 r2 t b Hr Htb Ha S1 S2 _. by apply UnionO_ok.
  - split; [|by intros []]. intros reg r t b Hr. by apply UnionNonO_ok.
  - split; [|done]. intros reg r t b Hr. by apply UnionNonO_ok.
Qed.
Definition diffb (a b : bool) : bool := a && negb b.
#[export] Instance subtract_funcs : BandFuncs diffb REGION_SubtractO (Some REGION_SubtractNonO1) None.
Proof.
  split; [done| | |done].
  - intros reg r1 r2 t b Hr Htb Ha S1 S2 Hne. unfold REGION_SubtractO.
    destruct r1 as [|a1 r1]; [done|]. by apply (SubtractO_ok _ reg (a1 :: r1) r2 (left a1)).
  - split; [|by intros []]. intros reg r t b Hr. rewrite SubtractNonO1_UnionNonO. by apply UnionNonO_ok.
Qed.

(** ** REGION_RegionOp *)
Section Op.
Context (op : bool -> bool -> bool) f f1 f2 {BF : BandFuncs op f f1 f2}.

Lemma wf_below r y : wf r -> rects r <> [] -> y <= top (extents r) -> below y (rects r).
Proof.
  intros W N Hy. apply list.Forall_forall. intros a Ha.
  destruct (tight_ne _ _ N (wf_tight _ W)) as (I & _). destruct (banded_full _ _ (wf_banded _ W) Ha) as [? ?].
  specialize (I (left a) (top a) ltac:(eapply covers_at; [done|lia|lia])). apply INRECT_iff in I. lia.
Qed.

(** a source after the destination was emptied *)
Lemma emptied_source (st : regions) newReg reg g n :
  st !! reg = Some g -> st !! newReg = Some n -> rects g <> [] ->
  exists e, <[newReg := set_rects n []]> st !! reg = Some e /\ extents e = extents g /\ 0 <= numRects e /\
    (newReg <> reg -> 1 <= numRects e).
Proof.
  intros E En N. destruct (decide (newReg = reg)) as [->|H].
  - rewrite lookup_insert_eq. eexists. splits; [done|simpl; congruence|done|done].
  - rewrite lookup_insert_ne by done. exists g. splits; [done|done|apply zlen_nonneg|]. intros _.
    pose proof (proj1 (numRects_0 g)). pose proof (zlen_nonneg (rects g)). unfold numRects in *.
    destruct (decide (zlen (rects g) = 0)); [tauto|lia].
Qed.

Lemma REGION_RegionOp_ok st newReg reg1 reg2 g1 g2 n :
  st !! reg1 = Some g1 -> st !! reg2 = Some g2 -> st !! newReg = Some n ->
  wf g1 -> wf g2 -> rects g1 <> [] -> rects g2 <> [] -> ~ (newReg = reg1 /\ newReg = reg2) ->
  exists n', REGION_RegionOp f f1 f2 st newReg reg1 reg2 = Ret (<[newReg := n']> st) /\
    1 <= size n' /\ numRects n' <= size n' /\ extents n' = extents n /\ banded (rects n') /\ crisp (rects n') /\
    (forall x z, covers (rects n') x z = op (covers (rects g1) x z) (covers (rects g2) x z)).
Proof.
  intros E1 E2 En W1 W2 N1 N2 Hd. unfold REGION_RegionOp, get. rewrite E1, E2, En. cbn [obind].
  destruct (emptied_source st newReg reg1 g1 n E1 En N1) as (e1 & -> & X1 & P1 & Q1).
  destruct (emptied_source st newReg reg2 g2 n E2 En N2) as (e2 & -> & X2 & P2 & Q2). cbn [obind].
  rewrite X1, X2.
  set (y := if top (extents g1) <? top (extents g2) then top (extents g1) else top (extents g2)).
  assert (Hy : y <= top (extents g1) /\ y <= top (extents g2)) by (subst y; case_match; lia).
  assert (Hsz : 1 <= Z.max (numRects e1) (numRects e2)).
  { destruct (decide (newReg = reg1)) as [->|]; [|lia]. destruct (decide (reg1 = reg2)); [tauto|lia]. }
  destruct (sweep_ok op f f1 f2 (set_size (set_rects n []) (Z.max (numRects e1) (numRects e2) * 2)) (rects g1) (rects g2) y)
    as (n' & -> & S1 & S2 & [_ Hx] & B & C & X); try done.
  - unfold room, numRects. simpl. rewrite zlen_nil. unfold numRects in Hsz. lia.
  - apply W1.
  - apply W1.
  - apply W2.
  - apply W2.
  - apply wf_below; [done|done|lia].
  - apply wf_below; [done|done|lia].
  - exists n'. cbn [obind]. splits; try done. by rewrite insert_insert_eq.
Qed.
End Op.

(** ** The operations on regions *)

(** [m] stores at [p] a well-formed region of the points [pt] *)
Definition makes (st : regions) (p : Z) (m : outcome regions) (pt : Z -> Z -> bool) : Prop :=
  exists d, m = Ret (<[p := d]> st) /\ wf d /\ forall x y, covers (rects d) x y = pt x y.

Lemma makes_ext st p m pt pt' : (forall x y, pt x y = pt' x y) -> makes st p m pt -> makes st p m pt'.
Proof. intros E (d & H & W & X). exists d. splits; try done. intros x y. by rewrite X. Qed.
Lemma makes_id st p d : st !! p = Some d -> wf d -> makes st p (Ret st) (covers (rects d)).
Proof. intros E W. exists d. splits; try done. by rewrite insert_id. Qed.

Lemma region_type_eq r r' : rects r = rects r' -> region_type r = region_type r'.
Proof. unfold region_type, numRects. by intros ->. Qed.
Lemma wf_set n e : 1 <= size n -> numRects n <= size n -> banded (rects n) -> crisp (rects n) -> tight e (rects n) ->
  wf (set_type (set_extents n e) (region_type (set_extents n e))).
Proof. intros H1 H2 H3 H4 H5. by split. Qed.
Lemma REGION_SetExtents_eq r : REGION_SetExtents r = set_extents r (extents (REGION_SetExtents r)).
Proof. unfold REGION_SetExtents. destruct (rects r); [done|]. by destruct (list.last _). Qed.
Lemma wf_SetExtents n : 1 <= size n -> numRects n <= size n -> banded (rects n) -> crisp (rects n) ->
  wf (set_type (REGION_SetExtents n) (region_type (REGION_SetExtents n))).
Proof.
  intros H1 H2 H3 H4. rewrite REGION_SetExtents_eq. apply wf_set; try done. by apply REGION_SetExtents_ok.
Qed.
Lemma covers_wf_nil r x y : numRects r = 0 -> covers (rects r) x y = false.
Proof. by intros ->%numRects_0. Qed.

Lemma disjoint_extents r1 r2 x y : wf r1 -> wf r2 -> EXTENTCHECK (extents r1) (extents r2) = false ->
  covers (rects r1) x y && covers (rects r2) x y = false.
Proof.
  intros W1 W2 H. destruct (covers (rects r1) x y) eqn:C1; [|done]. destruct (covers (rects r2) x y) eqn:C2; [|done].
  exfalso. destruct (wf_tight _ W1) as [[E _]|(_ & I1 & _)]; [by rewrite E in C1|].
  destruct (wf_tight _ W2) as [[E _]|(_ & I2 & _)]; [by rewrite E in C2|].
  apply I1, INRECT_iff in C1. apply I2, INRECT_iff in C2. unfold EXTENTCHECK in H. lia.
Qed.

Lemma REGION_CopyRegion_ok st dst src d s :
  st !! dst = Some d -> st !! src = Some s -> wf d -> wf s ->
  makes st dst (REGION_CopyRegion st dst src) (covers (rects s)).
Proof.
  intros Ed Es Wd Ws. unfold REGION_CopyRegion, get. destruct (Z.eqb_spec dst src) as [->|Hne].
  { replace d with s in * by congruence. by apply makes_id. }
  rewrite Ed, Es. cbn [obind]. eexists. splits; [reflexivity| |done].
  destruct Wd, Ws. split; simpl; try done; unfold numRects in *; simpl; case_match; lia.
Qed.

Section Ops.
Context (st : regions) (p1 p2 p : Z) (g1 g2 n : WINEREGION).
Context (E1 : st !! p1 = Some g1) (E2 : st !! p2 = Some g2) (En : st !! p = Some n).
Context (W1 : wf g1) (W2 : wf g2) (Wn : wf n).

Lemma not_trivial : (numRects g1 =? 0) || (numRects g2 =? 0) || negb (EXTENTCHECK (extents g1) (extents g2)) = false ->
  rects g1 <> [] /\ rects g2 <> [].
Proof.
  intros (Hz & _)%orb_false_iff. apply orb_false_iff in Hz as [H1 H2].
  split; intros H%numRects_0; lia.
Qed.
Lemma trivial_disjoint x y :
  (numRects g1 =? 0) || (numRects g2 =? 0) || negb (EXTENTCHECK (extents g1) (extents g2)) = true ->
  covers (rects g1) x y && covers (rects g2) x y = false.
Proof.
  intros [H|H%negb_true_iff]%orb_true_iff; [|by apply disjoint_extents].
  apply orb_true_iff in H as [H|H]; apply Z.eqb_eq in H; rewrite (covers_wf_nil _ x y H); [done|by rewrite andb_false_r].
Qed.

Lemma REGION_IntersectRegion_ok : ~ (p = p1 /\ p = p2 /\ rects n <> []) ->
  makes st p (REGION_IntersectRegion st p p1 p2) (fun x y => covers (rects g1) x y && covers (rects g2) x y).
Proof.
  intros Hd. unfold REGION_IntersectRegion. unfold get at 1 2. rewrite E1, E2. cbn [obind].
  assert (Hend : forall n', 1 <= size n' -> numRects n' <= size n' -> banded (rects n') -> crisp (rects n') ->
    (forall x y, covers (rects n') x y = covers (rects g1) x y && covers (rects g2) x y) ->
    makes st p (let! n := get (<[p := n']> st) p in
      let n := REGION_SetExtents n in Ret (<[p := set_type n (region_type n)]> (<[p := n']> st)))
      (fun x y => covers (rects g1) x y && covers (rects g2) x y)).
  { intros n' S1 S2 B C X. unfold get. rewrite lookup_insert_eq. cbn [obind]. rewrite insert_insert_eq.
    eexists. splits; [reflexivity|by apply wf_SetExtents|]. intros x y. rewrite <- X, REGION_SetExtents_eq. done. }
  case_match eqn:Ht.
  - unfold get at 1. rewrite En. cbn [obind]. apply Hend; try done; simpl.
    + apply Wn.
    + unfold numRects. simpl. rewrite zlen_nil. pose proof (wf_size _ Wn). lia.
    + by intros a ?%elem_of_nil.
    + intros x y. by rewrite trivial_disjoint.
  - destruct (not_trivial Ht) as [N1 N2].
    assert (Hp : ~ (p = p1 /\ p = p2)) by (intros [-> ?]; apply Hd; by replace n with g1 by congruence).
    destruct (REGION_RegionOp_ok andb REGION_IntersectO None None st p p1 p2 g1 g2 n) as (n' & -> & S1 & S2 & _ & B & C & X); try done.
    cbn [obind]. by apply Hend.
Qed.

Lemma REGION_SubtractRegion_ok : ~ (p = p1 /\ p = p2 /\ rects n <> []) ->
  makes st p (REGION_SubtractRegion st p p1 p2) (fun x y => covers (rects g1) x y && negb (covers (rects g2) x y)).
Proof.
  intros Hd. unfold REGION_SubtractRegion. unfold get at 1 2. rewrite E1, E2. cbn [obind].
  case_match eqn:Ht.
  - eapply makes_ext; [|by apply (REGION_CopyRegion_ok st p p1 n g1)]. intros x y.
    pose proof (trivial_disjoint x y Ht). destruct (covers (rects g1) x y), (covers (rects g2) x y); done.
  - destruct (not_trivial Ht) as [N1 N2].
    assert (Hp : ~ (p = p1 /\ p = p2)) by (intros [-> ?]; apply Hd; by replace n with g1 by congruence).
    destruct (REGION_RegionOp_ok diffb REGION_SubtractO (Some REGION_SubtractNonO1) None st p p1 p2 g1 g2 n)
      as (n' & -> & S1 & S2 & _ & B & C & X); try done.
    cbn [obind]. unfold get. rewrite lookup_insert_eq. cbn [obind]. rewrite insert_insert_eq.
    eexists. splits; [reflexivity|by apply wf_SetExtents|]. intros x y. rewrite REGION_SetExtents_eq. apply X.
Qed.

Lemma subsumes_covers r1 r2 x y : wf r1 -> wf r2 -> subsumes r1 r2 = true ->
  covers (rects r2) x y = true -> covers (rects r1) x y = true.
Proof.
  intros V1 V2 H C. unfold subsumes in H. assert (Hn : numRects r1 = 1) by lia. unfold numRects, zlen in Hn.
  destruct (rects r1) as [|a [|? l]] eqn:E; simpl in Hn; [done| |lia].
  destruct (tight_ne (extents r2) (rects r2)) as (I2 & _); [by intros Z0; rewrite Z0 in C|apply V2|].
  apply I2, INRECT_iff in C.
  destruct (tight_ne (extents r1) (rects r1)) as (I1 & (y1 & A1) & (y2 & A2) & (x3 & A3) & (x4 & A4));
    [by rewrite E|apply V1|]. rewrite E in A1, A2, A3, A4.
  apply covers_true in A1 as (? & ->%list_elem_of_singleton & A1%INRECT_iff).
  apply covers_true in A2 as (? & ->%list_elem_of_singleton & A2%INRECT_iff).
  apply covers_true in A3 as (? & ->%list_elem_of_singleton & A3%INRECT_iff).
  apply covers_true in A4 as (? & ->%list_elem_of_singleton & A4%INRECT_iff).
  apply (covers_at _ a); [by left|lia|lia].
Qed.

Lemma tight_union e1 e2 l1 l2 l : l1 <> [] -> l2 <> [] -> tight e1 l1 -> tight e2 l2 ->
  (forall x y, covers l x y = covers l1 x y || covers l2 x y) ->
  tight (mkRect (Z.min (left e1) (left e2)) (Z.min (top e1) (top e2)) (Z.max (right e1) (right e2))
    (Z.max (bottom e1) (bottom e2))) l.
Proof.
  intros N1 N2 T1 T2 X. apply tight_ne in T1 as (I1 & (y1 & A1) & (y2 & A2) & (x3 & A3) & (x4 & A4)); [|done].
  apply tight_ne in T2 as (I2 & (y1' & B1) & (y2' & B2) & (x3' & B3) & (x4' & B4)); [|done].
  right. cbn [left right top bottom]. splits.
  - intros ->. specialize (X (left e1) y1). rewrite A1 in X. done.
  - intros x y. rewrite X. intros [H|H]%orb_true_iff; [apply I1 in H|apply I2 in H]; apply INRECT_iff in H;
      apply INRECT_iff; simpl; lia.
  - destruct (Z.min_spec (left e1) (left e2)) as [[_ ->]|[_ ->]]; [exists y1|exists y1']; rewrite X, ?A1, ?B1; [done|by rewrite orb_true_r].
  - destruct (Z.max_spec (right e1) (right e2)) as [[_ ->]|[_ ->]]; [exists y2'|exists y2]; rewrite X, ?A2, ?B2; [by rewrite orb_true_r|done].
  - destruct (Z.min_spec (top e1) (top e2)) as [[_ ->]|[_ ->]]; [exists x3|exists x3']; rewrite X, ?A3, ?B3; [done|by rewrite orb_true_r].
  - destruct (Z.max_spec (bottom e1) (bottom e2)) as [[_ ->]|[_ ->]]; [exists x4'|exists x4]; rewrite X, ?A4, ?B4; [by rewrite orb_true_r|done].
Qed.

(** the union is a copy of one of the regions *)
Lemma union_copy q g : st !! q = Some g -> wf g ->
  (forall x y, covers (rects g) x y = covers (rects g1) x y || covers (rects g2) x y) ->
  makes st p (if p =? q then Ret st else REGION_CopyRegion st p q) (fun x y => covers (rects g1) x y || covers (rects g2) x y).
Proof.
  intros Eq Wq X. eapply makes_ext; [exact X|]. destruct (Z.eqb_spec p q) as [->|]; [by apply makes_id|].
  by apply (REGION_CopyRegion_ok st p q n g).
Qed.

Lemma REGION_UnionRegion_ok :
  makes st p (REGION_UnionRegion st p p1 p2) (fun x y => covers (rects g1) x y || covers (rects g2) x y).
Proof.
  unfold REGION_UnionRegion. unfold get at 1 2. rewrite E1, E2. cbn [obind].
  destruct ((p1 =? p2) || (numRects g1 =? 0)) eqn:H1.
  { apply (union_copy p2 g2); try done. intros x y. apply orb_true_iff in H1 as [H1|H1]; apply Z.eqb_eq in H1.
    - replace g2 with g1 by congruence. by destruct (covers _ _ _).
    - by rewrite (covers_wf_nil g1). }
  apply orb_false_iff in H1 as [H1 N1].
  destruct (numRects g2 =? 0) eqn:N2.
  { apply (union_copy p1 g1); try done. intros x y. apply Z.eqb_eq in N2. by rewrite (covers_wf_nil g2), orb_false_r. }
  destruct (subsumes g1 g2) eqn:S1.
  { apply (union_copy p1 g1); try done. intros x y. pose proof (subsumes_covers g1 g2 x y W1 W2 S1).
    destruct (covers (rects g1) x y), (covers (rects g2) x y); auto. }
  destruct (subsumes g2 g1) eqn:S2.
  { apply (union_copy p2 g2); try done. intros x y. pose proof (subsumes_covers g2 g1 x y W2 W1 S2).
    destruct (covers (rects g1) x y), (covers (rects g2) x y); auto. }
  assert (M1 : rects g1 <> []) by (intros H%numRects_0; lia).
  assert (M2 : rects g2 <> []) by (intros H%numRects_0; lia).
  destruct (REGION_RegionOp_ok orb REGION_UnionO (Some REGION_UnionNonO) (Some REGION_UnionNonO) st p p1 p2 g1 g2 n)
    as (n' & -> & K1 & K2 & K3 & B & C & X); try done; [intros [-> ->]; lia|].
  cbn [obind]. unfold get. rewrite lookup_insert_eq.
  assert (He : forall q g, st !! q = Some g -> exists e, <[p := n']> st !! q = Some e /\ extents e = extents g).
  { intros q g Eq. destruct (decide (p = q)) as [->|]; [rewrite lookup_insert_eq; eexists; split; [done|congruence]|].
    rewrite lookup_insert_ne by done. by exists g. }
  destruct (He p1 g1 E1) as (e1 & -> & X1). destruct (He p2 g2 E2) as (e2 & -> & X2). cbn [obind]. rewrite X1, X2.
  rewrite insert_insert_eq. eexists. splits; [reflexivity| |exact X].
  apply wf_set; try done. by eapply tight_union; [exact M1|exact M2|apply W1|apply W2|].
Qed.
End Ops.

End RegionOps.
