(* ===== verification/RegionSpec.v ===== *)
(** * Regions: the calls

    What the calls of dlls/gdi/region.c promise, stated with the calls alone:
    a combined region has a point iff its sources say so, except when a region is
    combined with itself into itself, and two regions in canonical form compare
    equal iff they have the same points. *)
From stdpp Require Import gmap.
From S2P Require Import Prelude Rect Region RegionBand RegionMerge RegionSweep RegionOps.
Import Rect Region RegionBand RegionMerge RegionSweep RegionOps.

Module RegionSpec.

#[local] Arguments covers : simpl never.

Definition wf_regions (st : regions) : Prop := map_Forall (fun _ r => wf r) st.

Lemma wf_lookup (st : regions) h r : wf_regions st -> st !! h = Some r -> wf r.
Proof. intros H E. exact (H h r E). Qed.
Lemma wf_insert st h d : wf_regions st -> wf d -> wf_regions (<[h := d]> st).
Proof. intros H W. by apply map_Forall_insert_2. Qed.

(** ** New keys *)
Lemma foldr_max_ge (l : list Z) k : k ∈ l -> k <= foldr Z.max 0 l.
Proof.
  induction l as [|a l IH]; [by intros ?%elem_of_nil|]. simpl. intros [->|Hk]%elem_of_cons; [lia|]. specialize (IH Hk). lia.
Qed.
Lemma new_key_fresh (st : regions) : st !! new_key st = None.
Proof.
  destruct (st !! new_key st) as [r|] eqn:E; [|done]. exfalso.
  assert (H : new_key st ∈ map fst (map_to_list st)).
  { apply list_elem_of_fmap. exists (new_key st, r). split; [done|]. by apply elem_of_map_to_list. }
  apply foldr_max_ge in H. unfold new_key in H at 1. lia.
Qed.
Lemma new_key_ne (st : regions) h r : st !! h = Some r -> new_key st <> h.
Proof. intros E <-. by rewrite new_key_fresh in E. Qed.

Lemma wf_alloc n : 1 <= n -> wf (REGION_AllocWineRegion n).
Proof.
  intros H. split; simpl; try done; [by intros a ?%elem_of_nil|by left|]. unfold numRects. simpl. rewrite zlen_nil. lia.
Qed.
Lemma wf_rect n r : 1 <= n -> full r -> wf (mkRgn n SIMPLEREGION [r] r).
Proof.
  intros Hn [H1 H2].
  assert (Hc : forall x y, left r <= x < right r -> top r <= y < bottom r -> covers [r] x y = true).
  { intros x y Hx Hy. apply (covers_at _ r); [by left|done|done]. }
  split; simpl; try done.
  - apply (crisp_level (top r) (bottom r)); [done|by repeat constructor|done].
  - right. splits; [done| |exists (top r); apply Hc; lia|exists (top r); apply Hc; lia
      |exists (left r); apply Hc; lia|exists (left r); apply Hc; lia].
    intros x y (c & ->%list_elem_of_singleton & H)%covers_true. done.
Qed.

(** ** The symmetric difference and the union with a rectangle *)
Lemma delete_temps (st : regions) p ta tb A0 A B0 B D :
  st !! ta = None -> st !! tb = None -> ta <> p -> tb <> p -> tb <> ta ->
  delete tb (delete ta (<[p := D]> (<[tb := B]> (<[ta := A]> (<[tb := B0]> (<[ta := A0]> st)))))) = <[p := D]> st.
Proof.
  intros Na Nb Pa Pb Hab. apply map_eq. intros q.
  destruct (decide (q = tb)) as [->|]; [rewrite lookup_delete_eq, lookup_insert_ne; auto|].
  rewrite lookup_delete_ne by auto.
  destruct (decide (q = ta)) as [->|]; [rewrite lookup_delete_eq, lookup_insert_ne; auto|].
  rewrite lookup_delete_ne by auto.
  destruct (decide (q = p)) as [->|]; [by rewrite !lookup_insert_eq|]. by rewrite !lookup_insert_ne by auto.
Qed.

Section Xor.
Context (st : regions) (p p1 p2 : Z) (g1 g2 n : WINEREGION).
Context (E1 : st !! p1 = Some g1) (E2 : st !! p2 = Some g2) (En : st !! p = Some n).
Context (W1 : wf g1) (W2 : wf g2) (Wn : wf n).

Lemma REGION_XorRegion_ok :
  makes st p (REGION_XorRegion st p p1 p2) (fun x y => xorb (covers (rects g1) x y) (covers (rects g2) x y)).
Proof.
  unfold REGION_XorRegion. unfold get at 1 2. rewrite E1, E2. cbn [obind].
  set (A0 := REGION_AllocWineRegion (numRects g1 + 1)). set (B0 := REGION_AllocWineRegion (numRects g2 + 1)).
  set (ta := new_key st). set (s1 := <[ta := A0]> st). set (tb := new_key s1). set (s2 := <[tb := B0]> s1).
  assert (Wa : wf A0) by (apply wf_alloc; pose proof (zlen_nonneg (rects g1)); unfold numRects; lia).
  assert (Wb : wf B0) by (apply wf_alloc; pose proof (zlen_nonneg (rects g2)); unfold numRects; lia).
  assert (Ha : forall q g, st !! q = Some g -> ta <> q) by (intros q g; apply new_key_ne).
  assert (Hab : tb <> ta) by (apply (new_key_ne s1 ta A0); apply lookup_insert_eq).
  assert (Hs1 : forall q g, st !! q = Some g -> s1 !! q = Some g).
  { intros q g Eq. unfold s1. by rewrite lookup_insert_ne by (by eapply Ha). }
  assert (Hb : forall q g, st !! q = Some g -> tb <> q) by (intros q g Eq; apply (new_key_ne s1 q g); auto).
  assert (Hs2 : forall q g, st !! q = Some g -> s2 !! q = Some g).
  { intros q g Eq. unfold s2. rewrite lookup_insert_ne by (by eapply Hb). auto. }
  assert (Ea : s2 !! ta = Some A0) by (unfold s2, s1; by rewrite lookup_insert_ne, lookup_insert_eq).
  destruct (REGION_SubtractRegion_ok s2 p1 p2 ta g1 g2 A0) as (A & -> & WA & XA); auto.
  { intros [H _]. by apply (Ha _ _ E1). }
  cbn [obind]. set (s3 := <[ta := A]> s2).
  assert (Hs3 : forall q g, st !! q = Some g -> s3 !! q = Some g).
  { intros q g Eq. unfold s3. rewrite lookup_insert_ne by (by eapply Ha). auto. }
  destruct (REGION_SubtractRegion_ok s3 p2 p1 tb g2 g1 B0) as (B & -> & WB & XB); auto.
  { unfold s3, s2. by rewrite lookup_insert_ne, lookup_insert_eq. }
  { intros [H _]. by apply (Hb _ _ E2). }
  cbn [obind]. set (s4 := <[tb := B]> s3).
  assert (Hs4 : forall q g, st !! q = Some g -> s4 !! q = Some g).
  { intros q g Eq. unfold s4. rewrite lookup_insert_ne by (by eapply Hb). auto. }
  destruct (REGION_UnionRegion_ok s4 ta tb p A B n) as (D & -> & WD & XD); auto.
  { unfold s4, s3. by rewrite lookup_insert_ne, lookup_insert_eq. }
  { apply lookup_insert_eq. }
  cbn [obind]. exists D. splits; [|done|].
  - f_equal. apply delete_temps; [apply new_key_fresh| |by eapply Ha|by eapply Hb|done].
    destruct (st !! tb) eqn:Et; [|done]. by apply Hb in Et.
  - intros x y. rewrite XD, XA, XB. destruct (covers (rects g1) x y), (covers (rects g2) x y); done.
Qed.

Lemma REGION_UnionRectWithRegion_ok r : full r ->
  makes st p (REGION_UnionRectWithRegion r st p) (fun x y => covers (rects n) x y || INRECT r x y).
Proof.
  intros Hr. unfold REGION_UnionRectWithRegion.
  set (t := new_key st). pose proof (new_key_ne _ _ _ En) as Ht. fold t in Ht.
  destruct (REGION_UnionRegion_ok (<[t := mkRgn 1 SIMPLEREGION [r] r]> st) p t p n (mkRgn 1 SIMPLEREGION [r] r) n)
    as (D & -> & WD & XD); auto.
  - by rewrite lookup_insert_ne.
  - apply lookup_insert_eq.
  - by rewrite lookup_insert_ne.
  - by apply wf_rect.
  - cbn [obind]. exists D. splits; [|done|].
    + f_equal. rewrite delete_insert_ne by done. by rewrite delete_insert_id by apply new_key_fresh.
    + intros x y. rewrite XD. simpl. unfold covers at 2. simpl. by rewrite orb_false_r.
Qed.
End Xor.

(** ** Points *)
Lemma PtInRegion_wf (st : regions) h r x y : st !! h = Some r -> wf r -> PtInRegion st h x y = covers (rects r) x y.
Proof.
  intros E W. unfold PtInRegion. rewrite E. fold (covers (rects r) x y).
  destruct (wf_tight _ W) as [[Hn _]|(Hn & I & _)]; [rewrite Hn; by rewrite andb_false_r|].
  destruct (covers (rects r) x y) eqn:C; [|by rewrite andb_false_r].
  rewrite (I _ _ C). destruct (Z.ltb_spec 0 (numRects r)); [done|].
  exfalso. apply Hn, numRects_0. pose proof (zlen_nonneg (rects r)). unfold numRects in *. lia.
Qed.

Lemma PtInRegion_covers st h r x y : wf_regions st -> st !! h = Some r -> PtInRegion st h x y = covers (rects r) x y.
Proof. intros Hst E. by apply PtInRegion_wf; [|eapply wf_lookup]. Qed.

Definition mode_op (mode : Z) (a b : bool) : bool :=
  if mode =? RGN_AND then a && b else if mode =? RGN_OR then a || b
  else if mode =? RGN_XOR then xorb a b else if mode =? RGN_DIFF then a && negb b else a.

Lemma combine_makes st p p1 p2 g1 g2 n mode :
  wf_regions st -> st !! p1 = Some g1 -> st !! p2 = Some g2 -> st !! p = Some n ->
  mode ∈ [RGN_AND; RGN_OR; RGN_XOR; RGN_DIFF; RGN_COPY] -> ~ (p = p1 /\ p = p2 /\ rects n <> [] /\ (mode = RGN_AND \/ mode = RGN_DIFF)) ->
  exists d, CombineRgn st p p1 p2 mode = Ret (<[p := d]> st, rtype d) /\ wf d /\
    forall x y, covers (rects d) x y = mode_op mode (covers (rects g1) x y) (covers (rects g2) x y).
Proof.
  intros Hst E1 E2 En Hm Hd. pose proof (wf_lookup _ _ _ Hst E1) as W1. pose proof (wf_lookup _ _ _ Hst E2) as W2.
  pose proof (wf_lookup _ _ _ Hst En) as Wn. unfold CombineRgn. rewrite En, E1.
  assert (Hend : forall m pt, makes st p m pt -> (forall x y, pt x y = mode_op mode (covers (rects g1) x y) (covers (rects g2) x y)) ->
    exists d, (let! st := m in let! d := get st p in Ret (st, rtype d)) = Ret (<[p := d]> st, rtype d) /\ wf d /\
    forall x y, covers (rects d) x y = mode_op mode (covers (rects g1) x y) (covers (rects g2) x y)).
  { intros m pt (d & -> & W & X) Hpt. exists d. cbn [obind]. unfold get. rewrite lookup_insert_eq. cbn [obind].
    splits; [done|done|]. intros x y. by rewrite X. }
  repeat (apply elem_of_cons in Hm as [->|Hm]); [| | | | |by apply elem_of_nil in Hm]; simpl; rewrite ?E2.
  - eapply Hend; [apply (REGION_IntersectRegion_ok st p1 p2 p g1 g2 n); auto; tauto|done].
  - eapply Hend; [by apply (REGION_UnionRegion_ok st p1 p2 p g1 g2 n)|done].
  - eapply Hend; [by apply (REGION_XorRegion_ok st p p1 p2 g1 g2 n)|done].
  - eapply Hend; [apply (REGION_SubtractRegion_ok st p1 p2 p g1 g2 n); auto; tauto|done].
  - eapply Hend; [by apply (REGION_CopyRegion_ok st p p1 n g1)|done].
Qed.

(** ** Combining *)

(** two overlapping squares *)
Definition sq1 : WINEREGION := mkRgn 2 SIMPLEREGION [mkRect 0 0 10 10] (mkRect 0 0 10 10).
Definition sq2 : WINEREGION := mkRgn 2 SIMPLEREGION [mkRect 5 5 15 15] (mkRect 5 5 15 15).
Definition squares : regions := <[1 := sq1]> (<[2 := sq2]> ∅).
Lemma squares_wf : wf_regions squares.
Proof.
  apply wf_insert; [apply wf_insert; [apply map_Forall_empty|]|]; apply wf_rect; unfold full; simpl; lia.
Qed.
(** the array of the destination is sized after its rectangles were dropped *)
Lemma add_rect_no_array r a : size r = 0 -> rects r = [] -> add_rect r a = Fault.
Proof. destruct r as [n t l e]. simpl. by intros -> ->. Qed.
Lemma EXTENTCHECK_self r : wf r -> rects r <> [] -> EXTENTCHECK (extents r) (extents r) = true.
Proof.
  intros W N. destruct (tight_ne _ _ N (wf_tight _ W)) as (I & (y & A) & _ & (x & B) & _).
  apply I, INRECT_iff in A, B. unfold EXTENTCHECK. lia.
Qed.
Lemma sweep_no_array n g y : size n = 0 -> rects n = [] -> banded (rects g) -> rects g <> [] ->
  sweep REGION_IntersectO None None n (rects g) (rects g) y = Fault.
Proof.
  intros Hs Hr B N. unfold sweep. destruct (rects g) as [|a l] eqn:E; [done|]. change (length (a :: l) + length (a :: l))%nat with (S (length l + length (a :: l))).
  cbn [op_loop]. destruct (first_band (a :: l)) as [b s] eqn:Eb.
  destruct (first_band_spec _ _ _ _ B Eb) as (El & Hne & _). pose proof (banded_full _ a B ltac:(by left)) as [H1 H2].
  rewrite Z.ltb_irrefl. cbn [obind]. unfold coalesce_new. rewrite Z.eqb_refl. cbn [obind].
  rewrite Z.min_id, (proj2 (Z.ltb_lt _ _) H2). destruct b as [|a' b]; [done|]. simpl in El. injection El as <- _.
  unfold REGION_IntersectO. simpl. rewrite Z.max_id, Z.min_id, (proj2 (Z.ltb_lt _ _) H1).
  by rewrite add_rect_no_array.
Qed.

Lemma RegionOp_no_array st h g : st !! h = Some g -> wf g -> rects g <> [] ->
  REGION_RegionOp REGION_IntersectO None None st h h h = Fault.
Proof.
  intros E W N. unfold REGION_RegionOp. unfold get at 1. rewrite E. cbn [obind].
  unfold get at 1. rewrite E. cbn [obind]. unfold get. rewrite E. cbn [obind]. rewrite lookup_insert_eq. cbn [obind].
  rewrite sweep_no_array; try done. apply W.
Qed.
(** a band minus itself: two rounds for each rectangle but the last *)
Lemma SubtractO_self reg t b l : forall fuel a, spaced (a :: l) -> (2 * length (a :: l) <= fuel)%nat ->
  SubtractO_loop fuel reg (a :: l) (a :: l) (left a) t b = Ret reg.
Proof.
  induction l as [|c l IH]; intros fuel a (Ha & Hg & Hs) Hf; destruct fuel as [|[|fuel]]; simpl in Hf; try lia;
    cbn [SubtractO_loop]; rewrite (proj2 (Z.leb_gt _ _) Ha), !Z.leb_refl; [done|].
  apply list.Forall_cons in Hg as [Hc _]. cbn [next_left SubtractO_loop].
  replace (right a <=? left c) with true by lia. apply IH; [done|simpl; lia].
Qed.
Lemma op_loop_self reg prev : forall fuel l y, banded l -> l <> [] -> (length l <= fuel)%nat ->
  exists y', op_loop REGION_SubtractO (Some REGION_SubtractNonO1) None fuel reg prev l l y = Ret (reg, prev, [], [], y').
Proof.
  induction fuel as [|fuel IH]; intros [|a l] y B N Hf; simpl in Hf; try done; [lia|].
  cbn [op_loop]. destruct (first_band (a :: l)) as [b r] eqn:Eb.
  destruct (first_band_spec _ _ _ _ B Eb) as (El & Hne & _ & Hs & Br & _).
  pose proof (banded_full _ a B ltac:(by left)) as [_ Hy].
  rewrite Z.ltb_irrefl. cbn [obind]. unfold coalesce_new. rewrite Z.eqb_refl. cbn [obind].
  rewrite Z.min_id, (proj2 (Z.ltb_lt _ _) Hy), Z.eqb_refl. destruct b as [|a' b]; [done|].
  unfold REGION_SubtractO. rewrite SubtractO_self by (done || simpl; lia). cbn [obind]. rewrite Z.eqb_refl. cbn [obind].
  destruct r as [|c r]; [by eexists|]. apply IH; [done|done|].
  apply (f_equal length) in El. rewrite length_app in El. simpl in El |- *. lia.
Qed.
Lemma sweep_self n l y : rects n = [] -> banded l -> l <> [] ->
  sweep REGION_SubtractO (Some REGION_SubtractNonO1) None n l l y = Ret n.
Proof.
  intros Hn B N. unfold sweep. destruct (op_loop_self n 0 (length l + length l) l y B N ltac:(lia)) as [y' ->].
  cbn [obind op_rest]. unfold coalesce_new. rewrite Z.eqb_refl. cbn [obind].
  unfold numRects. rewrite Hn, zlen_nil. by rewrite andb_false_r.
Qed.
Lemma SubtractRegion_self (st : regions) h g : st !! h = Some g -> wf g -> rects g <> [] ->
  REGION_SubtractRegion st h h h = Ret (<[h := mkRgn 0 NULLREGION [] no_rect]> st).
Proof.
  intros E W N. unfold REGION_SubtractRegion, get. rewrite E. cbn [obind].
  assert (Hn : (numRects g =? 0) = false) by (apply Z.eqb_neq; by intros ?%numRects_0).
  rewrite EXTENTCHECK_self, Hn by done. simpl orb. cbv iota.
  unfold REGION_RegionOp, get. rewrite E. cbn [obind]. rewrite !lookup_insert_eq. cbn [obind].
  rewrite sweep_self by (done || apply W). cbn [obind]. rewrite lookup_insert_eq. cbn [obind].
  by rewrite !insert_insert_eq.
Qed.
Lemma IntersectRegion_self (st : regions) h g : st !! h = Some g -> wf g -> rects g <> [] ->
  REGION_IntersectRegion st h h h = Fault.
Proof.
  intros E W N. unfold REGION_IntersectRegion, get. rewrite E. cbn [obind].
  assert (Hn : (numRects g =? 0) = false) by (apply Z.eqb_neq; by intros ?%numRects_0).
  rewrite EXTENTCHECK_self, Hn by done. simpl orb. cbv iota. by rewrite RegionOp_no_array with (g := g).
Qed.

(** C5: CombineRgn of any three well-formed regions, which may be the same, and
    with any mode.  The destination has a point iff the mode says so for the
    sources, the other regions are as before, all regions stay well formed
    (bands in order, nothing left to merge, exact extents), and the result is
    the type that GetRgnBox gives.  The exception is RGN_AND or RGN_DIFF of a
    region that is not empty with itself into itself: RGN_AND writes outside of
    the array of rectangles, and RGN_DIFF leaves the empty region that it should,
    but without an array, and the next SetRectRgn writes outside of it. *)
Theorem CombineRgn_points st hDest hSrc1 hSrc2 g1 g2 n mode :
  wf_regions st -> st !! hSrc1 = Some g1 -> st !! hSrc2 = Some g2 -> st !! hDest = Some n ->
  mode ∈ [RGN_AND; RGN_OR; RGN_XOR; RGN_DIFF; RGN_COPY] ->
  let points st' := forall x y, PtInRegion st' hDest x y = mode_op mode (PtInRegion st hSrc1 x y) (PtInRegion st hSrc2 x y) in
  let others st' := forall h, h <> hDest -> st' !! h = st !! h in
  let itself := hDest = hSrc1 /\ hDest = hSrc2 /\ rects n <> [] in
  (~ (itself /\ (mode = RGN_AND \/ mode = RGN_DIFF)) ->
   exists st' ret, CombineRgn st hDest hSrc1 hSrc2 mode = Ret (st', ret) /\ wf_regions st' /\
     points st' /\ others st' /\ (GetRgnBox st' hDest).2 = ret) /\
  (itself -> mode = RGN_AND -> CombineRgn st hDest hSrc1 hSrc2 mode = Fault) /\
  (itself -> mode = RGN_DIFF ->
   exists st', CombineRgn st hDest hSrc1 hSrc2 mode = Ret (st', NULLREGION) /\ points st' /\ others st' /\
     forall l t r b, l <> r -> t <> b -> SetRectRgn st' hDest l t r b = Fault).
Proof.
  intros Hst E1 E2 En Hm points others itself. unfold itself. splits.
  - intros Hd.
    destruct (combine_makes st hDest hSrc1 hSrc2 g1 g2 n mode Hst E1 E2 En Hm ltac:(tauto)) as (d & E & W & X).
    pose proof (wf_insert st hDest d Hst W) as Hst'.
    exists (<[hDest := d]> st), (rtype d). splits; [done|done| | |].
    + intros x y. rewrite (PtInRegion_covers _ hDest d), X by (done || apply lookup_insert_eq).
      by rewrite (PtInRegion_covers st hSrc1 g1), (PtInRegion_covers st hSrc2 g2).
    + intros h Hh. by rewrite lookup_insert_ne.
    + unfold GetRgnBox. by rewrite lookup_insert_eq.
  - intros (<- & <- & N) ->. unfold CombineRgn. rewrite En. simpl.
    by rewrite IntersectRegion_self with (g := n) by (done || by eapply wf_lookup).
  - intros (<- & <- & N) ->. unfold CombineRgn. rewrite En. simpl.
    rewrite SubtractRegion_self with (g := n) by (done || by eapply wf_lookup). cbn [obind].
    unfold get. rewrite lookup_insert_eq. cbn [obind]. eexists. splits; [reflexivity| | |].
    + intros x y. unfold PtInRegion at 1. rewrite lookup_insert_eq. simpl. by destruct (PtInRegion st hDest x y).
    + intros h Hh. by rewrite lookup_insert_ne.
    + intros l t r b Hx Hy. unfold SetRectRgn. rewrite lookup_insert_eq.
      destruct (r <? l), (b <? t); (replace (negb _ && negb _) with true by lia); done.
Qed.
Lemma CombineRgn_points_witness :
  exists st' ret, CombineRgn squares 1 1 2 RGN_XOR = Ret (st', ret) /\ wf_regions st' /\
    (forall x y, PtInRegion st' 1 x y = mode_op RGN_XOR (PtInRegion squares 1 x y) (PtInRegion squares 2 x y)) /\
    (forall h, h <> 1 -> st' !! h = squares !! h) /\ (GetRgnBox st' 1).2 = ret.
Proof.
  apply (CombineRgn_points squares 1 1 2 sq1 sq2 sq1 RGN_XOR).
  - exact squares_wf.
  - reflexivity.
  - reflexivity.
  - reflexivity.
  - right; right; left.
  - intros [(_ & H & _) _]. discriminate H.
Defined.

(** the two calls that go wrong, on a square *)
Theorem CombineRgn_one_region :
  CombineRgn squares 1 1 1 RGN_AND = Fault /\
  exists st2, CombineRgn squares 1 1 1 RGN_DIFF = Ret (st2, NULLREGION) /\ SetRectRgn st2 1 0 0 1 1 = Fault.
Proof.
  pose proof (squares_wf 1 sq1 eq_refl) as W. split.
  - unfold CombineRgn. simpl. by rewrite IntersectRegion_self with (g := sq1).
  - eexists. split; [unfold CombineRgn; simpl; rewrite SubtractRegion_self with (g := sq1) by done; reflexivity|].
    reflexivity.
Qed.

(** ** Comparing *)
Lemma same_rect_eq a b : same_rect a b = true <-> a = b.
Proof.
  unfold same_rect. split; [|intros ->; lia]. destruct a, b. simpl. intros H. f_equal; lia.
Qed.
Lemma same_rects_eq l : forall k, zlen l = zlen k -> same_rects l k = true <-> l = k.
Proof.
  induction l as [|a l IH]; intros [|b k] H; rewrite ?zlen_cons in H; try done.
  - exfalso. pose proof (zlen_nonneg k). rewrite zlen_nil in H. lia.
  - exfalso. pose proof (zlen_nonneg l). rewrite zlen_nil in H. lia.
  - simpl. rewrite andb_true_iff, same_rect_eq, IH by lia. split; [by intros [-> ->]|by intros [= -> ->]].
Qed.

(** C6: EqualRgn, which compares rectangles one by one, is true only for two
    regions that have the same points, whatever their form.  For two regions in
    the canonical form, which every call but the exceptions of
    [reachable_regions_wf] gives, it is true iff they have the same points: the
    rectangles of such a region are determined by its points. *)
Theorem EqualRgn_points st hrgn1 hrgn2 :
  (EqualRgn st hrgn1 hrgn2 = true ->
   is_Some (st !! hrgn1) /\ is_Some (st !! hrgn2) /\ forall x y, PtInRegion st hrgn1 x y = PtInRegion st hrgn2 x y) /\
  (forall r1 r2, st !! hrgn1 = Some r1 -> st !! hrgn2 = Some r2 -> wf r1 -> wf r2 ->
   (forall x y, PtInRegion st hrgn1 x y = PtInRegion st hrgn2 x y) -> EqualRgn st hrgn1 hrgn2 = true).
Proof.
  unfold EqualRgn. split.
  - intros H. destruct (st !! hrgn1) as [r1|] eqn:E1; [|done]. destruct (st !! hrgn2) as [r2|] eqn:E2; [|done].
    splits; [done|done|]. intros x y. unfold PtInRegion. rewrite E1, E2.
    apply andb_true_iff in H as [H1%Z.eqb_eq H2].
    apply orb_true_iff in H2 as [H2%Z.eqb_eq|[H2 H3]%andb_true_iff].
    + by rewrite <- H1, H2.
    + apply same_rect_eq in H2. apply same_rects_eq in H3; [|done]. by rewrite H1, H2, H3.
  - intros r1 r2 E1 E2 W1 W2 H. rewrite E1, E2.
    assert (X : forall x y, covers (rects r1) x y = covers (rects r2) x y).
    { intros x y. by rewrite <- (PtInRegion_wf st hrgn1 r1), <- (PtInRegion_wf st hrgn2 r2). }
    assert (Hr : rects r1 = rects r2) by (apply banded_unique; [apply W1|apply W1|apply W2|apply W2|done]).
    unfold numRects. rewrite Hr, Z.eqb_refl. simpl. apply orb_true_iff.
    destruct (decide (rects r2 = [])) as [->|N]; [by left|right]. apply andb_true_iff. split.
    + apply same_rect_eq. apply (tight_unique _ _ (rects r1) (rects r2)); [by rewrite Hr|done|done|apply W1|apply W2].
    + by apply same_rects_eq.
Qed.
(** the first square once more, with a larger array *)
Definition twin : WINEREGION := mkRgn 9 SIMPLEREGION [mkRect 0 0 10 10] (mkRect 0 0 10 10).
Definition twins : regions := <[3 := twin]> squares.
Lemma EqualRgn_points_witness :
  EqualRgn twins 1 3 = true /\ forall x y, PtInRegion twins 1 x y = PtInRegion twins 3 x y.
Proof.
  split.
  - apply (proj2 (EqualRgn_points twins 1 3) sq1 twin).
    + reflexivity.
    + reflexivity.
    + exact (squares_wf 1 sq1 eq_refl).
    + apply wf_rect; unfold full; simpl; lia.
    + reflexivity.
  - apply (EqualRgn_points twins 1 3). vm_compute. reflexivity.
Defined.

(** a rectangle and a region *)
Lemma rect_in_iff rect l : banded l -> full rect ->
  rect_in rect l = true <-> exists x y, INRECT rect x y = true /\ covers l x y = true.
Proof.
  intros B [Hx Hy]. induction l as [|a l IH]; simpl; [split; [done|by intros (? & ? & _ & ?)]|].
  destruct B as ([Ha1 Ha2] & Hfo & B).
  assert (Hcons : (exists x y, INRECT rect x y = true /\ covers (a :: l) x y = true) <->
    (exists x y, INRECT rect x y = true /\ INRECT a x y = true) \/ (exists x y, INRECT rect x y = true /\ covers l x y = true)).
  { unfold covers at 1. simpl. setoid_rewrite orb_true_iff. firstorder. }
  rewrite Hcons, <- IH by done. clear Hcons.
  assert (Hno : bottom a <= top rect \/ bottom rect <= top a \/ right a <= left rect \/ right rect <= left a ->
    ~ exists x y, INRECT rect x y = true /\ INRECT a x y = true).
  { intros H (x & y & H1%INRECT_iff & H2%INRECT_iff). lia. }
  assert (Hskip : bottom a <= top rect \/ bottom rect <= top a \/ right a <= left rect \/ right rect <= left a ->
    rect_in rect l = true <-> (exists x y, INRECT rect x y = true /\ INRECT a x y = true) \/ rect_in rect l = true) by tauto.
  destruct (Z.leb_spec (bottom a) (top rect)); [apply Hskip; lia|].
  destruct (Z.leb_spec (bottom rect) (top a)); [|destruct (Z.leb_spec (right a) (left rect)); [apply Hskip; lia|];
    destruct (Z.leb_spec (right rect) (left a)); [apply Hskip; lia|]].
  - split; [done|]. intros [H'|H']; [exfalso; apply Hno; [lia|done]|]. apply IH in H' as (x & y & H1%INRECT_iff & (c & Hc & H2%INRECT_iff)%covers_true); [|done].
    pose proof (proj1 (list.Forall_forall _ _) Hfo c Hc). unfold follows in *. lia.
  - split; [|done]. intros _. left. exists (Z.max (left rect) (left a)), (Z.max (top rect) (top a)).
    rewrite !INRECT_iff. lia.
Qed.

(** RectInRegion is true for a rectangle that is not empty iff a point of
    it is in the region. *)
Theorem RectInRegion_points st hrgn r rect :
  wf_regions st -> st !! hrgn = Some r -> full rect ->
  RectInRegion st hrgn rect = true <-> exists x y, INRECT rect x y = true /\ PtInRegion st hrgn x y = true.
Proof.
  intros Hst E Hr. pose proof (wf_lookup _ _ _ Hst E) as W.
  setoid_rewrite (fun x y => PtInRegion_covers st hrgn r x y Hst E). rewrite <- rect_in_iff by (done || apply W).
  unfold RectInRegion. rewrite E. split; [by intros [_ H]%andb_true_iff|]. intros H. rewrite H, andb_true_r.
  apply rect_in_iff in H as (x & y & H1 & H2); [|apply W|done].
  destruct (wf_tight _ W) as [[En _]|(N & I & _)]; [by rewrite En in H2|]. apply I, INRECT_iff in H2. apply INRECT_iff in H1.
  assert (numRects r <> 0) by (by intros ?%numRects_0). pose proof (zlen_nonneg (rects r)).
  unfold EXTENTCHECK, numRects in *. lia.
Qed.
Lemma RectInRegion_points_witness :
  RectInRegion squares 1 (mkRect 9 9 20 20) = true <->
  exists x y, INRECT (mkRect 9 9 20 20) x y = true /\ PtInRegion squares 1 x y = true.
Proof.
  apply (RectInRegion_points squares 1 sq1).
  - exact squares_wf.
  - reflexivity.
  - unfold full; simpl; lia.
Defined.

End RegionSpec.
