(* ===== verification/RegionData.v ===== *)
(** * Regions: rectangles, data, offsets and frames

    The calls of dlls/gdi/region.c that make regions from rectangles, write a
    region as data and read it back, move a region, and draw a frame around
    one. *)
From stdpp Require Import gmap.
From S2P Require Import Prelude Rect Region RegionBand RegionMerge RegionSweep RegionOps RegionSpec.
Import Rect Region RegionBand RegionMerge RegionSweep RegionOps RegionSpec.

Module RegionData.

#[local] Arguments covers : simpl never.

(** ** Lists of rectangles *)
Lemma covers_cons a l x y : covers (a :: l) x y = INRECT a x y || covers l x y.
Proof. done. Qed.
Lemma union_rects_ok l : forall (st : regions) h n, st !! h = Some n -> wf n -> Forall full l ->
  makes st h (union_rects l st h) (fun x y => covers (rects n) x y || covers l x y).
Proof.
  induction l as [|r l IH]; intros st h n E W F.
  { eapply makes_ext; [|by apply (makes_id st h n)]. intros x y. by rewrite orb_false_r. }
  apply list.Forall_cons in F as [Hr F]. simpl.
  destruct (REGION_UnionRectWithRegion_ok st h n E W r Hr) as (d & -> & Wd & X). cbn [obind].
  destruct (IH (<[h := d]> st) h d (lookup_insert_eq _ _ _) Wd F) as (d' & -> & Wd' & X').
  exists d'. splits; [by rewrite insert_insert_eq|done|]. intros x y. rewrite X', X, covers_cons. by rewrite orb_assoc.
Qed.
Lemma banded_Forall_full l : banded l -> Forall full l.
Proof. intros B. apply list.Forall_forall. intros a Ha. by eapply banded_full. Qed.

(** ** Region data *)
Lemma EqualRgn_insert (st : regions) newh hrgn r r' :
  newh <> hrgn -> st !! hrgn = Some r -> rects r' = rects r -> (rects r <> [] -> extents r' = extents r) ->
  EqualRgn (<[newh := r']> st) newh hrgn = true.
Proof.
  intros Hne E Hr He. unfold EqualRgn. rewrite lookup_insert_eq, lookup_insert_ne, E by done. unfold numRects.
  rewrite Hr, Z.eqb_refl. simpl. destruct (decide (rects r = [])) as [->|N]; [done|].
  rewrite He by done. by rewrite (proj2 (same_rect_eq _ _) eq_refl), (proj2 (same_rects_eq _ _ eq_refl) eq_refl), orb_true_r.
Qed.


(** ** Rectangles *)
Definition between (a b v : Z) : bool := (Z.min a b <=? v) && (v <? Z.max a b).

Lemma SetRectRgn_ok (st : regions) h n l t r b : st !! h = Some n -> wf n ->
  exists d, SetRectRgn st h l t r b = Ret (<[h := d]> st, true) /\ wf d /\ size d = size n /\
    forall x y, covers (rects d) x y = between l r x && between t b y.
Proof.
  intros E W. unfold SetRectRgn. rewrite E.
  assert (Hs : forall a c : Z, (if c <? a then (c, a) else (a, c)) = (Z.min a c, Z.max a c)).
  { intros a c. destruct (Z.ltb_spec c a); f_equal; lia. }
  rewrite !Hs. pose proof (wf_size _ W). destruct (negb _ && negb _) eqn:Hne.
  - replace (size n <? 1) with false by lia. eexists. splits; [reflexivity| |done|].
    + apply wf_rect; [done|]. unfold full. simpl. lia.
    + intros x y. simpl. unfold covers, INRECT, between. simpl. lia.
  - eexists. splits; [reflexivity| |done|].
    + split; simpl; try done; [by intros a ?%elem_of_nil|by left|]. unfold numRects. simpl. rewrite zlen_nil. lia.
    + intros x y. simpl. unfold covers, between. simpl. lia.
Qed.

(** CreateRectRgn with its corners in any order makes a well-formed region
    of the points between them, and changes no other region. *)
Theorem CreateRectRgn_points st newh l t r b :
  wf_regions st -> st !! newh = None -> newh <> 0 ->
  exists st', CreateRectRgn (Some newh) st l t r b = Ret (st', newh) /\ wf_regions st' /\
    (forall x y, PtInRegion st' newh x y = between l r x && between t b y) /\
    (forall h, h <> newh -> st' !! h = st !! h).
Proof.
  intros Hst E Hnz. unfold CreateRectRgn, REGION_CreateRegion. rewrite (proj2 (Z.eqb_neq _ _) Hnz).
  destruct (SetRectRgn_ok (<[newh := REGION_AllocWineRegion RGN_DEFAULT_RECTS]> st) newh _ l t r b (lookup_insert_eq _ _ _))
    as (d & -> & W & _ & X); [by apply wf_alloc|]. cbn [obind]. rewrite insert_insert_eq.
  pose proof (wf_insert st newh d Hst W) as Hst'. eexists. splits; [reflexivity|done| |].
  - intros x y. by rewrite (PtInRegion_covers _ newh d), X by (done || apply lookup_insert_eq).
  - intros h Hh. by rewrite lookup_insert_ne.
Qed.
Lemma CreateRectRgn_points_witness :
  exists st', CreateRectRgn (Some 7) squares 30 2 20 9 = Ret (st', 7) /\ wf_regions st' /\
    (forall x y, PtInRegion st' 7 x y = between 30 20 x && between 2 9 y) /\
    (forall h, h <> 7 -> st' !! h = squares !! h).
Proof.
  apply (CreateRectRgn_points squares 7 30 2 20 9).
  - exact squares_wf.
  - reflexivity.
  - discriminate.
Defined.

(** ** Moving *)
Definition shift (x y : Z) (r : RECT) : RECT := mkRect (left r + x) (top r + y) (right r + x) (bottom r + y).
(** no sum overflows for the rectangles inside [e] *)
Definition shift_fits (x y : Z) (e : RECT) : Prop :=
  - 2 ^ 31 <= left e + x /\ right e + x < 2 ^ 31 /\ - 2 ^ 31 <= top e + y /\ bottom e + y < 2 ^ 31.

Definition inside (e a : RECT) : Prop := left e <= left a /\ right a <= right e /\ top e <= top a /\ bottom a <= bottom e.
Lemma add_int_ok a b : - 2 ^ 31 <= a + b < 2 ^ 31 -> add_int a b = Ret (a + b).
Proof. intros H. unfold add_int. by replace ((- 2 ^ 31 <=? a + b) && (a + b <? 2 ^ 31)) with true by lia. Qed.
Lemma offset_rect_ok x y e r : shift_fits x y e -> inside e r -> full r -> offset_rect r x y = Ret (shift x y r).
Proof.
  unfold shift_fits, inside, full. intros H1 H2 H3. unfold offset_rect.
  rewrite (add_int_ok (left r)) by lia. cbn [obind]. rewrite (add_int_ok (right r)) by lia. cbn [obind].
  rewrite (add_int_ok (top r)) by lia. cbn [obind]. by rewrite (add_int_ok (bottom r)) by lia.
Qed.
Lemma offset_rects_ok x y e l : shift_fits x y e -> Forall (inside e) l -> Forall full l ->
  offset_rects l x y = Ret (map (shift x y) l).
Proof.
  intros H. induction l as [|a l IH]; [done|]. intros [Ha Hl]%list.Forall_cons [Fa Fl]%list.Forall_cons. simpl.
  rewrite (offset_rect_ok x y e) by done. cbn [obind]. by rewrite IH.
Qed.
Lemma shift_covers x y l px py : covers (map (shift x y) l) px py = covers l (px - x) (py - y).
Proof.
  induction l as [|a l IH]; [done|]. simpl. rewrite !covers_cons, IH. f_equal. unfold INRECT, shift. simpl. lia.
Qed.
Lemma tight_inside e l : banded l -> l <> [] -> tight e l -> Forall (inside e) l /\ full e.
Proof.
  intros B N T. apply tight_ne in T as (I & (y1 & A1) & (y2 & A2) & (x3 & A3) & (x4 & A4)); [|done]. split.
  - apply list.Forall_forall. intros a Ha. destruct (banded_full _ _ B Ha) as [F1 F2].
    assert (C1 : covers l (left a) (top a) = true) by (apply (covers_at _ a); [done|lia|lia]).
    assert (C2 : covers l (right a - 1) (bottom a - 1) = true) by (apply (covers_at _ a); [done|lia|lia]).
    apply I, INRECT_iff in C1, C2. unfold inside. lia.
  - apply I, INRECT_iff in A1, A3. unfold full. lia.
Qed.
Lemma shift_banded x y l : banded l -> banded (map (shift x y) l).
Proof.
  induction l as [|a l IH]; [done|]. intros (F & Fo & B). simpl. splits; [|apply Forall_map|auto].
  - unfold full, shift in *. simpl. lia.
  - eapply list.Forall_impl; [exact Fo|]. intros c. unfold follows, shift. simpl. lia.
Qed.
Lemma shift_crisp x y l : crisp l -> crisp (map (shift x y) l).
Proof.
  intros C a (b & -> & Hb)%list_elem_of_fmap E. apply (C b Hb). intros px. specialize (E (px + x)).
  rewrite !shift_covers in E. simpl in E. replace (px + x - x) with px in E by lia.
  replace (bottom b + y - 1 - y) with (bottom b - 1) in E by lia. by replace (bottom b + y - y) with (bottom b) in E by lia.
Qed.
Lemma shift_tight x y e l : l <> [] -> tight e l -> tight (shift x y e) (map (shift x y) l).
Proof.
  intros N T. apply tight_ne in T as (I & (y1 & A1) & (y2 & A2) & (x3 & A3) & (x4 & A4)); [|done].
  right. setoid_rewrite shift_covers. unfold shift. cbn [left right top bottom]. splits.
  - by destruct l.
  - intros px py H%I. unfold INRECT in *. cbn [left right top bottom]. lia.
  - exists (y1 + y). rewrite <- A1. f_equal; lia.
  - exists (y2 + y). rewrite <- A2. f_equal; lia.
  - exists (x3 + x). rewrite <- A3. f_equal; lia.
  - exists (x4 + x). rewrite <- A4. f_equal; lia.
Qed.

Lemma shift_wf x y r : wf r -> rects r <> [] -> wf (set_extents (set_rects r (map (shift x y) (rects r))) (shift x y (extents r))).
Proof.
  intros [W1 W2 W3 W4 W5 W6] N.
  assert (Hz : zlen (map (shift x y) (rects r)) = zlen (rects r)) by (unfold zlen; by rewrite length_map).
  split; unfold region_type, numRects in *; simpl; rewrite ?Hz; try done.
  - by apply shift_banded.
  - by apply shift_crisp.
  - by apply shift_tight.
Qed.

Lemma OffsetRgn_ok (st : regions) h r x y : st !! h = Some r -> wf r -> (rects r <> [] -> shift_fits x y (extents r)) ->
  exists d, OffsetRgn st h x y = Ret (<[h := d]> st, rtype d) /\ wf d /\ rtype d = rtype r /\
    forall px py, covers (rects d) px py = covers (rects r) (px - x) (py - y).
Proof.
  intros E W Hs. unfold OffsetRgn. rewrite E. destruct ((negb (x =? 0) || negb (y =? 0)) && negb (numRects r =? 0)) eqn:Hc.
  - assert (N : rects r <> []) by (intros H%numRects_0; lia).
    specialize (Hs N). destruct (tight_inside _ _ (wf_banded _ W) N (wf_tight _ W)) as [Hi Hf].
    rewrite (offset_rects_ok x y (extents r)) by (done || apply banded_Forall_full, W). cbn [obind].
    rewrite (offset_rect_ok x y (extents r)) by (done || unfold inside; lia). cbn [obind].
    eexists. splits; [reflexivity|by apply shift_wf|done|intros; apply shift_covers].
  - exists r. cbn [obind]. splits; [done|done|done|]. intros px py. apply andb_false_iff in Hc as [Hc|Hc].
    + replace x with 0 by lia. replace y with 0 by lia. by rewrite !Z.sub_0_r.
    + by rewrite !(covers_wf_nil r) by lia.
Qed.

(** OffsetRgn moves every point of the region, gives the type of the
    region and leaves it well formed, when no coordinate overflows. *)
Theorem OffsetRgn_points st hrgn r x y :
  wf_regions st -> st !! hrgn = Some r -> shift_fits x y (extents r) ->
  exists st', OffsetRgn st hrgn x y = Ret (st', rtype r) /\ wf_regions st' /\
    (forall px py, PtInRegion st' hrgn (px + x) (py + y) = PtInRegion st hrgn px py) /\
    (forall h, h <> hrgn -> st' !! h = st !! h).
Proof.
  intros Hst E Hs. destruct (OffsetRgn_ok st hrgn r x y E (wf_lookup _ _ _ Hst E) (fun _ => Hs)) as (d & Eo & W & Ht & X).
  pose proof (wf_insert st hrgn d Hst W) as Hst'. rewrite Ht in Eo. eexists. splits; [exact Eo|done| |].
  - intros px py. rewrite (PtInRegion_covers _ hrgn d), (PtInRegion_covers st hrgn r), X by (done || apply lookup_insert_eq).
    f_equal; lia.
  - intros h Hh. by rewrite lookup_insert_ne.
Qed.
Lemma OffsetRgn_points_witness :
  exists st', OffsetRgn squares 1 (-3) 4 = Ret (st', rtype sq1) /\ wf_regions st' /\
    (forall px py, PtInRegion st' 1 (px + -3) (py + 4) = PtInRegion squares 1 px py) /\
    (forall h, h <> 1 -> st' !! h = squares !! h).
Proof.
  apply (OffsetRgn_points squares 1 sq1 (-3) 4).
  - exact squares_wf.
  - reflexivity.
  - unfold shift_fits; simpl; lia.
Defined.

End RegionData.
