(* ===== verification/RegionCrop.v ===== *)
(** * Regions: cropping and frames

    REGION_CropRgn of dlls/gdi/region.c as the part of a region inside a
    rectangle, moved, and REGION_FrameRgn as the points near a region. *)
From stdpp Require Import gmap.
From S2P Require Import Prelude Rect Region RegionBand RegionMerge RegionSweep RegionOps RegionSpec RegionData.
Import Rect Region RegionBand RegionMerge RegionSweep RegionOps RegionSpec RegionData.

Module RegionCrop.

#[local] Arguments covers : simpl never.

(** ** The rectangles that are left *)
Definition isect (c a : RECT) : RECT :=
  mkRect (Z.max (left a) (left c)) (Z.max (top a) (top c)) (Z.min (right a) (right c)) (Z.min (bottom a) (bottom c)).
Definition overlaps (c a : RECT) : bool :=
  (top c <? bottom a) && (top a <? bottom c) && ((left a <? right c) && (left c <? right a)).
(** a filter with a boolean test *)
Fixpoint keep (p : RECT -> bool) (l : list RECT) : list RECT :=
  match l with a :: l => if p a then a :: keep p l else keep p l | [] => [] end.

Lemma keep_elem p l a : a ∈ keep p l <-> a ∈ l /\ p a = true.
Proof.
  induction l as [|b l IH]; simpl; [split; [by intros ?%elem_of_nil|by intros [?%elem_of_nil _]]|].
  destruct (p b) eqn:E; rewrite ?elem_of_cons, IH.
  - split; [intros [->|[? ?]]; tauto|tauto].
  - split; [tauto|]. intros [[->|?] Hp]; [congruence|tauto].
Qed.
Lemma keep_all p l : (forall a, a ∈ l -> p a = true) -> keep p l = l.
Proof. induction l as [|b l IH]; [done|]. intros H. simpl. rewrite H by (by left). f_equal. apply IH. set_solver. Qed.
Lemma keep_none p l : (forall a, a ∈ l -> p a = false) -> keep p l = [].
Proof. induction l as [|b l IH]; [done|]. intros H. simpl. rewrite H by (by left). apply IH. set_solver. Qed.
Lemma keep_keep p q l : keep p (keep q l) = keep (fun a => q a && p a) l.
Proof. induction l as [|b l IH]; [done|]. simpl. destruct (q b); simpl; [destruct (p b)|]; by rewrite ?IH. Qed.
Lemma keep_banded p l : banded l -> banded (keep p l).
Proof.
  induction l as [|b l IH]; [done|]. intros (F & Fo & B). simpl. destruct (p b); [|auto]. simpl. splits; [done| |auto].
  apply list.Forall_forall. intros a [Ha _]%keep_elem. by apply (proj1 (list.Forall_forall _ _) Fo).
Qed.

(** below a rectangle that ends after [t] all rectangles do *)
Lemma banded_tail a l c : banded (a :: l) -> c ∈ l -> bottom a <= bottom c /\ top a <= top c.
Proof.
  intros (F & Fo & B) Hc. pose proof (proj1 (list.Forall_forall _ _) Fo c Hc). destruct (banded_full _ _ B Hc).
  unfold follows, full in *. lia.
Qed.
Lemma skip_above_keep t l : banded l -> keep (fun a => t <? bottom a) l <> [] ->
  skip_above t l = Ret (keep (fun a => t <? bottom a) l).
Proof.
  induction l as [|a l IH]; [done|]. intros B. simpl. destruct (Z.leb_spec (bottom a) t).
  - replace (t <? bottom a) with false by lia. intros N. by apply IH; [apply B|].
  - replace (t <? bottom a) with true by lia. intros _. rewrite keep_all; [done|].
    intros c Hc. destruct (banded_tail _ _ _ B Hc). lia.
Qed.
Lemma take_above_keep b l : banded l -> take_above b l = keep (fun a => top a <? b) l.
Proof.
  induction l as [|a l IH]; [done|]. intros B. simpl. destruct (Z.leb_spec b (top a)).
  - replace (top a <? b) with false by lia. rewrite keep_none; [done|].
    intros c Hc. destruct (banded_tail _ _ _ B Hc). lia.
  - replace (top a <? b) with true by lia. f_equal. apply IH, B.
Qed.

(** the sides are cut in the loop, the top and the bottom after it *)
Definition cut_sides (c : RECT) (x y : Z) (a : RECT) : RECT :=
  mkRect (Z.max (left a) (left c) + x) (top a + y) (Z.min (right a) (right c) + x) (bottom a + y).
Lemma crop_loop_ok c x y e l : shift_fits x y e -> Forall (inside e) l -> Forall full l -> left c < right c ->
  crop_loop c x y l = Ret (map (cut_sides c x y) (keep (fun a => (left a <? right c) && (left c <? right a)) l)).
Proof.
  intros (S1 & S2 & S3 & S4) Hi Hf Hc. induction l as [|a l IH]; [done|].
  apply list.Forall_cons in Hi as [Ha Hi]. apply list.Forall_cons in Hf as [[F1 F2] Hf]. specialize (IH Hi Hf). simpl.
  destruct ((left a <? right c) && (left c <? right a)) eqn:Ho; [|exact IH]. unfold inside in Ha.
  rewrite (add_int_ok (top a)) by lia. cbn [obind]. rewrite (add_int_ok (bottom a)) by lia. cbn [obind].
  replace (if left c <? left a then left a else left c) with (Z.max (left a) (left c)) by (case_match; lia).
  replace (if right a <? right c then right a else right c) with (Z.min (right a) (right c)) by (case_match; lia).
  rewrite (add_int_ok (Z.max _ _)) by lia. cbn [obind]. rewrite (add_int_ok (Z.min _ _)) by lia. cbn [obind].
  by rewrite IH.
Qed.

Definition raise_top (t : Z) (a : RECT) : RECT := mkRect (left a) (Z.max (top a) t) (right a) (bottom a).
Definition lower_bottom (b : Z) (a : RECT) : RECT := mkRect (left a) (top a) (right a) (Z.min (bottom a) b).
Lemma map_id_on (f : RECT -> RECT) l : (forall a, a ∈ l -> f a = a) -> map f l = l.
Proof. induction l as [|a l IH]; [done|]. intros H. simpl. rewrite H by (by left). f_equal. apply IH. set_solver. Qed.
Lemma fix_top_map t l : banded l -> fix_top t l = map (raise_top t) l.
Proof.
  induction l as [|a l IH]; [done|]. intros B. cbn [fix_top]. destruct (Z.ltb_spec (top a) t).
  - rewrite IH by apply B. simpl. f_equal. unfold raise_top. f_equal. lia.
  - rewrite map_id_on; [done|]. intros c Hc. assert (top a <= top c).
    { apply elem_of_cons in Hc as [->|Hc]; [lia|]. by destruct (banded_tail _ _ _ B Hc). }
    destruct c. unfold raise_top. simpl in *. f_equal. lia.
Qed.
Lemma fix_bottom_map b l : banded l -> rev (fix_bottom b (rev l)) = map (lower_bottom b) l.
Proof.
  induction l as [|z l IH] using rev_ind; [done|]. intros B. rewrite rev_app_distr. cbn [rev app fix_bottom].
  destruct (Z.ltb_spec b (bottom z)).
  - cbn [rev]. rewrite IH by (by apply banded_app in B as (B & _)). rewrite map_app. simpl. do 2 f_equal.
    unfold lower_bottom. f_equal. lia.
  - simpl. rewrite rev_involutive. rewrite map_id_on; [done|]. intros c Hc. pose proof (banded_last _ _ _ B Hc).
    destruct c. unfold lower_bottom. simpl in *. f_equal. lia.
Qed.

Lemma isect_INRECT c a x y : INRECT (isect c a) x y = INRECT a x y && INRECT c x y.
Proof. unfold INRECT, isect. simpl. lia. Qed.
Lemma isect_covers c l x y : covers (map (isect c) (keep (overlaps c) l)) x y = covers l x y && INRECT c x y.
Proof.
  induction l as [|a l IH]; [done|]. simpl. destruct (overlaps c a) eqn:E; simpl; rewrite ?covers_cons, IH, ?isect_INRECT.
  - by rewrite andb_orb_distrib_l.
  - rewrite andb_orb_distrib_l. replace (INRECT a x y && INRECT c x y) with false; [done|].
    unfold overlaps, INRECT in *. lia.
Qed.
Lemma isect_banded c l : full c -> banded l -> banded (map (isect c) (keep (overlaps c) l)).
Proof.
  intros [C1 C2]. induction l as [|a l IH]; [done|]. intros ([F1 F2] & Fo & B). simpl.
  destruct (overlaps c a) eqn:E; [|auto]. simpl. splits; [| |auto].
  - unfold full, isect, overlaps in *. simpl. lia.
  - apply Forall_map, list.Forall_forall. intros d [Hd _]%keep_elem.
    pose proof (proj1 (list.Forall_forall _ _) Fo d Hd). unfold follows, isect in *. simpl. lia.
Qed.

(** the whole of it: the parts of the rectangles inside [c], moved *)
Lemma crop_steps c x y l :
  let k := keep (fun a => (left a <? right c) && (left c <? right a)) (keep (fun a => top a <? bottom c) (keep (fun a => top c <? bottom a) l)) in
  map (lower_bottom (bottom c + y)) (map (raise_top (top c + y)) (map (cut_sides c x y) k)) =
  map (shift x y) (map (isect c) (keep (overlaps c) l)).
Proof.
  simpl. rewrite !keep_keep. unfold overlaps. induction l as [|a l IH]; [done|]. simpl.
  destruct (top c <? bottom a), (top a <? bottom c), (left a <? right c), (left c <? right a); simpl; rewrite ?IH; try done.
  f_equal. unfold lower_bottom, raise_top, cut_sides, shift, isect. simpl.
  f_equal; lia.
Qed.
Lemma cut_sides_banded c x y l : banded l -> (forall a, a ∈ l -> left a < right c /\ left c < right a) -> left c < right c ->
  banded (map (cut_sides c x y) l).
Proof.
  intros B H Hc. induction l as [|a l IH]; [done|]. destruct B as ([F1 F2] & Fo & B).
  pose proof (H a ltac:(by left)). simpl. splits; [unfold full, cut_sides; simpl; lia| |apply IH; [done|intros; apply H; by right]].
  apply Forall_map. eapply list.Forall_impl; [exact Fo|]. intros d. unfold follows, cut_sides. simpl. lia.
Qed.
Lemma raise_top_banded t l : banded l -> (forall a, a ∈ l -> t < bottom a) -> banded (map (raise_top t) l).
Proof.
  intros B H. induction l as [|a l IH]; [done|]. destruct B as ([F1 F2] & Fo & B). pose proof (H a ltac:(by left)).
  simpl. splits; [unfold full, raise_top; simpl; lia| |apply IH; [done|intros; apply H; by right]].
  apply Forall_map. eapply list.Forall_impl; [exact Fo|]. intros d. unfold follows, raise_top. simpl. lia.
Qed.

(** ** REGION_CropAndOffsetRegion *)

(** the extents hold for the test of a point *)
Definition boxed (r : WINEREGION) : Prop := rects r = [] \/ tight (extents r) (rects r).
Lemma PtInRegion_boxed (st : regions) h r x y : st !! h = Some r -> boxed r -> PtInRegion st h x y = covers (rects r) x y.
Proof.
  intros E B. unfold PtInRegion. rewrite E. fold (covers (rects r) x y).
  destruct (decide (rects r = [])) as [Hn|Hn]; [by rewrite Hn, andb_false_r|].
  destruct B as [|T]; [done|]. apply tight_ne in T as (I & _); [|done].
  destruct (covers (rects r) x y) eqn:C; [|by rewrite andb_false_r].
  rewrite (I _ _ C). destruct (Z.ltb_spec 0 (numRects r)); [done|].
  exfalso. apply Hn, numRects_0. pose proof (zlen_nonneg (rects r)). unfold numRects in *. lia.
Qed.

Definition in_clip (rect : option RECT) (x y : Z) : bool := match rect with Some c => INRECT c x y | None => true end.

Lemma crop_extents c x e k out a z :
  banded out -> out = a :: k -> list.last out = Some z -> Forall full out ->
  (forall d, d ∈ out -> right d <= right e + x /\ left e + x <= left d) ->
  map side out = map side c ->
  tight (mkRect (fold_left (fun m c => if left c <? m then left c else m) c (right e + x)) (top a)
    (fold_left (fun m c => if m <? right c then right c else m) c (left e + x)) (bottom z)) out.
Proof.
  intros B Eo Hl Hf He Hs.
  assert (Hin : forall d, d ∈ c -> exists d', d' ∈ out /\ left d' = left d /\ right d' = right d).
  { intros d Hd. assert (Hd' : side d ∈ map side out) by (rewrite Hs; apply list_elem_of_fmap; by exists d).
    apply list_elem_of_fmap in Hd' as (d' & E & Hd'). injection E as E1 E2. exists d'. by splits. }
  assert (Hout : forall d, d ∈ out -> exists d', d' ∈ c /\ left d' = left d /\ right d' = right d).
  { intros d Hd. assert (Hd' : side d ∈ map side c) by (rewrite <- Hs; apply list_elem_of_fmap; by exists d).
    apply list_elem_of_fmap in Hd' as (d' & E & Hd'). injection E as E1 E2. exists d'. by splits. }
  assert (Ha : a ∈ out) by (rewrite Eo; by left). assert (Hz : z ∈ out) by by apply last_Some_elem_of.
  destruct (banded_full _ _ B Ha) as [A1 A2]. destruct (banded_full _ _ B Hz) as [Z1 Z2].
  destruct (fold_min_spec c (right e + x)) as (M1 & M2 & M3). destruct (fold_max_spec c (left e + x)) as (X1 & X2 & X3).
  cbv zeta in *. set (lm := fold_left _ c (right e + x)) in *. set (rm := fold_left _ c (left e + x)) in *. clearbody lm rm.
  destruct (Hout a Ha) as (a' & Ha' & L' & R'). pose proof (M2 a' Ha'). pose proof (X2 a' Ha'). pose proof (He a Ha).
  right. cbn [left right top bottom]. splits; [by rewrite Eo| | | |exists (left a); apply (covers_at _ a); [done|lia|lia]
    |exists (left z); apply (covers_at _ z); [done|lia|lia]].
  - intros px py (d & Hd & Hi%INRECT_iff)%covers_true. apply INRECT_iff. cbn [left right top bottom].
    destruct (Hout d Hd) as (d' & Hd' & Ld & Rd). specialize (M2 d' Hd'). specialize (X2 d' Hd').
    assert (top a <= top d) by (subst out; by eapply banded_first).
    assert (bottom d <= bottom z).
    { destruct (exists_last (l := out) ltac:(by rewrite Eo)) as (q & w & Ew). rewrite Ew, last_snoc in Hl. injection Hl as ->.
      rewrite Ew in *. by eapply banded_last. }
    lia.
  - destruct M3 as [->|(d & Hd & ->)]; [exfalso; lia|]. destruct (Hin d Hd) as (d' & Hd' & <- & _).
    destruct (banded_full _ _ B Hd'). exists (top d'). apply (covers_at _ d'); [done|lia|lia].
  - destruct X3 as [->|(d & Hd & ->)]; [exfalso; lia|]. destruct (Hin d Hd) as (d' & Hd' & _ & <-).
    destruct (banded_full _ _ B Hd'). exists (top d'). apply (covers_at _ d'); [done|lia|lia].
Qed.

Lemma add_int_no_spin a b : add_int a b <> Spin.
Proof. unfold add_int. by case_match. Qed.

Section Crop.
Context (st : regions) (src dst : Z) (s d : WINEREGION) (x y : Z).
Context (Es : st !! src = Some s) (Ed : st !! dst = Some d) (Ws : wf s).

(** [m] stores at [dst] the points of [s] inside [rect], moved by [x], [y] *)
Definition crops (rect : option RECT) (m : outcome regions) : Prop :=
  exists d', m = Ret (<[dst := d']> st) /\ boxed d' /\ (is_Some rect -> tight (extents d') (rects d')) /\
    forall px py, covers (rects d') px py = covers (rects s) (px - x) (py - y) && in_clip rect (px - x) (py - y).

Lemma crop_none_ok (Hs : shift_fits x y (extents s)) null :
  crops None (REGION_CropAndOffsetRegion x y None st src dst null).
Proof.
  unfold REGION_CropAndOffsetRegion, get. rewrite Es, Ed. cbn [obind]. unfold crops, in_clip. setoid_rewrite andb_true_r.
  assert (Hz : x = 0 /\ y = 0 -> forall px py, covers (rects s) px py = covers (rects s) (px - x) (py - y)).
  { intros [-> ->] px py. by rewrite !Z.sub_0_r. }
  destruct ((dst =? src) && (x =? 0) && (y =? 0)) eqn:Hc.
  { exists s. assert (dst = src) as <- by lia. splits; [by rewrite insert_id|right; apply Ws|by intros []|apply Hz; lia]. }
  destruct (negb (x =? 0) || negb (y =? 0)) eqn:Hnz; cycle 1.
  { exists s. splits; [done|right; apply Ws|by intros []|apply Hz; lia]. }
  destruct (decide (rects s = [])) as [Hn|Hn].
  - rewrite Hn. cbn [offset_rects obind]. destruct (wf_tight _ Ws) as [[_ He]|[? _]]; [|done]. rewrite He.
    assert (Ho : exists e, offset_rect no_rect x y = Ret e).
    { rewrite He in Hs. destruct Hs as (H1 & H2 & H3 & H4). unfold offset_rect. simpl in *.
      repeat (rewrite add_int_ok by lia; cbn [obind]). by eexists. }
    destruct Ho as [e ->]. cbn [obind]. eexists. splits; [reflexivity|by left|by intros []|]. done.
  - destruct (tight_inside _ _ (wf_banded _ Ws) Hn (wf_tight _ Ws)) as [Hi Hf].
    rewrite (offset_rects_ok x y (extents s)) by (done || apply banded_Forall_full, Ws). cbn [obind].
    rewrite (offset_rect_ok x y (extents s)) by (done || unfold inside; lia). cbn [obind].
    eexists. splits; [reflexivity|right; simpl; by apply shift_tight, Ws|by intros []|intros; apply shift_covers].
Qed.

Lemma crop_empty_ok c null : (forall px py, covers (rects s) px py && INRECT c px py = false) ->
  crops (Some c) (Ret (<[dst := crop_empty null d]> st)).
Proof.
  intros H. eexists. splits; [reflexivity|by left|intros _; by left|]. intros px py. simpl. by rewrite H.
Qed.
(** some rectangle ends below the top of the clipping rectangle *)
Lemma skip_above_some c : rects s <> [] -> top c < bottom (extents s) -> keep (fun a => top c <? bottom a) (rects s) <> [].
Proof.
  intros N H. destruct (tight_ne _ _ N (wf_tight _ Ws)) as (_ & _ & _ & _ & (px & (a & Ha & Hi%INRECT_iff)%covers_true)).
  intros E. assert (Hk : a ∈ keep (fun a => top c <? bottom a) (rects s)) by (apply keep_elem; split; [done|lia]).
  rewrite E in Hk. by apply elem_of_nil in Hk.
Qed.

(** the rectangles of the result *)
Definition cropped (c : RECT) : list RECT := map (shift x y) (map (isect c) (keep (overlaps c) (rects s))).
Lemma cropped_covers c px py : covers (cropped c) px py = covers (rects s) (px - x) (py - y) && INRECT c (px - x) (py - y).
Proof. unfold cropped. by rewrite shift_covers, isect_covers. Qed.

Lemma crop_rows c : rects s <> [] -> full c -> shift_fits x y (extents s) -> top c < bottom (extents s) ->
  exists l1 l2, skip_above (top c) (rects s) = Ret l1 /\ crop_loop c x y (take_above (bottom c) l1) = Ret l2 /\
    rev (fix_bottom (bottom c + y) (rev (fix_top (top c + y) l2))) = cropped c /\ map side (cropped c) = map side l2.
Proof.
  intros N [C1 C2] Hs Hb. destruct (tight_inside _ _ (wf_banded _ Ws) N (wf_tight _ Ws)) as [Hi He].
  pose proof (crop_steps c x y (rects s)) as Hst. cbv zeta in Hst. fold (cropped c) in Hst.
  set (k := keep _ (keep _ (rects s))) in Hst. set (k2 := keep _ k) in Hst.
  assert (Hk : forall a, a ∈ k -> a ∈ rects s /\ top c < bottom a /\ top a < bottom c).
  { intros a Ha. subst k. rewrite !keep_elem in Ha. splits; [tauto|lia|lia]. }
  assert (Hk2 : forall a, a ∈ k2 -> a ∈ k /\ left a < right c /\ left c < right a).
  { intros a Ha. subst k2. rewrite keep_elem in Ha. splits; [tauto|lia|lia]. }
  assert (Bk : banded k) by (apply keep_banded, keep_banded, Ws).
  assert (B1 : banded (map (cut_sides c x y) k2)).
  { apply cut_sides_banded; [by apply keep_banded|intros a Ha; by apply Hk2|done]. }
  eexists _, (map (cut_sides c x y) k2). splits.
  - apply skip_above_keep; [apply Ws|by apply skip_above_some].
  - rewrite take_above_keep by (apply keep_banded, Ws). fold k. apply (crop_loop_ok c x y (extents s)); [done| |by apply banded_Forall_full|done].
    apply list.Forall_forall. intros a [Ha _]%Hk. by apply (proj1 (list.Forall_forall _ _) Hi).
  - rewrite (fix_top_map _ _ B1), fix_bottom_map; [exact Hst|]. apply raise_top_banded; [done|].
    intros a (b & -> & Hb')%list_elem_of_fmap. apply Hk2 in Hb' as (Hb' & _). apply Hk in Hb'. simpl. lia.
  - rewrite <- Hst, !map_map. done.
Qed.

(** an empty region whose extents are taken to overlap the clipping rectangle *)
Definition crops_nothing (rect : option RECT) : Prop :=
  rects s = [] /\ exists c, rect = Some c /\ EXTENTCHECK c no_rect = true.

Lemma crop_faults rect null : crops_nothing rect -> REGION_CropAndOffsetRegion x y rect st src dst null = Fault.
Proof.
  intros (N & c & -> & H). unfold REGION_CropAndOffsetRegion, get. rewrite Es, Ed. cbn [obind].
  destruct (wf_tight _ Ws) as [[_ He]|[? _]]; [|done]. rewrite He, N, H. unfold EXTENTCHECK in H. simpl in H.
  replace ((right c <=? left c) || (bottom c <=? top c) || negb true) with false by lia.
  destruct (add_int (right no_rect) x) eqn:Ea; [|done|by destruct (add_int_no_spin _ _ Ea)].
  cbn [obind]. by destruct (add_int (left no_rect) x) eqn:Eb; [| |destruct (add_int_no_spin _ _ Eb)].
Qed.

Lemma crop_some_ok c null : ~ crops_nothing (Some c) -> shift_fits x y (extents s) -> (full c -> shift_fits x y c) ->
  crops (Some c) (REGION_CropAndOffsetRegion x y (Some c) st src dst null).
Proof.
  intros Hb Hs Hfit. unfold REGION_CropAndOffsetRegion, get. rewrite Es, Ed. cbn [obind]. case_match eqn:Ht.
  { apply crop_empty_ok. intros px py. destruct (covers (rects s) px py) eqn:Cv; [|done].
    assert (N : rects s <> []) by (intros N; by rewrite N in Cv).
    destruct (tight_ne _ _ N (wf_tight _ Ws)) as (I & _). apply I, INRECT_iff in Cv.
    unfold EXTENTCHECK, INRECT in *. lia. }
  assert (N : rects s <> []).
  { intros N. apply Hb. split; [done|]. exists c. split; [done|].
    destruct (wf_tight _ Ws) as [[_ He]|[? _]]; [|done]. rewrite He in Ht.
    by apply orb_false_iff in Ht as [_ Ht%negb_false_iff]. }
  assert (Hfc : full c) by (unfold full; lia). pose proof (Hfit Hfc) as Hc. clear Hb Hfit.
  destruct (tight_inside _ _ (wf_banded _ Ws) N (wf_tight _ Ws)) as [Hi He].
  unfold EXTENTCHECK in Ht. destruct (crop_rows c N Hfc Hs ltac:(lia)) as (l1 & l2 & E1 & E2 & Eo & Esd).
  unfold shift_fits, full in *. rewrite (add_int_ok (right (extents s))), (add_int_ok (left (extents s))) by lia. cbn [obind].
  rewrite E1. cbn [obind]. rewrite E2. cbn [obind]. set (d0 := if _ : bool then set_size d _ else d).
  destruct l2 as [|o os] eqn:El.
  { assert (Hn : cropped c = []) by (by apply map_eq_nil in Esd).
    eexists. splits; [reflexivity|by left|intros _; by left|]. intros px py. simpl in_clip. rewrite <- cropped_covers, Hn. done. }
  rewrite <- El in *. rewrite (add_int_ok (top c)), (add_int_ok (bottom c)) by lia. cbn [obind]. rewrite Eo.
  assert (Bo : banded (cropped c)) by (apply shift_banded, isect_banded; [done|apply Ws]).
  destruct (cropped c) as [|a k] eqn:Ec; [by rewrite El in Esd|].
  destruct (list.last (a :: k)) as [z|] eqn:Ez; [|by apply last_None in Ez]. rewrite <- Ec in *.
  eexists. splits; [reflexivity| | |intros px py; simpl; apply cropped_covers]; [right|intros _]; cbn [extents rects];
    (eapply crop_extents; [done|exact Ec|done|by apply banded_Forall_full| |done]);
    intros d' (b & -> & (b' & -> & [Hb _]%keep_elem)%list_elem_of_fmap)%list_elem_of_fmap;
    pose proof (proj1 (list.Forall_forall _ _) Hi b' Hb) as Hin; unfold inside in Hin; simpl; lia.
Qed.
End Crop.

(** ** REGION_CropRgn *)
Definition pt_of (lpPt : option (Z * Z)) : Z * Z := match lpPt with Some p => p | None => (0, 0) end.
Definition dest (newh hDst : Z) : Z := if hDst =? 0 then newh else hDst.

Section CropRgn.
Context (st : regions) (newh hDst hSrc : Z) (s : WINEREGION) (lpRect : option RECT) (lpPt : option (Z * Z)).
Context (Hst : wf_regions st) (Es : st !! hSrc = Some s).
Context (Hd : hDst <> 0 -> is_Some (st !! hDst)).
Let x := (pt_of lpPt).1.
Let y := (pt_of lpPt).2.

(** the call works in the destination, or in a new region that then gets the handle *)
Lemma REGION_CropRgn_eq : exists st' dst d null, st' !! hSrc = Some s /\ st' !! dst = Some d /\
  forall P : outcome (regions * Z) -> Prop,
    (REGION_CropAndOffsetRegion x y lpRect st' hSrc dst null = Fault -> P Fault) ->
    (forall g, REGION_CropAndOffsetRegion x y lpRect st' hSrc dst null = Ret (<[dst := g]> st') ->
       P (Ret (<[dest newh hDst := g]> st, dest newh hDst))) ->
    REGION_CropAndOffsetRegion x y lpRect st' hSrc dst null = Fault \/
    (exists g, REGION_CropAndOffsetRegion x y lpRect st' hSrc dst null = Ret (<[dst := g]> st')) ->
    P (REGION_CropRgn (Some newh) st hDst hSrc lpRect lpPt).
Proof.
  unfold REGION_CropRgn, dest. rewrite Es. fold (pt_of lpPt). rewrite (surjective_pairing (pt_of lpPt)). fold x y.
  destruct (Z.eqb_spec hDst 0) as [->|Hn]; simpl negb; cbv iota.
  - exists (<[new_key st := mkRgn 0 NULLREGION [] no_rect]> st), (new_key st), (mkRgn 0 NULLREGION [] no_rect), true.
    splits; [by rewrite lookup_insert_ne by (by eapply new_key_ne)|apply lookup_insert_eq|].
    intros P H1 H2 [E|[g E]]; rewrite E; cbn [obind]; [auto|]. unfold get. rewrite lookup_insert_eq. cbn [obind].
    rewrite insert_insert_eq, delete_insert_id by apply new_key_fresh. auto.
  - destruct (Hd Hn) as [d Ed]. rewrite Ed. exists st, hDst, d, false. splits; [done|done|].
    intros P H1 H2 [E|[g E]]; rewrite E; cbn [obind]; auto.
Qed.

Lemma REGION_CropRgn_faults : crops_nothing s lpRect ->
  REGION_CropRgn (Some newh) st hDst hSrc lpRect lpPt = Fault.
Proof.
  intros Hn. destruct REGION_CropRgn_eq as (st' & dst & d & null & E' & Ed & H).
  pose proof (crop_faults st' hSrc dst s d x y E' Ed (wf_lookup _ _ _ Hst Es) lpRect null Hn) as Hf.
  apply (H (fun o => o = Fault)); [done| |by left]. intros g Hg. by rewrite Hf in Hg.
Qed.

Lemma REGION_CropRgn_ok : ~ crops_nothing s lpRect -> shift_fits x y (extents s) ->
  (forall c, lpRect = Some c -> full c -> shift_fits x y c) ->
  exists g, REGION_CropRgn (Some newh) st hDst hSrc lpRect lpPt = Ret (<[dest newh hDst := g]> st, dest newh hDst) /\
  boxed g /\ (is_Some lpRect -> tight (extents g) (rects g)) /\
  forall px py, covers (rects g) px py = covers (rects s) (px - x) (py - y) && in_clip lpRect (px - x) (py - y).
Proof.
  intros Hn Hfit Hrect. pose proof (wf_lookup _ _ _ Hst Es) as Ws.
  destruct REGION_CropRgn_eq as (st' & dst & d & null & E' & Ed & H).
  assert (Hc : crops st' dst s x y lpRect (REGION_CropAndOffsetRegion x y lpRect st' hSrc dst null)).
  { clear H. revert Hn Hrect. destruct lpRect as [c|]; intros Hn Hrect; [|by apply (crop_none_ok st' hSrc dst s d)].
    apply (crop_some_ok st' hSrc dst s d); auto. }
  destruct Hc as (g & Hg & Hrest). exists g. split; [|exact Hrest].
  apply (H (fun o => o = Ret (<[dest newh hDst := g]> st, dest newh hDst))); [by rewrite Hg| |right; by exists g].
  intros g' Hg'. rewrite Hg in Hg'. injection Hg' as Heq. apply (f_equal (lookup dst)) in Heq.
  rewrite !lookup_insert_eq in Heq. by injection Heq as ->.
Qed.
End CropRgn.

(** [e] is the least rectangle around the points of [P]; no points, no rectangle *)
Definition least_box (P : Z -> Z -> bool) (e : RECT) : Prop :=
  (forall px py, P px py = true -> INRECT e px py = true) /\
  (forall e', (forall px py, P px py = true -> INRECT e' px py = true) -> (exists px py, P px py = true) -> inside e' e) /\
  ((forall px py, P px py = false) -> e = no_rect).
Lemma tight_least_box e l : tight e l -> least_box (covers l) e.
Proof.
  intros [[-> ->]|(N & I & (y1 & A1) & (y2 & A2) & (x3 & A3) & (x4 & A4))].
  - split; [done|]. split; [by intros e' _ (px & py & H)|done].
  - split; [done|]. split; [|intros H; by rewrite H in A1]. intros e' H _.
    apply H, INRECT_iff in A1, A2, A3, A4. unfold inside. lia.
Qed.

(** C36: REGION_CropRgn, into a new region or into an old one that may be the
    source, with or without a rectangle and an offset, when no coordinate leaves
    an int: the result has exactly the points of the source inside the
    rectangle, moved, no other region changes, and with a rectangle its box is
    the least one.  An empty source with a rectangle around the origin faults. *)
Theorem REGION_CropRgn_points st newh hDst hSrc s lpRect lpPt :
  wf_regions st -> st !! hSrc = Some s -> (hDst <> 0 -> is_Some (st !! hDst)) ->
  let x := (pt_of lpPt).1 in let y := (pt_of lpPt).2 in
  shift_fits x y (extents s) -> (forall c, lpRect = Some c -> full c -> shift_fits x y c) ->
  (crops_nothing s lpRect -> REGION_CropRgn (Some newh) st hDst hSrc lpRect lpPt = Fault) /\
  (~ crops_nothing s lpRect ->
   let h := if hDst =? 0 then newh else hDst in
   exists st', REGION_CropRgn (Some newh) st hDst hSrc lpRect lpPt = Ret (st', h) /\
     (forall px py, PtInRegion st' h px py = PtInRegion st hSrc (px - x) (py - y) && in_clip lpRect (px - x) (py - y)) /\
     (forall k, k <> h -> st' !! k = st !! k) /\
     (is_Some lpRect -> exists e, (GetRgnBox st' h).1 = Some e /\ least_box (PtInRegion st' h) e)).
Proof.
  intros Hst Es Hd x y Hfit Hrect. split; [by apply REGION_CropRgn_faults|]. intros Hn h.
  destruct (REGION_CropRgn_ok st newh hDst hSrc s lpRect lpPt Hst Es Hd Hn Hfit Hrect) as (g & E & B & T & X).
  fold (dest newh hDst) in h. exists (<[h := g]> st).
  assert (P : forall px py, PtInRegion (<[h := g]> st) h px py = covers (rects g) px py).
  { intros px py. by rewrite (PtInRegion_boxed _ _ g) by (done || apply lookup_insert_eq). }
  splits; [exact E| | |].
  - intros px py. rewrite P, X. by rewrite (PtInRegion_covers st hSrc s).
  - intros k Hk. by rewrite lookup_insert_ne.
  - intros HS. exists (extents g). unfold GetRgnBox. rewrite lookup_insert_eq. split; [done|].
    unfold least_box. setoid_rewrite P. by apply tight_least_box, T.
Qed.

(** an L of two bands *)
Definition ell : WINEREGION :=
  mkRgn 4 COMPLEXREGION [mkRect 0 0 10 10; mkRect 0 10 5 20] (mkRect 0 0 10 20).
Definition shapes : regions := <[1 := ell]> ∅.
Lemma ell_wf : wf_regions shapes.
Proof.
  apply wf_insert; [apply map_Forall_empty|]. split; simpl; try done.
  - splits; [unfold full; simpl; lia|repeat constructor; unfold follows; simpl; lia|unfold full; simpl; lia|constructor|done].
  - intros a Ha E. apply elem_of_cons in Ha as [->|Ha]; [specialize (E 7); discriminate E|].
    apply list_elem_of_singleton in Ha as ->. specialize (E 0). discriminate E.
  - right. splits; [done| |by exists 0|by exists 0|by exists 0|by exists 0].
    intros x y (c & Hc & Hi%INRECT_iff)%covers_true. apply INRECT_iff.
    apply elem_of_cons in Hc as [->|Hc]; [|apply list_elem_of_singleton in Hc as ->]; simpl in *; lia.
Qed.
Lemma REGION_CropRgn_points_witness :
  exists st', REGION_CropRgn (Some 7) shapes 1 1 (Some (mkRect 2 2 20 15)) (Some (100, -5)) = Ret (st', 1) /\
    (forall px py, PtInRegion st' 1 px py =
       PtInRegion shapes 1 (px - 100) (py - -5) && in_clip (Some (mkRect 2 2 20 15)) (px - 100) (py - -5)) /\
    (forall k, k <> 1 -> st' !! k = shapes !! k) /\
    (is_Some (Some (mkRect 2 2 20 15)) -> exists e, (GetRgnBox st' 1).1 = Some e /\ least_box (PtInRegion st' 1) e).
Proof.
  apply (REGION_CropRgn_points shapes 7 1 1 ell (Some (mkRect 2 2 20 15)) (Some (100, -5))).
  - exact ell_wf.
  - reflexivity.
  - intros _. by exists ell.
  - unfold shift_fits; simpl; lia.
  - intros c [= <-] _. unfold shift_fits; simpl; lia.
  - intros [H _]. discriminate H.
Defined.

(** Cropping does not merge bands that have become equal: the region it
    gives and the intersection with the rectangle that CombineRgn gives have the
    same points, but GetRgnBox and EqualRgn tell them apart. *)
Theorem crop_not_canonical :
  exists st1 st2 st3, REGION_CropRgn (Some 7) shapes 0 1 (Some (mkRect 0 0 5 20)) None = Ret (st1, 7) /\
    CreateRectRgn (Some 8) st1 0 0 5 20 = Ret (st2, 8) /\ CombineRgn st2 8 1 8 RGN_AND = Ret (st3, SIMPLEREGION) /\
    (forall px py, PtInRegion st3 7 px py = PtInRegion st3 8 px py) /\
    (GetRgnBox st3 7).2 = COMPLEXREGION /\ EqualRgn st3 7 8 = false.
Proof.
  eexists _, _, _. split; [vm_compute; reflexivity|]. split; [vm_compute; reflexivity|]. split; [vm_compute; reflexivity|].
  split; [|by vm_compute]. intros px py. unfold PtInRegion.
  repeat match goal with |- context [?m !! ?k] => let v := eval vm_compute in (m !! k) in change (m !! k) with v end.
  cbv iota. unfold INRECT, numRects, zlen. simpl. lia.
Qed.

(** ** Frames *)
Definition grow (x y : Z) (r : RECT) : RECT := mkRect (left r - x) (top r - y) (right r + x) (bottom r + y).
Definition grow_fits (x y : Z) (e : RECT) : Prop :=
  - 2 ^ 31 <= left e - x /\ right e + x < 2 ^ 31 /\ - 2 ^ 31 <= top e - y /\ bottom e + y < 2 ^ 31.
Lemma sub_int_ok a b : - 2 ^ 31 <= a - b < 2 ^ 31 -> sub_int a b = Ret (a - b).
Proof. intros H. unfold sub_int. by replace ((- 2 ^ 31 <=? a - b) && (a - b <? 2 ^ 31)) with true by lia. Qed.
Lemma inflate_ok x y e r : 0 <= x -> 0 <= y -> grow_fits x y e -> inside e r -> full r -> inflate r x y = Ret (grow x y r).
Proof.
  unfold grow_fits, inside, full. intros Hx Hy H1 H2 H3. unfold inflate.
  rewrite (sub_int_ok (left r)) by lia. cbn [obind]. rewrite (sub_int_ok (top r)) by lia. cbn [obind].
  rewrite (add_int_ok (right r)) by lia. cbn [obind]. by rewrite (add_int_ok (bottom r)) by lia.
Qed.
Lemma union_inflated_eq x y e h l : forall st, 0 <= x -> 0 <= y -> grow_fits x y e -> Forall (inside e) l -> Forall full l ->
  union_inflated l x y st h = union_rects (map (grow x y) l) st h.
Proof.
  induction l as [|a l IH]; intros st Hx Hy Hg Hi Hf; [done|]. apply list.Forall_cons in Hi as [Ha Hi].
  apply list.Forall_cons in Hf as [Fa Hf]. simpl. rewrite (inflate_ok x y e) by done. cbn [obind].
  destruct REGION_UnionRectWithRegion; simpl; auto.
Qed.
(** a rectangle grown by [x], [y] has the points near it *)
Lemma grow_covers x y l px py : 0 <= x -> 0 <= y -> Forall full l ->
  covers (map (grow x y) l) px py = true <-> exists qx qy, covers l qx qy = true /\ Z.abs (px - qx) <= x /\ Z.abs (py - qy) <= y.
Proof.
  intros Hx Hy Hf. rewrite covers_true. setoid_rewrite covers_true. split.
  - intros (r & (a & -> & Ha)%list_elem_of_fmap & Hi%INRECT_iff). simpl in Hi.
    pose proof (proj1 (list.Forall_forall _ _) Hf a Ha) as [F1 F2].
    exists (Z.max (left a) (Z.min px (right a - 1))), (Z.max (top a) (Z.min py (bottom a - 1))). splits; [|lia|lia].
    exists a. split; [done|]. apply INRECT_iff. lia.
  - intros (qx & qy & (a & Ha & Hi%INRECT_iff) & H1 & H2). exists (grow x y a). split; [apply list_elem_of_fmap; by exists a|].
    apply INRECT_iff. simpl. lia.
Qed.

(** REGION_FrameRgn makes the region of the points that are not in the
    source and are within [x] columns and [y] rows of a point of it. *)
Theorem REGION_FrameRgn_points st hDest hSrc s d x y :
  wf_regions st -> st !! hSrc = Some s -> st !! hDest = Some d -> hDest <> hSrc -> rects s <> [] ->
  0 <= x -> 0 <= y -> grow_fits x y (extents s) ->
  exists st', REGION_FrameRgn st hDest hSrc x y = Ret (st', true) /\ wf_regions st' /\
    (forall px py, PtInRegion st' hDest px py = true <->
      PtInRegion st hSrc px py = false /\
      exists qx qy, PtInRegion st hSrc qx qy = true /\ Z.abs (px - qx) <= x /\ Z.abs (py - qy) <= y).
Proof.
  intros Hst Es Ed Hne N Hx Hy Hg. pose proof (wf_lookup _ _ _ Hst Es) as Ws. pose proof (wf_lookup _ _ _ Hst Ed) as Wd.
  destruct (tight_inside _ _ (wf_banded _ Ws) N (wf_tight _ Ws)) as [Hi _].
  pose proof (banded_Forall_full _ (wf_banded _ Ws)) as Hf.
  assert (Wm : wf (EMPTY_REGION d)).
  { destruct Wd. split; simpl; try done; [by intros a ?%elem_of_nil|by left|]. unfold numRects. simpl. rewrite zlen_nil. lia. }
  assert (Fg : Forall full (map (grow x y) (rects s))).
  { apply Forall_map. eapply list.Forall_impl; [exact Hf|]. intros a. unfold full, grow. simpl. lia. }
  unfold REGION_FrameRgn. rewrite Es. replace (numRects s =? 0) with false by (symmetry; apply Z.eqb_neq; by intros ?%numRects_0).
  unfold get. rewrite Ed. cbn [obind]. rewrite lookup_insert_ne, Es by done. cbn [obind].
  rewrite (union_inflated_eq x y (extents s)) by done.
  destruct (union_rects_ok (map (grow x y) (rects s)) (<[hDest := EMPTY_REGION d]> st) hDest _ (lookup_insert_eq _ _ _) Wm Fg)
    as (u & -> & Wu & Xu). cbn [obind]. rewrite insert_insert_eq.
  destruct (REGION_SubtractRegion_ok (<[hDest := u]> st) hDest hSrc hDest u s u) as (g & -> & Wgr & Xg); try done;
    [apply lookup_insert_eq|by rewrite lookup_insert_ne|apply lookup_insert_eq|tauto|].
  cbn [obind]. rewrite insert_insert_eq. pose proof (wf_insert st hDest g Hst Wgr) as Hst'.
  eexists. splits; [reflexivity|done|]. intros px py.
  rewrite (PtInRegion_covers _ hDest g), (PtInRegion_covers st hSrc s), Xg, Xu by (done || apply lookup_insert_eq).
  setoid_rewrite (fun a b => PtInRegion_covers st hSrc s a b Hst Es). simpl orb.
  rewrite andb_true_iff, negb_true_iff, grow_covers by done. tauto.
Qed.
Lemma REGION_FrameRgn_points_witness :
  exists st', REGION_FrameRgn squares 2 1 3 4 = Ret (st', true) /\ wf_regions st' /\
    (forall px py, PtInRegion st' 2 px py = true <->
      PtInRegion squares 1 px py = false /\
      exists qx qy, PtInRegion squares 1 qx qy = true /\ Z.abs (px - qx) <= 3 /\ Z.abs (py - qy) <= 4).
Proof.
  apply (REGION_FrameRgn_points squares 2 1 sq1 sq2).
  - exact squares_wf.
  - reflexivity.
  - reflexivity.
  - discriminate.
  - discriminate.
  - lia.
  - lia.
  - unfold grow_fits; simpl; lia.
Defined.

End RegionCrop.
