(* ===== verification/RegionCalls.v ===== *)
(** * Regions: the stores that calls can reach

    Sequences of calls of dlls/gdi/region.c that make, combine, move, frame, copy
    and delete regions: every store they reach from the empty one is well
    formed. *)
From stdpp Require Import gmap relations.
From S2P Require Import Prelude Rect Region RegionBand RegionMerge RegionSweep RegionOps RegionSpec RegionData RegionCrop.
Import Rect Region RegionBand RegionMerge RegionSweep RegionOps RegionSpec RegionData RegionCrop.

Module RegionCalls.

#[local] Arguments covers : simpl never.

(** One call that returned.  Left out are the uses that break the form of a
    region: a region that is not empty subtracted from itself into itself
    ([CombineRgn_points]), empty rectangles and data of no rectangles, frames of
    a negative width, and REGION_CropRgn with a clipping rectangle
    ([crop_not_canonical]) or of an empty region. *)
Inductive call : regions -> regions -> Prop :=
  | call_create st newh l t r b st' h : st !! newh = None ->
      CreateRectRgn (Some newh) st l t r b = Ret (st', h) -> call st st'
  | call_create16 st newh l t r b st' h : st !! newh = None ->
      CreateRectRgn16 (Some newh) st l t r b = Ret (st', h) -> call st st'
  | call_set st h l t r b st' ok : SetRectRgn st h l t r b = Ret (st', ok) -> call st st'
  | call_set16 st h l t r b st' ok : SetRectRgn16 st h l t r b = Ret (st', ok) -> call st st'
  | call_combine st hDest hSrc1 hSrc2 mode st' ret :
      ~ (mode = RGN_DIFF /\ hDest = hSrc1 /\ hDest = hSrc2 /\ exists g, st !! hDest = Some g /\ rects g <> []) ->
      CombineRgn st hDest hSrc1 hSrc2 mode = Ret (st', ret) -> call st st'
  | call_offset st h x y st' ret : OffsetRgn st h x y = Ret (st', ret) -> call st st'
  | call_union st h rect st' ok : full rect -> REGION_UnionRectWithRgn st h rect = Ret (st', ok) -> call st st'
  | call_ext st newh d st' h : st !! newh = None -> 1 <= nCount d -> Forall full (Buffer d) ->
      ExtCreateRegion (Some newh) st d = Ret (st', h) -> call st st'
  | call_frame st hDest hSrc x y st' ok : 0 <= x -> 0 <= y ->
      REGION_FrameRgn st hDest hSrc x y = Ret (st', ok) -> call st st'
  | call_copy st newh hDst hSrc s lpPt st' h : st !! newh = None -> st !! hSrc = Some s -> rects s <> [] ->
      REGION_CropRgn (Some newh) st hDst hSrc None lpPt = Ret (st', h) -> call st st'
  | call_delete st h : call st (REGION_DeleteObject st h).

Lemma add_int_inv a b v : add_int a b = Ret v -> v = a + b /\ - 2 ^ 31 <= a + b < 2 ^ 31.
Proof. unfold add_int. case_match eqn:E; [|done]. intros [= <-]. split; [done|]. lia. Qed.
Lemma offset_rect_inv r x y r' : offset_rect r x y = Ret r' -> shift_fits x y r.
Proof.
  unfold offset_rect. destruct (add_int (left r) x) eqn:E1; try done. cbn [obind].
  destruct (add_int (right r) x) eqn:E2; try done. cbn [obind].
  destruct (add_int (top r) y) eqn:E3; try done. cbn [obind].
  destruct (add_int (bottom r) y) eqn:E4; try done. intros _.
  apply add_int_inv in E1, E2, E3, E4. unfold shift_fits. lia.
Qed.
Lemma OffsetRgn_inv (st : regions) h r x y res : st !! h = Some r -> wf r -> OffsetRgn st h x y = Ret res ->
  exists d, res = (<[h := d]> st, rtype d) /\ wf d.
Proof.
  intros E W H. destruct (decide (x = 0 /\ y = 0)) as [[-> ->]|Hxy].
  { unfold OffsetRgn in H. rewrite E in H. simpl in H. injection H as <-. exists r. by split. }
  destruct (decide (rects r = [])) as [N|N].
  { destruct (OffsetRgn_ok st h r x y E W) as (d & E' & Wd & _); [done|]. exists d. split; [congruence|done]. }
  destruct (OffsetRgn_ok st h r x y E W) as (d & E' & Wd & _); [intros _|exists d; split; [congruence|done]].
  unfold OffsetRgn in H. rewrite E in H.
  assert (Hn : numRects r <> 0) by (by intros ?%numRects_0).
  replace ((negb (x =? 0) || negb (y =? 0)) && negb (numRects r =? 0)) with true in H by lia.
  destruct (offset_rects (rects r) x y); try done. cbn [obind] in H.
  destruct (offset_rect (extents r) x y) eqn:Eo; try done. by eapply offset_rect_inv.
Qed.

Lemma CombineRgn_inv st hDest hSrc1 hSrc2 mode st' ret : wf_regions st ->
  ~ (mode = RGN_DIFF /\ hDest = hSrc1 /\ hDest = hSrc2 /\ exists g, st !! hDest = Some g /\ rects g <> []) ->
  CombineRgn st hDest hSrc1 hSrc2 mode = Ret (st', ret) -> wf_regions st'.
Proof.
  intros Hst Hd H. pose proof H as H0. unfold CombineRgn in H.
  destruct (st !! hDest) as [n|] eqn:En; [|by injection H as <-].
  destruct (st !! hSrc1) as [g1|] eqn:E1; [|by injection H as <-].
  destruct (Z.eqb_spec mode RGN_COPY) as [->|Hc].
  { destruct (REGION_CopyRegion_ok st hDest hSrc1 n g1 En E1) as (d & Ec & W & _); [by eapply wf_lookup|by eapply wf_lookup|].
    rewrite Ec in H. cbn [obind] in H. unfold get in H. rewrite lookup_insert_eq in H. injection H as <- _. by apply wf_insert. }
  destruct (st !! hSrc2) as [g2|] eqn:E2; [|by injection H as <-].
  destruct (decide (mode ∈ [RGN_AND; RGN_OR; RGN_XOR; RGN_DIFF; RGN_COPY])) as [Hm|Hm].
  - destruct (combine_makes st hDest hSrc1 hSrc2 g1 g2 n mode Hst E1 E2 En Hm) as (d & E & W & _).
    { intros (<- & <- & N & [-> | ->]); [|apply Hd; splits; [done|done|done|by exists n]].
      unfold CombineRgn in H0. rewrite En in H0. simpl in H0.
      by rewrite IntersectRegion_self with (g := n) in H0 by (done || by eapply wf_lookup). }
    rewrite E in H0. injection H0 as <- _. by apply wf_insert.
  - rewrite !not_elem_of_cons in Hm. destruct Hm as (M1 & M2 & M3 & M4 & _).
    rewrite !(proj2 (Z.eqb_neq _ _)) in H by done. cbn [obind] in H. unfold get in H. rewrite En in H. by injection H as <-.
Qed.

Lemma ExtCreateRegion_inv (st : regions) newh d st' h : wf_regions st -> st !! newh = None -> 1 <= nCount d ->
  Forall full (Buffer d) -> ExtCreateRegion (Some newh) st d = Ret (st', h) -> wf_regions st'.
Proof.
  intros Hst E Hn Hf H. unfold ExtCreateRegion in H. destruct (negb _); [by injection H as <-|].
  pose proof (wf_insert st newh _ Hst (wf_alloc _ Hn)) as Hst1.
  simpl in H. destruct (newh =? 0); [by injection H as <- _|]. case_match; [done|].
  destruct (union_rects_ok (take (Z.to_nat (nCount d)) (Buffer d)) (<[newh := REGION_AllocWineRegion (nCount d)]> st) newh _
    (lookup_insert_eq _ _ _) (wf_alloc _ Hn)) as (g & Eg & W & _); [by apply Forall_take|].
  rewrite Eg in H. injection H as <- _. rewrite insert_insert_eq. by apply wf_insert.
Qed.
Lemma SetRectRgn_inv (st : regions) h l t r b st' ok : wf_regions st -> SetRectRgn st h l t r b = Ret (st', ok) -> wf_regions st'.
Proof.
  intros Hst H. destruct (st !! h) as [n|] eqn:E; [|unfold SetRectRgn in H; rewrite E in H; by injection H as <-].
  destruct (SetRectRgn_ok st h n l t r b E (wf_lookup _ _ _ Hst E)) as (d & Es & W & _).
  rewrite Es in H. injection H as <- _. by apply wf_insert.
Qed.

Lemma SetRectRgn16_inv (st : regions) h l t r b st' ok : wf_regions st -> SetRectRgn16 st h l t r b = Ret (st', ok) -> wf_regions st'.
Proof. unfold SetRectRgn16. intros Hst H. by case_match; eapply SetRectRgn_inv. Qed.

Lemma EMPTY_REGION_wf d : wf d -> wf (EMPTY_REGION d).
Proof.
  intros []. split; simpl; try done; [by intros a ?%elem_of_nil|by left|]. unfold numRects. simpl. rewrite zlen_nil. lia.
Qed.

(** frames *)
Lemma inflate_cases r x y : inflate r x y = Fault \/ inflate r x y = Ret (grow x y r).
Proof. unfold inflate, add_int, sub_int. repeat (case_match; cbn [obind]; [|by left]). by right. Qed.
Lemma union_inflated_inv x y h l : forall st st', union_inflated l x y st h = Ret st' ->
  union_rects (map (grow x y) l) st h = Ret st'.
Proof.
  induction l as [|a l IH]; intros st st' H; [done|]. simpl in *.
  destruct (inflate_cases a x y) as [E|E]; rewrite E in H; cbn [obind] in H; [done|].
  destruct REGION_UnionRectWithRegion; simpl in *; [auto|done|done].
Qed.
Lemma FrameRgn_inv st hDest hSrc x y st' ok : wf_regions st -> 0 <= x -> 0 <= y ->
  REGION_FrameRgn st hDest hSrc x y = Ret (st', ok) -> wf_regions st'.
Proof.
  intros Hst Hx Hy H. unfold REGION_FrameRgn in H. destruct (st !! hSrc) as [s|] eqn:Es; [|by injection H as <-].
  destruct (numRects s =? 0); [by injection H as <-|]. unfold get in H.
  destruct (st !! hDest) as [d|] eqn:Ed; [|done]. cbn [obind] in H.
  pose proof (EMPTY_REGION_wf d (wf_lookup _ _ _ Hst Ed)) as Wd.
  set (st1 := <[hDest := EMPTY_REGION d]> st) in *. assert (Hst1 : wf_regions st1) by (by apply wf_insert).
  assert (E1 : st1 !! hDest = Some (EMPTY_REGION d)) by apply lookup_insert_eq.
  destruct (st1 !! hSrc) as [s1|] eqn:Es1; [|done]. cbn [obind] in H.
  pose proof (wf_lookup _ _ _ Hst1 Es1) as Ws1.
  destruct (union_inflated (rects s1) x y st1 hDest) as [st2| |] eqn:Eu; [|done|done]. cbn [obind] in H.
  apply union_inflated_inv in Eu.
  destruct (union_rects_ok (map (grow x y) (rects s1)) st1 hDest _ E1 Wd) as (u & Eu' & Wu & _).
  { apply Forall_map. eapply list.Forall_impl; [apply banded_Forall_full, Ws1|]. intros a. unfold full, grow. simpl. lia. }
  rewrite Eu' in Eu. injection Eu as <-.
  assert (Hs2 : exists s2, <[hDest := u]> st1 !! hSrc = Some s2 /\ wf s2 /\ (hDest = hSrc -> s2 = u)).
  { destruct (decide (hDest = hSrc)) as [<-|Hne]; [exists u; by rewrite lookup_insert_eq|].
    exists s1. by rewrite lookup_insert_ne. }
  destruct Hs2 as (s2 & Es2 & Ws2 & Hu).
  destruct (REGION_SubtractRegion_ok (<[hDest := u]> st1) hDest hSrc hDest u s2 u) as (g & Eg & Wg & _); try done;
    [apply lookup_insert_eq|apply lookup_insert_eq| |].
  { intros (_ & Heq & N). apply N. rewrite <- Heq, E1 in Es1. injection Es1 as <-. simpl in Eu'. injection Eu' as Eu'.
    apply (f_equal (lookup hDest)) in Eu'. rewrite E1, lookup_insert_eq in Eu'. by injection Eu' as <-. }
  rewrite Eg in H. injection H as <- _. apply wf_insert; [by apply wf_insert|done].
Qed.

(** copies of a region that is not empty, moved *)
Lemma offset_rect_cases r x y : offset_rect r x y = Fault \/ offset_rect r x y = Ret (shift x y r).
Proof. unfold offset_rect, add_int. repeat (case_match; cbn [obind]; [|by left]). by right. Qed.
Lemma offset_rects_cases l x y : offset_rects l x y = Fault \/ offset_rects l x y = Ret (map (shift x y) l).
Proof.
  induction l as [|a l IH]; [by right|]. simpl.
  destruct (offset_rect_cases a x y) as [-> | ->]; cbn [obind]; [by left|]. destruct IH as [-> | ->]; [by left|by right].
Qed.
Lemma crop_none_cases (st : regions) src dst s d x y null :
  st !! src = Some s -> st !! dst = Some d -> wf s -> rects s <> [] ->
  REGION_CropAndOffsetRegion x y None st src dst null = Fault \/
  exists g, REGION_CropAndOffsetRegion x y None st src dst null = Ret (<[dst := g]> st) /\ wf g.
Proof.
  intros Es Ed Ws N. unfold REGION_CropAndOffsetRegion, get. rewrite Es, Ed. cbn [obind].
  destruct (Z.eqb_spec dst src) as [->|_]; simpl andb.
  - destruct (_ && _) eqn:Hz; [right; exists s; by rewrite insert_id|].
    destruct (negb _ || negb _); [|right; by exists s].
    destruct (offset_rects_cases (rects s) x y) as [-> | ->]; cbn [obind]; [by left|].
    destruct (offset_rect_cases (extents s) x y) as [-> | ->]; cbn [obind]; [by left|].
    right. eexists. split; [reflexivity|by apply shift_wf].
  - destruct (negb _ || negb _); [|right; by exists s].
    destruct (offset_rects_cases (rects s) x y) as [-> | ->]; cbn [obind]; [by left|].
    destruct (offset_rect_cases (extents s) x y) as [-> | ->]; cbn [obind]; [by left|].
    right. eexists. split; [reflexivity|by apply shift_wf].
Qed.
Lemma CropRgn_inv st newh hDst hSrc s lpPt st' h : wf_regions st -> st !! hSrc = Some s -> rects s <> [] ->
  REGION_CropRgn (Some newh) st hDst hSrc None lpPt = Ret (st', h) -> wf_regions st'.
Proof.
  intros Hst Es N H. destruct (decide (hDst <> 0 /\ st !! hDst = None)) as [[Hz Hn]|Hd].
  { unfold REGION_CropRgn in H. rewrite Es, Hn in H. destruct lpPt as [[x y]|]; rewrite (proj2 (Z.eqb_neq _ _) Hz) in H;
      simpl in H; by injection H as <-. }
  assert (Hd' : hDst <> 0 -> is_Some (st !! hDst)).
  { intros Hz. destruct (st !! hDst) eqn:E; [done|]. exfalso. by apply Hd. }
  destruct (REGION_CropRgn_eq st newh hDst hSrc s None lpPt Es Hd') as (st1 & dst & d & null & E1 & Ed & Heq).
  pose proof (crop_none_cases st1 hSrc dst s d (pt_of lpPt).1 (pt_of lpPt).2 null E1 Ed (wf_lookup _ _ _ Hst Es) N) as Hc.
  revert H. apply Heq; [done| |].
  - intros g Hg [= <- _]. destruct Hc as [Hc|(g' & Hc & W)]; rewrite Hc in Hg; [done|]. injection Hg as Hg.
    apply (f_equal (lookup dst)) in Hg. rewrite !lookup_insert_eq in Hg. injection Hg as ->. by apply wf_insert.
  - destruct Hc as [Hc|(g & Hc & _)]; [by left|right; by exists g].
Qed.

Lemma call_wf st st' : call st st' -> wf_regions st -> wf_regions st'.
Proof.
  intros H Hst. destruct H as [st newh l t r b st' h E H|st newh l t r b st' h E H|st h l t r b st' ok H|st h l t r b st' ok H|st hDest hSrc1 hSrc2 mode st' ret Hd H
    |st h x y st' ret H|st h rect st' ok Hf H|st newh d st' h E Hn Hf H|st hDest hSrc x y st' ok Hx Hy H
    |st newh hDst hSrc s lpPt st' h E Es N H|st h].
  - unfold CreateRectRgn in H. simpl in H. destruct (newh =? 0); [injection H as <- _; by apply wf_insert, wf_alloc|].
    destruct SetRectRgn as [[s1 ok]| |] eqn:Es; try done. injection H as <- _.
    by eapply SetRectRgn_inv; [|exact Es]; apply wf_insert, wf_alloc.
  - unfold CreateRectRgn16 in H. simpl in H. destruct (newh =? 0); [injection H as <- _; by apply wf_insert, wf_alloc|].
    destruct SetRectRgn16 as [[s1 ok]| |] eqn:Es; try done. injection H as <- _.
    by eapply SetRectRgn16_inv; [|exact Es]; apply wf_insert, wf_alloc.
  - by eapply SetRectRgn_inv.
  - by eapply SetRectRgn16_inv.
  - by eapply CombineRgn_inv.
  - destruct (st !! h) as [r|] eqn:E; [|unfold OffsetRgn in H; rewrite E in H; by injection H as <-].
    destruct (OffsetRgn_inv st h r x y _ E (wf_lookup _ _ _ Hst E) H) as (d & [= -> _] & W). by apply wf_insert.
  - unfold REGION_UnionRectWithRgn in H. destruct (st !! h) as [r|] eqn:E; [|by injection H as <-].
    destruct (REGION_UnionRectWithRegion_ok st h r E (wf_lookup _ _ _ Hst E) rect Hf) as (d & Eu & W & _).
    rewrite Eu in H. injection H as <- _. by apply wf_insert.
  - by eapply ExtCreateRegion_inv.
  - exact (FrameRgn_inv _ _ _ _ _ _ _ Hst Hx Hy H).
  - exact (CropRgn_inv _ _ _ _ _ _ _ _ Hst Es N H).
  - by apply map_Forall_delete.
Qed.

(** C7: after any sequence of the calls of [call], which return, from no region,
    every region has its rectangles in bands from top to bottom and from left to
    right with gaps, no two bands that could be merged, the least box around its
    points, the type for its number of rectangles, and an array that holds them.
    The calls are those that create, set, combine, move, unite with a rectangle,
    read from data, frame, copy and delete, on any handles; not among them are a
    region that is not empty minus itself into itself, a union with an empty
    rectangle, data of no or of empty rectangles, frames of negative width, and
    cropping with a rectangle or of an empty region, which do not keep this
    form. *)
Theorem reachable_regions_wf st : rtc call ∅ st -> wf_regions st.
Proof.
  intros H. assert (H0 : wf_regions ∅) by apply map_Forall_empty. revert H0.
  induction H as [|st1 st2 st3 Hc _ IH]; [done|]. intros H1. apply IH. by eapply call_wf.
Qed.
Lemma reachable_regions_wf_witness :
  wf_regions (<[1 := mkRgn 2 SIMPLEREGION [mkRect 0 0 4 4] (mkRect 0 0 4 4)]> ∅).
Proof.
  apply (reachable_regions_wf (<[1 := mkRgn 2 SIMPLEREGION [mkRect 0 0 4 4] (mkRect 0 0 4 4)]> ∅)).
  apply rtc_once. apply (call_create ∅ 1 4 0 0 4 _ 1); reflexivity.
Defined.

End RegionCalls.
