(* ===== verification/Digest.v ===== *)
(** * Message digests (dlls/advapi32/crypt_md5.c and crypt_sha.c)

    The MD5 and SHA-1 contexts, fed with buffers of any length.  Words are
    32 bits wide; the byte order of the host is little-endian and a ULONG has
    32 bits.  Buffers are lists of bytes, and a copy outside of one faults. *)
From S2P Require Import Prelude.

Module Digest.

(** ** Bytes and words *)

Definition zeros (n : Z) : list Z := replicate (Z.to_nat n) 0.
(** memset with zero *)
Definition clear (l : list Z) (off n : Z) : outcome (list Z) := if n <? 0 then Fault else put_bytes l off (zeros n).

Definition le_bytes (w : Z) : list Z := [u8 w; u8 (Z.shiftr w 8); u8 (Z.shiftr w 16); u8 (Z.shiftr w 24)].
Definition be_bytes (w : Z) : list Z := [u8 (Z.shiftr w 24); u8 (Z.shiftr w 16); u8 (Z.shiftr w 8); u8 w].
(** the words of a block in the byte order of the host *)
Fixpoint le_words (l : list Z) : list Z :=
  match l with
  | b0 :: b1 :: b2 :: b3 :: l =>
    Z.lor (Z.lor b0 (Z.shiftl b1 8)) (Z.lor (Z.shiftl b2 16) (Z.shiftl b3 24)) :: le_words l
  | _ => []
  end.
Fixpoint be_words (l : list Z) : list Z :=
  match l with
  | b0 :: b1 :: b2 :: b3 :: l =>
    Z.lor (Z.lor (Z.lor (u32 (Z.shiftl b0 24)) (u32 (Z.shiftl b1 16))) (u32 (Z.shiftl b2 8))) (u32 (Z.shiftl b3 0)) :: be_words l
  | _ => []
  end.
Definition not32 (x : Z) : Z := u32 (Z.lnot x).
Definition rol (x y : Z) : Z := Z.lor (u32 (Z.shiftl x y)) (Z.shiftr x (32 - y)).

(** ** MD5 *)
Record MD5_CTX := mkMD5 { i0 : Z; i1 : Z; buf : list Z; in_ : list Z; digest : list Z }.

Definition F1 (x y z : Z) : Z := Z.lxor z (Z.land x (Z.lxor y z)).
Definition F2 (x y z : Z) : Z := F1 z x y.
Definition F3 (x y z : Z) : Z := Z.lxor (Z.lxor x y) z.
Definition F4 (x y z : Z) : Z := Z.lxor y (Z.lor x (not32 z)).
Definition MD5STEP (f : Z -> Z -> Z -> Z) (w x y z data s : Z) : Z :=
  let w := u32 (w + u32 (f x y z + data)) in
  let w := rol w s in
  u32 (w + x).

(** the 64 steps: the function, the word, the constant and the shift; the
    variables change their roles a, d, c, b from one step to the next *)
Definition md5_steps : list ((Z -> Z -> Z -> Z) * Z * Z * Z) :=
  [
   (F1, 0, 0xd76aa478, 7); (F1, 1, 0xe8c7b756, 12); (F1, 2, 0x242070db, 17); (F1, 3, 0xc1bdceee, 22);
   (F1, 4, 0xf57c0faf, 7); (F1, 5, 0x4787c62a, 12); (F1, 6, 0xa8304613, 17); (F1, 7, 0xfd469501, 22);
   (F1, 8, 0x698098d8, 7); (F1, 9, 0x8b44f7af, 12); (F1, 10, 0xffff5bb1, 17); (F1, 11, 0x895cd7be, 22);
   (F1, 12, 0x6b901122, 7); (F1, 13, 0xfd987193, 12); (F1, 14, 0xa679438e, 17); (F1, 15, 0x49b40821, 22);
   (F2, 1, 0xf61e2562, 5); (F2, 6, 0xc040b340, 9); (F2, 11, 0x265e5a51, 14); (F2, 0, 0xe9b6c7aa, 20);
   (F2, 5, 0xd62f105d, 5); (F2, 10, 0x02441453, 9); (F2, 15, 0xd8a1e681, 14); (F2, 4, 0xe7d3fbc8, 20);
   (F2, 9, 0x21e1cde6, 5); (F2, 14, 0xc33707d6, 9); (F2, 3, 0xf4d50d87, 14); (F2, 8, 0x455a14ed, 20);
   (F2, 13, 0xa9e3e905, 5); (F2, 2, 0xfcefa3f8, 9); (F2, 7, 0x676f02d9, 14); (F2, 12, 0x8d2a4c8a, 20);
   (F3, 5, 0xfffa3942, 4); (F3, 8, 0x8771f681, 11); (F3, 11, 0x6d9d6122, 16); (F3, 14, 0xfde5380c, 23);
   (F3, 1, 0xa4beea44, 4); (F3, 4, 0x4bdecfa9, 11); (F3, 7, 0xf6bb4b60, 16); (F3, 10, 0xbebfbc70, 23);
   (F3, 13, 0x289b7ec6, 4); (F3, 0, 0xeaa127fa, 11); (F3, 3, 0xd4ef3085, 16); (F3, 6, 0x04881d05, 23);
   (F3, 9, 0xd9d4d039, 4); (F3, 12, 0xe6db99e5, 11); (F3, 15, 0x1fa27cf8, 16); (F3, 2, 0xc4ac5665, 23);
   (F4, 0, 0xf4292244, 6); (F4, 7, 0x432aff97, 10); (F4, 14, 0xab9423a7, 15); (F4, 5, 0xfc93a039, 21);
   (F4, 12, 0x655b59c3, 6); (F4, 3, 0x8f0ccc92, 10); (F4, 10, 0xffeff47d, 15); (F4, 1, 0x85845dd1, 21);
   (F4, 8, 0x6fa87e4f, 6); (F4, 15, 0xfe2ce6e0, 10); (F4, 6, 0xa3014314, 15); (F4, 13, 0x4e0811a1, 21);
   (F4, 4, 0xf7537e82, 6); (F4, 11, 0xbd3af235, 10); (F4, 2, 0x2ad7d2bb, 15); (F4, 9, 0xeb86d391, 21)
  ].
Definition md5_step (inw : list Z) (s : Z * Z * Z * Z) (row : (Z -> Z -> Z -> Z) * Z * Z * Z) : Z * Z * Z * Z :=
  let '(w, x, y, z) := s in
  let '(f, k, c, sh) := row in
  (z, MD5STEP f w x y z (u32 (nthZ 0 inw k + c)) sh, x, y).
Definition MD5Transform (bf : list Z) (inw : list Z) : list Z :=
  let g i := nthZ 0 bf i in
  let '(a, b, c, d) := fold_left (md5_step inw) md5_steps (g 0, g 1, g 2, g 3) in
  [u32 (g 0 + a); u32 (g 1 + b); u32 (g 2 + c); u32 (g 3 + d)].

Definition MD5Init (ctx : MD5_CTX) : MD5_CTX :=
  mkMD5 0 0 [0x67452301; 0xefcdab89; 0x98badcfe; 0x10325476] (in_ ctx) (digest ctx).

(** a round per 64 bytes; the state, the block and the bytes that are left *)
Fixpoint md5_loop (fuel : nat) (bf blk src : list Z) (len : Z) : outcome (list Z * list Z * list Z * Z) :=
  if 64 <=? len then
    match fuel with
    | O => Spin
    | S fuel =>
      let! d := read_bytes src 64 in
      let! blk := put_bytes blk 0 d in
      md5_loop fuel (MD5Transform bf (le_words blk)) blk (drop 64 src) (len - 64)
    end
  else Ret (bf, blk, src, len).
Definition md5_chunks (ctx : MD5_CTX) (src : list Z) (len : Z) : outcome MD5_CTX :=
  let! (bf, blk, src, len) := md5_loop (Z.to_nat (len / 64)) (buf ctx) (in_ ctx) src len in
  let! d := read_bytes src len in
  let! blk := put_bytes blk 0 d in
  Ret (mkMD5 (i0 ctx) (i1 ctx) bf blk (digest ctx)).
Definition MD5Update (ctx : MD5_CTX) (src : list Z) (len : Z) : outcome MD5_CTX :=
  let t := i0 ctx in
  let n0 := u32 (t + u32 (Z.shiftl len 3)) in
  let n1 := if n0 <? t then u32 (i1 ctx + 1) else i1 ctx in
  let n1 := u32 (n1 + Z.shiftr len 29) in
  let ctx := mkMD5 n0 n1 (buf ctx) (in_ ctx) (digest ctx) in
  let t := Z.land (Z.shiftr t 3) 0x3f in
  if negb (t =? 0) then
    let t' := 64 - t in
    if len <? t' then
      let! d := read_bytes src len in
      let! blk := put_bytes (in_ ctx) t d in
      Ret (mkMD5 n0 n1 (buf ctx) blk (digest ctx))
    else
      let! d := read_bytes src t' in
      let! blk := put_bytes (in_ ctx) t d in
      let ctx := mkMD5 n0 n1 (MD5Transform (buf ctx) (le_words blk)) blk (digest ctx) in
      md5_chunks ctx (drop (Z.to_nat t') src) (len - t')
  else md5_chunks ctx src len.

(** the last statement clears as many bytes as a pointer has, four *)
Definition MD5Final (ctx : MD5_CTX) : outcome MD5_CTX :=
  let count := Z.land (Z.shiftr (i0 ctx) 3) 0x3F in
  let! blk := put_bytes (in_ ctx) count [0x80] in
  let p := count + 1 in
  let count := 64 - 1 - count in
  let! (bf, blk) :=
    (if count <? 8 then
       let! blk := clear blk p count in
       let bf := MD5Transform (buf ctx) (le_words blk) in
       let! blk := clear blk 0 56 in
       Ret (bf, blk)
     else
       let! blk := clear blk p (count - 8) in
       Ret (buf ctx, blk)) in
  let! blk := put_bytes blk 56 (le_bytes (i0 ctx)) in
  let! blk := put_bytes blk 60 (le_bytes (i1 ctx)) in
  let bf := MD5Transform bf (le_words blk) in
  Ret (mkMD5 0 (i1 ctx) bf blk (concat (map le_bytes bf))).

(** ** SHA-1 *)
Record SHA_CTX := mkSHA { slen : Z; h : list Z; nLo : Z; nHi : Z; data : list Z }.

Definition A_SHAInit (ctx : SHA_CTX) : SHA_CTX :=
  mkSHA 0 [0x67452301; 0xefcdab89; 0x98badcfe; 0x10325476; 0xc3d2e1f0] 0 0 (data ctx).

(** w[16] to w[79] *)
Fixpoint sha_expand (n : nat) (w : list Z) : list Z :=
  match n with
  | O => w
  | S n =>
    let t := zlen w in
    let tmp := Z.lxor (Z.lxor (Z.lxor (nthZ 0 w (t - 3)) (nthZ 0 w (t - 8))) (nthZ 0 w (t - 14))) (nthZ 0 w (t - 16)) in
    sha_expand n (w ++ [rol tmp 1])
  end.
Definition sha_round (f : Z -> Z -> Z -> Z) (k : Z) (s : Z * Z * Z * Z * Z) (wt : Z) : Z * Z * Z * Z * Z :=
  let '(a, b, c, d, e) := s in
  let tmp := u32 (rol a 5 + f b c d + e + wt + k) in
  (tmp, a, rol b 30, c, d).
Definition sha_ch (b c d : Z) : Z := Z.lor (Z.land b c) (Z.land d (not32 b)).
Definition sha_parity (b c d : Z) : Z := Z.lxor (Z.lxor b c) d.
Definition sha_maj (b c d : Z) : Z := Z.lor (Z.lor (Z.land b c) (Z.land b d)) (Z.land c d).
Definition SHATransform (dg block : list Z) : list Z :=
  let w := sha_expand 64 (take 16 block) in
  let g i := nthZ 0 dg i in
  let s := (g 0, g 1, g 2, g 3, g 4) in
  let s := fold_left (sha_round sha_ch 0x5a827999) (take 20 w) s in
  let s := fold_left (sha_round sha_parity 0x6ed9eba1) (take 20 (drop 20 w)) s in
  let s := fold_left (sha_round sha_maj 0x8f1bbcdc) (take 20 (drop 40 w)) s in
  let s := fold_left (sha_round sha_parity 0xca62c1d6) (take 20 (drop 60 w)) s in
  let '(a, b, c, d, e) := s in
  [u32 (g 0 + a); u32 (g 1 + b); u32 (g 2 + c); u32 (g 3 + d); u32 (g 4 + e)].

(** a round fills and processes the block; the bytes in it, the rest of the
    buffer and its length *)
Fixpoint sha_loop (fuel : nat) (hs blk : list Z) (n : Z) (q : list Z) (len : Z) :
    outcome (list Z * list Z * list Z * Z) :=
  if 64 <=? u32 (n + len) then
    match fuel with
    | O => Spin
    | S fuel =>
      let! d := read_bytes q (64 - n) in
      let! blk := put_bytes blk n d in
      sha_loop fuel (SHATransform hs (be_words blk)) blk 0 (drop (Z.to_nat (64 - n)) q) (u32 (len - (64 - n)))
    end
  else Ret (hs, blk, q, len).
Definition A_SHAUpdate (ctx : SHA_CTX) (q : list Z) (len : Z) : outcome SHA_CTX :=
  let lo := u32 (nLo ctx + len) in
  let hi := u32 (nHi ctx + (if lo <? len then 1 else 0)) in
  if negb (slen ctx =? 0) && (u32 (slen ctx + len) <? 64) then
    let! d := read_bytes q len in
    let! blk := put_bytes (data ctx) (slen ctx) d in
    Ret (mkSHA (slen ctx + len) (h ctx) lo hi blk)
  else
    let! (hs, blk, q, len) := sha_loop (Z.to_nat ((slen ctx + len) / 64)) (h ctx) (data ctx) (slen ctx) q len in
    let! d := read_bytes q len in
    let! blk := put_bytes blk 0 d in
    Ret (mkSHA len hs lo hi blk).

(** the context and the 20 bytes of output *)
Definition A_SHAFinal (ctx : SHA_CTX) : outcome (SHA_CTX * list Z) :=
  let pad := if 56 <=? slen ctx then 56 + 64 - slen ctx else 56 - slen ctx in
  let lenhi := Z.lor (u32 (Z.shiftl (nHi ctx) 3)) (Z.shiftr (nLo ctx) (32 - 3)) in
  let lenlo := u32 (Z.shiftl (nLo ctx) 3) in
  if (pad <? 1) || (64 <? pad) then Fault else
  let! ctx := A_SHAUpdate ctx (0x80 :: zeros (pad - 1)) pad in
  let! ctx := A_SHAUpdate ctx (be_bytes lenhi ++ be_bytes lenlo) 8 in
  Ret (ctx, concat (map be_bytes (h ctx))).

End Digest.
