(* ===== verification/DigestSpec.v ===== *)
(** * Message digests: the calls compute MD5 and SHA-1

    Feeding a context with buffers of any lengths and closing it gives the
    digest of the concatenation, where the digest is defined as in the
    standards (RFC 1321, FIPS 180): padding, then one step function per
    block. *)
From S2P Require Import Prelude Digest.
Import Digest.

Module DigestSpec.

Ltac conj := repeat match goal with |- _ /\ _ => split end.

(** ** Blocks *)
Section Blocks.
Context {A : Type} (f : A -> list Z -> A).

Fixpoint absorb (n : nat) (s : A) (l : list Z) : A :=
  match n with O => s | S n => absorb n (f s (take 64 l)) (drop 64 l) end.
Definition nblocks (l : list Z) : nat := (length l / 64)%nat.
(** the state after the whole blocks of a message, and the bytes after them *)
Definition state (s : A) (m : list Z) : A := absorb (nblocks m) s m.
Definition rest (m : list Z) : list Z := drop (64 * nblocks m) m.

Lemma absorb_add n k s l : absorb (n + k) s l = absorb k (absorb n s l) (drop (64 * n) l).
Proof.
  revert s l. induction n as [|n IH]; intros s l; [done|]. simpl. rewrite IH, drop_drop. do 2 f_equal. lia.
Qed.
Lemma absorb_prefix n s l k : (64 * n <= length l)%nat -> absorb n s (l ++ k) = absorb n s l.
Proof.
  revert s l. induction n as [|n IH]; intros s l H; [done|]. simpl.
  rewrite take_app_le, drop_app_le by lia. apply IH. rewrite length_drop. lia.
Qed.
Lemma nblocks_bounds (m : list Z) : (64 * nblocks m <= length m < 64 * nblocks m + 64)%nat.
Proof. unfold nblocks. pose proof (Nat.div_mod_eq (length m) 64). pose proof (Nat.mod_upper_bound (length m) 64). lia. Qed.
Lemma length_rest m : (length (rest m) < 64 /\ length m = 64 * nblocks m + length (rest m))%nat.
Proof. unfold rest. rewrite length_drop. pose proof (nblocks_bounds m). lia. Qed.
Lemma nblocks_app m d : nblocks (m ++ d) = (nblocks m + nblocks (rest m ++ d))%nat.
Proof.
  pose proof (nblocks_bounds (m ++ d)). pose proof (nblocks_bounds (rest m ++ d)). pose proof (length_rest m).
  rewrite length_app in *. lia.
Qed.
Lemma drop_rest m d : drop (64 * nblocks m) (m ++ d) = rest m ++ d.
Proof. pose proof (nblocks_bounds m). by rewrite drop_app_le by lia. Qed.
Lemma state_app s m d : state s (m ++ d) = state (state s m) (rest m ++ d).
Proof.
  unfold state. rewrite nblocks_app, absorb_add, drop_rest. f_equal. apply absorb_prefix. pose proof (nblocks_bounds m). lia.
Qed.
Lemma rest_app m d : rest (m ++ d) = rest (rest m ++ d).
Proof.
  unfold rest at 1 2. rewrite nblocks_app, <- drop_rest, drop_drop. f_equal. lia.
Qed.
Lemma state_small s l : (length l < 64)%nat -> state s l = s /\ rest l = l.
Proof.
  intros H. assert (E : nblocks l = 0%nat) by (pose proof (nblocks_bounds l); lia). unfold state, rest. by rewrite E.
Qed.
Lemma state_block s b l : length b = 64%nat -> state s (b ++ l) = state (f s b) l /\ rest (b ++ l) = rest l.
Proof.
  intros H. assert (E : nblocks (b ++ l) = S (nblocks l)).
  { pose proof (nblocks_bounds (b ++ l)). pose proof (nblocks_bounds l). rewrite length_app in *. lia. }
  unfold state, rest. rewrite E. split.
  - simpl. by rewrite take_app_length', drop_app_length' by done.
  - replace (64 * S (nblocks l))%nat with (64 + 64 * nblocks l)%nat by lia.
    rewrite <- drop_drop. by rewrite drop_app_length' by done.
Qed.
End Blocks.

#[local] Opaque MD5Transform SHATransform.

(** ** The update of MD5 *)
Definition md5_f (bf blk : list Z) : list Z := MD5Transform bf (le_words blk).
Definition md5_init : list Z := [0x67452301; 0xefcdab89; 0x98badcfe; 0x10325476].

Lemma split64 (d : list Z) : (64 <= length d)%nat -> d = take 64 d ++ drop 64 d /\ length (take 64 d) = 64%nat.
Proof. intros H. by rewrite take_drop, length_take_le. Qed.

Lemma md5_loop_ok fuel : forall bf blk d k, length blk = 64%nat -> (length d / 64 <= fuel)%nat ->
  exists blk', md5_loop fuel bf blk (d ++ k) (zlen d) = Ret (state md5_f bf d, blk', rest d ++ k, zlen (rest d)) /\
    length blk' = 64%nat.
Proof.
  induction fuel as [|fuel IH]; intros bf blk d k Hb Hf.
  { assert (length d < 64)%nat by (pose proof (nblocks_bounds d); unfold nblocks in *; lia).
    destruct (state_small md5_f bf d) as [-> ->]; [done|]. exists blk. simpl.
    by replace (64 <=? zlen d) with false by (unfold zlen; lia). }
  simpl. destruct (Z.leb_spec 64 (zlen d)); cycle 1.
  { destruct (state_small md5_f bf d) as [-> ->]; [unfold zlen in *; lia|]. by exists blk. }
  assert (Hd : (64 <= length d)%nat) by (unfold zlen in *; lia).
  destruct (split64 d Hd) as [Ed El]. remember (take 64 d) as b eqn:Eb. remember (drop 64 d) as d' eqn:Ed'. rewrite Ed.
  rewrite <- app_assoc, (read_bytes_eq b) by (unfold zlen; lia). cbn [obind].
  rewrite (put_bytes_full blk 0 b []); [|lia|unfold zlen; lia|done]. cbn [obind app].
  rewrite drop_app_length' by done. destruct (state_block md5_f bf b d' El) as [-> ->].
  replace (zlen (b ++ d') - 64) with (zlen d') by (rewrite zlen_app; unfold zlen; lia).
  change (MD5Transform bf (le_words b)) with (md5_f bf b). apply IH; [done|]. rewrite Ed, length_app in Hf. 
  replace (length b + length d')%nat with (length d' + 1 * 64)%nat in Hf by lia. rewrite Nat.div_add in Hf by lia. lia.
Qed.

Lemma md5_chunks_ok ctx d k : length (in_ ctx) = 64%nat ->
  exists blk, md5_chunks ctx (d ++ k) (zlen d) = Ret (mkMD5 (i0 ctx) (i1 ctx) (state md5_f (buf ctx) d) blk (digest ctx)) /\
    length blk = 64%nat /\ take (length (rest d)) blk = rest d.
Proof.
  intros Hl. unfold md5_chunks.
  assert (Hz : Z.to_nat (zlen d / 64) = (length d / 64)%nat).
  { unfold zlen. rewrite <- (Nat2Z.id (length d / 64)). f_equal. rewrite Nat2Z.inj_div. done. }
  destruct (md5_loop_ok (Z.to_nat (zlen d / 64)) (buf ctx) (in_ ctx) d k Hl) as (blk & -> & Hb); [lia|]. cbn [obind].
  rewrite read_bytes_app. cbn [obind].
  destruct (put_bytes_ok blk 0 (rest d)) as (blk' & -> & Hb' & Ht); [lia|unfold zlen; pose proof (length_rest d); lia|].
  cbn [obind]. exists blk'. conj; [done|lia|done].
Qed.

(** a block that begins with [p] *)
Definition starts_with (blk p : list Z) : Prop := length blk = 64%nat /\ take (length p) blk = p.
Lemma put_at blk p d off : starts_with blk p -> off = zlen p -> (length p + length d <= 64)%nat ->
  exists blk', put_bytes blk off d = Ret blk' /\ starts_with blk' (p ++ d).
Proof.
  intros [Hl Ht] -> H. destruct (put_bytes_ok blk (zlen p) d) as (blk' & E & Hl' & Ht').
  - apply zlen_nonneg.
  - unfold zlen. lia.
  - rewrite zlen_nat, Ht in Ht'. exists blk'. unfold starts_with. rewrite length_app. conj; [done|lia|done].
Qed.
Lemma starts_full blk p : starts_with blk p -> length p = 64%nat -> blk = p.
Proof. intros [Hl Ht] Hp. rewrite <- Ht. rewrite Hp. by rewrite take_ge by lia. Qed.
Lemma length_zeros n : 0 <= n -> length (zeros n) = Z.to_nat n.
Proof. intros H. unfold zeros. apply length_replicate. Qed.

Definition md5_repr (ctx : MD5_CTX) (m : list Z) : Prop :=
  i0 ctx = (8 * zlen m) mod 2 ^ 32 /\ i1 ctx = (8 * zlen m / 2 ^ 32) mod 2 ^ 32 /\
  buf ctx = state md5_f md5_init m /\ starts_with (in_ ctx) (rest m).

Lemma count_add n len : 0 <= n -> 0 <= len < 2 ^ 32 ->
  let t := (8 * n) mod 2 ^ 32 in
  let n0 := u32 (t + u32 (Z.shiftl len 3)) in
  let n1 := (8 * n / 2 ^ 32) mod 2 ^ 32 in
  n0 = (8 * (n + len)) mod 2 ^ 32 /\
  u32 ((if n0 <? t then u32 (n1 + 1) else n1) + Z.shiftr len 29) = (8 * (n + len) / 2 ^ 32) mod 2 ^ 32.
Proof.
  intros Hn Hl. unfold wrapU. rewrite Z.shiftl_mul_pow2, Z.shiftr_div_pow2 by lia.
  change (2 ^ 3) with 8. change (2 ^ 29) with 536870912. change (2 ^ 32) with 4294967296 in *. cbv zeta. split.
  - dlia.
  - case_match eqn:E; [apply Z.ltb_lt in E|apply Z.ltb_ge in E]; dlia.
Qed.
Lemma count_mod n : 0 <= n -> Z.land (Z.shiftr ((8 * n) mod 2 ^ 32) 3) 0x3f = n mod 64.
Proof.
  intros H. change 0x3f with (2 ^ 6 - 1). rewrite land_pow2_mask by lia. rewrite Z.shiftr_div_pow2 by lia.
  change (2 ^ 6) with 64. change (2 ^ 3) with 8. change (2 ^ 32) with 4294967296. dlia.
Qed.
Lemma zlen_rest m : zlen m mod 64 = zlen (rest m).
Proof.
  destruct (length_rest m) as [H1 H2]. unfold zlen. rewrite H2. 
  replace (Z.of_nat (64 * nblocks m + length (rest m))) with (Z.of_nat (length (rest m)) + Z.of_nat (nblocks m) * 64) by lia.
  rewrite Z_mod_plus_full. apply Z.mod_small. lia.
Qed.

Lemma MD5Init_repr ctx : length (in_ ctx) = 64%nat -> md5_repr (MD5Init ctx) [].
Proof. intros H. unfold md5_repr. conj; try done. Qed.

Lemma MD5Update_ok ctx m d k : md5_repr ctx m -> zlen d < 2 ^ 32 ->
  exists ctx', MD5Update ctx (d ++ k) (zlen d) = Ret ctx' /\ md5_repr ctx' (m ++ d).
Proof.
  intros (E0 & E1 & Eb & Es) Hd. pose proof (zlen_nonneg d). pose proof (zlen_nonneg m).
  destruct (count_add (zlen m) (zlen d)) as [C0 C1]; [done|done|]. destruct (length_rest m) as [R1 R2].
  unfold MD5Update. rewrite E0, E1. cbv zeta in C0, C1 |- *. rewrite C1. rewrite C0. rewrite count_mod, zlen_rest by done.
  cbn [in_ buf digest i0 i1].
  assert (Hend : forall b blk, b = state md5_f md5_init (m ++ d) -> starts_with blk (rest (m ++ d)) ->
    md5_repr (mkMD5 ((8 * (zlen m + zlen d)) mod 2 ^ 32) ((8 * (zlen m + zlen d) / 2 ^ 32) mod 2 ^ 32) b blk (digest ctx)) (m ++ d)).
  { intros b blk -> Hb. unfold md5_repr. cbn [in_ buf digest i0 i1]. by rewrite zlen_app. }
  destruct (Z.eqb_spec (zlen (rest m)) 0) as [Hz|Hz]; simpl negb; cbv iota.
  - assert (Hr : rest m = []) by (destruct (rest m); [done|]; rewrite zlen_cons in Hz; pose proof (zlen_nonneg l); lia).
    match goal with |- context [md5_chunks ?c _ _] => destruct (md5_chunks_ok c d k) as (blk & -> & Hl & Ht) end; [apply Es|].
    eexists. split; [reflexivity|]. cbn [in_ buf digest i0 i1]. apply Hend.
    + rewrite state_app, Hr, Eb. done.
    + by rewrite rest_app, Hr.
  - destruct (Z.ltb_spec (zlen d) (64 - zlen (rest m))).
    + rewrite read_bytes_app. cbn [obind]. unfold zlen in *.
      destruct (put_at (in_ ctx) (rest m) d (Z.of_nat (length (rest m))) Es eq_refl) as (blk & -> & Hb); [lia|]. cbn [obind].
      destruct (state_small md5_f (state md5_f md5_init m) (rest m ++ d)) as [S1 S2]; [rewrite length_app; lia|].
      eexists. split; [reflexivity|]. apply Hend; [by rewrite state_app, S1|by rewrite rest_app, S2].
    + remember (64 - zlen (rest m)) as t eqn:Et.
      assert (exists d1 d2, d = d1 ++ d2 /\ length d1 = Z.to_nat t) as (d1 & d2 & -> & L1).
      { exists (take (Z.to_nat t) d), (drop (Z.to_nat t) d). rewrite take_drop, length_take_le; unfold zlen in *; [done|lia]. }
      rewrite <- app_assoc, (read_bytes_eq d1) by (unfold zlen in *; lia). cbn [obind].
      destruct (put_at (in_ ctx) (rest m) d1 (zlen (rest m)) Es eq_refl) as (blk & -> & Hb); [unfold zlen in *; lia|].
      apply starts_full in Hb; [|rewrite length_app; unfold zlen in *; lia]. subst blk. cbn [obind].
      rewrite drop_app_length' by done.
      replace (zlen (d1 ++ d2) - t) with (zlen d2) by (rewrite zlen_app; unfold zlen in *; lia).
      match goal with |- context [md5_chunks ?c _ _] => destruct (md5_chunks_ok c d2 k) as (blk & -> & Hl & Ht) end.
      { cbn [in_]. rewrite length_app. unfold zlen in *. lia. }
      cbn [in_ buf digest i0 i1]. change (MD5Transform (buf ctx) (le_words (rest m ++ d1))) with (md5_f (buf ctx) (rest m ++ d1)).
      destruct (state_block md5_f (state md5_f md5_init m) (rest m ++ d1) d2) as [S1 S2]; [rewrite length_app; unfold zlen in *; lia|].
      eexists. split; [reflexivity|]. apply Hend.
      * by rewrite state_app, app_assoc, S1, Eb.
      * by rewrite rest_app, app_assoc, S2.
Qed.

(** ** The padding of MD5 *)
Definition npad (m : list Z) : Z := if zlen (rest m) <? 56 then 55 - zlen (rest m) else 119 - zlen (rest m).
Definition lo32 (n : Z) : Z := n mod 2 ^ 32.
Definition hi32 (n : Z) : Z := (n / 2 ^ 32) mod 2 ^ 32.
(** the message, a one bit, zero bits, and the length in bits *)
Definition md5_pad (m : list Z) : list Z :=
  m ++ [0x80] ++ zeros (npad m) ++ le_bytes (lo32 (8 * zlen m)) ++ le_bytes (hi32 (8 * zlen m)).

Lemma zeros_app a b : 0 <= a -> 0 <= b -> zeros (a + b) = zeros a ++ zeros b.
Proof. intros Ha Hb. unfold zeros. by rewrite Z2Nat.inj_add, replicate_add. Qed.
Lemma clear_at blk p n off : starts_with blk p -> off = zlen p -> 0 <= n -> (length p + Z.to_nat n <= 64)%nat ->
  exists blk', clear blk off n = Ret blk' /\ starts_with blk' (p ++ zeros n).
Proof.
  intros Hs Ho Hn H. unfold clear. replace (n <? 0) with false by lia. apply put_at; [done|done|]. by rewrite length_zeros.
Qed.
Lemma starts_nil blk p : starts_with blk p -> starts_with blk [].
Proof. intros [H _]. by split. Qed.

(** the length is appended and the last block processed *)
Lemma md5_close blk p lo hi bf : starts_with blk p -> length p = 56%nat ->
  exists blk1 blk2, put_bytes blk 56 (le_bytes lo) = Ret blk1 /\ put_bytes blk1 60 (le_bytes hi) = Ret blk2 /\
    length blk2 = 64%nat /\ MD5Transform bf (le_words blk2) = state md5_f bf (p ++ le_bytes lo ++ le_bytes hi).
Proof.
  intros Hs Hp. destruct (put_at blk p (le_bytes lo) 56 Hs) as (b1 & E1 & H1); [unfold zlen; lia|simpl; lia|].
  destruct (put_at b1 (p ++ le_bytes lo) (le_bytes hi) 60 H1) as (b2 & E2 & H2);
    [rewrite zlen_app; unfold zlen; simpl; lia|rewrite length_app; simpl; lia|].
  exists b1, b2. conj; [done|done|apply H2|]. apply starts_full in H2; [|rewrite !length_app; simpl; lia]. subst b2.
  rewrite <- app_assoc. rewrite <- (app_nil_r (p ++ _)).
  destruct (state_block md5_f bf (p ++ le_bytes lo ++ le_bytes hi) []) as [-> _]; [rewrite !length_app; simpl; lia|].
  by rewrite app_nil_r.
Qed.

Lemma MD5Final_ok ctx m : md5_repr ctx m ->
  exists ctx', MD5Final ctx = Ret ctx' /\ digest ctx' = concat (map le_bytes (state md5_f md5_init (md5_pad m))) /\
    i0 ctx' = 0 /\ i1 ctx' = i1 ctx /\ length (in_ ctx') = 64%nat.
Proof.
  intros (E0 & E1 & Eb & Es). destruct (length_rest m) as [R1 _]. pose proof (zlen_nonneg m).
  unfold MD5Final. rewrite E0, count_mod, zlen_rest by done. unfold md5_pad. rewrite state_app.
  destruct (put_at (in_ ctx) (rest m) [0x80] (zlen (rest m)) Es eq_refl) as (b1 & -> & H1); [simpl; lia|]. cbn [obind].
  unfold npad. assert (Hz : zlen (rest m) = Z.of_nat (length (rest m))) by done.
  destruct (Z.ltb_spec (64 - 1 - zlen (rest m)) 8).
  - replace (zlen (rest m) <? 56) with false by lia.
    destruct (clear_at b1 (rest m ++ [0x80]) (64 - 1 - zlen (rest m)) (zlen (rest m) + 1) H1) as (b2 & -> & H2);
      [by rewrite zlen_app|lia|rewrite length_app; simpl; lia|]. cbn [obind].
    destruct (clear_at b2 [] 56 0 (starts_nil _ _ H2)) as (b3 & -> & H3); [done|lia|simpl; lia|]. cbn [obind].
    apply starts_full in H2; [|rewrite !length_app, length_zeros by lia; simpl; lia]. subst b2.
    destruct (md5_close b3 (zeros 56) (lo32 (8 * zlen m)) (i1 ctx)
      (md5_f (buf ctx) ((rest m ++ [0x80]) ++ zeros (64 - 1 - zlen (rest m)))) H3) as (b4 & b5 & F1 & F2 & L5 & F3); [done|].
    fold (lo32 (8 * zlen m)). rewrite F1. cbn [obind]. rewrite F2. cbn [obind]. eexists. conj; [reflexivity| |done|done|exact L5].
    cbn [digest]. do 2 f_equal. unfold md5_f in F3 at 1. rewrite F3, Eb, E1. fold (hi32 (8 * zlen m)).
    replace (119 - zlen (rest m)) with ((64 - 1 - zlen (rest m)) + 56) by lia. rewrite zeros_app by lia.
    rewrite !app_assoc. rewrite <- (app_assoc _ (zeros 56)), <- (app_assoc _ (zeros 56 ++ _)).
    destruct (state_block md5_f (state md5_f md5_init m) ((rest m ++ [0x80]) ++ zeros (64 - 1 - zlen (rest m)))
      ((zeros 56 ++ le_bytes (lo32 (8 * zlen m))) ++ le_bytes (hi32 (8 * zlen m)))) as [-> _];
      [rewrite !length_app, length_zeros by lia; simpl; lia|done].
  - replace (zlen (rest m) <? 56) with true by lia.
    destruct (clear_at b1 (rest m ++ [0x80]) (64 - 1 - zlen (rest m) - 8) (zlen (rest m) + 1) H1) as (b2 & -> & H2);
      [by rewrite zlen_app|lia|rewrite length_app; simpl; lia|]. cbn [obind].
    destruct (md5_close b2 _ (lo32 (8 * zlen m)) (i1 ctx) (buf ctx) H2) as (b4 & b5 & F1 & F2 & L5 & F3);
      [rewrite !length_app, length_zeros by lia; simpl; lia|].
    fold (lo32 (8 * zlen m)). rewrite F1. cbn [obind]. rewrite F2. cbn [obind]. eexists. conj; [reflexivity| |done|done|exact L5].
    cbn [digest]. do 2 f_equal. rewrite F3, Eb, E1. fold (hi32 (8 * zlen m)).
    replace (64 - 1 - zlen (rest m) - 8) with (55 - zlen (rest m)) by lia. by rewrite <- !app_assoc.
Qed.

(** ** MD5 as in RFC 1321

    The functions, the order of the words and the shifts are those of the RFC.
    The constants are the integer parts of 2^32 times |sin i|: the sine and
    cosine of 1 from their series with 80 binary places, the others by the
    addition formulas. *)
Definition rotl (x s : Z) : Z := (x * 2 ^ s) mod 2 ^ 32 + x / 2 ^ (32 - s).
Definition rfc_f (i : Z) (x y z : Z) : Z :=
  if i <? 16 then Z.lor (Z.land x y) (Z.land (not32 x) z)
  else if i <? 32 then Z.lor (Z.land x z) (Z.land y (not32 z))
  else if i <? 48 then Z.lxor (Z.lxor x y) z
  else Z.lxor y (Z.lor x (not32 z)).
Definition rfc_word (i : Z) : Z :=
  if i <? 16 then i else if i <? 32 then (5 * i + 1) mod 16 else if i <? 48 then (3 * i + 5) mod 16 else (7 * i) mod 16.
Definition rfc_shift (i : Z) : Z :=
  nthZ 0 (nthZ [] [[7; 12; 17; 22]; [5; 9; 14; 20]; [4; 11; 16; 23]; [6; 10; 15; 21]] (i / 16)) (i mod 4).
Fixpoint series (n : nat) (k t : Z) : Z :=
  match n with O => 0 | S n => t + series n (k + 2) (- (t / ((k + 1) * (k + 2)))) end.
Definition sin_one : Z := series 16 1 (2 ^ 80).
Definition cos_one : Z := series 16 0 (2 ^ 80).
Fixpoint sines (n : nat) (s c : Z) : list Z :=
  match n with
  | O => []
  | S n => s :: sines n ((s * cos_one + c * sin_one) / 2 ^ 80) ((c * cos_one - s * sin_one) / 2 ^ 80)
  end.
Definition rfc_T : list Z := map (fun s => Z.abs s / 2 ^ 48) (sines 64 sin_one cos_one).
Definition rfc_step (inw : list Z) (s : Z * Z * Z * Z) (i : Z) : Z * Z * Z * Z :=
  let '(a, b, c, d) := s in
  (d, (b + rotl ((a + rfc_f i b c d + nthZ 0 inw (rfc_word i) + nthZ 0 rfc_T i) mod 2 ^ 32) (rfc_shift i)) mod 2 ^ 32, b, c).
Definition md5_block (bf blk : list Z) : list Z :=
  let g i := nthZ 0 bf i in
  let '(a, b, c, d) := fold_left (rfc_step (le_words blk)) (seqZ 0 64) (g 0, g 1, g 2, g 3) in
  [(g 0 + a) mod 2 ^ 32; (g 1 + b) mod 2 ^ 32; (g 2 + c) mod 2 ^ 32; (g 3 + d) mod 2 ^ 32].
Definition md5 (m : list Z) : list Z := concat (map le_bytes (state md5_block md5_init (md5_pad m))).

Lemma rol_rotl x s : isU 32 x -> 0 <= s <= 32 -> rol x s = rotl x s.
Proof.
  intros Hx Hs. unfold rol, rotl, wrapU. rewrite Z.shiftl_mul_pow2, Z.shiftr_div_pow2 by lia.
  assert (E : (x * 2 ^ s) mod 2 ^ 32 = (x mod 2 ^ (32 - s)) * 2 ^ s).
  { replace (2 ^ 32) with (2 ^ (32 - s) * 2 ^ s) by (rewrite <- Z.pow_add_r by lia; f_equal; lia).
    apply Z.mul_mod_distr_r; apply Z.pow_nonzero; lia. }
  rewrite E. apply lor_low; [lia|]. unfold isU in Hx. split; [apply Z.div_pos; [lia|apply Z.pow_pos_nonneg; lia]|].
  apply Z.div_lt_upper_bound; [apply Z.pow_pos_nonneg; lia|]. rewrite <- Z.pow_add_r by lia. replace (32 - s + s) with 32 by lia. lia.
Qed.
Lemma not32_bit x j : 0 <= j < 32 -> Z.testbit (not32 x) j = negb (Z.testbit x j).
Proof.
  intros H. unfold not32. rewrite wrapU_testbit, Z.lnot_spec by lia. by replace (j <? 32) with true by lia.
Qed.
(** two words with the same 32 bits *)
Lemma word_eq a b : isU 32 a -> isU 32 b -> (forall j, 0 <= j < 32 -> Z.testbit a j = Z.testbit b j) -> a = b.
Proof.
  intros Ha Hb H. apply Z.bits_inj'. intros j Hj. destruct (decide (j < 32)); [apply H; lia|].
  by rewrite !(testbit_isU_high 32) by (done || lia).
Qed.

Lemma isU_lxor a b : isU 32 a -> isU 32 b -> isU 32 (Z.lxor a b).
Proof.
  intros Ha Hb. apply isU_bits; [lia|apply Z.lxor_nonneg; unfold isU in *; lia|].
  intros j Hj. rewrite Z.lxor_spec, !(testbit_isU_high 32) by (done || lia). done.
Qed.
Lemma isU_not32 a : isU 32 (not32 a).
Proof. apply wrapU_range. lia. Qed.
#[local] Hint Resolve isU_lxor isU_not32 : winex.
Lemma isU32_land a b : isU 32 a -> isU 32 (Z.land a b).
Proof. apply isU_land_l. lia. Qed.
Lemma isU32_lor a b : isU 32 a -> isU 32 b -> isU 32 (Z.lor a b).
Proof. apply isU_lor. lia. Qed.
#[local] Hint Resolve isU32_land isU32_lor : winex.

(** equality of two expressions on words, bit by bit *)
Ltac words :=
  apply word_eq; [auto 7 with winex|auto 7 with winex|];
  let j := fresh "j" in let Hj := fresh "Hj" in intros j Hj;
  repeat (rewrite Z.lxor_spec || rewrite Z.lor_spec || rewrite Z.land_spec || rewrite not32_bit by done);
  repeat match goal with |- context [Z.testbit ?x j] => destruct (Z.testbit x j) end; done.

Section Functions.
Context (x y z : Z) (Hx : isU 32 x) (Hy : isU 32 y) (Hz : isU 32 z).
Lemma F1_rfc i : i < 16 -> F1 x y z = rfc_f i x y z.
Proof using Hx Hy Hz. intros H. unfold rfc_f, F1. rewrite (proj2 (Z.ltb_lt _ _) H). words. Qed.
Lemma F2_rfc i : 16 <= i < 32 -> F2 x y z = rfc_f i x y z.
Proof using Hx Hy Hz.
  intros H. unfold rfc_f, F2, F1. replace (i <? 16) with false by lia. replace (i <? 32) with true by lia. words.
Qed.
Lemma F3_rfc i : 32 <= i < 48 -> F3 x y z = rfc_f i x y z.
Proof using Hx Hy Hz.
  intros H. unfold rfc_f, F3. replace (i <? 16) with false by lia. replace (i <? 32) with false by lia.
  by replace (i <? 48) with true by lia.
Qed.
Lemma F4_rfc i : 48 <= i -> F4 x y z = rfc_f i x y z.
Proof using Hx Hy Hz.
  intros H. unfold rfc_f, F4. replace (i <? 16) with false by lia. replace (i <? 32) with false by lia.
  by replace (i <? 48) with false by lia.
Qed.
End Functions.

Definition row_ok (i : Z) (row : (Z -> Z -> Z -> Z) * Z * Z * Z) : Prop :=
  let '(f, k, c, s) := row in
  k = rfc_word i /\ c = nthZ 0 rfc_T i /\ s = rfc_shift i /\ 0 <= s <= 32 /\
  (forall x y z, isU 32 x -> isU 32 y -> isU 32 z -> f x y z = rfc_f i x y z).
Lemma rfc_T_source : rfc_T = map (fun row => snd (fst row)) md5_steps.
Proof. vm_compute. reflexivity. Qed.
Lemma md5_rows_ok : Forall2 row_ok (seqZ 0 64) md5_steps.
Proof.
  let l := eval vm_compute in (seqZ 0 64) in change (seqZ 0 64) with l.
  unfold md5_steps.
  repeat (constructor; [split; [vm_compute; reflexivity|]; split; [rewrite rfc_T_source; vm_compute; reflexivity|]; split; [vm_compute; reflexivity|];
    split; [lia|]; intros x y z Hx Hy Hz;
    first [apply F1_rfc; (assumption || lia) | apply F2_rfc; (assumption || lia)
          |apply F3_rfc; (assumption || lia) | apply F4_rfc; (assumption || lia)]|]).
  constructor.
Qed.

Definition U32_4 (s : Z * Z * Z * Z) : Prop :=
  let '(a, b, c, d) := s in isU 32 a /\ isU 32 b /\ isU 32 c /\ isU 32 d.
Lemma md5_step_rfc inw s i row : U32_4 s -> row_ok i row -> md5_step inw s row = rfc_step inw s i /\ U32_4 (md5_step inw s row).
Proof.
  destruct s as [[[a b] c] d], row as [[[f k] cn] sh]. intros (Ha & Hb & Hc & Hd) (-> & -> & -> & Hs & Hf).
  assert (Hu : isU 32 (MD5STEP f a b c d (u32 (nthZ 0 inw (rfc_word i) + nthZ 0 rfc_T i)) (rfc_shift i))).
  { unfold MD5STEP. apply wrapU_range. lia. }
  split; [|simpl; by conj]. simpl. do 3 f_equal. unfold MD5STEP.
  rewrite Hf, rol_rotl by (done || apply wrapU_range; lia). unfold wrapU. rewrite (Z.add_comm (rotl _ _) b). do 3 f_equal.
  rewrite Zplus_mod_idemp_r, Z.add_assoc, Zplus_mod_idemp_r. by rewrite Z.add_assoc.
Qed.
Lemma md5_fold_rfc inw ix rows : Forall2 row_ok ix rows -> forall s, U32_4 s ->
  fold_left (md5_step inw) rows s = fold_left (rfc_step inw) ix s /\ U32_4 (fold_left (md5_step inw) rows s).
Proof.
  induction 1 as [|i row ix rows Hr _ IH]; intros s Hs; [done|]. simpl.
  destruct (md5_step_rfc inw s i row Hs Hr) as [<- Hu]. by apply IH.
Qed.

Lemma nthZ_U32 l i : Forall (isU 32) l -> isU 32 (nthZ 0 l i).
Proof.
  intros H. unfold nthZ. destruct (i <? 0); [unfold isU; lia|]. destruct (l !! Z.to_nat i) eqn:E; simpl; [|unfold isU; lia].
  by eapply Forall_lookup_1.
Qed.
#[local] Transparent MD5Transform.
Lemma md5_f_block bf blk : Forall (isU 32) bf -> md5_f bf blk = md5_block bf blk /\ Forall (isU 32) (md5_f bf blk).
Proof.
  intros Hb.
  assert (Hn : forall i, isU 32 (nthZ 0 bf i)).
  { intros i. by apply nthZ_U32. }
  unfold md5_f, MD5Transform, md5_block.
  destruct (md5_fold_rfc (le_words blk) _ _ md5_rows_ok (nthZ 0 bf 0, nthZ 0 bf 1, nthZ 0 bf 2, nthZ 0 bf 3)) as [<- _]; [by repeat split; apply Hn|].
  destruct (fold_left _ _ _) as [[[a b] c] d]. split; [done|]. repeat constructor; apply wrapU_range; lia.
Qed.
#[local] Opaque MD5Transform.

(** two step functions that agree where the states stay *)
Lemma state_agree {A} (f g : A -> list Z -> A) (I : A -> Prop) s m :
  (forall s b, length b = 64%nat -> I s -> f s b = g s b /\ I (f s b)) -> I s ->
  state f s m = state g s m /\ I (state f s m).
Proof.
  intros H. unfold state. assert (Hn : (64 * nblocks m <= length m)%nat) by apply nblocks_bounds.
  revert Hn. generalize (nblocks m) as n. intros n. revert s m.
  induction n as [|n IH]; intros s m Hn Hs; [done|]. simpl.
  destruct (H s (take 64 m)) as [<- Hi]; [rewrite length_take; lia|done|]. apply IH; [rewrite length_drop; lia|done].
Qed.
Lemma md5_init_U32 : Forall (isU 32) md5_init.
Proof. unfold md5_init. repeat constructor; unfold isU; lia. Qed.

Fixpoint md5_feed (ctx : MD5_CTX) (chunks : list (list Z)) : outcome MD5_CTX :=
  match chunks with
  | [] => Ret ctx
  | c :: chunks => let! ctx := MD5Update ctx c (zlen c) in md5_feed ctx chunks
  end.
Lemma md5_feed_ok chunks : forall ctx m, md5_repr ctx m -> Forall (fun c => zlen c < 2 ^ 32) chunks ->
  exists ctx', md5_feed ctx chunks = Ret ctx' /\ md5_repr ctx' (m ++ concat chunks).
Proof.
  induction chunks as [|c chunks IH]; intros ctx m Hr Hc; simpl; [exists ctx; by rewrite app_nil_r|].
  apply list.Forall_cons in Hc as [Hc Hcs]. destruct (MD5Update_ok ctx m c [] Hr Hc) as (ctx' & E & Hr').
  rewrite app_nil_r in E. rewrite E. cbn [obind]. destruct (IH ctx' (m ++ c) Hr' Hcs) as (ctx'' & E' & Hr'').
  exists ctx''. by rewrite app_assoc.
Qed.

(** C9: MD5Init, MD5Update with the pieces of a message, however it is cut,
    and MD5Final compute the MD5 digest of the message as RFC 1321 defines it,
    and never access memory outside of the context and the buffers. *)
Theorem md5_any_chunks ctx chunks :
  length (in_ ctx) = 64%nat -> Forall (fun c => zlen c < 2 ^ 32) chunks ->
  exists ctx1 ctx2, md5_feed (MD5Init ctx) chunks = Ret ctx1 /\ MD5Final ctx1 = Ret ctx2 /\
    digest ctx2 = md5 (concat chunks).
Proof.
  intros Hl Hc. destruct (md5_feed_ok chunks (MD5Init ctx) [] (MD5Init_repr ctx Hl) Hc) as (c1 & E1 & R1).
  destruct (MD5Final_ok c1 _ R1) as (c2 & E2 & Ed & _). exists c1, c2. conj; [done|done|]. rewrite Ed. unfold md5.
  do 2 f_equal. apply (state_agree md5_f md5_block (Forall (isU 32))); [|apply md5_init_U32].
  intros s b _. apply md5_f_block.
Qed.
#[local] Transparent MD5Transform SHATransform.
Lemma md5_any_chunks_witness :
  exists ctx1 ctx2, md5_feed (MD5Init (mkMD5 0 0 [] (zeros 64) [])) [[97]; [98; 99]] = Ret ctx1 /\ MD5Final ctx1 = Ret ctx2 /\
    digest ctx2 = md5 (concat [[97]; [98; 99]]).
Proof.
  apply (md5_any_chunks (mkMD5 0 0 [] (zeros 64) []) [[97]; [98; 99]]).
  - reflexivity.
  - repeat constructor; unfold zlen; simpl; lia.
Defined.
(** the digest of "abc" from RFC 1321 *)
Example md5_abc : md5 [97; 98; 99] =
  [0x90; 0x01; 0x50; 0x98; 0x3c; 0xd2; 0x4f; 0xb0; 0xd6; 0x96; 0x3f; 0x7d; 0x28; 0xe1; 0x7f; 0x72].
Proof. vm_compute. reflexivity. Qed.
(** MD5Final leaves the message in the context, although it means to clear it *)
Theorem MD5Final_keeps_message :
  exists ctx1 ctx2, MD5Update (MD5Init (mkMD5 0 0 [] (zeros 64) [])) [97; 98; 99] 3 = Ret ctx1 /\ MD5Final ctx1 = Ret ctx2 /\
    i0 ctx2 = 0 /\ take 3 (in_ ctx2) = [97; 98; 99] /\ concat (map le_bytes (buf ctx2)) = digest ctx2.
Proof. eexists _, _. split; [vm_compute; reflexivity|]. split; [vm_compute; reflexivity|]. by vm_compute. Qed.
#[local] Opaque MD5Transform SHATransform.

(** ** The update of SHA-1 *)
Definition sha_f (hs blk : list Z) : list Z := SHATransform hs (be_words blk).
Definition sha_init : list Z := [0x67452301; 0xefcdab89; 0x98badcfe; 0x10325476; 0xc3d2e1f0].
Definition sha_repr (ctx : SHA_CTX) (m : list Z) : Prop :=
  nLo ctx = lo32 (zlen m) /\ nHi ctx = hi32 (zlen m) /\ slen ctx = zlen (rest m) /\
  h ctx = state sha_f sha_init m /\ starts_with (data ctx) (rest m).

Lemma sha_loop_ok fuel : forall hs blk p d k, starts_with blk p -> (length p < 64)%nat -> zlen p + zlen d < 2 ^ 32 ->
  (p = [] \/ (64 <= length p + length d)%nat) -> ((length p + length d) / 64 <= fuel)%nat ->
  exists blk', sha_loop fuel hs blk (zlen p) (d ++ k) (zlen d) =
    Ret (state sha_f hs (p ++ d), blk', rest (p ++ d) ++ k, zlen (rest (p ++ d))) /\ length blk' = 64%nat.
Proof.
  induction fuel as [|fuel IH]; intros hs blk p d k Hb Hp Hlt Hc Hf;
    pose proof (zlen_nonneg p); pose proof (zlen_nonneg d); pose proof (nblocks_bounds (p ++ d)) as Hn;
    unfold nblocks in Hn; rewrite length_app in Hn.
  { destruct Hc as [->|]; [|lia]. destruct (state_small sha_f hs ([] ++ d)) as [-> ->]; [rewrite length_app; lia|].
    exists blk. simpl. rewrite zlen_nil. split; [|apply Hb]. rewrite wrapU_small by (unfold isU; lia).
    by replace (64 <=? 0 + zlen d) with false by (unfold zlen in *; simpl in *; lia). }
  cbn [sha_loop]. rewrite (wrapU_small 32 (zlen p + zlen d)) by (unfold isU; lia). destruct (Z.leb_spec 64 (zlen p + zlen d)); cycle 1.
  { destruct Hc as [->|]; [|unfold zlen in *; lia].
    destruct (state_small sha_f hs ([] ++ d)) as [-> ->]; [unfold zlen in *; simpl in *; lia|]. exists blk. split; [done|apply Hb]. }
  assert (exists d1 d2, d = d1 ++ d2 /\ (length p + length d1 = 64)%nat) as (d1 & d2 & -> & L1).
  { exists (take (64 - length p) d), (drop (64 - length p) d). rewrite take_drop, length_take. unfold zlen in *. split; [done|lia]. }
  rewrite <- app_assoc, (read_bytes_eq d1) by (unfold zlen in *; lia). cbn [obind].
  destruct (put_at blk p d1 (zlen p) Hb eq_refl) as (blk1 & -> & Hb1); [lia|]. cbn [obind].
  pose proof Hb1 as Hb2. apply starts_full in Hb1; [|rewrite length_app; lia]. subst blk1.
  rewrite drop_app_length' by (unfold zlen in *; lia).
  replace (u32 (zlen (d1 ++ d2) - (64 - zlen p))) with (zlen d2).
  2:{ rewrite zlen_app in *. rewrite wrapU_small; unfold isU, zlen in *; lia. }
  change (SHATransform hs (be_words (p ++ d1))) with (sha_f hs (p ++ d1)).
  rewrite app_assoc. destruct (state_block sha_f hs (p ++ d1) d2) as [-> ->]; [rewrite length_app; lia|].
  apply (IH (sha_f hs (p ++ d1)) (p ++ d1) [] d2 k); [by eapply starts_nil|simpl; lia|rewrite zlen_app in *; rewrite zlen_nil; pose proof (zlen_nonneg d1); lia|by left|].
  rewrite length_app in Hf. change (length [] + length d2)%nat with (length d2). replace (length p + (length d1 + length d2))%nat with (length d2 + 1 * 64)%nat in Hf by lia.
  rewrite Nat.div_add in Hf by lia. lia.
Qed.

Lemma sha_count n len : 0 <= n -> 0 <= len < 2 ^ 32 ->
  let lo := u32 (lo32 n + len) in
  lo = lo32 (n + len) /\ u32 (hi32 n + (if lo <? len then 1 else 0)) = hi32 (n + len).
Proof.
  intros Hn Hl. unfold wrapU, lo32, hi32. change (2 ^ 32) with 4294967296 in *. cbv zeta. split; [dlia|].
  case_match eqn:E; [apply Z.ltb_lt in E|apply Z.ltb_ge in E]; dlia.
Qed.

Lemma A_SHAInit_repr ctx : length (data ctx) = 64%nat -> sha_repr (A_SHAInit ctx) [].
Proof. intros H. unfold sha_repr. conj; try done. Qed.

Lemma A_SHAUpdate_ok ctx m d k : sha_repr ctx m -> zlen d < 2 ^ 32 - 64 ->
  exists ctx', A_SHAUpdate ctx (d ++ k) (zlen d) = Ret ctx' /\ sha_repr ctx' (m ++ d).
Proof.
  intros (E0 & E1 & El & Eh & Es) Hd. pose proof (zlen_nonneg d). pose proof (zlen_nonneg m).
  destruct (sha_count (zlen m) (zlen d)) as [C0 C1]; [done|lia|]. destruct (length_rest m) as [R1 _].
  unfold A_SHAUpdate. rewrite E0, E1, El. cbv zeta in C0, C1 |- *. rewrite C1, C0.
  assert (Hr : zlen (rest m) < 64) by (unfold zlen; lia). pose proof (zlen_nonneg (rest m)).
  rewrite (wrapU_small 32 (zlen (rest m) + zlen d)) by (unfold isU; lia).
  assert (Hend : forall n hs blk, n = zlen (rest (m ++ d)) -> hs = state sha_f sha_init (m ++ d) -> starts_with blk (rest (m ++ d)) ->
    sha_repr (mkSHA n hs (lo32 (zlen m + zlen d)) (hi32 (zlen m + zlen d)) blk) (m ++ d)).
  { intros n hs blk -> -> Hb. unfold sha_repr. cbn [nLo nHi slen h data]. by rewrite zlen_app. }
  destruct (negb (zlen (rest m) =? 0) && (zlen (rest m) + zlen d <? 64)) eqn:Hc.
  - rewrite read_bytes_app. cbn [obind].
    destruct (put_at (data ctx) (rest m) d (zlen (rest m)) Es eq_refl) as (blk & -> & Hb); [unfold zlen in *; lia|]. cbn [obind].
    destruct (state_small sha_f (state sha_f sha_init m) (rest m ++ d)) as [S1 S2]; [rewrite length_app; unfold zlen in *; lia|].
    eexists. split; [reflexivity|]. apply Hend; [by rewrite rest_app, S2, zlen_app|by rewrite state_app, S1|by rewrite rest_app, S2].
  - destruct (sha_loop_ok (Z.to_nat ((zlen (rest m) + zlen d) / 64)) (h ctx) (data ctx) (rest m) d k Es) as (blk & -> & Hl); [lia|lia| | |].
    { destruct (decide (rest m = [])); [by left|right]. assert (zlen (rest m) <> 0) by (unfold zlen; destruct (rest m); simpl; [done|lia]).
      unfold zlen in *. lia. }
    { unfold zlen. rewrite <- Nat2Z.inj_add. change 64 with (Z.of_nat 64). rewrite <- Nat2Z.inj_div, Nat2Z.id. done. }
    cbn [obind]. rewrite read_bytes_app. cbn [obind].
    destruct (put_at blk [] (rest (rest m ++ d)) 0) as (blk' & -> & Hb'); [by split|done|destruct (length_rest (rest m ++ d)); simpl; lia|].
    cbn [obind]. eexists. split; [reflexivity|]. apply Hend; [by rewrite (rest_app m d)|by rewrite (state_app _ _ m d), Eh|by rewrite (rest_app m d)].
Qed.

(** ** SHA-1 as in FIPS 180 *)
Definition sha1_pad (m : list Z) : list Z :=
  m ++ (0x80 :: zeros (npad m)) ++ be_bytes (hi32 (8 * zlen m)) ++ be_bytes (lo32 (8 * zlen m)).
Definition fips_f (t b c d : Z) : Z :=
  if t <? 20 then Z.lxor (Z.land b c) (Z.land (not32 b) d)
  else if t <? 40 then Z.lxor (Z.lxor b c) d
  else if t <? 60 then Z.lxor (Z.lxor (Z.land b c) (Z.land b d)) (Z.land c d)
  else Z.lxor (Z.lxor b c) d.
Definition fips_K (t : Z) : Z :=
  if t <? 20 then 0x5a827999 else if t <? 40 then 0x6ed9eba1 else if t <? 60 then 0x8f1bbcdc else 0xca62c1d6.
(** the schedule of words, [n] after the first ones *)
Fixpoint fips_W (n : nat) (w : list Z) : list Z :=
  match n with
  | O => w
  | S n =>
    let t := zlen w in
    fips_W n (w ++ [rotl (Z.lxor (Z.lxor (Z.lxor (nthZ 0 w (t - 3)) (nthZ 0 w (t - 8))) (nthZ 0 w (t - 14))) (nthZ 0 w (t - 16))) 1])
  end.
Definition fips_round (s : Z * Z * Z * Z * Z) (tw : Z * Z) : Z * Z * Z * Z * Z :=
  let '(a, b, c, d, e) := s in
  let '(t, w) := tw in
  ((rotl a 5 + fips_f t b c d + e + w + fips_K t) mod 2 ^ 32, a, rotl b 30, c, d).
Definition sha1_block (hs blk : list Z) : list Z :=
  let g i := nthZ 0 hs i in
  let '(a, b, c, d, e) := fold_left fips_round (zip (seqZ 0 80) (fips_W 64 (take 16 (be_words blk)))) (g 0, g 1, g 2, g 3, g 4) in
  [(g 0 + a) mod 2 ^ 32; (g 1 + b) mod 2 ^ 32; (g 2 + c) mod 2 ^ 32; (g 3 + d) mod 2 ^ 32; (g 4 + e) mod 2 ^ 32].
Definition sha1 (m : list Z) : list Z := concat (map be_bytes (state sha1_block sha_init (sha1_pad m))).

Lemma rotl_U32 x s : isU 32 x -> 0 <= s <= 32 -> isU 32 (rotl x s).
Proof.
  intros Hx Hs. rewrite <- rol_rotl by done. unfold rol. apply isU32_lor; [apply wrapU_range; lia|].
  unfold isU in *. rewrite Z.shiftr_div_pow2 by lia. assert (0 < 2 ^ (32 - s)) by (apply Z.pow_pos_nonneg; lia).
  split; [apply Z.div_pos; lia|]. apply Z.div_lt_upper_bound; [lia|]. nia.
Qed.
Lemma be_words_U32 l : Forall (isU 32) (be_words l).
Proof.
  assert (H : forall n l, (length l <= n)%nat -> Forall (isU 32) (be_words l)); [|by apply (H (length l))].
  induction n as [|n IH]; intros [|b0 [|b1 [|b2 [|b3 k]]]] Hn; try (by constructor); [simpl in Hn; lia|].
  cbn [be_words]. constructor; [|apply IH; simpl in Hn; lia].
  apply isU32_lor; [apply isU32_lor; [apply isU32_lor|]|]; apply wrapU_range; lia.
Qed.
Lemma sha_expand_fips n : forall w, Forall (isU 32) w ->
  sha_expand n w = fips_W n w /\ Forall (isU 32) (sha_expand n w) /\ length (sha_expand n w) = (length w + n)%nat.
Proof.
  induction n as [|n IH]; intros w Hw; simpl; [by rewrite Nat.add_0_r|].
  assert (Hx : isU 32 (Z.lxor (Z.lxor (Z.lxor (nthZ 0 w (zlen w - 3)) (nthZ 0 w (zlen w - 8))) (nthZ 0 w (zlen w - 14))) (nthZ 0 w (zlen w - 16)))).
  { repeat apply isU_lxor; by apply nthZ_U32. }
  rewrite rol_rotl by (done || lia). destruct (IH (w ++ [rotl (Z.lxor (Z.lxor (Z.lxor (nthZ 0 w (zlen w - 3)) (nthZ 0 w (zlen w - 8))) (nthZ 0 w (zlen w - 14))) (nthZ 0 w (zlen w - 16))) 1])) as (-> & H1 & H2).
  - apply Forall_app. split; [done|]. constructor; [apply rotl_U32; [done|lia]|constructor].
  - conj; [done|done|]. rewrite H2, length_app. simpl. lia.
Qed.

Definition U32_5 (s : Z * Z * Z * Z * Z) : Prop :=
  let '(a, b, c, d, e) := s in isU 32 a /\ isU 32 b /\ isU 32 c /\ isU 32 d /\ isU 32 e.
(** twenty rounds with one function and one constant *)
Lemma sha_rounds_fips f k w : forall a s,
  (forall t b c d, a <= t < a + zlen w -> isU 32 b -> isU 32 c -> isU 32 d -> f b c d = fips_f t b c d) ->
  (forall t, a <= t < a + zlen w -> fips_K t = k) -> U32_5 s ->
  fold_left (sha_round f k) w s = fold_left fips_round (zip (seqZ a (zlen w)) w) s /\ U32_5 (fold_left (sha_round f k) w s).
Proof.
  induction w as [|wt w IH]; intros a s Hf Hk Hs; [done|]. rewrite zlen_cons in *. pose proof (zlen_nonneg w).
  rewrite seqZ_cons by lia. replace (Z.pred (zlen w + 1)) with (zlen w) by lia. cbn [zip_with zip fold_left].
  assert (E : sha_round f k s wt = fips_round s (a, wt) /\ U32_5 (sha_round f k s wt)).
  { destruct s as [[[[x b] c] d] e]. destruct Hs as (Hx & Hb & Hc & Hd & He). unfold sha_round, fips_round.
    rewrite (Hf a) by (done || lia). rewrite (Hk a) by lia. rewrite !rol_rotl by (done || lia). split; [done|].
    simpl. conj; [apply wrapU_range; lia|done|apply rotl_U32; [done|lia]|done|done]. }
  destruct E as [<- Hu]. apply IH; [|intros t Ht; apply Hk; lia|done].
  intros t b c d Ht. apply Hf. lia.
Qed.

Section ShaFunctions.
Context (b c d : Z) (Hb : isU 32 b) (Hc : isU 32 c) (Hd : isU 32 d).
Lemma sha_ch_fips t : t < 20 -> sha_ch b c d = fips_f t b c d.
Proof using Hb Hc Hd. intros H. unfold fips_f, sha_ch. rewrite (proj2 (Z.ltb_lt _ _) H). words. Qed.
Lemma sha_parity_fips t : 20 <= t < 40 \/ 60 <= t -> sha_parity b c d = fips_f t b c d.
Proof using Hb Hc Hd. intros H. unfold fips_f, sha_parity. by zcases. Qed.
Lemma sha_maj_fips t : 40 <= t < 60 -> sha_maj b c d = fips_f t b c d.
Proof using Hb Hc Hd.
  intros H. unfold fips_f, sha_maj. replace (t <? 20) with false by lia. replace (t <? 40) with false by lia.
  replace (t <? 60) with true by lia. words.
Qed.
End ShaFunctions.

Lemma split4 (w : list Z) : length w = 80%nat ->
  w = take 20 w ++ take 20 (drop 20 w) ++ take 20 (drop 40 w) ++ take 20 (drop 60 w).
Proof.
  intros H. rewrite (take_ge (drop 60 w)) by (rewrite length_drop; lia).
  replace (drop 60 w) with (drop 20 (drop 40 w)) by (by rewrite drop_drop). rewrite take_drop.
  replace (drop 40 w) with (drop 20 (drop 20 w)) by (by rewrite drop_drop). by rewrite !take_drop.
Qed.
Section ShaRounds.
Context (w : list Z) (Hw : zlen w = 20) (s : Z * Z * Z * Z * Z) (Hs : U32_5 s).
Lemma rounds_stage f k a :
  (forall t b c d, a <= t < a + 20 -> isU 32 b -> isU 32 c -> isU 32 d -> f b c d = fips_f t b c d) ->
  (forall t, a <= t < a + 20 -> fips_K t = k) ->
  fold_left (sha_round f k) w s = fold_left fips_round (zip (seqZ a 20) w) s /\ U32_5 (fold_left (sha_round f k) w s).
Proof using Hw Hs. rewrite <- Hw. intros Hf Hk. by apply sha_rounds_fips. Qed.
End ShaRounds.
Lemma fips_K_stage a k t : In (a, k) [(0, 0x5a827999); (20, 0x6ed9eba1); (40, 0x8f1bbcdc); (60, 0xca62c1d6)] ->
  a <= t < a + 20 -> fips_K t = k.
Proof. unfold fips_K. intros [[= <- <-]|[[= <- <-]|[[= <- <-]|[[= <- <-]|[]]]]] Ht; by zcases. Qed.

(** the eighty rounds *)
Lemma sha_rounds_all w s : length w = 80%nat -> U32_5 s ->
  let r := fold_left (sha_round sha_parity 0xca62c1d6) (take 20 (drop 60 w))
    (fold_left (sha_round sha_maj 0x8f1bbcdc) (take 20 (drop 40 w))
      (fold_left (sha_round sha_parity 0x6ed9eba1) (take 20 (drop 20 w))
        (fold_left (sha_round sha_ch 0x5a827999) (take 20 w) s))) in
  r = fold_left fips_round (zip (seqZ 0 80) w) s.
Proof.
  intros Hl Hs. cbv zeta.
  assert (L : forall n, (n + 20 <= 80)%nat -> zlen (take 20 (drop n w)) = 20) by (intros n Hn; unfold zlen; rewrite length_take, length_drop; lia).
  pose proof (L 0%nat ltac:(lia)) as L0. rewrite drop_0 in L0.
  pose proof (L 20%nat ltac:(lia)) as L2. pose proof (L 40%nat ltac:(lia)) as L4. pose proof (L 60%nat ltac:(lia)) as L6.
  assert (Ez : zip (seqZ 0 80) w = zip (seqZ 0 20) (take 20 w) ++ zip (seqZ 20 20) (take 20 (drop 20 w)) ++
    zip (seqZ 40 20) (take 20 (drop 40 w)) ++ zip (seqZ 60 20) (take 20 (drop 60 w))).
  { rewrite (split4 w) at 1 by lia. change 80 with (20 + (20 + (20 + 20))). rewrite !seqZ_app by lia.
    unfold zlen in *. rewrite !zip_with_app; [done|..]; rewrite length_seqZ; lia. }
  rewrite Ez, !fold_left_app. revert L0 L2 L4 L6. clear Ez L.
  generalize (take 20 w), (take 20 (drop 20 w)), (take 20 (drop 40 w)), (take 20 (drop 60 w)). intros w0 w2 w4 w6 L0 L2 L4 L6.
  destruct (rounds_stage w0 L0 s Hs sha_ch 0x5a827999 0) as [<- U1].
  { intros t b c d Ht Hb Hc Hd. apply sha_ch_fips; (done || lia). }
  { intros t. apply fips_K_stage. simpl. auto. }
  destruct (rounds_stage w2 L2 _ U1 sha_parity 0x6ed9eba1 20) as [<- U2].
  { intros t b c d Ht Hb Hc Hd. apply sha_parity_fips; (done || lia). }
  { intros t. apply fips_K_stage. simpl. auto. }
  destruct (rounds_stage w4 L4 _ U2 sha_maj 0x8f1bbcdc 40) as [<- U3].
  { intros t b c d Ht Hb Hc Hd. apply sha_maj_fips; (done || lia). }
  { intros t. apply fips_K_stage. simpl. auto. }
  destruct (rounds_stage w6 L6 _ U3 sha_parity 0xca62c1d6 60) as [<- _]; [| |done].
  { intros t b c d Ht Hb Hc Hd. apply sha_parity_fips; (done || lia). }
  { intros t. apply fips_K_stage. simpl. auto. }
Qed.

Lemma length_be_words l n : length l = (4 * n)%nat -> length (be_words l) = n.
Proof.
  revert l. induction n as [|n IH]; intros [|b0 [|b1 [|b2 [|b3 l]]]] H; simpl in H; try lia; [done|].
  cbn [be_words length]. f_equal. apply IH. lia.
Qed.
#[local] Transparent SHATransform.
Lemma sha_f_block hs blk : length blk = 64%nat -> Forall (isU 32) hs ->
  sha_f hs blk = sha1_block hs blk /\ Forall (isU 32) (sha_f hs blk).
Proof.
  intros Hlen Hh. apply (length_be_words blk 16) in Hlen. unfold sha_f, SHATransform, sha1_block. cbv zeta.
  destruct (sha_expand_fips 64 (take 16 (be_words blk))) as (<- & _ & Hl); [apply Forall_take, be_words_U32|].
  rewrite length_take, Hlen in Hl. revert Hl. generalize (sha_expand 64 (take 16 (be_words blk))). intros w Hl.
  rewrite <- (sha_rounds_all w) by (done || (simpl; conj; by apply nthZ_U32)).
  destruct (fold_left (sha_round sha_parity 0xca62c1d6) _ _) as [[[[a b] c] d] e].
  split; [done|]. repeat (constructor; [apply wrapU_range; lia|]). constructor.
Qed.
#[local] Opaque SHATransform.

(** the length in bits from the length in bytes *)
Lemma bit_length n : 0 <= n ->
  Z.lor (u32 (Z.shiftl (hi32 n) 3)) (Z.shiftr (lo32 n) (32 - 3)) = hi32 (8 * n) /\ u32 (Z.shiftl (lo32 n) 3) = lo32 (8 * n).
Proof.
  intros Hn. unfold wrapU, lo32, hi32. rewrite !Z.shiftl_mul_pow2, Z.shiftr_div_pow2 by lia.
  change (2 ^ 3) with 8. change (2 ^ (32 - 3)) with 536870912. change (2 ^ 32) with 4294967296. split; [|dlia].
  replace ((n / 4294967296) mod 4294967296 * 8 mod 4294967296) with ((n / 4294967296) mod 536870912 * 2 ^ 3) by (change (2 ^ 3) with 8; dlia).
  rewrite lor_low; [|lia|change (2 ^ 3) with 8; dlia]. change (2 ^ 3) with 8. dlia.
Qed.
Lemma A_SHAFinal_ok ctx m : sha_repr ctx m ->
  exists ctx', A_SHAFinal ctx = Ret (ctx', concat (map be_bytes (state sha_f sha_init (sha1_pad m)))).
Proof.
  intros Hr. pose proof Hr as (E0 & E1 & El & _ & _). destruct (length_rest m) as [R1 _]. pose proof (zlen_nonneg m).
  pose proof (zlen_nonneg (rest m)). assert (zlen (rest m) < 64) by (unfold zlen; lia).
  unfold A_SHAFinal. rewrite E0, E1, El. destruct (bit_length (zlen m)) as [-> ->]; [done|].
  assert (Hp : (if 56 <=? zlen (rest m) then 56 + 64 - zlen (rest m) else 56 - zlen (rest m)) = npad m + 1 /\ 0 <= npad m < 64).
  { unfold npad. destruct (Z.leb_spec 56 (zlen (rest m))); zcases; lia. }
  destruct Hp as [-> Hp]. replace ((npad m + 1 <? 1) || (64 <? npad m + 1)) with false by lia.
  replace (npad m + 1 - 1) with (npad m) by lia.
  assert (Lz : zlen (0x80 :: zeros (npad m)) = npad m + 1) by (rewrite zlen_cons; unfold zlen; rewrite length_zeros; lia).
  destruct (A_SHAUpdate_ok ctx m (0x80 :: zeros (npad m)) [] Hr) as (c1 & U1 & R2); [lia|].
  rewrite app_nil_r, Lz in U1. rewrite U1. cbn [obind].
  destruct (A_SHAUpdate_ok c1 _ (be_bytes (hi32 (8 * zlen m)) ++ be_bytes (lo32 (8 * zlen m))) [] R2) as (c2 & U2 & R3); [done|].
  rewrite app_nil_r in U2. change (zlen (be_bytes (hi32 (8 * zlen m)) ++ be_bytes (lo32 (8 * zlen m)))) with 8 in U2.
  rewrite U2. cbn [obind]. exists c2. destruct R3 as (_ & _ & _ & Eh & _). rewrite Eh. unfold sha1_pad. by rewrite <- app_assoc.
Qed.

Fixpoint sha_feed (ctx : SHA_CTX) (chunks : list (list Z)) : outcome SHA_CTX :=
  match chunks with
  | [] => Ret ctx
  | c :: chunks => let! ctx := A_SHAUpdate ctx c (zlen c) in sha_feed ctx chunks
  end.
Lemma sha_feed_ok chunks : forall ctx m, sha_repr ctx m -> Forall (fun c => zlen c < 2 ^ 32 - 64) chunks ->
  exists ctx', sha_feed ctx chunks = Ret ctx' /\ sha_repr ctx' (m ++ concat chunks).
Proof.
  induction chunks as [|c chunks IH]; intros ctx m Hr Hc; simpl; [exists ctx; by rewrite app_nil_r|].
  apply list.Forall_cons in Hc as [Hc Hcs]. destruct (A_SHAUpdate_ok ctx m c [] Hr Hc) as (ctx' & E & Hr').
  rewrite app_nil_r in E. rewrite E. cbn [obind]. destruct (IH ctx' (m ++ c) Hr' Hcs) as (ctx'' & E' & Hr'').
  exists ctx''. by rewrite app_assoc.
Qed.
Lemma sha_init_U32 : Forall (isU 32) sha_init.
Proof. unfold sha_init. repeat constructor; unfold isU; lia. Qed.

(** C10: A_SHAInit, A_SHAUpdate with the pieces of a message, however it is
    cut, and A_SHAFinal compute the SHA-1 digest of the message as FIPS 180
    defines it, and never access memory outside of the context and the
    buffers; the pieces are shorter than 2^32 - 64 bytes. *)
Theorem sha1_any_chunks ctx chunks :
  length (data ctx) = 64%nat -> Forall (fun c => zlen c < 2 ^ 32 - 64) chunks ->
  exists ctx1 ctx2, sha_feed (A_SHAInit ctx) chunks = Ret ctx1 /\ A_SHAFinal ctx1 = Ret (ctx2, sha1 (concat chunks)).
Proof.
  intros Hl Hc. destruct (sha_feed_ok chunks (A_SHAInit ctx) [] (A_SHAInit_repr ctx Hl) Hc) as (c1 & E1 & R1).
  destruct (A_SHAFinal_ok c1 _ R1) as (c2 & E2). exists c1, c2. split; [done|]. rewrite E2. unfold sha1.
  do 4 f_equal. apply (state_agree sha_f sha1_block (Forall (isU 32))); [|apply sha_init_U32].
  intros s b. apply sha_f_block.
Qed.
#[local] Transparent SHATransform.
Lemma sha1_any_chunks_witness :
  exists ctx1 ctx2, sha_feed (A_SHAInit (mkSHA 0 [] 0 0 (zeros 64))) [[97]; [98; 99]] = Ret ctx1 /\
    A_SHAFinal ctx1 = Ret (ctx2, sha1 (concat [[97]; [98; 99]])).
Proof.
  apply (sha1_any_chunks (mkSHA 0 [] 0 0 (zeros 64)) [[97]; [98; 99]]).
  - reflexivity.
  - repeat constructor; unfold zlen; simpl; lia.
Defined.
(** the digest of "abc" from FIPS 180 *)
Example sha1_abc : sha1 [97; 98; 99] =
  [0xa9; 0x99; 0x3e; 0x36; 0x47; 0x06; 0x81; 0x6a; 0xba; 0x3e; 0x25; 0x71; 0x78; 0x50; 0xc2; 0x6c; 0x9c; 0xd0; 0xd8; 0x9d].
Proof. vm_compute. reflexivity. Qed.
(** with bytes in the block, a piece whose length wraps the sum is taken for
    a short one, and the copy leaves the block *)
Theorem A_SHAUpdate_wraps ctx q len :
  length (data ctx) = 64%nat -> 0 < slen ctx < 64 -> 2 ^ 32 - slen ctx <= len < 2 ^ 32 -> A_SHAUpdate ctx q len = Fault.
Proof.
  intros Hl Hs Hlen. unfold A_SHAUpdate.
  assert (Hu : u32 (slen ctx + len) = slen ctx + len - 2 ^ 32).
  { unfold wrapU. rewrite <- (Z_mod_plus_full _ (-1)). apply Z.mod_small. lia. }
  rewrite Hu. replace (negb (slen ctx =? 0) && (slen ctx + len - 2 ^ 32 <? 64)) with true by lia.
  unfold read_bytes. destruct ((0 <=? len) && (len <=? zlen q)) eqn:E; [|done]. cbn [obind]. unfold put_bytes.
  replace ((0 <=? slen ctx) && (slen ctx + zlen (take (Z.to_nat len) q) <=? zlen (data ctx))) with false; [done|].
  symmetry. apply andb_false_iff. right. apply andb_prop in E as [_ E]. apply Z.leb_le in E. apply Z.leb_gt.
  unfold zlen in *. rewrite length_take. lia.
Qed.

End DigestSpec.
