(* ===== verification/Base64.v ===== *)
(** * Base64 conversions (dlls/crypt32/base64.c)

    CryptBinaryToString and CryptStringToBinary for narrow (A) and wide (W)
    strings.  A character is its code; a string is an object that contains a
    terminator, an output buffer is [None] for a NULL pointer or an object
    whose real size need not be the size that the caller passes.  A pointer of
    the source into an object is an offset here.  Traces are not modelled;
    SetLastError is a component of the result, 0 when it is not called. *)
From Stdlib Require Import String Ascii.
From S2P Require Import Prelude.

Module Base64.

Definition ERROR_SUCCESS : Z := 0.
Definition ERROR_INVALID_DATA : Z := 13.
Definition ERROR_INVALID_PARAMETER : Z := 87.
Definition ERROR_INSUFFICIENT_BUFFER : Z := 122.

Definition CRYPT_STRING_BASE64HEADER : Z := 0.
Definition CRYPT_STRING_BASE64 : Z := 1.
Definition CRYPT_STRING_BINARY : Z := 2.
Definition CRYPT_STRING_BASE64REQUESTHEADER : Z := 3.
Definition CRYPT_STRING_BASE64_ANY : Z := 6.
Definition CRYPT_STRING_ANY : Z := 7.
Definition CRYPT_STRING_BASE64X509CRLHEADER : Z := 9.
Definition CRYPT_STRING_NOCRLF : Z := 0x40000000.
Definition CRYPT_STRING_NOCR : Z := 0x80000000.

(** the characters of a literal, without its terminator *)
Fixpoint chars (s : string) : list Z :=
  match s with
  | EmptyString => []
  | String c s => Z.of_N (N_of_ascii c) :: chars s
  end.

Definition CERT_HEADER : list Z := chars "-----BEGIN CERTIFICATE-----".
Definition CERT_TRAILER : list Z := chars "-----END CERTIFICATE-----".
Definition CERT_REQUEST_HEADER : list Z := chars "-----BEGIN NEW CERTIFICATE REQUEST-----".
Definition CERT_REQUEST_TRAILER : list Z := chars "-----END NEW CERTIFICATE REQUEST-----".
Definition X509_HEADER : list Z := chars "-----BEGIN X509 CRL-----".
Definition X509_TRAILER : list Z := chars "-----END X509 CRL-----".

Definition CERT_HEADER_W : list Z := chars "-----BEGIN CERTIFICATE-----".
Definition CERT_TRAILER_W : list Z := chars "-----END CERTIFICATE-----".
Definition CERT_REQUEST_HEADER_W : list Z := chars "-----BEGIN NEW CERTIFICATEREQUEST-----".
Definition CERT_REQUEST_TRAILER_W : list Z := chars "-----END NEW CERTIFICATEREQUEST-----".
Definition X509_HEADER_W : list Z := chars "-----BEGIN X509 CRL-----".
Definition X509_TRAILER_W : list Z := chars "-----END X509 CRL-----".

Definition b64 : list Z := chars "ABCDEFGHIJKLMNOPQRSTUVWXYZabcdefghijklmnopqrstuvwxyz0123456789+/".

(** ** The C library *)
(** a store through a pointer that may be NULL *)
Definition store (buf : option (list Z)) (off : Z) (data : list Z) : outcome (option (list Z)) :=
  match buf with
  | None => Fault
  | Some l => let! l := put_bytes l off data in Ret (Some l)
  end.
Definition load (buf : option (list Z)) (off : Z) : outcome Z :=
  match buf with None => Fault | Some l => rd l off end.
Definition strcpy (buf : option (list Z)) (off : Z) (s : list Z) : outcome (option (list Z)) := store buf off (s ++ [0]).
(** the characters of [t], which has no terminator inside, stand at the start of [s] *)
Fixpoint starts (t s : list Z) : outcome bool :=
  match t with
  | [] => Ret true
  | c :: t => match s with [] => Fault | x :: s => if x =? c then starts t s else Ret false end
  end.
Fixpoint strstr_from (pos : Z) (s t : list Z) : outcome (option Z) :=
  let! b := starts t s in
  if b then Ret (Some pos) else
  match s with
  | [] => Fault
  | x :: s => if x =? 0 then Ret None else strstr_from (pos + 1) s t
  end.
Definition strstr (s t : list Z) : outcome (option Z) := strstr_from 0 s t.
Definition strncmp_eq (s : list Z) (off : Z) (t : list Z) : outcome bool :=
  if off <? 0 then Fault else starts t (drop (Z.to_nat off) s).

(** ** Encoding *)

(** what a conversion to a string leaves: the value returned, the error set,
    the buffer and the count *)
Definition to_string_res : Type := bool * Z * option (list Z) * Z.

Definition EncodeBinaryToBinaryA (pbBinary : list Z) (cbBinary dwFlags : Z) (pszString : option (list Z)) (pcchString : Z) : outcome to_string_res :=
  if pcchString <? cbBinary then
    match pszString with
    | None => Ret (true, 0, pszString, cbBinary)
    | Some _ => Ret (false, ERROR_INSUFFICIENT_BUFFER, pszString, cbBinary)
    end
  else
    let! pszString :=
      (if negb (cbBinary =? 0) then
         let! d := read_bytes pbBinary cbBinary in
         store pszString 0 d
       else Ret pszString) in
    Ret (true, 0, pszString, cbBinary).

(** the character for six bits *)
Definition code (v : Z) : outcome Z := rd b64 v.
Definition first6 (d0 : Z) : Z := Z.land (Z.shiftr d0 2) 0x3f.
Definition second6 (d0 d1 : Z) : Z := Z.lor (Z.land (Z.shiftl d0 4) 0x30) (Z.land (Z.shiftr d1 4) 0x0f).
Definition third6 (d1 d2 : Z) : Z := Z.lor (Z.land (Z.shiftl d1 2) 0x3c) (Z.land (Z.shiftr d2 6) 0x03).
Definition fourth6 (d2 : Z) : Z := Z.land d2 0x3f.

(** the loop over groups of three bytes; [i] counts the characters without
    separators; the buffer and the end of the text *)
Fixpoint encode_groups (div : nat) (d sep : list Z) (i : Z) (out : option (list Z)) (ptr : Z) : outcome (option (list Z) * Z * list Z) :=
  match div with
  | O => Ret (out, ptr, d)
  | S div =>
    let! (out, ptr) :=
      (if negb (i =? 0) && (Z.rem i 64 =? 0) then
         let! out := strcpy out ptr sep in Ret (out, ptr + zlen sep)
       else Ret (out, ptr)) in
    let! d0 := rd d 0 in
    let! c0 := code (first6 d0) in
    let! d1 := rd d 1 in
    let! c1 := code (second6 d0 d1) in
    let! d2 := rd d 2 in
    let! c2 := code (third6 d1 d2) in
    let! c3 := code (fourth6 d2) in
    let! out := store out ptr [c0; c1; c2; c3] in
    encode_groups div (drop 3 d) sep (i + 4) out (ptr + 4)
  end.

Definition pad_char : Z := 61.
(** the last one or two bytes *)
Definition encode_rest (pad_bytes : Z) (d : list Z) (out : option (list Z)) (ptr : Z) : outcome (option (list Z) * Z) :=
  if pad_bytes =? 1 then
    let! d0 := rd d 0 in
    let! c0 := code (first6 d0) in
    let! d1 := rd d 1 in
    let! c1 := code (second6 d0 d1) in
    let! c2 := code (Z.land (Z.shiftl d1 2) 0x3c) in
    let! out := store out ptr [c0; c1; c2; pad_char] in
    Ret (out, ptr + 4)
  else if pad_bytes =? 2 then
    let! d0 := rd d 0 in
    let! c0 := code (first6 d0) in
    let! c1 := code (Z.land (Z.shiftl d0 4) 0x30) in
    let! out := store out ptr [c0; c1; pad_char; pad_char] in
    Ret (out, ptr + 4)
  else Ret (out, ptr).

(** the error, the buffer and the size; [ptr0] is the offset of out_buf *)
Definition encodeBase64A (in_buf : list Z) (in_len : Z) (sep : list Z) (out : option (list Z)) (ptr0 : Z) (out_len : Z) : outcome (Z * option (list Z) * Z) :=
  let! bits := mul_int in_len 8 in
  let! bits := add_int bits 5 in
  let bytes := Z.quot bits 6 in
  let pad_bytes := if negb (Z.rem bytes 4 =? 0) then 4 - Z.rem bytes 4 else 0 in
  let needed := u32 (bytes + pad_bytes + 1) in
  let needed := u32 (needed + u32 ((needed / 64 + 1) * zlen sep)) in
  if out_len <? needed then Ret (ERROR_INSUFFICIENT_BUFFER, out, needed) else
  let! (out, ptr, d) := encode_groups (Z.to_nat (Z.quot in_len 3)) in_buf sep 0 out ptr0 in
  let! (out, ptr) := encode_rest pad_bytes d out ptr in
  let! out := strcpy out ptr sep in
  Ret (ERROR_SUCCESS, out, needed).

Definition crlf : list Z := [13; 10].
Definition lf : list Z := [10].
(** a flag of [dwFlags] is set *)
Definition has (dwFlags flag : Z) : bool := negb (Z.land dwFlags flag =? 0).
Definition separator (dwFlags : Z) : list Z :=
  if has dwFlags CRYPT_STRING_NOCR then lf else if has dwFlags CRYPT_STRING_NOCRLF then [] else crlf.
Definition format (dwFlags : Z) : Z := Z.land dwFlags 0x0fffffff.
Definition header_trailer_A (dwFlags : Z) : option (list Z * list Z) :=
  let f := format dwFlags in
  if f =? CRYPT_STRING_BASE64HEADER then Some (CERT_HEADER, CERT_TRAILER)
  else if f =? CRYPT_STRING_BASE64REQUESTHEADER then Some (CERT_REQUEST_HEADER, CERT_REQUEST_TRAILER)
  else if f =? CRYPT_STRING_BASE64X509CRLHEADER then Some (X509_HEADER, X509_TRAILER)
  else None.
Definition header_trailer_W (dwFlags : Z) : option (list Z * list Z) :=
  let f := format dwFlags in
  if f =? CRYPT_STRING_BASE64HEADER then Some (CERT_HEADER_W, CERT_TRAILER_W)
  else if f =? CRYPT_STRING_BASE64REQUESTHEADER then Some (CERT_REQUEST_HEADER_W, CERT_REQUEST_TRAILER_W)
  else if f =? CRYPT_STRING_BASE64X509CRLHEADER then Some (X509_HEADER_W, X509_TRAILER_W)
  else None.

(** header and separator are copied; the offset after them *)
Definition put_header (ht : option (list Z * list Z)) (sep : list Z) (buf : option (list Z)) : outcome (option (list Z) * Z) :=
  match ht with
  | None => Ret (buf, 0)
  | Some (header, _) =>
    let! buf := strcpy buf 0 header in
    let! buf := strcpy buf (zlen header) sep in
    Ret (buf, zlen header + zlen sep)
  end.
Definition extra_chars (ht : option (list Z * list Z)) (sep : list Z) : Z :=
  match ht with None => 0 | Some (header, trailer) => (zlen header + zlen sep) + (zlen trailer + zlen sep) end.

Definition BinaryToBase64A (pbBinary : list Z) (cbBinary dwFlags : Z) (pszString : option (list Z)) (pcchString : Z) : outcome to_string_res :=
  let sep := separator dwFlags in
  let ht := header_trailer_A dwFlags in
  let! (_, _, charsNeeded) := encodeBase64A pbBinary (s32 cbBinary) sep None 0 0 in
  let charsNeeded := u32 (charsNeeded + extra_chars ht sep) in
  if charsNeeded <=? pcchString then
    let! (buf, ptr) := put_header ht sep pszString in
    let! (_, buf, size) := encodeBase64A pbBinary (s32 cbBinary) sep buf ptr charsNeeded in
    let ptr := ptr + (size - 1) in
    let! (buf, charsNeeded) :=
      (match ht with
       | None => Ret (buf, charsNeeded)
       | Some (_, trailer) =>
         let! c := load buf (ptr - 1) in
         let '(ptr, charsNeeded) := if c =? 0 then (ptr - 1, u32 (charsNeeded - 1)) else (ptr, charsNeeded) in
         let! buf := strcpy buf ptr trailer in
         let! buf := strcpy buf (ptr + zlen trailer) sep in
         Ret (buf, charsNeeded)
       end) in
    Ret (true, 0, buf, u32 (charsNeeded - 1))
  else
    match pszString with
    | Some _ => Ret (false, ERROR_INSUFFICIENT_BUFFER, pszString, charsNeeded)
    | None => Ret (true, 0, pszString, charsNeeded)
    end.

(** [None] for a NULL pointer to the data or to the count *)
Definition CryptBinaryToStringA (pbBinary : option (list Z)) (cbBinary dwFlags : Z) (pszString : option (list Z)) (pcchString : option Z) : outcome (bool * Z * option (list Z) * option Z) :=
  match pbBinary, pcchString with
  | Some pbBinary, Some cch =>
    let f := format dwFlags in
    let run (encoder : list Z -> Z -> Z -> option (list Z) -> Z -> outcome to_string_res) :=
      let! (ret, err, buf, cch) := encoder pbBinary cbBinary dwFlags pszString cch in
      Ret (ret, err, buf, Some cch) in
    if f =? CRYPT_STRING_BINARY then run EncodeBinaryToBinaryA
    else if (f =? CRYPT_STRING_BASE64) || (f =? CRYPT_STRING_BASE64HEADER) || (f =? CRYPT_STRING_BASE64REQUESTHEADER)
            || (f =? CRYPT_STRING_BASE64X509CRLHEADER)
    then run BinaryToBase64A
    else Ret (false, ERROR_INVALID_PARAMETER, pszString, pcchString)
  | _, _ => Ret (false, ERROR_INVALID_PARAMETER, pszString, pcchString)
  end.

(** the wide functions differ in the type of a character only, except for
    BinaryToBase64W, which does not look for an extra terminator *)
Definition encodeBase64W := encodeBase64A.
Definition BinaryToBase64W (pbBinary : list Z) (cbBinary dwFlags : Z) (pszString : option (list Z)) (pcchString : Z) : outcome to_string_res :=
  let sep := separator dwFlags in
  let ht := header_trailer_W dwFlags in
  let! (_, _, charsNeeded) := encodeBase64W pbBinary (s32 cbBinary) sep None 0 0 in
  let charsNeeded := u32 (charsNeeded + extra_chars ht sep) in
  if charsNeeded <=? pcchString then
    let! (buf, ptr) := put_header ht sep pszString in
    let! (_, buf, size) := encodeBase64W pbBinary (s32 cbBinary) sep buf ptr charsNeeded in
    let ptr := ptr + (size - 1) in
    let! buf :=
      (match ht with
       | None => Ret buf
       | Some (_, trailer) =>
         let! buf := strcpy buf ptr trailer in
         strcpy buf (ptr + zlen trailer) sep
       end) in
    Ret (true, 0, buf, u32 (charsNeeded - 1))
  else
    match pszString with
    | Some _ => Ret (false, ERROR_INSUFFICIENT_BUFFER, pszString, charsNeeded)
    | None => Ret (true, 0, pszString, charsNeeded)
    end.
Definition CryptBinaryToStringW (pbBinary : option (list Z)) (cbBinary dwFlags : Z) (pszString : option (list Z)) (pcchString : option Z) : outcome (bool * Z * option (list Z) * option Z) :=
  match pbBinary, pcchString with
  | Some pbBinary, Some cch =>
    let f := format dwFlags in
    if (f =? CRYPT_STRING_BASE64) || (f =? CRYPT_STRING_BASE64HEADER) || (f =? CRYPT_STRING_BASE64REQUESTHEADER)
       || (f =? CRYPT_STRING_BASE64X509CRLHEADER)
    then
      let! (ret, err, buf, cch) := BinaryToBase64W pbBinary cbBinary dwFlags pszString cch in
      Ret (ret, err, buf, Some cch)
    else Ret (false, ERROR_INVALID_PARAMETER, pszString, pcchString)
  | _, _ => Ret (false, ERROR_INVALID_PARAMETER, pszString, pcchString)
  end.

(** ** Decoding *)
Definition decodeBase64Byte (c : Z) : Z :=
  if (65 <=? c) && (c <=? 90) then u8 (c - 65)
  else if (97 <=? c) && (c <=? 122) then u8 (c - 97 + 26)
  else if (48 <=? c) && (c <=? 57) then u8 (c - 48 + 52)
  else if c =? 43 then 62
  else if c =? 47 then 63
  else 64.
Definition byte0 (ip0 ip1 : Z) : Z := u8 (Z.lor (Z.shiftl ip0 2) (Z.shiftr ip1 4)).
Definition byte1 (ip1 ip2 : Z) : Z := u8 (Z.lor (Z.shiftl ip1 4) (Z.shiftr ip2 2)).
Definition byte2 (ip2 ip3 : Z) : Z := u8 (Z.lor (Z.shiftl ip2 6) ip3).

(** the bytes of four characters, [None] for ERROR_INVALID_DATA *)
Definition decode_quad (s : list Z) (d : Z) : outcome (option (list Z)) :=
  let! d2 := rd s (d + 2) in
  if d2 =? pad_char then
    let! d0 := rd s d in
    if 63 <? decodeBase64Byte d0 then Ret None else
    let! d1 := rd s (d + 1) in
    if 63 <? decodeBase64Byte d1 then Ret None else
    Ret (Some [byte0 (decodeBase64Byte d0) (decodeBase64Byte d1)])
  else
    let! d3 := rd s (d + 3) in
    let! d0 := rd s d in
    if 63 <? decodeBase64Byte d0 then Ret None else
    let! d1 := rd s (d + 1) in
    if 63 <? decodeBase64Byte d1 then Ret None else
    if 63 <? decodeBase64Byte d2 then Ret None else
    let ip0 := decodeBase64Byte d0 in
    let ip1 := decodeBase64Byte d1 in
    let ip2 := decodeBase64Byte d2 in
    if d3 =? pad_char then Ret (Some [byte0 ip0 ip1; byte1 ip1 ip2])
    else
      if 63 <? decodeBase64Byte d3 then Ret None else
      Ret (Some [byte0 ip0 ip1; byte1 ip1 ip2; byte2 ip2 (decodeBase64Byte d3)]).
Definition store_if (out : option (list Z)) (off : Z) (data : list Z) : outcome (option (list Z)) :=
  match out with None => Ret None | Some _ => store out off data end.
(** where the next block starts, [None] for NULL *)
Definition next_block (s : list Z) (d len : Z) : outcome (option Z) :=
  let third :=
    (if 4 <=? len then let! c := rd s (d + 4) in Ret (if c =? 0 then None else Some (d + 4)) else Ret None) in
  let second :=
    (if 5 <=? len then let! c := rd s (d + 4) in if c =? 10 then Ret (Some (d + 5)) else third else third) in
  if 6 <=? len then
    let! c := rd s (d + 4) in
    if c =? 13 then let! c := rd s (d + 5) in if c =? 10 then Ret (Some (d + 6)) else second
    else second
  else second.
(** the error, the next block, the buffer and the number of bytes; on an
    error nothing is written to them *)
Definition decodeBase64Block (s : list Z) (d in_len : Z) (out : option (list Z)) (outLen : Z) : outcome (Z * option Z * option (list Z) * Z) :=
  if in_len <? 4 then Ret (ERROR_INVALID_DATA, Some d, out, 0) else
  let! q := decode_quad s d in
  match q with
  | None => Ret (ERROR_INVALID_DATA, Some d, out, 0)
  | Some data =>
    let! out := store_if out outLen data in
    let! nextBlock := next_block s d in_len in
    Ret (ERROR_SUCCESS, nextBlock, out, zlen data)
  end.

(** what a conversion to binary leaves: the error, the buffer, its count, and
    the values behind two pointers that may be NULL *)
Record to_binary_res := mkRes { ret : Z; bin : option (list Z); cb : Z; skip : option Z; flags : option Z }.
Definition set_ptr (p : option Z) (v : Z) : option Z := match p with None => None | Some _ => Some v end.

Fixpoint decode_blocks (fuel : nat) (s : list Z) (cchString nextBlock : Z) (out : option (list Z)) (outLen : Z) : outcome (Z * option (list Z) * Z) :=
  match fuel with
  | O => Spin
  | S fuel =>
    let! (ret, next, out, len) := decodeBase64Block s nextBlock (s32 (cchString - nextBlock)) out outLen in
    if negb (ret =? ERROR_SUCCESS) then Ret (ret, out, outLen) else
    let outLen := u32 (outLen + len) in
    match next with
    | None => Ret (ret, out, outLen)
    | Some next => if u32 (cchString - next) <=? 0 then Ret (ret, out, outLen) else decode_blocks fuel s cchString next out outLen
    end
  end.
Definition Base64ToBinaryA (pszString : list Z) (cchString : Z) (pbBinary : option (list Z)) (pcbBinary : Z) (pdwSkip pdwFlags : option Z) : outcome to_binary_res :=
  let! (ret, out, outLen) := decode_blocks (Z.to_nat (cchString / 4) + 1) pszString cchString 0 pbBinary 0 in
  if ret =? ERROR_SUCCESS then Ret (mkRes ret out outLen (set_ptr pdwSkip 0) (set_ptr pdwFlags CRYPT_STRING_BASE64))
  else if ret =? ERROR_INSUFFICIENT_BUFFER then
    Ret (mkRes (match pbBinary with None => ERROR_SUCCESS | Some _ => ret end) out outLen pdwSkip pdwFlags)
  else Ret (mkRes ret out outLen pdwSkip pdwFlags).

Definition Base64WithHeaderAndTrailerToBinaryA (pszString : list Z) (cchString : Z) (header trailer : list Z) (pbBinary : option (list Z)) (pcbBinary : Z) (pdwSkip : option Z) : outcome (Z * option (list Z) * Z * option Z) :=
  let invalid := Ret (ERROR_INVALID_DATA, pbBinary, pcbBinary, pdwSkip) in
  if zlen header + zlen trailer <? cchString then
    let! p := strstr pszString header in
    match p with
    | None => invalid
    | Some ptr =>
      let trailerSpot := cchString - zlen trailer in
      let! c := rd pszString (cchString - 1) in
      let '(cchString, trailerSpot) := if c =? 10 then (cchString - 1, trailerSpot - 1) else (cchString, trailerSpot) in
      let! c := rd pszString (cchString - 1) in
      let '(cchString, trailerSpot) := if c =? 13 then (cchString - 1, trailerSpot - 1) else (cchString, trailerSpot) in
      let! same := strncmp_eq pszString trailerSpot trailer in
      if (same : bool) then
        let pdwSkip := set_ptr pdwSkip ptr in
        let ptr := ptr + zlen header in
        let! c := rd pszString ptr in
        let ptr := if c =? 13 then ptr + 1 else ptr in
        let! c := rd pszString ptr in
        let ptr := if c =? 10 then ptr + 1 else ptr in
        let cchString := u32 (cchString - (ptr + zlen trailer)) in
        let! r := Base64ToBinaryA (drop (Z.to_nat ptr) pszString) cchString pbBinary pcbBinary None None in
        Ret (ret r, bin r, cb r, pdwSkip)
      else invalid
    end
  else invalid.
(** a decoder of one header; the flags are set when it succeeds *)
Definition with_flag (flag : Z) (pdwFlags : option Z) (r : Z * option (list Z) * Z * option Z) : to_binary_res :=
  let '(ret, bin, cb, skip) := r in
  mkRes ret bin cb skip (if ret =? ERROR_SUCCESS then set_ptr pdwFlags flag else pdwFlags).
Definition Base64HeaderToBinaryA (pszString : list Z) (cchString : Z) (pbBinary : option (list Z)) (pcbBinary : Z) (pdwSkip pdwFlags : option Z) : outcome to_binary_res :=
  let! r := Base64WithHeaderAndTrailerToBinaryA pszString cchString CERT_HEADER CERT_TRAILER pbBinary pcbBinary pdwSkip in
  Ret (with_flag CRYPT_STRING_BASE64HEADER pdwFlags r).
Definition Base64RequestHeaderToBinaryA (pszString : list Z) (cchString : Z) (pbBinary : option (list Z)) (pcbBinary : Z) (pdwSkip pdwFlags : option Z) : outcome to_binary_res :=
  let! r := Base64WithHeaderAndTrailerToBinaryA pszString cchString CERT_REQUEST_HEADER CERT_REQUEST_TRAILER pbBinary pcbBinary pdwSkip in
  Ret (with_flag CRYPT_STRING_BASE64REQUESTHEADER pdwFlags r).
Definition Base64X509HeaderToBinaryA (pszString : list Z) (cchString : Z) (pbBinary : option (list Z)) (pcbBinary : Z) (pdwSkip pdwFlags : option Z) : outcome to_binary_res :=
  let! r := Base64WithHeaderAndTrailerToBinaryA pszString cchString X509_HEADER X509_TRAILER pbBinary pcbBinary pdwSkip in
  Ret (with_flag CRYPT_STRING_BASE64X509CRLHEADER pdwFlags r).

(** a second decoder is tried on what the first one left *)
Definition or_else (r : to_binary_res) (k : option (list Z) -> Z -> option Z -> option Z -> outcome to_binary_res) : outcome to_binary_res :=
  if ret r =? ERROR_INVALID_DATA then k (bin r) (cb r) (skip r) (flags r) else Ret r.
Definition Base64AnyToBinaryA (pszString : list Z) (cchString : Z) (pbBinary : option (list Z)) (pcbBinary : Z) (pdwSkip pdwFlags : option Z) : outcome to_binary_res :=
  let! r := Base64HeaderToBinaryA pszString cchString pbBinary pcbBinary pdwSkip pdwFlags in
  or_else r (Base64ToBinaryA pszString cchString).
Definition DecodeBinaryToBinaryA (pszString : list Z) (cchString : Z) (pbBinary : option (list Z)) (pcbBinary : Z) (pdwSkip pdwFlags : option Z) : outcome to_binary_res :=
  if pcbBinary <? cchString then
    match pbBinary with
    | None => Ret (mkRes ERROR_SUCCESS pbBinary cchString pdwSkip pdwFlags)
    | Some _ => Ret (mkRes ERROR_INSUFFICIENT_BUFFER pbBinary cchString pdwSkip pdwFlags)
    end
  else
    let! pbBinary :=
      (if negb (cchString =? 0) then let! d := read_bytes pszString cchString in store pbBinary 0 d else Ret pbBinary) in
    Ret (mkRes ERROR_SUCCESS pbBinary cchString pdwSkip pdwFlags).
Definition DecodeAnyA (pszString : list Z) (cchString : Z) (pbBinary : option (list Z)) (pcbBinary : Z) (pdwSkip pdwFlags : option Z) : outcome to_binary_res :=
  let! r := Base64HeaderToBinaryA pszString cchString pbBinary pcbBinary pdwSkip pdwFlags in
  let! r := or_else r (Base64ToBinaryA pszString cchString) in
  or_else r (DecodeBinaryToBinaryA pszString cchString).

(** the value returned, the error set and what is left *)
Definition finish (r : to_binary_res) : bool * Z * to_binary_res := (ret r =? ERROR_SUCCESS, ret r, r).
(** [None] for a NULL string *)
Definition CryptStringToBinaryA (pszString : option (list Z)) (cchString dwFlags : Z) (pbBinary : option (list Z)) (pcbBinary : Z) (pdwSkip pdwFlags : option Z) : outcome (bool * Z * to_binary_res) :=
  let fail err := Ret (false, err, mkRes err pbBinary pcbBinary pdwSkip pdwFlags) in
  match pszString with
  | None => fail ERROR_INVALID_PARAMETER
  | Some s =>
    if has dwFlags 0xfffffff0 then fail ERROR_INVALID_DATA else
    let run (decoder : list Z -> Z -> option (list Z) -> Z -> option Z -> option Z -> outcome to_binary_res) :=
      let! cchString := (if cchString =? 0 then strlen s else Ret cchString) in
      let! r := decoder s cchString pbBinary pcbBinary pdwSkip pdwFlags in
      Ret (finish r) in
    if dwFlags =? CRYPT_STRING_BASE64_ANY then run Base64AnyToBinaryA
    else if dwFlags =? CRYPT_STRING_BASE64 then run Base64ToBinaryA
    else if dwFlags =? CRYPT_STRING_BASE64HEADER then run Base64HeaderToBinaryA
    else if dwFlags =? CRYPT_STRING_BASE64REQUESTHEADER then run Base64RequestHeaderToBinaryA
    else if dwFlags =? CRYPT_STRING_BASE64X509CRLHEADER then run Base64X509HeaderToBinaryA
    else if dwFlags =? CRYPT_STRING_BINARY then run DecodeBinaryToBinaryA
    else if dwFlags =? CRYPT_STRING_ANY then run DecodeAnyA
    else fail ERROR_INVALID_PARAMETER
  end.

(** ** Decoding wide strings *)
Definition decodeBase64BlockW := decodeBase64Block.
Definition Base64ToBinaryW := Base64ToBinaryA.
Definition Base64WithHeaderAndTrailerToBinaryW := Base64WithHeaderAndTrailerToBinaryA.
Definition Base64HeaderToBinaryW (pszString : list Z) (cchString : Z) (pbBinary : option (list Z)) (pcbBinary : Z) (pdwSkip pdwFlags : option Z) : outcome to_binary_res :=
  let! r := Base64WithHeaderAndTrailerToBinaryW pszString cchString CERT_HEADER_W CERT_TRAILER_W pbBinary pcbBinary pdwSkip in
  Ret (with_flag CRYPT_STRING_BASE64HEADER pdwFlags r).
Definition Base64RequestHeaderToBinaryW (pszString : list Z) (cchString : Z) (pbBinary : option (list Z)) (pcbBinary : Z) (pdwSkip pdwFlags : option Z) : outcome to_binary_res :=
  let! r := Base64WithHeaderAndTrailerToBinaryW pszString cchString CERT_REQUEST_HEADER_W CERT_REQUEST_TRAILER_W pbBinary pcbBinary pdwSkip in
  Ret (with_flag CRYPT_STRING_BASE64REQUESTHEADER pdwFlags r).
Definition Base64X509HeaderToBinaryW (pszString : list Z) (cchString : Z) (pbBinary : option (list Z)) (pcbBinary : Z) (pdwSkip pdwFlags : option Z) : outcome to_binary_res :=
  let! r := Base64WithHeaderAndTrailerToBinaryW pszString cchString X509_HEADER_W X509_TRAILER_W pbBinary pcbBinary pdwSkip in
  Ret (with_flag CRYPT_STRING_BASE64X509CRLHEADER pdwFlags r).
Definition Base64AnyToBinaryW (pszString : list Z) (cchString : Z) (pbBinary : option (list Z)) (pcbBinary : Z) (pdwSkip pdwFlags : option Z) : outcome to_binary_res :=
  let! r := Base64HeaderToBinaryW pszString cchString pbBinary pcbBinary pdwSkip pdwFlags in
  or_else r (Base64ToBinaryW pszString cchString).
(** the two bytes of a wide character in memory *)
Definition wide_bytes (c : Z) : list Z := [u8 c; u8 (Z.shiftr c 8)].
Definition DecodeBinaryToBinaryW (pszString : list Z) (cchString : Z) (pbBinary : option (list Z)) (pcbBinary : Z) (pdwSkip pdwFlags : option Z) : outcome to_binary_res :=
  if pcbBinary <? cchString then
    match pbBinary with
    | None => Ret (mkRes ERROR_SUCCESS pbBinary cchString pdwSkip pdwFlags)
    | Some _ => Ret (mkRes ERROR_INSUFFICIENT_BUFFER pbBinary cchString pdwSkip pdwFlags)
    end
  else
    let! pbBinary :=
      (if negb (cchString =? 0) then
         let! d := read_bytes pszString cchString in store pbBinary 0 (concat (map wide_bytes d))
       else Ret pbBinary) in
    Ret (mkRes ERROR_SUCCESS pbBinary (u32 (cchString * 2)) pdwSkip pdwFlags).
Definition DecodeAnyW (pszString : list Z) (cchString : Z) (pbBinary : option (list Z)) (pcbBinary : Z) (pdwSkip pdwFlags : option Z) : outcome to_binary_res :=
  let! r := Base64HeaderToBinaryW pszString cchString pbBinary pcbBinary pdwSkip pdwFlags in
  let! r := or_else r (Base64ToBinaryW pszString cchString) in
  or_else r (DecodeBinaryToBinaryW pszString cchString).
Definition CryptStringToBinaryW (pszString : option (list Z)) (cchString dwFlags : Z) (pbBinary : option (list Z)) (pcbBinary : Z) (pdwSkip pdwFlags : option Z) : outcome (bool * Z * to_binary_res) :=
  let fail err := Ret (false, err, mkRes err pbBinary pcbBinary pdwSkip pdwFlags) in
  match pszString with
  | None => fail ERROR_INVALID_PARAMETER
  | Some s =>
    if has dwFlags 0xfffffff0 then fail ERROR_INVALID_DATA else
    let run (decoder : list Z -> Z -> option (list Z) -> Z -> option Z -> option Z -> outcome to_binary_res) :=
      let! cchString := (if cchString =? 0 then strlen s else Ret cchString) in
      let! r := decoder s cchString pbBinary pcbBinary pdwSkip pdwFlags in
      Ret (finish r) in
    if dwFlags =? CRYPT_STRING_BASE64_ANY then run Base64AnyToBinaryW
    else if dwFlags =? CRYPT_STRING_BASE64 then run Base64ToBinaryW
    else if dwFlags =? CRYPT_STRING_BASE64HEADER then run Base64HeaderToBinaryW
    else if dwFlags =? CRYPT_STRING_BASE64REQUESTHEADER then run Base64RequestHeaderToBinaryW
    else if dwFlags =? CRYPT_STRING_BASE64X509CRLHEADER then run Base64X509HeaderToBinaryW
    else if dwFlags =? CRYPT_STRING_BINARY then run DecodeBinaryToBinaryW
    else if dwFlags =? CRYPT_STRING_ANY then run DecodeAnyW
    else fail ERROR_INVALID_PARAMETER
  end.

End Base64.
