(* ===== verification/Base64Spec.v ===== *)
(** * Base64 conversions: what the calls promise

    The text that encoding writes, that decoding it gives the bytes back, for
    which lengths a header and a trailer are kept, and what decoding does to
    memory for any input. *)
From S2P Require Import Prelude Base64.
Import Base64.

Module Base64Spec.

Ltac conj := repeat match goal with |- _ /\ _ => split end.

(** ** Six bits at a time *)
Definition sym (v : Z) : Z := nthZ 0 b64 v.

Definition sym_ok (v : Z) : bool :=
  (decodeBase64Byte (sym v) =? v) && (sym v <? 256) &&
  negb (sym v =? 0) && negb (sym v =? 10) && negb (sym v =? 13) && negb (sym v =? pad_char) && negb (sym v =? 45).
Lemma sym_all : all_below 64 sym_ok = true.
Proof. vm_compute. reflexivity. Qed.
Lemma sym_spec v : 0 <= v < 64 ->
  code v = Ret (sym v) /\ decodeBase64Byte (sym v) = v /\ sym v <> 0 /\ sym v <> 10 /\ sym v <> 13 /\ sym v <> pad_char.
Proof.
  intros H. pose proof (all_below_spec 64 sym_ok sym_all v H) as E. unfold sym_ok in E. zhyps.
  conj; [|done..]. unfold code. by rewrite (rd_in 0) by (change (zlen b64) with 64; done).
Qed.

Lemma first6_div a : isU 8 a -> first6 a = a / 4.
Proof. intros Ha.
  unfold isU in *. unfold first6. rewrite Z.shiftr_div_pow2 by lia. change 0x3f with (2 ^ 6 - 1).
  rewrite land_pow2_mask by lia. change (2 ^ 2) with 4. change (2 ^ 6) with 64. dlia.
Qed.
Lemma hi2 a : isU 8 a -> Z.land (Z.shiftl a 4) 0x30 = (a mod 4) * 16.
Proof. intros Ha.
  change 0x30 with (Z.shiftl (2 ^ 2 - 1) 4). rewrite <- Z.shiftl_land, land_pow2_mask by lia.
  rewrite Z.shiftl_mul_pow2 by lia. done.
Qed.
Lemma hi4 b : isU 8 b -> Z.land (Z.shiftl b 2) 0x3c = (b mod 16) * 4.
Proof. intros Hb.
  change 0x3c with (Z.shiftl (2 ^ 4 - 1) 2). rewrite <- Z.shiftl_land, land_pow2_mask by lia.
  rewrite Z.shiftl_mul_pow2 by lia. done.
Qed.
Lemma second6_div a b : isU 8 a -> isU 8 b -> second6 a b = (a mod 4) * 16 + b / 16.
Proof. intros Ha Hb.
  unfold isU in *. unfold second6. rewrite hi2 by done. rewrite Z.shiftr_div_pow2 by lia. change 0x0f with (2 ^ 4 - 1).
  rewrite land_pow2_mask by lia. change (2 ^ 4) with 16. rewrite (Z.mod_small (b / 16)) by dlia.
  change 16 with (2 ^ 4) at 1. rewrite lor_low; [done|lia|change (2 ^ 4) with 16; dlia].
Qed.
Lemma third6_div b c : isU 8 b -> isU 8 c -> third6 b c = (b mod 16) * 4 + c / 64.
Proof. intros Hb Hc.
  unfold isU in *. unfold third6. rewrite hi4 by done. rewrite Z.shiftr_div_pow2 by lia. change 0x03 with (2 ^ 2 - 1).
  rewrite land_pow2_mask by lia. change (2 ^ 6) with 64. change (2 ^ 2) with 4. rewrite (Z.mod_small (c / 64)) by dlia.
  change 4 with (2 ^ 2). rewrite lor_low; [done|lia|change (2 ^ 2) with 4; dlia].
Qed.
Lemma fourth6_mod c : isU 8 c -> fourth6 c = c mod 64.
Proof. intros Hc. unfold fourth6. change 0x3f with (2 ^ 6 - 1). by rewrite land_pow2_mask by lia. Qed.

Lemma byte0_ok a x : isU 8 a -> 0 <= x < 16 -> byte0 (a / 4) ((a mod 4) * 16 + x) = a.
Proof.
  unfold isU, byte0. intros Ha Hx. rewrite Z.shiftr_div_pow2, Z.shiftl_mul_pow2 by lia.
  replace (((a mod 4) * 16 + x) / 2 ^ 4) with (a mod 4) by (change (2 ^ 4) with 16; dlia).
  rewrite lor_low; [|lia|change (2 ^ 2) with 4; dlia]. rewrite wrapU_small; [|unfold isU]; change (2 ^ 2) with 4; dlia.
Qed.
Lemma byte1_ok b x y : isU 8 b -> 0 <= x < 4 -> 0 <= y < 4 -> byte1 (x * 16 + b / 16) ((b mod 16) * 4 + y) = b.
Proof.
  unfold isU, byte1. intros Hb Hx Hy. rewrite Z.shiftr_div_pow2, Z.shiftl_mul_pow2 by lia.
  replace (((b mod 16) * 4 + y) / 2 ^ 2) with (b mod 16) by (change (2 ^ 2) with 4; dlia).
  rewrite lor_low; [|lia|change (2 ^ 4) with 16; dlia]. unfold wrapU. change (2 ^ 4) with 16. change (2 ^ 8) with 256 in *. dlia.
Qed.
Lemma byte2_ok c x : isU 8 c -> 0 <= x < 16 -> byte2 (x * 4 + c / 64) (c mod 64) = c.
Proof.
  unfold isU, byte2. intros Hc Hx. rewrite Z.shiftl_mul_pow2 by lia.
  rewrite lor_low; [|lia|change (2 ^ 6) with 64; dlia]. unfold wrapU. change (2 ^ 6) with 64. change (2 ^ 8) with 256 in *. dlia.
Qed.

(** ** The text *)

(** the four characters for one to three bytes *)
Definition block (x : list Z) : list Z :=
  match x with
  | [a] => [sym (a / 4); sym ((a mod 4) * 16); pad_char; pad_char]
  | [a; b] => [sym (a / 4); sym ((a mod 4) * 16 + b / 16); sym ((b mod 16) * 4); pad_char]
  | a :: b :: c :: _ => [sym (a / 4); sym ((a mod 4) * 16 + b / 16); sym ((b mod 16) * 4 + c / 64); sym (c mod 64)]
  | [] => []
  end.
(** a separator stands before group [k] when it is a whole one and 16 others
    precede it on the line *)
Definition lead (k : Z) (d sep : list Z) : list Z :=
  match d with
  | _ :: _ :: _ :: _ => if negb (k =? 0) && (k mod 16 =? 0) then sep else []
  | _ => []
  end.
Fixpoint body (k : Z) (d sep : list Z) : list Z :=
  match d with
  | [] => []
  | a :: b :: c :: d' => block [a; b; c] ++ lead (k + 1) d' sep ++ body (k + 1) d' sep
  | _ => block d
  end.
Definition text (d sep : list Z) : list Z := body 0 d sep ++ sep.

(** induction three bytes at a time *)
Lemma triple_ind (P : list Z -> Prop) :
  P [] -> (forall a, P [a]) -> (forall a b, P [a; b]) -> (forall a b c d, P d -> P (a :: b :: c :: d)) -> forall d, P d.
Proof.
  intros H0 H1 H2 H3 d. assert (H : forall n d, (length d <= n)%nat -> P d); [|by apply (H (length d))].
  clear d. induction n as [|n IH]; intros [|a [|b [|c d]]] Hn; simpl in Hn; try lia; auto.
  apply H3, IH. lia.
Qed.

(** *** Sizes *)
Definition nchars (n : Z) : Z := 4 * ((n + 2) / 3).
(** the separators that stand in the text and that the size counts *)
Definition nseps (n : Z) : Z := if n <? 3 then 1 else (n / 3 - 1) / 16 + 1.
Definition needed (n : Z) (sep : list Z) : Z := nchars n + 1 + ((nchars n + 1) / 64 + 1) * zlen sep.
(** the lengths for which a separator is counted that is not written *)
Definition overcounted (n : Z) : bool :=
  let r := n mod 48 in (46 <=? n) && ((r =? 46) || (r =? 47) || (r <=? 2)).

Lemma nseps_nonneg n : 0 <= nseps n.
Proof. unfold nseps. destruct (Z.ltb_spec n 3); [lia|dlia]. Qed.
Lemma zlen_lead k d sep : 0 <= k -> zlen (lead (k + 1) d sep) = if (3 <=? zlen d) && ((k + 1) mod 16 =? 0) then zlen sep else 0.
Proof.
  intros Hk. destruct d as [|a [|b [|c d]]]; try done. unfold lead. rewrite !zlen_cons. pose proof (zlen_nonneg d).
  replace (3 <=? zlen d + 1 + 1 + 1) with true by lia. replace (negb (k + 1 =? 0)) with true by lia. simpl. by case_match.
Qed.
Lemma zlen_body sep d : forall k, 0 <= k ->
  zlen (body k d sep) = nchars (zlen d) + (if zlen d <? 3 then 0 else (k + zlen d / 3 - 1) / 16 - k / 16) * zlen sep.
Proof.
  unfold nchars. induction d as [|a|a b|a b c d IH] using triple_ind; intros k Hk; [done..|].
  cbn [body]. rewrite !zlen_app, IH, zlen_lead, !zlen_cons by lia. change (zlen (block [a; b; c])) with 4. pose proof (zlen_nonneg d).
  replace (zlen d + 1 + 1 + 1 <? 3) with false by lia. 
  replace (4 * ((zlen d + 1 + 1 + 1 + 2) / 3)) with (4 + 4 * ((zlen d + 2) / 3)) by dlia.
  replace ((zlen d + 1 + 1 + 1) / 3) with (zlen d / 3 + 1) by dlia.
  destruct (Z.ltb_spec (zlen d) 3); [replace (3 <=? zlen d) with false by lia|replace (3 <=? zlen d) with true by lia]; simpl andb.
  - replace (zlen d / 3) with 0 by dlia. replace (k + (0 + 1) - 1) with k by lia. lia.
  - cbv iota. replace (k + (zlen d / 3 + 1) - 1) with (k + 1 + zlen d / 3 - 1) by lia.
    destruct (Z.eqb_spec ((k + 1) mod 16) 0).
    + replace ((k + 1) / 16) with (k / 16 + 1) by dlia. lia.
    + replace ((k + 1) / 16) with (k / 16) by dlia. lia.
Qed.
Lemma zlen_text d sep : zlen (text d sep) = nchars (zlen d) + nseps (zlen d) * zlen sep.
Proof.
  unfold text, nseps. rewrite zlen_app, zlen_body by lia. case_match; change (0 / 16) with 0; rewrite ?Z.add_0_l; lia.
Qed.
Lemma slack n sep : 0 <= n -> needed n sep = nchars n + nseps n * zlen sep + 1 + (if overcounted n then zlen sep else 0).
Proof.
  intros Hn. unfold needed, nchars, nseps, overcounted. cbv zeta.
  pose proof (Z.div_mod n 48 ltac:(lia)) as E. pose proof (Z.mod_pos_bound n 48 ltac:(lia)) as Hr.
  revert E Hr. generalize (n / 48) as m, (n mod 48) as r. intros m r -> Hr.
  assert (H : (4 * ((48 * m + r + 2) / 3) + 1) / 64 + 1 = (if 48 * m + r <? 3 then 1 else ((48 * m + r) / 3 - 1) / 16 + 1) +
    (if (46 <=? 48 * m + r) && ((r =? 46) || (r =? 47) || (r <=? 2)) then 1 else 0)); [|rewrite H; destruct ((46 <=? 48 * m + r) && _); ring].
  replace ((48 * m + r + 2) / 3) with (16 * m + (r + 2) / 3) by dlia. replace ((48 * m + r) / 3) with (16 * m + r / 3) by dlia.
  replace ((4 * (16 * m + (r + 2) / 3) + 1) / 64) with (m + (4 * ((r + 2) / 3) + 1) / 64) by dlia.
  replace ((16 * m + r / 3 - 1) / 16) with (m + (r / 3 - 1) / 16) by dlia.
  destruct (Z.ltb_spec (48 * m + r) 3).
  - assert (m = 0) as -> by lia. replace (46 <=? 48 * 0 + r) with false by lia. simpl. dlia.
  - destruct (Z.leb_spec 46 (48 * m + r)); simpl andb.
    + destruct (Z.eqb_spec r 46), (Z.eqb_spec r 47), (Z.leb_spec r 2); simpl; dlia.
    + assert (m = 0) as -> by lia. dlia.
Qed.

(** ** Writing *)

(** a buffer of [N] characters that begins with [p] *)
Definition holds (N : nat) (buf : option (list Z)) (p : list Z) : Prop :=
  exists l, buf = Some l /\ length l = N /\ take (length p) l = p.
Lemma holds_prefix N buf p q : holds N buf (p ++ q) -> holds N buf p.
Proof.
  intros (l & -> & Hl & Ht). exists l. conj; [done|done|]. rewrite length_app in Ht.
  replace (length p) with (length p `min` (length p + length q))%nat by lia. rewrite <- take_take, Ht. by rewrite take_app_length.
Qed.
Lemma store_holds N buf p d off : holds N buf p -> off = zlen p -> (length p + length d <= N)%nat ->
  exists buf', store buf off d = Ret buf' /\ holds N buf' (p ++ d).
Proof.
  intros (l & -> & Hl & Ht) -> H. destruct (put_bytes_ok l (zlen p) d) as (l' & E & Hl' & Ht');
    [apply zlen_nonneg|unfold zlen; lia|]. unfold store. rewrite E. cbn [obind]. eexists. split; [reflexivity|].
  exists l'. rewrite length_app. rewrite zlen_nat, Ht in Ht'. conj; [done|lia|done].
Qed.
Lemma strcpy_holds N buf p s off : holds N buf p -> off = zlen p -> (length p + length s + 1 <= N)%nat ->
  exists buf', strcpy buf off s = Ret buf' /\ holds N buf' (p ++ s) /\ holds N buf' (p ++ s ++ [0]).
Proof.
  intros Hh Ho H. unfold strcpy. destruct (store_holds N buf p (s ++ [0]) off Hh Ho) as (b & -> & Hb);
    [rewrite length_app; simpl; lia|]. exists b. conj; [done| |done]. rewrite app_assoc in Hb. by eapply holds_prefix.
Qed.

Lemma block_codes a b c : isU 8 a -> isU 8 b -> isU 8 c ->
  code (first6 a) = Ret (sym (a / 4)) /\ code (second6 a b) = Ret (sym ((a mod 4) * 16 + b / 16)) /\
  code (third6 b c) = Ret (sym ((b mod 16) * 4 + c / 64)) /\ code (fourth6 c) = Ret (sym (c mod 64)) /\
  code (Z.land (Z.shiftl b 2) 0x3c) = Ret (sym ((b mod 16) * 4)) /\ code (Z.land (Z.shiftl a 4) 0x30) = Ret (sym ((a mod 4) * 16)).
Proof.
  intros Ha Hb Hc. rewrite first6_div, second6_div, third6_div, fourth6_mod, hi2, hi4 by done. unfold isU in *.
  change (2 ^ 8) with 256 in *. conj; apply sym_spec; dlia.
Qed.

Lemma rd2 (x y z : Z) l : rd (x :: y :: z :: l) 2 = Ret z.
Proof. done. Qed.

(** the groups of three bytes, then the rest *)
Definition whole (d : list Z) : nat := (length d / 3)%nat.
Definition pad_bytes (d : list Z) : Z := match (zlen d) mod 3 with 1 => 2 | 2 => 1 | _ => 0 end.
Lemma encode_groups_ok N sep k d : forall i buf p ptr, bytes d -> 0 <= i -> ptr = zlen p ->
  holds N buf p -> (length p + length (lead i d sep ++ body i d sep ++ sep) + 1 <= N)%nat ->
  exists buf' ptr' d', encode_groups (whole d) (d ++ k) sep (4 * i) buf ptr = Ret (buf', ptr', d') /\
    exists buf'', encode_rest (pad_bytes d) d' buf' ptr' = Ret (buf'', zlen (p ++ lead i d sep ++ body i d sep)) /\
      holds N buf'' (p ++ lead i d sep ++ body i d sep).
Proof.
  induction d as [|a|a b|a b c d IH] using triple_ind; intros i buf p ptr Hd Hi -> Hp HN.
  - simpl lead. simpl body. rewrite !app_nil_r. exists buf, (zlen p), k. split; [done|]. by exists buf.
  - eexists _, _, _. split; [reflexivity|]. apply list.Forall_cons in Hd as [Ha _]. destruct (block_codes a a a Ha Ha Ha) as (E0 & _ & _ & _ & _ & E1).
    change (pad_bytes [a]) with 2. unfold encode_rest. simpl ((_ =? _)). cbv iota. cbn [app].
    rewrite rd0. cbn [obind]. rewrite E0. cbn [obind]. rewrite E1. cbn [obind].
    destruct (store_holds N buf p (block [a]) (zlen p) Hp eq_refl) as (b1 & E & Hb); [rewrite !length_app in HN; simpl in HN |- *; lia|].
    cbn [block] in E. rewrite E. cbn [obind]. exists b1. split; [|done]. by rewrite zlen_app.
  - eexists _, _, _. split; [reflexivity|]. apply list.Forall_cons in Hd as [Ha Hd]. apply list.Forall_cons in Hd as [Hb _].
    destruct (block_codes a b a Ha Hb Ha) as (E0 & E1 & _ & _ & E2 & _).
    change (pad_bytes [a; b]) with 1. unfold encode_rest. simpl ((_ =? _)). cbv iota. cbn [app].
    rewrite rd0. cbn [obind]. rewrite E0. cbn [obind]. rewrite rd1. cbn [obind]. rewrite E1. cbn [obind]. rewrite E2. cbn [obind].
    destruct (store_holds N buf p (block [a; b]) (zlen p) Hp eq_refl) as (b1 & E & Hbb); [rewrite !length_app in HN; simpl in HN |- *; lia|].
    cbn [block] in E. rewrite E. cbn [obind]. exists b1. split; [|done]. by rewrite zlen_app.
  - apply list.Forall_cons in Hd as [Ha Hd]. apply list.Forall_cons in Hd as [Hb Hd]. apply list.Forall_cons in Hd as [Hc Hd].
    assert (Hw : whole (a :: b :: c :: d) = S (whole d)).
    { unfold whole. cbn [length]. replace (S (S (S (length d)))) with (length d + 1 * 3)%nat by lia. rewrite Nat.div_add by lia. lia. }
    rewrite Hw. cbn [encode_groups].
    destruct (block_codes a b c Ha Hb Hc) as (E0 & E1 & E2 & E3 & _ & _).
    assert (Hl : exists buf1, (if negb (4 * i =? 0) && (Z.rem (4 * i) 64 =? 0) then
         let! out := strcpy buf (zlen p) sep in Ret (out, zlen p + zlen sep) else Ret (buf, zlen p)) =
         Ret (buf1, zlen (p ++ lead i (a :: b :: c :: d) sep)) /\ holds N buf1 (p ++ lead i (a :: b :: c :: d) sep)).
    { cbn [lead] in HN |- *. replace (negb (4 * i =? 0)) with (negb (i =? 0)) by lia. rewrite Z.rem_mod_nonneg by lia.
      replace ((4 * i) mod 64 =? 0) with (i mod 16 =? 0); cycle 1.
      { destruct (Z.eqb_spec (i mod 16) 0), (Z.eqb_spec ((4 * i) mod 64) 0); try done; exfalso; dlia. }
      destruct (negb (i =? 0) && (i mod 16 =? 0)); [|exists buf; by rewrite app_nil_r].
      destruct (strcpy_holds N buf p sep (zlen p) Hp eq_refl) as (b1 & -> & Hb1 & _); [rewrite !length_app in HN; lia|].
      cbn [obind]. exists b1. by rewrite zlen_app. }
    destruct Hl as (buf1 & -> & Hh1). cbn [obind app]. rewrite rd0, rd1, rd2. cbn [obind].
    rewrite E0. cbn [obind]. rewrite E1. cbn [obind]. rewrite E2. cbn [obind]. rewrite E3. cbn [obind].
    cbn [body] in HN |- *.
    destruct (store_holds N buf1 _ (block [a; b; c]) _ Hh1 eq_refl) as (buf2 & E & Hh2); [repeat rewrite length_app in HN; repeat rewrite length_app; lia|].
    cbn [block] in E. rewrite E. cbn [obind]. change (drop 3 (a :: b :: c :: d ++ k)) with (d ++ k). replace (4 * i + 4) with (4 * (i + 1)) by lia.
    replace (pad_bytes (a :: b :: c :: d)) with (pad_bytes d).
    2:{ unfold pad_bytes. rewrite !zlen_cons. replace ((zlen d + 1 + 1 + 1) mod 3) with (zlen d mod 3) by dlia. done. }
    destruct (IH (i + 1) buf2 ((p ++ lead i (a :: b :: c :: d) sep) ++ block [a; b; c]) (zlen (p ++ lead i (a :: b :: c :: d) sep) + 4) Hd ltac:(lia)) as (b3 & p3 & d3 & F & G);
      [|exact Hh2|repeat rewrite length_app in HN; repeat rewrite length_app; lia|].
    { rewrite (zlen_app (p ++ _) (block _)). done. }
    exists b3, p3, d3. split; [exact F|]. destruct G as (b4 & G1 & G2). exists b4. rewrite <- !app_assoc in G1, G2. done.
Qed.

Lemma pad_bytes_src d : let bytes := Z.quot (zlen d * 8 + 5) 6 in
  (if negb (Z.rem bytes 4 =? 0) then 4 - Z.rem bytes 4 else 0) = pad_bytes d /\ bytes + pad_bytes d = nchars (zlen d) /\
  Z.to_nat (Z.quot (zlen d) 3) = whole d.
Proof.
  pose proof (zlen_nonneg d). cbv zeta. rewrite !Z.quot_div_nonneg by lia. rewrite Z.rem_mod_nonneg; [|apply Z.div_pos; lia|lia].
  unfold pad_bytes, nchars, whole, zlen in *. revert H. generalize (length d) as n. intros n _.
  assert (n = 3 * (n / 3) + n mod 3)%nat as E by apply Nat.div_mod_eq. pose proof (Nat.mod_upper_bound n 3 ltac:(lia)) as Hr.
  revert E Hr. generalize (n / 3)%nat as q, (n mod 3)%nat as r. intros q r -> Hr.
  replace (Z.of_nat (3 * q + r)) with (3 * Z.of_nat q + Z.of_nat r) by lia.
  replace ((3 * Z.of_nat q + Z.of_nat r) mod 3) with (Z.of_nat r) by dlia.
  split; [|split]; [| |replace ((3 * Z.of_nat q + Z.of_nat r) / 3) with (Z.of_nat q) by dlia; apply Nat2Z.id].
  - destruct r as [|[|[|r]]]; [..|lia]; simpl Z.of_nat; zcasesd.
  - destruct r as [|[|[|r]]]; [change (Z.of_nat 0) with 0|change (Z.of_nat 1) with 1|change (Z.of_nat 2) with 2|lia]; cbv iota; dlia.
Qed.

Section Encode.
Context (d k sep : list Z) (Hd : bytes d) (Hn : zlen d < 2 ^ 28) (Hsep : zlen sep <= 2).
Lemma needed_bounds : 0 < needed (zlen d) sep < 2 ^ 30.
Proof using Hn Hsep.
  unfold needed, nchars. pose proof (zlen_nonneg d). pose proof (zlen_nonneg sep). change (2 ^ 28) with 268435456 in Hn.
  change (2 ^ 30) with 1073741824.
  assert (0 <= (4 * ((zlen d + 2) / 3) + 1) / 64 + 1 <= zlen d / 40 + 3) by dlia.
  assert (4 * ((zlen d + 2) / 3) <= 2 * zlen d + 8) by dlia. assert (zlen d / 40 <= 6710887) by dlia.
  assert (0 <= (zlen d + 2) / 3) by dlia. nia.
Qed.
(** the size that encodeBase64A asks for, and the text that it writes *)
Lemma encodeBase64A_eq buf ptr len :
  encodeBase64A (d ++ k) (zlen d) sep buf ptr len =
  if len <? needed (zlen d) sep then Ret (ERROR_INSUFFICIENT_BUFFER, buf, needed (zlen d) sep) else
  let! (out, ptr, d') := encode_groups (whole d) (d ++ k) sep (4 * 0) buf ptr in
  let! (out, ptr) := encode_rest (pad_bytes d) d' out ptr in
  let! out := strcpy out ptr sep in
  Ret (ERROR_SUCCESS, out, needed (zlen d) sep).
Proof using Hn Hsep.
  pose proof needed_bounds as Hb. pose proof (zlen_nonneg d). pose proof (zlen_nonneg sep). unfold encodeBase64A, mul_int, add_int.
  replace ((- 2 ^ 31 <=? zlen d * 8) && (zlen d * 8 <? 2 ^ 31)) with true by lia. cbn [obind].
  replace ((- 2 ^ 31 <=? zlen d * 8 + 5) && (zlen d * 8 + 5 <? 2 ^ 31)) with true by lia. cbn [obind].
  destruct (pad_bytes_src d) as (-> & -> & ->). unfold needed in Hb.
  assert (0 <= nchars (zlen d)) by (unfold nchars; assert (0 <= (zlen d + 2) / 3) by (apply Z.div_pos; lia); lia).
  assert (0 <= (nchars (zlen d) + 1) / 64) by (apply Z.div_pos; lia).
  rewrite (wrapU_small 32 (nchars (zlen d) + 1)) by (unfold isU; nia).
  rewrite (wrapU_small 32 (_ * _)) by (unfold isU; nia). rewrite wrapU_small by (unfold isU; nia). done.
Qed.
Lemma encodeBase64A_ok N buf p len : holds N buf p -> needed (zlen d) sep <= len -> zlen p + zlen (text d sep) + 1 <= Z.of_nat N ->
  exists buf', encodeBase64A (d ++ k) (zlen d) sep buf (zlen p) len = Ret (ERROR_SUCCESS, buf', needed (zlen d) sep) /\
    holds N buf' (p ++ text d sep ++ [0]).
Proof using Hd Hn Hsep.
  intros Hh Hlen HN. rewrite encodeBase64A_eq. replace (len <? needed (zlen d) sep) with false by lia.
  unfold text in *. assert (El : lead 0 d sep = []) by (by destruct d as [|? [|? [|? ?]]]).
  destruct (encode_groups_ok N sep k d 0 buf p (zlen p) Hd ltac:(lia) eq_refl Hh) as (b1 & p1 & d1 & -> & b2 & E2 & Hb2).
  { rewrite El. unfold zlen in HN. simpl. lia. }
  cbn [obind]. rewrite E2. cbn [obind]. rewrite El in *. simpl app in *.
  destruct (strcpy_holds N b2 _ sep _ Hb2 eq_refl) as (b3 & -> & _ & Hb3).
  { unfold zlen in HN. rewrite !length_app in *. lia. }
  cbn [obind]. exists b3. split; [done|]. by rewrite <- !app_assoc in *.
Qed.
End Encode.

(** ** Reading *)

(** the bytes that decoding finds, and the error that ends it *)
Fixpoint scan (fuel : nat) (s : list Z) (cch next : Z) : outcome (Z * list Z) :=
  match fuel with
  | O => Spin
  | S fuel =>
    if s32 (cch - next) <? 4 then Ret (ERROR_INVALID_DATA, []) else
    let! q := decode_quad s next in
    match q with
    | None => Ret (ERROR_INVALID_DATA, [])
    | Some data =>
      let! nb := next_block s next (s32 (cch - next)) in
      match nb with
      | None => Ret (ERROR_SUCCESS, data)
      | Some next =>
        if u32 (cch - next) <=? 0 then Ret (ERROR_SUCCESS, data) else
        let! (r, more) := scan fuel s cch next in Ret (r, data ++ more)
      end
    end
  end.

Lemma splice (l a b : list Z) n : (n + length a <= length l)%nat ->
  let l' := take n l ++ a ++ drop (n + length a) l in
  take (n + length a) l' ++ b ++ drop (n + length a + length b) l' = take n l ++ (a ++ b) ++ drop (n + length (a ++ b)) l.
Proof.
  intros H l'. subst l'. assert (Hl : length (take n l ++ a) = (n + length a)%nat) by (rewrite length_app, length_take; lia).
  rewrite (app_assoc (take n l)), <- (drop_drop _ (length b) (n + length a)). rewrite take_app_length', drop_app_length', drop_drop by done.
  rewrite length_app, <- !app_assoc. do 4 f_equal. lia.
Qed.
Lemma decode_blocks_scan s cch fuel : forall next n r data, scan fuel s cch next = Ret (r, data) -> 0 <= n -> n + zlen data < 2 ^ 32 ->
  decode_blocks fuel s cch next None n = Ret (r, None, n + zlen data) /\
  (forall l, n + zlen data <= zlen l -> decode_blocks fuel s cch next (Some l) n =
     Ret (r, Some (take (Z.to_nat n) l ++ data ++ drop (Z.to_nat n + length data) l), n + zlen data)) /\
  (forall l, n <= zlen l < n + zlen data -> decode_blocks fuel s cch next (Some l) n = Fault).
Proof.
  induction fuel as [|fuel IH]; intros next n r data E Hn Hb; [done|]. cbn [scan decode_blocks] in *. unfold decodeBase64Block.
  destruct (s32 (cch - next) <? 4).
  { injection E as <- <-. change (zlen (@nil Z)) with 0. rewrite Z.add_0_r. cbn [obind]. simpl negb. cbv iota.
    conj; [done|intros l Hl; cbn [app length]; by rewrite Nat.add_0_r, take_drop|lia]. }
  destruct (decode_quad s next) as [[q|]| |]; cbn [obind] in E |- *; [|injection E as <- <-|done|done]; cycle 1.
  { change (zlen (@nil Z)) with 0. rewrite Z.add_0_r. simpl negb. cbv iota. conj; [done|intros l Hl; cbn [app length]; by rewrite Nat.add_0_r, take_drop|lia]. }
  unfold store_if. cbn [obind].
  assert (Hs : forall l, store (Some l) n q = if n + zlen q <=? zlen l
    then Ret (Some (take (Z.to_nat n) l ++ q ++ drop (Z.to_nat n + length q) l)) else Fault).
  { intros l. unfold store, put_bytes. replace (0 <=? n) with true by lia. simpl andb. by destruct (n + zlen q <=? zlen l). }
  destruct (next_block s next (s32 (cch - next))) as [nb| |]; cbn [obind] in E |- *; [|done|done].
  assert (Hend : (r, data) = (ERROR_SUCCESS, q) -> 
    Ret (ERROR_SUCCESS, @None (list Z), u32 (n + zlen q)) = Ret (r, None, n + zlen data) /\
    (forall l, n + zlen data <= zlen l -> (let! o := store (Some l) n q in Ret (ERROR_SUCCESS, o, u32 (n + zlen q))) =
       Ret (r, Some (take (Z.to_nat n) l ++ data ++ drop (Z.to_nat n + length data) l), n + zlen data)) /\
    (forall l, n <= zlen l < n + zlen data -> (let! o := store (Some l) n q in Ret (ERROR_SUCCESS, o, u32 (n + zlen q))) = Fault)).
  { intros [= -> ->]. pose proof (zlen_nonneg q). rewrite wrapU_small by (unfold isU; lia). conj; [done| |]; intros l Hl; rewrite Hs.
    - by replace (n + zlen q <=? zlen l) with true by lia.
    - by replace (n + zlen q <=? zlen l) with false by lia. }
  destruct nb as [next'|]; [destruct (u32 (cch - next') <=? 0) eqn:Hz|].
  - specialize (Hend ltac:(congruence)) as (H1 & H2 & H3). simpl negb. cbv iota. conj; [exact H1| |].
    + intros l Hl. specialize (H2 l Hl). destruct (store (Some l) n q); [|done..]. cbn [obind] in *. simpl negb. cbv iota. by rewrite ?Hz.
    + intros l Hl. specialize (H3 l Hl). by destruct (store (Some l) n q).
  - destruct (scan fuel s cch next') as [[r' more]| |] eqn:E'; cbn [obind] in E; [|done|done]. injection E as <- <-.
    rewrite zlen_app in *. pose proof (zlen_nonneg q). pose proof (zlen_nonneg more). simpl negb. cbv iota.
    destruct (IH next' (n + zlen q) r' more E' ltac:(lia) ltac:(lia)) as (I1 & I2 & I3). rewrite (wrapU_small 32 (n + zlen q)) by (unfold isU; lia).
    rewrite !Z.add_assoc. conj; [done| |]; intros l Hl; rewrite Hs.
    + replace (n + zlen q <=? zlen l) with true by lia. cbn [obind]. simpl negb. cbv iota. rewrite Hz, (wrapU_small 32 (n + zlen q)) by (unfold isU; lia).
      assert (Hll : (Z.to_nat n + length q <= length l)%nat) by (unfold zlen in *; lia).
      rewrite I2 by (unfold zlen in *; rewrite !length_app, length_take, length_drop; lia). rewrite <- (splice l q more (Z.to_nat n) Hll).
      replace (Z.to_nat (n + zlen q)) with (Z.to_nat n + length q)%nat by (unfold zlen; lia). done.
    + destruct (Z.leb_spec (n + zlen q) (zlen l)); [|done]. cbn [obind]. simpl negb. cbv iota. rewrite Hz, (wrapU_small 32 (n + zlen q)) by (unfold isU; lia).
      apply I3. unfold zlen in *. rewrite !length_app, length_take, length_drop. lia.
  - specialize (Hend ltac:(congruence)) as (H1 & H2 & H3). simpl negb. cbv iota. conj; [exact H1| |].
    + intros l Hl. specialize (H2 l Hl). destruct (store (Some l) n q); [|done..]. cbn [obind] in *. simpl negb. cbv iota. by rewrite ?Hz.
    + intros l Hl. specialize (H3 l Hl). by destruct (store (Some l) n q).
Qed.

Lemma rd_shift (pre l : list Z) i : 0 <= i -> rd (pre ++ l) (zlen pre + i) = rd l i.
Proof.
  intros Hi. unfold rd, zlen. assert (0 <= Z.of_nat (length pre) + i) by lia. replace (Z.of_nat (length pre) + i <? 0) with false by lia. replace (i <? 0) with false by lia.
  rewrite lookup_app_r by lia. by replace (Z.to_nat (Z.of_nat (length pre) + i) - length pre)%nat with (Z.to_nat i) by lia.
Qed.
Lemma rd_shift0 (pre l : list Z) : rd (pre ++ l) (zlen pre) = rd l 0.
Proof. rewrite <- (rd_shift pre l 0) by lia. by rewrite Z.add_0_r. Qed.

Section Next.
Context (pre : list Z) (c0 c1 c2 c3 : Z).
Lemma next_crlf R len : 6 <= len -> next_block (pre ++ c0 :: c1 :: c2 :: c3 :: 13 :: 10 :: R) (zlen pre) len = Ret (Some (zlen pre + 6)).
Proof. intros H. unfold next_block. rewrite !rd_shift by lia. by replace (6 <=? len) with true by lia. Qed.
Lemma next_lf R len : 5 <= len -> next_block (pre ++ c0 :: c1 :: c2 :: c3 :: 10 :: R) (zlen pre) len = Ret (Some (zlen pre + 5)).
Proof.
  intros H. unfold next_block. rewrite !rd_shift by lia. replace (5 <=? len) with true by lia. by destruct (6 <=? len).
Qed.
Lemma next_char x R len : 4 <= len -> len = 4 \/ (x <> 13 /\ x <> 10) ->
  next_block (pre ++ c0 :: c1 :: c2 :: c3 :: x :: R) (zlen pre) len = Ret (if x =? 0 then None else Some (zlen pre + 4)).
Proof.
  intros H Hx. unfold next_block. rewrite !rd_shift by lia. change (rd (c0 :: c1 :: c2 :: c3 :: x :: R) 4) with (Ret x). cbn [obind].
  replace (4 <=? len) with true by lia. destruct Hx as [-> | [H1 H2]]; [done|].
  replace (x =? 13) with false by lia. replace (x =? 10) with false by lia. by destruct (6 <=? len), (5 <=? len).
Qed.
End Next.

Lemma bytes_cons x l : bytes (x :: l) <-> isU 8 x /\ bytes l.
Proof. apply list.Forall_cons. Qed.
Lemma bytes_split3 a b c d : bytes (a :: b :: c :: d) -> bytes [a; b; c] /\ bytes d.
Proof. intros H. by apply (Forall_app _ [a; b; c]). Qed.
(** a block is read back *)
Lemma decode_quad_block pre x R : bytes x -> (1 <= length x <= 3)%nat ->
  decode_quad (pre ++ block x ++ R) (zlen pre) = Ret (Some x).
Proof.
  intros Hx Hl. unfold decode_quad. rewrite !rd_shift, rd_shift0 by lia.
  assert (S : forall v, 0 <= v < 64 -> decodeBase64Byte (sym v) = v /\ (sym v =? pad_char) = false /\ (63 <? v) = false).
  { intros v Hv. destruct (sym_spec v Hv) as (_ & E & _ & _ & _ & Hp). conj; [done|lia|lia]. }
  destruct x as [|a [|b [|c [|? ?]]]]; simpl in Hl; try lia; cbn [block app]; rewrite rd0, rd1, rd2; cbn [obind].
  - apply bytes_cons in Hx as [Ha _]. change (pad_char =? pad_char) with true. cbv iota. unfold isU in *. change (2 ^ 8) with 256 in *.
    destruct (S (a / 4)) as (-> & _ & ->); [dlia|]. destruct (S ((a mod 4) * 16)) as (-> & _ & ->); [dlia|].
    replace ((a mod 4) * 16) with ((a mod 4) * 16 + 0) by lia. by rewrite byte0_ok by (done || lia).
  - apply bytes_cons in Hx as [Ha Hx]. apply bytes_cons in Hx as [Hb _].
    change (rd (_ :: _ :: _ :: pad_char :: R) 3) with (Ret pad_char). cbn [obind].
    assert (H := Ha). assert (H0 := Hb). unfold isU in H, H0. change (2 ^ 8) with 256 in *.
    destruct (S (a / 4)) as (-> & _ & ->); [dlia|]. destruct (S ((a mod 4) * 16 + b / 16)) as (-> & _ & ->); [dlia|].
    destruct (S ((b mod 16) * 4)) as (-> & -> & ->); [dlia|]. change (pad_char =? pad_char) with true. cbv iota.
    rewrite byte0_ok by (done || dlia). replace ((b mod 16) * 4) with ((b mod 16) * 4 + 0) by lia.
    by rewrite byte1_ok by (done || dlia).
  - apply bytes_cons in Hx as [Ha Hx]. apply bytes_cons in Hx as [Hb Hx]. apply bytes_cons in Hx as [Hc _].
    change (rd (?a :: ?b :: ?c :: ?d :: R) 3) with (Ret d). cbn [obind].
    assert (H := Ha). assert (H0 := Hb). assert (H1 := Hc). unfold isU in H, H0, H1. change (2 ^ 8) with 256 in *.
    destruct (S (a / 4)) as (-> & _ & ->); [dlia|]. destruct (S ((a mod 4) * 16 + b / 16)) as (-> & _ & ->); [dlia|].
    destruct (S ((b mod 16) * 4 + c / 64)) as (-> & -> & ->); [dlia|]. destruct (S (c mod 64)) as (-> & -> & ->); [dlia|].
    rewrite byte0_ok by (done || dlia). rewrite byte1_ok by (done || dlia). by rewrite byte2_ok by (done || dlia).
Qed.

Definition is_sep (sep : list Z) : Prop := sep = [] \/ sep = lf \/ sep = crlf.
Lemma is_sep_len sep : is_sep sep -> 0 <= zlen sep <= 2.
Proof. intros [-> | [-> | ->]]; unfold zlen; simpl; lia. Qed.
Lemma block_head x : bytes x -> (1 <= length x)%nat -> exists c0 c1 c2 c3, block x = [c0; c1; c2; c3] /\ c0 <> 0 /\ c0 <> 10 /\ c0 <> 13.
Proof.
  intros Hx Hl. destruct x as [|a x]; [simpl in Hl; lia|]. apply bytes_cons in Hx as [Ha _]. unfold isU in Ha. change (2 ^ 8) with 256 in Ha.
  destruct (sym_spec (a / 4)) as (_ & _ & H0 & H1 & H2 & _); [dlia|].
  destruct x as [|b [|c x]]; cbn [block]; eexists _, _, _, _; by split.
Qed.
Lemma body_head k d sep : bytes d -> d <> [] -> exists c0 r, body k d sep = c0 :: r /\ c0 <> 0 /\ c0 <> 10 /\ c0 <> 13.
Proof.
  intros Hd Hn. destruct d as [|a [|b [|c d]]]; [done|..].
  - destruct (block_head [a] Hd) as (c0 & c1 & c2 & c3 & E & H); [simpl; lia|]. cbn [body]. rewrite E. eauto.
  - destruct (block_head [a; b] Hd) as (c0 & c1 & c2 & c3 & E & H); [simpl; lia|]. cbn [body]. rewrite E. eauto.
  - destruct (block_head [a; b; c]) as (c0 & c1 & c2 & c3 & E & H); [by apply bytes_split3 in Hd as [? _]|simpl; lia|].
    cbn [body]. rewrite E. simpl. eauto.
Qed.
Lemma s32_nonneg x : 0 <= x < 2 ^ 31 -> s32 x = x.
Proof. intros H. apply wrapS_small; [lia|]. unfold isS. simpl. lia. Qed.

(** the last block of a text *)
Lemma scan_last fuel pre x sep post : bytes x -> (1 <= length x <= 3)%nat -> is_sep sep -> post <> [] ->
  zlen pre + 4 + zlen sep < 2 ^ 31 ->
  scan (S fuel) (pre ++ block x ++ sep ++ post) (zlen pre + 4 + zlen sep) (zlen pre) = Ret (ERROR_SUCCESS, x).
Proof.
  intros Hx Hl Hsep Hp Hc. pose proof (is_sep_len sep Hsep). pose proof (zlen_nonneg pre). cbn [scan].
  replace (zlen pre + 4 + zlen sep - zlen pre) with (4 + zlen sep) by lia. rewrite s32_nonneg by lia.
  replace (4 + zlen sep <? 4) with false by lia. rewrite decode_quad_block by done. cbn [obind].
  destruct (block_head x Hx) as (c0 & c1 & c2 & c3 & -> & _); [lia|]. cbn [app]. destruct post as [|y post]; [done|].
  destruct Hsep as [-> | [-> | ->]]; unfold lf, crlf; cbn [app].
  - change (4 + zlen (@nil Z)) with 4. rewrite next_char by (done || lia || by left). cbn [obind]. destruct (y =? 0); [done|].
    rewrite zlen_nil, Z.add_0_r, Z.sub_diag. done.
  - rewrite next_lf by done. cbn [obind]. change (zlen [10]) with 1. replace (zlen pre + 4 + 1 - (zlen pre + 5)) with 0 by lia. done.
  - rewrite next_crlf by done. cbn [obind]. change (zlen [13; 10]) with 2. replace (zlen pre + 4 + 2 - (zlen pre + 6)) with 0 by lia. done.
Qed.
(** a block with more text after it *)
Lemma scan_more fuel pre x sep R cch : bytes x -> (1 <= length x <= 3)%nat -> is_sep sep ->
  (exists y R', R = y :: R' /\ y <> 0 /\ y <> 10 /\ y <> 13) ->
  zlen pre + 4 + zlen sep < cch < 2 ^ 31 ->
  scan (S fuel) (pre ++ block x ++ sep ++ R) cch (zlen pre) =
    let! (r, more) := scan fuel ((pre ++ block x ++ sep) ++ R) cch (zlen (pre ++ block x ++ sep)) in Ret (r, x ++ more).
Proof.
  intros Hx Hl Hsep (y & R' & -> & Y0 & Y1 & Y2) Hc. pose proof (is_sep_len sep Hsep). pose proof (zlen_nonneg pre). cbn [scan].
  rewrite s32_nonneg by lia. replace (cch - zlen pre <? 4) with false by lia. rewrite decode_quad_block by done. cbn [obind].
  assert (Hb : zlen (block x) = 4) by (destruct (block_head x Hx) as (? & ? & ? & ? & -> & _); [lia|done]).
  assert (Hn : next_block (pre ++ block x ++ sep ++ y :: R') (zlen pre) (cch - zlen pre) = Ret (Some (zlen (pre ++ block x ++ sep)))).
  { rewrite !zlen_app, Hb. destruct (block_head x Hx) as (c0 & c1 & c2 & c3 & -> & _); [lia|].
    destruct Hsep as [-> | [-> | ->]]; unfold lf, crlf; cbn [app].
    - rewrite next_char by (lia || by right). replace (y =? 0) with false by lia. rewrite zlen_nil. do 2 f_equal; lia.
    - change (zlen lf) with 1 in *. rewrite next_lf by lia. change (zlen [10]) with 1. do 2 f_equal; lia.
    - change (zlen crlf) with 2 in *. rewrite next_crlf by lia. change (zlen [13; 10]) with 2. do 2 f_equal; lia. }
  rewrite Hn. cbn [obind]. rewrite wrapU_small by (unfold isU; rewrite !zlen_app, Hb; lia).
  replace (cch - zlen (pre ++ block x ++ sep) <=? 0) with false by (rewrite !zlen_app, Hb; lia).
  by rewrite <- !app_assoc.
Qed.

Lemma lead_cases k d sep : is_sep sep -> is_sep (lead k d sep).
Proof.
  intros H. unfold lead. destruct d as [|? [|? [|? ?]]]; try (by left). by destruct (negb (k =? 0) && (k mod 16 =? 0)); [|left].
Qed.
Lemma scan_text sep post d : bytes d -> d <> [] -> is_sep sep -> post <> [] ->
  forall k pre fuel, ((length d + 2) / 3 <= fuel)%nat -> zlen pre + zlen (body k d sep) + zlen sep < 2 ^ 31 ->
  scan fuel (pre ++ body k d sep ++ sep ++ post) (zlen pre + zlen (body k d sep) + zlen sep) (zlen pre) = Ret (ERROR_SUCCESS, d).
Proof.
  intros Hd Hn Hsep Hp. revert Hd Hn. induction d as [|a|a b|a b c d IH] using triple_ind; intros Hd Hn k pre fuel Hf Hlt;
    [done|destruct fuel as [|fuel]; [exfalso; revert Hf; apply Nat.lt_nge, Nat.div_str_pos; cbn [length]; lia|]..].
  - apply scan_last; try done. simpl. lia.
  - apply scan_last; try done. simpl. lia.
  - apply bytes_split3 in Hd as [Hx Hd].
    cbn [body] in Hlt |- *. destruct d as [|e d'] eqn:Ed.
    { change (block [a; b; c] ++ lead (k + 1) [] sep ++ body (k + 1) [] sep) with (block [a; b; c]) in *.
      apply scan_last; try done. simpl. lia. }
    rewrite <- Ed in *. assert (Hd0 : d <> []) by (by rewrite Ed).
    destruct (body_head (k + 1) d sep Hd Hd0) as (y & R' & EB & HY).
    rewrite !zlen_app in Hlt |- *. change (zlen (block [a; b; c])) with 4 in *.
    pose proof (is_sep_len _ (lead_cases (k + 1) d sep Hsep)). pose proof (zlen_nonneg (body (k + 1) d sep)). pose proof (is_sep_len sep Hsep).
    assert (0 < zlen (body (k + 1) d sep)) by (rewrite EB, zlen_cons; pose proof (zlen_nonneg R'); lia).
    rewrite <- !app_assoc. rewrite scan_more; [|done|simpl; lia|by apply lead_cases| |lia].
    2:{ rewrite EB. simpl. eauto. }
    match goal with |- context [scan fuel _ ?cch _] =>
      replace cch with (zlen (pre ++ block [a; b; c] ++ lead (k + 1) d sep) + zlen (body (k + 1) d sep) + zlen sep) by (rewrite !zlen_app; change (zlen (block [a; b; c])) with 4; lia) end.
    rewrite IH; [done|done|done| |].
    { cbn [length] in Hf. replace (S (S (S (length d))) + 2)%nat with (length d + 2 + 1 * 3)%nat in Hf by lia. rewrite Nat.div_add in Hf by lia. lia. }
    rewrite !zlen_app. change (zlen (block [a; b; c])) with 4. lia.
Qed.

(** ** Any input *)
Lemma rd_ok (s : list Z) i : 0 <= i < zlen s -> exists c, rd s i = Ret c.
Proof. intros H. rewrite (rd_in 0) by done. eauto. Qed.
Lemma decode_quad_total s d : 0 <= d -> d + 3 < zlen s ->
  exists q, decode_quad s d = Ret q /\ forall data, q = Some data -> 1 <= zlen data <= 3.
Proof.
  intros H0 H. unfold decode_quad. destruct (rd_ok s (d + 2)) as [c2 ->]; [lia|]. destruct (rd_ok s (d + 3)) as [c3 ->]; [lia|].
  destruct (rd_ok s d) as [c0 ->]; [lia|]. destruct (rd_ok s (d + 1)) as [c1 ->]; [lia|]. cbn [obind].
  repeat case_match; eexists; (split; [reflexivity|]); intros data Hq; inversion Hq; unfold zlen; simpl; lia.
Qed.
Lemma next_block_total s d len : 0 <= d -> 4 <= len -> d + len < zlen s ->
  exists nb, next_block s d len = Ret nb /\ forall n, nb = Some n -> d + 4 <= n <= d + len.
Proof.
  intros H0 H4 H. unfold next_block. destruct (rd_ok s (d + 4)) as [c4 ->]; [lia|]. cbn [obind]. rewrite (proj2 (Z.leb_le 4 len)) by done.
  assert (H3 : forall c, exists nb, Ret (if c =? 0 then None else Some (d + 4)) = Ret nb /\ forall n, nb = Some n -> d + 4 <= n <= d + len).
  { intros c. eexists. split; [reflexivity|]. intros n Hn. destruct (c =? 0); [done|]. injection Hn as <-. lia. }
  assert (H2 : exists nb, (if 5 <=? len then if c4 =? 10 then Ret (Some (d + 5)) else Ret (if c4 =? 0 then None else Some (d + 4))
    else Ret (if c4 =? 0 then None else Some (d + 4))) = Ret nb /\ forall n, nb = Some n -> d + 4 <= n <= d + len).
  { destruct (Z.leb_spec 5 len); [|done]. destruct (c4 =? 10); [|done]. eexists. split; [reflexivity|]. intros n [= <-]. lia. }
  destruct (Z.leb_spec 6 len); [|done]. destruct (c4 =? 13); [|done]. destruct (rd_ok s (d + 5)) as [c5 ->]; [lia|]. cbn [obind].
  destruct (c5 =? 10); [|done]. eexists. split; [reflexivity|]. intros n [= <-]. lia.
Qed.
Lemma scan_total s cch : cch < zlen s -> cch < 2 ^ 31 -> forall fuel next, 0 <= next <= cch -> (cch - next) / 4 < Z.of_nat fuel ->
  exists r data, scan fuel s cch next = Ret (r, data) /\ 4 * zlen data <= 3 * (cch - next) /\ (r = ERROR_SUCCESS \/ r = ERROR_INVALID_DATA).
Proof.
  intros Hs Hc. induction fuel as [|fuel IH]; intros next Hn Hf; [exfalso; dlia|]. cbn [scan]. rewrite s32_nonneg by lia.
  assert (Hbad : exists r (data : list Z), Ret (ERROR_INVALID_DATA, []) = Ret (r, data) /\ 4 * zlen data <= 3 * (cch - next) /\ (r = ERROR_SUCCESS \/ r = ERROR_INVALID_DATA)).
  { exists ERROR_INVALID_DATA, []. split; [done|]. change (zlen (@nil Z)) with 0. split; [lia|by right]. }
  destruct (Z.ltb_spec (cch - next) 4); [done|].
  destruct (decode_quad_total s next) as (q & -> & Hq); [lia|lia|]. cbn [obind]. destruct q as [data|]; [|done]. specialize (Hq data eq_refl).
  destruct (next_block_total s next (cch - next)) as (nb & -> & Hb); [lia|lia|lia|]. cbn [obind].
  destruct nb as [n'|]; [|eexists _, _; split; [reflexivity|split; [lia|by left]]]. specialize (Hb n' eq_refl).
  rewrite wrapU_small by (unfold isU; lia). destruct (Z.leb_spec (cch - n') 0); [eexists _, _; split; [reflexivity|split; [lia|by left]]|].
  destruct (IH n') as (r & more & -> & Hm & Hr); [lia|dlia|]. cbn [obind]. eexists _, _. split; [reflexivity|]. rewrite zlen_app. split; [lia|done].
Qed.

Lemma Base64ToBinaryA_scan s cch r data cb sk fl : 0 <= cch < 2 ^ 31 -> scan (Z.to_nat (cch / 4) + 1) s cch 0 = Ret (r, data) ->
  zlen data < 2 ^ 32 -> r = ERROR_SUCCESS \/ r = ERROR_INVALID_DATA ->
  let res out := mkRes r out (zlen data) (if r =? 0 then set_ptr sk 0 else sk) (if r =? 0 then set_ptr fl CRYPT_STRING_BASE64 else fl) in
  Base64ToBinaryA s cch None cb sk fl = Ret (res None) /\
  (forall l, zlen data <= zlen l -> Base64ToBinaryA s cch (Some l) cb sk fl = Ret (res (Some (data ++ drop (length data) l)))) /\
  (forall l, zlen l < zlen data -> Base64ToBinaryA s cch (Some l) cb sk fl = Fault).
Proof.
  intros Hc E Hd Hr res. destruct (decode_blocks_scan s cch _ 0 0 r data E ltac:(lia) ltac:(lia)) as (H1 & H2 & H3).
  unfold Base64ToBinaryA. rewrite Z.add_0_l in *. subst res. conj.
  - rewrite H1. cbn [obind]. by destruct Hr as [-> | ->].
  - intros l Hl. rewrite H2 by done. cbn [obind]. by destruct Hr as [-> | ->].
  - intros l Hl. by rewrite H3 by (pose proof (zlen_nonneg l); lia).
Qed.

(** ** Strings *)
Lemma starts_app t r : starts t (t ++ r) = Ret true.
Proof. induction t as [|c t IH]; [by destruct r|]. cbn [starts app]. by rewrite Z.eqb_refl. Qed.
Lemma strstr_prefix h r : strstr (h ++ r) h = Ret (Some 0).
Proof. unfold strstr. pose proof (starts_app h r) as E. destruct (h ++ r) eqn:El; cbn [strstr_from]; rewrite E; done. Qed.

Lemma scan_string t k : zlen t < 2 ^ 31 ->
  exists r data, scan (Z.to_nat (zlen t / 4) + 1) (t ++ 0 :: k) (zlen t) 0 = Ret (r, data) /\ 4 * zlen data <= 3 * zlen t /\
    (r = ERROR_SUCCESS \/ r = ERROR_INVALID_DATA).
Proof.
  intros Ht. pose proof (zlen_nonneg t). destruct (scan_total (t ++ 0 :: k) (zlen t)) with (fuel := (Z.to_nat (zlen t / 4) + 1)%nat) (next := 0) as (r & data & E & H1 & H2).
  - rewrite zlen_app, zlen_cons. pose proof (zlen_nonneg k). lia.
  - done.
  - lia.
  - rewrite Z.sub_0_r. assert (0 <= zlen t / 4) by (apply Z.div_pos; lia). lia.
  - exists r, data. rewrite Z.sub_0_r in H1. done.
Qed.

(** C12: Decoding base64 text is determined for every string: there are an
    error (or success) and a number of bytes, at most three for four
    characters, which a call without a buffer reports; a call with a buffer
    that is large enough gives the same and stores exactly that many bytes,
    and a call with a smaller one writes outside of it, whatever size the
    caller passes. *)
Theorem base64_decode_memory t k cb sk fl : cstring t -> zlen t < 2 ^ 31 ->
  exists r data, (r = ERROR_SUCCESS \/ r = ERROR_INVALID_DATA) /\ 4 * zlen data <= 3 * zlen t /\
    (exists sk' fl', CryptStringToBinaryA (Some (t ++ 0 :: k)) 0 CRYPT_STRING_BASE64 None cb sk fl =
       Ret (r =? 0, r, mkRes r None (zlen data) sk' fl') /\
     forall l, zlen data <= zlen l -> CryptStringToBinaryA (Some (t ++ 0 :: k)) 0 CRYPT_STRING_BASE64 (Some l) cb sk fl =
       Ret (r =? 0, r, mkRes r (Some (data ++ drop (length data) l)) (zlen data) sk' fl')) /\
    forall l, zlen l < zlen data -> CryptStringToBinaryA (Some (t ++ 0 :: k)) 0 CRYPT_STRING_BASE64 (Some l) cb sk fl = Fault.
Proof.
  intros Ht Hlt. pose proof (zlen_nonneg t). destruct (scan_string t k Hlt) as (r & data & E & Hb & Hr). pose proof (zlen_nonneg data).
  destruct (Base64ToBinaryA_scan _ _ r data cb sk fl (conj H Hlt) E ltac:(lia) Hr) as (H1 & H2 & H3).
  exists r, data. conj; [done|done| |].
  - eexists _, _. split; [|intros l Hl]; unfold CryptStringToBinaryA; cbn [has]; simpl negb; cbv iota; simpl (_ =? _); cbv iota; rewrite strlen_app by done; cbn [obind].
    + rewrite H1. done.
    + rewrite H2 by done. done.
  - intros l Hl. unfold CryptStringToBinaryA. simpl (_ =? _). simpl has. cbv iota. rewrite strlen_app by done. cbn [obind]. by rewrite H3.
Qed.
Lemma base64_decode_memory_witness :
  exists r data, (r = ERROR_SUCCESS \/ r = ERROR_INVALID_DATA) /\ 4 * zlen data <= 3 * zlen [81; 85; 74; 68] /\
    (exists sk' fl', CryptStringToBinaryA (Some ([81; 85; 74; 68] ++ 0 :: [])) 0 CRYPT_STRING_BASE64 None 0 None None =
       Ret (r =? 0, r, mkRes r None (zlen data) sk' fl') /\
     forall l, zlen data <= zlen l -> CryptStringToBinaryA (Some ([81; 85; 74; 68] ++ 0 :: [])) 0 CRYPT_STRING_BASE64 (Some l) 0 None None =
       Ret (r =? 0, r, mkRes r (Some (data ++ drop (length data) l)) (zlen data) sk' fl')) /\
    forall l, zlen l < zlen data -> CryptStringToBinaryA (Some ([81; 85; 74; 68] ++ 0 :: [])) 0 CRYPT_STRING_BASE64 (Some l) 0 None None = Fault.
Proof. apply (base64_decode_memory [81; 85; 74; 68] [] 0 None None); [repeat constructor; lia|unfold zlen; simpl; lia]. Defined.

(** *** The decoder for any format *)
Lemma decode_blocks_some s cch fuel : forall next l n r o m, decode_blocks fuel s cch next (Some l) n = Ret (r, o, m) -> is_Some o.
Proof.
  induction fuel as [|fuel IH]; intros next l n r o m E; [done|]. cbn [decode_blocks] in E. unfold decodeBase64Block in E.
  destruct (s32 (cch - next) <? 4); cbn [obind] in E; [by inversion E|].
  destruct (decode_quad s next) as [[q|]| |]; cbn [obind] in E; [|by inversion E|done|done].
  unfold store_if, store in E. destruct (put_bytes l n q); cbn [obind] in E; [|done|done].
  destruct (next_block s next (s32 (cch - next))) as [[n'|]| |]; cbn [obind] in E; simpl negb in E; cbv iota in E; [|by inversion E|done|done].
  destruct (u32 (cch - n') <=? 0); [by inversion E|]. by eapply IH.
Qed.
Lemma Base64ToBinaryA_some s cch l cb sk fl r : Base64ToBinaryA s cch (Some l) cb sk fl = Ret r -> is_Some (bin r).
Proof.
  unfold Base64ToBinaryA. intros E. destruct (decode_blocks _ s cch 0 (Some l) 0) as [[[r' o] m]| |] eqn:Ed; cbn [obind] in E; [|done|done].
  apply decode_blocks_some in Ed. repeat case_match; simplify_eq; done.
Qed.
(** the steps of a computation that returned *)
Ltac run_inv E := repeat (cbv beta iota zeta in E; match type of E with
  | obind ?m _ = Ret _ => let F := fresh "F" in destruct m eqn:F; cbn [obind] in E; [|discriminate E|discriminate E]
  | (if ?b then _ else _) = Ret _ => destruct b
  | match ?o with _ => _ end = Ret _ => destruct o
  end).
Lemma Base64HeaderToBinaryA_some s cch l cb sk fl r : Base64HeaderToBinaryA s cch (Some l) cb sk fl = Ret r -> is_Some (bin r).
Proof.
  unfold Base64HeaderToBinaryA. intros E.
  destruct (Base64WithHeaderAndTrailerToBinaryA s cch CERT_HEADER CERT_TRAILER (Some l) cb sk) as [[[[r' o] m] sk']| |] eqn:Ed; cbn [obind] in E; [|done|done].
  simplify_eq. unfold with_flag. simpl. unfold Base64WithHeaderAndTrailerToBinaryA in Ed.
  run_inv Ed; injection Ed as <- <- <- <-; solve [done | by eapply Base64ToBinaryA_some].
Qed.

(** Text that is neither a certificate nor base64 cannot be converted
    with CRYPT_STRING_ANY, although the raw characters would fit into the
    buffer: the attempt to decode it as base64 overwrites the size of the
    buffer, and the copy fails with ERROR_INSUFFICIENT_BUFFER. *)
Theorem any_rejects_plain_text t k l cb sk fl res : cstring t -> 0 < zlen t < 2 ^ 31 ->
  CryptStringToBinaryA (Some (t ++ 0 :: k)) 0 CRYPT_STRING_BASE64_ANY (Some l) cb sk fl = Ret (false, ERROR_INVALID_DATA, res) ->
  exists res', CryptStringToBinaryA (Some (t ++ 0 :: k)) 0 CRYPT_STRING_ANY (Some l) cb sk fl = Ret (false, ERROR_INSUFFICIENT_BUFFER, res').
Proof.
  intros Ht Hlt. unfold CryptStringToBinaryA. simpl (_ =? _). simpl has. cbv iota. rewrite strlen_app by done. cbn [obind].
  unfold Base64AnyToBinaryA, DecodeAnyA.
  destruct (Base64HeaderToBinaryA (t ++ 0 :: k) (zlen t) (Some l) cb sk fl) as [r0| |] eqn:E0; cbn [obind]; [|done|done].
  apply Base64HeaderToBinaryA_some in E0 as [l0 E0]. unfold or_else at 1 2. destruct (Z.eqb_spec (ret r0) ERROR_INVALID_DATA) as [Er|Er].
  - rewrite E0. destruct (scan_string t k ltac:(lia)) as (r & data & E & Hb & Hr). pose proof (zlen_nonneg data).
    destruct (Base64ToBinaryA_scan (t ++ 0 :: k) (zlen t) r data (Base64.cb r0) (skip r0) (flags r0) ltac:(lia) E ltac:(lia) Hr) as (_ & H2 & H3).
    destruct (decide (zlen data <= zlen l0)) as [Hl|Hl]; [rewrite H2 by done|by rewrite H3 by lia]. cbn [obind].
    unfold finish. cbn [ret]. intros [= Hr13 _ _]. destruct Hr as [-> | ->]; [done|]. unfold or_else. cbn [ret bin Base64.cb skip flags].
    simpl (_ =? _). cbv iota. unfold DecodeBinaryToBinaryA. replace (zlen data <? zlen t) with true by lia. cbn [obind]. by eexists.
  - cbn [obind]. unfold finish. intros [= _ Hr13 _]. done.
Qed.
Lemma any_rejects_plain_text_witness :
  CryptStringToBinaryA (Some ([72; 105; 33; 33; 33] ++ 0 :: [])) 0 CRYPT_STRING_BASE64_ANY (Some (replicate 10 7)) 10 None None =
    Ret (false, ERROR_INVALID_DATA, mkRes 13 (Some (replicate 10 7)) 0 None None) /\
  exists res', CryptStringToBinaryA (Some ([72; 105; 33; 33; 33] ++ 0 :: [])) 0 CRYPT_STRING_ANY (Some (replicate 10 7)) 10 None None =
    Ret (false, ERROR_INSUFFICIENT_BUFFER, res').
Proof.
  split; [vm_compute; reflexivity|].
  apply (any_rejects_plain_text [72; 105; 33; 33; 33] [] (replicate 10 7) 10 None None (mkRes 13 (Some (replicate 10 7)) 0 None None)).
  - repeat constructor; lia.
  - unfold zlen; simpl; lia.
  - vm_compute. reflexivity.
Defined.

(** ** Header and trailer *)
Definition plain (c : Z) : Prop := c <> 0 /\ c <> 45.
Lemma sym_plain v : 0 <= v < 64 -> plain (sym v).
Proof.
  intros H. pose proof (all_below_spec 64 sym_ok sym_all v H) as E. unfold sym_ok in E. zhyps. done.
Qed.
Lemma block_plain x : bytes x -> Forall plain (block x).
Proof.
  intros Hx. assert (Hp : plain pad_char) by done.
  destruct x as [|a [|b [|c x]]]; [by constructor|..]; unfold bytes in Hx; rewrite !list.Forall_cons in Hx; cbn [block];
    rewrite !list.Forall_cons; unfold isU in Hx; change (2 ^ 8) with 256 in Hx; conj; try done; apply sym_plain; dlia.
Qed.
Lemma sep_plain sep : is_sep sep -> Forall plain sep.
Proof. intros [-> | [-> | ->]]; repeat constructor; done. Qed.
Lemma body_plain sep d : is_sep sep -> bytes d -> forall k, Forall plain (body k d sep).
Proof.
  intros Hs. induction d as [|a|a b|a b c d IH] using triple_ind; intros Hd k; [by constructor|by apply block_plain..|].
  apply bytes_split3 in Hd as [Hx Hd]. cbn [body]. rewrite !Forall_app. conj; [by apply block_plain| |by apply IH].
  by apply sep_plain, lead_cases.
Qed.
Lemma text_plain sep d : is_sep sep -> bytes d -> Forall plain (text d sep).
Proof. intros Hs Hd. apply Forall_app. split; [by apply body_plain|by apply sep_plain]. Qed.
Lemma plain_cstring l : Forall plain l -> cstring l.
Proof. intros H. eapply list.Forall_impl; [exact H|]. by intros c [? _]. Qed.

(** the text between its header and its trailer *)
Definition full_text (ht : option (list Z * list Z)) (d sep : list Z) : list Z :=
  match ht with
  | None => text d sep
  | Some (h, t) => h ++ sep ++ text d sep ++ t ++ sep
  end.
(** a header has no terminator, a trailer begins and ends with a dash *)
Definition frame_ok (ht : option (list Z * list Z)) : Prop :=
  match ht with
  | None => True
  | Some (h, t) => cstring h /\ cstring t /\ 0 < zlen h < 64 /\ 0 < zlen t < 64 /\ (exists t', t = 45 :: t') /\ exists t', t = t' ++ [45]
  end.
Lemma frame_const h t : forallb (fun c => negb (c =? 0)) (h ++ t) && (zlen h <? 64) && (zlen t <? 64) && negb (zlen h =? 0) &&
  match t with 45 :: _ => true | _ => false end && match rev t with 45 :: _ => true | _ => false end = true -> frame_ok (Some (h, t)).
Proof.
  intros H. zhyps. match goal with H : forallb _ _ = true |- _ => rewrite forallb_app in H end. zhyps.
  assert (F : forall l, forallb (fun c => negb (c =? 0)) l = true -> cstring l).
  { induction l as [|c l IH]; intros Hl; [by constructor|]. simpl in Hl. zhyps. constructor; [done|by apply IH]. }
  destruct t as [|c t]; [done|]. assert (c = 45) as -> by (repeat case_match; done). rewrite zlen_cons in *.
  pose proof (zlen_nonneg h). pose proof (zlen_nonneg t). unfold frame_ok. rewrite zlen_cons. conj; [by apply F|by apply F|lia|lia|lia|lia|by eexists|].
  destruct (rev (45 :: t)) as [|x r] eqn:E; [done|]. assert (x = 45) as -> by (repeat case_match; done).
  exists (rev r). rewrite <- (rev_involutive (45 :: t)), E. done.
Qed.
Lemma header_trailer_A_ok fl : frame_ok (header_trailer_A fl).
Proof. unfold header_trailer_A. repeat case_match; try done; apply frame_const; vm_compute; reflexivity. Qed.
Lemma header_trailer_W_ok fl : frame_ok (header_trailer_W fl).
Proof. unfold header_trailer_W. repeat case_match; try done; apply frame_const; vm_compute; reflexivity. Qed.
Lemma separator_ok fl : is_sep (separator fl).
Proof. unfold separator, is_sep. repeat case_match; auto. Qed.

Lemma load_holds N buf p c : holds N buf (p ++ [c]) -> load buf (zlen p) = Ret c.
Proof.
  intros (l & -> & Hl & Ht). simpl. rewrite <- (take_drop (length (p ++ [c])) l), Ht, <- app_assoc. by apply rd_app.
Qed.
Lemma store_after N b p x off : holds N b p -> zlen p <= off -> off + zlen x <= Z.of_nat N -> exists b', store b off x = Ret b' /\ holds N b' p.
Proof.
  intros (l & -> & Hl & Ht) Ho HN. pose proof (zlen_nonneg p). destruct (put_bytes_ok l off x) as (l' & E & Hl' & Ht'); [lia|unfold zlen in *; lia|].
  simpl. rewrite E. cbn [obind]. eexists. split; [reflexivity|]. exists l'. conj; [done|lia|].
  assert (H1 : take (length p) l' = take (length p) (take (Z.to_nat off + length x) l')) by (rewrite take_take; f_equal; unfold zlen in *; lia).
  rewrite H1, Ht', take_app_le by (rewrite length_take; unfold zlen in *; lia). rewrite take_take.
  by replace (length p `min` Z.to_nat off)%nat with (length p) by (unfold zlen in *; lia).
Qed.

Section Calls.
Context (d k : list Z) (fl : Z) (Hd : bytes d) (Hn : 0 <= zlen d < 2 ^ 28).
Abbreviation sep := (separator fl).
Definition front (ht : option (list Z * list Z)) : list Z := match ht with None => [] | Some (h, _) => h ++ sep end.
Definition chars_needed (ht : option (list Z * list Z)) : Z := needed (zlen d) sep + extra_chars ht sep.

Lemma extra_bounds ht : frame_ok ht -> 0 <= extra_chars ht sep < 256.
Proof using.
  intros H. pose proof (is_sep_len sep (separator_ok fl)). destruct ht as [[h t]|]; simpl in *; [|lia]. destruct H as (_ & _ & ? & ? & _). lia.
Qed.
Lemma chars_needed_wrap ht : frame_ok ht -> u32 (needed (zlen d) sep + extra_chars ht sep) = chars_needed ht /\ 0 < chars_needed ht < 2 ^ 31.
Proof using Hn.
  intros H. pose proof (extra_bounds ht H). pose proof (is_sep_len sep (separator_ok fl)).
  pose proof (needed_bounds d sep ltac:(lia) ltac:(lia)). unfold chars_needed. rewrite wrapU_small by (unfold isU; lia). split; [done|lia].
Qed.
Lemma query_size : encodeBase64A (d ++ k) (s32 (zlen d)) sep None 0 0 = Ret (ERROR_INSUFFICIENT_BUFFER, None, needed (zlen d) sep).
Proof using Hn.
  pose proof (is_sep_len sep (separator_ok fl)). pose proof (needed_bounds d sep ltac:(lia) ltac:(lia)).
  rewrite s32_nonneg by lia. rewrite encodeBase64A_eq by lia. by replace (0 <? needed (zlen d) sep) with true by lia.
Qed.
(** the part before the trailer *)
Lemma front_ok ht l N : frame_ok ht -> length l = N -> chars_needed ht <= Z.of_nat N ->
  exists b1 b2, put_header ht sep (Some l) = Ret (b1, zlen (front ht)) /\
    encodeBase64A (d ++ k) (s32 (zlen d)) sep b1 (zlen (front ht)) (chars_needed ht) = Ret (ERROR_SUCCESS, b2, needed (zlen d) sep) /\
    holds N b2 (front ht ++ text d sep ++ [0]).
Proof using Hd Hn.
  intros Hf Hl HN. pose proof (is_sep_len sep (separator_ok fl)). pose proof (extra_bounds ht Hf).
  pose proof (slack (zlen d) sep ltac:(lia)) as Hs. pose proof (zlen_text d sep) as Ht. unfold chars_needed in *.
  assert (0 <= (if overcounted (zlen d) then zlen sep else 0)) by (case_match; lia).
  assert (Hp : exists b1, put_header ht sep (Some l) = Ret (b1, zlen (front ht)) /\ holds N b1 (front ht) /\ zlen (front ht) <= extra_chars ht sep).
  { destruct ht as [[h t]|]; cbn [put_header front extra_chars frame_ok] in *; [|exists (Some l); conj; [done|by exists l|unfold zlen; simpl; lia]].
    destruct Hf as (_ & _ & Hh & Htr & _). assert (Hnil : holds N (Some l) []) by (by exists l).
    pose proof (needed_bounds d sep ltac:(lia) ltac:(lia)).
    destruct (strcpy_holds N (Some l) [] h 0 Hnil eq_refl) as (b1 & -> & Hb1 & _); [unfold zlen in *; simpl; lia|]. cbn [obind].
    destruct (strcpy_holds N b1 h sep (zlen h) Hb1 eq_refl) as (b2 & -> & Hb2 & _); [unfold zlen in *; lia|]. cbn [obind].
    exists b2. rewrite zlen_app. conj; [done|done|lia]. }
  destruct Hp as (b1 & -> & Hb1 & Hfr). rewrite s32_nonneg by lia.
  destruct (encodeBase64A_ok d k sep Hd ltac:(lia) ltac:(lia) N b1 (front ht) (needed (zlen d) sep + extra_chars ht sep) Hb1) as (b2 & Ee & Hb2); [lia|lia|].
  exists b1, b2. conj; [done|exact Ee|done].
Qed.
Lemma last_nonzero h t : frame_ok (Some (h, t)) -> exists q c, (h ++ sep) ++ text d sep = q ++ [c] /\ c <> 0.
Proof using Hd.
  intros (Hc & _ & Hl & _). pose proof (plain_cstring _ (text_plain sep d (separator_ok fl) Hd)) as Ht.
  pose proof (plain_cstring _ (sep_plain sep (separator_ok fl))) as Hs.
  assert (Hne : (h ++ sep) ++ text d sep <> []) by (intros E; destruct h; [unfold zlen in Hl; simpl in Hl; lia|done]).
  destruct (exists_last Hne) as (q & c & E). exists q, c. split; [done|].
  assert (H : cstring ((h ++ sep) ++ text d sep)) by (unfold cstring; rewrite !Forall_app; done).
  rewrite E in H. apply Forall_app in H as [_ H]. by apply list.Forall_cons in H as [H _].
Qed.
(** trailer and separator behind the text *)
Lemma back_ok N b h t : holds N b ((h ++ sep) ++ text d sep) -> zlen ((h ++ sep) ++ text d sep) + zlen t + zlen sep + 1 <= Z.of_nat N ->
  exists b1 b2, strcpy b (zlen ((h ++ sep) ++ text d sep)) t = Ret b1 /\
    strcpy b1 (zlen ((h ++ sep) ++ text d sep) + zlen t) sep = Ret b2 /\ holds N b2 (full_text (Some (h, t)) d sep ++ [0]).
Proof using.
  intros Hb HN. destruct (strcpy_holds N b _ t _ Hb eq_refl) as (b1 & E1 & Hb1 & _); [unfold zlen in HN; lia|].
  destruct (strcpy_holds N b1 _ sep (zlen ((h ++ sep) ++ text d sep) + zlen t) Hb1) as (b2 & E2 & _ & Hb2);
    [by rewrite (zlen_app _ t)|rewrite length_app; unfold zlen in HN; lia|].
  exists b1, b2. conj; [done|done|]. unfold full_text. by rewrite <- !app_assoc in *.
Qed.

Lemma BinaryToBase64A_small buf cap : cap < chars_needed (header_trailer_A fl) ->
  BinaryToBase64A (d ++ k) (zlen d) fl buf cap =
    Ret (match buf with None => true | _ => false end, match buf with None => 0 | _ => ERROR_INSUFFICIENT_BUFFER end, buf, chars_needed (header_trailer_A fl)).
Proof using Hn.
  intros H. unfold BinaryToBase64A. rewrite query_size. cbn [obind].
  destruct (chars_needed_wrap _ (header_trailer_A_ok fl)) as [-> _].
  replace (chars_needed (header_trailer_A fl) <=? cap) with false by lia. by destruct buf.
Qed.
Lemma BinaryToBase64W_small buf cap : cap < chars_needed (header_trailer_W fl) ->
  BinaryToBase64W (d ++ k) (zlen d) fl buf cap =
    Ret (match buf with None => true | _ => false end, match buf with None => 0 | _ => ERROR_INSUFFICIENT_BUFFER end, buf, chars_needed (header_trailer_W fl)).
Proof using Hn.
  intros H. unfold BinaryToBase64W, encodeBase64W. rewrite query_size. cbn [obind].
  destruct (chars_needed_wrap _ (header_trailer_W_ok fl)) as [-> _].
  replace (chars_needed (header_trailer_W fl) <=? cap) with false by lia. by destruct buf.
Qed.

Lemma slack_range : 0 <= (if overcounted (zlen d) then zlen sep else 0) <= 2.
Proof using. pose proof (is_sep_len sep (separator_ok fl)). destruct (overcounted (zlen d)); lia. Qed.
(** the offset that the trailer is written to, from the end of the text *)
Lemma size_slack ht : zlen (front ht) + (needed (zlen d) sep - 1) = zlen (front ht ++ text d sep) + (if overcounted (zlen d) then zlen sep else 0).
Proof using Hn. rewrite zlen_app, zlen_text, slack by lia. lia. Qed.
Lemma full_text_needed h t : zlen (full_text (Some (h, t)) d sep) + 1 + (if overcounted (zlen d) then zlen sep else 0) = chars_needed (Some (h, t)).
Proof using Hn. unfold chars_needed, full_text, extra_chars. rewrite !zlen_app, zlen_text, slack by lia. lia. Qed.

(** the trailer follows the text when the size is exact, or too large by one
    character (the narrow function only) *)
Lemma BinaryToBase64A_ok l cap : let ht := header_trailer_A fl in
  chars_needed ht <= cap -> chars_needed ht <= zlen l -> ht = None \/ overcounted (zlen d) = false \/ zlen sep <= 1 ->
  exists b m, BinaryToBase64A (d ++ k) (zlen d) fl (Some l) cap = Ret (true, 0, b, m) /\ holds (length l) b (full_text ht d sep ++ [0]) /\
    zlen (full_text ht d sep) <= m.
Proof using Hd Hn.
  intros ht Hcap Hl Hok. pose proof (header_trailer_A_ok fl) as Hf. fold ht in Hf. destruct (chars_needed_wrap ht Hf) as [Hw Hb].
  unfold BinaryToBase64A. rewrite query_size. cbn [obind]. fold ht. rewrite Hw. replace (chars_needed ht <=? cap) with true by lia.
  destruct (front_ok ht l (length l) Hf eq_refl Hl) as (b1 & b2 & -> & E2 & H2). cbn [obind]. rewrite E2. cbn [obind].
  pose proof (size_slack ht) as Hs. rewrite Hs. rewrite app_assoc in H2. pose proof (is_sep_len sep (separator_ok fl)) as Hsl.
  pose proof slack_range as Hsr. destruct ht as [[h t]|] eqn:Eht.
  - destruct Hok as [Hok|Hok]; [done|]. pose proof (full_text_needed h t) as Hfull. cbn [front] in *.
    destruct (last_nonzero h t Hf) as (q & c & Eq & Hc).
    assert (Hcase : exists n, (let! c := load b2 (zlen ((h ++ sep) ++ text d sep) + (if overcounted (zlen d) then zlen sep else 0) - 1) in
      Ret (if c =? 0 then (zlen ((h ++ sep) ++ text d sep) + (if overcounted (zlen d) then zlen sep else 0) - 1, u32 (chars_needed (Some (h, t)) - 1))
           else (zlen ((h ++ sep) ++ text d sep) + (if overcounted (zlen d) then zlen sep else 0), chars_needed (Some (h, t))))) =
      Ret (zlen ((h ++ sep) ++ text d sep), n) /\ n = zlen (full_text (Some (h, t)) d sep) + 1).
    { destruct (overcounted (zlen d) && (1 <=? zlen sep)) eqn:Eo.
      - zhyps. rewrite H in *. assert (zlen sep = 1) by (destruct Hok as [|]; [done|lia]). replace (zlen ((h ++ sep) ++ text d sep) + zlen sep - 1) with (zlen ((h ++ sep) ++ text d sep)) by lia.
        rewrite (load_holds (length l) b2 _ 0 H2). cbn [obind]. simpl (0 =? 0). cbv iota.
        rewrite wrapU_small by (unfold isU; lia). eexists. split; [reflexivity|lia].
      - assert (Ez : (if overcounted (zlen d) then zlen sep else 0) = 0) by (destruct (overcounted (zlen d)); simpl in Eo; zhyps; lia).
        rewrite Ez in Hfull |- *. rewrite Z.add_0_r, Eq in *. rewrite zlen_app. change (zlen [c]) with 1. rewrite Z.add_simpl_r.
        rewrite (load_holds (length l) b2 q c) by (by eapply holds_prefix). cbn [obind]. replace (c =? 0) with false by lia.
        eexists. split; [reflexivity|lia]. }
    destruct Hcase as (n & Ec & En). destruct (load b2 _) as [c0| |] in Ec |- *; cbn [obind] in Ec |- *; [|done|done].
    injection Ec as Ec. rewrite Ec.
    destruct (back_ok (length l) b2 h t) as (b3 & b4 & -> & E4 & H4); [by eapply holds_prefix| |].
    { unfold full_text in Hfull. change (Z.of_nat (length l)) with (zlen l). rewrite !zlen_app in *. lia. }
    cbn [obind]. rewrite E4. cbn [obind]. eexists _, _. split; [reflexivity|]. split; [done|].
    rewrite wrapU_small; [lia|]. unfold isU. pose proof (zlen_nonneg (full_text (Some (h, t)) d sep)). lia.
  - cbn [obind]. eexists _, _. split; [reflexivity|]. split; [by rewrite <- app_assoc in H2|]. unfold full_text.
    unfold chars_needed, extra_chars in *. rewrite wrapU_small by (unfold isU; lia). rewrite zlen_text, slack in * by lia. lia.
Qed.

Lemma BinaryToBase64W_ok l cap : let ht := header_trailer_W fl in
  chars_needed ht <= cap -> chars_needed ht <= zlen l -> ht = None \/ overcounted (zlen d) = false \/ zlen sep <= 0 ->
  exists b m, BinaryToBase64W (d ++ k) (zlen d) fl (Some l) cap = Ret (true, 0, b, m) /\ holds (length l) b (full_text ht d sep ++ [0]) /\
    zlen (full_text ht d sep) <= m.
Proof using Hd Hn.
  intros ht Hcap Hl Hok. pose proof (header_trailer_W_ok fl) as Hf. fold ht in Hf. destruct (chars_needed_wrap ht Hf) as [Hw Hb].
  unfold BinaryToBase64W, encodeBase64W. rewrite query_size. cbn [obind]. fold ht. rewrite Hw. replace (chars_needed ht <=? cap) with true by lia.
  destruct (front_ok ht l (length l) Hf eq_refl Hl) as (b1 & b2 & -> & E2 & H2). cbn [obind]. rewrite E2. cbn [obind].
  pose proof (size_slack ht) as Hs. rewrite Hs. rewrite app_assoc in H2. pose proof (is_sep_len sep (separator_ok fl)) as Hsl.
  pose proof slack_range as Hsr. destruct ht as [[h t]|] eqn:Eht.
  - destruct Hok as [Hok|Hok]; [done|]. pose proof (full_text_needed h t) as Hfull. cbn [front] in *.
    assert (Ez : (if overcounted (zlen d) then zlen sep else 0) = 0) by (destruct Hok as [-> | Hok]; [done|destruct (overcounted (zlen d)); lia]).
    rewrite Ez, Z.add_0_r in *.
    destruct (back_ok (length l) b2 h t) as (b3 & b4 & -> & E4 & H4); [by eapply holds_prefix| |].
    { unfold full_text in Hfull. change (Z.of_nat (length l)) with (zlen l). rewrite !zlen_app in *. lia. }
    cbn [obind]. rewrite E4. cbn [obind]. eexists _, _. split; [reflexivity|]. split; [done|].
    rewrite wrapU_small; [lia|]. unfold isU. pose proof (zlen_nonneg (full_text (Some (h, t)) d sep)). lia.
  - cbn [obind]. eexists _, _. split; [reflexivity|]. split; [by rewrite <- app_assoc in H2|]. unfold full_text.
    unfold chars_needed, extra_chars in *. rewrite wrapU_small by (unfold isU; lia). rewrite zlen_text, slack in * by lia. lia.
Qed.

(** otherwise the terminator stays before the trailer *)
Lemma strcpy_after N b p t off : holds N b p -> zlen p <= off -> off + zlen t + 1 <= Z.of_nat N -> exists b', strcpy b off t = Ret b' /\ holds N b' p.
Proof using. intros Hb Ho HN. apply store_after; [done|done|]. rewrite zlen_app. change (zlen [0]) with 1. lia. Qed.
Lemma BinaryToBase64A_lost l cap h t : header_trailer_A fl = Some (h, t) -> chars_needed (Some (h, t)) <= cap -> chars_needed (Some (h, t)) <= zlen l ->
  overcounted (zlen d) = true -> sep = crlf ->
  exists b m, BinaryToBase64A (d ++ k) (zlen d) fl (Some l) cap = Ret (true, 0, b, m) /\ holds (length l) b (((h ++ sep) ++ text d sep) ++ [0]).
Proof using Hd Hn.
  intros Eht Hcap Hl Ho Hsep. pose proof (header_trailer_A_ok fl) as Hf. rewrite Eht in Hf. destruct (chars_needed_wrap _ Hf) as [Hw Hb].
  unfold BinaryToBase64A. rewrite query_size. cbn [obind]. rewrite Eht, Hw. replace (chars_needed (Some (h, t)) <=? cap) with true by lia.
  destruct (front_ok (Some (h, t)) l (length l) Hf eq_refl Hl) as (b1 & b2 & -> & E2 & H2). cbn [obind]. rewrite E2. cbn [obind].
  pose proof (size_slack (Some (h, t))) as Hs. rewrite Hs. rewrite app_assoc in H2. cbn [front] in *. rewrite Ho in *.
  assert (Hsl : zlen sep = 2) by (by rewrite Hsep). pose proof (full_text_needed h t) as Hfull. rewrite Ho in Hfull. unfold full_text in Hfull.
  change (zlen l) with (Z.of_nat (length l)) in Hl.
  assert (Hend : zlen (((h ++ sep) ++ text d sep) ++ [0]) = zlen ((h ++ sep) ++ text d sep) + 1) by (by rewrite zlen_app).
  assert (Hin : zlen ((h ++ sep) ++ text d sep) + zlen t + zlen sep + 1 + 2 <= Z.of_nat (length l)) by (rewrite !zlen_app in *; lia).
  assert (Hld : exists c, load b2 (zlen ((h ++ sep) ++ text d sep) + zlen sep - 1) = Ret c).
  { pose proof H2 as (l2 & -> & Hl2 & _). apply rd_ok. pose proof (zlen_nonneg ((h ++ sep) ++ text d sep)). pose proof (zlen_nonneg t). change (zlen l2) with (Z.of_nat (length l2)). rewrite Hl2. lia. }
  destruct Hld as [c ->]. cbn [obind].
  assert (Htail : forall ptr n, zlen ((h ++ sep) ++ text d sep) + 1 <= ptr <= zlen ((h ++ sep) ++ text d sep) + 2 ->
    exists b m, (let! (buf, cn) := (let! buf := strcpy b2 ptr t in let! buf := strcpy buf (ptr + zlen t) sep in Ret (buf, n)) in
      Ret (true, 0, buf, u32 (cn - 1))) = Ret (true, 0, b, m) /\ holds (length l) b (((h ++ sep) ++ text d sep) ++ [0])).
  { intros ptr n Hp. pose proof (zlen_nonneg t).
    destruct (strcpy_after (length l) b2 _ t ptr H2) as (b3 & -> & H3); [lia|lia|]. cbn [obind].
    destruct (strcpy_after (length l) b3 _ sep (ptr + zlen t) H3) as (b4 & -> & H4); [lia|lia|]. cbn [obind]. by eexists _, _. }
  destruct (c =? 0); apply Htail; lia.
Qed.
Lemma BinaryToBase64W_lost l cap h t : header_trailer_W fl = Some (h, t) -> chars_needed (Some (h, t)) <= cap -> chars_needed (Some (h, t)) <= zlen l ->
  overcounted (zlen d) = true -> sep <> [] ->
  exists b m, BinaryToBase64W (d ++ k) (zlen d) fl (Some l) cap = Ret (true, 0, b, m) /\ holds (length l) b (((h ++ sep) ++ text d sep) ++ [0]).
Proof using Hd Hn.
  intros Eht Hcap Hl Ho Hsep. pose proof (header_trailer_W_ok fl) as Hf. rewrite Eht in Hf. destruct (chars_needed_wrap _ Hf) as [Hw Hb].
  unfold BinaryToBase64W, encodeBase64W. rewrite query_size. cbn [obind]. rewrite Eht, Hw. replace (chars_needed (Some (h, t)) <=? cap) with true by lia.
  destruct (front_ok (Some (h, t)) l (length l) Hf eq_refl Hl) as (b1 & b2 & -> & E2 & H2). cbn [obind]. rewrite E2. cbn [obind].
  pose proof (size_slack (Some (h, t))) as Hs. rewrite Hs. rewrite app_assoc in H2. cbn [front] in *. rewrite Ho in *.
  assert (Hsl : 1 <= zlen sep) by (destruct sep; [done|rewrite zlen_cons; pose proof (zlen_nonneg l0); lia]).
  pose proof (full_text_needed h t) as Hfull. rewrite Ho in Hfull. unfold full_text in Hfull. change (zlen l) with (Z.of_nat (length l)) in Hl.
  assert (Hend : zlen (((h ++ sep) ++ text d sep) ++ [0]) = zlen ((h ++ sep) ++ text d sep) + 1) by (by rewrite zlen_app).
  assert (Hin : zlen ((h ++ sep) ++ text d sep) + zlen t + zlen sep + 1 + zlen sep <= Z.of_nat (length l)) by (rewrite !zlen_app in *; lia).
  pose proof (zlen_nonneg t).
  destruct (strcpy_after (length l) b2 _ t (zlen ((h ++ sep) ++ text d sep) + zlen sep) H2) as (b3 & -> & H3); [lia|lia|]. cbn [obind].
  destruct (strcpy_after (length l) b3 _ sep (zlen ((h ++ sep) ++ text d sep) + zlen sep + zlen t) H3) as (b4 & -> & H4); [lia|lia|].
  cbn [obind]. by eexists _, _.
Qed.
End Calls.

(** ** Decoding what was encoded *)
Section Decode.
Context (d sep : list Z) (Hd : bytes d) (Hne : d <> []) (Hsep : is_sep sep).

Lemma scan_whole_text post : post <> [] -> zlen (text d sep) < 2 ^ 31 ->
  scan (Z.to_nat (zlen (text d sep) / 4) + 1) (text d sep ++ post) (zlen (text d sep)) 0 = Ret (ERROR_SUCCESS, d).
Proof using Hd Hne Hsep.
  intros Hp Hlt. pose proof (is_sep_len sep Hsep). pose proof (zlen_text d sep) as Ht. unfold text in *.
  assert (E : zlen (body 0 d sep ++ sep) = zlen (@nil Z) + zlen (body 0 d sep) + zlen sep) by (rewrite zlen_app; by change (zlen (@nil Z)) with 0).
  rewrite <- app_assoc. rewrite <- (scan_text sep post d Hd Hne Hsep Hp 0 [] (Z.to_nat (zlen (body 0 d sep ++ sep) / 4) + 1)).
  - by rewrite E.
  - rewrite Ht. unfold nchars. pose proof (nseps_nonneg (zlen d)).
    apply Nat2Z.inj_le. rewrite Nat2Z.inj_div, Nat2Z.inj_add. fold (zlen d). change (Z.of_nat 2) with 2. change (Z.of_nat 3) with 3.
    assert (0 <= nseps (zlen d) * zlen sep) by nia. pose proof (zlen_nonneg d). dlia.
  - lia.
Qed.

Lemma decode_text k cb sk fl l : zlen (text d sep) < 2 ^ 31 -> zlen d < 2 ^ 32 -> zlen d <= zlen l -> k <> [] ->
  Base64ToBinaryA (text d sep ++ k) (zlen (text d sep)) (Some l) cb sk fl =
    Ret (mkRes ERROR_SUCCESS (Some (d ++ drop (length d) l)) (zlen d) (set_ptr sk 0) (set_ptr fl CRYPT_STRING_BASE64)).
Proof using Hd Hne Hsep.
  intros Hlt Hd2 Hl Hk. pose proof (zlen_nonneg (text d sep)).
  destruct (Base64ToBinaryA_scan (text d sep ++ k) (zlen (text d sep)) ERROR_SUCCESS d cb sk fl ltac:(lia) (scan_whole_text k Hk Hlt) Hd2 ltac:(by left)) as (_ & H2 & _).
  by rewrite H2.
Qed.
Lemma text_head : exists c r, text d sep = c :: r /\ c <> 10 /\ c <> 13.
Proof using Hd Hne Hsep.
  destruct (body_head 0 d sep Hd Hne) as (c & r & E & _ & H1 & H2). unfold text. rewrite E. simpl. eauto.
Qed.

Lemma rd_at (pre : list Z) c post i : i = zlen pre -> rd (pre ++ c :: post) i = Ret c.
Proof using. apply rd_app. Qed.
(** the trailer is found behind one separator at the end, if any *)
Lemma strip_newline x y t' k : (exists u, y = u ++ t' ++ [45]) ->
  let s := x ++ y ++ sep ++ 0 :: k in let n := zlen (x ++ y) in
  exists n1, (let! c := rd s (n + zlen sep - 1) in Ret (if c =? 10 then n + zlen sep - 1 else n + zlen sep)) = Ret n1 /\
    (let! c := rd s (n1 - 1) in Ret (if c =? 13 then n1 - 1 else n1)) = Ret n.
Proof using Hsep.
  intros [u ->] s n. subst s n.
  assert (H45 : rd (x ++ (u ++ t' ++ [45]) ++ sep ++ 0 :: k) (zlen (x ++ u ++ t' ++ [45]) - 1) = Ret 45).
  { replace (x ++ (u ++ t' ++ [45]) ++ sep ++ 0 :: k) with ((x ++ u ++ t') ++ 45 :: sep ++ 0 :: k) by (by rewrite <- !app_assoc).
    apply rd_app. rewrite !zlen_app. change (zlen [45]) with 1. lia. }
  assert (Hs : forall c r, sep = c ++ r -> forall x0 r', r = x0 :: r' ->
    rd (x ++ (u ++ t' ++ [45]) ++ sep ++ 0 :: k) (zlen (x ++ u ++ t' ++ [45]) + zlen c) = Ret x0).
  { intros c r -> x0 r' ->. rewrite <- zlen_app.
    replace (x ++ (u ++ t' ++ [45]) ++ (c ++ x0 :: r') ++ 0 :: k) with (((x ++ u ++ t' ++ [45]) ++ c) ++ x0 :: r' ++ 0 :: k) by (by rewrite <- !app_assoc).
    by apply rd_app. }
  destruct Hsep as [-> | [-> | ->]].
  - change (zlen (@nil Z)) with 0. rewrite Z.add_0_r, H45. cbn [obind]. eexists. split; [reflexivity|]. simpl (_ =? _). cbv iota. by rewrite H45.
  - change (zlen lf) with 1. rewrite Z.add_simpl_r. pose proof (Hs [] lf eq_refl 10 [] eq_refl) as E. change (zlen (@nil Z)) with 0 in E. rewrite Z.add_0_r in E.
    rewrite E. cbn [obind]. eexists. split; [reflexivity|]. simpl (_ =? _). cbv iota. by rewrite H45.
  - change (zlen crlf) with 2. pose proof (Hs [13] [10] eq_refl 10 [] eq_refl) as E. change (zlen [13]) with 1 in E.
    pose proof (Hs [] crlf eq_refl 13 [10] eq_refl) as E'. change (zlen (@nil Z)) with 0 in E'. rewrite Z.add_0_r in E'.
    replace (zlen (x ++ u ++ t' ++ [45]) + 2 - 1) with (zlen (x ++ u ++ t' ++ [45]) + 1) by lia. rewrite E. cbn [obind].
    eexists. split; [reflexivity|]. simpl (10 =? 10). cbv iota. rewrite Z.add_simpl_r, E'. done.
Qed.

(** the characters after the header *)
Lemma skip_newline h r : r <> [] -> (forall c, head r = Some c -> c <> 13 /\ c <> 10) ->
  exists c1 p1, rd (h ++ sep ++ r) (zlen h) = Ret c1 /\ p1 = (if c1 =? 13 then zlen h + 1 else zlen h) /\
    exists c2, rd (h ++ sep ++ r) p1 = Ret c2 /\ zlen (h ++ sep) = if c2 =? 10 then p1 + 1 else p1.
Proof using Hsep.
  intros Hr Hh. destruct r as [|x r]; [done|]. specialize (Hh x eq_refl) as [H13 H10].
  destruct Hsep as [-> | [-> | ->]]; cbn [app].
  - exists x, (zlen h). rewrite rd_app by done. replace (x =? 13) with false by lia. conj; [done|done|]. exists x.
    rewrite ?rd_app by done. replace (x =? 10) with false by lia. by rewrite app_nil_r.
  - exists 10, (zlen h). unfold lf. cbn [app]. rewrite rd_app by done. conj; [done|done|]. exists 10. rewrite ?rd_app by done. rewrite zlen_app. done.
  - exists 13, (zlen h + 1). unfold crlf. cbn [app]. rewrite rd_app by done. conj; [done|done|]. exists 10.
    replace (h ++ 13 :: 10 :: x :: r) with ((h ++ [13]) ++ 10 :: x :: r) by (by rewrite <- app_assoc). rewrite rd_app by (by rewrite zlen_app).
    rewrite zlen_app. change (zlen [13; 10]) with 2. split; [done|]. simpl. lia.
Qed.
Lemma decode_framed h t k cb sk l : frame_ok (Some (h, t)) -> zlen (full_text (Some (h, t)) d sep) < 2 ^ 31 -> zlen d < 2 ^ 32 -> zlen d <= zlen l ->
  0 < zlen (text d sep) ->
  Base64WithHeaderAndTrailerToBinaryA (full_text (Some (h, t)) d sep ++ 0 :: k) (zlen (full_text (Some (h, t)) d sep)) h t (Some l) cb sk =
    Ret (ERROR_SUCCESS, Some (d ++ drop (length d) l), zlen d, set_ptr sk 0).
Proof using Hd Hne Hsep.
  intros (_ & _ & Hh & Ht & _ & (t' & Et)) Hlt Hd2 Hl Htx. unfold Base64WithHeaderAndTrailerToBinaryA.
  pose proof (is_sep_len sep Hsep). cbn [full_text] in *.
  set (x := h ++ sep ++ text d sep). assert (Es : (h ++ sep ++ text d sep ++ t ++ sep) ++ 0 :: k = x ++ t ++ sep ++ 0 :: k) by (subst x; by rewrite <- !app_assoc).
  assert (En : zlen (h ++ sep ++ text d sep ++ t ++ sep) = zlen (x ++ t) + zlen sep) by (subst x; rewrite !zlen_app; lia).
  destruct (strip_newline x t t' k) as (n1 & F1 & F2); [by exists []|]. rewrite <- Es in F1, F2. rewrite <- En in F1.
  replace (zlen h + zlen t <? zlen (h ++ sep ++ text d sep ++ t ++ sep)) with true by (rewrite !zlen_app; lia).
  rewrite <- app_assoc at 1. rewrite strstr_prefix. cbn [obind].
  destruct (rd _ (zlen (h ++ sep ++ text d sep ++ t ++ sep) - 1)) as [c| |] in F1 |- *; cbn [obind] in F1 |- *; [|done|done]. injection F1 as F1.
  assert (G1 : (if c =? 10 then (zlen (h ++ sep ++ text d sep ++ t ++ sep) - 1, zlen (h ++ sep ++ text d sep ++ t ++ sep) - zlen t - 1)
    else (zlen (h ++ sep ++ text d sep ++ t ++ sep), zlen (h ++ sep ++ text d sep ++ t ++ sep) - zlen t)) = (n1, n1 - zlen t)).
  { destruct (c =? 10); subst n1; f_equal; lia. }
  rewrite G1. destruct (rd _ (n1 - 1)) as [c'| |] in F2 |- *; cbn [obind] in F2 |- *; [|done|done]. injection F2 as F2.
  assert (G2 : (if c' =? 13 then (n1 - 1, n1 - zlen t - 1) else (n1, n1 - zlen t)) = (zlen (x ++ t), zlen x)).
  { rewrite zlen_app in *. destruct (c' =? 13); f_equal; lia. }
  rewrite G2, Es. unfold strncmp_eq. pose proof (zlen_nonneg x). replace (zlen x <? 0) with false by lia. rewrite zlen_nat, drop_app_length, starts_app. cbn [obind].
  destruct (skip_newline h (text d sep ++ t ++ sep ++ 0 :: k)) as (c1 & p1 & R1 & Ep & c2 & R2 & Ep2).
  { destruct (text d sep); [change (zlen (@nil Z)) with 0 in Htx; lia|done]. }
  { destruct text_head as (c0 & r & -> & H10 & H13). intros ? [= <-]. by split. }
  assert (Es2 : x ++ t ++ sep ++ 0 :: k = h ++ sep ++ text d sep ++ t ++ sep ++ 0 :: k) by (subst x; by rewrite <- !app_assoc).
  rewrite Es2, Z.add_0_l, R1. cbn [obind]. rewrite <- Ep, R2. cbn [obind]. rewrite <- Ep2.
  replace (drop (Z.to_nat (zlen (h ++ sep))) (h ++ sep ++ text d sep ++ t ++ sep ++ 0 :: k)) with (text d sep ++ t ++ sep ++ 0 :: k).
  2:{ rewrite zlen_nat, (app_assoc h sep). by rewrite drop_app_length. }
  replace (u32 (zlen (x ++ t) - (zlen (h ++ sep) + zlen t))) with (zlen (text d sep)).
  2:{ subst x. rewrite !zlen_app in *. rewrite wrapU_small; [lia|unfold isU; lia]. }
  rewrite decode_text; [done|rewrite !zlen_app in Hlt; lia|done|done|by rewrite Et, <- app_assoc; destruct t'].
Qed.
(** without the trailer the text is refused *)
Lemma decode_unframed h t k cb sk l : frame_ok (Some (h, t)) -> zlen t + 2 <= zlen (text d sep) ->
  let s := ((h ++ sep) ++ text d sep) ++ 0 :: k in
  Base64WithHeaderAndTrailerToBinaryA s (zlen ((h ++ sep) ++ text d sep)) h t (Some l) cb sk = Ret (ERROR_INVALID_DATA, Some l, cb, sk).
Proof using Hd Hsep.
  intros (_ & _ & Hh & Ht & (t' & Et) & _) Htx s. unfold Base64WithHeaderAndTrailerToBinaryA. pose proof (is_sep_len sep Hsep).
  replace (zlen h + zlen t <? zlen ((h ++ sep) ++ text d sep)) with true by (rewrite !zlen_app; lia).
  replace (strstr s h) with (Ret (Some 0)) by (subst s; rewrite <- !app_assoc; by rewrite strstr_prefix). cbn [obind].
  assert (Hs : zlen s = zlen ((h ++ sep) ++ text d sep) + 1 + zlen k) by (subst s; rewrite zlen_app, zlen_cons; lia). pose proof (zlen_nonneg k).
  set (N := zlen ((h ++ sep) ++ text d sep)) in *. assert (HN : N = zlen (h ++ sep) + zlen (text d sep)) by (subst N; apply zlen_app).
  pose proof (zlen_nonneg (h ++ sep)).
  assert (Hx : forall spot, N - zlen t - 2 <= spot < N -> strncmp_eq s spot t = Ret false).
  { intros spot Hsp. unfold strncmp_eq. replace (spot <? 0) with false by lia. subst s. rewrite <- app_assoc.
    replace (Z.to_nat spot) with (length (h ++ sep) + Z.to_nat (spot - zlen (h ++ sep)))%nat by (unfold zlen in *; lia).
    rewrite <- drop_drop, drop_app_length. rewrite drop_app_le by (unfold zlen in *; lia).
    pose proof (text_plain sep d Hsep Hd) as Hp. destruct (drop (Z.to_nat (spot - zlen (h ++ sep))) (text d sep)) as [|y r] eqn:E.
    { apply (f_equal length) in E. rewrite length_drop in E. unfold zlen in *. simpl in E. lia. }
    apply (Forall_drop _ (Z.to_nat (spot - zlen (h ++ sep)))) in Hp. rewrite E in Hp. apply list.Forall_cons in Hp as [[_ Hy] _].
    rewrite Et. cbn [app starts]. by replace (y =? 45) with false by lia. }
  destruct (rd_ok s (N - 1)) as [c ->]; [lia|]. cbn [obind].
  assert (H2 : forall n1 spot, N - 1 <= n1 <= N -> spot = n1 - zlen t ->
    (let! c := rd s (n1 - 1) in
      let '(n, spot) := if c =? 13 then (n1 - 1, spot - 1) else (n1, spot) in
      strncmp_eq s spot t) = Ret false).
  { intros n1 spot Hn1 ->. destruct (rd_ok s (n1 - 1)) as [c' ->]; [lia|]. cbn [obind]. destruct (c' =? 13); apply Hx; lia. }
  destruct (c =? 10).
  - specialize (H2 (N - 1) (N - zlen t - 1) ltac:(lia) ltac:(lia)). destruct (rd s (N - 1 - 1)) as [c'| |]; cbn [obind] in *; [|done|done].
    destruct (c' =? 13); by rewrite H2.
  - specialize (H2 N (N - zlen t) ltac:(lia) ltac:(lia)). destruct (rd s (N - 1)) as [c'| |]; cbn [obind] in *; [|done|done].
    destruct (c' =? 13); by rewrite H2.
Qed.
End Decode.

(** ** The calls *)
Definition to_string (wide : bool) := if wide then CryptBinaryToStringW else CryptBinaryToStringA.
Definition to_binary (wide : bool) := if wide then CryptStringToBinaryW else CryptStringToBinaryA.
Definition frame (wide : bool) (fl : Z) := if wide then header_trailer_W fl else header_trailer_A fl.
Definition base64_format (fl : Z) : Prop :=
  format fl = CRYPT_STRING_BASE64 \/ format fl = CRYPT_STRING_BASE64HEADER \/ format fl = CRYPT_STRING_BASE64REQUESTHEADER \/
  format fl = CRYPT_STRING_BASE64X509CRLHEADER.
(** the trailer is written where the text ends *)
Definition trailer_kept (wide : bool) (fl n : Z) : Prop :=
  format fl = CRYPT_STRING_BASE64 \/ overcounted n = false \/ zlen (separator fl) <= (if wide then 0 else 1).

Lemma frame_frame_ok wide fl : frame_ok (frame wide fl).
Proof. destruct wide; [apply header_trailer_W_ok|apply header_trailer_A_ok]. Qed.
Lemma frame_none wide fl : format fl = CRYPT_STRING_BASE64 -> frame wide fl = None.
Proof. intros E. by destruct wide; unfold frame, header_trailer_A, header_trailer_W; rewrite E. Qed.
Lemma to_string_eq wide d cb fl buf cap : base64_format fl ->
  to_string wide (Some d) cb fl buf (Some cap) =
    let! (ret, err, b, cch) := (if wide then BinaryToBase64W else BinaryToBase64A) d cb fl buf cap in Ret (ret, err, b, Some cch).
Proof.
  intros H. destruct wide; unfold to_string, CryptBinaryToStringA, CryptBinaryToStringW; by destruct H as [-> |[-> |[-> | ->]]].
Qed.
Lemma holds_split N b p : holds N b (p ++ [0]) -> exists k, b = Some (p ++ 0 :: k).
Proof.
  intros (l & -> & _ & Ht). exists (drop (length (p ++ [0])) l). rewrite <- (take_drop (length (p ++ [0])) l) at 1.
  rewrite Ht, <- app_assoc. done.
Qed.
Lemma full_text_cstring ht d sep : frame_ok ht -> is_sep sep -> bytes d -> cstring (full_text ht d sep).
Proof.
  intros Hf Hs Hd. pose proof (plain_cstring _ (text_plain sep d Hs Hd)). pose proof (plain_cstring _ (sep_plain sep Hs)).
  destruct ht as [[h t]|]; [|done]. destruct Hf as (? & ? & _). unfold full_text, cstring. rewrite !Forall_app. done.
Qed.
Lemma full_text_bounds ht d fl : frame_ok ht -> 0 < zlen d < 2 ^ 28 ->
  0 < zlen (text d (separator fl)) /\ zlen (full_text ht d (separator fl)) < 2 ^ 31 /\ zlen (text d (separator fl)) < 2 ^ 31.
Proof.
  intros Hf Hd. destruct (chars_needed_wrap d fl ltac:(lia) ht Hf) as [_ Hb]. pose proof (is_sep_len _ (separator_ok fl)).
  pose proof (slack_range d fl). pose proof (extra_bounds fl ht Hf) as Hx. unfold chars_needed in Hb. rewrite slack in Hb by lia. pose proof (zlen_text d (separator fl)) as Ht.
  assert (0 < nchars (zlen d)) by (unfold nchars; dlia). pose proof (nseps_nonneg (zlen d)).
  assert (0 <= nseps (zlen d) * zlen (separator fl)) by nia.
  conj; [lia| |lia]. destruct ht as [[h t]|]; unfold full_text, extra_chars in *; [rewrite !zlen_app|]; lia.
Qed.
(** decoding with the flag of the format *)
Lemma to_binary_full wide d fl k l cb sk fg : base64_format fl -> bytes d -> 0 < zlen d < 2 ^ 28 -> zlen d <= zlen l ->
  to_binary wide (Some (full_text (frame wide fl) d (separator fl) ++ 0 :: k)) 0 (format fl) (Some l) cb sk fg =
    Ret (true, ERROR_SUCCESS, mkRes ERROR_SUCCESS (Some (d ++ drop (length d) l)) (zlen d) (set_ptr sk 0) (set_ptr fg (format fl))).
Proof.
  intros Hf Hd Hn Hl. pose proof (frame_frame_ok wide fl) as Hfr. pose proof (separator_ok fl) as Hs.
  destruct (full_text_bounds (frame wide fl) d fl Hfr Hn) as (B1 & B2 & B3). pose proof (full_text_cstring _ d _ Hfr Hs Hd) as Hc.
  assert (Hne : d <> []) by (intros ->; change (zlen (@nil Z)) with 0 in Hn; lia).
  destruct (decide (format fl = CRYPT_STRING_BASE64)) as [E|E].
  - rewrite (frame_none wide fl E) in *. rewrite E. pose proof (decode_text d _ Hd Hne Hs (0 :: k) cb sk fg l B3 ltac:(lia) Hl ltac:(done)) as D.
    destruct wide; unfold to_binary, CryptStringToBinaryA, CryptStringToBinaryW; simpl has; simpl (_ =? _); cbv iota;
      rewrite strlen_app by done; cbn [obind full_text]; unfold Base64ToBinaryW; rewrite D; done.
  - assert (exists h t, frame wide fl = Some (h, t)) as (h & t & Eh).
    { destruct Hf as [Hf|[Hf|[Hf|Hf]]]; [done|..]; unfold frame, header_trailer_A, header_trailer_W; rewrite Hf; destruct wide; by eexists _, _. }
    rewrite Eh in *. pose proof (decode_framed d _ Hd Hne Hs h t k cb sk l Hfr B2 ltac:(lia) Hl B1) as D.
    destruct Hf as [Hf|[Hf|[Hf|Hf]]]; [done|..]; rewrite Hf; unfold frame, header_trailer_A, header_trailer_W in Eh; rewrite Hf in Eh;
      destruct wide; simpl in Eh; injection Eh as <- <-; unfold to_binary, CryptStringToBinaryA, CryptStringToBinaryW; simpl has; simpl (_ =? _); cbv iota;
      rewrite strlen_app by done; cbn [obind];
      unfold Base64HeaderToBinaryA, Base64RequestHeaderToBinaryA, Base64X509HeaderToBinaryA, Base64HeaderToBinaryW, Base64RequestHeaderToBinaryW,
        Base64X509HeaderToBinaryW, Base64WithHeaderAndTrailerToBinaryW; rewrite D; done.
Qed.

(** no text, in any format: the separators alone are not four characters *)
Lemma to_binary_empty wide fl k o cb sk fg : base64_format fl ->
  exists r, to_binary wide (Some (full_text (frame wide fl) [] (separator fl) ++ 0 :: k)) 0 (format fl) (Some o) cb sk fg =
    Ret (false, ERROR_INVALID_DATA, r) /\ bin r = Some o.
Proof.
  intros Hf. unfold frame, header_trailer_A, header_trailer_W.
  destruct Hf as [-> |[-> |[-> | ->]]], (separator_ok fl) as [-> | [-> | ->]], wide; eexists;
    (split; [vm_compute; reflexivity|reflexivity]).
Qed.

(** C11: Encoding and decoding are inverse, for narrow and wide strings, every
    base64 format and every separator: the call without a buffer reports a
    size, a call with a buffer of that size succeeds within it, and decoding
    the string with the flag of its format gives the bytes and their number
    again, except where a header is used and the size counts a separator that
    is not written.  The other exception is no data at all: it is encoded, as a
    separator between the header and the trailer if any, and decoding that
    string fails with ERROR_INVALID_DATA and leaves the buffer. *)
Theorem base64_roundtrip wide d k fl cb sk fg :
  bytes d -> zlen d < 2 ^ 28 -> base64_format fl -> trailer_kept wide fl (zlen d) ->
  exists n, to_string wide (Some (d ++ k)) (zlen d) fl None (Some 0) = Ret (true, 0, None, Some n) /\
    forall l cap, n <= cap -> n <= zlen l -> exists l' m,
      to_string wide (Some (d ++ k)) (zlen d) fl (Some l) (Some cap) = Ret (true, 0, Some l', Some m) /\
      (d <> [] -> forall o, zlen d <= zlen o -> to_binary wide (Some l') 0 (format fl) (Some o) cb sk fg =
        Ret (true, ERROR_SUCCESS, mkRes ERROR_SUCCESS (Some (d ++ drop (length d) o)) (zlen d) (set_ptr sk 0) (set_ptr fg (format fl)))) /\
      (d = [] -> forall o, exists r, to_binary wide (Some l') 0 (format fl) (Some o) cb sk fg =
        Ret (false, ERROR_INVALID_DATA, r) /\ bin r = Some o).
Proof.
  intros Hd Hn0 Hf Hk. pose proof (conj (zlen_nonneg d) Hn0) as Hn.
  destruct (chars_needed_wrap d fl Hn _ (frame_frame_ok wide fl)) as [_ Hb].
  exists (chars_needed d fl (frame wide fl)). rewrite to_string_eq by done. split.
  { destruct wide; [rewrite BinaryToBase64W_small|rewrite BinaryToBase64A_small]; (done || unfold frame in Hb; lia). }
  intros l cap Hcap Hl. rewrite to_string_eq by done.
  assert (exists b m, (if wide then BinaryToBase64W else BinaryToBase64A) (d ++ k) (zlen d) fl (Some l) cap = Ret (true, 0, b, m) /\
    holds (length l) b (full_text (frame wide fl) d (separator fl) ++ [0])) as (b & m & -> & Hh).
  { assert (Hk' : frame wide fl = None \/ overcounted (zlen d) = false \/ zlen (separator fl) <= (if wide then 0 else 1)).
    { destruct Hk as [Hk|Hk]; [left; by apply frame_none|by right]. }
    destruct wide; [destruct (BinaryToBase64W_ok d k fl Hd Hn l cap Hcap Hl Hk') as (b & m & E & H & _)
                   |destruct (BinaryToBase64A_ok d k fl Hd Hn l cap Hcap Hl Hk') as (b & m & E & H & _)]; by exists b, m. }
  apply holds_split in Hh as [k' ->]. cbn [obind]. eexists _, _. split; [reflexivity|]. split.
  - intros Hne o Ho. apply to_binary_full; try done. split; [|done]. destruct d as [|c d]; [done|]. rewrite zlen_cons. pose proof (zlen_nonneg d). lia.
  - intros -> o. by apply to_binary_empty.
Qed.
Lemma base64_roundtrip_witness :
  exists n, to_string false (Some ([77; 97; 110; 33] ++ [])) (zlen [77; 97; 110; 33]) CRYPT_STRING_BASE64HEADER None (Some 0) = Ret (true, 0, None, Some n) /\
    forall l cap, n <= cap -> n <= zlen l -> exists l' m,
      to_string false (Some ([77; 97; 110; 33] ++ [])) (zlen [77; 97; 110; 33]) CRYPT_STRING_BASE64HEADER (Some l) (Some cap) = Ret (true, 0, Some l', Some m) /\
      ([77; 97; 110; 33] <> [] -> forall o, zlen [77; 97; 110; 33] <= zlen o -> to_binary false (Some l') 0 (format CRYPT_STRING_BASE64HEADER) (Some o) 0 (Some 9) None =
        Ret (true, ERROR_SUCCESS, mkRes ERROR_SUCCESS (Some ([77; 97; 110; 33] ++ drop (length [77; 97; 110; 33]) o)) (zlen [77; 97; 110; 33]) (set_ptr (Some 9) 0) (set_ptr None (format CRYPT_STRING_BASE64HEADER)))) /\
      ([77; 97; 110; 33] = [] -> forall o, exists r, to_binary false (Some l') 0 (format CRYPT_STRING_BASE64HEADER) (Some o) 0 (Some 9) None =
        Ret (false, ERROR_INVALID_DATA, r) /\ bin r = Some o).
Proof.
  apply (base64_roundtrip false [77; 97; 110; 33] [] CRYPT_STRING_BASE64HEADER 0 (Some 9) None).
  - repeat constructor; unfold isU; lia.
  - unfold zlen; simpl; lia.
  - right; left. reflexivity.
  - right; left. reflexivity.
Defined.

(** When the size counts a separator that is not written (five of every
    48 lengths, from 46 bytes on), a terminator is left between the text and
    the trailer, with the default separator and, in the wide function, with
    any: encoding reports success, and the string that it wrote is refused by
    the decoder. *)
Theorem base64_trailer_lost wide d k fl cb sk fg l cap : 
  bytes d -> 46 <= zlen d < 2 ^ 28 -> base64_format fl -> ~ trailer_kept wide fl (zlen d) ->
  chars_needed d fl (frame wide fl) <= cap -> chars_needed d fl (frame wide fl) <= zlen l ->
  exists l' m, to_string wide (Some (d ++ k)) (zlen d) fl (Some l) (Some cap) = Ret (true, 0, Some l', Some m) /\
    forall o, to_binary wide (Some l') 0 (format fl) (Some o) cb sk fg = Ret (false, ERROR_INVALID_DATA, mkRes ERROR_INVALID_DATA (Some o) cb sk fg).
Proof.
  intros Hd Hn Hf Hk Hcap Hl. assert (Hn' : 0 <= zlen d < 2 ^ 28) by lia. pose proof (separator_ok fl) as Hs. pose proof (is_sep_len _ Hs) as Hsl.
  assert (Eo : overcounted (zlen d) = true) by (destruct (overcounted (zlen d)) eqn:E; [done|]; exfalso; apply Hk; right; by left).
  assert (Es : (if wide then 0 else 1) < zlen (separator fl)).
  { destruct (decide (zlen (separator fl) <= (if wide then 0 else 1))); [|lia]. exfalso. apply Hk. right. by right. }
  assert (E64 : format fl <> CRYPT_STRING_BASE64) by (intros E; apply Hk; by left).
  assert (exists h t, frame wide fl = Some (h, t)) as (h & t & Eh).
  { destruct Hf as [Hf|[Hf|[Hf|Hf]]]; [done|..]; unfold frame, header_trailer_A, header_trailer_W; rewrite Hf; destruct wide; by eexists _, _. }
  pose proof (frame_frame_ok wide fl) as Hfr. rewrite Eh in *. rewrite to_string_eq by done.
  assert (exists b m, (if wide then BinaryToBase64W else BinaryToBase64A) (d ++ k) (zlen d) fl (Some l) cap = Ret (true, 0, b, m) /\
    holds (length l) b (((h ++ separator fl) ++ text d (separator fl)) ++ [0])) as (b & m & -> & Hh).
  { destruct wide; [apply BinaryToBase64W_lost with (t := t)|apply BinaryToBase64A_lost with (t := t)]; try done.
    - intros E. rewrite E in Es. done.
    - destruct Hs as [E|[E|E]]; rewrite E in Es |- *; done. }
  apply holds_split in Hh as [k' ->]. cbn [obind]. eexists _, _. split; [reflexivity|]. intros o.
  pose proof Hfr as (Hch & _ & _ & Htb & _). pose proof (plain_cstring _ (text_plain _ d Hs Hd)) as Htc. pose proof (plain_cstring _ (sep_plain _ Hs)) as Hsc.
  assert (Hc : cstring ((h ++ separator fl) ++ text d (separator fl))) by (unfold cstring; rewrite !Forall_app; done).
  assert (Htx : zlen t + 2 <= zlen (text d (separator fl))).
  { rewrite zlen_text. pose proof (nseps_nonneg (zlen d)). unfold nchars.
    assert (2 <= nseps (zlen d) * zlen (separator fl) \/ 1 <= nseps (zlen d) * zlen (separator fl)).
    { right. assert (1 <= nseps (zlen d)) by (unfold nseps; destruct (Z.ltb_spec (zlen d) 3); [lia|dlia]). destruct wide; nia. }
    assert (64 <= 4 * ((zlen d + 2) / 3)) by dlia. lia. }
  pose proof (decode_unframed d _ Hd Hs h t k' cb sk o Hfr Htx) as D. cbv zeta in D.
  destruct Hf as [Hf|[Hf|[Hf|Hf]]]; [done|..]; rewrite Hf; unfold frame, header_trailer_A, header_trailer_W in Eh; rewrite Hf in Eh;
    destruct wide; simpl in Eh; injection Eh as <- <-; unfold to_binary, CryptStringToBinaryA, CryptStringToBinaryW; simpl has; simpl (_ =? _); cbv iota;
    rewrite strlen_app by done; cbn [obind];
    unfold Base64HeaderToBinaryA, Base64RequestHeaderToBinaryA, Base64X509HeaderToBinaryA, Base64HeaderToBinaryW, Base64RequestHeaderToBinaryW,
      Base64X509HeaderToBinaryW, Base64WithHeaderAndTrailerToBinaryW; rewrite D; done.
Qed.
Lemma base64_trailer_lost_witness :
  exists l' m, to_string false (Some (replicate 48 1 ++ [])) (zlen (replicate 48 1)) CRYPT_STRING_BASE64HEADER (Some (replicate 200 7)) (Some 200) = Ret (true, 0, Some l', Some m) /\
    forall o, to_binary false (Some l') 0 (format CRYPT_STRING_BASE64HEADER) (Some o) 0 None None = Ret (false, ERROR_INVALID_DATA, mkRes ERROR_INVALID_DATA (Some o) 0 None None).
Proof.
  apply (base64_trailer_lost false (replicate 48 1) [] CRYPT_STRING_BASE64HEADER 0 None None (replicate 200 7) 200).
  - apply Forall_replicate. unfold isU. lia.
  - unfold zlen. rewrite length_replicate. lia.
  - right; left. reflexivity.
  - intros [H|[H|H]]; vm_compute in H; done.
  - vm_compute. done.
  - vm_compute. done.
Defined.
(** the wide header of a request is not the narrow one, so that a wide copy of
    a narrow string is refused *)
Theorem request_headers_differ : CERT_REQUEST_HEADER <> CERT_REQUEST_HEADER_W /\ CERT_REQUEST_TRAILER <> CERT_REQUEST_TRAILER_W.
Proof. split; by vm_compute. Qed.
(** the raw conversion of a wide string compares bytes with characters *)
Theorem DecodeBinaryToBinaryW_overrun t k l sk fl : 0 < zlen t -> zlen l < 2 * zlen t ->
  DecodeBinaryToBinaryW (t ++ k) (zlen t) (Some l) (zlen t) sk fl = Fault.
Proof.
  intros Ht Hl. unfold DecodeBinaryToBinaryW. replace (zlen t <? zlen t) with false by lia. replace (negb (zlen t =? 0)) with true by lia.
  rewrite read_bytes_app. cbn [obind]. unfold store, put_bytes.
  assert (E : zlen (concat (map wide_bytes t)) = 2 * zlen t).
  { clear. induction t as [|c t IH]; [done|]. cbn [map concat]. rewrite zlen_app, IH, zlen_cons. change (zlen (wide_bytes c)) with 2. lia. }
  rewrite E. by replace ((0 <=? 0) && (0 + 2 * zlen t <=? zlen l)) with false by lia.
Qed.
End Base64Spec.
