(* ===== verification/Der.v ===== *)
(** * DER encoding and decoding (dlls/crypt32/encode.c and decode.c)

    The encoders and decoders of the primitive types, the lengths, and the
    encoders that combine others.  A blob is a count and the memory from its
    pointer on.  The allocator that the caller names, or LocalAlloc, is a
    parameter, and so is CryptMemAlloc.  A page fault that the source catches is a [Fault] here, as is
    every other access outside of an object; traces and the parameters that the
    built-in functions ignore are not modelled.  The host is little-endian, a
    pointer has four bytes. *)
From S2P Require Import Prelude.

Module Der.

Definition ASN_BOOL : Z := 0x01.
Definition ASN_INTEGER : Z := 0x02.
Definition ASN_BITSTRING : Z := 0x03.
Definition ASN_OCTETSTRING : Z := 0x04.
Definition ASN_ENUMERATED : Z := 0x0a.
Definition ASN_CONTEXT : Z := 0x80.
Definition ASN_CONSTRUCTOR : Z := 0x20.
Definition ASN_SEQUENCE : Z := 0x30.
Definition ASN_SEQUENCEOF : Z := ASN_SEQUENCE.

Definition ERROR_MORE_DATA : Z := 234.
Definition CRYPT_E_ASN1_EOD : Z := 0x80093102.
Definition CRYPT_E_ASN1_CORRUPT : Z := 0x80093103.
Definition CRYPT_E_ASN1_LARGE : Z := 0x80093104.
Definition CRYPT_E_ASN1_BADTAG : Z := 0x8009310b.
Definition CMSG_INDEFINITE_LENGTH : Z := 0xffffffff.
(** CRYPT_DECODE_ALLOC_FLAG has the same value *)
Definition CRYPT_ENCODE_ALLOC_FLAG : Z := 0x8000.
Definition CRYPT_DECODE_NOCOPY_FLAG : Z := 1.

Record BLOB := mkBlob { cbData : Z; pbData : list Z }.
Record CRYPT_BIT_BLOB := mkBits { bits : BLOB; cUnusedBits : Z }.

(** ** Where encoders write *)

(** pbEncoded: NULL, a buffer, or (with CRYPT_ENCODE_ALLOC_FLAG) the address
    of a pointer, which points to no memory, to memory that was allocated, or to
    memory that was freed *)
Inductive target := Null | Buffer (mem : list Z) | Pointer (mem : option (list Z)) | Dangling.

(** the value returned, the error set (0 for none), the target and the count *)
Definition enc_res : Type := bool * Z * target * Z.
(** an encoder with its argument: flags, target, count *)
Definition encoder : Type := Z -> target -> Z -> outcome enc_res.

Definition alloc_flag (dwFlags : Z) : bool := negb (Z.land dwFlags CRYPT_ENCODE_ALLOC_FLAG =? 0).
Definition no_alloc (dwFlags : Z) : Z := Z.ldiff dwFlags CRYPT_ENCODE_ALLOC_FLAG.

(** a store at an offset of the memory that is encoded to *)
Definition emit (t : target) (off : Z) (data : list Z) : outcome target :=
  match t with
  | Buffer m => let! m := put_bytes m off data in Ret (Buffer m)
  | Pointer (Some m) => let! m := put_bytes m off data in Ret (Pointer (Some m))
  | _ => Fault
  end.
Definition is_null (t : target) : bool := match t with Null => true | _ => false end.

Section Encode.
Context (pfnAlloc : Z -> option (list Z)).

Definition CRYPT_EncodeEnsureSpace (dwFlags : Z) (t : target) (pcbEncoded bytesNeeded : Z) : outcome enc_res :=
  if alloc_flag dwFlags then
    match t with
    | Pointer _ | Dangling =>
      match pfnAlloc bytesNeeded with
      | None => Ret (false, 0, Pointer None, pcbEncoded)
      | Some m => Ret (true, 0, Pointer (Some m), bytesNeeded)
      end
    | _ => Fault
    end
  else if pcbEncoded <? bytesNeeded then Ret (false, ERROR_MORE_DATA, t, bytesNeeded)
  else Ret (true, 0, t, bytesNeeded).
Definition CRYPT_FreeSpace (t : target) : target := match t with Pointer (Some _) => Dangling | _ => t end.

(** the loop that shifts the length up until its first byte is not zero *)
Fixpoint significant (fuel : nat) (temp n : Z) : outcome Z :=
  if Z.land temp 0xff000000 =? 0 then
    match fuel with O => Spin | S fuel => significant fuel (u32 (Z.shiftl temp 8)) (n - 1) end
  else Ret n.
(** the loop that stores the bytes of the length from the last one *)
Fixpoint store_len (n : nat) (i significantBytes len : Z) (t : target) (off : Z) : outcome target :=
  match n with
  | O => Ret t
  | S n =>
    let! t := emit t (off + significantBytes - i - 1) [u8 (Z.land len 0xff)] in
    store_len n (i + 1) significantBytes (Z.shiftr len 8) t off
  end.
(** [off] is the offset of pbEncoded; [None] when it is NULL *)
Definition CRYPT_EncodeLen (len : Z) (t : target) (off : option Z) (pcbEncoded : Z) : outcome enc_res :=
  let! (bytesNeeded, significantBytes) :=
    (if len <=? 0x7f then Ret (1, 0)
     else let! n := significant 4 len 4 in Ret (n + 1, n)) in
  match off with
  | None => Ret (true, 0, t, bytesNeeded)
  | Some off =>
    if pcbEncoded <? bytesNeeded then Ret (false, ERROR_MORE_DATA, t, pcbEncoded) else
    let! t :=
      (if len <=? 0x7f then emit t off [u8 len]
       else
         let! t := emit t off [u8 (Z.lor significantBytes 0x80)] in
         store_len (Z.to_nat significantBytes) 0 significantBytes len t (off + 1)) in
    Ret (true, 0, t, bytesNeeded)
  end.
(** the number of bytes of a length *)
Definition len_size (len : Z) : outcome Z := let! (_, _, _, n) := CRYPT_EncodeLen len Null None 0 in Ret n.
(** a tag and a length at the start of the memory; the offset after them *)
Definition put_tag_len (t : target) (tag len lenBytes : Z) : outcome (target * Z) :=
  let! t := emit t 0 [tag] in
  let! (_, _, t, lenBytes) := CRYPT_EncodeLen len t (Some 1) lenBytes in
  Ret (t, 1 + lenBytes).

(** memcpy of the blob's bytes *)
Definition blob_bytes (b : BLOB) (n : Z) : outcome (list Z) := read_bytes (pbData b) n.

Definition CRYPT_AsnEncodeOctets (blob : BLOB) (dwFlags : Z) (t : target) (pcbEncoded : Z) : outcome enc_res :=
  let! lenBytes := len_size (cbData blob) in
  let bytesNeeded := u32 (1 + lenBytes + cbData blob) in
  if is_null t then Ret (true, 0, t, bytesNeeded) else
  let! (ret, err, t, cb) := CRYPT_EncodeEnsureSpace dwFlags t pcbEncoded bytesNeeded in
  if (ret : bool) then
    let! (t, off) := put_tag_len t ASN_OCTETSTRING (cbData blob) lenBytes in
    let! t := (if negb (cbData blob =? 0) then let! d := blob_bytes blob (cbData blob) in emit t off d else Ret t) in
    Ret (true, 0, t, cb)
  else Ret (false, err, t, cb).

Definition CRYPT_AsnEncodeBits (blob : CRYPT_BIT_BLOB) (dwFlags : Z) (t : target) (pcbEncoded : Z) : outcome enc_res :=
  let cb := cbData (bits blob) in
  let u := cUnusedBits blob in
  let '(dataBytes, unusedBits) :=
    if u =? 0 then (cb, 0)
    else if u <? u32 (cb * 8) then (u32 (u32 (u32 (cb * 8) - u) / 8 + 1), u8 (if 8 <=? u then u / 8 else u))
    else (0, 0) in
  let! lenBytes := len_size (u32 (dataBytes + 1)) in
  let bytesNeeded := u32 (1 + lenBytes + dataBytes + 1) in
  if is_null t then Ret (true, 0, t, bytesNeeded) else
  let! (ret, err, t, cb) := CRYPT_EncodeEnsureSpace dwFlags t pcbEncoded bytesNeeded in
  if (ret : bool) then
    let! (t, off) := put_tag_len t ASN_BITSTRING (u32 (dataBytes + 1)) lenBytes in
    let! t := emit t off [unusedBits] in
    let! t :=
      (if negb (dataBytes =? 0) then
         let mask := u8 (Z.shiftl 0xff unusedBits) in
         let! (t, off) :=
           (if 1 <? dataBytes then
              let! d := blob_bytes (bits blob) (dataBytes - 1) in
              let! t := emit t (off + 1) d in
              Ret (t, off + 1 + (dataBytes - 1))
            else Ret (t, off + 1)) in
         let! b := rd (pbData (bits blob)) (dataBytes - 1) in
         emit t off [Z.land b mask]
       else Ret t) in
    Ret (true, 0, t, cb)
  else Ret (false, err, t, cb).

(** [for (i = 0; i < newBlob.cbData; i++)]: the bytes of the blob into new
    memory, the last one first *)
Fixpoint swap_loop (n : nat) (i cb : Z) (src new : list Z) : outcome (list Z) :=
  match n with
  | O => Ret new
  | S n =>
    let! b := rd src i in
    let! new := wr new (cb - i - 1) b in
    swap_loop n (i + 1) cb src new
  end.
(** the blob is encoded from a copy in reverse order; [CryptMemAlloc] is the
    process heap's answer, memory of any contents or none *)
Definition CRYPT_AsnEncodeBitsSwapBytes (CryptMemAlloc : Z -> option (list Z)) (blob : CRYPT_BIT_BLOB)
    (dwFlags : Z) (t : target) (pcbEncoded : Z) : outcome enc_res :=
  let cb := cbData (bits blob) in
  let! new :=
    (if negb (cb =? 0) then
       match CryptMemAlloc cb with
       | Some m => let! m := swap_loop (Z.to_nat cb) 0 cb (pbData (bits blob)) m in Ret (Some m)
       | None => Ret None
       end
     else Ret (Some [])) in
  match new with
  | Some d => CRYPT_AsnEncodeBits (mkBits (mkBlob cb d) (cUnusedBits blob)) dwFlags t pcbEncoded
  | None => Ret (false, 0, t, pcbEncoded)
  end.

(** the number of bytes below the highest ones that equal [v] *)
Fixpoint lop (n : nat) (d : list Z) (v : Z) : outcome Z :=
  match n with
  | O => Ret 0
  | S n' => let! b := rd d (Z.of_nat n') in if b =? v then lop n' d v else Ret (Z.of_nat n)
  end.
(** the loop that stores the bytes from the highest one down *)
Fixpoint store_down (n : nat) (d : list Z) (t : target) (off : Z) : outcome target :=
  match n with
  | O => Ret t
  | S n' => let! b := rd d (Z.of_nat n') in let! t := emit t off [b] in store_down n' d t (off + 1)
  end.
(** the end that both encoders of integers have: [pad] is a byte before the
    others *)
Definition put_integer (significantBytes : Z) (pad : option Z) (d : list Z) (dwFlags : Z) (t : target) (pcbEncoded : Z) : outcome enc_res :=
  let len := match pad with Some _ => u32 (significantBytes + 1) | None => significantBytes end in
  let! lenBytes := len_size len in
  let bytesNeeded := u32 (1 + lenBytes + significantBytes + match pad with Some _ => 1 | None => 0 end) in
  if is_null t then Ret (true, 0, t, bytesNeeded) else
  let! (ret, err, t, cb) := CRYPT_EncodeEnsureSpace dwFlags t pcbEncoded bytesNeeded in
  if (ret : bool) then
    let! (t, off) := put_tag_len t ASN_INTEGER len lenBytes in
    let! (t, off) := (match pad with Some p => let! t := emit t off [p] in Ret (t, off + 1) | None => Ret (t, off) end) in
    let! t := store_down (Z.to_nat significantBytes) d t off in
    Ret (true, 0, t, cb)
  else Ret (false, err, t, cb).

Definition CRYPT_AsnEncodeInteger (blob : BLOB) (dwFlags : Z) (t : target) (pcbEncoded : Z) : outcome enc_res :=
  let n := cbData blob in
  let d := pbData blob in
  let! (significantBytes, pad) :=
    (if negb (n =? 0) then
       let! top := rd d (n - 1) in
       if negb (Z.land top 0x80 =? 0) then
         let! s := lop (Z.to_nat n) d 0xff in
         let! b := rd d (s - 1) in
         Ret (s, if b <? 0x80 then Some 0xff else None)
       else
         let! s := lop (Z.to_nat n) d 0 in
         let s := if s =? 0 then 1 else s in
         let! b := rd d (s - 1) in
         Ret (s, if 0x7f <? b then Some 0 else None)
     else Ret (n, None)) in
  put_integer significantBytes pad d dwFlags t pcbEncoded.

(** the bytes of an int in memory *)
Definition int_bytes (v : Z) : list Z := [u8 v; u8 (Z.shiftr v 8); u8 (Z.shiftr v 16); u8 (Z.shiftr v 24)].
Definition CRYPT_AsnEncodeInt (v : Z) : encoder := CRYPT_AsnEncodeInteger (mkBlob 4 (int_bytes v)).

Definition CRYPT_AsnEncodeUnsignedInteger (blob : BLOB) (dwFlags : Z) (t : target) (pcbEncoded : Z) : outcome enc_res :=
  let n := cbData blob in
  let d := pbData blob in
  let! (significantBytes, pad) :=
    (if negb (n =? 0) then
       let! s := lop (Z.to_nat n) d 0 in
       let s := if s =? 0 then 1 else s in
       let! b := rd d (s - 1) in
       Ret (s, if 0x7f <? b then Some 0 else None)
     else Ret (n, None)) in
  put_integer significantBytes pad d dwFlags t pcbEncoded.

Definition CRYPT_AsnEncodeEnumerated (v : Z) (dwFlags : Z) (t : target) (pcbEncoded : Z) : outcome enc_res :=
  let! (ret, err, t', cb) := CRYPT_AsnEncodeUnsignedInteger (mkBlob 4 (int_bytes v)) dwFlags t pcbEncoded in
  if ret && negb (is_null t) then let! t' := emit t' 0 [ASN_ENUMERATED] in Ret (ret, err, t', cb)
  else Ret (ret, err, t', cb).

(** the flag for allocation is not looked at *)
Definition CRYPT_AsnEncodeBool (val : Z) (dwFlags : Z) (t : target) (pcbEncoded : Z) : outcome enc_res :=
  if is_null t then Ret (true, 0, t, 3)
  else if pcbEncoded <? 3 then Ret (false, ERROR_MORE_DATA, t, 3)
  else
    match t with
    | Buffer _ => let! t := emit t 0 [ASN_BOOL; 1; if negb (val =? 0) then 0xff else 0] in Ret (true, 0, t, 3)
    | _ => Fault
    end.

(** *** Encoders that combine others *)

(** an encoder is called on the memory from an offset on *)
Definition encode_at (f : encoder) (dwFlags : Z) (t : target) (off size : Z) : outcome enc_res :=
  let call (m : list Z) (k : list Z -> target) :=
    if (off <? 0) || (zlen m <? off) then Fault else
    let! (ret, err, r, size) := f dwFlags (Buffer (drop (Z.to_nat off) m)) size in
    match r with
    | Buffer m' => Ret (ret, err, k (take (Z.to_nat off) m ++ m'), size)
    | _ => Fault
    end in
  match t with
  | Buffer m => call m Buffer
  | Pointer (Some m) => call m (fun m => Pointer (Some m))
  | _ => Fault
  end.
(** the sizes of the items, their sum, or the error of one *)
Fixpoint item_sizes (items : list encoder) (dwFlags : Z) (dataLen : Z) : outcome (bool * Z * list Z * Z) :=
  match items with
  | [] => Ret (true, 0, [], dataLen)
  | f :: items =>
    let! (ret, err, _, size) := f (no_alloc dwFlags) Null 0 in
    let dataLen := u32 (dataLen + size) in
    if (ret : bool) then
      let! (ret, err, sizes, dataLen) := item_sizes items dwFlags dataLen in
      Ret (ret, err, size :: sizes, dataLen)
    else Ret (false, err, [size], dataLen)
  end.
Fixpoint put_items (items : list encoder) (sizes : list Z) (dwFlags : Z) (t : target) (out : Z) (pcbEncoded : Z) : outcome enc_res :=
  match items, sizes with
  | f :: items, size :: sizes =>
    let! (ret, err, t, size) := encode_at f (no_alloc dwFlags) t out size in
    if (ret : bool) then put_items items sizes dwFlags t (out + size) pcbEncoded else Ret (false, err, t, size)
  | _, _ => Ret (true, 0, t, pcbEncoded)
  end.
Definition CRYPT_AsnEncodeSequence (items : list encoder) (dwFlags : Z) (t : target) (pcbEncoded : Z) : outcome enc_res :=
  let! (ret, err, sizes, dataLen) := item_sizes items dwFlags 0 in
  if (ret : bool) then
    let! lenBytes := len_size dataLen in
    let bytesNeeded := u32 (1 + lenBytes + dataLen) in
    if is_null t then Ret (true, 0, t, bytesNeeded) else
    let! (ret, err, t, cb) := CRYPT_EncodeEnsureSpace dwFlags t pcbEncoded bytesNeeded in
    if (ret : bool) then
      let! (t, out) := put_tag_len t ASN_SEQUENCE dataLen lenBytes in
      let! (ret, err, t, cb) := put_items items sizes dwFlags t out cb in
      Ret (ret, err, if negb ret && alloc_flag dwFlags then CRYPT_FreeSpace t else t, cb)
    else Ret (false, err, t, cb)
  else Ret (false, err, t, default 0 (list.last sizes)).

Definition CRYPT_AsnEncodeConstructed (tag : Z) (f : encoder) (dwFlags : Z) (t : target) (pcbEncoded : Z) : outcome enc_res :=
  let! (ret, err, _, len) := f (no_alloc dwFlags) Null 0 in
  if (ret : bool) then
    let! dataLen := len_size len in
    let bytesNeeded := u32 (1 + dataLen + len) in
    if is_null t then Ret (true, 0, t, bytesNeeded) else
    let! (ret, err, t, cb) := CRYPT_EncodeEnsureSpace dwFlags t pcbEncoded bytesNeeded in
    if (ret : bool) then
      let! (t, out) := put_tag_len t (Z.lor (Z.lor ASN_CONTEXT ASN_CONSTRUCTOR) tag) len dataLen in
      let! (ret, err, t, len) := encode_at f (no_alloc dwFlags) t out len in
      if (ret : bool) then Ret (true, 0, t, cb)
      else Ret (false, err, if alloc_flag dwFlags then CRYPT_FreeSpace t else t, len)
    else Ret (false, err, t, cb)
  else Ret (false, err, t, len).

(** the tag of another encoder's output is replaced; with the flag for
    allocation the pointer would be overwritten *)
Definition CRYPT_AsnEncodeSwapTag (tag : Z) (f : encoder) (dwFlags : Z) (t : target) (pcbEncoded : Z) : outcome enc_res :=
  let! (ret, err, t', cb) := f dwFlags t pcbEncoded in
  if ret && negb (is_null t) then
    match t' with
    | Buffer _ => let! t' := emit t' 0 [tag] in Ret (ret, err, t', cb)
    | _ => Fault
    end
  else Ret (ret, err, t', cb).

(** the values of a sequence, one after the other *)
Fixpoint put_values (vals : list BLOB) (t : target) (off : Z) : outcome target :=
  match vals with
  | [] => Ret t
  | v :: vals =>
    let! d := blob_bytes v (cbData v) in
    let! t := emit t off d in
    put_values vals t (off + cbData v)
  end.
Definition CRYPT_AsnEncodeSequenceOfAny (rgValue : list BLOB) (dwFlags : Z) (t : target) (pcbEncoded : Z) : outcome enc_res :=
  let dataLen := fold_left (fun n v => u32 (n + cbData v)) rgValue 0 in
  let! lenBytes := len_size dataLen in
  let bytesNeeded := u32 (1 + lenBytes + dataLen) in
  if is_null t then Ret (true, 0, t, bytesNeeded) else
  let! (ret, err, t, cb) := CRYPT_EncodeEnsureSpace dwFlags t pcbEncoded bytesNeeded in
  if (ret : bool) then
    let! (t, off) := put_tag_len t ASN_SEQUENCEOF dataLen lenBytes in
    let! t := put_values rgValue t off in
    Ret (true, 0, t, cb)
  else Ret (false, err, t, cb).
End Encode.

(** ** Decoding *)
Definition GET_LEN_BYTES (b : Z) : Z := if b <=? 0x80 then 1 else 1 + Z.land b 0x7f.

(** the bytes of a long length; the counter goes down to zero *)
Fixpoint read_len (n : nat) (pb : list Z) (pos out : Z) : outcome Z :=
  match n with
  | O => Ret out
  | S n => let! b := rd pb pos in read_len n pb (pos + 1) (Z.lor (u32 (Z.shiftl out 8)) b)
  end.
(** an error, or the length of the data *)
Definition CRYPT_GetLengthIndefinite (pbEncoded : list Z) (cbEncoded : Z) : outcome (Z + Z) :=
  if cbEncoded <=? 1 then Ret (inl CRYPT_E_ASN1_CORRUPT) else
  let! b := rd pbEncoded 1 in
  if b <=? 0x7f then
    if cbEncoded <? b + 1 then Ret (inl CRYPT_E_ASN1_EOD) else Ret (inr b)
  else if b =? 0x80 then Ret (inr CMSG_INDEFINITE_LENGTH)
  else
    let lenLen := GET_LEN_BYTES b in
    if 4 + 1 <? lenLen then Ret (inl CRYPT_E_ASN1_LARGE)
    else if cbEncoded <? lenLen + 2 then Ret (inl CRYPT_E_ASN1_CORRUPT)
    else
      let! out := read_len (Z.to_nat (lenLen - 1)) pbEncoded 2 0 in
      let lenLen := 0 in
      if cbEncoded <? u32 (out + lenLen + 1) then Ret (inl CRYPT_E_ASN1_EOD) else Ret (inr out).
Definition CRYPT_GetLen (pbEncoded : list Z) (cbEncoded : Z) : outcome (Z + Z) :=
  let! r := CRYPT_GetLengthIndefinite pbEncoded cbEncoded in
  match r with
  | inr len => if len =? CMSG_INDEFINITE_LENGTH then Ret (inl CRYPT_E_ASN1_CORRUPT) else Ret (inr len)
  | inl err => Ret (inl err)
  end.

(** the end of an encoding, which may be nested and of indefinite length; a
    round moves past one tag and length, and past the data of a known length *)
Fixpoint find_end (fuel : nat) (pb : list Z) (cb levels decoded : Z) : outcome (Z + Z * Z) :=
  match fuel with
  | O => Spin
  | S fuel =>
    if cb =? 0 then Ret (inr (levels, decoded)) else
    let! r := CRYPT_GetLengthIndefinite pb cb in
    match r with
    | inl err => Ret (inl err)
    | inr dataLen =>
      let! b1 := rd pb 1 in
      let lenBytes := GET_LEN_BYTES b1 in
      if dataLen =? CMSG_INDEFINITE_LENGTH then
        find_end fuel (drop (Z.to_nat (1 + lenBytes)) pb) (u32 (cb - (1 + lenBytes))) (levels + 1) (u32 (decoded + (1 + lenBytes)))
      else
        let! b0 := rd pb 0 in
        let levels := if (b0 =? 0) && (b1 =? 0) && negb (levels =? 0) then levels - 1 else levels in
        let step := u32 (1 + lenBytes + dataLen) in
        if levels =? 0 then Ret (inr (levels, u32 (decoded + step)))
        else find_end fuel (drop (Z.to_nat step) pb) (u32 (cb - step)) levels (u32 (decoded + step))
    end
  end.
Definition CRYPT_FindEncodedLen (pbEncoded : list Z) (cbEncoded : Z) : outcome (Z + Z) :=
  let! r := find_end (length pbEncoded + 1) pbEncoded cbEncoded 0 0 in
  match r with
  | inl err => Ret (inl err)
  | inr (levels, decoded) => if negb (levels =? 0) then Ret (inl CRYPT_E_ASN1_EOD) else Ret (inr decoded)
  end.

(** ** Where decoders write *)

(** pvStructInfo of a decoder of blobs: NULL, a structure with [area] behind
    it, or (with CRYPT_DECODE_ALLOC_FLAG) the address of a pointer *)
Inductive dest := NoDest | Area (area : list Z) | Allocate.
(** the value returned, the error set, what was decoded and the count *)
Definition dec_res (A : Type) : Type := bool * Z * option A * Z.

Definition nocopy (dwFlags : Z) : bool := negb (Z.land dwFlags CRYPT_DECODE_NOCOPY_FLAG =? 0).
Definition sizeof_BLOB : Z := 8.
Definition sizeof_BIT_BLOB : Z := 12.

Section Decode.
Context (pfnAlloc : Z -> option (list Z)).

(** the area behind the structure of [size] bytes, when there is enough space *)
Definition CRYPT_DecodeEnsureSpace (dwFlags : Z) (d : dest) (size pcbStructInfo bytesNeeded : Z) : outcome (bool * Z * list Z * Z) :=
  if alloc_flag dwFlags then
    match d with
    | Allocate =>
      match pfnAlloc bytesNeeded with
      | None => Ret (false, 0, [], pcbStructInfo)
      | Some m => Ret (true, 0, drop (Z.to_nat size) m, bytesNeeded)
      end
    | _ => Fault
    end
  else if pcbStructInfo <? bytesNeeded then Ret (false, ERROR_MORE_DATA, [], bytesNeeded)
  else match d with Area area => Ret (true, 0, area, bytesNeeded) | _ => Fault end.
Definition CRYPT_DecodeCheckSpace (pcbStructInfo bytesNeeded : Z) : bool * Z * Z :=
  if pcbStructInfo <? bytesNeeded then (false, ERROR_MORE_DATA, bytesNeeded) else (true, 0, bytesNeeded).

(** a decoder without its tag: the encoding, its size, flags, the memory that
    pbData points to ([None] for a NULL structure) and the count; the last
    component is the number of bytes of the encoding *)
Definition internal (A : Type) : Type := list Z -> Z -> Z -> option (list Z) -> Z -> outcome (dec_res A * Z).

(** [n] bytes from an offset of the encoding *)
Definition data_at (pb : list Z) (off n : Z) : outcome (list Z) :=
  if zlen pb <? off then Fault else read_bytes (drop (Z.to_nat off) pb) n.

Definition CRYPT_AsnDecodeOctetsInternal : internal BLOB := fun pbEncoded cbEncoded dwFlags area pcb =>
  let! r := CRYPT_GetLen pbEncoded cbEncoded in
  match r with
  | inl err => Ret ((false, err, None, pcb), 0)
  | inr dataLen =>
    let! b := rd pbEncoded 1 in
    let lenBytes := GET_LEN_BYTES b in
    let bytesNeeded := if nocopy dwFlags then sizeof_BLOB else u32 (dataLen + sizeof_BLOB) in
    let decoded := u32 (1 + lenBytes + dataLen) in
    match area with
    | None => Ret ((true, 0, None, bytesNeeded), decoded)
    | Some area =>
      if pcb <? bytesNeeded then Ret ((false, ERROR_MORE_DATA, None, bytesNeeded), decoded) else
      if nocopy dwFlags then
        Ret ((true, 0, Some (mkBlob dataLen (drop (Z.to_nat (1 + lenBytes)) pbEncoded)), bytesNeeded), decoded)
      else
        let! area :=
          (if negb (dataLen =? 0) then let! d := data_at pbEncoded (1 + lenBytes) dataLen in put_bytes area 0 d else Ret area) in
        Ret ((true, 0, Some (mkBlob dataLen area), bytesNeeded), decoded)
    end
  end.

(** the last byte of the copy loses its unused bits *)
Definition mask_last (area : list Z) (cb unused : Z) : outcome (list Z) :=
  let! b := rd area (cb - 1) in
  wr area (cb - 1) (Z.land b (u8 (Z.shiftl 0xff unused))).
Definition CRYPT_AsnDecodeBitsInternal : internal CRYPT_BIT_BLOB := fun pbEncoded cbEncoded dwFlags area pcb =>
  let! b := rd pbEncoded 1 in
  let lenBytes := GET_LEN_BYTES b in
  let! r := CRYPT_GetLen pbEncoded cbEncoded in
  match r with
  | inl err => Ret ((false, err, None, pcb), 0)
  | inr dataLen =>
    let bytesNeeded := if nocopy dwFlags then sizeof_BIT_BLOB else u32 (dataLen - 1 + sizeof_BIT_BLOB) in
    let decoded := u32 (1 + lenBytes + dataLen) in
    match area with
    | None => Ret ((true, 0, None, bytesNeeded), decoded)
    | Some area =>
      if pcb <? bytesNeeded then Ret ((false, ERROR_MORE_DATA, None, bytesNeeded), decoded) else
      let cb := u32 (dataLen - 1) in
      let! unused := rd pbEncoded (1 + lenBytes) in
      if nocopy dwFlags then
        Ret ((true, 0, Some (mkBits (mkBlob cb (drop (Z.to_nat (2 + lenBytes)) pbEncoded)) unused), bytesNeeded), decoded)
      else
        let! area :=
          (if negb (cb =? 0) then
             let! d := data_at pbEncoded (2 + lenBytes) cb in
             let! area := put_bytes area 0 d in
             mask_last area cb unused
           else Ret area) in
        Ret ((true, 0, Some (mkBits (mkBlob cb area) unused), bytesNeeded), decoded)
    end
  end.

(** the value of an int from its bytes, the first one first *)
Fixpoint int_loop (n : nat) (pb : list Z) (pos val : Z) : outcome Z :=
  match n with
  | O => Ret val
  | S n => let! b := rd pb pos in int_loop n pb (pos + 1) (s32 (Z.lor (s32 (Z.shiftl val 8)) b))
  end.
(** [area] tells whether there is a destination *)
Definition CRYPT_AsnDecodeIntInternal : internal Z := fun pbEncoded cbEncoded dwFlags area pcb =>
  let! r := CRYPT_GetLen pbEncoded cbEncoded in
  match r with
  | inl err => Ret ((false, err, None, pcb), 0)
  | inr dataLen =>
    let! b := rd pbEncoded 1 in
    let lenBytes := GET_LEN_BYTES b in
    let decoded := u32 (1 + lenBytes + dataLen) in
    if 4 <? dataLen then Ret ((false, CRYPT_E_ASN1_LARGE, None, pcb), decoded) else
    match area with
    | None => Ret ((true, 0, None, 4), decoded)
    | Some _ =>
      let '(ret, err, cb) := CRYPT_DecodeCheckSpace pcb 4 in
      if (ret : bool) then
        let! neg := (if negb (dataLen =? 0) then let! b := rd pbEncoded (1 + lenBytes) in Ret (negb (Z.land b 0x80 =? 0)) else Ret false) in
        let! val := int_loop (Z.to_nat dataLen) pbEncoded (1 + lenBytes) (if (neg : bool) then -1 else 0) in
        Ret ((true, 0, Some val, cb), decoded)
      else Ret ((false, err, None, cb), decoded)
    end
  end.

(** the loop that copies the bytes in reverse order *)
Fixpoint copy_reversed (n : nat) (i : Z) (pb : list Z) (first dataLen : Z) (area : list Z) : outcome (list Z) :=
  match n with
  | O => Ret area
  | S n =>
    let! b := rd pb (first + dataLen - i - 1) in
    let! area := wr area i b in
    copy_reversed n (i + 1) pb first dataLen area
  end.
Definition CRYPT_AsnDecodeIntegerInternal : internal BLOB := fun pbEncoded cbEncoded dwFlags area pcb =>
  let! r := CRYPT_GetLen pbEncoded cbEncoded in
  match r with
  | inl err => Ret ((false, err, None, pcb), 0)
  | inr dataLen =>
    let! b := rd pbEncoded 1 in
    let lenBytes := GET_LEN_BYTES b in
    let bytesNeeded := u32 (dataLen + sizeof_BLOB) in
    let decoded := u32 (1 + lenBytes + dataLen) in
    match area with
    | None => Ret ((true, 0, None, bytesNeeded), decoded)
    | Some area =>
      if pcb <? bytesNeeded then Ret ((false, ERROR_MORE_DATA, None, bytesNeeded), decoded) else
      let! area := copy_reversed (Z.to_nat dataLen) 0 pbEncoded (1 + lenBytes) dataLen area in
      Ret ((true, 0, Some (mkBlob dataLen area), bytesNeeded), decoded)
    end
  end.
Definition CRYPT_AsnDecodeUnsignedIntegerInternal : internal BLOB := fun pbEncoded cbEncoded dwFlags area pcb =>
  let! tag := rd pbEncoded 0 in
  if tag =? ASN_INTEGER then
    let! r := CRYPT_GetLen pbEncoded cbEncoded in
    match r with
    | inl err => Ret ((false, err, None, pcb), 0)
    | inr dataLen =>
      let! b := rd pbEncoded 1 in
      let lenBytes := GET_LEN_BYTES b in
      let bytesNeeded := u32 (dataLen + sizeof_BLOB) in
      let decoded := u32 (1 + lenBytes + dataLen) in
      match area with
      | None => Ret ((true, 0, None, bytesNeeded), decoded)
      | Some area =>
        if pcb <? bytesNeeded then Ret ((false, ERROR_MORE_DATA, None, bytesNeeded), decoded) else
        let! zero := (if negb (dataLen =? 0) then let! b := rd pbEncoded (1 + lenBytes) in Ret (b =? 0) else Ret false) in
        let cb := if (zero : bool) then dataLen - 1 else dataLen in
        let area := if (zero : bool) then drop 1 area else area in
        let! area := copy_reversed (Z.to_nat cb) 0 pbEncoded (1 + lenBytes) dataLen area in
        Ret ((true, 0, Some (mkBlob cb area), bytesNeeded), decoded)
      end
    end
  else Ret ((false, CRYPT_E_ASN1_BADTAG, None, pcb), 0).

(** the end that the decoders with tags have: the size is asked for, then there
    must be space *)
Definition decode_with {A} (f : internal A) (size : Z) (pbEncoded : list Z) (cbEncoded dwFlags : Z) (d : dest) (pcbStructInfo : Z) : outcome (dec_res A) :=
  let! (ret, err, _, bytesNeeded, _) := f pbEncoded cbEncoded (no_alloc dwFlags) None 0 in
  if (ret : bool) then
    match d with
    | NoDest => Ret (true, 0, None, bytesNeeded)
    | _ =>
      let! (ret, err, area, cb) := CRYPT_DecodeEnsureSpace dwFlags d size pcbStructInfo bytesNeeded in
      if (ret : bool) then
        let! (ret, err, v, _, _) := f pbEncoded cbEncoded (no_alloc dwFlags) (Some area) bytesNeeded in
        Ret (ret, err, v, cb)
      else Ret (false, err, None, cb)
    end
  else Ret (false, err, None, pcbStructInfo).

Definition CRYPT_AsnDecodeOctets (pbEncoded : list Z) (cbEncoded dwFlags : Z) (d : dest) (pcb : Z) : outcome (dec_res BLOB) :=
  if cbEncoded =? 0 then Ret (false, CRYPT_E_ASN1_CORRUPT, None, pcb) else
  let! tag := rd pbEncoded 0 in
  if negb (tag =? ASN_OCTETSTRING) then Ret (false, CRYPT_E_ASN1_BADTAG, None, pcb)
  else decode_with CRYPT_AsnDecodeOctetsInternal sizeof_BLOB pbEncoded cbEncoded dwFlags d pcb.
Definition CRYPT_AsnDecodeBits (pbEncoded : list Z) (cbEncoded dwFlags : Z) (d : dest) (pcb : Z) : outcome (dec_res CRYPT_BIT_BLOB) :=
  if cbEncoded =? 0 then Ret (false, CRYPT_E_ASN1_CORRUPT, None, pcb) else
  let! tag := rd pbEncoded 0 in
  if negb (tag =? ASN_BITSTRING) then Ret (false, CRYPT_E_ASN1_BADTAG, None, pcb)
  else decode_with CRYPT_AsnDecodeBitsInternal sizeof_BIT_BLOB pbEncoded cbEncoded dwFlags d pcb.
Definition CRYPT_AsnDecodeInt (pbEncoded : list Z) (cbEncoded dwFlags : Z) (d : dest) (pcb : Z) : outcome (dec_res Z) :=
  if cbEncoded =? 0 then Ret (false, CRYPT_E_ASN1_EOD, None, pcb) else
  let! tag := rd pbEncoded 0 in
  if negb (tag =? ASN_INTEGER) then Ret (false, CRYPT_E_ASN1_BADTAG, None, pcb)
  else decode_with CRYPT_AsnDecodeIntInternal 4 pbEncoded cbEncoded dwFlags d pcb.
Definition CRYPT_AsnDecodeInteger (pbEncoded : list Z) (cbEncoded dwFlags : Z) (d : dest) (pcb : Z) : outcome (dec_res BLOB) :=
  let! tag := rd pbEncoded 0 in
  if negb (tag =? ASN_INTEGER) then Ret (false, CRYPT_E_ASN1_BADTAG, None, pcb)
  else decode_with CRYPT_AsnDecodeIntegerInternal sizeof_BLOB pbEncoded cbEncoded dwFlags d pcb.
Definition CRYPT_AsnDecodeUnsignedInteger (pbEncoded : list Z) (cbEncoded dwFlags : Z) (d : dest) (pcb : Z) : outcome (dec_res BLOB) :=
  decode_with CRYPT_AsnDecodeUnsignedIntegerInternal sizeof_BLOB pbEncoded cbEncoded dwFlags d pcb.

Fixpoint enum_loop (n : nat) (pb : list Z) (pos val : Z) : outcome Z :=
  match n with
  | O => Ret val
  | S n => let! b := rd pb pos in enum_loop n pb (pos + 1) (Z.lor (u32 (Z.shiftl val 8)) b)
  end.
Definition CRYPT_AsnDecodeEnumerated (pbEncoded : list Z) (cbEncoded dwFlags : Z) (d : dest) (pcb : Z) : outcome (dec_res Z) :=
  match d with
  | NoDest => Ret (true, 0, None, 4)
  | _ =>
    let! tag := rd pbEncoded 0 in
    if tag =? ASN_ENUMERATED then
      if cbEncoded <=? 1 then Ret (false, CRYPT_E_ASN1_EOD, None, pcb) else
      let! b := rd pbEncoded 1 in
      if b =? 0 then Ret (false, CRYPT_E_ASN1_CORRUPT, None, pcb)
      else if 4 + 1 <? b then Ret (false, CRYPT_E_ASN1_LARGE, None, pcb)
      else
        let! val := enum_loop (Z.to_nat b) pbEncoded 2 0 in
        let! (ret, err, _, cb) := CRYPT_DecodeEnsureSpace dwFlags d 4 pcb 4 in
        Ret (ret, err, if (ret : bool) then Some val else None, cb)
    else Ret (false, CRYPT_E_ASN1_BADTAG, None, pcb)
  end.

(** [isnull] for a NULL structure *)
Definition CRYPT_AsnDecodeBool (pbEncoded : list Z) (cbEncoded : Z) (isnull : bool) (pcb : Z) : outcome (dec_res bool * Z) :=
  if cbEncoded <? 3 then Ret ((false, CRYPT_E_ASN1_CORRUPT, None, pcb), 0) else
  let! b := rd pbEncoded 1 in
  if 1 <? GET_LEN_BYTES b then Ret ((false, CRYPT_E_ASN1_CORRUPT, None, pcb), 0)
  else if 1 <? b then Ret ((false, CRYPT_E_ASN1_CORRUPT, None, pcb), 0)
  else if isnull then Ret ((true, 0, None, 4), 3)
  else if pcb <? 4 then Ret ((false, ERROR_MORE_DATA, None, 4), 3)
  else let! v := rd pbEncoded 2 in Ret ((true, 0, Some (negb (v =? 0)), 4), 3).
End Decode.
End Der.
