(* ===== verification/DerSpec.v ===== *)
(** * DER encoding and decoding: what the functions promise

    The interface [Encodes] says what an encoder with its argument does: the
    size, the bytes, the error when they do not fit.  The encoders of the
    primitive types are instances; the encoders that combine others are proved
    against the interface and are instances again.  The decoders give back what
    was encoded. *)
From S2P Require Import Prelude Der.
Import Der.

Module DerSpec.

Ltac conj := repeat match goal with |- _ /\ _ => split end.

Lemma zlen_zero {A} (l : list A) : zlen l = 0 -> l = [].
Proof. destruct l as [|x l]; [done|]. rewrite zlen_cons. pose proof (zlen_nonneg l). lia. Qed.

(** ** Lengths *)
Fixpoint be_digits (n : nat) (v : Z) : list Z :=
  match n with O => [] | S n => be_digits n (v / 256) ++ [v mod 256] end.
Definition len_count (v : Z) : Z := if v <? 256 then 1 else if v <? 65536 then 2 else if v <? 16777216 then 3 else 4.
(** the DER form of a length *)
Definition der_len (v : Z) : list Z :=
  if v <=? 127 then [v] else (128 + len_count v) :: be_digits (Z.to_nat (len_count v)) v.
(** a tag, a length and data *)
Definition tlv (tag : Z) (data : list Z) : list Z := tag :: der_len (zlen data) ++ data.

Lemma length_be_digits n : forall v, length (be_digits n v) = n.
Proof. induction n as [|n IH]; intros v; [done|]. cbn [be_digits]. rewrite length_app, IH. simpl. lia. Qed.
Lemma zlen_der_len v : 0 <= v -> zlen (der_len v) = if v <=? 127 then 1 else len_count v + 1.
Proof.
  intros H. unfold der_len. destruct (v <=? 127); [done|]. rewrite zlen_cons. unfold zlen. rewrite length_be_digits.
  unfold len_count. zcases.
Qed.
Lemma der_len_bounds v : 0 <= v -> 1 <= zlen (der_len v) <= 5.
Proof. intros H. rewrite zlen_der_len by done. unfold len_count. zcases. Qed.

Lemma significant_step fuel v n : 0 <= v < 2 ^ 24 -> significant (S fuel) v n = significant fuel (v * 256) (n - 1).
Proof.
  intros H. cbn [significant]. rewrite Z.shiftl_mul_pow2 by lia. change (2 ^ 8) with 256. rewrite wrapU_small by (unfold isU; lia).
  replace (Z.land v 0xff000000) with 0; [done|]. symmetry. apply Z.bits_inj'. intros j Hj. rewrite Z.land_spec, Z.bits_0.
  destruct (decide (j < 24)).
  - replace (Z.testbit 0xff000000 j) with false; [apply andb_false_r|]. change 0xff000000 with (0xff * 2 ^ 24). by rewrite Z.mul_pow2_bits_low by lia.
  - rewrite (testbit_isU_high 24 v) by (done || lia). done.
Qed.
Lemma significant_top fuel v n : 2 ^ 24 <= v < 2 ^ 32 -> significant fuel v n = Ret n.
Proof.
  intros H. destruct fuel; cbn [significant]; replace (Z.land v 0xff000000 =? 0) with false; try done; symmetry; apply Z.eqb_neq; intros E.
  all: assert (Hd : Z.land (Z.shiftr v 24) 0xff = 0) by (change 0xff with (Z.shiftr 0xff000000 24); rewrite <- Z.shiftr_land, E; done).
  all: change 0xff with (2 ^ 8 - 1) in Hd; rewrite land_pow2_mask, Z.shiftr_div_pow2 in Hd by lia; change (2 ^ 24) with 16777216 in *; change (2 ^ 8) with 256 in *; change (2 ^ 32) with 4294967296 in *; dlia.
Qed.
Lemma significant_count v : 127 < v < 2 ^ 32 -> significant 4 v 4 = Ret (len_count v).
Proof.
  intros H. unfold len_count. change (2 ^ 32) with 4294967296 in *.
  destruct (Z.ltb_spec v 256); [|destruct (Z.ltb_spec v 65536); [|destruct (Z.ltb_spec v 16777216)]].
  - rewrite !significant_step, significant_top by lia. done.
  - rewrite !significant_step, significant_top by lia. done.
  - rewrite !significant_step, significant_top by lia. done.
  - by rewrite significant_top by lia.
Qed.
Lemma len_size_ok v : 0 <= v < 2 ^ 32 -> len_size v = Ret (zlen (der_len v)).
Proof.
  intros H. unfold len_size, CRYPT_EncodeLen. rewrite zlen_der_len by lia. destruct (Z.leb_spec v 0x7f); [done|].
  rewrite significant_count by lia. done.
Qed.

(** ** Writing *)

(** the memory of a buffer or of an allocation *)
Definition mk (s : bool) (m : list Z) : target := if s then Buffer m else Pointer (Some m).
Lemma is_null_mk s m : is_null (mk s m) = false.
Proof. by destruct s. Qed.
Lemma emit_next s p r d off : off = zlen p -> (length d <= length r)%nat ->
  emit (mk s (p ++ r)) off d = Ret (mk s ((p ++ d) ++ drop (length d) r)).
Proof.
  intros Ho Hl. assert (E : put_bytes (p ++ r) off d = Ret ((p ++ d) ++ drop (length d) r)).
  { rewrite <- (take_drop (length d) r) at 1. rewrite (put_bytes_app p (take (length d) r) (drop (length d) r) d off); [|done|rewrite length_take; lia].
    by rewrite app_assoc. }
  destruct s; unfold emit, mk; rewrite E; done.
Qed.
Lemma emit_first s m d : (length d <= length m)%nat -> emit (mk s m) 0 d = Ret (mk s (d ++ drop (length d) m)).
Proof. intros H. apply (emit_next s [] m d 0); [done|done]. Qed.

Lemma store_len_ok s n : forall i sig len pre x post off, length x = n -> i = sig - Z.of_nat n -> off = zlen pre -> 0 <= len ->
  store_len n i sig len (mk s (pre ++ x ++ post)) off = Ret (mk s (pre ++ be_digits n len ++ post)).
Proof.
  induction n as [|n IH]; intros i sig len pre x post off Hx Hi -> Hlen; [by destruct x|].
  destruct (exists_last (l := x)) as (x' & y & ->); [by destruct x|]. rewrite length_app in Hx. simpl in Hx. cbn [store_len].
  replace (u8 (Z.land len 0xff)) with (len mod 256).
  2:{ change 0xff with (2 ^ 8 - 1). rewrite land_pow2_mask by lia. unfold wrapU. change (2 ^ 8) with 256. by rewrite Z.mod_mod. }
  assert (E : emit (mk s (pre ++ (x' ++ [y]) ++ post)) (zlen pre + sig - i - 1) [len mod 256] = Ret (mk s (pre ++ x' ++ [len mod 256] ++ post))).
  { replace (pre ++ (x' ++ [y]) ++ post) with ((pre ++ x') ++ [y] ++ post) by (by rewrite <- !app_assoc).
    rewrite emit_next; [|rewrite zlen_app; unfold zlen at 3; lia|simpl; lia]. simpl drop. by rewrite <- !app_assoc. }
  rewrite E. cbn [obind]. rewrite Z.shiftr_div_pow2 by lia. change (2 ^ 8) with 256.
  rewrite (IH (i + 1) sig (len / 256) pre x' ([len mod 256] ++ post)); [|lia|lia|done|apply Z.div_pos; lia].
  cbn [be_digits]. by rewrite <- !app_assoc.
Qed.
Lemma EncodeLen_ok s p r len cb : 0 <= len < 2 ^ 32 -> zlen (der_len len) <= cb -> (length (der_len len) <= length r)%nat ->
  CRYPT_EncodeLen len (mk s (p ++ r)) (Some (zlen p)) cb =
    Ret (true, 0, mk s ((p ++ der_len len) ++ drop (length (der_len len)) r), zlen (der_len len)).
Proof.
  intros Hlen Hcb Hr. unfold CRYPT_EncodeLen. rewrite zlen_der_len in * by lia. destruct (Z.leb_spec len 0x7f) as [Hs|Hs].
  - cbn [obind]. replace (len <=? 127) with true in * by lia. replace (cb <? 1) with false by lia.
    unfold der_len in *. replace (len <=? 127) with true in * by lia. rewrite wrapU_small by (unfold isU; lia).
    rewrite emit_next by done. done.
  - rewrite significant_count by lia. cbn [obind]. replace (len <=? 127) with false in * by lia. replace (cb <? len_count len + 1) with false by lia.
    assert (Hc : 1 <= len_count len <= 4) by (unfold len_count; zcases).
    replace (u8 (Z.lor (len_count len) 0x80)) with (128 + len_count len).
    2:{ rewrite Z.lor_comm. change 0x80 with (1 * 2 ^ 7). rewrite lor_low by lia. rewrite wrapU_small by (unfold isU; lia). lia. }
    unfold der_len in *. replace (len <=? 127) with false in * by lia. cbn [length] in *. rewrite length_be_digits in *.
    rewrite emit_next by (done || (simpl; lia)). cbn [obind length].
    remember (Z.to_nat (len_count len)) as n eqn:En. rewrite <- (take_drop n (drop 1 r)).
    replace (zlen p + 1) with (zlen (p ++ [128 + len_count len])) by (by rewrite zlen_app).
    rewrite (store_len_ok s n 0 (len_count len) len _ (take n (drop 1 r)) (drop n (drop 1 r))); [|rewrite length_take, length_drop; lia|lia|done|lia].
    cbn [obind]. rewrite drop_drop. replace (1 + n)%nat with (S n) by lia. by rewrite <- !app_assoc.
Qed.
Lemma put_tag_len_ok s m tag len : 0 <= len < 2 ^ 32 -> (1 + length (der_len len) <= length m)%nat ->
  put_tag_len (mk s m) tag len (zlen (der_len len)) = Ret (mk s ((tag :: der_len len) ++ drop (length (tag :: der_len len)) m), zlen (tag :: der_len len)).
Proof.
  intros Hlen Hm. unfold put_tag_len. rewrite emit_first by (simpl; lia). cbn [obind length]. change 1 with (zlen [tag]) at 1.
  rewrite EncodeLen_ok; [|done|lia|rewrite length_drop; lia]. cbn [obind]. rewrite drop_drop. rewrite zlen_cons, Z.add_comm. done.
Qed.

(** ** The values of integers *)

(** the value of bytes, the lowest one first: unsigned, and in two's complement *)
Definition le_val (d : list Z) : Z := foldr (fun b r => b + 256 * r) 0 d.
Definition sbyte (b : Z) : Z := if b <? 128 then b else b - 256.
Fixpoint le_signed (d : list Z) : Z :=
  match d with
  | [] => 0
  | [b] => sbyte b
  | b :: d => b + 256 * le_signed d
  end.
(** no shorter data, the highest byte first, has the same value *)
Definition minimal (c : list Z) : Prop :=
  match c with
  | x :: y :: _ => ~ (x = 0 /\ y < 128) /\ ~ (x = 255 /\ 128 <= y)
  | _ => True
  end.
(** the byte that repeats the sign *)
Definition ext (b : Z) : Z := if b <? 128 then 0 else 255.

Lemma le_val_app a b : le_val (a ++ b) = le_val a + 256 ^ zlen a * le_val b.
Proof.
  induction a as [|x a IH]; [simpl; unfold zlen; simpl; lia|]. cbn [app]. unfold le_val in *. cbn [foldr]. rewrite IH, zlen_cons.
  pose proof (zlen_nonneg a). rewrite Z.pow_add_r by lia. lia.
Qed.
Lemma le_val_range d : bytes d -> 0 <= le_val d < 256 ^ zlen d.
Proof.
  induction 1 as [|b d Hb Hd IH]; [done|]. rewrite zlen_cons. pose proof (zlen_nonneg d). rewrite Z.pow_add_r by lia.
  unfold le_val in *. cbn [foldr]. unfold isU in Hb. change (2 ^ 8) with 256 in Hb. lia.
Qed.
Lemma le_signed_snoc a b : le_signed (a ++ [b]) = le_val a + 256 ^ zlen a * sbyte b.
Proof.
  induction a as [|x a IH]; [simpl; unfold zlen; simpl; lia|]. rewrite zlen_cons. pose proof (zlen_nonneg a). rewrite Z.pow_add_r by lia.
  unfold le_val in *. cbn [foldr]. destruct a as [|y a]; [simpl; unfold zlen; simpl; lia|]. cbn [app le_signed] in *. rewrite IH. lia.
Qed.
Lemma le_signed_ext a b j : le_signed ((a ++ [b]) ++ replicate j (ext b)) = le_signed (a ++ [b]).
Proof.
  induction j as [|j IH]; [by rewrite app_nil_r|]. rewrite replicate_S, replicate_cons_app, app_assoc, le_signed_snoc, <- IH. clear IH.
  destruct j as [|j].
  - rewrite app_nil_r, le_signed_snoc, le_val_app, zlen_app. change (zlen [b]) with 1. pose proof (zlen_nonneg a). rewrite Z.pow_add_r by lia.
    unfold ext, sbyte, le_val at 2. simpl foldr. destruct (Z.ltb_spec b 128); simpl; lia.
  - rewrite replicate_S, replicate_cons_app, app_assoc, le_signed_snoc. set (l := (a ++ [b]) ++ replicate j (ext b)).
    rewrite le_val_app, zlen_app. change (zlen [ext b]) with 1. pose proof (zlen_nonneg l). rewrite Z.pow_add_r by lia.
    unfold ext, sbyte, le_val at 2. simpl foldr. destruct (Z.ltb_spec b 128); simpl; lia.
Qed.
Lemma bit7 b : isU 8 b -> (Z.land b 0x80 =? 0) = (b <? 128).
Proof.
  assert (all_below 256 (fun b => Bool.eqb (Z.land b 0x80 =? 0) (b <? 128)) = true) as H by (vm_compute; reflexivity).
  intros Hb. pose proof (all_below_spec _ _ H b Hb) as E. cbv beta in E. by apply Bool.eqb_prop in E.
Qed.

(** *** Minimal data is determined by its value *)
Lemma le_signed_bounds a b : bytes (a ++ [b]) -> - 128 * 256 ^ zlen a <= le_signed (a ++ [b]) < 128 * 256 ^ zlen a.
Proof.
  intros [Ha Hb]%Forall_app. apply Forall_cons_1 in Hb as [Hb _]. rewrite le_signed_snoc. apply le_val_range in Ha.
  unfold isU in Hb. change (2 ^ 8) with 256 in Hb. unfold sbyte. destruct (Z.ltb_spec b 128); nia.
Qed.
Lemma minimal_bounds a y x : bytes (a ++ [y; x]) -> minimal (x :: y :: rev a) ->
  let v := le_signed (a ++ [y; x]) in v < - 128 * 256 ^ zlen a \/ 128 * 256 ^ zlen a <= v.
Proof.
  intros [Ha Hb]%Forall_app [H1 H2]. apply Forall_cons_1 in Hb as [Hy Hb]. apply Forall_cons_1 in Hb as [Hx _]. simpl.
  change [y; x] with ([y] ++ [x]). rewrite app_assoc, le_signed_snoc, le_val_app, zlen_app. change (zlen [y]) with 1. pose proof (zlen_nonneg a).
  rewrite Z.pow_add_r by lia. apply le_val_range in Ha. unfold le_val at 2 4. simpl foldr. unfold isU in *. change (2 ^ 8) with 256 in *.
  change (256 ^ 1) with 256. set (P := 256 ^ zlen a) in *. unfold sbyte. destruct (Z.ltb_spec x 128).
  - right. assert (128 <= y + 256 * x) by lia. nia.
  - left. assert (y + 256 * (x - 256) < -128) by lia. nia.
Qed.
Lemma le_val_inj : forall a b, bytes a -> bytes b -> length a = length b -> le_val a = le_val b -> a = b.
Proof.
  induction a as [|x a IH]; intros [|y b] Ha Hb Hl E; [done|done|done|]. apply Forall_cons_1 in Ha as [Hx Ha]. apply Forall_cons_1 in Hb as [Hy Hb].
  unfold isU in *. change (2 ^ 8) with 256 in *. unfold le_val in *. cbn [foldr] in E.
  assert (x = y /\ foldr (fun b r => b + 256 * r) 0 a = foldr (fun b r => b + 256 * r) 0 b) as [-> E'] by lia. simpl in Hl. f_equal. apply IH; auto.
Qed.
Lemma le_signed_inj a b : bytes a -> bytes b -> length a = length b -> le_signed a = le_signed b -> a = b.
Proof.
  destruct a as [|x a _] using rev_ind; destruct b as [|y b _] using rev_ind; rewrite ?length_app; simpl; try lia; [done|].
  intros [Ha Hx]%Forall_app [Hb Hy]%Forall_app Hl E. rewrite !le_signed_snoc in E. assert (length a = length b) as Hl' by lia.
  apply Forall_cons_1 in Hx as [Hx _]. apply Forall_cons_1 in Hy as [Hy _]. pose proof (le_val_range a Ha). pose proof (le_val_range b Hb).
  unfold isU, zlen in *. rewrite Hl' in *. change (2 ^ 8) with 256 in *. set (P := 256 ^ Z.of_nat (length b)) in *.
  assert (sbyte x = sbyte y) by nia. assert (x = y) as -> by (unfold sbyte in *; destruct (Z.ltb_spec x 128), (Z.ltb_spec y 128); lia).
  f_equal. apply le_val_inj; [done|done|done|]. lia.
Qed.
Lemma minimal_longer a b : bytes a -> bytes b -> minimal (rev b) -> (length a < length b)%nat -> a <> [] -> le_signed a <> le_signed b.
Proof.
  intros Ha Hb Hm Hl Hn E. destruct a as [|x a _] using rev_ind; [done|]. destruct b as [|y b _] using rev_ind; [simpl in *; lia|].
  destruct b as [|z b _] using rev_ind; rewrite !length_app in Hl; simpl in Hl; [lia|]. apply le_signed_bounds in Ha.
  rewrite <- app_assoc in *. cbn [app] in *. rewrite rev_app_distr in Hm. apply minimal_bounds in Hb; [|done]. cbv zeta in Hb. rewrite <- E in Hb.
  assert (256 ^ zlen a <= 256 ^ zlen b) by (apply Z.pow_le_mono_r; unfold zlen; lia). lia.
Qed.
Lemma minimal_unique a b : bytes a -> bytes b -> minimal (rev a) -> minimal (rev b) -> a <> [] -> b <> [] -> le_signed a = le_signed b -> a = b.
Proof.
  intros Ha Hb Hma Hmb Hna Hnb E. destruct (lt_eq_lt_dec (length a) (length b)) as [[Hl|Hl]|Hl].
  - by destruct (minimal_longer a b Ha Hb Hmb Hl Hna).
  - by apply le_signed_inj.
  - by destruct (minimal_longer b a Hb Ha Hma Hl Hnb).
Qed.

(** ** Bit strings *)
Definition mask (u : Z) : Z := u8 (Z.shiftl 0xff u).
(** the lowest [u] bits of the last byte are cleared *)
Fixpoint masked (u : Z) (d : list Z) : list Z :=
  match d with
  | [] => []
  | [b] => [Z.land b (mask u)]
  | b :: d => b :: masked u d
  end.
Lemma masked_snoc u d b : masked u (d ++ [b]) = d ++ [Z.land b (mask u)].
Proof. induction d as [|x d IH]; [done|]. cbn [app masked]. rewrite IH. by destruct d. Qed.
Lemma length_masked u d : length (masked u d) = length d.
Proof. destruct d as [|b d _] using rev_ind; [done|]. by rewrite masked_snoc, !length_app. Qed.
Lemma zlen_masked u d : zlen (masked u d) = zlen d.
Proof. unfold zlen. by rewrite length_masked. Qed.

(** ** The interface of encoders *)
Section Encoders.
Context (pfnAlloc : Z -> option (list Z)) (alloc_size : forall n m, pfnAlloc n = Some m -> zlen m = n).

(** what an encoder, applied to its argument, promises for the bytes [c] *)
Class Encodes (f : encoder) (c : list Z) : Prop := {
  enc_query : forall fl cb, f fl Null cb = Ret (true, 0, Null, zlen c);
  enc_buffer : forall fl m cb, alloc_flag fl = false -> zlen c <= cb -> zlen c <= zlen m ->
    f fl (Buffer m) cb = Ret (true, 0, Buffer (c ++ drop (length c) m), zlen c);
  enc_short : forall fl m cb, alloc_flag fl = false -> cb < zlen c -> f fl (Buffer m) cb = Ret (false, ERROR_MORE_DATA, Buffer m, zlen c)
}.
(** what it promises when it allocates the memory *)
Class Allocates (f : encoder) (c : list Z) : Prop := {
  enc_alloc : forall fl p cb, alloc_flag fl = true -> f fl (Pointer p) cb =
    match pfnAlloc (zlen c) with
    | Some _ => Ret (true, 0, Pointer (Some c), zlen c)
    | None => Ret (false, 0, Pointer None, cb)
    end
}.

Class Encoder (f : encoder) (c : list Z) : Prop := { encoder_encodes :: Encodes f c; encoder_allocates :: Allocates f c }.
Lemma Encoder_ext f g c : (forall fl t cb, f fl t cb = g fl t cb) -> Encoder g c -> Encoder f c.
Proof using.
  intros E [[Hq Hb Hs] [Ha]]. split; split.
  - intros. by rewrite E.
  - intros. rewrite E. by apply Hb.
  - intros. rewrite E. by apply Hs.
  - intros. rewrite E. by apply Ha.
Qed.

(** the encoders that ask for the size, for space, and write *)
Definition by_size (f : encoder) (n : Z) (body : Z -> target -> Z -> outcome enc_res) : Prop :=
  forall fl t cb, f fl t cb = if is_null t then Ret (true, 0, t, n) else
    let! (ret, err, t, cb) := CRYPT_EncodeEnsureSpace pfnAlloc fl t cb n in
    if (ret : bool) then body fl t cb else Ret (false, err, t, cb).
Lemma by_size_encodes f c body : by_size f (zlen c) body ->
  (forall fl s m cb, zlen c <= zlen m -> body fl (mk s m) cb = Ret (true, 0, mk s (c ++ drop (length c) m), cb)) ->
  Encoder f c.
Proof using alloc_size.
  intros Hf Hb. split; [split|split].
  - intros fl cb. by rewrite Hf.
  - intros fl m cb Hfl Hcb Hm. rewrite Hf. simpl is_null. cbv iota. unfold CRYPT_EncodeEnsureSpace. rewrite Hfl.
    replace (cb <? zlen c) with false by lia. cbn [obind]. by apply (Hb fl true m).
  - intros fl m cb Hfl Hcb. rewrite Hf. simpl is_null. cbv iota. unfold CRYPT_EncodeEnsureSpace. rewrite Hfl.
    by replace (cb <? zlen c) with true by lia.
  - intros fl p cb Hfl. rewrite Hf. simpl is_null. cbv iota. unfold CRYPT_EncodeEnsureSpace. rewrite Hfl.
    destruct (pfnAlloc (zlen c)) as [m|] eqn:E; cbn [obind]; [|done]. apply alloc_size in E.
    change (Pointer (Some m)) with (mk false m). rewrite Hb by lia. simpl mk. do 4 f_equal. rewrite drop_ge by (unfold zlen in E; lia).
    by rewrite app_nil_r.
Qed.

Lemma tlv_size tag data : zlen (tlv tag data) = 1 + zlen (der_len (zlen data)) + zlen data.
Proof using. unfold tlv. rewrite zlen_cons, zlen_app. lia. Qed.
(** after the tag and the length, the data *)
Lemma put_data s tag data m : zlen (tlv tag data) <= zlen m -> zlen data < 2 ^ 32 ->
  let hd := tag :: der_len (zlen data) in
  put_tag_len (mk s m) tag (zlen data) (zlen (der_len (zlen data))) = Ret (mk s (hd ++ drop (length hd) m), zlen hd) /\
  emit (mk s (hd ++ drop (length hd) m)) (zlen hd) data = Ret (mk s (tlv tag data ++ drop (length (tlv tag data)) m)).
Proof using.
  intros Hm Hd hd. pose proof (zlen_nonneg data). rewrite tlv_size in Hm. split.
  - apply put_tag_len_ok; [lia|]. unfold zlen in *. lia.
  - rewrite emit_next; [|done|subst hd; rewrite length_drop; cbn [length]; unfold zlen in *; lia]. rewrite drop_drop.
    subst hd. unfold tlv. cbn [app length]. rewrite length_app. done.
Qed.

Lemma octets_encode d k : zlen d < 2 ^ 32 - 8 ->
  Encoder (CRYPT_AsnEncodeOctets pfnAlloc (mkBlob (zlen d) (d ++ k))) (tlv ASN_OCTETSTRING d).
Proof using alloc_size.
  intros Hd. pose proof (zlen_nonneg d). pose proof (der_len_bounds (zlen d) ltac:(lia)).
  eapply by_size_encodes.
  - intros fl t cb. unfold CRYPT_AsnEncodeOctets. cbn [cbData]. rewrite len_size_ok by lia. cbn [obind].
    rewrite wrapU_small by (unfold isU; lia). rewrite tlv_size. reflexivity.
  - intros fl s m cb Hm. cbv beta. destruct (put_data s ASN_OCTETSTRING d m Hm) as [-> E]; [lia|]. cbn [obind].
    unfold blob_bytes. cbn [pbData]. rewrite read_bytes_app. destruct (Z.eqb_spec (zlen d) 0) as [E0|E0]; simpl negb; cbv iota; cbn [obind]; rewrite ?E; [|done].
    apply zlen_zero in E0 as ->. cbn [obind].
    unfold tlv. by rewrite app_nil_r.
Qed.

(** *** Integers *)
Lemma lop_ok v k : forall d, exists a j, d = a ++ replicate j v /\ lop (length d) (d ++ k) v = Ret (zlen a) /\
  (a = [] \/ exists a' b, a = a' ++ [b] /\ b <> v).
Proof using.
  intros d. revert k. induction d as [|b d IH] using rev_ind; intros k; [exists [], 0%nat; conj; [done|done|by left]|].
  rewrite length_app, Nat.add_1_r. cbn [lop]. rewrite <- app_assoc. cbn [app]. rewrite (rd_app d b k) by done. cbn [obind].
  destruct (Z.eqb_spec b v) as [->|Hb].
  - destruct (IH (v :: k)) as (a & j & E & El & Ha). exists a, (S j). conj; [|done|done].
    rewrite E, <- app_assoc. f_equal. symmetry. rewrite replicate_S. apply replicate_cons_app.
  - exists (d ++ [b]), 0%nat. conj; [by rewrite app_nil_r|unfold zlen; rewrite length_app; simpl; do 2 f_equal; lia|right; by exists d, b].
Qed.
Lemma store_down_ok s k : forall a p r, (length a <= length r)%nat ->
  store_down (length a) (a ++ k) (mk s (p ++ r)) (zlen p) = Ret (mk s ((p ++ rev a) ++ drop (length a) r)).
Proof using.
  intros a. revert k. induction a as [|b a IH] using rev_ind; intros k p r Hr; [simpl; by rewrite app_nil_r|].
  rewrite length_app, Nat.add_1_r in *. cbn [store_down]. rewrite <- app_assoc. cbn [app]. rewrite (rd_app a b k) by done. cbn [obind].
  rewrite emit_next by (done || (simpl; lia)). cbn [obind length]. replace (zlen p + 1) with (zlen (p ++ [b])) by (by rewrite zlen_app).
  rewrite IH by (rewrite length_drop; lia). rewrite drop_drop, rev_app_distr. simpl rev. by rewrite <- !app_assoc.
Qed.
Definition pad_list (pad : option Z) : list Z := match pad with Some p => [p] | None => [] end.
Lemma put_integer_ok a k pad : zlen a < 2 ^ 32 - 8 ->
  Encoder (put_integer pfnAlloc (zlen a) pad (a ++ k)) (tlv ASN_INTEGER (pad_list pad ++ rev a)).
Proof using alloc_size.
  intros Ha. pose proof (zlen_nonneg a). set (c := pad_list pad ++ rev a).
  assert (Hc : zlen c = zlen (pad_list pad) + zlen a) by (subst c; rewrite zlen_app; unfold zlen; by rewrite length_rev).
  assert (Hp : 0 <= zlen (pad_list pad) <= 1) by (destruct pad; unfold zlen; simpl; lia). pose proof (der_len_bounds (zlen c) ltac:(lia)).
  assert (El : match pad with Some _ => u32 (zlen a + 1) | None => zlen a end = zlen c).
  { rewrite Hc. destruct pad; unfold pad_list; [rewrite wrapU_small by (unfold isU; lia)|]; unfold zlen; simpl; lia. }
  assert (Es : u32 (1 + zlen (der_len (zlen c)) + zlen a + match pad with Some _ => 1 | None => 0 end) = zlen (tlv ASN_INTEGER c)).
  { rewrite tlv_size. assert (Ep : match pad with Some _ => 1 | None => 0 end = zlen (pad_list pad)) by (by destruct pad). rewrite Ep.
    rewrite wrapU_small by (unfold isU; lia). lia. }
  eapply by_size_encodes.
  - intros fl t cb. unfold put_integer. rewrite El, len_size_ok by lia. cbn [obind]. rewrite Es. reflexivity.
  - intros fl s m cb Hm. cbv beta. destruct (put_data s ASN_INTEGER c m Hm) as [-> _]; [lia|]. cbn [obind].
    set (hd := ASN_INTEGER :: der_len (zlen c)). assert (Hhd : zlen hd + zlen c = zlen (tlv ASN_INTEGER c)) by (subst hd; rewrite tlv_size, zlen_cons; lia).
    assert (E : (let! (t, off) := match pad with Some p => let! t := emit (mk s (hd ++ drop (length hd) m)) (zlen hd) [p] in Ret (t, zlen hd + 1)
        | None => Ret (mk s (hd ++ drop (length hd) m), zlen hd) end in store_down (Z.to_nat (zlen a)) (a ++ k) t off) =
      Ret (mk s ((hd ++ c) ++ drop (length (hd ++ c)) m))).
    { rewrite zlen_nat. assert (Hlen : (length hd + length c <= length m)%nat) by (unfold zlen in *; lia). assert (length c = length (pad_list pad) + length a)%nat by (unfold zlen in Hc; lia).
      subst c. destruct pad as [p|]; simpl pad_list in *.
      - rewrite emit_next by (done || (rewrite length_drop; simpl in *; lia)). cbn [obind]. replace (zlen hd + 1) with (zlen (hd ++ [p])) by (by rewrite zlen_app).
        rewrite store_down_ok by (rewrite !length_drop; simpl in *; lia). rewrite !drop_drop. cbn [app length].
        replace (length (hd ++ p :: rev a)) with (length hd + (1 + length a))%nat by (rewrite length_app; simpl; rewrite length_rev; lia). by rewrite <- !app_assoc.
      - cbn [obind]. rewrite store_down_ok by (rewrite length_drop; simpl in *; lia). rewrite drop_drop. cbn [app]. do 3 f_equal. by rewrite length_app, length_rev. }
    replace (tlv ASN_INTEGER c) with (hd ++ c) by done.
    destruct pad as [p|]; [destruct (emit (mk s (hd ++ drop (length hd) m)) (zlen hd) [p]); cbn [obind] in *; [|done|done]|cbn [obind] in *]; rewrite E; done.
Qed.
(** the bytes are trimmed of those that only repeat the sign *)
Lemma trimmed_minimal a b pad : isU 8 b -> b <> 0 \/ a = [] -> (pad = Some 0 /\ 128 <= b \/ pad = None /\ b < 128) -> minimal (pad_list pad ++ rev (a ++ [b])).
Proof using.
  intros Hb Hz Hp. rewrite rev_app_distr. cbn [rev app]. destruct Hp as [[-> Hp]|[-> Hp]]; simpl.
  - split; lia.
  - destruct (rev a) as [|y r] eqn:E; [done|]. destruct Hz as [Hz| ->]; [|done]. lia.
Qed.
Lemma trimmed_minimal_neg a b pad : isU 8 b -> b <> 255 -> (pad = Some 255 /\ b < 128 \/ pad = None /\ 128 <= b) -> minimal (pad_list pad ++ rev (a ++ [b])).
Proof using.
  intros Hb Hz Hp. rewrite rev_app_distr. cbn [rev app]. destruct Hp as [[-> Hp]|[-> Hp]]; simpl; [lia|].
  destruct (rev a) as [|y r] eqn:E; [done|]. lia.
Qed.
Lemma pad_rev pad a : rev (pad_list pad ++ rev a) = a ++ pad_list pad.
Proof using. rewrite rev_app_distr, rev_involutive. by destruct pad. Qed.
Lemma bytes_last a b : bytes (a ++ [b]) -> isU 8 b.
Proof using. intros [_ H]%Forall_app. by apply Forall_cons_1 in H as [? _]. Qed.
Lemma bytes_pad pad a : bytes a -> bytes (pad_list pad) -> bytes (pad_list pad ++ rev a).
Proof using. intros. apply Forall_app. split; [done|by apply Forall_rev]. Qed.

(** data that stands for an integer *)
Definition content_of (v : Z) (c : list Z) : Prop := bytes c /\ minimal c /\ c <> [] /\ le_signed (rev c) = v.

(** the two branches *)
Lemma trim_zeros d k : bytes d -> d <> [] -> exists s pad c,
  (let! s := lop (length d) (d ++ k) 0 in let s := if s =? 0 then 1 else s in
   let! b := rd (d ++ k) (s - 1) in Ret (s, if 0x7f <? b then Some 0 else None)) = Ret (s, pad) /\
  content_of (le_val d) c /\ zlen c <= zlen d + 1 /\
  (zlen d < 2 ^ 32 - 8 -> Encoder (put_integer pfnAlloc s pad (d ++ k)) (tlv ASN_INTEGER c)).
Proof using alloc_size.
  intros Hd Hn. destruct (lop_ok 0 k d) as (a & j & E & El & Ha). rewrite El. cbn [obind].
  assert (exists a' b r, d = (a' ++ [b]) ++ r /\ (if zlen a =? 0 then 1 else zlen a) = zlen (a' ++ [b]) /\ le_val r = 0 /\ (b <> 0 \/ a' = [])) as (a' & b & r & -> & Es & Hr & Hb).
  { assert (Hz : forall j, le_val (replicate j 0) = 0) by (induction j0 as [|j0 IH]; [done|]; unfold le_val in *; simpl; by rewrite IH).
    destruct Ha as [->|(a' & b & -> & Hb)].
    - destruct j as [|j]; [by subst|]. exists [], 0, (replicate j 0). conj; [done|done|done|by right].
    - exists a', b, (replicate j 0). conj; [done| |done|by left]. rewrite zlen_app. change (zlen [b]) with 1. pose proof (zlen_nonneg a').
      by replace (zlen a' + 1 =? 0) with false by lia. }
  rewrite Es. clear El Es E Ha. apply Forall_app in Hd as [Hd _]. pose proof (bytes_last _ _ Hd) as Hb8. unfold isU in Hb8. change (2 ^ 8) with 256 in Hb8.
  rewrite <- !app_assoc. cbn [app]. rewrite (rd_app a' b) by (rewrite zlen_app; unfold zlen; simpl; lia). cbn [obind].
  set (pad := if 127 <? b then Some 0 else None).
  assert (Hp : pad = Some 0 /\ 128 <= b \/ pad = None /\ b < 128) by (subst pad; destruct (Z.ltb_spec 127 b); [left|right]; split; done || lia).
  exists (zlen (a' ++ [b])), pad, (pad_list pad ++ rev (a' ++ [b])). conj; [done| | |].
  - unfold content_of. conj; [apply bytes_pad; [done|]|by apply trimmed_minimal| |].
    + destruct Hp as [[-> _]|[-> _]]; repeat constructor; done.
    + rewrite rev_app_distr. by destruct (pad_list pad).
    + assert (E : le_val (a' ++ b :: r) = le_val (a' ++ [b])) by (rewrite !le_val_app; unfold le_val in *; simpl; rewrite Hr; lia).
      rewrite pad_rev, E. destruct Hp as [[-> Hp]|[-> Hp]].
      * cbn [pad_list]. rewrite le_signed_snoc. unfold sbyte. simpl. lia.
      * cbn [pad_list]. rewrite app_nil_r, le_signed_snoc, le_val_app. unfold sbyte. replace (b <? 128) with true by lia. unfold le_val at 3. simpl. lia.
  - pose proof (zlen_nonneg r). change (b :: r) with ([b] ++ r). repeat rewrite zlen_app. unfold zlen at 2. rewrite length_rev. fold (zlen (a' ++ [b])). repeat rewrite zlen_app.
    assert (zlen (pad_list pad) <= 1) by (by destruct pad). lia.
  - intros Hl. change (a' ++ b :: r ++ k) with (a' ++ [b] ++ r ++ k). change (b :: r) with ([b] ++ r) in Hl. rewrite app_assoc. apply put_integer_ok. pose proof (zlen_nonneg r). repeat rewrite zlen_app in *. lia.
Qed.
Lemma trim_ones d t k : bytes (d ++ [t]) -> 128 <= t -> ~ Forall (eq 255) (d ++ [t]) -> exists s pad c,
  (let! s := lop (length (d ++ [t])) ((d ++ [t]) ++ k) 0xff in
   let! b := rd ((d ++ [t]) ++ k) (s - 1) in Ret (s, if b <? 0x80 then Some 0xff else None)) = Ret (s, pad) /\
  content_of (le_signed (d ++ [t])) c /\ zlen c <= zlen (d ++ [t]) + 1 /\
  (zlen (d ++ [t]) < 2 ^ 32 - 8 -> Encoder (put_integer pfnAlloc s pad ((d ++ [t]) ++ k)) (tlv ASN_INTEGER c)).
Proof using alloc_size.
  intros Hd Ht Hn. destruct (lop_ok 255 k (d ++ [t])) as (a & j & E & El & Ha). rewrite El. cbn [obind].
  destruct Ha as [->|(a' & b & -> & Hb)]; [destruct Hn; rewrite E; apply list.Forall_replicate; done|].
  set (pad := if b <? 0x80 then Some 0xff else None).
  assert (Hp : pad = Some 255 /\ b < 128 \/ pad = None /\ 128 <= b) by (subst pad; destruct (Z.ltb_spec b 128); [left|right]; split; done || lia).
  assert (Hv : le_signed ((a' ++ [b]) ++ pad_list pad) = le_signed (d ++ [t])).
  { rewrite E. destruct Hp as [[-> Hp]|[-> Hp]]; cbn [pad_list].
    - destruct j as [|j]; [rewrite app_nil_r in E; apply app_inj_tail in E as [_ ->]; lia|]. rewrite replicate_S.
      change (255 :: replicate j 255) with ([255] ++ replicate j (ext 255)). by rewrite app_assoc, le_signed_ext.
    - rewrite app_nil_r. replace 255 with (ext b) by (unfold ext; by replace (b <? 128) with false by lia). by rewrite le_signed_ext. }
  rewrite E in *. clear E El Hn Ht. apply Forall_app in Hd as [Hd _]. pose proof (bytes_last _ _ Hd) as Hb8.
  exists (zlen (a' ++ [b])), pad, (pad_list pad ++ rev (a' ++ [b])). conj.
  - rewrite <- !app_assoc. cbn [app]. rewrite (rd_app a' b) by (rewrite zlen_app; unfold zlen; simpl; lia). done.
  - unfold content_of. conj; [apply bytes_pad; [done|]|by apply trimmed_minimal_neg| |by rewrite pad_rev].
    + destruct Hp as [[-> _]|[-> _]]; repeat constructor; done.
    + rewrite rev_app_distr. by destruct (pad_list pad).
  - repeat rewrite zlen_app. unfold zlen at 2. rewrite length_rev. fold (zlen (a' ++ [b])). pose proof (zlen_nonneg (replicate j 255)). repeat rewrite zlen_app.
    assert (zlen (pad_list pad) <= 1) by (by destruct pad). lia.
  - intros Hl. rewrite <- app_assoc. apply put_integer_ok. rewrite zlen_app in Hl. pose proof (zlen_nonneg (replicate j 255)). lia.
Qed.

Lemma le_signed_pos a b : 0 <= b < 128 -> le_signed (a ++ [b]) = le_val (a ++ [b]).
Proof using. intros H. rewrite le_signed_snoc, le_val_app. unfold sbyte, le_val. replace (b <? 128) with true by lia. simpl. lia. Qed.

Lemma integer_encode d k : bytes d -> d <> [] -> zlen d < 2 ^ 32 - 8 -> ~ Forall (eq 255) d -> exists c,
  content_of (le_signed d) c /\ zlen c <= zlen d + 1 /\ Encoder (CRYPT_AsnEncodeInteger pfnAlloc (mkBlob (zlen d) (d ++ k))) (tlv ASN_INTEGER c).
Proof using alloc_size.
  intros Hd Hn Hl H1. destruct d as [|t d _] using rev_ind; [done|]. pose proof (bytes_last _ _ Hd) as Ht.
  assert (E : forall fl tg cb, CRYPT_AsnEncodeInteger pfnAlloc (mkBlob (zlen (d ++ [t])) ((d ++ [t]) ++ k)) fl tg cb =
    let! (s, pad) := (if t <? 128 then
        let! s := lop (length (d ++ [t])) ((d ++ [t]) ++ k) 0 in let s := if s =? 0 then 1 else s in
        let! b := rd ((d ++ [t]) ++ k) (s - 1) in Ret (s, if 0x7f <? b then Some 0 else None)
      else
        let! s := lop (length (d ++ [t])) ((d ++ [t]) ++ k) 0xff in
        let! b := rd ((d ++ [t]) ++ k) (s - 1) in Ret (s, if b <? 0x80 then Some 0xff else None)) in
    put_integer pfnAlloc s pad ((d ++ [t]) ++ k) fl tg cb).
  { intros. unfold CRYPT_AsnEncodeInteger. cbn [cbData pbData]. rewrite zlen_nat. pose proof (zlen_nonneg d).
    replace (zlen (d ++ [t]) =? 0) with false by (rewrite zlen_app; change (zlen [t]) with 1; lia). simpl negb. cbv iota.
    assert (Er : rd ((d ++ [t]) ++ k) (zlen (d ++ [t]) - 1) = Ret t) by (rewrite <- app_assoc; apply (rd_app d t); rewrite zlen_app; change (zlen [t]) with 1; lia).
    rewrite Er. cbn [obind]. rewrite bit7 by done. by destruct (t <? 128). }
  destruct (Z.ltb_spec t 128).
  - destruct (trim_zeros (d ++ [t]) k Hd Hn) as (s & pad & c & Et & Hc & Hz & He). exists c. rewrite <- le_signed_pos in Hc by (unfold isU in Ht; lia).
    conj; [done|done|]. eapply Encoder_ext; [|by apply He]. intros. rewrite E, Et. done.
  - destruct (trim_ones d t k Hd) as (s & pad & c & Et & Hc & Hz & He); [lia|done|]. exists c.
    conj; [done|done|]. eapply Encoder_ext; [|by apply He]. intros. rewrite E, Et. done.
Qed.
Lemma unsigned_encode d k : bytes d -> d <> [] -> zlen d < 2 ^ 32 - 8 -> exists c,
  content_of (le_val d) c /\ zlen c <= zlen d + 1 /\ Encoder (CRYPT_AsnEncodeUnsignedInteger pfnAlloc (mkBlob (zlen d) (d ++ k))) (tlv ASN_INTEGER c).
Proof using alloc_size.
  intros Hd Hn Hl. destruct (trim_zeros d k Hd Hn) as (s & pad & c & Et & Hc & Hz & He). exists c. conj; [done|done|]. eapply Encoder_ext; [|by apply He].
  intros. unfold CRYPT_AsnEncodeUnsignedInteger. cbn [cbData pbData]. rewrite zlen_nat. replace (zlen d =? 0) with false; [|destruct d; [done|rewrite zlen_cons; pose proof (zlen_nonneg d); lia]].
  simpl negb. cbv iota. cbv zeta in Et. by rewrite Et.
Qed.

(** *** The same bytes with another tag *)
Lemma swap_first s x tag c r : emit (mk s ((x :: c) ++ r)) 0 [tag] = Ret (mk s ((tag :: c) ++ r)).
Proof using. cbn [app]. by rewrite emit_first by (simpl; lia). Qed.
Lemma swap_tag_encodes f x c tag : Encodes f (x :: c) -> Encodes (CRYPT_AsnEncodeSwapTag tag f) (tag :: c).
Proof using.
  intros [Hq Hb Hs]. assert (Ez : zlen (tag :: c) = zlen (x :: c)) by (by rewrite !zlen_cons). unfold CRYPT_AsnEncodeSwapTag. split; intros.
  - rewrite Hq. cbn [obind]. by rewrite Ez.
  - rewrite Hb by (done || lia). cbn [obind]. simpl is_null. cbv iota. simpl andb. cbv iota.
    rewrite (swap_first true). cbn [obind]. by rewrite Ez.
  - rewrite Hs by (done || lia). cbn [obind]. by rewrite Ez.
Qed.
Lemma enumerated_encode v : isU 32 v -> exists c, content_of v c /\ zlen c <= 5 /\ Encoder (CRYPT_AsnEncodeEnumerated pfnAlloc v) (tlv ASN_ENUMERATED c).
Proof using alloc_size.
  intros Hv. unfold isU in Hv. change (2 ^ 32) with 4294967296 in Hv.
  assert (Eb : le_val (int_bytes v) = v).
  { unfold int_bytes, le_val, wrapU. simpl foldr. rewrite !Z.shiftr_div_pow2 by lia. change (2 ^ 8) with 256. change (2 ^ 16) with 65536. change (2 ^ 24) with 16777216. dlia. }
  destruct (unsigned_encode (int_bytes v) []) as (c & Hc & Hl & [[Hq Hb Hs] [Ha]]); [repeat constructor; apply wrapU_range; lia|done|done|].
  rewrite Eb in Hc. exists c. conj; [done|done|]. rewrite app_nil_r in *. change (zlen (int_bytes v)) with 4 in *.
  assert (Ez : zlen (tlv ASN_ENUMERATED c) = zlen (tlv ASN_INTEGER c)) by (by rewrite !tlv_size). unfold CRYPT_AsnEncodeEnumerated. split; split; intros.
  - rewrite Hq. cbn [obind]. by rewrite Ez.
  - rewrite Hb by (done || lia). cbn [obind]. simpl andb. cbv iota. unfold tlv at 1. rewrite (swap_first true). cbn [obind]. by rewrite Ez.
  - rewrite Hs by (done || lia). cbn [obind]. by rewrite Ez.
  - rewrite Ha, Ez by done. destruct (pfnAlloc (zlen (tlv ASN_INTEGER c))); [|done]. cbn [obind]. simpl andb. cbv iota.
    change (Pointer (Some (tlv ASN_INTEGER c))) with (mk false (tlv ASN_INTEGER c)). rewrite <- (app_nil_r (tlv ASN_INTEGER c)). unfold tlv at 1. rewrite swap_first. cbn [obind]. by rewrite app_nil_r.
Qed.
Lemma bool_encode v : Encodes (CRYPT_AsnEncodeBool v) (tlv ASN_BOOL [if negb (v =? 0) then 0xff else 0]).
Proof using.
  split; intros; [done| |].
  - unfold CRYPT_AsnEncodeBool. simpl is_null. cbv iota. change (zlen (tlv ASN_BOOL _)) with 3 in *. replace (cb <? 3) with false by lia.
    rewrite (emit_first true) by (unfold zlen in *; simpl; lia). done.
  - unfold CRYPT_AsnEncodeBool. simpl is_null. cbv iota. change (zlen (tlv ASN_BOOL _)) with 3 in *. by replace (cb <? 3) with true by lia.
Qed.

(** the tag, the length and then the data *)
Lemma tlv_done s tag data m : let hd := tag :: der_len (zlen data) in
  mk s ((hd ++ data) ++ drop (length data) (drop (length hd) m)) = mk s (tlv tag data ++ drop (length (tlv tag data)) m).
Proof using. intros hd. rewrite drop_drop. do 3 f_equal. subst hd. unfold tlv. cbn [length]. by rewrite length_app. Qed.
Lemma room s tag data m : zlen (tlv tag data) <= zlen m -> zlen data < 2 ^ 32 ->
  let hd := tag :: der_len (zlen data) in
  put_tag_len (mk s m) tag (zlen data) (zlen (der_len (zlen data))) = Ret (mk s (hd ++ drop (length hd) m), zlen hd) /\
  zlen data <= zlen (drop (length hd) m).
Proof using.
  intros Hm Hd hd. split; [by apply put_data|]. rewrite tlv_size in Hm. subst hd. unfold zlen in *. rewrite length_drop. cbn [length]. lia.
Qed.

(** *** Bit strings *)

(** the number of bytes and of unused bits that the encoder computes *)
Definition bit_sizes (cb u : Z) : Z * Z :=
  if u =? 0 then (cb, 0)
  else if u <? u32 (cb * 8) then (u32 (u32 (u32 (cb * 8) - u) / 8 + 1), u8 (if 8 <=? u then u / 8 else u))
  else (0, 0).
Lemma bits_encode_sizes cb0 d k u0 u : bit_sizes cb0 u0 = (zlen d, u) -> zlen d < 2 ^ 29 ->
  Encoder (CRYPT_AsnEncodeBits pfnAlloc (mkBits (mkBlob cb0 (d ++ k)) u0)) (tlv ASN_BITSTRING (u :: masked u d)).
Proof using alloc_size.
  intros Hb Hl. unfold bit_sizes in Hb. pose proof (zlen_nonneg d). set (c := u :: masked u d). assert (Hc : zlen c = zlen d + 1) by (subst c; by rewrite zlen_cons, zlen_masked).
  pose proof (der_len_bounds (zlen c) ltac:(lia)).
  eapply by_size_encodes.
  - intros fl t cb. unfold CRYPT_AsnEncodeBits. cbn [bits cUnusedBits cbData]. cbv zeta. rewrite Hb. cbv iota. rewrite (wrapU_small _ (zlen d + 1)) by (unfold isU; lia).
    rewrite <- Hc, len_size_ok by lia. cbn [obind]. replace (1 + zlen (der_len (zlen c)) + zlen d + 1) with (zlen (tlv ASN_BITSTRING c)) by (rewrite tlv_size; lia).
    rewrite wrapU_small by (unfold isU; rewrite tlv_size; lia). reflexivity.
  - intros fl s m cb Hm. cbv beta. destruct (room s ASN_BITSTRING c m Hm) as [-> Hr]; [lia|]. cbn [obind]. rewrite <- tlv_done.
    set (hd := ASN_BITSTRING :: der_len (zlen c)) in *. rewrite emit_next by (done || (unfold zlen in *; cbn [length]; lia)). cbn [obind length]. rewrite drop_drop.
    subst c. cbn [length]. rewrite length_masked. destruct d as [|b d _] using rev_ind.
    { change (zlen []) with 0. simpl negb. cbv iota. cbn [obind]. rewrite drop_drop. done. }
    rewrite zlen_app in *. change (zlen [b]) with 1 in *. pose proof (zlen_nonneg d). replace (zlen d + 1 =? 0) with false by lia. simpl negb. cbv iota.
    replace (zlen d + 1 - 1) with (zlen d) by lia. unfold blob_bytes. cbn [pbData]. rewrite <- (app_assoc d). rewrite read_bytes_app. cbn [app]. rewrite (rd_app d b) by done. cbn [obind].
    rewrite masked_snoc. rewrite length_app. cbn [length].
    assert (Hm' : (length hd + (length d + 2) <= length m)%nat) by (unfold zlen in *; rewrite length_drop in Hr; lia).
    assert (E : (if 1 <? zlen d + 1 then let! t := emit (mk s ((hd ++ [u]) ++ drop (length hd + 1) m)) (zlen hd + 1) d in Ret (t, zlen hd + 1 + zlen d) else Ret (mk s ((hd ++ [u]) ++ drop (length hd + 1) m), zlen hd + 1))
      = Ret (mk s (((hd ++ [u]) ++ d) ++ drop (length hd + 1 + length d) m), zlen ((hd ++ [u]) ++ d))).
    { destruct (Z.ltb_spec 1 (zlen d + 1)) as [Hd1|Hd1].
      - rewrite emit_next; [|by rewrite zlen_app|rewrite length_drop; lia]. cbn [obind]. rewrite drop_drop. do 2 f_equal. repeat rewrite zlen_app. done.
      - assert (d = []) as -> by (apply zlen_zero; lia). cbn [length]. rewrite app_nil_r, Nat.add_0_r, zlen_app. done. }
    rewrite E. cbn [obind]. rewrite emit_next by (done || (rewrite length_drop; cbn [length]; lia)). cbn [obind length]. rewrite !drop_drop. unfold mask. repeat rewrite <- app_assoc. cbn [app].
    rewrite <- app_assoc. cbn [app]. by replace (length hd + 1 + length d + 1)%nat with (length hd + S (length d + 1))%nat by lia.
Qed.
(** fewer than eight unused bits *)
Lemma bits_encode d k u : 0 <= u < 8 -> zlen d < 2 ^ 29 -> (d <> [] \/ u = 0) ->
  Encoder (CRYPT_AsnEncodeBits pfnAlloc (mkBits (mkBlob (zlen d) (d ++ k)) u)) (tlv ASN_BITSTRING (u :: masked u d)).
Proof using alloc_size.
  intros Hu Hl Hn. apply bits_encode_sizes; [|done]. unfold bit_sizes. pose proof (zlen_nonneg d).
  destruct (Z.eqb_spec u 0) as [->|]; [done|]. destruct Hn as [Hn|]; [|done]. assert (0 < zlen d) by (destruct d; [done|rewrite zlen_cons; pose proof (zlen_nonneg d); lia]).
  rewrite (wrapU_small _ (zlen d * 8)) by (unfold isU; lia). replace (u <? zlen d * 8) with true by lia. replace (8 <=? u) with false by lia.
  rewrite (wrapU_small _ (zlen d * 8 - u)) by (unfold isU; lia). rewrite (wrapU_small _ u) by (unfold isU; lia).
  replace ((zlen d * 8 - u) / 8) with (zlen d - 1) by (apply Z.div_unique with (8 - u); lia). rewrite wrapU_small by (unfold isU; lia). f_equal. lia.
Qed.
(** as many unused bits as there are, or more *)
Lemma bits_encode_none d k u : 0 < u -> zlen d * 8 <= u -> zlen d < 2 ^ 29 ->
  Encoder (CRYPT_AsnEncodeBits pfnAlloc (mkBits (mkBlob (zlen d) (d ++ k)) u)) (tlv ASN_BITSTRING [0]).
Proof using alloc_size.
  intros Hu Hd Hl. apply (bits_encode_sizes (zlen d) [] (d ++ k) u 0); [|done]. unfold bit_sizes. pose proof (zlen_nonneg d).
  rewrite (wrapU_small _ (zlen d * 8)) by (unfold isU; lia). replace (u =? 0) with false by lia. by replace (u <? zlen d * 8) with false by lia.
Qed.
(** eight unused bits or more, with bits left *)
Lemma bits_encode_many d k u : 8 <= u < zlen d * 8 -> zlen d < 2 ^ 29 ->
  let v := u8 (u / 8) in let n := (zlen d * 8 - u) / 8 + 1 in
  Encoder (CRYPT_AsnEncodeBits pfnAlloc (mkBits (mkBlob (zlen d) (d ++ k)) u)) (tlv ASN_BITSTRING (v :: masked v (take (Z.to_nat n) d))).
Proof using alloc_size.
  intros Hu Hl v n. assert (Hn : 0 <= n <= zlen d) by (subst n; dlia).
  assert (Ez : zlen (take (Z.to_nat n) d) = n) by (unfold zlen in *; rewrite length_take; lia).
  replace (d ++ k) with (take (Z.to_nat n) d ++ (drop (Z.to_nat n) d ++ k)) by (by rewrite app_assoc, take_drop).
  apply bits_encode_sizes; [|lia]. rewrite Ez. unfold bit_sizes. pose proof (zlen_nonneg d).
  rewrite (wrapU_small _ (zlen d * 8)) by (unfold isU; lia). replace (u =? 0) with false by lia. replace (u <? zlen d * 8) with true by lia.
  replace (8 <=? u) with true by lia. rewrite (wrapU_small _ (zlen d * 8 - u)) by (unfold isU; lia).
  fold n. by rewrite wrapU_small by (unfold isU; lia).
Qed.

Lemma swap_loop_ok k d : forall pre x y, length x = length d -> zlen y = zlen pre ->
  swap_loop (length d) (zlen pre) (zlen pre + zlen d) (pre ++ d ++ k) (x ++ y) = Ret (rev d ++ y).
Proof using.
  induction d as [|b d IH]; intros pre x y Hx Hy; [by destruct x|].
  destruct x as [|z x _] using rev_ind; [done|]. rewrite length_app in Hx. simpl in Hx. cbn [length swap_loop app].
  rewrite rd_app by done. cbn [obind]. rewrite zlen_cons. rewrite <- app_assoc. cbn [app].
  rewrite wr_app by (unfold zlen; lia). cbn [obind].
  specialize (IH (pre ++ [b]) x (b :: y) ltac:(lia) ltac:(rewrite zlen_app, zlen_cons; change (zlen [b]) with 1; lia)).
  rewrite zlen_app in IH. change (zlen [b]) with 1 in IH. rewrite <- app_assoc in IH. cbn [app rev] in *. rewrite <- app_assoc. cbn [app].
  replace (zlen pre + (zlen d + 1)) with (zlen pre + 1 + zlen d) by lia. exact IH.
Qed.
Lemma zlen_rev (d : list Z) : zlen (rev d) = zlen d.
Proof using. unfold zlen. by rewrite length_rev. Qed.
(** the bytes in reverse order, if there is memory for them *)
Lemma bits_swap_eq CryptMemAlloc d k u m fl t cb : d = [] \/ CryptMemAlloc (zlen d) = Some m /\ zlen m = zlen d ->
  CRYPT_AsnEncodeBitsSwapBytes pfnAlloc CryptMemAlloc (mkBits (mkBlob (zlen d) (d ++ k)) u) fl t cb =
  CRYPT_AsnEncodeBits pfnAlloc (mkBits (mkBlob (zlen d) (rev d)) u) fl t cb.
Proof using.
  intros Hm. unfold CRYPT_AsnEncodeBitsSwapBytes. cbn [bits cUnusedBits cbData pbData]. cbv zeta.
  destruct d as [|b d]; [done|]. destruct Hm as [Hm|[-> Hm]]; [done|].
  pose proof (zlen_nonneg d). replace (zlen (b :: d) =? 0) with false by (rewrite zlen_cons; lia). simpl negb. cbv iota.
  rewrite zlen_nat. pose proof (swap_loop_ok k (b :: d) [] m [] ltac:(unfold zlen in Hm; lia) eq_refl) as Hs.
  change (zlen []) with 0 in Hs. rewrite Z.add_0_l, !app_nil_r in Hs. cbn [app] in Hs |- *. rewrite Hs. done.
Qed.
Lemma bits_swap_no_memory CryptMemAlloc d k u fl t cb : d <> [] -> CryptMemAlloc (zlen d) = None ->
  CRYPT_AsnEncodeBitsSwapBytes pfnAlloc CryptMemAlloc (mkBits (mkBlob (zlen d) (d ++ k)) u) fl t cb = Ret (false, 0, t, cb).
Proof using.
  intros Hn Hm. unfold CRYPT_AsnEncodeBitsSwapBytes. cbn [bits cbData]. cbv zeta. rewrite Hm.
  by replace (zlen d =? 0) with false by (symmetry; apply Z.eqb_neq; by intros ?%zlen_zero).
Qed.

(** *** Encoders that combine others *)
Lemma no_alloc_flag fl : alloc_flag (no_alloc fl) = false.
Proof using. unfold alloc_flag, no_alloc. by rewrite Z.land_ldiff. Qed.
Lemma encode_at_ok f c fl s p r : Encodes f c -> alloc_flag fl = false -> zlen c <= zlen r ->
  encode_at f fl (mk s (p ++ r)) (zlen p) (zlen c) = Ret (true, 0, mk s ((p ++ c) ++ drop (length c) r), zlen c).
Proof using.
  intros [Hq Hb Hs] Hfl Hr. pose proof (zlen_nonneg p). pose proof (zlen_nonneg r).
  destruct s; unfold encode_at, mk; rewrite zlen_app; replace ((zlen p <? 0) || (zlen p + zlen r <? zlen p)) with false by lia;
    rewrite zlen_nat, drop_app_length, take_app_length, Hb by (done || lia); cbn [obind]; by rewrite <- app_assoc.
Qed.
Lemma item_sizes_ok items cs fl : Forall2 Encodes items cs -> forall n, 0 <= n -> n + zlen (concat cs) < 2 ^ 32 ->
  item_sizes items fl n = Ret (true, 0, map zlen cs, n + zlen (concat cs)).
Proof using.
  induction 1 as [|f c items cs [Hq _ _] Hf IH]; intros n Hn Hl; [simpl; unfold zlen; simpl; by rewrite Z.add_0_r|].
  cbn [item_sizes concat map] in *. rewrite zlen_app in *. pose proof (zlen_nonneg c). pose proof (zlen_nonneg (concat cs)).
  rewrite Hq. cbn [obind]. rewrite wrapU_small by (unfold isU; lia). rewrite IH by lia. cbn [obind]. by rewrite Z.add_assoc.
Qed.
Lemma put_items_ok items cs fl cb s : Forall2 Encodes items cs -> forall p r, zlen (concat cs) <= zlen r ->
  put_items items (map zlen cs) fl (mk s (p ++ r)) (zlen p) cb = Ret (true, 0, mk s ((p ++ concat cs) ++ drop (length (concat cs)) r), cb).
Proof using.
  induction 1 as [|f c items cs Hc Hf IH]; intros p r Hl; [simpl; by rewrite app_nil_r|].
  cbn [put_items concat map] in *. rewrite zlen_app in *. pose proof (zlen_nonneg c). pose proof (zlen_nonneg (concat cs)).
  rewrite encode_at_ok by (done || apply no_alloc_flag || lia). cbn [obind]. rewrite <- zlen_app, IH; [|unfold zlen in *; rewrite length_drop; lia].
  by rewrite drop_drop, length_app, <- !app_assoc.
Qed.
Lemma sequence_encode items cs : Forall2 Encodes items cs -> zlen (concat cs) < 2 ^ 32 - 8 ->
  Encoder (CRYPT_AsnEncodeSequence pfnAlloc items) (tlv ASN_SEQUENCE (concat cs)).
Proof using alloc_size.
  intros Hf Hl. set (c := concat cs) in *. pose proof (zlen_nonneg c). pose proof (der_len_bounds (zlen c) ltac:(lia)). eapply by_size_encodes.
  - intros fl t cb. unfold CRYPT_AsnEncodeSequence. rewrite (item_sizes_ok items cs fl Hf 0) by (fold c; lia). fold c. cbn [obind]. rewrite Z.add_0_l, len_size_ok by lia.
    cbn [obind]. rewrite wrapU_small by (unfold isU; lia). rewrite tlv_size. reflexivity.
  - intros fl s m cb Hm. cbv beta. destruct (room s ASN_SEQUENCE c m Hm) as [-> Hr]; [lia|]. cbn [obind].
    rewrite (put_items_ok items cs) by done. cbn [obind]. fold c. rewrite tlv_done. done.
Qed.
Lemma constructed_encode tag f c : Encodes f c -> zlen c < 2 ^ 32 - 8 ->
  Encoder (CRYPT_AsnEncodeConstructed pfnAlloc tag f) (tlv (Z.lor (Z.lor ASN_CONTEXT ASN_CONSTRUCTOR) tag) c).
Proof using alloc_size.
  intros Hf Hl. pose proof (zlen_nonneg c). pose proof (der_len_bounds (zlen c) ltac:(lia)). eapply by_size_encodes.
  - intros fl t cb. unfold CRYPT_AsnEncodeConstructed. rewrite enc_query. cbn [obind]. rewrite len_size_ok by lia.
    cbn [obind]. rewrite wrapU_small by (unfold isU; lia). rewrite tlv_size. reflexivity.
  - intros fl s m cb Hm. cbv beta. destruct (room s _ c m Hm) as [-> Hr]; [lia|]. cbn [obind].
    rewrite encode_at_ok by (done || apply no_alloc_flag). cbn [obind]. rewrite tlv_done. done.
Qed.

(** values that are in memory already *)
Definition value_of (v : BLOB) (c : list Z) : Prop := cbData v = zlen c /\ exists k, pbData v = c ++ k.
Lemma values_sum vals cs : Forall2 value_of vals cs -> forall n, 0 <= n -> n + zlen (concat cs) < 2 ^ 32 ->
  fold_left (fun n v => u32 (n + cbData v)) vals n = n + zlen (concat cs).
Proof using.
  induction 1 as [|v c vals cs [Hv _] Hf IH]; intros n Hn Hl; [simpl; change (zlen (@nil Z)) with 0; lia|]. cbn [fold_left concat] in *. rewrite zlen_app in *.
  pose proof (zlen_nonneg c). pose proof (zlen_nonneg (concat cs)). rewrite Hv, wrapU_small by (unfold isU; lia). rewrite IH by lia. lia.
Qed.
Lemma put_values_ok vals cs s : Forall2 value_of vals cs -> forall p r, zlen (concat cs) <= zlen r ->
  put_values vals (mk s (p ++ r)) (zlen p) = Ret (mk s ((p ++ concat cs) ++ drop (length (concat cs)) r)).
Proof using.
  induction 1 as [|v c vals cs [Hv [k Hk]] Hf IH]; intros p r Hl; [simpl; by rewrite app_nil_r|]. cbn [put_values concat] in *. rewrite zlen_app in *.
  pose proof (zlen_nonneg c). pose proof (zlen_nonneg (concat cs)). unfold blob_bytes. rewrite Hv, Hk, read_bytes_app. cbn [obind].
  rewrite emit_next by (done || (unfold zlen in *; lia)). cbn [obind]. rewrite <- zlen_app, IH; [|unfold zlen in *; rewrite length_drop; lia].
  by rewrite drop_drop, length_app, <- !app_assoc.
Qed.
Lemma sequence_of_any_encode vals cs : Forall2 value_of vals cs -> zlen (concat cs) < 2 ^ 32 - 8 ->
  Encoder (CRYPT_AsnEncodeSequenceOfAny pfnAlloc vals) (tlv ASN_SEQUENCEOF (concat cs)).
Proof using alloc_size.
  intros Hf Hl. set (c := concat cs) in *. pose proof (zlen_nonneg c). pose proof (der_len_bounds (zlen c) ltac:(lia)). eapply by_size_encodes.
  - intros fl t cb. unfold CRYPT_AsnEncodeSequenceOfAny. rewrite (values_sum vals cs Hf 0) by (fold c; lia). fold c. rewrite Z.add_0_l, len_size_ok by lia.
    cbn [obind]. rewrite wrapU_small by (unfold isU; lia). rewrite tlv_size. reflexivity.
  - intros fl s m cb Hm. cbv beta. destruct (room s ASN_SEQUENCEOF c m Hm) as [-> Hr]; [lia|]. cbn [obind].
    rewrite (put_values_ok vals cs) by done. cbn [obind]. fold c. rewrite tlv_done. done.
Qed.
End Encoders.
End DerSpec.
