(* ===== verification/DerDecodeSpec.v ===== *)
(** * DER decoding: the decoders give back what the encoders wrote

    Lengths; a contract of the decoders with tags ([Decodes]) that is proved
    once for [decode_with]; the decoders of the primitive types as instances; the
    end of nested encodings of indefinite length; the round trips. *)
From S2P Require Import Prelude Der DerSpec.
Import Der DerSpec.

Module DerDecodeSpec.

(** ** Lengths *)
Lemma der_len_first v : 0 <= v < 2 ^ 32 -> exists b r, der_len v = b :: r /\ isU 8 b /\ GET_LEN_BYTES b = zlen (der_len v) /\
  (v <= 127 /\ b = v /\ r = [] \/ 127 < v /\ b = 128 + len_count v /\ r = be_digits (Z.to_nat (len_count v)) v).
Proof.
  intros H. rewrite zlen_der_len by lia. unfold der_len. destruct (Z.leb_spec v 127).
  - exists v, []. unfold GET_LEN_BYTES, isU. replace (v <=? 128) with true by lia. conj; [done|lia|lia|done|by left].
  - eexists _, _. assert (1 <= len_count v <= 4) by (unfold len_count; zcases). unfold GET_LEN_BYTES, isU. replace (128 + len_count v <=? 128) with false by lia.
    conj; [done|lia|lia| |by right]. change 127 with (2 ^ 7 - 1). rewrite land_pow2_mask by lia. change (2 ^ 7) with 128. dlia.
Qed.
Definition be_fold (out : Z) (l : list Z) : Z := fold_left (fun out b => Z.lor (u32 (Z.shiftl out 8)) b) l out.
Lemma read_len_fold post : forall l pre out, read_len (length l) (pre ++ l ++ post) (zlen pre) out = Ret (be_fold out l).
Proof.
  induction l as [|b l IH]; intros pre out; [done|]. cbn [length read_len app]. rewrite rd_app by done. cbn [obind].
  specialize (IH (pre ++ [b]) (Z.lor (u32 (Z.shiftl out 8)) b)). rewrite <- app_assoc, zlen_app in IH. exact IH.
Qed.
Lemma be_fold_digits n : forall v, 0 <= v < 256 ^ Z.of_nat n -> v < 2 ^ 32 -> be_fold 0 (be_digits n v) = v.
Proof.
  induction n as [|n IH]; intros v Hv H32; [simpl in Hv; unfold be_fold; simpl; lia|]. cbn [be_digits]. unfold be_fold in *. rewrite fold_left_app. cbn [fold_left].
  assert (256 ^ Z.of_nat (S n) = 256 * 256 ^ Z.of_nat n) as E by (rewrite Nat2Z.inj_succ, Z.pow_succ_r by lia; done).
  change (2 ^ 32) with 4294967296 in *. pose proof (Z.mod_pos_bound v 256 ltac:(lia)). assert (0 <= v / 256 < 256 ^ Z.of_nat n) by (split; [apply Z.div_pos; lia|apply Z.div_lt_upper_bound; lia]).
  assert (Hq : 256 * (v / 256) <= v) by dlia.
  rewrite IH by lia. rewrite Z.shiftl_mul_pow2 by lia. rewrite wrapU_small by (unfold isU; change (2 ^ 8) with 256; change (2 ^ 32) with 4294967296; lia).
  rewrite lor_low by (change (2 ^ 8) with 256; lia). change (2 ^ 8) with 256. dlia.
Qed.
Lemma len_count_fits v : 127 < v < 2 ^ 32 -> v < 256 ^ Z.of_nat (Z.to_nat (len_count v)).
Proof.
  change (2 ^ 32) with 4294967296. intros H. unfold len_count. destruct (Z.ltb_spec v 256); [|destruct (Z.ltb_spec v 65536); [|destruct (Z.ltb_spec v 16777216)]].
  - change (256 ^ Z.of_nat (Z.to_nat 1)) with 256. lia.
  - change (256 ^ Z.of_nat (Z.to_nat 2)) with 65536. lia.
  - change (256 ^ Z.of_nat (Z.to_nat 3)) with 16777216. lia.
  - change (256 ^ Z.of_nat (Z.to_nat 4)) with 4294967296. lia.
Qed.
Section Lengths.
Context (tag : Z) (c k : list Z) (Hc : zlen c < 2 ^ 32 - 8).
Lemma tlv_second : exists b, rd (tlv tag c ++ k) 1 = Ret b /\ isU 8 b /\ GET_LEN_BYTES b = zlen (der_len (zlen c)).
Proof using Hc.
  pose proof (zlen_nonneg c). destruct (der_len_first (zlen c)) as (b & r & E & Hb & Hg & _); [lia|]. exists b. conj; [|done|done].
  unfold tlv. rewrite E. done.
Qed.
Lemma GetLengthIndefinite_ok cb : zlen (tlv tag c) <= cb -> CRYPT_GetLengthIndefinite (tlv tag c ++ k) cb = Ret (inr (zlen c)).
Proof using Hc.
  intros Hcb. pose proof (zlen_nonneg c). rewrite tlv_size in Hcb. destruct (der_len_first (zlen c)) as (b & r & E & Hb & Hg & Hs); [lia|].
  pose proof (der_len_bounds (zlen c) ltac:(lia)). unfold CRYPT_GetLengthIndefinite. replace (cb <=? 1) with false by lia.
  assert (Er : rd (tlv tag c ++ k) 1 = Ret b) by (unfold tlv; rewrite E; done). rewrite Er. cbn [obind].
  destruct Hs as [(Hv & -> & ->)|(Hv & -> & ->)].
  - replace (zlen c <=? 127) with true by lia. by replace (cb <? zlen c + 1) with false by lia.
  - assert (1 <= len_count (zlen c) <= 4) by (unfold len_count; zcases). replace (128 + len_count (zlen c) <=? 127) with false by lia.
    replace (128 + len_count (zlen c) =? 128) with false by lia. rewrite Hg. rewrite E in Hg at 1. rewrite zlen_der_len in * by lia.
    replace (zlen c <=? 127) with false in * by lia. replace (4 + 1 <? len_count (zlen c) + 1) with false by lia. replace (cb <? len_count (zlen c) + 1 + 2) with false by lia.
    replace (Z.to_nat (len_count (zlen c) + 1 - 1)) with (length (be_digits (Z.to_nat (len_count (zlen c))) (zlen c))) by (rewrite length_be_digits; f_equal; lia).
    unfold tlv. rewrite E. change ((tag :: (?x :: ?y) ++ c) ++ k) with ([tag; x] ++ (y ++ c) ++ k). rewrite <- app_assoc.
    change 2 with (zlen [tag; 128 + len_count (zlen c)]). rewrite read_len_fold. cbn [obind].
    rewrite be_fold_digits; [|split; [lia|apply len_count_fits; lia]|lia]. rewrite wrapU_small by (unfold isU; lia).
    by replace (cb <? zlen c + 0 + 1) with false by lia.
Qed.
Lemma GetLen_ok cb : zlen (tlv tag c) <= cb -> CRYPT_GetLen (tlv tag c ++ k) cb = Ret (inr (zlen c)).
Proof using Hc.
  intros Hcb. unfold CRYPT_GetLen. rewrite GetLengthIndefinite_ok by done. cbn [obind]. unfold CMSG_INDEFINITE_LENGTH. by replace (zlen c =? 4294967295) with false by lia.
Qed.
(** the data is found where the length ends *)
Lemma tlv_data : drop (Z.to_nat (1 + zlen (der_len (zlen c)))) (tlv tag c ++ k) = c ++ k.
Proof using.
  pose proof (zlen_nonneg (der_len (zlen c))). unfold tlv. rewrite app_comm_cons, <- app_assoc.
  replace (Z.to_nat (1 + zlen (der_len (zlen c)))) with (length (tag :: der_len (zlen c))) by (unfold zlen; cbn [length]; lia).
  by rewrite drop_app_length.
Qed.
Lemma tlv_split : tlv tag c ++ k = (tag :: der_len (zlen c)) ++ c ++ k /\ zlen (tag :: der_len (zlen c)) = 1 + zlen (der_len (zlen c)).
Proof using. unfold tlv. rewrite zlen_cons. split; [cbn [app]; by rewrite <- app_assoc|lia]. Qed.
End Lengths.

(** ** The contract of a decoder *)
Lemma nocopy_no_alloc fl : nocopy (no_alloc fl) = nocopy fl.
Proof.
  unfold nocopy, no_alloc. do 2 f_equal. apply Z.bits_inj'. intros i Hi. rewrite !Z.land_spec, Z.ldiff_spec.
  destruct (decide (i = 0)) as [->|Hi0]; [by rewrite andb_true_r|]. unfold CRYPT_DECODE_NOCOPY_FLAG. change 1 with (2 ^ 0).
  rewrite Z.pow2_bits_false by lia. by rewrite !andb_false_r.
Qed.

Lemma put_first (area d : list Z) : (length d <= length area)%nat -> put_bytes area 0 d = Ret (d ++ drop (length d) area).
Proof. intros H. pose proof (put_bytes_app [] (take (length d) area) (drop (length d) area) d 0) as E. cbn [app] in E. rewrite take_drop in E. apply E; [done|]. rewrite length_take. lia. Qed.

(** ** The loops of the decoders *)
Lemma copy_reversed_ok pre first len : forall c1 c2 k rest, (length c1 <= length rest)%nat -> first + len = zlen pre + zlen c1 + zlen c2 ->
  copy_reversed (length c1) (zlen c2) (pre ++ c1 ++ c2 ++ k) first len (rev c2 ++ rest) = Ret (rev (c1 ++ c2) ++ drop (length c1) rest).
Proof.
  induction c1 as [|b c1 IH] using rev_ind; intros c2 k rest Hl Hf; [done|]. rewrite length_app, zlen_app, Nat.add_1_r in *. change (zlen [b]) with 1 in *. cbn [copy_reversed].
  replace (pre ++ (c1 ++ [b]) ++ c2 ++ k) with ((pre ++ c1) ++ b :: c2 ++ k) by (by rewrite <- !app_assoc).
  rewrite rd_app by (rewrite zlen_app; lia). cbn [obind]. destruct rest as [|x rest]; [simpl in Hl; lia|].
  rewrite wr_app by (unfold zlen; by rewrite length_rev). cbn [obind]. specialize (IH (b :: c2) k rest ltac:(simpl in Hl; lia)).
  rewrite zlen_cons in IH. specialize (IH ltac:(lia)). cbn [rev app] in IH. repeat rewrite <- app_assoc in IH |- *. cbn [app] in *. rewrite IH. by rewrite <- (app_assoc c1).
Qed.
Lemma reverse_all pre c k first len area : (length c <= length area)%nat -> first + len = zlen pre + zlen c ->
  copy_reversed (length c) 0 (pre ++ c ++ k) first len area = Ret (rev c ++ drop (length c) area).
Proof. intros H1 H2. pose proof (copy_reversed_ok pre first len c [] k area H1) as E. change (zlen []) with 0 in E. rewrite app_nil_r in E. apply E. lia. Qed.

Lemma be_fold_val : forall c, bytes c -> le_val (rev c) < 2 ^ 32 -> be_fold 0 c = le_val (rev c).
Proof.
  change (2 ^ 32) with 4294967296. induction c as [|b c IH] using rev_ind; intros Hc Hv; [done|]. pose proof (bytes_last _ _ Hc) as Hb. apply Forall_app in Hc as [Hc _].
  rewrite rev_app_distr in *. cbn [rev app] in *. unfold le_val in Hv |- *. cbn [foldr] in *. fold (le_val (rev c)) in *. unfold isU in Hb. change (2 ^ 8) with 256 in Hb.
  pose proof (le_val_range (rev c) ltac:(by apply Forall_rev)). unfold be_fold in *. rewrite fold_left_app. cbn [fold_left]. rewrite IH by (done || lia).
  rewrite Z.shiftl_mul_pow2 by lia. rewrite wrapU_small by (unfold isU; change (2 ^ 8) with 256; change (2 ^ 32) with 4294967296; lia).
  rewrite lor_low by (change (2 ^ 8) with 256; lia). change (2 ^ 8) with 256. lia.
Qed.
Lemma enum_loop_fold post : forall l pre out, enum_loop (length l) (pre ++ l ++ post) (zlen pre) out = Ret (be_fold out l).
Proof.
  induction l as [|b l IH]; intros pre out; [done|]. cbn [length enum_loop app]. rewrite rd_app by done. cbn [obind].
  specialize (IH (pre ++ [b]) (Z.lor (u32 (Z.shiftl out 8)) b)). rewrite <- app_assoc, zlen_app in IH. exact IH.
Qed.

Definition int_step (val b : Z) : Z := s32 (Z.lor (s32 (Z.shiftl val 8)) b).
Lemma int_loop_fold post : forall l pre val, int_loop (length l) (pre ++ l ++ post) (zlen pre) val = Ret (fold_left int_step l val).
Proof.
  induction l as [|b l IH]; intros pre val; [done|]. cbn [length int_loop app]. rewrite rd_app by done. cbn [obind].
  specialize (IH (pre ++ [b]) (int_step val b)). rewrite <- app_assoc, zlen_app in IH. exact IH.
Qed.
Lemma int_step_ok val b : isU 8 b -> - 2 ^ 23 <= val < 2 ^ 23 -> int_step val b = val * 256 + b.
Proof.
  unfold isU. change (2 ^ 8) with 256. change (2 ^ 23) with 8388608. intros Hb Hv. unfold int_step. rewrite Z.shiftl_mul_pow2 by lia.
  rewrite (wrapS_small 32 (val * 2 ^ 8)) by (done || (unfold isS; change (2 ^ (32 - 1)) with 2147483648; change (2 ^ 8) with 256; lia)).
  rewrite lor_low by (change (2 ^ 8) with 256; lia). change (2 ^ 8) with 256.
  apply wrapS_small; [done|]. unfold isS. change (2 ^ (32 - 1)) with 2147483648. lia.
Qed.
Lemma int_fold x : forall c, bytes (x :: c) -> (length c <= 3)%nat -> fold_left int_step (x :: c) (if x <? 128 then 0 else -1) = le_signed (rev (x :: c)).
Proof.
  induction c as [|b c IH] using rev_ind; intros Hc Hl.
  - apply Forall_cons_1 in Hc as [Hx _]. cbn [fold_left]. rewrite int_step_ok by (done || (destruct (x <? 128); lia)). simpl. unfold sbyte. destruct (x <? 128); lia.
  - change (x :: c ++ [b]) with ((x :: c) ++ [b]) in *. pose proof (bytes_last _ _ Hc) as Hb. apply Forall_app in Hc as [Hc _]. rewrite length_app in Hl. simpl in Hl.
    rewrite fold_left_app, IH by (done || lia). cbn [fold_left]. rewrite rev_app_distr. cbn [rev app]. apply Forall_rev in Hc. cbn [rev] in Hc. pose proof (le_signed_bounds _ _ Hc) as Hs.
    assert (256 ^ zlen (rev c) <= 256 ^ 2) by (apply Z.pow_le_mono_r; unfold zlen; rewrite ?length_rev; lia). change (256 ^ 2) with 65536 in *.
    rewrite int_step_ok by (done || (change (2 ^ 23) with 8388608; lia)).
    cbn [le_signed]. destruct (rev c ++ [x]) eqn:E; [by destruct (rev c)|]. lia.
Qed.

(** a zero byte in front is removed *)
Definition strip (c : list Z) : list Z := match c with 0 :: r => r | _ => c end.

Section Decoders.
Context (pfnAlloc : Z -> option (list Z)) (alloc_size : forall n m, pfnAlloc n = Some m -> zlen m = n).

(** a decoder applied to an encoding: [n] bytes are needed for a structure of
    [size] bytes and the area behind it, which holds [v] of it afterwards *)
Class Decodes {A} (g : Z -> dest -> Z -> outcome (dec_res A)) (size n : Z) (v : list Z -> A) : Prop := {
  dec_query : forall fl pcb, nocopy fl = false -> g fl NoDest pcb = Ret (true, 0, None, n);
  dec_area : forall fl area pcb, nocopy fl = false -> alloc_flag fl = false -> n <= pcb -> n <= size + zlen area ->
    g fl (Area area) pcb = Ret (true, 0, Some (v area), n);
  dec_short : forall fl area pcb, nocopy fl = false -> alloc_flag fl = false -> pcb < n -> g fl (Area area) pcb = Ret (false, ERROR_MORE_DATA, None, n);
  dec_alloc : forall fl pcb, nocopy fl = false -> alloc_flag fl = true -> g fl Allocate pcb =
    match pfnAlloc n with
    | Some m => Ret (true, 0, Some (v (drop (Z.to_nat size) m)), n)
    | None => Ret (false, 0, None, pcb)
    end
}.
(** what the decoder without its tag does *)
Definition internal_ok {A} (f : internal A) (pb : list Z) (cb size n : Z) (v : list Z -> A) (decoded : Z) : Prop :=
  (forall fl pcb, nocopy fl = false -> f pb cb fl None pcb = Ret ((true, 0, None, n), decoded)) /\
  (forall fl area pcb, nocopy fl = false -> n <= pcb -> n <= size + zlen area -> f pb cb fl (Some area) pcb = Ret ((true, 0, Some (v area), n), decoded)).
Lemma decode_with_ok {A} (f : internal A) pb cb size n v decoded (Hs : 0 <= size) : size <= n -> internal_ok f pb cb size n v decoded ->
  Decodes (decode_with pfnAlloc f size pb cb) size n v.
Proof using alloc_size.
  intros Hsn [Hq Ha]. unfold decode_with. split; intros; rewrite Hq by (by rewrite nocopy_no_alloc); cbn [obind].
  - done.
  - unfold CRYPT_DecodeEnsureSpace. replace (alloc_flag fl) with false. replace (pcb <? n) with false by lia. cbn [obind].
    rewrite Ha by (rewrite ?nocopy_no_alloc; done || lia). done.
  - unfold CRYPT_DecodeEnsureSpace. replace (alloc_flag fl) with false. by replace (pcb <? n) with true by lia.
  - unfold CRYPT_DecodeEnsureSpace. replace (alloc_flag fl) with true. destruct (pfnAlloc n) as [m|] eqn:E; cbn [obind]; [|done]. apply alloc_size in E.
    rewrite Ha; [done|by rewrite nocopy_no_alloc|lia|]. unfold zlen in *. rewrite length_drop. lia.
Qed.

Lemma Decodes_ext {A} (g h : Z -> dest -> Z -> outcome (dec_res A)) size n v : (forall fl d pcb, g fl d pcb = h fl d pcb) -> Decodes h size n v -> Decodes g size n v.
Proof using. intros E [H1 H2 H3 H4]. split; intros; rewrite E; auto. Qed.

Section Tlv.
Context (tag : Z) (c k : list Z) (cb : Z) (Hc : zlen c < 2 ^ 32 - 32) (Hcb : zlen (tlv tag c) <= cb).
Abbreviation enc := (tlv tag c ++ k).
Lemma tlv_head : rd enc 0 = Ret tag /\ cb <> 0.
Proof using Hcb. split; [done|]. rewrite tlv_size in Hcb. pose proof (zlen_nonneg c). pose proof (zlen_nonneg (der_len (zlen c))). lia. Qed.
(** the common start of the decoders *)
Lemma decoder_start : exists b, CRYPT_GetLen enc cb = Ret (inr (zlen c)) /\ rd enc 1 = Ret b /\ GET_LEN_BYTES b = zlen (der_len (zlen c)) /\
  u32 (1 + zlen (der_len (zlen c)) + zlen c) = zlen (tlv tag c).
Proof using Hc Hcb.
  pose proof (zlen_nonneg c). pose proof (der_len_bounds (zlen c) ltac:(lia)).
  destruct (tlv_second tag c k) as (b & Er & _ & Hg); [lia|]. exists b. conj; [by apply GetLen_ok; [lia|]|done|done|].
  rewrite tlv_size. apply wrapU_small. unfold isU. lia.
Qed.
Lemma tlv_data_at : data_at enc (1 + zlen (der_len (zlen c))) (zlen c) = Ret c.
Proof using.
  unfold data_at. rewrite tlv_data, read_bytes_app. rewrite zlen_app, tlv_size. pose proof (zlen_nonneg c). pose proof (zlen_nonneg k).
  by replace (_ <? _) with false by lia.
Qed.
Lemma octets_internal : internal_ok CRYPT_AsnDecodeOctetsInternal enc cb sizeof_BLOB (zlen c + sizeof_BLOB) (fun area => mkBlob (zlen c) (c ++ drop (length c) area)) (zlen (tlv tag c)).
Proof using Hc Hcb.
  pose proof (zlen_nonneg c). destruct decoder_start as (b & El & Er & Hg & Hd). unfold sizeof_BLOB. split.
  - intros fl pcb Hfl. unfold CRYPT_AsnDecodeOctetsInternal. rewrite El. cbn [obind]. rewrite Er. cbn [obind]. rewrite Hfl, Hg, Hd, wrapU_small by (unfold isU, sizeof_BLOB; lia). done.
  - intros fl area pcb Hfl Hp Hn. unfold CRYPT_AsnDecodeOctetsInternal. rewrite El. cbn [obind]. rewrite Er. cbn [obind]. rewrite Hfl, Hg, Hd, wrapU_small by (unfold isU, sizeof_BLOB; lia).
    unfold sizeof_BLOB. replace (pcb <? zlen c + 8) with false by lia. rewrite tlv_data_at.
    destruct (Z.eqb_spec (zlen c) 0) as [E|E]; simpl negb; cbv iota; cbn [obind].
    + apply zlen_zero in E as ->. done.
    + rewrite put_first by (unfold zlen in *; lia). done.
Qed.
Lemma octets_decode : tag = ASN_OCTETSTRING ->
  Decodes (CRYPT_AsnDecodeOctets pfnAlloc enc cb) sizeof_BLOB (zlen c + sizeof_BLOB) (fun area => mkBlob (zlen c) (c ++ drop (length c) area)).
Proof using alloc_size Hc Hcb.
  intros Ht. destruct tlv_head as [E0 Ecb]. pose proof (zlen_nonneg c).
  eapply Decodes_ext; [|eapply decode_with_ok; [done|unfold sizeof_BLOB; lia|apply octets_internal]].
  intros. unfold CRYPT_AsnDecodeOctets. replace (cb =? 0) with false by lia. rewrite E0. cbn [obind]. by rewrite Ht.
Qed.
(** with the flag that forbids copies the blob points into the encoding *)
Lemma octets_nocopy fl area pcb : tag = ASN_OCTETSTRING -> nocopy fl = true -> alloc_flag fl = false -> sizeof_BLOB <= pcb ->
  CRYPT_AsnDecodeOctets pfnAlloc enc cb fl (Area area) pcb = Ret (true, 0, Some (mkBlob (zlen c) (c ++ k)), sizeof_BLOB).
Proof using Hc Hcb.
  intros Ht Hn Ha Hp. destruct tlv_head as [E0 Ecb]. destruct decoder_start as (b & El & Er & Hg & Hd). unfold CRYPT_AsnDecodeOctets, sizeof_BLOB in *. replace (cb =? 0) with false by lia.
  rewrite E0. cbn [obind]. rewrite Ht. simpl negb. cbv iota. unfold decode_with, CRYPT_AsnDecodeOctetsInternal. rewrite <- Ht, El. cbn [obind]. rewrite Er. cbn [obind].
  rewrite nocopy_no_alloc, Hn. cbn [obind]. unfold CRYPT_DecodeEnsureSpace, sizeof_BLOB. rewrite Ha. replace (pcb <? 8) with false by lia. cbn [obind].
  rewrite Hg, tlv_data. done.
Qed.
Lemma integer_internal : internal_ok CRYPT_AsnDecodeIntegerInternal enc cb sizeof_BLOB (zlen c + sizeof_BLOB) (fun area => mkBlob (zlen c) (rev c ++ drop (length c) area)) (zlen (tlv tag c)).
Proof using Hc Hcb.
  pose proof (zlen_nonneg c). destruct decoder_start as (b & El & Er & Hg & Hd). destruct (tlv_split tag c k) as [Es Ez]. unfold sizeof_BLOB.
  split; intros; unfold CRYPT_AsnDecodeIntegerInternal; rewrite El; cbn [obind]; rewrite Er; cbn [obind]; rewrite Hg, Hd, wrapU_small by (unfold isU, sizeof_BLOB; lia); [done|].
  unfold sizeof_BLOB. replace (pcb <? zlen c + 8) with false by lia. rewrite zlen_nat, Es, reverse_all by (unfold zlen in *; lia). done.
Qed.
Lemma integer_decode : tag = ASN_INTEGER ->
  Decodes (CRYPT_AsnDecodeInteger pfnAlloc enc cb) sizeof_BLOB (zlen c + sizeof_BLOB) (fun area => mkBlob (zlen c) (rev c ++ drop (length c) area)).
Proof using alloc_size Hc Hcb.
  intros Ht. destruct tlv_head as [E0 Ecb]. pose proof (zlen_nonneg c).
  eapply Decodes_ext; [|eapply decode_with_ok; [done|unfold sizeof_BLOB; lia|apply integer_internal]].
  intros. unfold CRYPT_AsnDecodeInteger. rewrite E0. cbn [obind]. by rewrite Ht.
Qed.

Definition strip_area (area : list Z) : list Z := match c with 0 :: _ => drop 1 area | _ => area end.
Definition unsigned_blob (area : list Z) : BLOB := mkBlob (zlen (strip c)) (rev (strip c) ++ drop (length (strip c)) (strip_area area)).
Lemma unsigned_internal : tag = ASN_INTEGER -> internal_ok CRYPT_AsnDecodeUnsignedIntegerInternal enc cb sizeof_BLOB (zlen c + sizeof_BLOB) unsigned_blob (zlen (tlv tag c)).
Proof using Hc Hcb.
  intros Ht. pose proof (zlen_nonneg c). destruct tlv_head as [E0 _]. destruct decoder_start as (b & El & Er & Hg & Hd). destruct (tlv_split tag c k) as [Es Ez]. unfold sizeof_BLOB.
  split; intros; unfold CRYPT_AsnDecodeUnsignedIntegerInternal; rewrite E0; cbn [obind]; rewrite Ht, Z.eqb_refl, <- Ht, El; cbn [obind]; rewrite Er; cbn [obind]; rewrite Hg, Hd, wrapU_small by (unfold isU, sizeof_BLOB; lia); [done|].
  unfold sizeof_BLOB. replace (pcb <? zlen c + 8) with false by lia. rewrite Es, <- Ez.
  set (pre := tag :: der_len (zlen c)) in *.
  assert (E : (if negb (zlen c =? 0) then let! b := rd (pre ++ c ++ k) (zlen pre) in Ret (b =? 0) else Ret false) = Ret (match c with 0 :: _ => true | _ => false end)).
  { destruct c as [|x r]; [done|]. rewrite zlen_cons. pose proof (zlen_nonneg r). replace (zlen r + 1 =? 0) with false by lia. simpl negb. cbv iota. cbn [app]. rewrite rd_app by done. cbn [obind].
    by destruct x. }
  rewrite E. cbn [obind]. unfold unsigned_blob, strip_area, strip. clear E.
  assert (Hs : forall r, c = 0 :: r -> copy_reversed (Z.to_nat (zlen c - 1)) 0 (pre ++ c ++ k) (zlen pre) (zlen c) (drop 1 area) = Ret (rev r ++ drop (length r) (drop 1 area))).
  { intros r ->. rewrite zlen_cons. replace (zlen r + 1 - 1) with (zlen r) by lia. rewrite zlen_nat. rewrite zlen_cons in *.
    change (pre ++ (0 :: r) ++ k) with (pre ++ [0] ++ r ++ k). rewrite app_assoc. apply reverse_all; [rewrite length_drop; unfold zlen in *; lia|rewrite zlen_app; change (zlen [0]) with 1; lia]. }
  assert (Hn : copy_reversed (Z.to_nat (zlen c)) 0 (pre ++ c ++ k) (zlen pre) (zlen c) area = Ret (rev c ++ drop (length c) area)) by (rewrite zlen_nat; apply reverse_all; unfold zlen in *; lia).
  destruct c as [|[|x|x] r].
  - by rewrite Hn.
  - rewrite (Hs r) by done. cbn [obind]. rewrite zlen_cons. replace (zlen r + 1 - 1) with (zlen r) by lia. done.
  - by rewrite Hn.
  - by rewrite Hn.
Qed.
Lemma unsigned_decode : tag = ASN_INTEGER -> Decodes (CRYPT_AsnDecodeUnsignedInteger pfnAlloc enc cb) sizeof_BLOB (zlen c + sizeof_BLOB) unsigned_blob.
Proof using alloc_size Hc Hcb.
  intros Ht. pose proof (zlen_nonneg c). eapply Decodes_ext; [|eapply decode_with_ok; [done|unfold sizeof_BLOB; lia|by apply unsigned_internal]]. done.
Qed.
Lemma int_internal x r : c = x :: r -> bytes c -> (length r <= 3)%nat -> internal_ok CRYPT_AsnDecodeIntInternal enc cb 4 4 (fun _ => le_signed (rev c)) (zlen (tlv tag c)).
Proof using Hc Hcb.
  intros Ex Hb Hl. destruct decoder_start as (b & El & Er & Hg & Hd). destruct (tlv_split tag c k) as [Es Ez].
  assert (zlen c = zlen r + 1) as Hz by (by rewrite Ex, zlen_cons). pose proof (zlen_nonneg r). assert (zlen r <= 3) by (unfold zlen; lia).
  split; intros; unfold CRYPT_AsnDecodeIntInternal; rewrite El; cbn [obind]; rewrite Er; cbn [obind]; rewrite Hg, Hd; replace (4 <? zlen c) with false by lia; [done|].
  unfold CRYPT_DecodeCheckSpace. replace (pcb <? 4) with false by lia. rewrite Es, <- Ez, zlen_nat. replace (zlen c =? 0) with false by lia. simpl negb. cbv iota.
  assert (Erd : rd ((tag :: der_len (zlen c)) ++ c ++ k) (zlen (tag :: der_len (zlen c))) = Ret x) by (rewrite Ex at 2; by apply rd_app).
  rewrite Erd. cbn [obind]. rewrite int_loop_fold. rewrite Ex in Hb |- *. pose proof (proj1 (Forall_cons_1 _ _ _ Hb)) as Hx. rewrite bit7 by done.
  replace (if negb (x <? 128) then -1 else 0) with (if x <? 128 then 0 else -1) by (by destruct (x <? 128)). rewrite int_fold by done. done.
Qed.
Lemma int_decode : tag = ASN_INTEGER -> bytes c -> c <> [] -> zlen c <= 4 -> Decodes (CRYPT_AsnDecodeInt pfnAlloc enc cb) 4 4 (fun _ => le_signed (rev c)).
Proof using alloc_size Hc Hcb.
  intros Ht Hb Hn Hl. destruct tlv_head as [E0 Ecb]. assert (exists x r, c = x :: r) as (x & r & Ex) by (destruct c as [|x r]; [done|by exists x, r]).
  eapply Decodes_ext; [|eapply decode_with_ok; [done|done|eapply int_internal; [exact Ex|done|rewrite Ex, zlen_cons in Hl; unfold zlen in Hl; lia]]].
  intros. unfold CRYPT_AsnDecodeInt. replace (cb =? 0) with false by lia. rewrite E0. cbn [obind]. by rewrite Ht.
Qed.
Lemma enumerated_decode : tag = ASN_ENUMERATED -> bytes c -> c <> [] -> zlen c <= 5 -> le_val (rev c) < 2 ^ 32 ->
  Decodes (CRYPT_AsnDecodeEnumerated pfnAlloc enc cb) 4 4 (fun _ => le_val (rev c)).
Proof using Hc Hcb.
  intros Ht Hb Hn Hl Hv. destruct tlv_head as [E0 Ecb]. pose proof (zlen_nonneg c). assert (0 < zlen c) by (destruct c as [|x r]; [done|rewrite zlen_cons; pose proof (zlen_nonneg r); lia]).
  assert (Ed : der_len (zlen c) = [zlen c]) by (unfold der_len; by replace (zlen c <=? 127) with true by lia).
  assert (E : forall fl d pcb, d <> NoDest -> CRYPT_AsnDecodeEnumerated pfnAlloc enc cb fl d pcb =
    let! (ret, err, _, n) := CRYPT_DecodeEnsureSpace pfnAlloc fl d 4 pcb 4 in Ret (ret, err, if (ret : bool) then Some (le_val (rev c)) else None, n)).
  { intros fl d pcb Hd. unfold CRYPT_AsnDecodeEnumerated. rewrite tlv_size, Ed in Hcb. change (zlen [zlen c]) with 1 in Hcb. rewrite E0. cbn [obind]. rewrite Ht, Z.eqb_refl, <- Ht.
    replace (cb <=? 1) with false by lia. assert (Er : rd enc 1 = Ret (zlen c)) by (unfold tlv; by rewrite Ed). rewrite Er. cbn [obind].
    replace (zlen c =? 0) with false by lia. replace (4 + 1 <? zlen c) with false by lia. destruct (tlv_split tag c k) as [Es Ez]. rewrite Es, Ed.
    rewrite zlen_nat. change 2 with (zlen [tag; zlen c]). rewrite enum_loop_fold, be_fold_val by done. cbn [obind]. by destruct d. }
  split; intros; try rewrite E by done; [done| | |]; unfold CRYPT_DecodeEnsureSpace.
  - replace (alloc_flag fl) with false. by replace (pcb <? 4) with false by lia.
  - replace (alloc_flag fl) with false. by replace (pcb <? 4) with true by lia.
  - replace (alloc_flag fl) with true. by destruct (pfnAlloc 4).
Qed.
Lemma bool_decode v pcb : c = [v] -> 4 <= pcb -> CRYPT_AsnDecodeBool enc cb false pcb = Ret ((true, 0, Some (negb (v =? 0)), 4), zlen (tlv tag c)).
Proof using Hcb.
  intros Ev Hp. clear Hc. subst c. change (zlen (tlv tag [v])) with 3 in *. unfold CRYPT_AsnDecodeBool. replace (cb <? 3) with false by lia. cbn. by replace (pcb <? 4) with false by lia.
Qed.

(** the bits that are not used are cleared in the copy *)
Lemma mask_last_ok d b r u : mask_last ((d ++ [b]) ++ r) (zlen (d ++ [b])) u = Ret (masked u (d ++ [b]) ++ r).
Proof using.
  unfold mask_last. rewrite <- app_assoc, zlen_app. change (zlen [b]) with 1. cbn [app]. rewrite rd_app by lia. cbn [obind]. rewrite wr_app by lia.
  by rewrite masked_snoc, <- app_assoc.
Qed.
Lemma bits_internal u d : c = u :: d -> internal_ok CRYPT_AsnDecodeBitsInternal enc cb sizeof_BIT_BLOB (zlen d + sizeof_BIT_BLOB) (fun area => mkBits (mkBlob (zlen d) (masked u d ++ drop (length d) area)) u) (zlen (tlv tag c)).
Proof using Hc Hcb.
  intros Ec. assert (Hz : zlen c = zlen d + 1) by (by rewrite Ec, zlen_cons). pose proof (zlen_nonneg d). destruct decoder_start as (b & El & Er & Hg & Hd). destruct (tlv_split tag c k) as [Es Ez].
  unfold sizeof_BIT_BLOB. split; intros; unfold CRYPT_AsnDecodeBitsInternal; rewrite Er; cbn [obind]; rewrite El; cbn [obind]; rewrite Hg, Hd, H0;
    replace (zlen c - 1 + sizeof_BIT_BLOB) with (zlen d + 12) by (unfold sizeof_BIT_BLOB; lia); rewrite (wrapU_small 32 (zlen d + 12)) by (unfold isU; lia); [done|].
  replace (pcb <? zlen d + 12) with false by lia. rewrite Hz. replace (zlen d + 1 - 1) with (zlen d) by lia. rewrite (wrapU_small 32 (zlen d)) by (unfold isU; lia).
  assert (Eu : rd enc (1 + zlen (der_len (zlen c))) = Ret u) by (rewrite Es, <- Ez; rewrite Ec at 2; by apply rd_app). rewrite <- Hz, Eu. cbn [obind].
  destruct (Z.eqb_spec (zlen d) 0) as [E|E]; simpl negb; cbv iota; cbn [obind]; [by apply zlen_zero in E as ->|].
  assert (Ed : data_at enc (2 + zlen (der_len (zlen c))) (zlen d) = Ret d).
  { unfold data_at. rewrite zlen_app, tlv_size. pose proof (zlen_nonneg k). replace (_ <? _) with false by lia.
    pose proof (der_len_bounds (zlen c) ltac:(lia)). replace (Z.to_nat (2 + zlen (der_len (zlen c)))) with (Z.to_nat (1 + zlen (der_len (zlen c))) + 1)%nat by lia.
    rewrite <- drop_drop, tlv_data, Ec. apply read_bytes_app. }
  rewrite Ed. cbn [obind]. rewrite put_first by (unfold zlen in *; lia). cbn [obind]. destruct d as [|y d _] using rev_ind; [done|]. rewrite mask_last_ok. done.
Qed.
Lemma bits_decode u d : tag = ASN_BITSTRING -> c = u :: d ->
  Decodes (CRYPT_AsnDecodeBits pfnAlloc enc cb) sizeof_BIT_BLOB (zlen d + sizeof_BIT_BLOB) (fun area => mkBits (mkBlob (zlen d) (masked u d ++ drop (length d) area)) u).
Proof using alloc_size Hc Hcb.
  intros Ht Ec. destruct tlv_head as [E0 Ecb]. pose proof (zlen_nonneg d).
  eapply Decodes_ext; [|eapply decode_with_ok; [done|unfold sizeof_BIT_BLOB; lia|by apply bits_internal]].
  intros. unfold CRYPT_AsnDecodeBits. replace (cb =? 0) with false by lia. rewrite E0. cbn [obind]. by rewrite Ht.
Qed.
End Tlv.
End Decoders.

(** ** The end of an encoding *)

(** an encoding of known length, or one of indefinite length: encodings up to
    the two zero bytes that end it *)
Inductive ber : list Z -> Prop :=
| ber_definite tag c : tag <> 0 -> ber (tlv tag c)
| ber_indefinite tag body : bers body -> ber (tag :: 0x80 :: body ++ [0; 0])
with bers : list Z -> Prop :=
| bers_nil : bers []
| bers_cons e b : ber e -> bers b -> bers (e ++ b).
Scheme ber_mut := Minimality for ber Sort Prop
  with bers_mut := Minimality for bers Sort Prop.
Combined Scheme ber_bers_ind from ber_mut, bers_mut.

(** a round of the loop on a known length *)
Lemma find_end_tlv fuel tag c k cb levels dec : zlen (tlv tag c) <= cb < 2 ^ 32 -> zlen c < 2 ^ 32 - 32 -> 0 <= dec -> dec + zlen (tlv tag c) < 2 ^ 32 ->
  find_end (S fuel) (tlv tag c ++ k) cb levels dec =
    let levels := if (tag =? 0) && (zlen c =? 0) && negb (levels =? 0) then levels - 1 else levels in
    if levels =? 0 then Ret (inr (levels, dec + zlen (tlv tag c)))
    else find_end fuel k (cb - zlen (tlv tag c)) levels (dec + zlen (tlv tag c)).
Proof.
  intros Hcb Hc Hd Hdec. pose proof (zlen_nonneg c). pose proof (der_len_bounds (zlen c) ltac:(lia)). pose proof (tlv_size tag c) as Hz. cbn [find_end].
  replace (cb =? 0) with false by lia. rewrite GetLengthIndefinite_ok by lia. cbn [obind].
  destruct (der_len_first (zlen c)) as (b & r & E & Hb & Hg & Hs); [lia|]. assert (Er : rd (tlv tag c ++ k) 1 = Ret b) by (unfold tlv; rewrite E; done). rewrite Er. cbn [obind].
  unfold CMSG_INDEFINITE_LENGTH. replace (zlen c =? 4294967295) with false by lia. assert (E0 : rd (tlv tag c ++ k) 0 = Ret tag) by done. rewrite E0. cbn [obind].
  replace (b =? 0) with (zlen c =? 0) by (destruct Hs as [(Hv & -> & _)|(Hv & -> & _)]; [done|]; assert (1 <= len_count (zlen c)) by (unfold len_count; zcases); lia).
  rewrite Hg, <- Hz. rewrite (wrapU_small 32 (zlen (tlv tag c))) by (unfold isU; lia). rewrite (wrapU_small 32 (dec + _)) by (unfold isU; lia). rewrite (wrapU_small 32 (cb - _)) by (unfold isU; lia).
  rewrite zlen_nat, drop_app_length. done.
Qed.
Lemma find_end_indefinite fuel tag l cb levels dec : 2 <= cb < 2 ^ 32 -> 0 <= dec < 2 ^ 32 - 2 ->
  find_end (S fuel) (tag :: 0x80 :: l) cb levels dec = find_end fuel l (cb - 2) (levels + 1) (dec + 2).
Proof.
  intros Hcb Hd. cbn [find_end]. replace (cb =? 0) with false by lia. unfold CRYPT_GetLengthIndefinite. replace (cb <=? 1) with false by lia.
  change (rd (tag :: 128 :: l) 1) with (Ret 128). cbn [obind]. change (128 <=? 127) with false. change (128 =? 128) with true. cbv iota. cbn [obind].
  change (GET_LEN_BYTES 128) with 1. change (CMSG_INDEFINITE_LENGTH =? CMSG_INDEFINITE_LENGTH) with true. cbv iota. change (1 + 1) with 2.
  rewrite (wrapU_small 32 (dec + 2)) by (unfold isU; lia). rewrite (wrapU_small 32 (cb - 2)) by (unfold isU; lia). done.
Qed.

(** inside of an encoding of indefinite length the loop moves past whole encodings *)
Definition skips (e : list Z) : Prop :=
  exists n, (n <= length e)%nat /\ forall fuel k cb levels dec, 1 <= levels -> zlen e <= cb < 2 ^ 31 -> 0 <= dec -> dec + zlen e < 2 ^ 31 ->
    find_end (n + fuel) (e ++ k) cb levels dec = find_end fuel k (cb - zlen e) levels (dec + zlen e).
Lemma end_skips fuel k cb levels dec : 2 <= levels -> 2 <= cb < 2 ^ 31 -> 0 <= dec < 2 ^ 31 ->
  find_end (S fuel) (0 :: 0 :: k) cb levels dec = find_end fuel k (cb - 2) (levels - 1) (dec + 2).
Proof.
  intros Hl Hcb Hd. change (0 :: 0 :: k) with (tlv 0 [] ++ k). rewrite find_end_tlv by (change (zlen (tlv 0 [])) with 2; change (zlen (@nil Z)) with 0; lia).
  change (zlen (@nil Z)) with 0. change (zlen (tlv 0 [])) with 2. simpl andb. cbv zeta. replace (levels =? 0) with false by lia. simpl negb. cbv iota.
  by replace (levels - 1 =? 0) with false by lia.
Qed.
Lemma nested_size tag body : zlen (tag :: 0x80 :: body ++ [0; 0]) = zlen body + 4.
Proof. rewrite !zlen_cons, zlen_app. change (zlen [0; 0]) with 2. lia. Qed.
Lemma ber_skips : (forall e, ber e -> skips e) /\ (forall b, bers b -> skips b).
Proof.
  apply ber_bers_ind.
  - intros tag c Ht. exists 1%nat. split; [unfold tlv; simpl; lia|]. intros fuel k cb levels dec Hl Hcb Hd Hdec. pose proof (tlv_size tag c). pose proof (zlen_nonneg (der_len (zlen c))).
    change (1 + fuel)%nat with (S fuel). rewrite find_end_tlv by lia. replace (tag =? 0) with false by lia. simpl andb. cbv zeta iota. by replace (levels =? 0) with false by lia.
  - intros tag body _ (n & Hn & IH). exists (S (n + 1)). split; [cbn [length]; rewrite length_app; simpl; lia|]. intros fuel k cb levels dec Hl Hcb Hd Hdec. rewrite nested_size in *.
    pose proof (zlen_nonneg body). cbn [app Nat.add]. rewrite find_end_indefinite by lia. rewrite <- app_assoc, <- Nat.add_assoc, IH by lia. cbn [app Nat.add]. rewrite end_skips by lia.
    f_equal; lia.
  - exists 0%nat. split; [done|]. intros fuel k cb levels dec Hl Hcb Hd Hdec. change (zlen (@nil Z)) with 0. simpl. by rewrite Z.sub_0_r, Z.add_0_r.
  - intros e b _ (n & Hn & IHe) _ (m & Hm & IHb). exists (n + m)%nat. split; [rewrite length_app; lia|]. intros fuel k cb levels dec Hl Hcb Hd Hdec. rewrite zlen_app in *.
    pose proof (zlen_nonneg e). pose proof (zlen_nonneg b). rewrite <- app_assoc, <- Nat.add_assoc, IHe, IHb by lia. f_equal; lia.
Qed.
(** CRYPT_FindEncodedLen returns the size of the encoding at the start of
    the memory, whatever follows it, for encodings of known length and for
    encodings of indefinite length that are nested to any depth; the loop ends
    within a round per byte. *)
Theorem FindEncodedLen_spec e k cb : ber e -> zlen e <= cb < 2 ^ 31 -> CRYPT_FindEncodedLen (e ++ k) cb = Ret (inr (zlen e)).
Proof.
  intros He Hcb. unfold CRYPT_FindEncodedLen. destruct He as [tag c Ht|tag body Hb].
  - pose proof (tlv_size tag c). pose proof (zlen_nonneg c). pose proof (zlen_nonneg (der_len (zlen c))). rewrite Nat.add_1_r, find_end_tlv by lia.
    replace (tag =? 0) with false by lia. done.
  - rewrite nested_size in *. destruct (proj2 ber_skips body Hb) as (n & Hn & IH). pose proof (zlen_nonneg body). cbn [app length]. rewrite !length_app. cbn [length].
    rewrite <- app_assoc. rewrite (Nat.add_comm _ 1). cbn [Nat.add]. rewrite find_end_indefinite by lia.
    replace (S (S (length body + 2 + length k))) with (n + S (length body - n + 3 + length k))%nat by lia. rewrite IH by lia. cbn [app].
    change (0 :: 0 :: k) with (tlv 0 [] ++ k). rewrite find_end_tlv by (change (zlen (tlv 0 [])) with 2; change (zlen (@nil Z)) with 0; lia).
    change (zlen (@nil Z)) with 0. change (zlen (tlv 0 [])) with 2. change (0 + 1) with 1. simpl andb. cbv iota zeta. change (1 - 1 =? 0) with true. cbv iota. cbn [obind].
    change (negb (1 - 1 =? 0)) with false. cbv iota. do 2 f_equal. lia.
Qed.
Lemma FindEncodedLen_spec_witness : CRYPT_FindEncodedLen [0x30; 0x80; 0x24; 0x80; 4; 1; 7; 0; 0; 5; 0; 0; 0; 9; 9] 15 = Ret (inr 13).
Proof.
  change [0x30; 0x80; 0x24; 0x80; 4; 1; 7; 0; 0; 5; 0; 0; 0; 9; 9] with ((0x30 :: 0x80 :: ((0x24 :: 0x80 :: (tlv 4 [7] ++ []) ++ [0; 0]) ++ tlv 5 [] ++ []) ++ [0; 0]) ++ [9; 9]).
  apply (FindEncodedLen_spec (0x30 :: 0x80 :: ((0x24 :: 0x80 :: (tlv 4 [7] ++ []) ++ [0; 0]) ++ tlv 5 [] ++ []) ++ [0; 0]) [9; 9] 15); [|done].
  apply ber_indefinite. apply (bers_cons (0x24 :: 0x80 :: (tlv 4 [7] ++ []) ++ [0; 0])).
  - apply ber_indefinite. apply bers_cons; [by apply ber_definite|apply bers_nil].
  - apply bers_cons; [by apply ber_definite|apply bers_nil].
Defined.

(** ** Round trips *)
Lemma content_unique v c c' : content_of v c -> content_of v c' -> c = c'.
Proof.
  intros (Hb & Hm & Hn & Hv) (Hb' & Hm' & Hn' & Hv'). assert (rev c = rev c') as E.
  { apply minimal_unique; rewrite ?rev_involutive; try done; try (by apply Forall_rev); [intros E; apply Hn|intros E; apply Hn'|by rewrite Hv, Hv'].
    all: rewrite <- (rev_involutive _), E; done. }
  by rewrite <- (rev_involutive c), E, rev_involutive.
Qed.
Lemma content_nonneg v c : content_of v c -> 0 <= v -> le_val (rev c) = v /\ le_val (rev (strip c)) = v.
Proof.
  intros (Hb & Hm & Hn & Hv) H0. destruct c as [|x c]; [done|]. cbn [rev] in Hv. apply Forall_cons_1 in Hb as [Hx Hb]. apply Forall_rev in Hb. apply le_val_range in Hb.
  assert (x < 128) as Hx'.
  { rewrite le_signed_snoc in Hv. unfold isU in Hx. change (2 ^ 8) with 256 in Hx. unfold sbyte in Hv. destruct (Z.ltb_spec x 128); [done|]. nia. }
  rewrite le_signed_pos in Hv by (unfold isU in Hx; lia). split; [done|]. destruct x; cbn [strip rev]; [|done|done]. rewrite le_val_app in Hv. unfold le_val at 2 in Hv. simpl foldr in Hv. lia.
Qed.
Lemma content_short v c : content_of v c -> isS 32 v -> zlen c <= 4.
Proof.
  intros (Hb & Hm & Hn & Hv) H. unfold isS in H. change (2 ^ (32 - 1)) with 2147483648 in H. destruct c as [|x [|y c]]; [done|done|]. rewrite !zlen_cons. destruct (decide (zlen c <= 2)); [lia|].
  cbn [rev] in Hv. apply Forall_rev in Hb. cbn [rev] in Hb. rewrite <- app_assoc in *. cbn [app] in *. apply minimal_bounds in Hb; [|by rewrite rev_involutive]. cbv zeta in Hb. rewrite Hv in Hb.
  assert (256 ^ 3 <= 256 ^ zlen (rev c)) by (apply Z.pow_le_mono_r; unfold zlen in *; rewrite ?length_rev; lia). change (256 ^ 3) with 16777216 in *. lia.
Qed.

(** C14: an integer blob, read as two's complement and with at least one byte
    that is not 0xff, is encoded as the only minimal DER content of its value;
    the decoder gives back a blob of that value.  The encoder promises the size,
    the bytes, the error for a buffer that is too small, and the allocation; the
    decoder likewise. *)
Theorem der_integer_roundtrip pfnAlloc (alloc_size : forall n m, pfnAlloc n = Some m -> zlen m = n) d k :
  bytes d -> d <> [] -> zlen d < 2 ^ 31 -> ~ Forall (eq 255) d -> exists c,
  content_of (le_signed d) c /\ (forall c', content_of (le_signed d) c' -> c' = c) /\
  Encoder pfnAlloc (CRYPT_AsnEncodeInteger pfnAlloc (mkBlob (zlen d) (d ++ k))) (tlv ASN_INTEGER c) /\
  forall k' cb, zlen (tlv ASN_INTEGER c) <= cb -> Decodes pfnAlloc (CRYPT_AsnDecodeInteger pfnAlloc (tlv ASN_INTEGER c ++ k') cb) sizeof_BLOB (zlen c + sizeof_BLOB)
    (fun area => mkBlob (zlen (rev c)) (rev c ++ drop (length c) area)).
Proof.
  intros Hd Hn Hl H1. destruct (integer_encode pfnAlloc alloc_size d k Hd Hn ltac:(lia) H1) as (c & Hc & Hz & He). exists c. conj; [done| |done|].
  - intros c' Hc'. by apply (content_unique (le_signed d)).
  - intros k' cb Hcb. replace (zlen (rev c)) with (zlen c) by (unfold zlen; by rewrite length_rev). apply integer_decode; [done|lia|done|done].
Qed.

(** memory that is always available *)
Definition zeros (n : Z) : option (list Z) := Some (replicate (Z.to_nat n) 0).
Definition alloc_zeros (n : Z) : option (list Z) := if n <? 0 then None else zeros n.
Lemma alloc_zeros_size n m : alloc_zeros n = Some m -> zlen m = n.
Proof. unfold alloc_zeros, zeros. destruct (Z.ltb_spec n 0); [done|]. intros [= <-]. unfold zlen. rewrite length_replicate. lia. Qed.

Lemma der_integer_roundtrip_witness : exists c, content_of (le_signed [0x34; 0x12; 0xff]) c /\
  Encoder alloc_zeros (CRYPT_AsnEncodeInteger alloc_zeros (mkBlob 3 [0x34; 0x12; 0xff])) (tlv ASN_INTEGER c).
Proof.
  destruct (der_integer_roundtrip alloc_zeros alloc_zeros_size [0x34; 0x12; 0xff] []) as (c & Hc & _ & He & _).
  - repeat constructor; done.
  - done.
  - done.
  - intros H. apply Forall_cons_1 in H as [H _]. done.
  - by exists c.
Defined.

Lemma int_bytes_bytes v : bytes (int_bytes v).
Proof. repeat constructor; apply wrapU_range; lia. Qed.
Lemma int_bytes_signed v : isS 32 v -> le_signed (int_bytes v) = v.
Proof.
  unfold isS. change (2 ^ (32 - 1)) with 2147483648. intros H. unfold int_bytes, wrapU. cbn [le_signed]. rewrite !Z.shiftr_div_pow2 by lia. unfold sbyte.
  change (2 ^ 8) with 256. change (2 ^ 16) with 65536. change (2 ^ 24) with 16777216. destruct (Z.ltb_spec ((v / 16777216) mod 256) 128); dlia.
Qed.
Lemma int_bytes_not_ones v : isS 32 v -> v <> -1 -> ~ Forall (eq 255) (int_bytes v).
Proof.
  intros Hv H1 H. apply H1. rewrite <- (int_bytes_signed v Hv). unfold int_bytes in *. repeat match goal with H : Forall _ (_ :: _) |- _ => apply Forall_cons_1 in H as [<- H] end. done.
Qed.
Lemma masked_idem u d : masked u (masked u d) = masked u d.
Proof. destruct d as [|b d _] using rev_ind; [done|]. by rewrite !masked_snoc, <- Z.land_assoc, Z.land_diag. Qed.

(** an int other than -1 and every unsigned int that is encoded (as INTEGER
    and as ENUMERATED) is what the decoder returns, into a given structure or
    into memory that it allocates; an unsigned integer blob comes back with the
    same value, without the sign byte. *)
Theorem der_values_roundtrip pfnAlloc (alloc_size : forall n m, pfnAlloc n = Some m -> zlen m = n) :
  (forall v, isS 32 v -> v <> -1 -> exists c, content_of v c /\ Encoder pfnAlloc (CRYPT_AsnEncodeInt pfnAlloc v) (tlv ASN_INTEGER c) /\
     forall k cb, zlen (tlv ASN_INTEGER c) <= cb -> Decodes pfnAlloc (CRYPT_AsnDecodeInt pfnAlloc (tlv ASN_INTEGER c ++ k) cb) 4 4 (fun _ => v)) /\
  (forall v, isU 32 v -> exists c, content_of v c /\ Encoder pfnAlloc (CRYPT_AsnEncodeEnumerated pfnAlloc v) (tlv ASN_ENUMERATED c) /\
     forall k cb, zlen (tlv ASN_ENUMERATED c) <= cb -> Decodes pfnAlloc (CRYPT_AsnDecodeEnumerated pfnAlloc (tlv ASN_ENUMERATED c ++ k) cb) 4 4 (fun _ => v)) /\
  (forall d k, bytes d -> d <> [] -> zlen d < 2 ^ 31 -> exists c, content_of (le_val d) c /\
     Encoder pfnAlloc (CRYPT_AsnEncodeUnsignedInteger pfnAlloc (mkBlob (zlen d) (d ++ k))) (tlv ASN_INTEGER c) /\ le_val (rev (strip c)) = le_val d /\
     forall k cb, zlen (tlv ASN_INTEGER c) <= cb -> Decodes pfnAlloc (CRYPT_AsnDecodeUnsignedInteger pfnAlloc (tlv ASN_INTEGER c ++ k) cb) sizeof_BLOB (zlen c + sizeof_BLOB)
       (fun area => mkBlob (zlen (strip c)) (rev (strip c) ++ drop (length (strip c)) (strip_area c area)))).
Proof.
  conj.
  - intros v Hv H1. pose proof Hv as Hv'. unfold isS in Hv'. change (2 ^ (32 - 1)) with 2147483648 in Hv'.
    destruct (integer_encode pfnAlloc alloc_size (int_bytes v) []) as (c & Hc & _ & He); [apply int_bytes_bytes|done|done|by apply int_bytes_not_ones|].
    rewrite int_bytes_signed in Hc by done. exists c. conj; [done|exact He|]. intros k cb Hcb. pose proof (content_short _ _ Hc Hv). pose proof Hc as (Hb & _ & Hn & <-).
    apply int_decode; done || lia.
  - intros v Hv. destruct (enumerated_encode pfnAlloc alloc_size v Hv) as (c & Hc & Hl & He). exists c. conj; [done|done|]. intros k cb Hcb. unfold isU in Hv.
    destruct (content_nonneg v c Hc ltac:(lia)) as [E _]. pose proof Hc as (Hb & _ & Hn & _). rewrite <- E. apply enumerated_decode; try done; lia.
  - intros d k Hd Hn Hl. destruct (unsigned_encode pfnAlloc alloc_size d k Hd Hn ltac:(lia)) as (c & Hc & Hz & He). exists c. conj; [done|done| |].
    + apply (content_nonneg (le_val d) c Hc). by apply le_val_range.
    + intros k' cb Hcb. apply unsigned_decode; done || lia.
Qed.
Lemma der_values_roundtrip_witness : exists c, content_of 0x1234 c /\ Encoder alloc_zeros (CRYPT_AsnEncodeInt alloc_zeros 0x1234) (tlv ASN_INTEGER c).
Proof.
  destruct (der_values_roundtrip alloc_zeros alloc_zeros_size) as [H _]. destruct (H 0x1234) as (c & Hc & He & _); [by split|done|]. by exists c.
Defined.

(** C15: octet strings come back as they were, and bit strings with fewer than
    eight unused bits come back with those bits cleared.  A bit string all of
    whose bits are unused is encoded as the empty one.  With eight unused bits or
    more and bits left, the encoder states u / 8 unused bits instead of the
    remainder of u, masks the last byte with them, and encodes (8n - u) / 8 + 1
    bytes, one too many when u is a multiple of eight.  The encoder of reversed
    bytes encodes the blob in reverse order; without memory for it, it fails and
    writes nothing. *)
Theorem der_strings_roundtrip pfnAlloc (alloc_size : forall n m, pfnAlloc n = Some m -> zlen m = n)
    CryptMemAlloc (mem_size : forall n m, CryptMemAlloc n = Some m -> zlen m = n) d k : zlen d < 2 ^ 29 ->
  (Encoder pfnAlloc (CRYPT_AsnEncodeOctets pfnAlloc (mkBlob (zlen d) (d ++ k))) (tlv ASN_OCTETSTRING d) /\
   forall k' cb, zlen (tlv ASN_OCTETSTRING d) <= cb -> Decodes pfnAlloc (CRYPT_AsnDecodeOctets pfnAlloc (tlv ASN_OCTETSTRING d ++ k') cb) sizeof_BLOB (zlen d + sizeof_BLOB)
     (fun area => mkBlob (zlen d) (d ++ drop (length d) area))) /\
  (forall u, let encode := CRYPT_AsnEncodeBits pfnAlloc (mkBits (mkBlob (zlen d) (d ++ k)) u) in
    (0 <= u < 8 -> d <> [] \/ u = 0 ->
     Encoder pfnAlloc encode (tlv ASN_BITSTRING (u :: masked u d)) /\
     forall k' cb, zlen (tlv ASN_BITSTRING (u :: masked u d)) <= cb ->
       Decodes pfnAlloc (CRYPT_AsnDecodeBits pfnAlloc (tlv ASN_BITSTRING (u :: masked u d) ++ k') cb) sizeof_BIT_BLOB (zlen d + sizeof_BIT_BLOB)
         (fun area => mkBits (mkBlob (zlen d) (masked u d ++ drop (length d) area)) u)) /\
    (0 < u -> zlen d * 8 <= u -> Encoder pfnAlloc encode (tlv ASN_BITSTRING [0])) /\
    (8 <= u < zlen d * 8 -> let v := u8 (u / 8) in
     Encoder pfnAlloc encode (tlv ASN_BITSTRING (v :: masked v (take (Z.to_nat ((zlen d * 8 - u) / 8 + 1)) d))))) /\
  forall u fl t cb, let swapped := CRYPT_AsnEncodeBitsSwapBytes pfnAlloc CryptMemAlloc (mkBits (mkBlob (zlen d) (d ++ k)) u) fl t cb in
    (d = [] \/ is_Some (CryptMemAlloc (zlen d)) -> swapped = CRYPT_AsnEncodeBits pfnAlloc (mkBits (mkBlob (zlen d) (rev d)) u) fl t cb) /\
    (d <> [] -> CryptMemAlloc (zlen d) = None -> swapped = Ret (false, 0, t, cb)).
Proof.
  intros Hl. conj.
  - apply octets_encode; [done|lia].
  - intros k' cb Hcb. apply octets_decode; done || lia.
  - intros u encode. conj; [intros Hu Hn; split; [by apply bits_encode|]|intros; by apply bits_encode_none|intros; by apply bits_encode_many].
    intros k' cb Hcb. pose proof (bits_decode pfnAlloc alloc_size ASN_BITSTRING (u :: masked u d) k' cb) as H. rewrite zlen_cons, zlen_masked in H. specialize (H ltac:(lia) Hcb u (masked u d) eq_refl eq_refl).
    by rewrite zlen_masked, length_masked, masked_idem in H.
  - intros u fl t cb swapped. split; [|intros; by apply bits_swap_no_memory].
    intros [->|[m Hm]]; [by apply (bits_swap_eq pfnAlloc CryptMemAlloc [] k u [] fl t cb); left|].
    apply (bits_swap_eq pfnAlloc CryptMemAlloc d k u m fl t cb). right. split; [done|by apply mem_size].
Qed.
Lemma der_strings_roundtrip_witness : CRYPT_AsnDecodeOctets alloc_zeros [4; 2; 7; 9] 4 0 (Area [0; 0]) 10 = Ret (true, 0, Some (mkBlob 2 [7; 9]), 10).
Proof.
  destruct (der_strings_roundtrip alloc_zeros alloc_zeros_size alloc_zeros alloc_zeros_size [7; 9] []) as [[_ H] _]; [done|].
  assert (HD := H [] 4 ltac:(vm_compute; discriminate)). destruct HD as [_ Ha _ _]. by apply (Ha 0 [0; 0] 10).
Defined.

(** C13: the encoders that combine others keep the interface: a sequence, a value
    in a context-specific tag, values that are encoded already, and a value with
    its tag replaced encode to the tag, the length and the contents of the parts
    in order, if the parts meet the interface. *)
Theorem der_combinators_encode pfnAlloc (alloc_size : forall n m, pfnAlloc n = Some m -> zlen m = n) :
  (forall items cs, Forall2 Encodes items cs -> zlen (concat cs) < 2 ^ 32 - 8 ->
     Encoder pfnAlloc (CRYPT_AsnEncodeSequence pfnAlloc items) (tlv ASN_SEQUENCE (concat cs))) /\
  (forall tag f c, Encodes f c -> zlen c < 2 ^ 32 - 8 ->
     Encoder pfnAlloc (CRYPT_AsnEncodeConstructed pfnAlloc tag f) (tlv (Z.lor (Z.lor ASN_CONTEXT ASN_CONSTRUCTOR) tag) c)) /\
  (forall vals cs, Forall2 value_of vals cs -> zlen (concat cs) < 2 ^ 32 - 8 ->
     Encoder pfnAlloc (CRYPT_AsnEncodeSequenceOfAny pfnAlloc vals) (tlv ASN_SEQUENCEOF (concat cs))) /\
  (forall tag tag' f c, Encodes f (tlv tag' c) -> Encodes (CRYPT_AsnEncodeSwapTag tag f) (tlv tag c)).
Proof.
  conj.
  - intros. by apply sequence_encode.
  - intros. by apply constructed_encode.
  - intros. by apply sequence_of_any_encode.
  - intros tag tag' f c H. unfold tlv in *. by apply (swap_tag_encodes f tag').
Qed.
Lemma der_combinators_encode_witness :
  CRYPT_AsnEncodeSequence alloc_zeros [CRYPT_AsnEncodeBool 1; CRYPT_AsnEncodeConstructed alloc_zeros 2 (CRYPT_AsnEncodeOctets alloc_zeros (mkBlob 1 [7]))] 0 (Buffer (replicate 12 0)) 12 =
    Ret (true, 0, Buffer [0x30; 8; 1; 1; 0xff; 0xa2; 3; 4; 1; 7; 0; 0], 10).
Proof.
  destruct (der_combinators_encode alloc_zeros alloc_zeros_size) as (Hs & Hc & _).
  destruct (Hs [CRYPT_AsnEncodeBool 1; CRYPT_AsnEncodeConstructed alloc_zeros 2 (CRYPT_AsnEncodeOctets alloc_zeros (mkBlob 1 [7]))] [[1; 1; 0xff]; [0xa2; 3; 4; 1; 7]]) as [[_ H _] _].
  - constructor; [exact (bool_encode 1)|constructor; [|constructor]]. destruct (octets_encode alloc_zeros alloc_zeros_size [7] [] ltac:(done)) as [Ho _].
    by destruct (Hc 2 _ _ Ho ltac:(done)) as [He _].
  - done.
  - exact (H 0 (replicate 12 0) 12 eq_refl ltac:(done) ltac:(done)).
Defined.

(** ** Errors *)

(** one byte of the data is missing *)
Lemma GetLen_truncated tag data : zlen data < 127 -> CRYPT_GetLen (tag :: zlen data + 1 :: data) (zlen data + 2) = Ret (inr (zlen data + 1)).
Proof.
  intros H. pose proof (zlen_nonneg data). unfold CRYPT_GetLen, CRYPT_GetLengthIndefinite. replace (zlen data + 2 <=? 1) with false by lia.
  change (rd (tag :: zlen data + 1 :: data) 1) with (Ret (zlen data + 1)). cbn [obind]. replace (zlen data + 1 <=? 127) with true by lia.
  replace (zlen data + 2 <? zlen data + 1 + 1) with false by lia. cbn [obind]. unfold CMSG_INDEFINITE_LENGTH. by replace (zlen data + 1 =? 4294967295) with false by lia.
Qed.
(** the check of a length does not count the byte of the tag: an octet
    string whose last byte is missing is accepted, and the copy reads past the
    end of the encoding; an encoding of indefinite length whose last part lacks
    a byte makes CRYPT_FindEncodedLen go on behind its end, where a length can
    keep it from ever ending. *)
Theorem der_truncated_accepted pfnAlloc :
  (forall data fl area pcb, zlen data < 127 -> nocopy fl = false -> alloc_flag fl = false -> zlen data + 9 <= pcb ->
     CRYPT_AsnDecodeOctets pfnAlloc (ASN_OCTETSTRING :: zlen data + 1 :: data) (zlen data + 2) fl (Area area) pcb = Fault) /\
  (forall x tag fuel, tag <> 0 -> find_end fuel [0x30; 0x80; 4; 1; x; tag; 0x84; 0xff; 0xff; 0xff; 0xfa] 4 0 0 = Spin).
Proof.
  split.
  - intros data fl area pcb Hl Hn Ha Hp. pose proof (zlen_nonneg data). unfold CRYPT_AsnDecodeOctets. replace (zlen data + 2 =? 0) with false by lia.
    change (rd (ASN_OCTETSTRING :: _) 0) with (Ret ASN_OCTETSTRING). cbn [obind]. rewrite Z.eqb_refl. simpl negb. cbv iota. unfold decode_with, CRYPT_AsnDecodeOctetsInternal.
    rewrite GetLen_truncated by done. change (rd (ASN_OCTETSTRING :: zlen data + 1 :: data) 1) with (Ret (zlen data + 1)). cbn [obind]. rewrite nocopy_no_alloc, Hn.
    unfold CRYPT_DecodeEnsureSpace, sizeof_BLOB. rewrite Ha. replace (zlen data + 1 + 8) with (zlen data + 9) by lia. rewrite wrapU_small by (unfold isU; lia). replace (pcb <? zlen data + 9) with false by lia. cbn [obind].
    replace (zlen data + 9 <? zlen data + 9) with false by lia. unfold GET_LEN_BYTES. replace (zlen data + 1 <=? 128) with true by lia. replace (zlen data + 1 =? 0) with false by lia. simpl negb. cbv iota.
    unfold data_at. rewrite !zlen_cons. replace (zlen data + 1 + 1 <? 1 + 1) with false by lia. change (drop (Z.to_nat (1 + 1)) (ASN_OCTETSTRING :: zlen data + 1 :: data)) with data.
    unfold read_bytes. by replace ((0 <=? zlen data + 1) && (zlen data + 1 <=? zlen data)) with false by lia.
  - intros x tag fuel Ht. assert (E : forall n levels dec, levels <> 0 -> find_end n [tag; 0x84; 0xff; 0xff; 0xff; 0xfa] 0xffffffff levels dec = Spin).
    { induction n as [|n IH]; intros levels dec Hl; [done|]. cbn [find_end]. change (0xffffffff =? 0) with false. cbv iota.
      change (CRYPT_GetLengthIndefinite [tag; 0x84; 0xff; 0xff; 0xff; 0xfa] 0xffffffff) with (@Ret (Z + Z) (inr 0xfffffffa)). cbn [obind].
      change (rd [tag; 0x84; 0xff; 0xff; 0xff; 0xfa] 1) with (Ret 0x84). change (rd [tag; 0x84; 0xff; 0xff; 0xff; 0xfa] 0) with (Ret tag). cbn [obind].
      change (0xfffffffa =? CMSG_INDEFINITE_LENGTH) with false. cbv iota. replace (tag =? 0) with false by lia. simpl andb. cbv iota. replace (levels =? 0) with false by lia.
      change (u32 (1 + GET_LEN_BYTES 0x84 + 0xfffffffa)) with 0. change (drop (Z.to_nat 0) ?l) with l. change (u32 (0xffffffff - 0)) with 0xffffffff. by apply IH. }
    destruct fuel as [|[|fuel]]; [done|done|]. exact (E fuel 1 5 ltac:(done)).
Qed.
Lemma der_truncated_accepted_witness : CRYPT_AsnDecodeOctets alloc_zeros [4; 2; 9] 3 0 (Area [0; 0]) 10 = Fault.
Proof. destruct (der_truncated_accepted alloc_zeros) as [H _]. exact (H [9] 0 [0; 0] 10 ltac:(done) eq_refl eq_refl ltac:(done)). Defined.

(** the int -1: every byte is dropped, and the byte before the blob is read *)
Theorem der_minus_one_faults pfnAlloc fl t cb : CRYPT_AsnEncodeInt pfnAlloc (-1) fl t cb = Fault.
Proof. done. Qed.
(** two bytes of which eight bits are not used: both bytes are encoded, and only
    one bit is said to be unused *)
Theorem der_bits_unused_wrong pfnAlloc b0 b1 :
  CRYPT_AsnEncodeBits pfnAlloc (mkBits (mkBlob 2 [b0; b1]) 8) 0 (Buffer [0; 0; 0; 0; 0]) 5 = Ret (true, 0, Buffer [ASN_BITSTRING; 3; 1; b0; Z.land b1 0xfe], 5).
Proof. reflexivity. Qed.
(** the flag for allocation is not looked at: the pointer itself is overwritten *)
Theorem der_bool_alloc_faults v fl p cb : 3 <= cb -> CRYPT_AsnEncodeBool v fl (Pointer p) cb = Fault.
Proof. intros H. unfold CRYPT_AsnEncodeBool. simpl is_null. cbv iota. by replace (cb <? 3) with false by lia. Qed.
End DerDecodeSpec.
