(* ===== verification/CodePage.v ===== *)
(** * Code pages (libs/unicode/wctomb.c, mbtowc.c, cptable.c, dlls/ntdll/codepage.c)

    Conversions between Unicode and single- and double-byte code pages, and the
    calls WideCharToMultiByte and MultiByteToWideChar that choose between them
    and UTF-8.  The generated tables are data: the tables of a code page are a
    record, the tables of compositions and decompositions are parameters.  A
    source pointer is the list of the elements from it on; [char] is signed.
    Lengths are not negative, the -1 of the calls apart, and a source is not
    NULL; last errors and traces are not modelled. *)
From S2P Require Import Prelude Utf8.
Import Utf8.

Module CodePage.

Definition WC_DISCARDNS : Z := 0x10.
Definition WC_DEFAULTCHAR : Z := 0x40.
Definition WC_COMPOSITECHECK : Z := 0x200.
Definition WC_NO_BEST_FIT_CHARS : Z := 0x400.
Definition MB_COMPOSITE : Z := 2.
Definition MB_USEGLYPHCHARS : Z := 4.
Definition CP_ACP : Z := 0.
Definition CP_OEMCP : Z := 1.
Definition CP_MACCP : Z := 2.
Definition CP_THREAD_ACP : Z := 3.
Definition CP_UTF7 : Z := 65000.
Definition CP_UTF8 : Z := 65001.
Definition CP_UNIXCP : Z := 65010.

Record cp_info := mkInfo { codepage : Z; char_size : Z; def_char : Z; def_unicode_char : Z }.
Record sbcs_table := mkSbcs {
  s_info : cp_info; s_cp2uni : list Z; s_cp2uni_glyphs : list Z; s_uni2cp_low : list Z; s_uni2cp_high : list Z }.
Record dbcs_table := mkDbcs {
  d_info : cp_info; d_cp2uni : list Z; d_leadbytes : list Z; d_uni2cp_low : list Z; d_uni2cp_high : list Z; lead_bytes : list Z }.
(** the union, told apart by char_size *)
Inductive cptable := Sbcs (t : sbcs_table) | Dbcs (t : dbcs_table).
Definition info (t : cptable) : cp_info := match t with Sbcs t => s_info t | Dbcs t => d_info t end.

(** [uni2cp_low[uni2cp_high[w >> 8] + (w & 0xff)]] *)
Definition uni2cp (low high : list Z) (w : Z) : outcome Z :=
  let! h := rd high (Z.shiftr w 8) in
  rd low (h + Z.land w 0xff).

(** ** From Unicode (wctomb.c) *)
Section FromUnicode.
Context (unicode_compose_table : list Z).

Fixpoint binary_search (fuel : nat) (ch low high : Z) : outcome Z :=
  match fuel with
  | O => Spin
  | S fuel =>
    if low <=? high then
      let pos := Z.quot (low + high) 2 in
      let! c := rd unicode_compose_table (2 * pos) in
      if c <? ch then binary_search fuel ch (pos + 1) high
      else if ch <? c then binary_search fuel ch low (pos - 1)
      else Ret pos
    else Ret (-1)
  end.
Definition search_fuel : nat := S (length unicode_compose_table).
(** the two rounds of the loop: the second character, then the first *)
Definition compose (str : list Z) (size : Z) : outcome Z :=
  let! c1 := rd str 1 in
  let! pos := binary_search search_fuel c1 0 (size - 1) in
  if pos =? -1 then Ret 0 else
  let! low := rd unicode_compose_table (2 * pos + 1) in
  let! next := rd unicode_compose_table (2 * pos + 3) in
  let! c0 := rd str 0 in
  let! pos := binary_search search_fuel c0 low (next - 1) in
  if pos =? -1 then Ret 0 else rd unicode_compose_table (2 * pos + 1).

Context (unicode_compose_table_size : Z).

(** the composition of the next two characters, when it is asked for *)
Definition composed_of (flags : Z) (src : list Z) (srclen : nat) : outcome Z :=
  if has_flag flags WC_COMPOSITECHECK && (1 <? srclen)%nat then compose src unicode_compose_table_size else Ret 0.

(** one round of the loops that handle the flags: the character of the code
    page, whether a second source character is skipped, and *used *)
Definition next_char (lookup : Z -> outcome Z) (valid : Z -> Z -> outcome bool) (def : Z) (flags : Z) (src : list Z) (srclen : nat)
    (used : bool) : outcome (Z * bool * bool) :=
  let! wch := rd src 0 in
  let! composed := composed_of flags src srclen in
  let plain (two : bool) :=
    let! res := lookup wch in
    let! ok := valid wch res in
    if (ok : bool) then Ret (res, two, used) else Ret (def, two, true) in
  if negb (composed =? 0) then
    let! res := lookup composed in
    let! ok := valid composed res in
    if (ok : bool) then Ret (res, true, used)
    else if has_flag flags WC_DEFAULTCHAR then Ret (def, true, true)
    else plain (has_flag flags WC_DISCARDNS)
  else plain false.

(** *** Single-byte code pages *)
Section Sbcs.
Context (t : sbcs_table).
Definition sbcs_char (w : Z) : outcome Z := uni2cp (s_uni2cp_low t) (s_uni2cp_high t) w.
Definition is_valid_sbcs_mapping (flags wch ch : Z) : outcome bool :=
  if has_flag flags WC_NO_BEST_FIT_CHARS then let! c := rd (s_cp2uni t) ch in Ret (c =? wch)
  else if negb (ch =? u8 (def_char (s_info t))) then Ret true
  else Ret (wch =? def_unicode_char (s_info t)).

(** when *used is set already nothing is looked up for a single character *)
Definition next_used (flags : Z) (src : list Z) (srclen : nat) (used : bool) : outcome (bool * bool) :=
  let! wch := rd src 0 in
  let! composed := composed_of flags src srclen in
  let plain (two : bool) :=
    if used then Ret (two, used) else
    let! ch := sbcs_char wch in
    let! ok := is_valid_sbcs_mapping flags wch ch in
    Ret (two, negb ok) in
  if negb (composed =? 0) then
    let! ch := sbcs_char composed in
    let! ok := is_valid_sbcs_mapping flags composed ch in
    if (ok : bool) then Ret (true, used)
    else if has_flag flags WC_DEFAULTCHAR then Ret (true, true)
    else plain (has_flag flags WC_DISCARDNS)
  else plain false.
Fixpoint length_sbcs_loop (flags : Z) (src : list Z) (srclen : nat) (ret : Z) (used : bool) : outcome (Z * bool) :=
  match srclen with
  | O => Ret (ret, used)
  | S n =>
    let! (two, used) := next_used flags src srclen used in
    if (two : bool) then
      match n with O => Fault | S n => length_sbcs_loop flags (drop 2 src) n (ret + 1) used end
    else length_sbcs_loop flags (drop 1 src) n (ret + 1) used
  end.
Definition get_length_sbcs (flags : Z) (src : list Z) (srclen : Z) : outcome (Z * bool) :=
  length_sbcs_loop flags src (Z.to_nat srclen) 0 false.

(** [n] stores in a row, from the offset [i] of the source and of the destination *)
Fixpoint put_row (n : nat) (src : list Z) (i : Z) (dst : list Z) : outcome (list Z) :=
  match n with
  | O => Ret dst
  | S n =>
    let! w := rd src i in
    let! c := sbcs_char w in
    let! dst := wr dst i c in
    put_row n src (i + 1) dst
  end.
(** rounds of sixteen, then the rest *)
Fixpoint put_rows (fuel : nat) (src : list Z) (i srclen : Z) (dst : list Z) : outcome (list Z) :=
  match fuel with
  | O => Spin
  | S fuel =>
    if 16 <=? srclen then
      let! dst := put_row 16 src i dst in
      put_rows fuel src (i + 16) (srclen - 16) dst
    else put_row (Z.to_nat srclen) src i dst
  end.
Definition wcstombs_sbcs (src : list Z) (srclen : Z) (dst : list Z) (dstlen : Z) : outcome (Z * list Z) :=
  let ret := if dstlen <? srclen then -1 else srclen in
  let srclen := if dstlen <? srclen then dstlen else srclen in
  let! dst := put_rows (S (Z.to_nat srclen)) src 0 srclen dst in
  Ret (ret, dst).

(** [len] is the room left; the number of source characters that remain decides
    the result *)
Fixpoint sbcs_slow_loop (def flags : Z) (src : list Z) (srclen : nat) (dst : list Z) (di len : Z) (used : bool) :
    outcome (bool * list Z * Z * bool) :=
  match srclen with
  | O => Ret (true, dst, len, used)
  | S n =>
    if len =? 0 then Ret (false, dst, len, used) else
    let! (c, two, used) := next_char sbcs_char (is_valid_sbcs_mapping flags) def flags src srclen used in
    let! dst := wr dst di c in
    if (two : bool) then
      match n with O => Fault | S n => sbcs_slow_loop def flags (drop 2 src) n dst (di + 1) (len - 1) used end
    else sbcs_slow_loop def flags (drop 1 src) n dst (di + 1) (len - 1) used
  end.
Definition sbcs_def (defchar : option (list Z)) : outcome Z :=
  match defchar with
  | None => Ret (Z.land (def_char (s_info t)) 0xff)
  | Some d => let! c := rd d 0 in Ret (u8 c)
  end.
Definition wcstombs_sbcs_slow (flags : Z) (src : list Z) (srclen : Z) (dst : list Z) (dstlen : Z) (defchar : option (list Z)) :
    outcome (Z * list Z * bool) :=
  let! def := sbcs_def defchar in
  let! (all, dst, len, used) := sbcs_slow_loop def flags src (Z.to_nat srclen) dst 0 dstlen false in
  Ret (if (all : bool) then dstlen - len else -1, dst, used).
End Sbcs.

(** *** Double-byte code pages *)
Section Dbcs.
Context (t : dbcs_table).
Definition dbcs_char (w : Z) : outcome Z := uni2cp (d_uni2cp_low t) (d_uni2cp_high t) w.
Definition is_double (c : Z) : bool := negb (Z.land c 0xff00 =? 0).
Definition is_valid_dbcs_mapping (flags wch ch : Z) : outcome bool :=
  if (ch =? def_char (d_info t)) && negb (wch =? def_unicode_char (d_info t)) then Ret false
  else if has_flag flags WC_NO_BEST_FIT_CHARS then
    if is_double ch then
      let! off := rd (d_leadbytes t) (Z.shiftr ch 8) in
      let! c := rd (d_cp2uni t) (Z.shiftl off 8 + Z.land ch 0xff) in
      Ret (c =? wch)
    else let! c := rd (d_cp2uni t) (Z.land ch 0xff) in Ret (c =? wch)
  else Ret true.
(** [char] is signed: [s8] of the bytes of the caller's default character *)
Definition dbcs_def (defchar : option (list Z)) : outcome Z :=
  match defchar with
  | None => Ret (def_char (d_info t))
  | Some d =>
    let! c1 := rd d 1 in
    let! c0 := rd d 0 in
    Ret (u16 (if negb (c1 =? 0) then Z.lor (Z.shiftl (s8 c0) 8) (s8 c1) else s8 c0))
  end.

Fixpoint length_plain (src : list Z) (srclen : nat) (len : Z) : outcome Z :=
  match srclen with
  | O => Ret len
  | S n =>
    let! w := rd src 0 in
    let! c := dbcs_char w in
    length_plain (drop 1 src) n (len + (if is_double c then 2 else 1))
  end.
Fixpoint length_dbcs_loop (def flags : Z) (src : list Z) (srclen : nat) (len : Z) (used : bool) : outcome (Z * bool) :=
  match srclen with
  | O => Ret (len, used)
  | S n =>
    let! (c, two, used) := next_char dbcs_char (is_valid_dbcs_mapping flags) def flags src srclen used in
    let len := len + (if is_double c then 2 else 1) in
    if (two : bool) then
      match n with O => Fault | S n => length_dbcs_loop def flags (drop 2 src) n len used end
    else length_dbcs_loop def flags (drop 1 src) n len used
  end.
(** [want_used]: the caller passes a pointer for *used *)
Definition get_length_dbcs (flags : Z) (src : list Z) (srclen : Z) (defchar : option (list Z)) (want_used : bool) : outcome (Z * bool) :=
  if negb (bool_decide (is_Some defchar)) && negb want_used && negb (has_flag flags WC_COMPOSITECHECK) then
    let! len := length_plain src (Z.to_nat srclen) 0 in Ret (len, false)
  else
    let! def := dbcs_def defchar in
    length_dbcs_loop def flags src (Z.to_nat srclen) 0 false.

(** a character of one or two bytes; [None] when the second byte does not fit *)
Definition put_char (c : Z) (dst : list Z) (di len : Z) : outcome (option (list Z * Z * Z)) :=
  if is_double c then
    if len =? 1 then Ret None else
    let! dst := wr dst di (Z.shiftr c 8) in
    let! dst := wr dst (di + 1) (u8 c) in
    Ret (Some (dst, di + 2, len - 2))
  else let! dst := wr dst di (u8 c) in Ret (Some (dst, di + 1, len - 1)).
Fixpoint dbcs_loop (src : list Z) (srclen : nat) (dst : list Z) (di len : Z) : outcome (bool * list Z * Z) :=
  match srclen with
  | O => Ret (true, dst, len)
  | S n =>
    if len =? 0 then Ret (false, dst, len) else
    let! w := rd src 0 in
    let! c := dbcs_char w in
    let! r := put_char c dst di len in
    match r with
    | None => Ret (false, dst, len)
    | Some (dst, di, len) => dbcs_loop (drop 1 src) n dst di len
    end
  end.
Definition wcstombs_dbcs (src : list Z) (srclen : Z) (dst : list Z) (dstlen : Z) : outcome (Z * list Z) :=
  let! (all, dst, len) := dbcs_loop src (Z.to_nat srclen) dst 0 dstlen in
  Ret (if (all : bool) then dstlen - len else -1, dst).
Fixpoint dbcs_slow_loop (def flags : Z) (src : list Z) (srclen : nat) (dst : list Z) (di len : Z) (used : bool) :
    outcome (bool * list Z * Z * bool) :=
  match srclen with
  | O => Ret (true, dst, len, used)
  | S n =>
    if len =? 0 then Ret (false, dst, len, used) else
    let! (c, two, used) := next_char dbcs_char (is_valid_dbcs_mapping flags) def flags src srclen used in
    let! r := put_char c dst di len in
    match r with
    | None => Ret (false, dst, len, used)
    | Some (dst, di, len) =>
      if (two : bool) then
        match n with O => Fault | S n => dbcs_slow_loop def flags (drop 2 src) n dst di len used end
      else dbcs_slow_loop def flags (drop 1 src) n dst di len used
    end
  end.
Definition wcstombs_dbcs_slow (flags : Z) (src : list Z) (srclen : Z) (dst : list Z) (dstlen : Z) (defchar : option (list Z)) :
    outcome (Z * list Z * bool) :=
  let! def := dbcs_def defchar in
  let! (all, dst, len, used) := dbcs_slow_loop def flags src (Z.to_nat srclen) dst 0 dstlen false in
  Ret (if (all : bool) then dstlen - len else -1, dst, used).
End Dbcs.

(** the result, the destination and *used ([None]: not stored) *)
Definition wine_cp_wcstombs (t : cptable) (flags : Z) (src : list Z) (srclen : Z) (dst : list Z) (dstlen : Z)
    (defchar : option (list Z)) (want_used : bool) : outcome (Z * list Z * option bool) :=
  let slow := negb (flags =? 0) || bool_decide (is_Some defchar) || want_used in
  match t with
  | Sbcs t =>
    if slow then
      if dstlen =? 0 then let! (n, used) := get_length_sbcs t flags src srclen in Ret (n, dst, Some used)
      else let! (n, dst, used) := wcstombs_sbcs_slow t flags src srclen dst dstlen defchar in Ret (n, dst, Some used)
    else if dstlen =? 0 then Ret (srclen, dst, None)
    else let! (n, dst) := wcstombs_sbcs t src srclen dst dstlen in Ret (n, dst, None)
  | Dbcs t =>
    if dstlen =? 0 then let! (n, used) := get_length_dbcs t flags src srclen defchar want_used in Ret (n, dst, Some used)
    else if slow then let! (n, dst, used) := wcstombs_dbcs_slow t flags src srclen dst dstlen defchar in Ret (n, dst, Some used)
    else let! (n, dst) := wcstombs_dbcs t src srclen dst dstlen in Ret (n, dst, None)
  end.
End FromUnicode.

(** CP_SYMBOL *)
Fixpoint symbol_out (n : nat) (src : list Z) (i : Z) (dst : list Z) : outcome (bool * list Z) :=
  match n with
  | O => Ret (true, dst)
  | S n =>
    let! w := rd src i in
    if w <? 0x20 then let! dst := wr dst i w in symbol_out n src (i + 1) dst
    else if (0xf020 <=? w) && (w <? 0xf100) then let! dst := wr dst i (w - 0xf000) in symbol_out n src (i + 1) dst
    else Ret (false, dst)
  end.
Definition wine_cpsymbol_wcstombs (src : list Z) (srclen : Z) (dst : list Z) (dstlen : Z) : outcome (Z * list Z) :=
  if dstlen =? 0 then Ret (srclen, dst) else
  let len := if srclen <? dstlen then srclen else dstlen in
  let! (ok, dst) := symbol_out (Z.to_nat len) src 0 dst in
  Ret (if (ok : bool) then if len <? srclen then -1 else len else -2, dst).

(** ** To Unicode (mbtowc.c) *)
Section ToUnicode.
Context (unicode_decompose_table : list Z).

(** the number of characters, 0 when they do not fit, and the destination from
    the offset [di] on *)
Fixpoint get_decomposition (dstlen : nat) (src : Z) (dst : list Z) (di : Z) : outcome (Z * list Z) :=
  let! dst := wr dst di src in
  let! p := rd unicode_decompose_table (Z.shiftr src 8) in
  let! p := rd unicode_decompose_table (p + Z.land (Z.shiftr src 4) 0xf) in
  let ptr := p + 2 * Z.land src 0xf in
  let! c0 := rd unicode_decompose_table ptr in
  if c0 =? 0 then Ret (1, dst) else
  match dstlen with
  | S (S _ as n) =>
    let! (res, dst) := get_decomposition n c0 dst di in
    if negb (res =? 0) then
      let! c1 := rd unicode_decompose_table (ptr + 1) in
      let! dst := wr dst (di + res) c1 in
      Ret (res + 1, dst)
    else Ret (0, dst)
  | _ => Ret (0, dst)
  end.

Definition sbcs_map (t : sbcs_table) (flags : Z) : list Z := if has_flag flags MB_USEGLYPHCHARS then s_cp2uni_glyphs t else s_cp2uni t.
(** the number of bytes that remain at the first invalid one *)
Fixpoint check_invalid_chars_sbcs (t : sbcs_table) (flags : Z) (src : list Z) (srclen : nat) : outcome Z :=
  match srclen with
  | O => Ret 0
  | S n =>
    let! b := rd src 0 in
    let! w := rd (sbcs_map t flags) b in
    if (w =? def_unicode_char (s_info t)) && negb (b =? def_char (s_info t)) then Ret (Z.of_nat srclen)
    else check_invalid_chars_sbcs t flags (drop 1 src) n
  end.
(** [n] stores, the last one first *)
Fixpoint get_row (n : nat) (map : list Z) (src : list Z) (i : Z) (dst : list Z) : outcome (list Z) :=
  match n with
  | O => Ret dst
  | S n =>
    let! b := rd src (i + Z.of_nat n) in
    let! w := rd map b in
    let! dst := wr dst (i + Z.of_nat n) w in
    get_row n map src i dst
  end.
Fixpoint get_rows (fuel : nat) (map : list Z) (src : list Z) (i srclen : Z) (dst : list Z) : outcome (list Z) :=
  match fuel with
  | O => Spin
  | S fuel =>
    let! dst := get_row (Z.to_nat (Z.min srclen 16)) map src i dst in
    if srclen <? 16 then Ret dst else get_rows fuel map src (i + 16) (srclen - 16) dst
  end.
Definition mbstowcs_sbcs (t : sbcs_table) (flags : Z) (src : list Z) (srclen : Z) (dst : list Z) (dstlen : Z) : outcome (Z * list Z) :=
  let ret := if dstlen <? srclen then -1 else srclen in
  let srclen := if dstlen <? srclen then dstlen else srclen in
  let! dst := get_rows (S (Z.to_nat srclen)) (sbcs_map t flags) src 0 srclen dst in
  Ret (ret, dst).

(** the loops with decomposition are those of both kinds of code page: [next]
    gives the character and the number of bytes it has, [None] for a partial
    character at the end *)
Definition next_sbcs (map : list Z) (src : list Z) (srclen : nat) : outcome (option (Z * bool)) :=
  let! b := rd src 0 in
  let! w := rd map b in
  Ret (Some (w, false)).
Definition next_dbcs (t : dbcs_table) (src : list Z) (srclen : nat) : outcome (option (Z * bool)) :=
  let! b := rd src 0 in
  let! off := rd (d_leadbytes t) b in
  if negb (off =? 0) then
    if (srclen =? 1)%nat then Ret None else
    let! c := rd src 1 in
    let! w := rd (d_cp2uni t) (Z.shiftl off 8 + c) in
    Ret (Some (w, true))
  else let! w := rd (d_cp2uni t) b in Ret (Some (w, false)).
Section Decompose.
Context (next : list Z -> nat -> outcome (option (Z * bool))).
Fixpoint decompose_length (src : list Z) (srclen : nat) (len : Z) : outcome Z :=
  match srclen with
  | O => Ret len
  | S n =>
    let! r := next src srclen in
    match r with
    | None => Ret len
    | Some (ch, two) =>
      let! (res, _) := get_decomposition 4 ch [0; 0; 0; 0] 0 in
      if (two : bool) then
        match n with O => Fault | S n => decompose_length (drop 2 src) n (len + res) end
      else decompose_length (drop 1 src) n (len + res)
    end
  end.
Fixpoint decompose_loop (src : list Z) (srclen : nat) (dst : list Z) (di len : Z) : outcome (bool * list Z * Z) :=
  match srclen with
  | O => Ret (true, dst, len)
  | S n =>
    if len =? 0 then Ret (false, dst, len) else
    let! r := next src srclen in
    match r with
    | None => Ret (true, dst, len)
    | Some (ch, two) =>
      let! (res, dst) := get_decomposition (Z.to_nat len) ch dst di in
      if res =? 0 then Ret (false, dst, len)
      else if (two : bool) then
        match n with O => Fault | S n => decompose_loop (drop 2 src) n dst (di + res) (len - res) end
      else decompose_loop (drop 1 src) n dst (di + res) (len - res)
    end
  end.
Definition decompose (src : list Z) (srclen : Z) (dst : list Z) (dstlen : Z) : outcome (Z * list Z) :=
  if dstlen =? 0 then let! len := decompose_length src (Z.to_nat srclen) 0 in Ret (len, dst)
  else
    let! (all, dst, len) := decompose_loop src (Z.to_nat srclen) dst 0 dstlen in
    Ret (if (all : bool) then dstlen - len else -1, dst).
End Decompose.
Definition mbstowcs_sbcs_decompose (t : sbcs_table) (flags : Z) : list Z -> Z -> list Z -> Z -> outcome (Z * list Z) :=
  decompose (next_sbcs (sbcs_map t flags)).
Definition mbstowcs_dbcs_decompose (t : dbcs_table) : list Z -> Z -> list Z -> Z -> outcome (Z * list Z) :=
  decompose (next_dbcs t).

(** a byte at the end that leads nothing is ignored *)
Fixpoint dbcs_length_loop (t : dbcs_table) (src : list Z) (srclen : nat) (len : Z) : outcome Z :=
  match srclen with
  | O => Ret len
  | S n =>
    let! b := rd src 0 in
    let! off := rd (d_leadbytes t) b in
    if negb (off =? 0) then
      match n with
      | O => Ret len
      | S n => dbcs_length_loop t (drop 2 src) n (len + 1)
      end
    else dbcs_length_loop t (drop 1 src) n (len + 1)
  end.
Definition get_length_mbs_dbcs (t : dbcs_table) (src : list Z) (srclen : Z) : outcome Z := dbcs_length_loop t src (Z.to_nat srclen) 0.
Fixpoint check_invalid_chars_dbcs (t : dbcs_table) (src : list Z) (srclen : nat) : outcome Z :=
  match srclen with
  | O => Ret 0
  | S n =>
    let! b := rd src 0 in
    let! off := rd (d_leadbytes t) b in
    if negb (off =? 0) then
      match n with
      | O => Ret (Z.of_nat srclen)
      | S n =>
        let! c := rd src 1 in
        let! w := rd (d_cp2uni t) (Z.shiftl off 8 + c) in
        if (w =? def_unicode_char (d_info t)) && negb (Z.lor (Z.shiftl b 8) c =? def_char (d_info t)) then Ret (Z.of_nat srclen)
        else check_invalid_chars_dbcs t (drop 2 src) n
      end
    else
      let! w := rd (d_cp2uni t) b in
      if (w =? def_unicode_char (d_info t)) && negb (b =? def_char (d_info t)) then Ret (Z.of_nat srclen)
      else check_invalid_chars_dbcs t (drop 1 src) n
  end.
Fixpoint mbs_dbcs_loop (t : dbcs_table) (src : list Z) (srclen : nat) (dst : list Z) (di len : Z) : outcome (bool * list Z * Z) :=
  match srclen with
  | O => Ret (true, dst, len)
  | S n =>
    if len =? 0 then Ret (false, dst, len) else
    let! b := rd src 0 in
    let! off := rd (d_leadbytes t) b in
    if negb (off =? 0) then
      match n with
      | O => Ret (true, dst, len)
      | S n =>
        let! c := rd src 1 in
        let! w := rd (d_cp2uni t) (Z.shiftl off 8 + c) in
        let! dst := wr dst di w in
        mbs_dbcs_loop t (drop 2 src) n dst (di + 1) (len - 1)
      end
    else
      let! w := rd (d_cp2uni t) b in
      let! dst := wr dst di w in
      mbs_dbcs_loop t (drop 1 src) n dst (di + 1) (len - 1)
  end.
Definition mbstowcs_dbcs (t : dbcs_table) (src : list Z) (srclen : Z) (dst : list Z) (dstlen : Z) : outcome (Z * list Z) :=
  if dstlen =? 0 then let! len := get_length_mbs_dbcs t src srclen in Ret (len, dst)
  else
    let! (all, dst, len) := mbs_dbcs_loop t src (Z.to_nat srclen) dst 0 dstlen in
    Ret (if (all : bool) then dstlen - len else -1, dst).

Definition wine_cp_mbstowcs (t : cptable) (flags : Z) (src : list Z) (srclen : Z) (dst : list Z) (dstlen : Z) : outcome (Z * list Z) :=
  match t with
  | Sbcs t =>
    let! bad := (if has_flag flags MB_ERR_INVALID_CHARS then check_invalid_chars_sbcs t flags src (Z.to_nat srclen) else Ret 0) in
    if negb (bad =? 0) then Ret (-2, dst)
    else if negb (has_flag flags MB_COMPOSITE) then
      if dstlen =? 0 then Ret (srclen, dst) else mbstowcs_sbcs t flags src srclen dst dstlen
    else mbstowcs_sbcs_decompose t flags src srclen dst dstlen
  | Dbcs t =>
    let! bad := (if has_flag flags MB_ERR_INVALID_CHARS then check_invalid_chars_dbcs t src (Z.to_nat srclen) else Ret 0) in
    if negb (bad =? 0) then Ret (-2, dst)
    else if negb (has_flag flags MB_COMPOSITE) then mbstowcs_dbcs t src srclen dst dstlen
    else mbstowcs_dbcs_decompose t src srclen dst dstlen
  end.
End ToUnicode.

Fixpoint symbol_in (n : nat) (src : list Z) (i : Z) (dst : list Z) : outcome (list Z) :=
  match n with
  | O => Ret dst
  | S n =>
    let! c := rd src i in
    let! dst := wr dst i (if c <? 0x20 then c else c + 0xf000) in
    symbol_in n src (i + 1) dst
  end.
Definition wine_cpsymbol_mbstowcs (src : list Z) (srclen : Z) (dst : list Z) (dstlen : Z) : outcome (Z * list Z) :=
  if dstlen =? 0 then Ret (srclen, dst) else
  let len := if srclen <? dstlen then srclen else dstlen in
  let! dst := symbol_in (Z.to_nat len) src 0 dst in
  Ret (if len <? srclen then -1 else len, dst).

(** ** Choosing a table (cptable.c and codepage.c) *)
(** bsearch in an array sorted by code page: the entry of that code page *)
Definition wine_cp_get_table (cptables : list cptable) (cp : Z) : option cptable :=
  find (fun t => codepage (info t) =? cp) cptables.
Definition wine_cp_enum_table (cptables : list cptable) (index : Z) : option cptable :=
  if zlen cptables <=? index then None else cptables !! Z.to_nat index.

(** the current code pages, set up from the tables of 1252, 437 and 10000 *)
Record codepages := mkCps { ansi_cptable : cptable; oem_cptable : cptable; mac_cptable : cptable }.
Definition init_codepages (cptables : list cptable) : option codepages :=
  match wine_cp_get_table cptables 1252, wine_cp_get_table cptables 437, wine_cp_get_table cptables 10000 with
  | Some a, Some o, Some m => Some (mkCps a o m)
  | _, _, _ => None
  end.
(** [locale_cp]: the ANSI code page of the thread's locale *)
Definition get_codepage_table (cptables : list cptable) (cps : codepages) (locale_cp : option cptable) (cp : Z) : option cptable :=
  if cp =? CP_ACP then Some (ansi_cptable cps)
  else if cp =? CP_OEMCP then Some (oem_cptable cps)
  else if cp =? CP_MACCP then Some (mac_cptable cps)
  else if cp =? CP_THREAD_ACP then locale_cp
  else if (cp =? CP_UTF7) || (cp =? CP_UTF8) then None
  else if cp =? codepage (info (ansi_cptable cps)) then Some (ansi_cptable cps)
  else if cp =? codepage (info (oem_cptable cps)) then Some (oem_cptable cps)
  else if cp =? codepage (info (mac_cptable cps)) then Some (mac_cptable cps)
  else wine_cp_get_table cptables cp.
Definition IsValidCodePage (cptables : list cptable) (cp : Z) : bool := bool_decide (is_Some (wine_cp_get_table cptables cp)).
Definition wine_is_dbcs_leadbyte (t : cptable) (ch : Z) : outcome bool :=
  match t with
  | Sbcs _ => Ret false
  | Dbcs t => let! off := rd (d_leadbytes t) ch in Ret (negb (off =? 0))
  end.
(** MaxCharSize, DefaultChar and LeadByte; only the first two elements of
    LeadByte are stored for a single-byte code page *)
Definition get_cpinfo (t : cptable) : Z * (Z * Z) * list Z :=
  let d := def_char (info t) in
  (char_size (info t), if negb (Z.land d 0xff00 =? 0) then (u8 (Z.land d 0xff00), Z.land d 0xff) else (Z.land d 0xff, 0),
   match t with Sbcs _ => [0; 0] | Dbcs t => lead_bytes t end).
(** the calls on the current code pages; the extended information without its
    name *)
Section Current.
Context (cptables : list cptable) (cps : codepages) (locale_cp : option cptable).
Definition get_cpinfo_ex (cp : Z) (extended : bool) : option (Z * (Z * Z) * list Z * option (Z * Z)) :=
  match get_codepage_table cptables cps locale_cp cp with
  | None => None
  | Some t => Some (get_cpinfo t, if extended then Some (def_unicode_char (info t), codepage (info t)) else None)
  end.
Definition GetCPInfo (cp : Z) : option (Z * (Z * Z) * list Z * option (Z * Z)) := get_cpinfo_ex cp false.
Definition GetCPInfoExA (cp : Z) : option (Z * (Z * Z) * list Z * option (Z * Z)) := get_cpinfo_ex cp true.
Definition IsDBCSLeadByteEx (cp testchar : Z) : outcome bool :=
  match get_codepage_table cptables cps locale_cp cp with None => Ret false | Some t => wine_is_dbcs_leadbyte t testchar end.
Definition IsDBCSLeadByte (testchar : Z) : outcome bool := wine_is_dbcs_leadbyte (ansi_cptable cps) testchar.
Definition GetACP : Z := codepage (info (ansi_cptable cps)).
Definition GetOEMCP : Z := codepage (info (oem_cptable cps)).
End Current.
(** the code pages of the user's locale replace those it has *)
Definition CODEPAGE_Init (ansi mac oem : option cptable) (cps : codepages) : codepages :=
  mkCps (default (ansi_cptable cps) ansi) (default (oem_cptable cps) oem) (default (mac_cptable cps) mac).

(** ** The calls *)
Section Calls.
Context (compose_table : list Z) (compose_size : Z) (decompose_table : list Z) (cptables : list cptable) (cps : codepages) (locale_cp : option cptable).

(** [dst] is [None] for NULL *)
Definition MultiByteToWideChar (page flags : Z) (src : list Z) (srclen : Z) (dst : option (list Z)) (dstlen : Z) : outcome (Z * list Z) :=
  let d := default [] dst in
  if negb (bool_decide (is_Some dst)) && negb (dstlen =? 0) then Ret (0, d) else
  let! srclen := (if srclen =? -1 then let! n := strlen src in Ret (n + 1) else Ret srclen) in
  if page =? CP_UTF7 then Ret (0, d) else
  if (page =? CP_UNIXCP) || (page =? CP_UTF8) then
    let! (ret, d) := wine_utf8_mbstowcs flags src srclen d dstlen in Ret (if ret <? 0 then 0 else ret, d)
  else
    match get_codepage_table cptables cps locale_cp page with
    | None => Ret (0, d)
    | Some t => let! (ret, d) := wine_cp_mbstowcs decompose_table t flags src srclen d dstlen in Ret (if ret <? 0 then 0 else ret, d)
    end.
(** with *used *)
Definition WideCharToMultiByte (page flags : Z) (src : list Z) (srclen : Z) (dst : option (list Z)) (dstlen : Z)
    (defchar : option (list Z)) (want_used : bool) : outcome (Z * list Z * option bool) :=
  let d := default [] dst in
  if negb (bool_decide (is_Some dst)) && negb (dstlen =? 0) then Ret (0, d, None) else
  let! srclen := (if srclen =? -1 then let! n := strlen src in Ret (n + 1) else Ret srclen) in
  if page =? CP_UTF7 then Ret (0, d, None) else
  if (page =? CP_UNIXCP) || (page =? CP_UTF8) then
    let! (ret, d) := wine_utf8_wcstombs flags src srclen d dstlen in Ret (if ret =? -1 then 0 else ret, d, None)
  else
    match get_codepage_table cptables cps locale_cp page with
    | None => Ret (0, d, None)
    | Some t =>
      let! (ret, d, used) := wine_cp_wcstombs compose_table compose_size t flags src srclen d dstlen defchar want_used in
      Ret (if ret =? -1 then 0 else ret, d, used)
    end.
End Calls.
End CodePage.
