(* ===== verification/CodePageSpec.v ===== *)
(** * Code pages: what the conversions promise

    The optimised loops against the loops that handle the flags, the query of a
    length against the conversion, round trips through a code page, the search
    for compositions. *)
From S2P Require Import Prelude Utf8 Utf8Spec CodePage.
Import Utf8 Utf8Spec CodePage.

Module CodePageSpec.

Ltac conj := repeat match goal with |- _ /\ _ => split end.

(** ** The map from Unicode *)

(** what the code page has for a character *)
Definition uni (low high : list Z) (w : Z) : Z := nthZ 0 low (nthZ 0 high (Z.shiftr w 8) + Z.land w 0xff).
(** the indices of the tables stay inside of them, their elements have [k] bits *)
Definition maps_ok (k : Z) (low high : list Z) : Prop :=
  zlen high = 256 /\ Forall (fun h => 0 <= h /\ h + 256 <= zlen low) high /\ Forall (isU k) low.
Lemma uni2cp_ok k low high w : maps_ok k low high -> isU 16 w -> uni2cp low high w = Ret (uni low high w) /\ isU k (uni low high w).
Proof.
  intros (Hh & Hf & Hl) Hw. unfold isU in Hw. change (2 ^ 16) with 65536 in Hw. unfold uni2cp, uni.
  assert (Hs : 0 <= Z.shiftr w 8 < zlen high) by (rewrite Z.shiftr_div_pow2 by lia; change (2 ^ 8) with 256; dlia).
  assert (Ha : 0 <= Z.land w 0xff < 256) by (change 0xff with (2 ^ 8 - 1); rewrite land_pow2_mask by lia; change (2 ^ 8) with 256; dlia).
  rewrite (rd_in 0) by done. cbn [obind]. pose proof (nthZ_Forall _ 0 high _ Hf Hs) as H. cbv beta in H. rewrite (rd_in 0) by lia.
  split; [done|]. apply nthZ_Forall; [done|lia].
Qed.

(** ** Writing *)
Lemma room_cons (dm : list Z) n : Z.of_nat (S n) <= zlen dm -> dm <> [].
Proof. intros H ->. unfold zlen in H. simpl in H. lia. Qed.

(** ** Single-byte code pages *)
Definition sbcs_ok (t : sbcs_table) : Prop :=
  maps_ok 8 (s_uni2cp_low t) (s_uni2cp_high t) /\ zlen (s_cp2uni t) = 256.
Definition sb (t : sbcs_table) (w : Z) : Z := uni (s_uni2cp_low t) (s_uni2cp_high t) w.
Section Sbcs.
Context (t : sbcs_table) (Ht : sbcs_ok t).
Lemma sbcs_char_ok w : isU 16 w -> sbcs_char t w = Ret (sb t w) /\ isU 8 (sb t w).
Proof using Ht. intros Hw. by apply uni2cp_ok; [apply Ht|]. Qed.
Lemma put_row_ok : forall s pre post dp dm, Forall (isU 16) s -> zlen pre = zlen dp -> zlen s <= zlen dm ->
  put_row t (length s) (pre ++ s ++ post) (zlen pre) (dp ++ dm) = Ret ((dp ++ map (sb t) s) ++ drop (length s) dm).
Proof using Ht.
  induction s as [|w s IH]; intros pre post dp dm Hs Hp Hd; [by rewrite app_nil_r|]. apply Forall_cons_1 in Hs as [Hw Hs].
  cbn [length put_row app map] in *. rewrite rd_app by done. cbn [obind]. rewrite (proj1 (sbcs_char_ok w Hw)). cbn [obind].
  rewrite zlen_cons in Hd. pose proof (zlen_nonneg s). rewrite Hp, wr_next by (apply (room_cons dm 0); lia). cbn [obind].
  change (w :: s ++ post) with ([w] ++ s ++ post). rewrite (app_assoc pre). replace (zlen dp + 1) with (zlen (pre ++ [w])) by (rewrite zlen_snoc; lia).
  rewrite IH; [|done|rewrite !zlen_snoc; lia|unfold zlen in *; rewrite length_drop; lia]. rewrite drop_drop, <- !app_assoc. done.
Qed.
(** the loop unrolled sixteen times is a map *)
Lemma put_rows_ok fuel : forall s pre post dp dm, (length s < fuel)%nat -> Forall (isU 16) s -> zlen pre = zlen dp -> zlen s <= zlen dm ->
  put_rows t fuel (pre ++ s ++ post) (zlen pre) (zlen s) (dp ++ dm) = Ret ((dp ++ map (sb t) s) ++ drop (length s) dm).
Proof using Ht.
  induction fuel as [|fuel IH]; intros s pre post dp dm Hf Hs Hp Hd; [lia|]. cbn [put_rows]. destruct (Z.leb_spec 16 (zlen s)) as [H16|H16].
  - assert (Forall (isU 16) (take 16 s) /\ Forall (isU 16) (drop 16 s)) as [Hs1 Hs2] by (split; [by apply Forall_take|by apply Forall_drop]).
    assert (Es : pre ++ s ++ post = pre ++ take 16 s ++ drop 16 s ++ post) by (by rewrite (app_assoc (take 16 s)), take_drop). rewrite Es. clear Es. assert (length (take 16 s) = 16)%nat as El by (rewrite length_take; unfold zlen in H16; lia).
    rewrite <- El at 1. rewrite put_row_ok; [|done|done|unfold zlen in *; lia]. cbn [obind].
    replace (zlen pre + 16) with (zlen (pre ++ take 16 s)) by (rewrite zlen_app; unfold zlen at 2; rewrite El; lia).
    replace (zlen s - 16) with (zlen (drop 16 s)) by (unfold zlen in *; rewrite length_drop; lia). rewrite (app_assoc pre).
    rewrite IH; [|rewrite length_drop; unfold zlen in H16; lia|done|rewrite !zlen_app; unfold zlen at 2 4; rewrite length_map; lia|unfold zlen in *; rewrite !length_drop, El; lia].
    rewrite <- (app_assoc dp), <- map_app, take_drop, drop_drop. do 2 f_equal. rewrite El, length_drop. unfold zlen in H16. f_equal. lia.
  - rewrite zlen_nat. by apply put_row_ok.
Qed.
Lemma wcstombs_sbcs_ok s post dst dstlen : Forall (isU 16) s -> zlen s <= dstlen <= zlen dst ->
  wcstombs_sbcs t (s ++ post) (zlen s) dst dstlen = Ret (zlen s, map (sb t) s ++ drop (length s) dst).
Proof using Ht.
  intros Hs Hd. unfold wcstombs_sbcs. replace (dstlen <? zlen s) with false by lia. rewrite zlen_nat.
  pose proof (put_rows_ok (S (length s)) s [] post [] dst) as E. cbn [app] in E. change (zlen (@nil Z)) with 0 in E. rewrite E by (done || lia). done.
Qed.
Lemma wcstombs_sbcs_short s post dst dstlen : Forall (isU 16) s -> 0 <= dstlen < zlen s -> dstlen <= zlen dst ->
  wcstombs_sbcs t (s ++ post) (zlen s) dst dstlen = Ret (-1, take (Z.to_nat dstlen) (map (sb t) s) ++ drop (Z.to_nat dstlen) dst).
Proof using Ht.
  intros Hs Hd Hm. unfold wcstombs_sbcs. replace (dstlen <? zlen s) with true by lia. set (n := Z.to_nat dstlen).
  assert (El : zlen (take n s) = dstlen) by (unfold zlen in *; rewrite length_take; lia).
  pose proof (put_rows_ok (S n) (take n s) [] (drop n s ++ post) [] dst) as E. cbn [app] in E. change (zlen (@nil Z)) with 0 in E. rewrite El, app_assoc, take_drop in E.
  rewrite E; [|rewrite length_take; lia|by apply Forall_take|done|done]. cbn [obind]. rewrite <- firstn_map. do 3 f_equal. rewrite length_take. unfold zlen in Hd. f_equal. lia.
Qed.
End Sbcs.

(** ** Compositions *)
Section Compose.
Context (tab : list Z).
Abbreviation key p := (nthZ 0 tab (2 * p)).
Abbreviation val p := (nthZ 0 tab (2 * p + 1)).

(** what a search of the entries from [low] to [high] finds *)
Lemma binary_search_ok fuel ch : forall low high, 0 <= low -> (low <= high -> 2 * high < zlen tab) -> Z.max 0 (high - low + 1) < Z.of_nat fuel ->
  exists r, binary_search tab fuel ch low high = Ret r /\ (r = -1 \/ low <= r <= high /\ key r = ch) /\
    ((forall i j, low <= i < j -> j <= high -> key i < key j) -> r = -1 -> forall p, low <= p <= high -> key p <> ch).
Proof using.
  induction fuel as [|fuel IH]; intros low high Hl Hh Hf; [lia|]. cbn [binary_search]. destruct (Z.leb_spec low high) as [Hle|Hgt]; [|exists (-1); conj; [done|by left|intros _ _ p Hp; lia]].
  assert (Hq : Z.quot (low + high) 2 = (low + high) / 2) by (apply Z.quot_div_nonneg; lia). rewrite Hq. set (pos := (low + high) / 2).
  assert (Hp : low <= pos <= high) by (unfold pos; dlia). rewrite (rd_in 0) by lia. cbn [obind]. destruct (Z.ltb_spec (key pos) ch) as [H1|H1]; [|destruct (Z.ltb_spec ch (key pos)) as [H2|H2]].
  - destruct (IH (pos + 1) high) as (r & E & Hr & Hs); [lia|lia|lia|]. exists r. conj; [done|destruct Hr as [->|[Hr Hk]]; [by left|right; split; [lia|done]]|].
    intros Hsort Hm p Hpr Hk. destruct (decide (pos < p)) as [Hlt|Hlt]; [apply (Hs ltac:(intros; apply Hsort; lia) Hm p); [lia|done]|].
    destruct (decide (p = pos)) as [->|]; [lia|]. pose proof (Hsort p pos ltac:(lia) ltac:(lia)). lia.
  - destruct (IH low (pos - 1)) as (r & E & Hr & Hs); [lia|lia|lia|]. exists r. conj; [done|destruct Hr as [->|[Hr Hk]]; [by left|right; split; [lia|done]]|].
    intros Hsort Hm p Hpr Hk. destruct (decide (p < pos)) as [Hlt|Hlt]; [apply (Hs ltac:(intros; apply Hsort; lia) Hm p); [lia|done]|].
    destruct (decide (p = pos)) as [->|]; [lia|]. pose proof (Hsort pos p ltac:(lia) ltac:(lia)). lia.
  - exists pos. conj; [done|right; split; [done|lia]|intros _ ->; lia].
Qed.

(** the first [size] entries give, for a second character, where the entries of
    its first characters start; the next entry gives where they end *)
Definition compose_ok (size : Z) : Prop :=
  0 <= size /\ 2 * size + 1 < zlen tab /\ Forall (isU 16) tab /\
  forall p, 0 <= p < size -> 2 * val (p + 1) <= zlen tab.
Definition sorted (low high : Z) : Prop := forall i j, low <= i < j -> j < high -> key i < key j.
(** the pair [c0], [c1] is composed to [c] *)
Definition composes (size c0 c1 c : Z) : Prop :=
  exists p q, 0 <= p < size /\ key p = c1 /\ val p <= q < val (p + 1) /\ key q = c0 /\ val q = c.

Lemma search_fuel_ok low high : 0 <= low -> (low <= high -> 2 * high < zlen tab) -> Z.max 0 (high - low + 1) < Z.of_nat (search_fuel tab).
Proof using. intros H1 H2. unfold search_fuel, zlen in *. lia. Qed.
Lemma compose_total size str c0 c1 k : compose_ok size -> str = c0 :: c1 :: k -> exists c, compose tab str size = Ret c /\ isU 16 c /\
  (c <> 0 -> composes size c0 c1 c).
Proof using.
  intros (Hs & Hz & Hu & Hv) ->. unfold compose. change (rd (c0 :: c1 :: k) 1) with (Ret c1). change (rd (c0 :: c1 :: k) 0) with (Ret c0). cbn [obind].
  destruct (binary_search_ok (search_fuel tab) c1 0 (size - 1)) as (p & E & Hp & _); [lia|lia|apply search_fuel_ok; lia|]. rewrite E. cbn [obind].
  destruct (Z.eqb_spec p (-1)) as [->|Hp1]; [exists 0; conj; done|]. destruct Hp as [|[Hp Hk]]; [done|]. rewrite !(rd_in 0) by lia. cbn [obind].
  replace (2 * p + 3) with (2 * (p + 1) + 1) by lia. pose proof (nthZ_Forall _ 0 tab (2 * p + 1) Hu ltac:(lia)) as Hlow. unfold isU in Hlow. specialize (Hv p ltac:(lia)).
  destruct (binary_search_ok (search_fuel tab) c0 (val p) (val (p + 1) - 1)) as (q & Eq & Hq & _); [lia|lia|apply search_fuel_ok; lia|]. rewrite Eq. cbn [obind].
  destruct (Z.eqb_spec q (-1)) as [->|Hq1]; [exists 0; conj; done|]. destruct Hq as [|[Hq Hkq]]; [done|]. rewrite (rd_in 0) by lia.
  eexists. conj; [done|apply nthZ_Forall; [done|lia]|]. intros _. exists p, q. conj; lia || done.
Qed.
(** with sorted entries every pair of the table is found *)
Lemma compose_complete size c0 c1 c k : compose_ok size -> sorted 0 size -> (forall p, 0 <= p < size -> sorted (val p) (val (p + 1))) ->
  composes size c0 c1 c -> compose tab (c0 :: c1 :: k) size = Ret c.
Proof using.
  intros (Hs & Hz & Hu & Hv) S1 S2 (p & q & Hp & Hkp & Hq & Hkq & Hc). unfold compose. change (rd (c0 :: c1 :: k) 1) with (Ret c1). change (rd (c0 :: c1 :: k) 0) with (Ret c0). cbn [obind].
  destruct (binary_search_ok (search_fuel tab) c1 0 (size - 1)) as (p' & E & Hp' & N); [lia|lia|apply search_fuel_ok; lia|]. rewrite E. cbn [obind].
  destruct (Z.eqb_spec p' (-1)) as [->|Hp1]; [by destruct (N ltac:(intros; apply S1; lia) eq_refl p ltac:(lia))|]. destruct Hp' as [|[Hp' Hk]]; [done|].
  assert (p' = p) as ->. { destruct (Z.lt_trichotomy p p') as [H|[H|H]]; [pose proof (S1 p p' ltac:(lia) ltac:(lia)); lia|done|pose proof (S1 p' p ltac:(lia) ltac:(lia)); lia]. }
  rewrite !(rd_in 0) by lia. cbn [obind]. replace (2 * p + 3) with (2 * (p + 1) + 1) by lia. pose proof (nthZ_Forall _ 0 tab (2 * p + 1) Hu ltac:(lia)) as Hlow. unfold isU in Hlow.
  specialize (Hv p ltac:(lia)). specialize (S2 p ltac:(lia)).
  destruct (binary_search_ok (search_fuel tab) c0 (val p) (val (p + 1) - 1)) as (q' & Eq & Hq' & N2); [lia|lia|apply search_fuel_ok; lia|]. rewrite Eq. cbn [obind].
  destruct (Z.eqb_spec q' (-1)) as [->|Hq1]; [by destruct (N2 ltac:(intros; apply S2; lia) eq_refl q ltac:(lia))|]. destruct Hq' as [|[Hq' Hkq']]; [done|].
  assert (q' = q) as ->. { destruct (Z.lt_trichotomy q q') as [H|[H|H]]; [pose proof (S2 q q' ltac:(lia) ltac:(lia)); lia|done|pose proof (S2 q' q ltac:(lia) ltac:(lia)); lia]. }
  rewrite (rd_in 0) by lia. by rewrite Hc.
Qed.
End Compose.

(** ** The loops that handle the flags *)
Section Slow.
Context (tab : list Z) (size : Z) (Hcompose : compose_ok tab size).

(** the characters of the code page that a string is converted to, and *used *)
Fixpoint chars (lookup : Z -> outcome Z) (valid : Z -> Z -> outcome bool) (def flags : Z) (src : list Z) (srclen : nat) (used : bool) : outcome (list Z * bool) :=
  match srclen with
  | O => Ret ([], used)
  | S n =>
    let! (c, two, used) := next_char tab size lookup valid def flags src srclen used in
    let! (cs, used) := (if (two : bool) then match n with O => Fault | S n => chars lookup valid def flags (drop 2 src) n used end
                        else chars lookup valid def flags (drop 1 src) n used) in
    Ret (c :: cs, used)
  end.
Section Step.
Context (lookup : Z -> outcome Z) (valid : Z -> Z -> outcome bool) (def flags k : Z).
Hypothesis lookup_ok : forall w, isU 16 w -> exists c, lookup w = Ret c /\ isU k c.
Hypothesis valid_ok : forall w c, isU 16 w -> isU k c -> exists b, valid w c = Ret b.
Hypothesis def_ok : isU k def.
Lemma composed_ok src n : Forall (isU 16) src -> (n <= length src)%nat -> exists c, composed_of tab size flags src n = Ret c /\ isU 16 c /\ (c <> 0 -> (1 < n)%nat).
Proof using Hcompose.
  intros Hs Hn. unfold composed_of. destruct (has_flag flags WC_COMPOSITECHECK); [|by exists 0]. destruct (Nat.ltb_spec 1 n) as [H|H]; cbn [andb]; [|by exists 0].
  destruct src as [|c0 [|c1 r]]; simpl in Hn; try lia. destruct (compose_total tab size _ c0 c1 r Hcompose eq_refl) as (c & E & Hc & _). by exists c.
Qed.
Lemma next_char_ok src n used : Forall (isU 16) src -> (S n <= length src)%nat -> exists c two u,
  next_char tab size lookup valid def flags src (S n) used = Ret (c, two, u) /\ isU k c /\ (two = true -> (1 <= n)%nat).
Proof using Hcompose lookup_ok valid_ok def_ok.
  intros Hs Hn. destruct src as [|w src]; [simpl in Hn; lia|]. pose proof (proj1 (Forall_cons_1 _ _ _ Hs)) as Hw. unfold next_char.
  change (rd (w :: src) 0) with (Ret w). cbn [obind]. destruct (composed_ok (w :: src) (S n) Hs Hn) as (cc & Ec & Hcc & Hc1). rewrite Ec. cbn [obind].
  assert (P : forall two, (two = true -> (1 <= n)%nat) -> exists c two' u, (let! res := lookup w in let! ok := valid w res in if (ok : bool) then Ret (res, two, used) else Ret (def, two, true)) = Ret (c, two', u) /\
    isU k c /\ (two' = true -> (1 <= n)%nat)).
  { intros two H2. destruct (lookup_ok w Hw) as (c & El & Hc). rewrite El. cbn [obind]. destruct (valid_ok w c Hw Hc) as (b & Ev). rewrite Ev. cbn [obind].
    destruct b; eexists _, _, _; conj; done. }
  destruct (Z.eqb_spec cc 0) as [->|Hcn]; [by apply (P false)|]. simpl negb. cbv iota. specialize (Hc1 Hcn).
  destruct (lookup_ok cc Hcc) as (c & El & Hc). rewrite El. cbn [obind]. destruct (valid_ok cc c Hcc Hc) as (b & Ev). rewrite Ev. cbn [obind].
  destruct b; [eexists _, _, _; conj; [done|done|lia]|]. destruct (has_flag flags WC_DEFAULTCHAR); [eexists _, _, _; conj; [done|done|lia]|]. apply P. lia.
Qed.
Lemma chars_total n : forall src used, Forall (isU 16) src -> (n <= length src)%nat -> exists cs u, chars lookup valid def flags src n used = Ret (cs, u) /\ Forall (isU k) cs.
Proof using Hcompose lookup_ok valid_ok def_ok.
  induction n as [n IH] using lt_wf_ind. intros src used Hs Hn. destruct n as [|n]; [by exists [], used|].
  destruct (next_char_ok src n used Hs Hn) as (c & two & u & E & Hc & H2). cbn [chars]. rewrite E. cbn [obind].
  assert (exists cs u', (if two then match n with O => Fault | S n => chars lookup valid def flags (drop 2 src) n u end else chars lookup valid def flags (drop 1 src) n u) = Ret (cs, u') /\ Forall (isU k) cs) as (cs & u' & E' & Hcs).
  { destruct two.
    - specialize (H2 eq_refl). destruct n as [|n]; [lia|]. apply IH; [lia|by apply Forall_drop|rewrite length_drop; lia].
    - apply IH; [lia|by apply Forall_drop|rewrite length_drop; lia]. }
  rewrite E'. cbn [obind]. exists (c :: cs), u'. split; [done|by constructor].
Qed.
(** a round and what follows it *)
Lemma chars_inv n src used cs u : chars lookup valid def flags src (S n) used = Ret (cs, u) ->
  exists c two u1 cs', cs = c :: cs' /\ next_char tab size lookup valid def flags src (S n) used = Ret (c, two, u1) /\
    exists m, (m < S n)%nat /\ chars lookup valid def flags (drop (if two then 2 else 1) src) m u1 = Ret (cs', u) /\ n = if (two : bool) then S m else m.
Proof using.
  cbn [chars]. destruct (next_char tab size lookup valid def flags src (S n) used) as [[[c two] u1]| |]; cbn [obind]; [|done|done].
  intros H. exists c, two, u1. destruct two; [destruct n as [|n]; [done|]|].
  - destruct (chars lookup valid def flags (drop 2 src) n u1) as [[cs' u']| |] eqn:E; cbn [obind] in H; [|done|done]. injection H as <- <-. exists cs'. conj; [done|done|]. exists n. conj; [lia|done|done].
  - destruct (chars lookup valid def flags (drop 1 src) n u1) as [[cs' u']| |] eqn:E; cbn [obind] in H; [|done|done]. injection H as <- <-. exists cs'. conj; [done|done|]. exists n. conj; [lia|done|done].
Qed.
End Step.

(** *** Single-byte *)
Section SlowSbcs.
Context (t : sbcs_table) (Ht : sbcs_ok t) (flags : Z).
Abbreviation sbcs_chars def := (chars (sbcs_char t) (is_valid_sbcs_mapping t flags) def flags).
Lemma next_used_ok def src n used c two u : next_char tab size (sbcs_char t) (is_valid_sbcs_mapping t flags) def flags src n used = Ret (c, two, u) ->
  next_used tab size t flags src n used = Ret (two, u).
Proof using.
  unfold next_char, next_used. destruct (rd src 0) as [w| |]; cbn [obind]; [|done|done]. destruct (composed_of tab size flags src n) as [cc| |]; cbn [obind]; [|done|done].
  assert (P : forall b : bool, (let! res := sbcs_char t w in let! ok := is_valid_sbcs_mapping t flags w res in if (ok : bool) then Ret (res, b, used) else Ret (def, b, true)) = Ret (c, two, u) ->
    (if used then Ret (b, used) else let! ch := sbcs_char t w in let! ok := is_valid_sbcs_mapping t flags w ch in Ret (b, negb ok)) = Ret (two, u)).
  { intros b. destruct (sbcs_char t w) as [ch| |]; cbn [obind]; [|done|done]. destruct (is_valid_sbcs_mapping t flags w ch) as [ok| |]; cbn [obind]; [|done|done].
    destruct ok, used; intros [= <- <- <-]; done. }
  destruct (negb (cc =? 0)); [|apply P]. destruct (sbcs_char t cc) as [ch| |]; cbn [obind]; [|done|done].
  destruct (is_valid_sbcs_mapping t flags cc ch) as [ok| |]; cbn [obind]; [|done|done]. destruct ok; [by intros [= <- <- <-]|].
  destruct (has_flag flags WC_DEFAULTCHAR); [by intros [= <- <- <-]|apply P].
Qed.
Lemma length_sbcs_ok def n : forall src used ret cs u, sbcs_chars def src n used = Ret (cs, u) -> length_sbcs_loop tab size t flags src n ret used = Ret (ret + zlen cs, u).
Proof using.
  induction n as [n IH] using lt_wf_ind. intros src used ret cs u H. destruct n as [|n]; [simpl in H; injection H as <- <-; simpl; change (zlen (@nil Z)) with 0; by rewrite Z.add_0_r|].
  apply chars_inv in H as (c & two & u1 & cs' & -> & E & m & Hm & E' & En). cbn [length_sbcs_loop]. rewrite (next_used_ok def _ _ _ _ _ _ E). cbn [obind]. rewrite zlen_cons.
  replace (ret + (zlen cs' + 1)) with (ret + 1 + zlen cs') by lia. destruct two; subst n; by apply IH.
Qed.
Lemma sbcs_slow_ok def n : forall src used dp dm len cs u, sbcs_chars def src n used = Ret (cs, u) -> zlen cs <= len <= zlen dm ->
  sbcs_slow_loop tab size t def flags src n (dp ++ dm) (zlen dp) len used = Ret (true, (dp ++ cs) ++ drop (length cs) dm, len - zlen cs, u).
Proof using.
  induction n as [n IH] using lt_wf_ind. intros src used dp dm len cs u H Hl. destruct n as [|n].
  { simpl in H. injection H as <- <-. simpl. change (zlen (@nil Z)) with 0. by rewrite app_nil_r, Z.sub_0_r. }
  apply chars_inv in H as (c & two & u1 & cs' & -> & E & m & Hm & E' & En). rewrite zlen_cons in *. pose proof (zlen_nonneg cs'). cbn [sbcs_slow_loop]. replace (len =? 0) with false by lia.
  rewrite E. cbn [obind]. rewrite wr_next by (apply (room_cons dm 0); lia). cbn [obind]. rewrite <- zlen_snoc with (x := c).
  assert (Hg : sbcs_slow_loop tab size t def flags (drop (if two then 2 else 1) src) m ((dp ++ [c]) ++ drop 1 dm) (zlen (dp ++ [c])) (len - 1) u1 =
    Ret (true, (dp ++ c :: cs') ++ drop (length (c :: cs')) dm, len - (zlen cs' + 1), u)).
  { rewrite (IH m Hm _ _ _ _ _ cs' u E'); [|unfold zlen in *; rewrite length_drop; lia]. rewrite drop_drop, <- !app_assoc. cbn [app length]. do 2 f_equal. f_equal. lia. }
  destruct two; subst n; exact Hg.
Qed.
Lemma sbcs_slow_short def n : forall src used dp dm len cs u, sbcs_chars def src n used = Ret (cs, u) -> 0 <= len < zlen cs -> len <= zlen dm ->
  exists u', sbcs_slow_loop tab size t def flags src n (dp ++ dm) (zlen dp) len used = Ret (false, (dp ++ take (Z.to_nat len) cs) ++ drop (Z.to_nat len) dm, 0, u').
Proof using.
  induction n as [n IH] using lt_wf_ind. intros src used dp dm len cs u H Hl Hd. destruct n as [|n].
  { simpl in H. injection H as <- <-. change (zlen (@nil Z)) with 0 in Hl. lia. }
  apply chars_inv in H as (c & two & u1 & cs' & -> & E & m & Hm & E' & En). rewrite zlen_cons in *. cbn [sbcs_slow_loop]. destruct (Z.eqb_spec len 0) as [->|]; [eexists; simpl; by rewrite app_nil_r|].
  rewrite E. cbn [obind]. rewrite wr_next by (apply (room_cons dm 0); lia). cbn [obind]. rewrite <- zlen_snoc with (x := c).
  destruct (IH m Hm (drop (if two then 2 else 1) src) u1 (dp ++ [c]) (drop 1 dm) (len - 1) cs' u E') as (u' & Hg); [lia|unfold zlen in *; rewrite length_drop; lia|].
  exists u'. replace (Z.to_nat len) with (S (Z.to_nat (len - 1))) by lia. rewrite drop_drop, <- (app_assoc dp [c] (take _ _)) in Hg. destruct two; subst n; exact Hg.
Qed.

(** without flags and without a default character of the caller the characters are those of the map *)
Lemma plain_next_sbcs w src n used : isU 16 w -> exists u,
  next_char tab size (sbcs_char t) (is_valid_sbcs_mapping t 0) (Z.land (def_char (s_info t)) 0xff) 0 (w :: src) n used = Ret (sb t w, false, u).
Proof using Ht.
  intros Hw. unfold next_char. change (rd (w :: src) 0) with (Ret w). change (composed_of tab size 0 (w :: src) n) with (@Ret Z 0). cbn [obind].
  simpl negb. cbv iota. rewrite (proj1 (sbcs_char_ok t Ht w Hw)). cbn [obind]. unfold is_valid_sbcs_mapping. change (has_flag 0 WC_NO_BEST_FIT_CHARS) with false. cbv iota.
  replace (u8 (def_char (s_info t))) with (Z.land (def_char (s_info t)) 0xff) by (change 0xff with (2 ^ 8 - 1); by rewrite land_pow2_mask by lia).
  destruct (Z.eqb_spec (sb t w) (Z.land (def_char (s_info t)) 255)) as [Ed|Ed]; simpl negb; cbv iota; cbn [obind]; [|by exists used].
  rewrite <- Ed. destruct (w =? def_unicode_char (s_info t)); by eexists.
Qed.
Lemma plain_chars : flags = 0 -> forall src n used, Forall (isU 16) src -> (n <= length src)%nat ->
  exists u, sbcs_chars (Z.land (def_char (s_info t)) 0xff) src n used = Ret (map (sb t) (take n src), u).
Proof using Ht.
  intros Hfl src n. subst flags. revert src. induction n as [|n IH]; intros src used Hs Hn; [by exists used|]. destruct src as [|w src]; [simpl in Hn; lia|].
  apply Forall_cons_1 in Hs as [Hw Hs]. cbn [chars]. destruct (plain_next_sbcs w src (S n) used Hw) as (u1 & ->). cbn [obind].
  destruct (IH src u1 Hs ltac:(simpl in Hn; lia)) as (u & E). exists u. change (drop 1 (w :: src)) with src. by rewrite E.
Qed.
End SlowSbcs.

(** *** Double-byte *)
Definition bytes_of (c : Z) : list Z := if is_double c then [Z.shiftr c 8; u8 c] else [u8 c].
Lemma bytes_of_size c : zlen (bytes_of c) = if is_double c then 2 else 1.
Proof using. unfold bytes_of. by destruct (is_double c). Qed.
Lemma put_char_ok c dp dm len : zlen (bytes_of c) <= len <= zlen dm ->
  put_char c (dp ++ dm) (zlen dp) len = Ret (Some ((dp ++ bytes_of c) ++ drop (length (bytes_of c)) dm, zlen (dp ++ bytes_of c), len - zlen (bytes_of c))).
Proof using.
  intros H. unfold put_char. rewrite zlen_app. rewrite bytes_of_size in *. unfold bytes_of. destruct (is_double c).
  - replace (len =? 1) with false by lia. rewrite wr_next by (apply (room_cons dm 0); lia). cbn [obind]. rewrite <- zlen_snoc with (x := Z.shiftr c 8).
    rewrite wr_next by (apply (room_cons _ 0); unfold zlen in *; rewrite length_drop; lia). cbn [obind]. rewrite drop_drop, <- !app_assoc. done.
  - rewrite wr_next by (apply (room_cons dm 0); lia). done.
Qed.
Lemma put_char_short c dst di len : 0 < len < zlen (bytes_of c) -> put_char c dst di len = Ret None.
Proof using. intros H. rewrite bytes_of_size in H. unfold put_char. destruct (is_double c); [|lia]. by replace (len =? 1) with true by lia. Qed.
Abbreviation bytes_of_all cs := (concat (map bytes_of cs)).

Section SlowDbcs.
Context (t : dbcs_table) (flags : Z).
Abbreviation dbcs_chars def := (chars (dbcs_char t) (is_valid_dbcs_mapping t flags) def flags).
Lemma length_dbcs_ok def n : forall src used len cs u, dbcs_chars def src n used = Ret (cs, u) ->
  length_dbcs_loop tab size t def flags src n len used = Ret (len + zlen (bytes_of_all cs), u).
Proof using.
  induction n as [n IH] using lt_wf_ind. intros src used len cs u H. destruct n as [|n]; [simpl in H; injection H as <- <-; simpl; change (zlen (@nil Z)) with 0; by rewrite Z.add_0_r|].
  apply chars_inv in H as (c & two & u1 & cs' & -> & E & m & Hm & E' & En). cbn [length_dbcs_loop map concat]. rewrite E. cbn [obind]. rewrite zlen_app, bytes_of_size, Z.add_assoc.
  destruct two; subst n; by apply IH.
Qed.
Lemma dbcs_slow_ok def n : forall src used dp dm len cs u, dbcs_chars def src n used = Ret (cs, u) -> zlen (bytes_of_all cs) <= len <= zlen dm ->
  dbcs_slow_loop tab size t def flags src n (dp ++ dm) (zlen dp) len used =
    Ret (true, (dp ++ bytes_of_all cs) ++ drop (length (bytes_of_all cs)) dm, len - zlen (bytes_of_all cs), u).
Proof using.
  induction n as [n IH] using lt_wf_ind. intros src used dp dm len cs u H Hl. destruct n as [|n].
  { simpl in H. injection H as <- <-. simpl. change (zlen (@nil Z)) with 0. by rewrite app_nil_r, Z.sub_0_r. }
  apply chars_inv in H as (c & two & u1 & cs' & -> & E & m & Hm & E' & En). cbn [map concat] in *. rewrite zlen_app in *. pose proof (zlen_nonneg (bytes_of_all cs')).
  assert (1 <= zlen (bytes_of c)) by (rewrite bytes_of_size; destruct (is_double c); lia). cbn [dbcs_slow_loop]. replace (len =? 0) with false by lia.
  rewrite E. cbn [obind]. rewrite put_char_ok by lia. cbn [obind].
  assert (Hg : dbcs_slow_loop tab size t def flags (drop (if two then 2 else 1) src) m ((dp ++ bytes_of c) ++ drop (length (bytes_of c)) dm) (zlen (dp ++ bytes_of c)) (len - zlen (bytes_of c)) u1 =
    Ret (true, (dp ++ bytes_of c ++ bytes_of_all cs') ++ drop (length (bytes_of c ++ bytes_of_all cs')) dm, len - (zlen (bytes_of c) + zlen (bytes_of_all cs')), u)).
  { rewrite (IH m Hm _ _ _ _ _ cs' u E'); [|unfold zlen in *; rewrite length_drop; lia]. rewrite drop_drop, length_app, <- !app_assoc. do 2 f_equal. f_equal. lia. }
  destruct two; subst n; exact Hg.
Qed.
Lemma dbcs_slow_short def n : forall src used dp dm len cs u, dbcs_chars def src n used = Ret (cs, u) -> 0 <= len < zlen (bytes_of_all cs) -> len <= zlen dm ->
  exists dst' l u', dbcs_slow_loop tab size t def flags src n (dp ++ dm) (zlen dp) len used = Ret (false, dst', l, u') /\ length dst' = length (dp ++ dm).
Proof using.
  induction n as [n IH] using lt_wf_ind. intros src used dp dm len cs u H Hl Hd. destruct n as [|n].
  { simpl in H. injection H as <- <-. change (zlen (concat (map bytes_of []))) with 0 in Hl. lia. }
  apply chars_inv in H as (c & two & u1 & cs' & -> & E & m & Hm & E' & En). cbn [map concat] in *. rewrite zlen_app in *.
  cbn [dbcs_slow_loop]. destruct (Z.eqb_spec len 0) as [->|]; [eexists _, _, _; split; done|]. rewrite E. cbn [obind].
  destruct (decide (len < zlen (bytes_of c))); [rewrite put_char_short by lia; cbn [obind]; eexists _, _, _; split; done|]. rewrite put_char_ok by lia. cbn [obind].
  destruct (IH m Hm (drop (if two then 2 else 1) src) u1 (dp ++ bytes_of c) (drop (length (bytes_of c)) dm) (len - zlen (bytes_of c)) cs' u E') as (dst' & l & u' & Hg & Hlen); [lia|unfold zlen in *; rewrite length_drop; lia|].
  exists dst', l, u'. split; [destruct two; subst n; exact Hg|]. rewrite Hlen. repeat rewrite length_app. rewrite length_drop. unfold zlen in *. lia.
Qed.
End SlowDbcs.

(** without the flags for compositions and best fits, and with the default
    character of the table, the loops without flags do the same *)
Section PlainDbcs.
Context (t : dbcs_table) (flags : Z) (Hf1 : has_flag flags WC_COMPOSITECHECK = false) (Hf2 : has_flag flags WC_NO_BEST_FIT_CHARS = false).
Abbreviation def := (def_char (d_info t)).
Lemma plain_next src n used c two u : next_char tab size (dbcs_char t) (is_valid_dbcs_mapping t flags) def flags src n used = Ret (c, two, u) ->
  two = false /\ (let! w := rd src 0 in dbcs_char t w) = Ret c.
Proof using Hf1 Hf2.
  unfold next_char, composed_of. rewrite Hf1. cbn [andb obind]. destruct (rd src 0) as [w| |]; cbn [obind]; [|done|done]. simpl negb. cbv iota.
  destruct (dbcs_char t w) as [ch| |]; cbn [obind]; [|done|done]. unfold is_valid_dbcs_mapping. rewrite Hf2.
  destruct (Z.eqb_spec ch def) as [->|]; cbn [andb]; [destruct (negb (w =? def_unicode_char (d_info t)))|]; cbn [obind]; by intros [= <- <- <-].
Qed.
Lemma dbcs_loop_slow n : forall src used dst di len all dst' l u,
  dbcs_slow_loop tab size t def flags src n dst di len used = Ret (all, dst', l, u) -> dbcs_loop t src n dst di len = Ret (all, dst', l).
Proof using Hf1 Hf2.
  induction n as [|n IH]; intros src used dst di len all dst' l u; [by intros [= <- <- <- <-]|]. cbn [dbcs_slow_loop dbcs_loop]. destruct (len =? 0); [by intros [= <- <- <- <-]|].
  destruct (next_char tab size (dbcs_char t) (is_valid_dbcs_mapping t flags) def flags src (S n) used) as [[[c two] u1]| |] eqn:E; cbn [obind]; [|done|done].
  apply plain_next in E as [-> E]. destruct (rd src 0) as [w| |]; cbn [obind] in *; [|done|done]. rewrite E. cbn [obind].
  destruct (put_char c dst di len) as [[[[d i] l1]|]| |]; cbn [obind]; [apply IH|by intros [= <- <- <- <-]|done|done].
Qed.
Lemma length_plain_slow n : forall src used len r u, length_dbcs_loop tab size t def flags src n len used = Ret (r, u) -> length_plain t src n len = Ret r.
Proof using Hf1 Hf2.
  induction n as [|n IH]; intros src used len r u; [by intros [= <- <-]|]. cbn [length_dbcs_loop length_plain].
  destruct (next_char tab size (dbcs_char t) (is_valid_dbcs_mapping t flags) def flags src (S n) used) as [[[c two] u1]| |] eqn:E; cbn [obind]; [|done|done].
  apply plain_next in E as [-> E]. destruct (rd src 0) as [w| |]; cbn [obind] in *; [|done|done]. rewrite E. cbn [obind]. apply IH.
Qed.
End PlainDbcs.
End Slow.

(** ** The query and the conversion *)
Definition dbcs_ok (t : dbcs_table) : Prop :=
  maps_ok 16 (d_uni2cp_low t) (d_uni2cp_high t) /\ zlen (d_leadbytes t) = 256 /\ 256 <= zlen (d_cp2uni t) /\
  Forall (fun off => 0 <= off /\ off * 256 + 256 <= zlen (d_cp2uni t)) (d_leadbytes t) /\ isU 16 (def_char (d_info t)).
Definition table_ok (t : cptable) : Prop := match t with Sbcs t => sbcs_ok t | Dbcs t => dbcs_ok t end.
Definition defchar_ok (d : option (list Z)) : Prop := match d with Some d => 2 <= zlen d | None => True end.

Lemma land_ff v : Z.land v 0xff = v mod 256.
Proof. change 0xff with (2 ^ 8 - 1). by rewrite land_pow2_mask by lia. Qed.
Lemma sbcs_def_ok t d : defchar_ok d -> exists def, sbcs_def t d = Ret def /\ isU 8 def.
Proof.
  intros H. destruct d as [d|]; simpl in *.
  - rewrite (rd_in 0) by lia. eexists. split; [done|]. by apply wrapU_range.
  - eexists. split; [done|]. rewrite land_ff. apply Z.mod_pos_bound. lia.
Qed.
Lemma dbcs_def_ok t d : isU 16 (def_char (d_info t)) -> defchar_ok d -> exists def, dbcs_def t d = Ret def /\ isU 16 def.
Proof.
  intros Ht H. destruct d as [d|]; simpl in *; [|by eexists]. rewrite !(rd_in 0) by lia. cbn [obind]. eexists. split; [done|]. by apply wrapU_range.
Qed.
Lemma sbcs_valid_ok t flags w c : sbcs_ok t -> isU 8 c -> exists b, is_valid_sbcs_mapping t flags w c = Ret b.
Proof.
  intros [_ Hc] H. unfold is_valid_sbcs_mapping. destruct (has_flag flags WC_NO_BEST_FIT_CHARS); [|destruct (negb (c =? _)); by eexists].
  rewrite (rd_in 0) by (unfold isU in H; lia). by eexists.
Qed.
Lemma dbcs_valid_ok t flags w c : dbcs_ok t -> isU 16 c -> exists b, is_valid_dbcs_mapping t flags w c = Ret b.
Proof.
  intros (_ & Hl & Hc & Hf & _) H. unfold is_valid_dbcs_mapping. destruct ((c =? _) && _); [by eexists|]. destruct (has_flag flags WC_NO_BEST_FIT_CHARS); [|by eexists].
  unfold isU in H. change (2 ^ 16) with 65536 in H. pose proof (Z.mod_pos_bound c 256 ltac:(lia)). rewrite land_ff. destruct (is_double c).
  - assert (Hs : 0 <= Z.shiftr c 8 < 256) by (rewrite Z.shiftr_div_pow2 by lia; change (2 ^ 8) with 256; dlia). rewrite (rd_in 0) by lia. cbn [obind].
    pose proof (nthZ_Forall _ 0 _ _ Hf ltac:(rewrite Hl; exact Hs)) as Ho. cbv beta in Ho. rewrite Z.shiftl_mul_pow2 by lia. change (2 ^ 8) with 256. rewrite (rd_in 0) by lia. by eexists.
  - rewrite (rd_in 0) by lia. by eexists.
Qed.
Lemma dbcs_char_ok t w : dbcs_ok t -> isU 16 w -> exists c, dbcs_char t w = Ret c /\ isU 16 c.
Proof. intros (Hm & _) Hw. destruct (uni2cp_ok 16 _ _ w Hm Hw) as [E H]. unfold dbcs_char. rewrite E. by eexists. Qed.

(** the conversion of a string: its bytes whatever the buffer *)
Definition converts (f : list Z -> Z -> outcome (Z * list Z * option bool)) (bs : list Z) : Prop :=
  (forall dst, exists u, f dst 0 = Ret (zlen bs, dst, u)) /\
  (forall dst dstlen, 0 < dstlen <= zlen dst -> zlen bs <= dstlen -> exists u, f dst dstlen = Ret (zlen bs, bs ++ drop (length bs) dst, u)) /\
  (forall dst dstlen, 0 < dstlen <= zlen dst -> dstlen < zlen bs -> exists dst' u, f dst dstlen = Ret (-1, dst', u) /\ length dst' = length dst).

(** the exception: a double-byte code page, WC_NO_BEST_FIT_CHARS, and neither a
    default character, nor *used, nor WC_COMPOSITECHECK *)
Definition query_agrees (t : cptable) (flags : Z) (defchar : option (list Z)) (want_used : bool) : bool :=
  match t with
  | Sbcs _ => true
  | Dbcs _ => negb (has_flag flags WC_NO_BEST_FIT_CHARS) || bool_decide (is_Some defchar) || want_used || has_flag flags WC_COMPOSITECHECK
  end.

Section TwoCalls.
Context (tab : list Z) (size : Z) (Hcompose : compose_ok tab size).
Lemma sbcs_two_calls t flags s srclen defchar want : sbcs_ok t -> Forall (isU 16) s -> 0 <= srclen <= zlen s -> defchar_ok defchar -> exists bs,
  bytes bs /\ converts (fun dst dstlen => wine_cp_wcstombs tab size (Sbcs t) flags s srclen dst dstlen defchar want) bs.
Proof using Hcompose.
  intros Ht Hs Hn Hd. unfold wine_cp_wcstombs. destruct (negb (flags =? 0) || bool_decide (is_Some defchar) || want) eqn:Eslow.
  - destruct (sbcs_def_ok t defchar Hd) as (def & Ed & Hdef).
    assert (Hlk : forall w, isU 16 w -> exists c, sbcs_char t w = Ret c /\ isU 8 c) by (intros w Hw; eexists; by apply sbcs_char_ok).
    destruct (chars_total tab size Hcompose (sbcs_char t) (is_valid_sbcs_mapping t flags) def flags 8 Hlk (fun w c _ Hc => sbcs_valid_ok t flags w c Ht Hc) Hdef (Z.to_nat srclen) s false Hs)
      as (cs & u & E & Hcs); [unfold zlen in Hn; lia|].
    exists cs. split; [done|]. unfold converts. conj.
    + intros dst. unfold get_length_sbcs. rewrite (length_sbcs_ok tab size t flags def _ _ _ 0 cs u E). by eexists.
    + intros dst dstlen Hd1 Hd2. replace (dstlen =? 0) with false by lia. unfold wcstombs_sbcs_slow. rewrite Ed. cbn [obind].
      pose proof (sbcs_slow_ok tab size t flags def _ s false [] dst dstlen cs u E ltac:(lia)) as Es. cbn [app] in Es. change (zlen (@nil Z)) with 0 in Es. rewrite Es. cbn [obind].
      replace (dstlen - (dstlen - zlen cs)) with (zlen cs) by lia. by eexists.
    + intros dst dstlen Hd1 Hd2. replace (dstlen =? 0) with false by lia. unfold wcstombs_sbcs_slow. rewrite Ed. cbn [obind].
      destruct (sbcs_slow_short tab size t flags def _ s false [] dst dstlen cs u E ltac:(lia) ltac:(lia)) as (u' & Es). cbn [app] in Es. change (zlen (@nil Z)) with 0 in Es. rewrite Es. cbn [obind].
      eexists _, _. split; [done|]. rewrite length_app, length_take, length_drop. unfold zlen in *. lia.
  - assert (Esrc : s = take (Z.to_nat srclen) s ++ drop (Z.to_nat srclen) s) by (by rewrite take_drop). set (p := take (Z.to_nat srclen) s) in *. assert (El : zlen p = srclen) by (unfold p, zlen in *; rewrite length_take; lia).
    assert (Hp : Forall (isU 16) p) by (by apply Forall_take). assert (Em : zlen (map (sb t) p) = srclen) by (rewrite <- El; unfold zlen; by rewrite length_map).
    exists (map (sb t) p). split; [apply Forall_map; eapply Forall_impl; [|exact Hp]; intros w Hw; by apply (sbcs_char_ok t Ht)|]. unfold converts. rewrite Esrc. conj.
    + intros dst. rewrite Em. by eexists.
    + intros dst dstlen Hd1 Hd2. replace (dstlen =? 0) with false by lia. rewrite <- El, wcstombs_sbcs_ok by (done || lia). cbn [obind]. rewrite Em, <- El, length_map. by eexists.
    + intros dst dstlen Hd1 Hd2. replace (dstlen =? 0) with false by lia. rewrite <- El, wcstombs_sbcs_short by (done || lia). cbn [obind]. eexists _, _. split; [done|].
      rewrite length_app, length_take, length_map, length_drop. unfold zlen in *. lia.
Qed.
Lemma bytes_of_bytes c : isU 16 c -> bytes (bytes_of c).
Proof using.
  unfold isU. change (2 ^ 16) with 65536. intros H. unfold bytes_of. assert (isU 8 (u8 c)) by (by apply wrapU_range).
  assert (isU 8 (Z.shiftr c 8)) by (unfold isU; rewrite Z.shiftr_div_pow2 by lia; change (2 ^ 8) with 256; dlia). destruct (is_double c); repeat (constructor; [done|]); constructor.
Qed.
Lemma bytes_of_all_bytes cs : Forall (isU 16) cs -> bytes (concat (map bytes_of cs)).
Proof using. induction 1 as [|c cs Hc _ IH]; [constructor|]. simpl. apply Forall_app. split; [by apply bytes_of_bytes|done]. Qed.
Lemma dbcs_two_calls t flags s srclen defchar want : dbcs_ok t -> Forall (isU 16) s -> 0 <= srclen <= zlen s -> defchar_ok defchar -> query_agrees (Dbcs t) flags defchar want = true -> exists bs,
  bytes bs /\ converts (fun dst dstlen => wine_cp_wcstombs tab size (Dbcs t) flags s srclen dst dstlen defchar want) bs.
Proof using Hcompose.
  intros Ht Hs Hn Hd Hq. assert (Ht5 : isU 16 (def_char (d_info t))) by apply Ht. destruct (dbcs_def_ok t defchar Ht5 Hd) as (def & Ed & Hdef).
  destruct (chars_total tab size Hcompose (dbcs_char t) (is_valid_dbcs_mapping t flags) def flags 16 (fun w => dbcs_char_ok t w Ht) (fun w c _ Hc => dbcs_valid_ok t flags w c Ht Hc) Hdef (Z.to_nat srclen) s false Hs)
    as (cs & u & E & Hcs); [unfold zlen in Hn; lia|]. exists (concat (map bytes_of cs)). split; [by apply bytes_of_all_bytes|]. unfold converts, wine_cp_wcstombs, query_agrees in *.
  pose proof (length_dbcs_ok tab size t flags def _ _ _ 0 cs u E) as El.
  (* the slow conversion *)
  assert (Sok : forall dst dstlen, 0 < dstlen <= zlen dst -> zlen (concat (map bytes_of cs)) <= dstlen -> dbcs_slow_loop tab size t def flags s (Z.to_nat srclen) dst 0 dstlen false =
    Ret (true, concat (map bytes_of cs) ++ drop (length (concat (map bytes_of cs))) dst, dstlen - zlen (concat (map bytes_of cs)), u)).
  { intros dst dstlen Hd1 Hd2. pose proof (dbcs_slow_ok tab size t flags def _ s false [] dst dstlen cs u E ltac:(lia)) as Es. exact Es. }
  assert (Ssh : forall dst dstlen, 0 < dstlen <= zlen dst -> dstlen < zlen (concat (map bytes_of cs)) -> exists dst' l u', dbcs_slow_loop tab size t def flags s (Z.to_nat srclen) dst 0 dstlen false = Ret (false, dst', l, u') /\ length dst' = length dst).
  { intros dst dstlen Hd1 Hd2. exact (dbcs_slow_short tab size t flags def _ s false [] dst dstlen cs u E ltac:(lia) ltac:(lia)). }
  destruct (negb (bool_decide (is_Some defchar)) && negb want && negb (has_flag flags WC_COMPOSITECHECK)) eqn:Efast.
  - (* the length without flags *)
    destruct defchar as [d|]; [done|]. cbn [dbcs_def] in Ed. injection Ed as <-. destruct want; [by rewrite andb_false_r in Efast|].
    apply andb_prop in Efast as [_ Ef1]. apply negb_true_iff in Ef1. rewrite Ef1, !orb_false_r in Hq. apply negb_true_iff in Hq.
    conj.
    + intros dst. change (0 =? 0) with true. cbv iota. unfold get_length_dbcs. change (bool_decide (is_Some (@None (list Z)))) with false. rewrite Ef1. simpl andb. cbv iota. rewrite (length_plain_slow tab size t flags Ef1 Hq _ _ _ _ _ _ El). by eexists.
    + intros dst dstlen Hd1 Hd2. replace (dstlen =? 0) with false by lia. specialize (Sok dst dstlen Hd1 Hd2). destruct (negb (flags =? 0) || bool_decide (is_Some None) || false).
      * unfold wcstombs_dbcs_slow. cbn [dbcs_def obind]. rewrite Sok. cbn [obind]. eexists. do 3 f_equal. lia.
      * unfold wcstombs_dbcs. rewrite (dbcs_loop_slow tab size t flags Ef1 Hq _ _ _ _ _ _ _ _ _ _ Sok). cbn [obind]. eexists. do 3 f_equal. lia.
    + intros dst dstlen Hd1 Hd2. replace (dstlen =? 0) with false by lia. destruct (Ssh dst dstlen Hd1 Hd2) as (dst' & l & u' & Es & Hlen). destruct (negb (flags =? 0) || bool_decide (is_Some None) || false).
      * unfold wcstombs_dbcs_slow. cbn [dbcs_def obind]. rewrite Es. cbn [obind]. eexists _, _. split; done.
      * unfold wcstombs_dbcs. rewrite (dbcs_loop_slow tab size t flags Ef1 Hq _ _ _ _ _ _ _ _ _ _ Es). cbn [obind]. eexists _, _. split; done.
  - assert (Eslow : negb (flags =? 0) || bool_decide (is_Some defchar) || want = true).
    { destruct (bool_decide (is_Some defchar)), want; rewrite ?orb_true_r; try done. simpl in Efast. apply negb_false_iff in Efast. destruct (Z.eqb_spec flags 0) as [->|]; done. }
    rewrite Eslow. conj.
    + intros dst. change (0 =? 0) with true. cbv iota. unfold get_length_dbcs. rewrite Efast, Ed. cbn [obind]. rewrite El. by eexists.
    + intros dst dstlen Hd1 Hd2. replace (dstlen =? 0) with false by lia. unfold wcstombs_dbcs_slow. rewrite Ed. cbn [obind]. rewrite Sok by done. cbn [obind]. eexists. do 3 f_equal. lia.
    + intros dst dstlen Hd1 Hd2. replace (dstlen =? 0) with false by lia. unfold wcstombs_dbcs_slow. rewrite Ed. cbn [obind]. destruct (Ssh dst dstlen Hd1 Hd2) as (dst' & l & u' & Es & Hlen). rewrite Es. cbn [obind]. eexists _, _. split; done.
Qed.
End TwoCalls.

(** ** To Unicode *)
Section GetRows.
Context (map : list Z) (Hmap : 256 <= zlen map).
Abbreviation f := (nthZ 0 map).
Lemma get_row_ok post : forall s pre dp dm, bytes s -> zlen pre = zlen dp -> (length s <= length dm)%nat ->
  get_row (length s) map (pre ++ s ++ post) (zlen pre) (dp ++ dm) = Ret ((dp ++ List.map f s) ++ drop (length s) dm).
Proof using Hmap.
  intros s. revert post. induction s as [|b s IH] using rev_ind; intros post pre dp dm Hs Hp Hl; [simpl; by rewrite app_nil_r|].
  apply Forall_app in Hs as [Hs Hb]. apply Forall_cons_1 in Hb as [Hb _]. rewrite length_app, Nat.add_1_r in *. cbn [get_row].
  replace (pre ++ (s ++ [b]) ++ post) with ((pre ++ s) ++ b :: post) by (by rewrite <- !app_assoc). rewrite (rd_app (pre ++ s)) by (rewrite zlen_app; unfold zlen; lia). cbn [obind].
  rewrite (rd_in 0) by (unfold isU in Hb; lia). cbn [obind]. rewrite Hp.
  assert (exists dm1 x dm2, dm = dm1 ++ x :: dm2 /\ length dm1 = length s) as (dm1 & x & dm2 & -> & Hd1).
  { exists (take (length s) dm). destruct (drop (length s) dm) as [|x dm2] eqn:E; [pose proof (f_equal length E) as E2; rewrite length_drop in E2; simpl in E2; lia|].
    exists x, dm2. split; [rewrite <- E; by rewrite take_drop|rewrite length_take; lia]. }
  rewrite app_assoc, wr_app by (rewrite zlen_app; unfold zlen; lia). cbn [obind]. rewrite <- !app_assoc. cbn [app]. rewrite <- Hp.
  rewrite IH; [|done|done|rewrite length_app; lia]. rewrite <- Hd1, drop_app_length. rewrite map_app. cbn [List.map]. rewrite <- !app_assoc. cbn [app].
  replace (S (length dm1)) with (length (dm1 ++ [x])) by (rewrite length_app; simpl; lia). change (dm1 ++ x :: dm2) with (dm1 ++ [x] ++ dm2). rewrite (app_assoc dm1). by rewrite drop_app_length.
Qed.
Lemma get_rows_ok fuel : forall s pre post dp dm, (length s < fuel)%nat -> bytes s -> zlen pre = zlen dp -> zlen s <= zlen dm ->
  get_rows fuel map (pre ++ s ++ post) (zlen pre) (zlen s) (dp ++ dm) = Ret ((dp ++ List.map f s) ++ drop (length s) dm).
Proof using Hmap.
  induction fuel as [|fuel IH]; intros s pre post dp dm Hf Hs Hp Hd; [lia|]. cbn [get_rows]. destruct (Z.ltb_spec (zlen s) 16) as [H16|H16].
  - rewrite Z.min_l, zlen_nat by lia. rewrite get_row_ok by (done || (unfold zlen in Hd; lia)). done.
  - rewrite Z.min_r by lia. assert (bytes (take 16 s) /\ bytes (drop 16 s)) as [Hs1 Hs2] by (split; [by apply Forall_take|by apply Forall_drop]).
    assert (Es : pre ++ s ++ post = pre ++ take 16 s ++ drop 16 s ++ post) by (by rewrite (app_assoc (take 16 s)), take_drop). rewrite Es. clear Es.
    assert (length (take 16 s) = 16)%nat as El by (rewrite length_take; unfold zlen in H16; lia). change (Z.to_nat 16) with 16%nat. rewrite <- El at 1.
    rewrite get_row_ok by (done || (unfold zlen in *; lia)). cbn [obind].
    replace (zlen pre + 16) with (zlen (pre ++ take 16 s)) by (rewrite zlen_app; unfold zlen at 2; rewrite El; lia).
    replace (zlen s - 16) with (zlen (drop 16 s)) by (unfold zlen in *; rewrite length_drop; lia). rewrite (app_assoc pre).
    rewrite IH; [|rewrite length_drop; unfold zlen in H16; lia|done|rewrite !zlen_app; unfold zlen at 2 4; rewrite length_map; lia|unfold zlen in *; rewrite !length_drop, El; lia].
    rewrite <- (app_assoc dp), <- map_app, take_drop, drop_drop. do 2 f_equal. rewrite El, length_drop. unfold zlen in H16. f_equal. lia.
Qed.
End GetRows.

(** *** Decompositions *)
Section Decomposition.
Context (tab : list Z).
(** the entry of a character: its two parts, the first one 0 when there is none *)
Definition entry (w : Z) : outcome Z :=
  let! p := rd tab (Z.shiftr w 8) in
  let! p := rd tab (p + Z.land (Z.shiftr w 4) 0xf) in
  Ret (p + 2 * Z.land w 0xf).
Inductive decomp : Z -> list Z -> Prop :=
| decomp_self w ptr : entry w = Ret ptr -> rd tab ptr = Ret 0 -> decomp w [w]
| decomp_pair w ptr c0 c1 l : entry w = Ret ptr -> rd tab ptr = Ret c0 -> c0 <> 0 -> rd tab (ptr + 1) = Ret c1 -> decomp c0 l -> decomp w (l ++ [c1]).
Lemma decomp_nonempty w l : decomp w l -> (1 <= length l)%nat.
Proof using. destruct 1; rewrite ?length_app; simpl; lia. Qed.
Lemma get_decomposition_unfold n w dst di : get_decomposition tab n w dst di =
  let! dst := wr dst di w in
  let! ptr := entry w in
  let! c0 := rd tab ptr in
  if c0 =? 0 then Ret (1, dst) else
  match n with
  | S (S _ as n) =>
    let! (res, dst) := get_decomposition tab n c0 dst di in
    if negb (res =? 0) then let! c1 := rd tab (ptr + 1) in let! dst := wr dst (di + res) c1 in Ret (res + 1, dst) else Ret (0, dst)
  | _ => Ret (0, dst)
  end.
Proof using.
  unfold entry. destruct n as [|n]; cbn [get_decomposition]; destruct (wr dst di w); cbn [obind]; try done; destruct (rd tab (Z.shiftr w 8)); cbn [obind]; try done;
    destruct (rd tab (_ + _)); cbn [obind]; done.
Qed.
Lemma get_decomposition_ok w l : decomp w l -> forall n dp dm, (length l <= n)%nat -> (length l <= length dm)%nat ->
  get_decomposition tab n w (dp ++ dm) (zlen dp) = Ret (zlen l, (dp ++ l) ++ drop (length l) dm).
Proof using.
  induction 1 as [w ptr He H0|w ptr c0 c1 l He H0 Hn H1 Hd IH]; intros n dp dm Hl Hm; rewrite get_decomposition_unfold; (rewrite wr_next by (intros ->; rewrite ?length_app in Hm; simpl in Hm; lia)); cbn [obind]; rewrite He; cbn [obind]; rewrite H0; cbn [obind].
  - done.
  - replace (c0 =? 0) with false by lia. pose proof (decomp_nonempty _ _ Hd). rewrite length_app in *. simpl in Hl, Hm. destruct n as [|[|n]]; [lia|lia|].
    rewrite <- app_assoc. rewrite IH by (rewrite ?length_app, ?length_drop; simpl; lia). cbn [obind]. replace (zlen l =? 0) with false by (unfold zlen; lia). simpl negb. cbv iota. rewrite H1. cbn [obind].
    assert (Ed : drop (length l) ([w] ++ drop 1 dm) = drop (length l) dm).
    { destruct dm as [|x dm]; [simpl in Hm; lia|]. cbn [app]. destruct l as [|y l]; [simpl in *; lia|]. done. }
    rewrite Ed, <- zlen_app, wr_next by (intros E; apply (f_equal length) in E; rewrite length_drop in E; simpl in E; lia). cbn [obind].
    rewrite drop_drop, <- !app_assoc, zlen_app. done.
Qed.
Lemma get_decomposition_short w l : decomp w l -> forall n dp dm, (1 <= n < length l)%nat -> (n <= length dm)%nat ->
  exists dst', get_decomposition tab n w (dp ++ dm) (zlen dp) = Ret (0, dst') /\ length dst' = length (dp ++ dm).
Proof using.
  induction 1 as [w ptr He H0|w ptr c0 c1 l He H0 Hn H1 Hd IH]; intros n dp dm Hl Hm; [simpl in Hl; lia|]. rewrite get_decomposition_unfold.
  rewrite wr_next by (intros ->; simpl in Hm; lia). cbn [obind]. rewrite He. cbn [obind]. rewrite H0. cbn [obind]. replace (c0 =? 0) with false by lia. rewrite length_app in Hl. simpl in Hl.
  assert (El : length ((dp ++ [w]) ++ drop 1 dm) = length (dp ++ dm)) by (repeat rewrite length_app; rewrite length_drop; simpl; lia).
  destruct n as [|[|n]]; [lia|eexists; split; [done|done]|]. rewrite <- app_assoc in *. destruct (IH (S n) dp ([w] ++ drop 1 dm)) as (dst' & E & Hlen); [lia|rewrite length_app, length_drop; simpl; lia|].
  rewrite E. cbn [obind]. exists dst'. split; [done|]. by rewrite Hlen.
Qed.
End Decomposition.
End CodePageSpec.
