(* ===== verification/CodePageRead.v ===== *)
(** * Code pages: reading, and the claims

    A reference for the loops of mbtowc.c (the characters a string of bytes has,
    and whether a lone lead byte is left at its end), the loops against it, and
    the theorems on both directions. *)
From S2P Require Import Prelude Utf8 Utf8Spec CodePage CodePageSpec.
Import Utf8 Utf8Spec CodePage CodePageSpec.

Module CodePageRead.

(** ** The reference *)
Section Reference.
Context (next : list Z -> nat -> outcome (option (Z * bool))).
(** the characters of a string, each with its code of one or two bytes; [true]
    when a lead byte is left over *)
Fixpoint mb_chars (src : list Z) (srclen : nat) : outcome (list (Z * Z) * bool) :=
  match srclen with
  | O => Ret ([], false)
  | S n =>
    let! r := next src srclen in
    match r with
    | None => Ret ([], true)
    | Some (w, two) =>
      let! b := rd src 0 in
      if (two : bool) then
        match n with
        | O => Fault
        | S n =>
          let! c := rd src 1 in
          let! (ws, part) := mb_chars (drop 2 src) n in
          Ret ((Z.lor (Z.shiftl b 8) c, w) :: ws, part)
        end
      else let! (ws, part) := mb_chars (drop 1 src) n in Ret ((b, w) :: ws, part)
    end
  end.
(** what a round of a loop over the characters does *)
Lemma mb_chars_inv n src ws part : mb_chars src (S n) = Ret (ws, part) ->
  (next src (S n) = Ret None /\ ws = [] /\ part = true) \/
  exists c w two ws', next src (S n) = Ret (Some (w, two)) /\ ws = (c, w) :: ws' /\
    match (two : bool) with
    | true => exists m b b1, n = S m /\ rd src 0 = Ret b /\ rd src 1 = Ret b1 /\ c = Z.lor (Z.shiftl b 8) b1 /\ mb_chars (drop 2 src) m = Ret (ws', part)
    | false => rd src 0 = Ret c /\ mb_chars (drop 1 src) n = Ret (ws', part)
    end.
Proof using.
  cbn [mb_chars]. destruct (next src (S n)) as [[[w two]|]| |]; cbn [obind]; try done; [|intros [= <- <-]; by left]. intros E. right.
  destruct (rd src 0) as [b| |] eqn:Eb; cbn [obind] in E; try done. destruct two.
  - destruct n as [|m]; [done|]. destruct (rd src 1) as [b1| |] eqn:Eb1; cbn [obind] in E; try done. destruct (mb_chars (drop 2 src) m) as [[ws' p]| |] eqn:Er; cbn [obind] in E; try done.
    injection E as <- <-. eexists _, w, true, ws'. conj; try done. by exists m, b, b1.
  - destruct (mb_chars (drop 1 src) n) as [[ws' p]| |] eqn:Er; cbn [obind] in E; try done. injection E as <- <-. by exists b, w, false, ws'.
Qed.
End Reference.

Definition next_mb (t : cptable) (flags : Z) : list Z -> nat -> outcome (option (Z * bool)) :=
  match t with Sbcs t => next_sbcs (sbcs_map t flags) | Dbcs t => next_dbcs t end.
Definition mb_ok (t : cptable) : Prop :=
  match t with
  | Sbcs t => 256 <= zlen (s_cp2uni t) /\ 256 <= zlen (s_cp2uni_glyphs t)
  | Dbcs t => dbcs_ok t
  end.
Lemma sbcs_map_size t flags : mb_ok (Sbcs t) -> 256 <= zlen (sbcs_map t flags).
Proof. intros [H1 H2]. unfold sbcs_map. by destruct (has_flag flags MB_USEGLYPHCHARS). Qed.

(** ** The loops against the reference *)

(** the reference is total *)
Lemma next_dbcs_ok t src n : dbcs_ok t -> bytes src -> (S n <= length src)%nat ->
  next_dbcs t src (S n) = Ret None \/ exists w two, next_dbcs t src (S n) = Ret (Some (w, two)) /\ (two = true -> (1 <= n)%nat).
Proof.
  intros (_ & Hl & Hc & Hf & _) Hb Hn. destruct src as [|b src]; [simpl in Hn; lia|]. apply Forall_cons_1 in Hb as [Hb Hs]. unfold next_dbcs, isU in *. change (2 ^ 8) with 256 in *.
  rewrite rd0. cbn [obind]. rewrite (rd_in 0) by lia. cbn [obind]. pose proof (nthZ_Forall _ 0 _ b Hf ltac:(lia)) as Ho. cbv beta in Ho. destruct (Z.eqb_spec (nthZ 0 (d_leadbytes t) b) 0) as [E|E]; simpl negb; cbv iota.
  - right. rewrite (rd_in 0) by lia. eexists _, false. done.
  - destruct n as [|n]; [by left|]. right. simpl (_ =? _)%nat. cbv iota. destruct src as [|c src]; [simpl in Hn; lia|]. apply Forall_cons_1 in Hs as [Hc2 _]. unfold isU in Hc2. change (2 ^ 8) with 256 in *.
    rewrite rd1. cbn [obind]. rewrite Z.shiftl_mul_pow2 by lia. change (2 ^ 8) with 256. rewrite (rd_in 0) by lia. eexists _, true. split; [done|lia].
Qed.
Lemma next_mb_ok t flags src n : mb_ok t -> bytes src -> (S n <= length src)%nat ->
  next_mb t flags src (S n) = Ret None \/ exists w two, next_mb t flags src (S n) = Ret (Some (w, two)) /\ (two = true -> (1 <= n)%nat).
Proof.
  intros Ht Hb Hn. destruct t as [t|t]; [|by apply next_dbcs_ok]. right. destruct src as [|b src]; [simpl in Hn; lia|]. apply Forall_cons_1 in Hb as [Hb _]. unfold isU in Hb.
  simpl. unfold next_sbcs. rewrite rd0. cbn [obind]. rewrite (rd_in 0) by (pose proof (sbcs_map_size t flags Ht); lia). eexists _, false. done.
Qed.
Lemma mb_chars_total t flags : mb_ok t -> forall n src, bytes src -> (n <= length src)%nat -> exists ws part, mb_chars (next_mb t flags) src n = Ret (ws, part).
Proof.
  intros Ht. induction n as [n IH] using lt_wf_ind. intros src Hb Hn. destruct n as [|n]; [by eexists _, _|]. cbn [mb_chars].
  destruct (next_mb_ok t flags src n Ht Hb Hn) as [E|(w & two & E & H2)]; rewrite E; cbn [obind]; [by eexists _, _|].
  destruct src as [|b src]; [simpl in Hn; lia|]. rewrite rd0. cbn [obind]. destruct two.
  - destruct n as [|n]; [specialize (H2 eq_refl); lia|]. destruct src as [|c src]; [simpl in Hn; lia|]. rewrite rd1. cbn [obind].
    destruct (IH n ltac:(lia) (drop 2 (b :: c :: src))) as (ws & part & Er); [by apply Forall_drop|simpl in *; rewrite ?drop_0; lia|]. rewrite Er. cbn [obind]. by eexists _, _.
  - destruct (IH n ltac:(lia) (drop 1 (b :: src))) as (ws & part & Er); [by apply Forall_drop|simpl in *; rewrite ?drop_0; lia|]. rewrite Er. cbn [obind]. by eexists _, _.
Qed.

(** *** Double-byte characters without decomposition *)
Lemma mbs_dbcs_loop_next t src n dst di len : mbs_dbcs_loop t src (S n) dst di len =
  if len =? 0 then Ret (false, dst, len) else
  let! r := next_dbcs t src (S n) in
  match r with
  | None => Ret (true, dst, len)
  | Some (w, two) =>
    let! dst := wr dst di w in
    if (two : bool) then match n with O => Fault | S n => mbs_dbcs_loop t (drop 2 src) n dst (di + 1) (len - 1) end
    else mbs_dbcs_loop t (drop 1 src) n dst (di + 1) (len - 1)
  end.
Proof.
  cbn [mbs_dbcs_loop]. destruct (len =? 0); [done|]. unfold next_dbcs. destruct (rd src 0) as [b| |]; cbn [obind]; try done. destruct (rd (d_leadbytes t) b) as [off| |]; cbn [obind]; try done.
  destruct (negb (off =? 0)); [|by destruct (rd (d_cp2uni t) b)]. destruct n as [|n]; [done|]. simpl (_ =? _)%nat. cbv iota. destruct (rd src 1) as [c| |]; cbn [obind]; try done.
  by destruct (rd (d_cp2uni t) (Z.shiftl off 8 + c)).
Qed.
Lemma dbcs_length_ok t n : forall src len ws part, mb_chars (next_dbcs t) src n = Ret (ws, part) -> dbcs_length_loop t src n len = Ret (len + zlen ws).
Proof.
  induction n as [n IH] using lt_wf_ind. intros src len ws part E. destruct n as [|n]; [injection E as <- <-; change (zlen (@nil (Z * Z))) with 0; by rewrite Z.add_0_r|]. cbn [dbcs_length_loop].
  apply mb_chars_inv in E as [(E & -> & ->)|(c & w & two & ws' & E & -> & Hr)]; unfold next_dbcs in E; destruct (rd src 0) as [b| |]; cbn [obind] in *; try done;
    destruct (rd (d_leadbytes t) b) as [off| |]; cbn [obind] in *; try done; destruct (negb (off =? 0)).
  - destruct n as [|n]; [change (zlen (@nil (Z * Z))) with 0; by rewrite Z.add_0_r|]. simpl (_ =? _)%nat in E. cbv iota in E. destruct (rd src 1); cbn [obind] in E; try done. by destruct (rd (d_cp2uni t) _).
  - by destruct (rd (d_cp2uni t) b).
  - destruct n as [|n]; [done|]. simpl (_ =? _)%nat in E. cbv iota in E. destruct (rd src 1); cbn [obind] in E; try done. destruct (rd (d_cp2uni t) _); cbn [obind] in E; try done. injection E as <- <-.
    destruct Hr as (m & b' & b1 & [= <-] & _ & _ & _ & Hr). rewrite (IH n ltac:(lia) _ _ _ _ Hr), zlen_cons. f_equal. lia.
  - destruct (rd (d_cp2uni t) b); cbn [obind] in E; try done. injection E as <- <-. destruct Hr as [_ Hr]. rewrite (IH n ltac:(lia) _ _ _ _ Hr), zlen_cons. f_equal. lia.
Qed.
(** the room a string needs: a lead byte left over counts for one *)
Definition need {A} (ws : list A) (part : bool) : Z := zlen ws + (if part then 1 else 0).
Lemma mbs_dbcs_ok t n : forall src dp dm len ws part, mb_chars (next_dbcs t) src n = Ret (ws, part) -> need ws part <= len <= zlen dm ->
  mbs_dbcs_loop t src n (dp ++ dm) (zlen dp) len = Ret (true, (dp ++ map snd ws) ++ drop (length ws) dm, len - zlen ws).
Proof.
  induction n as [n IH] using lt_wf_ind. unfold need. intros src dp dm len ws part E Hl. destruct n as [|n]; [injection E as <- <-; cbn; by rewrite app_nil_r, Z.sub_0_r|].
  rewrite mbs_dbcs_loop_next. apply mb_chars_inv in E as [(E & -> & ->)|(c & w & two & ws' & E & -> & Hr)]; pose proof (zlen_nonneg dm).
  - change (zlen (@nil (Z * Z))) with 0 in *. replace (len =? 0) with false by lia. rewrite E. cbn [obind map length drop]. by rewrite app_nil_r, Z.sub_0_r.
  - rewrite zlen_cons in *. pose proof (zlen_nonneg ws'). assert (0 <= if part then 1 else 0) by (destruct part; lia). replace (len =? 0) with false by lia. rewrite E. cbn [obind].
    rewrite wr_next by (intros ->; change (zlen (@nil Z)) with 0 in *; lia). cbn [obind]. rewrite <- (zlen_snoc dp w).
    assert (Hg : forall m src', (m < S n)%nat -> mb_chars (next_dbcs t) src' m = Ret (ws', part) -> mbs_dbcs_loop t src' m ((dp ++ [w]) ++ drop 1 dm) (zlen (dp ++ [w])) (len - 1) =
      Ret (true, (dp ++ map snd ((c, w) :: ws')) ++ drop (length ((c, w) :: ws')) dm, len - (zlen ws' + 1))).
    { intros m src' Hm Em. rewrite (IH m Hm _ _ _ _ _ _ Em) by (unfold need, zlen in *; rewrite length_drop; lia). rewrite drop_drop, <- !app_assoc. f_equal. f_equal. lia. }
    destruct two; [destruct Hr as (m & b & b1 & -> & _ & _ & _ & Hr)|destruct Hr as [_ Hr]]; apply Hg; done || lia.
Qed.
Lemma mbs_dbcs_short t n : forall src dp dm len ws part, mb_chars (next_dbcs t) src n = Ret (ws, part) -> 0 <= len < need ws part -> len <= zlen dm ->
  mbs_dbcs_loop t src n (dp ++ dm) (zlen dp) len = Ret (false, (dp ++ take (Z.to_nat len) (map snd ws)) ++ drop (Z.to_nat len) dm, 0).
Proof.
  induction n as [n IH] using lt_wf_ind. unfold need. intros src dp dm len ws part E Hl Hm. destruct n as [|n]; [injection E as <- <-; change (zlen (@nil (Z * Z))) with 0 in *; lia|].
  rewrite mbs_dbcs_loop_next. destruct (Z.eqb_spec len 0) as [->|Hn0]; [simpl; by rewrite app_nil_r|].
  apply mb_chars_inv in E as [(E & -> & ->)|(c & w & two & ws' & E & -> & Hr)]; [change (zlen (@nil (Z * Z))) with 0 in *; lia|].
  rewrite zlen_cons in *. rewrite E. cbn [obind]. rewrite wr_next by (intros ->; change (zlen (@nil Z)) with 0 in *; lia). cbn [obind]. rewrite <- (zlen_snoc dp w).
  assert (Hg : forall m src', (m < S n)%nat -> mb_chars (next_dbcs t) src' m = Ret (ws', part) -> mbs_dbcs_loop t src' m ((dp ++ [w]) ++ drop 1 dm) (zlen (dp ++ [w])) (len - 1) =
    Ret (false, (dp ++ take (Z.to_nat len) (map snd ((c, w) :: ws'))) ++ drop (Z.to_nat len) dm, 0)).
  { intros m src' Hm' Em. rewrite (IH m Hm' _ _ _ _ _ _ Em) by (unfold need, zlen in *; rewrite ?length_drop; lia). rewrite drop_drop. replace (Z.to_nat len) with (S (Z.to_nat (len - 1))) by lia.
    cbn [map snd take]. rewrite <- !app_assoc. done. }
  destruct two; [destruct Hr as (m & b & b1 & -> & _ & _ & _ & Hr)|destruct Hr as [_ Hr]]; apply Hg; done || lia.
Qed.

(** *** Decomposition *)
Section Decompose.
Context (tab : list Z) (next : list Z -> nat -> outcome (option (Z * bool))).
(** [ls]: the decompositions of the characters *)
Abbreviation decomps ws ls := (Forall2 (decomp tab) (map snd ws) ls).
Lemma zlen_concat_cons (l : list Z) ls : zlen (concat (l :: ls)) = zlen l + zlen (concat ls).
Proof using. simpl. by rewrite zlen_app. Qed.
Lemma decompose_length_ok n : forall src len ws part ls, mb_chars next src n = Ret (ws, part) -> decomps ws ls -> Forall (fun l => (length l <= 4)%nat) ls ->
  decompose_length tab next src n len = Ret (len + zlen (concat ls)).
Proof using.
  induction n as [n IH] using lt_wf_ind. intros src len ws part ls E Hd H4. destruct n as [|n]; [injection E as <- <-; apply Forall2_nil_inv_l in Hd as ->; cbn; by rewrite Z.add_0_r|].
  cbn [decompose_length]. apply mb_chars_inv in E as [(E & -> & ->)|(c & w & two & ws' & E & -> & Hr)]; rewrite E; cbn [obind].
  - apply Forall2_nil_inv_l in Hd as ->. cbn. by rewrite Z.add_0_r.
  - apply Forall2_cons_inv_l in Hd as (l & ls' & Hl & Hd & ->). apply Forall_cons_1 in H4 as [Hl4 H4]. rewrite zlen_concat_cons.
    pose proof (get_decomposition_ok tab w l Hl 4 [] [0; 0; 0; 0] Hl4 Hl4) as Eg. cbn [app] in Eg. change (zlen (@nil Z)) with 0 in Eg. simpl snd. rewrite Eg. cbn [obind].
    destruct two; [destruct Hr as (m & b & b1 & -> & _ & _ & _ & Hr)|destruct Hr as [_ Hr]]; (erewrite IH; [|lia|exact Hr|exact Hd|exact H4]); f_equal; lia.
Qed.
Lemma decompose_loop_ok n : forall src dp dm len ws part ls, mb_chars next src n = Ret (ws, part) -> decomps ws ls -> need (concat ls) part <= len <= zlen dm ->
  decompose_loop tab next src n (dp ++ dm) (zlen dp) len = Ret (true, (dp ++ concat ls) ++ drop (length (concat ls)) dm, len - zlen (concat ls)).
Proof using.
  induction n as [n IH] using lt_wf_ind. unfold need. intros src dp dm len ws part ls E Hd Hl.
  destruct n as [|n]; [injection E as <- <-; apply Forall2_nil_inv_l in Hd as ->; cbn; by rewrite app_nil_r, Z.sub_0_r|]. cbn [decompose_loop].
  apply mb_chars_inv in E as [(E & -> & ->)|(c & w & two & ws' & E & -> & Hr)].
  - apply Forall2_nil_inv_l in Hd as ->. cbn [concat] in *. change (zlen (@nil Z)) with 0 in *. replace (len =? 0) with false by lia. rewrite E. cbn [obind length drop]. by rewrite app_nil_r, Z.sub_0_r.
  - apply Forall2_cons_inv_l in Hd as (l & ls' & Hw & Hd & ->). rewrite zlen_concat_cons in *. simpl snd in Hw. pose proof (decomp_nonempty _ _ _ Hw) as H1. pose proof (zlen_nonneg (concat ls')).
    assert (0 <= if part then 1 else 0) by (destruct part; lia). replace (len =? 0) with false by (unfold zlen in *; lia). rewrite E. cbn [obind].
    rewrite (get_decomposition_ok tab w l Hw) by (unfold zlen in *; lia). cbn [obind]. replace (zlen l =? 0) with false by (unfold zlen; lia). rewrite <- zlen_app.
    assert (Hg : forall m src', (m < S n)%nat -> mb_chars next src' m = Ret (ws', part) -> decompose_loop tab next src' m ((dp ++ l) ++ drop (length l) dm) (zlen (dp ++ l)) (len - zlen l) =
      Ret (true, (dp ++ concat (l :: ls')) ++ drop (length (concat (l :: ls'))) dm, len - (zlen l + zlen (concat ls')))).
    { intros m src' Hm Em. rewrite (IH m Hm _ _ _ _ _ _ _ Em Hd) by (unfold need, zlen in *; rewrite length_drop; lia). rewrite drop_drop. cbn [concat]. rewrite length_app, <- !app_assoc. do 2 f_equal. lia. }
    destruct two; [destruct Hr as (m & b & b1 & -> & _ & _ & _ & Hr)|destruct Hr as [_ Hr]]; apply Hg; done || lia.
Qed.
Lemma decompose_loop_short n : forall src dp dm len ws part ls, mb_chars next src n = Ret (ws, part) -> decomps ws ls -> 0 <= len < need (concat ls) part -> len <= zlen dm ->
  exists dst' l, decompose_loop tab next src n (dp ++ dm) (zlen dp) len = Ret (false, dst', l) /\ length dst' = length (dp ++ dm).
Proof using.
  induction n as [n IH] using lt_wf_ind. unfold need. intros src dp dm len ws part ls E Hd Hl Hm.
  destruct n as [|n]; [injection E as <- <-; apply Forall2_nil_inv_l in Hd as ->; cbn [concat] in *; change (zlen (@nil Z)) with 0 in *; lia|]. cbn [decompose_loop].
  destruct (Z.eqb_spec len 0) as [->|Hn0]; [by eexists _, _|]. apply mb_chars_inv in E as [(E & -> & ->)|(c & w & two & ws' & E & -> & Hr)].
  - apply Forall2_nil_inv_l in Hd as ->. cbn [concat] in *. change (zlen (@nil Z)) with 0 in *. lia.
  - apply Forall2_cons_inv_l in Hd as (l & ls' & Hw & Hd & ->). rewrite zlen_concat_cons in *. simpl snd in Hw. pose proof (decomp_nonempty _ _ _ Hw) as H1. rewrite E. cbn [obind].
    destruct (decide (len < zlen l)) as [Hs|Hs].
    + destruct (get_decomposition_short tab w l Hw (Z.to_nat len) dp dm) as (dst' & Eg & Hlen); [unfold zlen in *; lia|unfold zlen in *; lia|]. rewrite Eg. cbn [obind]. by eexists _, _.
    + rewrite (get_decomposition_ok tab w l Hw) by (unfold zlen in *; lia). cbn [obind]. replace (zlen l =? 0) with false by (unfold zlen; lia). rewrite <- zlen_app.
      assert (Hg : forall m src', (m < S n)%nat -> mb_chars next src' m = Ret (ws', part) -> exists dst' k, decompose_loop tab next src' m ((dp ++ l) ++ drop (length l) dm) (zlen (dp ++ l)) (len - zlen l) =
        Ret (false, dst', k) /\ length dst' = length (dp ++ dm)).
      { intros m src' Hm' Em. destruct (IH m Hm' src' (dp ++ l) (drop (length l) dm) (len - zlen l) _ _ _ Em Hd) as (dst' & k & Er & Hlen); [unfold need, zlen in *; lia|unfold zlen in *; rewrite length_drop; lia|].
        exists dst', k. split; [done|]. rewrite Hlen. repeat rewrite length_app. rewrite length_drop. unfold zlen in *. lia. }
      destruct two; [destruct Hr as (m & b & b1 & -> & _ & _ & _ & Hr)|destruct Hr as [_ Hr]]; apply Hg; done || lia.
Qed.
End Decompose.

(** *** Invalid characters *)
Definition invalid (t : cptable) (x : Z * Z) : bool := (snd x =? def_unicode_char (info t)) && negb (fst x =? def_char (info t)).
Lemma check_sbcs_ok t flags n : forall src ws part, mb_chars (next_sbcs (sbcs_map t flags)) src n = Ret (ws, part) ->
  exists k, check_invalid_chars_sbcs t flags src n = Ret k /\ (k =? 0) = negb (existsb (invalid (Sbcs t)) ws) /\ part = false.
Proof.
  induction n as [|n IH]; intros src ws part E; [injection E as <- <-; by exists 0|]. cbn [check_invalid_chars_sbcs].
  apply mb_chars_inv in E as [(E & -> & ->)|(c & w & two & ws' & E & -> & Hr)]; unfold next_sbcs in E; destruct (rd src 0) as [b| |]; cbn [obind] in *; try done;
    destruct (rd (sbcs_map t flags) b) as [x| |]; cbn [obind] in *; try done. injection E as -> <-. destruct Hr as [[= ->] Hr]. cbn [existsb]. unfold invalid at 1. cbn [fst snd info].
  destruct ((w =? _) && negb (c =? _)); [exists (Z.of_nat (S n))|by apply IH]. conj; [done|simpl; lia|]. destruct (IH _ _ _ Hr) as (k & _ & _ & Hp). done.
Qed.
Lemma check_dbcs_ok t n : forall src ws part, mb_chars (next_dbcs t) src n = Ret (ws, part) ->
  exists k, check_invalid_chars_dbcs t src n = Ret k /\ (k =? 0) = negb (existsb (invalid (Dbcs t)) ws || part).
Proof.
  induction n as [n IH] using lt_wf_ind. intros src ws part E. destruct n as [|n]; [injection E as <- <-; by exists 0|]. cbn [check_invalid_chars_dbcs].
  apply mb_chars_inv in E as [(E & -> & ->)|(c & w & two & ws' & E & -> & Hr)]; unfold next_dbcs in E; destruct (rd src 0) as [b| |] eqn:Eb; cbn [obind] in *; try done;
    destruct (rd (d_leadbytes t) b) as [off| |]; cbn [obind] in *; try done; destruct (negb (off =? 0)).
  - destruct n as [|n]; [by exists 1|]. simpl (_ =? _)%nat in E. cbv iota in E. destruct (rd src 1); cbn [obind] in E; try done. by destruct (rd (d_cp2uni t) _).
  - by destruct (rd (d_cp2uni t) b).
  - destruct n as [|n]; [done|]. simpl (_ =? _)%nat in E. cbv iota in E. destruct (rd src 1) as [c1| |]; cbn [obind] in *; try done. destruct (rd (d_cp2uni t) _) as [x| |]; cbn [obind] in *; try done. injection E as -> <-.
    destruct Hr as (m & b' & b1 & [= <-] & [= <-] & [= <-] & -> & Hr). cbn [existsb]. unfold invalid at 1. cbn [fst snd info]. destruct ((w =? _) && negb (_ =? _)); [eexists; split; [done|simpl; lia]|].
    by apply (IH n ltac:(lia)).
  - destruct (rd (d_cp2uni t) b) as [x| |]; cbn [obind] in *; try done. injection E as -> <-. destruct Hr as [[= ->] Hr]. cbn [existsb]. unfold invalid at 1. cbn [fst snd info].
    destruct ((w =? _) && negb (_ =? _)); [eexists; split; [done|simpl; lia]|]. by apply (IH n ltac:(lia)).
Qed.

(** ** Reading: the query and the conversion *)

(** the exact results of a conversion to [ws]: of the query, with room, and
    without *)
Definition reads (f : list Z -> Z -> outcome (Z * list Z)) (ws : list Z) (part : bool) : Prop :=
  (forall dst, f dst 0 = Ret (zlen ws, dst)) /\
  (forall dst dstlen, 0 < dstlen <= zlen dst -> need ws part <= dstlen -> f dst dstlen = Ret (zlen ws, ws ++ drop (length ws) dst)) /\
  (forall dst dstlen, 0 < dstlen <= zlen dst -> dstlen < need ws part -> exists dst', f dst dstlen = Ret (-1, dst') /\ length dst' = length dst).

Lemma decompose_reads tab next s srclen ws part ls : mb_chars next s (Z.to_nat srclen) = Ret (ws, part) -> Forall2 (decomp tab) (map snd ws) ls -> Forall (fun l => (length l <= 4)%nat) ls ->
  reads (decompose tab next s srclen) (concat ls) part.
Proof.
  intros E Hd H4. unfold decompose. split; [|split].
  - intros dst. change (0 =? 0) with true. cbv iota. rewrite (decompose_length_ok _ _ _ _ _ _ _ _ E Hd H4). done.
  - intros dst dstlen Hl Hn. replace (dstlen =? 0) with false by lia. pose proof (decompose_loop_ok tab next _ s [] dst dstlen _ _ _ E Hd ltac:(lia)) as El. cbn [app] in El. change (zlen (@nil Z)) with 0 in El.
    rewrite El. cbn [obind]. do 2 f_equal. lia.
  - intros dst dstlen Hl Hn. replace (dstlen =? 0) with false by lia. destruct (decompose_loop_short tab next _ s [] dst dstlen _ _ _ E Hd ltac:(lia) ltac:(lia)) as (dst' & l & El & Hlen). cbn [app] in *. change (zlen (@nil Z)) with 0 in El.
    rewrite El. cbn [obind]. by exists dst'.
Qed.
Lemma dbcs_reads t s srclen ws part : mb_chars (next_dbcs t) s (Z.to_nat srclen) = Ret (ws, part) -> reads (mbstowcs_dbcs t s srclen) (map snd ws) part.
Proof.
  intros E. assert (Em : zlen (map snd ws) = zlen ws) by (unfold zlen; by rewrite length_map). assert (En : need (map snd ws) part = need ws part) by (unfold need; by rewrite Em). unfold mbstowcs_dbcs. split; [|split].
  - intros dst. change (0 =? 0) with true. cbv iota. unfold get_length_mbs_dbcs. rewrite (dbcs_length_ok t _ _ 0 _ _ E). cbn [obind]. by rewrite Em.
  - intros dst dstlen Hl Hn. replace (dstlen =? 0) with false by lia. pose proof (mbs_dbcs_ok t _ s [] dst dstlen _ _ E ltac:(lia)) as El. cbn [app] in El. change (zlen (@nil Z)) with 0 in El.
    rewrite El. cbn [obind]. rewrite Em, length_map. do 2 f_equal. lia.
  - intros dst dstlen Hl Hn. replace (dstlen =? 0) with false by lia. pose proof (mbs_dbcs_short t _ s [] dst dstlen _ _ E ltac:(lia) ltac:(lia)) as El. cbn [app] in El. change (zlen (@nil Z)) with 0 in El.
    rewrite El. cbn [obind]. eexists. split; [done|]. rewrite length_app, length_take, length_drop, length_map. unfold need, zlen in *. destruct part; lia.
Qed.
(** the characters of a single-byte string are looked up one by one *)
Lemma sbcs_mb_chars map post : 256 <= zlen map -> forall s, bytes s -> mb_chars (next_sbcs map) (s ++ post) (length s) = Ret (List.map (fun b => (b, nthZ 0 map b)) s, false).
Proof.
  intros Hm. induction 1 as [|b s Hb _ IH]; [done|]. unfold isU in Hb. cbn [length mb_chars app]. unfold next_sbcs at 1. rewrite !rd0. cbn [obind]. rewrite (rd_in 0) by lia. cbn [obind].
  change (drop 1 (b :: s ++ post)) with (s ++ post). rewrite IH. done.
Qed.
Lemma sbcs_reads t flags s srclen ws part : mb_ok (Sbcs t) -> bytes s -> 0 <= srclen <= zlen s -> mb_chars (next_sbcs (sbcs_map t flags)) s (Z.to_nat srclen) = Ret (ws, part) ->
  reads (fun dst dstlen => if dstlen =? 0 then Ret (srclen, dst) else mbstowcs_sbcs t flags s srclen dst dstlen) (map snd ws) part.
Proof.
  intros Ht Hb Hn. pose proof (sbcs_map_size t flags Ht) as Hm. set (m := sbcs_map t flags) in *. assert (Esrc : s = take (Z.to_nat srclen) s ++ drop (Z.to_nat srclen) s) by (by rewrite take_drop).
  set (p := take (Z.to_nat srclen) s) in *. assert (El : zlen p = srclen) by (unfold p, zlen in *; rewrite length_take; lia). assert (Hp : bytes p) by (by apply Forall_take).
  set (post := drop (Z.to_nat srclen) s) in *. rewrite Esrc. rewrite <- El at 1. rewrite zlen_nat. rewrite (sbcs_mb_chars m _ Hm p Hp). intros [= <- <-]. rewrite map_map. cbn [snd]. set (ws := map (fun b => nthZ 0 m b) p).
  assert (Ew : zlen ws = srclen) by (unfold ws, zlen in *; by rewrite length_map). unfold reads, need, mbstowcs_sbcs. rewrite Ew, Z.add_0_r. fold m. split; [|split].
  - intros dst. done.
  - intros dst dstlen Hl Hr. replace (dstlen =? 0) with false by lia. replace (dstlen <? srclen) with false by lia.
    pose proof (get_rows_ok m Hm (S (length p)) p [] post [] dst ltac:(lia) Hp eq_refl ltac:(lia)) as E. cbn [app] in E. change (zlen (@nil Z)) with 0 in E.
    rewrite <- El at 1 2. rewrite zlen_nat, E. cbn [obind]. unfold ws. by rewrite length_map.
  - intros dst dstlen Hl Hr. replace (dstlen =? 0) with false by lia. replace (dstlen <? srclen) with true by lia. set (n := Z.to_nat dstlen).
    assert (Et : zlen (take n p) = dstlen) by (unfold n, zlen in *; rewrite length_take; lia).
    pose proof (get_rows_ok m Hm (S n) (take n p) [] (drop n p ++ post) [] dst ltac:(rewrite length_take; lia) ltac:(by apply Forall_take) eq_refl ltac:(lia)) as E.
    cbn [app] in E. change (zlen (@nil Z)) with 0 in E. rewrite Et, app_assoc, take_drop in E. rewrite E. cbn [obind]. eexists. split; [done|].
    rewrite length_app, length_map, length_drop, length_take. unfold n, zlen in *. lia.
Qed.

(** what a call reads: nothing when it is strict and a character is invalid *)
Definition mb_result (tab : list Z) (t : cptable) (flags : Z) (f : list Z -> Z -> outcome (Z * list Z)) (ws : list (Z * Z)) (part : bool) : Prop :=
  if has_flag flags MB_ERR_INVALID_CHARS && (existsb (invalid t) ws || part) then forall dst dstlen, f dst dstlen = Ret (-2, dst)
  else if has_flag flags MB_COMPOSITE then
    forall ls, Forall2 (decomp tab) (map snd ws) ls -> Forall (fun l => (length l <= 4)%nat) ls -> reads f (concat ls) part
  else reads f (map snd ws) part.
Lemma mb_result_ok tab t flags s srclen ws part : mb_ok t -> bytes s -> 0 <= srclen <= zlen s -> mb_chars (next_mb t flags) s (Z.to_nat srclen) = Ret (ws, part) ->
  mb_result tab t flags (fun dst dstlen => wine_cp_mbstowcs tab t flags s srclen dst dstlen) ws part.
Proof.
  intros Ht Hb Hn E. unfold mb_result, wine_cp_mbstowcs. destruct t as [t|t]; cbn [next_mb] in E.
  - destruct (check_sbcs_ok t flags _ _ _ _ E) as (k & Ek & Hk & ->). rewrite orb_false_r. destruct (has_flag flags MB_ERR_INVALID_CHARS); cbn [andb].
    + rewrite Ek. cbn [obind]. rewrite Hk, negb_involutive. destruct (existsb (invalid (Sbcs t)) ws); [done|]. destruct (has_flag flags MB_COMPOSITE); [intros ls; by apply decompose_reads|by apply sbcs_reads].
    + cbn [obind]. change (negb (0 =? 0)) with false. cbv iota. destruct (has_flag flags MB_COMPOSITE); [intros ls; by apply decompose_reads|by apply sbcs_reads].
  - destruct (check_dbcs_ok t _ _ _ _ E) as (k & Ek & Hk). destruct (has_flag flags MB_ERR_INVALID_CHARS); cbn [andb].
    + rewrite Ek. cbn [obind]. rewrite Hk, negb_involutive. destruct (existsb (invalid (Dbcs t)) ws || part); [done|]. destruct (has_flag flags MB_COMPOSITE); [intros ls; by apply decompose_reads|by apply dbcs_reads].
    + cbn [obind]. change (negb (0 =? 0)) with false. cbv iota. destruct (has_flag flags MB_COMPOSITE); [intros ls; by apply decompose_reads|by apply dbcs_reads].
Qed.

(** ** Round trips *)

(** the bytes a character is converted to without flags *)
Definition encoded (t : cptable) (w : Z) : list Z :=
  match t with Sbcs t => [sb t w] | Dbcs t => bytes_of (uni (d_uni2cp_low t) (d_uni2cp_high t) w) end.
(** the code page reads those bytes back as the character *)
Definition representable (t : cptable) (w : Z) : Prop :=
  next_mb t 0 (encoded t w) (length (encoded t w)) = Ret (Some (w, (length (encoded t w) =? 2)%nat)).
Abbreviation encoding t s := (concat (map (encoded t) s)).

Lemma dbcs_char_uni t w : dbcs_ok t -> isU 16 w -> dbcs_char t w = Ret (uni (d_uni2cp_low t) (d_uni2cp_high t) w) /\ isU 16 (uni (d_uni2cp_low t) (d_uni2cp_high t) w).
Proof. intros (Hm & _) Hw. by apply uni2cp_ok. Qed.
Lemma dbcs_loop_ok t post : dbcs_ok t -> forall s dp dm len, Forall (isU 16) s -> zlen (encoding (Dbcs t) s) <= len <= zlen dm ->
  dbcs_loop t (s ++ post) (length s) (dp ++ dm) (zlen dp) len = Ret (true, (dp ++ encoding (Dbcs t) s) ++ drop (length (encoding (Dbcs t) s)) dm, len - zlen (encoding (Dbcs t) s)).
Proof.
  intros Ht. induction s as [|w s IH]; intros dp dm len Hs Hl; [cbn; by rewrite app_nil_r, Z.sub_0_r|]. apply Forall_cons_1 in Hs as [Hw Hs]. cbn [length dbcs_loop app map concat] in *. rewrite zlen_app in *.
  set (bs := encoding (Dbcs t) s) in *. pose proof (zlen_nonneg bs). cbn [encoded] in *. set (c := uni _ _ w) in *.
  assert (0 < zlen (bytes_of c)) by (rewrite bytes_of_size; destruct (is_double c); lia). replace (len =? 0) with false by lia. rewrite rd0. cbn [obind]. rewrite (proj1 (dbcs_char_uni t w Ht Hw)). cbn [obind]. fold c.
  rewrite put_char_ok by lia. cbn [obind]. change (drop 1 (w :: s ++ post)) with (s ++ post). rewrite IH by (done || (unfold zlen in *; rewrite ?length_drop; lia)).
  rewrite drop_drop, length_app, <- !app_assoc. f_equal. f_equal. lia.
Qed.
Lemma encoding_sbcs t s : encoding (Sbcs t) s = map (sb t) s.
Proof. induction s as [|w s IH]; [done|]. simpl in *. by rewrite IH. Qed.
Lemma encoding_bytes t s : table_ok t -> Forall (isU 16) s -> bytes (encoding t s).
Proof.
  intros Ht. induction 1 as [|w s Hw _ IH]; [constructor|]. simpl. apply Forall_app. split; [|done]. destruct t as [t|t]; cbn [encoded table_ok] in *.
  - constructor; [|constructor]. by apply (sbcs_char_ok t Ht).
  - apply bytes_of_bytes. by apply dbcs_char_uni.
Qed.
(** without flags the conversion writes the bytes of the characters *)
Lemma wcstombs_plain tab size t s post dst dstlen : table_ok t -> Forall (isU 16) s -> 0 < dstlen <= zlen dst -> zlen (encoding t s) <= dstlen ->
  wine_cp_wcstombs tab size t 0 (s ++ post) (zlen s) dst dstlen None false = Ret (zlen (encoding t s), encoding t s ++ drop (length (encoding t s)) dst, None).
Proof.
  intros Ht Hs Hd Hl. unfold wine_cp_wcstombs. replace (dstlen =? 0) with false by lia. destruct t as [t|t]; simpl (negb _ || _ || _); cbv iota.
  - rewrite encoding_sbcs in *. assert (Em : zlen (map (sb t) s) = zlen s) by (unfold zlen; by rewrite length_map). rewrite wcstombs_sbcs_ok by (done || lia). cbn [obind]. by rewrite Em, length_map.
  - unfold wcstombs_dbcs. rewrite zlen_nat. pose proof (dbcs_loop_ok t post Ht s [] dst dstlen Hs ltac:(lia)) as E. cbn [app] in E. change (zlen (@nil Z)) with 0 in E. rewrite E. cbn [obind]. do 3 f_equal. lia.
Qed.
(** a character that can be read is read whatever follows it *)
Lemma next_mb_app t flags bs post n w two : next_mb t flags bs (length bs) = Ret (Some (w, two)) -> length bs = (if two then 2 else 1)%nat ->
  next_mb t flags (bs ++ post) (length bs + n) = Ret (Some (w, two)).
Proof.
  intros H Hl. destruct t as [t|t]; cbn [next_mb] in *.
  - destruct bs as [|b bs]; [by destruct two|]. exact H.
  - destruct bs as [|b bs]; [by destruct two|]. unfold next_dbcs in *. cbn [app]. rewrite rd0 in *. cbn [obind] in *. destruct (rd (d_leadbytes t) b) as [off| |]; cbn [obind] in *; try done.
    destruct (negb (off =? 0)); [|done]. destruct two; [|by rewrite Hl in H]. destruct bs as [|b1 [|b2 bs]]; [done| |done]. exact H.
Qed.
Lemma encoded_chars t post s : Forall (representable t) s -> exists ws, mb_chars (next_mb t 0) (encoding t s ++ post) (length (encoding t s)) = Ret (ws, false) /\ map snd ws = s.
Proof.
  induction 1 as [|w s Hr _ (ws & E & Es)]; [by exists []|]. unfold representable in Hr. cbn [map concat]. rewrite length_app, <- app_assoc. set (rest := encoding t s) in *.
  assert (Hb : exists b, encoded t w = [b] \/ exists b1, encoded t w = [b; b1]). { destruct t as [t|t]; cbn [encoded]; [eexists; by left|]. unfold bytes_of. destruct (is_double _); eexists; [right; by eexists|by left]. }
  pose proof (next_mb_app t 0 (encoded t w) (rest ++ post) (length rest) w (length (encoded t w) =? 2)%nat Hr) as Hn.
  destruct Hb as (b & [Eb|(b1 & Eb)]); rewrite Eb in *; simpl (_ =? _)%nat in *; specialize (Hn eq_refl); cbn [length app Nat.add mb_chars] in *; rewrite Hn; cbn [obind]; rewrite rd0; cbn [obind].
  - change (drop 1 (b :: rest ++ post)) with (rest ++ post). rewrite E. cbn [obind]. eexists. split; [done|]. cbn [map snd]. by rewrite Es.
  - rewrite rd1. cbn [obind]. change (drop 2 (b :: b1 :: rest ++ post)) with (rest ++ post). rewrite E. cbn [obind]. eexists. split; [done|]. cbn [map snd]. by rewrite Es.
Qed.
End CodePageRead.
