(* ===== verification/CodePageCalls.v ===== *)
(** * Code pages: the theorems on the calls

    The query of a length against the conversion in both directions, the fast
    loops against those that handle flags, round trips through the calls of
    kernel32, the search for compositions, and the corners in which the calls do
    not keep their promise. *)
From S2P Require Import Prelude Utf8 Utf8Spec CodePage CodePageSpec CodePageRead.
Import Utf8 Utf8Spec CodePage CodePageSpec CodePageRead.

Module CodePageCalls.

(** ** Two small code pages *)
Definition latin : sbcs_table :=
  mkSbcs (mkInfo 1252 1 63 63) (seqZ 0 256) (seqZ 0 256) (seqZ 0 256 ++ replicate 256 63) (0 :: replicate 255 256).
(** the bytes below 0x80, and 0x81 leads U+4E00 to U+4EFF *)
Definition han : dbcs_table :=
  mkDbcs (mkInfo 932 2 63 63) (seqZ 0 256 ++ seqZ 0x4e00 256) (replicate 0x81 0 ++ 1 :: replicate 0x7e 0)
    ((seqZ 0 128 ++ replicate 128 63) ++ replicate 256 63 ++ seqZ 0x8100 256)
    (0 :: replicate 0x4d 256 ++ 512 :: replicate 0xb1 256) [0x81; 0x81; 0; 0; 0; 0; 0; 0; 0; 0; 0; 0].
Lemma seqZ_Forall (P : Z -> Prop) m n : (forall i, m <= i < m + n -> P i) -> Forall P (seqZ m n).
Proof. intros H. apply Forall_forall. intros i Hi%list_elem_of_In%elem_of_seqZ. by apply H. Qed.
Lemma replicate_Forall (P : Z -> Prop) n x : P x -> Forall P (replicate n x).
Proof. intros H. by apply Forall_replicate. Qed.
Lemma latin_ok : sbcs_ok latin.
Proof.
  split; [|done]. split; [done|]. change (zlen (s_uni2cp_low latin)) with 512. split; [constructor; [lia|apply replicate_Forall; lia]|].
  apply Forall_app. split; [apply seqZ_Forall; done|apply replicate_Forall; done].
Qed.
Lemma latin_mb_ok : mb_ok (Sbcs latin).
Proof. by split. Qed.
Lemma han_ok : dbcs_ok han.
Proof.
  assert (H8 : isU 16 63) by done. split; [split; [done|split]|split; [done|split; [done|split; [|done]]]].
  - change (zlen (d_uni2cp_low han)) with 768. constructor; [lia|]. apply Forall_app. split; [apply replicate_Forall; lia|]. constructor; [lia|apply replicate_Forall; lia].
  - apply Forall_app. split; apply Forall_app; split; try (by apply replicate_Forall); apply seqZ_Forall; unfold isU; change (2 ^ 16) with 65536; lia.
  - change (zlen (d_cp2uni han)) with 512. apply Forall_app. split; [apply replicate_Forall; lia|]. constructor; [lia|apply replicate_Forall; lia].
Qed.
Lemma no_compositions : compose_ok [0; 0] 0.
Proof. unfold compose_ok. change (zlen [0; 0]) with 2. conj; [lia|lia|repeat (constructor; [done|]); constructor|lia]. Qed.

(** ** From Unicode *)

(** C20: WideCharToMultiByte's two calls.  For every code page, flags, default
    character and string: the length that a call without a buffer returns is the
    length of the bytes that a call with room for them writes, nothing else of
    the buffer is changed, and a buffer that is too short gives -1 without a
    store outside of it, the exception of [query_agrees] apart. *)
Theorem cp_wcstombs_two_calls tab size t flags s srclen defchar want : compose_ok tab size -> table_ok t -> Forall (isU 16) s -> 0 <= srclen <= zlen s -> defchar_ok defchar ->
  query_agrees t flags defchar want = true ->
  exists bs, bytes bs /\ converts (fun dst dstlen => wine_cp_wcstombs tab size t flags s srclen dst dstlen defchar want) bs.
Proof. intros Hc Ht Hs Hn Hd Hq. destruct t as [t|t]; [by apply sbcs_two_calls|by apply dbcs_two_calls]. Qed.
Lemma cp_wcstombs_two_calls_witness : exists bs, bytes bs /\
  converts (fun dst dstlen => wine_cp_wcstombs [0; 0] 0 (Dbcs han) WC_NO_BEST_FIT_CHARS [0x41; 0x4e05; 0xe9] 3 dst dstlen (Some [0x40; 0]) true) bs.
Proof.
  apply cp_wcstombs_two_calls; [exact no_compositions|exact han_ok| |split; [lia|vm_compute; congruence]|simpl; vm_compute; congruence|reflexivity].
  repeat (constructor; [split; [vm_compute; congruence|reflexivity]|]); constructor.
Defined.

(** in the exception the two calls disagree: the length is asked for with the
    character's own two bytes, one default character is written *)
Definition loose : dbcs_table :=
  mkDbcs (d_info han) (seqZ 0 256 ++ replicate 256 0x5000) (d_leadbytes han) (d_uni2cp_low han) (d_uni2cp_high han) (lead_bytes han).
(** without a default character and without *used get_length_dbcs ignores
    WC_NO_BEST_FIT_CHARS, and the length that it returns is not the one that is
    written. *)
Theorem no_best_fit_length :
  wine_cp_wcstombs [0; 0] 0 (Dbcs loose) WC_NO_BEST_FIT_CHARS [0x4e05] 1 [] 0 None false = Ret (2, [], Some false) /\
  wine_cp_wcstombs [0; 0] 0 (Dbcs loose) WC_NO_BEST_FIT_CHARS [0x4e05] 1 [0; 0] 2 None false = Ret (1, [63; 0], Some true).
Proof. split; reflexivity. Qed.

(** C23: asking for *used, which selects the loops that check each character,
    changes neither the result nor a byte, for a single- or a double-byte code
    page and a buffer of any length. *)
Theorem cp_fast_slow tab size t s srclen dst dstlen : compose_ok tab size -> table_ok t -> Forall (isU 16) s -> 0 <= srclen <= zlen s -> 0 <= dstlen <= zlen dst ->
  exists r dst' u u', wine_cp_wcstombs tab size t 0 s srclen dst dstlen None false = Ret (r, dst', u) /\
    wine_cp_wcstombs tab size t 0 s srclen dst dstlen None true = Ret (r, dst', Some u').
Proof.
  intros Hc Ht Hs Hn Hd. unfold wine_cp_wcstombs. simpl (negb _ || _ || _). destruct t as [t|t]; cbn [table_ok] in Ht; cbv iota.
  - destruct (plain_chars tab size t Ht 0 eq_refl s (Z.to_nat srclen) false Hs ltac:(unfold zlen in Hn; lia)) as (u & E). set (p := take (Z.to_nat srclen) s) in *.
    assert (El : zlen p = srclen) by (unfold p, zlen in *; rewrite length_take; lia). assert (Em : zlen (map (sb t) p) = srclen) by (rewrite <- El; unfold zlen; by rewrite length_map).
    assert (Hp : Forall (isU 16) p) by (by apply Forall_take). assert (Es : s = p ++ drop (Z.to_nat srclen) s) by (symmetry; apply take_drop).
    destruct (Z.eqb_spec dstlen 0) as [->|Hd0].
    + unfold get_length_sbcs. rewrite (length_sbcs_ok tab size t 0 _ _ _ _ 0 _ _ E). cbn [obind]. rewrite Em. by eexists _, _, _, _.
    + unfold wcstombs_sbcs_slow. cbn [sbcs_def obind]. destruct (Z.le_gt_cases srclen dstlen) as [Hle|Hgt].
      * pose proof (sbcs_slow_ok tab size t 0 _ _ s false [] dst dstlen _ _ E ltac:(lia)) as Eo. cbn [app] in Eo. change (zlen (@nil Z)) with 0 in Eo. rewrite Eo. cbn [obind].
        assert (Ef : wcstombs_sbcs t s srclen dst dstlen = Ret (srclen, map (sb t) p ++ drop (length p) dst)) by (rewrite Es, <- El; apply wcstombs_sbcs_ok; [done|done|lia]). rewrite Ef. cbn [obind].
        rewrite Em, length_map. replace (dstlen - (dstlen - srclen)) with srclen by lia. by eexists _, _, _, _.
      * destruct (sbcs_slow_short tab size t 0 _ _ s false [] dst dstlen _ _ E ltac:(lia) ltac:(lia)) as (u' & Eo). cbn [app] in Eo. change (zlen (@nil Z)) with 0 in Eo. rewrite Eo. cbn [obind].
        assert (Ef : wcstombs_sbcs t s srclen dst dstlen = Ret (-1, take (Z.to_nat dstlen) (map (sb t) p) ++ drop (Z.to_nat dstlen) dst)) by (rewrite Es, <- El; apply wcstombs_sbcs_short; [done|done|lia|lia]). rewrite Ef. by eexists _, _, _, _.
  - destruct (chars_total tab size Hc (dbcs_char t) (is_valid_dbcs_mapping t 0) (def_char (d_info t)) 0 16 (fun w => dbcs_char_ok t w Ht) (fun w c _ H => dbcs_valid_ok t 0 w c Ht H)
      ltac:(by destruct Ht as (_ & _ & _ & _ & H)) (Z.to_nat srclen) s false Hs ltac:(unfold zlen in Hn; lia)) as (cs & u & E & Hcs).
    destruct (Z.eqb_spec dstlen 0) as [->|Hd0].
    + unfold get_length_dbcs. simpl (negb _ && _ && _). cbv iota. cbn [dbcs_def obind]. pose proof (length_dbcs_ok tab size t 0 _ _ _ _ 0 _ _ E) as El. rewrite El.
      rewrite (length_plain_slow tab size t 0 eq_refl eq_refl _ _ _ _ _ _ El). cbn [obind]. by eexists _, _, _, _.
    + unfold wcstombs_dbcs_slow, wcstombs_dbcs. cbn [dbcs_def obind].
      assert (exists all dst' l u', dbcs_slow_loop tab size t (def_char (d_info t)) 0 s (Z.to_nat srclen) dst 0 dstlen false = Ret (all, dst', l, u')) as (all & dst' & l & u' & Eo).
      { destruct (Z.le_gt_cases (zlen (concat (map bytes_of cs))) dstlen) as [Hle|Hgt].
        - eexists _, _, _, _. exact (dbcs_slow_ok tab size t 0 _ _ s false [] dst dstlen cs u E ltac:(lia)).
        - destruct (dbcs_slow_short tab size t 0 _ _ s false [] dst dstlen cs u E ltac:(lia) ltac:(lia)) as (dst' & l & u' & Eo & _). by exists false, dst', l, u'. }
      rewrite Eo, (dbcs_loop_slow tab size t 0 eq_refl eq_refl _ _ _ _ _ _ _ _ _ _ Eo). cbn [obind]. by eexists _, _, _, _.
Qed.
Lemma cp_fast_slow_witness : exists r dst' u u', wine_cp_wcstombs [0; 0] 0 (Sbcs latin) 0 [0x41; 0x4e05] 2 [0; 0; 0] 3 None false = Ret (r, dst', u) /\
  wine_cp_wcstombs [0; 0] 0 (Sbcs latin) 0 [0x41; 0x4e05] 2 [0; 0; 0] 3 None true = Ret (r, dst', Some u').
Proof.
  apply cp_fast_slow; [exact no_compositions|exact latin_ok| |split; [lia|vm_compute; congruence]|split; [lia|vm_compute; congruence]].
  repeat (constructor; [split; [vm_compute; congruence|reflexivity]|]); constructor.
Defined.

(** compose terminates and is exact: in a table whose entries are sorted it
    returns a character for two characters just when the table has that
    composition of them, and 0 otherwise. *)
Theorem compose_spec tab size c0 c1 k : compose_ok tab size -> sorted tab 0 size -> (forall p, 0 <= p < size -> sorted tab (nthZ 0 tab (2 * p + 1)) (nthZ 0 tab (2 * (p + 1) + 1))) ->
  exists r, compose tab (c0 :: c1 :: k) size = Ret r /\ (forall c, c <> 0 -> r = c <-> composes tab size c0 c1 c).
Proof.
  intros Hc H1 H2. destruct (compose_total tab size _ c0 c1 k Hc eq_refl) as (r & E & _ & Hr). exists r. split; [done|]. intros c Hn. split; [intros ->; by apply Hr|].
  intros Hcc. pose proof (compose_complete tab size c0 c1 c k Hc H1 H2 Hcc) as E2. congruence.
Qed.
(** U+0300 composes A and a, U+0301 composes A *)
Definition accents : list Z := [0x300; 3; 0x301; 5; 0; 6; 0x41; 0xc0; 0x61; 0xe0; 0x41; 0xc1].
Lemma accents_ok : compose_ok accents 2.
Proof.
  unfold compose_ok. change (zlen accents) with 12. conj; [lia|lia|repeat (constructor; [done|]); constructor|]. intros p Hp. assert (p = 0 \/ p = 1) as [-> | ->] by lia; vm_compute; congruence.
Qed.
Lemma compose_spec_witness : exists r, compose accents [0x61; 0x300] 2 = Ret r /\ (forall c, c <> 0 -> r = c <-> composes accents 2 0x61 0x300 c).
Proof.
  apply compose_spec; [exact accents_ok| |].
  - intros i j Hi Hj. assert (i = 0 /\ j = 1) as [-> ->] by lia. reflexivity.
  - intros p Hp. assert (p = 0 \/ p = 1) as [-> | ->] by lia; intros i j Hi Hj.
    + change (nthZ 0 accents (2 * 0 + 1)) with 3 in Hi. change (nthZ 0 accents (2 * (0 + 1) + 1)) with 5 in Hj. assert (i = 3 /\ j = 4) as [-> ->] by lia. reflexivity.
    + change (nthZ 0 accents (2 * 1 + 1)) with 5 in Hi. change (nthZ 0 accents (2 * (1 + 1) + 1)) with 6 in Hj. exfalso. lia.
Defined.

(** [char] is signed, so that a default character of 0x80 or more is
    widened with its sign: wcstombs_dbcs_slow writes the byte 0xff before it. *)
Theorem signed_default_char b : isU 8 b -> 0x80 <= b -> wine_cp_wcstombs [0; 0] 0 (Dbcs han) 0 [0xe9] 1 [0; 0] 2 (Some [b; 0]) false = Ret (2, [0xff; b], Some true).
Proof.
  unfold isU. change (2 ^ 8) with 256. intros H1 H2. assert (Eb : wrapS 8 b = b - 256).
  { unfold wrapS, wrapU. change (2 ^ (8 - 1)) with 128. change (2 ^ 8) with 256. rewrite (Z.mod_small b) by lia. by replace (b <? 128) with false by lia. }
  assert (Ed : dbcs_def han (Some [b; 0]) = Ret (0xff00 + b)).
  { cbn [dbcs_def]. rewrite rd1, rd0. cbn [obind]. change (negb (0 =? 0)) with false. cbv iota. rewrite Eb. f_equal. unfold u16, wrapU. change (2 ^ 16) with 65536. rewrite <- (Z.mod_unique (b - 256) 65536 (-1) (65280 + b)); lia. }
  assert (Edb : is_double (0xff00 + b) = true).
  { unfold is_double. apply negb_true_iff, Z.eqb_neq. change 0xff00 with (Z.shiftl (2 ^ 8 - 1) 8) at 2. intros E. apply (f_equal (fun z => Z.shiftr z 8)) in E. rewrite Z.shiftr_land, Z.shiftr_shiftl_l, Z.shiftl_0_r, land_pow2_mask in E by lia.
    rewrite Z.shiftr_div_pow2 in E by lia. change (2 ^ 8) with 256 in E. change (Z.shiftr 0 8) with 0 in E. assert ((0xff00 + b) / 256 = 255) by dlia. rewrite H in E. done. }
  unfold wine_cp_wcstombs. change (2 =? 0) with false. simpl (negb _ || _ || _). cbv iota. unfold wcstombs_dbcs_slow. rewrite Ed. cbn [obind]. change (Z.to_nat 1) with 1%nat. cbn [dbcs_slow_loop].
  change (next_char [0; 0] 0 (dbcs_char han) (is_valid_dbcs_mapping han 0) (65280 + b) 0 [233] 1 false) with (Ret (65280 + b, false, true)). change (2 =? 0) with false. cbv iota. cbn [obind].
  unfold put_char. rewrite Edb. change (2 =? 1) with false. cbv iota. change (wr [0; 0] 0 (Z.shiftr (65280 + b) 8)) with (Ret [Z.shiftr (65280 + b) 8; 0]). cbn [obind].
  change (wr [Z.shiftr (65280 + b) 8; 0] (0 + 1) (u8 (65280 + b))) with (Ret [Z.shiftr (65280 + b) 8; u8 (65280 + b)]). cbn [obind]. rewrite Z.shiftr_div_pow2 by lia. unfold u8, wrapU. change (2 ^ 8) with 256.
  do 4 f_equal; [dlia|]. f_equal. rewrite <- (Z.mod_unique (65280 + b) 256 255 b); lia.
Qed.
Lemma signed_default_char_witness : wine_cp_wcstombs [0; 0] 0 (Dbcs han) 0 [0xe9] 1 [0; 0] 2 (Some [0xa5; 0]) false = Ret (2, [0xff; 0xa5], Some true).
Proof. apply signed_default_char; [split; [vm_compute; congruence|reflexivity]|vm_compute; congruence]. Defined.

(** ** To Unicode *)

(** C21: MultiByteToWideChar's two calls.  The bytes have characters
    ([mb_chars]), perhaps with a lead byte left at the end; a strict call fails
    with -2 just when one of them is invalid or a lead byte is left; any other
    call gives their number, their decompositions when those are asked for, or
    -1 when the buffer is too short, which counts a lead byte that is left as a
    character. *)
Theorem cp_mbstowcs_two_calls tab t flags s srclen : mb_ok t -> bytes s -> 0 <= srclen <= zlen s ->
  exists ws part, mb_chars (next_mb t flags) s (Z.to_nat srclen) = Ret (ws, part) /\
    mb_result tab t flags (fun dst dstlen => wine_cp_mbstowcs tab t flags s srclen dst dstlen) ws part.
Proof.
  intros Ht Hb Hn. destruct (mb_chars_total t flags Ht (Z.to_nat srclen) s Hb ltac:(unfold zlen in Hn; lia)) as (ws & part & E). exists ws, part. split; [done|]. by apply mb_result_ok.
Qed.
Lemma cp_mbstowcs_two_calls_witness : exists ws part, mb_chars (next_mb (Dbcs han) 0) [0x41; 0x81; 0x05; 0x81] 4 = Ret (ws, part) /\
  mb_result [] (Dbcs han) 0 (fun dst dstlen => wine_cp_mbstowcs [] (Dbcs han) 0 [0x41; 0x81; 0x05; 0x81] 4 dst dstlen) ws part.
Proof.
  apply (cp_mbstowcs_two_calls [] (Dbcs han) 0 [0x41; 0x81; 0x05; 0x81] 4); [exact han_ok| |split; [lia|vm_compute; congruence]].
  repeat (constructor; [split; [vm_compute; congruence|reflexivity]|]); constructor.
Defined.

Section Calls.
Context (ct : list Z) (cs : Z) (dt : list Z) (cptables : list cptable) (cps : codepages) (locale_cp : option cptable).
Lemma table_pages page t : get_codepage_table cptables cps locale_cp page = Some t -> (page =? CP_UTF7) = false /\ (page =? CP_UTF8) = false.
Proof using.
  intros H. destruct (Z.eqb_spec page CP_UTF7) as [->|]; [done|]. by destruct (Z.eqb_spec page CP_UTF8) as [->|].
Qed.
(** C22: round trip through the calls.  A string whose characters the code page
    has, of one or of two bytes, is written by WideCharToMultiByte and read back
    by MultiByteToWideChar as it was, in buffers with room for it. *)
Theorem cp_roundtrip page t s buf out : page <> CP_UNIXCP -> get_codepage_table cptables cps locale_cp page = Some t -> table_ok t -> mb_ok t ->
  Forall (isU 16) s -> Forall (representable t) s -> bytes buf -> 0 < zlen buf -> zlen (encoding t s) <= zlen buf -> 0 < zlen out -> zlen s <= zlen out ->
  exists bs buf', WideCharToMultiByte ct cs cptables cps locale_cp page 0 s (zlen s) (Some buf) (zlen buf) None false = Ret (zlen bs, buf', None) /\
    take (length bs) buf' = bs /\ MultiByteToWideChar dt cptables cps locale_cp page 0 buf' (zlen bs) (Some out) (zlen out) = Ret (zlen s, s ++ drop (length s) out).
Proof using.
  intros Hp Hg Ht Hm Hs Hr Hb Hb0 Hbl Ho0 Hol. destruct (table_pages _ _ Hg) as [P7 P8]. assert (PU : (page =? CP_UNIXCP) = false) by lia. pose proof (zlen_nonneg s). pose proof (zlen_nonneg (encoding t s)).
  exists (encoding t s), (encoding t s ++ drop (length (encoding t s)) buf). split; [|split].
  - unfold WideCharToMultiByte. cbn [default from_option id]. simpl (negb _ && _). replace (zlen s =? -1) with false by lia. cbn [obind]. cbv iota. rewrite P7, PU, P8, Hg. simpl orb. cbv iota.
    pose proof (wcstombs_plain ct cs t s [] buf (zlen buf) Ht Hs ltac:(lia) Hbl) as E. rewrite app_nil_r in E. rewrite E. cbn [obind]. by replace (zlen (encoding t s) =? -1) with false by lia.
  - by rewrite take_app_length.
  - unfold MultiByteToWideChar. cbn [default from_option id]. simpl (negb _ && _). replace (zlen (encoding t s) =? -1) with false by lia. cbn [obind]. cbv iota. rewrite P7, PU, P8, Hg. simpl orb. cbv iota.
    destruct (encoded_chars t (drop (length (encoding t s)) buf) s Hr) as (ws & E & Ews).
    pose proof (mb_result_ok dt t 0 (encoding t s ++ drop (length (encoding t s)) buf) (zlen (encoding t s)) ws false Hm) as R. unfold mb_result in R. simpl (has_flag 0 _) in R. cbn [andb] in R. cbv iota in R. rewrite Ews in R.
    rewrite zlen_nat in R. destruct R as (_ & R & _); [apply Forall_app; split; [by apply encoding_bytes|by apply Forall_drop]|rewrite zlen_app; pose proof (zlen_nonneg (drop (length (encoding t s)) buf)); lia|done|].
    rewrite R by (unfold need; lia). cbn [obind]. by replace (zlen s <? 0) with false by lia.
Qed.
End Calls.
Definition pages : list cptable := [Sbcs latin; Dbcs han].
Definition current : codepages := mkCps (Sbcs latin) (Sbcs latin) (Sbcs latin).
Lemma cp_roundtrip_witness : exists bs buf',
  WideCharToMultiByte [0; 0] 0 pages current None 932 0 [0x41; 0x4e05] 2 (Some [0; 0; 0; 7]) 4 None false = Ret (zlen bs, buf', None) /\ take (length bs) buf' = bs /\
  MultiByteToWideChar [] pages current None 932 0 buf' (zlen bs) (Some [0; 0]) 2 = Ret (2, [0x41; 0x4e05]).
Proof.
  apply (cp_roundtrip [0; 0] 0 [] pages current None 932 (Dbcs han) [0x41; 0x4e05] [0; 0; 0; 7] [0; 0]);
    [vm_compute; congruence|reflexivity|exact han_ok|exact han_ok| | | |reflexivity|vm_compute; congruence|reflexivity|vm_compute; congruence].
  - repeat (constructor; [split; [vm_compute; congruence|reflexivity]|]); constructor.
  - repeat (constructor; [reflexivity|]); constructor.
  - repeat (constructor; [split; [vm_compute; congruence|reflexivity]|]); constructor.
Defined.

(** a lead byte at the end is left out of the length that is asked for, but a
    buffer of that length is refused: the two calls of MultiByteToWideChar end
    in ERROR_INSUFFICIENT_BUFFER. *)
Theorem lone_lead_byte :
  MultiByteToWideChar [] pages current None 932 0 [0x41; 0x81] 2 None 0 = Ret (1, []) /\
  MultiByteToWideChar [] pages current None 932 0 [0x41; 0x81] 2 (Some [0]) 1 = Ret (0, [0x41]).
Proof. split; reflexivity. Qed.

(** a strict conversion to UTF-8 of a lone surrogate returns -2 as if it
    were a length, where the call documents 0. *)
Theorem strict_utf8_minus_two : WideCharToMultiByte [0; 0] 0 pages current None CP_UTF8 WC_ERR_INVALID_CHARS [0xd800] 1 (Some [0; 0; 0; 0]) 4 None false = Ret (-2, [0; 0; 0; 0], None).
Proof. reflexivity. Qed.

(** CP_UTF8, which both calls accept, is not a valid code page. *)
Theorem utf8_not_valid_codepage : IsValidCodePage pages CP_UTF8 = false.
Proof. reflexivity. Qed.

(** a default character of two bytes loses its first byte in CPINFO. *)
Theorem cpinfo_default_char t : is_double (def_char (info t)) = true -> fst (snd (fst (get_cpinfo t))) = 0.
Proof.
  intros Hd. unfold get_cpinfo. unfold is_double in Hd. rewrite Hd. cbn [fst snd]. unfold u8, wrapU. rewrite <- Z.land_ones by lia. by rewrite <- Z.land_assoc, Z.land_0_r.
Qed.
End CodePageCalls.
