(* ===== verification/MsiString.v ===== *)
(** * The string table of an installer database (dlls/msi/string.c, streams of table.c)

    The table numbers strings: entries with two counts, chained by hash.  It is
    loaded from and saved to two streams of a storage, in the code page of the
    database, through the calls of the code pages.  A string pointer is the list
    of the characters from it on; storages are an interface, the language's
    comparison [lstrcmpW] and the heap are parameters.  Sums of sizes of objects
    in memory stay below 2^32.  Traces are not modelled. *)
From S2P Require Import Prelude CodePage.

Module MsiString.

Definition HASH_SIZE : Z := 0x101.
Definition LONG_STR_BYTES : Z := 3.
Definition MAX_STREAM_NAME : Z := 0x1f.
Definition ERROR_SUCCESS : Z := 0.
Definition ERROR_NOT_ENOUGH_MEMORY : Z := 8.
Definition ERROR_INVALID_PARAMETER : Z := 87.
Definition ERROR_FUNCTION_FAILED : Z := 1627.

Record msistring := mkStr { hash_next : Z; persistent_refcount : Z; nonpersistent_refcount : Z; str : option (list Z) }.
Record string_table := mkTab { maxcount : Z; freeslot : Z; codepage : Z; hash : list Z; strings : list msistring }.
Inductive StringPersistence := StringPersistent | StringNonPersistent.

Definition zero_entry : msistring := mkStr 0 0 0 None.
Definition used (e : msistring) : bool := negb (persistent_refcount e =? 0) || negb (nonpersistent_refcount e =? 0).

Fixpoint makehash_loop (h : Z) (s : list Z) : outcome Z :=
  match s with
  | [] => Fault
  | c :: s =>
    if c =? 0 then Ret (h mod HASH_SIZE) else
    let h := u32 (Z.lxor h c * 53) in
    makehash_loop (Z.lor (u32 (Z.shiftl h 5)) (Z.shiftr h 27)) s
  end.
Definition msistring_makehash (s : list Z) : outcome Z := makehash_loop 0 s.

(** the text of a string pointer: the characters before the terminator *)
Fixpoint text (s : list Z) : list Z :=
  match s with [] => [] | c :: s => if c =? 0 then [] else c :: text s end.

(** ** Names of streams (table.c) *)
Definition utf2mime (x : Z) : Z :=
  if (48 <=? x) && (x <=? 57) then x - 48
  else if (65 <=? x) && (x <=? 90) then x - 65 + 10
  else if (97 <=? x) && (x <=? 122) then x - 97 + 10 + 26
  else if x =? 46 then 62
  else if x =? 95 then 63
  else -1.
Definition mime2utf (x : Z) : Z :=
  if x <? 10 then x + 48
  else if x <? 36 then x - 10 + 65
  else if x <? 62 then x - 36 + 97
  else if x =? 62 then 46
  else 95.
(** the next character of the name, with the one after it when both are in the
    set *)
Definition pack_char (inp : list Z) : outcome (Z * bool) :=
  let! ch := rd inp 0 in
  if (ch <? 0x80) && (0 <=? utf2mime ch) then
    let c := utf2mime ch + 0x4800 in
    let! next := rd inp 1 in
    if negb (next =? 0) && (next <? 0x80) && negb (utf2mime next =? -1)
    then Ret (u16 (c + u32 (Z.shiftl (utf2mime next + 0x3ffffc0) 6)), true)
    else Ret (c, false)
  else Ret (ch, false).
(** [count] is the number of rounds that are left, [p] the next store *)
Fixpoint encode_loop (count : nat) (inp out : list Z) (p : Z) : outcome (option (list Z)) :=
  match count with
  | O => Ret None
  | S count =>
    let! ch := rd inp 0 in
    if ch =? 0 then let! out := wr out p 0 in Ret (Some out) else
    let! (c, two) := pack_char inp in
    let! out := wr out p c in
    encode_loop count (drop (if (two : bool) then 2 else 1) inp) out (p + 1)
  end.
Fixpoint decode_loop (inp out : list Z) (count : Z) : outcome (Z * list Z) :=
  match inp with
  | [] => Fault
  | ch :: inp =>
    if ch =? 0 then let! out := wr out count 0 in Ret (count, out) else
    if (0x3800 <=? ch) && (ch <? 0x4840) then
      if 0x4800 <=? ch then let! out := wr out count (mime2utf (ch - 0x4800)) in decode_loop inp out (count + 1)
      else
        let c := ch - 0x3800 in
        let! out := wr out count (mime2utf (Z.land c 0x3f)) in
        let! out := wr out (count + 1) (mime2utf (Z.land (Z.shiftr c 6) 0x3f)) in
        decode_loop inp out (count + 2)
    else let! out := wr out count ch in decode_loop inp out (count + 1)
  end.
Definition decode_streamname (inp out : list Z) : outcome (Z * list Z) := decode_loop inp out 0.

Definition szStringData : list Z := [95; 83; 116; 114; 105; 110; 103; 68; 97; 116; 97; 0].
Definition szStringPool : list Z := [95; 83; 116; 114; 105; 110; 103; 80; 111; 111; 108; 0].

(** an array of bytes read as an array of words, and the other way *)
Fixpoint words (l : list Z) : list Z :=
  match l with a :: b :: l => a + 256 * b :: words l | _ => [] end.
Fixpoint unwords (l : list Z) : list Z :=
  match l with [] => [] | w :: l => w mod 256 :: w / 256 :: unwords l end.

(** what the calls use of IStorage and IStream, a stream being named; [None]: an
    error.  A stream is read right after it was opened, from its start. *)
Class IStorage (S : Type) := {
  OpenStream : S -> list Z -> bool;
  CreateStream : S -> list Z -> option S;
  StreamSize : S -> list Z -> option Z;
  StreamRead : S -> list Z -> Z -> option (list Z);
  StreamSetSize : S -> list Z -> Z -> option S;
  StreamSeek : S -> list Z -> Z -> option S;
  StreamWrite : S -> list Z -> list Z -> option (S * Z) }.

Section Table.
Context (compose_table : list Z) (compose_size : Z) (decompose_table : list Z)
  (cptables : list CodePage.cptable) (cps : CodePage.codepages) (locale_cp : option CodePage.cptable).
(** [heap w n]: a block of [n] elements of [w] bits with any contents;
    [heap_zero n]: whether there is memory for [n] entries *)
Context (lstrcmpW : list Z -> list Z -> Z) (heap : Z -> Z -> option (list Z)) (heap_zero : Z -> bool).
Context {S : Type} `{IStorage S}.

Definition encode_streamname (bTable : bool) (inp : list Z) : outcome (option (list Z)) :=
  let! count := (if bTable then Ret MAX_STREAM_NAME else let! n := strlen inp in Ret (n + 2)) in
  match heap 16 count with
  | None => Fault
  | Some out =>
    if bTable then let! out := wr out 0 0x4840 in encode_loop (Z.to_nat (count - 1)) inp out 1
    else encode_loop (Z.to_nat count) inp out 0
  end.

Definition mb (cp : Z) (src : list Z) (srclen : Z) (dst : option (list Z)) (dstlen : Z) : outcome (Z * list Z) :=
  CodePage.MultiByteToWideChar decompose_table cptables cps locale_cp cp 0 src srclen dst dstlen.
Definition wc (cp : Z) (src : list Z) (srclen : Z) (dst : option (list Z)) (dstlen : Z) : outcome (Z * list Z) :=
  let! (r, d, _) := CodePage.WideCharToMultiByte compose_table compose_size cptables cps locale_cp cp 0 src srclen dst dstlen None false in
  Ret (r, d).

(** ** The table *)
Definition init_stringtable (entries cp : Z) : option string_table :=
  if negb (cp =? CodePage.CP_ACP) && negb (CodePage.IsValidCodePage cptables cp) then None else
  let entries := if entries <? 1 then 1 else entries in
  if heap_zero entries
  then Some (mkTab entries 1 cp (replicate (Z.to_nat HASH_SIZE) (-1)) (replicate (Z.to_nat entries) zero_entry))
  else None.

(** the strings that are freed *)
Fixpoint msi_destroy_stringtable (strs : list msistring) : list (option (list Z)) :=
  match strs with
  | [] => []
  | e :: strs => if used e then str e :: msi_destroy_stringtable strs else msi_destroy_stringtable strs
  end.

Fixpoint free_from (strs : list msistring) (n : nat) (i : Z) : outcome (option Z) :=
  match n with
  | O => Ret None
  | Datatypes.S n => let! e := rd strs i in if used e then free_from strs n (i + 1) else Ret (Some i)
  end.
Definition st_find_free_entry (st : string_table) : outcome (Z * string_table) :=
  let! r := (if freeslot st =? 0 then Ret None else free_from (strings st) (Z.to_nat (maxcount st - freeslot st)) (freeslot st)) in
  match r with
  | Some i => Ret (i, st)
  | None =>
    let! r := free_from (strings st) (Z.to_nat (maxcount st - 1)) 1 in
    match r with
    | Some i => Ret (i, st)
    | None =>
      let sz := maxcount st + 1 + maxcount st / 2 in
      if heap_zero sz
      then Ret (maxcount st, mkTab sz (maxcount st) (codepage st) (hash st) (strings st ++ replicate (Z.to_nat (sz - maxcount st)) zero_entry))
      else Ret (-1, st)
    end
  end.

Definition set_st_entry (st : string_table) (n : Z) (s : list Z) (refcount : Z) (p : StringPersistence) : outcome string_table :=
  let! h := msistring_makehash s in
  let! next := rd (hash st) h in
  let! strs := wr (strings st) n
    (match p with StringPersistent => mkStr next refcount 0 (Some s) | StringNonPersistent => mkStr next 0 refcount (Some s) end) in
  let! hs := wr (hash st) h n in
  Ret (mkTab (maxcount st) (if n <? maxcount st then n + 1 else freeslot st) (codepage st) hs strs).

(** along a chain; an entry is compared without its pointer being compared first *)
Fixpoint find_chain (fuel : nat) (strs : list msistring) (s : list Z) (n : Z) : outcome (Z * Z) :=
  match fuel with
  | O => Spin
  | Datatypes.S fuel =>
    if n =? -1 then Ret (ERROR_INVALID_PARAMETER, 0) else
    let! e := rd strs n in
    match str e with
    | None => Fault
    | Some t => if lstrcmpW (text s) (text t) =? 0 then Ret (ERROR_SUCCESS, n) else find_chain fuel strs s (hash_next e)
    end
  end.
(** the error and the id *)
Definition msi_string2idW (st : string_table) (s : list Z) : outcome (Z * Z) :=
  let! h := msistring_makehash s in
  let! n := rd (hash st) h in
  find_chain (Datatypes.S (length (strings st))) (strings st) s n.
Definition msi_string2idA (st : string_table) (buffer : list Z) : outcome (Z * Z) :=
  let! c := rd buffer 0 in
  if c =? 0 then Ret (ERROR_SUCCESS, 0) else
  let! (sz, _) := mb (codepage st) buffer (-1) None 0 in
  if sz =? 0 then Ret (ERROR_INVALID_PARAMETER, 0) else
  match heap 16 sz with
  | None => Ret (ERROR_NOT_ENOUGH_MEMORY, 0)
  | Some s => let! (_, s) := mb (codepage st) buffer (-1) (Some s) sz in msi_string2idW st s
  end.

(** the counts of an entry that is there already *)
Definition bump (st : string_table) (n refcount : Z) (p : StringPersistence) : outcome string_table :=
  let! e := rd (strings st) n in
  let e := match p with
           | StringPersistent => mkStr (hash_next e) (u32 (persistent_refcount e + refcount)) (nonpersistent_refcount e) (str e)
           | StringNonPersistent => mkStr (hash_next e) (persistent_refcount e) (u32 (nonpersistent_refcount e + refcount)) (str e)
           end in
  let! strs := wr (strings st) n e in
  Ret (mkTab (maxcount st) (freeslot st) (codepage st) (hash st) strs).
(** the entry [n], or a search for the string and then for a free entry *)
Inductive slot := Found (id : Z) | Slot (n : Z) | NoSlot.
Definition find_slot (st : string_table) (n : Z) (search : outcome (Z * Z)) : outcome (slot * string_table) :=
  if 0 <? n then let! e := rd (strings st) n in Ret (if used e then NoSlot else Slot n, st)
  else
    let! (r, id) := search in
    if r =? ERROR_SUCCESS then Ret (Found id, st) else
    let! (n, st) := st_find_free_entry st in
    Ret (if n <? 1 then NoSlot else Slot n, st).
Definition msi_addstring (st : string_table) (n : Z) (data : option (list Z)) (len refcount : Z) (p : StringPersistence) : outcome (Z * string_table) :=
  match data with
  | None => Ret (0, st)
  | Some d =>
    let! c := rd d 0 in
    if c =? 0 then Ret (0, st) else
    let! (sl, st) := find_slot st n (msi_string2idA st d) in
    match sl with
    | NoSlot => Ret (-1, st)
    | Found id => let! st := bump st id refcount p in Ret (id, st)
    | Slot n =>
      let! len := (if len <? 0 then strlen d else Ret len) in
      let! (sz, _) := mb (codepage st) d len None 0 in
      match heap 16 (sz + 1) with
      | None => Ret (-1, st)
      | Some s =>
        let! (_, s) := mb (codepage st) d len (Some s) sz in
        let! s := wr s sz 0 in
        let! st := set_st_entry st n s refcount p in
        Ret (n, st)
      end
    end
  end.
Definition msi_addstringW (st : string_table) (n : Z) (data : option (list Z)) (len refcount : Z) (p : StringPersistence) : outcome (Z * string_table) :=
  match data with
  | None => Ret (0, st)
  | Some d =>
    let! c := rd d 0 in
    if c =? 0 then Ret (0, st) else
    let! (sl, st) := find_slot st n (msi_string2idW st d) in
    match sl with
    | NoSlot => Ret (-1, st)
    | Found id => let! st := bump st id refcount p in Ret (id, st)
    | Slot n =>
      let! len := (if len <? 0 then strlen d else Ret len) in
      match heap 16 (len + 1) with
      | None => Ret (-1, st)
      | Some s =>
        let! chars := read_bytes d len in
        let! s := put_bytes s 0 chars in
        let! s := wr s len 0 in
        let! st := set_st_entry st n s refcount p in
        Ret (n, st)
      end
    end
  end.

(** [None] for NULL *)
Definition msi_string_lookup_id (st : string_table) (id : Z) : outcome (option (list Z)) :=
  if id =? 0 then Ret (Some [0])
  else if maxcount st <=? id then Ret None
  else let! e := rd (strings st) id in Ret (if used e then str e else None).
(** the error, the buffer and the size *)
Definition msi_id2stringW (st : string_table) (id : Z) (buffer : option (list Z)) (sz : Z) : outcome (Z * list Z * Z) :=
  let! s := msi_string_lookup_id st id in
  match s with
  | None => Ret (ERROR_FUNCTION_FAILED, default [] buffer, sz)
  | Some s =>
    let! n := strlen s in
    let len := n + 1 in
    match buffer with
    | None => Ret (ERROR_SUCCESS, [], len)
    | Some buffer =>
      let sz := if sz <? len then len else sz in
      let! chars := read_bytes s sz in
      let! buffer := put_bytes buffer 0 chars in
      Ret (ERROR_SUCCESS, buffer, len)
    end
  end.
(** drop characters at the end until the bytes fit *)
Fixpoint shorten (cp : Z) (s : list Z) (n : nat) (len sz : Z) : outcome (Z * Z) :=
  match n with
  | O => Ret (0, len)
  | Datatypes.S m =>
    if sz <? len then let! (len, _) := wc cp s (Z.of_nat m) None 0 in shorten cp s m len sz
    else Ret (Z.of_nat n, len)
  end.
Definition msi_id2stringA (st : string_table) (id : Z) (buffer : option (list Z)) (sz : Z) : outcome (Z * list Z * Z) :=
  let! s := msi_string_lookup_id st id in
  match s with
  | None => Ret (ERROR_FUNCTION_FAILED, default [] buffer, sz)
  | Some s =>
    let! (len, _) := wc (codepage st) s (-1) None 0 in
    match buffer with
    | None => Ret (ERROR_SUCCESS, [], len)
    | Some buffer =>
      let! (n, len) := (if sz <? len then let! k := strlen s in shorten (codepage st) s (Z.to_nat (k + 1)) len sz else Ret (-1, len)) in
      let! (sz, buffer) := wc (codepage st) s n (Some buffer) len in
      Ret (ERROR_SUCCESS, buffer, sz)
    end
  end.

Fixpoint strcmpW (a b : list Z) : outcome Z :=
  match a, b with
  | c :: a, d :: b => if negb (c =? 0) && (c =? d) then strcmpW a b else Ret (c - d)
  | _, _ => Fault
  end.
Definition msi_strcmp (st : string_table) (lval rval : Z) : outcome (Z * Z) :=
  let! l := msi_string_lookup_id st lval in
  match l with
  | None => Ret (ERROR_INVALID_PARAMETER, 0)
  | Some l =>
    let! r := msi_string_lookup_id st rval in
    match r with
    | None => Ret (ERROR_INVALID_PARAMETER, 0)
    | Some r => let! c := strcmpW l r in Ret (ERROR_SUCCESS, u32 c)
    end
  end.

(** ** Streams (table.c)

    A storage refuses the name NULL of a stream whose name is too long. *)
Definition read_stream_data (stg : S) (stname : list Z) (table : bool) : outcome (Z * list Z) :=
  let! encname := encode_streamname table stname in
  match encname with
  | None => Ret (ERROR_FUNCTION_FAILED, [])
  | Some encname =>
    let name := text encname in
    if negb (OpenStream stg name) then Ret (ERROR_FUNCTION_FAILED, []) else
    match StreamSize stg name with
    | None => Ret (ERROR_FUNCTION_FAILED, [])
    | Some size =>
      if negb (Z.shiftr size 32 =? 0) then Ret (ERROR_FUNCTION_FAILED, []) else
      match heap 8 size with
      | None => Ret (ERROR_NOT_ENOUGH_MEMORY, [])
      | Some _ =>
        match StreamRead stg name size with
        | Some data => if zlen data =? size then Ret (ERROR_SUCCESS, data) else Ret (ERROR_FUNCTION_FAILED, [])
        | None => Ret (ERROR_FUNCTION_FAILED, [])
        end
      end
    end
  end.
Definition write_stream_data (stg : S) (stname data : list Z) (bTable : bool) : outcome (Z * S) :=
  let! encname := encode_streamname bTable stname in
  match encname with
  | None => Ret (ERROR_FUNCTION_FAILED, stg)
  | Some encname =>
    let name := text encname in
    match (if OpenStream stg name then Some stg else CreateStream stg name) with
    | None => Ret (ERROR_FUNCTION_FAILED, stg)
    | Some stg =>
      match StreamSetSize stg name (zlen data) with
      | None => Ret (ERROR_FUNCTION_FAILED, stg)
      | Some stg =>
        match StreamSeek stg name 0 with
        | None => Ret (ERROR_FUNCTION_FAILED, stg)
        | Some stg =>
          if zlen data =? 0 then Ret (ERROR_SUCCESS, stg) else
          match StreamWrite stg name data with
          | None => Ret (ERROR_FUNCTION_FAILED, stg)
          | Some (stg, count) => Ret (if count =? zlen data then ERROR_SUCCESS else ERROR_FUNCTION_FAILED, stg)
          end
        end
      end
    end
  end.

(** ** Saving and loading *)
(** datasize and poolsize; [hole] counts entries without a string *)
Fixpoint totalsize_loop (cp : Z) (strs : list msistring) (datasize poolsize hole : Z) : outcome (Z * Z) :=
  match strs with
  | [] => Ret (datasize, poolsize)
  | e :: strs =>
    if persistent_refcount e =? 0 then totalsize_loop cp strs datasize (poolsize + 4) hole
    else
      match str e with
      | Some s =>
        let! (len, _) := wc cp s (-1) None 0 in
        let len := if negb (len =? 0) then len - 1 else len in
        totalsize_loop cp strs (datasize + len) (poolsize + (if 0xffff <? len then 4 else 0) + hole + 4) 0
      | None => totalsize_loop cp strs datasize poolsize (hole + 4)
      end
  end.
Definition string_totalsize (st : string_table) : outcome (Z * Z) :=
  totalsize_loop (codepage st) (drop 1 (take (Z.to_nat (maxcount st)) (strings st))) 0 4 0.
Definition msi_init_string_table (stg : S) : outcome (bool * S) :=
  let! (ret, stg) := write_stream_data stg szStringPool (unwords [0; 0]) true in
  if negb (ret =? ERROR_SUCCESS) then Ret (false, stg) else
  let! (ret, stg) := write_stream_data stg szStringData [] true in
  Ret (ret =? ERROR_SUCCESS, stg).

(** [k] entries from [i] on, [n] the next one of the pool; [false] when more
    bytes are used than there are *)
Fixpoint save_loop (st : string_table) (datasize : Z) (k : nat) (i n used : Z) (pool data : list Z) : outcome (bool * list Z * list Z * Z) :=
  match k with
  | O => Ret (true, pool, data, used)
  | Datatypes.S k =>
    let! e := rd (strings st) i in
    if persistent_refcount e =? 0 then
      let! pool := wr pool (n * 2) 0 in
      let! pool := wr pool (n * 2 + 1) 0 in
      save_loop st datasize k (i + 1) (n + 1) used pool data
    else
      let! (r, buf, sz) := msi_id2stringA st i (Some (drop (Z.to_nat used) data)) (datasize - used) in
      let data := take (Z.to_nat used) data ++ buf in
      let sz := if r =? ERROR_SUCCESS then sz else 0 in
      let sz := if negb (sz =? 0) && (sz <? datasize - used) then sz - 1 else sz in
      let! pool := wr pool (n * 2 + 1) (if negb (sz =? 0) then u16 (persistent_refcount e) else 0) in
      let! (pool, n) := (if sz <? 0x10000 then let! pool := wr pool (n * 2) sz in Ret (pool, n + 1)
                         else
                           let! pool := wr pool (n * 2) 0 in
                           let! pool := wr pool (n * 2 + 2) (Z.land sz 0xffff) in
                           let! pool := wr pool (n * 2 + 3) (u16 (Z.shiftr sz 16)) in
                           Ret (pool, n + 2)) in
      if datasize <? used + sz then Ret (false, pool, data, used + sz)
      else save_loop st datasize k (i + 1) n (used + sz) pool data
  end.
Definition msi_save_string_table (st : string_table) (storage : S) : outcome (Z * S) :=
  let! (datasize, poolsize) := string_totalsize st in
  match heap 16 (poolsize / 2), heap 8 datasize with
  | Some pool, Some data =>
    let! pool := wr pool 0 (Z.land (codepage st) 0xffff) in
    let! pool := wr pool 1 (u16 (Z.shiftr (codepage st) 16)) in
    let! (ok, pool, data, used) := save_loop st datasize (Z.to_nat (maxcount st - 1)) 1 1 0 pool data in
    if negb ok || negb (used =? datasize) then Ret (ERROR_FUNCTION_FAILED, storage) else
    let! (r, storage) := write_stream_data storage szStringData data true in
    if negb (r =? 0) then Ret (ERROR_FUNCTION_FAILED, storage) else
    let! (r, storage) := write_stream_data storage szStringPool (unwords pool) true in
    Ret (if negb (r =? 0) then ERROR_FUNCTION_FAILED else ERROR_SUCCESS, storage)
  | _, _ => Ret (ERROR_FUNCTION_FAILED, storage)
  end.

(** the table and the bytes that were used *)
Fixpoint load_loop (fuel : nat) (st : string_table) (pool data : list Z) (count i n offset : Z) : outcome (string_table * Z) :=
  match fuel with
  | O => Spin
  | Datatypes.S fuel =>
    if count <=? i then Ret (st, offset) else
    let! refs := rd pool (i * 2 + 1) in
    let! low := rd pool (i * 2) in
    if (low =? 0) && (refs =? 0) then load_loop fuel st pool data count (i + 1) (n + 1) offset else
    let! (len, i) := (if low =? 0 then
                        let! h := rd pool (i * 2 + 3) in
                        let! l := rd pool (i * 2 + 2) in
                        Ret (u32 (Z.shiftl h 16 + l), i + 2)
                      else Ret (low, i + 1)) in
    if zlen data <? u32 (offset + len) then Ret (st, offset) else
    let! (_, st) := msi_addstring st n (Some (drop (Z.to_nat offset) data)) (s32 len) refs StringPersistent in
    load_loop fuel st pool data count i (n + 1) (u32 (offset + len))
  end.
(** the table and *bytes_per_strref ([None]: not stored) *)
Definition msi_load_string_table (stg : S) : outcome (option string_table * option Z) :=
  let! (r, pbytes) := read_stream_data stg szStringPool true in
  if negb (r =? ERROR_SUCCESS) then Ret (None, None) else
  let! (r, data) := read_stream_data stg szStringData true in
  if negb (r =? ERROR_SUCCESS) then Ret (None, None) else
  let pool := words pbytes in
  let poolsize := zlen pbytes in
  let! refbytes := (if 4 <? poolsize then let! p := rd pool 1 in Ret (if negb (Z.land p 0x8000 =? 0) then LONG_STR_BYTES else 2) else Ret 2) in
  let count := poolsize / 4 in
  let! cp := (if 4 <? poolsize then
                let! p0 := rd pool 0 in
                let! p1 := rd pool 1 in
                Ret (Z.lor p0 (Z.shiftl (Z.land p1 0x7fff) 16))
              else Ret CodePage.CP_ACP) in
  match init_stringtable count cp with
  | None => Ret (None, Some refbytes)
  | Some st =>
    let! (st, _) := load_loop (Datatypes.S (Z.to_nat count)) st pool data count 1 1 0 in
    Ret (Some st, Some refbytes)
  end.
End Table.
End MsiString.
