(* ===== verification/MsiStringSpec.v ===== *)
(** * The string table: what it promises

    The chains of the table, the searches in them, and the operations that
    change the table, against the view of the table as a map from ids to counted
    strings. *)
From stdpp Require Import sets.
From S2P Require Import Prelude CodePage MsiString.
Import MsiString.

Module MsiStringSpec.

Ltac conj := repeat match goal with |- _ /\ _ => split end.

(** ** Hashes *)
Lemma makehash_ok t k : cstring t -> forall h, 0 <= h -> exists r, makehash_loop h (t ++ 0 :: k) = Ret r /\ makehash_loop h (t ++ [0]) = Ret r /\ 0 <= r < HASH_SIZE.
Proof.
  induction 1 as [|c t Hc _ IH]; intros h Hh; cbn [makehash_loop app].
  - change (0 =? 0) with true. cbv iota. eexists. conj; [done|done| |]; apply Z.mod_pos_bound; done.
  - replace (c =? 0) with false by lia. apply IH. apply Z.lor_nonneg. assert (0 <= u32 (Z.lxor h c * 53)) by (by apply wrapU_range). split; [by apply wrapU_range|by apply Z.shiftr_nonneg].
Qed.
Lemma text_app t k : cstring t -> text (t ++ 0 :: k) = t.
Proof. induction 1 as [|c t Hc _ IH]; [done|]. cbn [text app]. replace (c =? 0) with false by lia. by rewrite IH. Qed.
(** the hash of a text *)
Definition hash_text (t : list Z) : Z := match makehash_loop 0 (t ++ [0]) with Ret h => h | _ => 0 end.
Lemma hash_text_ok t k : cstring t -> msistring_makehash (t ++ 0 :: k) = Ret (hash_text t) /\ 0 <= hash_text t < HASH_SIZE.
Proof. intros Ht. destruct (makehash_ok t k Ht 0 ltac:(lia)) as (r & E1 & E2 & Hr). unfold msistring_makehash, hash_text. rewrite E2. done. Qed.

(** ** The invariant *)
Abbreviation ent strs i := (nthZ zero_entry strs i).
(** the text of an entry *)
Definition etext (e : msistring) : list Z := match str e with Some s => text s | None => [] end.
Definition terminated (s : list Z) : Prop := exists t k, s = t ++ 0 :: k /\ cstring t.
Definition live (strs : list msistring) (i : Z) : Prop := 0 < i < zlen strs /\ used (ent strs i) = true.

(** the ids of a chain that starts at [n] *)
Fixpoint chain (strs : list msistring) (n : Z) (ids : list Z) : Prop :=
  match ids with
  | [] => n = -1
  | i :: ids => n = i /\ 0 < i < zlen strs /\ chain strs (hash_next (ent strs i)) ids
  end.
Definition bucket (strs : list msistring) (h : Z) (ids : list Z) : Prop :=
  NoDup ids /\ forall i, i ∈ ids <-> live strs i /\ hash_text (etext (ent strs i)) = h.
Record wf (st : string_table) : Prop := {
  wf_count : zlen (strings st) = maxcount st;
  wf_one : 1 <= maxcount st;
  wf_hash : zlen (hash st) = HASH_SIZE;
  wf_free : 1 <= freeslot st;
  wf_zero : used (ent (strings st) 0) = false;
  wf_text : forall i, live (strings st) i -> exists s, str (ent (strings st) i) = Some s /\ terminated s;
  wf_chain : forall h, 0 <= h < HASH_SIZE -> exists ids, chain (strings st) (nthZ 0 (hash st) h) ids /\ bucket (strings st) h ids }.

(** ** Chains *)
Lemma str_chain_ext strs strs' : zlen strs <= zlen strs' -> forall ids n, (forall i, i ∈ ids -> hash_next (ent strs' i) = hash_next (ent strs i)) -> chain strs n ids -> chain strs' n ids.
Proof.
  intros Hl. induction ids as [|i ids IH]; intros n Hi; [done|]. cbn [chain]. intros (-> & Hr & Hc). conj; [done|lia|lia|]. rewrite Hi by (apply elem_of_cons; by left). apply IH; [intros; apply Hi; apply elem_of_cons; by right|done].
Qed.
Lemma chain_range strs n ids i : chain strs n ids -> i ∈ ids -> 0 < i < zlen strs.
Proof. revert n. induction ids as [|j ids IH]; intros n; [set_solver|]. intros (-> & Hr & Hc) [->|Hi]%elem_of_cons; [done|by eapply IH]. Qed.
(** a chain without repetition is no longer than the array *)
Lemma str_chain_length strs n ids : chain strs n ids -> NoDup ids -> (length ids <= length strs)%nat.
Proof.
  intros Hc Hn. assert (Hs : ids ⊆ map Z.of_nat (seq 0 (length strs))).
  { intros i Hi. pose proof (chain_range _ _ _ _ Hc Hi) as Hr. apply list_elem_of_fmap. exists (Z.to_nat i). split; [lia|]. apply elem_of_seq. unfold zlen in Hr. lia. }
  pose proof (submseteq_length _ _ (NoDup_submseteq _ _ Hn Hs)) as H. by rewrite length_map, length_seq in H.
Qed.

(** ** Searching *)
Section Search.
Context (lstrcmpW : list Z -> list Z -> Z).
(** an entry that a search for [t] accepts *)
Definition matches (strs : list msistring) (t : list Z) (i : Z) : Prop :=
  live strs i /\ hash_text (etext (ent strs i)) = hash_text t /\ lstrcmpW t (etext (ent strs i)) = 0.
Lemma str_find_chain_ok strs s fuel : forall ids n, chain strs n ids -> (forall i, i ∈ ids -> is_Some (str (ent strs i))) -> (length ids < fuel)%nat ->
  (exists i, i ∈ ids /\ lstrcmpW (text s) (etext (ent strs i)) = 0 /\ find_chain lstrcmpW fuel strs s n = Ret (ERROR_SUCCESS, i)) \/
  ((forall i, i ∈ ids -> lstrcmpW (text s) (etext (ent strs i)) <> 0) /\ find_chain lstrcmpW fuel strs s n = Ret (ERROR_INVALID_PARAMETER, 0)).
Proof using.
  induction fuel as [|fuel IH]; intros ids n Hc Hs Hf; [lia|]. cbn [find_chain]. destruct ids as [|i ids]; cbn [chain] in Hc.
  - subst n. right. split; [set_solver|done].
  - destruct Hc as (-> & Hr & Hc). replace (i =? -1) with false by lia. rewrite (rd_in zero_entry) by lia. cbn [obind]. destruct (Hs i ltac:(apply elem_of_cons; by left)) as [u Eu]. rewrite Eu.
    assert (Et : etext (ent strs i) = text u) by (unfold etext; by rewrite Eu). destruct (Z.eqb_spec (lstrcmpW (text s) (text u)) 0) as [E|E].
    + left. exists i. conj; [apply elem_of_cons; by left|by rewrite Et|done].
    + destruct (IH ids (hash_next (ent strs i)) Hc ltac:(intros; apply Hs; apply elem_of_cons; by right) ltac:(simpl in Hf; lia)) as [(j & Hj & Ej & Er)|[Hn Er]].
      * left. exists j. conj; [apply elem_of_cons; by right|done|done].
      * right. split; [|done]. intros j [->|Hj]%elem_of_cons; [by rewrite Et|by apply Hn].
Qed.
(** a search ends, and finds an entry with that text if there is one *)
Lemma string2idW_ok st t k : wf st -> cstring t ->
  (exists i, matches (strings st) t i /\ msi_string2idW lstrcmpW st (t ++ 0 :: k) = Ret (ERROR_SUCCESS, i)) \/
  ((forall i, ~ matches (strings st) t i) /\ msi_string2idW lstrcmpW st (t ++ 0 :: k) = Ret (ERROR_INVALID_PARAMETER, 0)).
Proof using.
  intros W Ht. unfold msi_string2idW. destruct (hash_text_ok t k Ht) as [-> Hh]. cbn [obind]. rewrite (rd_in 0) by (by rewrite (wf_hash _ W)). cbn [obind].
  destruct (wf_chain _ W _ Hh) as (ids & Hc & Hn & Hb). pose proof (str_chain_length _ _ _ Hc Hn).
  assert (Hs : forall i, i ∈ ids -> is_Some (str (ent (strings st) i))). { intros i Hi. apply Hb in Hi as [Hl _]. destruct (wf_text _ W _ Hl) as (s & -> & _). by eexists. }
  destruct (str_find_chain_ok (strings st) (t ++ 0 :: k) (S (length (strings st))) ids _ Hc Hs ltac:(lia)) as [(i & Hi & Ei & Er)|[Hf Er]]; rewrite text_app in * by done.
  - left. exists i. split; [|done]. apply Hb in Hi as [Hl Hi]. done.
  - right. split; [|done]. intros i (Hl & Hhh & He). by apply (Hf i); [apply Hb|].
Qed.
End Search.

(** ** Free entries *)
Lemma free_from_ok strs n : forall i, 0 <= i -> i + Z.of_nat n <= zlen strs ->
  exists r, free_from strs n i = Ret r /\ match r with Some j => i <= j < i + Z.of_nat n /\ used (ent strs j) = false | None => forall j, i <= j < i + Z.of_nat n -> used (ent strs j) = true end.
Proof.
  induction n as [|n IH]; intros i Hi Hn; cbn [free_from]; [exists None; split; [done|lia]|]. rewrite (rd_in zero_entry) by lia. cbn [obind].
  destruct (used (ent strs i)) eqn:E; [|exists (Some i); split; [done|split; [lia|done]]]. destruct (IH (i + 1)) as (r & Er & Hr); [lia|lia|]. exists r. split; [done|]. destruct r as [j|].
  - split; [lia|apply Hr].
  - intros j Hj. destruct (decide (j = i)) as [->|]; [done|]. apply Hr. lia.
Qed.
Lemma ent_grow strs k i : ent (strs ++ replicate k zero_entry) i = ent strs i.
Proof.
  unfold nthZ. destruct (i <? 0); [done|]. destruct (decide (Z.to_nat i < length strs)%nat) as [H|H]; [by rewrite lookup_app_l|].
  rewrite lookup_app_r by lia. rewrite (lookup_ge_None_2 strs) by lia. destruct (replicate k zero_entry !! (Z.to_nat i - length strs)%nat) as [e|] eqn:E; [|done].
  apply lookup_replicate in E as [-> _]. done.
Qed.
(** growing the array keeps everything *)
Lemma wf_grow st sz : wf st -> maxcount st <= sz -> wf (mkTab sz (maxcount st) (codepage st) (hash st) (strings st ++ replicate (Z.to_nat (sz - maxcount st)) zero_entry)).
Proof.
  intros W Hs. pose proof (wf_count _ W) as Hc. pose proof (wf_one _ W). set (strs' := strings st ++ _).
  assert (Hlen : zlen strs' = sz) by (unfold strs', zlen in *; rewrite length_app, length_replicate; lia).
  assert (Hent : forall i, ent strs' i = ent (strings st) i) by (intros; apply ent_grow).
  assert (Hlive : forall i, live strs' i <-> live (strings st) i).
  { intros i. unfold live. rewrite Hent, Hlen. split; intros [Hr Hu]; (split; [|done]); [|lia]. destruct (decide (i < maxcount st)); [lia|]. by rewrite (nthZ_out zero_entry) in Hu by lia. }
  split; cbn [strings maxcount hash freeslot].
  - done.
  - lia.
  - by apply W.
  - lia.
  - rewrite Hent. by apply W.
  - intros i Hi. apply Hlive in Hi. rewrite Hent. by apply W.
  - intros h Hh. destruct (wf_chain _ W h Hh) as (ids & Hch & Hn & Hb). exists ids. split; [eapply str_chain_ext; [|intros; by rewrite Hent|exact Hch]; lia|]. split; [done|]. intros i. by rewrite Hent, Hlive.
Qed.
Section Free.
Context (heap_zero : Z -> bool).
(** every entry is used, and there is no memory for a larger array *)
Definition no_entry (st : string_table) : Prop :=
  (forall j, 0 < j < maxcount st -> used (ent (strings st) j) = true) /\ heap_zero (maxcount st + 1 + maxcount st / 2) = false.
Lemma find_free_ok st : wf st -> exists n st', st_find_free_entry heap_zero st = Ret (n, st') /\
  ((n = -1 /\ st' = st /\ no_entry st) \/ (wf st' /\ 0 < n < maxcount st' /\ used (ent (strings st') n) = false /\ codepage st' = codepage st /\ forall i, ent (strings st') i = ent (strings st) i)).
Proof using.
  intros W. pose proof (wf_count _ W) as Hc. pose proof (wf_one _ W) as H1. pose proof (wf_free _ W) as Hf. unfold st_find_free_entry. replace (freeslot st =? 0) with false by lia.
  assert (Hg : exists n st', (let! r := free_from (strings st) (Z.to_nat (maxcount st - 1)) 1 in match r with Some i => Ret (i, st) | None =>
      if heap_zero (maxcount st + 1 + maxcount st / 2) then Ret (maxcount st, mkTab (maxcount st + 1 + maxcount st / 2) (maxcount st) (codepage st) (hash st)
        (strings st ++ replicate (Z.to_nat (maxcount st + 1 + maxcount st / 2 - maxcount st)) zero_entry)) else Ret (-1, st) end) = Ret (n, st') /\
    ((n = -1 /\ st' = st /\ no_entry st) \/ (wf st' /\ 0 < n < maxcount st' /\ used (ent (strings st') n) = false /\ codepage st' = codepage st /\ forall i, ent (strings st') i = ent (strings st) i))).
  { destruct (free_from_ok (strings st) (Z.to_nat (maxcount st - 1)) 1) as (r & -> & Hr); [lia|lia|]. cbn [obind]. destruct r as [j|]; [exists j, st; split; [done|right; conj; try done; try lia; apply Hr]|].
    destruct (heap_zero (maxcount st + 1 + maxcount st / 2)) eqn:Ez; [|exists (-1), st; split; [done|left; conj; [done|done|split; [|done]; intros j Hj; apply Hr; lia]]]. eexists _, _. split; [done|]. right.
    assert (0 <= maxcount st / 2) by (apply Z.div_pos; lia). conj; [apply wf_grow; [done|lia]|lia|cbn [maxcount]; lia| |done|intros i; apply ent_grow].
    cbn [strings]. rewrite ent_grow, (nthZ_out zero_entry) by lia. done. }
  destruct (decide (freeslot st <= maxcount st)) as [Hle|Hgt].
  - destruct (free_from_ok (strings st) (Z.to_nat (maxcount st - freeslot st)) (freeslot st)) as (r & -> & Hr); [lia|lia|]. cbn [obind]. destruct r as [j|]; [|exact Hg].
    exists j, st. split; [done|]. right. conj; try done; try lia; apply Hr.
  - replace (Z.to_nat (maxcount st - freeslot st)) with 0%nat by lia. cbn [free_from obind]. exact Hg.
Qed.
End Free.

(** ** Setting an entry, and its counts *)
Definition entry_for (next refcount : Z) (s : list Z) (p : StringPersistence) : msistring :=
  match p with StringPersistent => mkStr next refcount 0 (Some s) | StringNonPersistent => mkStr next 0 refcount (Some s) end.
Lemma used_entry_for next refcount s p : refcount <> 0 -> used (entry_for next refcount s p) = true.
Proof. intros H. unfold used. destruct p; cbn; replace (refcount =? 0) with false by lia; done. Qed.
Lemma etext_entry_for next refcount s p : etext (entry_for next refcount s p) = text s.
Proof. by destruct p. Qed.
Lemma set_st_entry_ok st n t k refcount p : wf st -> 0 < n < maxcount st -> used (ent (strings st) n) = false -> cstring t -> refcount <> 0 ->
  exists st' next, set_st_entry st n (t ++ 0 :: k) refcount p = Ret st' /\ wf st' /\ maxcount st' = maxcount st /\ codepage st' = codepage st /\
    nthZ 0 (hash st') (hash_text t) = n /\ forall i, ent (strings st') i = if i =? n then entry_for next refcount (t ++ 0 :: k) p else ent (strings st) i.
Proof.
  intros W Hn Hu Ht Hr. pose proof (wf_count _ W) as Hc. pose proof (wf_hash _ W) as Hhl. unfold set_st_entry. destruct (hash_text_ok t k Ht) as [-> Hh]. cbn [obind]. set (h := hash_text t) in *.
  rewrite (rd_in 0) by lia. cbn [obind]. set (next := nthZ 0 (hash st) h). fold (entry_for next refcount (t ++ 0 :: k) p). set (e := entry_for next refcount (t ++ 0 :: k) p).
  rewrite wr_in by lia. cbn [obind]. rewrite wr_in by lia. cbn [obind]. eexists _, next. split; [done|]. set (strs' := <[Z.to_nat n := e]> (strings st)).
  assert (Hent : forall i, ent strs' i = if i =? n then e else ent (strings st) i) by (intros i; apply nthZ_insert; lia).
  assert (Hlen : zlen strs' = zlen (strings st)) by apply zlen_insert.
  assert (Hlive : forall i, live strs' i <-> i = n \/ live (strings st) i).
  { intros i. unfold live. rewrite Hent, Hlen. destruct (Z.eqb_spec i n) as [->|Hne]; [|tauto]. unfold e. rewrite used_entry_for by done. split; [by left|intros _; split; [lia|done]]. }
  assert (Hnl : ~ live (strings st) n) by (intros [_ H]; congruence). conj; try done; [|cbn [hash]; rewrite nthZ_insert by lia; fold h; by rewrite Z.eqb_refl]. split; cbn [strings maxcount hash freeslot].
  - lia.
  - by apply W.
  - by rewrite zlen_insert.
  - destruct (n <? maxcount st); [lia|by apply W].
  - rewrite Hent. replace (0 =? n) with false by lia. by apply W.
  - intros i Hi. rewrite Hent. destruct (Z.eqb_spec i n) as [->|Hne].
    + exists (t ++ 0 :: k). split; [by destruct p|by exists t, k].
    + apply Hlive in Hi as [|Hi]; [done|by apply W].
  - intros h' Hh'. destruct (wf_chain _ W h' Hh') as (ids & Hch & Hnd & Hb). assert (Hni : n ∉ ids) by (intros Hi%Hb; tauto).
    assert (Hch' : forall m, chain (strings st) m ids -> chain strs' m ids).
    { intros m. apply str_chain_ext; [lia|]. intros i Hi. rewrite Hent. by destruct (Z.eqb_spec i n) as [->|]. }
    rewrite nthZ_insert by lia. destruct (Z.eqb_spec h' h) as [->|Hneh].
    + exists (n :: ids). split; [|split].
      * cbn [chain]. conj; [done|lia|lia|]. rewrite Hent, Z.eqb_refl. apply Hch'. unfold e. by destruct p.
      * by constructor.
      * intros i. rewrite elem_of_cons, Hlive, Hent, Hb. destruct (Z.eqb_spec i n) as [->|Hne]; [|tauto].
        unfold e. rewrite etext_entry_for, text_app by done. tauto.
    + exists ids. split; [by apply Hch'|]. split; [done|]. intros i. rewrite Hlive, Hent, Hb. destruct (Z.eqb_spec i n) as [->|Hne]; [|tauto].
      unfold e. rewrite etext_entry_for, text_app by done. fold h. split; [tauto|intros [_ E]; congruence].
Qed.
(** an entry whose link and string are kept *)
Lemma wf_update st n e : wf st -> live (strings st) n -> hash_next e = hash_next (ent (strings st) n) -> str e = str (ent (strings st) n) -> used e = true ->
  wf (mkTab (maxcount st) (freeslot st) (codepage st) (hash st) (<[Z.to_nat n := e]> (strings st))).
Proof.
  intros W [Hn Hu] Hnext Hstr He. set (strs' := <[_ := e]> _). assert (Hent : forall i, ent strs' i = if i =? n then e else ent (strings st) i) by (intros i; apply nthZ_insert; lia).
  assert (Hlen : zlen strs' = zlen (strings st)) by apply zlen_insert.
  assert (Hlive : forall i, live strs' i <-> live (strings st) i).
  { intros i. unfold live. rewrite Hent, Hlen. destruct (Z.eqb_spec i n) as [->|Hne]; [|done]. rewrite He, Hu. done. }
  assert (Htext : forall i, etext (ent strs' i) = etext (ent (strings st) i)). { intros i. unfold etext. rewrite Hent. destruct (Z.eqb_spec i n) as [->|]; [by rewrite Hstr|done]. }
  split; cbn [strings maxcount hash freeslot]; [rewrite Hlen; apply W|by apply W|by apply W|by apply W|rewrite Hent; replace (0 =? n) with false by lia; by apply W| |].
  - intros i Hi%Hlive. rewrite Hent. destruct (Z.eqb_spec i n) as [->|]; [rewrite Hstr|]; by apply W.
  - intros h Hh. destruct (wf_chain _ W h Hh) as (ids & Hch & Hnd & Hb). exists ids. split; [|split; [done|intros i; by rewrite Htext, Hlive]].
    apply str_chain_ext with (strings st); [lia| |done]. intros i _. rewrite Hent. by destruct (Z.eqb_spec i n) as [->|].
Qed.
Definition bumped (e : msistring) (refcount : Z) (p : StringPersistence) : msistring :=
  match p with
  | StringPersistent => mkStr (hash_next e) (persistent_refcount e + refcount) (nonpersistent_refcount e) (str e)
  | StringNonPersistent => mkStr (hash_next e) (persistent_refcount e) (nonpersistent_refcount e + refcount) (str e)
  end.
(** the counts have room for [refcount] more *)
Definition counts_ok (e : msistring) (refcount : Z) : Prop :=
  0 <= persistent_refcount e /\ 0 <= nonpersistent_refcount e /\ 0 < refcount /\ persistent_refcount e + refcount < 2 ^ 32 /\ nonpersistent_refcount e + refcount < 2 ^ 32.
Lemma bump_ok st n refcount p : wf st -> live (strings st) n -> counts_ok (ent (strings st) n) refcount ->
  exists st', bump st n refcount p = Ret st' /\ wf st' /\ maxcount st' = maxcount st /\ codepage st' = codepage st /\ hash st' = hash st /\
    forall i, ent (strings st') i = if i =? n then bumped (ent (strings st) n) refcount p else ent (strings st) i.
Proof.
  intros W Hl (Hp & Hnp & Hr & Hp2 & Hnp2). pose proof Hl as [Hn Hu]. unfold bump. rewrite (rd_in zero_entry) by lia. cbn [obind]. set (e := ent (strings st) n) in *.
  assert (Ee : match p with StringPersistent => mkStr (hash_next e) (u32 (persistent_refcount e + refcount)) (nonpersistent_refcount e) (str e)
           | StringNonPersistent => mkStr (hash_next e) (persistent_refcount e) (u32 (nonpersistent_refcount e + refcount)) (str e) end = bumped e refcount p).
  { unfold wrapU. destruct p; cbn [bumped]; rewrite Z.mod_small by lia; done. }
  rewrite Ee, wr_in by lia. cbn [obind]. eexists. split; [done|]. conj; [|done|done|done|intros i; apply nthZ_insert; lia].
  apply wf_update; [done|done|by destruct p|by destruct p|]. unfold used, bumped. destruct p; cbn; destruct (Z.eqb_spec (persistent_refcount e) 0), (Z.eqb_spec (nonpersistent_refcount e) 0); cbn; try lia;
    destruct (Z.eqb_spec (persistent_refcount e + refcount) 0); cbn; try lia; destruct (Z.eqb_spec (nonpersistent_refcount e + refcount) 0); cbn; try lia; try done.
Qed.

(** ** The view of a table *)

(** the text and the counts of an id that is in use *)
Definition view (st : string_table) (id : Z) : option (list Z * Z * Z) :=
  let e := ent (strings st) id in
  if (0 <? id) && used e then Some (etext e, persistent_refcount e, nonpersistent_refcount e) else None.
Lemma view_live st id : wf st -> live (strings st) id <-> is_Some (view st id).
Proof.
  intros W. unfold view, live. split.
  - intros [Hr ->]. replace (0 <? id) with true by lia. by eexists.
  - intros [x H]. destruct (Z.ltb_spec 0 id) as [Hi|]; [|done]. cbn [andb] in H. destruct (used (ent (strings st) id)) eqn:E; [|done]. split; [|done]. split; [done|].
    destruct (decide (id < zlen (strings st))) as [|Hge]; [done|]. by rewrite (nthZ_out zero_entry) in E by lia.
Qed.
Lemma view_ext st st' id : ent (strings st') id = ent (strings st) id -> view st' id = view st id.
Proof. intros E. unfold view. by rewrite E. Qed.
Lemma lookup_view st id : wf st -> 0 < id -> exists s, msi_string_lookup_id st id = Ret s /\ option_map text s = option_map (fun x => fst (fst x)) (view st id).
Proof.
  intros W Hi. unfold msi_string_lookup_id. replace (id =? 0) with false by lia. pose proof (wf_count _ W) as Hc. destruct (Z.leb_spec (maxcount st) id) as [Hge|Hlt].
  - exists None. split; [done|]. unfold view. rewrite (nthZ_out zero_entry) by lia. by rewrite andb_false_r.
  - rewrite (rd_in zero_entry) by lia. cbn [obind]. eexists. split; [done|]. unfold view. replace (0 <? id) with true by lia. cbn [andb]. destruct (used (ent (strings st) id)) eqn:E; [|done].
    destruct (wf_text _ W id) as (s & Es & _); [split; [lia|done]|]. unfold etext. rewrite Es. done.
Qed.

(** ** Adding *)
Section Add.
Context (lstrcmpW : list Z -> list Z -> Z) (heap : Z -> Z -> option (list Z)) (heap_zero : Z -> bool).
(** a block has the size that was asked for *)
Definition heap_ok : Prop := forall w n s, heap w n = Some s -> zlen s = n /\ Forall (isU w) s.
Context (Hheap : heap_ok).
Definition more (x : list Z * Z * Z) (refcount : Z) (p : StringPersistence) : list Z * Z * Z :=
  match x, p with
  | (u, a, b), StringPersistent => (u, a + refcount, b)
  | (u, a, b), StringNonPersistent => (u, a, b + refcount)
  end.
(** no entry with the hash of [t] compares equal to it *)
Definition no_match (st : string_table) (t : list Z) : Prop :=
  forall j x, view st j = Some x -> hash_text (fst (fst x)) = hash_text t -> lstrcmpW t (fst (fst x)) <> 0.
(** what adding [t] to a table does: it counts an entry that compares equal, or
    gives [t] an id of its own when there is none; it does nothing only when there
    is none and no memory for an entry or for the copy of [t] *)
Inductive added (st st' : string_table) (t : list Z) (refcount : Z) (p : StringPersistence) (id : Z) : Prop :=
| added_none : id = -1 -> no_match st t -> (heap 16 (zlen t + 1) = None \/ no_entry heap_zero st) -> (forall j, view st' j = view st j) -> added st st' t refcount p id
| added_found x : view st id = Some x -> lstrcmpW t (fst (fst x)) = 0 -> view st' id = Some (more x refcount p) ->
    (forall j, j <> id -> view st' j = view st j) -> added st st' t refcount p id
| added_new : 0 < id -> view st id = None -> no_match st t ->
    view st' id = Some (more (t, 0, 0) refcount p) -> (forall j, j <> id -> view st' j = view st j) -> added st st' t refcount p id.

Lemma view_entry_for st n next t k refcount p : 0 < n -> cstring t -> refcount <> 0 -> ent (strings st) n = entry_for next refcount (t ++ 0 :: k) p -> view st n = Some (more (t, 0, 0) refcount p).
Proof using. intros Hn Ht Hr E. unfold view. rewrite E, used_entry_for, etext_entry_for, text_app by done. replace (0 <? n) with true by lia. by destruct p. Qed.
Lemma view_bumped st st' n refcount p : wf st -> live (strings st) n -> counts_ok (ent (strings st) n) refcount -> ent (strings st') n = bumped (ent (strings st) n) refcount p ->
  exists x, view st n = Some x /\ view st' n = Some (more x refcount p).
Proof using.
  intros W [Hn Hu] (H1 & H2 & H3 & _) E. unfold view. rewrite E. replace (0 <? n) with true by lia. rewrite Hu. cbn [andb]. eexists. split; [done|]. set (e := ent (strings st) n) in *.
  assert (used (bumped e refcount p) = true) as ->. { unfold used in *. destruct p; cbn; destruct (Z.eqb_spec (persistent_refcount e) 0), (Z.eqb_spec (nonpersistent_refcount e) 0); cbn; try done; try lia;
    repeat match goal with |- context [?a =? 0] => destruct (Z.eqb_spec a 0); cbn; try lia; try done end. }
  by destruct p.
Qed.
Lemma put_bytes_0 (s chars : list Z) : zlen chars <= zlen s -> put_bytes s 0 chars = Ret (chars ++ drop (length chars) s).
Proof using. intros Hl. unfold put_bytes. replace ((0 <=? 0) && (0 + zlen chars <=? zlen s)) with true by lia. done. Qed.
(** the copy of a string *)
Lemma copy_ok s t k : zlen s = zlen t + 1 -> (let! chars := read_bytes (t ++ 0 :: k) (zlen t) in let! s := put_bytes s 0 chars in wr s (zlen t) 0) = Ret (t ++ [0]).
Proof using.
  intros Hs. unfold read_bytes. pose proof (zlen_nonneg t). rewrite zlen_app, zlen_cons. pose proof (zlen_nonneg k). replace ((0 <=? zlen t) && (zlen t <=? zlen t + (zlen k + 1))) with true by lia. cbn [obind].
  rewrite zlen_nat, take_app_length, put_bytes_0 by lia. cbn [obind]. destruct (drop (length t) s) as [|x r] eqn:E; pose proof (f_equal length E) as El; rewrite length_drop in El; unfold zlen in Hs; simpl in El; [lia|].
  rewrite wr_app by done. destruct r; [done|simpl in El; lia].
Qed.
Lemma fill_slot st n t k refcount p : wf st -> 0 < n < maxcount st -> used (ent (strings st) n) = false -> cstring t -> refcount <> 0 -> forall s, zlen s = zlen t + 1 ->
  exists st' next, (let! chars := read_bytes (t ++ 0 :: k) (zlen t) in let! s := put_bytes s 0 chars in let! s := wr s (zlen t) 0 in let! st := set_st_entry st n s refcount p in Ret (n, st)) = Ret (n, st') /\
    wf st' /\ codepage st' = codepage st /\ nthZ 0 (hash st') (hash_text t) = n /\ forall i, ent (strings st') i = if i =? n then entry_for next refcount (t ++ [0]) p else ent (strings st) i.
Proof using.
  intros W Hn Hu Ht Hr s Hs. destruct (set_st_entry_ok st n t [] refcount p W Hn Hu Ht Hr) as (st' & next & E & W' & _ & Hcp & Hhn & He). exists st', next. conj; try done.
  pose proof (copy_ok s t k Hs) as Ec. destruct (read_bytes (t ++ 0 :: k) (zlen t)) as [chars| |]; cbn [obind] in *; try done. destruct (put_bytes s 0 chars) as [s1| |]; cbn [obind] in *; try done. rewrite Ec. cbn [obind]. by rewrite E.
Qed.
Lemma rd_string t k : t <> [] -> cstring t -> exists c, rd (t ++ 0 :: k) 0 = Ret c /\ (c =? 0) = false.
Proof using. intros Hn Ht. destruct t as [|c t]; [done|]. apply Forall_cons_1 in Ht as [Hc _]. exists c. split; [done|lia]. Qed.
(** a search sees the links and the strings only *)
Lemma find_ext strs strs' s : zlen strs' = zlen strs -> (forall i, hash_next (ent strs' i) = hash_next (ent strs i) /\ str (ent strs' i) = str (ent strs i)) ->
  forall fuel n, find_chain lstrcmpW fuel strs' s n = find_chain lstrcmpW fuel strs s n.
Proof using.
  intros Hl He. induction fuel as [|fuel IH]; intros n; [done|]. cbn [find_chain]. destruct (n =? -1); [done|]. destruct (decide (0 <= n < zlen strs)) as [Hn|Hn]; [|by rewrite !rd_out by lia].
  rewrite !(rd_in zero_entry) by lia. cbn [obind]. destruct (He n) as [-> ->]. destruct (str (ent strs n)); [|done]. by rewrite IH.
Qed.
Lemma find_head st n t k : wf st -> cstring t -> 0 < n < maxcount st -> nthZ 0 (hash st) (hash_text t) = n -> etext (ent (strings st) n) = t -> is_Some (str (ent (strings st) n)) -> lstrcmpW t t = 0 ->
  msi_string2idW lstrcmpW st (t ++ 0 :: k) = Ret (ERROR_SUCCESS, n).
Proof using.
  intros W Ht Hn Hh He [s Hs] Hc. unfold msi_string2idW. destruct (hash_text_ok t k Ht) as [-> Hr]. cbn [obind]. rewrite (rd_in 0) by (by rewrite (wf_hash _ W)). cbn [obind find_chain]. rewrite Hh.
  replace (n =? -1) with false by lia. rewrite (rd_in zero_entry) by (rewrite (wf_count _ W); lia). cbn [obind]. unfold etext in He. rewrite Hs in *. rewrite text_app, He, Hc by done. done.
Qed.
(** a text that no entry has gets a free one *)
Lemma addstringW_ok st t k refcount p : wf st -> cstring t -> t <> [] -> 0 < refcount < 2 ^ 32 -> (forall i, live (strings st) i -> counts_ok (ent (strings st) i) refcount) ->
  exists id st', msi_addstringW lstrcmpW heap heap_zero st 0 (Some (t ++ 0 :: k)) (-1) refcount p = Ret (id, st') /\ wf st' /\ codepage st' = codepage st /\
    added st st' t refcount p id /\ (lstrcmpW t t = 0 -> id <> -1 -> msi_string2idW lstrcmpW st' (t ++ 0 :: k) = Ret (ERROR_SUCCESS, id)).
Proof using Hheap.
  intros W Ht Hne Hr Hcounts. unfold msi_addstringW. destruct (rd_string t k Hne Ht) as (c & E0 & E1). rewrite E0. cbn [obind]. rewrite E1. unfold find_slot. change (0 <? 0) with false. cbv iota.
  destruct (string2idW_ok lstrcmpW st t k W Ht) as [(i & (Hl & Hh & He) & Ef)|[Hno Ef]]; rewrite Ef; cbn [obind].
  - change (ERROR_SUCCESS =? ERROR_SUCCESS) with true. cbv iota. cbn [obind]. destruct (bump_ok st i refcount p W Hl (Hcounts i Hl)) as (st' & E & W' & Hmc & Hcp & Hhash & Hent). rewrite E. cbn [obind]. exists i, st'. conj; [done|done|done| |].
    2: { intros _ _. rewrite <- Ef. unfold msi_string2idW. destruct (msistring_makehash (t ++ 0 :: k)) as [h| |]; cbn [obind]; try done. rewrite Hhash. destruct (rd (hash st) h) as [n| |]; cbn [obind]; try done.
      assert (Hlen : zlen (strings st') = zlen (strings st)) by (rewrite (wf_count _ W'), (wf_count _ W); done). rewrite (find_ext (strings st)); [unfold zlen in Hlen; do 2 f_equal; lia|done|].
      intros j. rewrite Hent. destruct (Z.eqb_spec j i) as [->|]; [by destruct p|done]. }
    destruct (view_bumped st st' i refcount p W Hl (Hcounts i Hl)) as (x & Ex & Ex'); [by rewrite Hent, Z.eqb_refl|]. eapply added_found; [exact Ex| |exact Ex'|].
    + unfold view in Ex. destruct Hl as [Hi Hui]. rewrite Hui in Ex. replace (0 <? i) with true in Ex by lia. cbn [andb] in Ex. injection Ex as <-. exact He.
    + intros j Hj. apply view_ext. rewrite Hent. by replace (j =? i) with false by lia.
  - assert (Hnm : no_match st t).
    { intros j x Hj Hhj Hcj. apply (Hno j). assert (Hlj : live (strings st) j) by (apply view_live; [done|by eexists]). unfold view in Hj. destruct Hlj as [Hrj Huj]. rewrite Huj in Hj. replace (0 <? j) with true in Hj by lia.
      cbn [andb] in Hj. injection Hj as <-. by split. }
    change (ERROR_INVALID_PARAMETER =? ERROR_SUCCESS) with false. cbv iota. destruct (find_free_ok heap_zero st W) as (n & st1 & -> & [(-> & -> & Hfull)|(W1 & Hn & Hu & Hcp & Hent)]); cbn [obind].
    + change (-1 <? 1) with true. cbv iota. exists (-1), st. conj; [done|done|done|apply added_none; [done|done|by right|done]|done].
    + replace (n <? 1) with false by lia. rewrite strlen_app by done. change (-1 <? 0) with true. cbv iota. cbn [obind]. destruct (heap 16 (zlen t + 1)) as [s|] eqn:Eh.
      * destruct (fill_slot st1 n t k refcount p W1 Hn Hu Ht ltac:(lia) s (proj1 (Hheap _ _ _ Eh))) as (st' & next & E & W' & Hcp' & Hhead & Hent'). rewrite E. exists n, st'. conj; [done|done|congruence| |].
        2: { intros Hrefl _. apply find_head; try done; [|rewrite Hent', Z.eqb_refl, etext_entry_for; by apply text_app|rewrite Hent', Z.eqb_refl; destruct p; by eexists].
          assert (Hln : is_Some (view st' n)) by (eexists; apply (view_entry_for st' n next t [] refcount p); [lia|done|lia|by rewrite Hent', Z.eqb_refl]). apply view_live in Hln; [|done]. destruct Hln as [Hln _]. by rewrite (wf_count _ W') in Hln. }
        apply added_new; [lia| | | |].
        -- unfold view. rewrite <- Hent, Hu. by rewrite andb_false_r.
        -- done.
        -- eapply view_entry_for; [lia|done|lia|]. by rewrite Hent', Z.eqb_refl.
        -- intros j Hj. apply view_ext. rewrite Hent'. replace (j =? n) with false by lia. apply Hent.
      * exists (-1), st1. conj; [done|done|done| |done]. apply added_none; [done|done|by left|]. intros j. by apply view_ext.
Qed.

(** *** Any number of calls *)
Definition bounded (st : string_table) (m : Z) : Prop := forall i a b u, view st i = Some (u, a, b) -> 0 <= a <= m /\ 0 <= b <= m.
Lemma bounded_counts st m refcount : wf st -> bounded st m -> 0 < refcount -> m + refcount < 2 ^ 32 -> forall i, live (strings st) i -> counts_ok (ent (strings st) i) refcount.
Proof using.
  intros W Hb Hr Hm i Hl. pose proof Hl as [Hi Hu]. specialize (Hb i (persistent_refcount (ent (strings st) i)) (nonpersistent_refcount (ent (strings st) i)) (etext (ent (strings st) i))).
  unfold view in Hb. rewrite Hu in Hb. replace (0 <? i) with true in Hb by lia. specialize (Hb eq_refl). unfold counts_ok. lia.
Qed.
Lemma bounded_added st st' t refcount p id m : added st st' t refcount p id -> bounded st m -> 0 < refcount -> 0 <= m -> bounded st' (m + refcount).
Proof using.
  intros Ha Hb Hr Hm i a b u Hv. destruct Ha as [_ _ _ Hs|[[u0 a0] b0] Hx _ Hx' Hs|Hi _ _ Hx' Hs].
  - rewrite Hs in Hv. apply Hb in Hv. lia.
  - destruct (decide (i = id)) as [->|Hne]; [|rewrite Hs in Hv by done; apply Hb in Hv; lia]. rewrite Hx' in Hv. apply Hb in Hx. destruct p; injection Hv as <- <- <-; lia.
  - destruct (decide (i = id)) as [->|Hne]; [|rewrite Hs in Hv by done; apply Hb in Hv; lia]. rewrite Hx' in Hv. destruct p; injection Hv as <- <- <-; lia.
Qed.
(** the calls, with the ids that they return *)
Fixpoint add_all (st : string_table) (ops : list (list Z * Z * StringPersistence)) : outcome (list Z * string_table) :=
  match ops with
  | [] => Ret ([], st)
  | (t, refcount, p) :: ops =>
    let! (id, st) := msi_addstringW lstrcmpW heap heap_zero st 0 (Some (t ++ [0])) (-1) refcount p in
    let! (ids, st) := add_all st ops in
    Ret (id :: ids, st)
  end.
Definition op_ok (op : list Z * Z * StringPersistence) : Prop := cstring (fst (fst op)) /\ fst (fst op) <> [] /\ 0 < snd (fst op).
Definition total (ops : list (list Z * Z * StringPersistence)) : Z := foldr (fun op n => snd (fst op) + n) 0 ops.
Lemma total_nonneg ops : Forall op_ok ops -> 0 <= total ops.
Proof using. induction 1 as [|op ops (_ & _ & H) _ IH]; simpl; [done|]. fold (total ops). lia. Qed.
Lemma added_keeps st st' t refcount p id j x : added st st' t refcount p id -> view st j = Some x -> exists y, view st' j = Some y /\ fst (fst y) = fst (fst x).
Proof using.
  intros [_ _ _ Hs|x0 Hx _ Hx' Hs|Hi Hv _ Hx' Hs] Hj.
  - rewrite Hs. by exists x.
  - destruct (decide (j = id)) as [->|Hne]; [|rewrite Hs by done; by exists x]. rewrite Hx in Hj. injection Hj as ->. eexists. split; [exact Hx'|]. destruct x as [[u a] b]. by destruct p.
  - rewrite Hs; [by exists x|]. intros ->. congruence.
Qed.
Lemma add_all_ok ops : forall st m, wf st -> bounded st m -> 0 <= m -> Forall op_ok ops -> m + total ops < 2 ^ 32 ->
  exists ids st', add_all st ops = Ret (ids, st') /\ wf st' /\ length ids = length ops /\
    (forall j x, view st j = Some x -> exists y, view st' j = Some y /\ fst (fst y) = fst (fst x)) /\
    Forall2 (fun id op => id = -1 \/ exists y, view st' id = Some y /\ (fst (fst y) = fst (fst op) \/ lstrcmpW (fst (fst op)) (fst (fst y)) = 0)) ids ops.
Proof using Hheap.
  induction ops as [|[[t refcount] p] ops IH]; intros st m W Hb Hm Hops Hsum.
  - exists [], st. conj; [done|done|done| |constructor]. intros j x Hj. by exists x.
  - apply Forall_cons_1 in Hops as [(Ht & Hne & Hr) Hops]. cbn [fst snd] in *. cbn [add_all]. pose proof (total_nonneg ops Hops). unfold total in Hsum. cbn [foldr fst snd] in Hsum. fold (total ops) in Hsum.
    destruct (addstringW_ok st t [] refcount p W Ht Hne ltac:(lia) (bounded_counts st m refcount W Hb Hr ltac:(lia))) as (id & st1 & -> & W1 & _ & Ha & _). cbn [obind].
    destruct (IH st1 (m + refcount) W1 (bounded_added _ _ _ _ _ _ _ Ha Hb Hr Hm) ltac:(lia) Hops ltac:(lia)) as (ids & st' & -> & W' & Hlen & Hkeep & Hall). cbn [obind].
    exists (id :: ids), st'. conj; [done|done|simpl; by rewrite Hlen| |].
    + intros j x Hj. destruct (added_keeps _ _ _ _ _ _ _ _ Ha Hj) as (y & Hy & Ey). destruct (Hkeep j y Hy) as (z & Hz & Ez). exists z. split; [done|congruence].
    + constructor; [|done]. cbn [fst snd]. destruct Ha as [->|x Hx Hcx Hx' _|Hi _ _ Hx' _]; [by left| |]; right; destruct (Hkeep _ _ Hx') as (y & Hy & Ey); exists y; (split; [done|]); rewrite Ey.
      * right. destruct x as [[u a] b]. by destruct p.
      * left. by destruct p.
Qed.
End Add.
End MsiStringSpec.
