(* ===== verification/MsiStreamSpec.v ===== *)
(** * Streams of an installer database

    The packed names of streams are read back, and a stream that was written is
    read as it was, in every storage that keeps the laws. *)
From stdpp Require Import sets.
From S2P Require Import Prelude CodePage MsiString MsiStringSpec.
Import MsiString MsiStringSpec.

Module MsiStreamSpec.

(** ** Names *)
Definition mime (c : Z) : bool := (c <? 0x80) && (0 <=? utf2mime c).
Lemma mime2utf_utf2mime c : 0 <= utf2mime c -> mime2utf (utf2mime c) = c /\ utf2mime c < 64.
Proof.
  unfold utf2mime, mime2utf. intros H. repeat match goal with |- context [if ?b then _ else _] => let E := fresh "E" in destruct b eqn:E end; lia.
Qed.
Lemma utf2mime_neg c : (utf2mime c =? -1) = negb (0 <=? utf2mime c).
Proof. unfold utf2mime. repeat match goal with |- context [if ?b then _ else _] => let E := fresh "E" in destruct b eqn:E end; lia. Qed.
(** the packed name *)
Definition single (c : Z) : Z := if mime c then utf2mime c + 0x4800 else c.
Fixpoint packed (nm : list Z) : list Z :=
  match nm with
  | [] => []
  | c :: nm' =>
    match nm' with
    | [] => [single c]
    | d :: nm'' => if mime c && mime d then 0x3800 + utf2mime c + 64 * utf2mime d :: packed nm'' else single c :: packed nm'
    end
  end.
Lemma packed_two c d r : packed (c :: d :: r) = if mime c && mime d then 0x3800 + utf2mime c + 64 * utf2mime d :: packed r else single c :: packed (d :: r).
Proof. done. Qed.
(** induction over a name one or two characters at a time *)
Lemma name_ind (P : list Z -> Prop) : P [] -> (forall c, P [c]) -> (forall c d r, P r -> P (d :: r) -> P (c :: d :: r)) -> forall l, P l.
Proof.
  intros H0 H1 H2 l. assert (P l /\ forall c, P (c :: l)) as [H _]; [|done]. induction l as [|d l [IH1 IH2]]; [done|]. split; [done|]. intros c. by apply H2.
Qed.
Lemma pack_char_ok c k : c <> 0 -> pack_char (c :: k) =
  if mime c then match k with [] => Fault | d :: _ => if negb (d =? 0) && mime d then Ret (0x3800 + utf2mime c + 64 * utf2mime d, true) else Ret (single c, false) end
  else Ret (single c, false).
Proof.
  intros Hc. unfold pack_char. rewrite rd0. cbn [obind]. fold (mime c). unfold single. destruct (mime c) eqn:Em; [|done]. destruct k as [|d k]; [done|]. rewrite rd1. cbn [obind].
  unfold mime at 1. rewrite utf2mime_neg, negb_involutive, andb_assoc. destruct (negb (d =? 0) && (d <? 0x80) && (0 <=? utf2mime d)) eqn:Ed; [|done].
  do 2 f_equal. apply andb_prop in Em as [_ Em]. apply andb_prop in Ed as [_ Ed]. apply Z.leb_le in Em, Ed. pose proof (proj2 (mime2utf_utf2mime c Em)). pose proof (proj2 (mime2utf_utf2mime d Ed)).
  unfold wrapU. rewrite Z.shiftl_mul_pow2 by lia. change (2 ^ 6) with 64. change (2 ^ 32) with 4294967296. change (2 ^ 16) with 65536.
  set (x := utf2mime c) in *. set (y := utf2mime d) in *.
  replace ((y + 67108800) * 64) with (y * 64 - 4096 + 1 * 4294967296) by lia. rewrite Z.mod_add by lia. destruct (Z.lt_ge_cases (y * 64) 4096) as [Hy|Hy]; [|lia].
  rewrite <- (Z.mod_unique (y * 64 - 4096) 4294967296 (-1) (y * 64 - 4096 + 4294967296)) by lia.
  rewrite <- (Z.mod_unique (x + 18432 + (y * 64 - 4096 + 4294967296)) 65536 65536 (14336 + x + 64 * y)); lia.
Qed.
Lemma encode_loop_ok nm : forall k n op om, cstring nm -> (length (packed nm) < n)%nat -> zlen (packed nm) < zlen om ->
  encode_loop n (nm ++ 0 :: k) (op ++ om) (zlen op) = Ret (Some ((op ++ packed nm) ++ 0 :: drop (S (length (packed nm))) om)).
Proof.
  induction nm as [|c|c d r IH1 IH2] using name_ind; intros k n op om Hc Hn Ho.
  - destruct n as [|n]; [simpl in Hn; lia|]. cbn [encode_loop app]. rewrite rd0. cbn [obind]. change (0 =? 0) with true. cbv iota. destruct om as [|x om]; [by unfold zlen in Ho|]. rewrite wr_app by done. cbn. by rewrite app_nil_r.
  - destruct n as [|[|n]]; [simpl in Hn; lia|simpl in Hn; lia|]. apply Forall_cons_1 in Hc as [Hc _]. cbn [encode_loop app]. rewrite rd0. cbn [obind]. replace (c =? 0) with false by lia.
    rewrite pack_char_ok by done. change (negb (0 =? 0)) with false. cbn [andb]. assert (Ep : (if mime c then Ret (single c, false) else Ret (single c, false)) = Ret (single c, false)) by (by destruct (mime c)). rewrite Ep. cbn [obind].
    destruct om as [|x [|y om]]; [unfold zlen in Ho; simpl in Ho; lia|unfold zlen in Ho; simpl in Ho; lia|]. rewrite wr_app by done. cbn [obind drop]. rewrite rd0. cbn [obind]. change (0 =? 0) with true. cbv iota.
    rewrite wr_1 by done. cbn [obind packed length drop]. rewrite <- app_assoc. done.
  - destruct n as [|n]; [simpl in Hn; lia|]. pose proof Hc as Hc2. apply Forall_cons_1 in Hc as [Hc Hr]. pose proof (Forall_cons_1 _ _ _ Hr) as [Hd Hr2]. cbn [encode_loop app]. rewrite rd0. cbn [obind]. replace (c =? 0) with false by lia.
    rewrite pack_char_ok by done. replace (negb (d =? 0)) with true by lia. rewrite packed_two in Hn, Ho |- *. cbn [andb] in Hn, Ho |- *. destruct om as [|x om]; [unfold zlen in Ho; simpl in Ho; lia|].
    destruct (mime c) eqn:Em; [destruct (mime d) eqn:Ed|]; cbn [andb obind] in Hn, Ho |- *; rewrite wr_app by done; cbn [obind drop]; cbv iota.
    + rewrite !zlen_cons in Ho. cbn [length] in Hn. change (op ++ 0x3800 + utf2mime c + 64 * utf2mime d :: om) with (op ++ [0x3800 + utf2mime c + 64 * utf2mime d] ++ om). rewrite (app_assoc op), <- (zlen_snoc op (0x3800 + utf2mime c + 64 * utf2mime d)).
      rewrite drop_0, IH1 by (done || lia). cbn [length drop]. by rewrite <- !app_assoc.
    + rewrite !zlen_cons in Ho. cbn [length] in Hn. change (op ++ single c :: om) with (op ++ [single c] ++ om). rewrite (app_assoc op), <- (zlen_snoc op (single c)).
      change (d :: r ++ 0 :: k) with ((d :: r) ++ 0 :: k). rewrite ?drop_0, IH2; [|done|lia|lia]. cbn [length drop]. by rewrite <- !app_assoc.
    + rewrite !zlen_cons in Ho. cbn [length] in Hn. change (op ++ single c :: om) with (op ++ [single c] ++ om). rewrite (app_assoc op), <- (zlen_snoc op (single c)).
      change (d :: r ++ 0 :: k) with ((d :: r) ++ 0 :: k). rewrite ?drop_0, IH2; [|done|lia|lia]. cbn [length drop]. by rewrite <- !app_assoc.
Qed.

(** a name whose packed form does not fit is refused after [n] stores *)
Lemma encode_loop_none nm : forall k n op om, cstring nm -> (n <= length (packed nm))%nat -> Z.of_nat n <= zlen om ->
  encode_loop n (nm ++ 0 :: k) (op ++ om) (zlen op) = Ret None.
Proof.
  induction nm as [|c|c d r IH1 IH2] using name_ind; intros k n op om Hc Hn Ho.
  - by destruct n as [|n]; [|simpl in Hn; lia].
  - destruct n as [|n]; [done|]. destruct n as [|n]; [|simpl in Hn; lia]. apply Forall_cons_1 in Hc as [Hc _]. cbn [encode_loop app]. rewrite rd0. cbn [obind]. replace (c =? 0) with false by lia.
    rewrite pack_char_ok by done. change (negb (0 =? 0)) with false. cbn [andb]. assert (Ep : (if mime c then Ret (single c, false) else Ret (single c, false)) = Ret (single c, false)) by (by destruct (mime c)). rewrite Ep. cbn [obind].
    destruct om as [|x om]; [unfold zlen in Ho; simpl in Ho; lia|]. by rewrite wr_app by done.
  - destruct n as [|n]; [done|]. apply Forall_cons_1 in Hc as [Hc Hr]. pose proof (Forall_cons_1 _ _ _ Hr) as [Hd Hr2]. cbn [encode_loop app]. rewrite rd0. cbn [obind]. replace (c =? 0) with false by lia.
    rewrite pack_char_ok by done. replace (negb (d =? 0)) with true by lia. rewrite packed_two in Hn. cbn [andb] in Hn |- *. destruct om as [|x om]; [unfold zlen in Ho; simpl in Ho; lia|]. rewrite zlen_cons in Ho.
    assert (Hstep : forall v nm', (n <= length (packed nm'))%nat -> (forall op om, cstring nm' -> (n <= length (packed nm'))%nat -> Z.of_nat n <= zlen om -> encode_loop n (nm' ++ 0 :: k) (op ++ om) (zlen op) = Ret None) -> cstring nm' ->
      encode_loop n (nm' ++ 0 :: k) (op ++ v :: om) (zlen op + 1) = Ret None).
    { intros v nm' Hl IH Hcs. change (op ++ v :: om) with (op ++ [v] ++ om). rewrite (app_assoc op), <- (zlen_snoc op v). apply IH; [done|done|lia]. }
    destruct (mime c) eqn:Em; [destruct (mime d) eqn:Ed|]; cbn [andb obind] in Hn |- *; rewrite wr_app by done; cbn [obind drop]; cbv iota; cbn [length] in Hn; rewrite ?drop_0.
    + apply Hstep; [lia|intros; by apply IH1|done].
    + apply (Hstep _ (d :: r)); [lia|intros; by apply IH2|done].
    + apply (Hstep _ (d :: r)); [lia|intros; by apply IH2|done].
Qed.

(** characters that are not those of packed names *)
Definition plain_char (c : Z) : Prop := c <> 0 /\ ~ (0x3800 <= c < 0x4840).
Lemma mime_range c : mime c = true -> 0 <= utf2mime c < 64 /\ mime2utf (utf2mime c) = c.
Proof. intros [_ H]%andb_prop. apply Z.leb_le in H. destruct (mime2utf_utf2mime c H). split; [lia|done]. Qed.
Lemma land_63 v : 0 <= v -> Z.land v 0x3f = v mod 64.
Proof. intros _. change 0x3f with (2 ^ 6 - 1). by rewrite land_pow2_mask by lia. Qed.
Lemma decode_single c k op om : plain_char c -> 0 < zlen om -> decode_loop (single c :: k) (op ++ om) (zlen op) = decode_loop k ((op ++ [c]) ++ drop 1 om) (zlen (op ++ [c])).
Proof.
  intros [Hc Hp] Ho. cbn [decode_loop]. unfold single. rewrite zlen_snoc. assert (Hom : om <> []) by (intros ->; unfold zlen in Ho; simpl in Ho; lia). destruct (mime c) eqn:Em.
  - destruct (mime_range c Em) as [Hr He]. replace (utf2mime c + 18432 =? 0) with false by lia. replace ((14336 <=? utf2mime c + 18432) && (utf2mime c + 18432 <? 18496)) with true by lia.
    replace (18432 <=? utf2mime c + 18432) with true by lia. replace (utf2mime c + 18432 - 18432) with (utf2mime c) by lia. rewrite He, wr_next by done. done.
  - replace (c =? 0) with false by lia. replace ((14336 <=? c) && (c <? 18496)) with false by lia. by rewrite wr_next by done.
Qed.
Lemma decode_pair c d k op om : mime c = true -> mime d = true -> 1 < zlen om ->
  decode_loop (0x3800 + utf2mime c + 64 * utf2mime d :: k) (op ++ om) (zlen op) = decode_loop k ((op ++ [c; d]) ++ drop 2 om) (zlen (op ++ [c; d])).
Proof.
  intros Hc Hd Ho. destruct (mime_range c Hc) as [Rc Ec]. destruct (mime_range d Hd) as [Rd Ed]. cbn [decode_loop]. set (v := 14336 + utf2mime c + 64 * utf2mime d). replace (v =? 0) with false by lia.
  replace ((14336 <=? v) && (v <? 18496)) with true by lia. replace (18432 <=? v) with false by lia. rewrite Z.shiftr_div_pow2, !land_63 by (try apply Z.div_pos; lia). change (2 ^ 6) with 64.
  replace (v - 14336) with (utf2mime c + utf2mime d * 64) by lia. rewrite Z.mod_add, Z.div_add, (Z.mod_small (utf2mime c)), (Z.div_small (utf2mime c)), Z.add_0_l, (Z.mod_small (utf2mime d)), Ec, Ed by lia.
  destruct om as [|x [|y om]]; [unfold zlen in Ho; simpl in Ho; lia|unfold zlen in Ho; simpl in Ho; lia|]. rewrite wr_app by done. cbn [obind]. rewrite wr_1 by done. cbn [obind drop]. rewrite zlen_app, <- !app_assoc. done.
Qed.
Lemma decode_loop_ok nm : forall k op om, Forall plain_char nm -> zlen nm < zlen om ->
  decode_loop (packed nm ++ 0 :: k) (op ++ om) (zlen op) = Ret (zlen op + zlen nm, (op ++ nm) ++ 0 :: drop (S (length nm)) om).
Proof.
  induction nm as [|c|c d r IH1 IH2] using name_ind; intros k op om Hc Ho.
  - cbn [packed app decode_loop]. change (0 =? 0) with true. cbv iota. destruct om as [|x om]; [by unfold zlen in Ho|]. rewrite wr_app by done. cbn [obind length drop]. change (zlen (@nil Z)) with 0. by rewrite Z.add_0_r, app_nil_r.
  - apply Forall_cons_1 in Hc as [Hc _]. change (zlen [c]) with 1 in *. cbn [packed app]. rewrite decode_single by (done || lia). cbn [decode_loop]. change (0 =? 0) with true. cbv iota.
    destruct om as [|x [|y om]]; [unfold zlen in Ho; simpl in Ho; lia|unfold zlen in Ho; simpl in Ho; lia|]. cbn [drop length]. rewrite wr_app by done. cbn [obind]. by rewrite zlen_snoc.
  - pose proof Hc as Hcd. apply Forall_cons_1 in Hc as [Hc Hdr]. pose proof (Forall_cons_1 _ _ _ Hdr) as [Hd Hr]. rewrite packed_two. destruct (mime c && mime d) eqn:E.
    + apply andb_prop in E as [E1 E2]. rewrite !zlen_cons in Ho. pose proof (zlen_nonneg r). cbn [app]. rewrite decode_pair by (done || lia). rewrite IH1; [|done|unfold zlen in *; rewrite length_drop; lia].
      rewrite drop_drop, zlen_app, !zlen_cons, <- !app_assoc. cbn [length app]. change (zlen (@nil Z)) with 0. by replace (zlen op + (0 + 1 + 1) + zlen r) with (zlen op + (zlen r + 1 + 1)) by lia.
    + rewrite zlen_cons in Ho. pose proof (zlen_nonneg (d :: r)). cbn [app]. rewrite decode_single by (done || lia). rewrite IH2; [|done|unfold zlen in *; rewrite length_drop; lia].
      rewrite drop_drop, zlen_snoc, (zlen_cons c), <- !app_assoc. cbn [length app]. by replace (zlen op + 1 + zlen (d :: r)) with (zlen op + (zlen (d :: r) + 1)) by lia.
Qed.

(** ** Storages *)

(** [contents]: the bytes of a stream that exists; [position]: where the next
    write to an open stream begins *)
Class StorageLaws (S : Type) `{IStorage S} := {
  contents : S -> list Z -> option (list Z);
  position : S -> list Z -> Z;
  law_open s n : OpenStream s n = bool_decide (is_Some (contents s n));
  law_create s n s' : CreateStream s n = Some s' -> is_Some (contents s' n) /\ forall m, m <> n -> contents s' m = contents s m;
  law_size s n l : contents s n = Some l -> StreamSize s n = Some (zlen l);
  law_read s n l k : contents s n = Some l -> StreamRead s n k = Some (take (Z.to_nat k) l);
  law_setsize s n k s' : is_Some (contents s n) -> 0 <= k -> StreamSetSize s n k = Some s' ->
    (exists l, contents s' n = Some l /\ zlen l = k) /\ forall m, m <> n -> contents s' m = contents s m;
  law_seek s n k s' : is_Some (contents s n) -> 0 <= k -> StreamSeek s n k = Some s' ->
    position s' n = k /\ forall m, contents s' m = contents s m;
  law_write s n l data s' : contents s n = Some l -> 0 <= position s n -> position s n + zlen data <= zlen l ->
    StreamWrite s n data = Some (s', zlen data) ->
    contents s' n = Some (take (Z.to_nat (position s n)) l ++ data ++ drop (Z.to_nat (position s n) + length data) l) /\
    forall m, m <> n -> contents s' m = contents s m }.

Section Streams.
Context (heap : Z -> Z -> option (list Z)) (Hheap : heap_ok heap) {S : Type} `{StorageLaws S}.
(** the name that a table's stream has in the storage *)
Definition table_name (nm : list Z) : list Z := 0x4840 :: packed nm.
Lemma packed_nonzero nm : cstring nm -> cstring (packed nm).
Proof using.
  assert (Hs : forall c, c <> 0 -> single c <> 0). { intros c Hc. unfold single. destruct (mime c) eqn:E; [|done]. apply mime_range in E. lia. }
  induction nm as [|c|c d r IH1 IH2] using name_ind; intros Hc; [constructor| |].
  - apply Forall_cons_1 in Hc as [Hc _]. constructor; [by apply Hs|constructor].
  - apply Forall_cons_1 in Hc as [Hc Hdr]. pose proof (Forall_cons_1 _ _ _ Hdr) as [_ Hr]. rewrite packed_two. destruct (mime c && mime d) eqn:E.
    + apply andb_prop in E as [E1%mime_range E2%mime_range]. constructor; [lia|by apply IH1].
    + constructor; [by apply Hs|by apply IH2].
Qed.
Lemma encode_table nm k : cstring nm -> (length (packed nm) < 30)%nat -> is_Some (heap 16 MAX_STREAM_NAME) ->
  exists r, encode_streamname heap true (nm ++ 0 :: k) = Ret (Some r) /\ text r = table_name nm.
Proof using Hheap.
  intros Hc Hl [out Eo]. unfold encode_streamname. cbn [obind]. rewrite Eo. pose proof (proj1 (Hheap _ _ _ Eo)) as Hz. unfold MAX_STREAM_NAME in Hz. destruct out as [|x om]; [unfold zlen in Hz; simpl in Hz; lia|].
  rewrite zlen_cons in Hz. change (wr (x :: om) 0 18496) with (Ret (18496 :: om)). cbn [obind]. change (Z.to_nat (MAX_STREAM_NAME - 1)) with 30%nat.
  pose proof (encode_loop_ok nm k 30 [0x4840] om Hc Hl ltac:(unfold zlen in *; lia)) as E. cbn [app] in E. change (zlen [18496]) with 1 in E. rewrite E. eexists. split; [done|].
  change (18496 :: packed nm ++ 0 :: drop (Datatypes.S (length (packed nm))) om) with ((18496 :: packed nm) ++ 0 :: drop (Datatypes.S (length (packed nm))) om).
  apply text_app. constructor; [done|by apply packed_nonzero].
Qed.
Lemma encode_table_none nm k : cstring nm -> (30 <= length (packed nm))%nat -> is_Some (heap 16 MAX_STREAM_NAME) ->
  encode_streamname heap true (nm ++ 0 :: k) = Ret None.
Proof using Hheap.
  intros Hc Hl [out Eo]. unfold encode_streamname. cbn [obind]. rewrite Eo. pose proof (proj1 (Hheap _ _ _ Eo)) as Hz. unfold MAX_STREAM_NAME in Hz. destruct out as [|x om]; [unfold zlen in Hz; simpl in Hz; lia|].
  rewrite zlen_cons in Hz. change (wr (x :: om) 0 18496) with (Ret (18496 :: om)). cbn [obind]. change (Z.to_nat (MAX_STREAM_NAME - 1)) with 30%nat.
  pose proof (encode_loop_none nm k 30 [0x4840] om Hc Hl ltac:(lia)) as E. cbn [app] in E. by change (zlen [18496]) with 1 in E.
Qed.
Lemma read_ok s nm k data : cstring nm -> (length (packed nm) < 30)%nat -> is_Some (heap 16 MAX_STREAM_NAME) -> is_Some (heap 8 (zlen data)) -> zlen data < 2 ^ 32 ->
  contents s (table_name nm) = Some data -> read_stream_data heap s (nm ++ 0 :: k) true = Ret (ERROR_SUCCESS, data).
Proof using Hheap.
  intros Hc Hl Hh [blk Hd] Hz E. unfold read_stream_data. destruct (encode_table nm k Hc Hl Hh) as (r & -> & Er). cbn [obind]. rewrite Er, law_open, E. rewrite (bool_decide_eq_true_2 (is_Some (Some data))) by (by eexists). cbn [negb]. rewrite (law_size _ _ _ E).
  pose proof (zlen_nonneg data). replace (Z.shiftr (zlen data) 32) with 0 by (rewrite Z.shiftr_div_pow2, Z.div_small by lia; done). change (negb (0 =? 0)) with false. cbv iota. rewrite Hd, (law_read _ _ _ _ E), take_zlen.
  by rewrite Z.eqb_refl.
Qed.
Lemma write_ok s nm k data s' : cstring nm -> (length (packed nm) < 30)%nat -> is_Some (heap 16 MAX_STREAM_NAME) -> write_stream_data heap s (nm ++ 0 :: k) data true = Ret (ERROR_SUCCESS, s') ->
  contents s' (table_name nm) = Some data /\ forall m, m <> table_name nm -> contents s' m = contents s m.
Proof using Hheap.
  intros Hc Hl Hh. unfold write_stream_data. destruct (encode_table nm k Hc Hl Hh) as (r & -> & Er). cbn [obind]. rewrite Er. set (n := table_name nm).
  assert (Hopen : forall s1, (if OpenStream s n then Some s else CreateStream s n) = Some s1 -> is_Some (contents s1 n) /\ forall m, m <> n -> contents s1 m = contents s m).
  { intros s1. rewrite law_open. destruct (bool_decide (is_Some (contents s n))) eqn:E; [intros [= <-]; by apply bool_decide_eq_true in E|apply law_create]. }
  destruct (if OpenStream s n then Some s else CreateStream s n) as [s1|]; [|done]. destruct (Hopen s1 eq_refl) as [H1 H1o]. pose proof (zlen_nonneg data).
  destruct (StreamSetSize s1 n (zlen data)) as [s2|] eqn:E2; [|done]. destruct (law_setsize s1 n (zlen data) s2 H1 ltac:(lia) E2) as [(l & Hl2 & Hlz) H2o].
  destruct (StreamSeek s2 n 0) as [s2'|] eqn:Ek; [|done]. destruct (law_seek s2 n 0 s2' ltac:(by eexists) ltac:(lia) Ek) as [Hpos Hk].
  rewrite <- Hk in Hl2. assert (H2o' : forall m, m <> n -> contents s2' m = contents s m) by (intros m Hm; by rewrite Hk, H2o, H1o). clear H2o Hk E2 Ek.
  destruct (Z.eqb_spec (zlen data) 0) as [Hz|Hz].
  - intros [= <-]. split; [rewrite Hl2; f_equal; destruct l, data; unfold zlen in *; simpl in *; try lia; done|]. done.
  - destruct (StreamWrite s2' n data) as [[s3 cnt]|] eqn:E3; [|done]. destruct (Z.eqb_spec cnt (zlen data)) as [->|]; [|done]. intros [= <-].
    destruct (law_write s2' n l data s3 Hl2 ltac:(lia) ltac:(lia) E3) as [H3 H3o]. rewrite Hpos in H3. cbn [Z.to_nat take Nat.add app] in H3.
    split; [rewrite H3, drop_ge by (unfold zlen in *; lia); by rewrite app_nil_r|]. intros m Hm. by rewrite H3o, H2o'.
Qed.
End Streams.
End MsiStreamSpec.
