(* ===== verification/MsiStringSave.v ===== *)
(** * Saving and loading the string table

    The pool and the data that a table is saved to, the loops that write and
    read them, and the round trip through a storage. *)
From stdpp Require Import sets.
From S2P Require Import Prelude Utf8 Utf8Spec CodePage CodePageSpec CodePageRead CodePageCalls MsiString MsiStringSpec MsiStreamSpec.
Import Utf8 Utf8Spec MsiString MsiStringSpec MsiStreamSpec.

Module MsiStringSave.

Abbreviation encoding t s := (concat (map (CodePageRead.encoded t) s)).

(** the code page in the first two words *)
Lemma page_words page : 0 <= page < 2 ^ 31 -> Z.land (u16 (Z.shiftr page 16)) 0x8000 = 0 /\ Z.lor (Z.land page 0xffff) (Z.shiftl (Z.land (u16 (Z.shiftr page 16)) 0x7fff) 16) = page.
Proof.
  intros Hp. assert (Hq : 0 <= page / 65536 < 32768) by (change (2 ^ 31) with 2147483648 in Hp; dlia). rewrite Z.shiftr_div_pow2 by lia. change (2 ^ 16) with 65536. unfold wrapU. rewrite (Z.mod_small (page / 65536)) by (change (2 ^ 16) with 65536; lia).
  set (q := page / 65536) in *. assert (Hb : forall j, 15 <= j -> Z.testbit q j = false). { intros j Hj. rewrite <- (Z.mod_small q (2 ^ 15)) by (change (2 ^ 15) with 32768; lia). rewrite Z.mod_pow2_bits_high by lia. done. }
  split.
  - apply Z.bits_inj'. intros j Hj. rewrite Z.land_spec, Z.bits_0. destruct (decide (j = 15)) as [->|Hne]; [by rewrite Hb|]. change 0x8000 with (2 ^ 15). rewrite (Z.pow2_bits_false 15 j) by lia. by rewrite andb_false_r.
  - change 0x7fff with (2 ^ 15 - 1). change 0xffff with (2 ^ 16 - 1). rewrite !land_pow2_mask by lia. rewrite (Z.mod_small q) by (change (2 ^ 15) with 32768; lia). rewrite Z.shiftl_mul_pow2 by lia. unfold q. change 65536 with (2 ^ 16) at 1.
    rewrite <- Z.lor_comm, <- Z.shiftl_mul_pow2, <- Z.shiftr_div_pow2, <- Z.land_ones by lia. rewrite <- Z.ldiff_ones_r by lia. rewrite Z.lor_comm. apply Z.bits_inj'. intros j Hj. rewrite Z.lor_spec, Z.land_spec, Z.ldiff_spec. by destruct (Z.testbit page j), (Z.testbit (Z.ones 16) j).
Qed.

Section Save.
Context (ct : list Z) (cs : Z) (dt : list Z) (cptables : list CodePage.cptable) (cps : CodePage.codepages) (locale_cp : option CodePage.cptable).
Context (page : Z) (t : CodePage.cptable).
(** a code page that has the NUL, as the byte 0 *)
Record page_ok : Prop := {
  page_unix : page <> CodePage.CP_UNIXCP;
  page_table : CodePage.get_codepage_table cptables cps locale_cp page = Some t;
  page_to : CodePageSpec.table_ok t;
  page_from : CodePageRead.mb_ok t;
  page_nul : CodePageRead.encoded t 0 = [0];
  page_nul_back : CodePageRead.representable t 0 }.
Context (P : page_ok).
Abbreviation wc := (MsiString.wc ct cs cptables cps locale_cp page).
Abbreviation mb := (MsiString.mb dt cptables cps locale_cp page).

(** ** The conversions *)
Lemma length_plain_ok d post : CodePageSpec.dbcs_ok d -> forall v len, Forall (isU 16) v -> CodePage.length_plain d (v ++ post) (length v) len = Ret (len + zlen (encoding (CodePage.Dbcs d) v)).
Proof using.
  intros Hd. induction v as [|w v IH]; intros len Hv; [cbn; by rewrite Z.add_0_r|]. apply Forall_cons_1 in Hv as [Hw Hv]. cbn [length CodePage.length_plain app map concat]. rewrite rd0. cbn [obind].
  rewrite (proj1 (CodePageRead.dbcs_char_uni d w Hd Hw)). cbn [obind]. change (drop 1 (w :: v ++ post)) with (v ++ post). rewrite IH by done. cbn [CodePageRead.encoded]. rewrite zlen_app, CodePageSpec.bytes_of_size. by rewrite Z.add_assoc.
Qed.
Lemma pages : (page =? CodePage.CP_UTF7) = false /\ (page =? CodePage.CP_UTF8) = false /\ (page =? CodePage.CP_UNIXCP) = false.
Proof using P. destruct (CodePageCalls.table_pages cptables cps locale_cp page t (page_table P)) as [H1 H2]. pose proof (page_unix P). conj; [done|done|lia]. Qed.
Lemma wc_unfold src srclen dst dstlen : 0 <= srclen -> dst <> None \/ dstlen = 0 -> wc src srclen dst dstlen =
  let! (ret, d, _) := CodePage.wine_cp_wcstombs ct cs t 0 src srclen (default [] dst) dstlen None false in Ret (if ret =? -1 then 0 else ret, d).
Proof using P.
  intros Hs Hd. unfold MsiString.wc, CodePage.WideCharToMultiByte. destruct pages as (P7 & P8 & PU).
  replace (negb (bool_decide (is_Some dst)) && negb (dstlen =? 0)) with false by (destruct dst; [done|]; destruct Hd as [|Hd]; [done|]; by rewrite Hd).
  replace (srclen =? -1) with false by lia. cbn [obind]. rewrite P7, PU, P8, (page_table P). cbn [orb].
  destruct (CodePage.wine_cp_wcstombs ct cs t 0 src srclen (default [] dst) dstlen None false) as [[[ret d] u]| |]; done.
Qed.
Lemma wc_query v k : Forall (isU 16) v -> wc (v ++ k) (zlen v) None 0 = Ret (zlen (encoding t v), []).
Proof using P.
  intros Hv. rewrite wc_unfold by (try (by right); apply zlen_nonneg). pose proof (page_to P) as Ht. unfold CodePage.wine_cp_wcstombs. change (0 =? 0) with true. change (bool_decide (is_Some (@None (list Z)))) with false. cbn [negb orb]. cbv zeta. pose proof (zlen_nonneg (encoding t v)) as Hz.
  destruct t as [d|d]; cbv iota.
  - rewrite CodePageRead.encoding_sbcs in *. assert (Em : zlen (map (CodePageSpec.sb d) v) = zlen v) by (unfold zlen; by rewrite length_map). rewrite Em in *. cbn [obind]. by replace (zlen v =? -1) with false by lia.
  - unfold CodePage.get_length_dbcs. change (negb (bool_decide (is_Some (@None (list Z)))) && negb false && negb (Utf8.has_flag 0 CodePage.WC_COMPOSITECHECK)) with true. cbv iota. rewrite zlen_nat, (length_plain_ok d k Ht v 0 Hv). cbn [obind].
    rewrite Z.add_0_l. by replace (zlen (encoding (CodePage.Dbcs d) v) =? -1) with false by lia.
Qed.
Lemma wc_write v k buf : Forall (isU 16) v -> zlen (encoding t v) <= zlen buf ->
  wc (v ++ k) (zlen v) (Some buf) (zlen (encoding t v)) = Ret (zlen (encoding t v), encoding t v ++ drop (length (encoding t v)) buf).
Proof using P.
  intros Hv Hb. rewrite wc_unfold by (try (by left); apply zlen_nonneg). change (default [] (Some buf)) with buf. pose proof (zlen_nonneg (encoding t v)) as Hz. destruct (Z.eqb_spec (zlen (encoding t v)) 0) as [E0|E0].
  - pose proof (wc_query v k Hv) as Q. rewrite wc_unfold in Q by (try (by right); apply zlen_nonneg). change (default [] None) with (@nil Z) in Q. rewrite E0 in *.
    assert (En : encoding t v = []) by (destruct (encoding t v); [done|unfold zlen in E0; simpl in E0; lia]). rewrite En. cbn [app length drop].
    assert (Ed : forall dst1 dst2 r d u, CodePage.wine_cp_wcstombs ct cs t 0 (v ++ k) (zlen v) dst1 0 None false = Ret (r, d, u) -> CodePage.wine_cp_wcstombs ct cs t 0 (v ++ k) (zlen v) dst2 0 None false = Ret (r, dst2, u)).
    { intros dst1 dst2 r d u. unfold CodePage.wine_cp_wcstombs. change (0 =? 0) with true. destruct t as [x|x]; cbv iota; cbn [negb orb]; change (bool_decide (is_Some (@None (list Z)))) with false; cbv iota zeta.
      - by intros [= <- _ <-].
      - destruct (CodePage.get_length_dbcs ct cs x 0 (v ++ k) (zlen v) None false) as [[n0 u0]| |]; cbn [obind]; try done. by intros [= <- _ <-]. }
    destruct (CodePage.wine_cp_wcstombs ct cs t 0 (v ++ k) (zlen v) [] 0 None false) as [[[r d] u]| |] eqn:E; cbn [obind] in Q; try done. rewrite (Ed _ buf _ _ _ E). cbn [obind]. by injection Q as -> _.
  - rewrite CodePageRead.wcstombs_plain by (apply (page_to P) || done || lia). cbn [obind]. by replace (zlen (encoding t v) =? -1) with false by lia.
Qed.
(** with -1 the terminator is converted as well *)
Lemma wc_string u k dst dstlen : cstring u -> dst <> None \/ dstlen = 0 -> wc (u ++ 0 :: k) (-1) dst dstlen = wc ((u ++ [0]) ++ k) (zlen (u ++ [0])) dst dstlen.
Proof using.
  intros Hu Hd. unfold MsiString.wc, CodePage.WideCharToMultiByte. replace (negb (bool_decide (is_Some dst)) && negb (dstlen =? 0)) with false by (destruct dst; [done|]; destruct Hd as [|Hd]; [done|]; by rewrite Hd).
  change (-1 =? -1) with true. cbv iota. rewrite strlen_app by done. cbn [obind]. pose proof (zlen_nonneg (u ++ [0])). replace (zlen (u ++ [0]) =? -1) with false by lia. cbn [obind]. rewrite zlen_app. change (zlen [0]) with 1. by rewrite <- (app_assoc u).
Qed.
Lemma encoding_app u v : encoding t (u ++ v) = encoding t u ++ encoding t v.
Proof using. by rewrite map_app, concat_app. Qed.
Lemma encoding_nul u : encoding t (u ++ [0]) = encoding t u ++ [0].
Proof using P. rewrite encoding_app. cbn [map concat]. by rewrite (page_nul P). Qed.
Lemma encoded_nonempty w : CodePageRead.encoded t w <> [].
Proof using. destruct t; cbn [CodePageRead.encoded]; [done|]. unfold CodePageSpec.bytes_of. by destruct (CodePage.is_double _). Qed.
(** only the NUL starts with the byte 0 *)
Lemma first_byte w u : w <> 0 -> CodePageRead.representable t w -> exists b r, encoding t (w :: u) = b :: r /\ b <> 0.
Proof using P.
  intros Hw Hr. cbn [map concat]. destruct (CodePageRead.encoded t w) as [|b r] eqn:E; [by apply encoded_nonempty in E|]. exists b, (r ++ encoding t u). split; [done|]. intros ->.
  pose proof (page_nul_back P) as H0. unfold CodePageRead.representable in *. rewrite (page_nul P) in H0. rewrite E in Hr. cbn [length] in *.
  assert (Hn : CodePageRead.next_mb t 0 (0 :: r) (S (length r)) = Ret (Some (0, false))).
  { apply (CodePageRead.next_mb_app t 0 [0] r (length r) 0 false H0 eq_refl). }
  rewrite Hn in Hr. injection Hr as <-. done.
Qed.
Lemma mb_unfold src srclen dst dstlen : 0 <= srclen -> dst <> None \/ dstlen = 0 -> mb src srclen dst dstlen =
  let! (ret, d) := CodePage.wine_cp_mbstowcs dt t 0 src srclen (default [] dst) dstlen in Ret (if ret <? 0 then 0 else ret, d).
Proof using P.
  intros Hs Hd. unfold MsiString.mb, CodePage.MultiByteToWideChar. destruct pages as (P7 & P8 & PU).
  replace (negb (bool_decide (is_Some dst)) && negb (dstlen =? 0)) with false by (destruct dst; [done|]; destruct Hd as [|Hd]; [done|]; by rewrite Hd).
  replace (srclen =? -1) with false by lia. cbn [obind]. rewrite P7, PU, P8, (page_table P). done.
Qed.
(** the bytes of a string are read back *)
Lemma mb_back v k : Forall (isU 16) v -> Forall (CodePageRead.representable t) v -> bytes k ->
  mb (encoding t v ++ k) (zlen (encoding t v)) None 0 = Ret (zlen v, []) /\
  forall s, zlen v <= zlen s -> mb (encoding t v ++ k) (zlen (encoding t v)) (Some s) (zlen v) = Ret (zlen v, v ++ drop (length v) s).
Proof using P.
  intros Hv Hr Hk. destruct (CodePageRead.encoded_chars t k v Hr) as (ws & E & Ews). pose proof (zlen_nonneg (encoding t v)). pose proof (zlen_nonneg v) as Hzv. pose proof (zlen_nonneg k).
  pose proof (CodePageRead.mb_result_ok dt t 0 (encoding t v ++ k) (zlen (encoding t v)) ws false (page_from P)) as R. unfold CodePageRead.mb_result in R. rewrite Ews, zlen_nat in R.
  change (Utf8.has_flag 0 MB_ERR_INVALID_CHARS) with false in R. change (Utf8.has_flag 0 CodePage.MB_COMPOSITE) with false in R. cbn [andb] in R. cbv iota in R.
  destruct R as (R1 & R2 & _); [apply Forall_app; split; [by apply CodePageRead.encoding_bytes; [apply (page_to P)|]|done]|rewrite zlen_app; lia|done|]. split.
  - rewrite mb_unfold by (done || by right). change (default [] None) with (@nil Z). rewrite R1. cbn [obind]. by replace (zlen v <? 0) with false by lia.
  - intros s Hs. rewrite mb_unfold by (done || by left). change (default [] (Some s)) with s. destruct (Z.eqb_spec (zlen v) 0) as [E0|E0].
    + assert (v = []) as -> by (destruct v; [done|unfold zlen in E0; simpl in E0; lia]). change (zlen (@nil Z)) with 0 in *. rewrite R1. done.
    + rewrite R2 by (unfold CodePageRead.need; lia). cbn [obind]. by replace (zlen v <? 0) with false by lia.
Qed.

(** ** What is saved *)
Definition saved (e : msistring) : list Z := if persistent_refcount e =? 0 then [] else encoding t (etext e).
Abbreviation data_of es := (concat (map saved es)).
(** an entry of the pool: the length and the count; a long length follows the
    count, after a zero *)
Definition pool_words (e : msistring) : list Z :=
  if persistent_refcount e =? 0 then [0; 0] else
  let n := zlen (saved e) in
  if n <? 0x10000 then [n; persistent_refcount e] else [0; persistent_refcount e; n mod 65536; n / 65536].
Abbreviation pool_of es := (concat (map pool_words es)).
Definition good_text (u : list Z) : Prop := cstring u /\ u <> [] /\ Forall (isU 16) u /\ Forall (CodePageRead.representable t) u.
(** an entry that can be saved *)
Definition good (e : msistring) : Prop :=
  persistent_refcount e = 0 \/
  (exists u k, str e = Some (u ++ 0 :: k) /\ good_text u) /\ 0 < persistent_refcount e < 65536 /\ zlen (saved e) < 2 ^ 31.
(** a string that is saved is not followed by a single byte *)
Fixpoint tail_ok (es : list msistring) : Prop :=
  match es with [] => True | e :: es => (persistent_refcount e = 0 \/ zlen (data_of es) <> 1) /\ tail_ok es end.

Lemma saved_good e : good e -> persistent_refcount e <> 0 -> exists u k, str e = Some (u ++ 0 :: k) /\ good_text u /\ saved e = encoding t u /\ etext e = u /\ 0 < persistent_refcount e < 65536 /\
  0 < zlen (saved e) < 2 ^ 31.
Proof using.
  intros [|((u & k & Es & Hu) & Hp & Hz)] Hn; [done|]. exists u, k. assert (Et : etext e = u) by (unfold etext; rewrite Es; apply text_app; apply Hu).
  assert (Esv : saved e = encoding t u) by (unfold saved; rewrite Et; by replace (persistent_refcount e =? 0) with false by lia). conj; try done; try lia. rewrite Esv.
  destruct Hu as (_ & Hne & _). destruct u as [|c u]; [done|]. cbn [map concat]. rewrite zlen_app. pose proof (zlen_nonneg (encoding t u)). pose proof (encoded_nonempty c). destruct (CodePageRead.encoded t c); [done|]. rewrite zlen_cons. pose proof (zlen_nonneg l). lia.
Qed.
Lemma wc_size u k : good_text u -> wc (u ++ 0 :: k) (-1) None 0 = Ret (zlen (encoding t u) + 1, []).
Proof using P.
  intros (Hc & _ & Hu & _). rewrite wc_string by (done || by right). rewrite wc_query by (apply Forall_app; split; [done|constructor; [done|constructor]]). by rewrite encoding_nul, zlen_snoc.
Qed.
Lemma totalsize_ok es : Forall good es -> forall d p, totalsize_loop ct cs cptables cps locale_cp page es d p 0 = Ret (d + zlen (data_of es), p + 2 * zlen (pool_of es)).
Proof using P.
  induction 1 as [|e es Hg _ IH]; intros d p; [cbn; by rewrite !Z.add_0_r|]. cbn [totalsize_loop map concat]. destruct (Z.eqb_spec (persistent_refcount e) 0) as [E0|E0].
  - rewrite IH. assert (saved e = [] /\ pool_words e = [0; 0]) as [-> ->] by (unfold saved, pool_words; by rewrite E0). cbn [app]. rewrite !zlen_cons. f_equal. f_equal; lia.
  - destruct (saved_good e Hg E0) as (u & k & Es & Hu & Esv & _ & _ & Hz). rewrite Es, (wc_size u k Hu). cbn [obind]. rewrite <- Esv. set (n := zlen (saved e)) in *. replace (n + 1 =? 0) with false by lia. cbn [negb].
    replace (n + 1 - 1) with n by lia. rewrite IH, !zlen_app. fold n. f_equal. unfold pool_words at 2. replace (persistent_refcount e =? 0) with false by lia. fold n. cbv zeta. destruct (Z.ltb_spec n 0x10000) as [Hs|Hs].
    + replace (0xffff <? n) with false by lia. change (zlen [n; persistent_refcount e]) with 2. f_equal; lia.
    + replace (0xffff <? n) with true by lia. change (zlen [0; persistent_refcount e; n mod 65536; n / 65536]) with 4. f_equal; lia.
Qed.
Lemma lookup_entry st e i s : codepage st = page -> wf st -> 0 < i < maxcount st -> ent (strings st) i = e -> used e = true -> str e = Some s -> msi_string_lookup_id st i = Ret (Some s).
Proof using.
  intros Hp W Hi He Hu Hs. unfold msi_string_lookup_id. replace (i =? 0) with false by lia. replace (maxcount st <=? i) with false by lia. rewrite (rd_in zero_entry) by (rewrite (wf_count _ W); lia). cbn [obind]. by rewrite He, Hu, Hs.
Qed.
Abbreviation id2stringA := (msi_id2stringA ct cs cptables cps locale_cp).
(** the last string has room without its terminator, any other with it *)
Lemma id2string_last st i u k buf : codepage st = page -> msi_string_lookup_id st i = Ret (Some (u ++ 0 :: k)) -> good_text u -> zlen (encoding t u) <= zlen buf ->
  id2stringA st i (Some buf) (zlen (encoding t u)) = Ret (ERROR_SUCCESS, encoding t u ++ drop (length (encoding t u)) buf, zlen (encoding t u)).
Proof using P.
  intros Hp Hl Hg Hb. unfold msi_id2stringA. rewrite Hl, Hp. cbn [obind]. rewrite (wc_size u k Hg). cbn [obind]. destruct Hg as (Hc & _ & Hu & _). set (m := zlen (encoding t u)). replace (m <? m + 1) with true by lia. rewrite strlen_app by done. cbn [obind].
  replace (Z.to_nat (zlen u + 1)) with (Datatypes.S (length u)) by (unfold zlen; lia). cbn [shorten]. replace (m <? m + 1) with true by lia. fold (zlen u). change (Z.of_nat (length u)) with (zlen u).
  rewrite (wc_query u (0 :: k) Hu). cbn [obind]. fold m.
  assert (Es : shorten ct cs cptables cps locale_cp page (u ++ 0 :: k) (length u) m m = Ret (zlen u, m)) by (destruct u as [|c u]; [done|]; cbn [shorten length]; by rewrite Z.ltb_irrefl).
  rewrite Es. cbn [obind]. unfold m. rewrite wc_write by done. done.
Qed.
Lemma id2string_more st i u k buf sz : codepage st = page -> msi_string_lookup_id st i = Ret (Some (u ++ 0 :: k)) -> good_text u -> zlen (encoding t u) + 1 <= sz <= zlen buf ->
  id2stringA st i (Some buf) sz = Ret (ERROR_SUCCESS, (encoding t u ++ [0]) ++ drop (Datatypes.S (length (encoding t u))) buf, zlen (encoding t u) + 1).
Proof using P.
  intros Hp Hl Hg Hb. unfold msi_id2stringA. rewrite Hl, Hp. cbn [obind]. rewrite (wc_size u k Hg). cbn [obind]. destruct Hg as (Hc & _ & Hu & _). set (m := zlen (encoding t u)) in *. replace (sz <? m + 1) with false by lia. cbn [obind].
  rewrite wc_string by (done || by left). assert (Hu0 : Forall (isU 16) (u ++ [0])) by (apply Forall_app; split; [done|constructor; [done|constructor]]). assert (Em : zlen (encoding t (u ++ [0])) = m + 1) by (by rewrite encoding_nul, zlen_snoc).
  rewrite <- Em. rewrite wc_write by (done || lia). cbn [obind]. rewrite encoding_nul. rewrite length_app. cbn [length]. by rewrite Nat.add_1_r.
Qed.

(** ** The loop that saves *)
Lemma words_room e es (pm : list Z) : zlen pm = zlen (pool_of (e :: es)) -> exists pe pm', pm = pe ++ pm' /\ zlen pe = zlen (pool_words e) /\ zlen pm' = zlen (pool_of es).
Proof using.
  cbn [map concat]. rewrite zlen_app. intros H. exists (take (length (pool_words e)) pm), (drop (length (pool_words e)) pm). pose proof (zlen_nonneg (pool_of es)). unfold zlen in *. rewrite take_drop, length_take, length_drop. split; [done|lia].
Qed.
(** the pool entry of a string of [m] bytes *)
Lemma put_entry e m n (pd pe pm' : list Z) : persistent_refcount e <> 0 -> 0 < persistent_refcount e < 65536 -> m = zlen (saved e) -> 0 < m < 2 ^ 31 -> zlen pd = n * 2 -> zlen pe = zlen (pool_words e) ->
  (let! pool := wr (pd ++ pe ++ pm') (n * 2 + 1) (if negb (m =? 0) then u16 (persistent_refcount e) else 0) in
   if m <? 0x10000 then let! pool := wr pool (n * 2) m in Ret (pool, n + 1)
   else
     let! pool := wr pool (n * 2) 0 in
     let! pool := wr pool (n * 2 + 2) (Z.land m 0xffff) in
     let! pool := wr pool (n * 2 + 3) (u16 (Z.shiftr m 16)) in
     Ret (pool, n + 2)) = Ret ((pd ++ pool_words e) ++ pm', n + zlen (pool_words e) / 2).
Proof using.
  intros Hp0 Hp Hm Hr Hn Hpe. replace (m =? 0) with false by lia. cbn [negb]. assert (u16 (persistent_refcount e) = persistent_refcount e) as -> by (unfold wrapU; rewrite Z.mod_small; [done|change (2 ^ 16) with 65536; lia]).
  unfold pool_words in *. replace (persistent_refcount e =? 0) with false in * by lia. cbv zeta in *. rewrite <- Hm in *. destruct (Z.ltb_spec m 0x10000) as [Hs|Hs].
  - change (zlen [m; persistent_refcount e]) with 2 in *. destruct pe as [|x0 [|x1 [|]]]; try (unfold zlen in Hpe; simpl in Hpe; lia). cbn [app]. rewrite wr_1 by lia. cbn [obind]. rewrite wr_app by lia. cbn [obind].
    change (2 / 2) with 1. by rewrite <- app_assoc.
  - change (zlen [0; persistent_refcount e; m mod 65536; m / 65536]) with 4 in *. destruct pe as [|x0 [|x1 [|x2 [|x3 [|]]]]]; try (unfold zlen in Hpe; simpl in Hpe; lia). cbn [app]. rewrite wr_1 by lia. cbn [obind]. rewrite wr_app by lia. cbn [obind].
    rewrite wr_2 by lia. cbn [obind]. rewrite wr_3 by lia. cbn [obind]. change (4 / 2) with 2. change 0xffff with (2 ^ 16 - 1). rewrite land_pow2_mask, Z.shiftr_div_pow2 by lia. change (2 ^ 16) with 65536.
    unfold wrapU. rewrite (Z.mod_small (m / 65536)) by (change (2 ^ 16) with 65536; change (2 ^ 31) with 2147483648 in Hr; dlia). by rewrite <- app_assoc.
Qed.
Lemma save_string st i e rest (dm : list Z) : codepage st = page -> wf st -> 0 < i < maxcount st -> ent (strings st) i = e -> good e -> persistent_refcount e <> 0 -> rest <> 1 -> 0 <= rest ->
  zlen dm = zlen (saved e) + rest -> exists dm' sz, id2stringA st i (Some dm) (zlen (saved e) + rest) = Ret (ERROR_SUCCESS, saved e ++ dm', sz) /\ zlen dm' = rest /\
    (if negb (sz =? 0) && (sz <? zlen (saved e) + rest) then sz - 1 else sz) = zlen (saved e).
Proof using P.
  intros Hp W Hi He Hg Hp0 Hr1 Hr0 Hd. destruct (saved_good e Hg Hp0) as (u & k & Es & Hu & Esv & _ & _ & Hz). assert (Hl : msi_string_lookup_id st i = Ret (Some (u ++ 0 :: k))).
  { eapply lookup_entry; try done. unfold used. by replace (persistent_refcount e =? 0) with false by lia. }
  rewrite Esv in *. set (m := zlen (encoding t u)) in *. destruct (Z.eqb_spec rest 0) as [->|Hr].
  - exists (drop (length (encoding t u)) dm), m. rewrite Z.add_0_r in *. unfold m in *. rewrite (id2string_last st i u k) by (done || lia). conj; [done|unfold zlen in *; rewrite length_drop; lia|]. rewrite Z.ltb_irrefl, andb_false_r. done.
  - exists (0 :: drop (Datatypes.S (length (encoding t u))) dm), (m + 1). rewrite (id2string_more st i u k) by (done || lia). conj; [by rewrite <- app_assoc|rewrite zlen_cons; unfold m, zlen in *; rewrite length_drop; lia|].
    replace (negb (m + 1 =? 0) && (m + 1 <? m + rest)) with true by lia. lia.
Qed.
Lemma save_loop_ok st : codepage st = page -> wf st -> forall es pre pd pm dd dm n datasize, strings st = pre ++ es -> pre <> [] -> Forall good es -> tail_ok es ->
  zlen pm = zlen (pool_of es) -> zlen dm = zlen (data_of es) -> datasize = zlen dd + zlen (data_of es) -> zlen pd = n * 2 ->
  save_loop ct cs cptables cps locale_cp st datasize (length es) (zlen pre) n (zlen dd) (pd ++ pm) (dd ++ dm) = Ret (true, pd ++ pool_of es, dd ++ data_of es, datasize).
Proof using P.
  intros Hp W. induction es as [|e es IH]; intros pre pd pm dd dm n datasize Es Hpre Hg Ht Hpm Hdm Hds Hn.
  - cbn [map concat length save_loop] in *. destruct pm; [|unfold zlen in Hpm; simpl in Hpm; lia]. destruct dm; [|unfold zlen in Hdm; simpl in Hdm; lia]. do 2 f_equal. change (zlen (@nil Z)) with 0 in Hds. lia.
  - apply Forall_cons_1 in Hg as [Hge Hg]. destruct Ht as [Hte Ht]. destruct (words_room e es pm Hpm) as (pe & pm' & -> & Hpe & Hpm'). cbn [length save_loop]. rewrite Es, rd_app by done. cbn [obind].
    assert (Es' : strings st = (pre ++ [e]) ++ es) by (by rewrite <- app_assoc). assert (Hpre' : pre ++ [e] <> []) by (by destruct pre). rewrite <- (zlen_snoc pre e). cbn [map concat] in *.
    destruct (Z.eqb_spec (persistent_refcount e) 0) as [E0|E0].
    + assert (saved e = [] /\ pool_words e = [0; 0]) as [Esv Epw] by (unfold saved, pool_words; by rewrite E0). rewrite Esv, Epw in *. change (zlen [0; 0]) with 2 in Hpe. destruct pe as [|x0 [|x1 [|]]]; try (unfold zlen in Hpe; simpl in Hpe; lia).
      cbn [app]. rewrite wr_app by lia. cbn [obind]. rewrite wr_1 by lia. cbn [obind]. change (pd ++ 0 :: 0 :: pm') with (pd ++ [0; 0] ++ pm'). rewrite (app_assoc pd).
      rewrite (IH (pre ++ [e]) (pd ++ [0; 0]) pm' dd dm (n + 1) datasize) by (try done; rewrite zlen_app; change (zlen [0; 0]) with 2; lia). by rewrite <- !app_assoc.
    + destruct (saved_good e Hge E0) as (u & k & Estr & Hu & Esv & _ & Hpr & Hz). destruct Hte as [|Hte]; [done|]. rewrite zlen_app in Hdm, Hds.
      assert (Hi : 0 < zlen pre < maxcount st). { rewrite <- (wf_count _ W), Es, zlen_app, zlen_cons. pose proof (zlen_nonneg es). destruct pre; [done|]. rewrite zlen_cons. pose proof (zlen_nonneg pre). lia. }
      assert (Hent : ent (strings st) (zlen pre) = e) by (unfold nthZ; rewrite Es, zlen_nat; replace (zlen pre <? 0) with false by lia; by rewrite list_lookup_middle).
      destruct (save_string st (zlen pre) e (zlen (data_of es)) dm Hp W Hi Hent Hge E0 Hte (zlen_nonneg _) Hdm) as (dm' & sz & Eid & Hdm' & Hsz).
      rewrite !zlen_nat, drop_app_length, take_app_length. replace (datasize - zlen dd) with (zlen (saved e) + zlen (data_of es)) by lia. rewrite Eid. cbn [obind]. change (ERROR_SUCCESS =? ERROR_SUCCESS) with true. cbv iota. rewrite Hsz.
      pose proof (put_entry e (zlen (saved e)) n pd pe pm' E0 Hpr eq_refl Hz Hn Hpe) as Epe. destruct (wr (pd ++ pe ++ pm') (n * 2 + 1) (if negb (zlen (saved e) =? 0) then u16 (persistent_refcount e) else 0)) as [pool| |]; cbn [obind] in *; try done.
      rewrite Epe. cbn [obind]. pose proof (zlen_nonneg (data_of es)). replace (datasize <? zlen dd + zlen (saved e)) with false by lia. rewrite <- zlen_app, (app_assoc dd).
      assert (Heven : zlen (pool_words e) / 2 * 2 = zlen (pool_words e)). { unfold pool_words. destruct (persistent_refcount e =? 0); [done|]. cbv zeta. by destruct (zlen (saved e) <? 65536). }
      rewrite (IH (pre ++ [e]) (pd ++ pool_words e) pm' (dd ++ saved e) dm' (n + zlen (pool_words e) / 2) datasize) by (try done; rewrite zlen_app; lia). by rewrite <- !app_assoc.
Qed.

(** ** The loop that loads *)
Context (lstrcmpW : list Z -> list Z -> Z) (heap : Z -> Z -> option (list Z)) (heap_zero : Z -> bool) (Hheap : heap_ok heap).
(** there is memory *)
Definition heap_total : Prop := forall w n, 0 < w -> 0 <= n -> is_Some (heap w n).
Context (Htotal : heap_total).
Abbreviation addstring := (msi_addstring dt cptables cps locale_cp lstrcmpW heap heap_zero).
Lemma load_string st n u k refcount : wf st -> codepage st = page -> 0 < n < maxcount st -> used (ent (strings st) n) = false -> good_text u -> 0 < refcount < 65536 -> bytes k ->
  exists st', addstring st n (Some (encoding t u ++ k)) (zlen (encoding t u)) refcount StringPersistent = Ret (n, st') /\ wf st' /\ codepage st' = page /\ maxcount st' = maxcount st /\
    view st' n = Some (u, refcount, 0) /\ forall j, j <> n -> ent (strings st') j = ent (strings st) j.
Proof using P Hheap Htotal.
  intros W Hp Hn Hu (Hc & Hne & H16 & Hrep) Hr Hk. unfold msi_addstring. destruct u as [|c u]; [done|]. destruct (first_byte c u) as (b & r & Eb & Hb); [by apply Forall_cons_1 in Hc as [? _]|by apply Forall_cons_1 in Hrep as [? _]|].
  pose proof (mb_back (c :: u) k H16 Hrep Hk) as [M1 M2]. set (v := c :: u) in *. clearbody v. assert (R0 : rd (encoding t v ++ k) 0 = Ret b) by (by rewrite Eb). rewrite R0. cbn [obind]. replace (b =? 0) with false by lia. unfold find_slot. replace (0 <? n) with true by lia.
  rewrite (rd_in zero_entry) by (rewrite (wf_count _ W); lia). cbn [obind]. rewrite Hu. pose proof (zlen_nonneg (encoding t v)). replace (zlen (encoding t v) <? 0) with false by lia. cbn [obind]. rewrite Hp, M1. cbn [obind].
  pose proof (zlen_nonneg v). destruct (Htotal 16 (zlen v + 1) ltac:(lia) ltac:(lia)) as [s Hs]. rewrite Hs. pose proof (proj1 (Hheap _ _ _ Hs)) as Hz. rewrite M2 by lia. cbn [obind].
  assert (Ew : wr (v ++ drop (length v) s) (zlen v) 0 = Ret (v ++ [0])).
  { destruct (drop (length v) s) as [|x q] eqn:E; pose proof (f_equal length E) as El; rewrite length_drop in El; unfold zlen in Hz; simpl length in El; [lia|]. rewrite wr_app by done. destruct q; [done|simpl in El; lia]. }
  rewrite Ew. cbn [obind]. destruct (set_st_entry_ok st n v [] refcount StringPersistent W Hn Hu Hc ltac:(lia)) as (st' & next & E & W' & Hmc & Hcp & _ & Hent). rewrite E. cbn [obind]. exists st'. conj; [done|done|congruence|done| |].
  - apply (view_entry_for st' n next v [] refcount StringPersistent); [lia|done|lia|by rewrite Hent, Z.eqb_refl].
  - intros j Hj. rewrite Hent. by replace (j =? n) with false by lia.
Qed.
(** what an entry is loaded as *)
Definition loaded (e : msistring) : option (list Z * Z * Z) :=
  if persistent_refcount e =? 0 then None else Some (etext e, persistent_refcount e, 0).
Lemma data_bytes es : Forall good es -> bytes (data_of es).
Proof using P.
  induction 1 as [|e es Hg _ IH]; [constructor|]. cbn [map concat]. apply Forall_app. split; [|done]. destruct (Z.eqb_spec (persistent_refcount e) 0) as [E0|E0]; [unfold saved; rewrite E0; constructor|].
  destruct (saved_good e Hg E0) as (u & k & _ & (_ & _ & Hu & _) & -> & _). apply CodePageRead.encoding_bytes; [apply (page_to P)|done].
Qed.
(** the words of a pool entry as the loop reads them *)
Lemma read_entry e i (pd rest : list Z) : good e -> persistent_refcount e <> 0 -> zlen pd = i * 2 -> exists low,
  rd (pd ++ pool_words e ++ rest) (i * 2 + 1) = Ret (persistent_refcount e) /\ rd (pd ++ pool_words e ++ rest) (i * 2) = Ret low /\
  (if low =? 0 then
     let! h := rd (pd ++ pool_words e ++ rest) (i * 2 + 3) in
     let! l := rd (pd ++ pool_words e ++ rest) (i * 2 + 2) in
     Ret (u32 (Z.shiftl h 16 + l), i + 2)
   else Ret (low, i + 1)) = Ret (zlen (saved e), i + zlen (pool_words e) / 2).
Proof using.
  intros Hg E0 Hi. destruct (saved_good e Hg E0) as (u & k & _ & _ & _ & _ & Hp & Hz). unfold pool_words. replace (persistent_refcount e =? 0) with false by lia. cbv zeta. set (m := zlen (saved e)) in *.
  assert (R : forall (a : list Z) x b j, j = zlen pd + zlen a -> rd (pd ++ a ++ x :: b) j = Ret x) by (intros a x b j ->; rewrite app_assoc, rd_app by (by rewrite zlen_app); done).
  destruct (Z.ltb_spec m 0x10000) as [Hs|Hs]; cbn [app].
  - exists m. conj; [by apply (R [m]); rewrite Hi|by apply (R []); rewrite Hi, Z.add_0_r|]. replace (m =? 0) with false by lia. done.
  - exists 0. conj; [by apply (R [0]); rewrite Hi|by apply (R []); rewrite Hi, Z.add_0_r|]. change (0 =? 0) with true. cbv iota.
    set (l4 := pd ++ _). assert (R3 : rd l4 (i * 2 + 3) = Ret (m / 65536)) by (apply (R [0; persistent_refcount e; m mod 65536]); by rewrite Hi).
    assert (R2 : rd l4 (i * 2 + 2) = Ret (m mod 65536)) by (apply (R [0; persistent_refcount e]); by rewrite Hi). rewrite R3. cbn [obind]. rewrite R2. cbn [obind].
    rewrite Z.shiftl_mul_pow2 by lia. change (2 ^ 16) with 65536. replace (m / 65536 * 65536 + m mod 65536) with m by (pose proof (Z.div_mod m 65536); lia). unfold wrapU. rewrite Z.mod_small by (change (2 ^ 32) with 4294967296; change (2 ^ 31) with 2147483648 in Hz; lia). done.
Qed.
Lemma pool_even e : 0 < zlen (pool_words e) / 2 /\ zlen (pool_words e) / 2 * 2 = zlen (pool_words e).
Proof using. unfold pool_words. destruct (persistent_refcount e =? 0); [done|]. cbv zeta. by destruct (zlen (saved e) <? 65536). Qed.
Lemma pool_even_all es : exists k, zlen (pool_of es) = k * 2 /\ zlen es <= k.
Proof using.
  induction es as [|e es (k & Hk & Hl)]; [by exists 0|]. cbn [map concat]. destruct (pool_even e) as [H0 H1]. exists (zlen (pool_words e) / 2 + k). rewrite zlen_app, zlen_cons. split; lia.
Qed.
Lemma load_loop_ok data count pool : zlen pool = count * 2 -> zlen data < 2 ^ 32 -> forall es st pd dd i n fuel, pool = pd ++ pool_of es -> data = dd ++ data_of es -> zlen pd = i * 2 -> (length es < fuel)%nat ->
  wf st -> codepage st = page -> 0 < n -> n + zlen es <= maxcount st -> (forall j, n <= j -> used (ent (strings st) j) = false) -> Forall good es ->
  exists st', load_loop dt cptables cps locale_cp lstrcmpW heap heap_zero fuel st pool data count i n (zlen dd) = Ret (st', zlen data) /\ wf st' /\ codepage st' = page /\ maxcount st' = maxcount st /\
    (forall j, j < n -> view st' j = view st j) /\ (forall k e, es !! k = Some e -> view st' (n + Z.of_nat k) = loaded e) /\ (forall j, n + zlen es <= j -> view st' j = None).
Proof using P Hheap Htotal.
  intros Hcount Hdata. induction es as [|e es IH]; intros st pd dd i n fuel Epool Edata Hpd Hfuel W Hcp Hn Hmax Hfree Hg; (destruct fuel as [|fuel]; [simpl in Hfuel; lia|]); cbn [load_loop map concat] in *.
  - rewrite app_nil_r in Epool, Edata. subst pd dd. replace (count <=? i) with true by lia. exists st. conj; try done. intros j Hj. change (zlen (@nil msistring)) with 0 in Hj. unfold view. rewrite Hfree by lia. by rewrite andb_false_r.
  - apply Forall_cons_1 in Hg as [Hge Hg]. destruct (pool_even e) as [Hw0 Hw]. destruct (pool_even_all es) as (kw & Hkw & _). pose proof (zlen_nonneg (pool_of es)). rewrite zlen_cons in Hmax. pose proof (zlen_nonneg es).
    assert (Hci : count = i + zlen (pool_words e) / 2 + kw) by (rewrite Epool, !zlen_app in Hcount; lia). replace (count <=? i) with false by lia. simpl in Hfuel.
    destruct (Z.eqb_spec (persistent_refcount e) 0) as [E0|E0].
    + assert (saved e = [] /\ pool_words e = [0; 0]) as [Esv Epw] by (unfold saved, pool_words; by rewrite E0). rewrite Esv, Epw in *.
      assert (R1 : rd pool (i * 2 + 1) = Ret 0). { rewrite Epool. change ([0; 0] ++ pool_of es) with ([0] ++ 0 :: pool_of es). rewrite app_assoc, rd_app by (by rewrite zlen_snoc, Hpd). done. }
      assert (R0 : rd pool (i * 2) = Ret 0). { rewrite Epool. cbn [app]. by rewrite rd_app by done. }
      rewrite R1. cbn [obind]. rewrite R0. cbn [obind]. change ((0 =? 0) && (0 =? 0)) with true. cbv iota.
      destruct (IH st (pd ++ [0; 0]) dd (i + 1) (n + 1) fuel) as (st' & E & W' & Hcp' & Hmc & Hlt & Hin & Hge'); try done; try lia; [by rewrite Epool, <- app_assoc|rewrite zlen_app, Hpd; change (zlen [0; 0]) with 2; lia|intros j Hj; apply Hfree; lia|].
      exists st'. conj; [done|done|done|done|intros j Hj; apply Hlt; lia| |intros j Hj; apply Hge'; rewrite zlen_cons in Hj; lia]. intros k e' Hk. destruct k as [|k].
      * injection Hk as <-. rewrite Z.add_0_r, Hlt by lia. unfold view, loaded. rewrite Hfree, E0 by lia. by rewrite andb_false_r.
      * replace (n + Z.of_nat (S k)) with (n + 1 + Z.of_nat k) by lia. by apply Hin.
    + destruct (read_entry e i pd (pool_of es) Hge E0 Hpd) as (low & R1 & R0 & Rl). rewrite <- Epool in *. destruct (saved_good e Hge E0) as (u & k & Estr & Hu & Esv & Eet & Hp & Hz). rewrite R1. cbn [obind]. rewrite R0. cbn [obind].
      replace ((low =? 0) && (persistent_refcount e =? 0)) with false by (destruct (low =? 0); simpl; lia). rewrite Rl. cbn [obind].
      pose proof (zlen_nonneg dd). pose proof (zlen_nonneg (data_of es)). assert (Hzd : zlen data = zlen dd + zlen (saved e) + zlen (data_of es)) by (rewrite Edata, !zlen_app; lia).
      assert (Eoff : u32 (zlen dd + zlen (saved e)) = zlen (dd ++ saved e)) by (unfold wrapU; rewrite zlen_app, Z.mod_small; [done|lia]). rewrite Eoff. replace (zlen data <? zlen (dd ++ saved e)) with false by (rewrite zlen_app; lia).
      assert (El : s32 (zlen (saved e)) = zlen (saved e)). { unfold wrapS. change (2 ^ (32 - 1)) with (2 ^ 31). rewrite Z.mod_small by (change (2 ^ 32) with 4294967296; change (2 ^ 31) with 2147483648 in Hz; lia). by replace (zlen (saved e) <? 2 ^ 31) with true by lia. }
      rewrite El, zlen_nat. assert (Edrop : drop (length dd) data = saved e ++ data_of es) by (rewrite Edata; apply drop_app_length). rewrite Edrop, Esv.
      destruct (load_string st n u (data_of es) (persistent_refcount e) W Hcp ltac:(lia) (Hfree n ltac:(lia)) Hu Hp (data_bytes es Hg)) as (st1 & E1 & W1 & Hcp1 & Hmc1 & Hv1 & Hent1). rewrite E1. cbn [obind]. rewrite <- Esv.
      destruct (IH st1 (pd ++ pool_words e) (dd ++ saved e) (i + zlen (pool_words e) / 2) (n + 1) fuel) as (st' & E & W' & Hcp' & Hmc & Hlt & Hin & Hge'); try done; try lia;
        [by rewrite Epool, <- app_assoc|by rewrite Edata, <- app_assoc|rewrite zlen_app, Hpd; lia|intros j Hj; rewrite Hent1 by lia; apply Hfree; lia|].
      exists st'. conj; [done|done|done|lia|intros j Hj; rewrite Hlt by lia; apply view_ext; apply Hent1; lia| |intros j Hj; apply Hge'; rewrite zlen_cons in Hj; lia]. intros k' e' Hk. destruct k' as [|k'].
      * injection Hk as <-. rewrite Z.add_0_r, Hlt, Hv1 by lia. unfold loaded. replace (persistent_refcount e =? 0) with false by lia. by rewrite Eet.
      * replace (n + Z.of_nat (S k')) with (n + 1 + Z.of_nat k') by lia. by apply Hin.
Qed.

(** ** Both *)
Lemma words_unwords l : words (unwords l) = l.
Proof using. induction l as [|w l IH]; [done|]. cbn [unwords words]. rewrite IH. f_equal. pose proof (Z.div_mod w 256). lia. Qed.
Lemma zlen_unwords l : zlen (unwords l) = 2 * zlen l.
Proof using. induction l as [|w l IH]; [done|]. cbn [unwords]. rewrite !zlen_cons, IH. lia. Qed.
Lemma init_wf entries cp st : init_stringtable cptables heap_zero entries cp = Some st -> wf st /\ codepage st = cp /\ maxcount st = Z.max 1 entries /\ forall j, used (ent (strings st) j) = false.
Proof using.
  unfold init_stringtable. destruct (_ && _); [done|]. set (n := if entries <? 1 then 1 else entries). assert (Hn : n = Z.max 1 entries) by (unfold n; destruct (Z.ltb_spec entries 1); lia). destruct (heap_zero n); [|done]. intros H%(inj Some). subst st.
  assert (Hent : forall j, ent (replicate (Z.to_nat n) zero_entry) j = zero_entry). { intros j. rewrite <- (app_nil_l (replicate _ _)), ent_grow. unfold nthZ. by destruct (j <? 0). }
  assert (Hz : zlen (replicate (Z.to_nat n) zero_entry) = n) by (unfold zlen; rewrite length_replicate; lia). assert (Hl : forall i, ~ live (replicate (Z.to_nat n) zero_entry) i) by (intros i [_ Hu]; by rewrite Hent in Hu).
  conj; [|done|done|intros j; cbn [strings]; by rewrite Hent]. split; cbn [strings maxcount hash freeslot]; try done; try lia.
  - by rewrite Hent.
  - intros i Hi. by apply Hl in Hi.
  - intros h Hh. exists []. split; [|split; [constructor|]].
    + cbn [chain]. unfold nthZ. replace (h <? 0) with false by lia. rewrite lookup_replicate_2; [done|]. unfold HASH_SIZE in *. lia.
    + intros i. split; [by intros H%not_elem_of_nil|]. intros [H _]. by apply Hl in H.
Qed.
Definition data_name : list Z := take 11 szStringData.
Definition pool_name : list Z := take 11 szStringPool.
Lemma names_ok : cstring data_name /\ cstring pool_name /\ (length (packed data_name) < 30)%nat /\ (length (packed pool_name) < 30)%nat /\ table_name data_name <> table_name pool_name.
Proof using. conj; [repeat (constructor; [done|]); constructor|repeat (constructor; [done|]); constructor|vm_compute; lia|vm_compute; lia|by vm_compute]. Qed.
End Save.
End MsiStringSave.
