(* ===== verification/MsiStringCalls.v ===== *)
(** * The string table: the theorems

    Ids keep their strings through any sequence of additions, a table comes back
    from a storage as it was saved, names of streams round-trip, and what happens
    to strings of one byte, to entries without references and to lengths that
    are given by the caller. *)
From stdpp Require Import sets.
From S2P Require Import Prelude Utf8 Utf8Spec CodePage CodePageSpec CodePageRead CodePageCalls MsiString MsiStringSpec MsiStreamSpec MsiStringSave.
Import Utf8 Utf8Spec MsiString MsiStringSpec MsiStreamSpec MsiStringSave.

Module MsiStringCalls.

Section Theorems.
Context (ct : list Z) (cs : Z) (dt : list Z) (cptables : list CodePage.cptable) (cps : CodePage.codepages) (locale_cp : option CodePage.cptable).
Context (lstrcmpW : list Z -> list Z -> Z) (heap : Z -> Z -> option (list Z)) (heap_zero : Z -> bool).
Context {S : Type} {Hstorage : IStorage S} {Hlaws : StorageLaws S}.
(** what a saved table is loaded as: the strings that are persistent *)
Definition persistent (x : option (list Z * Z * Z)) : option (list Z * Z * Z) :=
  match x with Some (u, a, _) => if a =? 0 then None else Some (u, a, 0) | None => None end.
Lemma view_loaded st k e : wf st -> drop 1 (strings st) !! k = Some e -> loaded e = persistent (view st (1 + Z.of_nat k)).
Proof using.
  intros W Hk. rewrite lookup_drop in Hk. unfold view. assert (Hent : nthZ zero_entry (strings st) (1 + Z.of_nat k) = e). { unfold nthZ. destruct (Z.ltb_spec (1 + Z.of_nat k) 0); [lia|]. rewrite Z2Nat.inj_add, Nat2Z.id by lia. change (Z.to_nat 1) with 1%nat. by rewrite Hk. }
  rewrite Hent. destruct (Z.ltb_spec 0 (1 + Z.of_nat k)); [|lia]. cbn [andb]. unfold loaded, persistent, used. destruct (Z.eqb_spec (persistent_refcount e) 0) as [E|E]; cbn [negb orb].
  - destruct (negb (nonpersistent_refcount e =? 0)); [|done]. rewrite E. done.
  - by replace (persistent_refcount e =? 0) with false by lia.
Qed.

Section Roundtrip.
Context (page : Z) (t : CodePage.cptable) (P : page_ok cptables cps locale_cp page t) (Hheap : heap_ok heap) (Htotal : heap_total heap) (Hzero : forall n, heap_zero n = true).
Context (Hpage : 0 <= page < 2 ^ 31) (Hvalid : page = CodePage.CP_ACP \/ CodePage.IsValidCodePage cptables page = true).
Abbreviation pool_of es := (concat (map (pool_words t) es)).
Abbreviation data_of es := (concat (map (saved t) es)).
(** the words of the pool *)
Definition pool_stream (es : list msistring) : list Z := Z.land page 0xffff :: u16 (Z.shiftr page 16) :: pool_of es.
Lemma save_streams st stg : codepage st = page -> wf st -> Forall (good t) (drop 1 (strings st)) -> tail_ok t (drop 1 (strings st)) ->
  let es := drop 1 (strings st) in
  msi_save_string_table ct cs cptables cps locale_cp heap st stg =
    let! (r, storage) := write_stream_data heap stg szStringData (data_of es) true in
    if negb (r =? 0) then Ret (ERROR_FUNCTION_FAILED, storage) else
    let! (r, storage) := write_stream_data heap storage szStringPool (unwords (pool_stream es)) true in
    Ret (if negb (r =? 0) then ERROR_FUNCTION_FAILED else ERROR_SUCCESS, storage).
Proof using P Hheap Htotal.
  intros Hcp W Hg Ht es. unfold msi_save_string_table, string_totalsize. pose proof (wf_count _ W) as Hc. pose proof (wf_one _ W) as H1. rewrite <- Hc, take_zlen, Hcp. fold es in Hg, Ht |- *.
  rewrite (totalsize_ok ct cs cptables cps locale_cp page t P es Hg). cbn [obind]. pose proof (zlen_nonneg (data_of es)) as Hd0. pose proof (zlen_nonneg (pool_of es)) as Hp0. rewrite Z.add_0_l.
  replace ((4 + 2 * zlen (pool_of es)) / 2) with (2 + zlen (pool_of es)) by (replace (4 + 2 * zlen (pool_of es)) with ((2 + zlen (pool_of es)) * 2) by lia; rewrite Z.div_mul by lia; done).
  destruct (Htotal 16 (2 + zlen (pool_of es)) ltac:(lia) ltac:(lia)) as [pb Hpb]. destruct (Htotal 8 (zlen (data_of es)) ltac:(lia) Hd0) as [db Hdb]. rewrite Hpb, Hdb. pose proof (proj1 (Hheap _ _ _ Hpb)) as Hpz. pose proof (proj1 (Hheap _ _ _ Hdb)) as Hdz.
  destruct pb as [|x0 [|x1 pm]]; [change (zlen (@nil Z)) with 0 in Hpz; lia|change (zlen [x0]) with 1 in Hpz; lia|]. rewrite !zlen_cons in Hpz.
  change (wr (x0 :: x1 :: pm) 0 (Z.land page 65535)) with (Ret (Z.land page 65535 :: x1 :: pm)). cbn [obind]. pose proof (wr_1 [] (Z.land page 65535) x1 pm (u16 (Z.shiftr page 16)) 1 eq_refl) as Ew. cbn [app] in Ew. rewrite Ew. cbn [obind].
  assert (Es : exists e0, strings st = [e0] ++ es). { unfold es. destruct (strings st) as [|e0 es0]; [change (zlen (@nil msistring)) with 0 in Hc; lia|]. exists e0. done. } destruct Es as (e0 & Es).
  assert (Hlen : Z.to_nat (zlen (strings st) - 1) = length es) by (rewrite Es, zlen_app; change (zlen [e0]) with 1; unfold zlen; lia). rewrite Hlen.
  pose proof (save_loop_ok ct cs cptables cps locale_cp page t P st Hcp W es [e0] [Z.land page 0xffff; u16 (Z.shiftr page 16)] pm [] db 1 (zlen (data_of es)) Es ltac:(done) Hg Ht ltac:(lia) ltac:(lia) ltac:(change (zlen (@nil Z)) with 0; lia) eq_refl) as E.
  cbn [app] in E. change (zlen [e0]) with 1 in E. change (zlen (@nil Z)) with 0 in E. rewrite E. cbn [obind]. rewrite Z.eqb_refl. cbn [negb orb]. done.
Qed.
Lemma load_streams es : Forall (good t) es -> es <> [] -> zlen (data_of es) < 2 ^ 32 -> zlen (unwords (pool_stream es)) < 2 ^ 32 -> forall stg,
  contents stg (table_name data_name) = Some (data_of es) -> contents stg (table_name pool_name) = Some (unwords (pool_stream es)) ->
  exists st', msi_load_string_table dt cptables cps locale_cp lstrcmpW heap heap_zero stg = Ret (Some st', Some 2) /\ wf st' /\ codepage st' = page /\
    (forall k e, es !! k = Some e -> view st' (1 + Z.of_nat k) = loaded e) /\ (forall j, 1 + zlen es <= j -> view st' j = None).
Proof using P Hheap Htotal Hzero Hpage Hvalid.
  intros Hg Hne Hdz Hpz stg Hdata Hpool. unfold msi_load_string_table. destruct names_ok as (Hn1 & Hn2 & Hl1 & Hl2 & _).
  change szStringPool with (pool_name ++ 0 :: []). rewrite (read_ok heap Hheap stg pool_name [] _ Hn2 Hl2 (Htotal 16 MAX_STREAM_NAME ltac:(lia) ltac:(done)) (Htotal 8 _ ltac:(lia) (zlen_nonneg _)) Hpz Hpool). cbn [obind]. change (negb (ERROR_SUCCESS =? ERROR_SUCCESS)) with false. cbv iota.
  change szStringData with (data_name ++ 0 :: []). rewrite (read_ok heap Hheap stg data_name [] _ Hn1 Hl1 (Htotal 16 MAX_STREAM_NAME ltac:(lia) ltac:(done)) (Htotal 8 _ ltac:(lia) (zlen_nonneg _)) Hdz Hdata). cbn [obind]. change (negb (ERROR_SUCCESS =? ERROR_SUCCESS)) with false. cbv iota.
  rewrite words_unwords, zlen_unwords in *. destruct (pool_even_all t es) as (k & Hk & Hke). assert (0 < zlen es) by (destruct es; [done|rewrite zlen_cons; pose proof (zlen_nonneg es); lia]).
  assert (Hps : zlen (pool_stream es) = (1 + k) * 2) by (unfold pool_stream; rewrite !zlen_cons; lia). rewrite Hps. replace (4 <? 2 * ((1 + k) * 2)) with true by lia.
  change (rd (pool_stream es) 1) with (Ret (u16 (Z.shiftr page 16))). change (rd (pool_stream es) 0) with (Ret (Z.land page 0xffff)). cbn [obind]. destruct (page_words page Hpage) as [Hw1 Hw2]. rewrite Hw1, Hw2. change (negb (0 =? 0)) with false. cbv iota.
  replace (2 * ((1 + k) * 2) / 4) with (1 + k) by (replace (2 * ((1 + k) * 2)) with ((1 + k) * 4) by lia; rewrite Z.div_mul by lia; done).
  assert (Hin : exists st, init_stringtable cptables heap_zero (1 + k) page = Some st).
  { unfold init_stringtable. rewrite Hzero. destruct Hvalid as [-> | ->]; [|rewrite andb_false_r]; eexists; reflexivity. }
  destruct Hin as (st & Ei). rewrite Ei. destruct (init_wf cptables heap_zero _ _ _ Ei) as (W & Hcp & Hmax & Hfree).
  destruct (load_loop_ok dt cptables cps locale_cp page t P lstrcmpW heap heap_zero Hheap Htotal (data_of es) (1 + k) (pool_stream es) Hps Hdz es st [Z.land page 0xffff; u16 (Z.shiftr page 16)] [] 1 1 (Datatypes.S (Z.to_nat (1 + k))))
    as (st' & E & W' & Hcp' & _ & _ & Hview & Hge); try done; try (unfold zlen in *; lia). change (zlen (@nil Z)) with 0 in E. rewrite E. cbn [obind]. by exists st'.
Qed.
End Roundtrip.

(** a storage in which the two streams can be written *)
Definition accepts : Prop := forall s n d, n = szStringData \/ n = szStringPool -> exists s', write_stream_data heap s n d true = Ret (ERROR_SUCCESS, s').
(** C16: saving and loading.  Take a table whose persistent strings are not empty,
    have only characters of the code page, encode to fewer than 2^31 bytes each
    and have counts below 65536, short or long and at any ids, such that no
    persistent string is followed by data of a single byte (see
    [one_byte_string_lost]), and let there be memory.  Then the table is written
    to two streams; when the storage accepts both, saving succeeds, and when it
    succeeds the table that is loaded from the storage gives every id the
    persistent string and count it had, while strings that are not persistent
    are gone. *)
Theorem string_table_roundtrip page t st stg : page_ok cptables cps locale_cp page t -> heap_ok heap -> heap_total heap -> (forall n, heap_zero n = true) ->
  0 <= page < 2 ^ 31 -> (page = CodePage.CP_ACP \/ CodePage.IsValidCodePage cptables page = true) -> codepage st = page -> wf st ->
  let es := drop 1 (strings st) in
  es <> [] -> Forall (good t) es -> tail_ok t es -> zlen (concat (map (saved t) es)) < 2 ^ 32 -> 4 + 2 * zlen (concat (map (pool_words t) es)) < 2 ^ 32 ->
  exists r stg', msi_save_string_table ct cs cptables cps locale_cp heap st stg = Ret (r, stg') /\
    (accepts -> r = ERROR_SUCCESS) /\
    (r = ERROR_SUCCESS -> exists st', msi_load_string_table dt cptables cps locale_cp lstrcmpW heap heap_zero stg' = Ret (Some st', Some 2) /\ wf st' /\ codepage st' = page /\
      forall id, 0 < id -> view st' id = persistent (view st id)).
Proof using Hlaws.
  intros P Hheap Htotal Hzero Hpage Hvalid Hcp W es Hne Hg Ht Hd Hp. rewrite (save_streams page t P Hheap Htotal st stg Hcp W Hg Ht). fold es. destruct names_ok as (Hn1 & Hn2 & Hl1 & Hl2 & Hn12).
  assert (Hname : is_Some (heap 16 MAX_STREAM_NAME)) by (by apply Htotal).
  assert (Hps : zlen (unwords (pool_stream page t es)) < 2 ^ 32) by (rewrite zlen_unwords; unfold pool_stream; rewrite !zlen_cons; lia).
  destruct (encode_table heap Hheap data_name [] Hn1 Hl1 Hname) as (n1 & E1 & _). destruct (encode_table heap Hheap pool_name [] Hn2 Hl2 Hname) as (n2 & E2 & _).
  change szStringData with (data_name ++ [0]). change szStringPool with (pool_name ++ [0]).
  destruct (write_stream_data heap stg (data_name ++ [0]) (concat (map (saved t) es)) true) as [[r1 s1]| |] eqn:W1; [|exfalso; unfold write_stream_data in W1; rewrite E1 in W1; cbn [obind] in W1; repeat case_match; done..]. cbn [obind].
  destruct (write_stream_data heap s1 (pool_name ++ [0]) (unwords (pool_stream page t es)) true) as [[r2 s2]| |] eqn:W2; [|exfalso; unfold write_stream_data in W2; rewrite E2 in W2; cbn [obind] in W2; repeat case_match; done..].
  destruct (Z.eqb_spec r1 0) as [->|Hr1]; cbn [negb obind].
  - eexists _, s2. split; [done|]. split.
    + intros Hall. destruct (Hall s1 (pool_name ++ [0]) (unwords (pool_stream page t es)) ltac:(by right)) as (s' & E). rewrite W2 in E. injection E as -> _. done.
    + intros Hr. destruct (Z.eqb_spec r2 0) as [->|]; cbn [negb] in Hr; [|done]. destruct (write_ok heap Hheap _ _ [] _ _ Hn1 Hl1 Hname W1) as [C1 _]. destruct (write_ok heap Hheap _ _ [] _ _ Hn2 Hl2 Hname W2) as [C2 O2]. rewrite <- O2 in C1 by done.
      destruct (load_streams page t P Hheap Htotal Hzero Hpage Hvalid es Hg Hne Hd Hps s2 C1 C2) as (st' & E & W' & Hcp' & Hv & Hge). exists st'. conj; try done. intros id Hid.
      destruct (es !! Z.to_nat (id - 1)) as [e|] eqn:Ee.
      * pose proof (Hv _ _ Ee) as Hvi. rewrite (view_loaded st _ e W Ee) in Hvi. replace (1 + Z.of_nat (Z.to_nat (id - 1))) with id in Hvi by lia. done.
      * apply lookup_ge_None_1 in Ee. rewrite Hge by (unfold zlen; lia). unfold view. rewrite (nthZ_out zero_entry); [by rewrite andb_false_r|]. unfold es in Ee. rewrite length_drop in Ee. unfold zlen. lia.
  - eexists _, s1. split; [done|]. split; [|done]. intros Hall. destruct (Hall stg (data_name ++ [0]) (concat (map (saved t) es)) ltac:(by left)) as (s' & E). rewrite W1 in E. injection E as -> _. done.
Qed.

(** ** Ids *)

(** C18: ids keep their strings.  Through any sequence of additions to a new table
    the chains stay exact, every addition returns -1 (no memory) or an id, and at
    the end every id still looks up the string it was returned for, or one that
    compares equal to it. *)
Theorem string_ids_kept entries cp st ops : heap_ok heap -> init_stringtable cptables heap_zero entries cp = Some st -> Forall op_ok ops -> total ops < 2 ^ 32 ->
  exists ids st', add_all lstrcmpW heap heap_zero st ops = Ret (ids, st') /\ wf st' /\
    Forall2 (fun id op => id = -1 \/ exists s, msi_string_lookup_id st' id = Ret (Some s) /\ (text s = fst (fst op) \/ lstrcmpW (fst (fst op)) (text s) = 0)) ids ops.
Proof using.
  intros Hheap Hi Hops Hsum. destruct (init_wf cptables heap_zero _ _ _ Hi) as (W & _ & _ & Hfree).
  assert (Hb : bounded st 0). { intros i a b u Hv. unfold view in Hv. rewrite Hfree in Hv. by rewrite andb_false_r in Hv. }
  destruct (add_all_ok lstrcmpW heap heap_zero Hheap ops st 0 W Hb ltac:(lia) Hops ltac:(lia)) as (ids & st' & E & W' & _ & _ & Hall). exists ids, st'. conj; [done|done|].
  eapply Forall2_impl; [|exact Hall]. intros id op [->|(y & Hy & Hcase)]; [by left|]. right. assert (Hl : live (strings st') id) by (apply view_live; [done|by eexists]).
  destruct (lookup_view st' id W' ltac:(destruct Hl; lia)) as (s & Es & Et). rewrite Hy in Et. destruct s as [s|]; [|done]. cbn in Et. injection Et as Et. exists s. split; [done|]. rewrite Et. exact Hcase.
Qed.

(** C17: what one addition does, and that the string is found.  When an entry of
    the same hash compares equal, its count grows and its id is returned; when
    there is none, a free entry gets the string and the count.  The addition is
    refused, with -1 and without a change to any id, only when no entry compares
    equal and there is no memory for the copy of the string, or every entry is
    used and there is no memory for a larger array.  Every other id keeps its
    string and counts, the chains stay exact, and after an addition a search for
    the string returns the id.  The counts are to fit in 32 bits. *)
Theorem string_added_found st u refcount p : heap_ok heap -> wf st -> lstrcmpW u u = 0 -> cstring u -> u <> [] -> 0 < refcount < 2 ^ 32 -> (forall i, live (strings st) i -> counts_ok (nthZ zero_entry (strings st) i) refcount) ->
  exists id st', msi_addstringW lstrcmpW heap heap_zero st 0 (Some (u ++ [0])) (-1) refcount p = Ret (id, st') /\ wf st' /\ added lstrcmpW heap heap_zero st st' u refcount p id /\
    (id <> -1 -> msi_string2idW lstrcmpW st' (u ++ [0]) = Ret (ERROR_SUCCESS, id)).
Proof using.
  intros Hheap W Hrefl Hu Hne Hr Hc. destruct (addstringW_ok lstrcmpW heap heap_zero Hheap st u [] refcount p W Hu Hne Hr Hc) as (id & st' & E & W' & _ & Ha & Hf). exists id, st'. conj; try done. intros Hid. by apply Hf.
Qed.

(** msi_id2stringW is right for a buffer of the length of the string and its
    terminator only: with any other it reads past the string or writes past the
    buffer. *)
Theorem id2stringW_exact st id u buf : msi_string_lookup_id st id = Ret (Some (u ++ [0])) -> cstring u ->
  msi_id2stringW st id (Some buf) (zlen buf) = if zlen buf =? zlen u + 1 then Ret (ERROR_SUCCESS, u ++ [0], zlen u + 1) else Fault.
Proof using.
  intros Hl Hu. unfold msi_id2stringW. rewrite Hl. cbn [obind]. rewrite strlen_app by done. cbn [obind]. pose proof (zlen_nonneg u). pose proof (zlen_nonneg buf). unfold read_bytes. rewrite zlen_app. change (zlen [0]) with 1. destruct (Z.eqb_spec (zlen buf) (zlen u + 1)) as [E|E].
  - rewrite E, Z.ltb_irrefl. replace ((0 <=? zlen u + 1) && (zlen u + 1 <=? zlen u + 1)) with true by lia. cbn [obind]. rewrite take_ge by (unfold zlen; rewrite length_app; simpl; lia). rewrite put_bytes_0 by (rewrite zlen_app; change (zlen [0]) with 1; lia). cbn [obind].
    rewrite drop_ge by (unfold zlen in E; rewrite length_app; simpl; lia). by rewrite app_nil_r.
  - destruct (Z.ltb_spec (zlen buf) (zlen u + 1)) as [Hs|Hs].
    + replace ((0 <=? zlen u + 1) && (zlen u + 1 <=? zlen u + 1)) with true by lia. cbn [obind]. rewrite take_ge by (unfold zlen; rewrite length_app; simpl; lia). unfold put_bytes. rewrite zlen_app. change (zlen [0]) with 1.
      replace ((0 <=? 0) && (0 + (zlen u + 1) <=? zlen buf)) with false by lia. done.
    + replace ((0 <=? zlen buf) && (zlen buf <=? zlen u + 1)) with false by lia. done.
Qed.

(** the length that a caller passes is not used for the search: a prefix of a
    string of the table gets that string's id. *)
Theorem addstringW_prefix st u k id len refcount p : cstring u -> u <> [] -> msi_string2idW lstrcmpW st (u ++ 0 :: k) = Ret (ERROR_SUCCESS, id) ->
  msi_addstringW lstrcmpW heap heap_zero st 0 (Some (u ++ 0 :: k)) len refcount p = let! st' := bump st id refcount p in Ret (id, st').
Proof using.
  intros Hu Hne Hf. unfold msi_addstringW. destruct (rd_string u k Hne Hu) as (c & E0 & E1). rewrite E0. cbn [obind]. rewrite E1. unfold find_slot. change (0 <? 0) with false. cbv iota. rewrite Hf. cbn [obind]. done.
Qed.

(** C19: names of streams.  A table's name is packed two characters to one; when
    the packed name has up to 29 characters it is stored after the mark of a
    table, and decode_streamname gives back the mark and the name, if the name
    has no character of the range of packed ones, 0x3800 to 0x483f.  A longer
    name is refused without a store outside of the 31 characters.  A character
    of that range is stored as it is and decoded to other characters. *)
Theorem streamname_roundtrip nm k out : heap_ok heap -> is_Some (heap 16 MAX_STREAM_NAME) -> cstring nm -> zlen nm + 3 <= zlen out ->
  ((length (packed nm) <= 29)%nat -> exists enc, encode_streamname heap true (nm ++ 0 :: k) = Ret (Some enc) /\ text enc = 0x4840 :: packed nm /\
    (Forall plain_char nm -> exists rest, decode_streamname enc out = Ret (zlen nm + 1, 0x4840 :: nm ++ 0 :: rest)) /\
    (forall c, nm = [c] -> 0x3800 <= c < 0x4840 -> exists n out', decode_streamname enc out = Ret (n, out') /\ text out' <> 0x4840 :: nm)) /\
  ((30 <= length (packed nm))%nat -> encode_streamname heap true (nm ++ 0 :: k) = Ret None).
Proof using.
  intros Hheap Hh Hc Ho. split; [|intros Hl; by apply encode_table_none]. intros Hl0. assert (Hl : (length (packed nm) < 30)%nat) by lia.
  destruct (encode_table heap Hheap nm k Hc Hl Hh) as (r & E & Et). exists r. split; [done|]. split; [exact Et|].
  assert (Hr : exists q, r = (0x4840 :: packed nm) ++ 0 :: q).
  { destruct Hh as [o Eo]. unfold encode_streamname in E. cbn [obind] in E. rewrite Eo in E. pose proof (proj1 (Hheap _ _ _ Eo)) as Hz. destruct o as [|x om]; [done|]. rewrite zlen_cons in Hz. unfold MAX_STREAM_NAME in Hz.
    change (wr (x :: om) 0 18496) with (Ret (18496 :: om)) in E. cbn [obind] in E. change (Z.to_nat (MAX_STREAM_NAME - 1)) with 30%nat in E.
    pose proof (encode_loop_ok nm k 30 [0x4840] om Hc Hl ltac:(unfold zlen in *; lia)) as E2. cbn [app] in E2. change (zlen [18496]) with 1 in E2. rewrite E2 in E. injection E as <-. by eexists. }
  destruct Hr as (q & ->). pose proof (zlen_nonneg nm). destruct out as [|x om]; [change (zlen (@nil Z)) with 0 in Ho; lia|]. rewrite zlen_cons in Ho.
  assert (Ed0 : decode_streamname ((0x4840 :: packed nm) ++ 0 :: q) (x :: om) = decode_loop (packed nm ++ 0 :: q) ([0x4840] ++ om) (zlen [0x4840])) by done. rewrite Ed0. split.
  - intros Hp. rewrite (decode_loop_ok nm q [0x4840] om Hp ltac:(lia)). eexists. change (zlen [18496]) with 1. rewrite Z.add_comm. done.
  - intros c -> Hcr. change (zlen [c]) with 1 in Ho. assert (Ep : packed [c] = [c]) by (cbn [packed]; unfold single, mime; by replace (c <? 0x80) with false by lia). rewrite Ep.
    destruct om as [|y0 [|y1 [|y2 om]]]; try (unfold zlen in Ho; simpl in Ho; lia). cbn [app decode_loop]. replace (c =? 0) with false by lia. replace ((0x3800 <=? c) && (c <? 0x4840)) with true by lia.
    assert (Hm : forall v, 0 < mime2utf v < 0x80 \/ v < 0) by (intros v; unfold mime2utf; repeat case_match; lia).
    assert (W1 : forall v, wr (0x4840 :: y0 :: y1 :: y2 :: om) (zlen [0x4840]) v = Ret (0x4840 :: v :: y1 :: y2 :: om)) by (intros v; by apply (wr_app [0x4840])).
    assert (W2 : forall a v, wr (0x4840 :: a :: y1 :: y2 :: om) (zlen [0x4840] + 1) v = Ret (0x4840 :: a :: v :: y2 :: om)) by (intros a v; by apply (wr_1 [0x4840])).
    assert (W3 : forall a b v, wr (0x4840 :: a :: b :: y2 :: om) (zlen [0x4840] + 1 + 1) v = Ret (0x4840 :: a :: b :: v :: om)) by (intros a b v; by apply (wr_2 [0x4840])).
    destruct (Z.leb_spec 0x4800 c).
    + rewrite W1. cbn [obind]. change (0 =? 0) with true. cbv iota. rewrite W2. eexists _, _. split; [reflexivity|].
      destruct (Hm (c - 0x4800)); [|lia]. cbn [text]. change (18496 =? 0) with false. cbv iota. replace (mime2utf (c - 18432) =? 0) with false by lia. injection. lia.
    + assert (H1 : 0 <= Z.land (c - 0x3800) 0x3f) by (apply Z.land_nonneg; lia). destruct (Hm (Z.land (c - 0x3800) 0x3f)) as [Hm1|]; [|lia].
      rewrite W1. cbn [obind]. rewrite W2. cbn [obind]. change (0 =? 0) with true. cbv iota. rewrite ?W3. eexists _, _. split; [reflexivity|].
      cbn [text]. change (18496 =? 0) with false. cbv iota. replace (mime2utf (Z.land (c - 14336) 63) =? 0) with false by lia. injection. lia.
Qed.
End Theorems.

(** ** Concrete data *)

(** a storage in memory, with the position in the stream that was used last *)
Record mem := mkMem { files : list (list Z * list Z); pos : Z }.
Fixpoint mget (s : list (list Z * list Z)) (n : list Z) : option (list Z) :=
  match s with [] => None | (m, l) :: s => if decide (m = n) then Some l else mget s n end.
Instance mem_storage : IStorage mem := {
  OpenStream s n := bool_decide (is_Some (mget (files s) n));
  CreateStream s n := Some (mkMem ((n, []) :: files s) 0);
  StreamSize s n := option_map zlen (mget (files s) n);
  StreamRead s n k := option_map (take (Z.to_nat k)) (mget (files s) n);
  StreamSetSize s n k := Some (mkMem ((n, replicate (Z.to_nat k) 0) :: files s) (pos s));
  StreamSeek s n k := Some (mkMem (files s) k);
  StreamWrite s n data :=
    let l := default [] (mget (files s) n) in
    let p := Z.to_nat (pos s) in
    Some (mkMem ((n, take p l ++ data ++ drop (p + length data) l) :: files s) (pos s + zlen data), zlen data) }.
Lemma mget_here s n l : mget ((n, l) :: s) n = Some l.
Proof. cbn [mget]. by rewrite decide_True. Qed.
Lemma mget_other s n l m : m <> n -> mget ((n, l) :: s) m = mget s m.
Proof. intros H. cbn [mget]. by rewrite decide_False by congruence. Qed.
Instance mem_laws : StorageLaws mem.
Proof.
  refine {| contents s := mget (files s); position s _ := pos s |}.
  - done.
  - intros s n s' [= <-]. cbn [files]. split; [rewrite mget_here; by eexists|intros m Hm; by apply mget_other].
  - intros s n l E. cbn. by rewrite E.
  - intros s n l k E. cbn. by rewrite E.
  - intros s n k s' _ Hk [= <-]. cbn [files]. split; [|intros m Hm; by apply mget_other]. exists (replicate (Z.to_nat k) 0). split; [apply mget_here|unfold zlen; rewrite length_replicate; lia].
  - intros s n k s' _ _ [= <-]. done.
  - intros s n l data s' E _ _ [= <-]. cbn [files]. rewrite E. split; [apply mget_here|intros m Hm; by apply mget_other].
Defined.
(** a heap that always has memory, filled with zeros *)
Definition big_heap (w n : Z) : option (list Z) := if (0 <? w) && (0 <=? n) then Some (replicate (Z.to_nat n) 0) else None.
Lemma big_heap_ok : heap_ok big_heap.
Proof.
  intros w n s. unfold big_heap. destruct (Z.ltb_spec 0 w), (Z.leb_spec 0 n); try done. intros [= <-]. split; [unfold zlen; rewrite length_replicate; lia|]. apply CodePageCalls.replicate_Forall. split; [lia|apply Z.pow_pos_nonneg; lia].
Qed.
Lemma big_heap_total : heap_total big_heap.
Proof. intros w n Hw Hn. unfold big_heap. replace ((0 <? w) && (0 <=? n)) with true by lia. by eexists. Qed.
Definition compare (a b : list Z) : Z := if decide (a = b) then 0 else 1.
Definition always (n : Z) : bool := true.
Abbreviation pages := CodePageCalls.pages.
Abbreviation current := CodePageCalls.current.

Definition empty_table : string_table := mkTab 1 1 0 (replicate 257 (-1)) [zero_entry].
Definition fresh (entries : Z) : string_table := default empty_table (init_stringtable pages always entries 1252).
Definition table_of (entries : Z) (ops : list (list Z * Z * StringPersistence)) : string_table :=
  match add_all compare big_heap always (fresh entries) ops with Ret (_, st) => st | _ => empty_table end.
Lemma fresh_init entries : init_stringtable pages always entries 1252 = Some (fresh entries).
Proof. done. Qed.
Lemma table_of_wf entries ops : Forall op_ok ops -> total ops < 2 ^ 32 -> wf (table_of entries ops).
Proof.
  intros Ho Ht. destruct (init_wf pages always _ _ _ (fresh_init entries)) as (W & _ & _ & Hfree).
  assert (Hb : bounded (fresh entries) 0). { intros i a b u Hv. unfold view in Hv. rewrite Hfree in Hv. by rewrite andb_false_r in Hv. }
  destruct (add_all_ok compare big_heap always big_heap_ok ops (fresh entries) 0 W Hb ltac:(lia) Ho ltac:(lia)) as (ids & st' & E & W' & _). unfold table_of. by rewrite E.
Qed.
(** AA twice, PD, which has the same hash, and a string that is not persistent *)
Definition sample_ops : list (list Z * Z * StringPersistence) :=
  [([65; 65], 1, StringPersistent); ([80; 68], 3, StringPersistent); ([120], 1, StringNonPersistent); ([65; 65], 2, StringPersistent)].
Definition sample : string_table := table_of 2 sample_ops.
Lemma sample_ops_ok : Forall op_ok sample_ops.
Proof. repeat (constructor; [split; [repeat (constructor; [done|]); constructor|done]|]). constructor. Qed.
Lemma sample_wf : wf sample.
Proof. apply table_of_wf; [exact sample_ops_ok|reflexivity]. Qed.
Lemma latin_page : page_ok pages current None 1252 (CodePage.Sbcs CodePageCalls.latin).
Proof. split; [done|done|exact CodePageCalls.latin_ok|exact CodePageCalls.latin_mb_ok|done|done]. Qed.
Lemma string_ids_kept_witness : exists ids st', add_all compare big_heap always (fresh 2) sample_ops = Ret (ids, st') /\ wf st' /\
  Forall2 (fun id op => id = -1 \/ exists s, msi_string_lookup_id st' id = Ret (Some s) /\ (text s = fst (fst op) \/ compare (fst (fst op)) (text s) = 0)) ids sample_ops.
Proof. apply (string_ids_kept pages compare big_heap always 2 1252 (fresh 2) sample_ops); [exact big_heap_ok|exact (fresh_init 2)|exact sample_ops_ok|reflexivity]. Defined.
Lemma string_added_found_witness : exists id st', msi_addstringW compare big_heap always (fresh 2) 0 (Some ([65; 65] ++ [0])) (-1) 1 StringPersistent = Ret (id, st') /\ wf st' /\
  added compare big_heap always (fresh 2) st' [65; 65] 1 StringPersistent id /\ (id <> -1 -> msi_string2idW compare st' ([65; 65] ++ [0]) = Ret (ERROR_SUCCESS, id)).
Proof.
  apply string_added_found; [exact big_heap_ok|exact (proj1 (init_wf pages always _ _ _ (fresh_init 2)))|reflexivity|repeat (constructor; [lia|]); constructor|discriminate|split; reflexivity|].
  intros i [_ Hi]. destruct (init_wf pages always _ _ _ (fresh_init 2)) as (_ & _ & _ & Hf). rewrite Hf in Hi. discriminate.
Defined.
Lemma streamname_roundtrip_witness :
  (exists enc, encode_streamname big_heap true ([70; 105; 108; 101] ++ 0 :: []) = Ret (Some enc) /\ text enc = 0x4840 :: packed [70; 105; 108; 101] /\
    exists rest, decode_streamname enc (replicate 8 7) = Ret (5, 0x4840 :: [70; 105; 108; 101] ++ 0 :: rest)) /\
  encode_streamname big_heap true (replicate 59 70 ++ 0 :: []) = Ret None.
Proof.
  split.
  - destruct (proj1 (streamname_roundtrip big_heap [70; 105; 108; 101] [] (replicate 8 7) big_heap_ok (ex_intro _ (replicate 31 0) eq_refl) ltac:(repeat (constructor; [lia|]); constructor) ltac:(vm_compute; discriminate)))
      as (enc & E & Et & Hp & _); [vm_compute; lia|]. exists enc. split; [exact E|]. split; [exact Et|]. apply Hp. repeat (constructor; [split; lia|]); constructor.
  - apply (streamname_roundtrip big_heap (replicate 59 70) [] (replicate 70 7) big_heap_ok (ex_intro _ (replicate 31 0) eq_refl)).
    + cbn. repeat (constructor; [lia|]). constructor.
    + vm_compute. discriminate.
    + vm_compute. lia.
Defined.
Lemma id2stringW_exact_witness : msi_id2stringW sample 1 (Some [0; 0]) (zlen [0; 0]) = Fault.
Proof. refine (id2stringW_exact sample 1 [65; 65] [0; 0] _ _); [vm_compute; reflexivity|repeat (constructor; [lia|]); constructor]. Defined.
Lemma string_table_roundtrip_witness : exists r stg', msi_save_string_table [0; 0] 0 pages current None big_heap sample (mkMem [] 0) = Ret (r, stg') /\
  (accepts big_heap -> r = ERROR_SUCCESS) /\
  (r = ERROR_SUCCESS -> exists st', msi_load_string_table [] pages current None compare big_heap always stg' = Ret (Some st', Some 2) /\ wf st' /\ codepage st' = 1252 /\
    forall id, 0 < id -> view st' id = persistent (view sample id)).
Proof.
  apply (string_table_roundtrip [0; 0] 0 [] pages current None compare big_heap always 1252 (CodePage.Sbcs CodePageCalls.latin) sample (mkMem [] 0));
    [exact latin_page|exact big_heap_ok|exact big_heap_total|reflexivity|split; [lia|reflexivity]|right; reflexivity|vm_compute; reflexivity|exact sample_wf|vm_compute; discriminate| | |vm_compute; reflexivity|vm_compute; reflexivity].
  - assert (E : drop 1 (strings sample) = [mkStr (-1) 3 0 (Some [65; 65; 0]); mkStr 1 3 0 (Some [80; 68; 0]); mkStr (-1) 0 1 (Some [120; 0])]) by (vm_compute; reflexivity). rewrite E.
    assert (G : forall a b, 0 < a < 128 -> 0 < b < 128 -> CodePageRead.representable (CodePage.Sbcs CodePageCalls.latin) a -> CodePageRead.representable (CodePage.Sbcs CodePageCalls.latin) b -> good_text (CodePage.Sbcs CodePageCalls.latin) [a; b]).
    { intros a b Ha Hb Ra Rb. split; [|split; [discriminate|split]]; repeat (constructor; [lia || assumption || (split; [lia|change (2 ^ 16) with 65536; lia])|]); constructor. }
    constructor; [right; split; [exists [65; 65], []; split; [reflexivity|apply G; [lia|lia|reflexivity|reflexivity]]|split; [split; reflexivity|reflexivity]]|].
    constructor; [right; split; [exists [80; 68], []; split; [reflexivity|apply G; [lia|lia|reflexivity|reflexivity]]|split; [split; reflexivity|reflexivity]]|].
    constructor; [left; reflexivity|constructor].
  - vm_compute. split; [right; discriminate|split; [right; discriminate|split; [left; reflexivity|exact I]]].
Defined.

(** ** Strings that are lost, and searches that do not end *)
Definition save (st : string_table) : outcome (Z * mem) := msi_save_string_table [0; 0] 0 pages current None big_heap st (mkMem [] 0).
Definition load (stg : mem) : outcome (option string_table * option Z) := msi_load_string_table [] pages current None compare big_heap always stg.
Definition reload (st : string_table) : outcome (option string_table * option Z) :=
  let! (r, stg) := save st in if r =? ERROR_SUCCESS then load stg else Fault.
(** a string of one byte that is saved last can be lost: here the save succeeds,
    the string before it takes its terminator along, and the table that is loaded
    has no string at its id. *)
Theorem one_byte_string_lost :
  let st := table_of 3 [([65; 65], 1, StringPersistent); ([99], 1, StringPersistent)] in
  view st 2 = Some ([99], 1, 0) /\
  exists st' n, reload st = Ret (Some st', n) /\ view st' 1 = Some ([65; 65], 1, 0) /\ view st' 2 = None.
Proof. split; [vm_compute; reflexivity|]. eexists _, _. split; [vm_compute; reflexivity|]. split; vm_compute; reflexivity. Qed.

(** a pool whose only string has no references *)
Definition unreferenced : mem :=
  mkMem [(table_name data_name, [65; 65]); (table_name pool_name, unwords [1252; 0; 2; 0])] 0.
(** an entry that a file gives no references is chained but free.  The next
    string of the same hash takes the entry and links it to itself, and a search
    for a third string of that hash does not end. *)
Theorem search_spins : exists st st' n, load unreferenced = Ret (Some st, n) /\
  msi_addstringW compare big_heap always st 0 (Some [80; 68; 0]) (-1) 1 StringPersistent = Ret (1, st') /\
  hash_next (nthZ zero_entry (strings st') 1) = 1 /\ forall fuel, find_chain compare fuel (strings st') [85; 69; 0] 1 = Spin.
Proof.
  eexists _, _, _. split; [vm_compute; reflexivity|]. split; [vm_compute; reflexivity|]. split; [reflexivity|]. induction fuel as [|fuel IH]; [reflexivity|exact IH].
Qed.
(** an empty length with references at the end of the pool is taken for the
    start of a long one, whose second half is read past the pool. *)
Theorem load_reads_past_pool : load (mkMem [(table_name data_name, []); (table_name pool_name, unwords [1252; 0; 0; 1])] 0) = Fault.
Proof. vm_compute. reflexivity. Qed.
End MsiStringCalls.
