(* ===== verification/Dpa.v ===== *)
(** * Dynamic arrays (dlls/comctl32/comctl32undoc.c, include/commctrl.h)

    DPA: arrays of pointers, with sort, search and merge.  DSA: arrays of items
    of a fixed size.  A control structure is a record; the block it points to is
    its address and its cells (pointers of a DPA, bytes of a DSA), [None] for
    NULL.  The heap is an interface: for a request it gives an address or NULL.
    The callbacks of an application do not touch the arrays: a compare function
    is a function of two pointers, the other callbacks carry a state of their
    own.  The two arrays of a merge, and an item and the array it is copied to,
    do not overlap. *)
From S2P Require Import Prelude.

Module Dpa.

(** ** The heap *)
Class HeapOps := {
  COMCTL32_hHeap : Z;
  heap_alloc : Z -> Z -> option Z;         (* heap, size *)
  heap_realloc : Z -> Z -> Z -> option Z;  (* heap, address, size *)
  heap_free : Z -> Z -> bool;              (* heap, address *)
}.
(** the heaps of ntdll refuse a NULL handle *)
Class HeapLaws `{HeapOps} : Prop := {
  heap_null sz : heap_alloc 0 sz = None;
}.

Record block := Block { blk_addr : Z; blk_cells : list Z }.

(** sizeof(LPVOID) *)
Definition psize : Z := 4.

(** quotient of ints *)
Definition div_int (a b : Z) : outcome Z :=
  if (b =? 0) || ((a =? - 2 ^ 31) && (b =? -1)) then Fault else Ret (Z.quot a b).

(** memmove of [n] cells from [src] to [dst] inside a block *)
Definition memmove (l : list Z) (dst src n : Z) : outcome (list Z) :=
  if (0 <=? src) && (0 <=? n) && (src + n <=? zlen l)
  then put_bytes l dst (take (Z.to_nat n) (drop (Z.to_nat src) l)) else Fault.

Section Heap.
Context `{HeapOps}.

(** HeapAlloc with HEAP_ZERO_MEMORY of [sz] bytes for cells of [esz] bytes *)
Definition HeapAlloc (heap esz sz : Z) : option block :=
  match heap_alloc heap sz with
  | Some a => Some (Block a (replicate (Z.to_nat (sz / esz)) 0))
  | None => None
  end.
(** HeapReAlloc with HEAP_ZERO_MEMORY; a NULL block is allocated *)
Definition HeapReAlloc (heap esz : Z) (b : option block) (sz : Z) : option block :=
  match b with
  | None => HeapAlloc heap esz sz
  | Some b =>
    match heap_realloc heap (blk_addr b) sz with
    | Some a => Some (Block a (resize (Z.to_nat (sz / esz)) 0 (blk_cells b)))
    | None => None
    end
  end.

Definition COMCTL32_Alloc (esz dwSize : Z) : option block := HeapAlloc COMCTL32_hHeap esz dwSize.
Definition COMCTL32_ReAlloc (esz : Z) (lpSrc : option block) (dwSize : Z) : option block :=
  match lpSrc with
  | Some _ => HeapReAlloc COMCTL32_hHeap esz lpSrc dwSize
  | None => HeapAlloc COMCTL32_hHeap esz dwSize
  end.
Definition COMCTL32_Free (lpMem : Z) : bool := heap_free COMCTL32_hHeap lpMem.

(** ** Pointer arrays *)
Record DPA := mkDPA { nItemCount : Z; ptrs : option block; hHeap : Z; nGrow : Z; nMaxCount : Z }.

Definition with_count (d : DPA) (n : Z) : DPA := mkDPA n (ptrs d) (hHeap d) (nGrow d) (nMaxCount d).
(** a call with a NULL handle only returns its failure *)
Definition on_handle {D R} (h : option D) (failure : R) (k : D -> outcome (D * R)) : outcome (option D * R) :=
  match h with
  | None => Ret (None, failure)
  | Some d => let! (d, r) := k d in Ret (Some d, r)
  end.
Definition cells (d : DPA) : list Z := match ptrs d with Some b => blk_cells b | None => [] end.
(** a change of the cells *)
Definition upd_cells (d : DPA) (f : list Z -> outcome (list Z)) : outcome DPA :=
  match ptrs d with
  | None => Fault
  | Some b => let! c := f (blk_cells b) in
      Ret (mkDPA (nItemCount d) (Some (Block (blk_addr b) c)) (hHeap d) (nGrow d) (nMaxCount d))
  end.

(** g * ((INT)(i / g) + 1) *)
Definition round_up (g i : Z) : outcome Z :=
  let! q := div_int i g in
  let! q := add_int q 1 in
  mul_int g q.

Definition DPA_Create (grow : Z) : outcome (option (Z * DPA)) :=
  match heap_alloc COMCTL32_hHeap 20 with
  | None => Ret None
  | Some a =>
    let g := Z.max 8 grow in
    let! m := mul_int g 2 in
    Ret (Some (a, mkDPA 0 (COMCTL32_Alloc psize (u32 (m * psize))) COMCTL32_hHeap g m))
  end.

Definition DPA_CreateEx (grow heap : Z) : outcome (option (Z * DPA)) :=
  match (if heap =? 0 then heap_alloc COMCTL32_hHeap 20 else heap_alloc heap 20) with
  | None => Ret None
  | Some a =>
    let g := Z.min 8 grow in
    let! m := mul_int g 2 in
    Ret (Some (a, mkDPA 0 (HeapAlloc heap psize (u32 (m * psize)))
                    (if heap =? 0 then COMCTL32_hHeap else heap) g m))
  end.

(** the structure is at [addr] *)
Definition DPA_Destroy (addr : Z) (hdpa : option DPA) : bool :=
  match hdpa with
  | None => false
  | Some d =>
    if match ptrs d with Some b => negb (heap_free (hHeap d) (blk_addr b)) | None => false end
    then false else heap_free (hHeap d) addr
  end.

Definition DPA_Grow (hdpa : option DPA) (grow : Z) : outcome (option DPA * bool) :=
  on_handle hdpa false (fun d =>
    Ret (mkDPA (nItemCount d) (ptrs d) (hHeap d) (Z.max 8 grow) (nMaxCount d), true)).

(** the target of a clone: a new array, another one or the source itself *)
Inductive clone_target := CloneNew | CloneOver (d : DPA) | CloneSelf.
(** the copy of [src] into [t]: frees the old block, allocates and copies *)
Definition clone_into (src t : DPA) (self : bool) : outcome DPA :=
  let t := match ptrs t with Some _ => mkDPA 0 None (hHeap t) (nGrow t) 0 | None => t end in
  let src := if self then t else src in
  let! i := sub_int (nItemCount src) 1 in
  let! n := round_up (nGrow t) i in
  let b := HeapAlloc (hHeap t) psize (u32 (n * psize)) in
  let t := mkDPA (nItemCount src) b (hHeap t) (nGrow t) n in
  if u32 (nItemCount src * psize) =? 0 then Ret t else
  upd_cells t (fun c =>
    let! data := read_bytes (cells src) (u32 (nItemCount src * psize) / psize) in
    put_bytes c 0 data).
Definition DPA_Clone (hdpa : option DPA) (hdpaNew : clone_target) : outcome (option DPA) :=
  match hdpa with
  | None => Ret None
  | Some d =>
    let! t :=
      match hdpaNew with
      | CloneNew =>
        match heap_alloc (hHeap d) 20 with
        | None => Fault
        | Some _ => Ret (mkDPA 0 None (hHeap d) (nGrow d) 0)
        end
      | CloneOver t => Ret t
      | CloneSelf => Ret d
      end in
    let! t := clone_into d t (match hdpaNew with CloneSelf => true | _ => false end) in
    Ret (Some t)
  end.

Definition DPA_GetPtr (hdpa : option DPA) (i : Z) : outcome Z :=
  match hdpa with
  | None => Ret 0
  | Some d =>
    match ptrs d with
    | None => Ret 0
    | Some b => if (i <? 0) || (nItemCount d <=? i) then Ret 0 else rd (blk_cells b) i
    end
  end.

(** the loop from [i], [n] items to go *)
Fixpoint index_loop (n : nat) (c : list Z) (i p : Z) : outcome Z :=
  match n with
  | O => Ret (-1)
  | S n => let! q := rd c i in if q =? p then Ret i else index_loop n c (i + 1) p
  end.
Definition DPA_GetPtrIndex (hdpa : option DPA) (p : Z) : outcome Z :=
  match hdpa with
  | None => Fault
  | Some d =>
    match ptrs d with
    | None => Ret (-1)
    | Some b => index_loop (Z.to_nat (nItemCount d)) (blk_cells b) 0 p
    end
  end.

(** room for one more item; [None]: no memory *)
Definition grow_ptrs (d : DPA) : outcome (option DPA) :=
  if nMaxCount d <=? nItemCount d then
    let! n := add_int (nMaxCount d) (nGrow d) in
    match HeapReAlloc (hHeap d) psize (ptrs d) (u32 (n * psize)) with
    | None => Ret None
    | Some b => Ret (Some (mkDPA (nItemCount d) (Some b) (hHeap d) (nGrow d) n))
    end
  else Ret (Some d).
(** the array and the index where the new pointer goes *)
Definition insert_room (d : DPA) (i : Z) : outcome (option (DPA * Z)) :=
  match ptrs d with
  | None =>
    let! g := mul_int 2 (nGrow d) in
    match HeapAlloc (hHeap d) psize (u32 (g * psize)) with
    | None => Ret None
    | Some b => let! m := mul_int (nGrow d) 2 in
        Ret (Some (mkDPA (nItemCount d) (Some b) (hHeap d) (nGrow d) m, 0))
    end
  | Some _ =>
    let! r := grow_ptrs d in
    match r with
    | None => Ret None
    | Some d =>
      if nItemCount d <=? i then Ret (Some (d, nItemCount d)) else
      let! d := upd_cells d (fun c => memmove c (i + 1) i (u32 ((nItemCount d - i) * psize) / psize)) in
      Ret (Some (d, i))
    end
  end.
Definition insert_ptr (d : DPA) (i p : Z) : outcome (DPA * Z) :=
  if i <? 0 then Ret (d, -1) else
  let! r := insert_room d i in
  match r with
  | None => Ret (d, -1)
  | Some (d, nIndex) =>
    let! n := add_int (nItemCount d) 1 in
    let! d := upd_cells (with_count d n) (fun c => wr c nIndex p) in
    Ret (d, nIndex)
  end.
Definition DPA_InsertPtr (hdpa : option DPA) (i p : Z) : outcome (option DPA * Z) :=
  on_handle hdpa (-1) (fun d => insert_ptr d i p).

(** the array with an index [i]; [None]: no memory *)
Definition set_room (d : DPA) (i : Z) : outcome (option DPA) :=
  if nItemCount d <=? i then
    let! i1 := add_int i 1 in
    if i <? nMaxCount d then Ret (Some (with_count d i1)) else
    let! n := round_up (nGrow d) i in
    match HeapReAlloc (hHeap d) psize (ptrs d) (u32 (n * psize)) with
    | None => Ret None
    | Some b => Ret (Some (mkDPA n (Some b) (hHeap d) (nGrow d) (nMaxCount d)))
    end
  else Ret (Some d).
Definition DPA_SetPtr (hdpa : option DPA) (i p : Z) : outcome (option DPA * bool) :=
  on_handle hdpa false (fun d =>
    if i <? 0 then Ret (d, false) else
    let! r := set_room d i in
    match r with
    | None => Ret (d, false)
    | Some d => let! d := upd_cells d (fun c => wr c i p) in Ret (d, true)
    end).

(** memory is given back after a deletion; [None]: the heap failed *)
Definition shrink_ptrs (d : DPA) : outcome (option DPA) :=
  let! free := sub_int (nMaxCount d) (nItemCount d) in
  if nGrow d <=? free then
    let! g := mul_int (nGrow d) 2 in
    let n := Z.max g (nItemCount d) in
    match HeapReAlloc (hHeap d) psize (ptrs d) (u32 (n * psize)) with
    | None => Ret None
    | Some b => Ret (Some (mkDPA (nItemCount d) (Some b) (hHeap d) (nGrow d) n))
    end
  else Ret (Some d).
Definition delete_ptr (d : DPA) (i : Z) : outcome (DPA * Z) :=
  if (i <? 0) || (nItemCount d <=? i) then Ret (d, 0) else
  let! lpTemp := rd (cells d) i in
  let! d := (if i <? nItemCount d - 1
             then upd_cells d (fun c => memmove c i (i + 1) (u32 ((nItemCount d - i - 1) * psize) / psize))
             else Ret d) in
  let d := with_count d (nItemCount d - 1) in
  let! r := shrink_ptrs d in
  match r with
  | None => Ret (d, 0)
  | Some d => Ret (d, lpTemp)
  end.
Definition DPA_DeletePtr (hdpa : option DPA) (i : Z) : outcome (option DPA * Z) :=
  on_handle hdpa 0 (fun d => delete_ptr d i).

Definition DPA_DeleteAllPtrs (hdpa : option DPA) : outcome (option DPA * bool) :=
  on_handle hdpa false (fun d =>
    if match ptrs d with Some b => negb (heap_free (hHeap d) (blk_addr b)) | None => false end
    then Ret (d, false) else
    let! m := mul_int (nGrow d) 2 in
    Ret (mkDPA 0 (HeapAlloc (hHeap d) psize (u32 (m * psize))) (hHeap d) (nGrow d) m, true)).

(** ** Sort and search *)
Section Compare.
Context (pfnCompare : Z -> Z -> Z).

(** join the two sides: [l..m] and [m+1..r] *)
Fixpoint join_loop (fuel : nat) (c : list Z) (l m r : Z) : outcome (list Z) :=
  match fuel with
  | O => Spin
  | S fuel =>
    if (l <=? m) && (m <? r) then
      let! a := rd c l in
      let! t := rd c (m + 1) in
      if 0 <? pfnCompare a t then
        let! c := memmove c (l + 1) l (u32 ((m - l + 1) * psize) / psize) in
        let! c := wr c l t in
        join_loop fuel c (l + 1) (m + 1) r
      else join_loop fuel c (l + 1) m r
    else Ret c
  end.
Fixpoint DPA_QuickSort (fuel : nat) (c : list Z) (l r : Z) : outcome (list Z) :=
  match fuel with
  | O => Spin
  | S fuel =>
    if l =? r then Ret c else
    if r <? l then DPA_QuickSort fuel c r l else
    let! s := add_int l r in
    let m := Z.quot s 2 in
    let! c := DPA_QuickSort fuel c l m in
    let! c := DPA_QuickSort fuel c (m + 1) r in
    join_loop (S (Z.to_nat (r - l + 1))) c l m r
  end.
Definition sort_ptrs (d : DPA) : outcome DPA :=
  if (1 <? nItemCount d) && (match ptrs d with Some _ => true | None => false end)
  then upd_cells d (fun c => DPA_QuickSort (S (Z.to_nat (nItemCount d))) c 0 (nItemCount d - 1))
  else Ret d.

(** binary search: an index that compares equal, or the final borders *)
Fixpoint search_loop (fuel : nat) (c : list Z) (pFind l r : Z) : outcome (Z + (Z * Z)) :=
  match fuel with
  | O => Spin
  | S fuel =>
    if l <=? r then
      let! s := add_int l r in
      let x := Z.quot s 2 in
      let! q := rd c x in
      let n := pfnCompare pFind q in
      let '(l, r) := if n <? 0 then (l, x - 1) else (x + 1, r) in
      if n =? 0 then Ret (inl n) else search_loop fuel c pFind l r
    else Ret (inr (l, r))
  end.
Fixpoint linear_loop (n : nat) (c : list Z) (pFind nIndex : Z) : outcome Z :=
  match n with
  | O => Ret (-1)
  | S n => let! q := rd c nIndex in
      if pfnCompare pFind q =? 0 then Ret nIndex else linear_loop n c pFind (nIndex + 1)
  end.
End Compare.

Definition DPA_Sort (hdpa : option DPA) (pfnCompare : option (Z -> Z -> Z)) : outcome (option DPA * bool) :=
  match pfnCompare with
  | None => Ret (hdpa, false)
  | Some cmp => on_handle hdpa false (fun d => let! d := sort_ptrs cmp d in Ret (d, true))
  end.

Definition DPAS_SORTED : Z := 1.
Definition DPAS_INSERTBEFORE : Z := 2.
Definition DPAS_INSERTAFTER : Z := 4.
Definition flag (dwFlags f : Z) : bool := negb (Z.land dwFlags f =? 0).

Definition DPA_Search (hdpa : option DPA) (pFind nStart : Z) (pfnCompare : option (Z -> Z -> Z)) (uOptions : Z) : outcome Z :=
  match hdpa, pfnCompare with
  | Some d, Some cmp =>
    if pFind =? 0 then Ret (-1) else
    let start := if nStart =? -1 then 0 else nStart in
    if flag uOptions DPAS_SORTED then
      let! res := search_loop cmp (S (Z.to_nat (nItemCount d - start))) (cells d) pFind start (nItemCount d - 1) in
      match res with
      | inl n => Ret n
      | inr (l, r) =>
        if flag uOptions DPAS_INSERTBEFORE then Ret r else
        if flag uOptions DPAS_INSERTAFTER then Ret l else Ret (-1)
      end
    else linear_loop cmp (Z.to_nat (nItemCount d - start)) (cells d) pFind start
  | _, _ => Ret (-1)
  end.

(** ** Callbacks with a state *)
Section Callbacks.
Context {T : Type}.

Fixpoint enum_loop (enumProc : T -> Z -> T * Z) (n : nat) (c : list Z) (i : Z) (s : T) : outcome T :=
  match n with
  | O => Ret s
  | S n => let! p := rd c i in
      let '(s, go) := enumProc s p in
      if go =? 0 then Ret s else enum_loop enumProc n c (i + 1) s
  end.
Definition DPA_EnumCallback (hdpa : option DPA) (enumProc : T -> Z -> T * Z) (s : T) : outcome T :=
  match hdpa with
  | None => Ret s
  | Some d => if nItemCount d <=? 0 then Ret s else
      enum_loop enumProc (Z.to_nat (nItemCount d)) (cells d) 0 s
  end.
Definition DPA_DestroyCallback (addr : Z) (hdpa : option DPA) (enumProc : T -> Z -> T * Z) (s : T) : outcome (T * bool) :=
  let! s := DPA_EnumCallback hdpa enumProc s in Ret (s, DPA_Destroy addr hdpa).

(** ** Merge *)
Definition DPAM_NOSORT : Z := 1.
Definition DPAM_INSERT : Z := 4.
Definition DPAM_DELETE : Z := 8.

Section Merge.
Context (pfnCompare : Z -> Z -> Z) (pfnMerge : T -> Z -> Z -> Z -> T * Z) (dwFlags : Z).

(** the cells that pWork1 points into: the block at the address [a1], if the
    array still has it *)
Definition work1 (d1 : DPA) (a1 : Z) : outcome (list Z) :=
  match ptrs d1 with
  | Some b => if blk_addr b =? a1 then Ret (blk_cells b) else Fault
  | None => Fault
  end.

(** the remaining [n] items of DPA 2 go to the start of DPA 1 *)
Fixpoint merge_rest (n : nat) (d1 : DPA) (c2 : list Z) (w2 : Z) (s : T) : outcome (T * DPA * bool) :=
  match n with
  | O => Ret (s, d1, true)
  | S n =>
    let! q := rd c2 w2 in
    let '(s, ptr) := pfnMerge s 3 q 0 in
    if ptr =? 0 then Ret (s, d1, false) else
    let! (d1, _) := insert_ptr d1 0 ptr in
    merge_rest n d1 c2 (w2 - 1) s
  end.

(** pWork1 is the cell [nIndex] of the block at [a1], pWork2 the cell [nCount]
    of [c2] *)
Fixpoint merge_loop (fuel : nat) (d1 : DPA) (a1 : Z) (c2 : list Z) (nIndex nCount : Z) (s : T) : outcome (T * DPA * bool) :=
  match fuel with
  | O => Spin
  | S fuel =>
    if nIndex <? 0 then
      if (0 <=? nCount) && flag dwFlags DPAM_INSERT
      then merge_rest (Z.to_nat (nCount + 1)) d1 c2 nCount s
      else Ret (s, d1, true)
    else
    let next d1 nIndex nCount s :=
      if 0 <=? nCount then merge_loop fuel d1 a1 c2 nIndex nCount s else Ret (s, d1, true) in
    let! c1 := work1 d1 a1 in
    let! p := rd c1 nIndex in
    let! q := rd c2 nCount in
    let nResult := pfnCompare p q in
    if nResult =? 0 then
      let '(s, ptr) := pfnMerge s 1 p q in
      if ptr =? 0 then Ret (s, d1, false) else
      let! d1 := upd_cells d1 (fun c => wr c nIndex ptr) in
      next d1 (nIndex - 1) (nCount - 1) s
    else if 0 <? nResult then
      let! (d1, s) :=
        (if flag dwFlags DPAM_DELETE then
           let! (d1, ptr) := delete_ptr d1 (nItemCount d1 - 1) in
           let '(s, _) := pfnMerge s 2 ptr 0 in Ret (d1, s)
         else Ret (d1, s)) in
      next d1 (nIndex - 1) nCount s
    else if flag dwFlags DPAM_INSERT then
      let '(s, ptr) := pfnMerge s 3 q 0 in
      if ptr =? 0 then Ret (s, d1, false) else
      let! (d1, _) := insert_ptr d1 (nIndex + 1) ptr in
      next d1 nIndex (nCount - 1) s
    else next d1 nIndex (nCount - 1) s
  end.
End Merge.

(** a handle that may not be written and a callback that may not be called are
    [None] *)
Definition DPA_Merge (hdpa1 hdpa2 : option DPA) (dwFlags : Z) (pfnCompare : option (Z -> Z -> Z))
    (pfnMerge : option (T -> Z -> Z -> Z -> T * Z)) (s : T) : outcome (T * option DPA * option DPA * bool) :=
  match hdpa1, hdpa2, pfnCompare, pfnMerge with
  | Some d1, Some d2, Some cmp, Some merge =>
    let! (d1, d2) :=
      (if flag dwFlags DPAM_NOSORT then Ret (d1, d2) else
       let! d1 := (if 0 <? nItemCount d1 then sort_ptrs cmp d1 else Ret d1) in
       let! d2 := (if 0 <? nItemCount d2 then sort_ptrs cmp d2 else Ret d2) in
       Ret (d1, d2)) in
    if nItemCount d2 <? 1 then Ret (s, Some d1, Some d2, true) else
    let a1 := match ptrs d1 with Some b => blk_addr b | None => 0 end in
    let! (s, d1, ok) :=
      merge_loop cmp merge dwFlags (S (Z.to_nat (nItemCount d1 + nItemCount d2))) d1 a1 (cells d2)
        (nItemCount d1 - 1) (nItemCount d2 - 1) s in
    Ret (s, Some d1, Some d2, ok)
  | _, _, _, _ => Ret (s, hdpa1, hdpa2, false)
  end.
End Callbacks.
End Heap.
End Dpa.
