(* ===== verification/DpaSort.v ===== *)
(** * Sorting of pointer arrays (DPA_QuickSort and DPA_Sort of comctl32undoc.c)

    The function divides the array in two, sorts the halves and joins them in
    place, so it is a merge sort: [join_loop] computes the merge of stdpp, and
    the whole gives a permutation for every compare function, sorted and with
    equal items in their order when the compare function is a preorder. *)
From stdpp Require Import sorting.
From S2P Require Import Prelude Dpa.

Module DpaSort.
Import Dpa.

(** ** Moves inside of a block *)
Lemma cells_size k : 0 <= k < 2 ^ 30 -> u32 (k * psize) / psize = k.
Proof.
  intros Hk. unfold psize. rewrite wrapU_small by (split; [lia|change (2 ^ 32) with (2 ^ 30 * 4); lia]). by rewrite Z.div_mul.
Qed.
Lemma memmove_src p x q dst : memmove (p ++ x ++ q) dst (zlen p) (zlen x) = put_bytes (p ++ x ++ q) dst x.
Proof.
  unfold memmove. rewrite !zlen_app. pose proof (zlen_nonneg p). pose proof (zlen_nonneg x). pose proof (zlen_nonneg q).
  replace (_ && _) with true by lia. by rewrite !zlen_nat, drop_app_length, take_app_length.
Qed.
(** the cells [x] move up over [y], or down *)
Lemma move_up p x y q : exists z, length z = length y /\ memmove (p ++ x ++ y ++ q) (zlen p + zlen y) (zlen p) (zlen x) = Ret (p ++ z ++ x ++ q).
Proof.
  rewrite memmove_src. exists (take (length y) (x ++ y)). split; [rewrite length_take, length_app; lia|].
  replace (p ++ x ++ y ++ q) with ((p ++ take (length y) (x ++ y)) ++ drop (length y) (x ++ y) ++ q).
  - rewrite put_bytes_app; [by rewrite <- app_assoc| |rewrite length_drop, length_app; lia]. rewrite zlen_app. unfold zlen. rewrite length_take, length_app. lia.
  - rewrite <- app_assoc. f_equal. by rewrite app_assoc, take_drop, <- app_assoc.
Qed.
Lemma move_down p y x q : exists z, length z = length y /\ memmove (p ++ y ++ x ++ q) (zlen p) (zlen p + zlen y) (zlen x) = Ret (p ++ x ++ z ++ q).
Proof.
  rewrite (app_assoc p y), <- zlen_app, memmove_src. exists (drop (length x) (y ++ x)). split; [rewrite length_drop, length_app; lia|].
  replace ((p ++ y) ++ x ++ q) with (p ++ take (length x) (y ++ x) ++ drop (length x) (y ++ x) ++ q).
  - apply put_bytes_app; [done|]. rewrite length_take, length_app. lia.
  - rewrite <- app_assoc. f_equal. by rewrite (app_assoc (take _ _)), take_drop, <- app_assoc.
Qed.
(** the same by one cell; the free cell takes [v] *)
Lemma shift_up p x y q v : exists c, memmove (p ++ x ++ y :: q) (zlen p + 1) (zlen p) (zlen x) = Ret c /\ wr c (zlen p) v = Ret (p ++ v :: x ++ q).
Proof.
  destruct (move_up p x [y] q) as ([|z [|]] & Hz & E); try done. exists (p ++ z :: x ++ q). split; [exact E|by rewrite wr_app].
Qed.
Lemma shift_down p y x q : exists z, memmove (p ++ y :: x ++ q) (zlen p) (zlen p + 1) (zlen x) = Ret (p ++ x ++ z :: q).
Proof. destruct (move_down p [y] x q) as ([|z [|]] & Hz & E); try done. by exists z. Qed.

(** ** The compare function *)
Class CompareLaws (cmp : Z -> Z -> Z) : Prop := {
  cmp_sgn a b : Z.sgn (cmp b a) = - Z.sgn (cmp a b);
  cmp_trans a b c : cmp a b <= 0 -> cmp b c <= 0 -> cmp a c <= 0;
}.

Section Sort.
Context (cmp : Z -> Z -> Z).
Definition before (a b : Z) : Prop := cmp a b <= 0.
#[export] Instance before_dec a b : Decision (before a b).
Proof. unfold before. apply _. Defined.

Lemma join_spec fuel pre A B post :
  (length A + length B < fuel)%nat -> zlen (pre ++ A ++ B ++ post) < 2 ^ 30 ->
  join_loop cmp fuel (pre ++ A ++ B ++ post) (zlen pre) (zlen pre + zlen A - 1) (zlen pre + zlen A - 1 + zlen B)
  = Ret (pre ++ list_merge before A B ++ post).
Proof.
  revert pre A B. induction fuel as [|fuel IH]; intros pre A B Hf Hz; [lia|]. cbn [join_loop].
  destruct A as [|a A]; [by replace (zlen pre <=? _) with false by (rewrite zlen_nil; lia); rewrite list_merge_nil_l|].
  destruct B as [|b B].
  { rewrite list_merge_nil_r. replace (_ <? _) with false by (rewrite (@zlen_nil Z); lia). by rewrite andb_false_r. }
  rewrite list_merge_cons. pose proof (zlen_nonneg A). pose proof (zlen_nonneg B).
  replace (_ && _) with true by (rewrite !zlen_cons; lia). cbn [app].
  rewrite rd_app by done. cbn [obind]. change (a :: A ++ b :: B ++ post) with ((a :: A) ++ b :: B ++ post).
  rewrite app_assoc, rd_app by (rewrite zlen_app; lia). rewrite <- app_assoc. cbn [obind]. rewrite !length_cons in Hf.
  destruct (Z.ltb_spec 0 (cmp a b)) as [Hc|Hc].
  - rewrite decide_False by (unfold before; lia). rewrite !zlen_app, !zlen_cons in Hz. pose proof (zlen_nonneg pre). pose proof (zlen_nonneg post).
    replace (zlen pre + zlen (a :: A) - 1 - zlen pre + 1) with (zlen (a :: A)) by lia. rewrite cells_size by (rewrite zlen_cons; lia).
    destruct (shift_up pre (a :: A) b (B ++ post) b) as (c & -> & Hw). cbn [obind]. rewrite Hw. cbn [obind].
    specialize (IH (pre ++ [b]) (a :: A) B). rewrite <- !app_assoc in IH. cbn [app] in IH.
    rewrite zlen_snoc in IH. etrans; [|apply IH; [simpl; lia|rewrite !zlen_app, !zlen_cons, !zlen_app; lia]].
    f_equal; rewrite ?zlen_cons; lia.
  - rewrite decide_True by (unfold before; lia).
    specialize (IH (pre ++ [a]) A (b :: B)). rewrite <- !app_assoc in IH. cbn [app] in IH. rewrite zlen_snoc in IH.
    etrans; [|apply IH; [simpl; lia|exact Hz]]. f_equal; rewrite ?zlen_cons; lia.
Qed.

(** items that compare equal keep their order *)
Definition same_order (xs ys : list Z) : Prop := forall x, filter (fun y => cmp x y = 0) ys = filter (fun y => cmp x y = 0) xs.
(** what the sort makes of [xs] *)
Definition sorted_form (xs ys : list Z) : Prop :=
  ys ≡ₚ xs /\ (CompareLaws cmp -> Sorted before ys /\ same_order xs ys).

#[local] Instance before_total {L : CompareLaws cmp} : Total before.
Proof. intros a b. unfold before. pose proof (cmp_sgn a b). lia. Qed.
#[local] Instance before_trans {L : CompareLaws cmp} : Transitive before.
Proof. intros a b c. apply cmp_trans. Qed.

(** a merge takes the equal items of the first list first *)
Lemma merge_filter {L : CompareLaws cmp} x xs ys : Sorted before xs -> 
  filter (fun y => cmp x y = 0) (list_merge before xs ys) = filter (fun y => cmp x y = 0) xs ++ filter (fun y => cmp x y = 0) ys.
Proof.
  intros Hx. apply Sorted_StronglySorted in Hx; [|apply _]. revert ys. induction Hx as [|a xs Hs IH Ha]; intros ys; [by rewrite list_merge_nil_l|].
  induction ys as [|b ys IHy]; [by rewrite list_merge_nil_r, app_nil_r|]. rewrite list_merge_cons. destruct (decide (before a b)) as [Hab|Hab].
  - rewrite !(filter_cons _ a), IH. by destruct (decide (cmp x a = 0)).
  - rewrite (filter_cons _ b), IHy, (filter_cons _ b). destruct (decide (cmp x b = 0)) as [Hb|Hb]; [|done].
    assert (Hn : filter (fun y => cmp x y = 0) (a :: xs) = []); [|by rewrite Hn].
    apply elem_of_nil_inv. intros y [Hxy Hy]%list_elem_of_filter.
    assert (Hay : before a y) by (apply elem_of_cons in Hy as [->|Hy]; [unfold before; pose proof (cmp_sgn a a); lia|exact (proj1 (list.Forall_forall _ _) Ha y Hy)]).
    apply Hab. apply (before_trans _ y); [done|]. apply (before_trans _ x); unfold before; pose proof (cmp_sgn x y); lia.
Qed.

Lemma merge_form xs ys xs' ys' : sorted_form xs xs' -> sorted_form ys ys' -> sorted_form (xs ++ ys) (list_merge before xs' ys').
Proof.
  intros (P1 & H1) (P2 & H2). split; [by rewrite merge_Permutation, P1, P2|]. intros L.
  destruct (H1 L) as (S1 & O1), (H2 L) as (S2 & O2). split; [apply Sorted_list_merge; [apply _|done|done]|].
  intros x. by rewrite merge_filter, O1, O2, list.filter_app by done.
Qed.

Lemma QuickSort_spec fuel pre xs post :
  (0 < length xs <= fuel)%nat -> zlen (pre ++ xs ++ post) < 2 ^ 30 ->
  exists ys, DPA_QuickSort cmp fuel (pre ++ xs ++ post) (zlen pre) (zlen pre + zlen xs - 1) = Ret (pre ++ ys ++ post) /\ sorted_form xs ys.
Proof.
  revert pre xs post. induction fuel as [|fuel IH]; intros pre xs post Hf Hz; [lia|]. cbn [DPA_QuickSort].
  pose proof (zlen_nonneg pre). pose proof (zlen_nonneg post). rewrite !zlen_app in Hz.
  destruct (Z.eqb_spec (zlen pre) (zlen pre + zlen xs - 1)) as [E|E].
  { assert (length xs = 1)%nat by (unfold zlen in *; lia). exists xs. split; [done|]. split; [done|]. intros _.
    destruct xs as [|x [|]]; try done. split; [repeat constructor|by intros ?]. }
  assert (Hl : 2 <= zlen xs) by (unfold zlen in *; lia).
  replace (_ <? _) with false by lia. unfold add_int. replace (_ && _) with true by lia. cbn [obind].
  set (k := ((length xs - 1) / 2)%nat). assert (Hk : Z.of_nat k = (zlen xs - 1) / 2) by (unfold k, zlen; rewrite Nat2Z.inj_div; f_equal; lia).
  assert (Hm : Z.quot (zlen pre + (zlen pre + zlen xs - 1)) 2 = zlen pre + Z.of_nat k).
  { rewrite Z.quot_div_nonneg by lia. rewrite Hk. replace (zlen pre + (zlen pre + zlen xs - 1)) with ((zlen xs - 1) + zlen pre * 2) by lia. rewrite Z.div_add by lia. lia. }
  rewrite Hm. assert (Hk2 : 0 <= Z.of_nat k < zlen xs - 1) by (rewrite Hk; dlia).
  set (A := take (S k) xs). set (B := drop (S k) xs). assert (Hx : xs = A ++ B) by (symmetry; apply take_drop).
  assert (HA : length A = S k) by (apply length_take_le; unfold zlen in *; lia). assert (HB : (length A + length B = length xs)%nat) by (rewrite Hx at 1; by rewrite length_app).
  assert (HAz : zlen A = Z.of_nat k + 1) by (unfold zlen; lia). assert (HBz : zlen A + zlen B = zlen xs) by (unfold zlen in *; lia).
  rewrite Hx in Hz |- *. rewrite zlen_app in Hz.
  destruct (IH pre A (B ++ post)) as (A' & E1 & F1); [unfold zlen in *; lia|rewrite !zlen_app; lia|].
  replace (zlen pre + zlen A - 1) with (zlen pre + Z.of_nat k) in E1 by lia. rewrite <- app_assoc, E1. cbn [obind].
  assert (HA' : length A' = length A) by (apply Permutation_length, F1). assert (HA'z : zlen A' = zlen A) by (unfold zlen; lia).
  destruct (IH (pre ++ A') B post) as (B' & E2 & F2); [unfold zlen in *; lia|rewrite !zlen_app; lia|].
  rewrite <- !app_assoc in E2. rewrite zlen_app in E2.
  replace (zlen pre + Z.of_nat k + 1) with (zlen pre + zlen A') by lia. rewrite zlen_app. replace (zlen pre + (zlen A + zlen B) - 1) with (zlen pre + zlen A' + zlen B - 1) by lia.
  rewrite E2. cbn [obind]. assert (HB' : length B' = length B) by (apply Permutation_length, F2). assert (HB'z : zlen B' = zlen B) by (unfold zlen; lia).
  exists (list_merge before A' B'). split; [|by apply merge_form].
  replace (zlen pre + Z.of_nat k) with (zlen pre + zlen A' - 1) by lia. replace (zlen pre + zlen A' + zlen B - 1) with (zlen pre + zlen A' - 1 + zlen B') by lia.
  apply join_spec; [unfold zlen in *; lia|rewrite !zlen_app; lia].
Qed.
End Sort.
End DpaSort.
