(* ===== verification/DpaSpec.v ===== *)
(** * Pointer arrays as sequences

    [repr d items]: the array [d] holds the sequence [items].  Every call but a
    DPA_SetPtr outside the room, whose effect is stated apart, returns and does to
    the sequence what [spec] says, whatever the heap answers. *)
From stdpp Require Import sorting.
From S2P Require Import Prelude Dpa DpaSort.

Module DpaSpec.
Import Dpa DpaSort.

(** ** The sequence *)
Definition insert_at (items : list Z) (i p : Z) : list Z :=
  take (Z.to_nat i) items ++ p :: drop (Z.to_nat i) items.

(** the first index from [i] on whose item satisfies [f] *)
Fixpoint first_index (f : Z -> bool) (items : list Z) (i : Z) : Z :=
  match items with
  | [] => -1
  | x :: items => if f x then i else first_index f items (i + 1)
  end.

(** a callback on each item in order, until it returns 0 *)
Fixpoint visit {A T} (f : T -> A -> T * Z) (items : list A) (s : T) : T :=
  match items with
  | [] => s
  | x :: items => let '(s, go) := f s x in if go =? 0 then s else visit f items s
  end.

Inductive dpa_op :=
  | OpInsert (i p : Z)
  | OpSet (i p : Z)
  | OpDelete (i : Z)
  | OpDeleteAll
  | OpGrow (g : Z)
  | OpSort
  | OpGet (i : Z)
  | OpIndex (p : Z)
  | OpFind (p start : Z).
Inductive dpa_result := RInt (n : Z) | RPtr (p : Z) | RBool (b : bool).

Section Spec.
Context (cmp : Z -> Z -> Z) (fails refuses : Prop).
(** [spec items op items' res]: the call [op] on [items] gives [items'] and
    returns [res].  [fails]: the heap may give no memory; [refuses]: it may
    refuse to free a block *)
Inductive spec : list Z -> dpa_op -> list Z -> dpa_result -> Prop :=
  | s_insert items i p : 0 <= i ->
      spec items (OpInsert i p) (insert_at items (Z.min i (zlen items)) p) (RInt (Z.min i (zlen items)))
  | s_insert_bad items i p : i < 0 \/ fails -> spec items (OpInsert i p) items (RInt (-1))
  | s_set items i p : 0 <= i < zlen items -> spec items (OpSet i p) (<[Z.to_nat i := p]> items) (RBool true)
  | s_set_after items gap i p : i = zlen (items ++ gap) -> spec items (OpSet i p) (items ++ gap ++ [p]) (RBool true)
  | s_set_bad items i p : i < 0 -> spec items (OpSet i p) items (RBool false)
  | s_delete pre x post : spec (pre ++ x :: post) (OpDelete (zlen pre)) (pre ++ post) (RPtr x)
  | s_delete_fail pre x post : fails -> spec (pre ++ x :: post) (OpDelete (zlen pre)) (pre ++ post) (RPtr 0)
  | s_delete_bad items i : ~ (0 <= i < zlen items) -> spec items (OpDelete i) items (RPtr 0)
  | s_delete_all items : spec items OpDeleteAll [] (RBool true)
  | s_delete_all_fail items : refuses -> spec items OpDeleteAll items (RBool false)
  | s_grow items g : spec items (OpGrow g) items (RBool true)
  | s_sort items items' : sorted_form cmp items items' -> spec items OpSort items' (RBool true)
  | s_get items i : spec items (OpGet i) items (RPtr (nthZ 0 items i))
  | s_index items p : spec items (OpIndex p) items (RInt (first_index (fun q => q =? p) items 0))
  | s_find items p start : -1 <= start -> p <> 0 ->
      spec items (OpFind p start) items (RInt (first_index (fun q => cmp p q =? 0) (drop (Z.to_nat start) items) (Z.max start 0)))
  | s_find_null items start : spec items (OpFind 0 start) items (RInt (-1)).
End Spec.

Section Refine.
Context `{HeapOps} (cmp : Z -> Z -> Z).

(** the heap of [d] has no memory for some request *)
Definition fails (d : DPA) : Prop :=
  (exists sz, heap_alloc (hHeap d) sz = None) \/ (exists a sz, heap_realloc (hHeap d) a sz = None).
Definition refuses (d : DPA) : Prop := exists a, heap_free (hHeap d) a = false.

(** [items] are in the array, whose growth is at most [G] and whose room is at
    most [k] times that *)
Record repr (G k : Z) (d : DPA) (items : list Z) : Prop := mkRepr {
  r_count : nItemCount d = zlen items;
  r_cells : match ptrs d with
            | Some b => zlen (blk_cells b) = nMaxCount d /\ exists rest, blk_cells b = items ++ rest
            | None => items = []
            end;
  r_grow : 8 <= nGrow d <= G;
  r_max : 0 <= nMaxCount d <= k * G;
}.

Definition lift {D A} (f : A -> dpa_result) (m : outcome (option D * A)) : outcome (option D * dpa_result) :=
  let! (d, r) := m in Ret (d, f r).
(** one call *)
Definition exec (d : DPA) (op : dpa_op) : outcome (option DPA * dpa_result) :=
  match op with
  | OpInsert i p => lift RInt (DPA_InsertPtr (Some d) i p)
  | OpSet i p => lift RBool (DPA_SetPtr (Some d) i p)
  | OpDelete i => lift RPtr (DPA_DeletePtr (Some d) i)
  | OpDeleteAll => lift RBool (DPA_DeleteAllPtrs (Some d))
  | OpGrow g => lift RBool (DPA_Grow (Some d) g)
  | OpSort => lift RBool (DPA_Sort (Some d) (Some cmp))
  | OpGet i => let! p := DPA_GetPtr (Some d) i in Ret (Some d, RPtr p)
  | OpIndex p => let! n := DPA_GetPtrIndex (Some d) p in Ret (Some d, RInt n)
  | OpFind p start => let! n := DPA_Search (Some d) p start (Some cmp) 0 in Ret (Some d, RInt n)
  end.
(** the calls the sequence describes: DPA_SetPtr inside the room of a block
    ([set_outside] is about the others), and a search from an index or from -1,
    the start *)
Definition supported (G : Z) (d : DPA) (op : dpa_op) : Prop :=
  match op with
  | OpSet i _ => i < nMaxCount d /\ ptrs d <> None
  | OpGrow g => g <= G
  | OpFind p start => -1 <= start
  | _ => True
  end.

Lemma insert_at_len items p : insert_at items (zlen items) p = items ++ [p].
Proof. unfold insert_at. rewrite zlen_nat. by rewrite firstn_all, drop_all. Qed.
Lemma insert_at_app pre post p : insert_at (pre ++ post) (zlen pre) p = pre ++ p :: post.
Proof. unfold insert_at. by rewrite zlen_nat, take_app_length, drop_app_length. Qed.
Lemma zlen_insert_at items i p : zlen (insert_at items i p) = zlen items + 1.
Proof. unfold insert_at, zlen. rewrite length_app, length_cons, length_take, length_drop. lia. Qed.

(** ** Insertion *)
(** with a free cell there is nothing to allocate *)
Lemma insert_free d a items y rest i p : ptrs d = Some (Block a (items ++ y :: rest)) -> nItemCount d = zlen items ->
  nItemCount d < nMaxCount d -> zlen (items ++ y :: rest) < 2 ^ 30 -> 0 <= i ->
  insert_ptr d i p = Ret (mkDPA (zlen items + 1) (Some (Block a (insert_at items (Z.min i (zlen items)) p ++ rest))) (hHeap d) (nGrow d) (nMaxCount d),
                          Z.min i (zlen items)).
Proof.
  intros Hp Hc Hm Hz Hi. rewrite zlen_app, zlen_cons in Hz. pose proof (zlen_nonneg items). pose proof (zlen_nonneg rest).
  unfold insert_ptr. replace (i <? 0) with false by lia. unfold insert_room. rewrite Hp. unfold grow_ptrs. replace (nMaxCount d <=? nItemCount d) with false by lia. cbn [obind].
  rewrite Hc. destruct (Z.leb_spec (zlen items) i) as [Hl|Hl].
  - rewrite Z.min_r by lia. cbn [obind]. unfold add_int. replace (_ && _) with true by (rewrite Hc; lia). cbn [obind].
    unfold upd_cells. cbn [with_count ptrs]. rewrite Hp. cbn [blk_cells]. rewrite wr_app by done. cbn [obind nItemCount nGrow hHeap nMaxCount blk_addr].
    rewrite Hc, insert_at_len, <- app_assoc. done.
  - destruct (zsplit items i) as (pre & post & -> & ->); [lia|]. rewrite Z.min_l by lia. rewrite zlen_app in *.
    pose proof (zlen_nonneg pre). replace (zlen pre + zlen post - zlen pre) with (zlen post) by lia. pose proof (zlen_nonneg post). rewrite cells_size by lia.
    unfold upd_cells. rewrite Hp. cbn [blk_cells]. rewrite <- app_assoc. destruct (shift_up pre post y rest p) as (c & -> & Hw).
    cbn [obind blk_addr nItemCount]. unfold add_int. replace (_ && _) with true by lia. cbn [obind with_count ptrs blk_cells]. rewrite Hw. cbn [obind nItemCount nGrow hHeap nMaxCount blk_addr].
    rewrite Hc, insert_at_app, <- app_assoc. done.
Qed.

Lemma size_ok n : 0 <= n < 2 ^ 30 -> Z.to_nat (u32 (n * psize) / psize) = Z.to_nat n.
Proof. intros Hn. by rewrite cells_size. Qed.

Lemma alloc_zero hp n : 0 <= n < 2 ^ 30 ->
  (exists a, HeapAlloc hp psize (u32 (n * psize)) = Some (Block a (replicate (Z.to_nat n) 0))) \/
  (HeapAlloc hp psize (u32 (n * psize)) = None /\ exists sz, heap_alloc hp sz = None).
Proof. intros Hn. unfold HeapAlloc. rewrite size_ok by done. destruct (heap_alloc _ _) eqn:E; eauto. Qed.
(** a block that keeps [items] *)
Lemma realloc_keeps hp b items rest n : blk_cells b = items ++ rest -> zlen items <= n < 2 ^ 30 ->
  (exists a rest', HeapReAlloc hp psize (Some b) (u32 (n * psize)) = Some (Block a (items ++ rest')) /\ zlen (items ++ rest') = n) \/
  (HeapReAlloc hp psize (Some b) (u32 (n * psize)) = None /\ exists a sz, heap_realloc hp a sz = None).
Proof.
  intros Hb Hn. pose proof (zlen_nonneg items). unfold HeapReAlloc. rewrite size_ok by lia. destruct (heap_realloc _ _ _) as [a|] eqn:E; [left|eauto].
  rewrite Hb, resize_app_ge by (unfold zlen in *; lia). eexists _, _. split; [done|].
  unfold zlen in *. rewrite length_app, length_resize. lia.
Qed.

Lemma repr_le G k k' d items : k <= k' -> repr G k d items -> repr G k' d items.
Proof. intros Hk [Hc Hb Hg Hm]. split; try done. nia. Qed.

Lemma insert_spec G k d items i p : repr G k d items -> 2 <= k -> (k + 1) * G < 2 ^ 30 -> 0 <= i ->
  (insert_ptr d i p = Ret (d, -1) /\ fails d) \/
  exists d', insert_ptr d i p = Ret (d', Z.min i (zlen items)) /\ repr G (k + 1) d' (insert_at items (Z.min i (zlen items)) p) /\ hHeap d' = hHeap d.
Proof.
  intros R Hk Hn Hi. pose proof R as [Hc Hb Hg Hm].
  assert (Hs : 0 <= nMaxCount d + nGrow d < 2 ^ 30) by nia. assert (HG : 2 * G <= (k + 1) * G) by nia. assert (Hg2 : 0 <= 2 * nGrow d < 2 ^ 30) by lia.
  assert (K : forall e a rest, nItemCount e = zlen items -> ptrs e = Some (Block a (items ++ rest)) -> zlen (items ++ rest) = nMaxCount e -> nItemCount e < nMaxCount e ->
    nGrow e = nGrow d -> hHeap e = hHeap d -> nMaxCount e <= (k + 1) * G ->
    exists d', insert_ptr e i p = Ret (d', Z.min i (zlen items)) /\ repr G (k + 1) d' (insert_at items (Z.min i (zlen items)) p) /\ hHeap d' = hHeap d).
  { intros e a rest E1 E2 E3 E4 E5 E6 E7. destruct rest as [|y rest]; [rewrite app_nil_r in E3; lia|].
    eexists. split; [apply (insert_free e a items y rest); [done|done|done|lia|done]|]. split; [|done].
    split; cbn [with_count nItemCount ptrs nGrow nMaxCount blk_cells]; [by rewrite zlen_insert_at| |lia|pose proof (zlen_nonneg items); lia].
    split; [|by eexists]. rewrite zlen_app, zlen_insert_at, <- E3, zlen_app, zlen_cons. lia. }
  destruct (ptrs d) as [b|] eqn:Ep.
  - destruct Hb as (Hz & rest & Hb). destruct (decide (nItemCount d < nMaxCount d)) as [Hl|Hl].
    + right. destruct b as [a c]. simpl in Hb. subst c. apply (K d a rest); try done. nia.
    + assert (rest = []) as -> by (rewrite Hb, zlen_app in Hz; destruct rest; [done|rewrite zlen_cons in Hz; pose proof (zlen_nonneg rest); lia]).
      rewrite Hb, app_nil_r in Hz.
      assert (E : insert_ptr d i p = let! r := insert_room d i in match r with None => Ret (d, -1) | Some (d, nIndex) => let! n := add_int (nItemCount d) 1 in
        let! d := upd_cells (with_count d n) (fun c => wr c nIndex p) in Ret (d, nIndex) end) by (unfold insert_ptr; by replace (i <? 0) with false by lia).
      unfold insert_room in E. rewrite Ep in E. unfold grow_ptrs in E. rewrite (proj2 (Z.leb_le _ _)) in E by lia.
      unfold add_int at 1 in E. replace (_ && _) with true in E by lia. cbn [obind] in E. rewrite Ep in E.
      destruct (realloc_keeps (hHeap d) b items [] (nMaxCount d + nGrow d)) as [(a & rest' & Er & El)|(Er & Hf)]; [done|nia| |]; rewrite Er in E; cbn [obind] in E.
      * right. set (e := mkDPA (nItemCount d) (Some (Block a (items ++ rest'))) (hHeap d) (nGrow d) (nMaxCount d + nGrow d)) in *.
        rewrite E. replace (obind _ _) with (insert_ptr e i p).
        { apply (K e a rest'); subst e; cbn [nItemCount ptrs nMaxCount nGrow hHeap]; done || nia. }
        unfold insert_ptr. replace (i <? 0) with false by lia. unfold insert_room. cbn [ptrs e]. unfold grow_ptrs. cbn [nMaxCount nItemCount e].
        replace (nMaxCount d + nGrow d <=? nItemCount d) with false by lia. cbn [obind]. 
        change (nItemCount e) with (nItemCount d). destruct (nItemCount d <=? i); [done|]. by destruct (upd_cells e _).
      * left. split; [done|by right].
  - subst items. unfold insert_ptr. replace (i <? 0) with false by lia. unfold insert_room. rewrite Ep. unfold mul_int. replace (_ && _) with true by lia. cbn [obind].
    destruct (alloc_zero (hHeap d) (2 * nGrow d)) as [(a & Ea)|(Ea & Hf)]; [nia| |]; rewrite Ea; [right|left; split; [done|by left]].
    replace (_ && _) with true by lia. cbn [obind nItemCount]. unfold add_int. change (zlen (@nil Z)) with 0 in *. rewrite Hc. cbn [obind Z.add].
    unfold upd_cells. cbn [with_count ptrs blk_cells]. rewrite Z.min_r by lia.
    destruct (Z.to_nat (2 * nGrow d)) as [|n] eqn:En; [lia|]. change (replicate (S n) 0) with ([] ++ 0 :: replicate n 0). rewrite wr_app by done. cbn [obind app].
    eexists. split; [done|]. split; [|done]. split; cbn [with_count nItemCount ptrs nGrow nMaxCount blk_cells]; [done| |lia|lia].
    split; [|by eexists (replicate n 0)]. rewrite zlen_cons. unfold zlen. rewrite length_replicate. lia.
Qed.

(** ** Deletion, changes of one pointer *)
(** a block that keeps [items], or the heap fails *)
Lemma shrink_spec G k d items : repr G k d items -> ptrs d <> None -> 2 <= k -> (k + 1) * G < 2 ^ 30 ->
  (exists d', shrink_ptrs d = Ret (Some d') /\ repr G k d' items /\ hHeap d' = hHeap d) \/ (shrink_ptrs d = Ret None /\ fails d).
Proof.
  intros R Hp Hk Hn. pose proof R as [Hc Hb Hg Hm]. assert (HG : 2 * G <= k * G) by nia. assert (HG2 : k * G < 2 ^ 30) by nia.
  destruct (ptrs d) as [b|] eqn:Ep; [|done]. destruct Hb as (Hz & rest & Hb). pose proof (zlen_nonneg items).
  assert (Hi : zlen items <= nMaxCount d) by (rewrite <- Hz, Hb, zlen_app; pose proof (zlen_nonneg rest); lia).
  unfold shrink_ptrs, sub_int. replace (_ && _) with true by lia. cbn [obind]. destruct (_ <=? _); [|left; by exists d].
  unfold mul_int. replace (_ && _) with true by lia. cbn [obind]. rewrite Ep.
  destruct (realloc_keeps (hHeap d) b items rest (Z.max (nGrow d * 2) (nItemCount d))) as [(a & rest' & Er & El)|(Er & Hf)]; [done|lia| |]; rewrite Er.
  - left. eexists. split; [done|]. split; [|done]. split; cbn [with_count nItemCount ptrs nGrow nMaxCount blk_cells]; [done|by eauto|lia|lia].
  - right. split; [done|by right].
Qed.

Lemma delete_spec G k d pre x post : repr G k d (pre ++ x :: post) -> 2 <= k -> (k + 1) * G < 2 ^ 30 ->
  exists d' r, delete_ptr d (zlen pre) = Ret (d', r) /\ repr G k d' (pre ++ post) /\ hHeap d' = hHeap d /\ (r = x \/ r = 0 /\ fails d).
Proof.
  intros R Hk Hn. pose proof R as [Hc Hb Hg Hm]. pose proof (zlen_nonneg pre). pose proof (zlen_nonneg post).
  destruct (ptrs d) as [[a c]|] eqn:Ep; [|by destruct pre]. cbn [blk_cells] in Hb. destruct Hb as (Hz & rest & ->). rewrite <- app_assoc in *. cbn [app] in *.
  assert (HG : k * G < 2 ^ 30) by nia. rewrite !zlen_app, !zlen_cons, ?zlen_app in *. pose proof (zlen_nonneg rest).
  unfold delete_ptr. rewrite Hc. replace (_ || _) with false by lia. unfold cells. rewrite Ep. cbn [blk_cells]. rewrite rd_app by done. cbn [obind].
  set (m := if _ <? _ then _ else _).
  assert (Hmv : exists rest', m = Ret (mkDPA (nItemCount d) (Some (Block a (pre ++ post ++ rest'))) (hHeap d) (nGrow d) (nMaxCount d)) /\ zlen (post ++ rest') = zlen (x :: post ++ rest)).
  { subst m. destruct (Z.ltb_spec (zlen pre) (zlen pre + (zlen post + 1) - 1)) as [Hl|Hl].
    - unfold upd_cells. rewrite Ep. cbn [blk_cells]. replace (zlen pre + (zlen post + 1) - zlen pre - 1) with (zlen post) by lia. rewrite cells_size by lia.
      destruct (shift_down pre x post rest) as (z & ->). cbn [obind blk_addr]. exists (z :: rest). split; [done|]. rewrite zlen_cons, !zlen_app, zlen_cons. lia.
    - destruct post; [|rewrite zlen_cons in *; pose proof (zlen_nonneg post); lia]. exists (x :: rest). split; [|done]. destruct d; cbn in *. by subst. }
  destruct Hmv as (rest' & -> & Hr). cbn [obind nItemCount]. rewrite Hc.
  set (e := with_count _ _). assert (Re : repr G k e (pre ++ post)).
  { subst e. split; cbn [with_count nItemCount ptrs nGrow nMaxCount blk_cells]; [rewrite zlen_app; lia| |done|done].
    rewrite zlen_cons, !zlen_app in Hr. split; [rewrite !zlen_app; lia|]. exists rest'. by rewrite <- app_assoc. }
  destruct (shrink_spec G k e (pre ++ post) Re) as [(d' & -> & Rd & Hh)|(-> & Hf)]; [done|done|done| |]; cbn [obind].
  - exists d', x. auto.
  - exists e, 0. split; [done|]. split; [done|]. split; [done|]. right. split; [done|]. exact Hf.
Qed.

Lemma set_spec G k d items i p : repr G k d items -> k * G < 2 ^ 30 -> 0 <= i < nMaxCount d -> ptrs d <> None ->
  exists d' items', DPA_SetPtr (Some d) i p = Ret (Some d', true) /\ repr G k d' items' /\ hHeap d' = hHeap d /\ spec cmp (fails d) (refuses d) items (OpSet i p) items' (RBool true).
Proof.
  intros R HG Hi Hp. pose proof R as [Hc Hb Hg Hm]. destruct (ptrs d) as [[a c]|] eqn:Ep; [|done]. cbn [blk_cells] in Hb. destruct Hb as (Hz & rest & ->).
  unfold DPA_SetPtr, on_handle. replace (i <? 0) with false by lia. unfold set_room. rewrite Hc. pose proof (zlen_nonneg items). pose proof (zlen_nonneg rest).
  destruct (Z.leb_spec (zlen items) i) as [Hl|Hl].
  - unfold add_int. replace (_ && _) with true by lia. cbn [obind]. replace (i <? nMaxCount d) with true by lia. cbn [obind].
    unfold upd_cells. cbn [with_count ptrs]. rewrite Ep. cbn [blk_cells]. rewrite zlen_app in Hz.
    destruct (zsplit rest (i - zlen items)) as (gap & post & -> & Hgap); [lia|]. destruct post as [|y post]; [rewrite app_nil_r in Hz; lia|].
    rewrite app_assoc, wr_app by (rewrite zlen_app; lia). cbn [obind blk_addr nItemCount hHeap nGrow nMaxCount].
    eexists _, (items ++ gap ++ [p]). split; [done|]. split; [|split; [done|constructor; rewrite zlen_app; lia]].
    rewrite zlen_app, zlen_cons in Hz. split; cbn [with_count nItemCount ptrs nGrow nMaxCount blk_cells]; [rewrite !zlen_app, (@zlen_cons Z p []), zlen_nil; lia| |done|done].
    split; [rewrite !zlen_app, zlen_cons; lia|]. exists post. by rewrite <- !app_assoc.
  - cbn [obind]. unfold upd_cells. rewrite Ep. cbn [blk_cells]. rewrite wr_in by (rewrite zlen_app; lia).
    rewrite insert_app_l by (unfold zlen in *; lia). cbn [obind blk_addr].
    eexists _, (<[Z.to_nat i := p]> items). split; [done|]. split; [|split; [done|apply s_set; lia]].
    split; cbn [with_count nItemCount ptrs nGrow nMaxCount blk_cells]; [by rewrite zlen_insert| |done|done].
    split; [rewrite zlen_app, zlen_insert; by rewrite zlen_app in Hz|by eexists].
Qed.

(** DPA_SetPtr outside the room, or without a block *)
Lemma set_outside G k d items i p : repr G k d items -> 0 <= i -> i + G < 2 ^ 30 ->
  (i < nMaxCount d -> ptrs d = None -> DPA_SetPtr (Some d) i p = Fault) /\
  (nMaxCount d <= i -> (DPA_SetPtr (Some d) i p = Ret (Some d, false) /\ fails d) \/
     exists d', DPA_SetPtr (Some d) i p = Ret (Some d', true) /\ rd (cells d') i = Ret p /\ zlen (cells d') = nItemCount d' /\ i < nItemCount d' /\ nMaxCount d' = nMaxCount d).
Proof.
  intros R Hi Hb0. pose proof R as [Hc Hb Hg Hm]. pose proof (zlen_nonneg items). unfold DPA_SetPtr, on_handle, set_room. replace (i <? 0) with false by lia. rewrite Hc. unfold add_int. split.
  - intros Hl Hp. rewrite Hp in Hb. subst items. change (zlen (@nil Z)) with 0. replace (0 <=? i) with true by lia. replace (_ && _) with true by lia. cbn [obind]. replace (i <? nMaxCount d) with true by lia. cbn [obind].
    unfold upd_cells. cbn [with_count ptrs]. by rewrite Hp.
  - intros Hl. assert (Hn : zlen items <= i). { destruct (ptrs d); [destruct Hb as (Hz & rest & Hr); rewrite Hr, zlen_app in Hz; pose proof (zlen_nonneg rest); lia|subst; done]. }
    replace (zlen items <=? i) with true by lia. replace (_ && _) with true by lia. cbn [obind]. replace (i <? nMaxCount d) with false by lia.
    set (q := Z.quot i (nGrow d)). set (n := nGrow d * (q + 1)). assert (Hq : 0 <= q <= i /\ i < n <= i + G).
    { unfold n, q. rewrite Z.quot_div_nonneg by lia. pose proof (Z.div_mod i (nGrow d)). pose proof (Z.mod_pos_bound i (nGrow d)). pose proof (Z.div_pos i (nGrow d)). nia. }
    unfold round_up, div_int. replace (_ || _) with false by lia. cbn [obind]. fold q. unfold add_int. replace (_ && _) with true by lia. cbn [obind]. unfold mul_int. fold n. replace (_ && _) with true by lia. cbn [obind].
    assert (Hre : (HeapReAlloc (hHeap d) psize (ptrs d) (u32 (n * psize)) = None /\ fails d) \/ exists a c, HeapReAlloc (hHeap d) psize (ptrs d) (u32 (n * psize)) = Some (Block a c) /\ zlen c = n).
    { destruct (ptrs d) as [b|]; [destruct Hb as (_ & rest & Hr); destruct (realloc_keeps (hHeap d) b items rest n Hr ltac:(lia)) as [(a & rest' & E & Hz)|[E Hf]]|destruct (alloc_zero (hHeap d) n ltac:(lia)) as [(a & E)|[E Hf]]].
      - right. eauto.
      - left. split; [done|by right].
      - right. exists a, (replicate (Z.to_nat n) 0). split; [done|unfold zlen; rewrite length_replicate; lia].
      - left. split; [done|by left]. }
    destruct Hre as [[-> Hf]|(a & c & -> & Hz)]; cbn [obind]; [by left|right]. unfold upd_cells. cbn [ptrs blk_cells]. rewrite wr_in by lia. cbn [obind blk_addr nItemCount hHeap nGrow nMaxCount].
    eexists. split; [done|]. unfold cells. cbn [ptrs blk_cells nItemCount nMaxCount]. rewrite (rd_in 0), zlen_insert by (rewrite zlen_insert; lia). split_and!; [|lia|lia|done].
    f_equal. unfold nthZ. replace (i <? 0) with false by lia. rewrite list_lookup_insert_eq; [done|unfold zlen in *; lia].
Qed.

(** ** Searches and the sort *)
Lemma index_spec pre items rest p :
  index_loop (length items) (pre ++ items ++ rest) (zlen pre) p = Ret (first_index (fun q => q =? p) items (zlen pre)).
Proof.
  revert pre. induction items as [|x items IH]; intros pre; [done|]. cbn [index_loop length first_index app]. rewrite rd_app by done. cbn [obind].
  destruct (x =? p); [done|]. specialize (IH (pre ++ [x])). by rewrite <- app_assoc, zlen_snoc in IH.
Qed.
Lemma linear_spec pre items rest p :
  linear_loop cmp (length items) (pre ++ items ++ rest) p (zlen pre) = Ret (first_index (fun q => cmp p q =? 0) items (zlen pre)).
Proof.
  revert pre. induction items as [|x items IH]; intros pre; [done|]. cbn [linear_loop length first_index app]. rewrite rd_app by done. cbn [obind].
  destruct (cmp p x =? 0); [done|]. specialize (IH (pre ++ [x])). by rewrite <- app_assoc, zlen_snoc in IH.
Qed.
Lemma repr_cells G k d items : repr G k d items -> exists rest, cells d = items ++ rest.
Proof.
  intros [Hc Hb Hg Hm]. unfold cells. destruct (ptrs d); [by destruct Hb as (_ & rest & ->); eauto|]. subst. by exists [].
Qed.
Lemma find_spec G k d items p start : repr G k d items -> -1 <= start -> p <> 0 ->
  DPA_Search (Some d) p start (Some cmp) 0 = Ret (first_index (fun q => cmp p q =? 0) (drop (Z.to_nat start) items) (Z.max start 0)).
Proof.
  intros R Hs Hp. destruct (repr_cells _ _ _ _ R) as (rest & Hr). unfold DPA_Search. replace (p =? 0) with false by lia. cbn [flag].
  replace (if start =? -1 then 0 else start) with (Z.max start 0) by (destruct (Z.eqb_spec start (-1)); lia). replace (Z.to_nat start) with (Z.to_nat (Z.max start 0)) by lia.
  assert (Hm : 0 <= Z.max start 0) by lia. revert Hm. generalize (Z.max start 0). clear start Hs. intros start Hs. change (flag 0 DPAS_SORTED) with false. cbv iota. rewrite (r_count _ _ _ _ R), Hr.
  destruct (decide (start <= zlen items)) as [Hl|Hl].
  - destruct (zsplit items start) as (pre & post & -> & ->); [lia|]. rewrite zlen_app, zlen_nat, drop_app_length, <- app_assoc.
    replace (Z.to_nat (zlen pre + zlen post - zlen pre)) with (length post) by (unfold zlen; lia). apply linear_spec.
  - rewrite drop_ge by (unfold zlen in *; lia). by replace (Z.to_nat (zlen items - start)) with 0%nat by lia.
Qed.
Lemma sort_spec G k d items : repr G k d items -> k * G < 2 ^ 30 ->
  exists d' items', sort_ptrs cmp d = Ret d' /\ repr G k d' items' /\ hHeap d' = hHeap d /\ sorted_form cmp items items' /\
    nMaxCount d' = nMaxCount d /\ blk_addr <$> ptrs d' = blk_addr <$> ptrs d.
Proof.
  intros R HG. pose proof R as [Hc Hb Hg Hm]. unfold sort_ptrs. rewrite Hc.
  assert (Hsmall : zlen items <= 1 -> sorted_form cmp items items).
  { intros Hl. split; [done|]. intros _. split; [|by intros ?]. destruct items as [|x [|y items]]; [constructor|repeat constructor|]. rewrite !zlen_cons in Hl. pose proof (zlen_nonneg items). lia. }
  destruct (Z.ltb_spec 1 (zlen items)) as [Hl|Hl]; [|exists d, items; split_and!; done || by apply Hsmall].
  destruct (ptrs d) as [[a c]|] eqn:Ep; [|by subst]. cbn [andb blk_cells] in *. destruct Hb as (Hz & rest & ->).
  destruct (QuickSort_spec cmp (S (Z.to_nat (zlen items))) [] items rest) as (ys & E & F); [unfold zlen in *; lia|cbn [app]; lia|].
  unfold upd_cells. rewrite Ep. cbn [blk_cells]. change (zlen (@nil Z)) with 0 in E. cbn [app] in E. rewrite Z.add_0_l in E. rewrite E. cbn [obind blk_addr].
  assert (Hy : zlen ys = zlen items) by (unfold zlen; f_equal; apply Permutation_length, F).
  eexists _, ys. split; [done|]. split; [|split_and!; done].
  split; cbn [nItemCount ptrs nGrow nMaxCount blk_cells]; [lia| |done|done]. rewrite zlen_app, Hy, <- zlen_app. eauto.
Qed.
(** DPA_Create gives an empty array *)
Lemma create_spec g d a : DPA_Create g = Ret (Some (a, d)) -> g < 2 ^ 28 -> repr (Z.max 8 g) 2 d [].
Proof.
  unfold DPA_Create. intros E Hg. destruct (heap_alloc COMCTL32_hHeap 20); [|done]. unfold mul_int in E. replace (_ && _) with true in E by lia. cbn [obind] in E.
  injection E as _ <-. split; cbn [nItemCount ptrs nGrow nMaxCount]; [done| |lia|lia].
  unfold COMCTL32_Alloc. destruct (alloc_zero COMCTL32_hHeap (Z.max 8 g * 2)) as [(b & ->)|(-> & _)]; [lia| |done]. cbn [blk_cells].
  split; [unfold zlen; rewrite length_replicate; lia|by eexists].
Qed.

(** the call [op] does to [items] what the sequence does *)
Definition simulated (G k : Z) (d : DPA) (items : list Z) (op : dpa_op) : Prop :=
  exists d' items' res, exec d op = Ret (Some d', res) /\ repr G (k + 1) d' items' /\ hHeap d' = hHeap d /\
    spec cmp (fails d) (refuses d) items op items' res.

Section Step.
Context (G k : Z) (d : DPA) (items : list Z).
Context (R : repr G k d items) (Hk : 2 <= k) (Hn : (k + 1) * G < 2 ^ 30).
Lemma room_bound : k * G < 2 ^ 30.
Proof. destruct R. nia. Qed.
Lemma repr_next d' items' : repr G k d' items' -> repr G (k + 1) d' items'.
Proof using. apply repr_le. lia. Qed.
#[local] Hint Resolve repr_next room_bound : core.
Lemma sim_insert i p : supported G d (OpInsert i p) -> simulated G k d items (OpInsert i p).
Proof.
  intros Hs. pose proof R as [Hc Hb Hg Hm]. unfold simulated. cbn [exec supported lift] in *.
  unfold DPA_InsertPtr, on_handle. destruct (decide (i < 0)) as [Hi|Hi].
  { unfold insert_ptr. replace (i <? 0) with true by lia. cbn [obind]. exists d, items, (RInt (-1)). split_and!; auto. apply s_insert_bad. by left. }
  destruct (insert_spec G k d items i p) as [(-> & Hf)|(d' & -> & R' & Hh)]; [done|done|done|lia| |]; cbn [obind].
  + exists d, items, (RInt (-1)). split_and!; auto. apply s_insert_bad. by right.
  + eexists d', _, _. split_and!; [done|done|done|]. apply s_insert. lia.
Qed.
Lemma sim_set i p : supported G d (OpSet i p) -> simulated G k d items (OpSet i p).
Proof.
  intros Hs. pose proof R as [Hc Hb Hg Hm]. unfold simulated. cbn [exec supported lift] in *.
  destruct Hs as (Hi & Hp). destruct (decide (i < 0)) as [Hi0|Hi0].
  { unfold DPA_SetPtr, on_handle. replace (i <? 0) with true by lia. exists d, items, (RBool false). split_and!; auto. by apply s_set_bad. }
  destruct (set_spec G k d items i p) as (d' & items' & -> & R' & Hh & S'); [done|done|lia|done|]. cbn [obind].
  exists d', items', (RBool true). split_and!; auto.
Qed.
Lemma sim_delete i : supported G d (OpDelete i) -> simulated G k d items (OpDelete i).
Proof.
  intros Hs. pose proof R as [Hc Hb Hg Hm]. unfold simulated. cbn [exec supported lift] in *.
  unfold DPA_DeletePtr, on_handle. destruct (decide (0 <= i < zlen items)) as [Hi|Hi].
  + destruct (zsplit items i) as (pre & post & -> & ->); [lia|]. destruct post as [|x post]; [rewrite app_nil_r in Hi; lia|].
    destruct (delete_spec G k d pre x post) as (d' & r & -> & R' & Hh & Hr); [done|done|done|]. cbn [obind].
    eexists d', _, _. split_and!; [done|apply (repr_le G k); [lia|exact R']|done|]. destruct Hr as [->|(-> & Hf)]; [constructor|by apply s_delete_fail].
  + unfold delete_ptr. rewrite Hc. replace (_ || _) with true by lia. cbn [obind]. exists d, items, (RPtr 0). split_and!; auto. by apply s_delete_bad.
Qed.
Lemma sim_delete_all : supported G d (OpDeleteAll) -> simulated G k d items (OpDeleteAll).
Proof.
  intros Hs. pose proof R as [Hc Hb Hg Hm]. unfold simulated. cbn [exec supported lift] in *.
  unfold DPA_DeleteAllPtrs, on_handle. destruct (match ptrs d with Some b => negb _ | None => false end) eqn:Ef.
  + exists d, items, (RBool false). split_and!; auto. apply s_delete_all_fail. destruct (ptrs d) as [b|]; [|done]. exists (blk_addr b). by apply negb_true_iff.
  + unfold mul_int. replace (_ && _) with true by nia. cbn [obind]. eexists _, [], _. split; [done|]. split; [|split; [done|constructor]].
    split; cbn [nItemCount ptrs nGrow nMaxCount]; [done| |done|nia].
    destruct (alloc_zero (hHeap d) (nGrow d * 2)) as [(b & ->)|(-> & _)]; [nia| |done]. cbn [blk_cells].
    split; [unfold zlen; rewrite length_replicate; lia|by eexists].
Qed.
Lemma sim_grow g : supported G d (OpGrow g) -> simulated G k d items (OpGrow g).
Proof.
  intros Hs. pose proof R as [Hc Hb Hg Hm]. unfold simulated. cbn [exec supported lift] in *.
  exists (mkDPA (nItemCount d) (ptrs d) (hHeap d) (Z.max 8 g) (nMaxCount d)), items, (RBool true). split_and!; auto; [|constructor].
  destruct (repr_next _ _ R). split; cbn [nItemCount ptrs nGrow nMaxCount]; done || lia.
Qed.
Lemma sim_sort : supported G d (OpSort) -> simulated G k d items (OpSort).
Proof.
  intros Hs. pose proof R as [Hc Hb Hg Hm]. unfold simulated. cbn [exec supported lift] in *.
  unfold DPA_Sort, on_handle. destruct (sort_spec G k d items) as (d' & items' & -> & R' & Hh & F & _); [done|done|]. cbn [obind].
  exists d', items', (RBool true). split_and!; auto. by constructor.
Qed.
Lemma sim_get i : supported G d (OpGet i) -> simulated G k d items (OpGet i).
Proof.
  intros Hs. pose proof R as [Hc Hb Hg Hm]. unfold simulated. cbn [exec supported lift] in *.
  exists d, items, (RPtr (nthZ 0 items i)). split_and!; auto; [|constructor]. unfold DPA_GetPtr. destruct (ptrs d) as [b|].
  + destruct Hb as (Hz & rest & ->). rewrite Hc. destruct (decide (0 <= i < zlen items)) as [Hi|Hi].
    * replace (_ || _) with false by lia. destruct (zsplit items i) as (pre & post & -> & ->); [lia|]. destruct post as [|x post]; [rewrite app_nil_r in Hi; lia|].
      rewrite <- app_assoc. cbn [app]. rewrite rd_app by done. cbn [obind]. do 3 f_equal. unfold nthZ. pose proof (zlen_nonneg pre). replace (_ <? 0) with false by lia.
      by rewrite zlen_nat, list_lookup_middle.
    * replace (_ || _) with true by lia. cbn [obind]. by rewrite nthZ_out by lia.
  + cbn [obind]. rewrite Hb, nthZ_out; [done|change (zlen (@nil Z)) with 0; lia].
Qed.
Lemma sim_index p : supported G d (OpIndex p) -> simulated G k d items (OpIndex p).
Proof.
  intros Hs. pose proof R as [Hc Hb Hg Hm]. unfold simulated. cbn [exec supported lift] in *.
  exists d, items, (RInt (first_index (fun q => q =? p) items 0)). split_and!; auto; [|constructor]. unfold DPA_GetPtrIndex.
  destruct (ptrs d) as [b|]; [|by rewrite Hb]. destruct Hb as (Hz & rest & ->). rewrite Hc, zlen_nat.
  pose proof (index_spec [] items rest p) as E. cbn [app] in E. change (zlen (@nil Z)) with 0 in E. by rewrite E.
Qed.
Lemma sim_find p start : supported G d (OpFind p start) -> simulated G k d items (OpFind p start).
Proof.
  intros Hs. pose proof R as [Hc Hb Hg Hm]. unfold simulated. cbn [exec supported lift] in *.
  destruct (decide (p = 0)) as [->|Hp]; [exists d, items, (RInt (-1)); split_and!; auto; apply s_find_null|]. rewrite (find_spec G k d items p start) by done. cbn [obind]. eexists d, items, _. split_and!; [done|auto|done|]. by constructor.
Qed.
End Step.

End Refine.
End DpaSpec.
