(* ===== verification/DpaMerge.v ===== *)
(** * The merge of pointer arrays (DPA_Merge of comctl32undoc.c)

    Without DPAM_DELETE, and with room for the new items, the merge is an outer
    join: [rmerge] is what the loop computes from the ends of the two arrays, up
    to the first NULL of the callback, [join] the result as a collection. *)
From stdpp Require Import sets sorting.
From S2P Require Import Prelude Dpa DpaSort DpaSpec.

Module DpaMerge.
Import Dpa DpaSort DpaSpec.

Section Join.
Context (cmp : Z -> Z -> Z) (M : Z -> Z -> Z -> Z) (ins : bool).

(** an item in front of a result *)
Definition put (x : Z) (m : list Z * bool) : list Z * bool := (x :: fst m, snd m).
(** what the callback gives for new items, up to the first NULL *)
Fixpoint new_items (rb : list Z) : list Z * bool :=
  match rb with
  | [] => ([], true)
  | b :: rb => if M 3 b 0 =? 0 then ([], false) else put (M 3 b 0) (new_items rb)
  end.
(** the merge of two lists that are given from their ends; when the callback
    gives NULL the items that are left stay as they are and the result is
    [false] *)
Fixpoint rmerge (ra : list Z) : list Z -> list Z * bool :=
  fix aux rb :=
    match ra, rb with
    | _, [] => (ra, true)
    | [], _ => if ins then new_items rb else ([], true)
    | a :: ra', b :: rb' =>
      if cmp a b =? 0 then if M 1 a b =? 0 then (ra, false) else put (M 1 a b) (rmerge ra' rb')
      else if 0 <? cmp a b then put a (rmerge ra' (b :: rb'))
      else if ins then if M 3 b 0 =? 0 then (ra, false) else put (M 3 b 0) (aux rb') else aux rb'
    end.

(** [a] merged with the item of [B] that compares equal *)
Definition update (B : list Z) (a : Z) : Z :=
  match filter (fun b => cmp a b = 0) B with [] => a | b :: _ => M 1 a b end.
(** [b] is not in [A] *)
Definition new_in (A : list Z) (b : Z) : Prop := Forall (fun a => cmp a b <> 0) A.
#[export] Instance new_in_dec A b : Decision (new_in A b).
Proof. unfold new_in. apply _. Defined.
(** every item of [A], merged, and the new ones of [B] *)
Definition join (A B : list Z) : list Z :=
  map (update B) A ++ (if ins then map (fun b => M 3 b 0) (filter (new_in A) B) else []).

(** the callback gives a pointer for each pair of equal items, and for each new
    item that is to be inserted *)
Definition answered (A B : list Z) : Prop :=
  (forall a b, a ∈ A -> b ∈ B -> cmp a b = 0 -> M 1 a b <> 0) /\
  (ins = true -> forall b, b ∈ B -> new_in A b -> M 3 b 0 <> 0).

Definition distinct (A : list Z) : Prop := StronglySorted (fun x y => cmp x y <> 0) A.
Definition descending (A : list Z) : Prop := StronglySorted (fun x y => 0 < cmp x y) A.

Context {L : CompareLaws cmp}.

Lemma cmp_lt_trans a b c : 0 < cmp a b -> 0 <= cmp b c -> 0 < cmp a c.
Proof using L.
  intros H1 H2. pose proof (cmp_sgn a b). pose proof (cmp_sgn b c). pose proof (cmp_sgn a c).
  destruct (decide (0 < cmp a c)) as [|Hc]; [done|]. assert (cmp a b <= 0); [|lia]. apply (cmp_trans a c b); lia.
Qed.
Lemma cmp_le_lt_trans a b c : 0 <= cmp a b -> 0 < cmp b c -> 0 < cmp a c.
Proof using L.
  intros H1 H2. pose proof (cmp_sgn a b). pose proof (cmp_sgn b c). pose proof (cmp_sgn a c).
  destruct (decide (0 < cmp a c)) as [|Hc]; [done|]. assert (cmp b c <= 0); [|lia]. apply (cmp_trans b a c); lia.
Qed.
Lemma cmp_flip a b : 0 < cmp a b -> cmp b a < 0.
Proof using L. pose proof (cmp_sgn a b). lia. Qed.

Lemma update_skip a b B : cmp a b <> 0 -> update (b :: B) a = update B a.
Proof using. intros Hn. unfold update. by rewrite filter_cons_False. Qed.
Lemma update_none a B : Forall (fun b => cmp a b <> 0) B -> update B a = a.
Proof using.
  intros HB. induction HB as [|b B Hb HB IH]; [done|]. by rewrite update_skip.
Qed.
Lemma map_update_skip A b B : Forall (fun a => cmp a b <> 0) A -> map (update (b :: B)) A = map (update B) A.
Proof using. induction 1 as [|a A Ha HA IH]; [done|]. cbn [map]. by rewrite IH, update_skip. Qed.
Lemma filter_new_skip a A B : Forall (fun b => cmp a b <> 0) B -> filter (new_in (a :: A)) B = filter (new_in A) B.
Proof using.
  induction 1 as [|b B Hb HB IH]; [done|]. destruct (decide (new_in A b)) as [Hn|Hn].
  - rewrite !filter_cons_True by (done || by constructor). by rewrite IH.
  - rewrite !filter_cons_False; [done|done|]. intros HF. apply Hn. by inversion HF.
Qed.
Lemma filter_new_nil (B : list Z) : filter (new_in []) B = B.
Proof using. induction B as [|b B IH]; [done|]. rewrite filter_cons_True by constructor. by rewrite IH. Qed.
Lemma rmerge_cons a ra b rb : rmerge (a :: ra) (b :: rb) =
  if cmp a b =? 0 then if M 1 a b =? 0 then (a :: ra, false) else put (M 1 a b) (rmerge ra rb)
  else if 0 <? cmp a b then put a (rmerge ra (b :: rb))
  else if ins then if M 3 b 0 =? 0 then (a :: ra, false) else put (M 3 b 0) (rmerge (a :: ra) rb) else rmerge (a :: ra) rb.
Proof using. done. Qed.
Lemma new_items_ok rb : (snd (new_items rb) = true <-> Forall (fun b => M 3 b 0 <> 0) rb) /\ (snd (new_items rb) = true -> fst (new_items rb) = map (fun b => M 3 b 0) rb).
Proof using.
  induction rb as [|b rb [IH1 IH2]]; [by repeat constructor|]. cbn [new_items]. destruct (Z.eqb_spec (M 3 b 0) 0) as [E|E]; [split; [split; [done|intros HF; by inversion HF]|done]|].
  cbn [put fst snd map]. rewrite list.Forall_cons. split; [|intros Hs; by rewrite IH2]. tauto.
Qed.
Lemma join_nil_r A : join A [] = A.
Proof using. unfold join. rewrite filter_nil. destruct ins; cbn [map]; rewrite app_nil_r; (induction A as [|a A IH]; [done|]); cbn [map]; by rewrite IH. Qed.

(** below an item, below its neighbours *)
Lemma all_ne_above a b B : 0 <= cmp a b -> Forall (fun x => 0 < cmp b x) B -> Forall (fun x => cmp a x <> 0) B.
Proof using L. intros Ha. apply Forall_impl. intros x Hx. pose proof (cmp_le_lt_trans a b x Ha Hx). lia. Qed.
Lemma all_ne_below a b A : 0 <= cmp b a -> Forall (fun x => 0 < cmp a x) A -> Forall (fun x => cmp x b <> 0) A.
Proof using L. intros Ha. apply Forall_impl. intros x Hx. pose proof (cmp_le_lt_trans b a x Ha Hx). pose proof (cmp_sgn b x). lia. Qed.

Lemma rmerge_join ra rb : descending ra -> descending rb -> snd (rmerge ra rb) = true -> fst (rmerge ra rb) ≡ₚ join ra rb.
Proof using L.
  intros Ha. revert rb. induction Ha as [|a ra Ha IH Hx]; intros rb Hb.
  { destruct rb as [|b rb]; [by rewrite join_nil_r|]. unfold join. rewrite filter_new_nil. cbn [rmerge map app]. destruct ins; [|done]. intros Hs. by rewrite (proj2 (new_items_ok (b :: rb)) Hs). }
  induction Hb as [|b rb Hb IHb Hy]; [by rewrite join_nil_r|]. rewrite rmerge_cons. pose proof (cmp_sgn a b).
  destruct (Z.eqb_spec (cmp a b) 0) as [E|E]; [|destruct (Z.ltb_spec 0 (cmp a b)) as [Hl|Hl]].
  - destruct (M 1 a b =? 0); [done|]. cbn [put fst snd]. intros Hs. rewrite (IH rb Hb Hs). unfold join. cbn [map app]. rewrite filter_cons_False by (intros HF; by inversion HF).
    rewrite filter_new_skip by (apply (all_ne_above a b); [lia|done]). rewrite map_update_skip by (apply (all_ne_below a b); [lia|done]).
    unfold update at 2. by rewrite filter_cons_True.
  - cbn [put fst snd]. intros Hs. rewrite (IH (b :: rb)) by (done || by constructor). unfold join. cbn [map app].
    assert (Hne : Forall (fun x => cmp a x <> 0) (b :: rb)) by (constructor; [done|apply (all_ne_above a b); [lia|done]]).
    by rewrite filter_new_skip, (update_none a).
  - assert (Hne : Forall (fun x => cmp x b <> 0) (a :: ra)) by (constructor; [done|apply (all_ne_below a b); [lia|done]]).
    destruct ins eqn:Ei; [destruct (M 3 b 0 =? 0); [done|]|]; cbn [put fst snd]; intros Hs; rewrite (IHb Hs); unfold join; rewrite ?Ei; rewrite (map_update_skip (a :: ra)) by done; [|done].
    rewrite filter_cons_True by done. cbn [map]. by rewrite Permutation_middle.
Qed.
(** the result is [true] when the callback answers every call *)
Lemma rmerge_answered ra rb : descending ra -> descending rb -> snd (rmerge ra rb) = true <-> answered ra rb.
Proof using L.
  intros Ha. revert rb. induction Ha as [|a ra Ha IH Hx]; intros rb Hb.
  { destruct rb as [|b rb]; [split; [|done]; split; [|intros _]; intros ?; set_solver|]. cbn [rmerge]. unfold answered. destruct ins.
    - rewrite (proj1 (new_items_ok (b :: rb))), list.Forall_forall. split; [intros HF; split; [set_solver|intros _ y Hy _; by apply HF]|intros [_ HF] y Hy; apply HF; [done|done|constructor]].
    - split; [|done]. split; [set_solver|done]. }
  induction Hb as [|b rb Hb IHb Hy].
  { split; [|done]. split; [set_solver|intros _ ?; set_solver]. }
  rewrite rmerge_cons. pose proof (cmp_sgn a b). destruct (Z.eqb_spec (cmp a b) 0) as [E|E]; [|destruct (Z.ltb_spec 0 (cmp a b)) as [Hl|Hl]].
  - assert (N1 : Forall (fun x => cmp a x <> 0) rb) by (apply (all_ne_above a b); [lia|done]). assert (N2 : Forall (fun x => cmp x b <> 0) ra) by (apply (all_ne_below a b); [lia|done]).
    rewrite list.Forall_forall in N1, N2. assert (A1 : answered (a :: ra) (b :: rb) <-> M 1 a b <> 0 /\ answered ra rb).
    { unfold answered. setoid_rewrite elem_of_cons. split.
      - intros [H1 H3]. split; [apply H1; auto|]. split; [intros; apply H1; auto|]. intros Hi y Hy1 Hn. apply H3; [done|by right|]. constructor; [by apply N1|done].
      - intros [H0 [H1 H3]]. split.
        + intros x y [->|Hx1] [->|Hy1] Exy; [done|by apply N1 in Exy|by apply N2 in Exy|by apply H1].
        + intros Hi y [->|Hy1] Hn; inversion Hn; [done|by apply H3]. }
    rewrite A1. destruct (Z.eqb_spec (M 1 a b) 0); [split; [done|tauto]|]. cbn [put snd]. rewrite (IH rb Hb). tauto.
  - assert (N1 : Forall (fun x => cmp a x <> 0) (b :: rb)) by (constructor; [done|apply (all_ne_above a b); [lia|done]]). rewrite list.Forall_forall in N1.
    cbn [put snd]. rewrite (IH (b :: rb)) by (by constructor). unfold answered. setoid_rewrite (elem_of_cons ra). split; intros [H1 H3]; (split; [|intros Hi y Hy1 Hn; apply H3; [done|done|]]).
    + intros x y [->|Hx1] Hy1 Exy; [by apply N1 in Exy|by apply H1].
    + by inversion Hn.
    + intros; apply H1; auto.
    + constructor; [by apply N1|done].
  - assert (N2 : Forall (fun x => cmp x b <> 0) (a :: ra)) by (constructor; [done|apply (all_ne_below a b); [lia|done]]). pose proof (proj1 (list.Forall_forall _ _) N2) as N3.
    assert (A1 : answered (a :: ra) (b :: rb) <-> (ins = true -> M 3 b 0 <> 0) /\ answered (a :: ra) rb).
    { unfold answered. setoid_rewrite (elem_of_cons rb). split.
      - intros [H1 H3]. split; [intros Hi; apply H3; auto|]. split; [intros; apply H1; auto|intros; apply H3; auto].
      - intros [H0 [H1 H3]]. split; [|intros Hi y [->|Hy1] Hn; [by apply H0|by apply H3]]. intros x y Hx1 [->|Hy1] Exy; [by apply N3 in Exy|by apply H1]. }
    rewrite A1. destruct ins eqn:Ei; [destruct (Z.eqb_spec (M 3 b 0) 0); cbn [put snd]; [split; [done|tauto]|]|]; rewrite IHb; intuition congruence.
Qed.

(** ** Order of the result *)
Class KeepsKeys : Prop := {
  key1 a b : cmp a b = 0 -> cmp (M 1 a b) a = 0;
  key3 b : cmp (M 3 b 0) b = 0;
}.
Lemma below_eq x y z : cmp z y = 0 -> 0 < cmp x y -> 0 < cmp x z.
Proof using L. intros E Hx. apply (cmp_lt_trans x y z Hx). pose proof (cmp_sgn z y). lia. Qed.
Lemma new_items_below {K : KeepsKeys} x rb : Forall (fun y => 0 < cmp x y) rb -> Forall (fun y => 0 < cmp x y) (fst (new_items rb)).
Proof using L.
  induction 1 as [|b rb Hb Hrb IH]; [constructor|]. cbn [new_items]. destruct (M 3 b 0 =? 0); [constructor|]. constructor; [|done]. by apply (below_eq x b); [apply key3|].
Qed.
Lemma rmerge_below {K : KeepsKeys} x ra rb :
  Forall (fun y => 0 < cmp x y) ra -> Forall (fun y => 0 < cmp x y) rb -> Forall (fun y => 0 < cmp x y) (fst (rmerge ra rb)).
Proof using L.
  intros Ha. revert rb. induction Ha as [|a ra Ha Hra IH]; intros rb Hb.
  { destruct rb as [|b rb]; [constructor|]. cbn [rmerge]. destruct ins; [|constructor]. by apply new_items_below. }
  induction Hb as [|b rb Hb Hrb IHb]; [by constructor|]. rewrite rmerge_cons.
  destruct (Z.eqb_spec (cmp a b) 0); [|destruct (0 <? cmp a b)].
  - destruct (M 1 a b =? 0); [by constructor|]. constructor; [by apply (below_eq x a); [apply key1|]|by apply IH].
  - constructor; [done|]. apply IH. by constructor.
  - destruct ins; [|done]. destruct (M 3 b 0 =? 0); [by constructor|]. constructor; [|done]. by apply (below_eq x b); [apply key3|].
Qed.
Lemma rmerge_descending {K : KeepsKeys} ra rb : descending ra -> descending rb -> descending (fst (rmerge ra rb)).
Proof using L.
  assert (T : forall x y l, 0 <= cmp x y -> Forall (fun z => 0 < cmp y z) l -> Forall (fun z => 0 < cmp x z) l).
  { intros x y l Hxy. apply Forall_impl. intros z. by apply cmp_le_lt_trans. }
  intros Ha. revert rb. induction Ha as [|a ra Ha IH Hx]; intros rb Hb.
  { destruct rb as [|b rb]; [constructor|]. cbn [rmerge]. destruct ins; [|constructor]. induction Hb as [|y ys Hys IHy Hy]; [constructor|]. cbn [new_items]. destruct (M 3 y 0 =? 0); [constructor|].
    constructor; [done|]. apply new_items_below. apply (T _ y); [rewrite key3; lia|done]. }
  induction Hb as [|b rb Hb IHb Hy]; [by constructor|]. rewrite rmerge_cons. pose proof (cmp_sgn a b).
  destruct (Z.eqb_spec (cmp a b) 0) as [E|E]; [|destruct (Z.ltb_spec 0 (cmp a b))].
  - destruct (M 1 a b =? 0); [by constructor|]. constructor; [by apply IH|]. pose proof (key1 a b E) as E1. apply rmerge_below; [apply (T _ a); [lia|done]|].
    apply (T _ a); [lia|]. apply (T _ b); [lia|done].
  - constructor; [apply IH; by constructor|]. apply rmerge_below; [done|]. constructor; [done|]. apply (T _ b); [lia|done].
  - destruct ins; [|done]. destruct (M 3 b 0 =? 0); [by constructor|]. constructor; [done|]. pose proof (key3 b) as E3. apply (T _ b); [lia|]. apply rmerge_below; [|done].
    constructor; [lia|]. apply (T _ a); [lia|done].
Qed.

(** ** Sorted arrays, in any order of their items *)
Lemma distinct_perm A B : A ≡ₚ B -> distinct A -> distinct B.
Proof using L.
  unfold distinct. induction 1 as [|x A B P IH|x y A|A B C P1 IH1 P2 IH2]; intros HA; [done| | |by apply IH2, IH1].
  - inversion HA as [|? ? H1 H2]. subst. constructor; [by apply IH|]. by rewrite <- P.
  - inversion HA as [|? ? H1 H2]. subst. inversion H1 as [|? ? H3 H4]. inversion H2 as [|? ? H5 H6]. subst.
    constructor; [by constructor|]. constructor; [|done]. pose proof (cmp_sgn x y). lia.
Qed.
Lemma StronglySorted_snoc (R : Z -> Z -> Prop) l x : StronglySorted R l -> Forall (fun y => R y x) l -> StronglySorted R (l ++ [x]).
Proof using.
  induction 1 as [|y l Hl IH Hy]; intros HF; [repeat constructor|]. inversion HF. subst. cbn [app]. constructor; [by apply IH|].
  apply Forall_app. split; [done|by repeat constructor].
Qed.
Lemma sorted_descending A : Sorted (before cmp) A -> distinct A -> descending (reverse A).
Proof using L.
  intros HS. apply Sorted_StronglySorted in HS; [|intros a b c; apply cmp_trans]. unfold distinct, descending.
  induction HS as [|a A HS IH Ha]; intros HD; [constructor|]. inversion HD as [|? ? H1 H2]. subst. rewrite reverse_cons. apply StronglySorted_snoc; [by apply IH|].
  apply Forall_reverse. eapply Forall_impl; [|exact (Forall_and Ha H2)]. intros y [Hy1 Hy2]. unfold before in Hy1. pose proof (cmp_sgn a y). lia.
Qed.
Lemma descending_sorted A : descending A -> Sorted (before cmp) (reverse A).
Proof using L.
  intros HS. apply StronglySorted_Sorted. induction HS as [|a A HS IH Ha]; [constructor|]. rewrite reverse_cons. apply StronglySorted_snoc; [done|].
  apply Forall_reverse. eapply Forall_impl; [|exact Ha]. intros y Hy. cbv beta in Hy. unfold before. pose proof (cmp_sgn a y). lia.
Qed.
Lemma match_unique a B : distinct B -> (length (filter (fun b => (cmp a b = 0)%Z) B) <= 1)%nat.
Proof using L.
  induction 1 as [|b B HB IH Hb]; [simpl; lia|]. destruct (decide (cmp a b = 0)) as [E|E]; [|by rewrite filter_cons_False].
  rewrite filter_cons_True by done. assert (Hn : filter (fun b => cmp a b = 0) B = []); [|by rewrite Hn].
  apply elem_of_nil_inv. intros y [Hy Hin]%list_elem_of_filter. apply (proj1 (list.Forall_forall _ _) Hb y Hin).
  pose proof (cmp_sgn a b). pose proof (cmp_sgn b y). pose proof (cmp_trans b a y). pose proof (cmp_sgn a y). pose proof (cmp_trans y a b). lia.
Qed.
Lemma update_perm a B B' : B ≡ₚ B' -> distinct B -> update B a = update B' a.
Proof using L.
  intros P HB. pose proof (match_unique a B HB) as Hu. unfold update. assert (PF : filter (fun b => cmp a b = 0) B ≡ₚ filter (fun b => cmp a b = 0) B') by (by rewrite P).
  destruct (filter _ B) as [|x [|]] eqn:E; [|by apply Permutation_singleton_l in PF as <-|simpl in Hu; lia].
  by apply Permutation_nil_l in PF as <-.
Qed.
Lemma join_perm A A' B B' : A ≡ₚ A' -> B ≡ₚ B' -> distinct B -> join A B ≡ₚ join A' B'.
Proof using L.
  intros PA PB HB. unfold join.
  assert (E1 : map (update B) A ≡ₚ map (update B') A').
  { rewrite PA. clear PA. induction A' as [|a A' IH]; [done|]. cbn [map]. by rewrite IH, (update_perm a B B'). }
  assert (E2 : filter (new_in A) B ≡ₚ filter (new_in A') B').
  { rewrite (list_filter_iff (new_in A) (new_in A')) by (intros x; unfold new_in; by rewrite PA). by rewrite PB. }
  rewrite E1. destruct ins; [|done]. by rewrite (Permutation_map _ E2).
Qed.
Lemma answered_perm A A' B B' : A ≡ₚ A' -> B ≡ₚ B' -> answered A B <-> answered A' B'.
Proof using. intros PA PB. unfold answered, new_in. setoid_rewrite PA. by setoid_rewrite PB. Qed.
End Join.

(** ** The loop *)
Section Loop.
Context `{HeapOps} {T : Type} (cmp : Z -> Z -> Z) (M : Z -> Z -> Z -> Z) (pfnMerge : T -> Z -> Z -> Z -> T * Z) (dwFlags : Z).
(** the values of the merge callback do not depend on its state *)
Class MergeValues : Prop := merge_value s op p q : snd (pfnMerge s op p q) = M op p q.
Context {V : MergeValues} (Hdel : flag dwFlags DPAM_DELETE = false).
Let ins := flag dwFlags DPAM_INSERT.

(** an array at the address [a] with the items [items], before [rest] *)
Definition at_block (d0 : DPA) (a : Z) (items rest : list Z) : DPA :=
  mkDPA (zlen items) (Some (Block a (items ++ rest))) (hHeap d0) (nGrow d0) (zlen (items ++ rest)).

Lemma insert_at_block d0 a pre post y rest p : zlen ((pre ++ post) ++ y :: rest) < 2 ^ 30 ->
  insert_ptr (at_block d0 a (pre ++ post) (y :: rest)) (zlen pre) p = Ret (at_block d0 a (pre ++ p :: post) rest, zlen pre).
Proof using.
  intros Hz. pose proof (zlen_nonneg pre). pose proof (zlen_nonneg post). pose proof (zlen_nonneg rest).
  rewrite (insert_free _ a (pre ++ post) y rest); [|done|done|cbn [nItemCount nMaxCount at_block]; rewrite !zlen_app, zlen_cons; lia|done|done].
  rewrite Z.min_l by (rewrite zlen_app; lia). rewrite insert_at_app. unfold at_block. cbn [hHeap nGrow nMaxCount].
  do 2 f_equal. f_equal; rewrite !zlen_app, ?zlen_cons; rewrite ?zlen_app, ?zlen_cons; lia.
Qed.

Lemma merge_rest_spec d0 a rb out rest c2 s : zlen (out ++ rest) < 2 ^ 30 -> (length rb <= length rest)%nat ->
  exists s' rest', merge_rest pfnMerge (length rb) (at_block d0 a out rest) (reverse rb ++ c2) (zlen rb - 1) s
    = Ret (s', at_block d0 a (reverse (fst (new_items M rb)) ++ out) rest', snd (new_items M rb)) /\
    zlen (reverse (fst (new_items M rb)) ++ out ++ rest') = zlen (out ++ rest).
Proof using V.
  revert out rest c2 s. induction rb as [|b rb IH]; intros out rest c2 s Hz Hl; [by exists s, rest|]. cbn [merge_rest length new_items].
  rewrite reverse_cons, <- app_assoc. cbn [app]. rewrite rd_app by (rewrite zlen_cons; unfold zlen; rewrite length_reverse; lia). cbn [obind].
  pose proof (merge_value s 3 b 0) as Hv. destruct (pfnMerge s 3 b 0) as [s1 ptr]. simpl in Hv. subst ptr.
  destruct (M 3 b 0 =? 0); [by exists s1, rest|]. destruct rest as [|y rest]; [simpl in Hl; lia|].
  pose proof (insert_at_block d0 a [] out y rest (M 3 b 0) Hz) as Hi. cbn [app] in Hi. change (zlen (@nil Z)) with 0 in Hi. rewrite Hi. cbn [obind].
  destruct (IH (M 3 b 0 :: out) rest (b :: c2) s1) as (s' & rest' & E & Hz'); [rewrite zlen_app, ?zlen_cons in *; lia|simpl in Hl; lia|].
  exists s', rest'. rewrite zlen_cons. replace (zlen rb + 1 - 1 - 1) with (zlen rb - 1) by lia. rewrite E. cbn [put fst snd]. rewrite reverse_cons, <- !app_assoc. split; [done|].
  cbn [app] in *. rewrite Hz'. rewrite !zlen_app, !zlen_cons, zlen_app. lia.
Qed.

(** what the loop gives from the items [ra] and [rb] that are left *)
Definition merged (d0 : DPA) (a : Z) (ra rb out rest : list Z) (m : outcome (T * DPA * bool)) : Prop :=
  exists s' rest', m = Ret (s', at_block d0 a (reverse (fst (rmerge cmp M ins ra rb)) ++ out) rest', snd (rmerge cmp M ins ra rb)) /\
    zlen ((reverse (fst (rmerge cmp M ins ra rb)) ++ out) ++ rest') = zlen (reverse ra ++ out ++ rest).
Definition loop_from (fuel : nat) (d0 : DPA) (a : Z) (ra rb out rest c2 : list Z) (s : T) : outcome (T * DPA * bool) :=
  merge_loop cmp pfnMerge dwFlags fuel (at_block d0 a (reverse ra ++ out) rest) a (reverse rb ++ c2) (zlen ra - 1) (zlen rb - 1) s.
Lemma zlen_reverse (l : list Z) : zlen (reverse l) = zlen l.
Proof using. unfold zlen. by rewrite length_reverse. Qed.
Lemma rmerge_nil_r ra : rmerge cmp M ins ra [] = (ra, true).
Proof using. by destruct ra. Qed.

Lemma merged_step d0 a ra rb out rest ra' rb' out' rest' m :
  merged d0 a ra' rb' out' rest' m -> snd (rmerge cmp M ins ra rb) = snd (rmerge cmp M ins ra' rb') -> reverse (fst (rmerge cmp M ins ra rb)) ++ out = reverse (fst (rmerge cmp M ins ra' rb')) ++ out' ->
  zlen (reverse ra' ++ out' ++ rest') = zlen (reverse ra ++ out ++ rest) -> merged d0 a ra rb out rest m.
Proof using. intros (s' & r & -> & Hz) Es E Hz'. exists s', r. rewrite Es, E, <- Hz'. done. Qed.

(** the end of a round: the loop goes on when items of DPA 2 are left *)
Definition next_from (fuel : nat) (d0 : DPA) (a : Z) (ra rb out rest c2 : list Z) (s : T) : outcome (T * DPA * bool) :=
  if 0 <=? zlen rb - 1 then loop_from fuel d0 a ra rb out rest c2 s else Ret (s, at_block d0 a (reverse ra ++ out) rest, true).
(** the loop with [fuel] is right *)
Definition loop_right (fuel : nat) : Prop := forall d0 a ra rb out rest c2 s, (length ra + length rb < fuel)%nat -> rb <> [] ->
  zlen (reverse ra ++ out ++ rest) < 2 ^ 30 -> (length rb <= length rest)%nat ->
  merged d0 a ra rb out rest (loop_from fuel d0 a ra rb out rest c2 s).
Lemma next_spec fuel d0 a ra rb out rest c2 s : loop_right fuel -> (length ra + length rb < fuel)%nat ->
  zlen (reverse ra ++ out ++ rest) < 2 ^ 30 -> (length rb <= length rest)%nat ->
  merged d0 a ra rb out rest (next_from fuel d0 a ra rb out rest c2 s).
Proof using.
  intros IH H1 H2 H3. unfold next_from. destruct rb as [|b rb]; [|rewrite zlen_cons; pose proof (zlen_nonneg rb); replace (0 <=? _) with true by lia; by apply IH].
  change (0 <=? zlen (@nil Z) - 1) with false. exists s, rest. rewrite rmerge_nil_r. split; [done|]. by rewrite <- app_assoc.
Qed.
(** DPA 1 is used up: the rest of DPA 2 is inserted *)
Lemma loop_empty fuel d0 a b rb out rest c2 s : zlen (out ++ rest) < 2 ^ 30 -> (length (b :: rb) <= length rest)%nat ->
  merged d0 a [] (b :: rb) out rest (loop_from (S fuel) d0 a [] (b :: rb) out rest c2 s).
Proof using V.
  intros Hz Hl. pose proof (zlen_nonneg rb) as Hrb. unfold loop_from. cbn [merge_loop].
  change (zlen (@nil Z) - 1 <? 0) with true. cbv iota. rewrite zlen_cons. replace (0 <=? _) with true by lia. cbn [andb]. fold ins. unfold merged. cbn [rmerge].
  change (reverse (@nil Z) ++ out) with out. change (reverse (@nil Z) ++ out ++ rest) with (out ++ rest).
  destruct ins; [|by exists s, rest].
  replace (Z.to_nat (zlen rb + 1 - 1 + 1)) with (length (b :: rb)) by (unfold zlen; simpl; lia).
  destruct (merge_rest_spec d0 a (b :: rb) out rest c2 s) as (s' & rest' & E & Hz'); [done|done|]. rewrite zlen_cons in E. rewrite E.
  exists s', rest'. split; [done|]. by rewrite <- app_assoc.
Qed.

(** the outcome of the goal is the one of [m'] *)
Ltac next_is m' := match goal with |- merged _ _ _ _ _ _ ?m => replace m with m' end.

Lemma merge_loop_spec fuel : loop_right fuel.
Proof using V Hdel.
  induction fuel as [|fuel IH]; intros d0 a ra rb out rest c2 s Hf Hb Hz Hl; [lia|].
  destruct rb as [|b rb]; [done|]. pose proof (zlen_nonneg rb) as Hrb. destruct ra as [|x ra]; [by apply loop_empty|]. unfold loop_from. cbn [merge_loop].
  pose proof (zlen_nonneg ra). rewrite (zlen_cons x ra). replace (zlen ra + 1 - 1 <? 0) with false by lia. unfold work1. cbn [at_block ptrs blk_addr]. rewrite Z.eqb_refl. cbn [obind blk_cells].
  rewrite (reverse_cons ra x), <- !app_assoc. cbn [app]. rewrite rd_app by (rewrite zlen_reverse; lia). cbn [obind].
  rewrite (reverse_cons rb b), <- app_assoc. cbn [app]. rewrite rd_app by (rewrite zlen_reverse, zlen_cons; lia). cbn [obind].
  pose proof (rmerge_cons cmp M ins x ra b rb) as Hrm. rewrite (zlen_cons b rb). rewrite reverse_cons, <- app_assoc in Hz. cbn [app] in Hz. rewrite !zlen_app, zlen_cons, zlen_app in Hz. cbn [length] in Hf, Hl.
  replace (zlen ra + 1 - 1 - 1) with (zlen ra - 1) by lia. replace (zlen rb + 1 - 1 - 1) with (zlen rb - 1) by lia.
  assert (Hlen : zlen (reverse (x :: ra) ++ out ++ rest) = zlen ra + 1 + zlen out + zlen rest) by (rewrite !zlen_app, zlen_reverse, zlen_cons; lia). rewrite zlen_reverse in Hz.
  assert (stops : forall s1, rmerge cmp M ins (x :: ra) (b :: rb) = (x :: ra, false) -> merged d0 a (x :: ra) (b :: rb) out rest (Ret (s1, at_block d0 a (reverse ra ++ x :: out) rest, false))).
  { intros s1 Es. exists s1, rest. rewrite Es. cbn [fst snd]. by rewrite (reverse_cons ra x), <- !app_assoc. }
  destruct (Z.eqb_spec (cmp x b) 0) as [E|E]; [|destruct (Z.ltb_spec 0 (cmp x b)) as [Hc|Hc]].
  - pose proof (merge_value s 1 x b) as Hv. destruct (pfnMerge s 1 x b) as [s1 ptr]. simpl in Hv. subst ptr.
    destruct (M 1 x b =? 0); [by apply stops|]. unfold upd_cells. cbn [at_block ptrs blk_cells]. rewrite <- !app_assoc. cbn [app]. rewrite wr_app by (rewrite zlen_reverse; lia).
    eapply (merged_step d0 a _ _ _ _ ra rb (M 1 x b :: out) rest); [|by rewrite Hrm|rewrite Hrm; cbn [put fst]; rewrite reverse_cons, <- app_assoc; done|rewrite Hlen, !zlen_app, zlen_cons, zlen_reverse; lia].
    next_is (next_from fuel d0 a ra rb (M 1 x b :: out) rest (b :: c2) s1).
    + apply next_spec; [done|lia|rewrite !zlen_app, zlen_cons, zlen_reverse; lia|lia].
    + cbn [obind nItemCount hHeap nGrow nMaxCount blk_addr]. unfold next_from, loop_from, at_block. rewrite <- !app_assoc. cbn [app]. rewrite !zlen_app, !zlen_cons, !zlen_app. reflexivity.
  - rewrite Hdel. cbn [obind].
    eapply (merged_step d0 a _ _ _ _ ra (b :: rb) (x :: out) rest); [|by rewrite Hrm|rewrite Hrm; cbn [put fst]; rewrite reverse_cons, <- app_assoc; done|rewrite Hlen, !zlen_app, zlen_cons, zlen_reverse; lia].
    next_is (next_from fuel d0 a ra (b :: rb) (x :: out) rest c2 s).
    + apply next_spec; [done|simpl; lia|rewrite !zlen_app, zlen_cons, zlen_reverse; lia|simpl; lia].
    + unfold next_from, loop_from. rewrite zlen_cons, (reverse_cons rb b), <- app_assoc. reflexivity.
  - fold ins. destruct (Bool.bool_dec ins true) as [Ei|Ei]; [|apply not_true_is_false in Ei]; rewrite Ei in Hrm; cbv iota in Hrm; rewrite <- Ei in Hrm; rewrite Ei.
    + pose proof (merge_value s 3 b 0) as Hv. destruct (pfnMerge s 3 b 0) as [s1 ptr]. simpl in Hv. subst ptr.
      destruct (M 3 b 0 =? 0); [by apply stops|]. destruct rest as [|y rest]; [simpl in Hl; lia|]. rewrite zlen_cons in *.
      pose proof (insert_at_block d0 a (reverse ra ++ [x]) out y rest (M 3 b 0)) as Hi. rewrite <- !app_assoc, zlen_snoc, zlen_reverse in Hi. cbn [app] in Hi.
      replace (zlen ra + 1 - 1 + 1) with (zlen ra + 1) by lia. rewrite Hi by (rewrite zlen_app, zlen_cons, zlen_app, zlen_cons, zlen_reverse; lia). cbn [obind].
      eapply (merged_step d0 a _ _ _ _ (x :: ra) rb (M 3 b 0 :: out) rest); [|by rewrite Hrm|rewrite Hrm; cbn [put fst]; rewrite reverse_cons, <- app_assoc; done|rewrite Hlen, !zlen_app, zlen_cons, zlen_reverse, zlen_cons; lia].
      next_is (next_from fuel d0 a (x :: ra) rb (M 3 b 0 :: out) rest (b :: c2) s1).
      * apply next_spec; [done|simpl in *; lia|rewrite !zlen_app, zlen_cons, zlen_reverse, zlen_cons; lia|simpl in *; lia].
      * unfold next_from, loop_from. rewrite zlen_cons, (reverse_cons ra x), <- !app_assoc. reflexivity.
    + eapply (merged_step d0 a _ _ _ _ (x :: ra) rb out rest); [|by rewrite Hrm|by rewrite Hrm|done].
      next_is (next_from fuel d0 a (x :: ra) rb out rest (b :: c2) s).
      * apply next_spec; [done|simpl in *; lia|lia|lia].
      * unfold next_from, loop_from. rewrite zlen_cons, (reverse_cons ra x), <- !app_assoc. reflexivity.
Qed.
End Loop.
End DpaMerge.
