(* ===== verification/DpaCalls.v ===== *)
(** * The calls of pointer arrays

    The refinement, the sort, the searches, the merge and the copies, for any
    heap; and what goes wrong at the borders. *)
From stdpp Require Import sets sorting.
From S2P Require Import Prelude Dpa DpaSort DpaSpec DpaMerge.

Module DpaCalls.
Import Dpa DpaSort DpaSpec DpaMerge.

Section Calls.
Context `{HeapOps} (cmp : Z -> Z -> Z).

(** C26: an array of DPA_Create holds the empty sequence, and from an array that
    holds a sequence every insertion, deletion, sort, read and linear search from
    -1 or an index, and every change at an index below the room of a block,
    returns without touching memory outside the array, leaves a well-formed
    array, and gives the sequence and the result that the abstract calls give; an
    allocation that fails loses no pointer of the others.  The other changes are
    described exactly: without a block a change inside the room faults; at an
    index behind the room it fails when the heap fails, and else the pointer is
    stored in a larger block with a count of items above the room that the
    array still names, so that the array holds no sequence any more (see
    [setptr_overrun]). *)
Theorem dpa_refines_sequence :
  (forall g a d, DPA_Create g = Ret (Some (a, d)) -> g < 2 ^ 28 -> repr (Z.max 8 g) 2 d []) /\
  (forall G k d items op, repr G k d items -> 2 <= k -> (k + 1) * G < 2 ^ 30 -> supported G d op ->
     exists d' items' res, exec cmp d op = Ret (Some d', res) /\ repr G (k + 1) d' items' /\ hHeap d' = hHeap d /\
       spec cmp (fails d) (refuses d) items op items' res) /\
  (forall G k d items i p, repr G k d items -> 0 <= i -> i + G < 2 ^ 30 ->
     (i < nMaxCount d -> ptrs d = None -> DPA_SetPtr (Some d) i p = Fault) /\
     (nMaxCount d <= i -> (DPA_SetPtr (Some d) i p = Ret (Some d, false) /\ fails d) \/
        exists d', DPA_SetPtr (Some d) i p = Ret (Some d', true) /\ rd (cells d') i = Ret p /\ zlen (cells d') = nItemCount d' /\ i < nItemCount d' /\ nMaxCount d' = nMaxCount d /\
          forall G' k' items', ~ repr G' k' d' items')).
Proof.
  split; [intros g a d E Hg; by apply (create_spec g d a)|split].
  - intros G k d items op R Hk Hn Hs.
    destruct op; [apply sim_insert|apply sim_set|apply sim_delete|apply sim_delete_all|apply sim_grow|apply sim_sort|apply sim_get|apply sim_index|apply sim_find]; done.
  - intros G k d items i p R Hi Hn. destruct (set_outside G k d items i p R Hi Hn) as [H1 H2]. split; [done|]. intros Hm. destruct (H2 Hm) as [Hf|(d' & E & Er & Hz & Hc & Hx)]; [by left|right].
    exists d'. split_and!; try done. intros G' k' items' [_ Hb _ _]. unfold cells in *. destruct (ptrs d') as [b|]; [destruct Hb as [Hb _]; lia|change (zlen (@nil Z)) with 0 in Hz; lia].
Qed.

(** C24: DPA_Sort returns for every compare function and leaves a permutation of
    the items; when the compare function orders the items, they are sorted, and
    items that compare equal are in the order they had. *)
Theorem DPA_Sort_stable G k d items : repr G k d items -> k * G < 2 ^ 30 ->
  exists d' items', DPA_Sort (Some d) (Some cmp) = Ret (Some d', true) /\ repr G k d' items' /\ items' ≡ₚ items /\
    (CompareLaws cmp -> Sorted (fun a b => cmp a b <= 0) items' /\
       forall x, filter (fun y => cmp x y = 0) items' = filter (fun y => cmp x y = 0) items).
Proof.
  intros R HG. destruct (sort_spec cmp G k d items R HG) as (d' & items' & E & R' & _ & (P & F) & _).
  exists d', items'. unfold DPA_Sort, on_handle. rewrite E. split_and!; [done|done|done|exact F].
Qed.

(** ** Binary search *)
(** where the loop ends: an equal item, or the border between the smaller and
    the larger ones *)
Definition search_ends (c : list Z) (p l r : Z) (res : Z + (Z * Z)) : Prop :=
  match res with
  | inl n => n = 0 /\ exists x, l <= x <= r /\ cmp p (nthZ 0 c x) = 0
  | inr (l', r') => r' = l' - 1 /\ l <= l' <= r + 1 /\
      (forall x, l <= x < l' -> 0 < cmp p (nthZ 0 c x)) /\ (forall x, l' <= x <= r -> cmp p (nthZ 0 c x) < 0)
  end.
Lemma search_loop_spec {L : CompareLaws cmp} fuel c p l r :
  (forall x y, l <= x <= y -> y <= r -> cmp (nthZ 0 c x) (nthZ 0 c y) <= 0) ->
  0 <= l <= r + 1 -> r < zlen c -> zlen c < 2 ^ 30 -> r - l + 1 < Z.of_nat fuel ->
  exists res, search_loop cmp fuel c p l r = Ret res /\ search_ends c p l r res.
Proof.
  revert l r. induction fuel as [|fuel IH]; intros l r HS Hl Hr Hz Hf; [lia|]. cbn [search_loop].
  destruct (Z.leb_spec l r) as [Hlr|Hlr].
  2: { exists (inr (l, r)). split; [done|]. split_and!; try lia; intros x Hx; lia. }
  unfold add_int. replace (_ && _) with true by lia. cbn [obind]. rewrite Z.quot_div_nonneg by lia.
  set (x := (l + r) / 2). assert (Hx : l <= x <= r) by (unfold x; dlia). rewrite (rd_in 0) by lia. cbn [obind].
  pose proof (cmp_sgn p (nthZ 0 c x)) as Hsg. set (q := nthZ 0 c x) in *.
  destruct (Z.ltb_spec (cmp p q) 0) as [Hn|Hn]; destruct (Z.eqb_spec (cmp p q) 0) as [E|E]; [lia| | |].
  - destruct (IH l (x - 1)) as (res & Er & He); [intros y z Hy Hz2; apply HS; lia|lia|lia|lia|lia|]. exists res. split; [done|].
    destruct res as [n|[l' r']].
    + destruct He as (-> & y & Hy & Ey). split; [done|]. exists y. split; [lia|done].
    + destruct He as (-> & H1 & H2 & H3). split_and!; [done|lia|lia|done|]. intros y Hy. destruct (decide (y <= x - 1)); [apply H3; lia|].
      pose proof (HS x y ltac:(lia) ltac:(lia)) as Hxy. fold q in Hxy. pose proof (cmp_sgn p (nthZ 0 c y)). pose proof (cmp_trans (nthZ 0 c y) p q). pose proof (cmp_sgn q (nthZ 0 c y)).
      destruct (decide (cmp p (nthZ 0 c y) < 0)); [done|]. pose proof (cmp_trans q (nthZ 0 c y) p). lia.
  - exists (inl (cmp p q)). split; [done|]. split; [done|]. by exists x.
  - destruct (IH (x + 1) r) as (res & Er & He); [intros y z Hy Hz2; apply HS; lia|lia|lia|lia|lia|]. exists res. split; [done|].
    destruct res as [n|[l' r']].
    + destruct He as (-> & y & Hy & Ey). split; [done|]. exists y. split; [lia|done].
    + destruct He as (-> & H1 & H2 & H3). split_and!; [done|lia|lia| |done]. intros y Hy. destruct (decide (x + 1 <= y)); [apply H2; lia|].
      pose proof (HS y x ltac:(lia) ltac:(lia)) as Hxy. fold q in Hxy. destruct (decide (0 < cmp p (nthZ 0 c y))); [done|].
      pose proof (cmp_trans p (nthZ 0 c y) q). lia.
Qed.
Lemma sorted_nth {L : CompareLaws cmp} items rest x y : Sorted (fun a b => cmp a b <= 0) items -> 0 <= x <= y -> y < zlen items ->
  cmp (nthZ 0 (items ++ rest) x) (nthZ 0 (items ++ rest) y) <= 0.
Proof.
  intros HS Hx Hy. apply Sorted_StronglySorted in HS; [|intros a b c; apply cmp_trans]. unfold nthZ, zlen in *.
  replace (x <? 0) with false by lia. replace (y <? 0) with false by lia. rewrite !lookup_app_l by lia.
  destruct (lookup_lt_is_Some_2 items (Z.to_nat x)) as [a Ha]; [lia|]. destruct (lookup_lt_is_Some_2 items (Z.to_nat y)) as [b Hb]; [lia|]. rewrite Ha, Hb. simpl.
  destruct (decide (x = y)) as [->|Hne]; [rewrite Ha in Hb; simplify_eq; pose proof (cmp_sgn b b); lia|].
  rewrite <- (take_drop_middle items _ _ Ha) in HS, Hb. rewrite lookup_app_r in Hb by (rewrite length_take; lia).
  apply StronglySorted_app_1_r, StronglySorted_inv in HS as [_ HF]. rewrite length_take, Nat.min_l in Hb by lia.
  destruct (Z.to_nat y - Z.to_nat x)%nat as [|n] eqn:En; [lia|]. simpl in Hb. by apply (Forall_lookup_1 _ _ _ _ HF Hb).
Qed.

(** C28: on a sorted array the search ends.  When no item from the start on
    compares equal it returns the border between the smaller and the larger
    items, or the index before it, as the options ask; when one does, it
    returns 0 wherever the item is. *)
Theorem DPA_Search_sorted {L : CompareLaws cmp} G k d items p start : repr G k d items -> k * G < 2 ^ 30 ->
  Sorted (fun a b => cmp a b <= 0) items -> p <> 0 -> 0 <= start <= zlen items ->
  let search opt := DPA_Search (Some d) p start (Some cmp) opt in
  (exists x, start <= x < zlen items /\ cmp p (nthZ 0 items x) = 0 /\ forall opt, flag opt DPAS_SORTED = true -> search opt = Ret 0) \/
  (exists j, start <= j <= zlen items /\
     (forall x, start <= x < j -> 0 < cmp p (nthZ 0 items x)) /\ (forall x, j <= x < zlen items -> cmp p (nthZ 0 items x) < 0) /\
     search DPAS_SORTED = Ret (-1) /\ search (DPAS_SORTED + DPAS_INSERTBEFORE) = Ret (j - 1) /\ search (DPAS_SORTED + DPAS_INSERTAFTER) = Ret j).
Proof.
  intros R HG HS Hp Hs search. destruct (repr_cells _ _ _ _ R) as (rest & Hc). pose proof (zlen_nonneg rest).
  assert (Hz : zlen (items ++ rest) < 2 ^ 30).
  { destruct R as [R1 R2 R3 R4]. rewrite <- Hc. unfold cells in *. destruct (ptrs d); [destruct R2; lia|done]. }
  destruct (search_loop_spec (S (Z.to_nat (zlen items - start))) (items ++ rest) p start (zlen items - 1)) as (res & E & He);
    [intros x y Hx Hy; apply sorted_nth; [done|lia|lia]|lia|rewrite zlen_app; lia|done|lia|].
  assert (Hnth : forall x, start <= x < zlen items -> nthZ 0 (items ++ rest) x = nthZ 0 items x).
  { intros x Hx. unfold nthZ. replace (x <? 0) with false by lia. by rewrite lookup_app_l by (unfold zlen in *; lia). }
  assert (Hsearch : forall opt, flag opt DPAS_SORTED = true -> search opt = match res with inl n => Ret n | inr (l, r) =>
    if flag opt DPAS_INSERTBEFORE then Ret r else if flag opt DPAS_INSERTAFTER then Ret l else Ret (-1) end).
  { intros opt Ho. unfold search, DPA_Search. replace (p =? 0) with false by lia. replace (start =? -1) with false by lia. rewrite Ho, (r_count _ _ _ _ R), Hc, E. done. }
  destruct res as [n|[l r]].
  - destruct He as (-> & x & Hx & Ex). left. exists x. rewrite Hnth in Ex by lia. split_and!; [lia|lia|done|exact Hsearch].
  - destruct He as (-> & H1 & H2 & H3). right. exists l. split_and!; [lia|lia| | |by rewrite Hsearch..].
    + intros x Hx. rewrite <- Hnth by lia. by apply H2.
    + intros x Hx. rewrite <- Hnth by lia. apply H3. lia.
Qed.

(** ** Enumeration and copies *)
Lemma enum_loop_spec {T} (f : T -> Z -> T * Z) pre items rest s :
  enum_loop f (length items) (pre ++ items ++ rest) (zlen pre) s = Ret (visit f items s).
Proof.
  revert pre s. induction items as [|x items IH]; intros pre s; [done|]. cbn [enum_loop length visit app]. rewrite rd_app by done. cbn [obind].
  destruct (f s x) as [s1 go]. destruct (go =? 0); [done|]. specialize (IH (pre ++ [x]) s1). by rewrite <- app_assoc, zlen_snoc in IH.
Qed.
(** DPA_EnumCallback calls the callback on the items in order until it returns 0. *)
Theorem DPA_EnumCallback_visits {T} (f : T -> Z -> T * Z) G k d items s : repr G k d items -> DPA_EnumCallback (Some d) f s = Ret (visit f items s).
Proof.
  intros R. destruct (repr_cells _ _ _ _ R) as (rest & Hc). unfold DPA_EnumCallback. rewrite (r_count _ _ _ _ R), Hc. pose proof (enum_loop_spec f [] items rest s) as E.
  cbn [app] in E. change (zlen (@nil Z)) with 0 in E. rewrite zlen_nat, E. destruct (Z.leb_spec (zlen items) 0); [|done].
  destruct items as [|x items]; [done|rewrite zlen_cons in *; pose proof (zlen_nonneg items); lia].
Qed.
(** DPA_Clone: a new array with the same items, when the heap has memory. *)
Theorem DPA_Clone_copies G k d items : repr G k d items -> 2 <= k -> (k + 1) * G < 2 ^ 30 ->
  (forall sz, is_Some (heap_alloc (hHeap d) sz)) ->
  exists t, DPA_Clone (Some d) CloneNew = Ret (Some t) /\ repr G (k + 1) t items /\ nGrow t = nGrow d /\ hHeap t = hHeap d.
Proof.
  intros R Hk Hn Ha. pose proof R as [Hc Hb Hg Hm]. unfold DPA_Clone. destruct (Ha 20) as [a0 ->]. cbn [obind]. unfold clone_into. cbn [ptrs nGrow hHeap].
  pose proof (zlen_nonneg items) as H0. destruct (repr_cells _ _ _ _ R) as (rest & Hr).
  assert (Hi : zlen items <= k * G) by (destruct (ptrs d); [destruct Hb as (Hz & r & Hr2); rewrite Hr2, zlen_app in Hz; pose proof (zlen_nonneg r); lia|subst; change (zlen (@nil Z)) with 0; nia]).
  assert (HG : (k + 1) * G = k * G + G) by lia. assert (Hkg : 2 * G <= k * G) by nia.
  rewrite Hc. unfold sub_int. replace (_ && _) with true by lia. cbn [obind]. unfold round_up, div_int. replace (_ || _) with false by lia. cbn [obind].
  set (q := Z.quot (zlen items - 1) (nGrow d)). set (n := nGrow d * (q + 1)).
  assert (Hq : 0 <= q /\ zlen items <= n <= k * G + G).
  { unfold n, q. destruct (decide (zlen items = 0)) as [->|Hne].
    - assert (E : Z.quot (0 - 1) (nGrow d) = 0) by (apply Z.quot_small_iff; lia). rewrite E. nia.
    - rewrite Z.quot_div_nonneg by lia. pose proof (Z.div_mod (zlen items - 1) (nGrow d)). pose proof (Z.mod_pos_bound (zlen items - 1) (nGrow d)). pose proof (Z.div_pos (zlen items - 1) (nGrow d)). nia. }
  assert (Hqn : q + 1 <= n) by (unfold n; nia). unfold add_int. replace (_ && _) with true by lia. cbn [obind]. unfold mul_int. fold n. replace (_ && _) with true by lia. cbn [obind].
  destruct (alloc_zero (hHeap d) n) as [(a & ->)|(_ & sz & Hf)]; [lia| |destruct (Ha sz) as [? E]; by rewrite E in Hf].
  assert (Hrep : forall c, zlen c = n -> (exists r, c = items ++ r) -> repr G (k + 1) (mkDPA (zlen items) (Some (Block a c)) (hHeap d) (nGrow d) n) items).
  { intros c Hz He. split; cbn [nItemCount ptrs nGrow nMaxCount blk_cells]; [done|by split|done|lia]. }
  destruct (Z.eqb_spec (u32 (zlen items * psize)) 0) as [E0|E0]; cbn [obind].
  - assert (E1 : zlen items = 0) by (pose proof (cells_size (zlen items)) as Hcs; rewrite E0 in Hcs; rewrite <- Hcs by lia; done).
    eexists. split; [done|]. split; [|done]. apply Hrep; [unfold zlen; rewrite length_replicate; lia|]. destruct items; [by eexists|rewrite zlen_cons in E1; pose proof (zlen_nonneg items); lia].
  - unfold upd_cells. cbn [ptrs blk_cells]. rewrite cells_size by lia. rewrite Hr, read_bytes_app. cbn [obind].
    replace (replicate (Z.to_nat n) 0) with ([] ++ replicate (length items) 0 ++ replicate (Z.to_nat n - length items) 0) by (cbn [app]; rewrite <- replicate_add; f_equal; unfold zlen in *; lia).
    rewrite put_bytes_app by (done || by rewrite length_replicate). cbn [obind app nItemCount hHeap nGrow nMaxCount blk_addr]. eexists. split; [done|]. split; [|done].
    apply Hrep; [|by eexists]. unfold zlen in *. rewrite length_app, length_replicate. lia.
Qed.

(** ** Merge *)
Section Merge.
Context {T : Type} (M : Z -> Z -> Z -> Z) (pfnMerge : T -> Z -> Z -> Z -> T * Z).

(** both arrays are sorted before they are merged *)
Lemma sort_nonempty {L : CompareLaws cmp} G k d items : repr G k d items -> k * G < 2 ^ 30 ->
  exists d' items', (if 0 <? nItemCount d then sort_ptrs cmp d else Ret d) = Ret d' /\ repr G k d' items' /\ items' ≡ₚ items /\ Sorted (before cmp) items' /\
    nMaxCount d' = nMaxCount d /\ (ptrs d <> None -> ptrs d' <> None).
Proof.
  intros R HG. destruct (Z.ltb_spec 0 (nItemCount d)) as [Hl|Hl].
  - destruct (sort_spec cmp G k d items R HG) as (d' & items' & E & R' & _ & (P & F) & Hm & Hp). exists d', items'. split_and!; try done; [by apply F|].
    intros Hn. destruct (ptrs d), (ptrs d'); done.
  - rewrite (r_count _ _ _ _ R) in Hl. destruct items as [|x items]; [|rewrite zlen_cons in Hl; pose proof (zlen_nonneg items); lia]. exists d, []. by split_and!.
Qed.
Lemma repr_block G k d items : repr G k d items -> ptrs d <> None ->
  exists a rest, d = at_block d a items rest /\ zlen (items ++ rest) = nMaxCount d.
Proof.
  intros [Hc Hb Hg Hm] Hp. destruct d as [n [[a c]|] hp g m]; [|done]. cbn [nItemCount ptrs nMaxCount nGrow blk_cells] in *. destruct Hb as (Hz & rest & ->).
  exists a, rest. split; [|done]. unfold at_block. cbn [hHeap nGrow]. by subst.
Qed.

(** the merge of two sorted arrays *)
Lemma merge_sorted {V : MergeValues M pfnMerge} G k e1 e2 A1 B1 dwFlags s : repr G k e1 A1 -> repr G k e2 B1 -> k * G < 2 ^ 30 -> ptrs e1 <> None ->
  zlen A1 + zlen B1 <= nMaxCount e1 -> flag dwFlags DPAM_DELETE = false ->
  let m := rmerge cmp M (flag dwFlags DPAM_INSERT) (reverse A1) (reverse B1) in
  exists s' d1' A', (if nItemCount e2 <? 1 then Ret (s, Some e1, Some e2, true) else
    let a1 := match ptrs e1 with Some b => blk_addr b | None => 0 end in
    let! (s, d1, ok) := merge_loop cmp pfnMerge dwFlags (S (Z.to_nat (nItemCount e1 + nItemCount e2))) e1 a1 (cells e2) (nItemCount e1 - 1) (nItemCount e2 - 1) s in
    Ret (s, Some d1, Some e2, ok)) = Ret (s', Some d1', Some e2, snd m) /\ repr G k d1' A' /\ reverse A' = fst m.
Proof.
  intros R1' R2' HG Hp Hroom Fd m. rewrite (r_count _ _ _ _ R2'). destruct (Z.ltb_spec (zlen B1) 1) as [Hb|Hb].
  { assert (B1 = []) as -> by (destruct B1; [done|rewrite zlen_cons in Hb; pose proof (zlen_nonneg B1); lia]). exists s, e1, A1. unfold m. change (reverse (@nil Z)) with (@nil Z). rewrite rmerge_nil_r. done. }
  destruct (repr_block G k e1 A1 R1' Hp) as (a & rest & He1 & Hz). destruct (repr_cells _ _ _ _ R2') as (rest2 & Hc2).
  destruct (merge_loop_spec cmp M pfnMerge dwFlags Fd (S (Z.to_nat (zlen A1 + zlen B1))) e1 a (reverse A1) (reverse B1) [] rest rest2 s) as (s' & rest' & E & Hz').
  - rewrite !length_reverse. unfold zlen. lia.
  - intros Hr. apply (f_equal reverse) in Hr. rewrite reverse_involutive in Hr. subst. change (zlen (reverse [])) with 0 in Hb. lia.
  - rewrite reverse_involutive. cbn [app]. destruct R1'. lia.
  - rewrite length_reverse. rewrite zlen_app in Hz. unfold zlen in *. lia.
  - unfold loop_from in E. rewrite !reverse_involutive, !app_nil_r, !zlen_reverse in *.
    rewrite <- He1, <- Hc2 in E. rewrite (r_count _ _ _ _ R1'). replace (match ptrs e1 with Some b => blk_addr b | None => 0 end) with a by (by rewrite He1). cbv zeta. rewrite E. cbn [obind].
    eexists s', _, _. split; [done|]. split; [|apply reverse_involutive].
    destruct R1' as [C1 C2 C3 C4]. cbn [app] in Hz'. split; cbn [at_block nItemCount ptrs nGrow nMaxCount blk_cells]; [done|split; [done|by eexists]|done|lia].
Qed.

(** C25: a merge that sorts, deletes nothing and has room for the new items in
    its block.  Both arrays are sorted, then the first becomes the merge from the
    ends of the two up to the first NULL of the callback, and the call returns
    TRUE when there was none and FALSE when there was; this holds for any items.
    When no two items of one array compare equal the merge is an outer join: it
    returns TRUE exactly when the callback gives a pointer for every pair of equal
    items and every new item to insert, and then every item of the first array
    that has an equal one in the second is replaced by what the callback gives
    for the pair, the other items stay, and with DPAM_INSERT what the callback
    gives for each new item is added; when the callback keeps the order of items
    the first array is left sorted, TRUE or FALSE. *)
Theorem DPA_Merge_outer_join {L : CompareLaws cmp} {V : MergeValues M pfnMerge} G k d1 d2 A B dwFlags s :
  repr G k d1 A -> repr G k d2 B -> k * G < 2 ^ 30 ->
  ptrs d1 <> None -> zlen A + zlen B <= nMaxCount d1 -> flag dwFlags DPAM_NOSORT = false -> flag dwFlags DPAM_DELETE = false ->
  let ins := flag dwFlags DPAM_INSERT in
  exists s' d1' d2' A' B1 ok, DPA_Merge (Some d1) (Some d2) dwFlags (Some cmp) (Some pfnMerge) s = Ret (s', Some d1', Some d2', ok) /\
    repr G k d1' A' /\ repr G k d2' B1 /\ B1 ≡ₚ B /\ Sorted (before cmp) B1 /\
    (exists A1, A1 ≡ₚ A /\ Sorted (before cmp) A1 /\ rmerge cmp M ins (reverse A1) (reverse B1) = (reverse A', ok)) /\
    (distinct cmp A -> distinct cmp B -> (ok = true <-> answered cmp M ins A B) /\ (ok = true -> A' ≡ₚ join cmp M ins A B) /\
       (KeepsKeys cmp M -> Sorted (fun a b => cmp a b <= 0) A')).
Proof.
  intros R1 R2 HG Hp Hroom Fs Fd ins. unfold DPA_Merge. rewrite Fs.
  destruct (sort_nonempty G k d1 A R1 HG) as (e1 & A1 & -> & R1' & P1 & S1 & Hm1 & Hp1). destruct (sort_nonempty G k d2 B R2 HG) as (e2 & B1 & -> & R2' & P2 & S2 & _ & _). cbn [obind].
  assert (Hmerge : exists s' d1' A', (if nItemCount e2 <? 1 then Ret (s, Some e1, Some e2, true) else
    let a1 := match ptrs e1 with Some b => blk_addr b | None => 0 end in
    let! (s, d1, ok) := merge_loop cmp pfnMerge dwFlags (S (Z.to_nat (nItemCount e1 + nItemCount e2))) e1 a1 (cells e2) (nItemCount e1 - 1) (nItemCount e2 - 1) s in
    Ret (s, Some d1, Some e2, ok)) = Ret (s', Some d1', Some e2, snd (rmerge cmp M ins (reverse A1) (reverse B1))) /\ repr G k d1' A' /\ reverse A' = fst (rmerge cmp M ins (reverse A1) (reverse B1))).
  { apply (merge_sorted G k e1 e2 A1 B1 dwFlags s); [done|done|done|by apply Hp1| |done]. rewrite Hm1. unfold zlen in *. by rewrite P1, P2. }
  destruct Hmerge as (s' & d1' & A' & E & RA & EA). exists s', d1', e2, A', B1, (snd (rmerge cmp M ins (reverse A1) (reverse B1))).
  split; [exact E|]. do 4 (split; [done|]). split; [exists A1; rewrite EA; split_and!; [done|done|by destruct (rmerge _ _ _ _ _)]|]. intros D1 D2.
  pose proof (sorted_descending cmp A1 S1 (distinct_perm cmp _ _ (symmetry P1) D1)) as DA. pose proof (sorted_descending cmp B1 S2 (distinct_perm cmp _ _ (symmetry P2) D2)) as DB. split; [|split].
  - rewrite (rmerge_answered cmp M ins _ _ DA DB). apply answered_perm; by rewrite reverse_Permutation.
  - intros Hs. rewrite <- (reverse_Permutation A'), EA, (rmerge_join cmp M ins _ _ DA DB Hs). symmetry. apply join_perm; [done|by rewrite reverse_Permutation, P1|by rewrite reverse_Permutation, P2|done].
  - intros K. rewrite <- (reverse_involutive A'), EA. by apply descending_sorted, rmerge_descending.
Qed.
End Merge.

(** ** What goes wrong *)
(** without a heap DPA_CreateEx asks no heap for the pointers but sets the
    room, and the first DPA_SetPtr writes through NULL. *)
Theorem createex_without_heap {HL : HeapLaws} g a : 1 <= g <= 8 -> heap_alloc COMCTL32_hHeap 20 = Some a ->
  exists d, DPA_CreateEx g 0 = Ret (Some (a, d)) /\ nMaxCount d = g * 2 /\ ptrs d = None /\ forall i p, 0 <= i < g * 2 -> DPA_SetPtr (Some d) i p = Fault.
Proof.
  intros Hg Ha. unfold DPA_CreateEx. rewrite Z.eqb_refl, Ha, Z.min_r by lia. unfold mul_int. replace (_ && _) with true by lia. cbn [obind].
  unfold HeapAlloc. rewrite heap_null. eexists. split_and!; [done..|]. intros i p Hi. unfold DPA_SetPtr, on_handle, set_room. cbn [nItemCount nMaxCount].
  replace (i <? 0) with false by lia. replace (0 <=? i) with true by lia. unfold add_int. replace (_ && _) with true by lia. cbn [obind].
  by replace (i <? g * 2) with true by lia.
Qed.
End Calls.

(** ** Arrays of sixteen cells *)
(** a heap that grows blocks in place, or moves them *)
Definition arena (step : Z) : HeapOps :=
  {| COMCTL32_hHeap := 1;
     heap_alloc h _ := if h =? 0 then None else Some 4096;
     heap_realloc _ a _ := Some (a + step);
     heap_free _ _ := true |}.
#[export] Instance arena_laws step : HeapLaws (H := arena step).
Proof. by constructor. Qed.
Definition by_value (a b : Z) : Z := a - b.
#[export] Instance by_value_laws : CompareLaws by_value.
Proof. split; unfold by_value; intros; lia. Qed.
(** the callback: the first pointer, and a record of the calls *)
Definition record (s : list (Z * Z)) (op p q : Z) : list (Z * Z) * Z := (s ++ [(op, p)], p).
Definition first_value (op p q : Z) : Z := p.
Definition keep (s : unit) (op p q : Z) : unit * Z := (s, first_value op p q).
#[export] Instance keep_values : MergeValues first_value keep.
Proof. done. Qed.
#[export] Instance first_keeps : KeepsKeys by_value first_value.
Proof. split; unfold by_value, first_value; intros; lia. Qed.
Definition arr (l : list Z) : DPA := mkDPA (zlen l) (Some (Block 4096 (l ++ replicate (16 - length l) 0))) 1 8 16.
Lemma arr_repr l : (length l <= 16)%nat -> repr 8 2 (arr l) l.
Proof. intros Hl. split; cbn [arr nItemCount ptrs nGrow nMaxCount blk_cells]; [done| |lia|lia]. split; [unfold zlen; rewrite length_app, length_replicate; lia|by eexists]. Qed.
(** the items of an array *)
Definition items_of (d : DPA) : list Z := take (Z.to_nat (nItemCount d)) (cells d).

(** DPAM_DELETE removes the last item of the first array and not the one that is
    missing from the second: 3 goes, which is in both, and 2 stays, which is not. *)
Theorem merge_deletes_last : exists d1 d2,
  DPA_Merge (H := arena 0) (Some (arr [1; 2; 3])) (Some (arr [1; 3])) (DPAM_NOSORT + DPAM_DELETE) (Some by_value) (Some record) []
  = Ret ([(1, 3); (2, 3); (1, 1)], Some d1, Some d2, true) /\ items_of d1 = [1; 2].
Proof. eexists _, _. split; vm_compute; reflexivity. Qed.
(** a merge that outgrows the first array goes on in the block it had before:
    when the heap moves the block, that is freed memory. *)
Theorem merge_uses_old_block :
  let A := [2; 4; 6; 8; 10; 12; 14; 16; 18; 20; 22; 24; 26; 28; 30; 32] in
  DPA_Merge (H := arena 4096) (Some (arr A)) (Some (arr [1; 33])) DPAM_INSERT (Some by_value) (Some record) [] = Fault /\
  is_ret (DPA_Merge (H := arena 0) (Some (arr A)) (Some (arr [1; 33])) DPAM_INSERT (Some by_value) (Some record) []) = true.
Proof. split; vm_compute; reflexivity. Qed.
(** DPA_SetPtr behind the room sets the number of items to the rounded size and
    keeps the old room, so the next insertion shrinks the block and writes
    behind it. *)
Theorem setptr_overrun : exists d, DPA_SetPtr (H := arena 0) (Some (arr [])) 40 5 = Ret (Some d, true) /\ nItemCount d = 48 /\ nMaxCount d = 16 /\
  DPA_InsertPtr (H := arena 0) (Some d) 48 7 = Fault.
Proof. eexists _. split; [vm_compute; reflexivity|]. split; [reflexivity|]. split; vm_compute; reflexivity. Qed.
(** DPA_CreateEx takes the smaller of 8 and the growth it is given: with 0 the
    array never gets a cell, and an insertion writes behind the block. *)
Theorem createex_no_growth : exists a d, DPA_CreateEx (H := arena 0) 0 1 = Ret (Some (a, d)) /\ DPA_InsertPtr (H := arena 0) (Some d) 0 7 = Fault /\
  exists e, DPA_CreateEx (H := arena 0) 100 1 = Ret (Some (a, e)) /\ nGrow e = 8.
Proof. eexists _, _. split; [vm_compute; reflexivity|]. split; [vm_compute; reflexivity|]. eexists. split; vm_compute; reflexivity. Qed.

(** ** Witnesses *)
Lemma dpa_refines_sequence_witness : exists d' items' res, exec (H := arena 0) by_value (arr [3; 1; 2]) (OpInsert 1 7) = Ret (Some d', res) /\ repr 8 3 d' items' /\ hHeap d' = 1 /\
  spec by_value (fails (H := arena 0) (arr [3; 1; 2])) (refuses (H := arena 0) (arr [3; 1; 2])) [3; 1; 2] (OpInsert 1 7) items' res.
Proof. apply (proj1 (proj2 (dpa_refines_sequence (H := arena 0) by_value)) 8 2 (arr [3; 1; 2]) [3; 1; 2] (OpInsert 1 7)); [apply arr_repr; simpl; lia|lia|lia|exact I]. Defined.
Lemma DPA_Sort_stable_witness : exists d' items', DPA_Sort (Some (arr [3; 1; 2])) (Some by_value) = Ret (Some d', true) /\ repr 8 2 d' items' /\ items' ≡ₚ [3; 1; 2] /\
  (CompareLaws by_value -> Sorted (fun a b => by_value a b <= 0) items' /\
     forall x, filter (fun y => by_value x y = 0) items' = filter (fun y => by_value x y = 0) [3; 1; 2]).
Proof. apply DPA_Sort_stable; [apply arr_repr; simpl; lia|lia]. Defined.
Lemma DPA_Search_sorted_witness : let search opt := DPA_Search (Some (arr [2; 4])) 4 0 (Some by_value) opt in
  (exists x, 0 <= x < 2 /\ by_value 4 (nthZ 0 [2; 4] x) = 0 /\ forall opt, flag opt DPAS_SORTED = true -> search opt = Ret 0) \/
  (exists j, 0 <= j <= 2 /\
     (forall x, 0 <= x < j -> 0 < by_value 4 (nthZ 0 [2; 4] x)) /\ (forall x, j <= x < 2 -> by_value 4 (nthZ 0 [2; 4] x) < 0) /\
     search DPAS_SORTED = Ret (-1) /\ search (DPAS_SORTED + DPAS_INSERTBEFORE) = Ret (j - 1) /\ search (DPAS_SORTED + DPAS_INSERTAFTER) = Ret j).
Proof. apply (DPA_Search_sorted by_value 8 2 (arr [2; 4]) [2; 4] 4 0); [apply arr_repr; simpl; lia|lia|repeat constructor; unfold by_value; lia|lia|vm_compute; split; discriminate]. Defined.
(** 3 is in both arrays and 2 is new; the callback has no pointer for 2 *)
Definition refuse_two (s : unit) (op p q : Z) : unit * Z := (s, if p =? 2 then 0 else p).
Definition not_two (op p q : Z) : Z := if p =? 2 then 0 else p.
Lemma DPA_Merge_outer_join_witness :
  (exists d1' d2' A', DPA_Merge (H := arena 0) (Some (arr [3; 1])) (Some (arr [2; 3])) DPAM_INSERT (Some by_value) (Some keep) tt = Ret (tt, Some d1', Some d2', true) /\
     repr 8 2 d1' A' /\ A' ≡ₚ join by_value first_value true [3; 1] [2; 3] /\ Sorted (fun a b => by_value a b <= 0) A') /\
  (exists d1' d2', DPA_Merge (H := arena 0) (Some (arr [3; 1])) (Some (arr [2; 3])) DPAM_INSERT (Some by_value) (Some refuse_two) tt = Ret (tt, Some d1', Some d2', false)).
Proof.
  assert (D1 : distinct by_value [3; 1]) by (repeat constructor; unfold by_value; lia). assert (D2 : distinct by_value [2; 3]) by (repeat constructor; unfold by_value; lia). split.
  - destruct (DPA_Merge_outer_join (H := arena 0) by_value first_value keep 8 2 (arr [3; 1]) (arr [2; 3]) [3; 1] [2; 3] DPAM_INSERT tt) as ([] & d1' & d2' & A' & B1 & ok & E & R1 & _ & _ & _ & _ & HD);
      [apply arr_repr; simpl; lia|apply arr_repr; simpl; lia|lia|discriminate|vm_compute; discriminate|reflexivity|reflexivity|].
    destruct (HD D1 D2) as (Hok & HJ & HS). assert (ok = true) as ->. { apply Hok. split; [|intros _]; intros *; unfold first_value; rewrite !elem_of_cons, elem_of_nil; lia. }
    exists d1', d2', A'. split; [exact E|]. split; [exact R1|]. split; [by apply HJ|apply HS, first_keeps].
  - destruct (DPA_Merge_outer_join (H := arena 0) (V := fun _ _ _ _ => eq_refl) by_value not_two refuse_two 8 2 (arr [3; 1]) (arr [2; 3]) [3; 1] [2; 3] DPAM_INSERT tt) as ([] & d1' & d2' & A' & B1 & ok & E & _ & _ & _ & _ & _ & HD);
      [apply arr_repr; simpl; lia|apply arr_repr; simpl; lia|lia|discriminate|vm_compute; discriminate|reflexivity|reflexivity|].
    destruct (HD D1 D2) as (Hok & _). destruct ok; [|by exists d1', d2']. destruct (proj1 Hok eq_refl) as [_ Hn]. exfalso. apply (Hn eq_refl 2); [set_solver|repeat constructor; unfold by_value; lia|reflexivity].
Defined.
End DpaCalls.
