(* ===== verification/Dsa.v ===== *)
(** * Dynamic storage arrays (dlls/comctl32/comctl32undoc.c)

    Arrays of items of a fixed size: the block is its bytes, an item the bytes
    from nItemSize times its index on.  Handles, the heap and the callbacks are
    those of the pointer arrays. *)
From S2P Require Import Prelude Dpa.

Module Dsa.
Import Dpa.

Record DSA := mkDSA { nItemCount : Z; pData : option block; nMaxCount : Z; nItemSize : Z; nGrow : Z }.

Section Dsa.
Context `{HeapOps}.

Definition DSA_Create (nSize grow : Z) : option (Z * DSA) :=
  match heap_alloc COMCTL32_hHeap 20 with
  | None => None
  | Some a => Some (a, mkDSA 0 None 0 nSize (Z.max 1 grow))
  end.

(** the structure is at [addr] *)
Definition DSA_Destroy (addr : Z) (hdsa : option DSA) : bool :=
  match hdsa with
  | None => false
  | Some d =>
    if match pData d with Some b => negb (COMCTL32_Free (blk_addr b)) | None => false end
    then false else COMCTL32_Free addr
  end.

(** [n] bytes at [off] *)
Definition read_at (c : list Z) (off n : Z) : outcome (list Z) :=
  if (0 <=? off) && (0 <=? n) && (off + n <=? zlen c)
  then Ret (take (Z.to_nat n) (drop (Z.to_nat off) c)) else Fault.
Definition bytes_of (d : DSA) : list Z := match pData d with Some b => blk_cells b | None => [] end.
Definition upd_data (d : DSA) (f : list Z -> outcome (list Z)) : outcome DSA :=
  match pData d with
  | None => Fault
  | Some b => let! c := f (blk_cells b) in
      Ret (mkDSA (nItemCount d) (Some (Block (blk_addr b) c)) (nMaxCount d) (nItemSize d) (nGrow d))
  end.
(** memmove of an item of the caller into the array *)
Definition put_item (d : DSA) (nIndex : Z) (pSrc : list Z) : outcome DSA :=
  let! off := mul_int (nItemSize d) nIndex in
  let! x := read_bytes pSrc (u32 (nItemSize d)) in
  upd_data d (fun c => put_bytes c off x).

Definition DSA_GetItem (hdsa : option DSA) (nIndex : Z) (pDest : list Z) : outcome (list Z * bool) :=
  match hdsa with
  | None => Ret (pDest, false)
  | Some d =>
    if (nIndex <? 0) || (nItemCount d <=? nIndex) then Ret (pDest, false) else
    let! off := mul_int (nItemSize d) nIndex in
    let! x := read_at (bytes_of d) off (u32 (nItemSize d)) in
    let! pDest := put_bytes pDest 0 x in
    Ret (pDest, true)
  end.

(** the offset in the block; [None]: NULL *)
Definition DSA_GetItemPtr (hdsa : option DSA) (nIndex : Z) : outcome (option Z) :=
  match hdsa with
  | None => Ret None
  | Some d =>
    if (nIndex <? 0) || (nItemCount d <=? nIndex) then Ret None else
    let! off := mul_int (nItemSize d) nIndex in Ret (Some off)
  end.

(** the array with an index [nIndex]; [None]: no memory *)
Definition set_room (d : DSA) (nIndex : Z) : outcome (option DSA) :=
  if nItemCount d <=? nIndex then
    let! i1 := add_int nIndex 1 in
    if nIndex <? nMaxCount d
    then Ret (Some (mkDSA i1 (pData d) (nMaxCount d) (nItemSize d) (nGrow d)))
    else
      let! n := round_up (nGrow d) nIndex in
      let! nSize := mul_int (nItemSize d) n in
      match COMCTL32_ReAlloc 1 (pData d) (u32 nSize) with
      | None => Ret None
      | Some b => Ret (Some (mkDSA i1 (Some b) n (nItemSize d) (nGrow d)))
      end
  else Ret (Some d).
Definition DSA_SetItem (hdsa : option DSA) (nIndex : Z) (pSrc : list Z) : outcome (option DSA * bool) :=
  on_handle hdsa false (fun d =>
    if nIndex <? 0 then Ret (d, false) else
    let! r := set_room d nIndex in
    match r with
    | None => Ret (d, false)
    | Some d => let! d := put_item d nIndex pSrc in Ret (d, true)
    end).

(** room for one more item; [None]: no memory *)
Definition grow_data (d : DSA) : outcome (option DSA) :=
  if nMaxCount d <=? nItemCount d then
    let! n := add_int (nMaxCount d) (nGrow d) in
    let! nSize := mul_int (nItemSize d) n in
    match COMCTL32_ReAlloc 1 (pData d) (u32 nSize) with
    | None => Ret None
    | Some b => Ret (Some (mkDSA (nItemCount d) (Some b) n (nItemSize d) (nGrow d)))
    end
  else Ret (Some d).
Definition DSA_InsertItem (hdsa : option DSA) (nIndex : Z) (pSrc : list Z) : outcome (option DSA * Z) :=
  on_handle hdsa (-1) (fun d =>
    if nIndex <? 0 then Ret (d, -1) else
    let nIndex := if nItemCount d <=? nIndex then nItemCount d else nIndex in
    let! r := grow_data d in
    match r with
    | None => Ret (d, -1)
    | Some d =>
      let! d :=
        (if nIndex <? nItemCount d then
           let! off := mul_int (nItemSize d) nIndex in
           let! nSize := mul_int (nItemCount d - nIndex) (nItemSize d) in
           upd_data d (fun c => memmove c (off + nItemSize d) off (u32 nSize))
         else Ret d) in
      let! n := add_int (nItemCount d) 1 in
      let! d := put_item (mkDSA n (pData d) (nMaxCount d) (nItemSize d) (nGrow d)) nIndex pSrc in
      Ret (d, nIndex)
    end).

(** memory is given back; [None]: the heap failed *)
Definition shrink_data (d : DSA) : outcome (option DSA) :=
  let! free := sub_int (nMaxCount d) (nItemCount d) in
  if nGrow d <=? free then
    let! nSize := mul_int (nItemSize d) (nItemCount d) in
    match COMCTL32_ReAlloc 1 (pData d) (u32 nSize) with
    | None => Ret None
    | Some b => Ret (Some (mkDSA (nItemCount d) (Some b) (nItemCount d) (nItemSize d) (nGrow d)))
    end
  else Ret (Some d).
Definition DSA_DeleteItem (hdsa : option DSA) (nIndex : Z) : outcome (option DSA * Z) :=
  on_handle hdsa (-1) (fun d =>
    if (nIndex <? 0) || (nItemCount d <=? nIndex) then Ret (d, -1) else
    let! d :=
      (if nIndex <? nItemCount d - 1 then
         let! off := mul_int (nItemSize d) nIndex in
         let! nSize := mul_int (nItemSize d) (nItemCount d - nIndex - 1) in
         upd_data d (fun c => memmove c off (off + nItemSize d) (u32 nSize))
       else Ret d) in
    let d := mkDSA (nItemCount d - 1) (pData d) (nMaxCount d) (nItemSize d) (nGrow d) in
    let! r := shrink_data d in
    match r with
    | None => Ret (d, -1)
    | Some d => Ret (d, nIndex)
    end).

Definition DSA_DeleteAllItems (hdsa : option DSA) : outcome (option DSA * bool) :=
  on_handle hdsa false (fun d =>
    if match pData d with Some b => negb (COMCTL32_Free (blk_addr b)) | None => false end
    then Ret (d, false) else Ret (mkDSA 0 None 0 (nItemSize d) (nGrow d), true)).

Section Callbacks.
Context {T : Type} (enumProc : T -> list Z -> T * Z).

(** the callback gets the bytes of the item *)
Fixpoint enum_items (n : nat) (d : DSA) (i : Z) (s : T) : outcome T :=
  match n with
  | O => Ret s
  | S n =>
    let! p := DSA_GetItemPtr (Some d) i in
    match p with
    | None => Fault
    | Some off =>
      let! x := read_at (bytes_of d) off (nItemSize d) in
      let '(s, go) := enumProc s x in
      if go =? 0 then Ret s else enum_items n d (i + 1) s
    end
  end.
Definition DSA_EnumCallback (hdsa : option DSA) (s : T) : outcome T :=
  match hdsa with
  | None => Ret s
  | Some d => if nItemCount d <=? 0 then Ret s else enum_items (Z.to_nat (nItemCount d)) d 0 s
  end.
Definition DSA_DestroyCallback (addr : Z) (hdsa : option DSA) (s : T) : outcome (T * bool) :=
  let! s := DSA_EnumCallback hdsa s in Ret (s, DSA_Destroy addr hdsa).
End Callbacks.
End Dsa.
End Dsa.
