(* ===== verification/DsaSpec.v ===== *)
(** * Storage arrays as sequences of items

    [repr d items]: the array [d] holds the sequence [items] of byte strings of
    its item size.  Every call whose sizes fit an int returns, and does to the
    sequence what [spec] says, whatever the heap answers. *)
From S2P Require Import Prelude Dpa DpaSort DpaSpec DpaCalls Dsa.

Module DsaSpec.
Import Dpa DpaSort Dsa.

(** ** The sequence *)
Abbreviation item := (list Z).
Inductive dsa_op :=
  | OpInsert (i : Z) (x : item)
  | OpSet (i : Z) (x : item)
  | OpDelete (i : Z)
  | OpDeleteAll
  | OpGet (i : Z) (pDest : item).
Inductive dsa_result := RInt (n : Z) | RBool (b : bool) | RItem (x : item) (b : bool).

Section Spec.
Context (sz : Z) (fails refuses : Prop).
Definition sized (x : item) : Prop := zlen x = sz.
(** [spec items op items' res]: the call [op] on [items] gives [items'] and
    returns [res]; [fails] and [refuses] as for pointer arrays *)
Inductive spec : list item -> dsa_op -> list item -> dsa_result -> Prop :=
  | s_insert pre post x i : 0 <= i -> zlen pre = Z.min i (zlen (pre ++ post)) ->
      spec (pre ++ post) (OpInsert i x) (pre ++ x :: post) (RInt (zlen pre))
  | s_insert_bad items i x : i < 0 \/ fails -> spec items (OpInsert i x) items (RInt (-1))
  | s_set pre y post x : spec (pre ++ y :: post) (OpSet (zlen pre) x) (pre ++ x :: post) (RBool true)
  | s_set_after items gap x i : Forall sized gap -> i = zlen (items ++ gap) ->
      spec items (OpSet i x) (items ++ gap ++ [x]) (RBool true)
  | s_set_bad items i x : i < 0 \/ fails -> spec items (OpSet i x) items (RBool false)
  | s_delete pre y post : spec (pre ++ y :: post) (OpDelete (zlen pre)) (pre ++ post) (RInt (zlen pre))
  | s_delete_fail pre y post : fails -> spec (pre ++ y :: post) (OpDelete (zlen pre)) (pre ++ post) (RInt (-1))
  | s_delete_bad items i : ~ (0 <= i < zlen items) -> spec items (OpDelete i) items (RInt (-1))
  | s_delete_all items : spec items OpDeleteAll [] (RBool true)
  | s_delete_all_fail items : refuses -> spec items OpDeleteAll items (RBool false)
  | s_get pre y post pDest rest : length pDest = length y ->
      spec (pre ++ y :: post) (OpGet (zlen pre) (pDest ++ rest)) (pre ++ y :: post) (RItem (y ++ rest) true)
  | s_get_bad items i pDest : ~ (0 <= i < zlen items) -> spec items (OpGet i pDest) items (RItem pDest false).
End Spec.

Section Refine.
Context `{HeapOps}.

Definition fails : Prop := (exists sz, heap_alloc COMCTL32_hHeap sz = None) \/ (exists a sz, heap_realloc COMCTL32_hHeap a sz = None).
Definition refuses : Prop := exists a, heap_free COMCTL32_hHeap a = false.

Record repr (d : DSA) (items : list item) : Prop := mkRepr {
  r_count : nItemCount d = zlen items;
  r_size : 0 < nItemSize d;
  r_grow : 1 <= nGrow d;
  r_items : Forall (sized (nItemSize d)) items;
  r_room : 0 <= nMaxCount d /\ nMaxCount d * nItemSize d < 2 ^ 31;
  r_data : match pData d with
           | Some b => zlen (blk_cells b) = nMaxCount d * nItemSize d /\ exists rest, blk_cells b = concat items ++ rest
           | None => items = [] /\ nMaxCount d = 0
           end;
}.

Definition exec (d : DSA) (op : dsa_op) : outcome (option DSA * dsa_result) :=
  match op with
  | OpInsert i x => let! (d, n) := DSA_InsertItem (Some d) i x in Ret (d, RInt n)
  | OpSet i x => let! (d, b) := DSA_SetItem (Some d) i x in Ret (d, RBool b)
  | OpDelete i => let! (d, n) := DSA_DeleteItem (Some d) i in Ret (d, RInt n)
  | OpDeleteAll => let! (d, b) := DSA_DeleteAllItems (Some d) in Ret (d, RBool b)
  | OpGet i pDest => let! (x, b) := DSA_GetItem (Some d) i pDest in Ret (Some d, RItem x b)
  end.
(** sizes and counts that fit an int, buffers of an item *)
Definition supported (d : DSA) (op : dsa_op) : Prop :=
  match op with
  | OpInsert _ x => sized (nItemSize d) x /\ (nMaxCount d + nGrow d) * nItemSize d < 2 ^ 31
  | OpSet i x => sized (nItemSize d) x /\ (i + nGrow d + 1) * nItemSize d < 2 ^ 31
  | OpGet _ pDest => nItemSize d <= zlen pDest
  | _ => True
  end.

Lemma zlen_concat sz items : Forall (sized sz) items -> zlen (concat items) = zlen items * sz.
Proof. unfold sized. induction 1 as [|x items Hx Hi IH]; [done|]. cbn [concat]. rewrite zlen_app, zlen_cons, IH, Hx. lia. Qed.
(** bytes as [n] items and a rest *)
Lemma chunks sz (n : nat) (l : list Z) : 0 < sz -> Z.of_nat n * sz <= zlen l -> exists gap rest, l = concat gap ++ rest /\ length gap = n /\ Forall (sized sz) gap.
Proof.
  intros Hs. revert l. induction n as [|n IH]; intros l Hl; [by exists [], l|].
  destruct (IH (drop (Z.to_nat sz) l)) as (gap & rest & E & Hn & Hg); [unfold zlen in *; rewrite length_drop; nia|].
  exists (take (Z.to_nat sz) l :: gap), rest. cbn [concat length]. split; [by rewrite <- app_assoc, <- E, take_drop|]. split; [lia|].
  constructor; [|done]. unfold sized, zlen in *. rewrite length_take. nia.
Qed.
Lemma split_item (items : list item) i : 0 <= i < zlen items -> exists pre x post, items = pre ++ x :: post /\ i = zlen pre.
Proof.
  intros Hi. destruct (zsplit items i) as (pre & [|x post] & -> & ->); [lia|rewrite app_nil_r in Hi; lia|]. eauto.
Qed.

(** a block that keeps the bytes of [l] *)
Lemma dsa_realloc_keeps b l rest n : match b with Some b => blk_cells b = l ++ rest | None => l = [] end -> zlen l <= n < 2 ^ 31 ->
  (exists a rest', COMCTL32_ReAlloc 1 b (u32 n) = Some (Block a (l ++ rest')) /\ zlen (l ++ rest') = n) \/ (COMCTL32_ReAlloc 1 b (u32 n) = None /\ fails).
Proof.
  intros Hb Hn. pose proof (zlen_nonneg l). unfold COMCTL32_ReAlloc, HeapReAlloc, HeapAlloc. rewrite wrapU_small by (split; lia). rewrite Z.div_1_r.
  destruct b as [b|].
  - destruct (heap_realloc _ _ _) as [a|] eqn:E; [left|right; split; [done|right; eauto]].
    rewrite Hb, resize_app_ge by (unfold zlen in *; lia). eexists _, _. split; [done|]. unfold zlen in *. rewrite length_app, length_resize. lia.
  - subst l. destruct (heap_alloc _ _) as [a|] eqn:E; [left|right; split; [done|left; eauto]].
    eexists a, _. split; [done|]. unfold zlen in *. cbn [app]. rewrite length_replicate. lia.
Qed.
(** an array with at least [n] items of room, whose bytes start with [items] *)
Definition roomy (d : DSA) (items : list item) (n : Z) (e : DSA) : Prop :=
  exists a rest, pData e = Some (Block a (concat items ++ rest)) /\ zlen (concat items ++ rest) = nMaxCount e * nItemSize e /\
    nItemSize e = nItemSize d /\ nGrow e = nGrow d /\ n <= nMaxCount e /\ nMaxCount e * nItemSize e < 2 ^ 31.
Lemma put_item_at d a p x y q i pSrc : pData d = Some (Block a (p ++ y ++ q)) -> length y = length x -> 0 < nItemSize d < 2 ^ 31 -> zlen x = nItemSize d -> pSrc = x ->
  zlen p = nItemSize d * i -> zlen p < 2 ^ 31 -> put_item d i pSrc = Ret (mkDSA (nItemCount d) (Some (Block a (p ++ x ++ q))) (nMaxCount d) (nItemSize d) (nGrow d)).
Proof.
  intros Hd Hy Hs Hx -> Hp Hp31. pose proof (zlen_nonneg p). unfold put_item, mul_int. rewrite <- Hp. replace (_ && _) with true by lia. cbn [obind].
  rewrite wrapU_small by (split; lia). rewrite <- Hx. pose proof (read_bytes_app x []) as E. rewrite app_nil_r in E. rewrite E. cbn [obind].
  unfold upd_data. rewrite Hd. cbn [blk_cells]. rewrite put_bytes_app by done. cbn [obind blk_addr]. by rewrite Hx.
Qed.

(** the array with the items [items], from its parts *)
Lemma repr_intro a c items n sz g : 0 < sz -> 1 <= g -> Forall (sized sz) items -> zlen c = n * sz -> n * sz < 2 ^ 31 -> (exists rest, c = concat items ++ rest) ->
  repr (mkDSA (zlen items) (Some (Block a c)) n sz g) items.
Proof. intros Hs Hg Hi Hc Hn He. pose proof (zlen_nonneg c). split; cbn [nItemCount nItemSize nGrow nMaxCount pData blk_cells]; [done|done|done|done|nia|by split]. Qed.

Lemma repr_realloc d items n : repr d items -> zlen items * nItemSize d <= n < 2 ^ 31 ->
  (exists a rest, COMCTL32_ReAlloc 1 (pData d) (u32 n) = Some (Block a (concat items ++ rest)) /\ zlen (concat items ++ rest) = n) \/
  (COMCTL32_ReAlloc 1 (pData d) (u32 n) = None /\ fails).
Proof.
  intros [R1 R2 R3 R4 R5 R6] Hn. rewrite <- (zlen_concat _ _ R4) in Hn. destruct (pData d) as [b|].
  - destruct R6 as (_ & rest & Hb). by apply (dsa_realloc_keeps (Some b) (concat items) rest).
  - destruct R6 as (-> & _). by apply (dsa_realloc_keeps None [] []).
Qed.

Lemma read_at_app p y q : read_at (p ++ y ++ q) (zlen p) (zlen y) = Ret y.
Proof.
  unfold read_at. rewrite !zlen_app. pose proof (zlen_nonneg p). pose proof (zlen_nonneg y). pose proof (zlen_nonneg q). replace (_ && _ && _) with true by lia.
  by rewrite !zlen_nat, drop_app_length, take_app_length.
Qed.
Lemma read_at_app' p y q n : zlen y = n -> read_at (p ++ y ++ q) (zlen p) n = Ret y.
Proof. intros <-. apply read_at_app. Qed.

Section Step.
Context (d : DSA) (items : list item) (R : repr d items).

Lemma grow_spec : (nMaxCount d + nGrow d) * nItemSize d < 2 ^ 31 ->
  (exists e, grow_data d = Ret (Some e) /\ nItemCount e = zlen items /\ roomy d items (zlen items + 1) e) \/ (grow_data d = Ret None /\ fails).
Proof.
  intros Hn. pose proof R as [R1 R2 R3 R4 R5 R6]. pose proof (zlen_nonneg items). unfold grow_data. rewrite R1. destruct (Z.leb_spec (nMaxCount d) (zlen items)) as [Hl|Hl].
  - unfold add_int. replace (_ && _) with true by nia. cbn [obind]. unfold mul_int. replace (_ && _) with true by nia. cbn [obind].
    assert (Hm : zlen items <= nMaxCount d).
    { destruct (pData d) as [b|]; [destruct R6 as (Hz & rest & Hb)|destruct R6 as (-> & ->); done]. rewrite Hb, zlen_app, (zlen_concat _ _ R4) in Hz. pose proof (zlen_nonneg rest). nia. }
    destruct (repr_realloc d items (nItemSize d * (nMaxCount d + nGrow d)) R) as [(a & rest & -> & Hz)|(-> & Hf)]; [nia| |by right].
    left. eexists. split; [done|]. split; [done|]. exists a, rest. cbn [pData nMaxCount nItemSize nGrow]. split_and!; done || nia.
  - left. exists d. split; [done|]. split; [done|]. destruct (pData d) as [[a c]|] eqn:Ep; [|destruct R6; lia].
    destruct R6 as (Hz & rest & Hc). cbn [blk_cells] in *. subst c. exists a, rest. split_and!; done || lia.
Qed.

(** a roomy array has an item of room behind its items *)
Lemma roomy_split e its : Forall (sized (nItemSize d)) its -> roomy d its (zlen its + 1) e ->
  exists a y rest, pData e = Some (Block a (concat its ++ y ++ rest)) /\ zlen (concat its ++ y ++ rest) = nMaxCount e * nItemSize e /\ zlen y = nItemSize d /\
    nItemSize e = nItemSize d /\ nGrow e = nGrow d /\ nMaxCount e * nItemSize e < 2 ^ 31.
Proof.
  intros Hi (a & rest & E1 & E2 & E3 & E4 & E5 & E6). pose proof R as [R1 R2 R3 R4 R5 R6]. pose proof (zlen_concat _ _ Hi) as Hz. rewrite zlen_app in E2. rewrite E3 in *.
  exists a, (take (Z.to_nat (nItemSize d)) rest), (drop (Z.to_nat (nItemSize d)) rest). rewrite take_drop. split_and!; try done; [by rewrite zlen_app|].
  unfold zlen in *. rewrite length_take. nia.
Qed.

Definition simulated (op : dsa_op) : Prop :=
  exists d' items' res, exec d op = Ret (Some d', res) /\ repr d' items' /\ nItemSize d' = nItemSize d /\ spec (nItemSize d) fails refuses items op items' res.

Lemma dsa_sim_insert i x : supported d (OpInsert i x) -> simulated (OpInsert i x).
Proof.
  intros (Hx & Hn). pose proof R as [R1 R2 R3 R4 R5 R6]. unfold simulated. cbn [exec]. unfold DSA_InsertItem, on_handle. destruct (Z.ltb_spec i 0) as [Hi|Hi].
  { cbn [obind]. exists d, items, (RInt (-1)). split_and!; try done. apply s_insert_bad. by left. }
  destruct (grow_spec Hn) as [(e & -> & Hec & He)|(-> & Hf)]; cbn [obind].
  2: { exists d, items, (RInt (-1)). split_and!; try done. apply s_insert_bad. by right. }
  rewrite R1. set (j := if zlen items <=? i then zlen items else i). pose proof (zlen_nonneg items) as H0.
  assert (Hj : j = Z.min i (zlen items)) by (unfold j; destruct (Z.leb_spec (zlen items) i); lia). clearbody j.
  destruct (roomy_split e items R4 He) as (a & y & rest & E1 & E2 & E3 & E4 & E5 & E6). rewrite Hec.
  destruct (zsplit items j) as (pre & post & Hpp & Hjp); [lia|]. rewrite Hpp in R4, E1, E2. apply Forall_app in R4 as [Fpre Fpost].
  pose proof (zlen_concat _ _ Fpre) as Zpre. pose proof (zlen_concat _ _ Fpost) as Zpost. pose proof (zlen_nonneg pre). pose proof (zlen_nonneg post). pose proof (zlen_nonneg rest).
  rewrite concat_app in E1, E2. rewrite <- app_assoc in E1, E2. rewrite !zlen_app, E3, Zpre, Zpost in E2. assert (Zi : zlen items = zlen pre + zlen post) by (by rewrite Hpp, zlen_app).
  set (m := if j <? zlen items then _ else _).
  assert (Hm : exists z, length z = length y /\ m = Ret (mkDSA (nItemCount e) (Some (Block a (concat pre ++ z ++ concat post ++ rest))) (nMaxCount e) (nItemSize e) (nGrow e))).
  { subst m. destruct (Z.ltb_spec j (zlen items)) as [Hl|Hl].
    - unfold mul_int. rewrite E4. replace (_ && _) with true by nia. cbn [obind]. replace (_ && _) with true by nia. cbn [obind]. unfold upd_data. rewrite E1. cbn [blk_cells].
      replace (u32 _) with (zlen (concat post)) by (rewrite wrapU_small; [|split]; nia). destruct (move_up (concat pre) (concat post) y rest) as (z & Hz & Em).
      exists z. split; [done|]. replace (nItemSize d * j) with (zlen (concat pre)) by (rewrite Zpre; lia). rewrite E3 in Em. rewrite Em. cbn [obind blk_addr]. by rewrite E4.
    - assert (post = []) as -> by (destruct post; [done|rewrite zlen_cons in *; pose proof (zlen_nonneg post); lia]). exists y. split; [done|]. cbn [concat app] in *. destruct e; cbn in *. by rewrite E1. }
  destruct Hm as (z & Hzy & ->). cbn [obind nItemCount pData nMaxCount nItemSize nGrow]. unfold add_int. replace (_ && _) with true by nia. cbn [obind]. unfold sized in Hx.
  rewrite (put_item_at _ a (concat pre) x z (concat post ++ rest)); cbn [nItemCount pData nMaxCount nItemSize nGrow]; [|done|unfold zlen in *; lia|rewrite E4; nia|lia|done|rewrite E4; lia|nia].
  cbn [obind]. eexists _, (pre ++ x :: post), (RInt (zlen pre)). rewrite <- Hjp. split; [done|]. split; [|split; [done|rewrite Hpp, Hjp; apply s_insert; [done|by rewrite zlen_app; lia]]].
  replace (nItemCount e + 1) with (zlen (pre ++ x :: post)) by (rewrite zlen_app, zlen_cons; lia).
  apply repr_intro; [lia|lia|rewrite E4; apply Forall_app; split; [done|by constructor]|rewrite !zlen_app, Zpre, Zpost; nia|done|].
  exists rest. rewrite concat_app. cbn [concat]. by rewrite <- !app_assoc.
Qed.

Lemma room_count : zlen items <= nMaxCount d.
Proof.
  pose proof R as [R1 R2 R3 R4 R5 R6]. destruct (pData d) as [b|]; [destruct R6 as (Hz & rest & Hb)|destruct R6 as (-> & ->); done].
  rewrite Hb, zlen_app, (zlen_concat _ _ R4) in Hz. pose proof (zlen_nonneg rest). nia.
Qed.
Lemma set_room_spec i : zlen items <= i -> (i + nGrow d + 1) * nItemSize d < 2 ^ 31 ->
  (exists e, Dsa.set_room d i = Ret (Some e) /\ nItemCount e = i + 1 /\ roomy d items (i + 1) e) \/ (Dsa.set_room d i = Ret None /\ fails).
Proof.
  intros Hl Hn. pose proof R as [R1 R2 R3 R4 R5 R6]. pose proof (zlen_nonneg items). pose proof room_count as Hrc. unfold Dsa.set_room. rewrite R1. replace (zlen items <=? i) with true by lia.
  unfold add_int. replace (_ && _) with true by nia. cbn [obind]. destruct (Z.ltb_spec i (nMaxCount d)) as [Hm|Hm].
  - left. eexists. split; [done|]. split; [done|]. destruct (pData d) as [[a c]|] eqn:Ep; [|destruct R6; lia].
    destruct R6 as (Hz & rest & Hc). cbn [blk_cells] in *. subst c. exists a, rest. cbn [pData nMaxCount nItemSize nGrow]. split_and!; done || lia.
  - unfold round_up, div_int. replace (_ || _) with false by lia. cbn [obind]. rewrite Z.quot_div_nonneg by lia.
    pose proof (Z.div_mod i (nGrow d)) as Hd. pose proof (Z.mod_pos_bound i (nGrow d)) as Hb. pose proof (Z.div_pos i (nGrow d)) as Hq. set (q := i / nGrow d) in *. set (n := nGrow d * (q + 1)).
    assert (Hn2 : i + 1 <= n <= i + nGrow d) by (unfold n; nia). assert (Hq2 : q + 1 <= n) by (unfold n; nia). assert (Hns : n * nItemSize d < 2 ^ 31) by nia. assert (Hn31 : n < 2 ^ 31) by nia. assert (Hsn : 0 <= nItemSize d * n < 2 ^ 31) by nia.
    unfold add_int. replace (_ && _) with true by lia. cbn [obind]. unfold mul_int. fold n. replace (_ && _) with true by lia. cbn [obind]. replace (_ && _) with true by lia. cbn [obind].
    destruct (repr_realloc d items (nItemSize d * n) R) as [(a & rest & -> & Hz)|(-> & Hf)]; [nia| |by right].
    left. eexists. split; [done|]. split; [done|]. exists a, rest. cbn [pData nMaxCount nItemSize nGrow]. split_and!; done || nia.
Qed.

Lemma sim_set_after i x : zlen items <= i -> supported d (OpSet i x) -> simulated (OpSet i x).
Proof.
  intros Hl (Hx & Hn). pose proof R as [R1 R2 R3 R4 R5 R6]. pose proof (zlen_nonneg items). unfold simulated. cbn [exec]. unfold DSA_SetItem, on_handle. replace (i <? 0) with false by lia.
  destruct (set_room_spec i Hl Hn) as [(e & -> & Hec & a & rest & E1 & E2 & E3 & E4 & E5 & E6)|(-> & Hf)]; cbn [obind].
  2: { exists d, items, (RBool false). split_and!; try done. apply s_set_bad. by right. }
  pose proof (zlen_concat _ _ R4) as Zi. rewrite zlen_app, Zi in E2. rewrite E3 in *.
  destruct (chunks (nItemSize d) (Z.to_nat (i - zlen items)) rest R2) as (gap & rest1 & -> & Hgl & Fg); [nia|]. assert (Hg : zlen gap = i - zlen items) by (unfold zlen in *; lia).
  pose proof (zlen_concat _ _ Fg) as Zg. rewrite zlen_app, Zg, Hg in E2.
  assert (Hr1 : zlen rest1 = (nMaxCount e - i) * nItemSize d) by lia. assert (Hge : nItemSize d <= (nMaxCount e - i) * nItemSize d) by nia.
  destruct (chunks (nItemSize d) 1 rest1 R2) as ([|y [|]] & rest2 & -> & Hy1 & Fy); [lia|done| |done]. cbn [concat] in E1, E2. rewrite app_nil_r in E1, E2. pose proof (Forall_inv Fy) as Hy. unfold sized in Hy, Hx.
  rewrite zlen_app, Hy in E2. pose proof (zlen_nonneg rest2).
  rewrite (put_item_at e a (concat (items ++ gap)) x y rest2); [|by rewrite concat_app, <- app_assoc|unfold zlen in *; lia|rewrite E3; nia|lia|done|rewrite concat_app, zlen_app, Zi, Zg, E3; nia|rewrite concat_app, zlen_app, Zi, Zg; nia].
  cbn [obind]. eexists _, (items ++ gap ++ [x]), (RBool true). split; [done|]. split; [|split; [done|apply s_set_after; [done|rewrite zlen_app; lia]]].
  rewrite Hec, E3. replace (i + 1) with (zlen (items ++ gap ++ [x])) by (rewrite !zlen_app, (zlen_cons x []), zlen_nil; lia).
  apply repr_intro; [lia|lia|rewrite !Forall_app; split_and!; [done|done|by repeat constructor]|rewrite concat_app, !zlen_app, Zi, Zg; nia|lia|].
  exists rest2. rewrite !concat_app. cbn [concat]. by rewrite app_nil_r, <- !app_assoc.
Qed.
(** the bytes around an item *)
Lemma item_bytes pre y post : items = pre ++ y :: post ->
  exists a rest, pData d = Some (Block a (concat pre ++ y ++ concat post ++ rest)) /\ zlen (concat pre) = zlen pre * nItemSize d /\ zlen (concat post) = zlen post * nItemSize d /\
    zlen y = nItemSize d /\ Forall (sized (nItemSize d)) pre /\ Forall (sized (nItemSize d)) post /\
    zlen pre * nItemSize d + nItemSize d + zlen post * nItemSize d + zlen rest = nMaxCount d * nItemSize d.
Proof.
  intros Hi. pose proof R as [R1 R2 R3 R4 R5 R6]. rewrite Hi in R4, R6. apply Forall_app in R4 as [Fpre Fp]. pose proof (Forall_inv Fp) as Fy. pose proof (Forall_inv_tail Fp) as Fpost.
  destruct (pData d) as [[a c]|]; [|destruct R6 as [R6 _]; by destruct pre]. destruct R6 as (Hz & rest & Hc). cbn [blk_cells] in *. subst c. rewrite concat_app in *. cbn [concat] in *. rewrite <- !app_assoc in *.
  pose proof (zlen_concat _ _ Fpre) as Zpre. pose proof (zlen_concat _ _ Fpost) as Zpost. unfold sized in Fy. rewrite !zlen_app, Zpre, Zpost, Fy in Hz.
  exists a, rest. split_and!; done || lia.
Qed.
Lemma dsa_sim_set i x : supported d (OpSet i x) -> simulated (OpSet i x).
Proof.
  intros Hs. pose proof R as [R1 R2 R3 R4 R5 R6]. destruct (decide (zlen items <= i)) as [Hl|Hl]; [by apply sim_set_after|]. destruct Hs as (Hx & Hn).
  unfold simulated. cbn [exec]. unfold DSA_SetItem, on_handle. destruct (Z.ltb_spec i 0) as [Hi|Hi].
  { cbn [obind]. exists d, items, (RBool false). split_and!; try done. apply s_set_bad. by left. }
  unfold Dsa.set_room. rewrite R1. replace (zlen items <=? i) with false by lia. cbn [obind]. destruct (split_item items i) as (pre & y & post & Hip & ->); [lia|].
  destruct (item_bytes pre y post Hip) as (a & rest & E1 & Zpre & Zpost & Hy & Fpre & Fpost & Hz). unfold sized in Hx. pose proof (zlen_nonneg pre). pose proof (zlen_nonneg post). pose proof (zlen_nonneg rest).
  rewrite (put_item_at d a (concat pre) x y (concat post ++ rest)); [|done|unfold zlen in *; lia|nia|lia|done|lia|nia]. cbn [obind].
  eexists _, (pre ++ x :: post), (RBool true). split; [done|]. split; [|split; [done|rewrite Hip; apply s_set]].
  rewrite R1. replace (zlen items) with (zlen (pre ++ x :: post)) by (rewrite Hip, !zlen_app, !zlen_cons; lia).
  apply repr_intro; [lia|lia|apply Forall_app; split; [done|by constructor]|rewrite !zlen_app, Zpre, Zpost; lia|lia|].
  exists rest. rewrite concat_app. cbn [concat]. by rewrite <- !app_assoc.
Qed.

Lemma dsa_sim_get i pDest : supported d (OpGet i pDest) -> simulated (OpGet i pDest).
Proof.
  intros Hs. pose proof R as [R1 R2 R3 R4 R5 R6]. unfold simulated. cbn [exec supported] in *. unfold DSA_GetItem. rewrite R1. destruct (decide (0 <= i < zlen items)) as [Hi|Hi].
  2: { replace (_ || _) with true by lia. cbn [obind]. exists d, items, (RItem pDest false). split_and!; try done. by apply s_get_bad. }
  replace (_ || _) with false by lia. destruct (split_item items i Hi) as (pre & y & post & Hip & ->).
  destruct (item_bytes pre y post Hip) as (a & rest & E1 & Zpre & Zpost & Hy & Fpre & Fpost & Hz). pose proof (zlen_nonneg pre). pose proof (zlen_nonneg post). pose proof (zlen_nonneg rest).
  unfold mul_int. replace (_ && _) with true by nia. cbn [obind]. rewrite wrapU_small by (split; nia). unfold bytes_of. rewrite E1. cbn [blk_cells]. replace (nItemSize d * zlen pre) with (zlen (concat pre)) by lia.
  rewrite (read_at_app' (concat pre) y (concat post ++ rest)) by done. cbn [obind].
  set (b := take (length y) pDest). assert (Hb : length b = length y) by (apply length_take_le; unfold zlen in *; lia).
  rewrite <- (take_drop (length y) pDest). fold b. pose proof (put_bytes_app [] b (drop (length y) pDest) y 0) as Ep. cbn [app] in Ep. rewrite Ep by done. cbn [obind].
  exists d, items. eexists. split; [done|]. split; [done|]. split; [done|]. rewrite Hip. by apply s_get.
Qed.
Lemma dsa_sim_delete_all : simulated OpDeleteAll.
Proof.
  pose proof R as [R1 R2 R3 R4 R5 R6]. unfold simulated. cbn [exec]. unfold DSA_DeleteAllItems, on_handle. destruct (match pData d with Some b => negb _ | None => false end) eqn:Ef; cbn [obind].
  - exists d, items, (RBool false). split_and!; try done. apply s_delete_all_fail. destruct (pData d) as [b|]; [|done]. exists (blk_addr b). by apply negb_true_iff.
  - eexists _, [], (RBool true). split; [done|]. split; [|split; [done|constructor]]. by split.
Qed.
End Step.

Lemma dsa_shrink_spec d items : repr d items ->
  (exists e, shrink_data d = Ret (Some e) /\ repr e items /\ nItemSize e = nItemSize d) \/ (shrink_data d = Ret None /\ fails).
Proof.
  intros R. pose proof R as [R1 R2 R3 R4 R5 R6]. pose proof (zlen_nonneg items). pose proof (room_count d items R) as Hrc. unfold shrink_data, sub_int. rewrite R1. replace (_ && _) with true by nia. cbn [obind].
  destruct (_ <=? _); [|left; by exists d]. unfold mul_int. replace (_ && _) with true by nia. cbn [obind].
  destruct (repr_realloc d items (nItemSize d * zlen items) R) as [(a & rest & -> & Hz)|(-> & Hf)]; [nia| |by right].
  left. eexists. split; [done|]. split; [|done]. apply repr_intro; [done|done|done|lia|nia|by eexists].
Qed.
Lemma dsa_sim_delete d items i : repr d items -> simulated d items (OpDelete i).
Proof.
  intros R. pose proof R as [R1 R2 R3 R4 R5 R6]. unfold simulated. cbn [exec]. unfold DSA_DeleteItem, on_handle. rewrite R1. destruct (decide (0 <= i < zlen items)) as [Hi|Hi].
  2: { replace (_ || _) with true by lia. cbn [obind]. exists d, items, (RInt (-1)). split_and!; try done. by apply s_delete_bad. }
  replace (_ || _) with false by lia. destruct (split_item items i Hi) as (pre & y & post & Hip & ->).
  destruct (item_bytes d items R pre y post Hip) as (a & rest & E1 & Zpre & Zpost & Hy & Fpre & Fpost & Hz). pose proof (zlen_nonneg pre). pose proof (zlen_nonneg post). pose proof (zlen_nonneg rest).
  assert (Zi : zlen items = zlen pre + zlen post + 1) by (rewrite Hip, zlen_app, zlen_cons; lia).
  set (m := if zlen pre <? zlen items - 1 then _ else _).
  assert (Hm : exists z, length z = length y /\ m = Ret (mkDSA (nItemCount d) (Some (Block a (concat pre ++ concat post ++ z ++ rest))) (nMaxCount d) (nItemSize d) (nGrow d))).
  { subst m. destruct (Z.ltb_spec (zlen pre) (zlen items - 1)) as [Hl|Hl].
    - unfold mul_int. replace (_ && _) with true by nia. cbn [obind]. replace (_ && _) with true by nia. cbn [obind]. unfold upd_data. rewrite E1. cbn [blk_cells].
      replace (u32 _) with (zlen (concat post)) by (rewrite wrapU_small; [|split]; nia). destruct (move_down (concat pre) y (concat post) rest) as (z & Hzl & Em).
      exists z. split; [done|]. replace (nItemSize d * zlen pre) with (zlen (concat pre)) by lia. rewrite <- Hy at 1. rewrite Em. done.
    - assert (post = []) as -> by (destruct post; [done|rewrite zlen_cons in *; pose proof (zlen_nonneg post); lia]). exists y. split; [done|]. cbn [concat app] in *. destruct d; cbn in *. by subst. }
  destruct Hm as (z & Hzl & ->). cbn [obind nItemCount pData nMaxCount nItemSize nGrow]. rewrite R1. set (e := mkDSA _ _ _ _ _).
  assert (Re : repr e (pre ++ post)).
  { subst e. replace (zlen items - 1) with (zlen (pre ++ post)) by (rewrite zlen_app; lia). assert (Hzz : zlen z = nItemSize d) by (unfold zlen in *; lia).
    apply repr_intro; [done|done|by apply Forall_app|rewrite !zlen_app, Zpre, Zpost, Hzz; lia|nia|]. exists (z ++ rest). by rewrite concat_app, <- app_assoc. }
  destruct (dsa_shrink_spec e (pre ++ post) Re) as [(f & -> & Rf & Hf)|(-> & Hf)]; cbn [obind].
  - exists f, (pre ++ post), (RInt (zlen pre)). split_and!; [done|done|by rewrite Hf|]. rewrite Hip. apply s_delete.
  - exists e, (pre ++ post), (RInt (-1)). split_and!; [done|done|done|]. rewrite Hip. by apply s_delete_fail.
Qed.
Lemma create_repr nSize grow a d : DSA_Create nSize grow = Some (a, d) -> 0 < nSize -> repr d [].
Proof.
  unfold DSA_Create. intros E Hs. destruct (heap_alloc _ _); [|done]. injection E as _ <-. split; cbn [nItemCount nItemSize nGrow nMaxCount pData]; [done|done|lia|done|lia|done].
Qed.

Lemma enum_items_spec {T} (f : T -> list Z -> T * Z) d items post pre s : repr d items -> items = pre ++ post ->
  enum_items f (length post) d (zlen pre) s = Ret (DpaSpec.visit f post s).
Proof.
  intros R. revert pre s. induction post as [|y post IH]; intros pre s Hi; [done|]. cbn [enum_items length DpaSpec.visit].
  destruct (item_bytes d items R pre y post Hi) as (a & rest & E1 & Zpre & Zpost & Hy & Fpre & Fpost & Hz). pose proof R as [R1 R2 R3 R4 R5 R6].
  pose proof (zlen_nonneg pre). pose proof (zlen_nonneg post). pose proof (zlen_nonneg rest). unfold DSA_GetItemPtr. rewrite R1.
  replace (_ || _) with false by (rewrite Hi, zlen_app, zlen_cons; lia). unfold mul_int. replace (_ && _) with true by nia. cbn [obind].
  unfold bytes_of. rewrite E1. cbn [blk_cells]. replace (nItemSize d * zlen pre) with (zlen (concat pre)) by lia. rewrite (read_at_app' (concat pre) y (concat post ++ rest)) by done. cbn [obind].
  destruct (f s y) as [s1 go]. destruct (go =? 0); [done|]. specialize (IH (pre ++ [y]) s1). rewrite zlen_snoc, <- app_assoc in IH. by apply IH.
Qed.
(** DSA_EnumCallback calls the callback on the items in order until it returns 0. *)
Theorem DSA_EnumCallback_visits {T} (f : T -> list Z -> T * Z) d items s : repr d items -> DSA_EnumCallback f (Some d) s = Ret (DpaSpec.visit f items s).
Proof.
  intros R. unfold DSA_EnumCallback. rewrite (r_count _ _ R), zlen_nat. pose proof (enum_items_spec f d items items [] s R eq_refl) as E. change (zlen (@nil (list Z))) with 0 in E. rewrite E.
  destruct (Z.leb_spec (zlen items) 0); [|done]. destruct items as [|x items]; [done|rewrite zlen_cons in *; pose proof (zlen_nonneg items); lia].
Qed.

(** C27: an array of DSA_Create holds the empty sequence, and from an array that
    holds a sequence of items every insertion, change, deletion and read whose
    sizes fit an int returns without touching memory outside the array or the
    buffers of the caller, leaves a well-formed array, and gives the sequence
    and the result that the abstract calls give, whatever the heap answers. *)
Theorem dsa_refines_sequence :
  (forall nSize grow a d, DSA_Create nSize grow = Some (a, d) -> 0 < nSize -> repr d []) /\
  (forall d items op, repr d items -> supported d op ->
     exists d' items' res, exec d op = Ret (Some d', res) /\ repr d' items' /\ nItemSize d' = nItemSize d /\
       spec (nItemSize d) fails refuses items op items' res).
Proof.
  split; [intros nSize grow a d; apply create_repr|]. intros d items op R Hs.
  destruct op; [by apply dsa_sim_insert|by apply dsa_sim_set|by apply dsa_sim_delete|by apply dsa_sim_delete_all|by apply dsa_sim_get].
Qed.
End Refine.

(** ** An array of three items of two bytes *)
Definition three : DSA := mkDSA 3 (Some (Block 4096 [1; 2; 3; 4; 5; 6; 0; 0])) 4 2 2.
Lemma three_repr : repr three [[1; 2]; [3; 4]; [5; 6]].
Proof. split; cbn; [done|lia|lia|by repeat constructor|lia|split; [done|by exists [0; 0]]]. Qed.
Lemma dsa_refines_sequence_witness : exists d' items' res, exec (H := DpaCalls.arena 0) three (OpInsert 1 [7; 8]) = Ret (Some d', res) /\ repr d' items' /\ nItemSize d' = 2 /\
  spec 2 (fails (H := DpaCalls.arena 0)) (refuses (H := DpaCalls.arena 0)) [[1; 2]; [3; 4]; [5; 6]] (OpInsert 1 [7; 8]) items' res.
Proof. apply (proj2 (dsa_refines_sequence (H := DpaCalls.arena 0)) three); [exact three_repr|split; [reflexivity|reflexivity]]. Defined.
End DsaSpec.
